(* ===== verification/_CoqProject ===== *)
-Q . S2P
Prelude.v
Errors.v
Dates.v
Currencies.v
Money.v
Fees.v
Ulid.v
Snowflake.v
Subjects.v
Wire.v
Json.v
Signature.v
Jwt.v
Redis.v
Suspicious.v
Subscriber.v
Validators.v
Transfer.v
SendMoney.v
Connector.v
Pkcs11.v
ClientCert.v
Inbound.v
Access.v
AuditTrail.v
AuditConsumer.v
Perform.v
Callbacks.v
LiveStats.v
Sorting.v
Pages.v
ReportQueue.v
Reports.v
Rollup.v
Dashboard.v
Interleave.v
Accounts.v
Sessions.v
Passwords.v
Users.v
Governance.v
Outside.v
Tenants.v
Rows.v
Trust.v
Publication.v
Rotation.v
Certificates.v
Issuance.v
Vault.v
Custody.v
Keys.v
UserMessages.v
TransferStatus.v
Tokens.v
Secrets.v
Enrolment.v
Registration.v
Migrations.v
Oracle.v
