(* ===== verification/Prelude.v ===== *)
(** * Pivotal: a verification library for the ThitsaX Pivotal payment adapter

    Pivotal connects payer applications and back offices to a Mojaloop hub over the
    FSPIOP API. A payer's transfer takes three calls: send-money looks the payee up,
    accept-party asks for a quote, accept-quote posts the transfer. Each call posts a
    signed request to the hub and waits for a callback, which the inbound service checks,
    audits and publishes on a NATS subject; the state of the transfer is kept in Redis
    between the calls. On the payee's side the inbound service publishes the hub's requests
    to a connector, which asks the back office and puts the answer to the hub. Every step is
    reported to the audit service, which keeps a row per transaction, rolls rows up by the
    hour, counts them live, and serves pages, reports and dashboards to a portal with users,
    roles and sessions. The participants of the hub, the keys they sign with and the
    certificates they connect with are kept in tables and in Vault, and the public keys are
    published to the connection manager of the hub (MCM). This library models the decisions
    of these parts.

    ** Files and the code they model

    Paths are below src/packages/.

    Foundations:
    - Prelude: results for JavaScript exceptions, JavaScript strings, decimal digits,
      and the lists, strings and tactics the other files share.
    - Errors: shared/fspiop/exception, fspiop-error-translator.ts, fspiop-status-translator.ts.
    - Dates, Currencies, Money: fspiop-dates.ts, fspiop-currencies.ts, fspiop-money.ts of
      shared/fspiop/component. Amounts are digit strings, minor units unbounded integers
      checked against UINT64_MAX.
    - Fees: shared/catalyst/component; the Catalyst service is an argument.
    - Ulid, Snowflake: shared/ulid, shared/snowflake. The clock is a sequence of readings,
      random bytes are arguments.
    - Json: JSON.parse and JSON.stringify on UTF-16 texts.
    - Sorting: stable sorting by a comparator, as Array.prototype.sort and ORDER BY do.
    - Interleave: commands as trees of database calls, their runs alone and interleaved.

    The wire:
    - Subjects: fspiop-pub-sub-subjects.ts, a module per API resource.
    - Wire: fspiop-urls.ts, fspiop-uri.ts, fspiop-headers.ts, fspiop-protected-header.ts,
      fspiop-verify-mode.ts.
    - Signature, Jwt: fspiop-signature.ts, jws-signer.ts, fspiop-signing.interceptor.ts of
      shared/fspiop/component; shared/security/component/jwt.
    - Inbound: nest/guard/fsp-inbound.guard.ts. Access, ClientCert: the guards of
      apps/web-outbound and security/xfcc.ts.
    - Pkcs11: shared/pkcs11/component: session pool, queue of tenant logins, key cache.

    The payer's side, core/outbound/domain:
    - Redis: redis-client.ts. The server is the class [RedisServer]: commands with their
      documented effect on a keyspace with times to live. A call may fail before or after
      the server ran it ([fault]). Suspicious: suspicious-transaction-monitor.ts.
    - Validators, Transfer: the constraints, the DTOs, the cached TransferRequest,
      send-money-response.mapper.ts, the functions that build requests and responses.
    - SendMoney: the three handlers as computations over Redis and a trace of effects. An
      [Env] decides, for each call site, what others did to Redis since the previous one,
      whether the call fails, and what the hub answers: the theorems quantify over it.
    - Subscriber: shared/fspiop/component/nats/fspiop-response-subscriber.ts as a state
      machine ([step]) of waiters, subjects, timers and unclaimed callbacks.
    - UserMessages: messages for customers, the filter that answers errors. TransferStatus:
      the status of a transfer, told from its row in AuditTrail. Oracle: prefixes cached in
      Redis, the registry of MSISDNs, rates. Tokens: shared/fspiop/component/security and
      shared/mcm-client/component, the access tokens of the hub and of MCM.

    The payee's side and the gateway:
    - Connector: shared/interledger and core/connector/domain/component: packets,
      conditions, fulfilments, quotes and transfers. The back office is an argument.
    - Perform: core/connector/domain/command and consumer/listener: what a handler attempts
      in order, what it throws, and the deliveries of JetStream until it acknowledges.
    - Callbacks: apps/web-inbound/controllers and core/inbound/domain/command.

    The audit service, core/audit:
    - AuditTrail: the merge of an upsert column by column, audit-transaction.mapper.ts.
      AuditConsumer: the messages, their dispatch and the fate of a delivery.
    - LiveStats: the live counters and their Lua script. Rollup: aggregation, replacement of
      a window, lock, scheduler, backfill and reconciliation. Dashboard: reads over the
      roll-up and the edges of a range, by local days.
    - Pages: keyset pagination. ReportQueue: requests and workers. Reports: parts and CSV.

    Users of the portal, core/auth/domain and the guards of apps/web-pivotal:
    - Accounts: tables with the statements of the repositories, tokens, temporary passwords.
    - Sessions, Passwords: login, refresh, logout, change of password, the guards; the
      theorems on lockouts and passwords.
    - Users, Governance: the policy and the commands of administration; their theorems.

    Participants and trust, core/participant/domain, core/trust/domain, shared/vault:
    - Outside: calls that may fail before or after they are served, lagging replicas,
      clocks. Tenants: the table of keys, onboarding, the policy of signing, publication to
      MCM, its sweep and its announcements, keys synced from MCM. Rows: what each of these
      commands keeps, for any invariant of rows (the class [RowInvariant]). Trust,
      Publication, Rotation: who may sign, how publication converges, keys that change.
    - Certificates, Issuance: enrolment and revocation of client certificates, and the guard
      of ClientCert over the table they leave.
    - Vault: vault-client.ts over a server of tokens and KV v2 secrets (the class [Server]);
      [KvStore] with [KvLaws] is what its callers rely on.
    - Custody, Keys: where private keys are made and found, the cache of keys of a gateway.
    - Secrets, Enrolment, Registration: kubernetes-secret-writer.ts and the jobs of
      core/trust that keep certificates: the server certificate and the authorities in
      Secrets, the certificate the hub calls back with, Pivotal's authority in MCM.
    - Migrations: shared/dbmigration, the history of scripts run on a database.

    The dependencies are those of the code. A client sees its service through an interface:
    SendMoney the subscriber through the promise of [waitFor], which Subscriber settles and
    Callbacks wakes; Redis, Json, Connector, Accounts take the services and packages they
    call as classes ([RedisServer], [JSNumber], [IlpLibrary], [JsDates], [Credentials],
    [Surroundings], [Authority], [Server], [Publisher], [HubSide], [Authorities]) with their documented laws, and an instance of
    each is built for the examples. Tenants takes a [JwsKeyProvisioner], which Custody
    implements over a [KvStore], which Vault implements over a [Server].

    ** Conventions

    A function that may throw is a function into [result]; [let!] is a statement that
    may throw, [do!] an [await] in a handler of SendMoney, [let*] a call of a command of the
    portal. A JavaScript string is a list of characters below 256, in Json and Signature of
    UTF-16 units. An optional member is an option; [null] and [undefined] are not told apart
    where the code does not. Objects the code mutates are returned by the functions that
    mutate them. BigInt and the numbers of the code that stay below 2^53 are integers, times
    are milliseconds.

    ** What the theorems show

    - A transfer of the payer (SendMoney, Redis, Subscriber): every run of a handler is its
      full course of effects, nothing, or a prefix of the course ended by the error message
      and the removal of the cached transfer; the hub is called at most once, for an accepted
      party or quote only; a quote is accepted once; what is transferred is what was quoted;
      the lock has one holder whatever others do; no waiter on its own subjects is lost.
    - A transfer of the payee (Connector, Perform, Callbacks): a fulfilment binds a transfer
      to the packet of its quote, a quoted transfer is fulfilled within its lifetime, the
      back office is asked once, and once more for each delivery that JetStream got no answer
      for or that a crash cut off; a callback that is published settles the promise that
      waits for it, and one request has one audit trail.
    - Signatures and guards: what is signed verifies; what the inbound guard admits is what
      was signed; signed lookups are not replayed within their time; certificates.
    - Money, Fees, Validators: digit-string arithmetic is rational arithmetic rounded by the
      mode; normal forms, round trips, bounds; fee sums.
    - The audit trail: a row is the column-wise summary of the messages of its transaction,
      with the same facts whatever their order where no dispute is resolved, every delivery
      ends, live counters are the totals of the rows they classified, a refreshed window is the aggregation of its rows, a dashboard is what
      the transactions of its range give; following the pages lists every row once in order,
      a report has every row in one part, a request is claimed by one worker.
    - Sessions: deadlines bound every session under interleaving and failing calls, revoked
      tokens are refused, lockouts and password changes do what they promise in sequence.
    - Users: roles and fsps fit, an administrator remains, managers of an fsp stay within it.
    - Signing tenants: under any interleaving and failures only activated tenants with a key
      sign, a sweep brings MCM and the switches of signing to a state the next one keeps;
      while onboardings do not overlap the key in Vault belongs to the published one, and a
      gateway that caught up signs with it.
    - Certificates: what the guard admits has a row that is not revoked, and names its
      participant; an issuance retires what was usable. Vault: the client is a map of secrets, and replaces a token that is refused.
      At every moment the Secret of the server holds a certificate with its own key; an
      uploaded certificate is remembered until the hub presents it, but where MCM did not
      answer the upload or the process died in the two calls after it; the authority is
      registered for every tenant, and registered once.
    - Answers: every error is answered with its own code, the status and the messages of it; the status of a transfer is
      what its messages say, to those who take part in it; a cached list is as young as its
      time to live; one token is fetched at a time, however many wait for it.
    - Migrations: the data is at every moment what the recorded scripts made of it.
    - Where the code does not keep what it means to: second refreshes with one token,
      guesses at once, refreshes across a change of password, administrators deactivating
      each other, ids in other digits, permissions taken from custom roles, audit messages
      that fail after a fulfilment, callbacks that cannot be audited, terms of a quote that
      are not compared, transfers asked again of the back office, connectors that share a
      consumer, uploads whose answer is lost,
      Secrets of a missing namespace, scripts that commit half way. Each is a theorem.
    - Identifiers, PKCS 11, errors, subjects, headers: orders, layouts, exclusivity, fairness.

    ** Fuel and bounds

    Fuel is used where the recursion is not on the data. The printing of an integer has the
    bit length of the number ([dec_print_spec]); the JSON scanner twice the length of the text,
    shown to be enough for every text ([scan_fuel]); Snowflake's wait for the next
    millisecond has clock readings, and some number of them is shown to be enough wherever
    the clock passes every value; walks over pages and reports one request more than there are
    rows, shown to end ([pages_forward], [generated_rows]); the search for a change of day a
    binary search on milliseconds, the days of a range their number; names of columns the
    column. Deliveries, attempts to claim or to lock, and retries have the bounds of the code
    (MAX_DELIVERY_ATTEMPTS, ten and three attempts).

    ** Assumptions

    Arguments with laws stand for what is outside the sources: the collation of the database
    server (a total preorder, an equality), the calendar of Intl.DateTimeFormat, bcrypt,
    SHA-256, RSA, jsonwebtoken, ilp-packet, Redis, the driver's reading of JSON columns. A
    statement of the database is atomic. DATETIME columns hold whole seconds, rounded. Pages
    and reports read tables that do not change between their requests; the read connection
    is caught up; the session time zone is UTC; counters of the live dashboard do not expire.

    ** Not modelled

    Logging, tracing headers and the occurrence time of audit messages; axios, express and
    the wiring of NestJS; the creation of JetStream streams and consumers but for the
    connector's; XLSX sheets and ZIP archives, the object store and presigned addresses;
    stores of certificates and agents over node:tls, and their reload; the seeding of roles;
    the lists of the administration; the ticks of the jobs of core/trust, which take the lock of
    Rollup; settings, controllers and the facade of the central ledger: reads of the
    environment and calls of services over HTTP. The portal is a user interface in Vue, the
    samples are example back offices. *)

From stdpp Require Export base tactics list strings gmap.
From Stdlib Require String.
From Stdlib Require Export ZArith Ascii Lia.
#[global] Open Scope Z_scope.

(** ** JavaScript exceptions as results

    A function of the source that may throw is a function into [result E]:
    [Ok] is a normal return, [Err] a thrown value. *)
Inductive result (E A : Type) : Type :=
  | Ok (a : A)
  | Err (e : E).
Arguments Ok {E A} a.
Arguments Err {E A} e.

(** [let! x := m in k]: evaluate [m]; a throw skips [k]. *)
Declare Scope pivotal_scope.
Notation "'let!' x ':=' m 'in' k" :=
  (match m with Ok x => k | Err e => Err e end)
  (at level 200, x name, m at level 100, k at level 200, right associativity) : pivotal_scope.
#[global] Open Scope pivotal_scope.

Definition is_ok {E A} (r : result E A) : bool :=
  match r with Ok _ => true | Err _ => false end.

(** [throw_if b e]: the statement [if (b) throw e;]. *)
Definition throw_if {E} (b : bool) (e : E) : result E unit :=
  if b then Err e else Ok tt.

(** [for (const x of xs) body(x);] for a body that may throw. *)
Fixpoint forM {E A} (body : A -> result E unit) (xs : list A) : result E unit :=
  match xs with
  | [] => Ok tt
  | x :: xs => match body x with Ok _ => forM body xs | Err e => Err e end
  end.

(** [xs.map(f)] for an [f] that may throw. *)
Fixpoint mapR {E A B} (f : A -> result E B) (xs : list A) : result E (list B) :=
  match xs with
  | [] => Ok []
  | x :: xs => match f x with
               | Ok y => match mapR f xs with Ok ys => Ok (y :: ys) | Err e => Err e end
               | Err e => Err e
               end
  end.

(** ** Strings

    A JavaScript string is the list of its code units, here restricted to the
    units 0..255 (Latin-1). *)
Abbreviation jsstr := (list ascii).
Definition js (s : string) : jsstr := String.list_ascii_of_string s.
Definition code (c : ascii) : N := N_of_ascii c.

Definition is_digit (c : ascii) : bool := (48 <=? code c)%N && (code c <=? 57)%N.
(** [\[1-9\]] *)
Definition is_nonzero_digit (c : ascii) : bool := (49 <=? code c)%N && (code c <=? 57)%N.
Definition digit_val (c : ascii) : Z := Z.of_N (code c) - 48.
Definition digit_char (d : Z) : ascii := ascii_of_N (Z.to_N (d + 48)).

(** White space and line terminators of ECMAScript below 256: TAB, LF, VT, FF,
    CR, SPACE and NO-BREAK SPACE. *)
Definition is_ws (c : ascii) : bool :=
  ((9 <=? code c)%N && (code c <=? 13)%N) || (code c =? 32)%N || (code c =? 160)%N.

Fixpoint trimStart (s : jsstr) : jsstr :=
  match s with
  | c :: s' => if is_ws c then trimStart s' else s
  | [] => []
  end.
Definition trimEnd (s : jsstr) : jsstr := reverse (trimStart (reverse s)).
Definition trim (s : jsstr) : jsstr := trimEnd (trimStart s).

(** [toLowerCase] on Latin-1: A-Z and the accented capitals 192..222 but 215. *)
Definition lower_char (c : ascii) : ascii :=
  let n := code c in
  if ((65 <=? n)%N && (n <=? 90)%N)
     || ((192 <=? n)%N && (n <=? 222)%N && negb (n =? 215)%N)
  then ascii_of_N (n + 32) else c.
Definition toLowerCase (s : jsstr) : jsstr := map lower_char s.

Definition str_eqb (a b : jsstr) : bool := bool_decide (a = b).
Definition startsWith (s p : jsstr) : bool := bool_decide (p `prefix_of` s).
Definition endsWith (s p : jsstr) : bool := bool_decide (p `suffix_of` s).

(** [s.indexOf(c)] for a one-unit needle; [None] is -1. *)
Fixpoint indexOf (c : ascii) (s : jsstr) : option nat :=
  match s with
  | [] => None
  | d :: s' => if bool_decide (c = d) then Some 0%nat else S <$> indexOf c s'
  end.

(** [s.split(c)] for a one-unit separator: always at least one piece. *)
Fixpoint split (c : ascii) (s : jsstr) : list jsstr :=
  match s with
  | [] => [[]]
  | d :: s' =>
      if bool_decide (c = d) then [] :: split c s'
      else match split c s' with
           | p :: ps => (d :: p) :: ps
           | [] => [[d]]
           end
  end.

(** [parts.join(sep)] *)
Fixpoint join (sep : jsstr) (parts : list jsstr) : jsstr :=
  match parts with
  | [] => []
  | [p] => p
  | p :: ps => p ++ sep ++ join sep ps
  end.

Definition padStart (n : nat) (c : ascii) (s : jsstr) : jsstr :=
  replicate (n - length s) c ++ s.
Definition padEnd (n : nat) (c : ascii) (s : jsstr) : jsstr :=
  s ++ replicate (n - length s) c.

(** [BigInt(s)] for a string of digits ([BigInt('')] is [0n]). *)
Definition dec_value (s : jsstr) : Z :=
  fold_left (fun acc c => acc * 10 + digit_val c) s 0.

(** [n.toString()] for a non-negative [bigint]. *)
Fixpoint dec_print_fuel (fuel : nat) (n : Z) (acc : jsstr) : jsstr :=
  match fuel with
  | O => acc
  | S fuel =>
      if n <? 10 then digit_char n :: acc
      else dec_print_fuel fuel (n / 10) (digit_char (n mod 10) :: acc)
  end.
Definition dec_print (n : Z) : jsstr :=
  dec_print_fuel (S (Z.to_nat (Z.log2 n))) n [].

(** [n.toString()] of an integer of either sign. *)
Definition bigint_text (n : Z) : jsstr := if n <? 0 then "-"%char :: dec_print (- n) else dec_print n.

(** The longest prefix of digits, as the greedy [\d*] takes it, and the rest. *)
Fixpoint span_digits (s : jsstr) : jsstr * jsstr :=
  match s with
  | c :: s' => if is_digit c then let '(ds, r) := span_digits s' in (c :: ds, r) else ([], s)
  | [] => ([], [])
  end.

(** ** Automation *)

(** Case analysis on every [match] and [if] of the goal or a hypothesis. *)
Ltac case_all :=
  repeat (case_match; simplify_eq/=; try done).

Ltac bool_hyps :=
  repeat match goal with
  | H : (_ && _) = true |- _ => apply andb_true_iff in H as [? ?]
  | H : (_ || _) = false |- _ => apply orb_false_iff in H as [? ?]
  | H : negb _ = true |- _ => apply negb_true_iff in H
  | H : negb _ = false |- _ => apply negb_false_iff in H
  | H : bool_decide _ = true |- _ => apply bool_decide_eq_true in H
  | H : bool_decide _ = false |- _ => apply bool_decide_eq_false in H
  | H : (_ <? _) = true |- _ => apply Z.ltb_lt in H
  | H : (_ <? _) = false |- _ => apply Z.ltb_ge in H
  | H : (_ <=? _) = true |- _ => apply Z.leb_le in H
  | H : (_ <=? _) = false |- _ => apply Z.leb_gt in H
  | H : (_ =? _) = true |- _ => apply Z.eqb_eq in H
  | H : (_ =? _) = false |- _ => apply Z.eqb_neq in H
  end.

Create HintDb pivotal discriminated.

(** ** Shared lemmas *)

Lemma let_Ok {E A B} (m : result E A) (f : A -> result E B) b :
  (let! a := m in f a) = Ok b <-> exists a, m = Ok a /\ f a = Ok b.
Proof. destruct m; split; [eauto | by intros (? & [= ->] & ?) | done | by intros (? & ? & ?)]. Qed.

Lemma Ok_inj {E A} (a b : A) : @Ok E A a = Ok b -> a = b.
Proof. congruence. Qed.

Lemma throw_if_Ok {E} b (e : E) u : throw_if b e = Ok u <-> b = false.
Proof. destruct b, u; cbn; split; congruence. Qed.

Lemma forM_Ok {E A} (body : A -> result E unit) xs :
  forM body xs = Ok tt <-> Forall (fun x => body x = Ok tt) xs.
Proof.
  induction xs as [|x xs IH]; cbn; [by split|].
  rewrite Forall_cons, <- IH. destruct (body x) as [[]|e]; [tauto|].
  split; [done | by intros [? _]].
Qed.

Lemma forM_Err {E A} (body : A -> result E unit) xs e :
  forM body xs = Err e <->
  exists pre x post, xs = pre ++ x :: post /\ Forall (fun y => body y = Ok tt) pre /\ body x = Err e.
Proof.
  induction xs as [|x xs IH]; cbn.
  - split; [done|]. by intros ([] & ? & ? & ? & ?).
  - destruct (body x) as [[]|e'] eqn:Hx.
    + rewrite IH. split.
      * intros (pre & y & post & -> & Hp & Hy). exists (x :: pre), y, post. by rewrite Forall_cons.
      * intros ([|z pre] & y & post & Heq & Hp & Hy); simplify_eq/=; [congruence|].
        apply Forall_cons in Hp as [_ Hp]. eauto 10.
    + split.
      * intros [= ->]. by exists [], x, xs.
      * intros ([|z pre] & y & post & Heq & Hp & Hy); simplify_eq/=; [congruence|].
        apply Forall_cons in Hp as [? _]. congruence.
Qed.

Lemma mapR_Ok {E A B} (f : A -> result E B) xs ys :
  mapR f xs = Ok ys <-> Forall2 (fun x y => f x = Ok y) xs ys.
Proof.
  revert ys. induction xs as [|x xs IH]; intros ys; cbn.
  - split; [intros [= <-]; constructor | by inversion 1].
  - split.
    + intros H. destruct (f x) eqn:Hx; [|done]. destruct (mapR f xs) eqn:Hm; [|done].
      simplify_eq. constructor; [done|]. by apply IH.
    + inversion 1 as [|? y ? ys' Hy Hys]; subst. rewrite Hy.
      apply IH in Hys. by rewrite Hys.
Qed.

(** *** Bit fields *)

(** [hi << k | lo] with [lo] below [2^k] is a sum. *)
Lemma lor_field hi lo k : 0 <= k -> 0 <= lo < 2 ^ k -> Z.lor (Z.shiftl hi k) lo = hi * 2 ^ k + lo.
Proof.
  intros Hk Hlo. rewrite <- Z.shiftl_mul_pow2 by done.
  assert (Z.land (Z.shiftl hi k) lo = 0) as Hl.
  { apply Z.bits_inj'. intros n Hn. rewrite Z.land_spec, Z.bits_0. destruct (Z.lt_ge_cases n k).
    - by rewrite Z.shiftl_spec_low.
    - rewrite <- (Z.mod_small lo (2 ^ k)) by done. rewrite Z.mod_pow2_bits_high by lia. apply andb_false_r. }
  rewrite Z.add_nocarry_lxor by done. symmetry. by apply Z.lxor_lor.
Qed.

Lemma lor_byte hi b : 0 <= b < 256 -> Z.lor (Z.shiftl hi 8) b = hi * 256 + b.
Proof. intros. by apply (lor_field hi b 8). Qed.

(** *** Digits and decimal values *)

Lemma code_lt c : (code c < 256)%N.
Proof. apply N_ascii_bounded. Qed.

Lemma is_digit_val c : is_digit c = true -> 0 <= digit_val c <= 9.
Proof.
  unfold is_digit, digit_val. rewrite andb_true_iff, !N.leb_le. lia.
Qed.

Lemma digit_char_code d : 0 <= d <= 9 -> code (digit_char d) = Z.to_N (d + 48).
Proof. intros. unfold code, digit_char. apply N_ascii_embedding. lia. Qed.

Lemma digit_char_digit d : 0 <= d <= 9 -> is_digit (digit_char d) = true.
Proof.
  intros. unfold is_digit. rewrite digit_char_code by done.
  rewrite andb_true_iff, !N.leb_le. lia.
Qed.

Lemma digit_val_char d : 0 <= d <= 9 -> digit_val (digit_char d) = d.
Proof. intros. unfold digit_val. rewrite digit_char_code by done. lia. Qed.

Definition all_digits (s : jsstr) : Prop := Forall (fun c => is_digit c = true) s.

Lemma dec_fold_acc s a :
  fold_left (fun acc c => acc * 10 + digit_val c) s a = a * 10 ^ Z.of_nat (length s) + dec_value s.
Proof.
  unfold dec_value. revert a. induction s as [|c s IH]; intros a; cbn [fold_left length].
  - rewrite Z.pow_0_r. lia.
  - rewrite IH. rewrite (IH (0 * 10 + digit_val c)).
    rewrite Nat2Z.inj_succ, Z.pow_succ_r by lia. lia.
Qed.

Lemma dec_value_cons c s : dec_value (c :: s) = digit_val c * 10 ^ Z.of_nat (length s) + dec_value s.
Proof. unfold dec_value at 1. cbn. rewrite dec_fold_acc. f_equal. Qed.

Lemma dec_value_app s t : dec_value (s ++ t) = dec_value s * 10 ^ Z.of_nat (length t) + dec_value t.
Proof. unfold dec_value at 1. rewrite fold_left_app. apply dec_fold_acc. Qed.

Lemma dec_value_zeros n : dec_value (replicate n "0"%char) = 0.
Proof. induction n; [done|]. cbn [replicate]. rewrite dec_value_cons, IHn. change (digit_val "0") with 0. lia. Qed.

Lemma dec_value_bounds s : all_digits s -> 0 <= dec_value s < 10 ^ Z.of_nat (length s).
Proof.
  induction 1 as [|c s Hc Hs IH]; [cbn; lia|].
  rewrite dec_value_cons. cbn [length]. rewrite Nat2Z.inj_succ, Z.pow_succ_r by lia.
  apply is_digit_val in Hc. nia.
Qed.

Lemma dec_value_zero s : all_digits s -> dec_value s = 0 <-> existsb is_nonzero_digit s = false.
Proof.
  induction 1 as [|c s Hc Hs IH]; [done|].
  rewrite dec_value_cons. cbn [existsb]. rewrite orb_false_iff, <- IH.
  pose proof (dec_value_bounds s Hs). pose proof (is_digit_val c Hc).
  assert (is_nonzero_digit c = false <-> digit_val c = 0) as ->.
  { unfold is_nonzero_digit, digit_val. revert Hc. unfold is_digit.
    rewrite andb_true_iff, andb_false_iff, !N.leb_le, !N.leb_gt. lia. }
  nia.
Qed.

Lemma dec_print_fuel_spec fuel n acc :
  0 <= n < 10 ^ Z.of_nat fuel -> (0 < fuel)%nat ->
  exists ds, dec_print_fuel fuel n acc = ds ++ acc /\ all_digits ds /\ dec_value ds = n /\ ds <> [].
Proof.
  revert n acc. induction fuel as [|fuel IH]; intros n acc Hn Hf; [lia|].
  cbn [dec_print_fuel]. destruct (Z.ltb_spec n 10).
  - exists [digit_char n]. repeat split; [|rewrite dec_value_cons; cbn; rewrite digit_val_char; lia | done].
    constructor; [apply digit_char_digit; lia | constructor].
  - rewrite Nat2Z.inj_succ, Z.pow_succ_r in Hn by lia.
    assert (0 < fuel)%nat. { destruct fuel; [cbn in Hn; lia | lia]. }
    assert (0 <= n / 10 < 10 ^ Z.of_nat fuel).
    { split; [apply Z.div_pos; lia | apply Z.div_lt_upper_bound; lia]. }
    pose proof (Z.mod_pos_bound n 10).
    destruct (IH (n / 10) (digit_char (n mod 10) :: acc)) as (ds & -> & Hd & Hv & Hne); [done..|].
    exists (ds ++ [digit_char (n mod 10)]). rewrite <- app_assoc. repeat split.
    + apply Forall_app; split; [done|]. constructor; [apply digit_char_digit; lia | constructor].
    + rewrite dec_value_app, Hv, dec_value_cons, digit_val_char by lia. cbn.
      pose proof (Z.div_mod n 10). lia.
    + by destruct ds.
Qed.

Lemma log2_fuel n : 0 < n -> n < 10 ^ Z.of_nat (S (Z.to_nat (Z.log2 n))).
Proof.
  intros Hn. rewrite Nat2Z.inj_succ, Z2Nat.id by apply Z.log2_nonneg.
  pose proof (Z.log2_spec n ltac:(lia)).
  enough (2 ^ Z.succ (Z.log2 n) <= 10 ^ Z.succ (Z.log2 n)) by lia.
  apply Z.pow_le_mono_l. lia.
Qed.

Lemma dec_print_spec n :
  0 <= n -> all_digits (dec_print n) /\ dec_value (dec_print n) = n /\ dec_print n <> [].
Proof.
  intros Hn. unfold dec_print.
  destruct (dec_print_fuel_spec (S (Z.to_nat (Z.log2 n))) n []) as (ds & -> & ?); [|lia|by rewrite app_nil_r].
  split; [done|]. destruct (Z.eq_dec n 0) as [->|Hnz]; [cbn; lia|]. by apply log2_fuel; lia.
Qed.

Lemma dec_print_fuel_head fuel n acc :
  0 < n < 10 ^ Z.of_nat fuel ->
  exists d ds, dec_print_fuel fuel n acc = digit_char d :: ds /\ 1 <= d <= 9.
Proof.
  revert n acc. induction fuel as [|fuel IH]; intros n acc Hn; [cbn in Hn; lia|].
  cbn [dec_print_fuel]. destruct (Z.ltb_spec n 10); [exists n, acc; split; [done | lia]|].
  rewrite Nat2Z.inj_succ, Z.pow_succ_r in Hn by lia.
  apply IH. split; [apply Z.div_str_pos; lia | apply Z.div_lt_upper_bound; lia].
Qed.

(** The decimal text of a positive number has no leading zero. *)
Lemma dec_print_head n : 0 < n -> exists c ds, dec_print n = c :: ds /\ is_nonzero_digit c = true.
Proof.
  intros Hn. destruct (dec_print_fuel_head (S (Z.to_nat (Z.log2 n))) n []) as (d & ds & Hp & Hd).
  - split; [done | by apply log2_fuel].
  - exists (digit_char d), ds. split; [done|].
    unfold is_nonzero_digit. rewrite digit_char_code by lia. rewrite andb_true_iff, !N.leb_le. lia.
Qed.

Lemma nonzero_digit_val c : is_nonzero_digit c = true -> 1 <= digit_val c.
Proof. unfold is_nonzero_digit, digit_val. rewrite andb_true_iff, !N.leb_le. lia. Qed.

Lemma nonzero_digit_digit c : is_nonzero_digit c = true -> is_digit c = true.
Proof. unfold is_nonzero_digit, is_digit. rewrite !andb_true_iff, !N.leb_le. lia. Qed.

Lemma dec_print_length n k : 0 <= n < 10 ^ Z.of_nat k -> (0 < k)%nat -> (length (dec_print n) <= k)%nat.
Proof.
  intros Hn Hk. destruct (Z.eq_dec n 0) as [->|Hnz]; [cbn; lia|].
  destruct (dec_print_head n ltac:(lia)) as (c & ds & Hp & Hc).
  destruct (dec_print_spec n ltac:(lia)) as (Hd & Hv & _). rewrite Hp in *.
  rewrite dec_value_cons in Hv. apply nonzero_digit_val in Hc. apply Forall_cons in Hd as [_ Hd].
  pose proof (dec_value_bounds _ Hd). cbn [length].
  destruct (le_lt_dec k (length ds)) as [Hle|]; [|lia]. exfalso.
  assert (10 ^ Z.of_nat k <= 10 ^ Z.of_nat (length ds)) by (apply Z.pow_le_mono_r; lia). nia.
Qed.

Lemma span_digits_spec s ds r :
  span_digits s = (ds, r) -> s = ds ++ r /\ all_digits ds /\ (forall c, head r = Some c -> is_digit c = false).
Proof.
  revert ds r. induction s as [|c s IH]; intros ds r; cbn.
  - intros [= <- <-]. repeat split; [constructor|done].
  - destruct (is_digit c) eqn:Hc.
    + destruct (span_digits s) as [ds' r'] eqn:Hs. intros [= <- <-].
      destruct (IH _ _ eq_refl) as (-> & ? & ?). repeat split; [|done]. by constructor.
    + intros [= <- <-]. repeat split; [constructor|]. cbn. congruence.
Qed.

Lemma span_digits_app ds r :
  all_digits ds -> (forall c, head r = Some c -> is_digit c = false) -> span_digits (ds ++ r) = (ds, r).
Proof.
  intros Hd Hr. induction Hd as [|c ds Hc Hd IH]; cbn.
  - destruct r as [|c r]; cbn; [done|]. by rewrite (Hr c eq_refl).
  - by rewrite Hc, IH.
Qed.

(** *** Trimming *)

Lemma trimStart_idemp s : trimStart (trimStart s) = trimStart s.
Proof. induction s as [|c s IH]; [done|]. cbn. destruct (is_ws c) eqn:Hc; [done|]. cbn. by rewrite Hc. Qed.

Definition no_ws (s : jsstr) : Prop := Forall (fun c => is_ws c = false) s.

Lemma trimStart_no_ws s : no_ws s -> trimStart s = s.
Proof. destruct 1 as [|c s Hc _]; [done|]. cbn. by rewrite Hc. Qed.

Lemma trim_no_ws s : no_ws s -> trim s = s.
Proof.
  intros H. unfold trim, trimEnd. rewrite (trimStart_no_ws s) by done.
  rewrite trimStart_no_ws by (by apply Forall_reverse). apply reverse_involutive.
Qed.

Lemma trimStart_head s c : head (trimStart s) = Some c -> is_ws c = false.
Proof. induction s as [|d s IH]; cbn; [done|]. destruct (is_ws d) eqn:Hd; [done|]. cbn. congruence. Qed.

Lemma trimStart_suffix s : exists p, s = p ++ trimStart s.
Proof.
  induction s as [|c s [p IH]]; [by exists []|]. cbn. destruct (is_ws c).
  - exists (c :: p). cbn. by f_equal.
  - by exists [].
Qed.

Lemma trim_idemp s : trim (trim s) = trim s.
Proof.
  unfold trim, trimEnd. set (t := trimStart s).
  assert (trimStart (reverse (trimStart (reverse t))) = reverse (trimStart (reverse t))) as ->.
  { destruct (trimStart_suffix (reverse t)) as [p Hp].
    assert (t = reverse (trimStart (reverse t)) ++ reverse p) as Ht.
    { rewrite <- reverse_app, <- Hp. symmetry. apply reverse_involutive. }
    destruct (reverse (trimStart (reverse t))) as [|c u] eqn:E; [done|].
    cbn. destruct (is_ws c) eqn:Hc; [|done].
    assert (head t = Some c) as Hh by (by rewrite Ht).
    apply trimStart_head in Hh. congruence. }
  rewrite reverse_involutive, trimStart_idemp. done.
Qed.

Lemma digit_not_ws c : is_digit c = true -> is_ws c = false.
Proof.
  unfold is_digit, is_ws. rewrite andb_true_iff, !N.leb_le. intros [? ?].
  rewrite !orb_false_iff, andb_false_iff, !N.eqb_neq, !N.leb_gt. lia.
Qed.

Lemma all_digits_no_ws s : all_digits s -> no_ws s.
Proof. intros H. eapply Forall_impl; [exact H | apply digit_not_ws]. Qed.

(** *** Splitting and joining *)

Lemma split_cons c s : exists p ps, split c s = p :: ps.
Proof. induction s as [|d s (p & ps & IH)]; cbn; [eauto|]. rewrite IH. case_bool_decide; eauto. Qed.

Lemma join_split c s : join [c] (split c s) = s.
Proof.
  induction s as [|d s IH]; [done|]. cbn.
  destruct (split_cons c s) as (p & ps & Hs). rewrite Hs in *.
  case_bool_decide as Hcd.
  - subst d. cbn [join app]. f_equal. exact IH.
  - destruct ps; cbn in *; f_equal; exact IH.
Qed.

Lemma split_no_sep c s : c ∉ s -> split c s = [s].
Proof.
  induction s as [|d s IH]; [done|]. intros Hn%not_elem_of_cons. destruct Hn as [? Hn].
  cbn. rewrite bool_decide_false by done. by rewrite IH.
Qed.

Lemma split_app c p s : c ∉ p -> split c (p ++ c :: s) = p :: split c s.
Proof.
  induction p as [|d p IH]; cbn; intros Hn.
  - by rewrite bool_decide_true.
  - apply not_elem_of_cons in Hn as [? Hn]. rewrite bool_decide_false by done. by rewrite IH.
Qed.

Lemma split_join c ps : ps <> [] -> Forall (fun p => c ∉ p) ps -> split c (join [c] ps) = ps.
Proof.
  intros Hne H. induction H as [|p ps Hp Hps IH]; [done|].
  destruct ps as [|q ps]; [by apply split_no_sep|].
  change (join [c] (p :: q :: ps)) with (p ++ c :: join [c] (q :: ps)).
  rewrite split_app by done. by rewrite IH.
Qed.

Lemma startsWith_app p s : startsWith (p ++ s) p = true.
Proof. unfold startsWith. apply bool_decide_eq_true. by exists s. Qed.

Lemma indexOf_None c s : indexOf c s = None <-> c ∉ s.
Proof.
  induction s as [|d s IH]; cbn; [split; [intros _; apply not_elem_of_nil | done]|].
  rewrite not_elem_of_cons. case_bool_decide; [naive_solver|].
  destruct (indexOf c s); cbn; naive_solver.
Qed.

Lemma indexOf_app c p s : c ∉ p -> indexOf c (p ++ c :: s) = Some (length p).
Proof.
  induction p as [|d p IH]; cbn; intros Hn; [by rewrite bool_decide_true|].
  apply not_elem_of_cons in Hn as [? Hn]. rewrite bool_decide_false, IH by done. done.
Qed.

#[export] Hint Resolve all_digits_no_ws trim_no_ws dec_value_bounds : pivotal.
