(* ===== verification/Errors.v ===== *)
(** * FSPIOP errors

    The error catalogue ([exception/fspiop-error-type.ts],
    [exception/fspiop-errors.ts]), the exception every component throws
    ([exception/fspiop-exception.ts], [exception/error-definition.ts]) and its two
    translators ([component/fspiop-error-translator.ts],
    [component/fspiop-status-translator.ts]), all of [packages/shared/fspiop]. *)

From S2P Require Import Prelude.

(** ** The catalogue *)

Inductive error_name : Set :=
  | COMMUNICATION_ERROR
  | DESTINATION_COMMUNICATION_ERROR
  | GENERIC_SERVER_ERROR
  | INTERNAL_SERVER_ERROR
  | NOT_IMPLEMENTED
  | SERVICE_CURRENTLY_UNAVAILABLE
  | SERVER_TIMED_OUT
  | SERVER_BUSY
  | GENERIC_CLIENT_ERROR
  | UNACCEPTABLE_VERSION_REQUESTED
  | UNKNOWN_URI
  | ADD_PARTY_INFORMATION_ERROR
  | DUPLICATE_REFERENCE_ID
  | GENERIC_VALIDATION_ERROR
  | MALFORMED_SYNTAX
  | MISSING_MANDATORY_ELEMENT
  | TOO_MANY_ELEMENTS
  | TOO_LARGE_PAYLOAD
  | INVALID_SIGNATURE
  | MODIFIED_REQUEST
  | MISSING_EXTENSION_PARAMETER
  | GENERIC_ID_NOT_FOUND
  | DESTINATION_FSP_ERROR
  | PAYER_FSP_ID_NOT_FOUND
  | PAYEE_FSP_ID_NOT_FOUND
  | PARTY_NOT_FOUND
  | QUOTE_ID_NOT_FOUND
  | TRANSACTION_REQUEST_ID_NOT_FOUND
  | TRANSACTION_ID_NOT_FOUND
  | TRANSFER_ID_NOT_FOUND
  | BULK_QUOTE_ID_NOT_FOUND
  | BULK_TRANSFER_ID_NOT_FOUND
  | PHONE_NUMBER_MISMATCH
  | INACTIVE_ACCOUNT
  | GENERIC_EXPIRED_ERROR
  | TRANSACTION_REQUEST_EXPIRED
  | QUOTE_EXPIRED
  | TRANSFER_EXPIRED
  | GENERIC_PAYER_ERROR
  | PAYER_FSP_INSUFFICIENT_LIQUIDITY
  | GENERIC_PAYER_REJECTION
  | PAYER_REJECTED_TRANSACTION_REQUEST
  | PAYER_FSP_UNSUPPORTED_TRANSACTION_TYPE
  | PAYER_UNSUPPORTED_CURRENCY
  | PAYER_LIMIT_ERROR
  | SUSPICIOUS_TRANSACTION_PATTERN
  | PAYER_PERMISSION_ERROR
  | GENERIC_PAYER_BLOCKED_ERROR
  | GENERIC_PAYEE_ERROR
  | PAYEE_FSP_INSUFFICIENT_LIQUIDITY
  | GENERIC_PAYEE_REJECTION
  | PAYEE_REJECTED_QUOTE
  | PAYEE_FSP_UNSUPPORTED_TRANSACTION_TYPE
  | PAYEE_FSP_REJECTED_QUOTE
  | PAYEE_REJECTED_TRANSACTION
  | PAYEE_FSP_REJECTED_TRANSACTION
  | PAYEE_UNSUPPORTED_CURRENCY
  | PAYEE_LIMIT_ERROR
  | PAYEE_PERMISSION_ERROR
  | ROUNDING_VALUE_ERROR
  | GENERIC_PAYEE_BLOCKED_ERROR.

(** [FspiopErrorType.<NAME>.code] and [.name]. *)
Definition type_code (n : error_name) : jsstr :=
  js match n with
  | COMMUNICATION_ERROR => "1000"
  | DESTINATION_COMMUNICATION_ERROR => "1001"
  | GENERIC_SERVER_ERROR => "2000"
  | INTERNAL_SERVER_ERROR => "2001"
  | NOT_IMPLEMENTED => "2002"
  | SERVICE_CURRENTLY_UNAVAILABLE => "2003"
  | SERVER_TIMED_OUT => "2004"
  | SERVER_BUSY => "2005"
  | GENERIC_CLIENT_ERROR => "3000"
  | UNACCEPTABLE_VERSION_REQUESTED => "3001"
  | UNKNOWN_URI => "3002"
  | ADD_PARTY_INFORMATION_ERROR => "3003"
  | DUPLICATE_REFERENCE_ID => "3041"
  | GENERIC_VALIDATION_ERROR => "3100"
  | MALFORMED_SYNTAX => "3101"
  | MISSING_MANDATORY_ELEMENT => "3102"
  | TOO_MANY_ELEMENTS => "3103"
  | TOO_LARGE_PAYLOAD => "3104"
  | INVALID_SIGNATURE => "3105"
  | MODIFIED_REQUEST => "3106"
  | MISSING_EXTENSION_PARAMETER => "3107"
  | GENERIC_ID_NOT_FOUND => "3200"
  | DESTINATION_FSP_ERROR => "3201"
  | PAYER_FSP_ID_NOT_FOUND => "3202"
  | PAYEE_FSP_ID_NOT_FOUND => "3203"
  | PARTY_NOT_FOUND => "3204"
  | QUOTE_ID_NOT_FOUND => "3205"
  | TRANSACTION_REQUEST_ID_NOT_FOUND => "3206"
  | TRANSACTION_ID_NOT_FOUND => "3207"
  | TRANSFER_ID_NOT_FOUND => "3208"
  | BULK_QUOTE_ID_NOT_FOUND => "3209"
  | BULK_TRANSFER_ID_NOT_FOUND => "3210"
  | PHONE_NUMBER_MISMATCH => "3241"
  | INACTIVE_ACCOUNT => "3242"
  | GENERIC_EXPIRED_ERROR => "3300"
  | TRANSACTION_REQUEST_EXPIRED => "3301"
  | QUOTE_EXPIRED => "3302"
  | TRANSFER_EXPIRED => "3303"
  | GENERIC_PAYER_ERROR => "4000"
  | PAYER_FSP_INSUFFICIENT_LIQUIDITY => "4001"
  | GENERIC_PAYER_REJECTION => "4100"
  | PAYER_REJECTED_TRANSACTION_REQUEST => "4101"
  | PAYER_FSP_UNSUPPORTED_TRANSACTION_TYPE => "4102"
  | PAYER_UNSUPPORTED_CURRENCY => "4103"
  | PAYER_LIMIT_ERROR => "4200"
  | SUSPICIOUS_TRANSACTION_PATTERN => "4240"
  | PAYER_PERMISSION_ERROR => "4300"
  | GENERIC_PAYER_BLOCKED_ERROR => "4400"
  | GENERIC_PAYEE_ERROR => "5000"
  | PAYEE_FSP_INSUFFICIENT_LIQUIDITY => "5001"
  | GENERIC_PAYEE_REJECTION => "5100"
  | PAYEE_REJECTED_QUOTE => "5101"
  | PAYEE_FSP_UNSUPPORTED_TRANSACTION_TYPE => "5102"
  | PAYEE_FSP_REJECTED_QUOTE => "5103"
  | PAYEE_REJECTED_TRANSACTION => "5104"
  | PAYEE_FSP_REJECTED_TRANSACTION => "5105"
  | PAYEE_UNSUPPORTED_CURRENCY => "5106"
  | PAYEE_LIMIT_ERROR => "5200"
  | PAYEE_PERMISSION_ERROR => "5300"
  | ROUNDING_VALUE_ERROR => "5241"
  | GENERIC_PAYEE_BLOCKED_ERROR => "5400"
  end.

Definition type_name (n : error_name) : jsstr :=
  js match n with
  | COMMUNICATION_ERROR => "Communication error"
  | DESTINATION_COMMUNICATION_ERROR => "Destination communication error"
  | GENERIC_SERVER_ERROR => "Generic server error"
  | INTERNAL_SERVER_ERROR => "Internal server error"
  | NOT_IMPLEMENTED => "Not implemented"
  | SERVICE_CURRENTLY_UNAVAILABLE => "Service currently unavailable"
  | SERVER_TIMED_OUT => "Server timed out"
  | SERVER_BUSY => "Server busy"
  | GENERIC_CLIENT_ERROR => "Generic client error"
  | UNACCEPTABLE_VERSION_REQUESTED => "Unacceptable version requested"
  | UNKNOWN_URI => "Unknown URI"
  | ADD_PARTY_INFORMATION_ERROR => "Add Party information error"
  | DUPLICATE_REFERENCE_ID => "Duplicate reference ID."
  | GENERIC_VALIDATION_ERROR => "Generic validation error"
  | MALFORMED_SYNTAX => "Malformed syntax"
  | MISSING_MANDATORY_ELEMENT => "Missing mandatory element"
  | TOO_MANY_ELEMENTS => "Too many elements"
  | TOO_LARGE_PAYLOAD => "Too large payload"
  | INVALID_SIGNATURE => "Invalid signature"
  | MODIFIED_REQUEST => "Modified request"
  | MISSING_EXTENSION_PARAMETER => "Missing extension parameter"
  | GENERIC_ID_NOT_FOUND => "Generic ID not found"
  | DESTINATION_FSP_ERROR => "Destination FSP Error"
  | PAYER_FSP_ID_NOT_FOUND => "Payer FSP ID not found"
  | PAYEE_FSP_ID_NOT_FOUND => "Payee FSP ID not found"
  | PARTY_NOT_FOUND => "Party not found"
  | QUOTE_ID_NOT_FOUND => "Quote ID not found"
  | TRANSACTION_REQUEST_ID_NOT_FOUND => "Transaction request ID not found"
  | TRANSACTION_ID_NOT_FOUND => "Transaction ID not found"
  | TRANSFER_ID_NOT_FOUND => "Transfer ID not found"
  | BULK_QUOTE_ID_NOT_FOUND => "Bulk quote ID not found"
  | BULK_TRANSFER_ID_NOT_FOUND => "Bulk transfer ID not found"
  | PHONE_NUMBER_MISMATCH => "There was an error with your account number and phone number combination. Please contact your DFSP to verify the numbers."
  | INACTIVE_ACCOUNT => "Account is not active."
  | GENERIC_EXPIRED_ERROR => "Generic expired error"
  | TRANSACTION_REQUEST_EXPIRED => "Transaction request expired"
  | QUOTE_EXPIRED => "Quote expired"
  | TRANSFER_EXPIRED => "Transfer expired"
  | GENERIC_PAYER_ERROR => "Generic Payer error"
  | PAYER_FSP_INSUFFICIENT_LIQUIDITY => "Payer FSP insufficient liquidity"
  | GENERIC_PAYER_REJECTION => "Generic Payer rejection"
  | PAYER_REJECTED_TRANSACTION_REQUEST => "Payer rejected transaction request"
  | PAYER_FSP_UNSUPPORTED_TRANSACTION_TYPE => "Payer FSP unsupported transaction type"
  | PAYER_UNSUPPORTED_CURRENCY => "Payer unsupported currency"
  | PAYER_LIMIT_ERROR => "Payer limit error"
  | SUSPICIOUS_TRANSACTION_PATTERN => "Suspicious transaction pattern"
  | PAYER_PERMISSION_ERROR => "Payer permission error"
  | GENERIC_PAYER_BLOCKED_ERROR => "Generic Payer blocked error"
  | GENERIC_PAYEE_ERROR => "Generic Payee error"
  | PAYEE_FSP_INSUFFICIENT_LIQUIDITY => "Payee FSP insufficient liquidity"
  | GENERIC_PAYEE_REJECTION => "Generic Payee rejection"
  | PAYEE_REJECTED_QUOTE => "Payee rejected quote"
  | PAYEE_FSP_UNSUPPORTED_TRANSACTION_TYPE => "Payee FSP unsupported transaction type"
  | PAYEE_FSP_REJECTED_QUOTE => "Payee FSP rejected quote"
  | PAYEE_REJECTED_TRANSACTION => "Payee rejected transaction"
  | PAYEE_FSP_REJECTED_TRANSACTION => "Payee FSP rejected transaction"
  | PAYEE_UNSUPPORTED_CURRENCY => "Payee unsupported currency"
  | PAYEE_LIMIT_ERROR => "Payee limit error"
  | PAYEE_PERMISSION_ERROR => "Payee permission error"
  | ROUNDING_VALUE_ERROR => "Amount is invalid. Please enter the format specified by the service provider."
  | GENERIC_PAYEE_BLOCKED_ERROR => "Generic Payee blocked error"
  end.

(** The [FspiopErrors.<NAME>] definitions: the description of each. *)
Definition definition_description (n : error_name) : jsstr :=
  js match n with
  | COMMUNICATION_ERROR => "Generic communication error."
  | DESTINATION_COMMUNICATION_ERROR => "Destination of the request failed to be reached. This usually indicates that a Peer FSP failed to respond from an intermediate entity."
  | GENERIC_SERVER_ERROR => "Used to avoid disclosing private details."
  | INTERNAL_SERVER_ERROR => "Unexpected exception or bug."
  | NOT_IMPLEMENTED => "Service not supported by server."
  | SERVICE_CURRENTLY_UNAVAILABLE => "Service temporarily unavailable (e.g. maintenance)."
  | SERVER_TIMED_OUT => "Callback not received within timeout period."
  | SERVER_BUSY => "Server rejecting requests due to overload."
  | GENERIC_CLIENT_ERROR => "Used to avoid disclosing private client errors."
  | UNACCEPTABLE_VERSION_REQUESTED => "Client requested unsupported API version."
  | UNKNOWN_URI => "Provided URI not recognized by server."
  | ADD_PARTY_INFORMATION_ERROR => "Error occurred while adding/updating party info."
  | GENERIC_VALIDATION_ERROR => "Generic format error."
  | MALFORMED_SYNTAX => "Invalid parameter format (e.g. amount '5.ABC')."
  | MISSING_MANDATORY_ELEMENT => "Required element in data model is missing."
  | TOO_MANY_ELEMENTS => "Array exceeds allowed maximum."
  | TOO_LARGE_PAYLOAD => "Request payload exceeds allowed size."
  | INVALID_SIGNATURE => "Payload signature invalid or modified."
  | MODIFIED_REQUEST => "Parameters differ from a previously processed request."
  | MISSING_EXTENSION_PARAMETER => "Required extension parameter not provided."
  | GENERIC_ID_NOT_FOUND => "Generic identifier error."
  | DESTINATION_FSP_ERROR => "Destination FSP cannot be found or doesn't exist."
  | PAYER_FSP_ID_NOT_FOUND => "Payer FSP ID not recognized."
  | PAYEE_FSP_ID_NOT_FOUND => "Payee FSP ID not recognized."
  | PARTY_NOT_FOUND => "Provided party identifier not found."
  | QUOTE_ID_NOT_FOUND => "Quote ID not found on server."
  | TRANSACTION_REQUEST_ID_NOT_FOUND => "ID not found for transaction request."
  | TRANSACTION_ID_NOT_FOUND => "Transaction ID not found."
  | TRANSFER_ID_NOT_FOUND => "Transfer ID not found."
  | BULK_QUOTE_ID_NOT_FOUND => "Bulk quote ID not found."
  | BULK_TRANSFER_ID_NOT_FOUND => "Bulk transfer ID not found."
  | GENERIC_EXPIRED_ERROR => "Generic expired object error (non-specific)."
  | TRANSACTION_REQUEST_EXPIRED => "Transaction request has already expired."
  | QUOTE_EXPIRED => "The quote is no longer valid."
  | TRANSFER_EXPIRED => "The transfer has already expired."
  | GENERIC_PAYER_ERROR => "Used for private payer-related errors."
  | PAYER_FSP_INSUFFICIENT_LIQUIDITY => "Payer-s FSP lacks funds."
  | GENERIC_PAYER_REJECTION => "Payer or payer FSP rejected the request."
  | PAYER_REJECTED_TRANSACTION_REQUEST => "Payer rejected the transaction request."
  | PAYER_FSP_UNSUPPORTED_TRANSACTION_TYPE => "Transaction type not supported by Payer FSP."
  | PAYER_UNSUPPORTED_CURRENCY => "Payer does not support requested currency."
  | PAYER_LIMIT_ERROR => "Payment amount/frequency exceeds limits."
  | SUSPICIOUS_TRANSACTION_PATTERN => "Repetitive transaction pattern blocked."
  | PAYER_PERMISSION_ERROR => "Payer lacks permission to perform operation."
  | GENERIC_PAYER_BLOCKED_ERROR => "Payer is blocked or failed regulatory screening."
  | GENERIC_PAYEE_ERROR => "Generic error related to payee or payee FSP."
  | PAYEE_FSP_INSUFFICIENT_LIQUIDITY => "Payee FSP lacks sufficient liquidity."
  | GENERIC_PAYEE_REJECTION => "Payee or payee FSP rejected request."
  | PAYEE_REJECTED_QUOTE => "Payee unwilling to proceed after quote."
  | PAYEE_FSP_UNSUPPORTED_TRANSACTION_TYPE => "Payee FSP rejects unsupported transaction type."
  | PAYEE_FSP_REJECTED_QUOTE => "Payee FSP unwilling to continue after quote."
  | PAYEE_REJECTED_TRANSACTION => "Payee rejected the transaction."
  | PAYEE_FSP_REJECTED_TRANSACTION => "Payee FSP rejected the transaction."
  | PAYEE_UNSUPPORTED_CURRENCY => "Payee does not support requested currency."
  | PAYEE_LIMIT_ERROR => "Receiving amount/frequency exceeds allowed limits."
  | PAYEE_PERMISSION_ERROR => "Payee lacks permission to perform operation."
  | GENERIC_PAYEE_BLOCKED_ERROR => "Payee is blocked or failed regulatory screening."
  | ROUNDING_VALUE_ERROR => "Amount is invalid. Please enter the format specified by the service provider."
  | INACTIVE_ACCOUNT => "Account is not active."
  | PHONE_NUMBER_MISMATCH => "There was an error with your account number and phone number combination. Please contact your DFSP to verify the numbers."
  | DUPLICATE_REFERENCE_ID => "Duplicate reference ID."
  end.

(** [FspiopErrorType.VALUES]: every type, in the order the static initialisers run. *)
Definition VALUES : list error_name :=
  [COMMUNICATION_ERROR; DESTINATION_COMMUNICATION_ERROR;
   GENERIC_SERVER_ERROR; INTERNAL_SERVER_ERROR;
   NOT_IMPLEMENTED; SERVICE_CURRENTLY_UNAVAILABLE;
   SERVER_TIMED_OUT; SERVER_BUSY;
   GENERIC_CLIENT_ERROR; UNACCEPTABLE_VERSION_REQUESTED;
   UNKNOWN_URI; ADD_PARTY_INFORMATION_ERROR;
   DUPLICATE_REFERENCE_ID; GENERIC_VALIDATION_ERROR;
   MALFORMED_SYNTAX; MISSING_MANDATORY_ELEMENT;
   TOO_MANY_ELEMENTS; TOO_LARGE_PAYLOAD;
   INVALID_SIGNATURE; MODIFIED_REQUEST;
   MISSING_EXTENSION_PARAMETER; GENERIC_ID_NOT_FOUND;
   DESTINATION_FSP_ERROR; PAYER_FSP_ID_NOT_FOUND;
   PAYEE_FSP_ID_NOT_FOUND; PARTY_NOT_FOUND;
   QUOTE_ID_NOT_FOUND; TRANSACTION_REQUEST_ID_NOT_FOUND;
   TRANSACTION_ID_NOT_FOUND; TRANSFER_ID_NOT_FOUND;
   BULK_QUOTE_ID_NOT_FOUND; BULK_TRANSFER_ID_NOT_FOUND;
   PHONE_NUMBER_MISMATCH; INACTIVE_ACCOUNT;
   GENERIC_EXPIRED_ERROR; TRANSACTION_REQUEST_EXPIRED;
   QUOTE_EXPIRED; TRANSFER_EXPIRED;
   GENERIC_PAYER_ERROR; PAYER_FSP_INSUFFICIENT_LIQUIDITY;
   GENERIC_PAYER_REJECTION; PAYER_REJECTED_TRANSACTION_REQUEST;
   PAYER_FSP_UNSUPPORTED_TRANSACTION_TYPE; PAYER_UNSUPPORTED_CURRENCY;
   PAYER_LIMIT_ERROR; SUSPICIOUS_TRANSACTION_PATTERN;
   PAYER_PERMISSION_ERROR; GENERIC_PAYER_BLOCKED_ERROR;
   GENERIC_PAYEE_ERROR; PAYEE_FSP_INSUFFICIENT_LIQUIDITY;
   GENERIC_PAYEE_REJECTION; PAYEE_REJECTED_QUOTE;
   PAYEE_FSP_UNSUPPORTED_TRANSACTION_TYPE; PAYEE_FSP_REJECTED_QUOTE;
   PAYEE_REJECTED_TRANSACTION; PAYEE_FSP_REJECTED_TRANSACTION;
   PAYEE_UNSUPPORTED_CURRENCY; PAYEE_LIMIT_ERROR;
   PAYEE_PERMISSION_ERROR; ROUNDING_VALUE_ERROR;
   GENERIC_PAYEE_BLOCKED_ERROR].

(** The entries of [FspiopErrors.ERROR_MAP]; each maps the code of a definition to it. *)
Definition ERROR_MAP : list error_name :=
  [COMMUNICATION_ERROR; DESTINATION_COMMUNICATION_ERROR;
   GENERIC_SERVER_ERROR; INTERNAL_SERVER_ERROR;
   NOT_IMPLEMENTED; SERVICE_CURRENTLY_UNAVAILABLE;
   SERVER_TIMED_OUT; SERVER_BUSY;
   GENERIC_CLIENT_ERROR; UNACCEPTABLE_VERSION_REQUESTED;
   UNKNOWN_URI; ADD_PARTY_INFORMATION_ERROR;
   GENERIC_VALIDATION_ERROR; MALFORMED_SYNTAX;
   MISSING_MANDATORY_ELEMENT; TOO_MANY_ELEMENTS;
   TOO_LARGE_PAYLOAD; INVALID_SIGNATURE;
   MODIFIED_REQUEST; MISSING_EXTENSION_PARAMETER;
   GENERIC_ID_NOT_FOUND; DESTINATION_FSP_ERROR;
   PAYER_FSP_ID_NOT_FOUND; PAYEE_FSP_ID_NOT_FOUND;
   PARTY_NOT_FOUND; QUOTE_ID_NOT_FOUND;
   TRANSACTION_REQUEST_ID_NOT_FOUND; TRANSACTION_ID_NOT_FOUND;
   TRANSFER_ID_NOT_FOUND; BULK_QUOTE_ID_NOT_FOUND;
   BULK_TRANSFER_ID_NOT_FOUND; GENERIC_EXPIRED_ERROR;
   TRANSACTION_REQUEST_EXPIRED; QUOTE_EXPIRED;
   TRANSFER_EXPIRED; GENERIC_PAYER_ERROR;
   PAYER_FSP_INSUFFICIENT_LIQUIDITY; GENERIC_PAYER_REJECTION;
   PAYER_REJECTED_TRANSACTION_REQUEST; PAYER_FSP_UNSUPPORTED_TRANSACTION_TYPE;
   PAYER_UNSUPPORTED_CURRENCY; PAYER_LIMIT_ERROR;
   SUSPICIOUS_TRANSACTION_PATTERN; PAYER_PERMISSION_ERROR;
   GENERIC_PAYER_BLOCKED_ERROR; GENERIC_PAYEE_ERROR;
   PAYEE_FSP_INSUFFICIENT_LIQUIDITY; GENERIC_PAYEE_REJECTION;
   PAYEE_REJECTED_QUOTE; PAYEE_FSP_UNSUPPORTED_TRANSACTION_TYPE;
   PAYEE_FSP_REJECTED_QUOTE; PAYEE_REJECTED_TRANSACTION;
   PAYEE_FSP_REJECTED_TRANSACTION; PAYEE_UNSUPPORTED_CURRENCY;
   PAYEE_LIMIT_ERROR; PAYEE_PERMISSION_ERROR;
   GENERIC_PAYEE_BLOCKED_ERROR; ROUNDING_VALUE_ERROR;
   INACTIVE_ACCOUNT; PHONE_NUMBER_MISMATCH;
   DUPLICATE_REFERENCE_ID].

(** The members of NestJS's [HttpStatus] the table uses. *)
Module HttpStatus.
Definition BAD_GATEWAY : Z := 502.
Definition INTERNAL_SERVER_ERROR : Z := 500.
Definition NOT_IMPLEMENTED : Z := 501.
Definition SERVICE_UNAVAILABLE : Z := 503.
Definition GATEWAY_TIMEOUT : Z := 504.
Definition EXPECTATION_FAILED : Z := 417.
Definition PAYLOAD_TOO_LARGE : Z := 413.
Definition UNAUTHORIZED : Z := 401.
Definition REQUEST_TIMEOUT : Z := 408.
End HttpStatus.

(** [FspiopStatusTranslator.STATUS_MAP] *)
Definition STATUS_MAP : list (error_name * Z) :=
  [(COMMUNICATION_ERROR, HttpStatus.BAD_GATEWAY);
   (DESTINATION_COMMUNICATION_ERROR, HttpStatus.BAD_GATEWAY);
   (GENERIC_SERVER_ERROR, HttpStatus.INTERNAL_SERVER_ERROR);
   (INTERNAL_SERVER_ERROR, HttpStatus.INTERNAL_SERVER_ERROR);
   (NOT_IMPLEMENTED, HttpStatus.NOT_IMPLEMENTED);
   (SERVICE_CURRENTLY_UNAVAILABLE, HttpStatus.SERVICE_UNAVAILABLE);
   (SERVER_TIMED_OUT, HttpStatus.GATEWAY_TIMEOUT);
   (SERVER_BUSY, HttpStatus.SERVICE_UNAVAILABLE);
   (GENERIC_CLIENT_ERROR, HttpStatus.EXPECTATION_FAILED);
   (UNACCEPTABLE_VERSION_REQUESTED, HttpStatus.EXPECTATION_FAILED);
   (UNKNOWN_URI, HttpStatus.EXPECTATION_FAILED);
   (ADD_PARTY_INFORMATION_ERROR, HttpStatus.EXPECTATION_FAILED);
   (GENERIC_VALIDATION_ERROR, HttpStatus.EXPECTATION_FAILED);
   (MALFORMED_SYNTAX, HttpStatus.EXPECTATION_FAILED);
   (MISSING_MANDATORY_ELEMENT, HttpStatus.EXPECTATION_FAILED);
   (TOO_MANY_ELEMENTS, HttpStatus.EXPECTATION_FAILED);
   (TOO_LARGE_PAYLOAD, HttpStatus.PAYLOAD_TOO_LARGE);
   (INVALID_SIGNATURE, HttpStatus.UNAUTHORIZED);
   (MODIFIED_REQUEST, HttpStatus.EXPECTATION_FAILED);
   (MISSING_EXTENSION_PARAMETER, HttpStatus.EXPECTATION_FAILED);
   (GENERIC_ID_NOT_FOUND, HttpStatus.EXPECTATION_FAILED);
   (DESTINATION_FSP_ERROR, HttpStatus.EXPECTATION_FAILED);
   (PAYER_FSP_ID_NOT_FOUND, HttpStatus.EXPECTATION_FAILED);
   (PAYEE_FSP_ID_NOT_FOUND, HttpStatus.EXPECTATION_FAILED);
   (PARTY_NOT_FOUND, HttpStatus.EXPECTATION_FAILED);
   (QUOTE_ID_NOT_FOUND, HttpStatus.EXPECTATION_FAILED);
   (TRANSACTION_REQUEST_ID_NOT_FOUND, HttpStatus.EXPECTATION_FAILED);
   (TRANSACTION_ID_NOT_FOUND, HttpStatus.EXPECTATION_FAILED);
   (TRANSFER_ID_NOT_FOUND, HttpStatus.EXPECTATION_FAILED);
   (BULK_QUOTE_ID_NOT_FOUND, HttpStatus.EXPECTATION_FAILED);
   (BULK_TRANSFER_ID_NOT_FOUND, HttpStatus.EXPECTATION_FAILED);
   (GENERIC_EXPIRED_ERROR, HttpStatus.EXPECTATION_FAILED);
   (TRANSACTION_REQUEST_EXPIRED, HttpStatus.REQUEST_TIMEOUT);
   (QUOTE_EXPIRED, HttpStatus.EXPECTATION_FAILED);
   (TRANSFER_EXPIRED, HttpStatus.EXPECTATION_FAILED);
   (GENERIC_PAYER_ERROR, HttpStatus.EXPECTATION_FAILED);
   (PAYER_FSP_INSUFFICIENT_LIQUIDITY, HttpStatus.EXPECTATION_FAILED);
   (PAYEE_FSP_INSUFFICIENT_LIQUIDITY, HttpStatus.EXPECTATION_FAILED);
   (GENERIC_PAYER_REJECTION, HttpStatus.EXPECTATION_FAILED);
   (PAYER_REJECTED_TRANSACTION_REQUEST, HttpStatus.EXPECTATION_FAILED);
   (PAYER_FSP_UNSUPPORTED_TRANSACTION_TYPE, HttpStatus.EXPECTATION_FAILED);
   (PAYER_UNSUPPORTED_CURRENCY, HttpStatus.EXPECTATION_FAILED);
   (PAYER_LIMIT_ERROR, HttpStatus.EXPECTATION_FAILED);
   (SUSPICIOUS_TRANSACTION_PATTERN, HttpStatus.EXPECTATION_FAILED);
   (PAYER_PERMISSION_ERROR, HttpStatus.EXPECTATION_FAILED);
   (GENERIC_PAYER_BLOCKED_ERROR, HttpStatus.EXPECTATION_FAILED);
   (ROUNDING_VALUE_ERROR, HttpStatus.EXPECTATION_FAILED);
   (INACTIVE_ACCOUNT, HttpStatus.EXPECTATION_FAILED);
   (GENERIC_PAYEE_ERROR, HttpStatus.INTERNAL_SERVER_ERROR);
   (GENERIC_PAYEE_REJECTION, HttpStatus.EXPECTATION_FAILED);
   (PAYEE_REJECTED_QUOTE, HttpStatus.EXPECTATION_FAILED);
   (PAYEE_FSP_UNSUPPORTED_TRANSACTION_TYPE, HttpStatus.EXPECTATION_FAILED);
   (PAYEE_FSP_REJECTED_QUOTE, HttpStatus.EXPECTATION_FAILED);
   (PAYEE_REJECTED_TRANSACTION, HttpStatus.EXPECTATION_FAILED);
   (PAYEE_FSP_REJECTED_TRANSACTION, HttpStatus.EXPECTATION_FAILED);
   (PAYEE_UNSUPPORTED_CURRENCY, HttpStatus.EXPECTATION_FAILED);
   (PAYEE_LIMIT_ERROR, HttpStatus.EXPECTATION_FAILED);
   (PAYEE_PERMISSION_ERROR, HttpStatus.EXPECTATION_FAILED);
   (GENERIC_PAYEE_BLOCKED_ERROR, HttpStatus.EXPECTATION_FAILED)].
(** ** Extensions, definitions and exceptions *)

(** [dto/extension.ts]; either member may be missing at run time, and the code
    reads both with [?.]. *)
Record Extension : Set := mkExtension { ext_key : option jsstr; ext_value : option jsstr }.
(** [ExtensionList.extension] of [dto/extension-list.ts]. *)
Abbreviation ExtensionList := (list Extension).

Record FspiopErrorType : Set := mkErrorType { code_of_type : jsstr; name_of_type : jsstr }.
Definition error_type (n : error_name) : FspiopErrorType := mkErrorType (type_code n) (type_name n).

Record ErrorDefinition : Set := mkErrorDefinition { errorType : FspiopErrorType; description : jsstr }.
(** The constant [FspiopErrors.<NAME>]. *)
Definition definition_of (n : error_name) : ErrorDefinition :=
  mkErrorDefinition (error_type n) (definition_description n).

(** [FspiopErrorType.fromCode]; [None] is the [Error] it throws. *)
Definition fromCode (c : jsstr) : option FspiopErrorType :=
  List.find (fun t => str_eqb (code_of_type t) c) (map error_type VALUES).

(** [FspiopErrors.find], on the map's own keys. *)
Definition find (c : jsstr) : option ErrorDefinition :=
  List.find (fun d => str_eqb (code_of_type (errorType d)) c) (map definition_of ERROR_MAP).

(** The [errorInformation] object of [ErrorDefinition.toErrorObject]. *)
Record ErrorInformation : Set := mkErrorInformation {
  errorCode : option jsstr;
  errorDescription : option jsstr;
  ei_extensionList : option ExtensionList }.

Definition toErrorObject (d : ErrorDefinition) (extensionList : option ExtensionList) : ErrorInformation :=
  mkErrorInformation (Some (code_of_type (errorType d))) (Some (description d)) extensionList.

Record FspiopException : Set := mkFspiopException {
  errorDefinition : ErrorDefinition;
  extensionList : option ExtensionList;
  message : jsstr }.

(** What the source throws: an [FspiopException], the [FspiopAxiosError] of a peer's
    error response, a [CatalystException], another [Error], or a value that is not
    an [Error]. *)
Inductive thrown : Set :=
  | TFspiop (e : FspiopException)
  | TAxios (status : Z) (errorInformation : option ErrorInformation)
  | TCatalyst (code : jsstr) (message : jsstr)
  | TError (message : jsstr)
  | TOther.

Definition firstNonBlank (value : option jsstr) (fallback : jsstr) : jsstr :=
  match value with
  | Some v => if bool_decide (trim v = []) then fallback else v
  | None => fallback
  end.

(** The third argument's overloads of the constructor. *)
Inductive exn_arg : Set :=
  | ANone
  | AMessage (m : jsstr) (extensionListArg : option ExtensionList)
  | AError (m : jsstr) (extensionListArg : option ExtensionList)
  | AExtensions (l : ExtensionList).

Definition new_FspiopException (d : ErrorDefinition) (arg : exn_arg) : FspiopException :=
  let rawMessage := match arg with
                    | AMessage m _ => m
                    | AError m _ => m
                    | _ => description d
                    end in
  let msg := firstNonBlank (Some rawMessage) (description d) in
  let exts := match arg with
              | AMessage _ l => l
              | AError _ l => l
              | AExtensions l => Some l
              | ANone => None
              end in
  let def := match arg with
             | AMessage _ _ => mkErrorDefinition (errorType d) msg
             | _ => d
             end in
  mkFspiopException def exts msg.

(** [throw new FspiopException(FspiopErrors.<n>, '<m>')] *)
Definition fspiop (n : error_name) (m : string) : thrown :=
  TFspiop (new_FspiopException (definition_of n) (AMessage (js m) None)).
Definition fspiop_msg (n : error_name) (m : jsstr) : thrown :=
  TFspiop (new_FspiopException (definition_of n) (AMessage m None)).

(** The [message] property of a thrown [Error]; [FspiopAxiosError] builds its own. *)
Definition error_message (t : thrown) : option jsstr :=
  match t with
  | TFspiop e => Some (message e)
  | TAxios status ei =>
      Some (js "FSPIOP error [" ++ dec_print status ++ js "] " ++
            default (js "0000") (ei ≫= errorCode) ++ js ": " ++
            default (js "unknown") (ei ≫= errorDescription))
  | TCatalyst _ m => Some m
  | TError m => Some m
  | TOther => None
  end.

(** [FspiopException.normalize] *)
Definition normalize (t : thrown) : FspiopException :=
  match t with
  | TFspiop e => e
  | _ =>
      let m := firstNonBlank (error_message t) (description (definition_of INTERNAL_SERVER_ERROR)) in
      new_FspiopException (definition_of INTERNAL_SERVER_ERROR) (AMessage m None)
  end.

(** ** FspiopErrorTranslator *)

Definition norm_key (x : Extension) : jsstr :=
  match ext_key x with Some k => toLowerCase (trim k) | None => [] end.

(** [upsertExtension]: overwrite the first extension whose normalised key is the
    target, or append one. *)
Fixpoint upsertExtension (targetKey targetValue : jsstr) (xs : ExtensionList) : ExtensionList :=
  match xs with
  | [] => [mkExtension (Some targetKey) (Some targetValue)]
  | x :: xs =>
      if str_eqb (norm_key x) targetKey
      then mkExtension (ext_key x) (Some targetValue) :: xs
      else x :: upsertExtension targetKey targetValue xs
  end.

(** [withTransactionId] returns its argument itself or a new object, and its caller
    tells them apart with [===]. *)
Inductive merged : Set :=
  | Same
  | Merged (l : ExtensionList).

Definition blank (s : option jsstr) : bool :=
  match s with Some s => bool_decide (trim s = []) | None => true end.

Definition withTransactionId (exts : option ExtensionList) (transactionId : option jsstr)
    (msg : option jsstr) : merged :=
  if blank transactionId then Same
  else
    let extensions := default [] exts in
    if blank msg then Merged extensions
    else Merged (upsertExtension [] (trim (default [] msg)) extensions).

Definition toFspiopException (t : thrown) (transactionId : option jsstr) : FspiopException :=
  let normalized := normalize t in
  match withTransactionId (extensionList normalized) transactionId
          (Some (description (errorDefinition normalized))) with
  | Same =>
      let errorDef := default (definition_of GENERIC_VALIDATION_ERROR)
                        (find (code_of_type (errorType (errorDefinition normalized)))) in
      new_FspiopException errorDef
        (AExtensions [mkExtension (Some []) (Some (description (errorDefinition normalized)))])
  | Merged l => new_FspiopException (errorDefinition normalized) (AExtensions l)
  end.

(** ** FspiopStatusTranslator *)

Definition toHttpStatus (e : FspiopException) : Z :=
  match List.find (fun p => str_eqb (type_code (fst p)) (code_of_type (errorType (errorDefinition e)))) STATUS_MAP with
  | Some p => snd p
  | None => HttpStatus.INTERNAL_SERVER_ERROR
  end.

Definition exn_code (e : FspiopException) : jsstr := code_of_type (errorType (errorDefinition e)).

(** The first extension with a given normalised key, as [extensions.find] returns it. *)
Definition find_extension (k : jsstr) (xs : ExtensionList) : option Extension :=
  List.find (fun x => str_eqb (norm_key x) k) xs.

(** * Lemmas *)

Lemma type_code_inj n m : type_code n = type_code m -> n = m.
Proof.
  assert (forall k, List.find (fun a => str_eqb (type_code a) (type_code k)) VALUES = Some k) as Hf
    by (intros []; reflexivity).
  intros E. pose proof (Hf n) as Hn. rewrite E, (Hf m) in Hn. congruence.
Qed.

Lemma find_type_code n : find (type_code n) = Some (definition_of n).
Proof. destruct n; reflexivity. Qed.

Lemma find_Some c d : find c = Some d -> exists n, d = definition_of n /\ c = type_code n.
Proof.
  intros [Hin Hc]%find_some. apply in_map_iff in Hin as (n & <- & _).
  exists n. split; [done|]. apply bool_decide_eq_true in Hc. by rewrite <- Hc.
Qed.

Lemma firstNonBlank_nonblank v f : trim f <> [] -> trim (firstNonBlank v f) <> [].
Proof. intros Hf. destruct v as [v|]; cbn; [|done]. by case_bool_decide. Qed.

Lemma definition_description_nonblank n : trim (definition_description n) <> [].
Proof. destruct n; vm_compute; discriminate. Qed.

Lemma upsertExtension_find v xs :
  exists x, find_extension [] (upsertExtension [] v xs) = Some x /\ ext_value x = Some v.
Proof.
  induction xs as [|x xs (y & Hy & Hv)]; unfold find_extension, str_eqb in *.
  - by exists (mkExtension (Some []) (Some v)).
  - cbn [upsertExtension]. unfold str_eqb. case_bool_decide as Hx; cbn [List.find].
    + exists (mkExtension (ext_key x) (Some v)).
      change (norm_key (mkExtension (ext_key x) (Some v))) with (norm_key x). by rewrite bool_decide_true.
    + exists y. by rewrite bool_decide_false.
Qed.

Lemma upsertExtension_others v xs :
  List.filter (fun x => negb (str_eqb (norm_key x) [])) (upsertExtension [] v xs) =
  List.filter (fun x => negb (str_eqb (norm_key x) [])) xs.
Proof.
  induction xs as [|x xs IH]; [done|]. cbn [upsertExtension].
  destruct (str_eqb (norm_key x) []) eqn:Hx; cbn [List.filter].
  - change (norm_key (mkExtension (ext_key x) (Some v))) with (norm_key x). by rewrite Hx.
  - by rewrite Hx, IH.
Qed.

Lemma toFspiopException_blank_id t id :
  blank id = true ->
  toFspiopException t id =
  new_FspiopException
    (default (definition_of GENERIC_VALIDATION_ERROR) (find (exn_code (normalize t))))
    (AExtensions [mkExtension (Some []) (Some (description (errorDefinition (normalize t))))]).
Proof. intros Hb. unfold toFspiopException, withTransactionId. by rewrite Hb. Qed.

(** * Properties *)

(** The catalogue is complete and consistent: looking up the code of any of the
    declared error types gives back exactly that type's definition, every successful
    lookup is of a declared code, and no two types share a code. *)
Theorem find_catalogue :
  (forall n, find (type_code n) = Some (definition_of n)) /\
  (forall c d, find c = Some d -> code_of_type (errorType d) = c /\ fromCode c = Some (errorType d)) /\
  (forall n m, type_code n = type_code m -> n = m).
Proof.
  split; [exact find_type_code|]. split; [|exact type_code_inj].
  intros c d (n & -> & ->)%find_Some. split; [done|]. destruct n; reflexivity.
Qed.

(** The error types whose code names a fault of the caller (30xx, 31xx, 32xx, 33xx)
    or of the payer or payee (4xxx, 5xxx). *)
Definition first_digit (n : error_name) : option ascii := head (type_code n).

(** The HTTP status of an exception is a 5xx exactly for the communication and
    server codes (1xxx and 2xxx), for the generic payee error, for the two codes
    that have no row in the status map (3041 and 3241), and for codes outside the
    catalogue; every other code of the catalogue becomes a 4xx. *)
Theorem toHttpStatus_server_errors :
  forall (e : FspiopException) (n : error_name), exn_code e = type_code n ->
  400 <= toHttpStatus e < 600 /\
  (500 <= toHttpStatus e <->
     first_digit n = Some "1"%char \/ first_digit n = Some "2"%char \/
     n = GENERIC_PAYEE_ERROR \/ n = DUPLICATE_REFERENCE_ID \/ n = PHONE_NUMBER_MISMATCH).
Proof.
  intros e n Hn. unfold toHttpStatus. fold (exn_code e). rewrite Hn.
  destruct n; vm_compute; intuition congruence.
Qed.

Lemma toHttpStatus_server_errors_witness :
  toHttpStatus (new_FspiopException (definition_of DUPLICATE_REFERENCE_ID) ANone) = 500 /\
  400 <= toHttpStatus (new_FspiopException (definition_of DUPLICATE_REFERENCE_ID) ANone) < 600.
Proof.
  split; [reflexivity|].
  exact (proj1 (toHttpStatus_server_errors
    (new_FspiopException (definition_of DUPLICATE_REFERENCE_ID) ANone) DUPLICATE_REFERENCE_ID eq_refl)).
Defined.

(** Translating an exception without a transaction id keeps its error code when
    the catalogue has it and falls back to 3100 otherwise, restores the catalogue's
    own description, and replaces the whole extension list by a single entry with an
    empty key that carries the description the exception had. *)
Theorem toFspiopException_without_id :
  forall (t : thrown) (id : option jsstr), blank id = true ->
  let e := toFspiopException t id in
  (forall n, exn_code (normalize t) = type_code n -> errorDefinition e = definition_of n) /\
  (find (exn_code (normalize t)) = None -> errorDefinition e = definition_of GENERIC_VALIDATION_ERROR) /\
  extensionList e = Some [mkExtension (Some []) (Some (description (errorDefinition (normalize t))))].
Proof.
  intros t id Hb e. subst e. rewrite toFspiopException_blank_id by done.
  cbn [new_FspiopException errorDefinition extensionList].
  split; [|split; [|done]].
  - intros n ->. by rewrite find_type_code.
  - by intros ->.
Qed.

Lemma toFspiopException_without_id_witness :
  let t := TFspiop (mkFspiopException (mkErrorDefinition (mkErrorType (js "9999") []) (js "odd")) None []) in
  errorDefinition (toFspiopException t None) = definition_of GENERIC_VALIDATION_ERROR.
Proof.
  intros t. exact (proj1 (proj2 (toFspiopException_without_id t None eq_refl)) eq_refl).
Defined.

(** Translating an exception with a transaction id keeps its definition and every
    extension whose key is not empty, in order, and leaves the trimmed description
    as the value found under the empty key. *)
Theorem toFspiopException_with_id :
  forall (t : thrown) (id : option jsstr), blank id = false ->
  trim (description (errorDefinition (normalize t))) <> [] ->
  exists l x, extensionList (toFspiopException t id) = Some l /\
    errorDefinition (toFspiopException t id) = errorDefinition (normalize t) /\
    List.filter (fun x => negb (str_eqb (norm_key x) [])) l =
      List.filter (fun x => negb (str_eqb (norm_key x) [])) (default [] (extensionList (normalize t))) /\
    find_extension [] l = Some x /\ ext_value x = Some (trim (description (errorDefinition (normalize t)))).
Proof.
  intros t id Hb Hd. unfold toFspiopException, withTransactionId. rewrite Hb. cbn [blank default].
  rewrite bool_decide_false by done.
  destruct (upsertExtension_find (trim (description (errorDefinition (normalize t))))
              (default [] (extensionList (normalize t)))) as (x & Hx & Hv).
  exists (upsertExtension [] (trim (description (errorDefinition (normalize t))))
           (default [] (extensionList (normalize t)))), x.
  repeat split; [apply upsertExtension_others | done | done].
Qed.

Lemma toFspiopException_with_id_witness :
  exists l x, extensionList (toFspiopException (TError (js "boom")) (Some (js "T1"))) = Some l /\
    errorDefinition (toFspiopException (TError (js "boom")) (Some (js "T1"))) =
      errorDefinition (normalize (TError (js "boom"))) /\
    List.filter (fun x => negb (str_eqb (norm_key x) [])) l = [] /\
    find_extension [] l = Some x /\ ext_value x = Some (js "boom").
Proof.
  exact (toFspiopException_with_id (TError (js "boom")) (Some (js "T1")) eq_refl
           ltac:(vm_compute; discriminate)).
Defined.
