(* ===== verification/Dates.v ===== *)
(** * Dates

    shared/fspiop/component/fspiop-dates.ts: the dates of request bodies and headers. The
    texts of [Date] are those of ECMAScript; how [Date.parse] reads a text that is not one
    of its formats is left to the engine, the class [JsDates]. *)

From S2P Require Import Prelude Errors.

(** ** The Date of JavaScript

    The proleptic Gregorian date of a day, from eras of 400 years that start on March 1st. *)
Definition DAY_MS : Z := 86400000.

Definition civil (day : Z) : Z * Z * Z :=
  let z := day + 719468 in
  let era := z / 146097 in
  let doe := z mod 146097 in
  let yoe := (doe - doe / 1460 + doe / 36524 - doe / 146096) / 365 in
  let doy := doe - (365 * yoe + yoe / 4 - yoe / 100) in
  let mp := (5 * doy + 2) / 153 in
  let month := if mp <? 10 then mp + 3 else mp - 9 in
  (yoe + era * 400 + (if month <=? 2 then 1 else 0), month, doy - (153 * mp + 2) / 5 + 1).

(** The day of a date. *)
Definition day_number (year month date : Z) : Z :=
  let y := if month <=? 2 then year - 1 else year in
  let mp := if 3 <=? month then month - 3 else month + 9 in
  let yoe := y mod 400 in
  y / 400 * 146097 + 365 * yoe + yoe / 4 - yoe / 100 + ((153 * mp + 2) / 5 + date - 1) - 719468.

Definition pad (n : nat) (z : Z) : jsstr := padStart n "0"%char (dec_print z).

(** [Date.prototype.toUTCString] of a finite time value. *)
Definition toUTCString (time : Z) : jsstr :=
  let day := time / DAY_MS in
  let seconds := time mod DAY_MS / 1000 in
  let '(year, month, date) := civil day in
  nth (Z.to_nat ((day + 4) mod 7)) (map js ["Sun"; "Mon"; "Tue"; "Wed"; "Thu"; "Fri"; "Sat"]) [] ++ js ", " ++
  pad 2 date ++ js " " ++
  nth (Z.to_nat (month - 1)) (map js ["Jan"; "Feb"; "Mar"; "Apr"; "May"; "Jun"; "Jul"; "Aug"; "Sep"; "Oct"; "Nov"; "Dec"]) [] ++ js " " ++
  (if year <? 0 then js "-" else []) ++ pad 4 (Z.abs year) ++ js " " ++
  pad 2 (seconds / 3600) ++ js ":" ++ pad 2 (seconds / 60 mod 60) ++ js ":" ++ pad 2 (seconds mod 60) ++ js " GMT".

(** A year in an ISO text: four digits, or a sign and six. *)
Definition iso_year (year : Z) : jsstr :=
  if (0 <=? year) && (year <=? 9999) then pad 4 year
  else (if year <? 0 then js "-" else js "+") ++ pad 6 (Z.abs year).

(** What [toISOString] writes before the zone. *)
Definition iso_local (time : Z) : jsstr :=
  let ms := time mod DAY_MS in
  let '(year, month, date) := civil (time / DAY_MS) in
  iso_year year ++ js "-" ++ pad 2 month ++ js "-" ++ pad 2 date ++ js "T" ++
  pad 2 (ms / 3600000) ++ js ":" ++ pad 2 (ms / 60000 mod 60) ++ js ":" ++ pad 2 (ms / 1000 mod 60) ++ js "." ++
  pad 3 (ms mod 1000).
Definition toISOString (time : Z) : jsstr := iso_local time ++ js "Z".

(** *** Reading the format back *)

(** [n] digits. *)
Definition read_field (n : nat) (s : jsstr) : option (Z * jsstr) :=
  let f := take n s in
  if (length f =? n)%nat && forallb is_digit f then Some (dec_value f, drop n s) else None.
Definition read_char (c : ascii) (s : jsstr) : option jsstr :=
  match s with d :: s => if bool_decide (d = c) then Some s else None | [] => None end.

(** The offset of a zone: [Z], or hours and minutes after a sign. *)
Definition read_zone (s : jsstr) : option Z :=
  if bool_decide (s = js "Z") then Some 0
  else match s with
       | sign :: s =>
           '(h, s) ← read_field 2 s; s ← read_char ":"%char s; '(m, s) ← read_field 2 s;
           if bool_decide (s = []) && (h <=? 23) && (m <=? 59)
           then if bool_decide (sign = "+"%char) then Some (h * 3600000 + m * 60000)
                else if bool_decide (sign = "-"%char) then Some (- (h * 3600000 + m * 60000)) else None
           else None
       | [] => None
       end.

(** The date-time format of ECMAScript with milliseconds and a zone, for years of four
    digits, and of a date there is. *)
Definition iso_parse (s : jsstr) : option Z :=
  '(year, s) ← read_field 4 s; s ← read_char "-"%char s; '(month, s) ← read_field 2 s;
  s ← read_char "-"%char s; '(date, s) ← read_field 2 s; s ← read_char "T"%char s;
  '(h, s) ← read_field 2 s; s ← read_char ":"%char s; '(m, s) ← read_field 2 s; s ← read_char ":"%char s;
  '(sec, s) ← read_field 2 s; s ← read_char "."%char s; '(ms, s) ← read_field 3 s;
  offset ← read_zone s;
  if bool_decide (civil (day_number year month date) = (year, month, date)) && (h <=? 23) && (m <=? 59) && (sec <=? 59)
  then Some (day_number year month date * DAY_MS + h * 3600000 + m * 60000 + sec * 1000 + ms - offset)
  else None.

(** [new Date(text).getTime()]: NaN is [None]. An engine reads the format of the standard. *)
Class JsDates : Type := {
  Date_parse : jsstr -> option Z;
  Date_parse_iso s t : iso_parse s = Some t -> Date_parse s = Some t }.

(** An engine that reads nothing else. *)
#[export] Instance strict_dates : JsDates := {| Date_parse := iso_parse; Date_parse_iso _ _ H := H |}.

(** ** FspiopDates *)

Definition REQUEST_BODY_GMT_OFFSET : jsstr := js "+00:00".

(** [text.replace(c, by)]: the first only. *)
Fixpoint replace_first (c : ascii) (by_ s : jsstr) : jsstr :=
  match s with [] => [] | d :: s => if bool_decide (d = c) then by_ ++ s else d :: replace_first c by_ s end.

Definition forRequestBody (date : Z) : jsstr := replace_first "Z"%char REQUEST_BODY_GMT_OFFSET (toISOString date).
Definition forRequestHeader (date : Z) : jsstr := toUTCString date.

Definition fromRequestBody `{JsDates} (body : jsstr) : result thrown Z :=
  match Date_parse body with
  | Some t => Ok t
  | None => Err (TError (js "Error parsing date from request body."))
  end.
Definition fromRequestHeader `{JsDates} (header : jsstr) : result thrown Z :=
  match Date_parse header with
  | Some t => Ok t
  | None => Err (TError (js "Error parsing date from request header."))
  end.

(** ** Lemmas *)

(** The extremes of a year, a leap day, the start of time and a date before it. *)
Example toUTCString_test :
  map toUTCString [1767225599999; 951782400000; 0; -1; 1234567890123] =
  map js ["Wed, 31 Dec 2025 23:59:59 GMT"; "Tue, 29 Feb 2000 00:00:00 GMT"; "Thu, 01 Jan 1970 00:00:00 GMT";
    "Wed, 31 Dec 1969 23:59:59 GMT"; "Fri, 13 Feb 2009 23:31:30 GMT"].
Proof. vm_compute. reflexivity. Qed.
Example toISOString_test :
  map toISOString [1767225599999; 951782400000; 0; 253402300800000; -62167219200001] =
  map js ["2025-12-31T23:59:59.999Z"; "2000-02-29T00:00:00.000Z"; "1970-01-01T00:00:00.000Z"; "+010000-01-01T00:00:00.000Z";
    "-000001-12-31T23:59:59.999Z"].
Proof. vm_compute. reflexivity. Qed.

(** *** The date of a day *)

(** The year within an era, and the day of that year. *)
Lemma year_of_era doe : 0 <= doe < 146097 ->
  let yoe := (doe - doe / 1460 + doe / 36524 - doe / 146096) / 365 in
  0 <= yoe <= 399 /\ 0 <= doe - (365 * yoe + yoe / 4 - yoe / 100) <= 365.
Proof.
  intros Hd. cbv zeta. Z.div_mod_to_equations. lia.
Qed.

Lemma civil_day day : let '(year, month, date) := civil day in
  day_number year month date = day /\ 1 <= month <= 12 /\ 1 <= date <= 31.
Proof.
  unfold civil, day_number. pose proof (Z.mod_pos_bound (day + 719468) 146097 ltac:(lia)) as Hb.
  pose proof (Z.div_mod (day + 719468) 146097 ltac:(lia)) as He. pose proof (year_of_era _ Hb) as [Hy Hd].
  cbv zeta in Hy, Hd. set (doe := (day + 719468) mod 146097) in *. set (era := (day + 719468) / 146097) in *.
  set (yoe := (doe - doe / 1460 + doe / 36524 - doe / 146096) / 365) in *.
  set (doy := doe - (365 * yoe + yoe / 4 - yoe / 100)) in *. set (mp := (5 * doy + 2) / 153).
  assert (Hm : 0 <= mp <= 11) by (unfold mp; Z.div_mod_to_equations; lia).
  assert (Hdate : 0 <= doy - (153 * mp + 2) / 5 <= 30) by (unfold mp; Z.div_mod_to_equations; lia).
  assert (Hyear : forall b : Z, (yoe + era * 400 + b - b) mod 400 = yoe /\ (yoe + era * 400 + b - b) / 400 = era).
  { intros b. split; [|Z.div_mod_to_equations; lia].
    replace (yoe + era * 400 + b - b) with (yoe + era * 400) by lia. rewrite Z.mod_add by lia. apply Z.mod_small. lia. }
  destruct (Z.ltb_spec mp 10) as [Hlt|Hge].
  - destruct (Z.leb_spec (mp + 3) 2); [lia|]. destruct (Z.leb_spec 3 (mp + 3)); [|lia].
    destruct (Hyear 0) as [Hy1 Hy2]. rewrite Z.sub_0_r in Hy1, Hy2. rewrite Hy1, Hy2.
    replace (mp + 3 - 3) with mp by lia. unfold doy in *. lia.
  - destruct (Z.leb_spec (mp - 9) 2); [|lia]. destruct (Z.leb_spec 3 (mp - 9)); [lia|].
    destruct (Hyear 1) as [Hy1 Hy2]. rewrite Hy1, Hy2. replace (mp - 9 + 9) with mp by lia. unfold doy in *. lia.
Qed.

(** From the year 0 to the year 9999. *)
Definition MIN_ISO : Z := -62167219200000.
Definition MAX_ISO : Z := 253402300800000.

Lemma civil_year day : MIN_ISO / DAY_MS <= day < MAX_ISO / DAY_MS -> let '(year, _, _) := civil day in 0 <= year <= 9999.
Proof.
  change (MIN_ISO / DAY_MS) with (-719528). change (MAX_ISO / DAY_MS) with 2932897. intros Hd. unfold civil.
  pose proof (Z.mod_pos_bound (day + 719468) 146097 ltac:(lia)) as Hb.
  pose proof (Z.div_mod (day + 719468) 146097 ltac:(lia)) as He. pose proof (year_of_era _ Hb) as [Hy Hdoy].
  cbv zeta in Hy, Hdoy. set (doe := (day + 719468) mod 146097) in *. set (era := (day + 719468) / 146097) in *.
  assert (Hera : -1 <= era <= 24) by lia.
  set (yoe := (doe - doe / 1460 + doe / 36524 - doe / 146096) / 365) in *.
  set (doy := doe - (365 * yoe + yoe / 4 - yoe / 100)) in *. set (mp := (5 * doy + 2) / 153).
  assert (Hm : 0 <= mp <= 11) by (unfold mp; Z.div_mod_to_equations; lia).
  assert (Hlast : mp >= 10 <-> doy >= 306) by (unfold mp; Z.div_mod_to_equations; lia).
  assert (H399 : yoe = 399 -> doy = doe - 145731) by (intros E; unfold doy; rewrite E; reflexivity).
  assert (Hfirst : era = -1 -> doe >= 146037) by lia. assert (Hend : era = 24 -> doe <= 146036) by lia.
  assert (Hneg : era = -1 -> yoe = 399) by (intros E; specialize (Hfirst E); unfold yoe; clear -Hfirst Hb; Z.div_mod_to_equations; lia).
  destruct (Z.ltb_spec mp 10); [destruct (Z.leb_spec (mp + 3) 2)|destruct (Z.leb_spec (mp - 9) 2)]; lia.
Qed.

(** *** Reading a text back *)

Lemma pad_spec n z : 0 <= z < 10 ^ Z.of_nat n -> (0 < n)%nat ->
  length (pad n z) = n /\ all_digits (pad n z) /\ dec_value (pad n z) = z.
Proof.
  intros Hz Hn. destruct (dec_print_spec z ltac:(lia)) as (Hd & Hv & _). pose proof (dec_print_length z n Hz Hn) as Hl.
  unfold pad, padStart. rewrite length_app, length_replicate. split; [lia|]. split.
  - apply Forall_app. split; [|done]. apply Forall_replicate. done.
  - rewrite dec_value_app, dec_value_zeros, Hv. lia.
Qed.

Lemma read_field_pad n z s : 0 <= z < 10 ^ Z.of_nat n -> (0 < n)%nat -> read_field n (pad n z ++ s) = Some (z, s).
Proof.
  intros Hz Hn. destruct (pad_spec n z Hz Hn) as (Hl & Hd & Hv). unfold read_field.
  rewrite take_app_length', drop_app_length' by done. rewrite Hl, Nat.eqb_refl, Hv.
  assert (forallb is_digit (pad n z) = true) as ->; [|done].
  clear -Hd. induction Hd as [|c l Hc _ IH]; cbn; [done|by rewrite Hc].
Qed.

Lemma read_char_cons c s : read_char c (c :: s) = Some s.
Proof. unfold read_char. by rewrite bool_decide_true. Qed.

Lemma iso_parse_local time zone offset : MIN_ISO <= time < MAX_ISO -> read_zone zone = Some offset ->
  iso_parse (iso_local time ++ zone) = Some (time - offset).
Proof.
  intros Ht Hz. assert (Hday : MIN_ISO / DAY_MS <= time / DAY_MS < MAX_ISO / DAY_MS).
  { unfold MIN_ISO, MAX_ISO, DAY_MS in *. Z.div_mod_to_equations. lia. }
  pose proof (civil_day (time / DAY_MS)) as Hc. pose proof (civil_year _ Hday) as Hy. unfold iso_local.
  destruct (civil (time / DAY_MS)) as [[year month] date] eqn:He. destruct Hc as (Hn & Hm & Hd).
  pose proof (Z.mod_pos_bound time DAY_MS ltac:(done)) as Hms. pose proof (Z.div_mod time DAY_MS ltac:(done)) as Hdm.
  set (ms := time mod DAY_MS) in *. unfold iso_year. destruct (Z.leb_spec 0 year); [|lia].
  destruct (Z.leb_spec year 9999); [|lia]. cbn [andb]. unfold iso_parse.
  assert (Hfields : 0 <= ms / 3600000 <= 23 /\ 0 <= ms / 60000 mod 60 <= 59 /\ 0 <= ms / 1000 mod 60 <= 59 /\
    0 <= ms mod 1000 <= 999 /\ ms / 3600000 * 3600000 + ms / 60000 mod 60 * 60000 + ms / 1000 mod 60 * 1000 + ms mod 1000 = ms)
    by (unfold DAY_MS in Hms; Z.div_mod_to_equations; lia).
  destruct Hfields as (Hh & Hmi & Hs & Hmil & Hsum).
  rewrite <- !app_assoc. cbn [js String.list_ascii_of_string app].
  do 3 (rewrite read_field_pad by lia; cbn [mbind option_bind]; rewrite read_char_cons; cbn [mbind option_bind]).
  do 3 (rewrite read_field_pad by lia; cbn [mbind option_bind]; rewrite read_char_cons; cbn [mbind option_bind]).
  rewrite read_field_pad by lia. cbn [mbind option_bind]. rewrite Hz. cbn [mbind option_bind].
  rewrite Hn, He, bool_decide_true by done. rewrite !(proj2 (Z.leb_le _ _)) by lia. cbn [andb]. f_equal. lia.
Qed.

Lemma replace_first_app c by_ s t : c ∉ s -> replace_first c by_ (s ++ c :: t) = s ++ by_ ++ t.
Proof.
  induction s as [|d s IH]; intros Hs; cbn.
  - by rewrite bool_decide_true.
  - apply not_elem_of_cons in Hs as [Hd Hs]. rewrite bool_decide_false by congruence. by rewrite IH.
Qed.

Lemma not_in_digits c s : is_digit c = false -> all_digits s -> c ∉ s.
Proof. intros Hc Hs Hin. apply (proj1 (Forall_forall _ _) Hs) in Hin. congruence. Qed.

Lemma iso_local_no_z time : MIN_ISO <= time < MAX_ISO -> "Z"%char ∉ iso_local time.
Proof.
  intros Ht. assert (Hday : MIN_ISO / DAY_MS <= time / DAY_MS < MAX_ISO / DAY_MS).
  { unfold MIN_ISO, MAX_ISO, DAY_MS in *. Z.div_mod_to_equations. lia. }
  pose proof (civil_day (time / DAY_MS)) as Hc. pose proof (civil_year _ Hday) as Hy. unfold iso_local.
  destruct (civil (time / DAY_MS)) as [[year month] date]. destruct Hc as (_ & Hm & Hd).
  pose proof (Z.mod_pos_bound time DAY_MS ltac:(done)) as Hms. unfold iso_year. destruct (Z.leb_spec 0 year); [|lia].
  destruct (Z.leb_spec year 9999); [|lia]. cbn [andb]. set (ms := time mod DAY_MS) in *.
  assert (Hp : forall n z, 0 <= z -> "Z"%char ∉ pad n z).
  { intros n z Hz. apply not_in_digits; [done|]. unfold pad, padStart. apply Forall_app.
    split; [by apply Forall_replicate|by apply dec_print_spec]. }
  assert (Hf : 0 <= ms / 3600000 /\ 0 <= ms / 60000 mod 60 /\ 0 <= ms / 1000 mod 60 /\ 0 <= ms mod 1000)
    by (Z.div_mod_to_equations; lia).
  rewrite !not_elem_of_app. repeat match goal with |- _ /\ _ => split end;
    first [apply Hp; lia|cbn; set_solver].
Qed.

(** A date of the years 0 to 9999 written into a request body reads back as itself,
    whatever else the engine accepts; so does its text with a Z. *)
Theorem request_body_roundtrip `{JsDates} (date : Z) : MIN_ISO <= date < MAX_ISO ->
  fromRequestBody (forRequestBody date) = Ok date /\ fromRequestBody (toISOString date) = Ok date.
Proof.
  intros Hd. unfold fromRequestBody, forRequestBody, toISOString. change (js "Z") with ["Z"%char].
  rewrite replace_first_app, app_nil_r by by apply iso_local_no_z.
  rewrite !(Date_parse_iso _ date); [done| |].
  - rewrite (iso_parse_local date _ 0); [f_equal; lia|done|reflexivity].
  - rewrite (iso_parse_local date _ 0); [f_equal; lia|done|reflexivity].
Qed.

Lemma request_body_roundtrip_witness :
  fromRequestBody (forRequestBody 1767225599999) = Ok 1767225599999 /\ fromRequestBody (toISOString 1767225599999) = Ok 1767225599999.
Proof. apply (request_body_roundtrip 1767225599999). unfold MIN_ISO, MAX_ISO. lia. Defined.
