(* ===== verification/Currencies.v ===== *)
(** * Currencies

    The currency codes of [dto/currency.ts] and their profiles in
    [component/fspiop-currencies.ts], both of [packages/shared/fspiop]. A [Currency]
    is the string it is at run time, so that the lookups the code guards against an
    unknown code can fail here too. *)

From S2P Require Import Prelude.

Record FspiopCurrencyProfile : Set := mkProfile { currency : jsstr; name : jsstr; scale : Z }.

(** The values of [enum Currency]. *)
Definition Currency_values : list jsstr := map js
  ["AED"; "AFN"; "ALL"; "AMD"; "ANG"; "AOA"; "ARS"; "AUD"; "AWG"; "AZN"; "BAM"; "BBD";
   "BDT"; "BGN"; "BHD"; "BIF"; "BMD"; "BND"; "BOB"; "BRL"; "BSD"; "BTN"; "BWP"; "BYN";
   "BZD"; "CAD"; "CDF"; "CHF"; "CLP"; "CNY"; "COP"; "CRC"; "CUC"; "CUP"; "CVE"; "CZK";
   "DJF"; "DKK"; "DOP"; "DZD"; "EGP"; "ERN"; "ETB"; "EUR"; "FJD"; "FKP"; "GBP"; "GEL";
   "GGP"; "GHS"; "GIP"; "GMD"; "GNF"; "GTQ"; "GYD"; "HKD"; "HNL"; "HRK"; "HTG"; "HUF";
   "IDR"; "ILS"; "IMP"; "INR"; "IQD"; "IRR"; "ISK"; "JEP"; "JMD"; "JOD"; "JPY"; "KES";
   "KGS"; "KHR"; "KMF"; "KPW"; "KRW"; "KWD"; "KYD"; "KZT"; "LAK"; "LBP"; "LKR"; "LRD";
   "LSL"; "LYD"; "MAD"; "MDL"; "MGA"; "MKD"; "MMK"; "MNT"; "MOP"; "MRO"; "MUR"; "MVR";
   "MWK"; "MXN"; "MYR"; "MZN"; "NAD"; "NGN"; "NIO"; "NOK"; "NPR"; "NZD"; "OMR"; "PAB";
   "PEN"; "PGK"; "PHP"; "PKR"; "PLN"; "PYG"; "QAR"; "RON"; "RSD"; "RUB"; "RWF"; "SAR";
   "SBD"; "SCR"; "SDG"; "SEK"; "SGD"; "SHP"; "SLL"; "SOS"; "SPL"; "SRD"; "STD"; "SVC";
   "SYP"; "SZL"; "THB"; "TJS"; "TMT"; "TND"; "TOP"; "TRY"; "TTD"; "TVD"; "TWD"; "TZS";
   "UAH"; "UGX"; "USD"; "UYU"; "UZS"; "VEF"; "VND"; "VUV"; "WST"; "XAF"; "XCD"; "XDR";
   "XOF"; "XPF"; "XTS"; "XXX"; "YER"; "ZAR"; "ZMW"; "ZWD"]%string.

Definition profile (c n : string) (s : Z) : jsstr * FspiopCurrencyProfile :=
  (js c, mkProfile (js c) (js n) s).

(** [FspiopCurrencies.CURRENCIES]: the entry of each code. *)
Definition CURRENCIES : list (jsstr * FspiopCurrencyProfile) :=
  [profile "AED" "UAE dirham" 2;
   profile "AFN" "Afghanistan afghani" 2;
   profile "ALL" "Albanian lek" 2;
   profile "AMD" "Armenian dram" 2;
   profile "ANG" "Netherlands Antillian guilder" 2;
   profile "AOA" "Angolan kwanza" 2;
   profile "ARS" "Argentine peso" 2;
   profile "AUD" "Australian dollar" 2;
   profile "AWG" "Aruban guilder" 2;
   profile "AZN" "Azerbaijanian new manat" 2;
   profile "BAM" "Bosnia-Herzegovina convertible mark" 2;
   profile "BBD" "Barbados dollar" 2;
   profile "BDT" "Bangladeshi taka" 2;
   profile "BGN" "Bulgarian lev" 2;
   profile "BHD" "Bahraini dinar" 3;
   profile "BIF" "Burundi franc" 0;
   profile "BMD" "Bermudian dollar" 2;
   profile "BND" "Brunei dollar" 2;
   profile "BOB" "Bolivian boliviano" 2;
   profile "BRL" "Brazilian real" 2;
   profile "BSD" "Bahamian dollar" 2;
   profile "BTN" "Bhutan ngultrum" 2;
   profile "BWP" "Botswana pula" 2;
   profile "BYN" "Belarusian ruble" 4;
   profile "BZD" "Belize dollar" 2;
   profile "CAD" "Canadian dollar" 2;
   profile "CDF" "Congolese franc" 2;
   profile "CHF" "Swiss franc" 2;
   profile "CLP" "Chilean peso" 0;
   profile "CNY" "Chinese yuan renminbi" 2;
   profile "COP" "Colombian peso" 2;
   profile "CRC" "Costa Rican colon" 2;
   profile "CUC" "Cuban convertible peso" 2;
   profile "CUP" "Cuban peso" 2;
   profile "CVE" "Cape Verde escudo" 2;
   profile "CZK" "Czech koruna" 2;
   profile "DJF" "Djibouti franc" 0;
   profile "DKK" "Danish krone" 2;
   profile "DOP" "Dominican peso" 2;
   profile "DZD" "Algerian dinar" 2;
   profile "EGP" "Egyptian pound" 2;
   profile "ERN" "Eritrean nakfa" 2;
   profile "ETB" "Ethiopian birr" 2;
   profile "EUR" "EU euro" 2;
   profile "FJD" "Fiji dollar" 2;
   profile "FKP" "Falkland Islands pound" 2;
   profile "GBP" "British pound" 2;
   profile "GEL" "Georgian lari" 2;
   profile "GGP" "Guernsey pound" 4;
   profile "GHS" "Ghanaian new cedi" 2;
   profile "GIP" "Gibraltar pound" 2;
   profile "GMD" "Gambian dalasi" 2;
   profile "GNF" "Guinean franc" 0;
   profile "GTQ" "Guatemalan quetzal" 2;
   profile "GYD" "Guyana dollar" 2;
   profile "HKD" "Hong Kong SAR dollar" 2;
   profile "HNL" "Honduran lempira" 2;
   profile "HRK" "Croatian kuna" 2;
   profile "HTG" "Haitian gourde" 2;
   profile "HUF" "Hungarian forint" 2;
   profile "IDR" "Indonesian rupiah" 2;
   profile "ILS" "Israeli new shekel" 2;
   profile "IMP" "Isle of Man pound" 4;
   profile "INR" "Indian rupee" 2;
   profile "IQD" "Iraqi dinar" 3;
   profile "IRR" "Iranian rial" 2;
   profile "ISK" "Icelandic krona" 0;
   profile "JEP" "Jersey pound" 4;
   profile "JMD" "Jamaican dollar" 2;
   profile "JOD" "Jordanian dinar" 3;
   profile "JPY" "Japanese yen" 0;
   profile "KES" "Kenyan shilling" 2;
   profile "KGS" "Kyrgyz som" 2;
   profile "KHR" "Cambodian riel" 2;
   profile "KMF" "Comoros franc" 0;
   profile "KPW" "North Korean won" 2;
   profile "KRW" "South Korean won" 0;
   profile "KWD" "Kuwaiti dinar" 3;
   profile "KYD" "Cayman Islands dollar" 2;
   profile "KZT" "Kazakh tenge" 2;
   profile "LAK" "Lao kip" 2;
   profile "LBP" "Lebanese pound" 2;
   profile "LKR" "Sri Lanka rupee" 2;
   profile "LRD" "Liberian dollar" 2;
   profile "LSL" "Lesotho loti" 2;
   profile "LYD" "Libyan dinar" 3;
   profile "MAD" "Moroccan dirham" 2;
   profile "MDL" "Moldovan leu" 2;
   profile "MGA" "Malagasy ariary" 2;
   profile "MKD" "Macedonian denar" 2;
   profile "MMK" "Myanmar kyat" 2;
   profile "MNT" "Mongolian tugrik" 2;
   profile "MOP" "Macao SAR pataca" 2;
   profile "MRO" "Mauritanian ouguiya" 2;
   profile "MUR" "Mauritius rupee" 2;
   profile "MVR" "Maldivian rufiyaa" 2;
   profile "MWK" "Malawi kwacha" 2;
   profile "MXN" "Mexican peso" 2;
   profile "MYR" "Malaysian ringgit" 2;
   profile "MZN" "Mozambique new metical" 2;
   profile "NAD" "Namibian dollar" 2;
   profile "NGN" "Nigerian naira" 2;
   profile "NIO" "Nicaraguan cordoba oro" 2;
   profile "NOK" "Norwegian krone" 2;
   profile "NPR" "Nepalese rupee" 2;
   profile "NZD" "New Zealand dollar" 2;
   profile "OMR" "Omani rial" 3;
   profile "PAB" "Panamanian balboa" 2;
   profile "PEN" "Peruvian nuevo sol" 2;
   profile "PGK" "Papua New Guinea kina" 2;
   profile "PHP" "Philippine peso" 2;
   profile "PKR" "Pakistani rupee" 2;
   profile "PLN" "Polish zloty" 2;
   profile "PYG" "Paraguayan guarani" 0;
   profile "QAR" "Qatari rial" 2;
   profile "RON" "Romanian new leu" 2;
   profile "RSD" "Serbian dinar" 2;
   profile "RUB" "Russian ruble" 2;
   profile "RWF" "Rwandan franc" 0;
   profile "SAR" "Saudi riyal" 2;
   profile "SBD" "Solomon Islands dollar" 2;
   profile "SCR" "Seychelles rupee" 2;
   profile "SDG" "Sudanese pound" 2;
   profile "SEK" "Swedish krona" 2;
   profile "SGD" "Singapore dollar" 2;
   profile "SHP" "Saint Helena pound" 2;
   profile "SLL" "Sierra Leone leone" 2;
   profile "SOS" "Somali shilling" 2;
   profile "SPL" "Seborgan luigino" 4;
   profile "SRD" "Suriname dollar" 2;
   profile "STD" "Sao Tome and Principe dobra" 2;
   profile "SVC" "El Salvador colon" 2;
   profile "SYP" "Syrian pound" 2;
   profile "SZL" "Swaziland lilangeni" 2;
   profile "THB" "Thai baht" 2;
   profile "TJS" "Tajik somoni" 2;
   profile "TMT" "Turkmen new manat" 2;
   profile "TND" "Tunisian dinar" 3;
   profile "TOP" "Tongan pa'anga" 2;
   profile "TRY" "Turkish lira" 2;
   profile "TTD" "Trinidad and Tobago dollar" 2;
   profile "TVD" "Tuvaluan dollar" 4;
   profile "TWD" "Taiwan New dollar" 2;
   profile "TZS" "Tanzanian shilling" 2;
   profile "UAH" "Ukrainian hryvnia" 2;
   profile "UGX" "Uganda new shilling" 0;
   profile "USD" "US dollar" 2;
   profile "UYU" "Uruguayan peso uruguayo" 2;
   profile "UZS" "Uzbekistani sum" 2;
   profile "VEF" "Venezuelan bolivar fuerte" 2;
   profile "VND" "Vietnamese dong" 0;
   profile "VUV" "Vanuatu vatu" 0;
   profile "WST" "Samoan tala" 2;
   profile "XAF" "CFA franc BEAC" 0;
   profile "XCD" "East Caribbean dollar" 2;
   profile "XDR" "IMF special drawing right" 4;
   profile "XOF" "CFA franc BCEAO" 0;
   profile "XPF" "CFP franc" 0;
   profile "XTS" "Reserved for testing purposes" 4;
   profile "XXX" "Assigned for transactions where no currency is involved" 4;
   profile "YER" "Yemeni rial" 2;
   profile "ZAR" "South African rand" 2;
   profile "ZMW" "Zambian kwacha" 2;
   profile "ZWD" "Zimbabwe dollar (initial)" 4].

(** [FspiopCurrencies.get]: the table's own entry, [None] for [undefined]. *)
Definition get (c : jsstr) : option FspiopCurrencyProfile :=
  snd <$> List.find (fun p => str_eqb (fst p) c) CURRENCIES.

(** [FspiopCurrencies.get(c)?.scale] *)
Definition scale_of_currency (c : jsstr) : option Z := scale <$> get c.

(** * Lemmas *)

Lemma get_values : Forall (fun c => is_Some (get c)) Currency_values.
Proof. by apply (bool_decide_unpack _); vm_compute. Qed.

Lemma get_Some c p : get c = Some p -> p ∈ map snd CURRENCIES /\ currency p = c.
Proof.
  unfold get. destruct (List.find _ _) as [[k q]|] eqn:Hf; [|done]. intros [= <-].
  apply find_some in Hf as [Hin Hk]. apply bool_decide_eq_true in Hk. cbn [fst] in Hk. subst k.
  apply list_elem_of_In in Hin. split.
  - apply list_elem_of_In, in_map_iff. exists (c, q). split; [done | by apply list_elem_of_In].
  - assert (Forall (fun p => currency (snd p) = fst p) CURRENCIES) as Hall
      by (by apply (bool_decide_unpack _); vm_compute).
    rewrite Forall_forall in Hall. by apply (Hall (c, q)).
Qed.

Lemma scale_bounds c s : scale_of_currency c = Some s -> 0 <= s <= 4.
Proof.
  unfold scale_of_currency. destruct (get c) as [p|] eqn:Hg; [|done]. intros [= <-].
  apply get_Some in Hg as [Hin _].
  assert (Forall (fun p => 0 <= scale p <= 4) (map snd CURRENCIES)) as Hall
    by (by apply (bool_decide_unpack _); vm_compute).
  rewrite Forall_forall in Hall. by apply Hall.
Qed.
#[export] Hint Resolve scale_bounds : pivotal.

(** * Properties *)

(** The currency table covers exactly the [Currency] enumeration: [get] answers
    for each of the codes and for no other string, the profile it returns names the
    code it was asked for, and its scale is between 0 and 4, the four fraction
    digits the FSPIOP amount pattern admits. *)
Theorem get_total_on_currencies :
  forall c, (is_Some (get c) <-> c ∈ Currency_values) /\
  (forall p, get c = Some p -> currency p = c /\ 0 <= scale p <= 4).
Proof.
  intros c. split; [split|].
  - intros [p Hp]. destruct (get_Some _ _ Hp) as [Hin <-].
    assert (Forall (fun p => currency p ∈ Currency_values) (map snd CURRENCIES)) as Hall
      by (by apply (bool_decide_unpack _); vm_compute).
    rewrite Forall_forall in Hall. by apply Hall.
  - pose proof get_values as Hall. rewrite Forall_forall in Hall. apply Hall.
  - intros p Hp. split; [exact (proj2 (get_Some _ _ Hp))|]. apply (scale_bounds c).
    unfold scale_of_currency. by rewrite Hp.
Qed.
