(* ===== verification/Money.v ===== *)
(** * Amounts

    [FspiopMoney] of [packages/shared/fspiop/component/fspiop-money.ts]: the textual
    normalisation of amounts, their conversion to and from integers of minor units,
    and the rounding modes of that conversion. *)

From S2P Require Import Prelude Errors Currencies.

(** ** Definitions *)

Inductive FspiopRoundingMode : Set :=
  | Up | Down | Ceiling | Floor | HalfUp | HalfDown | HalfEven | Unnecessary.

Record Money : Set := mkMoney { money_currency : jsstr; money_amount : jsstr }.

Definition UINT64_MAX : Z := 18446744073709551615.

Definition dot : ascii := "."%char.
Definition zero : ascii := "0"%char.
Definition is_sign (c : ascii) : bool := bool_decide (c = "+"%char) || bool_decide (c = "-"%char).

(** [match(/^(\[+-\])?(\d+)(?:\.(\d+))?$/)]: the three groups of a match, an unmatched
    optional group being [None]. *)
Definition match_decimal (s : jsstr) : option (option ascii * jsstr * option jsstr) :=
  let '(sign, rest) := match s with
                       | c :: s' => if is_sign c then (Some c, s') else (None, s)
                       | [] => (None, [])
                       end in
  let '(integerPart, rest) := span_digits rest in
  if bool_decide (integerPart = []) then None
  else match rest with
       | [] => Some (sign, integerPart, None)
       | c :: rest =>
           if bool_decide (c = dot) then
             let '(fractionPart, rest) := span_digits rest in
             if bool_decide (fractionPart = []) then None
             else if bool_decide (rest = []) then Some (sign, integerPart, Some fractionPart)
             else None
           else None
       end.

(** [replace(/0+$/, '')] *)
Fixpoint dropZeros (s : jsstr) : jsstr :=
  match s with
  | c :: s' => if bool_decide (c = zero) then dropZeros s' else s
  | [] => []
  end.
Definition stripTrailingZeros (s : jsstr) : jsstr := reverse (dropZeros (reverse s)).

Definition sign_text (sign : option ascii) : jsstr := match sign with Some c => [c] | None => [] end.

(** [FspiopMoney.normalizeAmount]. A [number] argument is its own [toString()], so
    both overloads are this function of the text. *)
Definition normalizeAmount (amount : jsstr) : jsstr :=
  let trimmed := trim amount in
  match match_decimal trimmed with
  | None => trimmed
  | Some (sign, integerPart, fractionPart) =>
      let normalizedFractionPart := stripTrailingZeros (default [] fractionPart) in
      if bool_decide (normalizedFractionPart = [])
      then sign_text sign ++ integerPart
      else sign_text sign ++ integerPart ++ [dot] ++ normalizedFractionPart
  end.

(** [AMOUNT_PATTERN.test]:
    [/^(\[0\]|(\[1-9\]\[0-9\]{0,17}))(\[.\]\[0-9\]{0,3}\[1-9\])?$/] *)
Definition AMOUNT_PATTERN_test (s : jsstr) : bool :=
  let '(major, rest) := span_digits s in
  (str_eqb major [zero] ||
   match major with
   | c :: _ => is_nonzero_digit c && (length major <=? 18)%nat
   | [] => false
   end) &&
  match rest with
  | [] => true
  | c :: minor =>
      bool_decide (c = dot) && forallb is_digit minor && (length minor <=? 4)%nat &&
      match reverse minor with d :: _ => is_nonzero_digit d | [] => false end
  end.

Definition validateScale (scale : Z) : result thrown unit :=
  throw_if (scale <? 0) (TError (js "Scale must be a non-negative integer.")).

Definition scaleOf (amount : jsstr) : nat :=
  match indexOf dot amount with
  | None => 0
  | Some dotIndex => length amount - dotIndex - 1
  end.

(** The object [parseDecimalAmount] returns; [sign] is [1n] or [-1n]. *)
Record DecimalAmount : Set := mkDecimalAmount { sign : Z; integerPart : jsstr; fractionPart : jsstr }.

Definition parseDecimalAmount (amount : jsstr) : result thrown DecimalAmount :=
  match match_decimal amount with
  | None => Err (TError (js "Amount must be a valid decimal number."))
  | Some (sg, ip, fp) =>
      Ok (mkDecimalAmount (if bool_decide (sg = Some "-"%char) then -1 else 1) ip (default [] fp))
  end.

Definition shouldRoundUp (sign : Z) (keptFraction discardedFraction : jsstr)
    (roundingMode : FspiopRoundingMode) : result thrown bool :=
  let hasDiscardedNonZero := existsb is_nonzero_digit discardedFraction in
  if negb hasDiscardedNonZero then Ok false
  else
    let firstDiscardedDigit := match discardedFraction with c :: _ => digit_val c | [] => 0 end in
    let hasNonZeroTail := existsb is_nonzero_digit (drop 1 discardedFraction) in
    match roundingMode with
    | Unnecessary => Err (TError (js "Rounding is necessary for the submitted amount."))
    | Up => Ok true
    | Down => Ok false
    | Ceiling => Ok (0 <? sign)
    | Floor => Ok (sign <? 0)
    | HalfUp => Ok (5 <=? firstDiscardedDigit)
    | HalfDown => Ok ((5 <? firstDiscardedDigit) || ((firstDiscardedDigit =? 5) && hasNonZeroTail))
    | HalfEven =>
        let lastKeptDigit := match reverse keptFraction with c :: _ => digit_val c | [] => 0 end in
        Ok ((5 <? firstDiscardedDigit) ||
            ((firstDiscardedDigit =? 5) && (hasNonZeroTail || negb (lastKeptDigit mod 2 =? 0))))
    end.

Definition scaleAmount (amount : DecimalAmount) (scale : nat) (roundingMode : FspiopRoundingMode)
    : result thrown Z :=
  let base := 10 ^ Z.of_nat scale in
  let integerValue := dec_value (integerPart amount) * base in
  let normalizedFraction := padEnd scale zero (fractionPart amount) in
  let keptFraction := take scale normalizedFraction in
  let discardedFraction := drop scale (fractionPart amount) in
  let keptFractionValue := dec_value keptFraction in
  let scaled := integerValue + keptFractionValue in
  if bool_decide (discardedFraction = []) then Ok (scaled * sign amount)
  else
    let! up := shouldRoundUp (sign amount) keptFraction discardedFraction roundingMode in
    Ok ((if up then scaled + 1 else scaled) * sign amount).

Definition serialize (amount : jsstr) (scale : Z) (roundingMode : FspiopRoundingMode) : result thrown Z :=
  let! _ := validateScale scale in
  let normalizedAmount := normalizeAmount (trim amount) in
  let! parsedAmount := parseDecimalAmount normalizedAmount in
  let! scaledAmount := scaleAmount parsedAmount (Z.to_nat scale) roundingMode in
  let! _ := throw_if (scaledAmount <? 0) (TError (js "Amount must be greater than or equal to zero.")) in
  let! _ := throw_if (UINT64_MAX <? scaledAmount) (TError (js "Amount is greater than uint64 max.")) in
  Ok scaledAmount.

Definition deserialize (amount : Z) (scale : Z) : result thrown jsstr :=
  let! _ := validateScale scale in
  let! _ := throw_if (amount <? 0) (TError (js "Amount must be greater than or equal to zero.")) in
  let serializedAmount := dec_print amount in
  let scale := Z.to_nat scale in
  if bool_decide (scale = 0%nat) then Ok serializedAmount
  else if (length serializedAmount <=? scale)%nat then
    let decimals := padStart scale zero serializedAmount in
    Ok (normalizeAmount (js "0." ++ decimals))
  else
    let major := take (length serializedAmount - scale) serializedAmount in
    let minor := drop (length serializedAmount - scale) serializedAmount in
    Ok (normalizeAmount (major ++ [dot] ++ minor)).

(** [FspiopMoney.validate] overwrites [money.amount] before its checks, so it gives
    back the object it leaves behind and its outcome. *)
Definition validate (money : option Money) : option Money * result thrown unit :=
  match money with
  | None => (None, Ok tt)
  | Some m =>
      let m' := mkMoney (money_currency m) (normalizeAmount (money_amount m)) in
      (Some m',
       match get (money_currency m') with
       | None => Err (TError (js "Currency profile not found for currency: " ++ money_currency m'))
       | Some currencyProfile =>
           throw_if (scale currencyProfile <? Z.of_nat (scaleOf (money_amount m')))
             (fspiop_msg GENERIC_VALIDATION_ERROR
                (js "Currency scale does not match. " ++ money_currency m' ++ js " supports only " ++
                 dec_print (scale currencyProfile) ++ js " decimal places."))
       end)
  end.

(** ** Reference semantics

    A matched amount denotes the rational [sign * m / 10^f] where [m] is the number
    written by all its digits and [f] the number of fraction digits. *)

Definition sign_of (sg : option ascii) : Z := if bool_decide (sg = Some "-"%char) then -1 else 1.

(** Rounding the non-negative rational [num / den] with the sign [s] to an integer,
    by the arithmetic of quotient and remainder. *)
Definition round_reference (s : Z) (mode : FspiopRoundingMode) (num den : Z) : result thrown Z :=
  let q := num / den in
  let r := num mod den in
  if r =? 0 then Ok (q * s)
  else
    match mode with
    | Unnecessary => Err (TError (js "Rounding is necessary for the submitted amount."))
    | Up => Ok ((q + 1) * s)
    | Down => Ok (q * s)
    | Ceiling => Ok ((if 0 <? s then q + 1 else q) * s)
    | Floor => Ok ((if s <? 0 then q + 1 else q) * s)
    | HalfUp => Ok ((if den <=? 2 * r then q + 1 else q) * s)
    | HalfDown => Ok ((if den <? 2 * r then q + 1 else q) * s)
    | HalfEven => Ok ((if (den <? 2 * r) || ((2 * r =? den) && Z.odd q) then q + 1 else q) * s)
    end.

Definition in_uint64 (n : Z) : result thrown Z :=
  let! _ := throw_if (n <? 0) (TError (js "Amount must be greater than or equal to zero.")) in
  let! _ := throw_if (UINT64_MAX <? n) (TError (js "Amount is greater than uint64 max.")) in
  Ok n.

Definition render (sg : option ascii) (ip : jsstr) (fp : option jsstr) : jsstr :=
  sign_text sg ++ ip ++ match fp with Some f => dot :: f | None => [] end.

Definition digits1 (s : jsstr) : Prop := s <> [] /\ all_digits s.

Definition well_formed (sg : option ascii) (ip : jsstr) (fp : option jsstr) : Prop :=
  (forall c, sg = Some c -> is_sign c = true) /\ digits1 ip /\ (forall f, fp = Some f -> digits1 f).

(** * Lemmas *)

(** ** The matcher *)

Lemma is_sign_not_digit c : is_sign c = true -> is_digit c = false.
Proof. unfold is_sign. rewrite orb_true_iff, !bool_decide_eq_true. by intros [-> | ->]. Qed.

Lemma digit_not_sign c : is_digit c = true -> is_sign c = false.
Proof. intros Hc. destruct (is_sign c) eqn:E; [|done]. apply is_sign_not_digit in E. congruence. Qed.

Lemma dot_not_digit : is_digit dot = false.
Proof. reflexivity. Qed.

Lemma match_decimal_render sg ip fp :
  well_formed sg ip fp -> match_decimal (render sg ip fp) = Some (sg, ip, fp).
Proof.
  intros (Hsg & [Hne Hip] & Hfp). unfold match_decimal, render.
  assert (match sign_text sg ++ ip ++ match fp with Some f => dot :: f | None => [] end with
          | c :: s' => if is_sign c then (Some c, s')
                       else (None, sign_text sg ++ ip ++ match fp with Some f => dot :: f | None => [] end)
          | [] => (None, []) end
          = (sg, ip ++ match fp with Some f => dot :: f | None => [] end)) as ->.
  { destruct sg as [c|]; cbn; [by rewrite Hsg|].
    destruct Hip as [|c ip Hc _]; [done|]. cbn. by rewrite digit_not_sign. }
  rewrite span_digits_app; [| done |].
  - rewrite bool_decide_false by done. destruct fp as [f|]; [|done].
    destruct (Hfp f eq_refl) as [Hfne Hf]. rewrite bool_decide_true by done.
    rewrite <- (app_nil_r f) at 1. rewrite span_digits_app; [|done..].
    by rewrite bool_decide_false, bool_decide_true.
  - destruct fp; cbn; [|done]. by intros c [= <-].
Qed.

Lemma match_decimal_sound s sg ip fp :
  match_decimal s = Some (sg, ip, fp) -> s = render sg ip fp /\ well_formed sg ip fp.
Proof.
  unfold match_decimal, render.
  destruct (match s with c :: s' => if is_sign c then (Some c, s') else (None, s) | [] => (None, []) end)
    as [sg' rest] eqn:Hs.
  assert (s = sign_text sg' ++ rest /\ (forall c, sg' = Some c -> is_sign c = true)) as [-> Hsg].
  { destruct s as [|c s]; [by simplify_eq|]. destruct (is_sign c) eqn:Hc; simplify_eq; split; try done.
    by intros ? [= <-]. }
  clear Hs. destruct (span_digits rest) as [ip' rest'] eqn:Hip. apply span_digits_spec in Hip as (-> & Hd & _).
  case_bool_decide as Hne; [done|]. destruct rest' as [|c rest'].
  - intros [= -> -> <-]. by rewrite app_nil_r.
  - case_bool_decide as Hc; [|done]. subst c.
    destruct (span_digits rest') as [f r] eqn:Hf. apply span_digits_spec in Hf as (-> & Hfd & _).
    case_bool_decide; [done|]. case_bool_decide; [|done]. subst r.
    intros [= -> -> <-]. rewrite app_nil_r. split; [done|].
    split; [done|]. split; [done|]. by intros ? [= <-].
Qed.

(** The matcher accepts exactly the texts [\[+-\]?\d+(\.\d+)?] and gives their groups. *)
Lemma match_decimal_iff s sg ip fp :
  match_decimal s = Some (sg, ip, fp) <-> s = render sg ip fp /\ well_formed sg ip fp.
Proof. split; [apply match_decimal_sound | intros [-> ?]; by apply match_decimal_render]. Qed.

Lemma render_no_ws sg ip fp : well_formed sg ip fp -> no_ws (render sg ip fp).
Proof.
  intros (Hsg & [_ Hip] & Hfp). unfold render, no_ws. apply Forall_app; split; [|apply Forall_app; split].
  - destruct sg as [c|]; constructor; [|constructor]. specialize (Hsg c eq_refl).
    unfold is_sign in Hsg. rewrite orb_true_iff, !bool_decide_eq_true in Hsg. by destruct Hsg as [-> | ->].
  - by apply all_digits_no_ws.
  - destruct fp as [f|]; constructor; [done|]. by apply all_digits_no_ws, Hfp.
Qed.

(** ** Trailing zeros *)

Lemma dropZeros_split s : exists n, s = replicate n zero ++ dropZeros s.
Proof.
  induction s as [|c s [n IH]]; [by exists 0%nat|]. cbn. case_bool_decide as Hc.
  - exists (S n). cbn. rewrite <- IH. by rewrite Hc.
  - by exists 0%nat.
Qed.

Lemma strip_split s : exists n, s = stripTrailingZeros s ++ replicate n zero.
Proof.
  destruct (dropZeros_split (reverse s)) as [n Hn]. exists n. unfold stripTrailingZeros.
  apply (f_equal reverse) in Hn. rewrite reverse_involutive, reverse_app, reverse_replicate in Hn. done.
Qed.

Lemma dropZeros_idemp s : dropZeros (dropZeros s) = dropZeros s.
Proof. induction s as [|c s IH]; [done|]. cbn. case_bool_decide as Hc; [done|]. cbn. by rewrite bool_decide_false. Qed.

Lemma strip_idemp s : stripTrailingZeros (stripTrailingZeros s) = stripTrailingZeros s.
Proof. unfold stripTrailingZeros. by rewrite reverse_involutive, dropZeros_idemp. Qed.

Lemma strip_digits s : all_digits s -> all_digits (stripTrailingZeros s).
Proof.
  destruct (strip_split s) as [n Hn]. unfold all_digits. rewrite Hn at 1.
  by intros [? _]%Forall_app.
Qed.

Lemma strip_last s c u : reverse (stripTrailingZeros s) = c :: u -> c <> zero.
Proof.
  unfold stripTrailingZeros. rewrite reverse_involutive. induction (reverse s) as [|d t IH]; cbn; [done|].
  case_bool_decide; [done|]. congruence.
Qed.

(** The groups of the normalised text. *)
Definition norm_fraction (fp : option jsstr) : option jsstr :=
  if bool_decide (stripTrailingZeros (default [] fp) = []) then None
  else Some (stripTrailingZeros (default [] fp)).

Lemma norm_fraction_wf sg ip fp : well_formed sg ip fp -> well_formed sg ip (norm_fraction fp).
Proof.
  intros (Hsg & Hip & Hfp). split; [done|]. split; [done|]. unfold norm_fraction. intros f.
  case_bool_decide as Hs; [done|]. intros [= <-]. split; [done|]. apply strip_digits.
  destruct fp as [f|]; [by apply Hfp | constructor].
Qed.

Lemma norm_fraction_idemp fp : norm_fraction (norm_fraction fp) = norm_fraction fp.
Proof.
  unfold norm_fraction at 2 3. case_bool_decide as Hs; [done|].
  unfold norm_fraction. cbn [from_option id]. rewrite strip_idemp. by rewrite bool_decide_false.
Qed.

Lemma normalizeAmount_match amount sg ip fp :
  match_decimal (trim amount) = Some (sg, ip, fp) ->
  normalizeAmount amount = render sg ip (norm_fraction fp).
Proof.
  intros H. unfold normalizeAmount. rewrite H. unfold norm_fraction, render.
  case_bool_decide; [by rewrite app_nil_r | done].
Qed.

Lemma normalizeAmount_no_match amount :
  match_decimal (trim amount) = None -> normalizeAmount amount = trim amount.
Proof. intros H. unfold normalizeAmount. by rewrite H. Qed.

Lemma normalizeAmount_trim amount : normalizeAmount (trim amount) = normalizeAmount amount.
Proof. unfold normalizeAmount. by rewrite trim_idemp. Qed.

Lemma match_normalized amount :
  match_decimal (normalizeAmount amount) =
  match match_decimal (trim amount) with
  | Some (sg, ip, fp) => Some (sg, ip, norm_fraction fp)
  | None => None
  end.
Proof.
  destruct (match_decimal (trim amount)) as [[[sg ip] fp]|] eqn:H.
  - rewrite (normalizeAmount_match _ _ _ _ H). apply match_decimal_render, norm_fraction_wf.
    exact (proj2 (match_decimal_sound _ _ _ _ H)).
  - by rewrite normalizeAmount_no_match.
Qed.

Lemma normalizeAmount_trimmed amount : trim (normalizeAmount amount) = normalizeAmount amount.
Proof.
  destruct (match_decimal (trim amount)) as [[[sg ip] fp]|] eqn:H.
  - rewrite (normalizeAmount_match _ _ _ _ H). apply trim_no_ws, render_no_ws, norm_fraction_wf.
    exact (proj2 (match_decimal_sound _ _ _ _ H)).
  - rewrite normalizeAmount_no_match by done. apply trim_idemp.
Qed.

Lemma normalizeAmount_idemp amount : normalizeAmount (normalizeAmount amount) = normalizeAmount amount.
Proof.
  destruct (match_decimal (trim amount)) as [[[sg ip] fp]|] eqn:H.
  - rewrite (normalizeAmount_match (normalizeAmount amount) sg ip (norm_fraction fp)).
    + rewrite norm_fraction_idemp. symmetry. by apply normalizeAmount_match.
    + by rewrite normalizeAmount_trimmed, match_normalized, H.
  - rewrite (normalizeAmount_no_match (normalizeAmount amount)); [apply normalizeAmount_trimmed|].
    by rewrite normalizeAmount_trimmed, match_normalized, H.
Qed.

(** ** Rounding *)

Lemma round_reference_scale s mode num den k :
  0 < den -> 0 < k -> round_reference s mode (num * k) (den * k) = round_reference s mode num den.
Proof.
  intros Hd Hk. unfold round_reference.
  rewrite Z.div_mul_cancel_r, Z.mul_mod_distr_r by lia.
  set (r := num mod den). set (q := num / den).
  assert (forall a b, (a * k =? b * k) = (a =? b)) as Heq.
  { intros. apply eq_true_iff_eq. rewrite !Z.eqb_eq. nia. }
  assert (forall a b, (a * k <=? b * k) = (a <=? b)) as Hle.
  { intros. apply eq_true_iff_eq. rewrite !Z.leb_le. nia. }
  assert (forall a b, (a * k <? b * k) = (a <? b)) as Hlt.
  { intros. apply eq_true_iff_eq. rewrite !Z.ltb_lt. nia. }
  replace (2 * (r * k)) with (2 * r * k) by ring.
  replace (r * k =? 0) with (r =? 0) by (rewrite <- (Heq r 0); f_equal; ring).
  by rewrite Heq, Hle, Hlt.
Qed.

Lemma round_reference_split s mode q r den :
  0 <= r < den ->
  round_reference s mode (q * den + r) den =
  let! up :=
    (if r =? 0 then Ok false
     else match mode with
          | Unnecessary => Err (TError (js "Rounding is necessary for the submitted amount."))
          | Up => Ok true
          | Down => Ok false
          | Ceiling => Ok (0 <? s)
          | Floor => Ok (s <? 0)
          | HalfUp => Ok (den <=? 2 * r)
          | HalfDown => Ok (den <? 2 * r)
          | HalfEven => Ok ((den <? 2 * r) || ((2 * r =? den) && Z.odd q))
          end) in
  Ok ((if up then q + 1 else q) * s).
Proof.
  intros Hr. unfold round_reference.
  rewrite Z.div_add_l, (Z.div_small r), Z.add_0_r by lia.
  rewrite Z.add_comm, Z.mod_add, (Z.mod_small r) by lia.
  destruct (r =? 0); [done|]. by destruct mode.
Qed.

(** Comparing a tail of digits with one half is reading its first digit. *)
Lemma half_digits c t :
  all_digits (c :: t) ->
  let D := 10 ^ Z.of_nat (length (c :: t)) in
  let R := dec_value (c :: t) in
  (D <=? 2 * R) = (5 <=? digit_val c) /\
  (D <? 2 * R) = ((5 <? digit_val c) || ((digit_val c =? 5) && existsb is_nonzero_digit t)) /\
  (2 * R =? D) = ((digit_val c =? 5) && negb (existsb is_nonzero_digit t)).
Proof.
  intros [Hc Ht]%Forall_cons D R. apply is_digit_val in Hc.
  pose proof (dec_value_bounds t Ht) as Hb. pose proof (dec_value_zero t Ht) as Hz.
  subst D R. rewrite dec_value_cons. cbn [length]. rewrite Nat2Z.inj_succ, Z.pow_succ_r by lia.
  set (P := 10 ^ Z.of_nat (length t)) in *. set (v := dec_value t) in *. set (d := digit_val c) in *.
  assert (existsb is_nonzero_digit t = true <-> v <> 0) as Hz'.
  { rewrite Hz. by destruct (existsb _ t). }
  repeat split; apply eq_true_iff_eq.
  - rewrite !Z.leb_le. nia.
  - rewrite orb_true_iff, andb_true_iff, !Z.ltb_lt, Z.eqb_eq, Hz'. nia.
  - rewrite andb_true_iff, negb_true_iff, !Z.eqb_eq, <- Hz. clear Hz' Hz. assert (d < 5 \/ d = 5 \/ 5 < d) as [? | [? | ?]] by lia; nia.
Qed.

Lemma odd_last_digit a n k c u :
  reverse k = c :: u -> is_digit c = true -> n = length k -> (0 < n)%nat ->
  Z.odd (a * 10 ^ Z.of_nat n + dec_value k) = negb (digit_val c mod 2 =? 0).
Proof.
  intros Hk Hc Hn Hpos. apply (f_equal reverse) in Hk. rewrite reverse_involutive, reverse_cons in Hk.
  subst k. rewrite dec_value_app. cbn [length]. rewrite (dec_value_cons c []). cbn [length].
  rewrite Z.pow_0_r. change (dec_value []) with 0. change (Z.of_nat 1) with 1. rewrite Z.pow_1_r.
  destruct n as [|n]; [lia|]. rewrite Nat2Z.inj_succ, Z.pow_succ_r by lia.
  replace (a * (10 * 10 ^ Z.of_nat n) + (dec_value (reverse u) * 10 + (digit_val c * 1 + 0)))
    with (digit_val c + 2 * (a * 5 * 10 ^ Z.of_nat n + dec_value (reverse u) * 5)) by ring.
  rewrite Z.odd_add_mul_2, Zmod_odd. by destruct (Z.odd (digit_val c)).
Qed.

Lemma shouldRoundUp_reference s kept c t mode q :
  all_digits (c :: t) ->
  (mode = HalfEven -> Z.odd q = negb (match reverse kept with d :: _ => digit_val d | [] => 0 end mod 2 =? 0)
                      \/ dec_value (c :: t) = 0) ->
  shouldRoundUp s kept (c :: t) mode =
  (if dec_value (c :: t) =? 0 then Ok false
   else match mode with
        | Unnecessary => Err (TError (js "Rounding is necessary for the submitted amount."))
        | Up => Ok true
        | Down => Ok false
        | Ceiling => Ok (0 <? s)
        | Floor => Ok (s <? 0)
        | HalfUp => Ok (10 ^ Z.of_nat (length (c :: t)) <=? 2 * dec_value (c :: t))
        | HalfDown => Ok (10 ^ Z.of_nat (length (c :: t)) <? 2 * dec_value (c :: t))
        | HalfEven => Ok ((10 ^ Z.of_nat (length (c :: t)) <? 2 * dec_value (c :: t))
                          || ((2 * dec_value (c :: t) =? 10 ^ Z.of_nat (length (c :: t))) && Z.odd q))
        end).
Proof.
  intros Hd Hq. unfold shouldRoundUp.
  destruct (dec_value_zero _ Hd) as [Hz1 Hz2].
  destruct (Z.eqb_spec (dec_value (c :: t)) 0) as [Hz|Hz].
  { by rewrite (Hz1 Hz). }
  destruct (existsb is_nonzero_digit (c :: t)) eqn:Hex; [|by rewrite Hz2 in Hz].
  cbn [negb]. destruct (half_digits c t Hd) as (-> & -> & ->).
  change (drop 1 (c :: t)) with t.
  destruct mode; try done. destruct (Hq eq_refl) as [->|?]; [|done].
  f_equal. destruct (5 <? digit_val c), (digit_val c =? 5), (existsb is_nonzero_digit t); done.
Qed.

Lemma keptFraction_short scale fp :
  (length fp <= scale)%nat ->
  dec_value (take scale (padEnd scale zero fp)) = dec_value fp * 10 ^ (Z.of_nat (scale - length fp)).
Proof.
  intros Hle. unfold padEnd. rewrite take_ge by (rewrite length_app, length_replicate; lia).
  by rewrite dec_value_app, length_replicate, dec_value_zeros, Z.add_0_r.
Qed.

Lemma scaleAmount_reference s ip fp scale mode :
  all_digits ip -> all_digits fp ->
  let num := dec_value (ip ++ fp) * 10 ^ Z.of_nat scale in
  let den := 10 ^ Z.of_nat (length fp) in
  (mode = HalfEven -> (0 < scale)%nat \/ num mod den = 0) ->
  scaleAmount (mkDecimalAmount s ip fp) scale mode = round_reference s mode num den.
Proof.
  intros Hip Hfp num den Hmode. subst num den. unfold scaleAmount. cbn [sign integerPart fractionPart].
  destruct (le_lt_dec (length fp) scale) as [Hle|Hlt].
  - rewrite drop_ge, bool_decide_true, keptFraction_short, dec_value_app by done.
    assert (10 ^ Z.of_nat scale = 10 ^ Z.of_nat (scale - length fp) * 10 ^ Z.of_nat (length fp)) as Hpow.
    { rewrite <- Z.pow_add_r by lia. f_equal. lia. }
    assert (0 < 10 ^ Z.of_nat (length fp)) as Hden by lia.
    set (q := (dec_value ip * 10 ^ Z.of_nat (length fp) + dec_value fp) * 10 ^ Z.of_nat (scale - length fp)).
    replace ((dec_value ip * 10 ^ Z.of_nat (length fp) + dec_value fp) * 10 ^ Z.of_nat scale)
      with (q * 10 ^ Z.of_nat (length fp) + 0) by (subst q; rewrite Hpow; ring).
    rewrite round_reference_split by lia. cbn. f_equal. subst q. rewrite Hpow. ring.
  - unfold padEnd. replace (scale - length fp)%nat with 0%nat by lia. cbn [replicate]. rewrite app_nil_r.
    rewrite <- (take_drop scale fp) in Hfp. apply Forall_app in Hfp as [Hk Hd].
    pose proof (length_drop fp scale) as Hlen. pose proof (length_take fp scale) as Hlen2.
    set (k := take scale fp) in *. destruct (drop scale fp) as [|c t] eqn:Hdrop; [cbn in Hlen; lia|].
    rewrite bool_decide_false by done.
    assert (fp = k ++ c :: t) as Hfp by (subst k; rewrite <- Hdrop; symmetry; apply take_drop).
    set (D := 10 ^ Z.of_nat (length (c :: t))). set (R := dec_value (c :: t)).
    set (q := dec_value ip * 10 ^ Z.of_nat scale + dec_value k).
    assert (0 <= R < D) as HRD by (apply dec_value_bounds; done).
    assert (0 < 10 ^ Z.of_nat scale) as Hpow by lia.
    assert (dec_value (ip ++ fp) = q * D + R) as HN.
    { rewrite Hfp, app_assoc, dec_value_app, dec_value_app. subst q D R. repeat f_equal. lia. }
    assert (10 ^ Z.of_nat (length fp) = D * 10 ^ Z.of_nat scale) as Hden.
    { subst D. rewrite <- Z.pow_add_r by lia. f_equal. rewrite Hlen. lia. }
    rewrite HN, Hden in *. rewrite round_reference_scale, round_reference_split by lia.
    rewrite (shouldRoundUp_reference s k c t mode q Hd); [done|].
    intros Hm. destruct (Hmode Hm) as [Hpos|Hmod].
    + left. destruct (reverse k) as [|d u] eqn:Hrev.
      { apply (f_equal length) in Hrev. rewrite length_reverse in Hrev. cbn in Hrev. lia. }
      apply (odd_last_digit _ _ _ _ u); [done| |lia|lia].
      apply (Forall_forall (fun c => is_digit c = true) (reverse k)); [by apply Forall_reverse|].
      rewrite Hrev. by left.
    + right. rewrite Z.mul_mod_distr_r, Z.add_comm, Z.mod_add, Z.mod_small in Hmod by lia. fold R. nia.
Qed.

(** ** Conversions *)

Lemma strip_scaled ip fp n :
  fp = stripTrailingZeros fp ++ replicate n zero ->
  dec_value (ip ++ fp) = dec_value (ip ++ stripTrailingZeros fp) * 10 ^ Z.of_nat n /\
  10 ^ Z.of_nat (length fp) = 10 ^ Z.of_nat (length (stripTrailingZeros fp)) * 10 ^ Z.of_nat n.
Proof.
  intros Hn. split.
  - rewrite Hn at 1. rewrite app_assoc, dec_value_app, dec_value_zeros, length_replicate. ring.
  - rewrite Hn at 1. rewrite length_app, length_replicate, Nat2Z.inj_add, Z.pow_add_r by lia. done.
Qed.

Lemma norm_fraction_default fp : default [] (norm_fraction fp) = stripTrailingZeros (default [] fp).
Proof. unfold norm_fraction. by case_bool_decide as H; [rewrite H|]. Qed.

Lemma serialize_reference amount scale mode sg ip fp :
  0 <= scale ->
  match_decimal (trim amount) = Some (sg, ip, fp) ->
  let f := default [] fp in
  let num := dec_value (ip ++ f) * 10 ^ scale in
  let den := 10 ^ Z.of_nat (length f) in
  (mode = HalfEven -> 0 < scale \/ num mod den = 0) ->
  serialize amount scale mode =
    let! n := round_reference (sign_of sg) mode num den in in_uint64 n.
Proof.
  intros Hs Hm f num den Hmode. unfold serialize, validateScale.
  replace (scale <? 0) with false by (symmetry; apply Z.ltb_ge; lia). cbn [throw_if].
  unfold parseDecimalAmount. rewrite normalizeAmount_trim, match_normalized, Hm, norm_fraction_default. fold f.
  destruct (match_decimal_sound _ _ _ _ Hm) as [_ (_ & [_ Hip] & Hfp)].
  assert (all_digits f) as Hf.
  { subst f. destruct fp as [g|]; [exact (proj2 (Hfp g eq_refl)) | constructor]. }
  destruct (strip_split f) as [k Hk]. destruct (strip_scaled ip f k Hk) as [Hnum Hden].
  set (f' := stripTrailingZeros f) in *.
  assert (0 < 10 ^ Z.of_nat (length f')) by lia. assert (0 < 10 ^ Z.of_nat k) by lia.
  fold (sign_of sg). rewrite (scaleAmount_reference (sign_of sg) ip f' (Z.to_nat scale) mode); rewrite ?Z2Nat.id by done.
  - subst num den. rewrite Hnum, Hden.
    replace (dec_value (ip ++ f') * 10 ^ Z.of_nat k * 10 ^ scale)
      with (dec_value (ip ++ f') * 10 ^ scale * 10 ^ Z.of_nat k) by ring.
    by rewrite round_reference_scale.
  - done.
  - by apply strip_digits.
  - intros HE. destruct (Hmode HE) as [?|Hz]; [left; lia|right].
    subst num den. rewrite Hnum, Hden in Hz.
    replace (dec_value (ip ++ f') * 10 ^ Z.of_nat k * 10 ^ scale)
      with (dec_value (ip ++ f') * 10 ^ scale * 10 ^ Z.of_nat k) in Hz by ring.
    rewrite Z.mul_mod_distr_r in Hz by lia. nia.
Qed.

(** The text [deserialize] prints, before its trailing zeros are dropped. *)
Lemma deserialize_groups n scale :
  0 <= n -> 0 <= scale ->
  exists ip fp, deserialize n scale = Ok (render None ip (norm_fraction fp)) /\
    well_formed None ip fp /\
    dec_value (ip ++ default [] fp) = n /\ length (default [] fp) = Z.to_nat scale /\
    (ip = [zero] \/ exists c u, ip = c :: u /\ is_nonzero_digit c = true) /\
    (length ip <= Nat.max 1 (length (dec_print n) - Z.to_nat scale))%nat.
Proof.
  intros Hn Hs. unfold deserialize, validateScale.
  replace (scale <? 0) with false by (symmetry; apply Z.ltb_ge; lia).
  replace (n <? 0) with false by (symmetry; apply Z.ltb_ge; lia). cbn [throw_if].
  destruct (dec_print_spec n Hn) as (Hd & Hv & Hne). set (t := dec_print n) in *.
  assert (t = [zero] \/ exists c u, t = c :: u /\ is_nonzero_digit c = true) as Hhead.
  { destruct (Z.eq_dec n 0) as [->|]; [by left|right; apply dec_print_head; lia]. }
  clearbody t. case_bool_decide as Hs0.
  - exists t, None. unfold render. cbn. rewrite !app_nil_r, Hs0. repeat split; try done. lia.
  - assert (forall ip f, digits1 ip -> digits1 f ->
      normalizeAmount (ip ++ [dot] ++ f) = render None ip (norm_fraction (Some f)) /\
      well_formed None ip (Some f)) as Hrender.
    { intros ip f Hi Hf. assert (well_formed None ip (Some f)) as Hwf
        by (split; [done | split; [done | by intros ? [= <-]]]).
      split; [|done]. apply normalizeAmount_match.
      rewrite trim_no_ws by exact (render_no_ws None ip (Some f) Hwf).
      exact (match_decimal_render None ip (Some f) Hwf). }
    destruct (Nat.leb_spec (length t) (Z.to_nat scale)) as [Hle|Hlt].
    + set (f := padStart (Z.to_nat scale) zero t).
      assert (digits1 f) as Hf.
      { split.
        - subst f. unfold padStart. intros He%app_eq_nil. by destruct He.
        - apply Forall_app; split; [by apply Forall_replicate | done]. }
      destruct (Hrender [zero] f) as [Hr Hwf]; [split; [done | by constructor] | done |].
      exists [zero], (Some f). change (js "0." ++ f) with ([zero] ++ [dot] ++ f). rewrite Hr.
      split; [done|]. split; [exact Hwf|]. split; [|split; [|split]].
      * change (dec_value ([zero] ++ f) = n). rewrite dec_value_app. subst f. unfold padStart.
        rewrite dec_value_app, dec_value_zeros, Hv. change (dec_value [zero]) with 0. lia.
      * change (length f = Z.to_nat scale). subst f. unfold padStart. rewrite length_app, length_replicate. lia.
      * by left.
      * cbn. lia.
    + set (major := take (length t - Z.to_nat scale) t). set (minor := drop (length t - Z.to_nat scale) t).
      assert (t = major ++ minor) as Ht by (symmetry; apply take_drop).
      assert (length minor = Z.to_nat scale) as Hmin by (subst minor; rewrite length_drop; lia).
      assert (length major = length t - Z.to_nat scale)%nat as Hmaj by (subst major; rewrite length_take; lia).
      clearbody major minor.
      rewrite Ht in Hd. apply Forall_app in Hd as [Hd1 Hd2].
      destruct (Hrender major minor) as [Hr Hwf].
      { split; [|done]. intros ->. cbn in Hmaj. lia. }
      { split; [|done]. intros E. rewrite E in Hmin. cbn in Hmin. lia. }
      exists major, (Some minor). rewrite Hr. split; [done|]. split; [exact Hwf|]. split; [|split; [|split]].
      * change (dec_value (major ++ minor) = n). by rewrite <- Ht.
      * exact Hmin.
      * right. destruct Hhead as [Hz|(c & u & Hcu & Hc)].
        { rewrite Hz in Hlt. cbn in Hlt. destruct (Z.to_nat scale); [done | lia]. }
        destruct major as [|c' u']; [cbn in Hmaj; lia|]. exists c', u'. split; [done|].
        rewrite Hcu in Ht. by injection Ht as <- _.
      * lia.
Qed.

Lemma serialize_no_match amount scale mode :
  0 <= scale -> match_decimal (trim amount) = None ->
  serialize amount scale mode = Err (TError (js "Amount must be a valid decimal number.")).
Proof.
  intros Hs Hm. unfold serialize, validateScale.
  replace (scale <? 0) with false by (symmetry; apply Z.ltb_ge; lia). cbn [throw_if].
  unfold parseDecimalAmount. by rewrite normalizeAmount_trim, match_normalized, Hm.
Qed.

Lemma in_uint64_Ok n : 0 <= n <= UINT64_MAX -> in_uint64 n = Ok n.
Proof.
  intros Hn. unfold in_uint64.
  replace (n <? 0) with false by (symmetry; apply Z.ltb_ge; lia).
  replace (UINT64_MAX <? n) with false by (symmetry; apply Z.ltb_ge; lia). done.
Qed.

Lemma serialize_bounds amount scale mode n :
  serialize amount scale mode = Ok n -> 0 <= n <= UINT64_MAX.
Proof.
  unfold serialize. intros H. case_all. unfold throw_if in *. case_all. bool_hyps. lia.
Qed.

Lemma round_reference_exact s mode q den :
  0 < den -> round_reference s mode (q * den) den = Ok (q * s).
Proof.
  intros. rewrite <- (Z.add_0_r (q * den)). by rewrite round_reference_split by lia.
Qed.

Lemma span_digits_all ds : all_digits ds -> span_digits ds = (ds, []).
Proof. intros H. rewrite <- (app_nil_r ds) at 1. by apply span_digits_app. Qed.

Lemma AMOUNT_PATTERN_render ip fp :
  well_formed None ip fp ->
  (ip = [zero] \/ exists c u, ip = c :: u /\ is_nonzero_digit c = true) ->
  (length ip <= 18)%nat -> (length (default [] fp) <= 4)%nat ->
  AMOUNT_PATTERN_test (render None ip (norm_fraction fp)) = true.
Proof.
  intros Hwf Hip Hlen Hlf. pose proof (norm_fraction_wf _ _ _ Hwf) as (_ & [_ Hd] & Hf).
  unfold AMOUNT_PATTERN_test, render. cbn [sign_text app].
  rewrite span_digits_app; [|done|].
  2:{ destruct (norm_fraction fp); cbn; [|done]. by intros c [= <-]. }
  apply andb_true_iff; split.
  - destruct Hip as [-> | (c & u & -> & Hc)]; [done|]. apply orb_true_iff. right.
    rewrite Hc. cbn. apply Nat.leb_le. cbn in Hlen. lia.
  - unfold norm_fraction in *. case_bool_decide as Hs; [done|].
    destruct (Hf _ eq_refl) as [_ Hdig].
    rewrite bool_decide_true by done.
    assert (forallb is_digit (stripTrailingZeros (default [] fp)) = true) as ->.
    { apply forallb_forall. intros x Hx%list_elem_of_In. revert x Hx. by apply Forall_forall. }
    assert (length (stripTrailingZeros (default [] fp)) <= 4)%nat as Hl%Nat.leb_le.
    { destruct (strip_split (default [] fp)) as [k Hk]. apply (f_equal length) in Hk.
      rewrite length_app in Hk. lia. }
    rewrite Hl. cbn [andb]. destruct (reverse (stripTrailingZeros (default [] fp))) as [|d u] eqn:Hr.
    { apply (f_equal reverse) in Hr. rewrite reverse_involutive in Hr. done. }
    pose proof (strip_last _ _ _ Hr) as Hnz.
    assert (is_digit d = true) as Hdd.
    { apply (Forall_forall (fun c => is_digit c = true) (reverse (stripTrailingZeros (default [] fp)))).
      - by apply Forall_reverse.
      - rewrite Hr. by left. }
    revert Hdd. unfold is_digit, is_nonzero_digit. rewrite !andb_true_iff, !N.leb_le. intros [? ?].
    assert (code d <> 48%N); [|lia]. intros E. apply Hnz. rewrite <- (ascii_N_embedding d).
    unfold code in E. by rewrite E.
Qed.

Lemma serialize_roundtrip n scale mode :
  0 <= n <= UINT64_MAX -> 0 <= scale ->
  exists text, deserialize n scale = Ok text /\ serialize text scale mode = Ok n.
Proof.
  intros Hn Hs.
  destruct (deserialize_groups n scale ltac:(lia) Hs) as (ip & fp & Hd & Hwf & Hv & Hlen & _).
  exists (render None ip (norm_fraction fp)). split; [done|].
  assert (match_decimal (trim (render None ip (norm_fraction fp))) = Some (None, ip, norm_fraction fp)) as Hm.
  { rewrite trim_no_ws by (apply render_no_ws, norm_fraction_wf, Hwf).
    apply match_decimal_render, norm_fraction_wf, Hwf. }
  destruct (strip_split (default [] fp)) as [k Hk]. destruct (strip_scaled ip _ k Hk) as [Hnum Hden].
  rewrite Hv in Hnum. rewrite Hlen, Z2Nat.id in Hden by done.
  rewrite <- (norm_fraction_default fp) in Hnum, Hden.
  set (f := default [] (norm_fraction fp)) in *.
  assert (dec_value (ip ++ f) * 10 ^ scale = n * 10 ^ Z.of_nat (length f)) as Heq.
  { rewrite Hden, Hnum. ring. }
  rewrite (serialize_reference _ scale mode None ip (norm_fraction fp) Hs Hm); fold f; rewrite Heq.
  - rewrite round_reference_exact by lia. change (sign_of None) with 1. rewrite Z.mul_1_r.
    by apply in_uint64_Ok.
  - intros _. right. apply Z.mod_mul. lia.
Qed.

(** * Properties *)

(** [normalizeAmount] is a canonical form: it is idempotent, and on a text that
    reads as a decimal number it keeps the sign and the integer part, keeps the
    value (the fractions are equal after cross-multiplication) and leaves no
    fraction that ends in a zero. *)
Theorem normalizeAmount_canonical :
  forall amount,
  normalizeAmount (normalizeAmount amount) = normalizeAmount amount /\
  forall sg ip fp, match_decimal (trim amount) = Some (sg, ip, fp) ->
  exists fp', match_decimal (normalizeAmount amount) = Some (sg, ip, fp') /\
    dec_value (ip ++ default [] fp') * 10 ^ Z.of_nat (length (default [] fp)) =
      dec_value (ip ++ default [] fp) * 10 ^ Z.of_nat (length (default [] fp')) /\
    (forall f c u, fp' = Some f -> reverse f = c :: u -> c <> zero).
Proof.
  intros amount. split; [apply normalizeAmount_idemp|]. intros sg ip fp Hm.
  exists (norm_fraction fp). rewrite match_normalized, Hm. split; [done|].
  rewrite norm_fraction_default. split.
  - destruct (strip_split (default [] fp)) as [k Hk]. destruct (strip_scaled ip _ k Hk) as [-> ->]. ring.
  - unfold norm_fraction. intros f c u. case_bool_decide; [done|]. intros [= <-]. apply strip_last.
Qed.

(** C33. C0. [serialize] is rounding: for every text, scale and mode (half-even at scale
    zero on a text that needs rounding excepted, see the next property) it converts
    by digit strings to exactly what integer arithmetic gives, the exact rational
    [m * 10^scale / 10^f] rounded by the mode, then checked to be a 64-bit unsigned
    number; a text that is not a decimal number is refused. *)
Theorem serialize_rounds :
  forall amount scale mode, 0 <= scale ->
  (mode = HalfEven -> forall sg ip fp, match_decimal (trim amount) = Some (sg, ip, fp) ->
     0 < scale \/ dec_value (ip ++ default [] fp) * 10 ^ scale mod 10 ^ Z.of_nat (length (default [] fp)) = 0) ->
  serialize amount scale mode =
  match match_decimal (trim amount) with
  | None => Err (TError (js "Amount must be a valid decimal number."))
  | Some (sg, ip, fp) =>
      let f := default [] fp in
      let! n := round_reference (sign_of sg) mode (dec_value (ip ++ f) * 10 ^ scale) (10 ^ Z.of_nat (length f)) in
      in_uint64 n
  end.
Proof.
  intros amount scale mode Hs Hmode.
  destruct (match_decimal (trim amount)) as [[[sg ip] fp]|] eqn:Hm.
  - apply (serialize_reference amount scale mode sg ip fp Hs Hm). intros HE. by apply (Hmode HE sg ip fp).
  - by apply serialize_no_match.
Qed.

Lemma serialize_rounds_witness :
  serialize (js " 2.345 ") 2 HalfEven = Ok 234 /\
  serialize (js " 2.345 ") 2 HalfEven =
    (let! n := round_reference 1 HalfEven (2345 * 10 ^ 2) (10 ^ 3) in in_uint64 n).
Proof.
  split; [reflexivity|].
  exact (serialize_rounds (js " 2.345 ") 2 HalfEven ltac:(lia) (fun _ _ _ _ _ => or_introl eq_refl)).
Defined.

(** Half-even rounding to scale zero is wrong: the code reads the last kept digit
    from the kept fraction, which is empty there, so it takes it to be 0. A tie above
    an odd integer is rounded down to that odd integer, where half-even goes up to
    the even one. *)
Theorem half_even_at_scale_zero :
  forall ip, digits1 ip -> Z.odd (dec_value ip) = true -> dec_value ip < UINT64_MAX ->
  serialize (ip ++ js ".5") 0 HalfEven = Ok (dec_value ip) /\
  round_reference 1 HalfEven (dec_value ip * 10 + 5) 10 = Ok (dec_value ip + 1).
Proof.
  intros ip [Hne Hd] Hodd Hmax. split.
  - assert (well_formed None ip (Some (js "5"))) as Hwf.
    { split; [done|]. split; [done|]. intros f [= <-]. split; [done|]. by constructor. }
    assert (match_decimal (trim (ip ++ js ".5")) = Some (None, ip, Some (js "5"))) as Hm.
    { change (ip ++ js ".5") with (render None ip (Some (js "5"))).
      rewrite trim_no_ws by exact (render_no_ws _ _ _ Hwf). by apply match_decimal_render. }
    unfold serialize, validateScale. change (0 <? 0) with false. cbn [throw_if].
    unfold parseDecimalAmount. rewrite normalizeAmount_trim, match_normalized, Hm.
    change (norm_fraction (Some (js "5"))) with (Some (js "5")).
    rewrite bool_decide_false by done. change (Z.to_nat 0) with 0%nat.
    unfold scaleAmount. cbn [sign integerPart fractionPart from_option id].
    change (drop 0 (js "5")) with (js "5"). change (take 0 (padEnd 0 zero (js "5"))) with (@nil ascii).
    rewrite bool_decide_false by done.
    change (shouldRoundUp 1 [] (js "5") HalfEven) with (@Ok thrown bool false).
    change (dec_value []) with 0. change (10 ^ Z.of_nat 0) with 1. cbv beta iota.
    replace ((dec_value ip * 1 + 0) * 1) with (dec_value ip) by ring.
    pose proof (dec_value_bounds ip Hd).
    exact (in_uint64_Ok (dec_value ip) ltac:(lia)).
  - rewrite round_reference_split by lia. change (5 =? 0) with false.
    change (10 <? 2 * 5) with false. change (2 * 5 =? 10) with true. rewrite Hodd. cbn. f_equal. lia.
Qed.

Lemma half_even_at_scale_zero_witness :
  serialize (js "1" ++ js ".5") 0 HalfEven = Ok 1 /\ round_reference 1 HalfEven (1 * 10 + 5) 10 = Ok 2.
Proof.
  assert (digits1 (js "1")) as Hd by (split; [discriminate | by constructor]).
  pose proof (half_even_at_scale_zero (js "1") Hd eq_refl eq_refl) as H.
  change (dec_value (js "1")) with 1 in H. exact H.
Defined.

(** Round trip: the text [deserialize] prints for a 64-bit amount is read back by
    [serialize] to the same amount, at the same scale and in every rounding mode. *)
Theorem serialize_deserialize :
  forall n scale mode, 0 <= n <= UINT64_MAX -> 0 <= scale ->
  exists text, deserialize n scale = Ok text /\ serialize text scale mode = Ok n.
Proof. intros n scale mode. apply serialize_roundtrip. Qed.

Lemma serialize_deserialize_witness :
  exists text, deserialize 1050 2 = Ok text /\ serialize text 2 Unnecessary = Ok 1050.
Proof. exact (serialize_deserialize 1050 2 Unnecessary ltac:(unfold UINT64_MAX; lia) ltac:(lia)). Defined.

(** What [deserialize] prints for up to 18 integer digits at a currency's scale
    matches the FSPIOP [Amount] pattern. *)
Theorem deserialize_AMOUNT_PATTERN :
  forall n scale, 0 <= scale <= 4 -> 0 <= n < 10 ^ (18 + scale) ->
  exists text, deserialize n scale = Ok text /\ AMOUNT_PATTERN_test text = true.
Proof.
  intros n scale Hs Hn.
  destruct (deserialize_groups n scale ltac:(lia) ltac:(lia)) as (ip & fp & Hd & Hwf & Hv & Hlen & Hhead & Hl).
  eexists. split; [exact Hd|]. apply AMOUNT_PATTERN_render; [done..| |lia].
  assert (length (dec_print n) <= 18 + Z.to_nat scale)%nat; [|lia].
  apply dec_print_length; [|lia]. rewrite Nat2Z.inj_add, Z2Nat.id by lia. done.
Qed.

Lemma deserialize_AMOUNT_PATTERN_witness :
  exists text, deserialize 120050 4 = Ok text /\ AMOUNT_PATTERN_test text = true.
Proof. exact (deserialize_AMOUNT_PATTERN 120050 4 ltac:(lia) ltac:(lia)). Defined.

(** [validate] leaves the normalised amount in the object and accepts it exactly
    when its currency is known and the amount has no more fraction digits than that
    currency's scale. *)
Theorem validate_accepts :
  forall m, exists m', fst (validate (Some m)) = Some m' /\
  money_currency m' = money_currency m /\ money_amount m' = normalizeAmount (money_amount m) /\
  (snd (validate (Some m)) = Ok tt <->
     exists p, get (money_currency m) = Some p /\ Z.of_nat (scaleOf (money_amount m')) <= scale p).
Proof.
  intros m. exists (mkMoney (money_currency m) (normalizeAmount (money_amount m))).
  split; [done|]. split; [done|]. split; [done|]. unfold validate. cbn [snd money_currency money_amount].
  destruct (get (money_currency m)) as [p|]; [|by split; [|intros (? & ? & ?)]].
  rewrite throw_if_Ok, Z.ltb_ge. split; [eauto | by intros (? & [= <-] & ?)].
Qed.
