(* ===== verification/Fees.v ===== *)
(** * Scheme fees

    [packages/shared/catalyst/component]: [FeeValidator] (fee-validator.ts), the
    calculators behind the abstract [FeeCalculator] (calculator/*.ts) and
    [CatalystFeeEngine] (catalyst-fee-engine.ts). The Catalyst service itself is the
    parameter of [CatalystFeeCalculator]. *)

From S2P Require Import Prelude Errors Currencies Money.

(** ** Data *)

(** [FeeSplitRole] of dto/fee-types.ts and its string values. *)
Inductive FeeSplitRole : Set := Payer | Payee | Hub | Si | Fxp.

Definition role_value (r : FeeSplitRole) : jsstr :=
  js match r with
     | Payer => "PAYER_FSP"
     | Payee => "PAYEE_FSP"
     | Hub => "HUB"
     | Si => "SI"
     | Fxp => "FXP"
     end.

#[global] Instance FeeSplitRole_eq_dec : EqDecision FeeSplitRole.
Proof. solve_decision. Defined.

(** [FeeCalculationResult.FeeSplit] *)
Record FeeSplit : Set := mkFeeSplit {
  split_amount : option jsstr;
  split_currency : option jsstr }.

(** The members of [FeeCalculationResult.FeePolicy] this code reads or sets. *)
Record FeePolicy : Set := mkFeePolicy {
  policy_id : option jsstr;
  policy_transactionCurrency : option jsstr }.

(** An object used as a map, as its entries in enumeration order. *)
Definition FeeSplits : Set := list (jsstr * FeeSplit).

Record FeeCalculationResult : Set := mkFeeCalculationResult {
  feePolicy : option FeePolicy;
  feeCurrency : option jsstr;
  totalFeeAmount : option jsstr;
  transactionAmount : option jsstr;
  transactionCurrency : option jsstr;
  feeSplits : option FeeSplits }.

(** [new FeeCalculationResult()] *)
Definition empty_result : FeeCalculationResult :=
  mkFeeCalculationResult None None None None None None.

(** [Map<FeeSplitRole, Money>], as its entries in insertion order. *)
Definition PreCalculatedFees : Set := list (FeeSplitRole * Money).

(** [feeSplits\[key\]] *)
Definition lookup_split (feeSplits : FeeSplits) (key : jsstr) : option FeeSplit :=
  snd <$> List.find (fun e => str_eqb (fst e) key) feeSplits.

(** [new CatalystException(message)] *)
Definition catalyst_error (m : jsstr) : thrown := TCatalyst (js "CATALYST_ERROR") m.

(** ** FeeValidator *)

Definition resolveRoleAliases (role : FeeSplitRole) : list jsstr :=
  match role with
  | Payer => [js "payer_fsp"; js "payer_fsp_fee"; js "payer_fsp_fee_cc"; js "PAYER_FSP"]
  | Payee => [js "payee_fsp"; js "payee_fsp_fee"; js "payee_fsp_fee_cc"; js "PAYEE_FSP"]
  | Hub => [js "hub"; js "hub_fee"; js "HUB"]
  | Si => [js "si"; js "SI"]
  | Fxp => [js "fxp"; js "FXP"]
  end.

Fixpoint first_split (feeSplits : FeeSplits) (keys : list jsstr) : option FeeSplit :=
  match keys with
  | [] => None
  | key :: keys =>
      match lookup_split feeSplits key with
      | Some m => Some m
      | None => first_split feeSplits keys
      end
  end.

Definition resolveSplit (feeSplits : FeeSplits) (role : FeeSplitRole) : option FeeSplit :=
  match lookup_split feeSplits (role_value role) with
  | Some direct => Some direct
  | None => first_split feeSplits (resolveRoleAliases role)
  end.

Definition resolveScale (currency : jsstr) (role : FeeSplitRole) : result thrown Z :=
  match get currency with
  | None => Err (catalyst_error (js "Wrong currency information for " ++ role_value role))
  | Some currencyProfile => Ok (scale currencyProfile)
  end.

(** The body of the loop of [validate]. A [Money] has both its members, so its own
    [== null] checks never fire. *)
Definition validate_role (policyId : option jsstr) (calculatedSplits : FeeSplits)
    (entry : FeeSplitRole * Money) : result thrown unit :=
  let '(role, preCalculatedFee) := entry in
  match resolveSplit calculatedSplits role with
  | None => Err (catalyst_error (role_value role ++ js " fee cannot be resolved in current policy ID : " ++
                                 default (js "undefined") policyId))
  | Some calculatedSplit =>
      match split_currency calculatedSplit with
      | None => Err (catalyst_error (js "Missing currency information for " ++ role_value role))
      | Some calculatedCurrency =>
          let! _ := throw_if (negb (str_eqb (money_currency preCalculatedFee) calculatedCurrency))
            (catalyst_error (js "Currency information mismatch for " ++ role_value role)) in
          match split_amount calculatedSplit with
          | None => Err (catalyst_error (js "Missing amount for " ++ role_value role))
          | Some splitAmount =>
              let! scale := resolveScale (money_currency preCalculatedFee) role in
              let! preCalculatedAmount := serialize (money_amount preCalculatedFee) scale HalfUp in
              let! calculatedAmount := serialize splitAmount scale HalfUp in
              throw_if (calculatedAmount <? preCalculatedAmount)
                (catalyst_error (js "Pre-calculated fee is larger than the Fee Engine's calculation for " ++
                                 role_value role))
          end
      end
  end.

(** [FeeValidator.validate] *)
Definition validate (preCalculatedFees : PreCalculatedFees) (feeCalculationResult : FeeCalculationResult)
    : result thrown unit :=
  match feePolicy feeCalculationResult with
  | None => Ok tt
  | Some policy =>
      forM (validate_role (policy_id policy) (default [] (feeSplits feeCalculationResult)))
        preCalculatedFees
  end.

(** ** FeeCalculator: the interface and its implementations *)

(** The overloaded argument [string | bigint]. *)
Inductive scenario_or_policy : Set := Scenario (s : jsstr) | PolicyId (id : Z).

Class FeeCalculator : Type :=
  { calculate : scenario_or_policy -> Money -> result thrown FeeCalculationResult }.

Definition FEE_DENOMINATOR : Z := 100.
Definition PAYER_FEE_SHARE : Z := 30.
Definition PAYEE_FEE_SHARE : Z := 30.
Definition SHARE_DENOMINATOR : Z := 100.

Definition createSplit (amountMinor : Z) (scale : Z) (currency : jsstr) : result thrown FeeSplit :=
  let! amount := deserialize amountMinor scale in
  Ok (mkFeeSplit (Some amount) (Some currency)).

Definition createDummyFeePolicy (currency : jsstr) : FeePolicy :=
  mkFeePolicy (Some (js "0")) (Some currency).

Definition mock_calculate (_ : scenario_or_policy) (amount : Money) : result thrown FeeCalculationResult :=
  let currencyProfile := get (money_currency amount) in
  let scale := default 0 (scale <$> currencyProfile) in
  let! amountMinor := serialize (money_amount amount) scale HalfUp in
  let totalFeeMinor := Z.quot amountMinor FEE_DENOMINATOR in
  let payerFeeMinor := Z.quot (totalFeeMinor * PAYER_FEE_SHARE) SHARE_DENOMINATOR in
  let payeeFeeMinor := Z.quot (totalFeeMinor * PAYEE_FEE_SHARE) SHARE_DENOMINATOR in
  let hubFeeMinor := totalFeeMinor - payerFeeMinor - payeeFeeMinor in
  let currency := money_currency amount in
  let! totalFee := deserialize totalFeeMinor scale in
  let! payer := createSplit payerFeeMinor scale currency in
  let! payee := createSplit payeeFeeMinor scale currency in
  let! hub := createSplit hubFeeMinor scale currency in
  Ok (mkFeeCalculationResult (Some (createDummyFeePolicy currency)) (Some currency) (Some totalFee)
        (Some (money_amount amount)) (Some currency)
        (Some [(js "payer_fsp_fee", payer); (js "payee_fsp_fee", payee); (js "hub_fee", hub)])).

Definition MockFeeCalculator : FeeCalculator := {| calculate := mock_calculate |}.

Record CalculateFeeInput : Set := mkCalculateFeeInput {
  cfi_amount : option jsstr; cfi_currency : option jsstr; cfi_scenario : option jsstr }.
Record CalculateFeeByFeePolicyIdInput : Set := mkCalculateFeeByFeePolicyIdInput {
  cfp_amount : option jsstr; cfp_feePolicyId : option jsstr }.

(** The two calls of [CatalystAxios]: the [feeCalculationResultData] of the response,
    or what the call throws. *)
Class CatalystAxios : Type :=
  { calculateFee : CalculateFeeInput -> result thrown (option FeeCalculationResult);
    calculateFeeWithPolicyId : CalculateFeeByFeePolicyIdInput -> result thrown (option FeeCalculationResult) }.

(** [rethrowAsCatalystException]: what it throws. *)
Definition rethrowAsCatalystException (error : thrown) : thrown :=
  match error with
  | TCatalyst _ _ => error
  | _ => TCatalyst (js "CATALYST_ERROR") (firstNonBlank (error_message error) (js "Unexpected catalyst error."))
  end.

Section calculator.
  Context {catalystAxios : CatalystAxios}.

Definition calculateByScenario (scenario : jsstr) (amount : Money) : result thrown FeeCalculationResult :=
  let request := mkCalculateFeeInput (Some (money_amount amount)) (Some (money_currency amount)) (Some scenario) in
  match calculateFee request with
  | Ok response => Ok (default empty_result response)
  | Err error => Err (rethrowAsCatalystException error)
  end.

Definition calculateByFeePolicyId (policyId : Z) (amount : Money) : result thrown FeeCalculationResult :=
  let request := mkCalculateFeeByFeePolicyIdInput (Some (money_amount amount)) (Some (bigint_text policyId)) in
  match calculateFeeWithPolicyId request with
  | Ok response => Ok (default empty_result response)
  | Err error => Err (rethrowAsCatalystException error)
  end.

Definition catalyst_calculate (key : scenario_or_policy) (amount : Money) : result thrown FeeCalculationResult :=
  match key with
  | Scenario s => calculateByScenario s amount
  | PolicyId id => calculateByFeePolicyId id amount
  end.

Definition CatalystFeeCalculator : FeeCalculator := {| calculate := catalyst_calculate |}.
End calculator.

(** ** CatalystFeeEngine *)

Inductive EngineMode : Set := Bypass | Strict.

Definition SCHEME_FEE_AMOUNT_KEY : jsstr := js "scheme_fee_amount".
Definition FEE_CURRENCY_KEY : jsstr := js "scheme_fee_currency".
Definition FEE_POLICY_ID_KEY : jsstr := js "scheme_fee_policy_id".

Definition one_of (s : jsstr) (l : list jsstr) : bool := existsb (str_eqb s) l.

Definition toExtensionKey (role : jsstr) : jsstr :=
  let normalizedRole := trim role in
  if one_of normalizedRole [role_value Payer; js "payer_fsp"; js "payer_fsp_fee"; js "payer_fsp_fee_cc"]
  then js "payer_fsp_fee"
  else if one_of normalizedRole [role_value Payee; js "payee_fsp"; js "payee_fsp_fee"; js "payee_fsp_fee_cc"]
  then js "payee_fsp_fee"
  else if one_of normalizedRole [role_value Hub; js "hub"; js "hub_fee"; js "hub_fee_cc"]
  then js "hub_fee"
  else if one_of normalizedRole [role_value Si; js "si"; js "si_fee"; js "si_fee_cc"]
  then js "si_fee"
  else if one_of normalizedRole [role_value Fxp; js "fxp"; js "fxp_fee"; js "fxp_fee_cc"]
  then js "fxp_fee"
  else toLowerCase normalizedRole.

Definition toSimpleExtension (key value : jsstr) : Extension := mkExtension (Some key) (Some value).

Definition toExtension (role : FeeSplitRole) (amount : jsstr) : Extension :=
  mkExtension (Some (toExtensionKey (role_value role))) (Some amount).

Definition toCcExtension (role amount : jsstr) : Extension :=
  let extensionKey := toExtensionKey role in
  mkExtension (Some (if endsWith extensionKey (js "_cc") then extensionKey else extensionKey ++ js "_cc"))
    (Some amount).

(** The loop over the pre-calculated fees of [toSchemeFeeAmount]. *)
Fixpoint sum_preCalculated (scale : Z) (fees : PreCalculatedFees) (total : Z) : result thrown Z :=
  match fees with
  | [] => Ok total
  | (_, money) :: fees =>
      let! n := serialize (money_amount money) scale HalfUp in
      sum_preCalculated scale fees (total + n)
  end.

(** Its loop over the calculated splits. *)
Fixpoint sum_calculated (preCalculatedFeeKeys : list jsstr) (scale : Z) (splits : FeeSplits) (total : Z)
    : result thrown Z :=
  match splits with
  | [] => Ok total
  | (key, split) :: splits =>
      match split_amount split with
      | None => sum_calculated preCalculatedFeeKeys scale splits total
      | Some amount =>
          if one_of (toExtensionKey key) preCalculatedFeeKeys
          then sum_calculated preCalculatedFeeKeys scale splits total
          else
            let! n := serialize amount scale HalfUp in
            sum_calculated preCalculatedFeeKeys scale splits (total + n)
      end
  end.

Definition toSchemeFeeAmount (preCalculatedFees : PreCalculatedFees) (preCalculatedFeeKeys : list jsstr)
    (calculatedFeeSplits : option FeeSplits) (feeCurrency : option jsstr) : result thrown (option jsstr) :=
  let currency := match feeCurrency with
                  | Some c => Some c
                  | None => money_currency <$> (snd <$> head preCalculatedFees)
                  end in
  match currency with
  | None => Ok None
  | Some currency =>
      match scale_of_currency currency with
      | None => Ok None
      | Some scale =>
          let! total := sum_preCalculated scale preCalculatedFees 0 in
          let! total := sum_calculated preCalculatedFeeKeys scale (default [] calculatedFeeSplits) total in
          let! text := deserialize total scale in
          Ok (Some text)
      end
  end.

(** The extensions of the calculated splits that have an amount. *)
Definition cc_extensions (splits : FeeSplits) : ExtensionList :=
  omap (fun '(role, split) => toCcExtension role <$> split_amount split) splits.

Definition toExtensionList (preCalculatedFees : PreCalculatedFees) (calculatedFeeSplits : option FeeSplits)
    (feeCurrency : option jsstr) (feePolicyId : option jsstr) : result thrown ExtensionList :=
  let extensions := map (fun '(role, money) => toExtension role (money_amount money)) preCalculatedFees in
  let preCalculatedFeeKeys := map (fun '(role, _) => toExtensionKey (role_value role)) preCalculatedFees in
  let! schemeFeeAmount :=
    toSchemeFeeAmount preCalculatedFees preCalculatedFeeKeys calculatedFeeSplits feeCurrency in
  let normalizedFeePolicyId := trim <$> feePolicyId in
  Ok (extensions ++ cc_extensions (default [] calculatedFeeSplits) ++
      match schemeFeeAmount with
      | Some a => [toSimpleExtension SCHEME_FEE_AMOUNT_KEY a]
      | None => []
      end ++
      match feeCurrency with
      | Some c => [toSimpleExtension FEE_CURRENCY_KEY c]
      | None => []
      end ++
      match normalizedFeePolicyId with
      | Some id => if bool_decide (id = []) then [] else [toSimpleExtension FEE_POLICY_ID_KEY id]
      | None => []
      end).

Definition execute {feeCalculator : FeeCalculator} (engineMode : EngineMode)
    (preCalculatedFees : PreCalculatedFees) (scenario : jsstr) (amount : Money) (feePolicyId : Z)
    : result thrown ExtensionList :=
  match engineMode with
  | Bypass => toExtensionList preCalculatedFees None None None
  | Strict =>
      let! feeCalculationResult :=
        if 0 <? feePolicyId then calculate (PolicyId feePolicyId) amount
        else calculate (Scenario scenario) amount in
      let! _ := validate preCalculatedFees feeCalculationResult in
      let resolvedFeePolicyId :=
        match feePolicy feeCalculationResult ≫= policy_id with
        | Some id => Some id
        | None => if 0 <? feePolicyId then Some (bigint_text feePolicyId) else None
        end in
      toExtensionList preCalculatedFees (feeSplits feeCalculationResult)
        (feeCurrency feeCalculationResult) resolvedFeePolicyId
  end.

(** ** Reference definitions *)

(** What [validate] asks of one pre-calculated fee. *)
Definition fee_within (splits : FeeSplits) (entry : FeeSplitRole * Money) : Prop :=
  exists split amount scale p c,
  resolveSplit splits (fst entry) = Some split /\
  split_currency split = Some (money_currency (snd entry)) /\ split_amount split = Some amount /\
  scale_of_currency (money_currency (snd entry)) = Some scale /\
  serialize (money_amount (snd entry)) scale HalfUp = Ok p /\ serialize amount scale HalfUp = Ok c /\
  p <= c.

(** The amounts that make up the scheme fee: every pre-calculated one, and every
    calculated one under a key that no pre-calculated fee has. *)
Definition scheme_fee_amounts (fees : PreCalculatedFees) (keys : list jsstr) (splits : FeeSplits) : list jsstr :=
  map (fun e => money_amount (snd e)) fees ++
  omap (fun '(key, split) => if one_of (toExtensionKey key) keys then None else split_amount split) splits.

Definition sumZ (l : list Z) : Z := fold_right Z.add 0 l.

(** * Lemmas *)

Lemma one_of_spec s l : one_of s l = true <-> s ∈ l.
Proof.
  unfold one_of. rewrite existsb_exists. split.
  - intros (x & Hx & He). unfold str_eqb in He. bool_hyps. subst. by apply list_elem_of_In.
  - intros H. exists s. split; [by apply list_elem_of_In|]. unfold str_eqb. by apply bool_decide_eq_true.
Qed.

Lemma lookup_split_elem splits key s : lookup_split splits key = Some s -> (key, s) ∈ splits.
Proof.
  unfold lookup_split. destruct (List.find _ splits) as [[k s']|] eqn:Hf; [|done]. intros [= <-].
  apply find_some in Hf as [Hin He]. cbn in He. unfold str_eqb in He. bool_hyps. subst k.
  by apply list_elem_of_In.
Qed.

Lemma first_split_elem splits keys s : first_split splits keys = Some s -> exists key, key ∈ keys /\ (key, s) ∈ splits.
Proof.
  induction keys as [|k keys IH]; cbn; [done|]. destruct (lookup_split splits k) as [m|] eqn:Hl.
  - intros [= <-]. exists k. split; [by left | by apply lookup_split_elem].
  - intros H. destruct (IH H) as (key & Hk & He). exists key. split; [by right | done].
Qed.

Lemma resolveSplit_elem splits role s :
  resolveSplit splits role = Some s ->
  exists key, (key, s) ∈ splits /\ toExtensionKey key = toExtensionKey (role_value role).
Proof.
  unfold resolveSplit. destruct (lookup_split splits (role_value role)) as [m|] eqn:Hl.
  - intros [= <-]. exists (role_value role). split; [by apply lookup_split_elem | done].
  - intros H. destruct (first_split_elem _ _ _ H) as (key & Hk & He). exists key. split; [done|].
    revert key Hk He.
    enough (Forall (fun key => toExtensionKey key = toExtensionKey (role_value role)) (resolveRoleAliases role)) as Hall.
    { intros key Hk _. rewrite Forall_forall in Hall. by apply Hall. }
    destruct role; by apply (bool_decide_unpack _); vm_compute.
Qed.

Lemma validate_role_Ok id splits entry : validate_role id splits entry = Ok tt <-> fee_within splits entry.
Proof.
  destruct entry as [role m]. unfold validate_role, fee_within. cbn [fst snd].
  destruct (resolveSplit splits role) as [[a c]|]; [|by split; [|naive_solver]].
  cbn [split_amount split_currency]. destruct c as [c|]; [|by split; [|naive_solver]].
  unfold throw_if at 1. unfold str_eqb. case_bool_decide as Hc; cbn [negb].
  2:{ split; [done|]. intros (split & a' & sc & p & q & [= <-] & [= ->] & _). done. }
  destruct a as [a|]; [|by split; [|naive_solver]]. unfold resolveScale, scale_of_currency. subst c.
  destruct (get (money_currency m)) as [pr|] eqn:Hg; [|by split; [|naive_solver]]. cbn [fmap option_fmap option_map].
  destruct (serialize (money_amount m) (scale pr) HalfUp) as [p|] eqn:Hp.
  2:{ split; [done|]. intros (? & ? & ? & ? & ? & [= <-] & ? & ? & [= <-] & ? & _). congruence. }
  destruct (serialize a (scale pr) HalfUp) as [q|] eqn:Hq.
  2:{ split; [done|]. intros (? & ? & ? & ? & ? & [= <-] & ? & [= <-] & [= <-] & ? & ? & _). congruence. }
  rewrite throw_if_Ok, Z.ltb_ge. split.
  - intros Hle. exists (mkFeeSplit (Some a) (Some (money_currency m))), a, (scale pr), p, q. done.
  - intros (? & ? & ? & ? & ? & [= <-] & ? & [= <-] & [= <-] & ? & ? & ?). simplify_eq. congruence.
Qed.

Lemma deserialize_nonneg n scale : 0 <= n -> 0 <= scale -> exists t, deserialize n scale = Ok t.
Proof. intros Hn Hs. destruct (deserialize_groups n scale Hn Hs) as (ip & fp & Hd & _). eauto. Qed.

Lemma mapR_serialize_nonneg l scale ns : mapR (fun a => serialize a scale HalfUp) l = Ok ns -> 0 <= sumZ ns.
Proof.
  intros H. apply mapR_Ok in H. induction H as [|a n l ns Hn _ IH]; cbn; [done|].
  apply serialize_bounds in Hn. unfold sumZ in IH. lia.
Qed.

Lemma mapR_app {E A B} (f : A -> result E B) l k :
  mapR f (l ++ k) = let! a := mapR f l in let! b := mapR f k in Ok (a ++ b).
Proof.
  induction l as [|x l IH]; cbn; [by destruct (mapR f k)|].
  destruct (f x); [|done]. rewrite IH. destruct (mapR f l); [|done]. by destruct (mapR f k).
Qed.

Lemma sum_preCalculated_spec scale fees total :
  sum_preCalculated scale fees total =
  let! ns := mapR (fun a => serialize a scale HalfUp) (map (fun e => money_amount (snd e)) fees) in
  Ok (total + sumZ ns).
Proof.
  revert total. induction fees as [|[r m] fees IH]; intros total; cbn; [by rewrite Z.add_0_r|].
  destruct (serialize _ _ _) as [n|e]; [|done]. rewrite IH.
  destruct (mapR _ _) as [ns|e]; [|done]. f_equal. unfold sumZ; cbn [fold_right]. lia.
Qed.

Lemma sum_calculated_spec keys scale splits total :
  sum_calculated keys scale splits total =
  let! ns := mapR (fun a => serialize a scale HalfUp)
    (omap (fun '(key, split) => if one_of (toExtensionKey key) keys then None else split_amount split) splits) in
  Ok (total + sumZ ns).
Proof.
  revert total. induction splits as [|[k [a c]] splits IH]; intros total; cbn [sum_calculated omap list_omap split_amount].
  { cbn. by rewrite Z.add_0_r. }
  destruct a as [a|]; [|by destruct (one_of _ _)].
  destruct (one_of (toExtensionKey k) keys); [done|]. cbn [mapR].
  destruct (serialize a scale HalfUp) as [n|e]; [|done]. rewrite IH.
  destruct (mapR _ _) as [ns|e]; [|done]. f_equal. unfold sumZ; cbn [fold_right]. lia.
Qed.

Lemma sumZ_app l k : sumZ (l ++ k) = sumZ l + sumZ k.
Proof. unfold sumZ. induction l as [|x l IH]; cbn [app fold_right]; [done|]. rewrite IH. lia. Qed.

Lemma serialize_text n scale :
  0 <= n <= UINT64_MAX -> 0 <= scale ->
  exists text, deserialize n scale = Ok text /\ forall mode, serialize text scale mode = Ok n.
Proof.
  intros Hn Hs. destruct (deserialize_nonneg n scale) as [t Ht]; [lia..|]. exists t. split; [done|].
  intros mode. destruct (serialize_roundtrip n scale mode Hn Hs) as (t' & Ht' & Hr). congruence.
Qed.

(** The arithmetic of the mock's splits of [n] minor units. *)
Lemma mock_splits n :
  0 <= n <= UINT64_MAX -> exists payer payee hub total,
  (Z.quot n FEE_DENOMINATOR = total /\
   Z.quot (total * PAYER_FEE_SHARE) SHARE_DENOMINATOR = payer /\
   Z.quot (total * PAYEE_FEE_SHARE) SHARE_DENOMINATOR = payee /\ total - payer - payee = hub) /\
  (0 <= payer <= UINT64_MAX /\ 0 <= payee <= UINT64_MAX /\ 0 <= hub <= UINT64_MAX /\ 0 <= total <= UINT64_MAX) /\
  payer + payee + hub = total /\ total = n / 100 /\ payer = payee /\
  100 * payer <= 30 * total < 100 * (payer + 1) /\ 40 * total <= 100 * hub.
Proof.
  intros Hn. unfold FEE_DENOMINATOR, PAYER_FEE_SHARE, PAYEE_FEE_SHARE, SHARE_DENOMINATOR.
  rewrite Z.quot_div_nonneg by lia. set (total := n / 100).
  assert (0 <= total <= UINT64_MAX) as Ht.
  { unfold total. split; [apply Z.div_pos; lia|]. pose proof (Z.div_le_upper_bound n 100 UINT64_MAX). lia. }
  exists (total * 30 / 100), (total * 30 / 100), (total - total * 30 / 100 - total * 30 / 100), total.
  rewrite !Z.quot_div_nonneg by lia.
  pose proof (Z.div_mod (total * 30) 100 ltac:(lia)). pose proof (Z.mod_pos_bound (total * 30) 100 ltac:(lia)).
  repeat split; lia.
Qed.

Lemma bigint_text_pos n : 0 < n -> bigint_text n = dec_print n.
Proof. intros H. unfold bigint_text. by rewrite (proj2 (Z.ltb_ge n 0)) by lia. Qed.

Lemma execute_strict (c : FeeCalculator) fees scenario amount policy :
  execute Strict fees scenario amount policy =
  match (if 0 <? policy then calculate (PolicyId policy) amount else calculate (Scenario scenario) amount) with
  | Ok r =>
      let! _ := validate fees r in
      toExtensionList fees (feeSplits r) (feeCurrency r)
        (match feePolicy r ≫= policy_id with
         | Some id => Some id
         | None => if 0 <? policy then Some (bigint_text policy) else None
         end)
  | Err e => Err e
  end.
Proof. reflexivity. Qed.

(** The mock's result for an amount, given the texts it prints. *)
Definition mock_result (amount : Money) (total payer payee hub : jsstr) : FeeCalculationResult :=
  let c := money_currency amount in
  mkFeeCalculationResult (Some (createDummyFeePolicy c)) (Some c) (Some total) (Some (money_amount amount)) (Some c)
    (Some [(js "payer_fsp_fee", mkFeeSplit (Some payer) (Some c)); (js "payee_fsp_fee", mkFeeSplit (Some payee) (Some c));
           (js "hub_fee", mkFeeSplit (Some hub) (Some c))]).

(** * Properties *)

(** [validate] lets a set of pre-calculated fees through exactly when the
    calculation carries no policy, or every fee has a split under its role or one of
    its aliases, in the fee's own currency, whose amount at that currency's scale is
    at least the fee. *)
Theorem validate_Ok_iff :
  forall fees result,
  Fees.validate fees result = Ok tt <->
  (feePolicy result = None \/ Forall (fee_within (default [] (feeSplits result))) fees).
Proof.
  intros fees result. unfold validate. destruct (feePolicy result) as [p|]; [|naive_solver].
  rewrite forM_Ok. split.
  - intros H. right. eapply Forall_impl; [exact H|]. intros e. apply validate_role_Ok.
  - intros [?|H]; [done|]. eapply Forall_impl; [exact H|]. intros e. apply validate_role_Ok.
Qed.

(** The scheme fee is a sum without double counting: [toSchemeFeeAmount] prints,
    at the scale of the currency, the sum of the pre-calculated fees and of those
    calculated splits whose key no pre-calculated fee has, and fails only where
    one of these amounts is not a valid amount; and the split that bounds a
    pre-calculated fee of a role in [validate] is never one of those summed. *)
Theorem toSchemeFeeAmount_sum :
  forall fees splits feeCurrency currency scale,
  match feeCurrency with
  | Some c => Some c
  | None => money_currency <$> (snd <$> head fees)
  end = Some currency -> scale_of_currency currency = Some scale ->
  let keys := map (fun '(role, _) => toExtensionKey (role_value role)) fees in
  toSchemeFeeAmount fees keys (Some splits) feeCurrency =
    (let! ns := mapR (fun a => serialize a scale HalfUp) (scheme_fee_amounts fees keys splits) in
     let! text := deserialize (sumZ ns) scale in Ok (Some text)) /\
  (forall ns, mapR (fun a => serialize a scale HalfUp) (scheme_fee_amounts fees keys splits) = Ok ns ->
     exists text, deserialize (sumZ ns) scale = Ok text /\
       (sumZ ns <= UINT64_MAX -> forall mode, serialize text scale mode = Ok (sumZ ns))) /\
  (forall role fee split, (role, fee) ∈ fees -> resolveSplit splits role = Some split ->
     exists key, (key, split) ∈ splits /\ one_of (toExtensionKey key) keys = true).
Proof.
  intros fees splits feeCurrency currency scale Hc Hs keys.
  pose proof (scale_bounds _ _ Hs) as Hb. split; [|split].
  - unfold toSchemeFeeAmount. rewrite Hc, Hs, sum_preCalculated_spec. unfold scheme_fee_amounts.
    rewrite mapR_app. destruct (mapR _ (map _ fees)) as [ns|e]; [|done].
    cbn [from_option id]. rewrite sum_calculated_spec. destruct (mapR _ (omap _ splits)) as [ms|e]; [|done].
    by rewrite sumZ_app, Z.add_0_l.
  - intros ns Hns. apply mapR_serialize_nonneg in Hns.
    destruct (deserialize_groups (sumZ ns) scale ltac:(lia) ltac:(lia)) as (ip & fp & Hd & _).
    eexists. split; [exact Hd|]. intros Hmax mode.
    destruct (serialize_roundtrip (sumZ ns) scale mode) as (t & Ht & Hr); [lia..|].
    rewrite Hd in Ht. by injection Ht as ->.
  - intros role fee split Hin Hr. destruct (resolveSplit_elem _ _ _ Hr) as (key & Hk & He).
    exists key. split; [done|]. apply one_of_spec. rewrite He. subst keys.
    apply list_elem_of_fmap. by exists (role, fee).
Qed.

Lemma toSchemeFeeAmount_sum_witness :
  toSchemeFeeAmount [(Payer, mkMoney (js "USD") (js "0.25"))] [js "payer_fsp_fee"]
    (Some [(js "PAYER_FSP", mkFeeSplit (Some (js "0.30")) (Some (js "USD")));
           (js "hub_fee", mkFeeSplit (Some (js "0.20")) (Some (js "USD")))]) None = Ok (Some (js "0.45")).
Proof.
  pose proof (toSchemeFeeAmount_sum [(Payer, mkMoney (js "USD") (js "0.25"))]
    [(js "PAYER_FSP", mkFeeSplit (Some (js "0.30")) (Some (js "USD")));
     (js "hub_fee", mkFeeSplit (Some (js "0.20")) (Some (js "USD")))] None (js "USD") 2
    ltac:(reflexivity) ltac:(vm_compute; reflexivity)) as [H _].
  etransitivity; [exact H | vm_compute; reflexivity].
Defined.

(** With the mock calculator, no pre-calculated fee and an amount of [n] minor
    units, the engine's extension list is the three splits, the scheme fee, its
    currency and the policy id ['0'] whatever policy was asked for; the printed
    amounts read back as minor units that conserve the fee: payer, payee and hub add
    up to the scheme fee, which is one hundredth of the amount rounded down, payer
    and payee each get 30% of it rounded down, and the hub at least 40%. *)
Theorem execute_mock_conserves :
  forall scenario amount policy scale n,
  scale_of_currency (money_currency amount) = Some scale ->
  serialize (money_amount amount) scale HalfUp = Ok n ->
  exists payer payee hub total payerText payeeText hubText totalText,
  @execute MockFeeCalculator Strict [] scenario amount policy =
    Ok [toSimpleExtension (js "payer_fsp_fee_cc") payerText; toSimpleExtension (js "payee_fsp_fee_cc") payeeText;
        toSimpleExtension (js "hub_fee_cc") hubText; toSimpleExtension (js "scheme_fee_amount") totalText;
        toSimpleExtension (js "scheme_fee_currency") (money_currency amount);
        toSimpleExtension (js "scheme_fee_policy_id") (js "0")] /\
  (forall mode, serialize payerText scale mode = Ok payer /\ serialize payeeText scale mode = Ok payee /\
     serialize hubText scale mode = Ok hub /\ serialize totalText scale mode = Ok total) /\
  payer + payee + hub = total /\ total = n / 100 /\ payer = payee /\
  100 * payer <= 30 * total < 100 * (payer + 1) /\ 40 * total <= 100 * hub.
Proof.
  intros scenario amount policy scale n Hs Hn.
  pose proof (scale_bounds _ _ Hs) as Hb. pose proof (serialize_bounds _ _ _ _ Hn) as Hnb.
  destruct (mock_splits n Hnb) as (payer & payee & hub & total & Hq & Hrange & Hfacts).
  destruct Hq as (Et & Ep & Eq & Eh).
  destruct (serialize_text payer scale) as (pt & Hpt & Hpr); [lia..|].
  destruct (serialize_text payee scale) as (qt & Hqt & Hqr); [lia..|].
  destruct (serialize_text hub scale) as (ht & Hht & Hhr); [lia..|].
  destruct (serialize_text total scale) as (tt' & Htt & Htr); [lia..|].
  exists payer, payee, hub, total, pt, qt, ht, tt'. split; [|split; [by auto|exact Hfacts]].
  rewrite execute_strict. cbn [calculate MockFeeCalculator].
  assert (forall key, mock_calculate key amount = Ok (mock_result amount tt' pt qt ht)) as Hm.
  { intros key. unfold mock_calculate. unfold scale_of_currency in Hs.
    destruct (get (money_currency amount)) as [p|]; [|done]. cbn in Hs. injection Hs as Hs.
    cbn [fmap option_fmap option_map from_option id]. rewrite Hs, Hn, Et, Ep, Eq, Eh, Htt.
    unfold createSplit. by rewrite Hpt, Hqt, Hht. }
  rewrite !Hm. destruct (0 <? policy); cbn [mock_result feePolicy mbind option_bind policy_id createDummyFeePolicy feeSplits feeCurrency validate forM].
  all: unfold toExtensionList, toSchemeFeeAmount; rewrite Hs; cbn [sum_preCalculated from_option id sum_calculated split_amount one_of existsb map];
    rewrite (Hpr HalfUp), (Hqr HalfUp), (Hhr HalfUp);
    replace (0 + payer + payee + hub) with total by lia; rewrite Htt; reflexivity.
Qed.

Lemma execute_mock_conserves_witness :
  exists payer payee hub total payerText payeeText hubText totalText,
  @execute MockFeeCalculator Strict [] (js "P2P") (mkMoney (js "USD") (js "123.45")) 7 =
    Ok [toSimpleExtension (js "payer_fsp_fee_cc") payerText; toSimpleExtension (js "payee_fsp_fee_cc") payeeText;
        toSimpleExtension (js "hub_fee_cc") hubText; toSimpleExtension (js "scheme_fee_amount") totalText;
        toSimpleExtension (js "scheme_fee_currency") (js "USD");
        toSimpleExtension (js "scheme_fee_policy_id") (js "0")] /\
  (forall mode, serialize payerText 2 mode = Ok payer /\ serialize payeeText 2 mode = Ok payee /\
     serialize hubText 2 mode = Ok hub /\ serialize totalText 2 mode = Ok total) /\
  payer + payee + hub = total /\ total = 12345 / 100 /\ payer = payee /\
  100 * payer <= 30 * total < 100 * (payer + 1) /\ 40 * total <= 100 * hub.
Proof.
  exact (execute_mock_conserves (js "P2P") (mkMoney (js "USD") (js "123.45")) 7 2 12345
    ltac:(vm_compute; reflexivity) ltac:(vm_compute; reflexivity)).
Defined.

(** The engine over the Catalyst service: it throws only [CatalystException]s where
    the service call fails, one that the service threw being passed on unchanged; and
    a service that answers without data makes the strict engine behave as the
    bypassing one, the policy id the caller asked for aside: no fee is checked. *)
Theorem execute_catalyst_failures :
  forall (axios : CatalystAxios) fees scenario amount policy,
  let answer :=
    if 0 <? policy
    then calculateFeeWithPolicyId (mkCalculateFeeByFeePolicyIdInput (Some (money_amount amount)) (Some (bigint_text policy)))
    else calculateFee (mkCalculateFeeInput (Some (money_amount amount)) (Some (money_currency amount)) (Some scenario)) in
  let run mode := @execute CatalystFeeCalculator mode fees scenario amount policy in
  (forall t, answer = Err t -> exists c m, run Strict = Err (TCatalyst c m) /\
     forall c' m', t = TCatalyst c' m' -> c = c' /\ m = m') /\
  (answer = Ok None ->
     run Strict = let! l := run Bypass in
                  Ok (l ++ if 0 <? policy then [toSimpleExtension FEE_POLICY_ID_KEY (dec_print policy)] else [])).
Proof.
  intros axios fees scenario amount policy answer run. subst run answer. cbv beta. rewrite execute_strict. split.
  - intros t Ht.
    assert ((if 0 <? policy then @calculate CatalystFeeCalculator (PolicyId policy) amount
             else @calculate CatalystFeeCalculator (Scenario scenario) amount) = Err (rethrowAsCatalystException t)) as ->.
    { cbn. unfold calculateByFeePolicyId, calculateByScenario. destruct (0 <? policy); by rewrite Ht. }
    destruct t; cbn; eauto; do 2 eexists; split; try done; by intros ? ? [= <- <-].
  - intros Ha.
    assert ((if 0 <? policy then @calculate CatalystFeeCalculator (PolicyId policy) amount
             else @calculate CatalystFeeCalculator (Scenario scenario) amount) = Ok empty_result) as ->.
    { cbn. unfold calculateByFeePolicyId, calculateByScenario. destruct (0 <? policy); by rewrite Ha. }
    change (validate fees empty_result) with (@Ok thrown unit tt). cbv beta iota.
    cbn [empty_result feePolicy feeSplits feeCurrency mbind option_bind].
    unfold execute, toExtensionList. destruct (toSchemeFeeAmount _ _ _ _) as [a|e]; [|done].
    rewrite !app_nil_r. cbn [app fmap option_fmap option_map]. f_equal. rewrite <- !app_assoc. do 2 f_equal.
    destruct (Z.ltb_spec 0 policy) as [Hp|]; [|done].
    cbn [fmap option_fmap option_map]. rewrite bigint_text_pos by done.
    destruct (dec_print_spec policy ltac:(lia)) as (Hd & _ & Hne).
    rewrite trim_no_ws by (by apply all_digits_no_ws). by rewrite bool_decide_false.
Qed.

(** A service that fails with a plain error for scenarios and has no data for policies. *)
Definition example_axios : CatalystAxios :=
  {| calculateFee _ := Err (TError (js "timeout of 5000ms exceeded")); calculateFeeWithPolicyId _ := Ok None |}.

Lemma execute_catalyst_failures_witness :
  (exists c m, @execute (@CatalystFeeCalculator example_axios) Strict [] (js "P2P") (mkMoney (js "USD") (js "1")) 0
     = Err (TCatalyst c m)) /\
  @execute (@CatalystFeeCalculator example_axios) Strict [] (js "P2P") (mkMoney (js "USD") (js "1")) 12
     = Ok [toSimpleExtension FEE_POLICY_ID_KEY (js "12")].
Proof.
  pose proof (execute_catalyst_failures example_axios [] (js "P2P") (mkMoney (js "USD") (js "1"))) as H. split.
  - destruct (proj1 (H 0) _ eq_refl) as (c & m & Hr & _). exists c, m. exact Hr.
  - etransitivity; [exact (proj2 (H 12) eq_refl) | vm_compute; reflexivity].
Defined.
