(* ===== verification/Ulid.v ===== *)
(** * ULIDs

    [Ulid] of [packages/shared/ulid/component/ulid.ts]: fixed-width base 32 and the
    identifier made of a 48-bit time and 80 random bits. [Date.now()] and the bytes of
    [randomBytes] are arguments. *)

From S2P Require Import Prelude Errors.

(** ** Definitions *)

Definition ALPHABET : jsstr := js "0123456789ABCDEFGHJKMNPQRSTVWXYZ".
Definition TIME_PART_LENGTH : nat := 10.
Definition RANDOM_PART_LENGTH : nat := 16.
Definition RANDOM_BYTES_LENGTH : nat := 10.
Definition MASK : Z := 31.
Definition SHIFT : Z := 5.
Definition MAX_TIMESTAMP : Z := Z.shiftl 1 48 - 1.

(** [ALPHABET.charAt(i)], the empty string out of range. *)
Definition charAt (i : Z) : jsstr :=
  match ALPHABET !! Z.to_nat i with Some c => [c] | None => [] end.

(** [toBase32]: the loop fills the buffer from its last cell, so [acc] is the joined
    text of the cells already filled. *)
Fixpoint toBase32_loop (count : nat) (remaining : Z) (acc : jsstr) : jsstr :=
  match count with
  | O => acc
  | S i => toBase32_loop i (Z.shiftr remaining SHIFT) (charAt (Z.land remaining MASK) ++ acc)
  end.
Definition toBase32 (value : Z) (count : nat) : jsstr := toBase32_loop count value [].

(** [randomValue] of the bytes drawn. *)
Definition randomValue (random : list Z) : Z :=
  fold_left (fun value byte => Z.lor (Z.shiftl value 8) byte) random 0.

Definition generate (now : Z) (random : list Z) : result thrown jsstr :=
  let timestamp := now in
  let! _ := throw_if (MAX_TIMESTAMP <? timestamp) (TError (js "ULID timestamp overflow.")) in
  let timePart := toBase32 timestamp TIME_PART_LENGTH in
  let randomPart := toBase32 (randomValue random) RANDOM_PART_LENGTH in
  Ok (timePart ++ randomPart).

(** ** Reference definitions *)

(** The value of a base 32 text, reading each letter as its place in the alphabet. *)
Definition letter_value (c : ascii) : Z := default 0 (Z.of_nat <$> indexOf c ALPHABET).
Definition fromBase32 (s : jsstr) : Z := fold_left (fun acc c => acc * 32 + letter_value c) s 0.

(** The order of JavaScript strings, by code units. *)
Fixpoint str_lt (s t : jsstr) : Prop :=
  match s, t with
  | _, [] => False
  | [], _ :: _ => True
  | c :: s, d :: t => (code c < code d)%N \/ (c = d /\ str_lt s t)
  end.

(** The random bytes are ten numbers of 8 bits. *)
Definition random_bytes (random : list Z) : Prop :=
  length random = RANDOM_BYTES_LENGTH /\ Forall (fun b => 0 <= b < 256) random.

(** * Lemmas *)

Definition letter (d : Z) : ascii := default "0"%char (ALPHABET !! Z.to_nat d).

(** A decidable statement on the digits 0..31, checked on each. *)
Definition digits32 : list Z := map Z.of_nat (seq 0 32).
Lemma digits32_spec (P : Z -> Prop) d : Forall P digits32 -> 0 <= d < 32 -> P d.
Proof.
  intros H Hd. rewrite Forall_forall in H. apply H. apply list_elem_of_fmap. exists (Z.to_nat d).
  split; [lia|]. apply elem_of_seq. lia.
Qed.

Lemma charAt_letter d : 0 <= d < 32 -> charAt d = [letter d].
Proof. intros. apply (digits32_spec (fun d => charAt d = [letter d])); [|done]. by apply (bool_decide_unpack _); vm_compute. Qed.

Lemma letter_value_letter d : 0 <= d < 32 -> letter_value (letter d) = d.
Proof. intros. apply (digits32_spec (fun d => letter_value (letter d) = d)); [|done]. by apply (bool_decide_unpack _); vm_compute. Qed.

Lemma letter_mono d e : 0 <= d < e -> e < 32 -> (code (letter d) < code (letter e))%N.
Proof.
  intros Hd He.
  assert (Forall (fun d => Forall (fun e => d < e -> (code (letter d) < code (letter e))%N) digits32) digits32) as H
    by (by apply (bool_decide_unpack _); vm_compute).
  pose proof (digits32_spec _ d H ltac:(lia)) as H1. cbv beta in H1.
  pose proof (digits32_spec _ e H1 ltac:(lia)) as H2. cbv beta in H2. apply H2. lia.
Qed.

Lemma land_mask n : Z.land n MASK = n mod 32.
Proof. exact (Z.land_ones n 5 ltac:(lia)). Qed.

Lemma shiftr_shift n : Z.shiftr n SHIFT = n / 32.
Proof. exact (Z.shiftr_div_pow2 n 5 ltac:(lia)). Qed.

Lemma toBase32_loop_app count n acc : toBase32_loop count n acc = toBase32_loop count n [] ++ acc.
Proof.
  revert n acc. induction count as [|count IH]; intros n acc; [done|]. cbn [toBase32_loop].
  rewrite IH, (IH _ (_ ++ [])), app_nil_r. by rewrite app_assoc.
Qed.

(** Digit by digit from the right. *)
Lemma toBase32_S n count : toBase32 n (S count) = toBase32 (n / 32) count ++ [letter (n mod 32)].
Proof.
  unfold toBase32. cbn [toBase32_loop]. rewrite toBase32_loop_app, land_mask, shiftr_shift.
  rewrite charAt_letter by (apply Z.mod_pos_bound; lia). by rewrite app_nil_r.
Qed.

Lemma toBase32_length n count : length (toBase32 n count) = count.
Proof.
  revert n. induction count as [|count IH]; intros n; [done|].
  rewrite toBase32_S, length_app, IH. cbn. lia.
Qed.

Lemma fromBase32_app s c : fromBase32 (s ++ [c]) = fromBase32 s * 32 + letter_value c.
Proof. unfold fromBase32. by rewrite fold_left_app. Qed.

Lemma fromBase32_toBase32 n count : fromBase32 (toBase32 n count) = n mod 32 ^ Z.of_nat count.
Proof.
  revert n. induction count as [|count IH]; intros n; [by rewrite Z.mod_1_r|].
  rewrite toBase32_S, fromBase32_app, IH, letter_value_letter by (apply Z.mod_pos_bound; lia).
  rewrite Nat2Z.inj_succ, Z.pow_succ_r by lia. rewrite Z.rem_mul_r by lia. lia.
Qed.

Lemma str_lt_app s t u v : length s = length t -> str_lt s t -> str_lt (s ++ u) (t ++ v).
Proof.
  revert t. induction s as [|c s IH]; intros [|d t] Hl; cbn; try done.
  intros [?|[-> ?]]; [by left|]. right. split; [done|]. apply IH; [by injection Hl | done].
Qed.

Lemma str_lt_app_same s u v : str_lt u v -> str_lt (s ++ u) (s ++ v).
Proof. induction s; cbn; auto. Qed.

(** Fixed width makes the order of texts the order of numbers. *)
Lemma toBase32_mono count m n :
  0 <= m < n -> n < 32 ^ Z.of_nat count -> str_lt (toBase32 m count) (toBase32 n count).
Proof.
  revert m n. induction count as [|count IH]; intros m n Hm Hn; [cbn in Hn; lia|].
  rewrite !toBase32_S. rewrite Nat2Z.inj_succ, Z.pow_succ_r in Hn by lia.
  pose proof (Z.div_mod m 32 ltac:(lia)). pose proof (Z.div_mod n 32 ltac:(lia)).
  pose proof (Z.mod_pos_bound m 32 ltac:(lia)). pose proof (Z.mod_pos_bound n 32 ltac:(lia)).
  assert (m / 32 <= n / 32) as Hle by (apply Z.div_le_mono; lia).
  destruct (Z.eq_dec (m / 32) (n / 32)) as [E|E].
  - rewrite E. apply str_lt_app_same. cbn. left. apply letter_mono; lia.
  - apply str_lt_app; [by rewrite !toBase32_length|]. apply IH.
    + split; [apply Z.div_pos; lia | lia].
    + apply Z.div_lt_upper_bound; lia.
Qed.

Lemma randomValue_acc random a :
  Forall (fun b => 0 <= b < 256) random ->
  fold_left (fun value byte => Z.lor (Z.shiftl value 8) byte) random a =
  a * 256 ^ Z.of_nat (length random) + randomValue random.
Proof.
  unfold randomValue. intros H. revert a. induction H as [|b random Hb H IH]; intros a; [cbn; lia|].
  cbn [fold_left length]. rewrite IH, (IH (Z.lor (Z.shiftl 0 8) b)).
  rewrite lor_byte by done. change (Z.lor (Z.shiftl 0 8) b) with b.
  rewrite Nat2Z.inj_succ, Z.pow_succ_r by lia. lia.
Qed.

Lemma randomValue_bounds random :
  Forall (fun b => 0 <= b < 256) random -> 0 <= randomValue random < 256 ^ Z.of_nat (length random).
Proof.
  induction 1 as [|b random Hb H IH]; [cbn; lia|].
  unfold randomValue. cbn [fold_left length]. rewrite randomValue_acc by done.
  change (Z.lor (Z.shiftl 0 8) b) with b. rewrite Nat2Z.inj_succ, Z.pow_succ_r by lia. nia.
Qed.

Lemma randomValue_inj r r' :
  length r = length r' -> Forall (fun b => 0 <= b < 256) r -> Forall (fun b => 0 <= b < 256) r' ->
  randomValue r = randomValue r' -> r = r'.
Proof.
  revert r'. induction r as [|b r IH]; intros [|b' r'] Hl H H' He; try done.
  apply Forall_cons in H as [Hb H], H' as [Hb' H']. injection Hl as Hl.
  unfold randomValue in He. cbn [fold_left] in He. rewrite !randomValue_acc in He by done.
  change (Z.lor (Z.shiftl 0 8) b) with b in He. change (Z.lor (Z.shiftl 0 8) b') with b' in He.
  pose proof (randomValue_bounds r H). pose proof (randomValue_bounds r' H'). rewrite <- Hl in *.
  assert (b = b') as -> by nia. f_equal. apply IH; [done..|]. lia.
Qed.

Lemma generate_Ok now random :
  now <= MAX_TIMESTAMP ->
  generate now random = Ok (toBase32 now TIME_PART_LENGTH ++ toBase32 (randomValue random) RANDOM_PART_LENGTH).
Proof. intros H. unfold generate. by rewrite (proj2 (Z.ltb_ge MAX_TIMESTAMP now)) by done. Qed.

Lemma alphabet_letter d : 0 <= d < 32 -> letter d ∈ ALPHABET.
Proof. intros. apply (digits32_spec (fun d => letter d ∈ ALPHABET)); [|done]. by apply (bool_decide_unpack _); vm_compute. Qed.

Lemma toBase32_alphabet n count : Forall (fun c => c ∈ ALPHABET) (toBase32 n count).
Proof.
  revert n. induction count as [|count IH]; intros n; [constructor|]. rewrite toBase32_S.
  apply Forall_app. split; [done|]. constructor; [|constructor]. apply alphabet_letter, Z.mod_pos_bound. lia.
Qed.

(** * Properties *)

(** A ULID has 26 letters of the alphabet, its first ten read back as the time
    and the other sixteen as the 80-bit number of the random bytes, so that nothing
    of either is lost; a time of more than 48 bits is refused. *)
Theorem generate_decodes :
  forall now random, 0 <= now -> random_bytes random ->
  match generate now random with
  | Ok s => now < 2 ^ 48 /\ length s = 26%nat /\ Forall (fun c => c ∈ ALPHABET) s /\
            fromBase32 (take 10 s) = now /\ fromBase32 (drop 10 s) = randomValue random /\
            0 <= randomValue random < 2 ^ 80
  | Err e => 2 ^ 48 <= now /\ e = TError (js "ULID timestamp overflow.")
  end.
Proof.
  intros now random Hnow [Hlen Hr]. pose proof (randomValue_bounds _ Hr) as Hb. rewrite Hlen in Hb.
  change (256 ^ Z.of_nat RANDOM_BYTES_LENGTH) with (2 ^ 80) in Hb.
  change MAX_TIMESTAMP with (2 ^ 48 - 1) in *.
  destruct (Z.le_gt_cases now MAX_TIMESTAMP) as [H|H].
  - rewrite generate_Ok by done. change MAX_TIMESTAMP with (2 ^ 48 - 1) in H.
    split; [lia|]. split; [by rewrite length_app, !toBase32_length|].
    split; [apply Forall_app; split; apply toBase32_alphabet|].
    rewrite take_app_length', drop_app_length' by (by rewrite toBase32_length).
    rewrite !fromBase32_toBase32, !Z.mod_small; [lia| |].
    + change (32 ^ Z.of_nat RANDOM_PART_LENGTH) with (2 ^ 80). lia.
    + change (32 ^ Z.of_nat TIME_PART_LENGTH) with (2 ^ 50). lia.
  - unfold generate. rewrite (proj2 (Z.ltb_lt MAX_TIMESTAMP now)) by done. cbn [throw_if].
    change MAX_TIMESTAMP with (2 ^ 48 - 1) in H. split; [lia | done].
Qed.

Lemma generate_decodes_witness :
  fromBase32 (take 10 (match generate 1700000000000 [1;2;3;4;5;6;7;8;9;255] with Ok s => s | Err _ => [] end))
    = 1700000000000.
Proof.
  pose proof (generate_decodes 1700000000000 [1;2;3;4;5;6;7;8;9;255] ltac:(lia)
    ltac:(split; [reflexivity | repeat constructor; lia])) as H.
  destruct (generate 1700000000000 [1;2;3;4;5;6;7;8;9;255]) as [s|e]; [apply H | exfalso; destruct H; lia].
Defined.

(** ULIDs sort by time: of two generated at different milliseconds the later is
    the greater string, at the same millisecond the order is that of the random
    numbers, and two are equal only if both their times and their random bytes are. *)
Theorem generate_ordered :
  forall now now' random random' s s', 0 <= now -> 0 <= now' ->
  random_bytes random -> random_bytes random' ->
  generate now random = Ok s -> generate now' random' = Ok s' ->
  (now < now' \/ (now = now' /\ randomValue random < randomValue random') -> str_lt s s') /\
  (s = s' <-> now = now' /\ random = random').
Proof.
  intros now now' random random' s s' Hn Hn' Hr Hr' Hs Hs'.
  pose proof (generate_decodes now random Hn Hr) as H. pose proof (generate_decodes now' random' Hn' Hr') as H'.
  rewrite Hs in H. rewrite Hs' in H'.
  destruct H as (Ht & _ & _ & Hd & Hdr & Hrv), H' as (Ht' & _ & _ & Hd' & Hdr' & Hrv').
  rewrite generate_Ok in Hs, Hs' by (change MAX_TIMESTAMP with (2 ^ 48 - 1); lia).
  apply Ok_inj in Hs, Hs'. subst s s'. split.
  - intros [Hlt|[-> Hlt]].
    + apply str_lt_app; [by rewrite !toBase32_length|]. apply toBase32_mono; [lia|].
      change (32 ^ Z.of_nat TIME_PART_LENGTH) with (2 ^ 50). lia.
    + apply str_lt_app_same, toBase32_mono; [lia|].
      change (32 ^ Z.of_nat RANDOM_PART_LENGTH) with (2 ^ 80). lia.
  - split; [|by intros [-> ->]]. intros E. rewrite E in Hd, Hdr. split; [congruence|].
    destruct Hr as [Hl Hf], Hr' as [Hl' Hf']. apply randomValue_inj; congruence.
Qed.

Lemma generate_ordered_witness :
  str_lt (toBase32 5 10 ++ toBase32 (randomValue [0;0;0;0;0;0;0;0;0;255]) 16)
         (toBase32 6 10 ++ toBase32 (randomValue [0;0;0;0;0;0;0;0;0;1]) 16).
Proof.
  refine (proj1 (generate_ordered 5 6 [0;0;0;0;0;0;0;0;0;255] [0;0;0;0;0;0;0;0;0;1] _ _ ltac:(lia) ltac:(lia)
    ltac:(split; [reflexivity | repeat constructor; lia]) ltac:(split; [reflexivity | repeat constructor; lia])
    eq_refl eq_refl) (or_introl _)). lia.
Defined.
