(* ===== verification/Snowflake.v ===== *)
(** * Snowflake identifiers

    [Snowflake] of [packages/shared/snowflake/component/snowflake.ts]: the node id and
    the generator. The readings of [Date.now()] are a sequence [clock] the generator
    consumes from left to right; the environment, the network interfaces and
    [Math.random()] are arguments. *)

From S2P Require Import Prelude Errors.
From Stdlib Require Import Sorting.Sorted.

(** ** Constants *)

Definition EPOCH_BITS : Z := 42.
Definition NODE_ID_BITS : Z := 10.
Definition SEQUENCE_BITS : Z := 12.
Definition MAX_NODE_ID : Z := Z.shiftl 1 NODE_ID_BITS - 1.
Definition MAX_SEQUENCE : Z := Z.shiftl 1 SEQUENCE_BITS - 1.
Definition NODE_ID_SHIFT : Z := SEQUENCE_BITS.
Definition TIMESTAMP_SHIFT : Z := NODE_ID_BITS + SEQUENCE_BITS.
Definition BIG_BANG : Z := 1577813400000.
Definition MAX_TIMESTAMP : Z := 2 ^ EPOCH_BITS - 1.

(** ** 32-bit operators

    [a ^ b] is signed, [a >>> n] unsigned. *)
Definition toUint32 (a : Z) : Z := a mod 2 ^ 32.
Definition toInt32 (a : Z) : Z := let u := toUint32 a in if u <? 2 ^ 31 then u else u - 2 ^ 32.
Definition xor32 (a b : Z) : Z := toInt32 (Z.lxor a b).
Definition and32 (a b : Z) : Z := toInt32 (Z.land a b).
Definition ushr32 (a n : Z) : Z := Z.shiftr (toUint32 a) n.

(** ** The node id from the MAC addresses *)

(** One round of the inner loop of [createCrc32Table]. *)
Definition crc_round (c : Z) : Z :=
  if negb (and32 c 1 =? 0) then xor32 3988292384 (ushr32 c 1) else ushr32 c 1.
Definition createCrc32Table : list Z :=
  map (fun i => ushr32 (Nat.iter 8 crc_round (Z.of_nat i)) 0) (seq 0 256).

Definition is_hex (c : ascii) : bool :=
  is_digit c || ((97 <=? code c)%N && (code c <=? 102)%N).
Definition hex_val (c : ascii) : Z := if is_digit c then digit_val c else Z.of_N (code c) - 87.

(** The bytes of a text of an even number of hexadecimal digits. *)
Fixpoint hex_bytes (s : jsstr) : list Z :=
  match s with
  | a :: b :: s => hex_val a * 16 + hex_val b :: hex_bytes s
  | _ => []
  end.

(** [replace(/\[^a-f0-9\]/g, '')] leaves hexadecimal digits only, so [parseInt] of a
    pair is never [NaN]. *)
Definition parseMacAddress (macAddress : jsstr) : option (list Z) :=
  let hex := toLowerCase (trim macAddress) in
  let normalized := filter (fun c => Is_true (is_hex c)) hex in
  if negb (length normalized =? 12)%nat then None else Some (hex_bytes normalized).

(** The result of [networkInterfaces()]: per name its entries, or a missing value;
    an entry may lack its [mac]. *)
Definition interfaces : Set := list (option (list (option jsstr))).

(** The addresses that count. *)
Definition mac_addresses (ifs : interfaces) : list (list Z) :=
  flat_map (fun entries => match entries with
    | None => []
    | Some entries =>
        flat_map (fun mac => match mac with
          | None => []
          | Some mac =>
              if bool_decide (mac = []) || str_eqb mac (js "00:00:00:00:00:00") then []
              else match parseMacAddress mac with Some bytes => [bytes] | None => [] end
          end) entries
    end) ifs.

(** [crc = CRC32_TABLE\[(crc ^ byte) & 0xff\] ^ (crc >>> 8)] *)
Definition crc_step (table : list Z) (crc byte : Z) : Z :=
  xor32 (nth (Z.to_nat (and32 (xor32 crc byte) 255)) table 0) (ushr32 crc 8).

(** [createNodeIdFromMac]. [table] is the static field [CRC32_TABLE] at the time of
    the call, [None] while it is still [undefined]: indexing it then throws, and the
    [catch] answers with the random number. [random31] is
    [Math.floor(Math.random() * 2 ** 31)]. *)
Definition createNodeIdFromMac (table : option (list Z)) (ifs : interfaces) (random31 : Z) : Z :=
  match mac_addresses ifs with
  | [] => and32 random31 MAX_NODE_ID
  | macs =>
      match table with
      | None => and32 random31 MAX_NODE_ID
      | Some table =>
          let crc := fold_left (crc_step table) (concat macs) 4294967295 in
          and32 (ushr32 (xor32 crc 4294967295) 0) MAX_NODE_ID
      end
  end.

(** [Number.parseInt(s, 10)], [None] for [NaN]. The number is exact here; beyond
    2^53 JavaScript rounds it. *)
Definition parseInt (s : jsstr) : option Z :=
  let s := trimStart s in
  let '(neg, s) := match s with
                   | c :: s' => if bool_decide (c = "-"%char) then (true, s')
                                else if bool_decide (c = "+"%char) then (false, s') else (false, s)
                   | [] => (false, [])
                   end in
  let '(ds, _) := span_digits s in
  if bool_decide (ds = []) then None
  else Some (if neg : bool then - dec_value ds else dec_value ds).

(** [s.lastIndexOf(c)], [None] for -1. *)
Fixpoint lastIndexOf (c : ascii) (s : jsstr) : option nat :=
  match s with
  | [] => None
  | d :: s' =>
      match lastIndexOf c s' with
      | Some i => Some (S i)
      | None => if bool_decide (c = d) then Some 0%nat else None
      end
  end.

(** The node id of a configured value: the number itself, or the ordinal after its
    last dash. *)
Definition configured_node_id (configuredNodeId : jsstr) : option Z :=
  match parseInt configuredNodeId with
  | Some parsed => Some (and32 parsed MAX_NODE_ID)
  | None =>
      match lastIndexOf "-"%char configuredNodeId with
      | Some lastDash =>
          if (S lastDash <? length configuredNodeId)%nat
          then (fun ordinal => and32 ordinal MAX_NODE_ID) <$> parseInt (drop (S lastDash) configuredNodeId)
          else None
      | None => None
      end
  end.

(** [resolveNodeId]; [configured] is [SNOWFLAKE_NODE_ID], [inK8s] whether
    [KUBERNETES_SERVICE_HOST] is set. *)
Definition resolveNodeId (table : option (list Z)) (configured : option jsstr) (inK8s : bool)
    (ifs : interfaces) (random31 : Z) : result thrown Z :=
  match (match configured with
         | Some c => if bool_decide (trim c = []) then None else configured_node_id (trim c)
         | None => None
         end) with
  | Some id => Ok id
  | None =>
      if inK8s
      then Err (TError (js "SNOWFLAKE_NODE_ID must be set in Kubernetes to avoid duplicate IDs."))
      else Ok (createNodeIdFromMac table ifs random31)
  end.

(** The static initialiser of [INSTANCE]: the field before [CRC32_TABLE] in the class,
    so it runs while the table is [undefined]. The constructor masks the id again. *)
Definition INSTANCE_nodeId (configured : option jsstr) (inK8s : bool) (ifs : interfaces) (random31 : Z)
    : result thrown Z :=
  let! nodeId := resolveNodeId None configured inK8s ifs random31 in
  Ok (and32 nodeId MAX_NODE_ID).

(** ** The generator *)

Section generator.
  (** The [k]-th call of [Date.now()] gives [clock k]; [nodeId] is the instance's. *)
  Context (clock : nat -> Z) (nodeId : Z).

(** The fields of the instance and the number of clock readings so far. *)
Record Snowflake : Set := mkSnowflake { lastTimestamp : Z; sequence : Z; readings : nat }.
Definition init : Snowflake := mkSnowflake (-1) 0 0.

Definition timestamp (k : nat) : Z := clock k - BIG_BANG.

(** [waitNextMillis] from the reading [k]: the timestamp it returns and the readings
    consumed; [None] when [fuel] readings did not suffice. *)
Fixpoint waitNextMillis (fuel : nat) (k : nat) (last : Z) : option (Z * nat) :=
  match fuel with
  | O => None
  | S fuel =>
      let ts := timestamp k in
      if ts <=? last then waitNextMillis fuel (S k) last else Some (ts, S k)
  end.

Definition compose (currentTimestamp sequence : Z) : Z :=
  Z.lor (Z.lor (Z.shiftl currentTimestamp TIMESTAMP_SHIFT) (Z.shiftl nodeId NODE_ID_SHIFT))
    (Z.land sequence MAX_SEQUENCE).

(** [nextId]: what it returns or throws and the fields it leaves; [None] when a wait
    ran out of fuel. *)
Definition nextId (fuel : nat) (s : Snowflake) : option (result thrown Z * Snowflake) :=
  let k := readings s in
  match (if timestamp k <? lastTimestamp s then waitNextMillis fuel (S k) (lastTimestamp s)
         else Some (timestamp k, S k)) with
  | None => None
  | Some (currentTimestamp, k) =>
      match (if currentTimestamp =? lastTimestamp s then
               let sequence := Z.land (sequence s + 1) MAX_SEQUENCE in
               if sequence =? 0
               then match waitNextMillis fuel k (lastTimestamp s) with
                    | Some (ts, k) => Some (ts, sequence, k)
                    | None => None
                    end
               else Some (currentTimestamp, sequence, k)
             else Some (currentTimestamp, 0, k)) with
      | None => None
      | Some (currentTimestamp, sequence, k) =>
          if MAX_TIMESTAMP <? currentTimestamp
          then Some (Err (TError (js "Snowflake timestamp overflow.")), mkSnowflake (lastTimestamp s) sequence k)
          else Some (Ok (compose currentTimestamp sequence), mkSnowflake currentTimestamp sequence k)
      end
  end.

(** [n] calls in a row, up to the first that throws. *)
Fixpoint nextIds (fuel n : nat) (s : Snowflake) : option (list Z) :=
  match n with
  | O => Some []
  | S n =>
      match nextId fuel s with
      | None => None
      | Some (Err _, _) => Some []
      | Some (Ok id, s) => cons id <$> nextIds fuel n s
      end
  end.
End generator.

(** ** Reference definitions *)

(** The place of an identifier in the order: its timestamp and sequence as one number. *)
Definition valid (s : Snowflake) : Prop := 0 <= sequence s < 2 ^ 12.

(** The clock gets past every value, whatever was already read. *)
Definition clock_progress (clock : nat -> Z) : Prop := forall k t, exists k', (k <= k')%nat /\ t < clock k'.

(** CRC-32 bit by bit (the reversed polynomial 0xEDB88320): shift out a bit, xor the
    polynomial when it was set. *)
Definition crc_bit (c : Z) : Z := if Z.odd c then Z.lxor 3988292384 (Z.shiftr c 1) else Z.shiftr c 1.
Definition crc32_byte (crc byte : Z) : Z := Nat.iter 8 crc_bit (Z.lxor crc byte).
Definition crc32 (bytes : list Z) : Z := Z.lxor (fold_left crc32_byte bytes 4294967295) 4294967295.

(** * Lemmas *)

(** ** The generator *)

Lemma land_max_node a : Z.land a MAX_NODE_ID = a mod 1024.
Proof. exact (Z.land_ones a 10 ltac:(lia)). Qed.

Lemma land_max_sequence a : Z.land a MAX_SEQUENCE = a mod 4096.
Proof. exact (Z.land_ones a 12 ltac:(lia)). Qed.

Lemma compose_sum node ts seq :
  0 <= node < 1024 -> 0 <= seq < 4096 -> compose node ts seq = ts * 2 ^ 22 + node * 2 ^ 12 + seq.
Proof.
  intros Hn Hs. unfold compose. rewrite land_max_sequence, Z.mod_small by done.
  change TIMESTAMP_SHIFT with 22. change NODE_ID_SHIFT with 12.
  rewrite (Z.shiftl_mul_pow2 node) by done. rewrite lor_field by lia.
  replace (ts * 2 ^ 22 + node * 2 ^ 12) with (Z.shiftl (ts * 2 ^ 10 + node) 12).
  - rewrite lor_field by lia. rewrite Z.shiftl_mul_pow2 by done. lia.
  - rewrite Z.shiftl_mul_pow2 by done. lia.
Qed.

Lemma waitNextMillis_gt clock fuel k last ts k' :
  waitNextMillis clock fuel k last = Some (ts, k') -> last < ts.
Proof.
  revert k. induction fuel as [|fuel IH]; intros k; cbn; [done|].
  destruct (Z.leb_spec (timestamp clock k) last); [apply IH | by intros [= <- <-]].
Qed.

Lemma waitNextMillis_progress clock k last :
  clock_progress clock -> exists fuel ts k', (k < k')%nat /\
  forall fuel', (fuel <= fuel')%nat -> waitNextMillis clock fuel' k last = Some (ts, k').
Proof.
  intros Hc. destruct (Hc k (last + BIG_BANG)) as (m & Hm & Hlt).
  remember (m - k)%nat as d eqn:Hd. revert k Hm Hd. induction d as [|d IH]; intros k Hm Hd.
  - exists 1%nat, (timestamp clock k), (S k). split; [lia|]. intros [|fuel] Hf; [lia|]. cbn.
    assert (m = k) as -> by lia. destruct (Z.leb_spec (timestamp clock k) last) as [H|]; [|done].
    unfold timestamp in H. lia.
  - destruct (IH (S k)) as (fuel & ts & k' & Hk & Hw); [lia..|].
    destruct (Z.leb_spec (timestamp clock k) last) as [H|H].
    + exists (S fuel), ts, k'. split; [lia|]. intros [|f] Hf; [lia|]. cbn.
      rewrite (proj2 (Z.leb_le _ _)) by done. apply Hw. lia.
    + exists 1%nat, (timestamp clock k), (S k). split; [lia|]. intros [|f] Hf; [lia|]. cbn.
      by rewrite (proj2 (Z.leb_gt _ _)).
Qed.

(** What one call does: a valid state again, later in the order, and the identifier of
    that state; a throw only past the last timestamp. *)
Lemma nextId_spec clock node fuel s r s' :
  valid s -> nextId clock node fuel s = Some (r, s') ->
  valid s' /\
  match r with
  | Ok id => id = compose node (lastTimestamp s') (sequence s') /\ lastTimestamp s' < 2 ^ 42 /\
             (lastTimestamp s < lastTimestamp s' \/
              lastTimestamp s = lastTimestamp s' /\ sequence s < sequence s')
  | Err e => e = TError (js "Snowflake timestamp overflow.")
  end.
Proof.
  unfold valid, nextId. intros Hs.
  destruct (if timestamp clock (readings s) <? lastTimestamp s then _ else _) as [[ts k]|] eqn:H1; [|done].
  assert (lastTimestamp s <= ts) as Hts.
  { destruct (Z.ltb_spec (timestamp clock (readings s)) (lastTimestamp s)).
    - apply waitNextMillis_gt in H1. lia.
    - injection H1 as <- <-. done. }
  clear H1. rewrite land_max_sequence.
  destruct (if ts =? lastTimestamp s then _ else _) as [[[ts' seq] k']|] eqn:H2; [|done].
  assert (0 <= seq < 2 ^ 12 /\ (lastTimestamp s < ts' \/ lastTimestamp s = ts' /\ sequence s < seq)) as [Hseq Hlt].
  { destruct (Z.eqb_spec ts (lastTimestamp s)) as [->|Hne].
    - pose proof (Z.mod_pos_bound (sequence s + 1) 4096 ltac:(lia)).
      destruct (Z.eqb_spec ((sequence s + 1) mod 4096) 0) as [E|E].
      + destruct (waitNextMillis _ _ _ _) as [[t k'']|] eqn:Hw; [|done]. injection H2 as <- <- <-.
        apply waitNextMillis_gt in Hw. lia.
      + injection H2 as <- <- <-. split; [lia|]. right. split; [done|].
        destruct (Z.eq_dec (sequence s) 4095) as [E'|]; [by rewrite E' in E|]. rewrite Z.mod_small; lia.
    - injection H2 as <- <- <-. lia. }
  destruct (Z.ltb_spec MAX_TIMESTAMP ts') as [Hm|Hm]; intros [= <- <-]; cbn; [done|].
  change MAX_TIMESTAMP with (2 ^ 42 - 1) in Hm. repeat split; lia.
Qed.

Lemma compose_lt node ts seq ts' seq' :
  0 <= node < 1024 -> 0 <= seq < 2 ^ 12 -> 0 <= seq' < 2 ^ 12 ->
  ts < ts' \/ ts = ts' /\ seq < seq' -> compose node ts seq < compose node ts' seq'.
Proof. intros. rewrite !compose_sum by lia. lia. Qed.

Lemma nextIds_sorted clock node fuel n s ids :
  0 <= node < 1024 -> valid s -> nextIds clock node fuel n s = Some ids ->
  StronglySorted Z.lt ids /\
  Forall (fun id => compose node (lastTimestamp s) (sequence s) < id) ids.
Proof.
  intros Hn. revert s ids. induction n as [|n IH]; intros s ids Hs; cbn.
  { intros [= <-]. split; constructor. }
  destruct (nextId clock node fuel s) as [[[id|e] s']|] eqn:H; [| |done].
  2:{ intros [= <-]. split; constructor. }
  destruct (nextId_spec _ _ _ _ _ _ Hs H) as (Hv & -> & _ & Hlt). intros Hi.
  destruct (nextIds clock node fuel n s') as [ids'|] eqn:E; [|done]. cbn in Hi. injection Hi as <-.
  destruct (IH _ _ Hv E) as [Hsort Hall].
  assert (compose node (lastTimestamp s) (sequence s) < compose node (lastTimestamp s') (sequence s')) as Hc
    by (by apply compose_lt).
  split; constructor; try done. eapply Forall_impl; [exact Hall|]. cbn. lia.
Qed.

(** Enough fuel for one call, from which more fuel changes nothing. *)
Lemma nextId_progress clock node s :
  clock_progress clock -> exists fuel r, forall fuel', (fuel <= fuel')%nat -> nextId clock node fuel' s = Some r.
Proof.
  intros Hc. destruct (waitNextMillis_progress clock (S (readings s)) (lastTimestamp s) Hc)
    as (f1 & t1 & k1 & _ & H1).
  destruct (waitNextMillis_progress clock k1 (lastTimestamp s) Hc) as (f2 & t2 & k2 & _ & H2).
  exists (f1 + f2)%nat. unfold nextId.
  destruct (MAX_TIMESTAMP <? t1) eqn:M1, (MAX_TIMESTAMP <? t2) eqn:M2,
    (MAX_TIMESTAMP <? timestamp clock (readings s)) eqn:M3, (Z.land (sequence s + 1) MAX_SEQUENCE =? 0) eqn:Eq,
    (timestamp clock (readings s) <? lastTimestamp s) eqn:El, (t1 =? lastTimestamp s) eqn:Et,
    (timestamp clock (readings s) =? lastTimestamp s) eqn:Ec.
  all: eexists; intros f Hf; rewrite ?H1 by lia; cbv beta iota; rewrite ?Et, ?Ec; cbv beta iota; rewrite ?Eq; cbv beta iota;
    rewrite ?H1, ?H2 by lia; cbv beta iota; rewrite ?M1, ?M2, ?M3; reflexivity.
Qed.

Lemma nextIds_progress clock node n s :
  clock_progress clock -> exists fuel, forall fuel', (fuel <= fuel')%nat -> is_Some (nextIds clock node fuel' n s).
Proof.
  intros Hc. revert s. induction n as [|n IH]; intros s; [exists 0%nat; eauto|].
  destruct (nextId_progress clock node s Hc) as (f1 & [[id|e] s'] & H1).
  - destruct (IH s') as (f2 & H2). exists (f1 + f2)%nat. intros f Hf. cbn. rewrite H1 by lia.
    destruct (H2 f ltac:(lia)) as [ids ->]. by eexists.
  - exists f1. intros f Hf. cbn. rewrite H1 by lia. by eexists.
Qed.

(** ** 32-bit arithmetic *)

Lemma toUint32_toInt32 a : toUint32 (toInt32 a) = toUint32 a.
Proof.
  unfold toInt32. destruct (toUint32 a <? 2 ^ 31); unfold toUint32.
  - by rewrite Z.mod_mod by lia.
  - rewrite <- (Z.mod_add _ 1) by lia. replace (a mod 2 ^ 32 - 2 ^ 32 + 1 * 2 ^ 32) with (a mod 2 ^ 32) by lia.
    by rewrite Z.mod_mod by lia.
Qed.

Lemma toInt32_small a : 0 <= a < 2 ^ 31 -> toInt32 a = a.
Proof.
  intros Ha. unfold toInt32, toUint32. rewrite Z.mod_small by lia.
  destruct (Z.ltb_spec a (2 ^ 31)); [done | lia].
Qed.

Lemma toUint32_small a : 0 <= a < 2 ^ 32 -> toUint32 a = a.
Proof. intros. by apply Z.mod_small. Qed.

Lemma toUint32_bounds a : 0 <= toUint32 a < 2 ^ 32.
Proof. apply Z.mod_pos_bound. lia. Qed.

Lemma lxor_mod a b k : 0 <= k -> Z.lxor a b mod 2 ^ k = Z.lxor (a mod 2 ^ k) (b mod 2 ^ k).
Proof.
  intros Hk. rewrite <- !Z.land_ones by done. apply Z.bits_inj'. intros n Hn.
  rewrite Z.land_spec, !Z.lxor_spec, !Z.land_spec. destruct (Z.testbit (Z.ones k) n).
  - by rewrite !andb_true_r.
  - by rewrite !andb_false_r.
Qed.

Lemma toUint32_xor32 a b : toUint32 (xor32 a b) = Z.lxor (toUint32 a) (toUint32 b).
Proof. unfold xor32. rewrite toUint32_toInt32. apply (lxor_mod a b 32). lia. Qed.

Lemma lxor_uint32 a b : 0 <= a < 2 ^ 32 -> 0 <= b < 2 ^ 32 -> 0 <= Z.lxor a b < 2 ^ 32.
Proof.
  intros Ha Hb. rewrite <- (toUint32_small a Ha), <- (toUint32_small b Hb), <- toUint32_xor32.
  apply toUint32_bounds.
Qed.

Lemma and32_ones a n : 0 <= n < 31 -> and32 a (Z.ones n) = a mod 2 ^ n.
Proof.
  intros Hn. unfold and32. rewrite Z.land_ones by lia. apply toInt32_small.
  pose proof (Z.mod_pos_bound a (2 ^ n) ltac:(lia)). pose proof (Z.pow_lt_mono_r 2 n 31 ltac:(lia) ltac:(lia) ltac:(lia)). lia.
Qed.

Lemma and32_node a : and32 a MAX_NODE_ID = a mod 1024.
Proof. exact (and32_ones a 10 ltac:(lia)). Qed.

Lemma ushr32_div a n : 0 <= n -> ushr32 a n = toUint32 a / 2 ^ n.
Proof. intros. unfold ushr32. by apply Z.shiftr_div_pow2. Qed.

(** ** CRC-32: the table against the bits *)

Lemma crc_bit_linear a b : crc_bit (Z.lxor a (2 * b)) = Z.lxor (crc_bit a) b.
Proof.
  unfold crc_bit.
  assert (Z.shiftr (Z.lxor a (2 * b)) 1 = Z.lxor (Z.shiftr a 1) b) as ->.
  { rewrite Z.shiftr_lxor. f_equal. rewrite Z.shiftr_div_pow2 by done. rewrite Z.mul_comm. by apply Z.div_mul. }
  assert (Z.odd (Z.lxor a (2 * b)) = Z.odd a) as ->.
  { rewrite <- !Z.bit0_odd, Z.lxor_spec, !Z.bit0_odd, Z.odd_mul. by rewrite xorb_false_r. }
  destruct (Z.odd a); [by rewrite Z.lxor_assoc | done].
Qed.

Lemma crc_bits_linear n a b :
  Nat.iter n crc_bit (Z.lxor a (b * 2 ^ Z.of_nat n)) = Z.lxor (Nat.iter n crc_bit a) b.
Proof.
  revert b. induction n as [|n IH]; intros b; [cbn; by rewrite Z.mul_1_r|].
  cbn [Nat.iter nat_rect]. rewrite Nat2Z.inj_succ, Z.pow_succ_r by lia.
  replace (b * (2 * 2 ^ Z.of_nat n)) with (2 * b * 2 ^ Z.of_nat n) by lia.
  change (crc_bit (Nat.iter n crc_bit (Z.lxor a (2 * b * 2 ^ Z.of_nat n))) = Z.lxor (crc_bit (Nat.iter n crc_bit a)) b).
  by rewrite IH, crc_bit_linear.
Qed.

Lemma lxor_bytes v : 0 <= v -> Z.lxor (v mod 256) (v / 256 * 2 ^ Z.of_nat 8) = v.
Proof.
  intros Hv. rewrite <- Z.shiftl_mul_pow2 by done. change 256 with (2 ^ 8).
  rewrite <- Z.land_ones, <- Z.shiftr_div_pow2 by done. change (Z.of_nat 8) with 8.
  apply Z.bits_inj'. intros n Hn. rewrite Z.lxor_spec, Z.land_spec, Z.testbit_ones by lia.
  destruct (Z.lt_ge_cases n 8).
  - rewrite Z.shiftl_spec_low by done. rewrite (proj2 (Z.ltb_lt n 8)) by done.
    rewrite (proj2 (Z.leb_le 0 n)) by done. by rewrite andb_true_r, xorb_false_r.
  - rewrite Z.shiftl_spec, Z.shiftr_spec by lia. rewrite (proj2 (Z.ltb_ge n 8)) by done.
    rewrite andb_false_r, andb_false_r, xorb_false_l. f_equal. lia.
Qed.

(** Each entry of the table is eight rounds of the bitwise algorithm on its index. *)
Lemma table_entry i :
  0 <= i < 256 ->
  nth (Z.to_nat i) createCrc32Table 0 = Nat.iter 8 crc_bit i /\ 0 <= Nat.iter 8 crc_bit i < 2 ^ 32.
Proof.
  intros Hi.
  assert (Forall (fun i => nth i createCrc32Table 0 = Nat.iter 8 crc_bit (Z.of_nat i) /\
                           (0 <= Nat.iter 8 crc_bit (Z.of_nat i) /\ Nat.iter 8 crc_bit (Z.of_nat i) < 2 ^ 32)) (seq 0 256)) as H
    by (by apply (bool_decide_unpack _); vm_compute).
  rewrite Forall_forall in H. specialize (H (Z.to_nat i)). rewrite Z2Nat.id in H by lia.
  apply H, elem_of_seq. lia.
Qed.

Lemma crc_step_bits crc byte :
  0 <= byte < 256 ->
  toUint32 (crc_step createCrc32Table crc byte) = crc32_byte (toUint32 crc) byte.
Proof.
  intros Hb. unfold crc_step, crc32_byte. rewrite toUint32_xor32.
  set (v := Z.lxor (toUint32 crc) byte). pose proof (toUint32_bounds crc) as Hu.
  assert (0 <= v < 2 ^ 32) as Hv by (apply lxor_uint32; lia).
  assert (and32 (xor32 crc byte) 255 = v mod 256) as ->.
  { assert (v = toUint32 (xor32 crc byte)) as ->
      by (by rewrite toUint32_xor32, (toUint32_small byte) by lia).
    change 255 with (Z.ones 8). rewrite and32_ones by lia. unfold toUint32.
    change (2 ^ 32) with (2 ^ 8 * 2 ^ 24). change 256 with (2 ^ 8). rewrite Z.rem_mul_r by lia.
    rewrite (Z.mul_comm (2 ^ 8)), Z.mod_add by lia. by rewrite Z.mod_mod by lia. }
  destruct (table_entry (v mod 256)) as [-> Ht]; [apply Z.mod_pos_bound; lia|].
  rewrite (toUint32_small _ Ht), ushr32_div by lia.
  assert (toUint32 crc / 2 ^ 8 = v / 256) as Hdiv.
  { unfold v. change 256 with (2 ^ 8). rewrite <- !Z.shiftr_div_pow2, Z.shiftr_lxor by lia.
    rewrite (Z.shiftr_div_pow2 byte), Z.div_small by lia. by rewrite Z.lxor_0_r. }
  rewrite Hdiv, toUint32_small.
  2:{ split; [apply Z.div_pos; lia | apply Z.div_lt_upper_bound; lia]. }
  rewrite <- (lxor_bytes v) at 3 by lia. by rewrite crc_bits_linear.
Qed.

Lemma crc_fold_bits bytes crc :
  Forall (fun b => 0 <= b < 256) bytes ->
  toUint32 (fold_left (crc_step createCrc32Table) bytes crc) = fold_left crc32_byte bytes (toUint32 crc).
Proof.
  intros H. revert crc. induction H as [|b bytes Hb H IH]; intros crc; [done|].
  cbn [fold_left]. by rewrite IH, crc_step_bits.
Qed.

Lemma hex_val_bounds c : is_hex c = true -> 0 <= hex_val c < 16.
Proof.
  unfold is_hex, hex_val. destruct (is_digit c) eqn:Hd.
  - intros _. apply is_digit_val in Hd. lia.
  - cbn. rewrite andb_true_iff, !N.leb_le. lia.
Qed.

Lemma hex_bytes_bounds n s :
  (length s <= n)%nat -> Forall (fun c => is_hex c = true) s -> Forall (fun b => 0 <= b < 256) (hex_bytes s).
Proof.
  revert s. induction n as [|n IH]; intros [|a [|b s]] Hl H; cbn in *; try constructor; try lia.
  all: apply Forall_cons in H as [Ha H]; apply Forall_cons in H as [Hb H].
  - apply hex_val_bounds in Ha, Hb. lia.
  - apply IH; [lia | done].
Qed.

Lemma mac_bytes_bounds ifs : Forall (fun b => 0 <= b < 256) (concat (mac_addresses ifs)).
Proof.
  apply Forall_forall. intros x Hx. apply list_elem_of_In, in_concat in Hx as (bytes & Hin & Hx).
  unfold mac_addresses in Hin. apply in_flat_map in Hin as ([entries|] & _ & Hin); [|done].
  apply in_flat_map in Hin as ([mac|] & _ & Hin); [|done].
  destruct (bool_decide (mac = []) || _); [done|]. unfold parseMacAddress in Hin.
  destruct (negb _); [done|]. destruct Hin as [<-|[]].
  assert (Forall (fun b => 0 <= b < 256) (hex_bytes (filter (fun c => Is_true (is_hex c)) (toLowerCase (trim mac))))) as H.
  { eapply hex_bytes_bounds; [done|]. apply Forall_forall. intros c Hc.
    apply list_elem_of_filter in Hc as [Hc _]. by apply Is_true_eq_true. }
  rewrite Forall_forall in H. apply H. by apply list_elem_of_In.
Qed.

Lemma createNodeIdFromMac_crc ifs random31 :
  createNodeIdFromMac (Some createCrc32Table) ifs random31 =
  if bool_decide (mac_addresses ifs = []) then random31 mod 1024
  else crc32 (concat (mac_addresses ifs)) mod 1024.
Proof.
  unfold createNodeIdFromMac. pose proof (mac_bytes_bounds ifs) as Hb.
  destruct (mac_addresses ifs) as [|m macs]; [apply and32_node|].
  rewrite bool_decide_false by done. rewrite and32_node. f_equal.
  rewrite ushr32_div, Z.div_1_r, toUint32_xor32, crc_fold_bits by (done || lia). done.
Qed.

Lemma createNodeIdFromMac_undefined ifs random31 :
  createNodeIdFromMac None ifs random31 = random31 mod 1024.
Proof. unfold createNodeIdFromMac. destruct (mac_addresses ifs); apply and32_node. Qed.

Lemma configured_node_id_range c id : configured_node_id c = Some id -> 0 <= id < 1024.
Proof.
  unfold configured_node_id. intros H.
  assert (forall a, 0 <= and32 a MAX_NODE_ID < 1024) as Hr.
  { intros a. rewrite and32_node. apply Z.mod_pos_bound. lia. }
  destruct (parseInt c); [by simplify_eq|]. destruct (lastIndexOf _ _) as [d|]; [|done].
  destruct (_ <? _)%nat; [|done]. by apply fmap_Some in H as (o & _ & ->).
Qed.

(** * Properties *)

(** Identifiers strictly increase: whatever the clock does (stand still, run
    backwards), the identifiers of successive calls of a generator form a strictly
    increasing sequence; and if the clock eventually passes every value, no call
    waits for ever: the sequence is defined from some fuel on. *)
Theorem nextIds_increasing :
  forall clock node n, 0 <= node < 1024 ->
  (forall fuel ids, nextIds clock node fuel n init = Some ids -> StronglySorted Z.lt ids) /\
  (clock_progress clock ->
     exists fuel, forall fuel', (fuel <= fuel')%nat -> is_Some (nextIds clock node fuel' n init)).
Proof.
  intros clock node n Hn. split.
  - intros fuel ids H. apply (nextIds_sorted clock node fuel n init ids Hn); [|done]. unfold valid; cbn; lia.
  - intros Hc. by apply nextIds_progress.
Qed.

(** A clock that jumps back by a second at its third reading. *)
Definition jumping_clock (k : nat) : Z :=
  BIG_BANG + 5000 + (if (k <? 2)%nat then 1000 else 0) + Z.of_nat k.

Lemma nextIds_increasing_witness :
  StronglySorted Z.lt (default [] (nextIds jumping_clock 7 2000 5 init)) /\
  length (default [] (nextIds jumping_clock 7 2000 5 init)) = 5%nat /\
  exists fuel, forall fuel', (fuel <= fuel')%nat -> is_Some (nextIds jumping_clock 7 fuel' 5 init).
Proof.
  destruct (nextIds_increasing jumping_clock 7 5 ltac:(lia)) as [H1 H2]. split; [|split].
  - apply (H1 2000%nat). vm_compute. reflexivity.
  - vm_compute. reflexivity.
  - apply H2. intros k t. exists (k + Z.to_nat t + 1)%nat. split; [lia|]. unfold jumping_clock, BIG_BANG.
    destruct (_ <? 2)%nat; lia.
Defined.

(** The layout of an identifier: 42 bits of milliseconds since the epoch, 10 of
    node and 12 of sequence, each read back from the number; so generators of
    different nodes never give the same identifier, and with a clock not before the
    epoch it is a 64-bit unsigned number. *)
Theorem nextId_layout :
  forall clock node fuel s id s', 0 <= node < 1024 -> valid s ->
  nextId clock node fuel s = Some (Ok id, s') ->
  id / 2 ^ 22 = lastTimestamp s' /\ (id / 2 ^ 12) mod 1024 = node /\ id mod 4096 = sequence s' /\
  (0 <= lastTimestamp s' -> 0 <= id < 2 ^ 64) /\
  (forall clock2 node2 fuel2 t id2 t', 0 <= node2 < 1024 -> valid t ->
     nextId clock2 node2 fuel2 t = Some (Ok id2, t') -> node <> node2 -> id <> id2).
Proof.
  intros clock node fuel s id s' Hn Hs H.
  assert (forall clock node fuel s id s', 0 <= node < 1024 -> valid s ->
    nextId clock node fuel s = Some (Ok id, s') ->
    id = lastTimestamp s' * 2 ^ 22 + node * 2 ^ 12 + sequence s' /\ 0 <= sequence s' < 4096 /\ lastTimestamp s' < 2 ^ 42)
    as Hsum.
  { clear. intros clock node fuel s id s' Hn Hs H. destruct (nextId_spec _ _ _ _ _ _ Hs H) as (Hv & -> & Hm & _).
    unfold valid in Hv. rewrite compose_sum by lia. split; [done | lia]. }
  destruct (Hsum _ _ _ _ _ _ Hn Hs H) as (-> & Hq & Hm).
  assert ((lastTimestamp s' * 2 ^ 22 + node * 2 ^ 12 + sequence s') / 2 ^ 12 = lastTimestamp s' * 1024 + node) as Hd.
  { symmetry. apply (Z.div_unique _ _ _ (sequence s')); lia. }
  split; [|split; [|split; [|split]]].
  - symmetry. apply (Z.div_unique _ _ _ (node * 2 ^ 12 + sequence s')); lia.
  - rewrite Hd. symmetry. apply (Z.mod_unique _ _ (lastTimestamp s')); lia.
  - symmetry. apply (Z.mod_unique _ _ (lastTimestamp s' * 1024 + node)); lia.
  - lia.
  - intros clock2 node2 fuel2 t id2 t' Hn2 Ht H2 Hne He.
    destruct (Hsum _ _ _ _ _ _ Hn2 Ht H2) as (-> & Hq2 & Hm2). lia.
Qed.

Lemma nextId_layout_witness :
  match nextId jumping_clock 7 3 init with
  | Some (Ok id, s') => (id / 2 ^ 12) mod 1024 = 7
  | _ => False
  end.
Proof.
  destruct (nextId jumping_clock 7 3 init) as [[[id|e] s']|] eqn:H; [|exfalso; vm_compute in H; discriminate..].
  apply (nextId_layout jumping_clock 7 3 init id s' ltac:(lia) ltac:(unfold valid; cbn; lia) H).
Defined.

(** The node id of the process: always within 10 bits; a numeric
    [SNOWFLAKE_NODE_ID], or the ordinal that ends a pod's name, decides it alone;
    without one the process does not start in Kubernetes. Outside, the fallback of the
    initialiser never uses the network interfaces: it is the random number even where
    there are MAC addresses, because the CRC table is initialised after the instance.
    With the table in place the same function would give the CRC-32 of the addresses. *)
Theorem INSTANCE_nodeId_fallback :
  forall configured inK8s ifs random31,
  match INSTANCE_nodeId configured inK8s ifs random31 with
  | Ok id =>
      0 <= id < 1024 /\
      ((exists c, configured = Some c /\ configured_node_id (trim c) = Some id) \/
       (inK8s = false /\ id = random31 mod 1024 /\
        (mac_addresses ifs <> [] ->
         resolveNodeId (Some createCrc32Table) configured inK8s ifs random31 =
           Ok (crc32 (concat (mac_addresses ifs)) mod 1024))))
  | Err e =>
      inK8s = true /\
      e = TError (js "SNOWFLAKE_NODE_ID must be set in Kubernetes to avoid duplicate IDs.")
  end.
Proof.
  intros configured inK8s ifs random31. unfold INSTANCE_nodeId, resolveNodeId.
  destruct (match configured with Some c => _ | None => None end) as [id|] eqn:Hc.
  - destruct configured as [c|]; [|done]. destruct (bool_decide (trim c = [])); [done|].
    pose proof (configured_node_id_range _ _ Hc). rewrite and32_node, Z.mod_small by lia. eauto.
  - destruct inK8s; [done|]. rewrite createNodeIdFromMac_undefined, and32_node, Z.mod_mod by lia.
    split; [apply Z.mod_pos_bound; lia|]. right. split; [done|]. split; [done|]. intros Hm.
    by rewrite createNodeIdFromMac_crc, bool_decide_false.
Qed.

(** The standard check value of CRC-32, the digest of ["123456789"]. *)
Example crc32_check : crc32 [49;50;51;52;53;54;55;56;57] = 3421780262.
Proof. reflexivity. Qed.
