(* ===== verification/Subjects.v ===== *)
(** * Response subjects

    [FspiopPubSubSubjects] of
    [packages/shared/fspiop/component/fspiop-pub-sub-subjects.ts]: the subject strings
    that correlate a callback of the hub with the request that waits for it. A
    [PartyIdType] is its string value. *)

From S2P Require Import Prelude Errors.

(** ** Definitions *)

Definition PREFIX : jsstr := js "pivotal.fspiop.response.".
Definition colon : ascii := ":"%char.

(** [a:b] *)
Definition seg (a b : jsstr) : jsstr := a ++ colon :: b.

Module Parties.
Definition ANY_PAYEE : jsstr := js "_any_".

(** [subId != null && subId.length > 0 ? `${base}:${subId}` : base] *)
Definition with_subId (base : jsstr) (subId : option jsstr) : jsstr :=
  match subId with
  | Some s => if (0 <? length s)%nat then seg base s else base
  | None => base
  end.

Definition forSuccess (payer : jsstr) (payee : option jsstr) (partyIdType partyId : jsstr)
    (subId : option jsstr) : jsstr :=
  let base := PREFIX ++ js "parties:" ++ seg payer (seg (default ANY_PAYEE payee) (seg partyIdType partyId)) in
  with_subId base subId.

Definition forError (payer : jsstr) (payeeOrHub : option jsstr) (partyIdType partyId : jsstr)
    (subId : option jsstr) : jsstr :=
  let base := PREFIX ++ js "parties-error:" ++ seg payer (seg (default ANY_PAYEE payeeOrHub) (seg partyIdType partyId)) in
  with_subId base subId.

Definition toAnyPayeeSubject (subject : jsstr) : option jsstr :=
  let successPrefix := PREFIX ++ js "parties:" in
  let errorPrefix := PREFIX ++ js "parties-error:" in
  let prefix := if startsWith subject successPrefix then Some successPrefix
                else if startsWith subject errorPrefix then Some errorPrefix
                else None in
  match prefix with
  | None => None
  | Some prefix =>
      let tokens := split colon (drop (length prefix) subject) in
      if (length tokens <? 4)%nat then None
      else Some (prefix ++ join [colon] (<[1%nat := ANY_PAYEE]> tokens))
  end.
End Parties.

Module Quotes.
Definition forSuccess (payer quoteId : jsstr) : jsstr := PREFIX ++ js "quotes:" ++ seg payer quoteId.
Definition forError (payer quoteId : jsstr) : jsstr := PREFIX ++ js "quotes-error:" ++ seg payer quoteId.
End Quotes.

Module Transfers.
Definition forSuccess (payer transferId : jsstr) : jsstr := PREFIX ++ js "transfers:" ++ seg payer transferId.
Definition forError (payer transferId : jsstr) : jsstr := PREFIX ++ js "transfers-error:" ++ seg payer transferId.
End Transfers.

(** * Lemmas *)

Definition token (s : jsstr) : Prop := colon ∉ s.

Lemma seg_join a b : seg a b = join [colon] [a; b].
Proof. reflexivity. Qed.

(** Joining the pieces of [b] after [a]. *)
Lemma split_seg a b : token a -> split colon (seg a b) = a :: split colon b.
Proof. apply split_app. Qed.

Lemma seg_inj a b a' b' : token a -> token a' -> seg a b = seg a' b' -> a = a' /\ b = b'.
Proof.
  intros Ha Ha' H. pose proof (f_equal (split colon) H) as Hs. rewrite !split_seg in Hs by done.
  injection Hs as -> Hs. split; [done|]. apply (f_equal (join [colon])) in Hs. by rewrite !join_split in Hs.
Qed.

Lemma startsWith_false p s q r : length p = length q -> p <> q -> startsWith (p ++ s) (q ++ r) = false.
Proof.
  intros Hl Hne. unfold startsWith. apply bool_decide_eq_false. intros [t Ht]. rewrite <- app_assoc in Ht.
  by apply app_inj_1 in Ht as [? _].
Qed.

(** The subject is the prefix and the four or five segments. *)
Definition tail_of (payer payee partyIdType partyId : jsstr) (subId : option jsstr) : jsstr :=
  seg payer (seg payee (seg partyIdType (Parties.with_subId partyId subId))).

Lemma with_subId_app p s o : Parties.with_subId (p ++ s) o = p ++ Parties.with_subId s o.
Proof. unfold Parties.with_subId. destruct o as [o|]; [|done]. destruct (0 <? _)%nat; [|done]. unfold seg. by rewrite app_assoc. Qed.

Lemma with_subId_seg a s o : Parties.with_subId (seg a s) o = seg a (Parties.with_subId s o).
Proof. unfold seg. rewrite with_subId_app. f_equal. exact (with_subId_app [colon] s o). Qed.

Lemma forSuccess_tail payer payee t id sub :
  Parties.forSuccess payer payee t id sub =
  (PREFIX ++ js "parties:") ++ tail_of payer (default Parties.ANY_PAYEE payee) t id sub.
Proof. unfold Parties.forSuccess, tail_of. rewrite !with_subId_app, !with_subId_seg. by rewrite <- app_assoc. Qed.

Lemma forError_tail payer payee t id sub :
  Parties.forError payer payee t id sub =
  (PREFIX ++ js "parties-error:") ++ tail_of payer (default Parties.ANY_PAYEE payee) t id sub.
Proof. unfold Parties.forError, tail_of. rewrite !with_subId_app, !with_subId_seg. by rewrite <- app_assoc. Qed.

Lemma split_length c s : (0 < length (split c s))%nat.
Proof. destruct (split_cons c s) as (p & ps & ->). cbn. lia. Qed.

(** The rewriting of the second token of a tail. *)
Lemma tail_any payer payee t id sub :
  token payer -> token payee -> token t ->
  let tokens := split colon (tail_of payer payee t id sub) in
  (length tokens <? 4)%nat = false /\
  join [colon] (<[1%nat := Parties.ANY_PAYEE]> tokens) = tail_of payer Parties.ANY_PAYEE t id sub.
Proof.
  intros Hp Hq Ht. unfold tail_of. rewrite !split_seg by done. set (r := Parties.with_subId id sub).
  pose proof (split_length colon r). split; [apply Nat.ltb_ge; cbn [length]; lia|].
  cbn [insert list_insert]. destruct (split_cons colon r) as (x & xs & Hx). rewrite Hx.
  change (join [colon] (payer :: Parties.ANY_PAYEE :: t :: x :: xs))
    with (seg payer (seg Parties.ANY_PAYEE (seg t (join [colon] (x :: xs))))).
  by rewrite <- Hx, join_split.
Qed.

Lemma parties_prefixes : startsWith (PREFIX ++ js "parties-error:") (PREFIX ++ js "parties:") = false.
Proof. reflexivity. Qed.

Lemma startsWith_longer p q s : (length q <= length p)%nat -> startsWith (p ++ s) q = startsWith p q.
Proof.
  intros Hl. unfold startsWith. apply bool_decide_ext. split.
  - intros [t Ht]. exists (drop (length q) p). apply (f_equal (take (length p))) in Ht.
    rewrite take_app_length, take_app_ge in Ht by done. rewrite Ht at 1 2. f_equal.
    rewrite drop_app_length. done.
  - intros [t ->]. exists (t ++ s). by rewrite app_assoc.
Qed.

(** * Properties *)

(** The subject of a request that does not know its payee is what
    [toAnyPayeeSubject] makes of the callback's concrete subject, for successes and
    errors alike, whatever the party id and sub id contain, as long as the
    participants' ids and the id type hold no colon; subjects of quotes and transfers
    have no such form. *)
Theorem toAnyPayeeSubject_correlates :
  forall payer payee partyIdType partyId subId, token payer -> token payee -> token partyIdType ->
  Parties.toAnyPayeeSubject (Parties.forSuccess payer (Some payee) partyIdType partyId subId) =
    Some (Parties.forSuccess payer None partyIdType partyId subId) /\
  Parties.toAnyPayeeSubject (Parties.forError payer (Some payee) partyIdType partyId subId) =
    Some (Parties.forError payer None partyIdType partyId subId) /\
  (forall id, Forall (fun s => Parties.toAnyPayeeSubject s = None)
     [Quotes.forSuccess payer id; Quotes.forError payer id; Transfers.forSuccess payer id; Transfers.forError payer id]).
Proof.
  intros payer payee t id sub Hp Hq Ht.
  destruct (tail_any payer payee t id sub Hp Hq Ht) as [Hl Hj]. split; [|split].
  - rewrite !forSuccess_tail. unfold Parties.toAnyPayeeSubject.
    rewrite startsWith_app, drop_app_length. cbn [from_option Datatypes.id]. rewrite Hl. by rewrite Hj.
  - rewrite !forError_tail. unfold Parties.toAnyPayeeSubject.
    rewrite startsWith_longer by (cbn; lia). rewrite parties_prefixes, startsWith_app, drop_app_length.
    cbn [from_option Datatypes.id]. rewrite Hl. by rewrite Hj.
  - intros q. repeat constructor.
Qed.

Lemma toAnyPayeeSubject_correlates_witness :
  Parties.toAnyPayeeSubject (js "pivotal.fspiop.response.parties:DFSP-A:DFSP-B:MSISDN:0612345678") =
  Some (js "pivotal.fspiop.response.parties:DFSP-A:_any_:MSISDN:0612345678").
Proof.
  exact (proj1 (toAnyPayeeSubject_correlates (js "DFSP-A") (js "DFSP-B") (js "MSISDN") (js "0612345678") None
    ltac:(by apply (bool_decide_unpack _)) ltac:(by apply (bool_decide_unpack _)) ltac:(by apply (bool_decide_unpack _)))).
Defined.

(** Requests do not share subjects: a party subject determines its payer, its
    payee (or the placeholder), its id type and, for ids without colons and non-empty
    sub ids, its party; a quote or transfer subject determines its payer and its id;
    and a success subject is never an error subject. *)
Theorem subjects_injective :
  forall payer payee t id sub payer' payee' t' id' sub',
  Forall token [payer; default [] payee; t; id; payer'; default [] payee'; t'; id'] ->
  (forall s, sub = Some s \/ sub' = Some s -> s <> []) ->
  (Parties.forSuccess payer payee t id sub = Parties.forSuccess payer' payee' t' id' sub' ->
     payer = payer' /\ default Parties.ANY_PAYEE payee = default Parties.ANY_PAYEE payee' /\ t = t' /\ id = id' /\ sub = sub') /\
  (Parties.forSuccess payer payee t id sub <> Parties.forError payer' payee' t' id' sub') /\
  (forall i i', Quotes.forSuccess payer i = Quotes.forSuccess payer' i' -> payer = payer' /\ i = i') /\
  (forall i i', Transfers.forSuccess payer i = Transfers.forSuccess payer' i' -> payer = payer' /\ i = i').
Proof.
  intros payer payee t id sub payer' payee' t' id' sub' H Hsub.
  repeat (apply Forall_cons in H as [? H]). clear H.
  assert (forall p, token (default [] p) -> token (default Parties.ANY_PAYEE p)) as Hany.
  { intros [p|]; cbn; [done|]. intros _. by apply (bool_decide_unpack _). }
  split; [|split; [|split]].
  - rewrite !forSuccess_tail. intros E%app_inv_head. unfold tail_of in E.
    apply seg_inj in E as [-> E]; [|done..]. apply seg_inj in E as [-> E]; [|by apply Hany..].
    apply seg_inj in E as [-> E]; [|done..]. do 3 (split; [done|]).
    assert (forall i i' s, token i -> token i' -> i <> seg i' s) as Hno.
    { intros i i' s Hi Hi' ->. apply Hi. unfold seg. apply elem_of_app. right. by left. }
    assert (forall i o, (forall s, o = Some s -> s <> []) -> Parties.with_subId i o = match o with Some s => seg i s | None => i end) as Hw.
    { intros i [[|c s]|] Ho; [by specialize (Ho [] eq_refl) | done | done]. }
    rewrite !Hw in E by eauto. destruct sub as [s|], sub' as [s'|].
    + apply seg_inj in E as [-> ->]; done.
    + symmetry in E. by apply Hno in E.
    + by apply Hno in E.
    + done.
  - rewrite forSuccess_tail, forError_tail. intros E. rewrite <- !app_assoc in E. apply app_inv_head in E.
    apply (f_equal (fun s => nth 7 s colon)) in E. discriminate.
  - intros i i' E. apply app_inv_head, app_inv_head in E. by apply seg_inj in E.
  - intros i i' E. apply app_inv_head, app_inv_head in E. by apply seg_inj in E.
Qed.

Lemma subjects_injective_witness :
  Parties.forSuccess (js "A") (Some (js "B")) (js "MSISDN") (js "1") None <>
  Parties.forError (js "A") (Some (js "B")) (js "MSISDN") (js "1") None.
Proof.
  apply (subjects_injective (js "A") (Some (js "B")) (js "MSISDN") (js "1") None
    (js "A") (Some (js "B")) (js "MSISDN") (js "1") None).
  - repeat (apply Forall_cons; split; [by apply (bool_decide_unpack _)|]). constructor.
  - by intros s [|].
Defined.

(** A party id that holds a colon is the exception the injectivity leaves: it names
    the same subject as a party with a sub id. *)
Example colon_collision :
  Parties.forSuccess (js "A") (Some (js "B")) (js "ALIAS") (js "x:y") None =
  Parties.forSuccess (js "A") (Some (js "B")) (js "ALIAS") (js "x") (Some (js "y")).
Proof. reflexivity. Qed.
