(* ===== verification/Wire.v ===== *)
(** * URLs, headers and the signed resource path

    [packages/shared/fspiop/component]: [FspiopUrls] (fspiop-urls.ts), [FspiopUri]
    (fspiop-uri.ts), [FspiopHeaders] (fspiop-headers.ts), [FspiopProtectedHeader]
    (fspiop-protected-header.ts) and [FspiopVerifyMode] (fspiop-verify-mode.ts). *)

From S2P Require Import Prelude Errors.

(** ** FspiopUrls *)

Definition slash : ascii := "/"%char.

Definition withBaseUrl (baseUrl uri : jsstr) : jsstr :=
  baseUrl ++ (if endsWith baseUrl [slash] then [] else [slash]) ++ uri.

Definition newUrl (baseUrl existingUri : jsstr) : jsstr :=
  let requireSeparator := negb (endsWith baseUrl [slash]) in
  let newUri := if startsWith existingUri [slash] then drop 1 existingUri else existingUri in
  if requireSeparator then baseUrl ++ [slash] ++ newUri else baseUrl ++ newUri.

(** [a/b] *)
Definition path2 (a b : jsstr) : jsstr := a ++ slash :: b.

Module PartiesUrls.
Definition getParties (baseUrl partyIdType partyId : jsstr) (subId : option jsstr) : jsstr :=
  match subId with
  | None => withBaseUrl baseUrl (path2 (js "parties") (path2 partyIdType partyId))
  | Some subId => withBaseUrl baseUrl (path2 (js "parties") (path2 partyIdType (path2 partyId subId)))
  end.
Definition putParties (baseUrl partyIdType partyId : jsstr) (subId : option jsstr) : jsstr :=
  match subId with
  | None => withBaseUrl baseUrl (path2 (js "parties") (path2 partyIdType partyId))
  | Some subId => withBaseUrl baseUrl (path2 (js "parties") (path2 partyIdType (path2 partyId subId)))
  end.
Definition putPartiesError (baseUrl partyIdType partyId : jsstr) (subId : option jsstr) : jsstr :=
  let resolvedSubId := match subId with Some s => slash :: s | None => [] end in
  withBaseUrl baseUrl (path2 (js "parties") (path2 partyIdType (partyId ++ resolvedSubId ++ js "/error"))).
End PartiesUrls.

Module QuotesUrls.
Definition getQuotes (baseUrl quoteId : jsstr) : jsstr := withBaseUrl baseUrl (path2 (js "quotes") quoteId).
Definition postQuotes (baseUrl : jsstr) : jsstr := withBaseUrl baseUrl (js "quotes").
Definition putQuotes (baseUrl quoteId : jsstr) : jsstr := withBaseUrl baseUrl (path2 (js "quotes") quoteId).
Definition putQuotesError (baseUrl quoteId : jsstr) : jsstr :=
  withBaseUrl baseUrl (path2 (js "quotes") (quoteId ++ js "/error")).
End QuotesUrls.

Module TransfersUrls.
Definition getTransfers (baseUrl transferId : jsstr) : jsstr := withBaseUrl baseUrl (path2 (js "transfers") transferId).
Definition patchTransfers (baseUrl transferId : jsstr) : jsstr := withBaseUrl baseUrl (path2 (js "transfers") transferId).
Definition postTransfers (baseUrl : jsstr) : jsstr := withBaseUrl baseUrl (js "transfers").
Definition putTransfers (baseUrl transferId : jsstr) : jsstr := withBaseUrl baseUrl (path2 (js "transfers") transferId).
Definition putTransfersError (baseUrl transferId : jsstr) : jsstr :=
  withBaseUrl baseUrl (path2 (js "transfers") (transferId ++ js "/error")).
End TransfersUrls.

(** ** FspiopUri *)

Definition RESOURCES : list jsstr :=
  [js "participants"; js "parties"; js "quotes"; js "transfers"; js "transactionRequests"; js "authorizations";
   js "bulkQuotes"; js "bulkTransfers"; js "fxQuotes"; js "fxTransfers"; js "services"; js "transactions"].

(** [PATTERN] at one position: [/(?:participants|...)(?:/|$)]. *)
Definition pattern_at (s : jsstr) : bool :=
  match s with
  | c :: s =>
      bool_decide (c = slash) &&
      existsb (fun r => startsWith s r &&
                 match drop (length r) s with [] => true | d :: _ => bool_decide (d = slash) end) RESOURCES
  | [] => false
  end.

(** [PATTERN.exec(path)]: the leftmost position, and [substring] from it. *)
Fixpoint exec_from (s : jsstr) : option jsstr :=
  if pattern_at s then Some s
  else match s with
       | [] => None
       | _ :: s => exec_from s
       end.

(** [s.indexOf('://')], as what precedes and what follows it. *)
Fixpoint cut_scheme (s : jsstr) : option (jsstr * jsstr) :=
  if startsWith s (js "://") then Some ([], drop 3 s)
  else match s with
       | [] => None
       | c :: s => (fun '(p, t) => (c :: p, t)) <$> cut_scheme s
       end.

Definition toPath (requestUrl : jsstr) : jsstr :=
  let withoutFragment := default [] (head (split "#"%char requestUrl)) in
  let withoutQuery := default [] (head (split "?"%char withoutFragment)) in
  match cut_scheme withoutQuery with
  | None => if startsWith withoutQuery [slash] then withoutQuery else slash :: withoutQuery
  | Some (_, afterScheme) =>
      match indexOf slash afterScheme with
      | None => [slash]
      | Some pathStart => drop pathStart afterScheme
      end
  end.

(** [extract]; the argument is never null. *)
Definition extract (requestUrl : jsstr) : result thrown jsstr :=
  if bool_decide (trim requestUrl = [])
  then Err (TError (js "Cannot derive FSPIOP-URI: the request URL is empty."))
  else
    let path := toPath requestUrl in
    match exec_from path with
    | None =>
        Err (TError (js "Cannot derive FSPIOP-URI from '" ++ requestUrl ++
          js "': the path contains no known FSPIOP resource name. Known resources: " ++
          join (js ", ") RESOURCES ++
          js ". Add the resource to FspiopUri.RESOURCES if this path is legitimate."))
    | Some uri => Ok uri
    end.

(** ** FspiopHeaders

    A headers object is its entries in insertion order. [now] is what
    [FspiopDates.forRequestHeader()] prints. *)

Definition FspiopHeadersMap : Set := list (jsstr * jsstr).

Module Names.
Definition ACCEPT : jsstr := js "accept".
Definition TRACE_PARENT : jsstr := js "traceparent".
Definition CONTENT_TYPE : jsstr := js "content-type".
Definition DATE : jsstr := js "date".
Definition FSPIOP_SOURCE : jsstr := js "fspiop-source".
Definition FSPIOP_DESTINATION : jsstr := js "fspiop-destination".
Definition FSPIOP_HTTP_METHOD : jsstr := js "fspiop-http-method".
Definition FSPIOP_SIGNATURE : jsstr := js "fspiop-signature".
Definition FSPIOP_ENCRYPTION : jsstr := js "fspiop-encryption".
Definition FSPIOP_URI : jsstr := js "fspiop-uri".
End Names.

Definition opt_header (name : jsstr) (value : option jsstr) : FspiopHeadersMap :=
  match value with Some v => [(name, v)] | None => [] end.

Definition createHeaders (now : jsstr) (traceparent accept : option jsstr) (contentType source : jsstr)
    (destination : option jsstr) : FspiopHeadersMap :=
  opt_header Names.ACCEPT accept ++ opt_header Names.TRACE_PARENT traceparent ++
  [(Names.CONTENT_TYPE, contentType); (Names.DATE, now); (Names.FSPIOP_SOURCE, source)] ++
  opt_header Names.FSPIOP_DESTINATION destination.

(** The classes [Parties], [Quotes] and [Transfers] of [FspiopHeaders.Values]: they
    differ in their media type and in whether a result carries [accept]. *)
Inductive resource : Set := RParties | RQuotes | RTransfers.

Definition media_type (r : resource) : jsstr :=
  match r with
  | RParties => js "application/vnd.interoperability.parties+json;version=2.0"
  | RQuotes => js "application/vnd.interoperability.quotes+json;version=2.0"
  | RTransfers => js "application/vnd.interoperability.transfers+json;version=2.0"
  end.

(** [Values.<R>.forRequest]; only [Parties] admits an absent payee. *)
Definition forRequest (r : resource) (now : jsstr) (traceparent : option jsstr) (payer : jsstr)
    (payee : option jsstr) : FspiopHeadersMap :=
  createHeaders now traceparent (Some (media_type r)) (media_type r) payer payee.

(** [Values.<R>.forResult]: the payee answers the payer. *)
Definition forResult (r : resource) (now : jsstr) (traceparent : option jsstr) (payer payee : jsstr)
    : FspiopHeadersMap :=
  createHeaders now traceparent (match r with RParties => Some (media_type r) | _ => None end)
    (media_type r) payee (Some payer).

(** [Values.Participants] *)
Module Participants.
Definition ACCEPT : jsstr := js "application/vnd.interoperability.participants+json;version=2.0".
Definition CONTENT_TYPE : jsstr := js "application/vnd.interoperability.participants+json;version=2.0".
Definition forRequest (now : jsstr) (traceparent : option jsstr) (source : jsstr) (destination : option jsstr) :=
  createHeaders now traceparent (Some ACCEPT) CONTENT_TYPE source destination.
Definition forResult (now : jsstr) (traceparent : option jsstr) (source : jsstr) (destination : option jsstr) :=
  createHeaders now traceparent (Some ACCEPT) CONTENT_TYPE source destination.
End Participants.

(** ** FspiopProtectedHeader *)

Definition DEFAULT_ALGORITHM : jsstr := js "RS256".

Record Input : Set := mkInput {
  method : jsstr; uri : jsstr; source : jsstr;
  destination : option jsstr; date : option jsstr; alg : option jsstr }.

(** [toUpperCase] on ASCII, the alphabet of HTTP methods. *)
Definition upper_char (c : ascii) : ascii :=
  let n := code c in if (97 <=? n)%N && (n <=? 122)%N then ascii_of_N (n - 32) else c.
Definition toUpperCase (s : jsstr) : jsstr := map upper_char s.

Definition isPresent (value : option jsstr) : bool :=
  match value with Some v => (0 <? length (trim v))%nat | None => false end.

Definition build (input : Input) : result thrown FspiopHeadersMap :=
  let! _ := throw_if (bool_decide (trim (source input) = []))
    (TError (js "Cannot build the FSPIOP protected header: fspiop-source is required.")) in
  let! _ := throw_if (bool_decide (trim (method input) = []))
    (TError (js "Cannot build the FSPIOP protected header: the HTTP method is required.")) in
  let! fspiopUri := extract (uri input) in
  let fields := [(js "alg", default DEFAULT_ALGORITHM (alg input)); (js "FSPIOP-URI", fspiopUri);
                 (js "FSPIOP-HTTP-Method", toUpperCase (method input)); (js "FSPIOP-Source", source input)] in
  let fields := if isPresent (destination input)
                then fields ++ [(js "FSPIOP-Destination", default [] (destination input))] else fields in
  let fields := if isPresent (date input) then fields ++ [(js "Date", default [] (date input))] else fields in
  Ok fields.

(** ** FspiopVerifyMode *)

Inductive FspiopVerifyMode : Set := Off | VerifyIfPresent | Require_.
Definition mode_value (m : FspiopVerifyMode) : jsstr :=
  js match m with Off => "off" | VerifyIfPresent => "verify-if-present" | Require_ => "require" end.
Definition MODES : list FspiopVerifyMode := [Off; VerifyIfPresent; Require_].

Definition parse (value : option jsstr) (fallback : FspiopVerifyMode) : FspiopVerifyMode :=
  match value with
  | None => fallback
  | Some value =>
      let normalized := toLowerCase (trim value) in
      default fallback (List.find (fun m => str_eqb (mode_value m) normalized) MODES)
  end.

Definition isValid (value : option jsstr) : bool :=
  match value with
  | None => false
  | Some value => existsb (fun m => str_eqb (mode_value m) (toLowerCase (trim value))) MODES
  end.

(** ** Reference definitions *)

(** A resource path: a known resource name, then nothing or a further path. *)
Definition resource_path (u : jsstr) : Prop :=
  exists r t, r ∈ RESOURCES /\ u = r ++ t /\ (t = [] \/ exists t', t = slash :: t').

(** A header value, where it is not blank. *)
Definition present (value : option jsstr) : option jsstr := if isPresent value then value else None.

(** No query, fragment or slash. *)
Definition plain (s : jsstr) : Prop := "#"%char ∉ s /\ "?"%char ∉ s.
Definition path_segment (s : jsstr) : Prop := plain s /\ slash ∉ s.

(** [scheme://authority/seg1/.../segN] *)
Definition base_url (scheme authority : jsstr) (segs : list jsstr) : jsstr :=
  scheme ++ js "://" ++ authority ++ concat (map (cons slash) segs).

(** * Lemmas *)

Lemma resources_no_slash r : r ∈ RESOURCES -> slash ∉ r.
Proof.
  assert (Forall (fun r => slash ∉ r) RESOURCES) as H by (by apply (bool_decide_unpack _); vm_compute).
  rewrite Forall_forall in H. apply H.
Qed.

Lemma startsWith_spec s p : startsWith s p = true <-> exists t, s = p ++ t.
Proof. unfold startsWith. rewrite bool_decide_eq_true. done. Qed.

(** The head of a path that continues with a slash or ends. *)
Lemma first_segment s t : slash ∉ s -> (t = [] \/ exists t', t = slash :: t') -> head (split slash (s ++ t)) = Some s.
Proof.
  intros Hs [->|[t' ->]]; [rewrite app_nil_r; by rewrite split_no_sep | by rewrite split_app].
Qed.

Lemma pattern_at_spec s : pattern_at s = true <-> exists u, s = slash :: u /\ resource_path u.
Proof.
  unfold pattern_at, resource_path. destruct s as [|c s]; [split; [done | by intros (? & ? & _)]|].
  rewrite andb_true_iff, bool_decide_eq_true, existsb_exists. split.
  - intros [-> (r & Hr & Hm)]. apply andb_true_iff in Hm as [Hp Hd]. apply startsWith_spec in Hp as [t ->].
    rewrite drop_app_length in Hd. exists (r ++ t). split; [done|]. exists r, t.
    split; [by apply list_elem_of_In|]. split; [done|].
    destruct t as [|d t]; [by left | right]. apply bool_decide_eq_true in Hd as ->. by exists t.
  - intros (u & [= -> ->] & r & t & Hr & -> & Ht). split; [done|]. exists r. split; [by apply list_elem_of_In|].
    apply andb_true_iff. split; [by apply startsWith_app|]. rewrite drop_app_length.
    destruct Ht as [->|[t' ->]]; [done | by apply bool_decide_eq_true].
Qed.

Lemma pattern_at_segment s t :
  slash ∉ s -> (t = [] \/ exists t', t = slash :: t') -> pattern_at (slash :: s ++ t) = true -> s ∈ RESOURCES.
Proof.
  intros Hs Ht Hp. apply pattern_at_spec in Hp as (u & [= <-] & r & t2 & Hr & He & Ht2).
  pose proof (first_segment s t Hs Ht) as H1. rewrite He, first_segment in H1; [|by apply resources_no_slash|done].
  by injection H1 as <-.
Qed.

Lemma exec_skip s t : slash ∉ s -> exec_from (s ++ slash :: t) = exec_from (slash :: t).
Proof.
  induction s as [|c s IH]; [done|]. intros Hn%not_elem_of_cons. destruct Hn as [Hc Hn].
  cbn [app exec_from]. replace (pattern_at (c :: s ++ slash :: t)) with false; [by apply IH|].
  symmetry. unfold pattern_at. by rewrite bool_decide_false.
Qed.

Lemma exec_segments segs u :
  Forall (fun s => slash ∉ s /\ s ∉ RESOURCES) segs -> resource_path u ->
  exec_from (concat (map (cons slash) segs) ++ slash :: u) = Some (slash :: u).
Proof.
  intros H Hu. induction H as [|s segs [Hs Hr] _ IH].
  - cbn [map concat app exec_from]. by rewrite (proj2 (pattern_at_spec (slash :: u))) by eauto.
  - cbn [map concat]. rewrite <- app_assoc. cbn [app exec_from].
    assert (exists t', concat (map (cons slash) segs) ++ slash :: u = slash :: t') as [t' Ht'].
    { destruct segs as [|s2 segs]; cbn; eauto. }
    destruct (pattern_at (slash :: s ++ concat (map (cons slash) segs) ++ slash :: u)) eqn:Hp.
    { apply pattern_at_segment in Hp; [done..|]. right. eauto. }
    rewrite Ht'. rewrite exec_skip by done. by rewrite <- Ht'.
Qed.

Lemma exec_from_Some s v : exec_from s = Some v -> v `suffix_of` s /\ exists u, v = slash :: u /\ resource_path u.
Proof.
  induction s as [|c s IH]; intros H; cbn [exec_from] in H; [done|].
  destruct (pattern_at (c :: s)) eqn:Hp.
  - injection H as <-. split; [done|]. by apply pattern_at_spec.
  - destruct (IH H) as [Hs Hu]. split; [by apply suffix_cons_r | done].
Qed.

Lemma exec_from_None s : exec_from s = None <-> forall p u, s = p ++ slash :: u -> ~ resource_path u.
Proof.
  induction s as [|c s IH]; cbn [exec_from].
  - split; [intros _ [|] u; done | done].
  - destruct (pattern_at (c :: s)) eqn:Hp.
    + split; [done|]. intros H. apply pattern_at_spec in Hp as (u & He & Hu). by destruct (H [] u He).
    + rewrite IH. split.
      * intros H [|d p] u He Hu; [|injection He as -> ->; by eapply H].
        rewrite (proj2 (pattern_at_spec (c :: s))) in Hp by eauto. done.
      * intros H p u He. apply (H (c :: p)). by rewrite He.
Qed.

Lemma cut_scheme_spec scheme t : ":"%char ∉ scheme -> cut_scheme (scheme ++ js "://" ++ t) = Some (scheme, t).
Proof.
  intros H. induction scheme as [|c s IH].
  - pose proof (startsWith_app (js "://") t) as Hp. change ([] ++ js "://" ++ t) with (js "://" ++ t).
    change (js "://" ++ t) with (":"%char :: slash :: slash :: t) in *. cbn [cut_scheme]. by rewrite Hp.
  - apply not_elem_of_cons in H as [Hc H]. cbn [app cut_scheme].
    replace (startsWith (c :: s ++ js "://" ++ t) (js "://")) with false.
    + by rewrite IH.
    + symmetry. apply bool_decide_eq_false. intros [u [= ? _]]. done.
Qed.

Lemma head_split c s : c ∉ default [] (head (split c s)).
Proof.
  induction s as [|d s IH]; cbn; [apply not_elem_of_nil|]. case_bool_decide as Hcd; cbn; [apply not_elem_of_nil|].
  destruct (split_cons c s) as (p & ps & Hs). rewrite Hs in *. cbn in *. by apply not_elem_of_cons.
Qed.

Lemma head_split_prefix c s : default [] (head (split c s)) `prefix_of` s.
Proof.
  induction s as [|d s IH]; cbn; [done|]. case_bool_decide as Hcd; cbn; [apply prefix_nil|].
  destruct (split_cons c s) as (p & ps & Hs). rewrite Hs in *. cbn in *. by apply prefix_cons.
Qed.

Lemma toPath_base scheme authority segs u :
  ":"%char ∉ scheme -> plain scheme -> path_segment authority -> Forall path_segment segs -> plain u ->
  toPath (base_url scheme authority segs ++ slash :: u) = concat (map (cons slash) segs) ++ slash :: u.
Proof.
  intros Hc [Hs1 Hs2] [[Ha1 Ha2] Ha] Hsegs [Hu1 Hu2]. unfold toPath, base_url.
  assert (forall c, c ∉ scheme -> c ∉ authority -> c ∉ u -> Forall (fun s => c ∉ s) segs -> c <> ":"%char -> c <> slash ->
    c ∉ (scheme ++ js "://" ++ authority ++ concat (map (cons slash) segs)) ++ slash :: u) as Hno.
  { intros c H1 H2 H3 H4 H5 H6. rewrite !not_elem_of_app, !not_elem_of_cons.
    assert (c ∉ concat (map (cons slash) segs)) as H7.
    { induction H4 as [|s l Hs _ IH]; cbn; [apply not_elem_of_nil|]. rewrite !not_elem_of_cons, not_elem_of_app.
      inversion Hsegs; auto. }
    repeat split; try done. unfold js; cbn. rewrite !not_elem_of_cons. repeat split; try done. apply not_elem_of_nil. }
  rewrite (split_no_sep "#"%char) by (apply Hno; try done; eapply Forall_impl; [exact Hsegs|]; intros ? [[? ?] ?]; done).
  cbn [head from_option Datatypes.id].
  rewrite (split_no_sep "?"%char) by (apply Hno; try done; eapply Forall_impl; [exact Hsegs|]; intros ? [[? ?] ?]; done).
  cbn [head from_option Datatypes.id]. rewrite <- !app_assoc, cut_scheme_spec by done.
  assert (exists t', concat (map (cons slash) segs) ++ slash :: u = slash :: t') as [t' Ht'].
  { destruct segs; cbn; eauto. }
  rewrite Ht', indexOf_app by done. by rewrite drop_app_length.
Qed.

Lemma trim_nonempty s c : c ∈ s -> is_ws c = false -> trim s <> [].
Proof.
  intros Hin Hw. unfold trim, trimEnd. assert (forall s, c ∈ s -> c ∈ trimStart s) as Ht.
  { clear s Hin. intros s. induction s as [|d s IH]; [done|]. cbn. intros Hin.
    destruct (is_ws d) eqn:Hd; [|done]. apply elem_of_cons in Hin as [->|?]; [congruence | auto]. }
  intros E. apply (f_equal reverse) in E. rewrite reverse_involutive in E.
  assert (c ∈ trimStart (reverse (trimStart s))) as H by (apply Ht, elem_of_reverse, Ht, Hin).
  rewrite E in H. by apply elem_of_nil in H.
Qed.

Lemma endsWith_app s t : endsWith (s ++ t) t = true.
Proof. apply bool_decide_eq_true. by exists s. Qed.

Lemma opt_headers_inj k l a b a' b' :
  k <> l -> opt_header k a ++ opt_header l b = opt_header k a' ++ opt_header l b' -> a = a' /\ b = b'.
Proof. intros Hne H. destruct a, a', b, b'; cbn in H; simplify_eq; done. Qed.

Lemma resource_path_nonempty u : resource_path u -> exists c, c ∈ u /\ is_ws c = false.
Proof.
  intros (r & t & Hr & -> & _).
  assert (Forall (fun r => match r with c :: _ => is_ws c = false | [] => False end) RESOURCES) as H.
  { repeat constructor. }
  rewrite Forall_forall in H. specialize (H r Hr). destruct r as [|c r]; [done|]. exists c. split; [by left | done].
Qed.

Lemma extract_base scheme authority segs u :
  ":"%char ∉ scheme -> plain scheme -> path_segment authority ->
  Forall (fun s => path_segment s /\ s ∉ RESOURCES) segs -> plain u -> resource_path u ->
  extract (base_url scheme authority segs ++ slash :: u) = Ok (slash :: u).
Proof.
  intros Hc Hs Ha Hsegs Hu Hr. unfold extract. rewrite bool_decide_false.
  2:{ destruct (resource_path_nonempty u Hr) as (c & Hin & Hw). apply (trim_nonempty _ c); [|done].
      apply elem_of_app. right. by right. }
  rewrite toPath_base; [|done..| |done].
  2:{ eapply Forall_impl; [exact Hsegs|]. by intros ? [? _]. }
  rewrite exec_segments; [done| |done]. eapply Forall_impl; [exact Hsegs|]. by intros ? [[_ ?] ?].
Qed.

(** The fields of a header that is built. *)
Lemma build_fields i fields : build i = Ok fields ->
  exists path, extract (uri i) = Ok path /\
    fields = [(js "alg", default DEFAULT_ALGORITHM (alg i)); (js "FSPIOP-URI", path);
              (js "FSPIOP-HTTP-Method", toUpperCase (method i)); (js "FSPIOP-Source", source i)] ++
             opt_header (js "FSPIOP-Destination") (present (destination i)) ++
             opt_header (js "Date") (present (date i)).
Proof.
  unfold build. destruct (throw_if _ _); [|done]. destruct (throw_if _ _); [|done].
  destruct (extract (uri i)) as [path|]; [|done]. intros H%Ok_inj. exists path. split; [done|]. rewrite <- H.
  unfold present. destruct (destination i) as [d|], (date i) as [t|]; cbn [isPresent];
    repeat destruct (0 <? length _)%nat; reflexivity.
Qed.

Lemma cut_scheme_suffix s p t : cut_scheme s = Some (p, t) -> t `suffix_of` s.
Proof.
  revert p. induction s as [|c s IH]; intros p; cbn [cut_scheme]; destruct (startsWith _ _).
  - by intros [= _ <-].
  - done.
  - intros [= _ <-]. exact (suffix_drop (c :: s) 3).
  - destruct (cut_scheme s) as [[p' t']|]; [|done]. intros [= _ <-]. apply suffix_cons_r. by eapply IH.
Qed.

(** A path without a scheme separator in it is its own path. *)
Lemma extract_idemp u v : extract u = Ok v -> cut_scheme v = None -> extract v = Ok v.
Proof.
  unfold extract. case_bool_decide as Ht; [done|]. destruct (exec_from (toPath u)) as [w|] eqn:He; [|done]. intros Hw%Ok_inj Hc. subst w.
  destruct (exec_from_Some _ _ He) as [Hsuf (t & -> & Hr)]. case_bool_decide as Ht'.
  { destruct (resource_path_nonempty t Hr) as (c & Hin & Hw). exfalso. by apply (trim_nonempty (slash :: t) c); [right | |]. }
  assert (forall c, c = "#"%char \/ c = "?"%char -> c ∉ toPath u) as Hno.
  { intros c Hcc Hin. assert (c ∈ default [] (head (split "?"%char (default [] (head (split "#"%char u))))) \/ c = slash) as Hin'.
    { unfold toPath in Hin. set (q := default [] (head (split "?"%char _))) in *. destruct (cut_scheme q) as [[a b]|] eqn:Ec.
      - destruct (indexOf slash b); [|apply list_elem_of_singleton in Hin; by right]. left.
        apply cut_scheme_suffix in Ec. eapply elem_of_suffix; [|exact Ec]. eapply elem_of_suffix; [exact Hin|]. apply suffix_drop.
      - destruct (startsWith q [slash]); [by left|]. apply elem_of_cons in Hin as [->|Hin]; [by right | by left]. }
    destruct Hin' as [Hin'| ->]; [|by destruct Hcc]. destruct Hcc as [-> | ->].
    - apply (head_split "#"%char u). destruct (head_split_prefix "?"%char (default [] (head (split "#"%char u)))) as [k Hk]. rewrite Hk. apply elem_of_app. by left.
    - by apply (head_split "?"%char (default [] (head (split "#"%char u)))). }
  assert (forall c, c = "#"%char \/ c = "?"%char -> c ∉ slash :: t) as Hno' by (intros c Hcc Hin; apply (Hno c Hcc); by eapply elem_of_suffix).
  assert (toPath (slash :: t) = slash :: t) as ->.
  { unfold toPath. rewrite (split_no_sep "#"%char) by (apply Hno'; by left). cbn [head from_option Datatypes.id].
    rewrite (split_no_sep "?"%char) by (apply Hno'; by right). cbn [head from_option Datatypes.id]. rewrite Hc.
    by rewrite (startsWith_app [slash] t : startsWith (slash :: t) [slash] = true). }
  cbn [exec_from]. by rewrite (proj2 (pattern_at_spec (slash :: t))) by eauto.
Qed.

(** A path with a scheme separator after its resource is not: the signer derives from
    the path it is given another one. *)
Example extract_twice :
  extract (js "https://hub/parties/ALIAS/a://b/quotes/1") = Ok (js "/parties/ALIAS/a://b/quotes/1") /\
  extract (js "/parties/ALIAS/a://b/quotes/1") = Ok (js "/quotes/1").
Proof. split; vm_compute; reflexivity. Qed.

(** * Properties *)

(** Sender and verifier derive the same path: for a base URL of any scheme,
    authority and path prefix none of whose segments is a resource name, with or
    without a trailing slash, the path that [extract] derives from the URL built by
    [withBaseUrl] for a resource path without query or fragment is that path; so the
    derived value does not depend on the base. *)
Theorem extract_withBaseUrl :
  forall scheme authority segs u,
  ":"%char ∉ scheme -> plain scheme -> path_segment authority ->
  Forall (fun s => path_segment s /\ s ∉ RESOURCES) segs ->
  endsWith (base_url scheme authority segs) [slash] = false -> plain u -> resource_path u ->
  extract (withBaseUrl (base_url scheme authority segs) u) = Ok (slash :: u) /\
  extract (withBaseUrl (base_url scheme authority segs ++ [slash]) u) = Ok (slash :: u) /\
  extract (newUrl (base_url scheme authority segs) (slash :: u)) = Ok (slash :: u).
Proof.
  intros scheme authority segs u Hc Hs Ha Hsegs He Hu Hr.
  pose proof (extract_base scheme authority segs u Hc Hs Ha Hsegs Hu Hr) as H.
  unfold withBaseUrl, newUrl. rewrite He, endsWith_app, app_nil_l.
  rewrite (startsWith_app [slash] u : startsWith (slash :: u) [slash] = true).
  rewrite <- app_assoc. cbn [app drop negb]. done.
Qed.

Lemma extract_withBaseUrl_witness :
  extract (QuotesUrls.putQuotesError (js "https://hub.example.com:4443/switch/v2") (js "abc-123")) =
    Ok (js "/quotes/abc-123/error").
Proof.
  refine (proj1 (extract_withBaseUrl (js "https") (js "hub.example.com:4443") [js "switch"; js "v2"]
    (js "quotes/abc-123/error") _ _ _ _ _ _ _)).
  - by apply (bool_decide_unpack _).
  - split; by apply (bool_decide_unpack _).
  - repeat split; by apply (bool_decide_unpack _).
  - repeat constructor; by apply (bool_decide_unpack _).
  - reflexivity.
  - split; by apply (bool_decide_unpack _).
  - exists (js "quotes"), (js "/abc-123/error"). split; [by apply (bool_decide_unpack _)|].
    split; [reflexivity|]. right. by exists (js "abc-123/error").
Defined.

(** [extract] never degrades: what it returns is a suffix of the URL's path that
    starts with a slash and a whole known resource name, the first such suffix, and it
    throws exactly on a blank URL and on a path with no whole resource segment. *)
Theorem extract_resource_path :
  forall requestUrl,
  match extract requestUrl with
  | Ok v => v `suffix_of` toPath requestUrl /\ (exists u, v = slash :: u /\ resource_path u) /\
            (forall p u, toPath requestUrl = p ++ slash :: u -> resource_path u -> (length (slash :: u) <= length v)%nat)
  | Err _ => trim requestUrl = [] \/ forall p u, toPath requestUrl = p ++ slash :: u -> ~ resource_path u
  end.
Proof.
  intros url. unfold extract. case_bool_decide as Ht; [by left|].
  destruct (exec_from (toPath url)) as [v|] eqn:He; [|right; by apply exec_from_None].
  destruct (exec_from_Some _ _ He) as [Hs Hu]. split; [done|]. split; [done|].
  intros p u Hp Hr. clear -Hp Hr He. revert He Hp. generalize (toPath url) as s. intros s. revert p.
  induction s as [|c s IH]; intros p He Hp; [by destruct p|]. cbn [exec_from] in He.
  destruct (pattern_at (c :: s)) eqn:Hpat.
  - injection He as <-. rewrite Hp, length_app. cbn. lia.
  - destruct p as [|d p].
    + cbn in Hp. rewrite (proj2 (pattern_at_spec (c :: s))) in Hpat by eauto. done.
    + injection Hp as -> ->. by eapply IH.
Qed.

(** The signed header binds the request: when [build] succeeds its fields are, in
    this order, the algorithm, the derived path, the upper-cased method, the source,
    and the destination and the date where they are not blank, and nothing else; so
    two requests with equal headers agree on all of these. It fails only on a blank
    source or method or where [extract] does. *)
Theorem build_binds :
  forall i,
  match build i with
  | Ok fields =>
      exists path, extract (uri i) = Ok path /\
      fields = [(js "alg", default DEFAULT_ALGORITHM (alg i)); (js "FSPIOP-URI", path);
                (js "FSPIOP-HTTP-Method", toUpperCase (method i)); (js "FSPIOP-Source", source i)] ++
               opt_header (js "FSPIOP-Destination") (present (destination i)) ++
               opt_header (js "Date") (present (date i)) /\
      (forall j, build j = Ok fields ->
         source j = source i /\ toUpperCase (method j) = toUpperCase (method i) /\ extract (uri j) = Ok path /\
         present (destination j) = present (destination i) /\
         present (date j) = present (date i))
  | Err e => trim (source i) = [] \/ trim (method i) = [] \/ extract (uri i) = Err e
  end.
Proof.
  intros i. destruct (build i) as [fields|e] eqn:Hb.
  - destruct (build_fields i fields Hb) as (path & Hp & Hf). exists path. split; [done|]. split; [done|]. intros j Hj.
    destruct (build_fields j fields Hj) as (path' & Hp' & Hf'). rewrite Hf in Hf'. clear -Hf' Hp'.
    cbn [app] in Hf'. injection Hf' as _ <- Hm Hsrc Hrest.
    apply opt_headers_inj in Hrest as [? ?]; [|done]. eauto.
  - revert Hb. unfold build. destruct (bool_decide (trim (source i) = [])) eqn:E1; [bool_hyps; by left|].
    destruct (bool_decide (trim (method i) = [])) eqn:E2; [bool_hyps; by right; left|]. cbn [throw_if].
    destruct (extract (uri i)) as [p|e'] eqn:E; [done|]. intros [= ->]. by right; right.
Qed.
