(* ===== verification/Json.v ===== *)
(** * JSON

    [JSON.parse], [JSON.stringify] and the order of an object's own members, as the
    signatures (shared/fspiop/component/fspiop-signature.ts), the tokens
    (shared/security/component/jwt/jwt.ts) and the access guard of web-outbound use them.
    A text is the list of its UTF-16 code units. Numbers are a class: their text and the
    value of a literal are the engine's. *)

From S2P Require Import Prelude.
From stdpp Require Import sorting.

(** ** Texts *)

Abbreviation text := (list N).
Definition units (s : jsstr) : text := map code s.
Definition lit (s : string) : text := units (js s).

Definition unit16 (c : N) : Prop := (c < 65536)%N.

(** ** Numbers *)

Definition dec_digit (c : N) : bool := (48 <=? c)%N && (c <=? 57)%N.

Fixpoint span (p : N -> bool) (s : text) : text * text :=
  match s with
  | [] => ([], [])
  | c :: s' => if p c then let '(a, r) := span p s' in (c :: a, r) else ([], s)
  end.

(** The digits at the head of a text, at least one. *)
Definition scan_digits (s : text) : option (text * text) :=
  match span dec_digit s with ([], _) => None | (ds, r) => Some (ds, r) end.

Definition scan_sign (s : text) : text * text :=
  match s with c :: r => if (c =? 45)%N then ([c], r) else ([], s) | [] => ([], s) end.

(** [0], or digits that do not start with it. *)
Definition scan_int (s : text) : option (text * text) :=
  match s with c :: r => if (c =? 48)%N then Some ([c], r) else scan_digits s | [] => None end.

Definition scan_fraction (s : text) : option (text * text) :=
  match s with
  | c :: r => if (c =? 46)%N then prod_map (cons c) Datatypes.id <$> scan_digits r else Some ([], s)
  | [] => Some ([], s)
  end.

Definition scan_exponent (s : text) : option (text * text) :=
  match s with
  | c :: r =>
      if (c =? 101)%N || (c =? 69)%N then
        match r with
        | d :: r' => if (d =? 43)%N || (d =? 45)%N then prod_map (fun ds => c :: d :: ds) Datatypes.id <$> scan_digits r'
                     else prod_map (cons c) Datatypes.id <$> scan_digits r
        | [] => None
        end
      else Some ([], s)
  | [] => Some ([], s)
  end.

(** A number literal, and what follows it. *)
Definition scan_number (s : text) : option (text * text) :=
  let '(sign, s) := scan_sign s in
  match scan_int s with
  | None => None
  | Some (int, s) =>
      match scan_fraction s with
      | None => None
      | Some (frac, s) =>
          match scan_exponent s with
          | None => None
          | Some (exp, s) => Some (sign ++ int ++ frac ++ exp, s)
          end
      end
  end.

(** The numbers of the engine: the value of a literal and the text of a value, with the
    documented behaviour of finite ones, that their text is a literal whose value has
    the same text. The value itself may differ: the text of [-0] is [0]. *)
Class JSNumber (number : Type) := {
  Number_parse : text -> number;
  Number_text : number -> text;
  finite : number -> bool;
  Number_text_literal n : finite n = true -> scan_number (Number_text n) = Some (Number_text n, []);
  Number_text_parse n : finite n = true ->
    finite (Number_parse (Number_text n)) = true /\ Number_text (Number_parse (Number_text n)) = Number_text n }.

(** ** Strings *)

(** The unit a backslash and a letter stand for, and the letter of a unit. *)
Definition escapes : list (N * N) := [(98, 8); (116, 9); (110, 10); (102, 12); (114, 13); (34, 34); (92, 92)]%N.

Definition escape_letter (c : N) : option N := fst <$> List.find (fun e => (snd e =? c)%N) escapes.
Definition escaped_unit (l : N) : option N :=
  if (l =? 47)%N then Some 47%N else snd <$> List.find (fun e => (fst e =? l)%N) escapes.

Definition hex_digit (n : N) : N := if (n <? 10)%N then (48 + n)%N else (87 + n)%N.
Definition hex_value (c : N) : option N :=
  if dec_digit c then Some (c - 48)%N
  else if (97 <=? c)%N && (c <=? 102)%N then Some (c - 87)%N
  else if (65 <=? c)%N && (c <=? 70)%N then Some (c - 55)%N
  else None.

Definition unicode_escape (c : N) : text :=
  [92; 117; hex_digit (c / 4096); hex_digit (c / 256 mod 16); hex_digit (c / 16 mod 16); hex_digit (c mod 16)]%N.

Definition hex4 (a b c d : N) : option N :=
  match hex_value a, hex_value b, hex_value c, hex_value d with
  | Some a, Some b, Some c, Some d => Some (a * 4096 + b * 256 + c * 16 + d)%N
  | _, _, _, _ => None
  end.

Definition is_lead (c : N) : bool := (55296 <=? c)%N && (c <=? 56319)%N.
Definition is_trail (c : N) : bool := (56320 <=? c)%N && (c <=? 57343)%N.

(** The inside of a string literal: control characters and lone surrogates are escaped. *)
Fixpoint quoted (s : text) : text :=
  match s with
  | [] => []
  | c :: s' =>
      match escape_letter c with
      | Some l => 92%N :: l :: quoted s'
      | None =>
          if (c <? 32)%N then unicode_escape c ++ quoted s'
          else if is_lead c then
            match s' with
            | d :: s'' => if is_trail d then c :: d :: quoted s'' else unicode_escape c ++ quoted s'
            | [] => unicode_escape c
            end
          else if is_trail c then unicode_escape c ++ quoted s'
          else c :: quoted s'
      end
  end.

Definition quote (s : text) : text := 34%N :: quoted s ++ [34%N].

(** What follows an opening quote: the string, and the text after its closing quote. *)
Fixpoint scan_string (s : text) : option (text * text) :=
  match s with
  | [] => None
  | c :: s =>
      if (c =? 34)%N then Some ([], s)
      else if (c =? 92)%N then
        match s with
        | l :: s' =>
            if (l =? 117)%N then
              match s' with
              | h1 :: h2 :: h3 :: h4 :: s'' =>
                  match hex4 h1 h2 h3 h4 with
                  | Some c => prod_map (cons c) Datatypes.id <$> scan_string s''
                  | None => None
                  end
              | _ => None
              end
            else match escaped_unit l with
                 | Some c => prod_map (cons c) Datatypes.id <$> scan_string s'
                 | None => None
                 end
        | [] => None
        end
      else if (c <? 32)%N then None
      else prod_map (cons c) Datatypes.id <$> scan_string s
  end.

(** ** Values *)

Inductive json {number : Type} : Type :=
  | JNull
  | JBool (b : bool)
  | JNumber (n : number)
  | JString (s : text)
  | JArray (l : list json)
  | JObject (m : list (text * json)).
Arguments json number : clear implicits.

(** The members of an object come in the order of [Object.entries]: the array indices
    in ascending order, then the other names in the order of their creation. *)
Definition array_index (k : text) : option N :=
  match k with
  | [] => None
  | c :: ds =>
      if forallb dec_digit k && (negb (c =? 48)%N || bool_decide (ds = [])) then
        let n := fold_left (fun a d => (a * 10 + (d - 48))%N) k 0%N in
        if (n <? 4294967295)%N then Some n else None
      else None
  end.

(** A new name [k] is placed before [k']. *)
Definition before (k k' : text) : bool :=
  match array_index k, array_index k' with
  | Some i, Some j => (i <? j)%N
  | Some _, None => true
  | None, _ => false
  end.

Section json.
  Context {number : Type} `{JSNumber number}.
  Abbreviation json := (json number).
  Abbreviation members := (list (text * json)).

Fixpoint set_member (k : text) (v : json) (m : members) : members :=
  match m with
  | [] => [(k, v)]
  | (k', v') :: m' =>
      if bool_decide (k = k') then (k, v) :: m'
      else if before k k' then (k, v) :: m
      else (k', v') :: set_member k v m'
  end.

Fixpoint get_member (k : text) (m : members) : option json :=
  match m with
  | [] => None
  | (k', v) :: m => if bool_decide (k = k') then Some v else get_member k m
  end.

(** ** JSON.stringify *)

Fixpoint commas (l : list text) : text :=
  match l with [] => [] | [x] => x | x :: l => x ++ 44%N :: commas l end.

Fixpoint JSON_stringify (v : json) : text :=
  match v with
  | JNull => lit "null"
  | JBool b => lit (if b then "true" else "false")
  | JNumber n => if finite n then Number_text n else lit "null"
  | JString s => quote s
  | JArray l => 91%N :: commas (map JSON_stringify l) ++ [93%N]
  | JObject m => 123%N :: commas (map (fun '(k, v) => quote k ++ 58%N :: JSON_stringify v) m) ++ [125%N]
  end.

(** ** JSON.parse *)

Fixpoint skip_ws (s : text) : text :=
  match s with
  | c :: s' => if (c =? 32)%N || (c =? 9)%N || (c =? 10)%N || (c =? 13)%N then skip_ws s' else s
  | [] => []
  end.

(** What follows a given text. *)
Fixpoint after (p s : text) : option text :=
  match p, s with
  | [], _ => Some s
  | a :: p, b :: s => if (a =? b)%N then after p s else None
  | _ :: _, [] => None
  end.

(** The words and numbers. *)
Definition scan_scalar (s : text) : option (json * text) :=
  match after (lit "null") s with
  | Some r => Some (JNull, r)
  | None =>
      match after (lit "true") s with
      | Some r => Some (JBool true, r)
      | None =>
          match after (lit "false") s with
          | Some r => Some (JBool false, r)
          | None => prod_map (fun l => JNumber (Number_parse l)) Datatypes.id <$> scan_number s
          end
      end
  end.

(** The scanners of values, of the elements of an array and of the members of an object,
    each a step over the others with less fuel. *)
Definition value_step (elements : text -> option (list json * text)) (object : text -> option (members * text))
    (s : text) : option (json * text) :=
  match skip_ws s with
  | [] => None
  | c :: r =>
      if (c =? 34)%N then prod_map JString Datatypes.id <$> scan_string r
      else if (c =? 91)%N then
        match after [93%N] (skip_ws r) with
        | Some r => Some (JArray [], r)
        | None => prod_map JArray Datatypes.id <$> elements r
        end
      else if (c =? 123)%N then
        match after [125%N] (skip_ws r) with
        | Some r => Some (JObject [], r)
        | None => prod_map JObject Datatypes.id <$> object r
        end
      else scan_scalar (c :: r)
  end.

Definition elements_step (value : text -> option (json * text)) (elements : text -> option (list json * text))
    (s : text) : option (list json * text) :=
  match value s with
  | None => None
  | Some (v, s) =>
      match skip_ws s with
      | [] => None
      | c :: r =>
          if (c =? 44)%N then prod_map (cons v) Datatypes.id <$> elements r
          else if (c =? 93)%N then Some ([v], r)
          else None
      end
  end.

Definition members_step (value : text -> option (json * text)) (object : members -> text -> option (members * text))
    (m : members) (s : text) : option (members * text) :=
  match after [34%N] (skip_ws s) with
  | None => None
  | Some r =>
      match scan_string r with
      | None => None
      | Some (k, r) =>
          match after [58%N] (skip_ws r) with
          | None => None
          | Some r =>
              match value r with
              | None => None
              | Some (v, r) =>
                  match skip_ws r with
                  | [] => None
                  | c :: r =>
                      if (c =? 44)%N then object (set_member k v m) r
                      else if (c =? 125)%N then Some (set_member k v m, r)
                      else None
                  end
              end
          end
      end
  end.

Fixpoint scan_value (fuel : nat) (s : text) : option (json * text) :=
  match fuel with O => None | S fuel => value_step (scan_elements fuel) (scan_members fuel []) s end
with scan_elements (fuel : nat) (s : text) : option (list json * text) :=
  match fuel with O => None | S fuel => elements_step (scan_value fuel) (scan_elements fuel) s end
with scan_members (fuel : nat) (m : members) (s : text) : option (members * text) :=
  match fuel with O => None | S fuel => members_step (scan_value fuel) (scan_members fuel) m s end.

Definition JSON_parse (s : text) : option json :=
  match scan_value (2 * length s + 1) s with
  | Some (v, r) => match skip_ws r with [] => Some v | _ => None end
  | None => None
  end.
End json.

(** ** Reference definitions *)

Section reference.
  Context {number : Type} `{JSNumber number}.
  Abbreviation json := (json number).

Definition of_members (m : list (text * json)) : list (text * json) :=
  fold_left (fun a e => set_member (fst e) (snd e) a) m [].

(** A value as its text reads: numbers by their text, members in the order of the
    names. *)
Fixpoint norm (v : json) : json :=
  match v with
  | JNumber n => if finite n then JNumber (Number_parse (Number_text n)) else JNull
  | JArray l => JArray (map norm l)
  | JObject m => JObject (of_members (map (fun '(k, v) => (k, norm v)) m))
  | v => v
  end.

(** The name [a] comes before [b] in an object, and is another one. *)
Definition comes (a b : text * json) : Prop := fst a <> fst b /\ before (fst b) (fst a) = false.

(** A value of the engine: names and strings of 16-bit units, and every object with
    distinct names in the order the engine keeps. *)
Inductive wf : json -> Prop :=
  | wf_null : wf JNull
  | wf_bool b : wf (JBool b)
  | wf_number n : wf (JNumber n)
  | wf_string s : Forall unit16 s -> wf (JString s)
  | wf_array l : Forall wf l -> wf (JArray l)
  | wf_object m : Forall (fun e => Forall unit16 (fst e) /\ wf (snd e)) m -> StronglySorted comes m -> wf (JObject m).
End reference.

(** * Lemmas *)

Section induction.
  Context {number : Type} (P : json number -> Prop).
  Hypotheses (Hnull : P JNull) (Hbool : forall b, P (JBool b)) (Hnumber : forall n, P (JNumber n))
    (Hstring : forall s, P (JString s)) (Harray : forall l, Forall P l -> P (JArray l))
    (Hobject : forall m, Forall (fun e => P (snd e)) m -> P (JObject m)).

Fixpoint json_nested_ind (v : json number) : P v :=
  match v with
  | JNull => Hnull
  | JBool b => Hbool b
  | JNumber n => Hnumber n
  | JString s => Hstring s
  | JArray l =>
      Harray l ((fix go l : Forall P l :=
                   match l with [] => @List.Forall_nil _ P | v :: l => @List.Forall_cons _ P v l (json_nested_ind v) (go l) end) l)
  | JObject m =>
      Hobject m ((fix go m : Forall (fun e => P (snd e)) m :=
                    match m with
                    | [] => @List.Forall_nil _ _
                    | e :: m => @List.Forall_cons _ (fun e => P (snd e)) e m (json_nested_ind (snd e)) (go m)
                    end) m)
  end.
End induction.

(** ** Numbers *)

(** What may not follow a number that ends. *)
Definition number_unit (c : N) : bool :=
  dec_digit c || (c =? 46)%N || (c =? 101)%N || (c =? 69)%N || (c =? 43)%N || (c =? 45)%N.
Definition terminated (r : text) : Prop := match r with [] => True | c :: _ => number_unit c = false end.

Lemma units_inj s t : units s = units t -> s = t.
Proof.
  revert t. induction s as [|a s IH]; intros [|b t]; cbn; try done. intros [= H1 H2]. apply IH in H2 as ->. f_equal.
  rewrite <- (ascii_N_embedding a), <- (ascii_N_embedding b). by unfold code in H1; rewrite H1.
Qed.

Lemma span_app p s a t r :
  span p s = (a, t) -> (t = [] -> match r with [] => True | c :: _ => p c = false end) -> span p (s ++ r) = (a, t ++ r).
Proof.
  revert a t. induction s as [|c s IH]; intros a t; cbn.
  - intros [= <- <-] Hr. specialize (Hr eq_refl). destruct r as [|c r]; cbn; [done|]. by rewrite Hr.
  - destruct (p c); [|by intros [= <- <-]]. destruct (span p s) as [a' t']. intros [= <- <-] Hr. by rewrite (IH a' t').
Qed.

Lemma scan_digits_app s a t r : scan_digits s = Some (a, t) -> terminated r -> scan_digits (s ++ r) = Some (a, t ++ r).
Proof.
  unfold scan_digits. intros H Hr. destruct (span dec_digit s) as [ds u] eqn:E. rewrite (span_app _ _ _ _ r E).
  - destruct ds; [done|]. by injection H as <- <-.
  - intros _. destruct r as [|c r]; [done|]. cbn in *. unfold number_unit in Hr. bool_hyps. done.
Qed.

Lemma terminated_neq c r n : terminated (c :: r) -> number_unit n = true -> (c =? n)%N = false.
Proof. cbn. intros Hc Hn. apply N.eqb_neq. congruence. Qed.

Lemma scan_int_app s a t r : scan_int s = Some (a, t) -> terminated r -> scan_int (s ++ r) = Some (a, t ++ r).
Proof.
  destruct s as [|c s]; [done|]. cbn [scan_int app]. destruct (c =? 48)%N; [by intros [= <- <-]|].
  intros H Hr. by apply (scan_digits_app (c :: s)).
Qed.

Lemma scan_fraction_app s a t r : scan_fraction s = Some (a, t) -> terminated r -> scan_fraction (s ++ r) = Some (a, t ++ r).
Proof.
  destruct s as [|c s]; cbn [scan_fraction app].
  - intros [= <- <-] Hr. destruct r as [|c r]; [done|]. cbn. by rewrite (terminated_neq _ _ 46 Hr).
  - destruct (c =? 46)%N; [|by intros [= <- <-]].
    destruct (scan_digits s) as [[ds u]|] eqn:E; [|done]. intros [= <- <-] Hr. by rewrite (scan_digits_app _ _ _ _ E Hr).
Qed.

Lemma scan_exponent_app s a t r : scan_exponent s = Some (a, t) -> terminated r -> scan_exponent (s ++ r) = Some (a, t ++ r).
Proof.
  destruct s as [|c s]; cbn [scan_exponent app].
  - intros [= <- <-] Hr. destruct r as [|c r]; [done|]. cbn. by rewrite !(terminated_neq _ _ _ Hr).
  - destruct (_ || _)%bool; [|by intros [= <- <-]]. destruct s as [|d s]; [done|]. cbn [app]. destruct (_ || _)%bool.
    + destruct (scan_digits s) as [[ds u]|] eqn:E; [|done]. intros [= <- <-] Hr. by rewrite (scan_digits_app _ _ _ _ E Hr).
    + destruct (scan_digits (d :: s)) as [[ds u]|] eqn:E; [|done]. intros [= <- <-] Hr.
      pose proof (scan_digits_app (d :: s) _ _ r E Hr) as E'. cbn [app] in E'. by rewrite E'.
Qed.

Lemma scan_number_app s a t r : scan_number s = Some (a, t) -> terminated r -> scan_number (s ++ r) = Some (a, t ++ r).
Proof.
  intros H Hr. unfold scan_number in *.
  assert (s <> [] -> scan_sign (s ++ r) = ((scan_sign s).1, (scan_sign s).2 ++ r)) as Hs.
  { intros Hne. destruct s as [|c s]; [done|]. cbn. by destruct (c =? 45)%N. }
  assert (s <> []) as Hne by (intros ->; discriminate). rewrite Hs by done.
  destruct (scan_sign s) as [sg u]. cbn [fst snd].
  destruct (scan_int u) as [[i u1]|] eqn:E1; [|done]. rewrite (scan_int_app _ _ _ _ E1 Hr).
  destruct (scan_fraction u1) as [[f u2]|] eqn:E2; [|done]. rewrite (scan_fraction_app _ _ _ _ E2 Hr).
  destruct (scan_exponent u2) as [[e u3]|] eqn:E3; [|done]. rewrite (scan_exponent_app _ _ _ _ E3 Hr).
  by injection H as <- <-.
Qed.

Lemma scan_number_head s a t : scan_number s = Some (a, t) -> exists c r, s = c :: r /\ ((c =? 45)%N = true \/ dec_digit c = true).
Proof.
  unfold scan_number. destruct s as [|c s]; [done|]. intros H. exists c, s. split; [done|]. cbn [scan_sign] in H.
  destruct (c =? 45)%N; [by left|]. right. unfold scan_int in H. destruct (c =? 48)%N eqn:E.
  - apply N.eqb_eq in E as ->. done.
  - unfold scan_digits in H. cbn [span] in H. by destruct (dec_digit c).
Qed.

(** ** What a scanner leaves is a proper suffix *)

Definition suffix_lt (r s : text) : Prop := exists p, p <> [] /\ s = p ++ r.
Definition suffix_le (r s : text) : Prop := exists p, s = p ++ r.

Lemma suffix_lt_le r s : suffix_lt r s -> suffix_le r s.
Proof. intros (p & _ & ->). by exists p. Qed.
Lemma suffix_le_refl s : suffix_le s s.
Proof. by exists []. Qed.
Lemma suffix_le_trans a b c : suffix_le a b -> suffix_le b c -> suffix_le a c.
Proof. intros [p ->] [q ->]. exists (q ++ p). by rewrite app_assoc. Qed.
Lemma suffix_lt_le_trans a b c : suffix_lt a b -> suffix_le b c -> suffix_lt a c.
Proof. intros (p & Hp & ->) [q ->]. exists (q ++ p). split; [by destruct q | by rewrite app_assoc]. Qed.
Lemma suffix_le_lt_trans a b c : suffix_le a b -> suffix_lt b c -> suffix_lt a c.
Proof. intros [p ->] (q & Hq & ->). exists (q ++ p). split; [by destruct q | by rewrite app_assoc]. Qed.
Lemma suffix_cons c r s : suffix_le (c :: r) s -> suffix_lt r s.
Proof. intros [p ->]. exists (p ++ [c]). split; [by destruct p | by rewrite <- app_assoc]. Qed.
Lemma suffix_lt_cons c r s : suffix_le r s -> suffix_lt r (c :: s).
Proof. intros [p ->]. by exists (c :: p). Qed.
Lemma suffix_le_cons c r s : suffix_le r s -> suffix_le r (c :: s).
Proof. intros H. by apply suffix_lt_le, suffix_lt_cons. Qed.
Lemma suffix_lt_length r s : suffix_lt r s -> (length r < length s)%nat.
Proof. intros (p & Hp & ->). rewrite length_app. destruct p; [done|]. cbn. lia. Qed.
Lemma suffix_Forall P r s : suffix_le r s -> Forall P s -> Forall P r.
Proof. intros [p ->] [_ H]%Forall_app. done. Qed.

(** Closes goals on suffixes by chaining those among the hypotheses. *)
Ltac learn H := let T := type of H in lazymatch goal with _ : T |- _ => fail | _ => pose proof H end.
Ltac suffix_chain :=
  repeat match goal with
  | H : suffix_le (_ :: _) _ |- _ => learn (suffix_cons _ _ _ H)
  | H1 : suffix_lt ?a ?b, H2 : suffix_lt ?b ?c |- _ => learn (suffix_lt_le_trans a b c H1 (suffix_lt_le _ _ H2))
  | H1 : suffix_lt ?a ?b, H2 : suffix_le ?b ?c |- _ => learn (suffix_lt_le_trans a b c H1 H2)
  | H1 : suffix_le ?a ?b, H2 : suffix_lt ?b ?c |- _ => learn (suffix_le_lt_trans a b c H1 H2)
  | H1 : suffix_le ?a ?b, H2 : suffix_le ?b ?c |- _ => learn (suffix_le_trans a b c H1 H2)
  end; first [assumption | apply suffix_lt_le; assumption].

Create HintDb suffix discriminated.
#[export] Hint Resolve suffix_le_refl suffix_lt_le suffix_cons suffix_lt_cons suffix_le_cons : suffix.

Lemma skip_ws_suffix s : suffix_le (skip_ws s) s.
Proof. induction s as [|c s IH]; cbn; [|destruct (_ || _)%bool]; auto with suffix. Qed.

Lemma after_app p s r : after p s = Some r <-> s = p ++ r.
Proof.
  revert s. induction p as [|a p IH]; intros s; cbn; [naive_solver|]. destruct s as [|b s]; [done|]. destruct (N.eqb_spec a b) as [->|Hn].
  - rewrite IH. naive_solver.
  - naive_solver.
Qed.

Lemma after_suffix p s r : p <> [] -> after p s = Some r -> suffix_lt r s.
Proof. intros Hp ->%after_app. by exists p. Qed.

Lemma span_suffix p s a t : span p s = (a, t) -> s = a ++ t.
Proof.
  revert a t. induction s as [|c s IH]; intros a t; cbn; [by intros [= <- <-]|]. destruct (p c); [|by intros [= <- <-]].
  destruct (span p s) as [a' t'] eqn:E. intros [= <- <-]. by rewrite (IH a' t').
Qed.

Lemma scan_digits_suffix s a t : scan_digits s = Some (a, t) -> suffix_lt t s.
Proof.
  unfold scan_digits. destruct (span dec_digit s) as [ds u] eqn:E. apply span_suffix in E as ->.
  destruct ds; [done|]. intros [= <- <-]. by eexists (_ :: _).
Qed.

Lemma scan_number_suffix s a t : scan_number s = Some (a, t) -> suffix_lt t s.
Proof.
  unfold scan_number. intros H.
  assert (suffix_le (scan_sign s).2 s) as H0 by (destruct s as [|c s]; cbn; [|destruct (c =? 45)%N]; cbn; auto with suffix).
  destruct (scan_sign s) as [sg u]. destruct (scan_int u) as [[i u1]|] eqn:E1; [|done].
  destruct (scan_fraction u1) as [[f u2]|] eqn:E2; [|done]. destruct (scan_exponent u2) as [[e u3]|] eqn:E3; [|done].
  injection H as <- <-. cbn [snd] in H0.
  assert (suffix_lt u1 u) as H1.
  { destruct u as [|c u]; [done|]. cbn in E1. destruct (c =? 48)%N; [injection E1 as <- <-; auto with suffix|]. by apply scan_digits_suffix in E1. }
  assert (suffix_le u2 u1) as H2.
  { destruct u1 as [|c v]; cbn in E2; [injection E2 as <- <-; auto with suffix|]. destruct (c =? 46)%N; [|injection E2 as <- <-; auto with suffix].
    destruct (scan_digits v) as [[ds w]|] eqn:E; [|done]. injection E2 as <- <-. apply scan_digits_suffix in E. auto with suffix. }
  assert (suffix_le u3 u2) as H3.
  { destruct u2 as [|c v]; cbn in E3; [injection E3 as <- <-; auto with suffix|]. destruct (_ || _)%bool; [|injection E3 as <- <-; auto with suffix].
    destruct v as [|d v]; [done|]. destruct (_ || _)%bool.
    - destruct (scan_digits v) as [[ds w]|] eqn:E; [|done]. injection E3 as <- <-. apply scan_digits_suffix in E. auto with suffix.
    - destruct (scan_digits (d :: v)) as [[ds w]|] eqn:E; [|done]. injection E3 as <- <-. apply scan_digits_suffix in E. auto with suffix. }
  eapply suffix_lt_le_trans; [|exact H0]. eapply suffix_le_lt_trans; [|exact H1]. by eapply suffix_le_trans.
Qed.

(** ** Strings *)

Lemma hex_value_digit n : (n < 16)%N -> hex_value (hex_digit n) = Some n.
Proof.
  intros Hn. assert (forallb (fun n => bool_decide (hex_value (hex_digit n) = Some n)) (map N.of_nat (seq 0 16)) = true) as H
    by (vm_compute; reflexivity).
  rewrite forallb_forall in H. specialize (H n). rewrite bool_decide_eq_true in H. apply H.
  apply in_map_iff. exists (N.to_nat n). split; [lia|]. apply in_seq. lia.
Qed.

Lemma hex4_unicode c : unit16 c ->
  hex4 (hex_digit (c / 4096)) (hex_digit (c / 256 mod 16)) (hex_digit (c / 16 mod 16)) (hex_digit (c mod 16)) = Some c.
Proof.
  unfold unit16. intros Hc. unfold hex4. rewrite !hex_value_digit.
  2-5: zify; Z.to_euclidean_division_equations; lia.
  f_equal. zify; Z.to_euclidean_division_equations; lia.
Qed.

Lemma hex4_unit a b c d n : hex4 a b c d = Some n -> unit16 n.
Proof.
  unfold hex4, unit16. assert (forall h v, hex_value h = Some v -> (v < 16)%N) as Hv.
  { intros h v. unfold hex_value, dec_digit. intros Hh.
    repeat match type of Hh with
    | (if ?b then _ else _) = _ => let E := fresh in destruct b eqn:E; [injection Hh as <-; bool_hyps; rewrite ?N.leb_le in *; lia|]
    end. done. }
  destruct (hex_value a) as [x|] eqn:?, (hex_value b) as [y|] eqn:?, (hex_value c) as [z|] eqn:?, (hex_value d) as [w|] eqn:?; try done.
  intros [= <-]. repeat match goal with H : hex_value _ = Some _ |- _ => apply Hv in H end. lia.
Qed.

Lemma escape_letter_unit c l : escape_letter c = Some l ->
  escaped_unit l = Some c /\ (l =? 117)%N = false /\ unit16 l.
Proof.
  unfold escape_letter, escapes. cbn [List.find snd fst].
  repeat match goal with |- context [(?a =? c)%N] => destruct (N.eqb_spec a c) as [<-|?]; [by intros [= <-]|] end. done.
Qed.

Lemma escape_letter_None c : escape_letter c = None -> (c =? 34)%N = false /\ (c =? 92)%N = false.
Proof.
  unfold escape_letter, escapes. cbn [List.find snd fst].
  repeat match goal with |- context [(?a =? c)%N] => destruct (N.eqb_spec a c) as [<-|?]; [done|] end. intros _.
  split; apply N.eqb_neq; congruence.
Qed.

Lemma scan_unicode c r : unit16 c ->
  scan_string (unicode_escape c ++ r) = prod_map (cons c) Datatypes.id <$> scan_string r.
Proof. intros Hc. unfold unicode_escape. cbn [app scan_string N.eqb Pos.eqb]. by rewrite hex4_unicode. Qed.

Lemma scan_plain c r : escape_letter c = None -> (c <? 32)%N = false ->
  scan_string (c :: r) = prod_map (cons c) Datatypes.id <$> scan_string r.
Proof. intros [H1 H2]%escape_letter_None H3. cbn [scan_string]. by rewrite H1, H2, H3. Qed.

Lemma scan_quoted s r : Forall unit16 s -> scan_string (quoted s ++ 34%N :: r) = Some (s, r).
Proof.
  remember (length s) as n eqn:Hn. assert (length s <= n)%nat as Hl by lia. clear Hn.
  revert s Hl. induction n as [|n IH]; intros [|c s] Hl Hs; cbn [length] in Hl; try done; [lia|].
  apply Forall_cons_1 in Hs as [Hc Hs]. cbn [quoted]. destruct (escape_letter c) as [l|] eqn:El.
  { apply escape_letter_unit in El as (El & Hu & _). cbn [app scan_string N.eqb Pos.eqb]. rewrite Hu, El, IH by (try done; lia). done. }
  destruct (c <? 32)%N eqn:E32.
  { rewrite <- app_assoc, scan_unicode, IH by (try done; lia). done. }
  destruct (is_lead c) eqn:Elead.
  - destruct s as [|d s].
    + rewrite scan_unicode by done. done.
    + apply Forall_cons_1 in Hs as [Hd Hs]. cbn [length] in Hl. destruct (is_trail d) eqn:Et.
      * assert (escape_letter d = None /\ (d <? 32)%N = false) as [Hd1 Hd2].
        { unfold is_trail in Et. bool_hyps. apply N.leb_le in H. split; [|apply N.ltb_ge; lia].
          unfold escape_letter, escapes. cbn [List.find snd fst].
          repeat match goal with |- context [(?a =? d)%N] => rewrite (proj2 (N.eqb_neq a d)) by lia end. done. }
        cbn [app]. rewrite scan_plain, scan_plain, IH by (try done; lia). done.
      * rewrite <- app_assoc, scan_unicode, IH by (try done; try constructor; cbn [length]; try done; lia). done.
  - destruct (is_trail c).
    + rewrite <- app_assoc, scan_unicode, IH by (try done; lia). done.
    + cbn [app]. rewrite scan_plain, IH by (try done; lia). done.
Qed.

Lemma scan_string_suffix s a r : scan_string s = Some (a, r) -> suffix_lt r s /\ (Forall unit16 s -> Forall unit16 a).
Proof.
  remember (length s) as n eqn:Hn. assert (length s <= n)%nat as Hl by lia. clear Hn.
  revert s a r Hl. induction n as [|n IH]; intros [|c s] a r Hl; cbn [length] in Hl; try done; [lia|]. cbn [scan_string].
  destruct (c =? 34)%N; [intros [= <- <-]; auto with suffix|]. destruct (c =? 92)%N.
  - destruct s as [|l s]; [done|]. cbn [length] in Hl. destruct (l =? 117)%N.
    + destruct s as [|h1 [|h2 [|h3 [|h4 s]]]]; try done. destruct (hex4 h1 h2 h3 h4) as [x|] eqn:Ex; [|done]. cbn [length] in Hl.
      destruct (scan_string s) as [[a' r']|] eqn:E; [|done]. intros [= <- <-]. destruct (IH s a' r' ltac:(lia) E) as [H1 H2].
      split; [auto 10 with suffix|]. rewrite !Forall_cons. intros (_ & _ & _ & _ & _ & _ & Hs).
      split; [by eapply hex4_unit | by apply H2].
    + destruct (escaped_unit l) as [x|] eqn:Ex; [|done]. destruct (scan_string s) as [[a' r']|] eqn:E; [|done].
      intros [= <- <-]. destruct (IH s a' r' ltac:(lia) E) as [H1 H2]. split; [auto with suffix|]. rewrite !Forall_cons. intros (_ & Hu & Hs).
      split; [|by apply H2]. unfold escaped_unit, escapes in Ex. destruct (l =? 47)%N; [by injection Ex as <-|].
      cbn [List.find fst snd] in Ex. repeat (destruct (_ =? l)%N in Ex; [by injection Ex as <-|]). done.
  - destruct (c <? 32)%N; [done|]. destruct (scan_string s) as [[a' r']|] eqn:E; [|done]. intros [= <- <-].
    destruct (IH s a' r' ltac:(lia) E) as [H1 H2]. split; [auto with suffix|]. rewrite !Forall_cons. intros [Hc Hs]. split; [done | by apply H2].
Qed.

(** ** Members *)

Section members.
  Context {number : Type} `{JSNumber number}.
  Abbreviation json := (json number).
  Implicit Types (m : list (text * json)) (v : json).

Lemma before_trans k k' k'' : before k k' = true -> before k'' k' = false -> before k'' k = false /\ k <> k''.
Proof.
  unfold before. intros H1 H2. destruct (array_index k) as [i|] eqn:Ei; [|done].
  destruct (array_index k'') as [j''|] eqn:Ej''; [|split; [done | congruence]].
  destruct (array_index k') as [j|]; [|done]. apply N.ltb_lt in H1. apply N.ltb_ge in H2.
  split; [apply N.ltb_ge; lia|]. intros ->. rewrite Ej'' in Ei. injection Ei as ->. lia.
Qed.

Lemma set_member_elem k v m e : e ∈ set_member k v m -> e = (k, v) \/ e ∈ m.
Proof.
  induction m as [|[k' v'] m IH]; cbn [set_member]; [rewrite list_elem_of_singleton; auto|]. case_bool_decide; [set_solver|].
  destruct (before k k'); set_solver.
Qed.

Lemma set_member_sorted k v m : StronglySorted comes m -> StronglySorted comes (set_member k v m).
Proof.
  induction 1 as [|[k' v'] m Hm IH Hf]; cbn [set_member]; [repeat constructor|]. case_bool_decide as E; [subst k'; by constructor|].
  destruct (before k k') eqn:Eb.
  - constructor; [by constructor|]. constructor.
    + split; [done|]. cbn. unfold before in *. destruct (array_index k) as [i|]; [|done].
      destruct (array_index k') as [j|]; [|done]. apply N.ltb_lt in Eb. apply N.ltb_ge. lia.
    + eapply Forall_impl; [exact Hf|]. intros e [_ Hb]. cbn in Hb. destruct (before_trans _ _ _ Eb Hb). done.
  - constructor; [done|]. apply Forall_forall. intros e [->|He]%set_member_elem; [done|]. by apply (proj1 (Forall_forall _ _) Hf).
Qed.

Lemma set_member_snoc k v m : Forall (fun e => comes e (k, v)) m -> set_member k v m = m ++ [(k, v)].
Proof.
  induction 1 as [|[k' v'] m [Hne Hb] _ IH]; [done|]. cbn [fst snd] in *. cbn [set_member app].
  rewrite bool_decide_false by congruence. by rewrite Hb, IH.
Qed.

Lemma of_members_sorted m : StronglySorted comes m -> of_members m = m.
Proof.
  unfold of_members. intros Hm. change m with ([] ++ m) in Hm |- * at 2. generalize (@nil (text * json)) as acc, Hm.
  clear Hm. induction m as [|[k v] m IH]; intros acc Hs; [by rewrite app_nil_r|]. cbn [fold_left fst snd].
  rewrite set_member_snoc.
  - rewrite IH; by rewrite <- app_assoc.
  - apply Forall_forall. intros e He. apply StronglySorted_app in Hs as (Hs & _). apply Hs; set_solver.
Qed.

Lemma sorted_map (f : json -> json) m :
  StronglySorted comes m -> StronglySorted comes (map (fun '(k, v) => (k, f v)) m).
Proof.
  induction 1 as [|[k v] m Hm IH Hf]; cbn [map]; constructor; [done|]. apply Forall_map. eapply Forall_impl; [exact Hf|]. by intros [k' v'].
Qed.
End members.

(** ** The scanner of values *)

Section values.
  Context {number : Type} `{JSNumber number}.
  Abbreviation json := (json number).

Lemma scan_scalar_suffix s (v : json) r : scan_scalar s = Some (v, r) -> suffix_lt r s /\ wf v.
Proof.
  unfold scan_scalar. destruct (after (lit "null") s) eqn:E1; [|destruct (after (lit "true") s) eqn:E2; [|destruct (after (lit "false") s) eqn:E3]].
  1-3: intros [= <- <-]; split; [eapply after_suffix; [|eassumption]; discriminate | constructor].
  destruct (scan_number s) as [[l u]|] eqn:E; [|done]. intros [= <- <-]. split; [by eapply scan_number_suffix | constructor].
Qed.

Lemma scan_value_S f s : scan_value (S f) s = value_step (scan_elements f) (scan_members f []) s :> option (json * text).
Proof. reflexivity. Qed.
Lemma scan_elements_S f s : scan_elements (S f) s = elements_step (scan_value f) (scan_elements f) s :> option (list json * text).
Proof. reflexivity. Qed.
Lemma scan_members_S f m s :
  scan_members (S f) m s = members_step (scan_value f) (scan_members f) m s :> option (list (text * json) * text).
Proof. reflexivity. Qed.

(** What the scanners leave, and what they build. *)
Lemma scan_suffix f :
  (forall s (v : json) r, scan_value f s = Some (v, r) -> suffix_lt r s /\ (Forall unit16 s -> wf v)) /\
  (forall s (l : list json) r, scan_elements f s = Some (l, r) -> suffix_lt r s /\ (Forall unit16 s -> Forall wf l)) /\
  (forall m s (m' : list (text * json)) r, scan_members f m s = Some (m', r) ->
     suffix_lt r s /\ (Forall unit16 s -> wf (JObject m) -> wf (JObject m'))).
Proof.
  induction f as [|f (IHv & IHe & IHm)]; [done|]. split; [|split].
  - intros s v r. rewrite !scan_value_S. unfold value_step. pose proof (skip_ws_suffix s) as Hs. destruct (skip_ws s) as [|c u] eqn:Es; [done|].
    assert (suffix_le u s) as Hu by suffix_chain. pose proof (skip_ws_suffix u) as Hw.
    assert (forall t, suffix_lt t (skip_ws u) \/ suffix_lt t u -> suffix_lt t s) as Hlt by (intros t [Ht|Ht]; suffix_chain).
    destruct (c =? 34)%N.
    { destruct (scan_string u) as [[a t]|] eqn:E; [|done]. intros [= <- <-]. apply scan_string_suffix in E as [Ht Ha].
      split; [auto|]. intros Hf. constructor. apply Ha. by eapply suffix_Forall. }
    destruct (c =? 91)%N.
    { destruct (after [93%N] (skip_ws u)) as [t|] eqn:E.
      - intros [= <- <-]. apply after_suffix in E; [|done]. split; [auto | by constructor].
      - destruct (scan_elements f u) as [[l t]|] eqn:El; [|done]. intros [= <- <-]. apply IHe in El as [Ht Hl].
        split; [auto|]. intros Hf. constructor. apply Hl. by eapply suffix_Forall. }
    destruct (c =? 123)%N.
    { destruct (after [125%N] (skip_ws u)) as [t|] eqn:E.
      - intros [= <- <-]. apply after_suffix in E; [|done]. split; [auto|]. intros _. constructor; constructor.
      - destruct (scan_members f [] u) as [[l t]|] eqn:El; [|done]. intros [= <- <-]. apply IHm in El as [Ht Hl].
        split; [auto|]. intros Hf. apply Hl; [by eapply suffix_Forall | constructor; constructor]. }
    intros [Ht Hv]%scan_scalar_suffix. split; [by eapply suffix_lt_le_trans | done].
  - intros s l r. rewrite !scan_elements_S. unfold elements_step. destruct (scan_value f s) as [[v t]|] eqn:Ev; [|done]. apply IHv in Ev as [Ht Hv].
    pose proof (skip_ws_suffix t) as Hw. destruct (skip_ws t) as [|c u]; [done|].
    assert (suffix_lt u s) as Hu by suffix_chain. destruct (c =? 44)%N.
    + destruct (scan_elements f u) as [[l' t']|] eqn:El; [|done]. intros [= <- <-]. apply IHe in El as [Ht' Hl].
      split; [suffix_chain|]. intros Hf. constructor; [auto|]. apply Hl. eapply suffix_Forall; [|exact Hf]. suffix_chain.
    + destruct (c =? 93)%N; [|done]. intros [= <- <-]. split; [done|]. intros Hf. constructor; auto.
  - intros m s m' r. rewrite !scan_members_S. unfold members_step. pose proof (skip_ws_suffix s) as Hs.
    destruct (after [34%N] (skip_ws s)) as [u|] eqn:Eq; [|done]. apply after_suffix in Eq; [|done].
    destruct (scan_string u) as [[k t]|] eqn:Ek; [|done]. apply scan_string_suffix in Ek as [Ht Hk].
    destruct (after [58%N] (skip_ws t)) as [w|] eqn:Ec; [|done]. apply after_suffix in Ec; [|done].
    pose proof (skip_ws_suffix t) as Hwt. destruct (scan_value f w) as [[v x]|] eqn:Ev; [|done]. apply IHv in Ev as [Hx Hv].
    pose proof (skip_ws_suffix x) as Hwx. destruct (skip_ws x) as [|c y]; [done|].
    assert (suffix_le u s) as H1 by suffix_chain.
    assert (suffix_le w s) as H2 by suffix_chain.
    assert (suffix_lt y s) as H3 by suffix_chain.
    assert (Forall unit16 s -> wf (JObject m) -> wf (JObject (set_member k v m))) as Hwf.
    { intros Hf Hm. inversion Hm as [| | | | |? Hm1 Hm2]; subst. constructor; [|by apply set_member_sorted].
      apply Forall_forall. intros e [->|He]%set_member_elem; [|by apply (proj1 (Forall_forall _ _) Hm1)].
      split; [apply Hk | apply Hv]; by eapply suffix_Forall. }
    destruct (c =? 44)%N.
    + intros Em. apply IHm in Em as [Hr Hw]. split; [suffix_chain|]. intros Hf Hm. apply Hw; [|auto].
      eapply suffix_Forall; [|exact Hf]. suffix_chain.
    + destruct (c =? 125)%N; [|done]. intros [= <- <-]. auto.
Qed.

(** More fuel than twice the text changes nothing. *)
Lemma scan_fuel n : forall s, (length s <= n)%nat ->
  (forall f1 f2, (2 * length s + 1 <= f1)%nat -> (2 * length s + 1 <= f2)%nat ->
     scan_value f1 s = scan_value f2 s :> option (json * text)) /\
  (forall f1 f2, (2 * length s + 2 <= f1)%nat -> (2 * length s + 2 <= f2)%nat ->
     scan_elements f1 s = scan_elements f2 s :> option (list json * text)) /\
  (forall f1 f2 (m : list (text * json)), (2 * length s + 2 <= f1)%nat -> (2 * length s + 2 <= f2)%nat ->
     scan_members f1 m s = scan_members f2 m s).
Proof.
  induction n as [|n IH]; intros s Hn.
  { assert (s = []) as -> by (destruct s; [done | cbn [length] in Hn; lia]).
    split; [|split]; [intros [|f1] [|f2] | intros [|[|f1]] [|[|f2]] | intros [|f1] [|f2] m]; cbn [length]; intros; by try lia. }
  assert (forall f1 f2, (2 * length s + 1 <= f1)%nat -> (2 * length s + 1 <= f2)%nat ->
    scan_value f1 s = scan_value f2 s :> option (json * text)) as Hv.
  { intros [|f1] [|f2] H1 H2; try lia. rewrite !scan_value_S. unfold value_step. pose proof (skip_ws_suffix s) as Hs.
    destruct (skip_ws s) as [|c u]; [done|]. assert (length u < length s)%nat by (apply suffix_lt_length; suffix_chain).
    destruct (IH u ltac:(lia)) as (_ & He & Hm). rewrite (He f1 f2), (Hm f1 f2) by lia. done. }
  split; [done|]. split.
  - intros [|f1] [|f2] H1 H2; try lia.
    rewrite !scan_elements_S. unfold elements_step. rewrite (Hv f1 f2) by lia.
    destruct (scan_value f2 s) as [[v t]|] eqn:Ev; [|done]. apply scan_suffix in Ev as [Ht _]. apply suffix_lt_length in Ht.
    pose proof (skip_ws_suffix t) as Hw. destruct (skip_ws t) as [|c u]; [done|].
    assert (length u < length t)%nat by (apply suffix_lt_length; suffix_chain).
    destruct (IH u ltac:(lia)) as (_ & He & _). by rewrite (He f1 f2) by lia.
  - intros [|f1] [|f2] m H1 H2; try lia. rewrite !scan_members_S. unfold members_step. pose proof (skip_ws_suffix s) as Hs.
    destruct (after [34%N] (skip_ws s)) as [u|] eqn:Eq; [|done]. apply after_suffix in Eq; [|done].
    assert (length u < length s)%nat by (apply suffix_lt_length; suffix_chain).
    destruct (scan_string u) as [[k t]|] eqn:Ek; [|done]. apply scan_string_suffix in Ek as [Ht%suffix_lt_length _].
    destruct (after [58%N] (skip_ws t)) as [w|] eqn:Ec; [|done]. apply after_suffix in Ec; [|done].
    assert (length w < length t)%nat by (apply suffix_lt_length; pose proof (skip_ws_suffix t); suffix_chain).
    destruct (IH w ltac:(lia)) as (Hvw & _). rewrite (Hvw f1 f2) by lia.
    destruct (scan_value f2 w) as [[v x]|] eqn:Ev; [|done]. apply scan_suffix in Ev as [Hx%suffix_lt_length _].
    pose proof (skip_ws_suffix x) as Hwx. destruct (skip_ws x) as [|c y]; [done|].
    assert (length y < length x)%nat by (apply suffix_lt_length; suffix_chain).
    destruct (IH y ltac:(lia)) as (_ & _ & Hm). by rewrite (Hm f1 f2) by lia.
Qed.
End values.

(** ** Round trip *)

Section roundtrip.
  Context {number : Type} `{JSNumber number}.
  Abbreviation json := (json number).

(** The texts of a value, without the order of its members. *)
Fixpoint unit16s (v : json) : Prop :=
  match v with
  | JString s => Forall unit16 s
  | JArray l => List.fold_right (fun v P => unit16s v /\ P) True l
  | JObject m => List.fold_right (fun '(k, v) P => Forall unit16 k /\ unit16s v /\ P) True m
  | _ => True
  end.

(** The first unit of a value's text. *)
Definition value_unit (c : N) : bool :=
  dec_digit c || (c =? 45)%N || (c =? 34)%N || (c =? 91)%N || (c =? 123)%N || (c =? 110)%N || (c =? 116)%N || (c =? 102)%N.

Lemma stringify_head v : exists c t, JSON_stringify v = c :: t /\ value_unit c = true.
Proof.
  destruct v as [|[]|n|s|l|m]; cbn [JSON_stringify]; try (eexists _, _; split; [reflexivity | reflexivity]).
  destruct (finite n) eqn:E; [|eexists _, _; split; [reflexivity | reflexivity]].
  destruct (scan_number_head _ _ _ (Number_text_literal n E)) as (c & t & -> & Hc). exists c, t. split; [done|].
  unfold value_unit. by destruct Hc as [-> | ->]; rewrite ?orb_true_r.
Qed.

Lemma skip_ws_value c t : value_unit c = true -> skip_ws (c :: t) = c :: t.
Proof.
  intros Hc. cbn. assert ((c =? 32)%N || (c =? 9)%N || (c =? 10)%N || (c =? 13)%N = false) as ->; [|done].
  repeat rewrite orb_false_iff. repeat split; apply N.eqb_neq; intros ->; discriminate.
Qed.

Lemma after_value c t p : value_unit c = true -> value_unit p = false -> after [p] (skip_ws (c :: t)) = None.
Proof. intros Hc Hp. rewrite skip_ws_value by done. cbn. rewrite (proj2 (N.eqb_neq p c)); [done | congruence]. Qed.

Lemma scan_scalar_number n r : finite n = true -> terminated r ->
  scan_scalar (Number_text n ++ r) = Some (JNumber (Number_parse (Number_text n)) : json, r).
Proof.
  intros Hn Hr. pose proof (Number_text_literal n Hn) as Hl. destruct (scan_number_head _ _ _ Hl) as (c & t & E & Hc).
  unfold scan_scalar. assert (forall d p, (d =? 45)%N = false -> dec_digit d = false -> after (d :: p) (Number_text n ++ r) = None) as Ha.
  { intros d p H1 H2. rewrite E. cbn [app after]. rewrite (proj2 (N.eqb_neq d c)); [done|]. intros ->. destruct Hc; congruence. }
  change (lit "null") with (110%N :: lit "ull"). change (lit "true") with (116%N :: lit "rue"). change (lit "false") with (102%N :: lit "alse").
  rewrite !Ha by done. by rewrite (scan_number_app _ _ _ _ Hl Hr).
Qed.

(** With enough fuel the scanner reads a value back from its text. *)
Definition reads (v : json) : Prop := forall r, terminated r ->
  exists f0, forall f, (f0 <= f)%nat -> scan_value f (JSON_stringify v ++ r) = Some (norm v, r).

Lemma reads_scalar v :
  (exists c t, JSON_stringify v = c :: t /\ (c =? 34)%N = false /\ (c =? 91)%N = false /\ (c =? 123)%N = false /\ value_unit c = true) ->
  (forall r, terminated r -> scan_scalar (JSON_stringify v ++ r) = Some (norm v, r)) -> reads v.
Proof.
  intros (c & t & Hv & H1 & H2 & H3 & Hc) Hs r Hr. exists 1%nat. intros [|f'] Hf; [lia|]. rewrite scan_value_S. unfold value_step.
  rewrite <- (Hs r Hr), Hv. cbn [app]. rewrite skip_ws_value by done. by rewrite H1, H2, H3.
Qed.

Lemma reads_elements l : l <> [] -> Forall reads l -> forall r,
  exists f0, forall f, (f0 <= f)%nat ->
    scan_elements f (commas (map JSON_stringify l) ++ 93%N :: r) = Some (map norm l, r).
Proof.
  intros Hne Hl r. induction Hl as [|v l Hv Hl IH]; [done|]. destruct l as [|w l].
  - destruct (Hv (93%N :: r) eq_refl) as [f0 Hf0]. exists (S f0). intros [|f] Hf; [lia|]. rewrite scan_elements_S. unfold elements_step.
    cbn [map commas]. by rewrite Hf0 by lia.
  - destruct (IH ltac:(done)) as [f1 Hf1].
    destruct (Hv (44%N :: commas (map JSON_stringify (w :: l)) ++ 93%N :: r) eq_refl) as [f0 Hf0].
    exists (S (max f0 f1)). intros [|f] Hf; [lia|]. rewrite scan_elements_S. unfold elements_step.
    change (map JSON_stringify (v :: w :: l)) with (JSON_stringify v :: map JSON_stringify (w :: l)).
    assert (forall x xs, xs <> [] -> commas (x :: xs) = x ++ 44%N :: commas xs) as Hc by (by intros x [|]).
    rewrite Hc, <- app_assoc by done. cbn [app]. rewrite Hf0 by lia. cbn [skip_ws N.eqb Pos.eqb orb]. by rewrite Hf1 by lia.
Qed.

Definition member_text (e : text * json) : text := let '(k, v) := e in quote k ++ 58%N :: JSON_stringify v.

Lemma reads_members m : m <> [] -> Forall (fun e => Forall unit16 (fst e) /\ reads (snd e)) m -> forall acc r,
  exists f0, forall f, (f0 <= f)%nat ->
    scan_members f acc (commas (map member_text m) ++ 125%N :: r) =
    Some (fold_left (fun a e => set_member (fst e) (snd e) a) (map (fun '(k, v) => (k, norm v)) m) acc, r).
Proof.
  intros Hne Hm. induction Hm as [|[k v] m [Hk Hv] Hm IH]; [done|]. intros acc r. cbn [fst snd] in *.
  assert (forall f x, scan_members (S f) acc (member_text (k, v) ++ x) =
    match scan_value f (JSON_stringify v ++ x) with
    | None => None
    | Some (v, r) =>
        match skip_ws r with
        | [] => None
        | c :: r => if (c =? 44)%N then scan_members f (set_member k v acc) r
                    else if (c =? 125)%N then Some (set_member k v acc, r) else None
        end
    end) as Hstep.
  { intros f x. rewrite scan_members_S. unfold members_step, member_text, quote. rewrite <- app_assoc. cbn [app skip_ws N.eqb Pos.eqb orb after].
    rewrite <- app_assoc. cbn [app]. rewrite scan_quoted by done. reflexivity. }
  destruct m as [|e m].
  - destruct (Hv (125%N :: r) eq_refl) as [f0 Hf0]. exists (S f0). intros [|f] Hf; [lia|]. cbn [map commas]. rewrite Hstep.
    by rewrite Hf0 by lia.
  - set (rest := commas (map member_text (e :: m)) ++ 125%N :: r).
    destruct (IH ltac:(done) (set_member k (norm v) acc) r) as [f1 Hf1]. destruct (Hv (44%N :: rest) eq_refl) as [f0 Hf0].
    exists (S (max f0 f1)). intros [|f] Hf; [lia|].
    assert (commas (map member_text ((k, v) :: e :: m)) ++ 125%N :: r = member_text (k, v) ++ 44%N :: rest) as ->.
    { subst rest. cbn [map commas]. by rewrite <- app_assoc. }
    rewrite Hstep, Hf0 by lia. cbn [skip_ws N.eqb Pos.eqb orb]. subst rest. rewrite Hf1 by lia. reflexivity.
Qed.

Lemma reads_all v : unit16s v -> reads v.
Proof.
  induction v as [|b|n|s|l IH|m IH] using json_nested_ind; intros Hu.
  - apply (reads_scalar); [by eexists _, _ | done].
  - apply (reads_scalar); [by destruct b; eexists _, _ | by destruct b].
  - destruct (finite n) eqn:Hn; cbn [norm]; rewrite ?Hn.
    + apply (reads_scalar); cbn [JSON_stringify norm]; rewrite Hn; [|by intros; apply scan_scalar_number].
      destruct (scan_number_head _ _ _ (Number_text_literal n Hn)) as (c & t & -> & Hc). exists c, t. split; [done|].
      repeat split; try (apply N.eqb_neq; intros ->; by destruct Hc). unfold value_unit. by destruct Hc as [-> | ->]; rewrite ?orb_true_r.
    + apply (reads_scalar); cbn [JSON_stringify norm]; rewrite Hn; [by eexists _, _ | done].
  - intros r Hr. exists 1%nat. intros [|f] Hf; [lia|]. rewrite scan_value_S. unfold value_step. cbn [JSON_stringify norm unit16s] in *. unfold quote.
    cbn [app]. rewrite <- app_assoc. cbn [skip_ws N.eqb Pos.eqb orb app]. by rewrite scan_quoted.
  - intros r Hr. cbn [JSON_stringify norm]. destruct l as [|v l].
    + exists 1%nat. intros [|f] Hf; [lia|]. reflexivity.
    + destruct (reads_elements (v :: l) ltac:(done)) with (r := r) as [f0 Hf0].
      { clear Hr r. cbn [unit16s] in Hu. revert Hu. generalize (v :: l) as l', IH. clear. induction 1; cbn; constructor; naive_solver. }
      exists (S f0). intros [|f] Hf; [lia|]. rewrite scan_value_S. unfold value_step. cbn [app]. rewrite <- app_assoc. cbn [app].
      cbn [skip_ws N.eqb Pos.eqb orb]. rewrite Hf0 by lia.
      destruct (stringify_head v) as (c & t & Hv & Hc).
      assert (exists t, commas (map JSON_stringify (v :: l)) = c :: t) as [t' ->] by (cbn; rewrite Hv; destruct (map JSON_stringify l); by eexists).
      cbn [app]. by rewrite after_value.
  - intros r Hr. cbn [JSON_stringify norm]. destruct m as [|[k v] m].
    + exists 1%nat. intros [|f] Hf; [lia|]. reflexivity.
    + destruct (reads_members ((k, v) :: m) ltac:(done)) with (acc := @nil (text * json)) (r := r) as [f0 Hf0].
      { clear Hr r. cbn [unit16s] in Hu. revert Hu. generalize ((k, v) :: m) as m', IH. clear.
        induction 1 as [|[k v] m]; cbn in *; constructor; naive_solver. }
      exists (S f0). intros [|f] Hf; [lia|]. rewrite scan_value_S. unfold value_step. cbn [app]. rewrite <- app_assoc. cbn [app].
      cbn [skip_ws N.eqb Pos.eqb orb]. unfold member_text in Hf0. rewrite Hf0 by lia.
      assert (exists t, commas (map (fun '(k, v) => quote k ++ 58%N :: JSON_stringify v) ((k, v) :: m)) = 34%N :: t) as [t' ->]
        by (cbn; unfold quote; destruct (map _ m); by eexists).
      cbn [app]. by rewrite after_value.
Qed.

Lemma wf_unit16s v : wf v -> unit16s v.
Proof.
  induction v as [|b|n|s|l IH|m IH] using json_nested_ind; intros Hv; inversion Hv as [| | |? Hs|? Hl|? Hm _]; subst; cbn; try done.
  - clear Hv. induction IH; [done|]. cbn. apply Forall_cons_1 in Hl as [? ?]. auto.
  - clear Hv. induction IH as [|[k v] m]; [done|]. cbn. apply Forall_cons_1 in Hm as [[? ?] ?]. auto.
Qed.

(** The normal form of a value of the engine has the same text, and is one. *)
Lemma norm_wf v : wf v -> JSON_stringify (norm v) = JSON_stringify v /\ wf (norm v).
Proof.
  induction v as [|b|n|s|l IH|m IH] using json_nested_ind; intros Hv; inversion Hv as [| | |? Hs|? Hl|? Hm Ho]; subst; cbn [norm]; try done.
  - destruct (finite n) eqn:Hn; cbn [JSON_stringify]; [|rewrite Hn; split; [done | constructor]]. destruct (Number_text_parse n Hn) as [-> ->]. rewrite Hn. split; [done | constructor].
  - assert (Forall (fun v => JSON_stringify (norm v) = JSON_stringify v /\ wf (norm v)) l) as Hall
      by (clear Hv; induction IH; [done|]; apply Forall_cons_1 in Hl as [? ?]; constructor; auto).
    clear Hv IH Hl. cbn [JSON_stringify]. split.
    + do 3 f_equal. induction Hall as [|v l [Hv _] _ IH]; [done|]. cbn. by rewrite Hv, IH.
    + constructor. induction Hall as [|v l [_ Hv] _ IH]; cbn; by constructor.
  - assert (Forall (fun e => JSON_stringify (norm (snd e)) = JSON_stringify (snd e) /\ wf (norm (snd e)) /\ Forall unit16 (fst e)) m) as Hall.
    { clear Hv Ho. induction IH; [done|]. apply Forall_cons_1 in Hm as [[? ?] ?]. constructor; naive_solver. }
    clear Hv IH Hm. rewrite of_members_sorted by (by apply sorted_map). cbn [JSON_stringify]. split.
    + do 3 f_equal. clear Ho. induction Hall as [|[k v] m [Hv _] _ IH]; [done|]. cbn in *. by rewrite Hv, IH.
    + constructor; [|by apply sorted_map]. clear Ho. induction Hall as [|[k v] m (_ & Hv & Hk) _ IH]; cbn; by constructor.
Qed.

Lemma parse_stringify v : unit16s v -> JSON_parse (JSON_stringify v) = Some (norm v).
Proof.
  intros Hv. destruct (reads_all v Hv [] I) as [f0 Hf0]. rewrite app_nil_r in Hf0. unfold JSON_parse.
  set (s := JSON_stringify v) in *. set (f1 := (2 * length s + 1)%nat).
  rewrite (proj1 (scan_fuel (length s) s ltac:(lia)) f1 (max f0 f1)) by lia. by rewrite Hf0 by lia.
Qed.

Lemma parse_wf s v : Forall unit16 s -> JSON_parse s = Some v -> wf v.
Proof.
  unfold JSON_parse. destruct (scan_value _ s) as [[w r]|] eqn:E; [|done]. intros Hs. destruct (skip_ws r); [|done]. intros [= <-].
  by apply (proj2 (proj1 (scan_suffix _) _ _ _ E)).
Qed.
End roundtrip.

(** Numbers kept as their literals. *)
#[global] Instance literal_numbers : JSNumber text.
Proof.
  refine {| Number_parse := fun l => l;
            Number_text := fun n => if bool_decide (scan_number n = Some (n, [])) then n else lit "0";
            finite := fun _ => true |}.
  - intros n _. by case_bool_decide.
  - intros n _. split; [done|]. destruct (decide (scan_number n = Some (n, []))) as [E|E].
    + by rewrite !(bool_decide_true _ E).
    + rewrite (bool_decide_false _ E). reflexivity.
Defined.
