(* ===== verification/Signature.v ===== *)
(** * The signature of FSPIOP requests

    packages/shared/fspiop/component: [FspiopSignature] (fspiop-signature.ts), the
    [JwsSigner]s (jws-signer.ts) and [FspiopSigningInterceptor]
    (axios/interceptor/fspiop-signing.interceptor.ts). The RSA operations and node's
    Buffer are arguments: the former two functions, the latter a class with the
    documented inverse of base64url and UTF-8. *)

From S2P Require Import Prelude Errors Wire Json.

(** 16-bit units of which no surrogate stands alone: what UTF-8 can encode. *)
Fixpoint well_formed (s : text) : bool :=
  match s with
  | [] => true
  | c :: s' =>
      (c <? 65536)%N &&
      if is_lead c then match s' with d :: s'' => is_trail d && well_formed s'' | [] => false end
      else negb (is_trail c) && well_formed s'
  end.

Definition is_ascii (c : N) : Prop := (c < 128)%N.

(** [encode s]: [Buffer.from(s, 'utf-8').toString('base64url')]; [decode v]:
    [Buffer.from(v, 'base64url').toString('utf-8')] of a JSON value, which throws on
    some; [template v]: the value in a template or as the name of a property. *)
Class Buffers (number : Type) := {
  encode : text -> text;
  decode : json number -> option text;
  template : json number -> text;
  decode_encode s : well_formed s = true -> decode (JString (encode s)) = Some s;
  decode_units v s : decode v = Some s -> Forall unit16 s;
  encode_ascii s : Forall is_ascii (encode s);
  encode_nonempty s : encode s = [] -> s = [];
  template_string s : template (JString s) = s }.

Section signature.
  Context {number PrivateKey PublicKey : Type} `{JSNumber number} `{Buffers number}.
  Abbreviation json := (json number).
  Abbreviation members := (list (text * json)).
  Variables (createSign : text -> PrivateKey -> text -> result thrown text)
    (createVerify : text -> PublicKey -> text -> json -> option bool).

(** ** FspiopSignature *)

Definition INVALID_JSON_PAYLOAD_ERROR : jsstr := js "FSPIOP signature payload must be a valid JSON object.".

Record SigningInput : Type := mkSigningInput { si_alg : text; si_protectedHeader : text; si_bytes : text }.

(** The header value: any JSON values when received, texts when signed. *)
Record Header : Type := mkHeader { signature : json; protectedHeader : json }.

(** [SIGNING_ALGORITHMS[alg]]; a name of [Object.prototype] is refused by node instead. *)
Definition toNodeAlgorithm (alg : text) : result thrown text :=
  if bool_decide (alg = lit "RS256") then Ok (lit "RSA-SHA256")
  else Err (TError (js "Unsupported FSPIOP signing algorithm. Supported: RS256.")).

Definition canonicalize (payload : text) : result thrown text :=
  match JSON_parse payload with
  | Some (JObject m) => Ok (JSON_stringify (JObject m : json))
  | _ => Err (TError INVALID_JSON_PAYLOAD_ERROR)
  end.

Definition fields_json (fields : FspiopHeadersMap) : json :=
  JObject (map (fun '(k, v) => (units k, JString (units v))) fields).

Definition signing_bytes (header payload : text) : text := header ++ lit "." ++ encode payload.

Definition signingInput (input : Input) (payload : text) : result thrown SigningInput :=
  let! fields := build input in
  let protectedHeader := encode (JSON_stringify (fields_json fields)) in
  let! canonical := canonicalize payload in
  Ok (mkSigningInput (units (default DEFAULT_ALGORITHM (alg input))) protectedHeader (signing_bytes protectedHeader canonical)).

Definition sign (privateKey : PrivateKey) (input : Input) (payload : text) : result thrown Header :=
  let! i := signingInput input payload in
  let! algorithm := toNodeAlgorithm (si_alg i) in
  let! signature := createSign algorithm privateKey (si_bytes i) in
  Ok (mkHeader (JString signature) (JString (si_protectedHeader i))).

Definition decodeProtectedHeader (protectedHeader : json) : option members :=
  match decode protectedHeader with
  | Some decoded => match JSON_parse decoded with Some (JObject m) => Some m | _ => None end
  | None => None
  end.

Definition verify (publicKey : PublicKey) (header : Header) (payload : text) : bool :=
  match decodeProtectedHeader (protectedHeader header) with
  | None => false
  | Some fields =>
      match get_member (lit "alg") fields with
      | None => false
      | Some alg =>
          match toNodeAlgorithm (template alg), canonicalize payload with
          | Ok algorithm, Ok canonical =>
              default false (createVerify algorithm publicKey
                (signing_bytes (template (protectedHeader header)) canonical) (signature header))
          | _, _ => false
          end
      end
  end.

(** ** JwsSigner *)

Definition JwsSigner : Type := jsstr -> Input -> text -> result thrown (option Header).

Definition PrivateKeyJwsSigner (store : jsstr -> option PrivateKey) : JwsSigner := fun fspId input payload =>
  match store fspId with
  | None => Ok None
  | Some privateKey => let! h := sign privateKey input payload in Ok (Some h)
  end.

Definition NoKeyJwsSigner : JwsSigner := fun _ _ _ => Ok None.

(** ** FspiopSigningInterceptor *)

(** The body of a request: a text, or a value axios serializes. *)
Inductive data : Type := DText (t : text) | DValue (v : json).

(** The members of the axios configuration the interceptor reads, the headers by their
    lower-case name, with the text of [fspiop-signature] apart. *)
Record config : Type := mkConfig {
  c_method : option jsstr; c_url : option jsstr; c_baseURL : option jsstr; c_data : option data;
  c_headers : gmap jsstr jsstr; c_signature : option text }.

Definition resolveBody (c : config) : option text :=
  match c_data c with
  | None | Some (DValue JNull) => None
  | Some (DText t) => Some t
  | Some (DValue v) => Some (JSON_stringify v)
  end.

Definition includes_scheme (url : jsstr) : bool := match cut_scheme url with Some _ => true | None => false end.

Definition resolveUrl (c : config) : jsstr :=
  let url := default [] (c_url c) in
  if (length url =? 0)%nat then default [] (c_baseURL c)
  else match c_baseURL c with
       | None => url
       | Some baseURL =>
           if includes_scheme url then url
           else
             let base := if endsWith baseURL [slash] then take (length baseURL - 1) baseURL else baseURL in
             let path := if startsWith url [slash] then url else slash :: url in
             base ++ path
       end.

Definition header_text (h : Header) : text :=
  JSON_stringify (JObject [(lit "signature", signature h); (lit "protectedHeader", protectedHeader h)]).

Definition intercept (signer : JwsSigner) (c : config) : result thrown config :=
  match c_headers c !! Names.FSPIOP_SOURCE with
  | None | Some [] => Ok c
  | Some source =>
      match resolveBody c with
      | None => Ok c
      | Some body =>
          let! uri := extract (resolveUrl c) in
          let method := toUpperCase (default (js "get") (c_method c)) in
          let! header := signer source
            (mkInput method uri source (c_headers c !! Names.FSPIOP_DESTINATION) (c_headers c !! Names.DATE) None) body in
          match header with
          | None => Ok c
          | Some header =>
              Ok (mkConfig (c_method c) (c_url c) (c_baseURL c) (c_data c)
                   (<[Names.FSPIOP_HTTP_METHOD := method]> (<[Names.FSPIOP_URI := uri]> (c_headers c)))
                   (Some (header_text header)))
          end
      end
  end.
End signature.

(** ** Reference definitions *)

(** Keys that belong together: what one signs the other verifies, a base64url text. *)
Definition key_pair {number PrivateKey PublicKey : Type} (createSign : text -> PrivateKey -> text -> result thrown text)
    (createVerify : text -> PublicKey -> text -> json number -> option bool) (priv : PrivateKey) (pub : PublicKey) : Prop :=
  forall algorithm bytes s, createSign algorithm priv bytes = Ok s ->
    s <> [] /\ Forall is_ascii s /\ createVerify algorithm pub bytes (JString s) = Some true.

(** * Lemmas *)

Lemma ascii_unit16 c : is_ascii c -> unit16 c.
Proof. unfold is_ascii, unit16. lia. Qed.

Lemma units_unit16 s : Forall unit16 (units s).
Proof. apply Forall_forall. intros c Hc. apply list_elem_of_In, in_map_iff in Hc as (a & <- & _). pose proof (code_lt a). unfold unit16. lia. Qed.

(** *** UTF-8 can encode every JSON text *)

Lemma well_formed_app s t : well_formed s = true -> well_formed t = true -> well_formed (s ++ t) = true.
Proof.
  remember (length s) as n eqn:Hn. assert (length s <= n)%nat as Hl by lia. clear Hn.
  revert s Hl. induction n as [|n IH]; intros [|c s] Hl Hs Ht; cbn [length] in Hl; try done; [lia|]. cbn [app well_formed] in *.
  apply andb_true_iff in Hs as [-> Hs]. cbn [andb]. destruct (is_lead c).
  - destruct s as [|d s]; [done|]. cbn [app length] in *. apply andb_true_iff in Hs as [-> Hs]. apply IH; [lia | done..].
  - apply andb_true_iff in Hs as [-> Hs]. apply IH; [lia | done..].
Qed.

Lemma well_formed_units s : well_formed s = true -> Forall unit16 s.
Proof.
  remember (length s) as n eqn:Hn. assert (length s <= n)%nat as Hl by lia. clear Hn.
  revert s Hl. induction n as [|n IH]; intros [|c s] Hl Hs; cbn [length] in Hl; try done; [lia|]. cbn [well_formed] in Hs.
  apply andb_true_iff in Hs as [Hc%N.ltb_lt Hs]. constructor; [done|]. destruct (is_lead c).
  - destruct s as [|d s]; [done|]. cbn [length] in Hl. apply andb_true_iff in Hs as [Hd Hs]. constructor; [|apply IH; [lia | done]].
    unfold is_trail in Hd. bool_hyps. rewrite !N.leb_le in *. unfold unit16. lia.
  - apply andb_true_iff in Hs as [_ Hs]. apply IH; [lia | done].
Qed.

Lemma ascii_well_formed s : Forall is_ascii s -> well_formed s = true.
Proof.
  induction 1 as [|c s Hc _ IH]; [done|]. cbn [well_formed]. unfold is_ascii in Hc.
  rewrite (proj2 (N.ltb_lt c 65536)) by lia. assert (is_lead c = false /\ is_trail c = false) as [-> ->]; [|done]. unfold is_lead, is_trail.
  split; apply andb_false_iff; left; apply N.leb_gt; lia.
Qed.

Lemma well_formed_cons c s : is_ascii c -> well_formed s = true -> well_formed (c :: s) = true.
Proof. intros Hc Hs. apply (well_formed_app [c]); [|done]. apply ascii_well_formed. by constructor. Qed.

Lemma hex_digit_ascii n : (n < 16)%N -> is_ascii (hex_digit n).
Proof. unfold hex_digit, is_ascii. destruct (N.ltb_spec n 10); lia. Qed.

Lemma unicode_escape_ascii c : unit16 c -> Forall is_ascii (unicode_escape c).
Proof.
  unfold unit16. intros Hc. unfold unicode_escape. repeat constructor; try (unfold is_ascii; lia).
  all: apply hex_digit_ascii; zify; Z.to_euclidean_division_equations; lia.
Qed.

Lemma escape_letter_ascii c l : escape_letter c = Some l -> is_ascii l.
Proof.
  unfold escape_letter, escapes, is_ascii. cbn [List.find snd fst].
  repeat match goal with |- context [(?a =? c)%N] => destruct (N.eqb_spec a c) as [<-|?]; [by intros [= <-]|] end. done.
Qed.

Lemma quoted_well_formed s : Forall unit16 s -> well_formed (quoted s) = true.
Proof.
  remember (length s) as n eqn:Hn. assert (length s <= n)%nat as Hl by lia. clear Hn.
  revert s Hl. induction n as [|n IH]; intros [|c s] Hl Hs; cbn [length] in Hl; try done; [lia|].
  apply Forall_cons_1 in Hs as [Hc Hs]. cbn [quoted]. destruct (escape_letter c) as [l|] eqn:El.
  { apply well_formed_cons; [done|]. apply well_formed_cons; [by eapply escape_letter_ascii|]. apply IH; [lia | done]. }
  assert (forall t, well_formed t = true -> well_formed (unicode_escape c ++ t) = true) as Hu.
  { intros t Ht. apply well_formed_app; [|done]. by apply ascii_well_formed, unicode_escape_ascii. }
  destruct (c <? 32)%N; [apply Hu, IH; [lia | done]|]. apply N.ltb_lt in Hc. destruct (is_lead c) eqn:Ec.
  - destruct s as [|d s]; [rewrite <- (app_nil_r (unicode_escape c)); by apply Hu|]. destruct (is_trail d) eqn:Ed.
    + cbn [well_formed]. rewrite Hc, Ec, Ed. apply Forall_cons_1 in Hs as [_ Hs]. cbn [length] in Hl. apply IH; [lia | done].
    + apply Hu, IH; [cbn [length] in *; lia | done].
  - destruct (is_trail c) eqn:Et; [apply Hu, IH; [lia | done]|]. cbn [well_formed]. rewrite Hc, Ec, Et. cbn. apply IH; [lia | done].
Qed.

Lemma quote_well_formed s : Forall unit16 s -> well_formed (quote s) = true.
Proof.
  intros Hs. unfold quote. apply well_formed_cons; [done|]. apply well_formed_app; [by apply quoted_well_formed | done].
Qed.

Lemma span_Forall (P : N -> Prop) p s a t : (forall c, p c = true -> P c) -> span p s = (a, t) -> Forall P a.
Proof.
  intros HP. revert a t. induction s as [|c s IH]; intros a t; cbn; [by intros [= <- <-]|]. destruct (p c) eqn:E; [|by intros [= <- <-]].
  destruct (span p s) as [a' t'] eqn:E'. intros [= <- <-]. constructor; [auto | by eapply IH].
Qed.

Lemma scan_digits_ascii s a t : scan_digits s = Some (a, t) -> Forall is_ascii a.
Proof.
  unfold scan_digits. destruct (span dec_digit s) as [ds u] eqn:E. intros H. assert (a = ds) as -> by (destruct ds; [done | by injection H]).
  eapply span_Forall; [|exact E]. intros c Hc. unfold dec_digit in Hc. bool_hyps. rewrite !N.leb_le in *. unfold is_ascii. lia.
Qed.

Lemma scan_number_ascii s a t : scan_number s = Some (a, t) -> Forall is_ascii a.
Proof.
  unfold scan_number. intros H.
  assert (Forall is_ascii (scan_sign s).1) as Hsg.
  { destruct s as [|c s]; cbn; [done|]. destruct (N.eqb_spec c 45) as [->|]; [by repeat constructor | done]. }
  destruct (scan_sign s) as [sg u]. destruct (scan_int u) as [[i u1]|] eqn:E1; [|done].
  destruct (scan_fraction u1) as [[f u2]|] eqn:E2; [|done]. destruct (scan_exponent u2) as [[e u3]|] eqn:E3; [|done].
  injection H as <- _. rewrite !Forall_app. split; [done|]. split; [|split].
  - destruct u as [|c u]; [done|]. cbn in E1. destruct (N.eqb_spec c 48) as [->|]; [injection E1 as <- _; by repeat constructor | by eapply scan_digits_ascii].
  - destruct u1 as [|c v]; cbn in E2; [by injection E2 as <- _|]. destruct (N.eqb_spec c 46) as [->|]; [|by injection E2 as <- _].
    destruct (scan_digits v) as [[ds w]|] eqn:E; [|done]. injection E2 as <- _. constructor; [done | by eapply scan_digits_ascii].
  - destruct u2 as [|c v]; cbn in E3; [by injection E3 as <- _|]. destruct (_ || _)%bool eqn:Ec; [|by injection E3 as <- _].
    assert (is_ascii c) as Hc by (apply orb_true_iff in Ec as [->%N.eqb_eq | ->%N.eqb_eq]; done).
    destruct v as [|d v]; [done|]. destruct ((d =? 43) || (d =? 45))%N eqn:Ed.
    + assert (is_ascii d) as Hd by (apply orb_true_iff in Ed as [->%N.eqb_eq | ->%N.eqb_eq]; done).
      destruct (scan_digits v) as [[ds w]|] eqn:E; [|done]. injection E3 as <- _. repeat constructor; [done..|]. by eapply scan_digits_ascii.
    + destruct (scan_digits (d :: v)) as [[ds w]|] eqn:E; [|done]. injection E3 as <- _. constructor; [done|]. by eapply scan_digits_ascii.
Qed.

Lemma commas_well_formed l : Forall (fun t => well_formed t = true) l -> well_formed (commas l) = true.
Proof.
  induction 1 as [|x l Hx Hl IH]; [done|]. destruct l as [|y l]; [done|]. change (commas (x :: y :: l)) with (x ++ 44%N :: commas (y :: l)).
  apply well_formed_app; [done|]. by apply well_formed_cons.
Qed.

Lemma stringify_well_formed {number} `{JSNumber number} (v : json number) : unit16s v -> well_formed (JSON_stringify v) = true.
Proof.
  induction v as [|b|n|s|l IH|m IH] using json_nested_ind; intros Hv; cbn [JSON_stringify].
  - done.
  - by destruct b.
  - destruct (finite n) eqn:Hn; [|done]. eapply ascii_well_formed, scan_number_ascii, Number_text_literal, Hn.
  - by apply quote_well_formed.
  - apply well_formed_cons; [done|]. apply well_formed_app; [|done]. apply commas_well_formed.
    induction IH as [|v l Hw _ IH]; [constructor|]. destruct Hv as [? ?]. constructor; auto.
  - apply well_formed_cons; [done|]. apply well_formed_app; [|done]. apply commas_well_formed.
    induction IH as [|[k v] m Hw _ IH]; [constructor|]. destruct Hv as (? & ? & ?). constructor; [|auto].
    apply well_formed_app; [by apply quote_well_formed|]. apply well_formed_cons; [done | auto].
Qed.

(** *** Objects of texts *)

Section texts.
  Context {number : Type} `{JSNumber number}.
  Abbreviation json := (json number).

(** An object of texts reads back as itself. *)
Definition texts (m : list (text * text)) : json := JObject (map (fun '(k, s) => (k, JString s)) m).

Lemma parse_texts m :
  Forall (fun e => Forall unit16 (fst e) /\ Forall unit16 (snd e)) m ->
  of_members (map (fun '(k, s) => (k, JString s)) m) = map (fun '(k, s) => (k, JString s)) m :> list (text * json) ->
  JSON_parse (JSON_stringify (texts m)) = Some (texts m) /\ well_formed (JSON_stringify (texts m)) = true.
Proof.
  intros Hm Ho. assert (unit16s (texts m)) as Hu.
  { clear Ho. cbn. induction Hm as [|[k s] m [Hk Hs] _ IH]; [done|]. by cbn in *. }
  split; [|by apply stringify_well_formed]. rewrite parse_stringify by done. unfold texts. cbn [norm]. rewrite map_map. do 2 f_equal.
  etrans; [|exact Ho]. f_equal. apply map_ext. by intros [k s].
Qed.
End texts.

Section facts.
  Context {number PrivateKey PublicKey : Type} `{JSNumber number} `{Buffers number}.
  Variables (createSign : text -> PrivateKey -> text -> result thrown text)
    (createVerify : text -> PublicKey -> text -> json number -> option bool).

Lemma fields_parse i fields : build i = Ok fields ->
  JSON_parse (JSON_stringify (fields_json fields : json number)) = Some (fields_json fields) /\
  well_formed (JSON_stringify (fields_json fields : json number)) = true.
Proof.
  intros (path & _ & ->)%build_fields. set (fs := _ ++ _).
  assert (fields_json fs = texts (map (fun '(k, v) => (units k, units v)) fs) :> json number) as ->.
  { unfold fields_json, texts. rewrite map_map. f_equal. apply map_ext. by intros [k v]. }
  apply parse_texts.
  - apply Forall_forall. intros e He. apply list_elem_of_In, in_map_iff in He as ([k v] & <- & _). split; apply units_unit16.
  - subst fs. destruct (present (destination i)), (present (date i)); reflexivity.
Qed.

Lemma alg_field i fields : build i = Ok fields ->
  get_member (lit "alg") (map (fun '(k, v) => (units k, JString (units v))) fields) =
    Some (JString (units (default DEFAULT_ALGORITHM (alg i))) : json number).
Proof. by intros (path & _ & ->)%build_fields. Qed.

Lemma header_text_parse s p : Forall unit16 s -> Forall unit16 p ->
  JSON_parse (header_text (mkHeader (JString s) (JString p)) : text) =
    Some (JObject [(lit "signature", JString s); (lit "protectedHeader", JString p)] : json number).
Proof.
  intros Hs Hp. apply (proj1 (parse_texts [(lit "signature", s); (lit "protectedHeader", p)] ltac:(repeat constructor; cbn; try apply units_unit16; done) ltac:(reflexivity))).
Qed.

Lemma canonicalize_Ok p c : canonicalize p = Ok c <-> exists m, JSON_parse p = Some (JObject m : json number) /\ c = JSON_stringify (JObject m : json number).
Proof.
  unfold canonicalize. split.
  - destruct (JSON_parse p) as [[| | | | |m]|]; try done. intros <-%Ok_inj. by exists m.
  - by intros (m & -> & ->).
Qed.

Lemma toNodeAlgorithm_Ok a b : toNodeAlgorithm a = Ok b <-> a = lit "RS256" /\ b = lit "RSA-SHA256".
Proof. unfold toNodeAlgorithm. case_bool_decide; split; try done; [intros <-%Ok_inj | intros [_ ->] | intros []]; done. Qed.

Lemma sign_Ok priv input payload h : sign createSign priv input payload = Ok h ->
  exists fields canonical s, build input = Ok fields /\ canonicalize (number := number) payload = Ok canonical /\
    units (default DEFAULT_ALGORITHM (alg input)) = lit "RS256" /\
    let p := encode (JSON_stringify (fields_json fields : json number)) in
    createSign (lit "RSA-SHA256") priv (signing_bytes (number := number) p canonical) = Ok s /\ h = mkHeader (JString s) (JString p).
Proof.
  unfold sign, signingInput. intros (i & Hi & Hrest)%let_Ok. apply let_Ok in Hi as (fields & Hf & Hi).
  apply let_Ok in Hi as (canonical & Hc & <-%Ok_inj). apply let_Ok in Hrest as (a & [Ha ->]%toNodeAlgorithm_Ok & Hrest).
  apply let_Ok in Hrest as (s & Hs & <-%Ok_inj). by exists fields, canonical, s.
Qed.

Lemma decode_fields fields i : build i = Ok fields ->
  decodeProtectedHeader (JString (encode (JSON_stringify (fields_json fields : json number)))) =
    Some (map (fun '(k, v) => (units k, JString (units v))) fields).
Proof.
  intros Hb. destruct (fields_parse i fields Hb) as [Hp Hw]. unfold decodeProtectedHeader. by rewrite decode_encode, Hp.
Qed.
Lemma verify_signed priv pub input fields canonical s payload :
  key_pair createSign createVerify priv pub -> build input = Ok fields ->
  units (default DEFAULT_ALGORITHM (alg input)) = lit "RS256" ->
  let p := encode (JSON_stringify (fields_json fields : json number)) in
  createSign (lit "RSA-SHA256") priv (signing_bytes (number := number) p canonical) = Ok s ->
  canonicalize (number := number) payload = Ok canonical ->
  verify createVerify pub (mkHeader (JString s) (JString p)) payload = true.
Proof.
  intros Hk Hb Ha p Hsig Hc. destruct (Hk _ _ _ Hsig) as (_ & _ & Hv). unfold verify. cbn [protectedHeader signature]. subst p.
  rewrite (decode_fields _ _ Hb), (alg_field _ _ Hb), !template_string, Ha, Hc.
  rewrite (proj2 (toNodeAlgorithm_Ok _ _) (conj eq_refl eq_refl)). by rewrite Hv.
Qed.

Lemma intercept_signed store c c' src priv body :
  intercept (PrivateKeyJwsSigner createSign store) c = Ok c' ->
  c_headers c !! Names.FSPIOP_SOURCE = Some src -> src <> [] -> store src = Some priv -> resolveBody c = Some body ->
  exists u h, extract (resolveUrl c) = Ok u /\
    sign createSign priv (mkInput (toUpperCase (default (js "get") (c_method c))) u src
      (c_headers c !! Names.FSPIOP_DESTINATION) (c_headers c !! Names.DATE) None) body = Ok h /\
    c' = mkConfig (c_method c) (c_url c) (c_baseURL c) (c_data c)
           (<[Names.FSPIOP_HTTP_METHOD := toUpperCase (default (js "get") (c_method c))]>
             (<[Names.FSPIOP_URI := u]> (c_headers c))) (Some (header_text h)).
Proof.
  unfold intercept, PrivateKeyJwsSigner. intros Hi Hsrc Hne Hstore Hbody. rewrite Hsrc, Hbody in Hi. destruct src as [|a src]; [done|].
  apply let_Ok in Hi as (u & Hu & Hi). rewrite Hstore in Hi. apply let_Ok in Hi as (o & Ho & Hi).
  apply let_Ok in Ho as (h & Hh & <-%Ok_inj). apply Ok_inj in Hi as <-. by exists u, h.
Qed.
End facts.

Section canonical.
  Context {number : Type} `{JSNumber number}.

Lemma canonicalize_idem p c : Forall unit16 p -> canonicalize (number := number) p = Ok c -> canonicalize (number := number) c = Ok c.
Proof.
  intros Hp (m & Hm & ->)%canonicalize_Ok. apply canonicalize_Ok. pose proof (parse_wf p _ Hp Hm) as Hw.
  destruct (norm_wf _ Hw) as [Ht _]. eexists. rewrite parse_stringify by (by apply wf_unit16s). split; [reflexivity|]. by rewrite <- Ht.
Qed.

Lemma canonicalize_unit16 p c : Forall unit16 p -> canonicalize (number := number) p = Ok c -> exists m,
  JSON_parse p = Some (JObject m : json number) /\ wf (JObject m) /\ c = JSON_stringify (JObject m : json number).
Proof. intros Hp (m & Hm & ->)%canonicalize_Ok. exists m. split; [done|]. split; [by eapply parse_wf | done]. Qed.
End canonical.

(** *** Concrete buffers and keys *)

(** A unit as that many ones and a zero. *)
Definition tally (s : text) : text := concat (map (fun c => replicate (N.to_nat c) 49%N ++ [48%N]) s).
Fixpoint untally (n : N) (s : text) : text :=
  match s with
  | [] => []
  | c :: s => if (c =? 49)%N then untally (N.succ n) s else n :: untally 0 s
  end.

Lemma untally_ones n k s : untally n (replicate k 49%N ++ s) = untally (n + N.of_nat k) s.
Proof.
  revert n. induction k as [|k IH]; intros n; cbn [replicate app]; [by rewrite N.add_0_r|]. cbn [untally N.eqb Pos.eqb]. rewrite IH. f_equal. lia.
Qed.

Lemma untally_tally s : untally 0 (tally s) = s.
Proof.
  induction s as [|c s IH]; [done|]. unfold tally. cbn [map concat]. rewrite <- app_assoc, untally_ones. cbn [app untally N.eqb Pos.eqb].
  f_equal; [lia | exact IH].
Qed.

Lemma tally_units s : Forall (fun c => c = 48 \/ c = 49)%N (tally s).
Proof.
  induction s as [|c s IH]; [constructor|]. unfold tally. cbn [map concat]. rewrite !Forall_app. split; [|exact IH].
  split; [|by repeat constructor; left]. apply Forall_replicate. by right.
Qed.

(** The empty object as in base64url, any other text by its tally. *)
Definition tally_encode (s : text) : text := if bool_decide (s = lit "{}") then lit "e30" else tally s.
Definition tally_decode (v : json text) : option text :=
  match v with
  | JString s =>
      let t := if bool_decide (s = lit "e30") then lit "{}" else untally 0 s in
      if forallb (fun c => c <? 65536)%N t then Some t else None
  | _ => None
  end.

#[global] Instance tally_buffers : Buffers text.
Proof.
  refine {| encode := tally_encode; decode := tally_decode;
            template := fun v => match v with JString s => s | _ => lit "[object Object]" end |}.
  - intros s Hs%well_formed_units. unfold tally_decode, tally_encode. cbv zeta. destruct (bool_decide (s = lit "{}")) eqn:E; [by bool_hyps; rewrite E|].
    rewrite bool_decide_false.
    + rewrite untally_tally, (proj2 (forallb_forall _ _)); [done|].
      intros c Hc%list_elem_of_In. by apply N.ltb_lt, (proj1 (Forall_forall _ _) Hs).
    + intros Ht. pose proof (tally_units s) as Hu. rewrite Ht in Hu. apply Forall_cons_1 in Hu as [[|] _]; discriminate.
  - intros [| | |s| |] t; try done. unfold tally_decode. cbv zeta. destruct (forallb _ _) eqn:E; [|done]. intros [= <-].
    apply Forall_forall. intros c Hc. apply N.ltb_lt. apply (proj1 (forallb_forall _ _) E). by apply list_elem_of_In.
  - intros s. unfold tally_encode. case_bool_decide; [by repeat constructor|].
    eapply Forall_impl; [apply tally_units|]. by intros c [-> | ->].
  - intros [|c s]; [done|]. unfold tally_encode. case_bool_decide; [done|]. unfold tally. cbn [map concat]. by destruct (N.to_nat c).
  - done.
Defined.

(** A signature that repeats what it signs. *)
Definition repeat_sign (algorithm : text) (key : unit) (bytes : text) : result thrown text := Ok (lit "s" ++ tally bytes).
Definition repeat_verify (algorithm : text) (key : unit) (bytes : text) (signature : json text) : option bool :=
  match signature with JString s => Some (bool_decide (s = lit "s" ++ tally bytes)) | _ => None end.

Lemma repeat_pair : key_pair repeat_sign repeat_verify tt tt.
Proof.
  intros a b s <-%Ok_inj. split; [done|]. split; [constructor; [done | eapply Forall_impl; [apply tally_units|]; by intros c [-> | ->]]|].
  cbn. by rewrite bool_decide_true.
Qed.

(** * Properties *)

(** Both sides derive the bytes that are signed from the same JSON: the canonical text
    of a payload exists exactly for the text of an object, is its own canonical text, and
    reads back as the members of the payload in their order. *)
Theorem canonicalize_canonical :
  forall (number : Type) (numbers : JSNumber number) payload, Forall unit16 payload ->
  match canonicalize (number := number) payload with
  | Ok c => canonicalize (number := number) c = Ok c /\ well_formed c = true /\
      exists m, JSON_parse payload = Some (JObject m : json number) /\ JSON_parse c = Some (norm (JObject m : json number)) /\
        JSON_stringify (norm (JObject m : json number)) = c
  | Err e => e = TError INVALID_JSON_PAYLOAD_ERROR /\ forall m, JSON_parse payload <> Some (JObject m : json number)
  end.
Proof.
  intros number numbers payload Hp. destruct (canonicalize payload) as [c|e] eqn:Hc.
  - split; [by eapply canonicalize_idem|]. destruct (canonicalize_unit16 _ _ Hp Hc) as (m & Hm & Hw & ->).
    pose proof (wf_unit16s _ Hw) as Hu. split; [by apply stringify_well_formed|]. exists m. split; [done|].
    split; [by apply parse_stringify | by apply norm_wf].
  - unfold canonicalize in Hc. destruct (JSON_parse payload) as [[| | | | |m]|]; try done; injection Hc as <-; done.
Qed.

(** C28. What is signed verifies: with keys that belong together, the header that [sign]
    returns verifies over the payload and over its canonical text, and its protected
    header decodes to the fields [build] made of the request. *)
Theorem sign_verifies :
  forall (number PrivateKey PublicKey : Type) (numbers : JSNumber number) (buffers : Buffers number) createSign createVerify
    (priv : PrivateKey) (pub : PublicKey) input payload h,
  key_pair (number := number) createSign createVerify priv pub -> Forall unit16 payload ->
  sign createSign priv input payload = Ok h ->
  verify createVerify pub h payload = true /\
  (forall c, canonicalize (number := number) payload = Ok c -> verify createVerify pub h c = true) /\
  exists fields, build input = Ok fields /\
    decodeProtectedHeader (protectedHeader h) = Some (map (fun '(k, v) => (units k, JString (units v))) fields).
Proof.
  intros number PrivateKey PublicKey numbers buffers createSign createVerify priv pub input payload h Hk Hp Hs.
  destruct (sign_Ok _ _ _ _ _ Hs) as (fields & canonical & s & Hb & Hc & Ha & Hsig & ->).
  pose proof (fun p => verify_signed createSign createVerify priv pub input fields canonical s p Hk Hb Ha Hsig) as Hver.
  split; [by apply Hver|]. split; [|exists fields; split; [done | by eapply decode_fields]].
  intros c Hcc. assert (c = canonical) as -> by congruence. apply Hver. by eapply canonicalize_idem.
Qed.

Lemma canonicalize_canonical_witness :
  canonicalize (number := text) (lit " { "++[34%N]++lit "b"++[34%N]++lit " : 1, "++[34%N]++lit "7"++[34%N]++lit ":[true] }")
  = canonicalize (number := text) (lit "{"++[34%N]++lit "7"++[34%N]++lit ":[true],"++[34%N]++lit "b"++[34%N]++lit ":1}").
Proof.
  pose proof (canonicalize_canonical text literal_numbers
    (lit " { "++[34%N]++lit "b"++[34%N]++lit " : 1, "++[34%N]++lit "7"++[34%N]++lit ":[true] }") ltac:(repeat constructor)) as H.
  destruct (canonicalize _) as [c|e] eqn:E; [|exfalso; vm_compute in E; discriminate E].
  destruct H as [H _]. rewrite <- H. vm_compute in E. injection E as <-. reflexivity.
Defined.

Lemma sign_verifies_witness :
  let input := mkInput (js "POST") (js "https://hub/quotes") (js "payer") (Some (js "payee")) None None in
  let payload := lit "{"++[34%N]++lit "a"++[34%N]++lit ":1}" in
  exists h, sign repeat_sign tt input payload = Ok h /\ verify repeat_verify tt h payload = true.
Proof.
  intros input payload. assert (is_ok (sign repeat_sign tt input payload) = true) as Hok by (vm_compute; reflexivity).
  destruct (sign repeat_sign tt input payload) as [h|e] eqn:E.
  - exists h. split; [reflexivity|].
    apply (proj1 (sign_verifies text unit unit literal_numbers tally_buffers repeat_sign repeat_verify tt tt input payload h
      repeat_pair ltac:(repeat constructor) E)).
  - discriminate Hok.
Defined.
