(* ===== verification/Jwt.v ===== *)
(** * Tokens and canonical JSON

    [Jwt] of packages/shared/security/component/jwt/jwt.ts, whose [toCanonicalJson] the
    access guard repeats. The package jsonwebtoken and [localeCompare], which depends on
    the locale, are arguments. *)

From S2P Require Import Prelude Errors Json Signature.
From stdpp Require Import sorting.
#[local] Open Scope Z_scope.

(** [text.split('.')] *)
Fixpoint text_split (c : N) (s : text) : list text :=
  match s with
  | [] => [[]]
  | d :: s =>
      if (d =? c)%N then [] :: text_split c s
      else match text_split c s with p :: ps => (d :: p) :: ps | [] => [[d]] end
  end.

Record Token : Set := mkToken { t_header : text; t_body : text; t_signature : text }.
Definition full (t : Token) : text := t_header t ++ lit "." ++ t_body t ++ lit "." ++ t_signature t.

(** *** toCanonicalJson *)

Section sort.
  Variable localeCompare : text -> text -> Z.
  Context {A : Type}.

(** [sort(([left], [right]) => left.localeCompare(right))], which is stable. *)
Fixpoint insert_entry (e : text * A) (l : list (text * A)) : list (text * A) :=
  match l with
  | [] => [e]
  | e' :: l' => if localeCompare (fst e) (fst e') <=? 0 then e :: l else e' :: insert_entry e l'
  end.
Definition sort_entries (l : list (text * A)) : list (text * A) := fold_right insert_entry [] l.
End sort.

Section jwt.
  Context {number Key : Type} `{JSNumber number} `{Buffers number}.
  Abbreviation json := (json number).
  Variables (localeCompare : text -> text -> Z)
    (JsonWebToken_sign : json -> Key -> text -> json -> option text)
    (JsonWebToken_verify : text -> Key -> option json).

(** The members are sorted by name, each already printed. *)
Fixpoint toCanonicalJson (v : json) : text :=
  match v with
  | JArray l => 91%N :: commas (map toCanonicalJson l) ++ [93%N]
  | JObject m =>
      123%N :: commas (map (fun '(k, t) => quote k ++ 58%N :: t)
        (sort_entries localeCompare (map (fun '(k, v) => (k, toCanonicalJson v)) m))) ++ [125%N]
  | v => JSON_stringify v
  end.

Definition isJsonObjectPayload (v : json) : bool := match v with JObject _ => true | _ => false end.

(** [Jwt.decode] of a text. *)
Definition jwt_decode (base64Url : text) : option text := decode (JString base64Url : json).
Definition jwt_encode (json : text) : text := encode (number := number) json.

(** [{alg, typ, cty, ...headers}] *)
Definition token_header (algorithm : text) (headers : list (text * text)) : json :=
  JObject (fold_left (fun m '(k, v) => set_member k (JString v) m) headers
    [(lit "alg", JString algorithm); (lit "typ", JString (lit "JWT")); (lit "cty", JString (lit "json"))]).

(** [Jwt.sign]; an error of jsonwebtoken is [None]. *)
Definition jwt_sign (privateKey : Key) (algorithm : option text) (headers : list (text * text)) (payload : json) : option (result thrown Token) :=
  if isJsonObjectPayload payload then
    let algorithm := default (lit "RS256") algorithm in
    match JsonWebToken_sign payload privateKey algorithm (token_header algorithm headers) with
    | None => None
    | Some token =>
        match text_split 46 token with
        | [h; b; s] => Some (Ok (mkToken h b s))
        | _ => Some (Err (TError (js "JWT signing failed to produce 3 token parts.")))
        end
    end
  else Some (Err (TError (js "JWT payload must be a valid JSON object."))).

(** [Jwt.verify(key, token)] *)
Definition jwt_verify (key : Key) (token : Token) : bool :=
  match JsonWebToken_verify (full token) key with Some content => isJsonObjectPayload content | None => false end.

(** [Jwt.verify(key, text, payload)] *)
Definition jwt_verify_payload (key : Key) (token : text) (payload : option json) : bool :=
  match payload with
  | Some (JObject m) =>
      match JsonWebToken_verify token key with
      | Some (JObject content) => bool_decide (toCanonicalJson (JObject content) = toCanonicalJson (JObject m))
      | _ => false
      end
  | _ => false
  end.
End jwt.

(** ** Reference definitions *)

(** A comparison of a locale that tells all names apart: a total order. *)
Definition separating (localeCompare : text -> text -> Z) : Prop :=
  (forall a b, localeCompare a b <= 0 \/ localeCompare b a <= 0) /\
  (forall a b c, localeCompare a b <= 0 -> localeCompare b c <= 0 -> localeCompare a c <= 0) /\
  (forall a b, localeCompare a b <= 0 -> localeCompare b a <= 0 -> a = b).

Section reference.
  Context {number : Type} `{JSNumber number}.
  Abbreviation json := (json number).

Definition scalar (v : json) : bool := match v with JArray _ | JObject _ => false | _ => true end.

(** Equal values but for the order of members, numbers by their text. *)
Inductive same : json -> json -> Prop :=
  | same_scalar v w : scalar v = true -> scalar w = true -> JSON_stringify v = JSON_stringify w -> same v w
  | same_array l l' : Forall2 same l l' -> same (JArray l) (JArray l')
  | same_object m m' m1 : m' ≡ₚ m1 -> Forall2 (fun e e' => fst e = fst e' /\ same (snd e) (snd e')) m m1 ->
      same (JObject m) (JObject m').

(** The members sorted throughout. *)
Variable localeCompare : text -> text -> Z.
Fixpoint sorted (v : json) : json :=
  match v with
  | JArray l => JArray (map sorted l)
  | JObject m => JObject (sort_entries localeCompare (map (fun '(k, v) => (k, sorted v)) m))
  | v => v
  end.
End reference.

(** * Lemmas *)

Section sorting.
  Variable localeCompare : text -> text -> Z.

Lemma insert_perm {A} e (l : list (text * A)) : insert_entry localeCompare e l ≡ₚ e :: l.
Proof.
  induction l as [|e' l IH]; [done|]. cbn. destruct (localeCompare _ _ <=? 0); [done|]. rewrite IH. apply Permutation_swap.
Qed.

Lemma sort_perm {A} (l : list (text * A)) : sort_entries localeCompare l ≡ₚ l.
Proof. induction l as [|e l IH]; [done|]. cbn. rewrite insert_perm. by constructor. Qed.

Lemma sort_map {A B} (f : A -> B) (l : list (text * A)) :
  sort_entries localeCompare (map (fun '(k, v) => (k, f v)) l) = map (fun '(k, v) => (k, f v)) (sort_entries localeCompare l).
Proof.
  assert (forall e (l : list (text * A)), insert_entry localeCompare (fst e, f (snd e)) (map (fun '(k, v) => (k, f v)) l) =
    map (fun '(k, v) => (k, f v)) (insert_entry localeCompare e l)) as Hins.
  { intros [k v]. clear l. induction l as [|[k' v'] l IH]; [done|]. cbn in *. destruct (localeCompare k k' <=? 0); [done|]. cbn. by rewrite <- IH. }
  induction l as [|[k v] l IH]; [done|]. cbn [map sort_entries fold_right] in *. unfold sort_entries in IH. rewrite IH. exact (Hins (k, v) _).
Qed.

(** Entries with distinct names have one order. *)
Lemma sort_unique {A} (l l' : list (text * A)) :
  separating localeCompare -> NoDup (map fst l) -> l ≡ₚ l' -> sort_entries localeCompare l = sort_entries localeCompare l'.
Proof.
  intros (Htot & Htr & Has) Hnd Hp. set (R := fun e e' : text * A => localeCompare (fst e) (fst e') <= 0).
  assert (forall l, StronglySorted R (sort_entries localeCompare l)) as Hs.
  { clear -Htot Htr. intros l. induction l as [|e l IH]; cbn; [constructor|]. unfold sort_entries in IH.
    induction IH as [|e' l' Hl' IH' Hf]; cbn; [repeat constructor|]. destruct (Z.leb_spec (localeCompare (fst e) (fst e')) 0).
    - constructor; [by constructor|]. constructor; [done|]. eapply Forall_impl; [exact Hf|]. intros x Hx. by eapply Htr.
    - constructor; [done|]. apply Forall_forall. intros x Hx. rewrite insert_perm in Hx. apply elem_of_cons in Hx as [->|Hx].
      + destruct (Htot (fst e) (fst e')); [lia | done].
      + by apply (proj1 (Forall_forall _ _) Hf). }
  apply (StronglySorted_unique_strong R); [|done..|by rewrite !sort_perm].
  intros [k v] [k' v'] H1 H2 Hr1 Hr2. cbn in Hr1, Hr2. assert (k = k') as -> by (by apply Has). f_equal.
  rewrite sort_perm in H1, H2. rewrite <- Hp in H2. apply list_elem_of_lookup in H1 as [i Hi], H2 as [j Hj].
  assert (i = j) as ->; [|congruence]. eapply (NoDup_lookup (map fst l)); [done| |]; rewrite list_lookup_fmap; [by rewrite Hi | by rewrite Hj].
Qed.
End sorting.

Section canonical.
  Context {number : Type} `{JSNumber number}.
  Abbreviation json := (json number).
  Variable localeCompare : text -> text -> Z.

Lemma canonical_sorted (v : json) : toCanonicalJson localeCompare v = JSON_stringify (sorted localeCompare v).
Proof.
  induction v as [|b|n|s|l IH|m IH] using json_nested_ind; try done; cbn [toCanonicalJson sorted JSON_stringify].
  - do 3 f_equal. induction IH as [|v l Hv _ IHl]; [done|]. cbn. by rewrite Hv, IHl.
  - assert (map (fun '(k, v) => (k, toCanonicalJson localeCompare v)) m = map (fun '(k, v) => (k, JSON_stringify (sorted localeCompare v))) m) as ->.
    { induction IH as [|[k v] m Hv _ IHm]; [done|]. cbn in *. by rewrite Hv, IHm. }
    do 3 f_equal. rewrite (sort_map localeCompare (fun v => JSON_stringify (sorted localeCompare v))), (sort_map localeCompare (sorted localeCompare)), !map_map.
    apply map_ext. by intros [k v].
Qed.

Lemma comes_nodup (m : list (text * json)) : StronglySorted comes m -> NoDup (map fst m).
Proof.
  induction 1 as [|e m Hm IH Hf]; cbn; constructor; [|done]. intros (e' & He & Hin)%list_elem_of_In%in_map_iff.
  apply list_elem_of_In in Hin. by destruct (proj1 (Forall_forall _ _) Hf e' Hin).
Qed.

Lemma set_member_perm k v (m : list (text * json)) : k ∉ map fst m -> set_member k v m ≡ₚ (k, v) :: m.
Proof.
  induction m as [|[k' v'] m IH]; [done|]. cbn [map fst set_member]. intros [Hne Hn]%not_elem_of_cons.
  rewrite bool_decide_false by done. destruct (before k k'); [done|]. rewrite IH by done. apply Permutation_swap.
Qed.

Lemma of_members_perm (m : list (text * json)) : NoDup (map fst m) -> of_members m ≡ₚ m.
Proof.
  unfold of_members. assert (forall acc, NoDup (map fst (acc ++ m)) ->
    fold_left (fun a e => set_member (fst e) (snd e) a) m acc ≡ₚ acc ++ m) as Hgen.
  { induction m as [|[k v] m IH]; intros acc Hnd; cbn [fold_left fst snd]; [by rewrite app_nil_r|].
    assert (k ∉ map fst acc) as Hk.
    { rewrite map_app in Hnd. apply NoDup_app in Hnd as (_ & Hd & _). intros Hin. apply (Hd k Hin). cbn. by left. }
    assert (set_member k v acc ++ m ≡ₚ acc ++ (k, v) :: m) as Hp by (rewrite set_member_perm by done; cbn; apply Permutation_middle).
    rewrite IH; [done|]. by rewrite Hp. }
  intros Hnd. by rewrite (Hgen []).
Qed.

Lemma sorted_unit16s (v : json) : unit16s v -> unit16s (sorted localeCompare v).
Proof.
  induction v as [|b|n|s|l IH|m IH] using json_nested_ind; try done; cbn [sorted].
  - cbn. induction IH as [|v l Hv _ IHl]; [done|]. cbn. naive_solver.
  - intros Hu. assert (Forall (fun e => Forall unit16 (fst e) /\ unit16s (snd e)) (map (fun '(k, v) => (k, sorted localeCompare v)) m)) as Hm.
    { clear -IH Hu. induction IH as [|[k v] m Hv _ IHm]; [constructor|]. cbn in *. constructor; naive_solver. }
    rewrite <- (sort_perm localeCompare) in Hm. cbn. clear -Hm. induction Hm as [|[k v] l [Hk Hv] _ IHl]; [done|]. by cbn in *.
Qed.

Lemma norm_sorted_object (m : list (text * json)) : NoDup (map fst m) ->
  exists m1, norm (sorted localeCompare (JObject m)) = JObject m1 /\ m1 ≡ₚ map (fun '(k, v) => (k, norm (sorted localeCompare v))) m.
Proof.
  intros Hnd. cbn [sorted norm]. eexists. split; [done|].
  rewrite sort_map, map_map. rewrite of_members_perm.
  - rewrite sort_perm. apply reflexive_eq, map_ext. by intros [k v].
  - rewrite map_map, (map_ext _ fst) by (by intros [k v]). by rewrite sort_perm.
Qed.

Lemma norm_scalar (v : json) : scalar v = true -> scalar (norm v) = true /\ sorted localeCompare v = v /\ (wf v -> JSON_stringify (norm v) = JSON_stringify v).
Proof. intros Hv. split; [|split; [by destruct v | intros Hw; by apply norm_wf]]. destruct v; try done. cbn. by destruct (finite n). Qed.
End canonical.

Section same.
  Context {number : Type} `{JSNumber number}.
  Abbreviation json := (json number).
  Variable localeCompare : text -> text -> Z.

Lemma same_norm_scalar (v b : json) : scalar v = true -> wf v -> wf b ->
  norm (sorted localeCompare v) = norm (sorted localeCompare b) -> same v b.
Proof.
  intros Hsv Hv Hb Hn. destruct (norm_scalar localeCompare v Hsv) as (Hs & Hso & Ht). rewrite Hso in Hn.
  assert (scalar b = true) as Hsb by (destruct b; try done; cbn [sorted norm] in Hn; rewrite Hn in Hs; discriminate Hs).
  destruct (norm_scalar localeCompare b Hsb) as (_ & Hsob & Htb). rewrite Hsob in Hn.
  apply same_scalar; [done..|]. rewrite <- Ht, <- Htb by done. by rewrite Hn.
Qed.

Lemma same_norm (a : json) : wf a -> forall b, wf b -> norm (sorted localeCompare a) = norm (sorted localeCompare b) -> same a b.
Proof.
  induction a as [|x|n|s|l IH|m IH] using json_nested_ind; intros Ha b Hb Hn.
  1-4: eapply same_norm_scalar; eauto.
  - destruct b as [| | | |l'|m']; try discriminate Hn; [by cbn in Hn; destruct (finite n)|].
    cbn [sorted norm] in Hn. injection Hn as Hn. rewrite !map_map in Hn. inversion Ha as [| | | |? Hl|]; inversion Hb as [| | | |? Hl'|]; subst.
    apply same_array. clear Ha Hb. revert l' Hl' Hn. induction IH as [|v l Hv _ IHl]; intros [|v' l'] Hl' Hn; try done.
    cbn in Hn. injection Hn as Hnv Hn. apply Forall_cons_1 in Hl as [? ?], Hl' as [? ?]. constructor; auto.
  - inversion Ha as [| | | | |? Hm Ho]; subst. destruct (norm_sorted_object localeCompare m (comes_nodup _ Ho)) as (m1 & E1 & P1).
    rewrite E1 in Hn. destruct b as [| | | | |m']; try discriminate Hn; [by cbn in Hn; destruct (finite n)|].
    inversion Hb as [| | | | |? Hm' Ho']; subst. destruct (norm_sorted_object localeCompare m' (comes_nodup _ Ho')) as (m2 & E2 & P2).
    rewrite E2 in Hn. injection Hn as ->. rewrite P2 in P1. apply symmetry, Permutation_map_inv in P1 as (m3 & E3 & P3).
    apply (same_object m m' m3 P3). rewrite P3 in Hm'. clear -IH Hm Hm' E3. revert m3 Hm' E3.
    induction IH as [|[k v] m Hv _ IHm]; intros [|[k' v'] m3] Hm' E3; try done. cbn in E3. injection E3 as -> Hn E3.
    apply Forall_cons_1 in Hm as [[? ?] ?], Hm' as [[? ?] ?]. cbn in *. constructor; auto.
Qed.

Lemma same_canonical_scalar (v b : json) : scalar v = true -> same v b -> toCanonicalJson localeCompare v = toCanonicalJson localeCompare b.
Proof. intros Hv Hs. inversion Hs as [? w _ Hw Ht| |]; subst; [|done..]. by destruct v, b. Qed.

Lemma same_canonical (a : json) : separating localeCompare -> wf a -> forall b, wf b -> same a b ->
  toCanonicalJson localeCompare a = toCanonicalJson localeCompare b.
Proof.
  intros Hsep. induction a as [|x|n|s|l IH|m IH] using json_nested_ind; intros Ha b Hb Hs.
  1-4: by apply same_canonical_scalar.
  - inversion Hs as [|? l' Hl|]; subst; [done|]. inversion Ha as [| | | |? Hw|]; inversion Hb as [| | | |? Hw'|]; subst.
    cbn [toCanonicalJson]. do 3 f_equal. clear Ha Hb Hs. revert l' Hw' Hl. induction IH as [|v l Hv _ IHl]; intros l' Hw' Hl.
    + by apply Forall2_nil_inv_l in Hl as ->.
    + apply Forall2_cons_inv_l in Hl as (v' & l2 & Hvv & Hl & ->). apply Forall_cons_1 in Hw as [? ?], Hw' as [? ?].
      cbn. f_equal; auto.
  - inversion Hs as [| |? m' m1 Hp Hm]; subst; [done|]. inversion Ha as [| | | | |? Hw Ho]; inversion Hb as [| | | | |? Hw' Ho']; subst.
    assert (map (fun '(k, v) => (k, toCanonicalJson localeCompare v)) m = map (fun '(k, v) => (k, toCanonicalJson localeCompare v)) m1) as Hmap.
    { rewrite Hp in Hw'. clear -IH Hw Hw' Hm. revert m1 Hw' Hm. induction IH as [|[k v] m Hv _ IHm]; intros m1 Hw' Hm.
      + by apply Forall2_nil_inv_l in Hm as ->.
      + apply Forall2_cons_inv_l in Hm as ([k' v'] & m2 & [Hk Hvv] & Hm & ->). apply Forall_cons_1 in Hw as [[? ?] ?], Hw' as [[? ?] ?].
        cbn in *. f_equal; [f_equal; auto | auto]. }
    cbn [toCanonicalJson]. rewrite Hmap. do 4 f_equal. apply sort_unique; [done| |by rewrite <- Hp].
    rewrite <- Hmap, map_map. rewrite (map_ext _ fst) by (by intros [k v]). by apply comes_nodup.
Qed.

Lemma canonical_to_same (a b : json) : wf a -> wf b -> toCanonicalJson localeCompare a = toCanonicalJson localeCompare b -> same a b.
Proof.
  intros Ha Hb Hc. rewrite !canonical_sorted in Hc. apply same_norm; [done..|].
  apply (f_equal JSON_parse) in Hc. rewrite !parse_stringify in Hc by (by apply sorted_unit16s, wf_unit16s). by injection Hc.
Qed.
End same.

(** *** A concrete comparison: by code units *)

Fixpoint unit_compare (a b : text) : Z :=
  match a, b with
  | [], [] => 0
  | [], _ => -1
  | _, [] => 1
  | x :: a, y :: b => if (x <? y)%N then -1 else if (y <? x)%N then 1 else unit_compare a b
  end.

Lemma unit_compare_separating : separating unit_compare.
Proof.
  split; [|split].
  - intros a. induction a as [|x a IH]; intros [|y b]; cbn; try lia.
    destruct (N.ltb_spec x y), (N.ltb_spec y x); try lia. apply IH.
  - intros a. induction a as [|x a IH]; intros [|y b] [|z c]; cbn; try lia.
    destruct (N.ltb_spec x y), (N.ltb_spec y x), (N.ltb_spec y z), (N.ltb_spec z y), (N.ltb_spec x z), (N.ltb_spec z x); try lia. apply IH.
  - intros a. induction a as [|x a IH]; intros [|y b]; cbn; try lia; [done|].
    destruct (N.ltb_spec x y), (N.ltb_spec y x); try lia. intros H1 H2. f_equal; [lia | auto].
Qed.

(** * Properties *)

(** Two values of the engine have the same canonical text only when they are equal but
    for the order of members, whatever the locale; and where the locale tells all names
    apart, exactly then. *)
Theorem canonical_same :
  forall (number : Type) (numbers : JSNumber number) localeCompare (a b : json number), wf a -> wf b ->
  (toCanonicalJson localeCompare a = toCanonicalJson localeCompare b -> same a b) /\
  (separating localeCompare -> same a b -> toCanonicalJson localeCompare a = toCanonicalJson localeCompare b).
Proof.
  intros number numbers localeCompare a b Ha Hb. split; [by apply canonical_to_same | intros Hsep; by apply same_canonical].
Qed.

Lemma canonical_same_witness :
  let a := JObject [(lit "b", JNull); (lit "a", JArray [JBool true])] : json text in
  let b := JObject [(lit "a", JArray [JBool true]); (lit "b", JNull)] : json text in
  same a b /\ toCanonicalJson unit_compare a = toCanonicalJson unit_compare b.
Proof.
  intros a b.
  assert (wf a /\ wf b) as [Ha Hb] by (split; repeat constructor; discriminate).
  destruct (canonical_same text literal_numbers unit_compare a b Ha Hb) as [H1 H2].
  assert (same a b) as Hs by (apply H1; vm_compute; reflexivity).
  split; [exact Hs | exact (H2 unit_compare_separating Hs)].
Defined.
