(* ===== verification/Redis.v ===== *)
(** * The Redis client

    [RedisClient] of [packages/core/outbound/domain/component/redis-client.ts]: cached
    values, the counter with a window, reservations, the single-holder lock, and the
    logging of outages. The server is an interface, the commands the client sends with
    their documented effect; JSON and random tokens are arguments. *)

From S2P Require Import Prelude Errors.

(** ** The server

    What a server holds: per key a value and the milliseconds it still has to live,
    [None] for a key without expiry. *)
Abbreviation keyspace := (gmap jsstr (jsstr * option Z)).

(** Time passes: what has not longer than [d] to live is gone. *)
Definition age (d : Z) (e : jsstr * option Z) : option (jsstr * option Z) :=
  match snd e with
  | None => Some e
  | Some ttl => if ttl <=? d then None else Some (fst e, Some (ttl - d))
  end.

(** The number a stored text of digits is. *)
Definition int_of (v : jsstr) : option Z :=
  if negb (bool_decide (v = [])) && forallb is_digit v then Some (dec_value v) else None.

(** An expiry [SET] accepts. *)
Definition valid_px (px : option Z) : Prop := match px with Some ms => 0 < ms | None => True end.

(** The largest value of a counter. *)
Definition COUNTER_MAX : Z := 2 ^ 63 - 1.

(** The commands, their replies, and the effect of each on what the server holds. An
    invalid expiry is refused; [INCR] is described on its own counters, and leaves the
    other keys alone in any case. *)
Class RedisServer (S : Type) := {
  view : S -> keyspace;
  GET : jsstr -> S -> S * option jsstr;
  SET : jsstr -> jsstr -> bool -> option Z -> S -> S * bool;
  DEL : jsstr -> S -> S * Z;
  INCR : jsstr -> S -> S * option Z;
  PEXPIRE : jsstr -> Z -> S -> S * Z;
  elapse : Z -> S -> S;
  GET_spec k s : view (fst (GET k s)) = view s /\ snd (GET k s) = fst <$> view s !! k;
  SET_spec k v nx px s : valid_px px ->
    if nx && bool_decide (is_Some (view s !! k))
    then view (fst (SET k v nx px s)) = view s /\ snd (SET k v nx px s) = false
    else view (fst (SET k v nx px s)) = <[k := (v, px)]> (view s) /\ snd (SET k v nx px s) = true;
  SET_invalid k v nx px s : ~ valid_px px -> view (fst (SET k v nx px s)) = view s;
  DEL_spec k s :
    view (fst (DEL k s)) = delete k (view s) /\
    snd (DEL k s) = if bool_decide (is_Some (view s !! k)) then 1 else 0;
  INCR_absent k s :
    view s !! k = None -> view (fst (INCR k s)) = <[k := (dec_print 1, None)]> (view s) /\ snd (INCR k s) = Some 1;
  INCR_present k s n ttl :
    view s !! k = Some (dec_print n, ttl) -> 0 <= n < COUNTER_MAX ->
    view (fst (INCR k s)) = <[k := (dec_print (n + 1), ttl)]> (view s) /\ snd (INCR k s) = Some (n + 1);
  INCR_frame k s k' : k <> k' -> view (fst (INCR k s)) !! k' = view s !! k';
  PEXPIRE_spec k ms s : 0 < ms ->
    match view s !! k with
    | Some (v, _) => view (fst (PEXPIRE k ms s)) = <[k := (v, Some ms)]> (view s)
    | None => view (fst (PEXPIRE k ms s)) = view s
    end;
  elapse_spec d s : 0 <= d -> view (elapse d s) = omap (age d) (view s) }.

(** ** The client *)

Definition LOCK_KEY_PREFIX : jsstr := js "lock:".
Definition lockKey (key : jsstr) : jsstr := LOCK_KEY_PREFIX ++ key.

(** A call over the network may fail, before or after the server has run it. *)
Definition fault : Set := option (thrown * bool).

Section client.
  Context {S : Type} {server : RedisServer S}.

Definition call {R} (f : fault) (command : S -> S * R) (s : S) : S * result thrown R :=
  match f with
  | None => let '(s', r) := command s in (s', Ok r)
  | Some (e, applied) => (if applied : bool then fst (command s) else s, Err e)
  end.

(** The two Lua scripts, over [redis.call]; an error reply of [INCR] ends the script. *)
Definition RELEASE_LOCK_SCRIPT (key token : jsstr) (s : S) : S * Z :=
  let '(s, v) := GET key s in
  if bool_decide (v = Some token) then DEL key s else (s, 0).

Definition INCREMENT_WITH_TTL_SCRIPT (key : jsstr) (ttlMs : Z) (s : S) : S * result thrown Z :=
  let '(s, count) := INCR key s in
  match count with
  | None => (s, Err (TError (js "ERR value is not an integer or out of range")))
  | Some count =>
      if count =? 1 then let '(s, _) := PEXPIRE key ttlMs s in (s, Ok count) else (s, Ok count)
  end.

(** [get], with [JSON.parse]. *)
Definition get {T} (JSON_parse : jsstr -> result thrown T) (f : fault) (key : jsstr) (s : S)
    : S * result thrown (option T) :=
  let '(s, value) := call f (GET key) s in
  (s, match value with
      | Err e => Err e
      | Ok None => Ok None
      | Ok (Some value) => let! v := JSON_parse value in Ok (Some v)
      end).

(** [set], with [JSON.stringify]; [defaultTtlMs] is the constructor's timeout. *)
Definition set {T} (JSON_stringify : T -> jsstr) (defaultTtlMs : Z) (f : fault) (key : jsstr) (value : T)
    (ttlMs : option Z) (s : S) : S * result thrown unit :=
  let serialized := JSON_stringify value in
  let resolvedTtlMs := default defaultTtlMs ttlMs in
  let '(s, r) := call f (SET key serialized false (if resolvedTtlMs <=? 0 then None else Some resolvedTtlMs)) s in
  (s, let! _ := r in Ok tt).

Definition delete_ (f : fault) (key : jsstr) (s : S) : S * result thrown unit :=
  let '(s, r) := call f (DEL key) s in (s, let! _ := r in Ok tt).

Definition incrementWithTtl (f : fault) (key : jsstr) (ttlMs : Z) (s : S) : S * result thrown Z :=
  if ttlMs <=? 0
  then (s, Err (TError (js "incrementWithTtl requires a positive ttlMs; got " ++ bigint_text ttlMs)))
  else
    let '(s, r) := call f (INCREMENT_WITH_TTL_SCRIPT key ttlMs) s in
    (s, match r with Ok r => r | Err e => Err e end).

Definition reserve (f : fault) (key : jsstr) (ttlMs : Z) (s : S) : S * result thrown bool :=
  call f (SET key (js "1") true (Some ttlMs)) s.

(** [token] is the [randomUUID()] drawn. *)
Definition acquireLock (f : fault) (token : jsstr) (key : jsstr) (ttlMs : Z) (s : S)
    : S * result thrown (option jsstr) :=
  let '(s, r) := call f (SET (lockKey key) token true (Some ttlMs)) s in
  (s, let! result := r in Ok (if result : bool then Some token else None)).

(** [releaseLock] catches what the call throws. *)
Definition releaseLock (f : fault) (key token : jsstr) (s : S) : S :=
  fst (call f (RELEASE_LOCK_SCRIPT (lockKey key) token) s).
End client.

(** ** Outage logging *)

Definition OUTAGE_LOG_INTERVAL_MS : Z := 60000.

Definition reconnectStrategy (retries : Z) : Z := Z.min (retries * 100) 3000.

Record Outage : Set := mkOutage { connectionLost : bool; lastOutageLogAt : Z }.
Definition no_outage : Outage := mkOutage false 0.

Inductive log_level : Set := LWarn | LError | LLog.

(** The listeners of ['error'] and ['ready']: the new fields and what is logged. *)
Definition on_error (now : Z) (o : Outage) : Outage * option log_level :=
  if connectionLost o then
    if OUTAGE_LOG_INTERVAL_MS <=? now - lastOutageLogAt o
    then (mkOutage true now, Some LWarn) else (o, None)
  else (mkOutage true now, Some LError).

Definition on_ready (o : Outage) : Outage * option log_level :=
  if connectionLost o then (mkOutage false (lastOutageLogAt o), Some LLog) else (o, None).

(** ** A server *)

(** The keyspace itself. *)
Definition ks_GET (k : jsstr) (s : keyspace) : keyspace * option jsstr := (s, fst <$> s !! k).
Definition ks_SET (k v : jsstr) (nx : bool) (px : option Z) (s : keyspace) : keyspace * bool :=
  if match px with Some ms => ms <=? 0 | None => false end then (s, false)
  else if nx && bool_decide (is_Some (s !! k)) then (s, false) else (<[k := (v, px)]> s, true).
Definition ks_DEL (k : jsstr) (s : keyspace) : keyspace * Z :=
  (delete k s, if bool_decide (is_Some (s !! k)) then 1 else 0).
Definition ks_INCR (k : jsstr) (s : keyspace) : keyspace * option Z :=
  match s !! k with
  | None => (<[k := (dec_print 1, None)]> s, Some 1)
  | Some (v, ttl) =>
      match int_of v with
      | Some n => (<[k := (dec_print (n + 1), ttl)]> s, Some (n + 1))
      | None => (s, None)
      end
  end.
Definition ks_PEXPIRE (k : jsstr) (ms : Z) (s : keyspace) : keyspace * Z :=
  match s !! k with
  | Some (v, _) => (<[k := (v, Some ms)]> s, 1)
  | None => (s, 0)
  end.

Lemma int_of_print n : 0 <= n -> int_of (dec_print n) = Some n.
Proof.
  intros Hn. destruct (dec_print_spec n Hn) as (Hd & Hv & Hne). unfold int_of.
  rewrite bool_decide_false by done. cbn [negb andb].
  assert (forallb is_digit (dec_print n) = true) as ->.
  { apply forallb_forall. intros x Hx%list_elem_of_In. revert x Hx. by apply Forall_forall. }
  by rewrite Hv.
Qed.

#[global] Instance keyspace_server : RedisServer keyspace.
Proof.
  refine {| view := Datatypes.id; GET := ks_GET; SET := ks_SET; DEL := ks_DEL; INCR := ks_INCR;
            PEXPIRE := ks_PEXPIRE; elapse := fun d s => omap (age d) s |}; unfold Datatypes.id.
  - done.
  - intros k v nx px s Hpx. unfold ks_SET.
    assert (match px with Some ms => ms <=? 0 | None => false end = false) as ->.
    { destruct px as [ms|]; [|done]. by apply Z.leb_gt. }
    by destruct (nx && _).
  - intros k v nx px s Hpx. unfold ks_SET. destruct px as [ms|]; [|by destruct Hpx].
    rewrite (proj2 (Z.leb_le ms 0)); [done|]. cbn in Hpx. lia.
  - done.
  - intros k s Hk. unfold ks_INCR. by rewrite Hk.
  - intros k s n ttl Hk Hn. unfold ks_INCR. by rewrite Hk, int_of_print by lia.
  - intros k s k' Hne. unfold ks_INCR. destruct (s !! k) as [[v ttl]|]; [destruct (int_of v)|]; cbn; try done;
      by rewrite lookup_insert_ne.
  - intros k ms s _. unfold ks_PEXPIRE. by destruct (s !! k) as [[v ttl]|].
  - done.
Defined.

(** Whether the server ran the command of a call. *)
Definition reaches (f : fault) : bool := match f with Some (_, false) => false | _ => true end.

(** * Lemmas *)

Lemma lockKey_inj k k' : lockKey k = lockKey k' -> k = k'.
Proof. apply app_inv_head. Qed.

(** No key is its own lock. *)
Lemma lockKey_ne k : lockKey k <> k.
Proof. intros H%(f_equal length). revert H. unfold lockKey. rewrite length_app. cbn. lia. Qed.

Section laws.
  Context {S : Type} {server : RedisServer S}.
  Implicit Types (s : S) (k key token : jsstr).

(** A faulty call changes nothing the command would not. *)
Lemma call_view {R} (f : fault) (c : S -> S * R) s (P : keyspace -> Prop) :
  P (view s) -> P (view (fst (c s))) -> P (view (fst (call f c s))).
Proof. unfold call. destruct f as [[e []]|]; try done. by destruct (c s). Qed.

Lemma call_None {R} (c : S -> S * R) s : call None c s = (fst (c s), Ok (snd (c s))).
Proof. unfold call. by destruct (c s). Qed.

Lemma acquireLock_spec token key ttl s : 0 < ttl ->
  let '(s', r) := acquireLock None token key ttl s in
  match view s !! lockKey key with
  | Some _ => view s' = view s /\ r = Ok None
  | None => view s' = <[lockKey key := (token, Some ttl)]> (view s) /\ r = Ok (Some token)
  end.
Proof.
  intros Httl. unfold acquireLock. rewrite call_None. pose proof (SET_spec (lockKey key) token true (Some ttl) s Httl) as H.
  cbn [andb] in H. case_bool_decide as Hk; destruct H as [H1 H2]; rewrite H2.
  - by destruct Hk as [x ->].
  - apply eq_None_not_Some in Hk as ->. done.
Qed.

Lemma RELEASE_spec key token s :
  view (fst (RELEASE_LOCK_SCRIPT key token s)) =
  if bool_decide (fst <$> view s !! key = Some token) then delete key (view s) else view s.
Proof.
  unfold RELEASE_LOCK_SCRIPT. destruct (GET_spec key s) as [H1 H2].
  destruct (GET key s) as [s' v]. cbn in H1, H2. subst v. rewrite <- H1. case_bool_decide; [|done].
  apply DEL_spec.
Qed.

Lemma releaseLock_spec f key token s :
  view (releaseLock f key token s) =
  if bool_decide (fst <$> view s !! lockKey key = Some token) && reaches f
  then delete (lockKey key) (view s) else view s.
Proof.
  unfold releaseLock, call, reaches. destruct f as [[e []]|].
  - rewrite andb_true_r. apply RELEASE_spec.
  - by rewrite andb_false_r.
  - rewrite andb_true_r, <- RELEASE_spec. by destruct (RELEASE_LOCK_SCRIPT _ _ _).
Qed.

(** ** Frame: what the other users of the server do to a key *)

(** One step of anyone but the holder of [token] on the lock of [key], and the time it
    takes: the other operations of the client, failing or not, and the clock. *)
Inductive other (key token : jsstr) : Z -> S -> S -> Prop :=
  | other_elapse d s : 0 <= d -> other key token d s (elapse d s)
  | other_acquire f t k ttl s : t <> token -> other key token 0 s (fst (acquireLock f t k ttl s))
  | other_release f t k s : t <> token -> other key token 0 s (releaseLock f k t s)
  | other_get f k s : other key token 0 s (fst (call f (GET k) s))
  | other_set f k v ttl default_ s : k <> lockKey key ->
      other key token 0 s (fst (set (T := jsstr) Datatypes.id default_ f k v ttl s))
  | other_delete f k s : k <> lockKey key -> other key token 0 s (fst (delete_ f k s))
  | other_reserve f k ttl s : k <> lockKey key -> other key token 0 s (fst (reserve f k ttl s))
  | other_increment f k ttl s : k <> lockKey key -> other key token 0 s (fst (incrementWithTtl f k ttl s)).

(** Any number of them, adding up the time. *)
Inductive others (key token : jsstr) : Z -> S -> S -> Prop :=
  | others_nil s : others key token 0 s s
  | others_step d d' s s' s'' : other key token d s s' -> others key token d' s' s'' ->
      others key token (d + d') s s''.

Lemma fst_let {A B C} (p : A * B) (g : A -> B -> C) : fst (let '(a, b) := p in (a, g a b)) = fst p.
Proof. by destruct p. Qed.

Lemma SET_frame k v nx px s key :
  (k <> key \/ nx = true /\ is_Some (view s !! key)) -> view (fst (SET k v nx px s)) !! key = view s !! key.
Proof.
  intros H. assert (valid_px px \/ ~ valid_px px) as [Hpx|Hpx] by (destruct px as [ms|]; [cbn; lia | by left]).
  2:{ by rewrite SET_invalid. }
  pose proof (SET_spec k v nx px s Hpx) as Hs. destruct (nx && _) eqn:E; destruct Hs as [-> _]; [done|].
  destruct (decide (k = key)) as [->|Hne]; [|by rewrite lookup_insert_ne].
  destruct H as [|[-> Hk]]; [done|]. by rewrite bool_decide_true in E.
Qed.

Lemma INCREMENT_frame k ttl s key :
  0 < ttl -> k <> key -> view (fst (INCREMENT_WITH_TTL_SCRIPT k ttl s)) !! key = view s !! key.
Proof.
  intros Ht Hne. unfold INCREMENT_WITH_TTL_SCRIPT. pose proof (INCR_frame k s key Hne) as H1.
  destruct (INCR k s) as [s1 c]. cbn [fst snd] in H1.
  destruct c as [c|]; [|done]. destruct (c =? 1); [|done].
  pose proof (PEXPIRE_spec k ttl s1 Ht) as H2. destruct (PEXPIRE k ttl s1) as [s2 x]. cbn [fst] in *.
  rewrite <- H1. destruct (view s1 !! k) as [[v t]|]; rewrite H2; [by rewrite lookup_insert_ne | done].
Qed.

Lemma other_frame key token d s s' v ttl :
  other key token d s s' -> view s !! lockKey key = Some (token, Some ttl) -> v = ttl - d -> 0 < v ->
  view s' !! lockKey key = Some (token, Some v).
Proof.
  intros H Hs -> Hpos. destruct H as [d s Hd|f t k ttl' s Ht|f t k s Ht|f k s|f k x ttl' df s Hk|f k s Hk|f k ttl' s Hk|f k ttl' s Hk].
  - rewrite elapse_spec by done. rewrite lookup_omap, Hs. cbn. unfold age. cbn.
    by rewrite (proj2 (Z.leb_gt ttl d)) by lia.
  - rewrite Z.sub_0_r. unfold acquireLock. rewrite fst_let. apply (call_view f _ s); [done|].
    rewrite SET_frame; [done|]. right. by rewrite Hs.
  - rewrite Z.sub_0_r, releaseLock_spec. destruct (bool_decide _ && _) eqn:E; [|done]. bool_hyps.
    destruct (decide (k = key)) as [->|Hne].
    + rewrite Hs in *. by simplify_eq/=.
    + rewrite lookup_delete_ne; [done|]. by intros ?%lockKey_inj.
  - rewrite Z.sub_0_r. apply (call_view f _ s); [done|]. by rewrite (proj1 (GET_spec k s)).
  - rewrite Z.sub_0_r. unfold set. rewrite fst_let. apply (call_view f _ s); [done|]. rewrite SET_frame; [done|]. by left.
  - rewrite Z.sub_0_r. unfold delete_. rewrite fst_let. apply (call_view f _ s); [done|].
    rewrite (proj1 (DEL_spec k s)). by rewrite lookup_delete_ne.
  - rewrite Z.sub_0_r. unfold reserve. apply (call_view f _ s); [done|]. rewrite SET_frame; [done|]. by left.
  - rewrite Z.sub_0_r. unfold incrementWithTtl. destruct (Z.leb_spec ttl' 0); [done|]. rewrite fst_let.
    apply (call_view f _ s); [done|]. by rewrite INCREMENT_frame.
Qed.

Lemma other_nonneg key token d s s' : other key token d s s' -> 0 <= d.
Proof. by destruct 1. Qed.

Lemma others_nonneg key token d s s' : others key token d s s' -> 0 <= d.
Proof. induction 1 as [|? ? ? ? ? Ho]; [done|]. apply other_nonneg in Ho. lia. Qed.

Lemma others_frame key token d s s' ttl :
  others key token d s s' -> view s !! lockKey key = Some (token, Some ttl) -> d < ttl ->
  view s' !! lockKey key = Some (token, Some (ttl - d)).
Proof.
  intros H. revert ttl. induction H as [s|d d' s s' s'' Ho Hos IH]; intros ttl Hs Hd.
  - by rewrite Z.sub_0_r.
  - pose proof (others_nonneg _ _ _ _ _ Hos). replace (ttl - (d + d')) with (ttl - d - d') by lia.
    apply IH; [|lia]. eapply other_frame; [exact Ho | exact Hs | done | lia].
Qed.

(** ** The counter *)

Lemma increment_absent key ttl s :
  0 < ttl -> view s !! key = None ->
  let '(s', r) := incrementWithTtl None key ttl s in
  r = Ok 1 /\ view s' !! key = Some (dec_print 1, Some ttl).
Proof.
  intros Ht Hk. unfold incrementWithTtl. rewrite (proj2 (Z.leb_gt ttl 0)) by done. rewrite call_None.
  unfold INCREMENT_WITH_TTL_SCRIPT. pose proof (INCR_absent key s Hk) as H.
  destruct (INCR key s) as [s1 c]. cbn [fst snd] in H. destruct H as [H ->]. rewrite Z.eqb_refl.
  pose proof (PEXPIRE_spec key ttl s1 Ht) as H2. rewrite H, lookup_insert_eq in H2.
  destruct (PEXPIRE key ttl s1) as [s2 x]. cbn [fst snd] in *. split; [done|]. by rewrite H2, lookup_insert_eq.
Qed.

Lemma increment_present key ttl s n t :
  0 < ttl -> 1 <= n < COUNTER_MAX -> view s !! key = Some (dec_print n, t) ->
  let '(s', r) := incrementWithTtl None key ttl s in
  r = Ok (n + 1) /\ view s' !! key = Some (dec_print (n + 1), t).
Proof.
  intros Ht Hn Hk. unfold incrementWithTtl. rewrite (proj2 (Z.leb_gt ttl 0)) by done. rewrite call_None.
  unfold INCREMENT_WITH_TTL_SCRIPT. pose proof (INCR_present key s n t Hk ltac:(lia)) as H.
  destruct (INCR key s) as [s1 c]. cbn [fst snd] in H. destruct H as [H ->].
  rewrite (proj2 (Z.eqb_neq (n + 1) 1)) by lia. cbn. split; [done|]. by rewrite H, lookup_insert_eq.
Qed.

Lemma elapse_lookup d s key :
  0 <= d -> view (elapse d s) !! key = view s !! key ≫= age d.
Proof. intros Hd. by rewrite elapse_spec, lookup_omap by done. Qed.
End laws.

(** * Properties *)

(** C15. The lock is exclusive for its time to live, against any server with the laws:
    once [acquireLock] gave a token for [ttl] ms, then for less than [ttl] ms of any
    activity of other clients (locks, releases with their own tokens, reads and writes
    of other keys, calls that fail on either side of the server) the lock is still
    held by that token, no other acquisition succeeds, and releasing it with the token
    frees it for the next one. *)
Theorem lock_exclusive :
  forall S (server : RedisServer S) key token ttl (s s1 s2 : S) d,
  acquireLock None token key ttl s = (s1, Ok (Some token)) -> others key token d s1 s2 -> d < ttl ->
  view s2 !! lockKey key = Some (token, Some (ttl - d)) /\
  (forall t ttl', 0 < ttl' -> snd (acquireLock None t key ttl' s2) = Ok None) /\
  (forall t ttl', 0 < ttl' -> snd (acquireLock None t key ttl' (releaseLock None key token s2)) = Ok (Some t)).
Proof.
  intros S server key token ttl s s1 s2 d Ha Ho Hd.
  assert (view s1 !! lockKey key = Some (token, Some ttl)) as H1.
  { pose proof (others_nonneg _ _ _ _ _ Ho) as Hd0. pose proof (acquireLock_spec token key ttl s ltac:(lia)) as H. rewrite Ha in H.
    destruct (view s !! lockKey key); destruct H as [-> H]; [done|]. by rewrite lookup_insert_eq. }
  assert (view s2 !! lockKey key = Some (token, Some (ttl - d))) as H2 by (by apply (others_frame key token d s1)).
  split; [done|]. split; intros t ttl' Httl.
  - pose proof (acquireLock_spec t key ttl' s2 Httl) as H. rewrite H2 in H.
    destruct (acquireLock None t key ttl' s2). by destruct H as [_ ->].
  - pose proof (acquireLock_spec t key ttl' (releaseLock None key token s2) Httl) as H.
    rewrite (releaseLock_spec None) in H. rewrite H2 in H. cbn [fmap option_fmap option_map fst reaches] in H.
    rewrite bool_decide_true in H by done. cbn [andb] in H. rewrite lookup_delete_eq in H.
    destruct (acquireLock None t key ttl' (releaseLock None key token s2)). by destruct H as [_ ->].
Qed.

Lemma lock_exclusive_witness :
  let s1 := fst (acquireLock None (js "t1") (js "tx") 1000 (∅ : keyspace)) in
  let s2 := elapse 999 (releaseLock None (js "tx") (js "t2") s1) in
  snd (acquireLock None (js "t3") (js "tx") 5 s2) = Ok None.
Proof.
  intros s1 s2.
  apply (lock_exclusive keyspace keyspace_server (js "tx") (js "t1") 1000 ∅ s1 s2 (0 + (999 + 0))); [reflexivity| |lia|lia].
  eapply others_step; [apply (other_release _ _ None (js "t2") (js "tx") s1); discriminate|].
  eapply others_step; [apply other_elapse; lia | apply others_nil].
Defined.

(** Releasing is compare-and-delete: [releaseLock] removes the lock exactly when
    the server ran the script and the token still owns the lock; a holder whose lock
    expired never deletes its successor's, and no other key is touched. *)
Theorem releaseLock_own :
  forall S (server : RedisServer S) f key token (s : S),
  (view (releaseLock f key token s) = view s \/
   view (releaseLock f key token s) = delete (lockKey key) (view s) /\ fst <$> view s !! lockKey key = Some token) /\
  (reaches f = true -> fst <$> view s !! lockKey key = Some token ->
     view (releaseLock f key token s) !! lockKey key = None) /\
  (forall t ttl, view s !! lockKey key = Some (t, ttl) -> t <> token ->
     view (releaseLock f key token s) !! lockKey key = Some (t, ttl)).
Proof.
  intros S server f key token s. rewrite releaseLock_spec. split; [|split].
  - destruct (bool_decide _) eqn:E, (reaches f); cbn; auto. bool_hyps. auto.
  - intros -> H. rewrite bool_decide_true by done. apply lookup_delete_eq.
  - intros t ttl H Hne. rewrite bool_decide_false; [done|]. rewrite H. cbn. congruence.
Qed.

Lemma releaseLock_own_witness :
  let s := fst (acquireLock None (js "new") (js "tx") 1000 (∅ : keyspace)) in
  releaseLock None (js "tx") (js "stale") s !! lockKey (js "tx") = Some (js "new", Some 1000).
Proof.
  intros s. apply (proj2 (proj2 (releaseLock_own keyspace keyspace_server None (js "tx") (js "stale") s)) (js "new") (Some 1000)).
  - vm_compute. reflexivity.
  - discriminate.
Defined.
