(* ===== verification/Suspicious.v ===== *)
(** * The suspicious transaction monitor

    [SuspiciousTransactionMonitor] of
    [packages/core/outbound/domain/component/suspicious-transaction-monitor.ts], a
    client of the Redis interface. *)

From S2P Require Import Prelude Errors Redis.

(** ** Definitions *)

Inductive SuspiciousTransactionMatchField : Set :=
  | PAYER_FSP_ID | PAYER_ID_VALUE | PAYEE_FSP_ID | PAYEE_ID_VALUE | AMOUNT | CURRENCY.

#[global] Instance field_eq_dec : EqDecision SuspiciousTransactionMatchField.
Proof. solve_decision. Defined.

Definition field_name (f : SuspiciousTransactionMatchField) : jsstr :=
  js match f with
     | PAYER_FSP_ID => "payerFspId"
     | PAYER_ID_VALUE => "payerIdValue"
     | PAYEE_FSP_ID => "payeeFspId"
     | PAYEE_ID_VALUE => "payeeIdValue"
     | AMOUNT => "amount"
     | CURRENCY => "currency"
     end.

(** [Object.values(SuspiciousTransactionMatchField)] *)
Definition ALL_FIELDS : list SuspiciousTransactionMatchField :=
  [PAYER_FSP_ID; PAYER_ID_VALUE; PAYEE_FSP_ID; PAYEE_ID_VALUE; AMOUNT; CURRENCY].

Definition DEFAULT_MATCHING_FIELDS : list SuspiciousTransactionMatchField :=
  [PAYER_FSP_ID; PAYER_ID_VALUE; PAYEE_FSP_ID; PAYEE_ID_VALUE; AMOUNT].

Definition KEY_PREFIX : jsstr := js "suspicious:".

Record Pattern : Set := mkPattern {
  payerFsp : jsstr; payerId : jsstr; payeeFsp : jsstr; payeeId : jsstr; currency : jsstr; amount : jsstr }.

Definition fieldValue (pattern : Pattern) (field : SuspiciousTransactionMatchField) : jsstr :=
  match field with
  | PAYER_FSP_ID => payerFsp pattern
  | PAYER_ID_VALUE => payerId pattern
  | PAYEE_FSP_ID => payeeFsp pattern
  | PAYEE_ID_VALUE => payeeId pattern
  | AMOUNT => amount pattern
  | CURRENCY => currency pattern
  end.

Definition bar : ascii := "|"%char.

Definition buildKey (pattern : Pattern) (matchingFields : list SuspiciousTransactionMatchField) : jsstr :=
  KEY_PREFIX ++ join [bar] (map (fieldValue pattern) matchingFields).

(** The member of the enumeration a token is, when it is allowed. *)
Definition allowed (token : jsstr) : option SuspiciousTransactionMatchField :=
  List.find (fun f => str_eqb (field_name f) token) ALL_FIELDS.

(** The loop of [parseMatchingFields]; [fields] holds what was pushed, in order. *)
Fixpoint collect (tokens : list jsstr) (fields : list SuspiciousTransactionMatchField)
    : result thrown (list SuspiciousTransactionMatchField) :=
  match tokens with
  | [] => Ok fields
  | token :: tokens =>
      match allowed token with
      | None => Err (TError (js "Invalid SUSPICIOUS_TRANSACTION_MATCHING_FIELDS value '" ++ token ++
                             js "'. Allowed: " ++ join (js ", ") (map field_name ALL_FIELDS) ++ js "."))
      | Some f => if bool_decide (f ∈ fields) then collect tokens fields else collect tokens (fields ++ [f])
      end
  end.

Definition parseMatchingFields (raw : jsstr) : result thrown (list SuspiciousTransactionMatchField) :=
  let tokens := List.filter (fun t => (0 <? length t)%nat) (map trim (split ","%char raw)) in
  if (length tokens =? 0)%nat
  then Err (TError (js "SUSPICIOUS_TRANSACTION_MATCHING_FIELDS must list at least one field (allowed: " ++
                    join (js ", ") (map field_name ALL_FIELDS) ++ js ")."))
  else collect tokens [].

Record Monitor : Set := mkMonitor {
  windowMs : Z; threshold : Z; enabled : bool; matchingFields : list SuspiciousTransactionMatchField }.

Definition suspicious : thrown :=
  fspiop SUSPICIOUS_TRANSACTION_PATTERN
    "Suspicious repetitive transaction pattern detected within the monitoring window.".

Definition assertNotSuspicious {S} {server : RedisServer S} (m : Monitor) (f : fault) (pattern : Pattern) (s : S)
    : S * result thrown unit :=
  if negb (enabled m) || (windowMs m <=? 0) || (threshold m <=? 0) then (s, Ok tt)
  else
    let key := buildKey pattern (matchingFields m) in
    let '(s, count) := incrementWithTtl f key (windowMs m) s in
    (s, let! count := count in
        if count <=? threshold m then Ok tt else Err suspicious).

(** ** Runs *)

(** Attempts of one pattern, each after a pause; the outcome of each. *)
Fixpoint attempts {S} {server : RedisServer S} (m : Monitor) (pattern : Pattern) (pauses : list Z) (s : S)
    : S * list (result thrown unit) :=
  match pauses with
  | [] => (s, [])
  | d :: pauses =>
      let '(s, r) := assertNotSuspicious m None pattern (elapse d s) in
      let '(s, rs) := attempts m pattern pauses s in
      (s, r :: rs)
  end.

(** * Lemmas *)

Lemma allowed_Some token f : allowed token = Some f <-> token = field_name f.
Proof.
  unfold allowed. split.
  - intros H%find_some. destruct H as [_ H]. unfold str_eqb in H. by bool_hyps.
  - intros ->. by destruct f.
Qed.

Lemma collect_spec tokens fields fs :
  NoDup fields -> collect tokens fields = Ok fs ->
  NoDup fs /\ fields `prefix_of` fs /\ (forall f, f ∈ fs <-> f ∈ fields \/ field_name f ∈ tokens) /\
  Forall (fun t => is_Some (allowed t)) tokens.
Proof.
  revert fields. induction tokens as [|t tokens IH]; intros fields Hnd; cbn [collect].
  - intros [= <-]. split; [done|]. split; [done|]. split; [|constructor].
    intros f. split; [by left|]. intros [?|H]; [done | by apply elem_of_nil in H].
  - destruct (allowed t) as [f|] eqn:Ha; [|done]. pose proof Ha as Ht. apply allowed_Some in Ht as ->.
    assert (forall fields', (f ∈ fields' /\ forall g, g ∈ fields' <-> g ∈ fields \/ g = f) -> NoDup fields' ->
      fields `prefix_of` fields' -> collect tokens fields' = Ok fs ->
      NoDup fs /\ fields `prefix_of` fs /\ (forall g, g ∈ fs <-> g ∈ fields \/ field_name g ∈ field_name f :: tokens) /\
      Forall (fun t => is_Some (allowed t)) (field_name f :: tokens)) as Hstep.
    { intros fields' [_ Hin] Hnd' Hpre Hc. destruct (IH fields' Hnd' Hc) as (? & ? & Hiff & ?).
      split; [done|]. split; [by etrans|]. split; [|constructor; [by eexists | done]].
      intros g. rewrite Hiff, Hin, elem_of_cons. split; [intros [[?| ->]|?]; auto|].
      intros [?|[He|?]]; auto. left. right. pose proof (proj2 (allowed_Some (field_name g) g) eq_refl) as Hg.
      rewrite He, Ha in Hg. by injection Hg as ->. }
    case_bool_decide as Hin.
    + apply Hstep; [|done..]. split; [done|]. intros g. split; [by left|]. by intros [?| ->].
    + apply Hstep.
      * split; [apply elem_of_app; right; by left|]. intros g. rewrite elem_of_app, list_elem_of_singleton. done.
      * apply NoDup_app. split; [done|]. split; [|apply NoDup_singleton]. intros g Hg ->%list_elem_of_singleton. done.
      * by exists [f].
Qed.

Section runs.
  Context {S : Type} {server : RedisServer S} (m : Monitor) (pattern : Pattern).
  Hypothesis Hon : enabled m = true /\ 0 < windowMs m /\ 0 < threshold m.

Lemma monitor_on : negb (enabled m) || (windowMs m <=? 0) || (threshold m <=? 0) = false.
Proof.
  destruct Hon as (-> & Hw & Ht). cbn. apply orb_false_iff. split; apply Z.leb_gt; lia.
Qed.

Definition outcome (count : Z) : result thrown unit := if count <=? threshold m then Ok tt else Err suspicious.

Lemma assert_first s :
  view s !! buildKey pattern (matchingFields m) = None ->
  let '(s', r) := assertNotSuspicious m None pattern s in
  r = outcome 1 /\ view s' !! buildKey pattern (matchingFields m) = Some (dec_print 1, Some (windowMs m)).
Proof.
  intros Hk. unfold assertNotSuspicious. rewrite monitor_on.
  pose proof (increment_absent _ (windowMs m) s (proj1 (proj2 Hon)) Hk) as H.
  destruct (incrementWithTtl _ _ _ _) as [s' r]. by destruct H as [-> ?].
Qed.

Lemma assert_next s n t :
  1 <= n < COUNTER_MAX -> view s !! buildKey pattern (matchingFields m) = Some (dec_print n, t) ->
  let '(s', r) := assertNotSuspicious m None pattern s in
  r = outcome (n + 1) /\ view s' !! buildKey pattern (matchingFields m) = Some (dec_print (n + 1), t).
Proof.
  intros Hn Hk. unfold assertNotSuspicious. rewrite monitor_on.
  pose proof (increment_present _ (windowMs m) s n t (proj1 (proj2 Hon)) Hn Hk) as H.
  destruct (incrementWithTtl _ _ _ _) as [s' r]. by destruct H as [-> ?].
Qed.

Lemma attempts_window pauses s n t :
  1 <= n -> n + Z.of_nat (length pauses) <= COUNTER_MAX ->
  Forall (fun d => 0 <= d) pauses -> fold_right Z.add 0 pauses < t ->
  view s !! buildKey pattern (matchingFields m) = Some (dec_print n, Some t) ->
  let '(s', rs) := attempts m pattern pauses s in
  rs = map (fun i => outcome (n + Z.of_nat i)) (seq 1 (length pauses)) /\
  view s' !! buildKey pattern (matchingFields m) =
    Some (dec_print (n + Z.of_nat (length pauses)), Some (t - fold_right Z.add 0 pauses)).
Proof.
  intros Hn Hmax Hp. revert s n t Hn Hmax. induction Hp as [|d pauses Hd Hp IH]; intros s n t Hn Hmax Hsum Hk;
    cbn [attempts fold_right length] in *.
  { split; [done|]. rewrite Hk. f_equal. f_equal; f_equal; cbn; lia. }
  assert (0 <= fold_right Z.add 0 pauses) as Hpos by (clear -Hp; induction Hp; cbn; lia).
  assert (view (elapse d s) !! buildKey pattern (matchingFields m) = Some (dec_print n, Some (t - d))) as Hk'.
  { rewrite elapse_lookup, Hk by done. cbn. unfold age. cbn. by rewrite (proj2 (Z.leb_gt t d)) by lia. }
  pose proof (assert_next _ n _ ltac:(lia) Hk') as H. destruct (assertNotSuspicious _ _ _ _) as [s1 r]. destruct H as [-> H1].
  specialize (IH s1 (n + 1) (t - d) ltac:(lia) ltac:(lia) ltac:(lia) H1).
  destruct (attempts m pattern pauses s1) as [s2 rs]. destruct IH as [-> H2]. split.
  - cbn [length]. rewrite <- cons_seq. cbn [map]. f_equal.
    rewrite <- (seq_shift _ 1), map_map. apply map_ext. intros i. f_equal. lia.
  - rewrite H2. cbn [length]. f_equal. f_equal; f_equal; lia.
Qed.
End runs.

(** * Properties *)

(** The threshold, against any server with the laws: from a window in which the
    pattern has no counter, attempts that all fall within the window pass exactly up
    to the threshold, and every later one is rejected with the suspicious-pattern
    error; once the window has passed the count starts again; and a counter that
    cannot be reached fails the attempt instead of letting it through. *)
Theorem monitor_threshold :
  forall S (server : RedisServer S) m pattern pauses first (s : S),
  enabled m = true -> 0 < windowMs m -> 0 < threshold m -> 0 <= first ->
  Z.of_nat (length (first :: pauses)) <= COUNTER_MAX ->
  Forall (fun d => 0 <= d) pauses -> fold_right Z.add 0 pauses < windowMs m ->
  view s !! buildKey pattern (matchingFields m) = None ->
  let '(s', rs) := attempts m pattern (first :: pauses) s in
  (forall i, (i < length (first :: pauses))%nat ->
     rs !! i = Some (if Z.of_nat i <? threshold m then Ok tt else Err suspicious)) /\
  (forall d, windowMs m <= fold_right Z.add 0 pauses + d -> 0 <= d ->
     snd (assertNotSuspicious m None pattern (elapse d s')) = Ok tt) /\
  (forall e applied, snd (assertNotSuspicious m (Some (e, applied)) pattern s) = Err e).
Proof.
  intros S server m pattern pauses first s He Hw Ht Hf Hmax Hp Hsum Hk. cbn [length] in Hmax.
  assert (enabled m = true /\ 0 < windowMs m /\ 0 < threshold m) as Hon by done. cbn [attempts].
  assert (view (elapse first s) !! buildKey pattern (matchingFields m) = None) as Hk'
    by (by rewrite elapse_lookup, Hk).
  pose proof (assert_first m pattern Hon _ Hk') as H1.
  destruct (assertNotSuspicious m None pattern (elapse first s)) as [s1 r]. destruct H1 as [-> H1].
  pose proof (attempts_window m pattern Hon pauses s1 1 (windowMs m) ltac:(lia) ltac:(lia) Hp Hsum H1) as H2.
  destruct (attempts m pattern pauses s1) as [s2 rs]. destruct H2 as [-> H2]. split; [|split].
  - intros [|i] Hi; cbn [lookup list_lookup].
    + unfold outcome. rewrite (proj2 (Z.leb_le 1 _)) by lia. by rewrite (proj2 (Z.ltb_lt _ _)) by lia.
    + cbn [length] in Hi. etransitivity; [apply list_lookup_fmap|]. rewrite lookup_seq_lt by lia. cbn [fmap option_fmap option_map]. unfold outcome. f_equal.
      replace (Z.of_nat (Datatypes.S i) <? threshold m) with (1 + Z.of_nat (1 + i) <=? threshold m); [done|].
      apply eq_true_iff_eq. rewrite Z.leb_le, Z.ltb_lt. lia.
  - intros d Hd Hd0. assert (view (elapse d s2) !! buildKey pattern (matchingFields m) = None) as Hk2.
    { rewrite elapse_lookup, H2 by done. cbn. unfold age. cbn. by rewrite (proj2 (Z.leb_le _ _)) by lia. }
    pose proof (assert_first m pattern Hon _ Hk2) as H3.
    destruct (assertNotSuspicious _ _ _ _) as [s3 r]. destruct H3 as [-> _]. cbn. unfold outcome.
    by rewrite (proj2 (Z.leb_le 1 _)) by lia.
  - intros e applied. unfold assertNotSuspicious. rewrite (monitor_on m Hon). unfold incrementWithTtl.
    rewrite (proj2 (Z.leb_gt (windowMs m) 0)) by lia. reflexivity.
Qed.

Definition example_pattern : Pattern :=
  mkPattern (js "dfsp-a") (js "959111") (js "dfsp-b") (js "959222") (js "MMK") (js "100").

Lemma monitor_threshold_witness :
  snd (attempts (mkMonitor 60000 2 true DEFAULT_MATCHING_FIELDS) example_pattern [0; 10; 20; 30] (∅ : keyspace))
    !! 2%nat = Some (Err suspicious).
Proof.
  pose proof (monitor_threshold keyspace keyspace_server (mkMonitor 60000 2 true DEFAULT_MATCHING_FIELDS)
    example_pattern [10; 20; 30] 0 ∅ eq_refl eq_refl eq_refl ltac:(lia)
    ltac:(unfold COUNTER_MAX; cbn; lia) ltac:(repeat constructor; lia) eq_refl eq_refl) as H.
  destruct (attempts _ _ _ _) as [s' rs]. exact (proj1 H 2%nat ltac:(cbn; lia)).
Defined.

(** [parseMatchingFields] gives the tokens' fields without repetition, in the order
    of their first mention, never the empty list; it throws exactly where there is no
    token or one that names no field. *)
Theorem parseMatchingFields_spec :
  forall raw,
  let tokens := List.filter (fun t => (0 <? length t)%nat) (map trim (split ","%char raw)) in
  match parseMatchingFields raw with
  | Ok fs => fs <> [] /\ NoDup fs /\ (forall f, f ∈ fs <-> field_name f ∈ tokens) /\
             Forall (fun t => exists f, t = field_name f /\ f ∈ fs) tokens
  | Err _ => tokens = [] \/ exists t, t ∈ tokens /\ forall f, t <> field_name f
  end.
Proof.
  intros raw tokens. unfold parseMatchingFields. fold tokens. clearbody tokens.
  destruct (Nat.eqb_spec (length tokens) 0) as [Hl|Hl]; [left; by apply nil_length_inv|].
  destruct (collect tokens []) as [fs|e] eqn:Hc.
  - destruct (collect_spec tokens [] fs (NoDup_nil_2) Hc) as (Hnd & _ & Hiff & Hall).
    assert (forall f, f ∈ fs <-> field_name f ∈ tokens) as Hin.
    { intros f. rewrite Hiff. split; [intros [H|H]; [by apply elem_of_nil in H | done] | by right]. }
    split; [|split; [done|split; [done|]]].
    + destruct tokens as [|t tokens]; [done|]. apply Forall_cons in Hall as [[f Hf] _]. apply allowed_Some in Hf as ->.
      assert (f ∈ fs) as H by (apply Hin; by left). intros ->. by apply elem_of_nil in H.
    + rewrite Forall_forall in Hall |- *. intros t Ht. destruct (Hall t Ht) as [f Hf]. apply allowed_Some in Hf as ->.
      exists f. split; [done|]. by apply Hin.
  - right. clear Hl. assert (forall fields, collect tokens fields = Err e ->
      exists t, t ∈ tokens /\ forall f, t <> field_name f) as H; [|by eapply H].
    clear Hc. induction tokens as [|t tokens IH]; intros fields Hc; cbn [collect] in Hc; [done|].
    destruct (allowed t) as [f|] eqn:Ha in Hc |- *.
    + assert (exists fields, collect tokens fields = Err e) as [fields' H] by (destruct (bool_decide (f ∈ fields)); eauto).
      destruct (IH _ H) as (t' & ? & ?). exists t'. split; [by right | done].
    + exists t. split; [by left|]. intros f ->. by rewrite (proj2 (allowed_Some (field_name f) f) eq_refl) in Ha.
Qed.
