(* ===== verification/Subscriber.v ===== *)
(** * The response subscriber

    [FspiopResponseSubscriber] of
    [packages/shared/fspiop/component/nats/fspiop-response-subscriber.ts]: the waiters
    for callbacks of the hub, their timers, and the cache of callbacks nobody waited
    for. JavaScript runs each operation to its end, so the component is a state machine
    whose events are the calls and the callbacks of timers and messages. The set-up and
    removal of the JetStream consumer is not modelled. *)

From S2P Require Import Prelude Errors Subjects.

(** ** State *)

(** A decoded message: [null], or any other value with what its [errorInformation]
    member is. *)
Inductive payload : Set :=
  | PNull
  | PValue (raw : jsstr) (errorInformation : option ErrorInformation).

(** A [PendingEntry] object. Its identity is the number of its promise; [timer] says
    whether the field holds a timer, which has the same number. *)
Record PendingEntry : Set := mkPendingEntry {
  successSubject : jsstr; errorSubject : jsstr; hubErrorSubject : option jsstr; timer : bool }.

Record RecentEntry : Set := mkRecentEntry { subject : jsstr; recent_payload : payload; expiresAt : Z }.

(** How a promise was settled. *)
Inductive outcome : Set := Resolved (p : payload) | Rejected (e : thrown).

Record state : Type := mkState {
  next : nat;                          (* promises created so far *)
  entries : gmap nat PendingEntry;     (* the entry objects *)
  pending : gmap jsstr nat;            (* [pending], to entry objects *)
  armed : gset nat;                    (* timers scheduled and not cleared *)
  settled : gmap nat outcome;          (* promises settled *)
  recent : list RecentEntry }.         (* [recent], in insertion order, oldest first *)

Definition initial : state := mkState 0 ∅ ∅ ∅ ∅ [].

Definition DEFAULT_TIMEOUT_MS : Z := 30000.
Definition RECENT_CACHE_TTL_MS : Z := 60000.
Definition RECENT_CACHE_MAX_ENTRIES : nat := 2000.

(** ** Operations *)

(** [toFspiopException]; reading a member of [null] throws. *)
Definition toFspiopException (body : payload) : result thrown thrown :=
  match body with
  | PNull => Err (TError (js "Cannot read properties of null (reading 'errorInformation')"))
  | PValue _ ei =>
      let code := default [] (ei ≫= errorCode) in
      let desc := default (js "Unknown FSPIOP error.") (ei ≫= errorDescription) in
      let exts := ei ≫= ei_extensionList in
      let errorDef := default (definition_of GENERIC_SERVER_ERROR) (find code) in
      Ok (TFspiop (new_FspiopException errorDef (AMessage desc exts)))
  end.

(** [resolve] and [reject]: only the first has an effect. *)
Definition settle (id : nat) (o : outcome) (st : state) : state :=
  match settled st !! id with
  | Some _ => st
  | None => mkState (next st) (entries st) (pending st) (armed st) (<[id := o]> (settled st)) (recent st)
  end.

Definition set_recent (r : list RecentEntry) (st : state) : state :=
  mkState (next st) (entries st) (pending st) (armed st) (settled st) r.

Definition delete_opt (s : option jsstr) (m : gmap jsstr nat) : gmap jsstr nat :=
  match s with Some s => delete s m | None => m end.

Definition cancel (s : jsstr) (st : state) : state :=
  match pending st !! s with
  | None => st
  | Some id =>
      match entries st !! id with
      | None => st
      | Some entry =>
          let pending' := delete_opt (hubErrorSubject entry)
                            (delete (errorSubject entry) (delete (successSubject entry) (pending st))) in
          if timer entry
          then mkState (next st)
                 (<[id := mkPendingEntry (successSubject entry) (errorSubject entry) (hubErrorSubject entry) false]>
                    (entries st))
                 pending' (armed st ∖ {[id]}) (settled st) (recent st)
          else mkState (next st) (entries st) pending' (armed st) (settled st) (recent st)
      end
  end.

Definition evictExpiredRecent (now : Z) (r : list RecentEntry) : list RecentEntry :=
  List.filter (fun e => negb (expiresAt e <=? now)) r.

(** [recent.set]: an existing key keeps its place. *)
Fixpoint recent_set (e : RecentEntry) (r : list RecentEntry) : list RecentEntry :=
  match r with
  | [] => [e]
  | x :: r => if str_eqb (subject x) (subject e) then e :: r else x :: recent_set e r
  end.

Definition recent_delete (s : jsstr) (r : list RecentEntry) : list RecentEntry :=
  List.filter (fun x => negb (str_eqb (subject x) s)) r.

Definition addToRecent (now : Z) (s : jsstr) (p : payload) (st : state) : state :=
  let r := evictExpiredRecent now (recent st) in
  let r := if (RECENT_CACHE_MAX_ENTRIES <=? length r)%nat then drop 1 r else r in
  set_recent (recent_set (mkRecentEntry s p (now + RECENT_CACHE_TTL_MS)) r) st.

Definition recent_get (s : jsstr) (r : list RecentEntry) : option RecentEntry :=
  List.find (fun x => str_eqb (subject x) s) r.

(** The first loop of [takeFromRecent]. *)
Fixpoint take_candidate (candidates : list jsstr) (r : list RecentEntry) : option (RecentEntry * jsstr) :=
  match candidates with
  | [] => None
  | s :: candidates =>
      match recent_get s r with
      | Some entry => Some (entry, s)
      | None => take_candidate candidates r
      end
  end.

(** Its second loop. *)
Fixpoint take_any_payee (candidates : list jsstr) (r : list RecentEntry) : option (RecentEntry * jsstr) :=
  match r with
  | [] => None
  | entry :: r =>
      match Parties.toAnyPayeeSubject (subject entry) with
      | Some any => if bool_decide (any ∈ candidates) then Some (entry, any) else take_any_payee candidates r
      | None => take_any_payee candidates r
      end
  end.

Definition candidates (s e : jsstr) (h : option jsstr) : list jsstr :=
  match h with Some h => [s; e; h] | None => [s; e] end.

(** [takeFromRecent]: the entry with the subject it matched, and the cache left. *)
Definition takeFromRecent (now : Z) (s e : jsstr) (h : option jsstr) (r : list RecentEntry)
    : option (RecentEntry * jsstr) * list RecentEntry :=
  let r := evictExpiredRecent now r in
  match take_candidate (candidates s e h) r with
  | Some (entry, matched) => (Some (entry, matched), recent_delete matched r)
  | None =>
      match take_any_payee (candidates s e h) r with
      | Some (entry, matched) => (Some (entry, matched), recent_delete (subject entry) r)
      | None => (None, r)
      end
  end.

Definition insert_opt (s : option jsstr) (id : nat) (m : gmap jsstr nat) : gmap jsstr nat :=
  match s with Some s => <[s := id]> m | None => m end.

(** [waitFor]: the promise it returns is number [next st]; it throws where the cached
    error payload is [null]. *)
Definition waitFor (now : Z) (s e : jsstr) (h : option jsstr) (st : state) : state * result thrown unit :=
  let '(cached, r) := takeFromRecent now s e h (recent st) in
  let st := set_recent r st in
  let id := next st in
  match cached with
  | Some (entry, matchedSubject) =>
      let created := mkState (S id) (entries st) (pending st) (armed st) (settled st) (recent st) in
      if str_eqb matchedSubject s
      then (settle id (Resolved (recent_payload entry)) created, Ok tt)
      else match toFspiopException (recent_payload entry) with
           | Ok err => (settle id (Rejected err) created, Ok tt)
           | Err t => (st, Err t)
           end
  | None =>
      (mkState (S id) (<[id := mkPendingEntry s e h true]> (entries st))
         (insert_opt h id (<[e := id]> (<[s := id]> (pending st))))
         ({[id]} ∪ armed st) (settled st) (recent st), Ok tt)
  end.

(** The callback of the timer of entry [id]. *)
Definition onTimer (timeoutMs : Z) (id : nat) (st : state) : state :=
  match entries st !! id with
  | None => st
  | Some entry =>
      let st := mkState (next st) (entries st) (pending st) (armed st ∖ {[id]}) (settled st) (recent st) in
      let st := cancel (successSubject entry) st in
      settle id (Rejected (fspiop_msg SERVER_TIMED_OUT
        (js "No FSPIOP callback received on '" ++ successSubject entry ++ js "' within " ++
         bigint_text timeoutMs ++ js "ms."))) st
  end.

(** [dispatch]; [decoded] is [None] where the codec throws. *)
Definition dispatch (now : Z) (subj : jsstr) (decoded : option payload) (st : state) : state * result thrown unit :=
  match decoded with
  | None => (st, Err (TError (js "Bad JSON")))
  | Some p =>
      let found := match pending st !! subj with
                   | Some id => Some (id, subj)
                   | None =>
                       match Parties.toAnyPayeeSubject subj with
                       | Some any => (fun id => (id, any)) <$> pending st !! any
                       | None => None
                       end
                   end in
      match found with
      | None => (addToRecent now subj p st, Ok tt)
      | Some (id, matchedSubject) =>
          match entries st !! id with
          | None => (st, Ok tt)
          | Some entry =>
              let isSuccess := str_eqb matchedSubject (successSubject entry) in
              let st := cancel (successSubject entry) st in
              if isSuccess then (settle id (Resolved p) st, Ok tt)
              else match toFspiopException p with
                   | Ok err => (settle id (Rejected err) st, Ok tt)
                   | Err t => (st, Err t)
                   end
          end
      end
  end.

(** [onModuleDestroy]: cancel every key, then clear both maps. *)
Definition onModuleDestroy (st : state) : state :=
  let st := fold_left (fun st k => cancel k st) (map fst (map_to_list (pending st))) st in
  mkState (next st) (entries st) ∅ (armed st) (settled st) [].

(** ** Events *)

Inductive event : Set :=
  | EWait (now : Z) (s e : jsstr) (h : option jsstr)
  | EMessage (now : Z) (subj : jsstr) (decoded : option payload)
  | ETimer (timeoutMs : Z) (id : nat)
  | ECancel (s : jsstr)
  | EDestroy.

(** A timer's callback runs only while the timer is scheduled; the consume loop catches
    what [dispatch] throws. *)
Definition step (ev : event) (st : state) : state :=
  match ev with
  | EWait now s e h => fst (waitFor now s e h st)
  | EMessage now subj decoded => fst (dispatch now subj decoded st)
  | ETimer t id => if bool_decide (id ∈ armed st) then onTimer t id st else st
  | ECancel s => cancel s st
  | EDestroy => onModuleDestroy st
  end.

Definition run (evs : list event) (st : state) : state := fold_left (fun st ev => step ev st) evs st.

(** ** Disciplined runs *)

(** The subjects of a [waitFor] are free: nobody is waiting on them. *)
Definition free (s e : jsstr) (h : option jsstr) (st : state) : Prop :=
  pending st !! s = None /\ pending st !! e = None /\ (forall k, h = Some k -> pending st !! k = None).

(** Runs in which waiters do not share subjects and messages carry no [null]; the index
    collects the waiters cancelled by their callers. *)
Inductive reach : gset nat -> state -> Prop :=
  | reach_init : reach ∅ initial
  | reach_wait C st now s e h :
      reach C st -> free s e h st -> s <> e -> h <> Some s -> reach C (step (EWait now s e h) st)
  | reach_message C st now subj decoded :
      reach C st -> decoded <> Some PNull -> reach C (step (EMessage now subj decoded) st)
  | reach_timer C st t id : reach C st -> reach C (step (ETimer t id) st)
  | reach_cancel C st s :
      reach C st ->
      reach (match pending st !! s with Some id => {[id]} ∪ C | None => C end) (step (ECancel s) st).

(** The subjects of an entry. *)
Definition subject_of (en : PendingEntry) (k : jsstr) : Prop :=
  k = successSubject en \/ k = errorSubject en \/ hubErrorSubject en = Some k.

(** Every key leads to a scheduled, unsettled entry that lists it; a scheduled entry is
    under all its keys; and an unsettled promise nobody cancelled is scheduled. *)
Record inv (C : gset nat) (st : state) : Prop := {
  inv_pending : forall k id, pending st !! k = Some id ->
    exists en, entries st !! id = Some en /\ id ∈ armed st /\ subject_of en k;
  inv_entry : forall id en, entries st !! id = Some en ->
    (id < next st)%nat /\ errorSubject en <> successSubject en /\ hubErrorSubject en <> Some (successSubject en) /\
    (id ∈ armed st -> timer en = true /\ settled st !! id = None /\ forall k, subject_of en k -> pending st !! k = Some id);
  inv_live : forall id, (id < next st)%nat -> settled st !! id = None -> id ∉ C -> id ∈ armed st;
  inv_armed : forall id, id ∈ armed st -> is_Some (entries st !! id);
  inv_settled : forall id, is_Some (settled st !! id) -> (id < next st)%nat;
  inv_recent : Forall (fun x => recent_payload x <> PNull) (recent st) }.

(** A waiter nothing can settle any more. *)
Definition lost (id : nat) (st : state) : Prop :=
  (id < next st)%nat /\ settled st !! id = None /\ id ∉ armed st /\ forall k, pending st !! k <> Some id.

(** The cache: distinct subjects, at most the maximum. *)
Definition recent_ok (r : list RecentEntry) : Prop :=
  NoDup (map subject r) /\ (length r <= RECENT_CACHE_MAX_ENTRIES)%nat.

(** * Lemmas *)

Lemma str_eqb_spec a b : str_eqb a b = true <-> a = b.
Proof. apply bool_decide_eq_true. Qed.

Lemma str_eqb_refl a : str_eqb a a = true.
Proof. by apply str_eqb_spec. Qed.

Lemma str_eqb_neq a b : a <> b -> str_eqb a b = false.
Proof. apply bool_decide_eq_false_2. Qed.

Lemma set_recent_recent st : set_recent (recent st) st = st.
Proof. by destruct st. Qed.

Lemma toFspiopException_value p : p <> PNull -> exists err, toFspiopException p = Ok err.
Proof. destruct p; [done|]. by eexists. Qed.

(** ** Lost waiters stay lost *)

Lemma delete_opt_Some o m k id : delete_opt o m !! k = Some id -> m !! k = Some id.
Proof. destruct o; [|done]. cbn. by intros [_ ?]%lookup_delete_Some. Qed.

Lemma insert_opt_Some o i m k id : insert_opt o i m !! k = Some id -> i = id \/ m !! k = Some id.
Proof. destruct o; [|by right]. cbn. intros [[_ ?]|[_ ?]]%lookup_insert_Some; auto. Qed.

Lemma cancel_shrinks s st :
  next (cancel s st) = next st /\ settled (cancel s st) = settled st /\ recent (cancel s st) = recent st /\
  armed (cancel s st) ⊆ armed st /\ (forall k id, pending (cancel s st) !! k = Some id -> pending st !! k = Some id).
Proof.
  unfold cancel. destruct (pending st !! s) as [i|]; [|done]. destruct (entries st !! i) as [en|]; [|done].
  assert (forall k id, delete_opt (hubErrorSubject en) (delete (errorSubject en) (delete (successSubject en) (pending st))) !! k = Some id ->
    pending st !! k = Some id) as H.
  { intros k id Hk%delete_opt_Some. by apply lookup_delete_Some in Hk as [_ [_ ?]%lookup_delete_Some]. }
  destruct (timer en); cbn; repeat split; try done. set_solver.
Qed.

Lemma cancel_lost id s st : lost id st -> lost id (cancel s st).
Proof.
  intros (Hn & Hs & Ha & Hp). destruct (cancel_shrinks s st) as (H1 & H2 & _ & H4 & H5).
  split; [by rewrite H1|]. split; [by rewrite H2|]. split; [set_solver|]. intros k Hk. by eapply Hp, H5.
Qed.

Lemma settle_lost id i o st : i <> id -> lost id st -> lost id (settle i o st).
Proof.
  intros Hne H. unfold settle. destruct (settled st !! i); [done|]. destruct H as (Hn & Hs & Ha & Hp).
  split; [done|]. split; [|done]. cbn. by rewrite lookup_insert_ne.
Qed.

Lemma set_recent_lost id r st : lost id st -> lost id (set_recent r st).
Proof. done. Qed.

Lemma cancel_settled i s st : settled (cancel s st) !! i = settled st !! i.
Proof. destruct (cancel_shrinks s st) as (_ & -> & _). done. Qed.

Lemma step_lost id ev st : lost id st -> lost id (step ev st).
Proof.
  intros H. destruct ev as [now s e h|now subj decoded|t i|s|]; cbn [step].
  - unfold waitFor. destruct (takeFromRecent _ _ _ _ _) as [[[en m]|] r].
    + assert (forall o, lost id (settle (next st) o (mkState (S (next st)) (entries st) (pending st) (armed st) (settled st) r))) as Hl.
      { intros o. apply settle_lost; [destruct H; lia|]. destruct H as (Hn & Hs & Ha & Hp). repeat split; try done. cbn. lia. }
      destruct (str_eqb m s); [apply Hl|]. destruct (toFspiopException _); [apply Hl | by apply set_recent_lost].
    + destruct H as (Hn & Hs & Ha & Hp). split; [cbn; lia|]. split; [done|]. split; [cbn; set_solver by lia|].
      intros k Hk. cbn in Hk. apply insert_opt_Some in Hk as [?|Hk]; [lia|].
      apply lookup_insert_Some in Hk as [[_ ?]|[_ Hk]]; [lia|].
      apply lookup_insert_Some in Hk as [[_ ?]|[_ Hk]]; [lia|]. by eapply Hp.
  - unfold dispatch. destruct decoded as [p|]; [|done].
    destruct (match pending st !! subj with Some i => _ | None => _ end) as [[i m]|] eqn:Hf; [|by apply set_recent_lost].
    assert (i <> id) as Hne.
    { destruct H as (_ & _ & _ & Hp). intros ->. destruct (pending st !! subj) as [j|] eqn:E.
      - injection Hf as -> ->. by eapply Hp.
      - destruct (Parties.toAnyPayeeSubject subj) as [any|]; [|done]. apply fmap_Some in Hf as (j & Hj & [= -> ->]). by eapply Hp. }
    destruct (entries st !! i) as [en|]; [|done]. destruct (str_eqb m _); [by apply settle_lost, cancel_lost|].
    destruct (toFspiopException p); [by apply settle_lost, cancel_lost | by apply cancel_lost].
  - case_bool_decide as Hi; [|done]. assert (i <> id) as Hne by (intros ->; by destruct H as (_ & _ & ? & _)).
    unfold onTimer. destruct (entries st !! i); [|done]. apply settle_lost; [done|]. apply cancel_lost.
    destruct H as (Hn & Hs & Ha & Hp). repeat split; try done. cbn. set_solver.
  - by apply cancel_lost.
  - unfold onModuleDestroy. assert (forall ks, lost id (fold_left (fun st k => cancel k st) ks st)) as Hl.
    { intros ks. revert st H. induction ks as [|k ks IH]; intros st H; [done|]. cbn. by apply IH, cancel_lost. }
    destruct (Hl (map fst (map_to_list (pending st)))) as (Hn & Hs & Ha & _). by repeat split.
Qed.

Lemma run_lost id evs st : lost id st -> lost id (run evs st).
Proof. revert st. induction evs as [|ev evs IH]; intros st H; [done|]. cbn. by apply IH, step_lost. Qed.

(** ** Disciplined runs keep every waiter reachable *)

(** An entry leaves the maps: it is settled, or cancelled. *)
Lemma retire C C' st id en P' settled' :
  inv C st -> entries st !! id = Some en -> id ∈ armed st ->
  (forall k j, P' !! k = Some j <-> pending st !! k = Some j /\ j <> id) ->
  (forall j, j <> id -> settled' !! j = settled st !! j) -> C ⊆ C' -> (is_Some (settled' !! id) \/ id ∈ C') ->
  inv C' (mkState (next st)
            (<[id := mkPendingEntry (successSubject en) (errorSubject en) (hubErrorSubject en) false]> (entries st))
            P' (armed st ∖ {[id]}) settled' (recent st)).
Proof.
  intros [I1 I2 I3 I4 I5 I6] Hen Harm HP Hset HC Hid. split; cbn.
  - intros k j Hk. apply HP in Hk as [Hk Hne]. destruct (I1 k j Hk) as (ej & ? & ? & ?). exists ej.
    rewrite lookup_insert_ne by done. split; [done|]. split; [set_solver | done].
  - intros j ej [[<- <-]|[Hne Hj]]%lookup_insert_Some.
    + destruct (I2 _ _ Hen) as (? & ? & ? & _). cbn. split; [done|]. split; [done|]. split; [done|]. set_solver.
    + destruct (I2 _ _ Hj) as (? & ? & ? & Ha). split; [done|]. split; [done|]. split; [done|].
      intros Hin. destruct Ha as (? & ? & Hk); [set_solver|]. split; [done|]. split; [by rewrite Hset|].
      intros k Hs. apply HP. split; [by apply Hk | done].
  - intros j Hj Hsj HnC. destruct (decide (j = id)) as [->|Hne].
    + destruct Hid as [[x Hx]|?]; [congruence | done].
    + apply elem_of_difference. split; [|set_solver]. apply I3; [done| |set_solver]. by rewrite <- Hset.
  - intros j Hj. apply elem_of_difference in Hj as [Hj Hne]. rewrite lookup_insert_ne by set_solver. by apply I4.
  - intros j Hj. destruct (decide (j = id)) as [->|Hne]; [by apply (I2 _ _ Hen)|]. apply I5. by rewrite <- Hset.
  - done.
Qed.

Lemma cancel_shape C st s id :
  inv C st -> pending st !! s = Some id -> exists en P',
  entries st !! id = Some en /\ id ∈ armed st /\ subject_of en s /\
  (forall k j, P' !! k = Some j <-> pending st !! k = Some j /\ j <> id) /\
  cancel s st = mkState (next st)
            (<[id := mkPendingEntry (successSubject en) (errorSubject en) (hubErrorSubject en) false]> (entries st))
            P' (armed st ∖ {[id]}) (settled st) (recent st).
Proof.
  intros HI Hs. destruct (inv_pending _ _ HI s id Hs) as (en & Hen & Harm & Hsub).
  destruct (inv_entry _ _ HI id en Hen) as (_ & _ & _ & Ha). destruct (Ha Harm) as (Ht & _ & Hk).
  exists en. eexists. split; [done|]. split; [done|]. split; [done|]. split; cycle 1.
  { unfold cancel. by rewrite Hs, Hen, Ht. }
  assert (forall k j, delete_opt (hubErrorSubject en) (delete (errorSubject en) (delete (successSubject en) (pending st))) !! k = Some j
    <-> pending st !! k = Some j /\ ~ subject_of en k) as Hd.
  { intros k j. unfold subject_of. destruct (hubErrorSubject en) as [h|]; cbn; rewrite ?lookup_delete_Some; naive_solver. }
  intros k j. rewrite Hd. split.
  - intros [Hkj Hns]. split; [done|]. intros ->. destruct (inv_pending _ _ HI k id Hkj) as (en' & Hen' & _ & ?). naive_solver.
  - intros [Hkj Hne]. split; [done|]. intros Hsub'. rewrite (Hk k Hsub') in Hkj. congruence.
Qed.

(** Cancelling, then settling, the waiter found under a key. *)
Lemma settle_cancel_inv C st s id o :
  inv C st -> pending st !! s = Some id ->
  inv C (settle id o (cancel s st)) /\ settled (settle id o (cancel s st)) !! id = Some o.
Proof.
  intros HI Hs. destruct (cancel_shape C st s id HI Hs) as (en & P' & Hen & Harm & _ & HP & ->).
  destruct (inv_entry _ _ HI id en Hen) as (_ & _ & _ & Ha). destruct (Ha Harm) as (_ & Hset & _).
  unfold settle. cbn. rewrite Hset. split; [|cbn; by rewrite lookup_insert_eq].
  eapply retire; try done; cbn.
  - intros j Hj. by rewrite lookup_insert_ne.
  - left. rewrite lookup_insert_eq. by eexists.
Qed.

Lemma entry_success C st id en :
  inv C st -> entries st !! id = Some en -> id ∈ armed st -> pending st !! successSubject en = Some id.
Proof. intros HI Hen Ha. apply (inv_entry _ _ HI id en Hen); [done|]. by left. Qed.

(** The timer's callback is cancel and reject. *)
Lemma onTimer_settle C st id en t :
  inv C st -> entries st !! id = Some en -> id ∈ armed st ->
  onTimer t id st = settle id (Rejected (fspiop_msg SERVER_TIMED_OUT
    (js "No FSPIOP callback received on '" ++ successSubject en ++ js "' within " ++ bigint_text t ++ js "ms.")))
    (cancel (successSubject en) st).
Proof.
  intros HI Hen Ha. unfold onTimer. rewrite Hen. f_equal. unfold cancel. cbn [pending entries].
  rewrite (entry_success C st id en) by done. rewrite Hen.
  destruct (inv_entry _ _ HI id en Hen) as (_ & _ & _ & Hx). destruct (Hx Ha) as (-> & _). cbn. f_equal. set_solver.
Qed.

(** Messages: which waiter a subject finds. *)
Definition reaches_key (subj k : jsstr) (st : state) : Prop :=
  subj = k \/ (pending st !! subj = None /\ Parties.toAnyPayeeSubject subj = Some k).

Lemma dispatch_pending C st now subj k id en p :
  inv C st -> pending st !! k = Some id -> reaches_key subj k st -> entries st !! id = Some en ->
  fst (dispatch now subj (Some p) st) =
  (let st' := cancel (successSubject en) st in
   if str_eqb k (successSubject en) then settle id (Resolved p) st'
   else match toFspiopException p with Ok err => settle id (Rejected err) st' | Err _ => st' end).
Proof.
  intros HI Hk Hr Hen. unfold dispatch.
  assert (match pending st !! subj with
          | Some id => Some (id, subj)
          | None => match Parties.toAnyPayeeSubject subj with
                    | Some any => (fun id => (id, any)) <$> pending st !! any | None => None end
          end = Some (id, k)) as ->.
  { destruct Hr as [->|[-> ->]]; by rewrite Hk. }
  rewrite Hen. destruct (str_eqb k _); [done|]. by destruct (toFspiopException p).
Qed.

Lemma filter_payloads (f : RecentEntry -> bool) r :
  Forall (fun x => recent_payload x <> PNull) r -> Forall (fun x => recent_payload x <> PNull) (List.filter f r).
Proof.
  intros H. apply Forall_forall. intros x Hx. rewrite Forall_forall in H. apply H.
  by apply list_elem_of_In, filter_In in Hx as [Hx%list_elem_of_In _].
Qed.

Lemma recent_payloads_add now s p st :
  Forall (fun x => recent_payload x <> PNull) (recent st) -> p <> PNull ->
  Forall (fun x => recent_payload x <> PNull) (recent (addToRecent now s p st)).
Proof.
  intros H Hp. unfold addToRecent. cbn.
  assert (forall r, Forall (fun x => recent_payload x <> PNull) r ->
    Forall (fun x => recent_payload x <> PNull) (recent_set (mkRecentEntry s p (now + RECENT_CACHE_TTL_MS)) r)) as Hr.
  { induction 1 as [|x r Hx Hr IH]; cbn; [by repeat constructor|]. destruct (str_eqb _ _); by constructor. }
  apply Hr. case_match; [apply Forall_drop|]; by apply filter_payloads.
Qed.

Lemma inv_set_recent C st r : inv C st -> Forall (fun x => recent_payload x <> PNull) r -> inv C (set_recent r st).
Proof. by intros [] ?; split. Qed.

Lemma takeFromRecent_payload now s e h r :
  Forall (fun x => recent_payload x <> PNull) r ->
  Forall (fun x => recent_payload x <> PNull) (snd (takeFromRecent now s e h r)) /\
  forall en m, fst (takeFromRecent now s e h r) = Some (en, m) -> recent_payload en <> PNull.
Proof.
  intros H. unfold takeFromRecent. pose proof (filter_payloads (fun e => negb (expiresAt e <=? now)) r H) as He.
  change (List.filter _ r) with (evictExpiredRecent now r) in He. set (r' := evictExpiredRecent now r) in *.
  assert (forall l en m, take_candidate l r' = Some (en, m) -> recent_payload en <> PNull) as H1.
  { induction l as [|k l IH]; intros en m; cbn; [done|]. destruct (recent_get k r') as [x|] eqn:Hx; [|apply IH].
    intros [= <- <-]. apply find_some in Hx as [Hx%list_elem_of_In _]. rewrite Forall_forall in He. by apply He. }
  assert (forall l en m, take_any_payee l r' = Some (en, m) -> recent_payload en <> PNull) as H2.
  { clearbody r'. clear -He. intros l en m. induction He as [|x r Hx Hr IH]; cbn; [done|].
    destruct (Parties.toAnyPayeeSubject _); [case_bool_decide|]; try done. by intros [= <- <-]. }
  destruct (take_candidate _ r') as [[en m]|] eqn:E1; cbn.
  - split; [by apply filter_payloads|]. intros ? ? [= <- <-]. by eapply H1.
  - destruct (take_any_payee _ r') as [[en m]|] eqn:E2; cbn.
    + split; [by apply filter_payloads|]. intros ? ? [= <- <-]. by eapply H2.
    + done.
Qed.

Lemma inv_mono C C' st : C ⊆ C' -> inv C st -> inv C' st.
Proof. intros HC []. split; try done. intros id ? ? ?. eauto. Qed.

(** A promise settled at its creation. *)
Lemma created_inv C st o :
  inv C st -> inv C (settle (next st) o (mkState (S (next st)) (entries st) (pending st) (armed st) (settled st) (recent st))).
Proof.
  intros [I1 I2 I3 I4 I5 I6]. assert (settled st !! next st = None) as Hn.
  { destruct (settled st !! next st) eqn:E; [|done]. assert (next st < next st)%nat by (apply I5; by eexists). lia. }
  unfold settle. cbn. rewrite Hn. split; cbn; try done.
  - intros id en Hen. destruct (I2 id en Hen) as (Hlt & ? & ? & Ha). split; [lia|]. split; [done|]. split; [done|].
    intros Hin. destruct (Ha Hin) as (? & ? & ?). rewrite lookup_insert_ne by lia. done.
  - intros id Hlt Hs HnC. apply lookup_insert_None in Hs as [Hs Hne]. apply I3; [lia | done..].
  - intros id [x [[<- _]|[_ Hx]]%lookup_insert_Some]; [lia|]. assert (id < next st)%nat by (apply I5; by eexists). lia.
Qed.

Lemma wait_inv C st s e h :
  inv C st -> free s e h st -> s <> e -> h <> Some s -> C ⊆ set_seq 0 (next st) ->
  inv C (mkState (S (next st)) (<[next st := mkPendingEntry s e h true]> (entries st))
           (insert_opt h (next st) (<[e := next st]> (<[s := next st]> (pending st))))
           ({[next st]} ∪ armed st) (settled st) (recent st)).
Proof.
  intros [I1 I2 I3 I4 I5 I6] (Fs & Fe & Fh) Hse Hhs HC.
  assert (entries st !! next st = None) as Hn.
  { destruct (entries st !! next st) eqn:E; [|done]. apply I2 in E as [? _]. lia. }
  assert (settled st !! next st = None) as Hsn.
  { destruct (settled st !! next st) eqn:E; [|done]. assert (next st < next st)%nat by (apply I5; by eexists). lia. }
  set (P := insert_opt h (next st) (<[e := next st]> (<[s := next st]> (pending st)))).
  assert (forall k i, P !! k = Some i <->
    (i = next st /\ (k = s \/ k = e \/ h = Some k)) \/ (pending st !! k = Some i)) as HP.
  { intros k i. unfold P. destruct h as [h|]; cbn; rewrite ?lookup_insert_Some.
    all: split; [naive_solver|].
    all: intros [[-> Hk]|Hk].
    - destruct (decide (h = k)) as [->|]; [by left|]. right. split; [done|].
      destruct (decide (e = k)) as [->|]; [by left|]. right. split; [done|]. left. naive_solver.
    - right. split; [intros ->; rewrite (Fh k eq_refl) in Hk; done|]. right. split; [congruence|]. right. split; [congruence | done].
    - destruct (decide (e = k)) as [->|]; [by left|]. right. split; [done|]. left. naive_solver.
    - right. split; [congruence|]. right. split; [congruence | done]. }
  clearbody P. split; cbn.
  - intros k i [[-> Hk]|Hk]%HP.
    + exists (mkPendingEntry s e h true). rewrite lookup_insert_eq. split; [done|]. split; [set_solver|].
      unfold subject_of. naive_solver.
    + destruct (I1 k i Hk) as (en & Hen & ? & ?). exists en. rewrite lookup_insert_ne by congruence.
      split; [done|]. split; [set_solver | done].
  - intros i en [[<- <-]|[Hne Hen]]%lookup_insert_Some.
    + split; [lia|]. cbn. split; [congruence|]. split; [done|]. intros _. split; [done|]. split; [done|].
      intros k Hk. apply HP. left. split; [done|]. unfold subject_of in Hk. cbn in Hk. naive_solver.
    + destruct (I2 i en Hen) as (Hlt & ? & ? & Ha). split; [lia|]. split; [done|]. split; [done|]. intros Hin.
      destruct Ha as (? & ? & Hk); [set_solver|]. split; [done|]. split; [done|]. intros k Hsub. apply HP. right. by apply Hk.
  - intros i Hi Hs HnC. destruct (decide (i = next st)) as [->|]; [set_solver|].
    apply elem_of_union. right. apply I3; [lia | done..].
  - intros i [->%elem_of_singleton|Hi]%elem_of_union; [rewrite lookup_insert_eq; by eexists|].
    destruct (I4 i Hi) as [en Hen]. rewrite lookup_insert_ne by congruence. by eexists.
  - intros i Hi. apply I5 in Hi. lia.
  - done.
Qed.

Lemma settle_cancel_next i o s st : next (settle i o (cancel s st)) = next st.
Proof.
  rewrite <- (proj1 (cancel_shrinks s st)). unfold settle. by destruct (settled (cancel s st) !! i).
Qed.

Lemma reach_inv C st : reach C st -> inv C st /\ C ⊆ set_seq 0 (next st).
Proof.
  induction 1 as [|C st now s e h _ [IH HC] Hfree Hse Hhs|C st now subj decoded _ [IH HC] Hd|C st t id _ [IH HC]|C st s _ [IH HC]].
  - split; [|set_solver]. split; cbn; try done; intros *; rewrite ?lookup_empty; try done; try lia; try set_solver.
  - cbn [step]. unfold waitFor. destruct (takeFromRecent_payload now s e h _ (inv_recent _ _ IH)) as [H1 H2].
    destruct (takeFromRecent now s e h (recent st)) as [[[en m]|] r]; cbn [fst snd] in H1, H2;
      pose proof (inv_set_recent _ _ _ IH H1) as IH'.
    + specialize (H2 en m eq_refl). destruct (toFspiopException_value _ H2) as [err ->].
      assert (forall o, inv C (settle (next st) o (mkState (S (next st)) (entries st) (pending st) (armed st) (settled st) r)) /\
        C ⊆ set_seq 0 (next (settle (next st) o (mkState (S (next st)) (entries st) (pending st) (armed st) (settled st) r)))) as Hc.
      { intros o. split; [exact (created_inv C _ o IH')|]. unfold settle. destruct (_ !! _); cbn; set_solver by lia. }
      destruct (str_eqb m s); apply Hc.
    + split; [|cbn; set_solver by lia]. by apply (wait_inv C (set_recent r st)).
  - cbn [step]. destruct decoded as [p|]; [|done]. assert (p <> PNull) as Hp by congruence.
    destruct (match pending st !! subj with
              | Some id => Some (id, subj)
              | None => match Parties.toAnyPayeeSubject subj with
                        | Some any => (fun id => (id, any)) <$> pending st !! any | None => None end
              end) as [[id k]|] eqn:Hf.
    + assert (pending st !! k = Some id /\ reaches_key subj k st) as [Hk Hr].
      { destruct (pending st !! subj) as [i|] eqn:E; [injection Hf as -> ->; split; [done | by left]|].
        destruct (Parties.toAnyPayeeSubject subj) as [any|] eqn:Ea; [|done].
        apply fmap_Some in Hf as (j & Hj & [= -> ->]). split; [done|]. by right. }
      destruct (inv_pending _ _ IH k id Hk) as (en & Hen & Harm & _).
      rewrite (dispatch_pending C st now subj k id en p) by done.
      destruct (toFspiopException_value p Hp) as [err ->]. cbv zeta.
      pose proof (entry_success C st id en IH Hen Harm) as Hs.
      assert (forall o, inv C (settle id o (cancel (successSubject en) st)) /\ C ⊆ set_seq 0 (next (settle id o (cancel (successSubject en) st)))) as Hc.
      { intros o. split; [by apply settle_cancel_inv|]. by rewrite settle_cancel_next. }
      destruct (str_eqb k _); apply Hc.
    + unfold dispatch. rewrite Hf. cbn [fst]. split; [|done]. apply inv_set_recent; [done|].
      exact (recent_payloads_add now subj p st (inv_recent _ _ IH) Hp).
  - cbn [step]. case_bool_decide as Ha; [|done]. destruct (inv_armed _ _ IH id Ha) as [en Hen].
    rewrite (onTimer_settle C st id en t) by done. split; [apply settle_cancel_inv; [done | by eapply entry_success]|].
    by rewrite settle_cancel_next.
  - cbn [step]. destruct (pending st !! s) as [id|] eqn:Hs; cycle 1.
    { unfold cancel. by rewrite Hs. }
    destruct (cancel_shape C st s id IH Hs) as (en & P' & Hen & Harm & _ & HP & ->). split.
    + eapply retire; try done; [set_solver | right; set_solver].
    + cbn. destruct (inv_entry _ _ IH id en Hen) as [Hlt _]. intros x [->%elem_of_singleton|Hx]%elem_of_union; [|by apply HC].
      apply elem_of_set_seq. lia.
Qed.

(** ** The cache *)

Lemma filter_recent_ok f r : recent_ok r -> recent_ok (List.filter f r).
Proof.
  intros [Hnd Hl]. split; cycle 1.
  { etrans; [|exact Hl]. clear. induction r as [|x r IH]; cbn; [done|]. destruct (f x); cbn; lia. }
  clear Hl. induction r as [|x r IH]; cbn in *; [done|]. apply NoDup_cons in Hnd as [Hx Hnd].
  destruct (f x); [|by apply IH]. cbn. apply NoDup_cons. split; [|by apply IH].
  intros Hin. apply Hx. apply list_elem_of_In, in_map_iff in Hin as (y & Hy & Hin).
  apply filter_In in Hin as [Hin _]. apply list_elem_of_In, in_map_iff. eauto.
Qed.

Lemma recent_set_subjects e r : forall s, s ∈ map subject (recent_set e r) <-> s = subject e \/ s ∈ map subject r.
Proof.
  intros s. induction r as [|x r IH]; cbn; [rewrite list_elem_of_singleton; set_solver|].
  destruct (str_eqb (subject x) (subject e)) eqn:E; cbn; rewrite !elem_of_cons; [|rewrite IH; naive_solver].
  apply str_eqb_spec in E. rewrite E. naive_solver.
Qed.

Lemma recent_set_ok e r :
  NoDup (map subject r) -> NoDup (map subject (recent_set e r)) /\ (length (recent_set e r) <= S (length r))%nat.
Proof.
  induction r as [|x r IH]; cbn; intros Hnd; [split; [apply NoDup_singleton | lia]|].
  apply NoDup_cons in Hnd as [Hx Hnd]. destruct (IH Hnd) as [IH1 IH2].
  destruct (str_eqb (subject x) (subject e)) eqn:E; cbn.
  - apply str_eqb_spec in E. rewrite <- E. split; [by apply NoDup_cons | lia].
  - split; [|lia]. apply NoDup_cons. split; [|done]. intros [?|?]%recent_set_subjects; [|done].
    apply bool_decide_eq_false in E. congruence.
Qed.

Lemma addToRecent_ok now s p st : recent_ok (recent st) -> recent_ok (recent (addToRecent now s p st)).
Proof.
  intros H. unfold addToRecent. cbn [recent set_recent].
  pose proof (filter_recent_ok (fun e => negb (expiresAt e <=? now)) _ H) as [Hnd Hl].
  change (List.filter _ (recent st)) with (evictExpiredRecent now (recent st)) in *.
  set (r := evictExpiredRecent now (recent st)) in *. clearbody r.
  destruct (RECENT_CACHE_MAX_ENTRIES <=? length r)%nat eqn:E.
  - assert (NoDup (map subject (drop 1 r))) as Hd.
    { destruct r as [|x r]; [done|]. cbn in *. rewrite drop_0. by apply NoDup_cons in Hnd as [_ ?]. }
    destruct (recent_set_ok (mkRecentEntry s p (now + RECENT_CACHE_TTL_MS)) (drop 1 r) Hd) as [H1 H2].
    split; [done|]. rewrite length_drop in H2. apply Nat.leb_le in E.
    assert (1 <= RECENT_CACHE_MAX_ENTRIES)%nat by (apply Nat.leb_le; reflexivity). lia.
  - apply Nat.leb_gt in E. destruct (recent_set_ok (mkRecentEntry s p (now + RECENT_CACHE_TTL_MS)) r Hnd) as [H1 H2].
    split; [done|]. lia.
Qed.

Lemma cancel_recent s st : recent (cancel s st) = recent st.
Proof. apply (cancel_shrinks s st). Qed.

Lemma settle_recent i o st : recent (settle i o st) = recent st.
Proof. unfold settle. by destruct (settled st !! i). Qed.

Lemma step_recent_ok ev st : recent_ok (recent st) -> recent_ok (recent (step ev st)).
Proof.
  intros H. destruct ev as [now s e h|now subj decoded|t i|s|]; cbn [step].
  - unfold waitFor. assert (recent_ok (snd (takeFromRecent now s e h (recent st)))) as Hr.
    { unfold takeFromRecent, recent_delete, evictExpiredRecent. repeat case_match; cbn; repeat apply filter_recent_ok; done. }
    destruct (takeFromRecent now s e h (recent st)) as [[[en m]|] r]; [|done]. cbn in Hr.
    destruct (str_eqb m s); [|destruct (toFspiopException (recent_payload en))]; cbn [fst]; by rewrite ?settle_recent.
  - unfold dispatch. destruct decoded as [p|]; [|done].
    destruct (match pending st !! subj with Some i => _ | None => _ end) as [[i m]|]; [|by apply addToRecent_ok].
    destruct (entries st !! i) as [en|]; [|done].
    destruct (str_eqb m _); [|destruct (toFspiopException p)]; cbn [fst]; by rewrite ?settle_recent, ?cancel_recent.
  - case_bool_decide; [|done]. unfold onTimer. case_match; [|done]. by rewrite settle_recent, cancel_recent.
  - by rewrite cancel_recent.
  - split; [apply NoDup_nil_2 | cbn; lia].
Qed.

Lemma find_recent_set e r : recent_get (subject e) (recent_set e r) = Some e.
Proof.
  unfold recent_get. induction r as [|x r IH]; cbn; [by rewrite str_eqb_refl|].
  destruct (str_eqb (subject x) (subject e)) eqn:E; cbn; [by rewrite str_eqb_refl | by rewrite E].
Qed.

(** A fresh entry survives the eviction of a later moment. *)
Lemma find_evict now e r :
  NoDup (map subject r) -> recent_get (subject e) r = Some e -> now < expiresAt e ->
  recent_get (subject e) (evictExpiredRecent now r) = Some e.
Proof.
  intros Hnd Hg Hx. unfold recent_get, evictExpiredRecent in *. induction r as [|x r IH]; cbn in *; [done|].
  apply NoDup_cons in Hnd as [_ Hnd]. destruct (str_eqb (subject x) (subject e)) eqn:E.
  - injection Hg as ->. rewrite (proj2 (Z.leb_gt _ _)) by done. cbn. by rewrite str_eqb_refl.
  - destruct (negb _); cbn; [rewrite E|]; by apply IH.
Qed.

(** * Properties *)

(** C32. No waiter is lost, as long as waiters do not share subjects and no callback is
    [null]: after any such run of calls, messages, timers and cancellations, a promise
    that is neither settled nor cancelled still has its timer scheduled, whose firing
    rejects it, and any message on its success subject, or on a concrete subject whose
    any-payee form it is, resolves it, and any on its error subjects rejects it. *)
Theorem no_waiter_lost :
  forall C st id, reach C st -> (id < next st)%nat -> settled st !! id = None -> id ∉ C ->
  exists en, entries st !! id = Some en /\ id ∈ armed st /\
  (forall t, exists e, settled (step (ETimer t id) st) !! id = Some (Rejected e) /\
     exists m, e = fspiop_msg SERVER_TIMED_OUT m) /\
  (forall now subj p, reaches_key subj (successSubject en) st ->
     settled (step (EMessage now subj (Some p)) st) !! id = Some (Resolved p)) /\
  (forall now subj k p, k = errorSubject en \/ hubErrorSubject en = Some k -> reaches_key subj k st -> p <> PNull ->
     exists e, toFspiopException p = Ok e /\ settled (step (EMessage now subj (Some p)) st) !! id = Some (Rejected e)).
Proof.
  intros C st id Hr Hlt Hs HnC. destruct (reach_inv C st Hr) as [HI _].
  pose proof (inv_live _ _ HI id Hlt Hs HnC) as Harm. destruct (inv_armed _ _ HI id Harm) as [en Hen].
  destruct (inv_entry _ _ HI id en Hen) as (_ & Hes & Hhs & Ha). destruct (Ha Harm) as (_ & _ & Hsub).
  exists en. split; [done|]. split; [done|]. pose proof (entry_success C st id en HI Hen Harm) as Hp.
  assert (forall o, settled (settle id o (cancel (successSubject en) st)) !! id = Some o) as Hset
    by (intros o; by apply (settle_cancel_inv C)).
  split; [|split].
  - intros t. cbn [step]. rewrite bool_decide_true by done. rewrite (onTimer_settle C st id en t) by done.
    rewrite Hset. eexists. split; [done|]. by eexists.
  - intros now subj p Hk. cbn [step]. rewrite (dispatch_pending C st now subj (successSubject en) id en p) by done.
    cbv zeta. by rewrite str_eqb_refl.
  - intros now subj k p Hk Hr' Hnull. cbn [step].
    rewrite (dispatch_pending C st now subj k id en p); [|done| |done|done].
    2:{ apply Hsub. unfold subject_of. naive_solver. }
    destruct (toFspiopException_value p Hnull) as [e He]. exists e. split; [done|]. cbv zeta.
    rewrite str_eqb_neq, He by (destruct Hk; congruence). apply Hset.
Qed.

Lemma no_waiter_lost_witness :
  let st := step (EWait 0 (js "ok:1") (js "err:1") None) initial in
  settled (step (EMessage 5 (js "ok:1") (Some (PValue (js "{}") None))) st) !! 0%nat = Some (Resolved (PValue (js "{}") None)).
Proof.
  intros st. destruct (no_waiter_lost ∅ st 0) as (en & Hen & _ & _ & H & _).
  - apply reach_wait; [apply reach_init | | discriminate | discriminate].
    split; [reflexivity|]. split; [reflexivity|]. discriminate.
  - vm_compute. lia.
  - reflexivity.
  - set_solver.
  - vm_compute in Hen. injection Hen as <-. apply H. by left.
Defined.

(** Sharing subjects loses a waiter: when a second [waitFor] names the subjects of
    a first one that is still pending, the first one's timer removes the second's
    entry and clears its timer, and the second promise is never settled, whatever
    calls, messages and timers follow. *)
Theorem overwritten_waiter_lost :
  forall now s e h t evs,
  settled (run ([EWait now s e h; EWait now s e h; ETimer t 0] ++ evs) initial) !! 1%nat = None.
Proof.
  intros now s e h t evs. unfold run. rewrite fold_left_app. fold (run evs).
  set (st := fold_left _ _ initial). assert (lost 1 st) as Hl; [|apply (run_lost 1 evs st Hl)].
  subst st. cbn [fold_left step]. unfold waitFor. cbn [recent initial takeFromRecent evictExpiredRecent List.filter].
  assert (takeFromRecent now s e h [] = (None, [])) as Ht.
  { unfold takeFromRecent. cbn. by destruct h. }
  rewrite Ht. cbn [set_recent fst next entries pending armed settled recent initial]. rewrite Ht. cbn [fst].
  assert (insert_opt h 1%nat (<[e := 1%nat]> (<[s := 1%nat]> (insert_opt h 0%nat (<[e := 0%nat]> (<[s := 0%nat]> (∅ : gmap jsstr nat)))))) =
    insert_opt h 1%nat (<[e := 1%nat]> (<[s := 1%nat]> (∅ : gmap jsstr nat)))) as Hm.
  { apply map_eq. intros k. destruct h as [h|]; cbn.
    - destruct (decide (h = k)) as [->|]; [by rewrite !lookup_insert_eq|]. rewrite !(lookup_insert_ne _ h) by done.
      destruct (decide (e = k)) as [->|]; [by rewrite !lookup_insert_eq|]. rewrite !(lookup_insert_ne _ e) by done.
      destruct (decide (s = k)) as [->|]; [by rewrite !lookup_insert_eq|]. by rewrite !lookup_insert_ne by done.
    - destruct (decide (e = k)) as [->|]; [by rewrite !lookup_insert_eq|]. rewrite !(lookup_insert_ne _ e) by done.
      destruct (decide (s = k)) as [->|]; [by rewrite !lookup_insert_eq|]. by rewrite !lookup_insert_ne by done. }
  rewrite bool_decide_true by (cbn; set_solver).
  unfold onTimer. cbn [entries set_recent]. rewrite lookup_insert_ne, lookup_insert_eq by done.
  cbn [next pending armed settled recent entries successSubject]. rewrite Hm. apply settle_lost; [done|].
  unfold cancel. cbn [pending entries].
  assert (insert_opt h 1%nat (<[e := 1%nat]> (<[s := 1%nat]> (∅ : gmap jsstr nat))) !! s = Some 1%nat) as Hs.
  { destruct h as [h|]; cbn; destruct (decide (e = s)) as [->|]; try destruct (decide (h = s)) as [->|];
      rewrite ?lookup_insert_eq, ?lookup_insert_ne, ?lookup_insert_eq by done; try done.
    all: by rewrite ?lookup_insert_ne, ?lookup_insert_eq by done. }
  rewrite Hs, lookup_insert_eq. cbn [timer successSubject errorSubject hubErrorSubject].
  split; [cbn; lia|]. split; [done|]. split; [cbn; set_solver|]. cbn. intros k.
  destruct h as [h|]; cbn; rewrite ?lookup_delete_Some, ?lookup_insert_Some, lookup_empty; naive_solver.
Qed.

(** The cache of unclaimed callbacks: it never holds more than 2000 entries nor two
    of one subject, whatever happens; a callback nobody waits for is kept, and a
    [waitFor] on its subject within the minute is answered with it at once, after which
    the cache no longer has it. *)
Theorem recent_cache :
  (forall evs, recent_ok (recent (run evs initial))) /\
  (forall st now now' subj p e h,
   recent_ok (recent st) -> pending st !! subj = None ->
   match Parties.toAnyPayeeSubject subj with Some any => pending st !! any = None | None => True end ->
   now' < now + RECENT_CACHE_TTL_MS -> settled st !! next st = None ->
   let st' := step (EWait now' subj e h) (step (EMessage now subj (Some p)) st) in
   settled st' !! next st = Some (Resolved p) /\ recent_get subj (recent st') = None).
Proof.
  split.
  - intros evs. unfold run. assert (forall st, recent_ok (recent st) -> recent_ok (recent (fold_left (fun st ev => step ev st) evs st))) as H.
    { induction evs as [|ev evs IH]; intros st H; [done|]. cbn. by apply IH, step_recent_ok. }
    apply H. split; [apply NoDup_nil_2 | cbn; lia].
  - intros st now now' subj p e h Hok Hp Hany Htime Hs. cbn [step]. unfold dispatch. rewrite Hp.
    assert (match Parties.toAnyPayeeSubject subj with
            | Some any => (fun id => (id, any)) <$> pending st !! any | None => None end = None) as ->.
    { destruct (Parties.toAnyPayeeSubject subj); [by rewrite Hany | done]. }
    cbn [fst]. set (st1 := addToRecent now subj p st).
    pose proof (addToRecent_ok now subj p st Hok) as [Hnd _]. fold st1 in Hnd.
    set (en := mkRecentEntry subj p (now + RECENT_CACHE_TTL_MS)).
    assert (recent_get subj (recent st1) = Some en) as Hg by apply (find_recent_set en).
    pose proof (find_evict now' en (recent st1) Hnd Hg Htime) as Hg'. cbn [subject en] in Hg'.
    unfold waitFor, takeFromRecent.
    assert (exists l, candidates subj e h = subj :: l) as [l ->] by (destruct h; cbn; eauto).
    cbn [take_candidate]. rewrite Hg', str_eqb_refl. cbn [fst set_recent recent recent_payload en next]. split.
    + unfold settle. cbn [settled addToRecent set_recent st1 next]. rewrite Hs. cbn. by rewrite lookup_insert_eq.
    + rewrite settle_recent. cbn [recent]. subst st1 en. clear. unfold recent_get, recent_delete.
      induction (evictExpiredRecent now' (recent (addToRecent now subj p st))) as [|x r IH]; cbn; [done|].
      destruct (str_eqb (subject x) subj) eqn:E; cbn; [exact IH | by rewrite E].
Qed.

Lemma recent_cache_witness :
  settled (step (EWait 59999 (js "ok:1") (js "err:1") None) (step (EMessage 0 (js "ok:1") (Some PNull)) initial))
    !! 0%nat = Some (Resolved PNull).
Proof.
  refine (proj1 (proj2 recent_cache initial 0 59999 (js "ok:1") PNull (js "err:1") None _ eq_refl I _ eq_refl)).
  - split; [apply NoDup_nil_2 | cbn; lia].
  - reflexivity.
Defined.
