(* ===== verification/Validators.v ===== *)
(** * Amount and request validators

    [AmountDecimalValidator], [PayerProvidedFeesValidator] and
    [HasPayeeFspIdConstraint] of [packages/core/outbound/domain/component], and
    [AmountTypeConstraint] and [FspiopAmountConstraint] of
    [packages/shared/fspiop/component]. *)

From S2P Require Import Prelude Errors Money.

(** ** Values of type [unknown] *)

(** A number is known by its [toString()]. *)
Inductive unknown : Set := UNullish | UString (s : jsstr) | UNumber (text : jsstr) | UOther.

(** The text [normalizeAmount] works on, for a value it accepts. *)
Definition amount_text (v : unknown) : option jsstr :=
  match v with UString s => Some s | UNumber s => Some s | _ => None end.

(** ** AmountDecimalValidator *)

Definition decimalPlaces (amount : jsstr) : Z :=
  match indexOf dot amount with
  | None => 0
  | Some decimalIndex => Z.of_nat (length amount - decimalIndex - 1)
  end.

(** [validate]; the argument is a text, the amount of a [Money], or missing. *)
Definition validateDecimals (allowedDecimalPlaces : Z) (amountValue : option jsstr) : result thrown unit :=
  match amountValue with
  | None => Ok tt
  | Some v =>
      if (length (trim v) =? 0)%nat then Ok tt
      else
        let normalized := normalizeAmount v in
        throw_if (allowedDecimalPlaces <? decimalPlaces normalized)
          (TFspiop (new_FspiopException (definition_of ROUNDING_VALUE_ERROR) ANone))
  end.

(** ** PayerProvidedFeesValidator *)

Definition ERROR_DESCRIPTION : string :=
  "Fee validation failed. Required fee information was not provided by the Payer DFSP.".
Definition REQUIRED_EXTENSION_KEYS : list jsstr := [js "payerProvidedSchemeFee"; js "payerProvidedPayerFee"].

Definition normalizeAndValidateFee (allowedDecimalPlaces : Z) (fieldName : jsstr) (value : option jsstr)
    : result thrown jsstr :=
  match value with
  | None => Err (fspiop_msg MALFORMED_SYNTAX (fieldName ++ js " must be a string or number."))
  | Some value =>
      let normalized := normalizeAmount value in
      let! _ := throw_if (negb (AMOUNT_PATTERN_test normalized))
        (fspiop_msg MALFORMED_SYNTAX (fieldName ++ js " must be a valid FSPIOP amount.")) in
      let! _ := validateDecimals allowedDecimalPlaces (Some normalized) in
      Ok normalized
  end.

(** [extensions.find((item) => item.key === key)], as its index. *)
Fixpoint find_key (key : jsstr) (extensions : ExtensionList) : option nat :=
  match extensions with
  | [] => None
  | x :: extensions => if bool_decide (ext_key x = Some key) then Some 0%nat else S <$> find_key key extensions
  end.

(** The loop over the found extension objects: it assigns their values in place. *)
Fixpoint normalizeFees (allowedDecimalPlaces : Z) (required : list nat) (extensions : ExtensionList)
    : result thrown ExtensionList :=
  match required with
  | [] => Ok extensions
  | i :: required =>
      match extensions !! i with
      | None => Ok extensions
      | Some x =>
          let! value := normalizeAndValidateFee allowedDecimalPlaces (default [] (ext_key x)) (ext_value x) in
          normalizeFees allowedDecimalPlaces required (<[i := mkExtension (ext_key x) (Some value)]> extensions)
      end
  end.

(** [validate], with the list as it leaves it. An extension value is a text or missing;
    a number would be its text. *)
Definition validateFees (mandatory : bool) (allowedDecimalPlaces : Z) (acceptParty : bool)
    (extensionList : option ExtensionList) : result thrown (option ExtensionList) :=
  if negb acceptParty || negb mandatory then Ok extensionList
  else
    let extensions := default [] extensionList in
    let! requiredFees := mapR (fun key => match find_key key extensions with
                                          | None => Err (fspiop MISSING_EXTENSION_PARAMETER ERROR_DESCRIPTION)
                                          | Some i => Ok i
                                          end) REQUIRED_EXTENSION_KEYS in
    let! extensions := normalizeFees allowedDecimalPlaces requiredFees extensions in
    Ok (Some extensions).

(** ** Constraints *)

(** [HasPayeeFspIdConstraint.validate] of the [fspId] member of the value. *)
Definition hasPayeeFspId (required : bool) (fspId : unknown) : bool :=
  if negb required then true
  else match fspId with UString s => (0 <? length (trim s))%nat | _ => false end.

(** [AmountTypeConstraint.validate] *)
Definition isAmountType (strictAmountType : bool) (subScenario : jsstr) (value : unknown) : bool :=
  if negb strictAmountType then true
  else match value with
       | UString v =>
           (str_eqb subScenario (js "PERSON_TO_PERSON") && str_eqb v (js "RECEIVE")) ||
           (str_eqb subScenario (js "PERSON_TO_BUSINESS") && str_eqb v (js "SEND"))
       | _ => false
       end.

(** [FspiopAmountConstraint.validate] *)
Definition isFspiopAmount (value : unknown) : bool :=
  match amount_text value with
  | None => false
  | Some v =>
      let amount := normalizeAmount v in
      (0 <? length amount)%nat && AMOUNT_PATTERN_test amount
  end.

(** [FspiopAmountConstraint.defaultMessage] *)
Definition amountMessage (property : jsstr) (value : unknown) : jsstr :=
  match value with
  | UNullish => property ++ js " is required"
  | UOther => property ++ js " must be a string or number"
  | UString v | UNumber v =>
      if (length (normalizeAmount v) =? 0)%nat then property ++ js " is required"
      else property ++ js " must be a valid FSPIOP Amount"
  end.

(** * Lemmas *)

Lemma find_key_Some key (exts : list Extension) i :
  find_key key exts = Some i <->
  (exists x, exts !! i = Some x /\ ext_key x = Some key) /\ forall j x, (j < i)%nat -> exts !! j = Some x -> ext_key x <> Some key.
Proof.
  revert i. induction exts as [|x exts IH]; intros i; cbn; [split; [done | by intros ((? & ? & ?) & ?)]|].
  case_bool_decide as Hk.
  - split.
    + intros [= <-]. split; [by exists x|]. lia.
    + intros [(y & Hy & Hyk) Hj]. destruct i as [|i]; [done|]. exfalso. by apply (Hj 0%nat x); [lia | ..].
  - split.
    + intros (i' & Hi & ->)%fmap_Some. apply IH in Hi as [(y & Hy & Hyk) Hj]. split; [by exists y|].
      intros [|j] z Hlt Hz; cbn in Hz; [congruence|]. apply (Hj j); [lia | done].
    + intros [(y & Hy & Hyk) Hj]. destruct i as [|i]; [cbn in Hy; congruence|].
      rewrite (proj2 (IH i)); [done|]. split; [by exists y|]. intros j z Hlt Hz. apply (Hj (S j)); [lia | done].
Qed.

Lemma find_key_None key (exts : list Extension) : find_key key exts = None <-> Forall (fun x => ext_key x <> Some key) exts.
Proof.
  induction exts as [|x exts IH]; cbn; [by split|]. rewrite Forall_cons, <- IH.
  case_bool_decide; [naive_solver|]. destruct (find_key key exts); cbn; naive_solver.
Qed.

(** What [normalizeAndValidateFee] accepts. *)
Definition fee_ok (allowedDecimalPlaces : Z) (v : jsstr) : Prop :=
  AMOUNT_PATTERN_test (normalizeAmount v) = true /\ decimalPlaces (normalizeAmount v) <= allowedDecimalPlaces.

Lemma pattern_nonblank s : AMOUNT_PATTERN_test s = true -> trim s <> [].
Proof.
  unfold AMOUNT_PATTERN_test. intros H E. destruct s as [|c s]; [done|].
  assert (is_digit c = true -> False) as Hd.
  { intros Hc. pose proof (digit_not_ws c Hc) as Hw. revert E. unfold trim, trimEnd. cbn [trimStart]. rewrite Hw.
    intros E. apply (f_equal reverse) in E. rewrite reverse_involutive in E. cbn in E.
    assert (forall t, trimStart (t ++ [c]) <> []) as Ht.
    { induction t as [|d t IH]; cbn; [by rewrite Hw|]. destruct (is_ws d); [done|]. done. }
    apply (Ht (reverse s)). by rewrite <- reverse_cons. }
  cbn [span_digits] in H. destruct (is_digit c); [by apply Hd|]. by cbn in H.
Qed.

Lemma normalizeAndValidateFee_spec places name v :
  normalizeAndValidateFee places name (Some v) =
  if negb (AMOUNT_PATTERN_test (normalizeAmount v))
  then Err (fspiop_msg MALFORMED_SYNTAX (name ++ js " must be a valid FSPIOP amount."))
  else if places <? decimalPlaces (normalizeAmount v)
  then Err (TFspiop (new_FspiopException (definition_of ROUNDING_VALUE_ERROR) ANone))
  else Ok (normalizeAmount v).
Proof.
  unfold normalizeAndValidateFee. destruct (AMOUNT_PATTERN_test (normalizeAmount v)) eqn:Hp; [|done].
  cbn [negb throw_if]. unfold validateDecimals. apply pattern_nonblank in Hp.
  rewrite (proj2 (Nat.eqb_neq _ 0)) by (by intros ?%nil_length_inv). rewrite normalizeAmount_idemp.
  by destruct (places <? _).
Qed.

(** The right-hand side of [validateFees_spec] where the code throws. *)
Ltac refute :=
  split; [done|];
  intros (? & ? & ? & ? & ? & ? & ? & ? & ? & ? & ? & ? & [? ?] & [? ?] & ?); simplify_eq; congruence.

(** * Properties *)

(** With fees mandatory, an accepted party passes exactly when both required
    extensions are there and the first of each holds an FSPIOP amount within the
    allowed decimals; the list it leaves has those two values normalised and every
    other extension as it was. Where fees are not mandatory, or the party is not
    accepted, the list passes untouched. *)
Theorem validateFees_spec :
  forall mandatory places acceptParty exts,
  (mandatory && acceptParty = false -> validateFees mandatory places acceptParty exts = Ok exts) /\
  (mandatory && acceptParty = true -> forall out,
     validateFees mandatory places acceptParty exts = Ok out <->
     exists i j x y v w,
     find_key (js "payerProvidedSchemeFee") (default [] exts) = Some i /\
     find_key (js "payerProvidedPayerFee") (default [] exts) = Some j /\
     default [] exts !! i = Some x /\ default [] exts !! j = Some y /\
     ext_value x = Some v /\ ext_value y = Some w /\ fee_ok places v /\ fee_ok places w /\
     out = Some (<[j := mkExtension (ext_key y) (Some (normalizeAmount w))]>
                  (<[i := mkExtension (ext_key x) (Some (normalizeAmount v))]> (default [] exts)))).
Proof.
  intros mandatory places acceptParty exts. split.
  { intros H. unfold validateFees. by destruct mandatory, acceptParty. }
  intros H out. destruct mandatory, acceptParty; try done. clear H. unfold validateFees. cbn [negb orb].
  set (l := default [] exts). clearbody l. clear exts. cbn [mapR REQUIRED_EXTENSION_KEYS].
  destruct (find_key (js "payerProvidedSchemeFee") l) as [i|] eqn:Hi; [|by split; [|naive_solver]].
  destruct (find_key (js "payerProvidedPayerFee") l) as [j|] eqn:Hj; [|by split; [|naive_solver]].
  pose proof Hi as Hi'. apply find_key_Some in Hi' as [(x & Hx & Hxk) _].
  pose proof Hj as Hj'. apply find_key_Some in Hj' as [(y & Hy & Hyk) _].
  assert (i <> j) as Hne by (intros ->; rewrite Hx in Hy; injection Hy as ->; rewrite Hxk in Hyk; discriminate).
  cbn [normalizeFees]. rewrite Hx. unfold fee_ok.
  destruct (ext_value x) as [v|] eqn:Hv; [|refute].
  rewrite normalizeAndValidateFee_spec.
  destruct (AMOUNT_PATTERN_test (normalizeAmount v)) eqn:Hpv; cbn [negb]; [|refute].
  destruct (Z.ltb_spec places (decimalPlaces (normalizeAmount v))).
  { split; [done|]. intros (? & ? & ? & ? & ? & ? & [= <-] & [= <-] & ? & ? & ? & ? & [? ?] & _). simplify_eq. lia. }
  rewrite list_lookup_insert_ne by done. rewrite Hy.
  destruct (ext_value y) as [w|] eqn:Hw; [|refute].
  rewrite normalizeAndValidateFee_spec.
  destruct (AMOUNT_PATTERN_test (normalizeAmount w)) eqn:Hpw; cbn [negb]; [|refute].
  destruct (Z.ltb_spec places (decimalPlaces (normalizeAmount w))).
  { split; [done|]. intros (? & ? & ? & ? & ? & ? & [= <-] & [= <-] & ? & ? & ? & ? & _ & [? ?] & _). simplify_eq. lia. }
  split.
  - intros [= <-]. exists i, j, x, y, v, w. done.
  - intros (? & ? & ? & ? & ? & ? & [= <-] & [= <-] & ? & ? & ? & ? & _ & _ & ->). by simplify_eq.
Qed.

Lemma validateFees_spec_witness :
  validateFees true 2 true
    (Some [mkExtension (Some (js "payerProvidedPayerFee")) (Some (js " 1.50"));
           mkExtension (Some (js "note")) (Some (js "x"));
           mkExtension (Some (js "payerProvidedSchemeFee")) (Some (js "2.00"))]) =
  Ok (Some [mkExtension (Some (js "payerProvidedPayerFee")) (Some (js "1.5"));
            mkExtension (Some (js "note")) (Some (js "x"));
            mkExtension (Some (js "payerProvidedSchemeFee")) (Some (js "2"))]).
Proof.
  apply (proj2 (validateFees_spec true 2 true
    (Some [mkExtension (Some (js "payerProvidedPayerFee")) (Some (js " 1.50"));
           mkExtension (Some (js "note")) (Some (js "x"));
           mkExtension (Some (js "payerProvidedSchemeFee")) (Some (js "2.00"))])) eq_refl).
  exists 2%nat, 0%nat. do 2 eexists. exists (js "2.00"), (js " 1.50").
  repeat (split; [vm_compute; first [reflexivity | (split; [reflexivity | discriminate])]|]). vm_compute. reflexivity.
Defined.
