(* ===== verification/Transfer.v ===== *)
(** * Data of a transfer in flight

    The DTOs the outbound commands exchange (packages/shared/fspiop/dto and
    packages/core/outbound/domain/dto), the cached [TransferRequest]
    (domain/cache/transfer-request.ts), [SendMoneyResponseMapper]
    (domain/command/send-money-response.mapper.ts), and the functions by which the
    command handlers build requests and responses. Enumerations are their string
    values; an optional member is an option. *)

From S2P Require Import Prelude Errors Currencies Money.

(** ** DTOs *)

Record PartyComplexName : Set := mkPartyComplexName {
  pcn_firstName : option jsstr; pcn_middleName : option jsstr; pcn_lastName : option jsstr }.

Record PartyPersonalInfo : Set := mkPartyPersonalInfo {
  complexName : option PartyComplexName; ppi_dateOfBirth : option jsstr }.

Record PartyIdInfo : Set := mkPartyIdInfo {
  partyIdType : jsstr; partyIdentifier : jsstr; partySubIdOrType : option jsstr;
  pii_fspId : option jsstr; pii_extensionList : option ExtensionList }.

Record Party : Set := mkParty {
  partyIdInfo : PartyIdInfo; party_merchantClassificationCode : option jsstr; party_name : option jsstr;
  personalInfo : option PartyPersonalInfo; party_supportedCurrencies : option (list jsstr) }.

Record FspParty : Set := mkFspParty {
  fp_type : option jsstr; idType : jsstr; idValue : jsstr; idSubValue : option jsstr; displayName : option jsstr;
  firstName : option jsstr; middleName : option jsstr; lastName : option jsstr; dateOfBirth : option jsstr;
  merchantClassificationCode : option jsstr; fspId : option jsstr; fp_extensionList : option (list Extension) }.

(** [QuotesIDPutResponse], less its geographic code, which nothing here reads. *)
Record QuotesIDPutResponse : Set := mkQuotesIDPutResponse {
  q_transferAmount : option Money; payeeReceiveAmount : option Money; payeeFspFee : option Money;
  payeeFspCommission : option Money; q_expiration : jsstr; q_ilpPacket : jsstr; q_condition : jsstr;
  q_extensionList : option ExtensionList }.

Inductive TransferState : Set := Received | Reserved | Committed | Aborted.

Record TransfersIDPutResponse : Set := mkTransfersIDPutResponse {
  fulfilment : option jsstr; completedTimestamp : option jsstr; transferState : TransferState;
  t_extensionList : option ExtensionList }.

Record SendMoneyRequest : Set := mkSendMoneyRequest {
  r_homeTransactionId : jsstr; r_from : FspParty; r_to : FspParty; r_amountType : jsstr; r_currency : jsstr;
  r_amount : jsstr; r_transactionType : jsstr; r_subScenario : jsstr; r_note : option jsstr }.

Record TransferRequest : Set := mkTransferRequest {
  payer : Party; payee : Party; quotes : option QuotesIDPutResponse; transfer : option TransfersIDPutResponse;
  transferId : jsstr; homeTransactionId : jsstr; initiatedTimestamp : jsstr; from : FspParty; to : FspParty;
  amountType : jsstr; currency : jsstr; amount : jsstr; transactionType : jsstr; subScenario : jsstr;
  note : option jsstr; supportedCurrencies : option (list jsstr) }.

(** Assignments to members of the cached object. *)
Definition with_amount (a : jsstr) (t : TransferRequest) : TransferRequest :=
  mkTransferRequest (payer t) (payee t) (quotes t) (transfer t) (transferId t) (homeTransactionId t)
    (initiatedTimestamp t) (from t) (to t) (amountType t) (currency t) a (transactionType t) (subScenario t)
    (note t) (supportedCurrencies t).
Definition with_quotes (q : option QuotesIDPutResponse) (t : TransferRequest) : TransferRequest :=
  mkTransferRequest (payer t) (payee t) q (transfer t) (transferId t) (homeTransactionId t)
    (initiatedTimestamp t) (from t) (to t) (amountType t) (currency t) (amount t) (transactionType t)
    (subScenario t) (note t) (supportedCurrencies t).
Definition with_transfer (x : option TransfersIDPutResponse) (t : TransferRequest) : TransferRequest :=
  mkTransferRequest (payer t) (payee t) (quotes t) x (transferId t) (homeTransactionId t)
    (initiatedTimestamp t) (from t) (to t) (amountType t) (currency t) (amount t) (transactionType t)
    (subScenario t) (note t) (supportedCurrencies t).
Definition with_homeTransactionId (h : jsstr) (t : TransferRequest) : TransferRequest :=
  mkTransferRequest (payer t) (payee t) (quotes t) (transfer t) (transferId t) h
    (initiatedTimestamp t) (from t) (to t) (amountType t) (currency t) (amount t) (transactionType t)
    (subScenario t) (note t) (supportedCurrencies t).

Record TransactionType : Set := mkTransactionType {
  scenario : jsstr; tt_subScenario : option jsstr; initiator : jsstr; initiatorType : jsstr }.

Record QuotesPostRequest : Set := mkQuotesPostRequest {
  quoteId : jsstr; transactionId : jsstr; transactionRequestId : jsstr; qp_payee : Party; qp_payer : Party;
  qp_amountType : jsstr; qp_amount : Money; qp_transactionType : TransactionType; qp_note : option jsstr;
  qp_extensionList : option ExtensionList }.

Record TransfersPostRequest : Set := mkTransfersPostRequest {
  tp_transferId : jsstr; payerFsp : jsstr; payeeFsp : jsstr; tp_amount : option Money; ilpPacket : jsstr;
  condition : jsstr; expiration : jsstr; tp_extensionList : option ExtensionList }.

Inductive StateEnum : Set :=
  | WaitingForPartyAcceptance | WaitingForQuoteAcceptance | Pending | SCompleted | SAborted.

Record SendMoneyResponse : Set := mkSendMoneyResponse {
  s_transferId : jsstr; s_homeTransactionId : jsstr; s_from : FspParty; s_to : FspParty; s_amountType : jsstr;
  s_transactionType : jsstr; s_subScenario : jsstr; s_note : option jsstr; s_amount : jsstr;
  s_payeeReceiveAmount : option jsstr; s_transferAmount : option jsstr; payeeFee : jsstr; payerFee : jsstr;
  schemeFee : jsstr; s_currency : jsstr; currentState : StateEnum; s_initiatedTimestamp : jsstr;
  direction : jsstr; s_supportedCurrencies : option (list jsstr); s_extensionList : option (list Extension) }.

(** ** Helpers the handlers repeat *)

(** [toOptionalValue], and [toSubId], which is the same function. *)
Definition toOptionalValue (value : option jsstr) : option jsstr :=
  match value with
  | Some v => if (length (trim v) =? 0)%nat then None else Some (trim v)
  | None => None
  end.

(** The handlers' [toFspiopException]. *)
Definition handlerException (error : thrown) : FspiopException :=
  match error with
  | TAxios _ info =>
      let code := default [] (info ≫= errorCode) in
      let desc := match info ≫= errorDescription with
                  | Some d => if (length (trim d) =? 0)%nat then js "Communication error" else d
                  | None => js "Communication error"
                  end in
      let errorDef := default (definition_of COMMUNICATION_ERROR) (find code) in
      new_FspiopException errorDef (AMessage desc (info ≫= ei_extensionList))
  | _ => toFspiopException error None
  end.

(** [getFspId]; [purpose] is what the handler resolves. *)
Definition getFspId (purpose : string) (party : Party) (label : string) : result thrown jsstr :=
  match toOptionalValue (pii_fspId (partyIdInfo party)) with
  | Some fspId => Ok fspId
  | None => Err (fspiop_msg MISSING_MANDATORY_ELEMENT
                   (js label ++ js ".partyIdInfo.fspId is required to resolve " ++ js purpose ++ js " routing."))
  end.

Definition assertSourceCanActForPayer (requestSource : option jsstr) (payerFsp : jsstr) : result thrown unit :=
  match toOptionalValue requestSource with
  | None => Ok tt
  | Some normalizedSource =>
      throw_if (negb (str_eqb normalizedSource payerFsp))
        (fspiop_msg PAYER_PERMISSION_ERROR
           (js "fspiop-source '" ++ normalizedSource ++ js "' is not authorized to act for payer FSP '" ++
            payerFsp ++ js "'."))
  end.

(** ** SendMoneyResponseMapper *)

Definition DIRECTION : jsstr := js "OUTGOING".
Definition FEE_EXTENSION_KEYS : list jsstr := [js "payeefee"; js "payerfee"; js "schemefee"].

(** [ext.key?.trim().toLowerCase()] *)
Definition ext_norm_key (x : Extension) : option jsstr := (fun k => toLowerCase (trim k)) <$> ext_key x.

Definition indexExtensions (extensionList : option (list Extension)) : gmap jsstr jsstr :=
  fold_left (fun map ext =>
    match ext_norm_key ext, trim <$> ext_value ext with
    | Some key, Some value =>
        if bool_decide (key = []) || bool_decide (value = []) then map else <[key := value]> map
    | _, _ => map
    end) (default [] extensionList) ∅.

Definition removeFeeExtensions (extensionList : option (list Extension)) : option (list Extension) :=
  List.filter (fun ext =>
    match ext_norm_key ext with
    | None => true
    | Some key => bool_decide (key = []) || negb (existsb (str_eqb key) FEE_EXTENSION_KEYS)
    end) <$> extensionList.

(** [toResponse]; the parameter [payeeFspFeeAmount] of the source is not used by it. *)
Definition mapper_toResponse (t : TransferRequest) (currentState : StateEnum)
    (payeeFspFeeAmount : option jsstr) (extensionList : option (list Extension)) : SendMoneyResponse :=
  let feeByKey := indexExtensions extensionList in
  mkSendMoneyResponse (transferId t) (homeTransactionId t) (from t) (to t) (amountType t) (transactionType t)
    (subScenario t) (note t) (amount t)
    (quotes t ≫= fun q => money_amount <$> payeeReceiveAmount q)
    (quotes t ≫= fun q => money_amount <$> q_transferAmount q)
    (default (js "0") (feeByKey !! js "payeefee")) (default (js "0") (feeByKey !! js "payerfee"))
    (default (js "0") (feeByKey !! js "schemefee")) (currency t) currentState (initiatedTimestamp t) DIRECTION
    (supportedCurrencies t) (removeFeeExtensions extensionList).

Definition toWaitingForPartyAcceptance (t : TransferRequest) : SendMoneyResponse :=
  mapper_toResponse t WaitingForPartyAcceptance None None.

Definition toWaitingForQuoteAcceptance (t : TransferRequest) (payeeFspFeeAmount : option jsstr)
    (extensionList : option ExtensionList) : SendMoneyResponse :=
  mapper_toResponse t WaitingForQuoteAcceptance payeeFspFeeAmount extensionList.

Definition toFinalState (t : TransferRequest) (transferState : TransferState)
    (extensionList : option ExtensionList) : SendMoneyResponse :=
  let payeeFspFeeAmount := quotes t ≫= fun q => money_amount <$> payeeFspFee q in
  let currentState := match transferState with Aborted => SAborted | _ => SCompleted end in
  mapper_toResponse t currentState payeeFspFeeAmount extensionList.

(** ** PostSendMoneyHandler *)

Definition toFspParty (callbackParty : Party) : FspParty :=
  let info := partyIdInfo callbackParty in
  let name := personalInfo callbackParty ≫= complexName in
  mkFspParty None (partyIdType info) (partyIdentifier info) (toOptionalValue (partySubIdOrType info))
    (party_name callbackParty) (name ≫= pcn_firstName) (name ≫= pcn_middleName) (name ≫= pcn_lastName)
    (personalInfo callbackParty ≫= ppi_dateOfBirth) (party_merchantClassificationCode callbackParty)
    (toOptionalValue (pii_fspId info)) (pii_extensionList info).

Definition toPartyComplexName (p : FspParty) : option PartyComplexName :=
  match firstName p, middleName p, lastName p with
  | None, None, None => None
  | f, m, l => Some (mkPartyComplexName f m l)
  end.

Definition toPartyPersonalInfo (p : FspParty) : option PartyPersonalInfo :=
  match toPartyComplexName p, dateOfBirth p with
  | None, None => None
  | n, d => Some (mkPartyPersonalInfo n d)
  end.

(** [PostSendMoneyHandler.toExtensionList] *)
Definition nonempty_extensions (l : option (list Extension)) : option ExtensionList :=
  match l with Some [] | None => None | Some l => Some l end.

Definition toPartyIdInfo (p : FspParty) : PartyIdInfo :=
  mkPartyIdInfo (idType p) (idValue p) (toOptionalValue (idSubValue p)) (fspId p)
    (nonempty_extensions (fp_extensionList p)).

Definition toParty (p : FspParty) : Party :=
  mkParty (toPartyIdInfo p) (merchantClassificationCode p) (displayName p) (toPartyPersonalInfo p) None.

Definition toTransferRequest (request : SendMoneyRequest) (callbackParty : Party) (id initiated : jsstr)
    : TransferRequest :=
  mkTransferRequest (toParty (r_from request)) callbackParty None None id (r_homeTransactionId request) initiated
    (r_from request) (toFspParty callbackParty) (r_amountType request) (r_currency request) (r_amount request)
    (r_transactionType request) (r_subScenario request)
    (match r_note request with
     | Some n => if (length (trim n) =? 0)%nat then None else Some n
     | None => None
     end) (party_supportedCurrencies callbackParty).

(** [resolveDestination]: the destination, and the callback's party with the [fspId] it
    assigns. *)
Definition resolveDestination (callbackParty : Party) (requestedDestination : option jsstr)
    : result thrown (jsstr * Party) :=
  let info := partyIdInfo callbackParty in
  match (match toOptionalValue (pii_fspId info) with Some d => Some d | None => requestedDestination end) with
  | None => Err (fspiop MISSING_MANDATORY_ELEMENT "Party lookup response must include the resolved payee fspId.")
  | Some d =>
      Ok (d, mkParty (mkPartyIdInfo (partyIdType info) (partyIdentifier info) (partySubIdOrType info) (Some d)
                        (pii_extensionList info))
               (party_merchantClassificationCode callbackParty) (party_name callbackParty)
               (personalInfo callbackParty) (party_supportedCurrencies callbackParty))
  end.

(** ** PutAcceptPartyHandler *)

Definition toTransactionType (t : TransferRequest) : TransactionType :=
  mkTransactionType (transactionType t) (toOptionalValue (Some (subScenario t))) (js "PAYER")
    (default (js "CONSUMER") (fp_type (from t))).

Definition toQuotesPostRequest (id : jsstr) (t : TransferRequest) (extensionList : option ExtensionList)
    : QuotesPostRequest :=
  mkQuotesPostRequest id id id (payee t) (payer t) (amountType t) (mkMoney (currency t) (amount t))
    (toTransactionType t) (note t) extensionList.

(** [findExtensionValue]: of the first extension with the key, its trimmed value. *)
Fixpoint findExtensionValue (extensionList : list Extension) (normalizedTargetKey : jsstr) : option jsstr :=
  match extensionList with
  | [] => None
  | x :: l =>
      if str_eqb (default [] (ext_norm_key x)) normalizedTargetKey
      then trim <$> ext_value x
      else findExtensionValue l normalizedTargetKey
  end.

Definition toSchemeFee (callback : QuotesIDPutResponse) (fallbackCurrency : jsstr) : result thrown Money :=
  let transferAmountCurrency := default fallbackCurrency (money_currency <$> q_transferAmount callback) in
  match scale_of_currency transferAmountCurrency with
  | None => Err (fspiop_msg PAYEE_UNSUPPORTED_CURRENCY (js "Unsupported currency " ++ transferAmountCurrency))
  | Some transferAmountScale =>
      let extensionList := default [] (q_extensionList callback) in
      let schemeFeeAmount := default (js "0") (findExtensionValue extensionList (js "scheme_fee_amount")) in
      let feeCurrency := findExtensionValue extensionList (js "scheme_fee_currency") in
      let feeCurrencyScale := feeCurrency ≫= scale_of_currency in
      let '(currency, scale) := match feeCurrency, feeCurrencyScale with
                                | Some c, Some s => (c, s)
                                | _, _ => (transferAmountCurrency, transferAmountScale)
                                end in
      let! serialized := serialize schemeFeeAmount scale HalfUp in
      let! text := deserialize serialized scale in
      Ok (mkMoney currency text)
  end.

Definition toPayeeFspFeeAmount (callback : QuotesIDPutResponse) (fallbackCurrency : jsstr) : result thrown jsstr :=
  match toOptionalValue (money_amount <$> payeeFspFee callback) with
  | Some a => Ok a
  | None => let! m := toSchemeFee callback fallbackCurrency in Ok (money_amount m)
  end.

(** [PutAcceptPartyHandler.toResponse] *)
Definition quoteResponse (t : TransferRequest) (callback : QuotesIDPutResponse) : result thrown SendMoneyResponse :=
  let! payeeFspFeeAmount := toPayeeFspFeeAmount callback (currency t) in
  Ok (toWaitingForQuoteAcceptance t (Some payeeFspFeeAmount) (q_extensionList callback)).

(** ** PutAcceptQuoteHandler *)

Definition HOME_TRANSACTION_ID_EXTENSION_KEY : jsstr := js "homeTransactionId".

(** [PutAcceptQuoteHandler.toExtensionList] *)
Definition transferExtensions (q : QuotesIDPutResponse) (home : option jsstr) : option ExtensionList :=
  let extension := List.filter (fun item =>
    negb (bool_decide (ext_norm_key item = Some (toLowerCase HOME_TRANSACTION_ID_EXTENSION_KEY))))
    (default [] (q_extensionList q)) in
  let extension := match home with
                   | Some h => if (0 <? length h)%nat
                               then extension ++ [mkExtension (Some HOME_TRANSACTION_ID_EXTENSION_KEY) (Some h)]
                               else extension
                   | None => extension
                   end in
  if (0 <? length extension)%nat then Some extension else None.

Definition toTransfersPostRequest (id : jsstr) (t : TransferRequest) : result thrown TransfersPostRequest :=
  match quotes t with
  | None => Err (fspiop_msg QUOTE_ID_NOT_FOUND (js "Quote was not found for transfer " ++ id ++ js "."))
  | Some q =>
      let! payerFsp := getFspId "transfer" (payer t) "payer" in
      let! payeeFsp := getFspId "transfer" (payee t) "payee" in
      Ok (mkTransfersPostRequest id payerFsp payeeFsp (q_transferAmount q) (q_ilpPacket q) (q_condition q)
            (q_expiration q) (transferExtensions q (Some (homeTransactionId t))))
  end.

(** ** Reference definitions *)

(** The values an extension list gives a key: trimmed, blank ones and those under a
    blank key left out. *)
Definition values_of (key : jsstr) (l : list Extension) : list jsstr :=
  omap (fun x => if bool_decide (ext_norm_key x = Some key) then
                   match trim <$> ext_value x with
                   | Some v => if bool_decide (v = []) then None else Some v
                   | None => None
                   end
                 else None) l.

Definition is_fee (x : Extension) : bool :=
  match ext_norm_key x with Some k => existsb (str_eqb k) FEE_EXTENSION_KEYS | None => false end.

Definition is_home (x : Extension) : bool :=
  bool_decide (ext_norm_key x = Some (toLowerCase HOME_TRANSACTION_ID_EXTENSION_KEY)).

(** * Lemmas *)

Lemma indexExtensions_snoc l x :
  indexExtensions (Some (l ++ [x])) =
  match ext_norm_key x, trim <$> ext_value x with
  | Some key, Some value =>
      if bool_decide (key = []) || bool_decide (value = []) then indexExtensions (Some l)
      else <[key := value]> (indexExtensions (Some l))
  | _, _ => indexExtensions (Some l)
  end.
Proof. unfold indexExtensions. cbn [from_option Datatypes.id]. by rewrite fold_left_app. Qed.

Lemma values_of_snoc key l x :
  values_of key (l ++ [x]) = values_of key l ++ values_of key [x].
Proof. apply omap_app. Qed.

Lemma indexExtensions_lookup key l :
  key <> [] -> indexExtensions (Some l) !! key = last (values_of key l).
Proof.
  intros Hk. induction l as [|x l IH] using rev_ind; [done|].
  rewrite indexExtensions_snoc, values_of_snoc. unfold values_of at 2. cbn [omap list_omap].
  destruct (ext_norm_key x) as [k|]; [|by rewrite bool_decide_false, app_nil_r].
  destruct (trim <$> ext_value x) as [v|]; cbn [fmap]; [|by destruct (bool_decide _); rewrite app_nil_r].
  destruct (decide (k = key)) as [->|Hne].
  - rewrite (bool_decide_false (key = [])), (bool_decide_true (Some key = Some key)) by done. cbn [orb].
    case_bool_decide; [by rewrite app_nil_r|]. by rewrite last_snoc, lookup_insert_eq.
  - rewrite (bool_decide_false (Some k = Some key)) by congruence. rewrite app_nil_r.
    destruct (bool_decide (k = []) || bool_decide (v = [])); [done|]. by rewrite lookup_insert_ne.
Qed.

Lemma removeFeeExtensions_filter l :
  removeFeeExtensions (Some l) = Some (List.filter (fun x => negb (is_fee x)) l).
Proof.
  unfold removeFeeExtensions. cbn. f_equal. apply filter_ext. intros x. unfold is_fee.
  destruct (ext_norm_key x) as [k|]; [|done]. case_bool_decide as Hk; [|done]. subst k. reflexivity.
Qed.

Lemma filter_true {A} (f : A -> bool) l : Forall (fun x => f x = true) l -> List.filter f l = l.
Proof. induction 1 as [|x l Hx _ IH]; [done|]. cbn. by rewrite Hx, IH. Qed.

(** * Properties *)

(** The response of a quote or of a final state shows the fees the extension list
    gave: each of the three is the last non-blank value under its key, compared
    without case or surrounding space, or ["0"]; and the list shown is the given one
    without the fee extensions, in the same order. *)
Theorem mapper_fees :
  forall t state fee l,
  let r := mapper_toResponse t state fee (Some l) in
  payeeFee r = default (js "0") (last (values_of (js "payeefee") l)) /\
  payerFee r = default (js "0") (last (values_of (js "payerfee") l)) /\
  schemeFee r = default (js "0") (last (values_of (js "schemefee") l)) /\
  s_extensionList r = Some (List.filter (fun x => negb (is_fee x)) l).
Proof.
  intros t state fee l. cbn [mapper_toResponse payeeFee payerFee schemeFee s_extensionList].
  rewrite !indexExtensions_lookup by done. by rewrite removeFeeExtensions_filter.
Qed.

(** The transfer request carries the home transaction id exactly once: its
    extensions are those of the quote without any home transaction id, in order, then
    the given id; nothing is sent as the list where that is empty. *)
Theorem transferExtensions_home :
  forall q home,
  let kept := List.filter (fun x => negb (is_home x)) (default [] (q_extensionList q)) in
  (home = [] -> transferExtensions q (Some home) = if (length kept =? 0)%nat then None else Some kept) /\
  (home <> [] -> exists l, transferExtensions q (Some home) = Some l /\
     l = kept ++ [mkExtension (Some HOME_TRANSACTION_ID_EXTENSION_KEY) (Some home)] /\
     List.filter is_home l = [mkExtension (Some HOME_TRANSACTION_ID_EXTENSION_KEY) (Some home)]).
Proof.
  intros q home kept. unfold transferExtensions. 
  change (List.filter (fun item => negb (bool_decide (ext_norm_key item =
    Some (toLowerCase HOME_TRANSACTION_ID_EXTENSION_KEY)))) (default [] (q_extensionList q))) with kept. split.
  - intros ->. cbn [length Nat.ltb Nat.leb]. by destruct kept.
  - intros Hne. rewrite (proj2 (Nat.ltb_lt 0 (length home))) by (destruct home; [done | cbn; lia]).
    rewrite length_app, (proj2 (Nat.ltb_lt 0 _)) by (cbn [length]; lia).
    eexists. split; [done|]. split; [done|]. rewrite List.filter_app.
    assert (List.filter is_home kept = []) as ->.
    { unfold kept. generalize (default [] (q_extensionList q)) as l.
      induction l as [|x l IH]; cbn; [done|]. destruct (is_home x) eqn:E; cbn; [done|]. by rewrite E. }
    reflexivity.
Qed.

Lemma transferExtensions_home_witness :
  transferExtensions (mkQuotesIDPutResponse None None None None [] [] []
    (Some [mkExtension (Some (js " HomeTransactionId")) (Some (js "old")); mkExtension (Some (js "k")) (Some (js "v"))]))
    (Some (js "new")) =
  Some [mkExtension (Some (js "k")) (Some (js "v")); mkExtension (Some (js "homeTransactionId")) (Some (js "new"))].
Proof.
  destruct (proj2 (transferExtensions_home (mkQuotesIDPutResponse None None None None [] [] []
    (Some [mkExtension (Some (js " HomeTransactionId")) (Some (js "old")); mkExtension (Some (js "k")) (Some (js "v"))]))
    (js "new")) ltac:(discriminate)) as (l & Hl & He & _).
  etransitivity; [exact Hl|]. rewrite He. vm_compute. reflexivity.
Defined.
