(* ===== verification/SendMoney.v ===== *)
(** * The outbound commands

    [PostSendMoneyHandler], [PutAcceptPartyHandler] and [PutAcceptQuoteHandler] of
    [packages/core/outbound/domain/command]. A handler is a computation over the Redis
    server and a trace of its effects. Everything outside the process is in an
    environment: for each call site, what other clients and the clock did to Redis
    since the previous one, whether the call fails, and what the hub answers. Logging
    is not modelled. *)

From S2P Require Import Prelude Errors Money Redis Suspicious Subjects Validators Transfer.

(** ** Effects *)

(** The asynchronous calls of the handlers. *)
Inductive site : Set :=
  | SAcquire | SGet | SStore | SStoreHome | SDelete | SDeleteError | SIncrement | SRelease
  | SAuditRequest | SAuditResponse | SAuditError.

(** [TransactionMessage.InvocationAction] *)
Inductive InvocationAction : Set := ARequest | AResponse | AError | AResolved.
Inductive InvocationPhase : Set := PParties | PQuotes | PTransfers | PPatch.

(** The content of an audit message: who, and the body of its action. *)
Record Content (Q C : Type) : Type := mkContent {
  correlationId : jsstr; c_payerFsp : jsstr; c_payeeFsp : jsstr;
  c_request : option Q; c_response : option C; c_error : option ErrorInformation }.
Arguments mkContent {Q C}. Arguments correlationId {Q C}. Arguments c_payerFsp {Q C}.
Arguments c_payeeFsp {Q C}. Arguments c_request {Q C}. Arguments c_response {Q C}. Arguments c_error {Q C}.

(** What a handler attempts, in order; [Q] is the request it sends, [C] the callback. *)
Inductive effect (Q C : Type) : Type :=
  | EAudit (phase : InvocationPhase) (action : InvocationAction) (content : Content Q C)
  | EWaitFor (success error : jsstr) (hubError : option jsstr)
  | ECancelWait (success : jsstr)
  | EHub (request : Q)
  | EStore (key : jsstr) (value : TransferRequest)
  | EDelete (key : jsstr).
Arguments EAudit {Q C}. Arguments EWaitFor {Q C}. Arguments ECancelWait {Q C}.
Arguments EHub {Q C}. Arguments EStore {Q C}. Arguments EDelete {Q C}.

(** [FspiopResponseSubscriber.DEFAULT_TIMEOUT_MS + 10_000] *)
Definition IN_FLIGHT_LOCK_TTL_MS : Z := 30000 + 10000.

(** The injected settings. *)
Record Settings : Set := mkSettings {
  allowedDecimalPlaces : Z; feesMandatory : bool; monitor : Monitor; defaultTtlMs : Z; switchId : jsstr }.

Record Env (S C : Type) : Type := mkEnv {
  meanwhile : site -> S -> S;              (* other clients and time, before the call *)
  redisFault : site -> fault;              (* a Redis call that fails *)
  auditFault : site -> option thrown;      (* an audit message that cannot be published *)
  waitFault : option thrown;               (* [waitFor] throwing *)
  hubAnswer : result thrown unit;          (* the HTTP call to the hub *)
  callback : result thrown C;              (* what the waiter settles with *)
  uuid : jsstr }.                          (* the [randomUUID()] of the lock *)
Arguments mkEnv {S C}. Arguments meanwhile {S C}. Arguments redisFault {S C}. Arguments auditFault {S C}.
Arguments waitFault {S C}. Arguments hubAnswer {S C}. Arguments callback {S C}. Arguments uuid {S C}.

Record World (S Q C : Type) : Type := mkWorld { redis : S; trace : list (effect Q C) }.
Arguments mkWorld {S Q C}. Arguments redis {S Q C}. Arguments trace {S Q C}.

(** JSON of the cached object. *)
Class Json := { JSON_stringify : TransferRequest -> jsstr; JSON_parse : jsstr -> result thrown TransferRequest }.

Section handlers.
  Context {S Q C : Type} {server : RedisServer S} {json : Json} (env : Env S C) (cfg : Settings).

Definition M (A : Type) : Type := World S Q C -> World S Q C * result thrown A.

Definition ret {A} (a : A) : M A := fun w => (w, Ok a).
Definition raise {A} (e : thrown) : M A := fun w => (w, Err e).
Definition lift {A} (r : result thrown A) : M A := fun w => (w, r).
Definition bind {A B} (m : M A) (k : A -> M B) : M B :=
  fun w => match m w with
           | (w, Ok a) => k a w
           | (w, Err e) => (w, Err e)
           end.
(** [try { m } catch (error) { h(error) }] *)
Definition try_catch {A} (m : M A) (h : thrown -> M A) : M A :=
  fun w => match m w with
           | (w, Ok a) => (w, Ok a)
           | (w, Err e) => h e w
           end.
(** [try { m } finally { f }] where [f] cannot throw. *)
Definition finally {A} (m : M A) (f : World S Q C -> World S Q C) : M A :=
  fun w => let '(w, r) := m w in (f w, r).

Notation "'do!' x ':=' m 'in' k" := (bind m (fun x => k))
  (at level 200, x binder, m at level 100, k at level 200, right associativity).

Definition emit (e : effect Q C) : M unit := fun w => (mkWorld (redis w) (trace w ++ [e]), Ok tt).

(** A call to Redis at a site. *)
Definition at_redis {A} (x : site) (f : S -> S * result thrown A) : M A :=
  fun w => let '(s, r) := f (meanwhile env x (redis w)) in (mkWorld s (trace w), r).

Definition publish (x : site) (phase : InvocationPhase) (action : InvocationAction) (c : Content Q C) : M unit :=
  do! _ := emit (EAudit phase action c) in
  match auditFault env x with Some e => raise e | None => ret tt end.

Definition store (x : site) (key : jsstr) (t : TransferRequest) : M unit :=
  do! _ := emit (EStore key t) in
  at_redis x (Redis.set JSON_stringify (defaultTtlMs cfg) (redisFault env x) key t None).

Definition remove (x : site) (key : jsstr) : M unit :=
  do! _ := emit (EDelete key) in
  at_redis x (delete_ (redisFault env x) key).

Definition waitFor (success error : jsstr) (hubError : option jsstr) : M unit :=
  do! _ := emit (EWaitFor success error hubError) in
  match waitFault env with Some e => raise e | None => ret tt end.

(** The inner [try] around the HTTP call: on failure it cancels the waiter and throws
    what [rethrow] makes of the error. *)
Definition postToHub (request : Q) (success : jsstr) (rethrow : thrown -> thrown) : M unit :=
  do! _ := emit (EHub request) in
  match hubAnswer env with
  | Ok _ => ret tt
  | Err e => do! _ := emit (ECancelWait success) in raise (rethrow e)
  end.

(** The outer [catch]: publish the error and clear the cache, whatever these two do, and
    throw the translated exception. *)
Definition recover {A} (phase : InvocationPhase) (key source destination : jsstr) (request : option Q)
    (error : thrown) : M A :=
  let fspiopException := handlerException error in
  fun w =>
    let '(w, _) := publish SAuditError phase AError
      (mkContent key source destination request None
         (Some (toErrorObject (errorDefinition fspiopException) None))) w in
    let '(w, _) := remove SDeleteError key w in
    raise (TFspiop fspiopException) w.

Definition getTransferRequest (key : jsstr) : M TransferRequest :=
  do! t := at_redis SGet (Redis.get JSON_parse (redisFault env SGet) key) in
  match t with
  | None => raise (fspiop_msg TRANSFER_ID_NOT_FOUND (js "Transfer " ++ key ++ js " was not found."))
  | Some t => ret t
  end.

(** The part of [execute] the two accepting handlers share: run [body] under the lock. *)
Definition locked {A} (key : jsstr) (body : M A) : M A :=
  do! lockToken := at_redis SAcquire (acquireLock (redisFault env SAcquire) (uuid env) key IN_FLIGHT_LOCK_TTL_MS) in
  match lockToken with
  | None => raise (fspiop_msg GENERIC_CLIENT_ERROR
              (js "Transfer " ++ key ++ js " is already being processed; ignoring duplicate request."))
  | Some token =>
      finally body (fun w =>
        mkWorld (releaseLock (redisFault env SRelease) key token (meanwhile env SRelease (redis w))) (trace w))
  end.
End handlers.
Arguments M S Q C A : clear implicits.

Notation "'do!' x ':=' m 'in' k" := (bind m (fun x => k))
  (at level 200, x binder, m at level 100, k at level 200, right associativity) : pivotal_scope.

(** The inner [catch] of the two accepting handlers throws the translated exception. *)
Definition translated (e : thrown) : thrown := TFspiop (handlerException e).

(** ** PostSendMoneyHandler *)

(** What only the first audit message of a lookup has. *)
Record LookupDetails : Set := mkLookupDetails {
  transactionInitiatorType : option jsstr; lookupTransactionType : jsstr; lookupSubScenario : jsstr;
  lookupAmountType : jsstr; payerHomeTransactionId : jsstr; quotingCurrency : jsstr; quotingAmount : jsstr }.

(** The party members of the audit messages; the hub is asked for the payee. *)
Record PartiesLookup : Set := mkPartiesLookup {
  payerIdType : jsstr; payerId : jsstr; payerSubId : option jsstr;
  payeeIdType : jsstr; payeeId : jsstr; payeeSubId : option jsstr;
  details : option LookupDetails }.

Section post_send_money.
  Context {S : Type} {server : RedisServer S} {json : Json} (env : Env S Party) (cfg : Settings).

Definition postSendMoney (correlation source : jsstr) (request : SendMoneyRequest) (createdAt : jsstr)
    : M S PartiesLookup Party (SendMoneyResponse * Party) :=
  let transferId := correlation in
  let destination := toOptionalValue (fspId (r_to request)) in
  let auditDestination := default [] destination in
  let type := idType (r_to request) in
  let id := idValue (r_to request) in
  let subId := toOptionalValue (idSubValue (r_to request)) in
  let payerSubId := toOptionalValue (idSubValue (r_from request)) in
  let parties := mkPartiesLookup (idType (r_from request)) (idValue (r_from request)) payerSubId type id subId in
  let requestDetails := mkLookupDetails (fp_type (r_from request)) (r_transactionType request) (r_subScenario request)
    (r_amountType request) (r_homeTransactionId request) (r_currency request) (r_amount request) in
  do! _ := lift (validateDecimals (allowedDecimalPlaces cfg) (Some (r_amount request))) in
  try_catch
    (do! _ := publish env SAuditRequest PParties ARequest
                (mkContent correlation source auditDestination (Some (parties (Some requestDetails))) None None) in
     let successSubject := Parties.forSuccess source destination type id subId in
     let errorSubject := Parties.forError source destination type id subId in
     let hubErrorSubject := Parties.forError source (Some (switchId cfg)) type id subId in
     do! _ := waitFor env successSubject errorSubject (Some hubErrorSubject) in
     do! _ := postToHub env (parties None) successSubject Datatypes.id in
     do! callback := lift (callback env) in
     do! resolved := lift (resolveDestination callback destination) in
     let '(resolvedDestination, callback) := resolved in
     let cachedTransaction := toTransferRequest request callback transferId createdAt in
     let response := toWaitingForPartyAcceptance cachedTransaction in
     do! _ := store env cfg SStore transferId cachedTransaction in
     do! _ := publish env SAuditResponse PParties AResponse
                (mkContent correlation source resolvedDestination (Some (parties None)) (Some callback) None) in
     ret (response, callback))
    (recover env PParties transferId source auditDestination (Some (parties None))).
End post_send_money.

(** ** PutAcceptPartyHandler *)

Section put_accept_party.
  Context {S : Type} {server : RedisServer S} {json : Json} (env : Env S QuotesIDPutResponse) (cfg : Settings).

(** The checks of [executeLocked] between the cache and the first audit message: the
    transfer with its amount, the two participants and the quote request. *)
Definition prepareQuote (key : jsstr) (acceptParty : bool) (amount : jsstr) (extensionList : option ExtensionList)
    (requestSource : option jsstr) (t : TransferRequest)
    : result thrown (TransferRequest * jsstr * jsstr * QuotesPostRequest) :=
  let! _ := throw_if (match quotes t with Some _ => true | None => false end)
    (fspiop_msg GENERIC_CLIENT_ERROR
       (js "Quote already completed for transfer " ++ key ++ js "; duplicate acceptParty ignored.")) in
  let! source := getFspId "quote" (payer t) "payer" in
  let! _ := assertSourceCanActForPayer requestSource source in
  let! extensionList := validateFees (feesMandatory cfg) (allowedDecimalPlaces cfg) acceptParty extensionList in
  let t := with_amount (normalizeAmount amount) t in
  let! _ := validateDecimals (allowedDecimalPlaces cfg) (Some (Transfer.amount t)) in
  let! destination := getFspId "quote" (payee t) "payee" in
  Ok (t, source, destination, toQuotesPostRequest key t extensionList).

Definition acceptPartyLocked (key : jsstr) (acceptParty : bool) (amount : jsstr)
    (extensionList : option ExtensionList) (requestSource : option jsstr)
    : M S QuotesPostRequest QuotesIDPutResponse (SendMoneyResponse * QuotesIDPutResponse) :=
  do! t := getTransferRequest env key in
  do! prepared := lift (prepareQuote key acceptParty amount extensionList requestSource t) in
  let '(t, source, destination, quoteRequest) := prepared in
  do! _ := publish env SAuditRequest PQuotes ARequest (mkContent key source destination (Some quoteRequest) None None) in
  try_catch
    (do! _ := lift (throw_if (negb acceptParty)
                (fspiop PAYER_REJECTED_TRANSACTION_REQUEST "Payer rejected party confirmation.")) in
     do! _ := at_redis env SIncrement (assertNotSuspicious (monitor cfg) (redisFault env SIncrement)
                (mkPattern source (partyIdentifier (partyIdInfo (payer t))) destination
                   (partyIdentifier (partyIdInfo (payee t))) (currency t) (Transfer.amount t))) in
     let successSubject := Quotes.forSuccess source key in
     let errorSubject := Quotes.forError source key in
     do! _ := waitFor env successSubject errorSubject None in
     do! _ := postToHub env quoteRequest successSubject translated in
     do! callback := lift (callback env) in
     let t := with_transfer None (with_quotes (Some callback) t) in
     do! response := lift (quoteResponse t callback) in
     do! _ := store env cfg SStore key t in
     do! _ := publish env SAuditResponse PQuotes AResponse
                (mkContent key source destination (Some quoteRequest) (Some callback) None) in
     ret (response, callback))
    (recover env PQuotes key source destination (Some quoteRequest)).

Definition putAcceptParty (key : jsstr) (acceptParty : bool) (amount : jsstr)
    (extensionList : option ExtensionList) (requestSource : option jsstr) :=
  locked env key (acceptPartyLocked key acceptParty amount extensionList requestSource).
End put_accept_party.

(** ** PutAcceptQuoteHandler *)

Section put_accept_quote.
  Context {S : Type} {server : RedisServer S} {json : Json} (env : Env S TransfersIDPutResponse) (cfg : Settings).

(** The checks before the home transaction id is stored. *)
Definition prepareSource (key : jsstr) (requestSource : option jsstr) (t : TransferRequest) : result thrown jsstr :=
  let! _ := throw_if (match transfer t with Some _ => true | None => false end)
    (fspiop_msg GENERIC_CLIENT_ERROR
       (js "Transfer " ++ key ++ js " already completed; duplicate acceptQuote ignored.")) in
  let! source := getFspId "transfer" (payer t) "payer" in
  let! _ := assertSourceCanActForPayer requestSource source in
  Ok source.

(** The checks after it. *)
Definition prepareTransfer (key : jsstr) (t : TransferRequest) : result thrown (jsstr * TransfersPostRequest) :=
  let! destination := getFspId "transfer" (payee t) "payee" in
  let! transfersPostRequest := toTransfersPostRequest key t in
  let! _ := validateDecimals (allowedDecimalPlaces cfg) (money_amount <$> tp_amount transfersPostRequest) in
  Ok (destination, transfersPostRequest).

Definition acceptQuoteLocked (key : jsstr) (acceptQuote : bool) (requestSource homeTransactionId : option jsstr)
    : M S TransfersPostRequest TransfersIDPutResponse (SendMoneyResponse * TransfersIDPutResponse) :=
  do! t := getTransferRequest env key in
  do! source := lift (prepareSource key requestSource t) in
  do! t := match homeTransactionId with
           | Some h =>
               let t := with_homeTransactionId h t in
               do! _ := store env cfg SStoreHome key t in ret t
           | None => ret t
           end in
  do! prepared := lift (prepareTransfer key t) in
  let '(destination, transfersPostRequest) := prepared in
  do! _ := publish env SAuditRequest PTransfers ARequest
             (mkContent key source destination (Some transfersPostRequest) None None) in
  try_catch
    (do! _ := lift (throw_if (negb acceptQuote)
                (fspiop GENERIC_PAYER_REJECTION "Payer rejected quote confirmation.")) in
     let successSubject := Transfers.forSuccess source key in
     let errorSubject := Transfers.forError source key in
     do! _ := waitFor env successSubject errorSubject None in
     do! _ := postToHub env transfersPostRequest successSubject translated in
     do! callback := lift (callback env) in
     let t := with_transfer (Some callback) t in
     let response := toFinalState t (transferState callback) (t_extensionList callback) in
     do! _ := publish env SAuditResponse PTransfers AResponse
                (mkContent key source destination (Some transfersPostRequest) (Some callback) None) in
     do! _ := remove env SDelete key in
     ret (response, callback))
    (recover env PTransfers key source destination (Some transfersPostRequest)).

Definition putAcceptQuote (key : jsstr) (acceptQuote : bool) (requestSource homeTransactionId : option jsstr) :=
  locked env key (acceptQuoteLocked key acceptQuote requestSource homeTransactionId).
End put_accept_quote.

(** ** Reference definitions *)

(** [m] extends the trace, by effects and with a result that satisfy [P]. *)
Definition extends {S Q C A} (m : M S Q C A) (w : World S Q C) (P : list (effect Q C) -> result thrown A -> Prop) : Prop :=
  exists s l r, m w = (mkWorld s (trace w ++ l), r) /\ P l r.

(** The traces of a failed attempt: a non-empty prefix of the full course of an
    attempt, or the course up to the hub call and the cancelled waiter; then the error
    message and the removal of the cached transfer. *)
Definition failed_course {Q C} (course : list (effect Q C)) (hub_at : nat) (success : jsstr)
    (cleanup l : list (effect Q C)) : Prop :=
  exists pre, l = pre ++ cleanup /\
  ((exists n, (0 < n <= length course)%nat /\ pre = take n course) \/
   pre = take hub_at course ++ [ECancelWait success]).

(** A cached transfer: what the text under the key parses to. *)
Definition cached {S} {server : RedisServer S} {json : Json} (s : S) (key : jsstr) (t : TransferRequest) : Prop :=
  exists txt ttl, view s !! key = Some (txt, ttl) /\ JSON_parse txt = Ok t.

(** What Redis holds once the lock of [key] is taken. *)
Definition lock_taken {S Q C} {server : RedisServer S} (env : Env S C) (key : jsstr) (w : World S Q C) : S :=
  fst (acquireLock (redisFault env SAcquire) (uuid env) key IN_FLIGHT_LOCK_TTL_MS (meanwhile env SAcquire (redis w))).

(** * Lemmas *)

Section runs.
  Context {S Q C : Type} {server : RedisServer S} {json : Json} (env : Env S C) (cfg : Settings).
  Implicit Types (w : World S Q C).

Lemma publish_run x p a (c : Content Q C) w :
  publish env x p a c w =
  (mkWorld (redis w) (trace w ++ [EAudit p a c]), match auditFault env x with Some e => Err e | None => Ok tt end).
Proof. unfold publish, bind, emit. by destruct (auditFault env x). Qed.

Lemma waitFor_run s e h w :
  waitFor env s e h w =
  (mkWorld (redis w) (trace w ++ [EWaitFor s e h]), match waitFault env with Some e => Err e | None => Ok tt end).
Proof. unfold waitFor, bind, emit. by destruct (waitFault env). Qed.

Lemma postToHub_run (q : Q) s f w :
  postToHub env q s f w =
  match hubAnswer env with
  | Ok _ => (mkWorld (redis w) (trace w ++ [EHub q]), Ok tt)
  | Err e => (mkWorld (redis w) ((trace w ++ [EHub q]) ++ [ECancelWait s]), Err (f e))
  end.
Proof. unfold postToHub, bind, emit. by destruct (hubAnswer env). Qed.

Lemma at_redis_run {A} x (f : S -> S * result thrown A) w :
  at_redis env x f w = (mkWorld (fst (f (meanwhile env x (redis w)))) (trace w), snd (f (meanwhile env x (redis w)))).
Proof. unfold at_redis. by destruct (f _). Qed.

Lemma store_run x k t w : exists s r, store env cfg x k t w = (mkWorld s (trace w ++ [EStore k t]), r).
Proof. unfold store, bind, emit. rewrite at_redis_run. eauto. Qed.

Lemma remove_run x k w : exists s r, remove env x k w = (mkWorld s (trace w ++ [EDelete k]), r).
Proof. unfold remove, bind, emit. rewrite at_redis_run. eauto. Qed.

Lemma recover_run {A} p k s d (q : option Q) e w : exists s',
  @recover S Q C server env A p k s d q e w =
  (mkWorld s' (trace w ++ [EAudit p AError (mkContent k s d q None
     (Some (toErrorObject (errorDefinition (handlerException e)) None))); EDelete k]),
   Err (TFspiop (handlerException e))).
Proof.
  unfold recover. rewrite publish_run. destruct (remove_run SDeleteError k
    (mkWorld (redis w) (trace w ++ [EAudit p AError (mkContent k s d q None
       (Some (toErrorObject (errorDefinition (handlerException e)) None)))]))) as (s' & r & ->).
  cbn. exists s'. by rewrite <- app_assoc.
Qed.

(** *** The lock *)

Lemma locked_run {A} key (body : M S Q C A) w :
  match acquireLock (redisFault env SAcquire) (uuid env) key IN_FLIGHT_LOCK_TTL_MS (meanwhile env SAcquire (redis w)) with
  | (s, Ok (Some token)) =>
      token = uuid env /\
      locked env key body w =
      (mkWorld (releaseLock (redisFault env SRelease) key token
                  (meanwhile env SRelease (redis (fst (body (mkWorld s (trace w)))))))
         (trace (fst (body (mkWorld s (trace w))))), snd (body (mkWorld s (trace w))))
  | (s, Ok None) =>
      locked env key body w = (mkWorld s (trace w), Err (fspiop_msg GENERIC_CLIENT_ERROR
              (js "Transfer " ++ key ++ js " is already being processed; ignoring duplicate request.")))
  | (s, Err e) => locked env key body w = (mkWorld s (trace w), Err e)
  end.
Proof.
  unfold locked, bind. rewrite at_redis_run.
  destruct (acquireLock _ _ _ _ _) as [s [[token|]|e]] eqn:Ha; cbn [fst snd]; [|done..].
  split.
  - unfold acquireLock in Ha. destruct (call _ _ _) as [s' [[]|]]; by simplify_eq.
  - unfold finally. by destruct (body _).
Qed.

Lemma locked_extends {A} key (body : M S Q C A) w P :
  (forall e, P [] (Err e)) -> extends body (mkWorld (lock_taken env key w) (trace w)) P ->
  extends (locked env key body) w P.
Proof.
  unfold lock_taken. intros He Hb. pose proof (locked_run key body w) as H. unfold extends in *.
  destruct (acquireLock _ _ _ _ _) as [s [[token|]|e]].
  - destruct H as [_ ->]. destruct Hb as (s' & l & r & Hb & Hl). cbn [fst] in Hb. rewrite Hb. cbn [fst snd redis trace]. eauto.
  - rewrite H. do 3 eexists. split; [by rewrite app_nil_r | apply He].
  - rewrite H. do 3 eexists. split; [by rewrite app_nil_r | apply He].
Qed.
End runs.

Section more_runs.
  Context {S Q C : Type} {server : RedisServer S} {json : Json} (env : Env S C) (cfg : Settings).

Lemma getTransferRequest_run key (w : World S Q C) : exists s r,
  getTransferRequest env key w = (mkWorld s (trace w), r) /\
  (forall t, r = Ok t -> cached (meanwhile env SGet (redis w)) key t).
Proof.
  unfold cached, getTransferRequest, bind. rewrite at_redis_run. unfold Redis.get, call.
  destruct (redisFault env SGet) as [[e []]|]; cbn [fst snd];
    [do 2 eexists; split; [reflexivity | done].. |].
  destruct (GET_spec key (meanwhile env SGet (redis w))) as [_ Hg].
  destruct (GET key _) as [s v]. cbn [fst snd] in *. subst v.
  destruct (view (meanwhile env SGet (redis w)) !! key) as [[txt ttl]|]; cbn [fmap option_fmap option_map fst].
  - destruct (JSON_parse txt) as [t|err] eqn:Hp; cbn; do 2 eexists; (split; [reflexivity|]); [|done].
    intros t' [= ->]. eauto.
  - do 2 eexists. split; [reflexivity|]. done.
Qed.

End more_runs.

(** ** The full courses *)

(** The effects of a quote that completes, in order; the last two exist once the hub
    has answered. *)
Definition accept_party_course {S} (env : Env S QuotesIDPutResponse) (key source destination : jsstr)
    (q : QuotesPostRequest) (t : TransferRequest) : list (effect QuotesPostRequest QuotesIDPutResponse) :=
  [EAudit PQuotes ARequest (mkContent key source destination (Some q) None None);
   EWaitFor (Quotes.forSuccess source key) (Quotes.forError source key) None; EHub q] ++
  match callback env with
  | Ok cb => [EStore key (with_transfer None (with_quotes (Some cb) t));
              EAudit PQuotes AResponse (mkContent key source destination (Some q) (Some cb) None)]
  | Err _ => []
  end.

Definition accept_quote_course {S} (env : Env S TransfersIDPutResponse) (key source destination : jsstr)
    (q : TransfersPostRequest) : list (effect TransfersPostRequest TransfersIDPutResponse) :=
  [EAudit PTransfers ARequest (mkContent key source destination (Some q) None None);
   EWaitFor (Transfers.forSuccess source key) (Transfers.forError source key) None; EHub q] ++
  match callback env with
  | Ok cb => [EAudit PTransfers AResponse (mkContent key source destination (Some q) (Some cb) None); EDelete key]
  | Err _ => []
  end.

(** The error message and the removal that end a failed attempt. *)
Definition cleanup {Q C} (phase : InvocationPhase) (key source destination : jsstr) (q : option Q) (error : thrown)
    : list (effect Q C) :=
  [EAudit phase AError (mkContent key source destination q None
     (Some (toErrorObject (errorDefinition (handlerException error)) None))); EDelete key].

(** Whether a trace has a hub call. *)
Definition calls_hub {Q C} (l : list (effect Q C)) : bool :=
  existsb (fun e => match e with EHub _ => true | _ => false end) l.

(** The body of an attempt ends, in error, after [n] effects of its course. *)
Ltac fails_at n :=
  do 3 eexists; rewrite <- ?app_assoc; split; [reflexivity|];
  split; [left; exists n; split; [cbn; lia | done] | done].

(** The next call of a sequence. *)
Ltac next_call := unfold bind at 1; rewrite ?publish_run, ?waitFor_run, ?postToHub_run, ?at_redis_run;
  try unfold lift at 1; cbn [redis trace]; rewrite <- ?app_assoc.

Section accept_party.
  Context {S : Type} {server : RedisServer S} {json : Json} (env : Env S QuotesIDPutResponse) (cfg : Settings).

(** What one attempt under the lock does and gives, the transfer being read from [s]. *)
Definition accept_party_outcome (s : S) (key : jsstr) (acceptParty : bool) (amount : jsstr)
    (exts : option ExtensionList) (requestSource : option jsstr)
    (l : list (effect QuotesPostRequest QuotesIDPutResponse)) (r : result thrown (SendMoneyResponse * QuotesIDPutResponse)) : Prop :=
  match r with
  | Ok (response, cb) =>
      acceptParty = true /\ callback env = Ok cb /\
      exists t0 t source destination q, cached s key t0 /\
      prepareQuote cfg key acceptParty amount exts requestSource t0 = Ok (t, source, destination, q) /\
      l = accept_party_course env key source destination q t /\
      quoteResponse (with_transfer None (with_quotes (Some cb) t)) cb = Ok response
  | Err e =>
      l = [] \/
      exists t0 t source destination q e0, cached s key t0 /\
      prepareQuote cfg key acceptParty amount exts requestSource t0 = Ok (t, source, destination, q) /\
      (e = TFspiop (handlerException e0) /\
       failed_course (accept_party_course env key source destination q t) 3 (Quotes.forSuccess source key)
         (cleanup PQuotes key source destination (Some q) e0) l \/
       l = take 1 (accept_party_course env key source destination q t)) /\
      (calls_hub l = true -> acceptParty = true)
  end.

Lemma acceptPartyLocked_extends key acceptParty amount exts src w :
  extends (acceptPartyLocked env cfg key acceptParty amount exts src) w
    (accept_party_outcome (meanwhile env SGet (redis w)) key acceptParty amount exts src).
Proof.
  unfold extends, acceptPartyLocked.
  destruct (getTransferRequest_run env key w) as (s1 & r1 & Hg & Hcached).
  unfold bind at 1. rewrite Hg. destruct r1 as [t0|e]; [|do 3 eexists; split; [by rewrite app_nil_r | by left]].
  specialize (Hcached t0 eq_refl).
  unfold bind at 1. unfold lift at 1.
  destruct (prepareQuote cfg key acceptParty amount exts src t0) as [[[[t source] destination] q]|e] eqn:Hp;
    [|do 3 eexists; split; [by rewrite app_nil_r | by left]].
  unfold bind at 1. rewrite publish_run. cbn [redis trace].
  destruct (auditFault env SAuditRequest) as [e|].
  { do 3 eexists. split; [reflexivity|]. right. exists t0, t, source, destination, q, e. split; [done|]. split; [done|]. split; [by right | done]. }
  unfold try_catch.
  match goal with |- context [match ?b ?w1 with _ => _ end] =>
    assert (exists s l' r, b w1 = (mkWorld s (trace w ++ l'), r) /\
      match r with
      | Ok (response, cb) => acceptParty = true /\ callback env = Ok cb /\
          l' = accept_party_course env key source destination q t /\
          quoteResponse (with_transfer None (with_quotes (Some cb) t)) cb = Ok response
      | Err e => ((exists n, (0 < n <= length (accept_party_course env key source destination q t))%nat /\
                     l' = take n (accept_party_course env key source destination q t)) \/
                  l' = take 3 (accept_party_course env key source destination q t) ++ [ECancelWait (Quotes.forSuccess source key)]) /\
                 (calls_hub l' = true -> acceptParty = true)
      end) as (s & l' & r & -> & Hr);
    [|destruct r as [[response cb]|e]]
  end; cycle 1.
  - do 3 eexists. split; [reflexivity|]. destruct Hr as (-> & Hcb & -> & Hq). split; [done|]. split; [done|].
    by exists t0, t, source, destination, q.
  - destruct (recover_run (A := SendMoneyResponse * QuotesIDPutResponse) env PQuotes key source destination (Some q) e (mkWorld s (trace w ++ l'))) as (s' & ->).
    cbn [trace]. rewrite <- app_assoc. do 3 eexists. split; [reflexivity|]. right.
    exists t0, t, source, destination, q, e. destruct Hr as [Hpre Hhub]. split; [done|]. split; [done|]. split; [left|].
    + split; [done|]. exists l'. split; [done|]. done.
    + intros H. apply Hhub. unfold calls_hub in *. rewrite existsb_app in H. apply orb_true_iff in H as [H|H]; [done|]. done.
  - unfold accept_party_course. unfold bind at 1, lift at 1. destruct acceptParty; cbn [negb throw_if].
    2:{ fails_at 1%nat. }
    unfold bind at 1. rewrite at_redis_run. cbn [redis trace].
    destruct (snd (assertNotSuspicious _ _ _ _)) as [[]|e].
    2:{ fails_at 1%nat. }
    unfold bind at 1. rewrite waitFor_run. cbn [redis trace]. destruct (waitFault env) as [e|].
    { fails_at 2%nat. }
    unfold bind at 1. rewrite postToHub_run. cbn [redis trace]. rewrite <- !app_assoc. destruct (hubAnswer env) as [u|e].
    2:{ do 3 eexists. split; [reflexivity|]. split; [by right | done]. }
    unfold bind at 1, lift at 1. destruct (callback env) as [cb|e] eqn:Hcb.
    2:{ fails_at 3%nat. }
    unfold bind at 1, lift at 1. destruct (quoteResponse _ cb) as [response|e] eqn:Hq.
    2:{ fails_at 3%nat. }
    unfold bind at 1.
    match goal with |- context [store env cfg SStore key ?t' ?w0] => destruct (store_run env cfg SStore key t' w0) as (s2 & r2 & ->) end.
    cbn [trace]. rewrite <- !app_assoc. destruct r2 as [u2|e].
    2:{ fails_at 4%nat. }
    unfold bind at 1. rewrite publish_run. cbn [redis trace]. rewrite <- !app_assoc.
    destruct (auditFault env SAuditResponse) as [e|].
    { fails_at 5%nat. }
    do 3 eexists. split; [reflexivity|]. done.
Qed.
End accept_party.

Section accept_quote.
  Context {S : Type} {server : RedisServer S} {json : Json} (env : Env S TransfersIDPutResponse) (cfg : Settings).

(** The transfer as prepared: the cached one, with the home transaction id given. *)
Definition with_home (homeTransactionId : option jsstr) (t : TransferRequest) : TransferRequest :=
  match homeTransactionId with Some h => with_homeTransactionId h t | None => t end.

Definition home_stored (key : jsstr) (homeTransactionId : option jsstr) (t : TransferRequest)
    : list (effect TransfersPostRequest TransfersIDPutResponse) :=
  match homeTransactionId with Some h => [EStore key (with_homeTransactionId h t)] | None => [] end.

Definition accept_quote_outcome (s : S) (key : jsstr) (acceptQuote : bool) (requestSource homeTransactionId : option jsstr)
    (l : list (effect TransfersPostRequest TransfersIDPutResponse))
    (r : result thrown (SendMoneyResponse * TransfersIDPutResponse)) : Prop :=
  match r with
  | Ok (response, cb) =>
      acceptQuote = true /\ callback env = Ok cb /\
      exists t source destination q, cached s key t /\
      prepareSource key requestSource t = Ok source /\
      prepareTransfer cfg key (with_home homeTransactionId t) = Ok (destination, q) /\
      l = home_stored key homeTransactionId t ++ accept_quote_course env key source destination q /\
      response = toFinalState (with_transfer (Some cb) (with_home homeTransactionId t)) (transferState cb) (t_extensionList cb)
  | Err e =>
      l = [] \/
      exists t source, cached s key t /\ prepareSource key requestSource t = Ok source /\
      (l = home_stored key homeTransactionId t \/
       exists destination q e0 l',
       prepareTransfer cfg key (with_home homeTransactionId t) = Ok (destination, q) /\
       l = home_stored key homeTransactionId t ++ l' /\
       (e = TFspiop (handlerException e0) /\
        failed_course (accept_quote_course env key source destination q) 3 (Transfers.forSuccess source key)
          (cleanup PTransfers key source destination (Some q) e0) l' \/
        l' = take 1 (accept_quote_course env key source destination q)) /\
       (calls_hub l = true -> acceptQuote = true))
  end.

Lemma home_no_hub key home t l : calls_hub (home_stored key home t ++ l) = calls_hub l.
Proof. unfold calls_hub, home_stored. by destruct home. Qed.

Lemma acceptQuoteLocked_extends key acceptQuote src home w :
  extends (acceptQuoteLocked env cfg key acceptQuote src home) w
    (accept_quote_outcome (meanwhile env SGet (redis w)) key acceptQuote src home).
Proof.
  unfold extends, acceptQuoteLocked.
  destruct (getTransferRequest_run env key w) as (s1 & r1 & Hg & Hcached).
  unfold bind at 1. rewrite Hg. destruct r1 as [t|e]; [|do 3 eexists; split; [by rewrite app_nil_r | by left]].
  specialize (Hcached t eq_refl).
  next_call. destruct (prepareSource key src t) as [source|e] eqn:Hs;
    [|do 3 eexists; split; [by rewrite app_nil_r | by left]].
  unfold bind at 1.
  match goal with |- context [match ?b ?w1 with _ => _ end] =>
    assert (exists s r, b w1 = (mkWorld s (trace w ++ home_stored key home t), r) /\
      forall t', r = Ok t' -> t' = with_home home t) as (s2 & r2 & -> & Ht') end.
  { destruct home as [h|]; cbn [home_stored with_home].
    - unfold bind at 1. match goal with |- context [store env cfg SStoreHome key ?t' ?w0] =>
        destruct (store_run env cfg SStoreHome key t' w0) as (s2 & r2 & ->) end.
      destruct r2; do 2 eexists; (split; [reflexivity|]); [by intros ? [= <-] | done].
    - do 2 eexists. rewrite app_nil_r. split; [reflexivity|]. by intros ? [= <-]. }
  destruct r2 as [t'|e]; [|do 3 eexists; split; [reflexivity|]; right; exists t, source; split; [done|]; split; [done | by left]].
  rewrite (Ht' t' eq_refl). clear Ht' t'. next_call.
  destruct (prepareTransfer cfg key (with_home home t)) as [[destination q]|e] eqn:Hp;
    [|do 3 eexists; split; [reflexivity|]; right; exists t, source; split; [done|]; split; [done | by left]].
  next_call. destruct (auditFault env SAuditRequest) as [e|].
  { do 3 eexists. split; [reflexivity|]. right. exists t, source. split; [done|]. split; [done|]. right.
    exists destination, q, e. eexists. split; [done|]. split; [done|]. split; [by right|]. by rewrite home_no_hub. }
  unfold try_catch.
  match goal with |- context [match ?b ?w1 with _ => _ end] =>
    assert (exists s l' r, b w1 = (mkWorld s (trace w ++ home_stored key home t ++ l'), r) /\
      match r with
      | Ok (response, cb) => acceptQuote = true /\ callback env = Ok cb /\
          l' = accept_quote_course env key source destination q /\
          response = toFinalState (with_transfer (Some cb) (with_home home t)) (transferState cb) (t_extensionList cb)
      | Err e => ((exists n, (0 < n <= length (accept_quote_course env key source destination q))%nat /\
                     l' = take n (accept_quote_course env key source destination q)) \/
                  l' = take 3 (accept_quote_course env key source destination q) ++ [ECancelWait (Transfers.forSuccess source key)]) /\
                 (calls_hub l' = true -> acceptQuote = true)
      end) as (s & l' & r & -> & Hr);
    [|destruct r as [[response cb]|e]]
  end; cycle 1.
  - do 3 eexists. split; [reflexivity|]. destruct Hr as (-> & Hcb & -> & ->). split; [done|]. split; [done|].
    by exists t, source, destination, q.
  - destruct (recover_run (A := SendMoneyResponse * TransfersIDPutResponse) env PTransfers key source destination (Some q) e
      (mkWorld s (trace w ++ home_stored key home t ++ l'))) as (s' & ->).
    cbn [trace]. rewrite <- !app_assoc. do 3 eexists. split; [reflexivity|]. right. exists t, source. split; [done|]. split; [done|]. right.
    exists destination, q, e. eexists. destruct Hr as [Hpre Hhub]. split; [done|]. split; [reflexivity|]. split; [left|].
    + split; [done|]. by exists l'.
    + rewrite home_no_hub. intros H. apply Hhub. unfold calls_hub in *. rewrite existsb_app in H.
      apply orb_true_iff in H as [H|H]; done.
  - unfold accept_quote_course. next_call. destruct acceptQuote; cbn [negb throw_if]; [|fails_at 1%nat].
    next_call. destruct (waitFault env) as [e|]; [fails_at 2%nat|].
    next_call. destruct (hubAnswer env) as [u|e].
    2:{ do 3 eexists. rewrite <- ?app_assoc. split; [reflexivity|]. split; [by right | done]. }
    next_call. destruct (callback env) as [cb|e] eqn:Hcb; [|fails_at 3%nat].
    next_call. destruct (auditFault env SAuditResponse) as [e|]; [fails_at 4%nat|].
    unfold bind at 1.
    match goal with |- context [remove env SDelete key ?w0] => destruct (remove_run env SDelete key w0) as (s3 & r3 & ->) end.
    cbn [trace]. rewrite <- !app_assoc. destruct r3 as [u3|e]; [|fails_at 5%nat].
    do 3 eexists. split; [reflexivity|]. done.
Qed.
End accept_quote.

Section post_money.
  Context {S : Type} {server : RedisServer S} {json : Json} (env : Env S Party) (cfg : Settings).

Definition details_of (request : SendMoneyRequest) : LookupDetails :=
  mkLookupDetails (fp_type (r_from request)) (r_transactionType request) (r_subScenario request)
    (r_amountType request) (r_homeTransactionId request) (r_currency request) (r_amount request).

Definition parties_of (request : SendMoneyRequest) : option LookupDetails -> PartiesLookup :=
  mkPartiesLookup (idType (r_from request)) (idValue (r_from request)) (toOptionalValue (idSubValue (r_from request)))
    (idType (r_to request)) (idValue (r_to request)) (toOptionalValue (idSubValue (r_to request))).

Definition success_subject (source : jsstr) (request : SendMoneyRequest) : jsstr :=
  Parties.forSuccess source (toOptionalValue (fspId (r_to request))) (idType (r_to request)) (idValue (r_to request))
    (toOptionalValue (idSubValue (r_to request))).

(** The effects of a lookup that completes, in order. *)
Definition post_course (correlation source : jsstr) (request : SendMoneyRequest) (createdAt : jsstr)
    : list (effect PartiesLookup Party) :=
  let destination := toOptionalValue (fspId (r_to request)) in
  [EAudit PParties ARequest (mkContent correlation source (default [] destination) (Some (parties_of request (Some (details_of request)))) None None);
   EWaitFor (success_subject source request)
     (Parties.forError source destination (idType (r_to request)) (idValue (r_to request)) (toOptionalValue (idSubValue (r_to request))))
     (Some (Parties.forError source (Some (switchId cfg)) (idType (r_to request)) (idValue (r_to request)) (toOptionalValue (idSubValue (r_to request)))));
   EHub (parties_of request None)] ++
  match callback env with
  | Ok party =>
      match resolveDestination party destination with
      | Ok (resolved, party) =>
          [EStore correlation (toTransferRequest request party correlation createdAt);
           EAudit PParties AResponse (mkContent correlation source resolved (Some (parties_of request None)) (Some party) None)]
      | Err _ => []
      end
  | Err _ => []
  end.

Definition post_outcome (correlation source : jsstr) (request : SendMoneyRequest) (createdAt : jsstr)
    (l : list (effect PartiesLookup Party)) (r : result thrown (SendMoneyResponse * Party)) : Prop :=
  let destination := toOptionalValue (fspId (r_to request)) in
  match r with
  | Ok (response, party) =>
      exists p0 resolved, callback env = Ok p0 /\ resolveDestination p0 destination = Ok (resolved, party) /\
      pii_fspId (partyIdInfo party) = Some resolved /\
      l = post_course correlation source request createdAt /\
      response = toWaitingForPartyAcceptance (toTransferRequest request party correlation createdAt)
  | Err e =>
      (l = [] /\ validateDecimals (allowedDecimalPlaces cfg) (Some (r_amount request)) = Err e) \/
      exists e0, e = TFspiop (handlerException e0) /\
      failed_course (post_course correlation source request createdAt) 3 (success_subject source request)
        (cleanup PParties correlation source (default [] destination) (Some (parties_of request None)) e0) l
  end.

Lemma resolveDestination_fspId p d resolved party :
  resolveDestination p d = Ok (resolved, party) -> pii_fspId (partyIdInfo party) = Some resolved.
Proof. unfold resolveDestination. destruct (match toOptionalValue _ with Some _ => _ | None => _ end); [|done]. by intros [= <- <-]. Qed.

Lemma postSendMoney_extends correlation source request createdAt w :
  extends (postSendMoney env cfg correlation source request createdAt) w
    (post_outcome correlation source request createdAt).
Proof.
  unfold extends, postSendMoney. fold (parties_of request). fold (details_of request). fold (success_subject source request).
  next_call. destruct (validateDecimals _ _) as [u|e] eqn:Hv;
    [|exists (redis w), [], (Err e); rewrite app_nil_r; split; [by destruct w | by left]].
  unfold try_catch.
  match goal with |- context [match ?b ?w1 with _ => _ end] =>
    assert (exists s l' r, b w1 = (mkWorld s (trace w ++ l'), r) /\
      match r with
      | Ok (response, party) => exists p0 resolved, callback env = Ok p0 /\
          resolveDestination p0 (toOptionalValue (fspId (r_to request))) = Ok (resolved, party) /\
          l' = post_course correlation source request createdAt /\
          response = toWaitingForPartyAcceptance (toTransferRequest request party correlation createdAt)
      | Err e => ((exists n, (0 < n <= length (post_course correlation source request createdAt))%nat /\
                     l' = take n (post_course correlation source request createdAt)) \/
                  l' = take 3 (post_course correlation source request createdAt) ++ [ECancelWait (success_subject source request)]) /\
                 True
      end) as (s & l' & r & -> & Hr);
    [|destruct r as [[response party]|e]]
  end; cycle 1.
  - do 3 eexists. split; [reflexivity|]. destruct Hr as (p0 & resolved & Hc & Hd & -> & ->). exists p0, resolved.
    split; [done|]. split; [done|]. split; [by eapply resolveDestination_fspId | done].
  - destruct (recover_run (A := SendMoneyResponse * Party) env PParties correlation source
      (default [] (toOptionalValue (fspId (r_to request)))) (Some (parties_of request None)) e (mkWorld s (trace w ++ l'))) as (s' & ->).
    cbn [trace]. rewrite <- app_assoc. do 3 eexists. split; [reflexivity|]. right. exists e. split; [done|].
    exists l'. split; [done | apply Hr].
  - unfold post_course. cbv zeta. next_call. destruct (auditFault env SAuditRequest) as [e|]; [fails_at 1%nat|].
    next_call. destruct (waitFault env) as [e|]; [fails_at 2%nat|].
    next_call. destruct (hubAnswer env) as [u1|e].
    2:{ do 3 eexists. rewrite <- ?app_assoc. split; [reflexivity|]. split; [by right | done]. }
    next_call. destruct (callback env) as [p0|e] eqn:Hcb; [|fails_at 3%nat].
    next_call. destruct (resolveDestination p0 _) as [[resolved party]|e] eqn:Hd; [|fails_at 3%nat].
    unfold bind at 1.
    match goal with |- context [store env cfg SStore correlation ?t' ?w0] =>
      destruct (store_run env cfg SStore correlation t' w0) as (s2 & r2 & ->) end.
    cbn [trace]. rewrite <- !app_assoc. destruct r2 as [u2|e]; [|fails_at 4%nat].
    next_call. destruct (auditFault env SAuditResponse) as [e|]; [fails_at 5%nat|].
    do 3 eexists. split; [reflexivity|]. exists p0, resolved. done.
Qed.
End post_money.

(** ** What stays in Redis *)

(** Nobody else uses Redis during a command, and it answers every call. *)
Definition quiet {S C} (env : Env S C) : Prop :=
  (forall x s, meanwhile env x s = s) /\ (forall x, redisFault env x = None).

Section quiet.
  Context {S Q C : Type} {server : RedisServer S} {json : Json} (env : Env S C) (cfg : Settings) (Hquiet : quiet env).

Lemma getTransferRequest_quiet key (w : World S Q C) : exists s r,
  getTransferRequest env key w = (mkWorld s (trace w), r) /\ view s = view (redis w).
Proof.
  destruct Hquiet as [Hm Hf]. unfold getTransferRequest, bind. rewrite at_redis_run. rewrite Hm, Hf. unfold Redis.get. rewrite call_None.
  destruct (GET_spec key (redis w)) as [Hg _]. exists (fst (GET key (redis w))).
  destruct (snd (GET key (redis w))) as [txt|]; cbn [fst snd]; [destruct (JSON_parse txt) as [t|e]|]; cbn [fst snd];
    (eexists; split; [reflexivity | exact Hg]).
Qed.

Lemma store_quiet x key t (w : World S Q C) : exists s ttl,
  store env cfg x key t w = (mkWorld s (trace w ++ [EStore key t]), Ok tt) /\
  view s = <[key := (JSON_stringify t, ttl)]> (view (redis w)).
Proof.
  destruct Hquiet as [Hm Hf]. unfold store, bind, emit. rewrite at_redis_run. rewrite Hm, Hf. unfold Redis.set. rewrite call_None.
  set (px := if _ <=? 0 then None else Some _). assert (valid_px px) as Hpx.
  { unfold px. destruct (Z.leb_spec (default (defaultTtlMs cfg) None) 0); cbn in *; done. }
  destruct (SET_spec key (JSON_stringify t) false px (redis w) Hpx) as [Hv Hr]. cbn [fst snd redis].
  do 2 eexists. split; [reflexivity | exact Hv].
Qed.

Lemma locked_quiet {A} key (body : M S Q C A) (w w1 : World S Q C) a :
  locked env key body w = (w1, Ok a) ->
  exists s w', view s = <[lockKey key := (uuid env, Some IN_FLIGHT_LOCK_TTL_MS)]> (view (redis w)) /\
    body (mkWorld s (trace w)) = (w', Ok a) /\ trace w1 = trace w' /\
    (view (redis w') !! lockKey key = view s !! lockKey key -> view (redis w1) = delete (lockKey key) (view (redis w'))).
Proof.
  destruct Hquiet as [Hm Hf]. intros Hrun. pose proof (locked_run env key body w) as H. rewrite Hm, !Hf in H.
  pose proof (acquireLock_spec (uuid env) key IN_FLIGHT_LOCK_TTL_MS (redis w) ltac:(done)) as Ha.
  destruct (acquireLock _ _ _ _ _) as [s [[token|]|e]]; [|rewrite Hrun in H; discriminate H..].
  destruct H as [-> H]. rewrite Hrun in H. exists s.
  destruct (body (mkWorld s (trace w))) as [w' r]. cbn [fst snd] in H. rewrite Hm in H. injection H as -> <-.
  exists w'. destruct (view (redis w) !! lockKey key); [by destruct Ha|]. destruct Ha as [Hv _].
  do 3 (split; [done|]). intros Hl. cbn [redis]. rewrite releaseLock_spec, Hl, Hv, lookup_insert_eq.
  by rewrite bool_decide_true.
Qed.
End quiet.

Lemma assertNotSuspicious_frame {S} {server : RedisServer S} m pattern (s : S) key :
  view (fst (assertNotSuspicious m None pattern s)) !! lockKey key = view s !! lockKey key.
Proof.
  unfold assertNotSuspicious. destruct (negb _ || (windowMs m <=? 0) || _) eqn:E; [done|].
  apply orb_false_iff in E as [[_ Hw]%orb_false_iff _]. unfold incrementWithTtl. rewrite Hw. rewrite call_None. cbn [fst snd].
  assert (view (fst (INCREMENT_WITH_TTL_SCRIPT (buildKey pattern (matchingFields m)) (windowMs m) s)) !! lockKey key =
    view s !! lockKey key) as H.
  { apply INCREMENT_frame; [by apply Z.leb_gt|]. discriminate. }
  exact H.
Qed.

Lemma bind_Ok {S Q C A B} (m : M S Q C A) (k : A -> M S Q C B) w w1 b :
  bind m k w = (w1, Ok b) -> exists w' a, m w = (w', Ok a) /\ k a w' = (w1, Ok b).
Proof. unfold bind. destruct (m w) as [w' [a|e]]; [|discriminate]. eauto. Qed.

Lemma lift_Ok {S Q C A} (r : result thrown A) (w w1 : World S Q C) a : lift r w = (w1, Ok a) -> w = w1 /\ r = Ok a.
Proof. unfold lift. by intros [= -> ->]. Qed.

Lemma publish_Ok {S Q C} (env : Env S C) x p a (c : Content Q C) w w1 u :
  publish env x p a c w = (w1, Ok u) -> redis w1 = redis w /\ trace w ⊆ trace w1.
Proof. rewrite publish_run. intros [= <- _]. cbn. split; [done | set_solver]. Qed.

Lemma waitFor_Ok {S Q C} (env : Env S C) s e h (w w1 : World S Q C) u :
  waitFor env s e h w = (w1, Ok u) -> redis w1 = redis w.
Proof. rewrite waitFor_run. by intros [= <- _]. Qed.

Lemma postToHub_Ok {S Q C} (env : Env S C) (q : Q) s f (w w1 : World S Q C) u :
  postToHub env q s f w = (w1, Ok u) -> redis w1 = redis w.
Proof. rewrite postToHub_run. destruct (hubAnswer env); [by intros [= <- _] | discriminate]. Qed.

Lemma catch_Ok {S Q C A} {server : RedisServer S} (env : Env S C) (m : M S Q C A) p k s d (q : option Q) w w1 a :
  try_catch m (recover env p k s d q) w = (w1, Ok a) -> m w = (w1, Ok a).
Proof.
  unfold try_catch. destruct (m w) as [w' [b|e]]; [done|].
  destruct (recover_run (A := A) env p k s d q e w') as (s' & ->). discriminate.
Qed.

Lemma acceptPartyLocked_state {S} {server : RedisServer S} {json : Json} (env : Env S QuotesIDPutResponse)
    cfg key acc amt exts src w w1 response cb :
  quiet env -> acceptPartyLocked env cfg key acc amt exts src w = (w1, Ok (response, cb)) ->
  view (redis w1) !! lockKey key = view (redis w) !! lockKey key /\
  exists t ttl, view (redis w1) !! key = Some (JSON_stringify t, ttl) /\ quotes t = Some cb /\ EStore key t ∈ trace w1.
Proof.
  intros Hq H. unfold acceptPartyLocked in H. apply bind_Ok in H as (wa & t0 & Hget & H).
  destruct (getTransferRequest_quiet env Hq key w) as (s1 & r1 & Hg & Hv). rewrite Hg in Hget. injection Hget as <- _.
  apply bind_Ok in H as (wb & [[[t source] destination] q] & [<- _]%lift_Ok & H).
  apply bind_Ok in H as (wc & u & [Hp _]%publish_Ok & H). apply catch_Ok in H.
  apply bind_Ok in H as (wd & u1 & [<- _]%lift_Ok & H). apply bind_Ok in H as (we & u2 & Hs & H).
  apply bind_Ok in H as (wf & u3 & Hw%waitFor_Ok & H). apply bind_Ok in H as (wg & u4 & Hh%postToHub_Ok & H).
  apply bind_Ok in H as (wh & cb' & [<- _]%lift_Ok & H). apply bind_Ok in H as (wi & resp & [<- _]%lift_Ok & H).
  apply bind_Ok in H as (wj & u5 & Hst & H). apply bind_Ok in H as (wk & u6 & [Hp2 Htr]%publish_Ok & H).
  injection H as <- _ <-.
  destruct (store_quiet env cfg Hq SStore key (with_transfer None (with_quotes (Some cb') t)) wg) as (s2 & ttl & Hst' & Hv2).
  rewrite Hst' in Hst. injection Hst as <- _. cbn [redis] in Hp2. cbn [trace] in Htr. rewrite Hp2, Hv2. split.
  - rewrite lookup_insert_ne by (intros E; by apply (lockKey_ne key)). rewrite Hh, Hw.
    rewrite at_redis_run in Hs. injection Hs as <- _. destruct Hq as [Hm Hf]. rewrite Hm, Hf. cbn [redis].
    rewrite assertNotSuspicious_frame, Hp. cbn [redis]. by rewrite Hv.
  - do 2 eexists. split; [apply lookup_insert_eq|]. split; [done|]. apply Htr, elem_of_app. right. by apply list_elem_of_singleton.
Qed.

(** ** Facts about outcomes *)

Lemma failed_elem {Q C} (course : list (effect Q C)) h s c l x :
  failed_course course h s c l -> x ∈ l -> x ∈ course \/ x = ECancelWait s \/ x ∈ c.
Proof.
  intros (pre & -> & Hpre) [Hx|Hx]%elem_of_app; [|by right; right].
  destruct Hpre as [(n & _ & ->)| ->]; [left; by apply elem_of_take in Hx as (? & ?%list_elem_of_lookup_2 & _)|].
  apply elem_of_app in Hx as [Hx|Hx]; [left; by apply elem_of_take in Hx as (? & ?%list_elem_of_lookup_2 & _)|].
  right. left. by apply list_elem_of_singleton in Hx.
Qed.

Lemma prepareQuote_quotes cfg key acc amt exts src t0 t s d q :
  prepareQuote cfg key acc amt exts src t0 = Ok (t, s, d, q) ->
  quotes t0 = None /\ exists exts', q = toQuotesPostRequest key (with_amount (normalizeAmount amt) t0) exts'.
Proof.
  unfold prepareQuote. intros H. destruct (quotes t0) as [x|]; [done|]. cbn [throw_if] in H.
  destruct (getFspId _ (payer t0) _); [|done]. destruct (assertSourceCanActForPayer _ _); [|done].
  destruct (validateFees _ _ _ _) as [exts'|]; [|done]. destruct (validateDecimals _ _); [|done].
  destruct (getFspId _ (payee _) _); [|done]. injection H as _ _ _ <-. split; [done|]. by exists exts'.
Qed.

Lemma prepareSource_transfer key src t s : prepareSource key src t = Ok s -> transfer t = None.
Proof. unfold prepareSource. by destruct (transfer t). Qed.

Lemma prepareTransfer_quotes cfg key t d q :
  prepareTransfer cfg key t = Ok (d, q) ->
  exists x, quotes t = Some x /\ tp_amount q = q_transferAmount x /\ ilpPacket q = q_ilpPacket x /\
    condition q = q_condition x /\ expiration q = q_expiration x /\ tp_transferId q = key.
Proof.
  unfold prepareTransfer, toTransfersPostRequest. intros H. destruct (getFspId _ (payee t) _); [|done].
  destruct (quotes t) as [x|]; [|done]. destruct (getFspId _ (payer t) _); [|done].
  destruct (validateDecimals _ _); [|done]. injection H as <- <-. exists x. done.
Qed.

(** How many times a trace calls the hub. *)
Definition hubs {Q C} (l : list (effect Q C)) : nat :=
  length (List.filter (fun e => match e with EHub _ => true | _ => false end) l).

Lemma hubs_app {Q C} (l k : list (effect Q C)) : hubs (l ++ k) = (hubs l + hubs k)%nat.
Proof. unfold hubs. by rewrite List.filter_app, length_app. Qed.

Lemma hubs_take {Q C} n (l : list (effect Q C)) : (hubs (take n l) <= hubs l)%nat.
Proof. rewrite <- (take_drop n l) at 2. rewrite hubs_app. lia. Qed.

Lemma failed_hubs {Q C} (course : list (effect Q C)) h s c l :
  failed_course course h s c l -> hubs c = 0%nat -> (hubs l <= hubs course)%nat.
Proof.
  intros (pre & -> & Hpre) Hc. rewrite hubs_app, Hc, Nat.add_0_r.
  destruct Hpre as [(n & _ & ->)| ->]; [apply hubs_take|]. rewrite hubs_app, Nat.add_0_r. apply hubs_take.
Qed.

Lemma calls_hub_elem {Q C} (l : list (effect Q C)) q : EHub q ∈ l -> calls_hub l = true.
Proof. intros H. unfold calls_hub. apply existsb_exists. exists (EHub q). split; [by apply list_elem_of_In | done]. Qed.

(** The hub calls of an attempt at a quote. *)
Lemma accept_party_hub {S} {server : RedisServer S} {json : Json} (env : Env S QuotesIDPutResponse) cfg s key acceptParty amount exts src l r :
  accept_party_outcome env cfg s key acceptParty amount exts src l r ->
  (hubs l <= 1)%nat /\
  forall q', EHub q' ∈ l -> acceptParty = true /\ exists t0 t source destination,
    cached s key t0 /\ prepareQuote cfg key acceptParty amount exts src t0 = Ok (t, source, destination, q').
Proof.
  intros Ho.
  assert (forall source destination q t, (hubs (accept_party_course env key source destination q t) <= 1)%nat) as Hlen.
  { intros. unfold accept_party_course, hubs. destruct (callback env); cbn; lia. }
  assert (forall source destination q t q', EHub q' ∈ accept_party_course env key source destination q t -> q' = q) as Hq.
  { intros source destination q t q' H. unfold accept_party_course in H. destruct (callback env); set_solver. }
  destruct r as [[response cb]|e].
  - destruct Ho as (Ha & _ & t0 & t & source & destination & q & Hc & Hp & -> & _). split; [apply Hlen|].
    intros q' ->%Hq. split; [done|]. by exists t0, t, source, destination.
  - destruct Ho as [->|(t0 & t & source & destination & q & e0 & Hc & Hp & Hl & Hhub)].
    { split; [cbn; lia|]. intros q' H. by apply elem_of_nil in H. }
    split.
    + destruct Hl as [[_ Hf]| ->]; [|cbn; lia]. etransitivity; [by apply (failed_hubs _ _ _ _ _ Hf)|apply Hlen].
    + intros q' Hin. split; [by eapply Hhub, calls_hub_elem|]. exists t0, t, source, destination.
      assert (q' = q) as ->; [|done]. clear Hc Hp. destruct Hl as [[_ Hf]| ->]; [|set_solver].
      apply (failed_elem _ _ _ _ _ _ Hf) in Hin as [?|Hin]; [by eapply Hq|]. unfold cleanup in Hin. set_solver.
Qed.

(** The transfer an accept-quote posts. *)
Lemma accept_quote_hub {S} {server : RedisServer S} {json : Json} (env : Env S TransfersIDPutResponse) cfg s key acceptQuote src home l r :
  accept_quote_outcome env cfg s key acceptQuote src home l r ->
  forall q, EHub q ∈ l -> acceptQuote = true /\ exists t source destination, cached s key t /\
    prepareSource key src t = Ok source /\ prepareTransfer cfg key (with_home home t) = Ok (destination, q).
Proof.
  intros Ho q Hin.
  assert (forall t q', EHub q' ∉ home_stored key home t) as Hno by (intros t q'; destruct home; cbn; set_solver).
  assert (forall source destination q', EHub q ∈ accept_quote_course env key source destination q' -> q = q') as Hin'.
  { intros source destination q' H. unfold accept_quote_course in H. destruct (callback env); set_solver. }
  destruct r as [[response cb]|e].
  - destruct Ho as (Ha & _ & t & source & destination & q' & Hc & Hs & Hp & -> & _). split; [done|]. exists t, source, destination.
    apply elem_of_app in Hin as [Hin|Hin]; [by apply Hno in Hin|]. by apply Hin' in Hin as ->.
  - destruct Ho as [->|(t & source & Hc & Hs & [->|(destination & q' & e0 & l' & Hp & -> & Hl & Hhub)])].
    { by apply elem_of_nil in Hin. } { by apply Hno in Hin. }
    split; [by eapply Hhub, calls_hub_elem|]. exists t, source, destination.
    apply elem_of_app in Hin as [Hin|Hin]; [by apply Hno in Hin|].
    assert (q = q') as ->; [|done]. destruct Hl as [[_ Hf]| ->]; [|clear -Hin; set_solver].
    apply (failed_elem _ _ _ _ _ _ Hf) in Hin as [?|Hin]; [by eapply Hin'|]. unfold cleanup in Hin. clear -Hin. set_solver.
Qed.

(** *** Consecutive commands *)

Lemma cached_fun {S} {server : RedisServer S} {json : Json} (s s' : S) key t t' :
  view s' !! key = view s !! key -> cached s key t -> cached s' key t' -> t' = t.
Proof. unfold cached. intros Hv (txt & ttl & H1 & H2) (txt' & ttl' & H1' & H2'). congruence. Qed.

Lemma lock_taken_quiet {S Q C} {server : RedisServer S} (env : Env S C) key (w : World S Q C) :
  quiet env -> view (lock_taken env key w) !! key = view (redis w) !! key.
Proof.
  intros [Hm Hf]. unfold lock_taken. rewrite Hm, Hf.
  pose proof (acquireLock_spec (uuid env) key IN_FLIGHT_LOCK_TTL_MS (redis w) ltac:(done)) as Ha.
  destruct (acquireLock _ _ _ _ _) as [s r]. cbn [fst].
  destruct (view (redis w) !! lockKey key); destruct Ha as [-> _]; [done|]. by rewrite lookup_insert_ne by apply lockKey_ne.
Qed.

(** The error of a command for a transfer that has its quote. *)
Definition quote_completed (key : jsstr) : thrown :=
  fspiop_msg GENERIC_CLIENT_ERROR
    (js "Quote already completed for transfer " ++ key ++ js "; duplicate acceptParty ignored.").

Lemma duplicate_completed {S} {server : RedisServer S} {json : Json} (env : Env S QuotesIDPutResponse)
    cfg key acceptParty amount exts src w t q :
  quiet env -> view (redis w) !! lockKey key = None -> cached (redis w) key t -> quotes t = Some q ->
  exists s, putAcceptParty env cfg key acceptParty amount exts src w = (mkWorld s (trace w), Err (quote_completed key)) /\
    view s = view (redis w).
Proof.
  intros [Hm Hf] Hlock (txt & ttl & Hk & Hp) Hq.
  pose proof (locked_run env key (acceptPartyLocked env cfg key acceptParty amount exts src) w) as H.
  rewrite Hm, !Hf in H.
  pose proof (acquireLock_spec (uuid env) key IN_FLIGHT_LOCK_TTL_MS (redis w) ltac:(done)) as Ha.
  destruct (acquireLock None (uuid env) key IN_FLIGHT_LOCK_TTL_MS (redis w)) as [s r].
  rewrite Hlock in Ha. destruct Ha as [Hv ->]. destruct H as [_ H].
  assert (exists s', view s' = view s /\ acceptPartyLocked env cfg key acceptParty amount exts src (mkWorld s (trace w)) =
    (mkWorld s' (trace w), Err (quote_completed key))) as (s' & Hs' & Hrun).
  { unfold acceptPartyLocked, getTransferRequest, bind, lift. rewrite !at_redis_run. cbn [redis trace]. rewrite Hm, Hf.
    unfold Redis.get. rewrite call_None. destruct (GET_spec key s) as [Hg1 Hg2]. rewrite Hg2, Hv.
    rewrite lookup_insert_ne, Hk by apply lockKey_ne. cbn [fmap option_fmap option_map fst snd]. rewrite Hp.
    exists (fst (GET key s)). split; [by rewrite Hg1, ?Hv|]. cbn [redis trace ret]. unfold prepareQuote. by rewrite Hq. }
  rewrite Hrun in H. cbn [fst snd redis trace] in H. rewrite Hm in H.
  eexists. split; [exact H|]. rewrite releaseLock_spec, Hs', Hv. rewrite bool_decide_true.
  2:{ by rewrite lookup_insert_eq. }
  cbn [andb reaches]. by rewrite delete_insert_id.
Qed.

Lemma acceptParty_cached {S} {server : RedisServer S} {json : Json} (env : Env S QuotesIDPutResponse)
    cfg key acceptParty amount exts src w w1 response cb :
  quiet env -> (forall t, EStore key t ∈ trace w1 -> JSON_parse (JSON_stringify t) = Ok t) ->
  putAcceptParty env cfg key acceptParty amount exts src w = (w1, Ok (response, cb)) ->
  view (redis w1) !! lockKey key = None /\ exists t, cached (redis w1) key t /\ quotes t = Some cb.
Proof.
  intros Hq Hjson Hrun. destruct (locked_quiet env Hq _ _ _ _ _ Hrun) as (s & w' & Hs & Hb & Htr & Hv).
  destruct (acceptPartyLocked_state env cfg key acceptParty amount exts src _ _ _ _ Hq Hb) as (Hl & t & ttl & Hk & Ht & Hin).
  cbn [redis] in Hl. rewrite (Hv Hl). split; [apply lookup_delete_eq|]. exists t. split; [|done].
  exists (JSON_stringify t), ttl. split; [|apply Hjson; by rewrite Htr]. by rewrite (Hv Hl), lookup_delete_ne by apply lockKey_ne.
Qed.

(** * Properties *)

(** C1. The accept-party command, for every state of Redis, every failure of a call and
    every answer of the hub: it succeeds only for an accepted party, with the full
    course of effects in order (request audited, waiter registered, quote posted,
    quoted transfer stored, response audited); a failure before the request is audited
    has no effect at all, the cached transfer included; and a failure after it ends
    with the error message and the removal of the cached transfer, the caller getting
    the translated exception. At most one quote is posted, only for an accepted party,
    and only where the cached transfer had no quote yet. *)
Theorem putAcceptParty_course :
  forall S (server : RedisServer S) (json : Json) (env : Env S QuotesIDPutResponse) cfg key acceptParty amount exts src w,
  extends (putAcceptParty env cfg key acceptParty amount exts src) w (fun l r =>
    let s := meanwhile env SGet (lock_taken env key w) in
    accept_party_outcome env cfg s key acceptParty amount exts src l r /\
    (hubs l <= 1)%nat /\
    (forall q, EHub q ∈ l -> acceptParty = true /\ quoteId q = key /\ exists t0, cached s key t0 /\ quotes t0 = None /\
       qp_amount q = mkMoney (currency t0) (normalizeAmount amount))).
Proof.
  intros S server json env cfg key acceptParty amount exts src w. apply locked_extends.
  { intros e. split; [by left|]. split; [cbn; lia|]. intros q H. by apply elem_of_nil in H. }
  edestruct (acceptPartyLocked_extends env cfg key acceptParty amount exts src) as (s & l & r & Hrun & Ho).
  exists s, l, r. split; [exact Hrun|]. cbn [redis] in Ho. split; [done|].
  destruct (accept_party_hub _ _ _ _ _ _ _ _ _ _ Ho) as [Hlen Hq].
  split; [done|]. intros q' (Ha & t0 & t & source & destination & Hc & Hp)%Hq. split; [done|].
  destruct (prepareQuote_quotes _ _ _ _ _ _ _ _ _ _ _ Hp) as [Hn (exts' & ->)]. split; [done|]. by exists t0.
Qed.

(** Duplicates of an accepted party reach neither the hub nor the audit trail: with
    the lock held by another request, and equally once the cached transfer has its
    quote, the command fails with a client error and an empty trace, and leaves what
    Redis holds as it was, its own lock released. *)
Theorem duplicate_accept_party :
  forall S (server : RedisServer S) (json : Json) (env : Env S QuotesIDPutResponse) cfg key acceptParty amount exts src w,
  quiet env ->
  (is_Some (view (redis w) !! lockKey key) ->
     exists s, putAcceptParty env cfg key acceptParty amount exts src w = (mkWorld s (trace w),
       Err (fspiop_msg GENERIC_CLIENT_ERROR (js "Transfer " ++ key ++ js " is already being processed; ignoring duplicate request."))) /\
     view s = view (redis w)) /\
  (forall t q, view (redis w) !! lockKey key = None -> cached (redis w) key t -> quotes t = Some q ->
     exists s, putAcceptParty env cfg key acceptParty amount exts src w = (mkWorld s (trace w), Err (quote_completed key)) /\
     view s = view (redis w)).
Proof.
  intros S server json env cfg key acceptParty amount exts src w Hq. split; [|by intros; eapply duplicate_completed].
  pose proof (locked_run env key (acceptPartyLocked env cfg key acceptParty amount exts src) w) as H.
  rewrite (proj1 Hq), !(proj2 Hq) in H.
  pose proof (acquireLock_spec (uuid env) key IN_FLIGHT_LOCK_TTL_MS (redis w) ltac:(done)) as Ha.
  destruct (acquireLock None (uuid env) key IN_FLIGHT_LOCK_TTL_MS (redis w)) as [s r].
  intros [x Hx]. rewrite Hx in Ha. destruct Ha as [Hv ->]. by exists s.
Qed.

(** C2. A quote is accepted once: when accept-party succeeded, the cache has the
    transfer with the callback as its quote and the lock is free; and every later
    accept-party for the transfer, whatever its arguments, fails with a client error,
    without any effect and without any change to Redis, so that the next one meets
    the same state. *)
Theorem accept_party_once :
  forall S (server : RedisServer S) (json : Json) (env : Env S QuotesIDPutResponse) cfg key acceptParty amount exts src w w1 response cb,
  quiet env -> (forall t, EStore key t ∈ trace w1 -> JSON_parse (JSON_stringify t) = Ok t) ->
  putAcceptParty env cfg key acceptParty amount exts src w = (w1, Ok (response, cb)) ->
  view (redis w1) !! lockKey key = None /\
  (exists t, cached (redis w1) key t /\ quotes t = Some cb) /\
  (forall env2 cfg2 acceptParty2 amount2 exts2 src2, quiet env2 ->
     exists s2, putAcceptParty env2 cfg2 key acceptParty2 amount2 exts2 src2 w1 =
       (mkWorld s2 (trace w1), Err (quote_completed key)) /\ view s2 = view (redis w1)).
Proof.
  intros S server json env cfg key acceptParty amount exts src w w1 response cb Hq Hjson Hrun.
  destruct (acceptParty_cached env cfg key acceptParty amount exts src w w1 response cb Hq Hjson Hrun) as (Hl & t & Hc & Ht).
  split; [done|]. split; [by exists t|]. intros env2 cfg2 acceptParty2 amount2 exts2 src2 Hq2.
  by eapply duplicate_completed.
Qed.

(** C3. What is transferred is what was quoted: after an accept-party that succeeded
    with a quote, whatever transfer an accept-quote posts has the transfer amount, the
    packet, the condition and the expiration of that quote. *)
Theorem quote_to_transfer :
  forall S (server : RedisServer S) (json : Json) (env : Env S QuotesIDPutResponse) (env2 : Env S TransfersIDPutResponse)
    cfg cfg2 key acceptParty amount exts src acceptQuote src2 home w tr w1 response cb,
  quiet env -> quiet env2 -> (forall t, EStore key t ∈ trace w1 -> JSON_parse (JSON_stringify t) = Ok t) ->
  putAcceptParty env cfg key acceptParty amount exts src w = (w1, Ok (response, cb)) ->
  extends (putAcceptQuote env2 cfg2 key acceptQuote src2 home) (mkWorld (redis w1) tr) (fun l _ =>
    forall q, EHub q ∈ l -> tp_amount q = q_transferAmount cb /\ ilpPacket q = q_ilpPacket cb /\
      condition q = q_condition cb /\ expiration q = q_expiration cb /\ tp_transferId q = key).
Proof.
  intros S server json env env2 cfg cfg2 key acceptParty amount exts src acceptQuote src2 home w tr w1 response cb Hq Hq2 Hjson Hrun.
  destruct (acceptParty_cached env cfg key acceptParty amount exts src w w1 response cb Hq Hjson Hrun) as (Hl & t & Hc & Ht).
  apply locked_extends; [intros e q H; by apply elem_of_nil in H|].
  edestruct (acceptQuoteLocked_extends env2 cfg2 key acceptQuote src2 home) as (s & l & r & Hrun2 & Ho).
  exists s, l, r. split; [exact Hrun2|]. intros q Hin.
  destruct (accept_quote_hub _ _ _ _ _ _ _ _ _ Ho q Hin) as (_ & t' & source & destination & Hc' & Hs & Hp). cbn [redis] in Hc'.
  assert (t' = t) as ->.
  { eapply cached_fun; [|exact Hc|exact Hc']. rewrite (proj1 Hq2). exact (lock_taken_quiet env2 key (mkWorld (redis w1) tr) Hq2). }
  destruct (prepareTransfer_quotes _ _ _ _ _ Hp) as (x & Hx & ? & ? & ? & ? & ?).
  replace x with cb in * by (destruct home; cbn in Hx; congruence). done.
Qed.

(** The lock never outlives the request that took it: whatever runs under it and
    however it ends, after [locked] the token does not own the lock, where the release
    reaches Redis at all; a request that does not get the lock runs nothing. *)
Theorem locked_releases :
  forall S Q C A (server : RedisServer S) (env : Env S C) key (body : M S Q C A) w,
  (reaches (redisFault env SRelease) = true ->
   snd (acquireLock (redisFault env SAcquire) (uuid env) key IN_FLIGHT_LOCK_TTL_MS (meanwhile env SAcquire (redis w)))
     = Ok (Some (uuid env)) ->
   fst <$> view (redis (fst (locked env key body w))) !! lockKey key <> Some (uuid env)) /\
  (snd (acquireLock (redisFault env SAcquire) (uuid env) key IN_FLIGHT_LOCK_TTL_MS (meanwhile env SAcquire (redis w)))
     <> Ok (Some (uuid env)) ->
   trace (fst (locked env key body w)) = trace w /\ is_ok (snd (locked env key body w)) = false).
Proof.
  intros S Q C A server env key body w. pose proof (locked_run env key body w) as H.
  destruct (acquireLock _ _ _ _ _) as [s [[token|]|e]]; cbn [snd].
  - destruct H as [-> ->]. split; [|done]. intros Hr _. cbn [fst redis]. rewrite releaseLock_spec, Hr, andb_true_r.
    case_bool_decide as Hown; [|done]. by rewrite lookup_delete_eq.
  - rewrite H. by split.
  - rewrite H. by split.
Qed.

(** C4. The accept-quote command, for every state, failure and answer: it succeeds only
    for an accepted quote, with its full course of effects, and fails either before
    the request is audited, the cached transfer kept, or with the error message and
    the removal of the cached transfer. A transfer is posted only for an accepted
    quote, with the amount, packet, condition and expiration of the stored quote and
    the transfer's own id. *)
Theorem putAcceptQuote_course :
  forall S (server : RedisServer S) (json : Json) (env : Env S TransfersIDPutResponse) cfg key acceptQuote src home w,
  extends (putAcceptQuote env cfg key acceptQuote src home) w (fun l r =>
    let s := meanwhile env SGet (lock_taken env key w) in
    accept_quote_outcome env cfg s key acceptQuote src home l r /\
    (forall q, EHub q ∈ l -> acceptQuote = true /\ tp_transferId q = key /\
       exists t x, cached s key t /\ quotes (with_home home t) = Some x /\ transfer t = None /\ tp_amount q = q_transferAmount x /\
         ilpPacket q = q_ilpPacket x /\ condition q = q_condition x /\ expiration q = q_expiration x)).
Proof.
  intros S server json env cfg key acceptQuote src home w. apply locked_extends.
  { intros e. split; [by left|]. intros q H. by apply elem_of_nil in H. }
  edestruct (acceptQuoteLocked_extends env cfg key acceptQuote src home) as (s & l & r & Hrun & Ho).
  exists s, l, r. split; [exact Hrun|]. cbn [redis] in Ho. split; [done|]. clear Hrun. intros q Hin.
  destruct (accept_quote_hub _ _ _ _ _ _ _ _ _ Ho q Hin) as (Ha & t & source & destination & Hc & Hs & Hp).
  destruct (prepareTransfer_quotes _ _ _ _ _ Hp) as (x & Hx & ? & ? & ? & ? & ?).
  split; [done|]. split; [done|]. exists t, x. split; [done|]. split; [done|]. split; [by eapply prepareSource_transfer | done].
Qed.

(** No command ever stores a transfer that has its [transfer] member set: whatever
    the three commands write to the cache has it empty. So the guard of accept-quote
    against a transfer already completed never fires on what they stored. *)
Theorem stored_transfer_empty :
  forall S (server : RedisServer S) (json : Json) cfg,
  (forall (env : Env S Party) correlation source request createdAt w,
     extends (postSendMoney env cfg correlation source request createdAt) w
       (fun l _ => forall k t, EStore k t ∈ l -> k = correlation /\ transfer t = None /\ quotes t = None)) /\
  (forall (env : Env S QuotesIDPutResponse) key acceptParty amount exts src w,
     extends (putAcceptParty env cfg key acceptParty amount exts src) w
       (fun l _ => forall k t, EStore k t ∈ l -> k = key /\ transfer t = None /\ exists cb, callback env = Ok cb /\ quotes t = Some cb)) /\
  (forall (env : Env S TransfersIDPutResponse) key acceptQuote src home w,
     extends (putAcceptQuote env cfg key acceptQuote src home) w
       (fun l _ => forall k t, EStore k t ∈ l -> k = key /\ transfer t = None)).
Proof.
  intros S server json cfg. split; [|split].
  - intros env correlation source request createdAt w.
    destruct (postSendMoney_extends env cfg correlation source request createdAt w) as (s & l & r & Hrun & Ho).
    exists s, l, r. split; [done|]. clear Hrun. intros k t Hin.
    assert (EStore k t ∈ post_course env cfg correlation source request createdAt) as H.
    { destruct r as [[response party]|e].
      - by destruct Ho as (? & ? & ? & ? & ? & -> & ?).
      - destruct Ho as [[-> _]|(e0 & _ & Hf)]; [by apply elem_of_nil in Hin|].
        apply (failed_elem _ _ _ _ _ _ Hf) in Hin as [?|Hin]; [done|]. unfold cleanup in Hin. set_solver. }
    unfold post_course in H. destruct (callback env) as [p|]; [|set_solver].
    destruct (resolveDestination p _) as [[resolved party]|]; [|set_solver].
    assert (k = correlation /\ t = toTransferRequest request party correlation createdAt) as [-> ->] by set_solver. done.
  - intros env key acceptParty amount exts src w. apply locked_extends; [set_solver|].
    edestruct (acceptPartyLocked_extends env cfg key acceptParty amount exts src) as (s & l & r & Hrun & Ho).
    exists s, l, r. split; [exact Hrun|]. clear Hrun. intros k t Hin.
    assert (exists t0 source destination q, EStore k t ∈ accept_party_course env key source destination q t0) as (t0 & source & destination & q & H).
    { destruct r as [[response cb]|e].
      - destruct Ho as (_ & _ & ? & t0 & source & destination & q & _ & _ & -> & _). eauto.
      - destruct Ho as [->|(? & t0 & source & destination & q & e0 & _ & _ & [[_ Hf]| ->] & _)]; [by apply elem_of_nil in Hin| |set_solver].
        exists t0, source, destination, q. apply (failed_elem _ _ _ _ _ _ Hf) in Hin as [?|Hin]; [done|]. unfold cleanup in Hin. set_solver. }
    unfold accept_party_course in H. destruct (callback env) as [cb|]; [|set_solver].
    assert (k = key /\ t = with_transfer None (with_quotes (Some cb) t0)) as [-> ->] by set_solver. eauto.
  - intros env key acceptQuote src home w. apply locked_extends; [set_solver|].
    edestruct (acceptQuoteLocked_extends env cfg key acceptQuote src home) as (s & l & r & Hrun & Ho).
    exists s, l, r. split; [exact Hrun|]. clear Hrun. intros k t Hin.
    assert (forall source destination q, EStore k t ∉ accept_quote_course env key source destination q) as Hno.
    { intros source destination q H. unfold accept_quote_course in H. destruct (callback env); set_solver. }
    assert (exists t0 source, prepareSource key src t0 = Ok source /\ EStore k t ∈ home_stored key home t0) as (t0 & source & Hs & H).
    { destruct r as [[response cb]|e].
      - destruct Ho as (_ & _ & t0 & source & destination & q & _ & Hs & _ & -> & _). exists t0, source. split; [done|].
        apply elem_of_app in Hin as [?|Hin]; [done | by apply Hno in Hin].
      - destruct Ho as [->|(t0 & source & _ & Hs & [->|(destination & q & e0 & l' & _ & -> & Hl & _)])].
        + by apply elem_of_nil in Hin.
        + eauto.
        + exists t0, source. split; [done|]. apply elem_of_app in Hin as [?|Hin]; [done|]. exfalso.
          destruct Hl as [[_ Hf]| ->]; [|set_solver].
          apply (failed_elem _ _ _ _ _ _ Hf) in Hin as [Hin|Hin]; [by apply Hno in Hin|]. unfold cleanup in Hin. set_solver. }
    apply prepareSource_transfer in Hs. destruct home as [h|]; cbn in H; [|by apply elem_of_nil in H].
    apply list_elem_of_singleton in H. by injection H as -> ->.
Qed.

(** The send-money command, for every failure and answer: it succeeds with its full
    course of effects, the party it returns and audits naming the destination it
    resolved; it throws without any effect exactly where the amount has too many
    decimals; and any other failure ends with the error message and the removal of the
    transfer, the caller getting the translated exception. *)
Theorem postSendMoney_course :
  forall S (server : RedisServer S) (json : Json) (env : Env S Party) cfg correlation source request createdAt w,
  extends (postSendMoney env cfg correlation source request createdAt) w
    (post_outcome env cfg correlation source request createdAt).
Proof. intros S server json env cfg correlation source request createdAt w. apply postSendMoney_extends. Qed.

(** ** Witnesses *)

Definition example_env {X : Type} (answer : X) : Env keyspace X :=
  mkEnv (fun _ s => s) (fun _ => None) (fun _ => None) None (Ok tt) (Ok answer) (js "token").

Definition example_party (fsp : string) : Party :=
  mkParty (mkPartyIdInfo (js "MSISDN") (js "1") None (Some (js fsp)) None) None None None None.

Definition example_fsp_party : FspParty :=
  mkFspParty None (js "MSISDN") (js "1") None None None None None None None None None.

Definition example_transfer : TransferRequest :=
  mkTransferRequest (example_party "a") (example_party "b") None None (js "t") [] []
    example_fsp_party example_fsp_party (js "SEND") (js "USD") (js "2") (js "TRANSFER") [] None None.

Definition example_quote : QuotesIDPutResponse :=
  mkQuotesIDPutResponse (Some (mkMoney (js "USD") (js "1.5"))) None (Some (mkMoney (js "USD") (js "0.5"))) None
    (js "2030") (js "packet") (js "condition") None.

Definition example_quoted : TransferRequest := with_quotes (Some example_quote) (with_amount (js "1.5") example_transfer).

(** A JSON codec of the two texts the example caches. *)
Definition example_json : Json := {|
  JSON_stringify := fun t => match quotes t with Some _ => js "quoted" | None => js "new" end;
  JSON_parse := fun txt => if bool_decide (txt = js "new") then Ok example_transfer
                           else if bool_decide (txt = js "quoted") then Ok example_quoted else Err (TError (js "json")) |}.

Definition example_settings : Settings := mkSettings 2 false (mkMonitor 60000 3 true [PAYER_ID_VALUE]) 60000 (js "hub").

Definition example_world (text : string) : World keyspace QuotesPostRequest QuotesIDPutResponse :=
  mkWorld (<[js "t" := (js text, Some 60000)]> ∅) [].

(** Accepting the party of the example: what it leaves and its outcome. *)
Definition example_accepted := putAcceptParty (json := example_json) (example_env example_quote) example_settings
  (js "t") true (js "1.50") None None (example_world "new").

Lemma example_quiet {X} (answer : X) : quiet (example_env answer).
Proof. by split. Qed.

Lemma example_stored t : EStore (js "t") t ∈ trace (fst example_accepted) ->
  JSON_parse (Json := example_json) (JSON_stringify (Json := example_json) t) = Ok t.
Proof.
  assert (exists a b c d, trace (fst example_accepted) = [a; b; c; EStore (js "t") example_quoted; d] /\
    (forall k x, EStore k x <> a) /\ (forall k x, EStore k x <> b) /\ (forall k x, EStore k x <> c) /\ (forall k x, EStore k x <> d))
    as (a & b & c & d & -> & Ha & Hb & Hc & Hd).
  { vm_compute. do 4 eexists. split; [reflexivity|]. repeat split; discriminate. }
  intros [H|[H|[H|[H|[H|H]%elem_of_cons]%elem_of_cons]%elem_of_cons]%elem_of_cons]%elem_of_cons.
  - by apply Ha in H.
  - by apply Hb in H.
  - by apply Hc in H.
  - injection H as ->. vm_compute. reflexivity.
  - by apply Hd in H.
  - by apply elem_of_nil in H.
Qed.

Lemma accept_party_once_witness :
  exists w1 response cb s2, example_accepted = (w1, Ok (response, cb)) /\
  putAcceptParty (json := example_json) (example_env example_quote) example_settings (js "t") false [] None None w1 =
    (mkWorld s2 (trace w1), Err (quote_completed (js "t"))).
Proof.
  destruct example_accepted as [w1 [[response cb]|e]] eqn:H; [|exfalso; revert H; vm_compute; discriminate].
  destruct (proj2 (proj2 (accept_party_once keyspace keyspace_server example_json (example_env example_quote) example_settings
    (js "t") true (js "1.50") None None (example_world "new") w1 response cb (example_quiet _)
    ltac:(intros t Ht; apply example_stored; by rewrite H) H))
    (example_env example_quote) example_settings false [] None None (example_quiet _)) as (s2 & Hs & _).
  by exists w1, response, cb, s2.
Defined.

Lemma quote_to_transfer_witness :
  exists w1 response cb, example_accepted = (w1, Ok (response, cb)) /\
  extends (putAcceptQuote (json := example_json)
      (example_env (mkTransfersIDPutResponse None None Committed None)) example_settings (js "t") true None None)
    (mkWorld (redis w1) []) (fun l _ => forall q, EHub q ∈ l -> tp_amount q = q_transferAmount cb /\ ilpPacket q = q_ilpPacket cb /\
      condition q = q_condition cb /\ expiration q = q_expiration cb /\ tp_transferId q = js "t").
Proof.
  destruct example_accepted as [w1 [[response cb]|e]] eqn:H; [|exfalso; revert H; vm_compute; discriminate].
  exists w1, response, cb. split; [done|].
  apply (quote_to_transfer keyspace keyspace_server example_json (example_env example_quote)
    (example_env (mkTransfersIDPutResponse None None Committed None)) example_settings example_settings
    (js "t") true (js "1.50") None None true None None (example_world "new") [] w1 response cb
    (example_quiet _) (example_quiet _) ltac:(intros t Ht; apply example_stored; by rewrite H) H).
Defined.

Lemma duplicate_accept_party_witness :
  exists s, putAcceptParty (json := example_json) (example_env example_quote) example_settings
      (js "t") true (js "1") None None (example_world "quoted") =
      (mkWorld s [], Err (quote_completed (js "t"))) /\
    view s = view (redis (example_world "quoted")).
Proof.
  apply (proj2 (duplicate_accept_party keyspace keyspace_server example_json (example_env example_quote)
    example_settings (js "t") true (js "1") None None (example_world "quoted") (example_quiet _))
    example_quoted example_quote).
  - vm_compute. reflexivity.
  - exists (js "quoted"), (Some 60000). split; vm_compute; reflexivity.
  - reflexivity.
Defined.

Lemma locked_releases_witness :
  fst <$> view (redis (fst (locked (example_env example_quote) (js "t")
    (ret (Q := QuotesPostRequest) tt) (example_world "new")))) !! lockKey (js "t") <> Some (js "token").
Proof.
  apply (proj1 (locked_releases keyspace QuotesPostRequest QuotesIDPutResponse unit keyspace_server
    (example_env example_quote) (js "t") (ret tt) (example_world "new"))).
  - reflexivity.
  - vm_compute. reflexivity.
Defined.
