(* ===== verification/Connector.v ===== *)
(** * The connector of a payee

    shared/interledger/component/interledger.ts and core/connector/domain/component:
    [Interledger], [ConnectorSettings], [FspConnectorValidation] and [FspConnector]. The
    back office ([FspClient]) is an argument, as are hashing, the encodings of node's
    Buffer and the package ilp-packet, whose laws are the class [IlpLibrary]. *)

From S2P Require Import Prelude Errors Dates Currencies Money Transfer.

(** ** Interledger *)

(** [IlpPacket.IlpPrepare]; bytes are strings, an invalid Date is [None]. *)
Record IlpPrepare : Set := mkIlpPrepare {
  ilp_amount : jsstr; executionCondition : jsstr; expiresAt : option Z; destination : jsstr; ilp_data : jsstr }.

Definition with_expiresAt (t : option Z) (p : IlpPrepare) : IlpPrepare :=
  mkIlpPrepare (ilp_amount p) (executionCondition p) t (destination p) (ilp_data p).

(** What the code relies on: a packet that is written for an amount in digits and a date of
    four digits is not empty and reads back, and whether one can be written does not depend
    on which such date it has; the encodings are inverse and keep texts that are not empty. *)
Class IlpLibrary : Type := {
  sha256 : jsstr -> jsstr;
  utf8 : jsstr -> jsstr; from_utf8 : jsstr -> jsstr;
  base64url : jsstr -> jsstr; from_base64url : jsstr -> jsstr;
  serializeIlpPrepare : IlpPrepare -> result thrown jsstr;
  deserializeIlpPrepare : jsstr -> result thrown IlpPrepare;
  sha256_nonempty b : sha256 b <> [];
  from_utf8_utf8 s : from_utf8 (utf8 s) = s;
  from_base64url_padded b n : from_base64url (base64url b ++ replicate n "="%char) = b;
  base64url_text b n : b <> [] -> trim (base64url b ++ replicate n "="%char) <> [];
  serialize_reads p n t b : ilp_amount p = dec_print n -> 0 <= n <= UINT64_MAX -> expiresAt p = Some t -> 0 <= t < MAX_ISO ->
    serializeIlpPrepare p = Ok b -> b <> [] /\ deserializeIlpPrepare b = Ok p;
  serialize_dated p t u b : expiresAt p = Some t -> 0 <= t < MAX_ISO -> 0 <= u < MAX_ISO ->
    serializeIlpPrepare p = Ok b -> exists b', serializeIlpPrepare (with_expiresAt (Some u) p) = Ok b' }.

(** [new Date(time)]: a time out of range is NaN. *)
Definition new_Date (time : Z) : option Z := if Z.abs time <=? 8640000000000000 then Some time else None.

Record Prepare : Set := mkPrepare { base64PreparePacket : jsstr; prep_base64Fulfillment : jsstr; base64Condition : jsstr }.
Record Fulfill : Set := mkFulfill { valid : bool; base64Fulfillment : option jsstr }.

(** The value of a letter as a digit. *)
Definition radix_digit (c : ascii) : option Z :=
  let n := Z.of_N (code c) in
  if (48 <=? n) && (n <=? 57) then Some (n - 48)
  else if (97 <=? n) && (n <=? 122) then Some (n - 87)
  else if (65 <=? n) && (n <=? 90) then Some (n - 55) else None.
Fixpoint radix_value (base acc : Z) (s : jsstr) : option Z :=
  match s with
  | [] => Some acc
  | c :: s => match radix_digit c with
              | Some d => if d <? base then radix_value base (acc * base + d) s else None
              | None => None
              end
  end.
Definition radix_text (base : Z) (s : jsstr) : option Z := match s with [] => None | _ => radix_value base 0 s end.
(** [BigInt(text)]; a text that is no number is [None]. *)
Definition BigInt (text : jsstr) : option Z :=
  match trim text with
  | [] => Some 0
  | c :: s =>
      if bool_decide (c = "-"%char) then Z.opp <$> radix_text 10 s
      else if bool_decide (c = "+"%char) then radix_text 10 s
      else match s with
           | x :: ds =>
               if bool_decide (c = "0"%char) && existsb (fun y => bool_decide (x = y)) ["x"%char; "X"%char] then radix_text 16 ds
               else if bool_decide (c = "0"%char) && existsb (fun y => bool_decide (x = y)) ["o"%char; "O"%char] then radix_text 8 ds
               else if bool_decide (c = "0"%char) && existsb (fun y => bool_decide (x = y)) ["b"%char; "B"%char] then radix_text 2 ds
               else radix_text 10 (c :: s)
           | [] => radix_text 10 [c]
           end
  end.

Section interledger.
  Context {lib : IlpLibrary}.

Definition address (peer : jsstr) : jsstr := js "g." ++ peer.
Definition base64Decode (data : jsstr) : jsstr := from_base64url data.
Definition base64Encode (data : jsstr) (padding : bool) : jsstr :=
  let encoded := base64url data in
  if negb padding then encoded else encoded ++ replicate ((4 - length encoded mod 4) mod 4) "="%char.

Definition preimage_text (ilpSecret : jsstr) (amount : Z) (dest data : jsstr) : jsstr :=
  ilpSecret ++ js ":" ++ bigint_text amount ++ js ":" ++ dest ++ js ":" ++ data.
Definition preimage (ilpSecret : jsstr) (amount : Z) (dest data : jsstr) : jsstr :=
  sha256 (utf8 (preimage_text ilpSecret amount dest data)).

Definition preparePacket (ilpSecret peer : jsstr) (amount : Z) (data : jsstr) (expireAt : Z) : IlpPrepare :=
  mkIlpPrepare (bigint_text amount) (sha256 (preimage ilpSecret amount peer data)) (new_Date expireAt) peer (utf8 data).
Definition prepare (ilpSecret peer : jsstr) (amount : Z) (data : jsstr) (expireAt : Z) : result thrown Prepare :=
  let preimage := preimage ilpSecret amount peer data in
  let! serialized := serializeIlpPrepare (preparePacket ilpSecret peer amount data expireAt) in
  Ok (mkPrepare (base64Encode serialized true) (base64Encode preimage false) (base64Encode (sha256 preimage) false)).

Definition fulfil (ilpSecret peer : jsstr) (amount : Z) (data condition : jsstr) (lifetimeSeconds : Z) : result thrown Fulfill :=
  let! fulfilmentPacket := prepare ilpSecret peer amount data lifetimeSeconds in
  Ok (mkFulfill (bool_decide (base64Condition fulfilmentPacket = condition)) (Some (prep_base64Fulfillment fulfilmentPacket))).

Definition unwrap (base64Packet : jsstr) : result thrown IlpPrepare := deserializeIlpPrepare (base64Decode base64Packet).
End interledger.

(** ** The connector's data *)

Record ConnectorSettings : Set := mkConnectorSettings {
  connectorId : jsstr; connectorCurrencies : list jsstr; ilpSecret : jsstr }.
Definition isCurrencySupported (cfg : ConnectorSettings) (c : jsstr) : bool := bool_decide (c ∈ connectorCurrencies cfg).

(** [QuotesPostRequest] as a connector receives it, which nothing has validated. *)
Record QuoteRequest : Set := mkQuoteRequest {
  qr_quoteId : jsstr; qr_transactionId : option jsstr; qr_transactionRequestId : option jsstr;
  qr_payer : option PartyIdInfo; qr_payee : option PartyIdInfo; qr_amountType : jsstr; qr_amount : option Money;
  qr_fees : option Money; qr_scenario : option jsstr; qr_subScenario : option jsstr;
  qr_extensionList : option ExtensionList }.

(** [FspiopAgreement] *)
Record FspiopAgreement : Set := mkFspiopAgreement {
  ag_quoteId : jsstr; ag_payer : PartyIdInfo; ag_payee : PartyIdInfo; ag_amountType : jsstr; ag_scenario : jsstr;
  ag_subScenario : option jsstr; originalAmount : option Money; ag_payeeFspFee : Money; ag_payeeFspCommission : Money;
  ag_payeeReceiveAmount : Money; ag_transferAmount : Money; ag_expireAt : Z }.

(** What a back office throws, and what the code throws: an [FspClientException], an object
    of another class, an error of this code or its libraries. *)
Inductive failure : Set :=
  | Raised (t : thrown)
  | FspClientException (code description : jsstr)
  | ForeignObject (is_error : bool) (name code message description : jsstr).

(** [FspClient.PostQuotesOutput] *)
Record PostQuotesOutput : Set := mkPostQuotesOutput {
  o_transferAmount : option Money; o_payeeReceiveAmount : option Money; o_fees : option ExtensionList }.

(** [FspClient]: its methods, and a call of one as the connector makes it. *)
Inductive FspCall : Set :=
  | CallParties (idType id : jsstr) (subId : option jsstr)
  | CallQuotes (scenario : jsstr) (subScenario : option jsstr) (amountType : jsstr) (amount payerFspFee : option Money)
      (extensions : option ExtensionList)
  | CallTransfers (transferId : jsstr) (amount : Money) (payee : Party)
  | CallPatch (payerFsp payeeFsp transferId : jsstr) (state : TransferState).
Record FspClient : Type := mkFspClient {
  client_parties : FspCall -> result failure Party; client_quotes : FspCall -> result failure PostQuotesOutput;
  client_transfers : FspCall -> result failure TransfersIDPutResponse; client_patch : FspCall -> result failure unit }.

(** ** FspConnectorValidation *)

(** What a connector throws for a member it misses or a currency it has not. *)
Definition required (what : string) : thrown := fspiop MISSING_MANDATORY_ELEMENT (what ++ " is required").
Definition currency_not_supported (cfg : ConnectorSettings) (c : jsstr) : thrown :=
  fspiop_msg PAYEE_UNSUPPORTED_CURRENCY
    (js "Currency " ++ c ++ js " is not supported by connector " ++ connectorId cfg).
Definition unsupported_currency (c : jsstr) : thrown := fspiop_msg PAYEE_UNSUPPORTED_CURRENCY (js "Unsupported currency " ++ c).

(** The text of a member is there and not blank; a missing one is the empty text here. *)
Definition blank_text (s : jsstr) : bool := (length (trim s) =? 0)%nat.

Section validation.
  Context {lib : IlpLibrary} {dates : JsDates} (cfg : ConnectorSettings).

(** [validatePostQuotesRequest], which normalises the amounts of the request; an amount
    without a currency is none here. *)
Definition validatePostQuotesRequest (r : QuoteRequest) : QuoteRequest * result thrown unit :=
  match qr_amount r with
  | None => (r, Err (required "postQuotesRequest.amount.currency"))
  | Some m =>
      if negb (isCurrencySupported cfg (money_currency m)) then (r, Err (currency_not_supported cfg (money_currency m)))
      else
        let '(amount, checked) := validate (Some m) in
        let r := mkQuoteRequest (qr_quoteId r) (qr_transactionId r) (qr_transactionRequestId r) (qr_payer r) (qr_payee r)
                   (qr_amountType r) amount (qr_fees r) (qr_scenario r) (qr_subScenario r) (qr_extensionList r) in
        match checked with
        | Err e => (r, Err e)
        | Ok _ =>
            let '(fees, checked) := validate (qr_fees r) in
            (mkQuoteRequest (qr_quoteId r) (qr_transactionId r) (qr_transactionRequestId r) (qr_payer r) (qr_payee r)
               (qr_amountType r) (qr_amount r) fees (qr_scenario r) (qr_subScenario r) (qr_extensionList r), checked)
        end
  end.

(** [validatePostQuotesOutput], with the amounts it normalises. *)
Definition validatePostQuotesOutput (o : PostQuotesOutput) : result thrown (Money * Money) :=
  match o_transferAmount o, o_payeeReceiveAmount o with
  | None, _ => Err (fspiop INTERNAL_SERVER_ERROR "FspClient.postQuotes returned empty transferAmount")
  | _, None => Err (fspiop INTERNAL_SERVER_ERROR "FspClient.postQuotes returned empty payeeReceiveAmount")
  | Some transferAmount, Some payeeReceiveAmount =>
      let! _ := throw_if (negb (isCurrencySupported cfg (money_currency transferAmount)))
        (currency_not_supported cfg (money_currency transferAmount)) in
      let! _ := throw_if (negb (str_eqb (money_currency transferAmount) (money_currency payeeReceiveAmount)))
        (fspiop GENERIC_VALIDATION_ERROR "transferAmount.currency and payeeReceiveAmount.currency must match.") in
      let '(t, checked) := validate (Some transferAmount) in
      let! _ := checked in
      let '(p, checked) := validate (Some payeeReceiveAmount) in
      let! _ := checked in
      Ok (default transferAmount t, default payeeReceiveAmount p)
  end.

Definition with_tp_amount (m : option Money) (r : TransfersPostRequest) : TransfersPostRequest :=
  mkTransfersPostRequest (tp_transferId r) (payerFsp r) (payeeFsp r) m (ilpPacket r) (condition r) (expiration r)
    (tp_extensionList r).

(** [validatePostTransfersRequest], which normalises the amount of the request. *)
Definition validatePostTransfersRequest (r : TransfersPostRequest) : TransfersPostRequest * result thrown unit :=
  let checked :=
    let! _ := throw_if (blank_text (tp_transferId r)) (required "postTransferRequest.transferId") in
    let! _ := throw_if (blank_text (payeeFsp r)) (required "postTransferRequest.payeeFsp") in
    let! transferAmount := match tp_amount r with Some m => Ok m | None => Err (required "postTransferRequest.amount") end in
    let! _ := throw_if (negb (isCurrencySupported cfg (money_currency transferAmount)))
      (currency_not_supported cfg (money_currency transferAmount)) in
    let! _ := throw_if (blank_text (ilpPacket r)) (required "postTransferRequest.ilpPacket") in
    let! _ := throw_if (blank_text (condition r)) (required "postTransferRequest.condition") in
    throw_if (blank_text (expiration r)) (required "postTransferRequest.expiration") in
  match checked with
  | Err e => (r, Err e)
  | Ok _ => let '(m, checked) := validate (tp_amount r) in (with_tp_amount m r, checked)
  end.

(** [validateAndUnwrapTransferIlpPacket] *)
Definition validateAndUnwrapTransferIlpPacket (now : Z) (r : TransfersPostRequest) : result thrown IlpPrepare :=
  let m := default (mkMoney [] []) (tp_amount r) in
  match get (money_currency m) with
  | None => Err (unsupported_currency (money_currency m))
  | Some currencyProfile =>
      let! ilpPrepare :=
        match unwrap (ilpPacket r) with
        | Ok p => Ok p
        | Err _ => Err (fspiop GENERIC_VALIDATION_ERROR "postTransferRequest.ilpPacket is invalid")
        end in
      let! ilpPacketAmount :=
        match BigInt (ilp_amount ilpPrepare) with
        | Some n => Ok n
        | None => Err (fspiop GENERIC_VALIDATION_ERROR "ILP packet amount is invalid")
        end in
      let! transferAmount := serialize (money_amount m) (Currencies.scale currencyProfile) HalfUp in
      let! _ := throw_if (negb (ilpPacketAmount =? transferAmount))
        (fspiop MODIFIED_REQUEST "Transfer amount and ILP packet amount must be the same") in
      let! requestExpirationEpoch :=
        match Date_parse (expiration r) with
        | Some t => Ok t
        | None => Err (fspiop GENERIC_VALIDATION_ERROR "postTransferRequest.expiration is invalid")
        end in
      let! ilpPacketExpirationEpoch :=
        match expiresAt ilpPrepare with
        | Some t => Ok t
        | None => Err (fspiop GENERIC_VALIDATION_ERROR "ILP packet expiration is invalid")
        end in
      let! _ := throw_if (negb (requestExpirationEpoch =? ilpPacketExpirationEpoch))
        (fspiop MODIFIED_REQUEST "Transfer expiration and ILP packet expiration must be the same") in
      let! _ := throw_if (requestExpirationEpoch <=? now) (fspiop TRANSFER_EXPIRED "Transfer already expired") in
      Ok ilpPrepare
  end.
End validation.

(** ** FspConnector *)

Definition FIFTEEN_MINUTES : Z := 900.

Section connector.
  Context {lib : IlpLibrary} {dates : JsDates} (agreement_JSON : FspiopAgreement -> jsstr).
  Context (cfg : ConnectorSettings) (client : FspClient).

Definition resolveLifetimeSeconds (now : Z) (expiration : jsstr) : Z :=
  match Date_parse expiration with
  | None => FIFTEEN_MINUTES
  | Some expiresAt => Z.max 1 ((expiresAt - now) / 1000)
  end.

Definition toZeroMoney (currency : jsstr) : Money := mkMoney currency (js "0").

Definition lift_js {A} (r : result thrown A) : result failure A := match r with Ok a => Ok a | Err e => Err (Raised e) end.

Definition getParties (idType id : jsstr) (subId : option jsstr) : list FspCall * result failure Party :=
  let call := CallParties idType id subId in ([call], client_parties client call).

Definition toAgreement (r : QuoteRequest) (transferAmount payeeReceiveAmount : Money) (expireAt : Z)
    : result thrown FspiopAgreement :=
  match qr_payer r, qr_payee r, qr_scenario r with
  | Some payer, Some payee, Some scenario =>
      Ok (mkFspiopAgreement (qr_quoteId r) payer payee (qr_amountType r) scenario (qr_subScenario r) (qr_amount r)
            (toZeroMoney (money_currency transferAmount)) (toZeroMoney (money_currency transferAmount))
            payeeReceiveAmount transferAmount expireAt)
  | _, _, _ => Err (fspiop MISSING_MANDATORY_ELEMENT "payer.partyIdInfo, payee.partyIdInfo and transactionType.scenario are required")
  end.

(** What [postQuotes] makes of the answer of the back office. *)
Definition quoteResponse (now : Z) (r : QuoteRequest) (o : PostQuotesOutput) : result thrown QuotesIDPutResponse :=
  let! amounts := validatePostQuotesOutput cfg o in
  let '(transferAmount, receiveAmount) := amounts in
  match get (money_currency transferAmount) with
  | None => Err (unsupported_currency (money_currency transferAmount))
  | Some currencyProfile =>
      let! transferAmountMinor := serialize (money_amount transferAmount) (Currencies.scale currencyProfile) HalfUp in
      let expireAt := now + FIFTEEN_MINUTES * 1000 in
      let! agreement := toAgreement r transferAmount receiveAmount expireAt in
      let! prepared := prepare (ilpSecret cfg) (address (connectorId cfg)) transferAmountMinor (agreement_JSON agreement) expireAt in
      Ok (mkQuotesIDPutResponse (Some transferAmount) (Some receiveAmount)
            (Some (toZeroMoney (money_currency transferAmount))) (Some (toZeroMoney (money_currency transferAmount)))
            (forRequestBody expireAt) (base64PreparePacket prepared) (base64Condition prepared)
            (match o_fees o with Some (_ :: _) => o_fees o | _ => None end))
  end.

(** [postQuotes]: the request as it leaves it, the calls made, and what it returns. *)
Definition postQuotes (now : Z) (r : QuoteRequest) : QuoteRequest * list FspCall * result failure QuotesIDPutResponse :=
  let '(r, checked) := validatePostQuotesRequest cfg r in
  match checked with
  | Err e => (r, [], Err (Raised e))
  | Ok _ =>
      match qr_scenario r with
      | None => (r, [], Err (Raised (required "postQuotesRequest.transactionType.scenario")))
      | Some scenario =>
          let call := CallQuotes scenario (qr_subScenario r) (qr_amountType r) (qr_amount r) (qr_fees r) (qr_extensionList r) in
          (r, [call], match client_quotes client call with Ok o => lift_js (quoteResponse now r o) | Err e => Err e end)
      end
  end.

(** [fulfilTransfer]; the amount of the packet has been read before. *)
Definition fulfilTransfer (now : Z) (r : TransfersPostRequest) (ilpPrepare : IlpPrepare) : result thrown Fulfill :=
  fulfil (ilpSecret cfg) (destination ilpPrepare) (default 0 (BigInt (ilp_amount ilpPrepare))) (from_utf8 (ilp_data ilpPrepare))
    (condition r) (resolveLifetimeSeconds now (expiration r)).

(** The party of a transfer: nothing but its participant. *)
Definition transferPayee (fsp : jsstr) : Party := mkParty (mkPartyIdInfo [] [] None (Some fsp) None) None None None None.

(** What [postTransfers] makes of the answer of the back office. *)
Definition transferResponse (f : Fulfill) (response : TransfersIDPutResponse) : TransfersIDPutResponse :=
  mkTransfersIDPutResponse (if valid f then base64Fulfillment f else None) (completedTimestamp response)
    (if valid f then transferState response else Aborted) (t_extensionList response).

(** [postTransfers]; [now] and [later] are its two readings of the clock. *)
Definition postTransfers (now later : Z) (r : TransfersPostRequest)
    : TransfersPostRequest * list FspCall * result failure TransfersIDPutResponse :=
  let '(r, checked) := validatePostTransfersRequest cfg r in
  let fulfilment :=
    let! _ := checked in
    let! ilpPrepare := validateAndUnwrapTransferIlpPacket now r in
    fulfilTransfer later r ilpPrepare in
  match fulfilment with
  | Err e => (r, [], Err (Raised e))
  | Ok f =>
      let call := CallTransfers (tp_transferId r) (default (mkMoney [] []) (tp_amount r)) (transferPayee (payeeFsp r)) in
      (r, [call], match client_transfers client call with Ok response => Ok (transferResponse f response) | Err e => Err e end)
  end.

Definition patchTransfers (payerFsp payeeFsp transferId : jsstr) (state : TransferState) : list FspCall * result failure unit :=
  let call := CallPatch payerFsp payeeFsp transferId state in ([call], client_patch client call).
End connector.

(** * Lemmas *)

(** ** Numbers and texts *)

Lemma trimStart_nil s : trimStart s = [] -> Forall (fun c => is_ws c = true) s.
Proof. induction s as [|c s IH]; cbn; [by constructor|]. destruct (is_ws c) eqn:E; [|done]. intros H. constructor; auto. Qed.

Lemma trim_nonblank c s : c ∈ s -> is_ws c = false -> trim s <> [].
Proof.
  intros Hin Hc Ht. unfold trim, trimEnd in Ht. apply (f_equal reverse) in Ht. rewrite reverse_involutive in Ht.
  apply trimStart_nil in Ht. apply Forall_reverse in Ht. rewrite reverse_involutive in Ht.
  assert (Hc' : c ∈ trimStart s).
  { clear Ht. induction s as [|d s IH]; [done|]. cbn. destruct (is_ws d) eqn:E; [|done].
    apply elem_of_cons in Hin as [->|Hin]; [congruence|auto]. }
  apply (proj1 (Forall_forall _ _) Ht) in Hc'. congruence.
Qed.

Lemma blank_text_false s : trim s <> [] -> blank_text s = false.
Proof. unfold blank_text. destruct (trim s); [done|reflexivity]. Qed.

Lemma digit_radix c : is_digit c = true -> radix_digit c = Some (digit_val c) /\ digit_val c < 10.
Proof.
  intros Hc. pose proof (is_digit_val c Hc). unfold radix_digit, digit_val in *.
  destruct (Z.leb_spec 48 (Z.of_N (code c))); [|lia]. destruct (Z.leb_spec (Z.of_N (code c)) 57); [|lia]. cbn. split; [done|lia].
Qed.

Lemma radix_digits acc s : all_digits s -> radix_value 10 acc s = Some (acc * 10 ^ Z.of_nat (length s) + dec_value s).
Proof.
  intros Hs. revert acc. induction Hs as [|c s Hc Hs IH]; intros acc; [cbn; f_equal; lia|]. cbn [radix_value].
  destruct (digit_radix c Hc) as [-> Hlt]. rewrite (proj2 (Z.ltb_lt _ _) Hlt), IH, dec_value_cons. f_equal.
  rewrite length_cons, Nat2Z.inj_succ, Z.pow_succ_r by lia. lia.
Qed.

Lemma BigInt_print n : 0 <= n -> BigInt (dec_print n) = Some n.
Proof.
  intros Hn. destruct (dec_print_spec n Hn) as (Hd & Hv & Hne). unfold BigInt.
  rewrite trim_no_ws by by apply all_digits_no_ws. destruct (dec_print n) as [|c s]; [done|].
  pose proof Hd as Hd'. apply Forall_cons in Hd' as [Hc Hs].
  assert (Hr : radix_text 10 (c :: s) = Some n) by (unfold radix_text; by rewrite radix_digits, Z.mul_0_l, Hv).
  rewrite !bool_decide_false by (intros ->; by vm_compute in Hc). destruct s as [|x ds]; [done|]. apply Forall_cons in Hs as [Hx _].
  cbn [existsb]. rewrite !(bool_decide_false (x = _)) by (intros ->; by vm_compute in Hx). by rewrite !andb_false_r.
Qed.

Lemma colon_digits s t s' t' : all_digits s -> all_digits s' -> s ++ ":"%char :: t = s' ++ ":"%char :: t' -> s = s' /\ t = t'.
Proof.
  intros Hs Hs'. revert s' Hs'. induction Hs as [|c s Hc Hs IH]; intros [|c' s'] Hs' Heq; inversion Heq; subst.
  - done.
  - apply Forall_cons in Hs' as [Hc' _]. by vm_compute in Hc'.
  - by vm_compute in Hc.
  - apply Forall_cons in Hs' as [_ Hs']. destruct (IH s' Hs') as [-> ->]; done.
Qed.

Section library.
  Context {lib : IlpLibrary} {dates : JsDates}.

Lemma base64url_inj a b : base64url a = base64url b -> a = b.
Proof.
  intros H. apply (f_equal from_base64url) in H.
  pose proof (from_base64url_padded a 0) as Ha. pose proof (from_base64url_padded b 0) as Hb. cbn in Ha, Hb.
  rewrite app_nil_r in Ha, Hb. congruence.
Qed.

Lemma utf8_inj s t : utf8 s = utf8 t -> s = t.
Proof. intros H. apply (f_equal from_utf8) in H. by rewrite !from_utf8_utf8 in H. Qed.

Lemma preimage_text_inj k n d x n' d' x' : 0 <= n -> 0 <= n' ->
  preimage_text k n d x = preimage_text k n' d' x' -> n = n' /\ d ++ js ":" ++ x = d' ++ js ":" ++ x'.
Proof.
  intros Hn Hn'. unfold preimage_text, bigint_text.
  rewrite (proj2 (Z.ltb_ge n 0) Hn), (proj2 (Z.ltb_ge n' 0) Hn'). intros H. apply app_inv_head in H.
  cbn [js String.list_ascii_of_string app] in *. injection H as H.
  destruct (dec_print_spec n Hn) as (Hd & Hv & _), (dec_print_spec n' Hn') as (Hd' & Hv' & _).
  apply colon_digits in H as [Hp ->]; [|done|done]. split; [|done]. rewrite <- Hv, <- Hv'. by rewrite Hp.
Qed.

(** *** Amounts *)

(** An amount in minor units. *)
Definition minor (m : Money) : result thrown Z :=
  match get (money_currency m) with
  | None => Err (unsupported_currency (money_currency m))
  | Some p => serialize (money_amount m) (Currencies.scale p) HalfUp
  end.

Lemma validate_again m m' : validate (Some m) = (Some m', Ok tt) ->
  money_currency m' = money_currency m /\ validate (Some m') = (Some m', Ok tt).
Proof.
  cbn. intros [= <- H]. cbn [money_currency money_amount]. split; [done|]. rewrite normalizeAmount_idemp. by f_equal.
Qed.

Lemma new_Date_small t : 0 <= t < MAX_ISO -> new_Date t = Some t.
Proof. unfold MAX_ISO, new_Date. intros H. destruct (Z.leb_spec (Z.abs t) 8640000000000000); [done|lia]. Qed.

Lemma request_date t : 0 <= t < MAX_ISO -> Date_parse (forRequestBody t) = Some t.
Proof.
  intros Ht. apply Date_parse_iso. unfold forRequestBody, toISOString. change (js "Z") with ["Z"%char].
  assert (MIN_ISO <= t < MAX_ISO) by (unfold MIN_ISO; lia).
  rewrite replace_first_app, app_nil_r by by apply iso_local_no_z.
  rewrite (iso_parse_local t _ 0); [f_equal; lia|done|reflexivity].
Qed.
Lemma request_date_nonblank t : 0 <= t < MAX_ISO -> trim (forRequestBody t) <> [].
Proof.
  intros Ht. apply (trim_nonblank "+"%char); [|done]. unfold forRequestBody, toISOString. change (js "Z") with ["Z"%char].
  assert (MIN_ISO <= t < MAX_ISO) by (unfold MIN_ISO; lia). rewrite replace_first_app by by apply iso_local_no_z.
  apply elem_of_app. right. cbn. by left.
Qed.
End library.

Section connector_lemmas.
  Context {lib : IlpLibrary} {dates : JsDates} (agreement_JSON : FspiopAgreement -> jsstr).
  Context (cfg : ConnectorSettings) (client : FspClient).
  Notation postQuotes := (postQuotes agreement_JSON cfg client).
  Notation postTransfers := (postTransfers cfg client).
  Notation home := (address (connectorId cfg)).

(** *** Quotes *)

(** What an answered quote is made of: the amount, its minor units, the data and the bytes
    of the packet. *)
Record issued (t : Z) (q : QuotesIDPutResponse) (m : Money) (n : Z) (data b : jsstr) : Prop := {
  iss_amount : q_transferAmount q = Some m; iss_valid : validate (Some m) = (Some m, Ok tt);
  iss_supported : isCurrencySupported cfg (money_currency m) = true; iss_minor : minor m = Ok n;
  iss_packet : serializeIlpPrepare (preparePacket (ilpSecret cfg) home n data (t + FIFTEEN_MINUTES * 1000)) = Ok b;
  iss_ilpPacket : q_ilpPacket q = base64Encode b true;
  iss_condition : q_condition q = base64url (sha256 (preimage (ilpSecret cfg) n home data));
  iss_expiration : q_expiration q = forRequestBody (t + FIFTEEN_MINUTES * 1000) }.

Lemma quote_issued t rq rq' calls q : postQuotes t rq = (rq', calls, Ok q) -> exists m n data b, issued t q m n data b.
Proof.
  unfold Connector.postQuotes. destruct (validatePostQuotesRequest cfg rq) as [r1 [u|e]]; [|done].
  destruct (qr_scenario r1) as [sc|]; [|done]. cbv zeta. intros [= <- <- H].
  destruct (client_quotes client _) as [o|e]; [|done]. unfold lift_js in H.
  destruct (quoteResponse _ _ _ _ _) as [q'|e] eqn:Hq; [|done]. injection H as ->. unfold quoteResponse in Hq.
  destruct (validatePostQuotesOutput cfg o) as [[m p]|e] eqn:Ho; [|done].
  destruct (get (money_currency m)) as [profile|] eqn:Hg; [|done].
  destruct (serialize _ _ _) as [n|e] eqn:Hs; [|done]. destruct (toAgreement _ _ _ _) as [ag|e]; [|done].
  unfold prepare in Hq. destruct (serializeIlpPrepare _) as [b|e] eqn:Hb; [|done]. injection Hq as <-.
  unfold validatePostQuotesOutput in Ho. destruct (o_transferAmount o) as [m0|]; [|done].
  destruct (o_payeeReceiveAmount o) as [p0|]; [|done].
  destruct (throw_if (negb (isCurrencySupported _ _)) _) as [u1|e] eqn:H1; [|done]. apply throw_if_Ok, negb_false_iff in H1.
  destruct (throw_if (negb (str_eqb _ _)) _) as [u2|e]; [|done].
  destruct (validate (Some m0)) as [t1 [[]|e]] eqn:Hv1; [|done].
  destruct (validate (Some p0)) as [t2 [[]|e]]; [|done]. injection Ho as Hm _.
  assert (t1 = Some m) as -> by (cbn in Hv1; injection Hv1 as <- _; by rewrite <- Hm).
  destruct (validate_again _ _ Hv1) as [Hc Hv].
  exists m, n, (agreement_JSON ag), b. constructor; try done.
  - by rewrite Hc.
  - unfold minor. by rewrite Hg.
Qed.

Lemma minor_bounds m n : minor m = Ok n -> 0 <= n <= UINT64_MAX.
Proof. unfold minor. destruct (get _); [apply serialize_bounds|done]. Qed.

(** *** Transfers *)

(** A request with everything [validatePostTransfersRequest] asks for. *)
Record complete (r : TransfersPostRequest) (m : Money) : Prop := {
  cm_id : blank_text (tp_transferId r) = false; cm_payee : blank_text (payeeFsp r) = false;
  cm_amount : tp_amount r = Some m; cm_supported : isCurrencySupported cfg (money_currency m) = true;
  cm_packet : blank_text (ilpPacket r) = false; cm_condition : blank_text (condition r) = false;
  cm_expiration : blank_text (expiration r) = false }.

Lemma validate_request r m : complete r m -> validate (Some m) = (Some m, Ok tt) ->
  validatePostTransfersRequest cfg r = (r, Ok tt).
Proof.
  intros [H1 H2 H3 H4 H5 H6 H7] Hv. unfold validatePostTransfersRequest. rewrite H1, H2, H3, H4, H5, H6, H7. cbn [throw_if negb].
  rewrite Hv. f_equal. unfold with_tp_amount. rewrite <- H3. by destruct r.
Qed.

Lemma validated_request r r' : validatePostTransfersRequest cfg r = (r', Ok tt) ->
  exists m, complete r' m /\ condition r' = condition r /\ ilpPacket r' = ilpPacket r /\ expiration r' = expiration r /\
    tp_transferId r' = tp_transferId r /\ payeeFsp r' = payeeFsp r /\ tp_amount r' = fst (validate (tp_amount r)).
Proof.
  unfold validatePostTransfersRequest.
  destruct (throw_if (blank_text (tp_transferId r)) _) eqn:H1; [|done]. apply throw_if_Ok in H1.
  destruct (throw_if (blank_text (payeeFsp r)) _) eqn:H2; [|done]. apply throw_if_Ok in H2.
  destruct (tp_amount r) as [m|] eqn:H3; [|done].
  destruct (throw_if (negb _) _) eqn:H4; [|done]. apply throw_if_Ok, negb_false_iff in H4.
  destruct (throw_if (blank_text (ilpPacket r)) _) eqn:H5; [|done]. apply throw_if_Ok in H5.
  destruct (throw_if (blank_text (condition r)) _) eqn:H6; [|done]. apply throw_if_Ok in H6.
  destruct (throw_if (blank_text (expiration r)) _) eqn:H7; [|done]. apply throw_if_Ok in H7.
  destruct (validate (Some m)) as [m' checked] eqn:Hv. intros [= <- ->]. pose proof Hv as Hv'. cbn in Hv'.
  injection Hv' as <- _. eexists. split; [constructor; cbn; done|done].
Qed.

(** What a request must show for its packet to be accepted. *)
Record accepted (now : Z) (r : TransfersPostRequest) (p : IlpPrepare) (n e : Z) : Prop := {
  acc_unwrap : unwrap (ilpPacket r) = Ok p; acc_number : BigInt (ilp_amount p) = Some n;
  acc_minor : minor (default (mkMoney [] []) (tp_amount r)) = Ok n; acc_expiration : Date_parse (expiration r) = Some e;
  acc_expires : expiresAt p = Some e; acc_alive : now < e }.

Lemma unwrap_accepted now r p : validateAndUnwrapTransferIlpPacket now r = Ok p <-> exists n e, accepted now r p n e.
Proof.
  unfold validateAndUnwrapTransferIlpPacket. split.
  - destruct (get _) as [profile|] eqn:Hg; [|done]. destruct (unwrap _) as [p'|] eqn:Hu; [|done].
    destruct (BigInt _) as [n|] eqn:Hn; [|done]. destruct (serialize _ _ _) as [n'|] eqn:Hs; [|done].
    destruct (throw_if (negb (n =? n')) _) eqn:H1; [|done]. apply throw_if_Ok, negb_false_iff, Z.eqb_eq in H1. subst n'.
    destruct (Date_parse _) as [e|] eqn:He; [|done]. destruct (expiresAt p') as [e'|] eqn:He'; [|done].
    destruct (throw_if (negb (e =? e')) _) eqn:H2; [|done]. apply throw_if_Ok, negb_false_iff, Z.eqb_eq in H2. subst e'.
    destruct (throw_if (e <=? now) _) eqn:H3; [|done]. apply throw_if_Ok, Z.leb_gt in H3. intros [= <-].
    exists n, e. constructor; try done. unfold minor. by rewrite Hg.
  - intros (n & e & [Hu Hn Hm He He' Hl]). unfold minor in Hm. destruct (get _) as [profile|]; [|done].
    rewrite Hu, Hn, Hm, Z.eqb_refl. cbn [negb throw_if]. rewrite He, He', Z.eqb_refl. cbn [negb throw_if].
    by rewrite (proj2 (Z.leb_gt e now) Hl).
Qed.

(** What [postTransfers] does with a request that is complete. *)
Lemma transfer_run now later r p : validatePostTransfersRequest cfg r = (r, Ok tt) ->
  validateAndUnwrapTransferIlpPacket now r = Ok p -> forall f, fulfilTransfer cfg later r p = Ok f ->
  let call := CallTransfers (tp_transferId r) (default (mkMoney [] []) (tp_amount r)) (transferPayee (payeeFsp r)) in
  postTransfers now later r =
    (r, [call], match client_transfers client call with Ok response => Ok (transferResponse f response) | Err e => Err e end).
Proof. intros Hv Hu f Hf. unfold Connector.postTransfers. by rewrite Hv, Hu, Hf. Qed.

Lemma lifetime_bounds now e later : 0 <= now -> now <= later -> 0 <= e < MAX_ISO -> Date_parse (forRequestBody e) = Some e ->
  0 <= resolveLifetimeSeconds later (forRequestBody e) < MAX_ISO.
Proof.
  intros H0 Hl He Hp. unfold resolveLifetimeSeconds. rewrite Hp. unfold MAX_ISO in *.
  assert ((e - later) / 1000 <= e) by (Z.div_mod_to_equations; lia). lia.
Qed.

Lemma packet_dated n data t u : 0 <= u < MAX_ISO ->
  preparePacket (ilpSecret cfg) home n data u = with_expiresAt (Some u) (preparePacket (ilpSecret cfg) home n data t).
Proof. intros Hu. unfold preparePacket, with_expiresAt. cbn. by rewrite (new_Date_small u). Qed.

(** A request with the packet of an issued quote, of whatever date, and its condition. *)
Lemma packet_fulfilled t q m n data b b' m' e now later tr : issued t q m n data b ->
  0 <= t -> t + FIFTEEN_MINUTES * 1000 < MAX_ISO -> 0 <= now <= later -> now < e < MAX_ISO ->
  serializeIlpPrepare (preparePacket (ilpSecret cfg) home n data e) = Ok b' ->
  complete tr m' -> validate (Some m') = (Some m', Ok tt) -> minor m' = Ok n ->
  ilpPacket tr = base64Encode b' true -> condition tr = q_condition q -> expiration tr = forRequestBody e ->
  exists f, base64url (sha256 (from_base64url f)) = q_condition q /\
    let call := CallTransfers (tp_transferId tr) m' (transferPayee (payeeFsp tr)) in
    postTransfers now later tr = (tr, [call],
      match client_transfers client call with
      | Ok r => Ok (mkTransfersIDPutResponse (Some f) (completedTimestamp r) (transferState r) (t_extensionList r))
      | Err x => Err x end).
Proof.
  intros Hq Ht Ht' Hnow He Hb Hc Hv Hm Hp Hcond Hexp. assert (He0 : 0 <= e < MAX_ISO) by lia.
  pose proof (minor_bounds _ _ Hm) as Hn. pose proof (request_date e He0) as Hdate.
  set (p := preparePacket (ilpSecret cfg) home n data e) in *.
  assert (Hprint : bigint_text n = dec_print n) by (unfold bigint_text; by rewrite (proj2 (Z.ltb_ge n 0)) by lia).
  destruct (serialize_reads p n e b' Hprint Hn (new_Date_small _ He0) He0 Hb) as [_ Hread].
  assert (Hacc : validateAndUnwrapTransferIlpPacket now tr = Ok p).
  { apply unwrap_accepted. exists n, e. constructor; try done.
    - unfold unwrap, base64Decode. rewrite Hp. unfold base64Encode. cbn [negb]. by rewrite from_base64url_padded.
    - unfold p, preparePacket. cbn. rewrite Hprint. apply BigInt_print. lia.
    - by rewrite (cm_amount _ _ Hc).
    - by rewrite Hexp.
    - unfold p, preparePacket. cbn. by apply new_Date_small.
    - lia. }
  pose proof (lifetime_bounds now e later ltac:(lia) ltac:(lia) He0 Hdate) as Hlife.
  set (life := resolveLifetimeSeconds later (forRequestBody e)) in *.
  destruct (serialize_dated p e life b' (new_Date_small _ He0) He0 Hlife Hb) as [b2 Hb2].
  unfold p in Hb2. rewrite <- packet_dated in Hb2 by done.
  set (pre := preimage (ilpSecret cfg) n home data).
  assert (Hf : fulfilTransfer cfg later tr p = Ok (mkFulfill true (Some (base64url pre)))).
  { unfold fulfilTransfer, fulfil, prepare. rewrite Hexp. fold life. change (destination p) with home.
    change (ilp_amount p) with (bigint_text n). change (ilp_data p) with (utf8 data). rewrite from_utf8_utf8, Hprint, BigInt_print by lia. cbn [default from_option Datatypes.id].
    rewrite Hb2. cbn [base64Condition prep_base64Fulfillment]. f_equal. f_equal. apply bool_decide_eq_true.
    by rewrite Hcond, (iss_condition _ _ _ _ _ _ Hq). }
  exists (base64url pre). split.
  - pose proof (from_base64url_padded pre 0) as Hpad. cbn in Hpad. rewrite app_nil_r in Hpad.
    by rewrite Hpad, (iss_condition _ _ _ _ _ _ Hq).
  - pose proof (transfer_run now later tr p (validate_request _ _ Hc Hv) Hacc _ Hf) as Hrun. cbv zeta in Hrun |- *.
    rewrite (cm_amount _ _ Hc) in Hrun. exact Hrun.
Qed.
End connector_lemmas.

(** * What a connector promises *)

Section promises.
  Context {lib : IlpLibrary} {dates : JsDates} (agreement_JSON : FspiopAgreement -> jsstr).
  Context (cfg : ConnectorSettings) (client : FspClient).

Lemma issued_complete t q m n data b tr b' e : issued cfg t q m n data b -> b' <> [] -> 0 <= e < MAX_ISO ->
  blank_text (tp_transferId tr) = false -> blank_text (payeeFsp tr) = false -> forall m', tp_amount tr = Some m' ->
  isCurrencySupported cfg (money_currency m') = true -> ilpPacket tr = base64Encode b' true ->
  condition tr = q_condition q -> expiration tr = forRequestBody e -> complete cfg tr m'.
Proof.
  intros Hq Hb He Hid Hfsp m' Hm Hs Hp Hc Hexp. constructor; try done.
  - apply blank_text_false. rewrite Hp. unfold base64Encode. cbn [negb]. by apply base64url_text.
  - apply blank_text_false. rewrite Hc, (iss_condition _ _ _ _ _ _ _ Hq).
    rewrite <- (app_nil_r (base64url _)). apply (base64url_text _ 0). apply sha256_nonempty.
  - apply blank_text_false. rewrite Hexp. by apply request_date_nonblank.
Qed.

(** C6. A transfer with the amount, packet, condition and expiration of a quote this connector
    answered, received before the quote expires, is passed on to the back office once, with
    the quoted amount, and its answer is returned with the fulfilment of the condition. *)
Theorem quoted_transfer_fulfilled (t now later : Z) rq rq' calls q tr :
  postQuotes agreement_JSON cfg client t rq = (rq', calls, Ok q) ->
  0 <= t -> t + FIFTEEN_MINUTES * 1000 < MAX_ISO -> 0 <= now <= later -> now < t + FIFTEEN_MINUTES * 1000 ->
  tp_amount tr = q_transferAmount q -> ilpPacket tr = q_ilpPacket q -> condition tr = q_condition q ->
  expiration tr = q_expiration q -> blank_text (tp_transferId tr) = false -> blank_text (payeeFsp tr) = false ->
  exists m f, q_transferAmount q = Some m /\ base64url (sha256 (from_base64url f)) = q_condition q /\
    let call := CallTransfers (tp_transferId tr) m (transferPayee (payeeFsp tr)) in
    postTransfers cfg client now later tr = (tr, [call],
      match client_transfers client call with
      | Ok r => Ok (mkTransfersIDPutResponse (Some f) (completedTimestamp r) (transferState r) (t_extensionList r))
      | Err x => Err x end).
Proof.
  intros Hq Ht Ht' Hnow Hl Ha Hp Hc He Hid Hfsp. apply quote_issued in Hq as (m & n & data & b & Hq).
  rewrite (iss_amount _ _ _ _ _ _ _ Hq) in Ha. rewrite (iss_ilpPacket _ _ _ _ _ _ _ Hq) in Hp.
  rewrite (iss_expiration _ _ _ _ _ _ _ Hq) in He. set (e := t + FIFTEEN_MINUTES * 1000) in *.
  assert (He0 : 0 <= e < MAX_ISO) by (unfold e, FIFTEEN_MINUTES in *; lia).
  pose proof (iss_packet _ _ _ _ _ _ _ Hq) as Hb. fold e in Hb. pose proof (minor_bounds _ _ (iss_minor _ _ _ _ _ _ _ Hq)) as Hn.
  destruct (serialize_reads (preparePacket (ilpSecret cfg) (address (connectorId cfg)) n data e) n e b) as [Hne _]; [|done| |done|done|].
  { cbn. unfold bigint_text. by rewrite (proj2 (Z.ltb_ge n 0)) by lia. }
  { by apply new_Date_small. }
  pose proof (issued_complete t q m n data b tr b e Hq Hne He0 Hid Hfsp m Ha (iss_supported _ _ _ _ _ _ _ Hq) Hp Hc He) as Hcm.
  destruct (packet_fulfilled cfg client t q m n data b b m e now later tr Hq Ht Ht' Hnow ltac:(lia) Hb Hcm
    (iss_valid _ _ _ _ _ _ _ Hq) (iss_minor _ _ _ _ _ _ _ Hq) Hp Hc He) as (f & Hf & Hrun).
  exists m, f. split; [by apply (iss_amount _ _ _ _ _ _ _ Hq)|]. done.
Qed.

(** The terms of a quote are not checked beyond its amount in minor units: at any later
    time, with any later expiration and in any other supported currency of as many decimal
    places, some packet with the condition of the quote has its transfer fulfilled. *)
Theorem quote_terms_unchecked (t now later e : Z) rq rq' calls q m c id fsp :
  postQuotes agreement_JSON cfg client t rq = (rq', calls, Ok q) -> q_transferAmount q = Some m ->
  0 <= t -> t + FIFTEEN_MINUTES * 1000 < MAX_ISO -> 0 <= now <= later -> now < e < MAX_ISO ->
  isCurrencySupported cfg c = true -> Currencies.scale <$> get c = Currencies.scale <$> get (money_currency m) ->
  blank_text id = false -> blank_text fsp = false ->
  exists packet f, base64url (sha256 (from_base64url f)) = q_condition q /\
    let m' := mkMoney c (money_amount m) in
    let tr := mkTransfersPostRequest id [] fsp (Some m') packet (q_condition q) (forRequestBody e) None in
    let call := CallTransfers id m' (transferPayee fsp) in
    postTransfers cfg client now later tr = (tr, [call],
      match client_transfers client call with
      | Ok r => Ok (mkTransfersIDPutResponse (Some f) (completedTimestamp r) (transferState r) (t_extensionList r))
      | Err x => Err x end).
Proof.
  intros Hq Hm Ht Ht' Hnow He Hc Hscale Hid Hfsp. apply quote_issued in Hq as (m0 & n & data & b & Hq).
  rewrite (iss_amount _ _ _ _ _ _ _ Hq) in Hm. injection Hm as ->.
  pose proof (minor_bounds _ _ (iss_minor _ _ _ _ _ _ _ Hq)) as Hn.
  assert (Hprint : bigint_text n = dec_print n) by (unfold bigint_text; by rewrite (proj2 (Z.ltb_ge n 0)) by lia).
  assert (He0 : 0 <= e < MAX_ISO) by lia. assert (Ht0 : 0 <= t + FIFTEEN_MINUTES * 1000 < MAX_ISO) by (unfold FIFTEEN_MINUTES in *; lia).
  destruct (serialize_dated (preparePacket (ilpSecret cfg) (address (connectorId cfg)) n data _) _ e b (new_Date_small _ Ht0) Ht0 He0 (iss_packet _ _ _ _ _ _ _ Hq)) as [b' Hb].
  rewrite <- packet_dated in Hb by done.
  destruct (serialize_reads (preparePacket (ilpSecret cfg) (address (connectorId cfg)) n data e) n e b' Hprint Hn (new_Date_small _ He0) He0 Hb) as [Hne _].
  set (m' := mkMoney c (money_amount m)). set (tr := mkTransfersPostRequest id [] fsp (Some m') (base64Encode b' true) (q_condition q)
    (forRequestBody e) None).
  pose proof (issued_complete t q m n data b tr b' e Hq Hne He0 Hid Hfsp m' eq_refl Hc eq_refl eq_refl eq_refl) as Hcm.
  destruct (get c) as [pc|] eqn:Hgc, (get (money_currency m)) as [pm|] eqn:Hgm; try discriminate Hscale.
  2: { pose proof (iss_minor _ _ _ _ _ _ _ Hq) as Hx. unfold minor in Hx. by rewrite Hgm in Hx. }
  injection Hscale as Hscale.
  assert (Hminor : minor m' = Ok n).
  { pose proof (iss_minor _ _ _ _ _ _ _ Hq) as Hx. unfold minor in Hx |- *. cbn [money_currency money_amount m'].
    rewrite Hgc, Hscale. by rewrite Hgm in Hx. }
  assert (Hvalid : validate (Some m') = (Some m', Ok tt)).
  { pose proof (iss_valid _ _ _ _ _ _ _ Hq) as Hx. destruct m as [cm am]. unfold validate in Hx |- *.
    cbn [money_currency money_amount m'] in Hx, Hgm |- *. rewrite Hgm in Hx. rewrite Hgc, Hscale.
    injection Hx as Hx1 Hx2. rewrite Hx1 in Hx2 |- *. f_equal. unfold throw_if in *.
    destruct (Currencies.scale pm <? Z.of_nat (scaleOf am)); [done|reflexivity]. }
  destruct (packet_fulfilled cfg client t q m n data b b' m' e now later tr Hq Ht Ht' Hnow He Hb Hcm Hvalid Hminor
    eq_refl eq_refl eq_refl) as (f & Hf & Hrun).
  exists (base64Encode b' true), f. split; [done|]. exact Hrun.
Qed.

(** What holds of the packet of an answered quote. *)
Lemma issued_unwraps t q m n data b : issued cfg t q m n data b -> 0 <= t -> t + FIFTEEN_MINUTES * 1000 < MAX_ISO ->
  unwrap (q_ilpPacket q) = Ok (preparePacket (ilpSecret cfg) (address (connectorId cfg)) n data (t + FIFTEEN_MINUTES * 1000)).
Proof.
  intros Hq Ht Ht'. pose proof (minor_bounds _ _ (iss_minor _ _ _ _ _ _ _ Hq)) as Hn.
  assert (He : 0 <= t + FIFTEEN_MINUTES * 1000 < MAX_ISO) by (unfold FIFTEEN_MINUTES in *; lia).
  unfold unwrap, base64Decode. rewrite (iss_ilpPacket _ _ _ _ _ _ _ Hq). unfold base64Encode. cbn [negb].
  rewrite from_base64url_padded.
  eapply serialize_reads; [|exact Hn| |exact He|exact (iss_packet _ _ _ _ _ _ _ Hq)].
  - cbn. unfold bigint_text. by rewrite (proj2 (Z.ltb_ge n 0)) by lia.
  - by apply new_Date_small.
Qed.

(** What a request that reached the back office has shown. *)
Lemma transfer_checked now later tr tr' calls res : postTransfers cfg client now later tr = (tr', calls, res) ->
  calls = [] /\ (exists e, res = Err (Raised e)) \/
  exists m p n e f, complete cfg tr' m /\ accepted now tr' p n e /\ fulfilTransfer cfg later tr' p = Ok f /\
    condition tr' = condition tr /\ calls = [CallTransfers (tp_transferId tr') m (transferPayee (payeeFsp tr'))] /\
    res = match client_transfers client (CallTransfers (tp_transferId tr') m (transferPayee (payeeFsp tr'))) with
          | Ok r => Ok (transferResponse f r) | Err x => Err x end.
Proof.
  unfold postTransfers. destruct (validatePostTransfersRequest cfg tr) as [r1 checked] eqn:Hv. cbv zeta.
  destruct checked as [[]|e]; [|intros [= <- <- <-]; left; split; [done|by eexists]].
  destruct (validateAndUnwrapTransferIlpPacket now r1) as [p|e] eqn:Hu; [|intros [= <- <- <-]; left; split; [done|by eexists]].
  destruct (fulfilTransfer cfg later r1 p) as [f|e] eqn:Hf; [|intros [= <- <- <-]; left; split; [done|by eexists]].
  intros [= <- <- <-]. right. destruct (validated_request cfg tr r1 Hv) as (m & Hc & Hcond & _).
  apply unwrap_accepted in Hu as (n & e & Ha). exists m, p, n, e, f. rewrite (cm_amount _ _ _ Hc). done.
Qed.

(** What a fulfilment shows of the packet and the condition. *)
Lemma fulfilled_preimage later tr p f n : fulfilTransfer cfg later tr p = Ok f -> BigInt (ilp_amount p) = Some n ->
  valid f = bool_decide (base64url (sha256 (preimage (ilpSecret cfg) n (destination p) (from_utf8 (ilp_data p)))) = condition tr).
Proof.
  intros Hf Hn. unfold fulfilTransfer, fulfil, prepare in Hf. rewrite Hn in Hf. cbn [default from_option Datatypes.id] in Hf.
  destruct (serializeIlpPrepare _) as [b|e]; [|done]. by injection Hf as <-.
Qed.

Lemma fulfilled_text later tr p f n : fulfilTransfer cfg later tr p = Ok f -> BigInt (ilp_amount p) = Some n ->
  base64Fulfillment f = Some (base64url (preimage (ilpSecret cfg) n (destination p) (from_utf8 (ilp_data p)))).
Proof.
  intros Hf Hn. unfold fulfilTransfer, fulfil, prepare in Hf. rewrite Hn in Hf. cbn [default from_option Datatypes.id] in Hf.
  destruct (serializeIlpPrepare _) as [b|e]; [|done]. by injection Hf as <-.
Qed.

(** The bytes whose hash is the fulfilment of a packet of [n] minor units. *)
Definition secret_bytes (p : IlpPrepare) (n : Z) : jsstr :=
  utf8 (preimage_text (ilpSecret cfg) n (destination p) (from_utf8 (ilp_data p))).

(** A packet with the condition of a quote, of whose packet the amount is [n] minor units. *)
Lemma quote_bound t q m n data b p : issued cfg t q m n data b -> 0 <= t -> t + FIFTEEN_MINUTES * 1000 < MAX_ISO ->
  forall n1, 0 <= n1 -> base64url (sha256 (sha256 (secret_bytes p n1))) = q_condition q ->
  exists p0, unwrap (q_ilpPacket q) = Ok p0 /\
    (n1 = n /\ destination p ++ js ":" ++ from_utf8 (ilp_data p) = destination p0 ++ js ":" ++ from_utf8 (ilp_data p0) \/
     secret_bytes p n1 <> secret_bytes p0 n /\ sha256 (sha256 (secret_bytes p n1)) = sha256 (sha256 (secret_bytes p0 n))).
Proof.
  intros Hq Ht Ht' n1 Hn1 Hc. pose proof (minor_bounds _ _ (iss_minor _ _ _ _ _ _ _ Hq)) as Hn0.
  eexists. split; [exact (issued_unwraps _ _ _ _ _ _ Hq Ht Ht')|]. set (p0 := preparePacket _ _ n data _).
  rewrite (iss_condition _ _ _ _ _ _ _ Hq) in Hc. apply base64url_inj in Hc.
  assert (Hs : secret_bytes p0 n = utf8 (preimage_text (ilpSecret cfg) n (address (connectorId cfg)) data)) by
    (unfold secret_bytes, p0, preparePacket; cbn; by rewrite from_utf8_utf8).
  destruct (decide (secret_bytes p n1 = secret_bytes p0 n)) as [He|He]; [left|right; split; [done|]; by rewrite Hs].
  unfold secret_bytes in He. by apply utf8_inj, preimage_text_inj in He; [|lia..].
Qed.


(** The back office hears of a transfer at most once, and only of one in a supported
    currency whose packet is readable, has the amount and the expiration of the request, and
    has not expired; otherwise the transfer is refused with an FSPIOP or parsing error. A
    fulfilment is returned exactly when the condition is that of the packet; a transfer with
    another condition is aborted, but the back office has been told of it. *)
Theorem transfer_guarded (now later : Z) tr tr' calls res :
  postTransfers cfg client now later tr = (tr', calls, res) ->
  match calls with
  | [] => exists e, res = Err (Raised e)
  | [CallTransfers id m payee] =>
      id = tp_transferId tr' /\ payee = transferPayee (payeeFsp tr') /\ isCurrencySupported cfg (money_currency m) = true /\
      (exists p n e, unwrap (ilpPacket tr') = Ok p /\ BigInt (ilp_amount p) = Some n /\ minor m = Ok n /\
         Date_parse (expiration tr') = Some e /\ expiresAt p = Some e /\ now < e /\
         let bound := base64url (sha256 (preimage (ilpSecret cfg) n (destination p) (from_utf8 (ilp_data p)))) in
         match client_transfers client (CallTransfers id m payee), res with
         | Err x, Err y => x = y
         | Ok r, Ok a => if bool_decide (bound = condition tr)
                         then is_Some (fulfilment a) /\ transferState a = transferState r
                         else fulfilment a = None /\ transferState a = Aborted
         | _, _ => False
         end)
  | _ => False
  end.
Proof.
  intros Hr. apply transfer_checked in Hr as [[-> He]|(m & p & n & e & f & Hcm & [Hu Hn Hm Hd Hx Hl] & Hf & Hc & -> & ->)]; [done|].
  split; [done|]. split; [done|]. split; [by apply (cm_supported _ _ _ Hcm)|]. rewrite (cm_amount _ _ _ Hcm) in Hm.
  exists p, n, e. do 6 (split; [done|]). cbv zeta. pose proof (fulfilled_preimage _ _ _ _ _ Hf Hn) as Hv. rewrite Hc in Hv. rewrite <- Hv.
  destruct (client_transfers client _) as [r|x]; [|done]. unfold transferResponse. destruct (valid f) eqn:Hvf; cbn; [|done].
  split; [|done]. clear -Hf Hvf. unfold fulfilTransfer, fulfil in Hf. destruct (prepare _ _ _ _ _); [|done]. injection Hf as <-. by eexists.
Qed.
End promises.

(** * Examples *)

(** ** A library with the laws

    A hash that marks its input, texts as their own bytes, base64 as marks around them, and
    packets with their fields one after the other. *)
Definition marked (b : jsstr) : jsstr := "b"%char :: b ++ ["."%char].
Fixpoint drop_marks (s : jsstr) : jsstr :=
  match s with c :: s' => if bool_decide (c = "="%char) then drop_marks s' else s | [] => [] end.
Definition unmarked (s : jsstr) : jsstr := reverse (drop 1 (drop_marks (reverse (drop 1 s)))).
(** A field after its length in strokes. *)
Definition framed (f : jsstr) : jsstr := replicate (length f) "i"%char ++ "."%char :: f.
Fixpoint strokes (s : jsstr) : nat * jsstr :=
  match s with c :: s' => if bool_decide (c = "i"%char) then let '(n, r) := strokes s' in (S n, r) else (O, s) | [] => (O, []) end.
Definition unframed (s : jsstr) : jsstr * jsstr := let '(n, s) := strokes s in (take n (drop 1 s), drop n (drop 1 s)).
Definition packed (p : IlpPrepare) : result thrown jsstr :=
  match expiresAt p with
  | None => Err (TError (js "Invalid time value"))
  | Some t => Ok (ilp_amount p ++ "."%char :: dec_print t ++ framed (executionCondition p) ++ framed (destination p) ++ ilp_data p)
  end.
Definition unpacked (b : jsstr) : result thrown IlpPrepare :=
  let '(amount, b) := span_digits b in let '(time, b) := span_digits (drop 1 b) in
  let '(cond, b) := unframed b in let '(dest, b) := unframed b in
  Ok (mkIlpPrepare amount cond (Some (dec_value time)) dest b).

Lemma unframed_framed f s : unframed (framed f ++ s) = (f, s).
Proof.
  unfold unframed, framed. assert (H : forall n t, strokes (replicate n "i"%char ++ "."%char :: t) = (n, "."%char :: t)).
  { induction n as [|n IH]; intros t; [done|]. cbn. by rewrite IH. }
  rewrite <- app_assoc. cbn [app]. rewrite H. change (drop 1 ("."%char :: f ++ s)) with (f ++ s). by rewrite take_app_length, drop_app_length.
Qed.

Lemma packed_reads p n t b : ilp_amount p = dec_print n -> 0 <= n <= UINT64_MAX -> expiresAt p = Some t -> 0 <= t < MAX_ISO ->
  packed p = Ok b -> b <> [] /\ unpacked b = Ok p.
Proof.
  intros Ha Hn Ht Hm. unfold packed, unpacked. rewrite Ht, Ha. intros [= <-]. split; [by destruct (dec_print n)|].
  destruct (dec_print_spec n ltac:(lia)) as (Hd & _ & _), (dec_print_spec t ltac:(lia)) as (Hd' & Hv' & _).
  rewrite span_digits_app; [|done|by intros c [= <-]]. match goal with |- context [drop 1 (?c :: ?l)] => change (drop 1 (c :: l)) with l end.
  assert (Hf : forall f s, exists c s', framed f ++ s = c :: s' /\ is_digit c = false).
  { intros [|x f] s; [by eexists _, _|]. by eexists _, _. }
  destruct (Hf (executionCondition p) (framed (destination p) ++ ilp_data p)) as (c & s' & Hc & Hcd).
  rewrite span_digits_app; [|done|rewrite Hc; by intros d [= <-]]. rewrite !unframed_framed, Hv'. destruct p; cbn in *. by subst.
Qed.

Lemma unmarked_marked b n : unmarked (marked b ++ replicate n "="%char) = b.
Proof.
  unfold unmarked, marked.
  change (drop 1 (("b"%char :: b ++ ["."%char]) ++ replicate n "="%char)) with ((b ++ ["."%char]) ++ replicate n "="%char).
  rewrite !reverse_app, reverse_replicate.
  assert (H : forall k t, drop_marks (replicate k "="%char ++ t) = drop_marks t).
  { induction k as [|k IH]; intros t; [done|]. cbn. apply IH. }
  rewrite H. change (reverse ["."%char]) with ["."%char]. cbn [app drop_marks bool_decide].
  change (drop 1 ("."%char :: reverse b)) with (reverse b). apply reverse_involutive.
Qed.

#[export] Program Instance example_library : IlpLibrary := {|
  sha256 b := "h"%char :: b; utf8 s := s; from_utf8 s := s; base64url := marked; from_base64url := unmarked;
  serializeIlpPrepare := packed; deserializeIlpPrepare := unpacked |}.
Next Obligation. done. Qed.
Next Obligation. done. Qed.
Next Obligation. intros. apply unmarked_marked. Qed.
Next Obligation. intros b n _. apply (trim_nonblank "b"%char); [by left|done]. Qed.
Next Obligation. intros p n t b. apply packed_reads. Qed.
Next Obligation. intros p t u b _ _ _ H. unfold packed in *. cbn. by eexists. Qed.

Definition example_agreement (a : FspiopAgreement) : jsstr := ag_quoteId a.
Definition example_cfg : ConnectorSettings := mkConnectorSettings (js "wallet2") [js "USD"; js "EUR"] (js "s").
Definition example_fsp : FspClient :=
  mkFspClient (fun _ => Err (Raised TOther))
    (fun _ => Ok (mkPostQuotesOutput (Some (mkMoney (js "USD") (js "10.00"))) (Some (mkMoney (js "USD") (js "9.5"))) None))
    (fun _ => Ok (mkTransfersIDPutResponse None None Reserved None)) (fun _ => Ok tt).
Definition example_info (fsp : string) : PartyIdInfo := mkPartyIdInfo (js "MSISDN") (js "95") None (Some (js fsp)) None.
Definition example_quote_request : QuoteRequest :=
  mkQuoteRequest (js "q") (Some (js "t")) None (Some (example_info "wallet1")) (Some (example_info "wallet2")) (js "SEND")
    (Some (mkMoney (js "USD") (js "10"))) None (Some (js "TRANSFER")) None None.
Definition example_quote : QuotesIDPutResponse :=
  match postQuotes example_agreement example_cfg example_fsp 1767225599999 example_quote_request with
  | (_, _, Ok q) => q
  | _ => mkQuotesIDPutResponse None None None None [] [] [] None
  end.
Definition example_transfer : TransfersPostRequest :=
  mkTransfersPostRequest (js "t") (js "wallet1") (js "wallet2") (q_transferAmount example_quote) (q_ilpPacket example_quote)
    (q_condition example_quote) (q_expiration example_quote) None.
Definition example_request_sent : QuoteRequest := fst (fst (postQuotes example_agreement example_cfg example_fsp 1767225599999 example_quote_request)).

Lemma quoted_transfer_fulfilled_witness :
  let tr := example_transfer in
  exists m f, q_transferAmount example_quote = Some m /\ base64url (sha256 (from_base64url f)) = q_condition example_quote /\
    let call := CallTransfers (tp_transferId tr) m (transferPayee (payeeFsp tr)) in
    postTransfers example_cfg example_fsp 1767225600000 1767225600005 tr = (tr, [call],
      match client_transfers example_fsp call with
      | Ok r => Ok (mkTransfersIDPutResponse (Some f) (completedTimestamp r) (transferState r) (t_extensionList r))
      | Err x => Err x end).
Proof.
  refine (quoted_transfer_fulfilled example_agreement example_cfg example_fsp 1767225599999 1767225600000 1767225600005
    example_quote_request _ _ example_quote example_transfer _ _ _ _ _ _ _ _ _ _ _).
  - vm_compute. reflexivity.
  - lia.
  - unfold FIFTEEN_MINUTES, MAX_ISO. lia.
  - lia.
  - unfold FIFTEEN_MINUTES. lia.
  - reflexivity.
  - reflexivity.
  - reflexivity.
  - reflexivity.
  - vm_compute. reflexivity.
  - vm_compute. reflexivity.
Defined.

(** A year later, in another currency. *)
Lemma quote_terms_unchecked_witness :
  exists packet f, base64url (sha256 (from_base64url f)) = q_condition example_quote /\
    let m' := mkMoney (js "EUR") (js "10") in
    let tr := mkTransfersPostRequest (js "t") [] (js "wallet2") (Some m') packet (q_condition example_quote)
                (forRequestBody 1798848000000) None in
    let call := CallTransfers (js "t") m' (transferPayee (js "wallet2")) in
    postTransfers example_cfg example_fsp 1798761600000 1798761600000 tr = (tr, [call],
      match client_transfers example_fsp call with
      | Ok r => Ok (mkTransfersIDPutResponse (Some f) (completedTimestamp r) (transferState r) (t_extensionList r))
      | Err x => Err x end).
Proof.
  refine (quote_terms_unchecked example_agreement example_cfg example_fsp 1767225599999 1798761600000 1798761600000 1798848000000
    example_quote_request _ _ example_quote (mkMoney (js "USD") (js "10")) (js "EUR") (js "t") (js "wallet2") _ _ _ _ _ _ _ _ _ _).
  - vm_compute. reflexivity.
  - vm_compute. reflexivity.
  - lia.
  - unfold FIFTEEN_MINUTES, MAX_ISO. lia.
  - lia.
  - unfold MAX_ISO. lia.
  - vm_compute. reflexivity.
  - vm_compute. reflexivity.
  - vm_compute. reflexivity.
  - vm_compute. reflexivity.
Defined.

Definition example_answer : TransfersIDPutResponse :=
  match postTransfers example_cfg example_fsp 1767225600000 1767225600005 example_transfer with
  | (_, _, Ok r) => r
  | _ => mkTransfersIDPutResponse None None Aborted None
  end.


Lemma transfer_guarded_witness :
  match [CallTransfers (js "t") (mkMoney (js "USD") (js "10")) (transferPayee (js "wallet2"))] with
  | [CallTransfers id m payee] =>
      id = js "t" /\ payee = transferPayee (js "wallet2") /\ isCurrencySupported example_cfg (money_currency m) = true
  | _ => False
  end.
Proof.
  assert (H : postTransfers example_cfg example_fsp 1767225600000 1767225600005 example_transfer =
    (example_transfer, [CallTransfers (js "t") (mkMoney (js "USD") (js "10")) (transferPayee (js "wallet2"))], Ok example_answer))
    by (vm_compute; reflexivity).
  apply (transfer_guarded example_cfg example_fsp) in H as (H1 & H2 & H3 & _). split; [done|]. split; [done|exact H3].
Defined.
