(* ===== verification/Pkcs11.v ===== *)
(** * PKCS#11 sessions

    [Pkcs11SessionPool] of [packages/shared/pkcs11/component/pkcs11-session-pool.ts],
    the key handles of [Pkcs11KeySigner] (pkcs11-key-signer.ts) and the settings
    (pkcs11-settings.ts). The device library is native code: what it answers to each
    call is an argument. The two ways of using the pool are two state machines, whose
    events are the calls and the moments at which lent work ends. *)

From S2P Require Import Prelude Errors.

(** Handles of the library. *)
Abbreviation session := nat.
Abbreviation slotId := nat.

Record Credential : Set := mkCredential { username : jsstr; password : jsstr }.

Record Pkcs11Settings : Set := mkPkcs11Settings { modulePath : jsstr; tokenLabel : jsstr; poolSize : Z }.

Definition DEFAULT_POOL_SIZE : Z := 4.
Definition isConfigured (settings : Pkcs11Settings) : bool := (0 <? length (trim (modulePath settings)))%nat.

Definition pin (username password : jsstr) : jsstr :=
  if (0 <? length (trim username))%nat then trim username ++ js ":" ++ password else password.

(** What the library answers while the pool starts; sessions in the order of opening. *)
Record Device : Set := mkDevice {
  C_load : result thrown unit; C_Initialize : result thrown unit;
  C_GetSlotList : result thrown (list slotId); C_GetTokenInfo : slotId -> result thrown jsstr;
  C_OpenSession : nat -> result thrown session; C_Login : jsstr -> result thrown unit }.

Record Pkcs11SessionPool : Set := mkPool {
  available : list session; waiting : list nat; started : bool; hasStandingLogin : bool;
  slot : option slotId; resolvedLabel : jsstr }.
Definition new_pool : Pkcs11SessionPool := mkPool [] [] false false None [].

(** ** Starting *)

Section start.
  Variables (settings : Pkcs11Settings) (dev : Device).

Fixpoint labelled_slot (wanted : jsstr) (slots : list slotId) : result thrown (option slotId) :=
  match slots with
  | [] => Ok None
  | s :: slots =>
      let! label := C_GetTokenInfo dev s in
      if str_eqb (trim label) wanted then Ok (Some s) else labelled_slot wanted slots
  end.

(** [findSlot]: the slot, and the label it resolves. *)
Definition findSlot : result thrown (slotId * jsstr) :=
  let! slots := C_GetSlotList dev in
  let wanted := trim (tokenLabel settings) in
  if (length wanted =? 0)%nat
  then match slots with
       | [s] => let! label := C_GetTokenInfo dev s in Ok (s, trim label)
       | _ => Err (TError (dec_print (Z.of_nat (length slots)) ++ js " PKCS#11 tokens are present in " ++ modulePath settings ++
                js " and no token label is configured. Set one, or this workload cannot tell which token it was given."))
       end
  else
    let! found := labelled_slot wanted slots in
    match found with
    | Some s => Ok (s, wanted)
    | None => Err (TError (js "No PKCS#11 token labelled '" ++ wanted ++ js "' among " ++
                dec_print (Z.of_nat (length slots)) ++ js " slot(s) in " ++ modulePath settings ++ js "."))
    end.

(** The loop that opens the other sessions, from the [i]th on. *)
Fixpoint open_sessions (n i : nat) (p : Pkcs11SessionPool) : Pkcs11SessionPool * result thrown unit :=
  match n with
  | O => (p, Ok tt)
  | S n =>
      match C_OpenSession dev i with
      | Err e => (p, Err e)
      | Ok s => open_sessions n (S i)
          (mkPool (available p ++ [s]) (waiting p) (started p) (hasStandingLogin p) (slot p) (resolvedLabel p))
      end
  end.

Definition start (credential : option Credential) (p : Pkcs11SessionPool) : Pkcs11SessionPool * result thrown unit :=
  if started p then (p, Ok tt)
  else match (let! _ := C_load dev in let! _ := C_Initialize dev in findSlot) with
       | Err e => (p, Err e)
       | Ok (s, label) =>
           let p := mkPool (available p) (waiting p) true (hasStandingLogin p) (Some s) label in
           match credential with
           | None => (p, Ok tt)
           | Some c =>
               match (let! first := C_OpenSession dev 0 in
                      let! _ := C_Login dev (pin (username c) (password c)) in Ok first) with
               | Err e => (p, Err e)
               | Ok first =>
                   open_sessions (Z.to_nat (poolSize settings) - 1) 1
                     (mkPool (available p ++ [first]) (waiting p) true true (slot p) (resolvedLabel p))
               end
           end
       end.
End start.

(** ** Lending sessions

    The callers of [withSession] are numbered as they arrive. A caller holds its session
    while its work runs; [served] has the callers in the order they got one. *)
Record process : Set := mkProcess {
  pool : Pkcs11SessionPool; held : gmap nat session; arrivals : nat; served : list nat; closed : list session }.

Definition with_available (l : list session) (p : Pkcs11SessionPool) : Pkcs11SessionPool :=
  mkPool l (waiting p) (started p) (hasStandingLogin p) (slot p) (resolvedLabel p).
Definition with_waiting (l : list nat) (p : Pkcs11SessionPool) : Pkcs11SessionPool :=
  mkPool (available p) l (started p) (hasStandingLogin p) (slot p) (resolvedLabel p).

(** [acquire]: [available.pop()], or the end of the queue. *)
Definition acquire (caller : nat) (p : Pkcs11SessionPool) : Pkcs11SessionPool * option session :=
  match reverse (available p) with
  | free :: rest => (with_available (reverse rest) p, Some free)
  | [] => (with_waiting (waiting p ++ [caller]) p, None)
  end.

(** [release]: the caller that gets the session, if one waits. *)
Definition release (s : session) (p : Pkcs11SessionPool) : Pkcs11SessionPool * option nat :=
  match waiting p with
  | next :: rest => (with_waiting rest p, Some next)
  | [] => (with_available (available p ++ [s]) p, None)
  end.

Definition withSession (st : process) : process * result thrown unit :=
  if negb (started (pool st)) then (st, Err (TError (js "PKCS#11 session pool was not started.")))
  else if negb (hasStandingLogin (pool st)) then
    (st, Err (TError (js "Cannot sign: this process has no standing identity on the device. It was started for provisioning, which authenticates as a tenant per operation.")))
  else
    let caller := arrivals st in
    match acquire caller (pool st) with
    | (p, Some s) => (mkProcess p (<[caller := s]> (held st)) (S caller) (served st ++ [caller]) (closed st), Ok tt)
    | (p, None) => (mkProcess p (held st) (S caller) (served st) (closed st), Ok tt)
    end.

(** The work of a caller resolves or throws: the [finally] of [withSession]. *)
Definition finish (caller : nat) (st : process) : process :=
  match held st !! caller with
  | None => st
  | Some s =>
      match release s (pool st) with
      | (p, Some next) => mkProcess p (<[next := s]> (delete caller (held st))) (arrivals st) (served st ++ [next]) (closed st)
      | (p, None) => mkProcess p (delete caller (held st)) (arrivals st) (served st) (closed st)
      end
  end.

Definition stop (st : process) : process :=
  if negb (started (pool st)) then st
  else
    let p := pool st in
    mkProcess (mkPool [] (waiting p) false (hasStandingLogin p) (slot p) (resolvedLabel p))
      (held st) (arrivals st) (served st) (closed st ++ available p).

Inductive event : Set := EWork | EFinish (caller : nat) | EStop.

Definition step (ev : event) (st : process) : process :=
  match ev with
  | EWork => fst (withSession st)
  | EFinish caller => finish caller st
  | EStop => stop st
  end.

Definition run (evs : list event) (st : process) : process := fold_left (fun st ev => step ev st) evs st.

(** A process whose pool was just started. *)
Definition fresh (p : Pkcs11SessionPool) : process := mkProcess p ∅ 0 [] [].

(** How many of the events end the work of a caller. *)
Fixpoint finishes (evs : list event) (st : process) : nat :=
  match evs with
  | [] => 0
  | ev :: evs =>
      ((match ev with EFinish c => if held st !! c then 1 else 0 | _ => 0 end) + finishes evs (step ev st))%nat
  end.

(** ** Authenticating as tenants

    Calls of [withTenantLogin] are numbered; [previous] is the promise a call awaits, the
    one call [previous] resolves, or the resolved promise the pool starts with. The
    token has one login for the whole process. *)
Inductive call_status : Set :=
  | CWaiting | CWorking (s : session) | CSettled (r : result thrown unit).

Record call : Set := mkCall { credential : Credential; previous : option nat; status : call_status }.

Record tenants : Set := mkTenants {
  calls : list call; tenantLogin : option nat; released : gset nat; loggedIn : option jsstr }.
Definition no_tenants : tenants := mkTenants [] None ∅ None.

Definition set_status (r : call_status) (c : call) : call := mkCall (credential c) (previous c) r.

(** A call up to its [await previous]. *)
Definition withTenantLogin (p : Pkcs11SessionPool) (c : Credential) (st : tenants) : tenants * result thrown unit :=
  if negb (started p) then (st, Err (TError (js "PKCS#11 session pool was not started.")))
  else if hasStandingLogin p then
    (st, Err (TError (js "Cannot authenticate as a tenant: this process holds a standing login, and a second login would replace it for every session already using it.")))
  else (mkTenants (calls st ++ [mkCall c (tenantLogin st) CWaiting]) (Some (length (calls st))) (released st) (loggedIn st), Ok tt).

Definition awaited (st : tenants) (c : call) : bool :=
  match previous c with None => true | Some j => bool_decide (j ∈ released st) end.

(** The [finally]: log out, close, release. [logout] and [close] say whether the
    library did it. *)
Definition end_call (i : nat) (r : result thrown unit) (logout : bool) (st : tenants) : tenants :=
  mkTenants (alter (set_status (CSettled r)) i (calls st)) (tenantLogin st) ({[i]} ∪ released st)
    (if logout then None else loggedIn st).

(** The token refuses a login while another stands. *)
Definition C_Login_token (p : jsstr) (answer : result thrown unit) (st : tenants) : result thrown unit :=
  match loggedIn st with
  | Some _ => Err (TError (js "CKR_USER_ALREADY_LOGGED_IN"))
  | None => answer
  end.

(** The call goes on after [await previous], with the answers of the library, up to the
    await of its work. *)
Definition resume (i : nat) (opened : result thrown session) (answer : result thrown unit) (logout : bool) (st : tenants)
    : tenants :=
  match calls st !! i with
  | Some (mkCall c _ CWaiting as call) =>
      if awaited st call then
        match opened with
        | Err e => mkTenants (alter (set_status (CSettled (Err e))) i (calls st)) (tenantLogin st) (released st) (loggedIn st)
        | Ok s =>
            match C_Login_token (pin (username c) (password c)) answer st with
            | Err e => end_call i (Err e) logout st
            | Ok _ => mkTenants (alter (set_status (CWorking s)) i (calls st)) (tenantLogin st) (released st)
                        (Some (pin (username c) (password c)))
            end
        end
      else st
  | _ => st
  end.

(** The work of a call ends. *)
Definition end_work (i : nat) (r : result thrown unit) (logout : bool) (st : tenants) : tenants :=
  match calls st !! i with
  | Some (mkCall _ _ (CWorking _)) => end_call i r logout st
  | _ => st
  end.

Inductive tenant_event : Set :=
  | TCall (c : Credential)
  | TResume (i : nat) (opened : result thrown session) (answer : result thrown unit) (logout : bool)
  | TEnd (i : nat) (r : result thrown unit) (logout : bool).

Definition tenant_step (p : Pkcs11SessionPool) (ev : tenant_event) (st : tenants) : tenants :=
  match ev with
  | TCall c => fst (withTenantLogin p c st)
  | TResume i opened answer logout => resume i opened answer logout st
  | TEnd i r logout => end_work i r logout st
  end.

Definition tenant_run (p : Pkcs11SessionPool) (evs : list tenant_event) (st : tenants) : tenants :=
  fold_left (fun st ev => tenant_step p ev st) evs st.

(** ** Key handles *)

(** [Pkcs11KeySigner.resolve]; [found] is the answer to [C_FindObjects(session, 2)]. *)
Definition resolve (label : jsstr) (findInit : result thrown unit) (found : result thrown (list nat))
    (handles : gmap jsstr nat) : gmap jsstr nat * result thrown nat :=
  match handles !! label with
  | Some cached => (handles, Ok cached)
  | None =>
      match (let! _ := findInit in found) with
      | Err e => (handles, Err e)
      | Ok [] => (handles, Err (TError (js "No private key labelled '" ++ label ++ js "' on this token. Either the key reference is stale, or this crypto user cannot see the key.")))
      | Ok [key] => (<[label := key]> handles, Ok key)
      | Ok _ => (handles, Err (TError (js "More than one private key is labelled '" ++ label ++ js "'. A label must identify one key; signing would otherwise use an arbitrary one of them.")))
      end
  end.

Definition forget (label : jsstr) (handles : gmap jsstr nat) : gmap jsstr nat := delete label handles.

(** * Lemmas *)

(** ** The pool *)

(** Sessions are lent once and none is lost; callers are served in order; a session is
    free only while nobody waits. *)
Record pool_ok (opened : list session) (st : process) : Prop := {
  ok_sessions : available (pool st) ++ map snd (map_to_list (held st)) ++ closed st ≡ₚ opened;
  ok_order : served st ++ waiting (pool st) = seq 0 (arrivals st);
  ok_held : forall c, is_Some (held st !! c) -> c ∈ served st;
  ok_busy : waiting (pool st) <> [] -> available (pool st) = [] /\ closed st = [];
  ok_started : started (pool st) = true -> closed st = [];
}.

Lemma fresh_ok p : waiting p = [] -> pool_ok (available p) (fresh p).
Proof.
  intros Hw. split; cbn.
  - by rewrite map_to_list_empty, app_nil_r.
  - by rewrite Hw.
  - intros c [x Hx]. by rewrite lookup_empty in Hx.
  - by rewrite Hw.
  - done.
Qed.

Lemma held_insert (m : gmap nat session) c s :
  m !! c = None -> map snd (map_to_list (<[c := s]> m)) ≡ₚ s :: map snd (map_to_list m).
Proof. intros H. by rewrite map_to_list_insert. Qed.

Lemma held_delete (m : gmap nat session) c s :
  m !! c = Some s -> map snd (map_to_list m) ≡ₚ s :: map snd (map_to_list (delete c m)).
Proof. intros H. rewrite <- (insert_delete_id m c s H) at 1. apply held_insert, lookup_delete_eq. Qed.

Lemma seq_snoc n : seq 0 (S n) = seq 0 n ++ [n].
Proof. by rewrite seq_S. Qed.

Lemma work_ok opened st : pool_ok opened st -> pool_ok opened (step EWork st).
Proof.
  intros Hok. pose proof Hok as [Hs Ho Hh Hb Hst]. cbn [step]. unfold withSession.
  destruct (started (pool st)) eqn:Est; [|exact Hok]. destruct (hasStandingLogin (pool st)); [|exact Hok]. cbn [negb]. unfold acquire.
  assert (held st !! arrivals st = None) as Hnew.
  { apply eq_None_not_Some. intros H%Hh. assert (arrivals st ∈ seq 0 (arrivals st)) as Hin by (rewrite <- Ho; set_solver).
    apply elem_of_seq in Hin. lia. }
  destruct (reverse (available (pool st))) as [|s l] eqn:E; cbn [fst];
    apply (f_equal reverse) in E; rewrite reverse_involutive in E.
  - split; cbn -[seq]; [done| |done| |by intros _; apply Hst].
    + by rewrite app_assoc, Ho, seq_snoc.
    + intros _. split; [by rewrite E | by apply Hst].
  - rewrite reverse_cons in E.
    assert (waiting (pool st) = []) as Hw.
    { destruct (waiting (pool st)) eqn:Ew; [done|]. destruct (Hb ltac:(done)) as [Hav _]. rewrite Hav in E.
      by destruct (reverse l). }
    split; cbn -[seq].
    + rewrite <- Hs, E, held_insert by done. by rewrite <- app_assoc.
    + rewrite Hw in *. rewrite app_nil_r in *. by rewrite Ho, seq_snoc.
    + intros c Hc. destruct (decide (c = arrivals st)) as [->|Hne]; [set_solver|].
      rewrite lookup_insert_ne in Hc by done. apply Hh in Hc. set_solver.
    + by rewrite Hw.
    + intros _. by apply Hst.
Qed.

Lemma finish_ok opened c st : pool_ok opened st -> pool_ok opened (step (EFinish c) st).
Proof.
  intros Hok. pose proof Hok as [Hs Ho Hh Hb Hst]. cbn [step]. unfold finish.
  destruct (held st !! c) as [s|] eqn:Hc; [|exact Hok]. unfold release.
  destruct (waiting (pool st)) as [|next rest] eqn:Ew; split; cbn.
  - rewrite <- Hs, (held_delete _ _ _ Hc). by rewrite <- app_assoc.
  - by rewrite Ew.
  - intros k Hk. apply Hh. destruct (decide (k = c)) as [->|Hne]; [by eexists | by rewrite lookup_delete_ne in Hk].
  - by rewrite Ew.
  - done.
  - assert (held st !! next = None) as Hn.
    { apply eq_None_not_Some. intros H%Hh. pose proof (NoDup_seq 0 (arrivals st)) as Hnd. rewrite <- Ho in Hnd.
      apply NoDup_app in Hnd as (_ & Hd & _). apply (Hd next H). set_solver. }
    rewrite held_insert; [|destruct (decide (next = c)) as [->|]; [apply lookup_delete_eq | by rewrite lookup_delete_ne]].
    rewrite <- Hs, (held_delete _ _ _ Hc). done.
  - by rewrite <- app_assoc.
  - intros k Hk. destruct (decide (k = next)) as [->|Hne]; [set_solver|]. rewrite lookup_insert_ne in Hk by done.
    assert (is_Some (held st !! k)) as H%Hh; [|set_solver].
    destruct (decide (k = c)) as [->|]; [by eexists | by rewrite lookup_delete_ne in Hk].
  - intros _. by apply Hb.
  - done.
Qed.

Lemma stop_ok opened st : pool_ok opened st -> pool_ok opened (step EStop st).
Proof.
  intros Hok. pose proof Hok as [Hs Ho Hh Hb Hst]. cbn [step]. unfold stop. destruct (started (pool st)); [|exact Hok]. cbn [negb].
  split; cbn; [| done | done | | done].
  - rewrite <- Hs, app_assoc. apply Permutation_app_comm.
  - intros Hw. destruct (Hb Hw) as [-> ->]. done.
Qed.

Lemma run_ok opened evs st : pool_ok opened st -> pool_ok opened (run evs st).
Proof.
  unfold run. revert st. induction evs as [|ev evs IH]; intros st H; [done|]. cbn. apply IH.
  destruct ev; [by apply work_ok | by apply finish_ok | by apply stop_ok].
Qed.

(** A waiting caller is served once as many callers as stand up to it in the queue have
    finished. *)
Lemma waiting_served c k evs st :
  waiting (pool st) !! k = Some c -> (k < finishes evs st)%nat -> c ∈ served (run evs st).
Proof.
  assert (forall evs st, served st ⊆ served (run evs st)) as Hmono.
  { clear. intros evs. unfold run. induction evs as [|ev evs IH]; intros st; [done|]. cbn. etransitivity; [|apply IH].
    destruct ev as [|c|]; cbn [step].
    - unfold withSession, acquire. repeat case_match; simplify_eq; cbn; set_solver.
    - unfold finish, release. repeat case_match; simplify_eq; cbn; set_solver.
    - unfold stop. case_match; cbn; set_solver. }
  revert k st. induction evs as [|ev evs IH]; intros k st Hk Hf; [cbn in Hf; lia|].
  unfold run. cbn [fold_left]. fold (run evs (step ev st)). cbn [finishes] in Hf. destruct ev as [|d|].
  - cbn [Nat.add] in Hf. apply (IH k); [|done]. cbn [step]. unfold withSession, acquire.
    repeat case_match; simplify_eq; cbn; try done. by apply lookup_app_l_Some.
  - destruct (held st !! d) as [s|] eqn:Hd; cbn [step] in *.
    2:{ unfold finish in *. rewrite Hd in *. by apply (IH k). }
    unfold finish, release in *. rewrite Hd in *. destruct (waiting (pool st)) as [|next rest] eqn:Ew; [done|].
    destruct k as [|k]; cbn in Hk; [injection Hk as ->; apply Hmono; cbn; set_solver|].
    apply (IH k); [done | lia].
  - cbn [Nat.add] in Hf. apply (IH k); [|done]. cbn [step]. unfold stop. by case_match.
Qed.

Lemma start_waiting settings dev credential : waiting (fst (start settings dev credential new_pool)) = [].
Proof.
  assert (forall n i p, waiting (fst (open_sessions dev n i p)) = waiting p) as Ho.
  { induction n as [|n IH]; intros i p; cbn; [done|]. destruct (C_OpenSession dev i); [by rewrite IH | done]. }
  unfold start. cbn [started new_pool]. destruct (match C_load dev with Ok _ => _ | Err e => _ end) as [[s label]|]; [|done].
  destruct credential as [c|]; [|done]. destruct (match C_OpenSession dev 0 with Ok _ => _ | Err e => _ end); [|done]. apply Ho.
Qed.

Lemma open_sessions_all dev f : (forall i, C_OpenSession dev i = Ok (f i)) ->
  forall n i p, open_sessions dev n i p =
  (mkPool (available p ++ map f (seq i n)) (waiting p) (started p) (hasStandingLogin p) (slot p) (resolvedLabel p), Ok tt).
Proof.
  intros Ho. induction n as [|n IH]; intros i p; cbn [open_sessions].
  - cbn. rewrite app_nil_r. by destruct p.
  - rewrite Ho, IH. cbn. by rewrite <- app_assoc.
Qed.

Lemma held_NoDup (m : gmap nat session) c c' s :
  NoDup (map snd (map_to_list m)) -> m !! c = Some s -> m !! c' = Some s -> c = c'.
Proof.
  intros Hnd Hc Hc'. destruct (decide (c = c')) as [|Hne]; [done|exfalso].
  rewrite (held_delete m c s Hc) in Hnd. apply NoDup_cons in Hnd as [Hn _]. apply Hn.
  apply list_elem_of_In, in_map_iff. exists (c', s). split; [done|]. apply list_elem_of_In, elem_of_map_to_list.
  by rewrite lookup_delete_ne.
Qed.

(** ** Tenants *)

Definition is_settled (c : call) : Prop := match status c with CSettled _ => True | _ => False end.

Record tenants_ok (st : tenants) : Prop := {
  t_tail : tenantLogin st = match length (calls st) with O => None | S n => Some n end;
  t_previous : forall i c, calls st !! i = Some c -> previous c = match i with O => None | S j => Some j end;
  t_released : forall i, i ∈ released st -> exists c, calls st !! i = Some c /\ is_settled c;
  t_begun : forall i c, calls st !! i = Some c -> status c <> CWaiting -> awaited st c = true;
  t_login : forall i c s, calls st !! i = Some c -> status c = CWorking s ->
    loggedIn st = Some (pin (username (credential c)) (password (credential c)));
}.

(** Before a call that its predecessor let go, all have been released. *)
Lemma released_below st i c j :
  tenants_ok st -> calls st !! i = Some c -> awaited st c = true -> (j < i)%nat -> j ∈ released st.
Proof.
  intros Hok. revert c. induction i as [|i IH]; intros c Hc Ha Hj; [lia|].
  unfold awaited in Ha. rewrite (t_previous _ Hok _ _ Hc) in Ha. apply bool_decide_eq_true in Ha.
  destruct (decide (j = i)) as [->|Hne]; [done|].
  destruct (t_released _ Hok _ Ha) as (c' & Hc' & Hs). apply (IH c' Hc'); [|lia].
  apply (t_begun _ Hok _ _ Hc'). unfold is_settled in Hs. by destruct (status c').
Qed.

Lemma working_unique st i c s j c' s' :
  tenants_ok st -> calls st !! i = Some c -> status c = CWorking s -> calls st !! j = Some c' -> status c' = CWorking s' -> i = j.
Proof.
  intros Hok Hc Hs Hc' Hs'.
  assert (forall i c s j c' s', calls st !! i = Some c -> status c = CWorking s -> calls st !! j = Some c' ->
    status c' = CWorking s' -> ~ (i < j)%nat) as H.
  { clear -Hok. intros i c s j c' s' Hc Hs Hc' Hs' Hlt.
    pose proof (t_begun _ Hok _ _ Hc' ltac:(by rewrite Hs')) as Ha.
    destruct (t_released _ Hok _ (released_below _ _ _ _ Hok Hc' Ha Hlt)) as (c0 & Hc0 & Hset).
    rewrite Hc in Hc0. injection Hc0 as <-. unfold is_settled in Hset. by rewrite Hs in Hset. }
  pose proof (H _ _ _ _ _ _ Hc Hs Hc' Hs'). pose proof (H _ _ _ _ _ _ Hc' Hs' Hc Hs). lia.
Qed.

(** Nobody works while a call may go on. *)
Lemma idle st i c j c' s :
  tenants_ok st -> calls st !! i = Some c -> status c = CWaiting -> awaited st c = true ->
  calls st !! j = Some c' -> status c' <> CWorking s.
Proof.
  intros Hok Hc Hw Ha Hc' Hs. destruct (lt_eq_lt_dec i j) as [[Hlt| ->]|Hlt].
  - pose proof (t_begun _ Hok _ _ Hc' ltac:(by rewrite Hs)) as Ha'.
    destruct (t_released _ Hok _ (released_below _ _ _ _ Hok Hc' Ha' Hlt)) as (c0 & Hc0 & Hset).
    rewrite Hc in Hc0. injection Hc0 as <-. unfold is_settled in Hset. by rewrite Hw in Hset.
  - rewrite Hc in Hc'. injection Hc' as <-. congruence.
  - destruct (t_released _ Hok _ (released_below _ _ _ _ Hok Hc Ha Hlt)) as (c0 & Hc0 & Hset).
    rewrite Hc' in Hc0. injection Hc0 as <-. unfold is_settled in Hset. by rewrite Hs in Hset.
Qed.

(** A change of the status of one call that had not ended and may go on. *)
Lemma status_ok st i c r rel log :
  tenants_ok st -> calls st !! i = Some c -> ~ is_settled c -> awaited st c = true -> r <> CWaiting ->
  (forall j c' s, j <> i -> calls st !! j = Some c' -> status c' <> CWorking s) ->
  (rel = released st \/ rel = {[i]} ∪ released st /\ exists x, r = CSettled x) ->
  (forall s, r = CWorking s -> log = Some (pin (username (credential c)) (password (credential c)))) ->
  tenants_ok (mkTenants (alter (set_status r) i (calls st)) (tenantLogin st) rel log).
Proof.
  intros Hok Hc Hns Ha Hr Hidle Hrel Hlog.
  assert (forall j c', alter (set_status r) i (calls st) !! j = Some c' ->
    exists c0, calls st !! j = Some c0 /\ previous c' = previous c0 /\ credential c' = credential c0 /\
      status c' = if decide (j = i) then r else status c0) as Hl.
  { intros j c' H. destruct (decide (j = i)) as [->|Hne].
    - rewrite list_lookup_alter_eq, Hc in H. cbn in H. injection H as <-. exists c. done.
    - rewrite list_lookup_alter_ne in H by done. exists c'. done. }
  assert (released st ⊆ rel) as Hsub by (destruct Hrel as [->|[-> _]]; set_solver).
  split; cbn.
  - rewrite length_alter. apply (t_tail _ Hok).
  - intros j c' (c0 & H0 & -> & _)%Hl. by apply (t_previous _ Hok).
  - intros j Hj. destruct (decide (j = i)) as [->|Hne].
    + destruct Hrel as [->|[-> [x ->]]].
      * destruct (t_released _ Hok _ Hj) as (c0 & H0 & Hs). rewrite Hc in H0. by injection H0 as <-.
      * eexists. split; [rewrite list_lookup_alter_eq, Hc; reflexivity | done].
    + destruct (t_released _ Hok j) as (c0 & H0 & Hs); [destruct Hrel as [->|[-> _]]; set_solver|].
      exists c0. by rewrite list_lookup_alter_ne.
  - intros j c' (c0 & H0 & Hp & _ & Hst)%Hl Hw. unfold awaited. rewrite Hp.
    assert (awaited st c0 = true) as Ha0.
    { destruct (decide (j = i)) as [->|Hne]; [congruence|]. apply (t_begun _ Hok _ _ H0). congruence. }
    unfold awaited in Ha0. destruct (previous c0); [|done]. cbn. apply bool_decide_eq_true in Ha0. apply bool_decide_eq_true. set_solver.
  - intros j c' s (c0 & H0 & _ & Hcr & Hst)%Hl Hs. rewrite Hcr. destruct (decide (j = i)) as [->|Hne].
    + rewrite Hc in H0. injection H0 as <-. apply (Hlog s). congruence.
    + exfalso. apply (Hidle j c0 s Hne H0). congruence.
Qed.

Lemma tenant_step_ok p ev st : tenants_ok st -> tenants_ok (tenant_step p ev st).
Proof.
  intros Hok. destruct ev as [cr|i opened answer logout|i r logout]; cbn [tenant_step].
  - unfold withTenantLogin. destruct (started p); [|exact Hok]. destruct (hasStandingLogin p); [exact Hok|]. cbn [negb fst].
    split; cbn.
    + by rewrite length_app, Nat.add_1_r.
    + intros i c [[_ H]|[-> <-]]%lookup_snoc_Some; [by apply (t_previous _ Hok)|]. cbn. apply (t_tail _ Hok).
    + intros i (c & Hc & Hs)%(t_released _ Hok). exists c. split; [by apply lookup_app_l_Some | done].
    + intros i c [[_ H]|[-> <-]]%lookup_snoc_Some Hw; [by apply (t_begun _ Hok _ _ H) | done].
    + intros i c s [[_ H]|[-> <-]]%lookup_snoc_Some Hs; [by eapply (t_login _ Hok) | done].
  - unfold resume. destruct (calls st !! i) as [[c pr [|s|x]]|] eqn:Hc; try exact Hok.
    destruct (awaited st (mkCall c pr CWaiting)) eqn:Ha; [|exact Hok].
    assert (forall j c' s, j <> i -> calls st !! j = Some c' -> status c' <> CWorking s) as Hid
      by (intros j c' s _ H; by eapply (idle st i)).
    destruct opened as [s|e]; [unfold C_Login_token; destruct (loggedIn st) eqn:El; [|destruct answer]|]; unfold end_call.
    all: eapply status_ok; try done; eauto.
    all: try (by intros []). all: try (by right; eauto); try (by left).
  - unfold end_work. destruct (calls st !! i) as [[c pr [|s|x]]|] eqn:Hc; try exact Hok. unfold end_call.
    eapply status_ok; try done; eauto.
    + apply (t_begun _ Hok _ _ Hc). done.
    + intros j c' s' Hne Hc' Hs'. apply Hne. symmetry. by eapply working_unique.
Qed.

Lemma tenant_run_ok p evs st : tenants_ok st -> tenants_ok (tenant_run p evs st).
Proof.
  unfold tenant_run. revert st. induction evs as [|ev evs IH]; intros st H; [done|]. cbn. by apply IH, tenant_step_ok.
Qed.

Lemma no_tenants_ok : tenants_ok no_tenants.
Proof. by split. Qed.

(** What a step does to the call [i] and to the promises. *)
Lemma tenant_step_frame p ev st i c :
  calls st !! i = Some c ->
  (exists c', calls (tenant_step p ev st) !! i = Some c' /\ (is_settled c -> c' = c)) /\
  (is_settled c -> i ∈ released (tenant_step p ev st) -> i ∈ released st) /\ released st ⊆ released (tenant_step p ev st).
Proof.
  intros Hc. destruct ev as [cr|j opened answer logout|j r logout]; cbn [tenant_step].
  - unfold withTenantLogin. destruct (started p); [|by eauto]. destruct (hasStandingLogin p); [by eauto|]. cbn.
    split; [|done]. exists c. split; [by apply lookup_app_l_Some | done].
  - assert (forall r st', calls st' = alter (set_status r) j (calls st) ->
      (released st' = released st \/ released st' = {[j]} ∪ released st) -> ~ (j = i /\ is_settled c) ->
      (exists c', calls st' !! i = Some c' /\ (is_settled c -> c' = c)) /\
      (is_settled c -> i ∈ released st' -> i ∈ released st) /\ released st ⊆ released st') as Hgen.
    { intros r st' Hcalls Hrel Hn. rewrite Hcalls. split; [|split].
      - destruct (decide (j = i)) as [->|Hne].
        + rewrite list_lookup_alter_eq, Hc. eexists. split; [reflexivity|]. intros Hs. by destruct Hn.
        + rewrite list_lookup_alter_ne by done. by exists c.
      - intros Hs Hin. destruct Hrel as [Hrel|Hrel]; rewrite Hrel in Hin; [done|].
        apply elem_of_union in Hin as [->%elem_of_singleton|]; [by destruct Hn | done].
      - destruct Hrel as [-> | ->]; set_solver. }
    unfold resume. destruct (calls st !! j) as [[c0 pr [|s|x]]|] eqn:Hj; try by eauto.
    destruct (awaited st _); [|by eauto].
    assert (~ (j = i /\ is_settled c)) as Hn by (intros [-> Hs]; rewrite Hc in Hj; by injection Hj as ->).
    destruct opened as [s|e]; [destruct (C_Login_token _ _ _)|]; unfold end_call; eapply Hgen; cbn; eauto.
  - unfold end_work. destruct (calls st !! j) as [[c0 pr [|s|x]]|] eqn:Hj; try by eauto. unfold end_call. cbn.
    destruct (decide (j = i)) as [->|Hne].
    + rewrite Hc in Hj. injection Hj as ->. split; [|split; [done | set_solver]].
      rewrite list_lookup_alter_eq, Hc. eexists. by split.
    + rewrite list_lookup_alter_ne by done. split; [by exists c|]. set_solver.
Qed.

(** A call that settled without resolving its promise. *)
Definition stuck (i : nat) (st : tenants) : Prop :=
  tenants_ok st /\ i ∉ released st /\ exists c, calls st !! i = Some c /\ is_settled c.

Lemma stuck_run p i evs st : stuck i st -> stuck i (tenant_run p evs st).
Proof.
  unfold tenant_run. revert st. induction evs as [|ev evs IH]; intros st Hst; [exact Hst|]. cbn. apply IH.
  destruct Hst as (Hok & Hr & c & Hc & Hs). destruct (tenant_step_frame p ev st i c Hc) as ((c' & Hc' & Heq) & Hrel & _). rewrite (Heq Hs) in Hc'.
  split; [by apply tenant_step_ok|]. split; [naive_solver|]. by exists c.
Qed.

Lemma stuck_waits i st j c : stuck i st -> (i < j)%nat -> calls st !! j = Some c -> status c = CWaiting.
Proof.
  intros (Hok & Hr & _) Hlt Hc.
  assert (status c <> CWaiting -> False) as H; [|destruct (status c); [done | by destruct H ..]].
  intros Hw. apply Hr. eapply released_below; [exact Hok | exact Hc | | exact Hlt]. by apply (t_begun _ Hok _ _ Hc).
Qed.

(** No session failed to open. *)
Definition opens (evs : list tenant_event) : bool :=
  forallb (fun ev => match ev with TResume _ (Err _) _ _ => false | _ => true end) evs.

Lemma opens_released p evs st :
  (forall i c, calls st !! i = Some c -> is_settled c -> i ∈ released st) -> opens evs = true ->
  forall i c, calls (tenant_run p evs st) !! i = Some c -> is_settled c -> i ∈ released (tenant_run p evs st).
Proof.
  unfold tenant_run. revert st. induction evs as [|ev evs IH]; intros st H Ho; [done|]. cbn in *.
  apply andb_true_iff in Ho as [Hev Ho]. apply IH; [|done]. clear IH Ho evs.
  assert (forall j r st', calls st' = alter (set_status r) j (calls st) -> released st ⊆ released st' ->
    (forall x, r = CSettled x -> j ∈ released st') ->
    forall i c, calls st' !! i = Some c -> is_settled c -> i ∈ released st') as Hgen.
  { intros j r st' Hcalls Hsub Hr i c Hc Hs. rewrite Hcalls in Hc. destruct (decide (j = i)) as [->|Hne].
    - rewrite list_lookup_alter_eq in Hc. destruct (calls st !! i) as [c0|]; [|done]. cbn in Hc. injection Hc as <-.
      unfold is_settled in Hs. cbn in Hs. destruct r as [| |x]; try done. by eapply Hr.
    - rewrite list_lookup_alter_ne in Hc by done. eapply Hsub, H; eauto. }
  destruct ev as [cr|j opened answer logout|j r logout]; cbn [tenant_step].
  - unfold withTenantLogin. destruct (started p); [|exact H]. destruct (hasStandingLogin p); [exact H|]. cbn.
    intros i c [[_ Hc]|[-> <-]]%lookup_snoc_Some Hs; [by eapply H | by destruct Hs].
  - unfold resume. destruct (calls st !! j) as [[c0 pr [|s|x]]|] eqn:Hj; try exact H.
    destruct (awaited st _); [|exact H]. destruct opened as [s|e]; [|done].
    destruct (C_Login_token _ _ _); unfold end_call; eapply Hgen; cbn; try done; set_solver.
  - unfold end_work. destruct (calls st !! j) as [[c0 pr [|s|x]]|] eqn:Hj; try exact H.
    unfold end_call; eapply Hgen; cbn; try done; set_solver.
Qed.

(** * Properties *)

(** C38. The pool lends exclusively and loses nothing: in every run of calls, ends of work
    and a stop, from a pool started with distinct sessions, no two callers hold the same
    session; the free, the held and the closed sessions are those the pool was started
    with, each once; and while a caller waits, every session is held. *)
Theorem pool_exclusive :
  forall settings dev credential opened evs,
  let p := fst (start settings dev credential new_pool) in
  available p = opened -> NoDup opened ->
  let st := run evs (fresh p) in
  available (pool st) ++ map snd (map_to_list (held st)) ++ closed st ≡ₚ opened /\
  (forall c c' s, held st !! c = Some s -> held st !! c' = Some s -> c = c') /\
  (waiting (pool st) <> [] -> size (held st) = length opened).
Proof.
  intros settings dev credential opened evs p Ho Hnd st.
  assert (pool_ok opened st) as Hok by (apply run_ok; rewrite <- Ho; apply fresh_ok, start_waiting).
  pose proof (ok_sessions _ _ Hok) as Hs. split; [done|]. split.
  - intros c c' s Hc Hc'. rewrite <- Hs in Hnd. apply NoDup_app in Hnd as (_ & _ & Hnd). apply NoDup_app in Hnd as (Hnd & _).
    by eapply held_NoDup.
  - intros Hw. destruct (ok_busy _ _ Hok Hw) as [Ha Hc]. rewrite Ha, Hc, app_nil_r in Hs. cbn in Hs.
    rewrite <- Hs, length_map. by rewrite length_map_to_list.
Qed.

(** Callers are served in the order they arrive, and none waits for ever: the callers
    served and those waiting are all that arrived, in order; and a caller at place [k] of
    the queue has been served once [k + 1] lent pieces of work have ended, whatever calls
    and stops are made meanwhile. *)
Theorem pool_fair :
  forall settings dev credential evs,
  let st := run evs (fresh (fst (start settings dev credential new_pool))) in
  served st ++ waiting (pool st) = seq 0 (arrivals st) /\
  (forall k c evs', waiting (pool st) !! k = Some c -> (k < finishes evs' st)%nat -> c ∈ served (run evs' st)).
Proof.
  intros settings dev credential evs st. split.
  - unshelve eapply (ok_order _ _ (run_ok _ evs (fresh _) (fresh_ok _ _))). apply start_waiting.
  - intros k c evs'. apply waiting_served.
Qed.

(** What starting the pool leaves: with every answer of the library a success, a
    standing login and [max 1 poolSize] sessions, or none without a credential; and where
    the login is refused the call throws but the pool counts as started, so that a
    second [start] does nothing and returns, and [withSession] refuses to sign. *)
Theorem start_outcomes :
  forall settings dev s label c e,
  C_load dev = Ok tt -> C_Initialize dev = Ok tt -> findSlot settings dev = Ok (s, label) ->
  start settings dev None new_pool = (mkPool [] [] true false (Some s) label, Ok tt) /\
  (forall f, (forall i, C_OpenSession dev i = Ok (f i)) -> C_Login dev (pin (username c) (password c)) = Ok tt ->
     start settings dev (Some c) new_pool =
       (mkPool (map f (seq 0 (Nat.max 1 (Z.to_nat (poolSize settings))))) [] true true (Some s) label, Ok tt)) /\
  (forall h, C_OpenSession dev 0 = Ok h -> C_Login dev (pin (username c) (password c)) = Err e ->
     let p := mkPool [] [] true false (Some s) label in
     start settings dev (Some c) new_pool = (p, Err e) /\
     (forall settings' dev' c', start settings' dev' c' p = (p, Ok tt)) /\
     is_ok (snd (withSession (fresh p))) = false).
Proof.
  intros settings dev s label c e Hl Hi Hf. unfold start. cbn [started new_pool]. rewrite Hl, Hi, Hf.
  split; [done|]. split.
  - intros f Ho Hlog. rewrite Ho, Hlog. cbn [available new_pool app waiting started hasStandingLogin slot resolvedLabel].
    rewrite (open_sessions_all dev f Ho). cbn [available waiting started hasStandingLogin slot resolvedLabel].
    do 2 f_equal. change [f 0%nat] with (map f (seq 0 1)). rewrite <- map_app, <- seq_app. do 2 f_equal. lia.
  - intros h Ho Hlog. rewrite Ho, Hlog. done.
Qed.

(** One tenant at a time: in every run of [withTenantLogin] calls, whatever the library
    answers, at most one call's work runs; while it does, the token's login is that
    tenant's; and every earlier call has settled. *)
Theorem tenant_login_exclusive :
  forall p evs i c s,
  let st := tenant_run p evs no_tenants in
  calls st !! i = Some c -> status c = CWorking s ->
  loggedIn st = Some (pin (username (credential c)) (password (credential c))) /\
  (forall j c' s', calls st !! j = Some c' -> status c' = CWorking s' -> j = i) /\
  (forall j, (j < i)%nat -> exists c', calls st !! j = Some c' /\ is_settled c').
Proof.
  intros p evs i c s st Hc Hs. pose proof (tenant_run_ok p evs _ no_tenants_ok) as Hok. fold st in Hok.
  split; [by eapply (t_login _ Hok)|]. split.
  - intros j c' s' Hc' Hs'. by eapply working_unique.
  - intros j Hj. apply (t_released _ Hok). eapply released_below; [done | exact Hc | | done].
    apply (t_begun _ Hok _ _ Hc). by rewrite Hs.
Qed.

(** The queue of tenants moves on as long as sessions open: a waiting call whose
    predecessors have all settled may go on, even where logins were refused and work
    threw. But a session that fails to open blocks it: the promise of that call is
    never resolved, so every later call waits for ever, whatever happens next. *)
Theorem tenant_queue :
  forall p evs,
  let st := tenant_run p evs no_tenants in
  (opens evs = true -> forall i c, calls st !! i = Some c -> status c = CWaiting ->
     (forall j c', (j < i)%nat -> calls st !! j = Some c' -> is_settled c') -> awaited st c = true) /\
  (forall i c e answer logout evs' j c', calls st !! i = Some c -> status c = CWaiting -> awaited st c = true ->
     (i < j)%nat -> calls (tenant_run p (TResume i (Err e) answer logout :: evs') st) !! j = Some c' ->
     status c' = CWaiting).
Proof.
  intros p evs st. pose proof (tenant_run_ok p evs _ no_tenants_ok) as Hok. fold st in Hok. split.
  - intros Ho i c Hc Hw Hset. unfold awaited. rewrite (t_previous _ Hok _ _ Hc). destruct i as [|i]; [done|].
    apply bool_decide_eq_true. destruct (lookup_lt_is_Some_2 (calls st) i) as [c' Hc'].
    { apply lookup_lt_Some in Hc. lia. }
    apply (opens_released p evs no_tenants) with (c := c'); [by intros ? ? ? | done | done|]. by apply (Hset i c'); [lia|].
  - intros i c e answer logout evs' j c' Hc Hw Ha Hlt. change (tenant_run p (_ :: evs') st) with (tenant_run p evs' (tenant_step p (TResume i (Err e) answer logout) st)).
    apply (stuck_waits i); [|done]. apply stuck_run. split; [by apply tenant_step_ok|]. destruct c as [cr pr sc]. cbn in Hw. subst sc.
    cbn [tenant_step]. unfold resume. rewrite Hc, Ha. cbn. split.
    + intros Hin. destruct (t_released _ Hok _ Hin) as (c0 & Hc0 & Hs0). rewrite Hc in Hc0. by injection Hc0 as <-.
    + rewrite list_lookup_alter_eq, Hc. by eexists.
Qed.

(** ** Witnesses *)

(** A device with one token, which opens sessions 10, 11, ... *)
Definition example_device : Device :=
  mkDevice (Ok tt) (Ok tt) (Ok [7%nat]) (fun _ => Ok (js "cluster ")) (fun i => Ok (10 + i)%nat) (fun _ => Ok tt).
Definition example_settings : Pkcs11Settings := mkPkcs11Settings (js "/opt/lib.so") [] 2.
Definition example_credential : Credential := mkCredential (js "cu") (js "secret").

(** Three callers for two sessions: the third gets the session of the second. *)
Lemma pool_exclusive_witness :
  let st := run [EWork; EWork; EWork; EFinish 1] (fresh (fst (start example_settings example_device (Some example_credential) new_pool))) in
  held st !! 2%nat = Some 10%nat /\ forall c, held st !! c = Some 10%nat -> c = 2%nat.
Proof.
  intros st. split; [vm_compute; reflexivity|]. intros c Hc.
  destruct (pool_exclusive example_settings example_device (Some example_credential) [10%nat; 11%nat]
    [EWork; EWork; EWork; EFinish 1]) as (_ & H & _).
  - vm_compute. reflexivity.
  - repeat constructor; set_solver.
  - apply (H c 2%nat 10%nat Hc). vm_compute. reflexivity.
Defined.

Lemma pool_fair_witness :
  let st := run [EWork; EWork; EWork] (fresh (fst (start example_settings example_device (Some example_credential) new_pool))) in
  2%nat ∈ served (run [EWork; EFinish 0] st).
Proof.
  intros st. apply (proj2 (pool_fair example_settings example_device (Some example_credential) [EWork; EWork; EWork]) 0%nat 2%nat).
  - vm_compute. reflexivity.
  - vm_compute. lia.
Defined.

Lemma start_outcomes_witness :
  start example_settings example_device (Some example_credential) new_pool =
  (mkPool [10%nat; 11%nat] [] true true (Some 7%nat) (js "cluster"), Ok tt).
Proof.
  apply (proj1 (proj2 (start_outcomes example_settings example_device 7%nat (js "cluster") example_credential TOther
    eq_refl eq_refl eq_refl)) (fun i => (10 + i)%nat)); reflexivity.
Defined.

Definition example_pool : Pkcs11SessionPool := mkPool [] [] true false (Some 7%nat) (js "cluster").

Lemma tenant_login_exclusive_witness :
  loggedIn (tenant_run example_pool
    [TCall example_credential; TCall (mkCredential [] (js "pin")); TResume 1 (Ok 5%nat) (Ok tt) true;
     TResume 0 (Ok 4%nat) (Ok tt) true; TResume 1 (Ok 5%nat) (Ok tt) true; TEnd 0 (Err TOther) true;
     TResume 1 (Ok 5%nat) (Ok tt) true] no_tenants) = Some (js "pin").
Proof.
  apply (tenant_login_exclusive example_pool
    [TCall example_credential; TCall (mkCredential [] (js "pin")); TResume 1 (Ok 5%nat) (Ok tt) true;
     TResume 0 (Ok 4%nat) (Ok tt) true; TResume 1 (Ok 5%nat) (Ok tt) true; TEnd 0 (Err TOther) true;
     TResume 1 (Ok 5%nat) (Ok tt) true] 1 (mkCall (mkCredential [] (js "pin")) (Some 0%nat) (CWorking 5)) 5%nat); reflexivity.
Defined.

Lemma tenant_queue_witness :
  status <$> (calls (tenant_run example_pool
      [TResume 0 (Err TOther) (Ok tt) true; TResume 1 (Ok 5%nat) (Ok tt) true]
      (tenant_run example_pool [TCall example_credential; TCall (mkCredential [] (js "pin"))] no_tenants)) !! 1%nat) =
  Some CWaiting.
Proof.
  pose proof (proj2 (tenant_queue example_pool [TCall example_credential; TCall (mkCredential [] (js "pin"))])
    0%nat (mkCall example_credential None CWaiting) TOther (Ok tt) true [TResume 1 (Ok 5%nat) (Ok tt) true] 1%nat
    (mkCall (mkCredential [] (js "pin")) (Some 0%nat) CWaiting) eq_refl eq_refl eq_refl ltac:(lia) eq_refl) as H.
  etransitivity; [|exact (f_equal Some H)]. vm_compute. reflexivity.
Defined.
