(* ===== verification/ClientCert.v ===== *)
(** * Client certificates

    The forwarded certificate, [Xfcc] (packages/shared/fspiop/component/security/xfcc.ts),
    and [DfspCertificateGuard] (packages/apps/web-outbound/component/
    dfsp-certificate.guard.ts), which returns normally when the request may pass. The
    repository of certificates is an argument; logging is not modelled. *)

From S2P Require Import Prelude Errors.

Definition dquote : ascii := ascii_of_nat 34.
Definition backslash : ascii := ascii_of_nat 92.

(** ** Xfcc *)
Module Xfcc.

Record Xfcc : Set := mkXfcc { hash : jsstr; subject : option jsstr; by_ : option jsstr }.

(** The scanning loop: the pieces between unquoted separators. *)
Fixpoint unquoted_split (sep : ascii) (prev : option ascii) (quoted : bool) (s : jsstr) : list jsstr :=
  match s with
  | [] => [[]]
  | c :: s =>
      if bool_decide (c = dquote) && negb (bool_decide (prev = Some backslash))
      then match unquoted_split sep (Some c) (negb quoted) s with p :: ps => (c :: p) :: ps | [] => [[c]] end
      else if bool_decide (c = sep) && negb quoted then [] :: unquoted_split sep (Some c) quoted s
      else match unquoted_split sep (Some c) quoted s with p :: ps => (c :: p) :: ps | [] => [[c]] end
  end.

Definition firstEntry (header : jsstr) : jsstr := trim (default [] (head (unquoted_split ","%char None false header))).

(** [replace(/\\"/g, '"')] *)
Fixpoint unescape (s : jsstr) : jsstr :=
  match s with
  | [] => []
  | c :: s' =>
      match s' with
      | d :: s'' => if bool_decide (c = backslash) && bool_decide (d = dquote) then dquote :: unescape s'' else c :: unescape s'
      | [] => [c]
      end
  end.

Definition unquote (value : jsstr) : jsstr :=
  if (2 <=? length value)%nat && startsWith value [dquote] && endsWith value [dquote]
  then unescape (take (length value - 2) (drop 1 value))
  else value.

(** [take] of [splitPairs], on the pairs so far. *)
Definition take_pair (pairs : gmap jsstr jsstr) (segment : jsstr) : gmap jsstr jsstr :=
  match indexOf "="%char segment with
  | None | Some O => pairs
  | Some separator =>
      let key := toLowerCase (trim (take separator segment)) in
      let value := unquote (trim (drop (S separator) segment)) in
      match value, pairs !! key with
      | _ :: _, None => <[key := value]> pairs
      | _, _ => pairs
      end
  end.

Definition splitPairs (entry : jsstr) : gmap jsstr jsstr :=
  fold_left take_pair (unquoted_split ";"%char None false entry) ∅.

(** [/^[0-9a-f]{64}$/i] *)
Definition is_hex (c : ascii) : bool :=
  is_digit c || ((97 <=? code (lower_char c))%N && (code (lower_char c) <=? 102)%N).
Definition hash_test (h : jsstr) : bool := (length h =? 64)%nat && forallb is_hex h.

Definition parse (header : option jsstr) : option Xfcc :=
  match header with
  | None => None
  | Some header =>
      let firstEntry := firstEntry header in
      if (length firstEntry =? 0)%nat then None
      else
        let pairs := splitPairs firstEntry in
        match pairs !! js "hash" with
        | Some hash => if hash_test hash then Some (mkXfcc (toLowerCase hash) (pairs !! js "subject") (pairs !! js "by")) else None
        | None => None
        end
  end.
End Xfcc.

Definition invalid (message : string) : thrown := fspiop INVALID_SIGNATURE message.

(** ** DfspCertificateGuard *)
Module DfspCertificate.

(** The columns of a [ParticipantCert] the guard reads; times in milliseconds. *)
Record certificate : Set := mkCertificate { fspId : jsstr; status : jsstr; validFrom : Z; validTo : Z }.
Definition REVOKED : jsstr := js "revoked".

Definition readSource (source : option jsstr) : result thrown jsstr :=
  match source with
  | None => Err (fspiop MISSING_MANDATORY_ELEMENT "Missing mandatory header: fspiop-source.")
  | Some raw =>
      if (length (trim raw) =? 0)%nat then Err (fspiop MISSING_MANDATORY_ELEMENT "Missing mandatory header: fspiop-source.")
      else Ok (trim raw)
  end.

Definition assertUsable (c : certificate) (now : Z) : result thrown unit :=
  let! _ := throw_if (str_eqb (status c) REVOKED) (invalid "The client certificate presented has been revoked.") in
  throw_if ((validTo c <=? now) || (now <? validFrom c)) (invalid "The client certificate presented is not currently valid.").

(** [findByFingerprint] may throw, or find no row. *)
Definition canActivate (findByFingerprint : jsstr -> result thrown (option certificate)) (mandatory isPublic : bool)
    (xfcc source : option jsstr) (now : Z) : result thrown unit :=
  if isPublic then Ok tt
  else match Xfcc.parse xfcc with
       | None =>
           if negb mandatory then Ok tt else Err (invalid "No verified client certificate accompanied this request.")
       | Some presented =>
           let! source := readSource source in
           let! row := findByFingerprint (Xfcc.hash presented) in
           match row with
           | None => Err (invalid "The client certificate presented is not recognised.")
           | Some c =>
               let! _ := assertUsable c now in
               throw_if (negb (str_eqb (fspId c) source))
                 (invalid "The client certificate does not belong to the participant named in fspiop-source.")
           end
       end.
End DfspCertificate.

(** * Lemmas *)

Module XfccFacts.
Import Xfcc.

(** What a proxy prints of a subject between quotes. *)
Fixpoint escape (s : jsstr) : jsstr :=
  match s with
  | [] => []
  | c :: s => if bool_decide (c = dquote) then backslash :: dquote :: escape s else c :: escape s
  end.

Definition print_entry (by' hash subject : jsstr) : jsstr :=
  js "By=" ++ by' ++ js ";Hash=" ++ hash ++ js ";Subject=" ++ dquote :: escape subject ++ [dquote].

Definition prepend (p : jsstr) (l : list jsstr) : list jsstr :=
  match l with x :: xs => (p ++ x) :: xs | [] => [p] end.

Definition last_of (prev : option ascii) (p : jsstr) : option ascii :=
  match last p with Some c => Some c | None => prev end.

Lemma last_of_cons prev c p : last_of (Some c) p = last_of prev (c :: p).
Proof. unfold last_of. rewrite last_cons. by destruct (last p). Qed.

Lemma split_plain sep prev p r :
  Forall (fun c => c <> dquote /\ c <> sep) p ->
  unquoted_split sep prev false (p ++ r) = prepend p (unquoted_split sep (last_of prev p) false r).
Proof.
  intros H. revert prev. induction H as [|c p [Hd Hs] Hp IH]; intros prev; cbn [app].
  - unfold last_of. cbn. destruct r as [|d r]; cbn; [done|]. by repeat case_match.
  - cbn [unquoted_split]. rewrite (bool_decide_false _ Hd), (bool_decide_false _ Hs). cbn [andb]. rewrite IH, (last_of_cons prev).
    by destruct (unquoted_split sep (last_of prev (c :: p)) false r).
Qed.

Lemma split_escaped sep prev s r :
  (s = [] -> prev <> Some backslash) -> last s <> Some backslash ->
  unquoted_split sep prev true (escape s ++ dquote :: r) = prepend (escape s ++ [dquote]) (unquoted_split sep (Some dquote) false r).
Proof.
  assert (forall l, unquoted_split sep (Some dquote) false l <> []) as Hne.
  { intros [|d l]; cbn; [done|]. by repeat case_match. }
  revert prev. induction s as [|c s IH]; intros prev Hp Hl.
  - cbn [escape app unquoted_split]. rewrite bool_decide_true by done. rewrite bool_decide_false by auto. cbn [andb negb].
    unfold prepend. by destruct (unquoted_split sep (Some dquote) false r).
  - assert (last s <> Some backslash) as Hl' by (rewrite last_cons in Hl; by destruct (last s)).
    cbn [escape]. case_bool_decide as Hc; cbn [app unquoted_split].
    + rewrite (bool_decide_false (backslash = dquote)) by done. cbn [andb]. rewrite andb_false_r.
      rewrite (bool_decide_true (dquote = dquote)) by done. rewrite (bool_decide_true (Some backslash = _)) by done. cbn [andb negb].
      rewrite andb_false_r. rewrite IH; [|done|done]. unfold prepend. by destruct (unquoted_split sep (Some dquote) false r).
    + rewrite (bool_decide_false _ Hc). cbn [andb]. rewrite andb_false_r. rewrite IH; [|intros ->; cbn in Hl; congruence|done].
      unfold prepend. by destruct (unquoted_split sep (Some dquote) false r).
Qed.

Lemma unescape_escape s : unescape (escape s) = s.
Proof.
  induction s as [|c s IH]; [done|]. cbn [escape]. case_bool_decide as Hc.
  - subst c. cbn [unescape]. rewrite !bool_decide_true by done. cbn [andb]. by rewrite IH.
  - cbn [unescape]. destruct (escape s) as [|d t] eqn:E; [by destruct s|].
    assert (d <> dquote) as Hd.
    { destruct s as [|e s]; [done|]. cbn [escape] in E. case_bool_decide; by injection E as <- _. }
    rewrite (bool_decide_false _ Hd), andb_false_r. by rewrite IH.
Qed.

(** A text whose ends are no white space is trimmed. *)
Lemma trim_ends c m d : is_ws c = false -> is_ws d = false -> trim (c :: m ++ [d]) = c :: m ++ [d].
Proof.
  intros Hc Hd. unfold trim, trimEnd. cbn [trimStart]. rewrite Hc. rewrite reverse_cons, reverse_snoc. cbn [app trimStart]. rewrite Hd.
  rewrite reverse_cons, reverse_app. cbn. by rewrite reverse_involutive.
Qed.

Lemma unquote_quoted s : unquote (dquote :: escape s ++ [dquote]) = s.
Proof.
  unfold unquote, startsWith, endsWith. rewrite !bool_decide_true.
  - cbn [length]. rewrite length_app. cbn [length]. replace (2 <=? S (length (escape s) + 1))%nat with true by (symmetry; apply Nat.leb_le; lia).
    cbn [andb drop]. rewrite drop_0. replace (S (length (escape s) + 1) - 2)%nat with (length (escape s)) by lia.
    rewrite take_app_length. apply unescape_escape.
  - by exists (dquote :: escape s).
  - by exists (escape s ++ [dquote]).
Qed.

(** The characters of a lower-case hash. *)
Definition lower_hex (c : ascii) : bool := is_digit c || ((97 <=? code c)%N && (code c <=? 102)%N).

Lemma lower_hex_spec c : lower_hex c = true ->
  is_hex c = true /\ lower_char c = c /\ is_ws c = false /\ c <> dquote /\ c <> ","%char /\ c <> ";"%char.
Proof.
  assert (forallb (fun c => implb (lower_hex c) (is_hex c && bool_decide (lower_char c = c) && negb (is_ws c) &&
    negb (bool_decide (c = dquote)) && negb (bool_decide (c = ","%char)) && negb (bool_decide (c = ";"%char))))
    (map ascii_of_nat (seq 0 256)) = true) as H by (vm_compute; reflexivity).
  rewrite forallb_forall in H. intros Hc. specialize (H c). rewrite Hc in H. cbn [implb] in H.
  assert (In c (map ascii_of_nat (seq 0 256))) as Hin.
  { apply in_map_iff. exists (nat_of_ascii c). split; [apply ascii_nat_embedding|]. apply in_seq. pose proof (nat_ascii_bounded c). lia. }
  specialize (H Hin). bool_hyps. done.
Qed.

Lemma is_hex_lower c : is_hex c = true -> lower_hex (lower_char c) = true.
Proof.
  assert (forallb (fun c => implb (is_hex c) (lower_hex (lower_char c))) (map ascii_of_nat (seq 0 256)) = true) as H by (vm_compute; reflexivity).
  rewrite forallb_forall in H. intros Hc. specialize (H c). rewrite Hc in H. apply H.
  apply in_map_iff. exists (nat_of_ascii c). split; [apply ascii_nat_embedding|]. apply in_seq. pose proof (nat_ascii_bounded c). lia.
Qed.
End XfccFacts.

Module XfccParse.
Import Xfcc XfccFacts.

(** The value of a [By] pair: no separators or quotes, no white space at its ends. *)
Definition plain (s : jsstr) : Prop :=
  Forall (fun c => c <> dquote /\ c <> ","%char /\ c <> ";"%char) s /\ s <> [] /\ trim s = s.

Lemma plain_split sep s : plain s -> sep = ","%char \/ sep = ";"%char -> Forall (fun c => c <> dquote /\ c <> sep) s.
Proof. intros [H _] Hsep. eapply Forall_impl; [exact H|]. cbn. naive_solver. Qed.

Lemma hex_split sep h : Forall (fun c => lower_hex c = true) h -> sep = ","%char \/ sep = ";"%char ->
  Forall (fun c => c <> dquote /\ c <> sep) h.
Proof. intros H Hsep. eapply Forall_impl; [exact H|]. intros c Hc%lower_hex_spec. naive_solver. Qed.

Ltac literal := repeat constructor; discriminate.
Ltac literal_notin :=
  match goal with |- ?c ∉ ?l => apply (proj1 (bool_decide_eq_false (c ∈ l))); vm_compute; reflexivity end.

(** A separator that none of the parts of an entry has does not split it. *)
Lemma split_entry_comma prev b h s rest :
  plain b -> Forall (fun c => lower_hex c = true) h -> last s <> Some backslash ->
  unquoted_split ","%char prev false (print_entry b h s ++ rest) =
  prepend (print_entry b h s) (unquoted_split ","%char (Some dquote) false rest).
Proof.
  intros Hb Hh Hs. unfold print_entry. set (by_ := js "By="). set (hash_ := js ";Hash="). set (subject_ := js ";Subject=").
  assert (by_ ++ b ++ hash_ ++ h ++ subject_ ++ dquote :: escape s ++ [dquote] =
    (by_ ++ b ++ hash_ ++ h ++ subject_) ++ dquote :: escape s ++ [dquote]) as -> by (by rewrite <- !app_assoc).
  assert (Forall (fun c => c <> dquote /\ c <> ","%char) (by_ ++ b ++ hash_ ++ h ++ subject_)) as Hp.
  { rewrite !Forall_app. split; [literal|]. split; [by apply plain_split; [|left]|]. split; [literal|].
    split; [by apply hex_split; [|left] | literal]. }
  assert (forall prev, last_of prev (by_ ++ b ++ hash_ ++ h ++ subject_) = Some "="%char) as Hlast.
  { intros q. unfold last_of. rewrite !app_assoc, last_app. done. }
  set (p := by_ ++ b ++ hash_ ++ h ++ subject_) in *. clearbody p.
  rewrite <- app_assoc. rewrite (split_plain _ prev p) by done. rewrite Hlast.
  change ((dquote :: escape s ++ [dquote]) ++ rest) with (dquote :: (escape s ++ [dquote]) ++ rest). rewrite <- app_assoc.
  cbn [app unquoted_split]. rewrite (bool_decide_true (dquote = dquote)) by done.
  rewrite (bool_decide_false (Some _ = _)) by done. cbn [andb negb].
  rewrite split_escaped by done. unfold prepend. destruct (unquoted_split ","%char (Some dquote) false rest) as [|x xs];
    rewrite <- ?app_assoc; cbn [app]; rewrite <- ?app_assoc; done.
Qed.

Lemma firstEntry_print b h s rest :
  plain b -> Forall (fun c => lower_hex c = true) h -> last s <> Some backslash ->
  rest = [] \/ head rest = Some ","%char -> firstEntry (print_entry b h s ++ rest) = print_entry b h s.
Proof.
  intros Hb Hh Hs Hrest. unfold firstEntry. rewrite split_entry_comma by done.
  assert (exists l, unquoted_split ","%char (Some dquote) false rest = [] :: l) as [l ->].
  { destruct Hrest as [->|Hr]; [by eexists|]. destruct rest as [|c rest]; [done|]. injection Hr as ->. cbn. by eexists. }
  cbn [prepend head default]. rewrite app_nil_r. unfold print_entry.
  assert (exists m, js "By=" ++ b ++ js ";Hash=" ++ h ++ js ";Subject=" ++ dquote :: escape s ++ [dquote] = "B"%char :: m ++ [dquote])
    as [m ->].
  { exists (js "y=" ++ b ++ js ";Hash=" ++ h ++ js ";Subject=" ++ dquote :: escape s). rewrite <- !app_assoc. done. }
  by apply trim_ends.
Qed.

Lemma take_pair_new pairs key k value v :
  "="%char ∉ key -> key <> [] -> toLowerCase (trim key) = k -> unquote (trim value) = v -> v <> [] -> pairs !! k = None ->
  take_pair pairs (key ++ "="%char :: value) = <[k := v]> pairs.
Proof.
  intros Hk Hne <- Hv Hvne Hn. unfold take_pair. rewrite indexOf_app by done.
  destruct (length key) as [|n] eqn:E; [by destruct key|]. rewrite <- E, take_app_length.
  replace (drop (S (length key)) (key ++ "="%char :: value)) with value
    by (rewrite drop_app_ge by lia; by replace (S (length key) - length key)%nat with 1%nat by lia).
  rewrite Hv, Hn. by destruct v.
Qed.

Lemma splitPairs_print b h s :
  plain b -> Forall (fun c => lower_hex c = true) h -> h <> [] -> s <> [] -> last s <> Some backslash ->
  splitPairs (print_entry b h s) = <[js "subject" := s]> (<[js "hash" := h]> (<[js "by" := b]> ∅)).
Proof.
  intros Hb Hh Hhne Hsne Hs. unfold splitPairs.
  assert (unquoted_split ";"%char None false (print_entry b h s) =
    [js "By" ++ "="%char :: b; js "Hash" ++ "="%char :: h; js "Subject" ++ "="%char :: dquote :: escape s ++ [dquote]]) as ->.
  { unfold print_entry. change (js ";Hash=" ++ ?x) with (";"%char :: (js "Hash=" ++ x)).
    change (js ";Subject=" ++ ?x) with (";"%char :: (js "Subject=" ++ x)).
    rewrite (split_plain _ None (js "By=")) by literal. rewrite (split_plain _ _ b) by (apply plain_split; [done | by right]).
    cbn [unquoted_split]. rewrite (bool_decide_false (";"%char = dquote)), (bool_decide_true (";"%char = ";"%char)) by done. cbn [andb negb].
    rewrite (split_plain _ _ (js "Hash=")) by literal. rewrite (split_plain _ _ h) by (apply hex_split; [done | by right]).
    cbn [unquoted_split]. rewrite (bool_decide_false (";"%char = dquote)), (bool_decide_true (";"%char = ";"%char)) by done. cbn [andb negb].
    rewrite (split_plain _ _ (js "Subject=")) by literal.
    cbn [unquoted_split]. rewrite (bool_decide_true (dquote = dquote)) by done.
    rewrite (bool_decide_false (last_of _ (js "Subject=") = _)) by done. cbn [andb negb].
    change (escape s ++ [dquote]) with (escape s ++ dquote :: []) at 1. rewrite split_escaped by done. cbn. by rewrite !app_nil_r. }
  assert (trim h = h) as Hth.
  { apply trim_no_ws. eapply Forall_impl; [exact Hh|]. by intros c (_ & _ & ? & _)%lower_hex_spec. }
  assert (forall v, v <> [] -> Forall (fun c => c <> dquote) v -> unquote v = v) as Hunq.
  { intros v _ Hv. unfold unquote, startsWith. rewrite (bool_decide_false ([dquote] `prefix_of` v)); [by rewrite andb_false_r|].
    intros [k ->]. by inversion Hv. }
  destruct Hb as (Hb & Hbne & Htb). cbn [fold_left].
  rewrite (take_pair_new ∅ (js "By") (js "by") b b).
  2-6: first [done | rewrite Htb; apply Hunq; [done | eapply Forall_impl; [exact Hb | naive_solver]] | set_solver | idtac].
  rewrite (take_pair_new _ (js "Hash") (js "hash") h h).
  2-6: first [done | rewrite Hth; apply Hunq; [done | eapply Forall_impl; [exact Hh | intros c Hc%lower_hex_spec; naive_solver]] | idtac].
  rewrite (take_pair_new _ (js "Subject") (js "subject") (dquote :: escape s ++ [dquote]) s); [reflexivity|..].
  all: try done; try literal_notin; try (by rewrite trim_ends, unquote_quoted by done);
    rewrite ?lookup_insert_ne by discriminate; apply lookup_empty.
Qed.

(** What the parser returns has a hash of 64 lower-case hexadecimal digits. *)
Lemma parse_hash header x : parse header = Some x -> length (hash x) = 64%nat /\ Forall (fun c => lower_hex c = true) (hash x).
Proof.
  unfold parse. destruct header as [header|]; [|done]. destruct (length _ =? 0)%nat; [done|].
  destruct (splitPairs _ !! js "hash") as [h|]; [|done]. destruct (hash_test h) eqn:Ht; [|done]. intros [= <-].
  unfold hash_test in Ht. apply andb_true_iff in Ht as [Hl%Nat.eqb_eq Hh]. cbn [hash]. unfold toLowerCase. rewrite length_map. split; [done|].
  apply Forall_forall. intros c Hc%list_elem_of_In. apply in_map_iff in Hc as (d & <- & Hd). apply is_hex_lower.
  by apply (proj1 (forallb_forall _ _) Hh).
Qed.
End XfccParse.

(** * Properties *)

(** The forwarded certificate is read from the first entry alone, as the proxy printed
    it: whatever follows a comma (entries a caller appended), and whatever quotes,
    commas and semicolons the subject has, the parser gives the hash, the subject and
    the verifier of that entry; and a hash it gives always has 64 lower-case hexadecimal
    digits. *)
Theorem xfcc_first_entry :
  (forall verifier hash subject rest,
   XfccParse.plain verifier -> length hash = 64%nat -> Forall (fun c => XfccFacts.lower_hex c = true) hash ->
   subject <> [] -> last subject <> Some backslash -> rest = [] \/ head rest = Some ","%char ->
   Xfcc.parse (Some (XfccFacts.print_entry verifier hash subject ++ rest)) =
     Some (Xfcc.mkXfcc hash (Some subject) (Some verifier))) /\
  (forall header x, Xfcc.parse header = Some x ->
     length (Xfcc.hash x) = 64%nat /\ Forall (fun c => XfccFacts.lower_hex c = true) (Xfcc.hash x)).
Proof.
  split; [|intros header x; apply XfccParse.parse_hash].
  intros b h s rest Hb Hl Hh Hsne Hs Hrest. unfold Xfcc.parse. rewrite XfccParse.firstEntry_print by done.
  assert ((length (XfccFacts.print_entry b h s) =? 0)%nat = false) as -> by done.
  rewrite XfccParse.splitPairs_print by (try done; by intros ->).
  rewrite lookup_insert_ne by discriminate. rewrite lookup_insert_eq.
  assert (Xfcc.hash_test h = true) as ->.
  { unfold Xfcc.hash_test. rewrite Hl. apply forallb_forall. intros c Hc%list_elem_of_In.
    by apply XfccFacts.lower_hex_spec, (proj1 (Forall_forall _ _) Hh). }
  f_equal. f_equal. unfold toLowerCase. rewrite <- (map_id h) at 2. apply map_ext_in. intros c Hc%list_elem_of_In.
  by apply XfccFacts.lower_hex_spec, (proj1 (Forall_forall _ _) Hh).
Qed.

(** The certificate guard admits a request exactly when the route is public, or no
    certificate is presented and none is mandatory, or the one presented was issued to
    the participant the request names, is not revoked, and is within its validity. *)
Theorem certificate_guard :
  forall find mandatory isPublic xfcc source now,
  DfspCertificate.canActivate find mandatory isPublic xfcc source now = Ok tt <->
  isPublic = true \/ (Xfcc.parse xfcc = None /\ mandatory = false) \/
  exists x c raw, Xfcc.parse xfcc = Some x /\ source = Some raw /\ trim raw <> [] /\
    find (Xfcc.hash x) = Ok (Some c) /\ DfspCertificate.status c <> DfspCertificate.REVOKED /\
    DfspCertificate.validFrom c <= now < DfspCertificate.validTo c /\ DfspCertificate.fspId c = trim raw.
Proof.
  intros find mandatory isPublic xfcc source now. unfold DfspCertificate.canActivate.
  destruct isPublic; [by split; [left|]|].
  destruct (Xfcc.parse xfcc) as [x|].
  2:{ destruct mandatory; cbn; split; try done; [|by right; left]. intros [|[[]|(? & ? & ? & ? & ?)]]; done. }
  split.
  - intros (src & Hsrc & (row & Hrow & H)%let_Ok)%let_Ok. right. right. destruct row as [c|]; [|done].
    apply let_Ok in H as ([] & Hu & Hid%throw_if_Ok). apply let_Ok in Hu as ([] & Hst%throw_if_Ok & Hv%throw_if_Ok).
    unfold DfspCertificate.readSource in Hsrc. destruct source as [raw|]; [|done].
    destruct (length (trim raw) =? 0)%nat eqn:El; [done|]. apply Ok_inj in Hsrc as <-. exists x, c, raw.
    unfold str_eqb in *. bool_hyps. apply Nat.eqb_neq in El. do 2 (split; [done|]). split; [by intros E; rewrite E in El|].
    split; [done|]. split; [done|]. split; [lia | done].
  - intros [|[[]|(x' & c & raw & [= ->] & -> & Hne & Hf & Hst & Hv & Hid)]]; [done..|].
    unfold DfspCertificate.readSource. destruct (trim raw) as [|ch rest] eqn:E; [done|]. cbn [length Nat.eqb]. rewrite Hf.
    unfold DfspCertificate.assertUsable, str_eqb. rewrite (bool_decide_false _ Hst). cbn [throw_if].
    rewrite (proj2 (Z.leb_gt _ _)), (proj2 (Z.ltb_ge _ _)) by lia. cbn [orb throw_if]. by rewrite (bool_decide_true _ Hid).
Qed.

Lemma xfcc_first_entry_witness :
  Xfcc.parse (Some (XfccFacts.print_entry (js "spiffe://proxy") (replicate 64 "a"%char) (js "CN=dfsp, O=") ++ js ",Hash=forged"))
  = Some (Xfcc.mkXfcc (replicate 64 "a"%char) (Some (js "CN=dfsp, O=")) (Some (js "spiffe://proxy"))).
Proof.
  apply (proj1 xfcc_first_entry).
  - split; [|split]; [|discriminate | reflexivity]. repeat constructor; discriminate.
  - reflexivity.
  - repeat constructor.
  - discriminate.
  - discriminate.
  - right. reflexivity.
Defined.
