(* ===== verification/Inbound.v ===== *)
(** * The inbound guard

    [FspInboundGuard] (packages/shared/fspiop/component/nest/guard/fsp-inbound.guard.ts):
    which requests the signature check lets in, and that it lets in what
    [FspiopSigningInterceptor] signs. The stores of keys and policies are arguments;
    logging is not modelled. *)

From S2P Require Import Prelude Errors Wire Json Signature ClientCert.

(** The exception for a header without its two members. *)
Definition missing_fields : thrown :=
  fspiop_msg MISSING_MANDATORY_ELEMENT
    (js "Header fspiop-signature is missing required fields: " ++ [dquote] ++ js "signature" ++ [dquote] ++
     js " and/or " ++ [dquote] ++ js "protectedHeader" ++ [dquote] ++ js ".").

Section guard.
  Context {number PublicKey : Type} `{JSNumber number} `{Buffers number}.
  Abbreviation json := (json number).
  Variables (createVerify : text -> PublicKey -> text -> json -> option bool)
    (verifyMode : jsstr -> FspiopVerifyMode) (getKey : jsstr -> option PublicKey).

(** A request: the headers the guard reads, the signature header as a text, and the body
    express parsed. *)
Record request : Type := mkRequest {
  source : option jsstr; signature : option text; uri : option jsstr; destination : option jsstr;
  method : jsstr; body : option json }.

(** [Object.keys(v).length === 0] *)
Definition no_keys (v : json) : bool :=
  match v with
  | JObject m => bool_decide (m = [])
  | JArray l => bool_decide (l = [])
  | JString s => bool_decide (s = [])
  | _ => true
  end.

Definition resolveBody (r : request) : option text :=
  match body r with
  | None | Some JNull => None
  | Some v => if no_keys v then None else Some (JSON_stringify v)
  end.

(** A member of a value that is not [null]. *)
Definition member (v : json) (name : string) : option json :=
  match v with JObject m => get_member (lit name) m | _ => None end.

Definition truthy (v : option json) : bool :=
  match v with
  | None | Some JNull => false
  | Some (JBool b) => b
  | Some (JNumber n) => negb (bool_decide (Number_text n = lit "0"))
  | Some (JString s) => negb (bool_decide (s = []))
  | Some (JArray _) | Some (JObject _) => true
  end.

Definition field_is (fields : list (text * json)) (name : string) (value : jsstr) : bool :=
  match get_member (lit name) fields with Some (JString s) => bool_decide (s = units value) | _ => false end.

Definition assertHeaderMatchesRequest (sigHeader : Header) (r : request) (source : jsstr) : result thrown unit :=
  match decodeProtectedHeader (protectedHeader sigHeader) with
  | None => Err (fspiop MALFORMED_SYNTAX "Header fspiop-signature carries a protectedHeader that is not valid JSON.")
  | Some fields =>
      let! _ := throw_if (negb (field_is fields "FSPIOP-Source" source))
        (invalid "Signed FSPIOP-Source does not match the fspiop-source header.") in
      let! _ := throw_if (negb (field_is fields "FSPIOP-HTTP-Method" (toUpperCase (method r))))
        (invalid "Signed FSPIOP-HTTP-Method does not match the request method.") in
      match uri r with
      | None => Err (fspiop MISSING_MANDATORY_ELEMENT "Missing mandatory header: fspiop-uri.")
      | Some uri =>
          let! _ := throw_if (negb (field_is fields "FSPIOP-URI" uri))
            (invalid "Signed FSPIOP-URI does not match the fspiop-uri header.") in
          match destination r with
          | None => Ok tt
          | Some destination =>
              throw_if (negb (field_is fields "FSPIOP-Destination" destination))
                (invalid "Signed FSPIOP-Destination does not match the fspiop-destination header.")
          end
      end
  end.

(** The check of a signature that is present. *)
Definition checkSignature (r : request) (source : jsstr) (signature : text) : result thrown unit :=
  match getKey source with
  | None => Err (fspiop_msg INVALID_SIGNATURE (js "No trusted public key registered for fspiop-source: '" ++ source ++ js "'."))
  | Some publicKey =>
      match JSON_parse signature with
      | None => Err (fspiop MALFORMED_SYNTAX "Header fspiop-signature must be a valid JSON object.")
      | Some JNull => Err (TError (js "Cannot read properties of null (reading 'signature')"))
      | Some v =>
          match member v "signature", member v "protectedHeader" with
          | Some s, Some p =>
              if truthy (Some s) && truthy (Some p) then
                match resolveBody r with
                | None => Err (invalid "A bodyless request cannot carry a verifiable JWS signature.")
                | Some body =>
                    let! _ := throw_if (negb (verify createVerify publicKey (mkHeader s p) body))
                      (invalid "JWS signature verification failed.") in
                    assertHeaderMatchesRequest (mkHeader s p) r source
                end
              else Err (missing_fields)
          | _, _ => Err (missing_fields)
          end
      end
  end.

(** [canActivate], with the counters of unsigned requests it accepted. *)
Definition canActivate (useJws : bool) (r : request) (unsignedAccepted : gmap jsstr Z) : gmap jsstr Z * result thrown unit :=
  if negb useJws then (unsignedAccepted, Ok tt)
  else
    match source r with
    | None | Some [] => (unsignedAccepted, Err (fspiop MISSING_MANDATORY_ELEMENT "Missing mandatory header: fspiop-source."))
    | Some source =>
        match verifyMode source with
        | Off => (unsignedAccepted, Ok tt)
        | mode =>
            match signature r, resolveBody r with
            | None, None => (unsignedAccepted, Ok tt)
            | None, _ | Some [], _ =>
                match mode with
                | VerifyIfPresent => (<[source := default 0 (unsignedAccepted !! source) + 1]> unsignedAccepted, Ok tt)
                | _ => (unsignedAccepted, Err (fspiop MISSING_MANDATORY_ELEMENT "Missing mandatory header: fspiop-signature."))
                end
            | Some signature, _ => (unsignedAccepted, checkSignature r source signature)
            end
        end
    end.
End guard.
Arguments request number : clear implicits.

(** ** Reference definitions *)

Section reference.
  Context {number PublicKey : Type} `{JSNumber number} `{Buffers number}.
  Abbreviation json := (json number).
  Abbreviation request := (request number).
  Variables (createVerify : text -> PublicKey -> text -> json -> option bool) (getKey : jsstr -> option PublicKey).

(** A protected header describes the request. *)
Definition describes (p : json) (r : request) (src : jsstr) : Prop :=
  exists fields u, decodeProtectedHeader p = Some fields /\ field_is fields "FSPIOP-Source" src = true /\
    field_is fields "FSPIOP-HTTP-Method" (toUpperCase (method r)) = true /\ uri r = Some u /\
    field_is fields "FSPIOP-URI" u = true /\
    (forall d, destination r = Some d -> field_is fields "FSPIOP-Destination" d = true).

(** The request carries a signature by the source's key over its body and itself. *)
Definition signed (r : request) (src : jsstr) : Prop :=
  exists sig key v s p body, signature r = Some sig /\ sig <> [] /\ getKey src = Some key /\
    JSON_parse sig = Some v /\ member v "signature" = Some s /\ member v "protectedHeader" = Some p /\
    truthy (Some s) = true /\ truthy (Some p) = true /\ resolveBody r = Some body /\
    verify createVerify key (mkHeader s p) body = true /\ describes p r src.

(** The signature header is missing or empty. *)
Definition unsigned (r : request) : Prop := signature r = None \/ signature r = Some [].

(** What the receiver of a request sees: its headers, method and parsed body. *)
Definition received (c : config (number := number)) : request :=
  mkRequest (c_headers c !! Names.FSPIOP_SOURCE) (c_signature c) (c_headers c !! Names.FSPIOP_URI)
    (c_headers c !! Names.FSPIOP_DESTINATION) (toUpperCase (default (js "get") (c_method c)))
    (Signature.resolveBody c ≫= JSON_parse).
End reference.

(** * Lemmas *)

Section facts.
  Context {number PublicKey : Type} `{JSNumber number} `{Buffers number}.
  Abbreviation json := (json number).
  Abbreviation request := (request number).
  Variables (createVerify : text -> PublicKey -> text -> json -> option bool)
    (verifyMode : jsstr -> FspiopVerifyMode) (getKey : jsstr -> option PublicKey).

Lemma assertHeader_Ok s p (r : request) src : assertHeaderMatchesRequest (mkHeader s p) r src = Ok tt <-> describes p r src.
Proof.
  unfold assertHeaderMatchesRequest, describes. cbn [protectedHeader]. destruct (decodeProtectedHeader p) as [fields|].
  2:{ split; [done|]. by intros (? & ? & ? & _). }
  rewrite let_Ok. setoid_rewrite let_Ok. setoid_rewrite throw_if_Ok. setoid_rewrite negb_false_iff. split.
  - intros (_ & Hs & _ & Hm & Hrest). destruct (uri r) as [u|]; [|done]. apply let_Ok in Hrest as (_ & Hu%throw_if_Ok%negb_false_iff & Hd).
    exists fields, u. do 5 (split; [done|]). intros d Hdd. rewrite Hdd in Hd. by apply throw_if_Ok, negb_false_iff in Hd.
  - intros (f' & u & [= <-] & Hs & Hm & -> & Hu & Hd). exists tt. split; [done|]. exists tt. split; [done|].
    apply let_Ok. exists tt. split; [by apply throw_if_Ok, negb_false_iff|].
    destruct (destination r) as [d|]; [|done]. by apply throw_if_Ok, negb_false_iff, Hd.
Qed.

Lemma checkSignature_Ok (r : request) src sig : signature r = Some sig -> sig <> [] ->
  checkSignature createVerify getKey r src sig = Ok tt <-> signed createVerify getKey r src.
Proof.
  intros Hsig Hne. unfold checkSignature, signed. split.
  - destruct (getKey src) as [key|]; [|done]. destruct (JSON_parse sig) as [v|] eqn:Hp; [|done]. intros Hv.
    assert (exists s p, member v "signature" = Some s /\ member v "protectedHeader" = Some p) as (s & p & Es & Ep).
    { destruct v; try done; destruct (member _ "signature"), (member _ "protectedHeader"); by eauto. }
    assert ((if truthy (Some s) && truthy (Some p) then
                match resolveBody r with
                | None => Err (invalid "A bodyless request cannot carry a verifiable JWS signature.")
                | Some body =>
                    let! _ := throw_if (negb (verify createVerify key (mkHeader s p) body)) (invalid "JWS signature verification failed.") in
                    assertHeaderMatchesRequest (mkHeader s p) r src
                end
              else Err missing_fields) = Ok tt) as Hc by (rewrite Es, Ep in Hv; by destruct v).
    destruct (truthy (Some s)) eqn:Ts, (truthy (Some p)) eqn:Tp; try done. cbn [andb] in Hc.
    destruct (resolveBody r) as [b|]; [|done]. apply let_Ok in Hc as (_ & Hver%throw_if_Ok%negb_false_iff & Hd%assertHeader_Ok).
    by exists sig, key, v, s, p, b.
  - intros (sig' & key & v & s & p & b & Hs & _ & -> & Hp & Es & Ep & Ts & Tp & Hb & Hver & Hd).
    assert (sig' = sig) as -> by congruence. rewrite Hp, Es, Ep, Ts, Tp, Hb. cbn [andb]. rewrite Hver.
    destruct v; try done; by apply assertHeader_Ok.
Qed.

(** The fields built of a request describe it to its receiver. *)
Lemma describes_built (r : request) i fields u :
  build i = Ok fields -> extract (Wire.uri i) = Ok u -> uri r = Some u -> Wire.method i = method r ->
  destination r = Wire.destination i -> (forall d, destination r = Some d -> trim d <> []) ->
  describes (JString (encode (JSON_stringify (fields_json fields : json)))) r (Wire.source i).
Proof.
  intros Hb Hu Hr Hm Hd Hblank. pose proof (decode_fields (number := number) _ _ Hb) as Hdec.
  destruct (build_fields _ _ Hb) as (path & Hp & Hf). assert (path = u) as -> by congruence.
  exists (map (fun '(k, v) => (units k, JString (units v))) fields), u. split; [done|].
  assert (forall name v, get_member (lit name) (map (fun '(k, v) => (units k, JString (units v))) fields : list (text * json)) = Some (JString (units v)) ->
    field_is (map (fun '(k, v) => (units k, JString (units v))) fields : list (text * json)) name v = true) as Hfield.
  { intros name v Hg. unfold field_is. rewrite Hg. by apply bool_decide_eq_true. }
  rewrite <- Hm. repeat split; try done; try (apply Hfield; by rewrite Hf).
  intros d Hdd. apply Hfield. rewrite Hf, <- Hd, Hdd. unfold present, isPresent.
  specialize (Hblank d Hdd). destruct (trim d); [done|]. reflexivity.
Qed.

(** A request with a signature of two texts. *)
Lemma canActivate_off (r : request) src counts : source r = Some src -> src <> [] -> verifyMode src = Off ->
  canActivate createVerify verifyMode getKey true r counts = (counts, Ok tt).
Proof. unfold canActivate. cbn [negb]. intros -> Hne ->. by destruct src. Qed.
Lemma canActivate_signature (r : request) src s p counts :
  source r = Some src -> src <> [] -> verifyMode src <> Off -> Forall unit16 s -> Forall unit16 p ->
  signature r = Some (header_text (mkHeader (JString s) (JString p) : Header (number := number))) -> s <> [] -> p <> [] ->
  canActivate createVerify verifyMode getKey true r counts =
    (counts, match getKey src with
             | None => Err (fspiop_msg INVALID_SIGNATURE (js "No trusted public key registered for fspiop-source: '" ++ src ++ js "'."))
             | Some publicKey =>
                 match resolveBody r with
                 | None => Err (invalid "A bodyless request cannot carry a verifiable JWS signature.")
                 | Some body =>
                     let! _ := throw_if (negb (verify createVerify publicKey (mkHeader (JString s) (JString p)) body))
                       (invalid "JWS signature verification failed.") in
                     assertHeaderMatchesRequest (mkHeader (JString s) (JString p)) r src
                 end
             end).
Proof.
  intros Hsrc Hne Hmode Hs Hp Hsig Hsne Hpne. unfold canActivate. cbn [negb]. rewrite Hsrc, Hsig. destruct src as [|a src]; [done|].
  assert (exists d t, header_text (mkHeader (JString s) (JString p) : Header (number := number)) = d :: t) as (d & t & Ht) by (by eexists _, _).
  assert (checkSignature createVerify getKey r (a :: src) (d :: t) = match getKey (a :: src) with
             | None => Err (fspiop_msg INVALID_SIGNATURE (js "No trusted public key registered for fspiop-source: '" ++ (a :: src) ++ js "'."))
             | Some publicKey =>
                 match resolveBody r with
                 | None => Err (invalid "A bodyless request cannot carry a verifiable JWS signature.")
                 | Some body =>
                     let! _ := throw_if (negb (verify createVerify publicKey (mkHeader (JString s) (JString p)) body))
                       (invalid "JWS signature verification failed.") in
                     assertHeaderMatchesRequest (mkHeader (JString s) (JString p)) r (a :: src)
                 end
             end) as Hcheck.
  { unfold checkSignature. rewrite <- Ht, header_text_parse by done. destruct (getKey (a :: src)); [|done].
    change (member (JObject _) "signature") with (Some (JString s : json)).
    change (member (JObject _) "protectedHeader") with (Some (JString p : json)). cbv iota beta.
    unfold truthy. rewrite (bool_decide_false (s = [])), (bool_decide_false (p = [])) by done. done. }
  rewrite Ht, Hcheck. by destruct (verifyMode (a :: src)).
Qed.
End facts.

(** * Properties *)

(** C26. The inbound guard admits a request exactly when signatures are not used, the
    source is not verified, the request has neither body nor signature, it is unsigned
    and the source's mode tolerates that, or its signature, by the key registered for
    the source, verifies over the body and its protected header names this source,
    method, URI and, where there is one, destination; and it counts exactly the
    unsigned requests it tolerates. *)
Theorem inbound_guard :
  forall (number PublicKey : Type) (numbers : JSNumber number) (buffers : Buffers number) createVerify verifyMode
    (getKey : jsstr -> option PublicKey) useJws (r : request number) m,
  let res := canActivate createVerify verifyMode getKey useJws r m in
  (snd res = Ok tt <->
   useJws = false \/ exists src, source r = Some src /\ src <> [] /\
     (verifyMode src = Off \/ (signature r = None /\ resolveBody r = None) \/
      (unsigned r /\ verifyMode src = VerifyIfPresent) \/ signed createVerify getKey r src)) /\
  (fst res = m \/ snd res = Ok tt /\ exists src, source r = Some src /\ verifyMode src = VerifyIfPresent /\
     unsigned r /\ fst res = <[src := default 0 (m !! src) + 1]> m).
Proof.
  intros number PublicKey numbers buffers createVerify verifyMode getKey useJws r m res. subst res. unfold canActivate, unsigned.
  destruct useJws; cbn [negb]; [|split; [by split; [left|] | by left]].
  destruct (source r) as [[|c src]|] eqn:Hsrc.
  1,3: split; [split; [done|]; intros [|(s & Hs & Hne & _)]; [done|]; congruence | by left].
  set (so := c :: src) in *.
  assert (forall P, (true = false \/ (exists s, Some so = Some s /\ s <> [] /\ P s)) <-> P so) as Hex.
  { intros P. split; [intros [|(s & [= <-] & _ & ?)]; done|]. intros HP. right. by exists so. }
  rewrite (Hex (fun s => _)). clear Hex. cbv beta.
  assert (signature r = None \/ signature r = Some [] -> ~ signed createVerify getKey r so) as Hno.
  { intros Hn (sig & ? & ? & ? & ? & ? & Hs & Hne & _). destruct Hn; congruence. }
  destruct (verifyMode so) eqn:Hmode; cbn [fst snd]; [split; [split; [by left | intros _; reflexivity] | by left]|..].
  all: destruct (signature r) as [[|d sig]|] eqn:Hs; [| |destruct (resolveBody r) eqn:Hb]; cbn [fst snd].
  all: try (rewrite (checkSignature_Ok createVerify getKey r so (d :: sig) Hs ltac:(done))).
  all: split; [naive_solver | first [by left | right; split; [done|]; exists so; naive_solver]].
Qed.

(** C25. A request the signing interceptor signs is let in by the inbound guard of a receiver that
    holds the matching public key, in every mode: the guard sees the request as it arrives,
    its body parsed and printed again. The request has a source with a key, a body that is the
    text of a JSON object, a destination that is not blank where it has one, and a path
    without a second scheme separator. Where the object has no members the signature is
    refused in every mode but [Off]. *)
Theorem signed_request_admitted :
  forall (number PrivateKey PublicKey : Type) (numbers : JSNumber number) (buffers : Buffers number) createSign createVerify
    (store : jsstr -> option PrivateKey) verifyMode (getKey : jsstr -> option PublicKey) (c c' : config) src priv pub b (m : list (text * json number)) counts,
  intercept (PrivateKeyJwsSigner createSign store) c = Ok c' ->
  c_headers c !! Names.FSPIOP_SOURCE = Some src -> src <> [] ->
  store src = Some priv -> getKey src = Some pub -> key_pair createSign createVerify priv pub ->
  Signature.resolveBody c = Some b -> Forall unit16 b -> JSON_parse b = Some (JObject m) ->
  (forall u, extract (resolveUrl c) = Ok u -> cut_scheme u = None) ->
  (forall d, c_headers c !! Names.FSPIOP_DESTINATION = Some d -> trim d <> []) ->
  canActivate createVerify verifyMode getKey true (received c') counts =
    (counts, match verifyMode src, m with
             | Off, _ => Ok tt
             | _, [] => Err (invalid "A bodyless request cannot carry a verifiable JWS signature.")
             | _, _ => Ok tt
             end).
Proof.
  intros number PrivateKey PublicKey numbers buffers createSign createVerify store verifyMode getKey c c' src priv pub b m counts
    Hi Hsrc Hne Hstore Hget Hk Hbody Hu Hm Hscheme Hdest.
  destruct (intercept_signed _ _ _ _ _ _ _ Hi Hsrc Hne Hstore Hbody) as (u & h & Hx & Hs & ->).
  assert (verifyMode src = Off \/ verifyMode src <> Off) as [Hoff|Hmode] by (destruct (verifyMode src); by auto).
  { rewrite Hoff. apply (canActivate_off createVerify verifyMode getKey _ src); [|done..]. unfold received. cbn [source c_headers]. by rewrite !lookup_insert_ne. }
  transitivity (counts, match m with [] => Err (invalid "A bodyless request cannot carry a verifiable JWS signature.") | _ => Ok tt end);
    [|by destruct (verifyMode src), m].
  destruct (sign_Ok _ _ _ _ _ Hs) as (fields & canonical & s & Hb & Hc & Ha & Hsig & ->).
  destruct (Hk _ _ _ Hsig) as (Hsne & Hascii & _).
  assert (canonical = JSON_stringify (JObject m : json number)) as -> by (apply canonicalize_Ok in Hc as (? & ? & ?); congruence).
  set (p := encode (JSON_stringify (fields_json fields : json number))) in *.
  assert (p <> []) as Hpne by (intros Hp%encode_nonempty; discriminate Hp).
  rewrite (canActivate_signature createVerify verifyMode getKey _ src s p);
    [|unfold received; cbn [source c_headers]; by rewrite !lookup_insert_ne | done | done
     |by eapply Forall_impl; [|exact ascii_unit16] | eapply Forall_impl; [apply encode_ascii | exact ascii_unit16]
     |done | done | done].
  rewrite Hget. f_equal.
  change (resolveBody (received _)) with (resolveBody (received c)).
  assert (body (received c) = Some (JObject m)) as Hrec by (unfold received; cbn [body]; by rewrite Hbody).
  unfold resolveBody. rewrite Hrec. destruct m as [|e m]; [done|]. cbn [no_keys]. rewrite bool_decide_false by done.
  rewrite (verify_signed createSign createVerify priv pub _ fields _ s _ Hk Hb Ha Hsig)
    by (by eapply canonicalize_idem). cbn [negb throw_if].
  apply assertHeader_Ok. change src with (Wire.source (mkInput (toUpperCase (default (js "get") (c_method c))) u src
    (c_headers c !! Names.FSPIOP_DESTINATION) (c_headers c !! Names.DATE) None)).
  apply (describes_built _ _ _ u Hb); cbn; rewrite ?lookup_insert_ne by done; try done; [by eapply extract_idemp; eauto | apply lookup_insert_eq].
Qed.

Lemma signed_request_admitted_witness :
  let c := mkConfig (Some (js "post")) (Some (js "/quotes")) (Some (js "https://hub/v2/"))
    (Some (DText (lit "{" ++ [34%N] ++ lit "a" ++ [34%N] ++ lit ": 1}")))
    (<[Names.FSPIOP_SOURCE := js "payer"]> (<[Names.FSPIOP_DESTINATION := js "payee"]> ∅)) None in
  exists c', intercept (PrivateKeyJwsSigner repeat_sign (fun _ => Some tt)) c = Ok c' /\
    canActivate repeat_verify (fun _ => Require_) (fun _ => Some tt) true (received c') ∅ = (∅, Ok tt).
Proof.
  intros c. assert (is_ok (intercept (PrivateKeyJwsSigner repeat_sign (fun _ => Some tt)) c) = true) as Hok by (vm_compute; reflexivity).
  destruct (intercept (PrivateKeyJwsSigner repeat_sign (fun _ => Some tt)) c) as [c'|e] eqn:E; [|discriminate Hok].
  exists c'. split; [reflexivity|].
  apply (signed_request_admitted text unit unit literal_numbers tally_buffers repeat_sign repeat_verify (fun _ => Some tt)
    (fun _ => Require_) (fun _ => Some tt) c c' (js "payer") tt tt (lit "{" ++ [34%N] ++ lit "a" ++ [34%N] ++ lit ": 1}")
    [(lit "a", JNumber (lit "1"))] ∅ E).
  - reflexivity.
  - discriminate.
  - reflexivity.
  - reflexivity.
  - apply repeat_pair.
  - reflexivity.
  - repeat constructor.
  - vm_compute. reflexivity.
  - intros u Hu. vm_compute in Hu. injection Hu as <-. reflexivity.
  - intros d Hd. vm_compute in Hd. injection Hd as <-. discriminate.
Defined.
