(* ===== verification/Access.v ===== *)
(** * The access guard

    [AccessGuard] (packages/apps/web-outbound/component/access.guard.ts): payload
    signatures, signed lookups and their nonces. jsonwebtoken, the locale, the engine's
    [Date.parse] and the UTF-8 of a Redis key are arguments. *)

From S2P Require Import Prelude Errors Dates Json Signature Jwt Redis ClientCert.

(** A header as node gives it. *)
Inductive header : Set := HMissing | HArray (values : list jsstr) | HValue (value : jsstr).

Definition SIGNED_LOOKUP_FRESHNESS_MS : Z := 5 * 60 * 1000.
Definition NONCE_KEY_PREFIX : jsstr := js "nonce:".
Definition NONCE_TTL_MS : Z := 10 * 60 * 1000.

Definition requireHeader (name : string) (h : header) : result thrown jsstr :=
  match h with
  | HMissing => Err (fspiop_msg MISSING_MANDATORY_ELEMENT (js "Missing mandatory header: " ++ js name ++ js "."))
  | HArray _ => Err (fspiop_msg MALFORMED_SYNTAX (js "Header " ++ js name ++ js " must contain exactly one value."))
  | HValue raw =>
      let value := trim raw in
      let! _ := throw_if (length value =? 0)%nat
        (fspiop_msg MISSING_MANDATORY_ELEMENT (js "Header " ++ js name ++ js " must not be empty.")) in
      Ok value
  end.

(** [\[ \t\]] *)
Definition is_blank (c : ascii) : bool := (code c =? 32)%N || (code c =? 9)%N.
Fixpoint drop_blanks (s : jsstr) : jsstr :=
  match s with c :: s' => if is_blank c then drop_blanks s' else s | [] => [] end.

(** [replace(/^Bearer[ \t]+/i, '')] *)
Definition strip_bearer (s : jsstr) : jsstr :=
  if bool_decide (toLowerCase (take 6 s) = js "bearer")
  then match drop 6 s with c :: r => if is_blank c then drop_blanks r else s | [] => s end
  else s.

Definition toToken (authorization : jsstr) : result thrown Token :=
  match split "."%char authorization with
  | [(_ :: _) as h; (_ :: _) as b; s] => Ok (mkToken (units h) (units b) (units s))
  | _ => Err (fspiop MALFORMED_SYNTAX "Header authorization must be a valid compact JWS token.")
  end.

(** The white space of [trim] among the code units. *)
Definition is_ws_unit (c : N) : bool :=
  ((9 <=? c)%N && (c <=? 13)%N) || existsb (N.eqb c) [32; 160; 5760; 8232; 8233; 8239; 8287; 12288; 65279]%N ||
  ((8192 <=? c)%N && (c <=? 8202)%N).

Section guard.
  Context {number PublicKey : Type} `{JSNumber number} `{Buffers number}.
  Abbreviation json := (json number).
  Abbreviation members := (list (text * json)).
  Variables (getKey : jsstr -> option PublicKey) (JsonWebToken_verify : text -> PublicKey -> option json)
    (localeCompare : text -> text -> Z) (Date_parse : jsstr -> option Z) (utf8 : text -> jsstr).

Record request : Type := mkRequest {
  source : header; date : header; authorization : header; originalUrl : option jsstr; url : jsstr; method : jsstr;
  body : option json }.

Definition requireAuthorization (r : request) : result thrown jsstr :=
  let! authorization := requireHeader "authorization" (authorization r) in
  Ok (trim (strip_bearer authorization)).

Definition toRequiredProtectedString (value : option json) (name : string) : result thrown text :=
  let e := fspiop_msg MALFORMED_SYNTAX (js "Authorization protected header " ++ js name ++
             js " must be a non-empty string of at most 128 characters.") in
  match value with
  | Some (JString v) => if forallb is_ws_unit v || (128 <? length v)%nat then Err e else Ok v
  | _ => Err e
  end.

Definition decodeTokenObject (encoded : text) (message : string) : result thrown members :=
  match jwt_decode (number := number) encoded with
  | Some decoded =>
      match JSON_parse decoded with
      | Some (JObject m) => Ok m
      | _ => Err (fspiop MALFORMED_SYNTAX message)
      end
  | None => Err (fspiop MALFORMED_SYNTAX message)
  end.

Definition resolveSourceAndKey (r : request) : result thrown (jsstr * PublicKey) :=
  let! source := requireHeader "fspiop-source" (source r) in
  match getKey source with
  | None => Err (fspiop_msg INVALID_SIGNATURE (js "No trusted access public key registered for fspiop-source: '" ++ source ++ js "'."))
  | Some k => Ok (source, k)
  end.

Definition validateFreshDate (date : jsstr) (now : Z) : result thrown unit :=
  match Date_parse date with
  | Some timestamp =>
      let! _ := throw_if (negb (str_eqb (toUTCString timestamp) date)) (invalid "Header date must be a valid RFC 7231 HTTP-date.") in
      throw_if (SIGNED_LOOKUP_FRESHNESS_MS <? Z.abs (now - timestamp)) (invalid "Header date is outside the allowed clock window.")
  | None => Err (invalid "Header date must be a valid RFC 7231 HTTP-date.")
  end.

Definition member_is (o : members) (name : string) (value : text) : bool :=
  match get_member (lit name) o with Some (JString v) => bool_decide (v = value) | _ => false end.

(** *** Payload signatures *)

(** [String(header)] *)
Definition header_string (h : header) : jsstr :=
  match h with HMissing => [] | HArray vs => join (js ",") vs | HValue v => v end.

Definition resolvePayload (r : request) : json :=
  match body r with
  | Some (JObject (e :: m)) => JObject (e :: m)
  | _ => JObject [(lit "date", JString (units (header_string (date r))))]
  end.

Definition verifyPayloadSignature (r : request) : result thrown unit :=
  let! resolved := resolveSourceAndKey r in
  let '(_, publicKey) := resolved in
  let! authorization := requireAuthorization r in
  let! token := toToken authorization in
  let! _ := throw_if (negb (jwt_verify JsonWebToken_verify publicKey token)) (invalid "Authorization signature verification failed.") in
  let requestPayload := resolvePayload r in
  let! tokenPayload := decodeTokenObject (t_body token) "Header authorization payload must be a valid JSON object." in
  throw_if (negb (bool_decide (toCanonicalJson localeCompare requestPayload = toCanonicalJson localeCompare (JObject tokenPayload))))
    (invalid "Authorization payload does not match request body.").

(** *** Signed lookups *)

(** The checks of [verifySignedGet] before the nonce is reserved: the source and the
    nonce. *)
Definition checkSignedGet (r : request) (now : Z) : result thrown (jsstr * text) :=
  let! resolved := resolveSourceAndKey r in
  let '(source, publicKey) := resolved in
  let! date := requireHeader "date" (date r) in
  let! authorization := requireAuthorization r in
  let! token := toToken authorization in
  let! protectedHeader := decodeTokenObject (t_header token) "Header authorization protected header must be a valid JSON object." in
  let! payload := decodeTokenObject (t_body token) "Header authorization payload must be a valid JSON object." in
  let! _ := throw_if (negb (member_is protectedHeader "alg" (lit "RS256"))) (invalid "Authorization algorithm must be RS256.") in
  let! _ := throw_if (negb (member_is protectedHeader "typ" (lit "JWT"))) (invalid "Authorization typ must be JWT.") in
  let! _ := throw_if (negb (jwt_verify JsonWebToken_verify publicKey token)) (invalid "Authorization signature verification failed.") in
  let! _ := throw_if (negb (bool_decide (t_body token = lit "e30")) || negb (bool_decide (payload = [])))
    (invalid "Authorization payload must be the empty JSON object.") in
  let expectedUri := default (url r) (originalUrl r) in
  let! _ := throw_if (negb (member_is protectedHeader "uri" (units expectedUri))) (invalid "Authorization uri does not match the request path.") in
  let! _ := throw_if (negb (member_is protectedHeader "method" (units (method r)))) (invalid "Authorization method does not match the request method.") in
  let! _ := throw_if (negb (member_is protectedHeader "date" (units date))) (invalid "Authorization date does not match the date header.") in
  let! _ := validateFreshDate date now in
  let! nonce := toRequiredProtectedString (get_member (lit "nonce") protectedHeader) "nonce" in
  Ok (source, nonce).

Definition nonceKey (source : jsstr) (nonce : text) : jsstr := NONCE_KEY_PREFIX ++ source ++ js ":" ++ utf8 nonce.

Definition verifySignedGet {S} {server : RedisServer S} (f : fault) (r : request) (now : Z) (s : S) : S * result thrown unit :=
  match checkSignedGet r now with
  | Err e => (s, Err e)
  | Ok (source, nonce) =>
      let '(s, reserved) := reserve f (nonceKey source nonce) NONCE_TTL_MS s in
      (s, let! reserved := reserved in
          throw_if (negb reserved) (invalid "Authorization nonce has already been used."))
  end.

(** The decorators of the route, and whether the policy asks for signatures. *)
Definition canActivate {S} {server : RedisServer S} (f : fault) (isPublic isSignedGet enabled : bool) (r : request) (now : Z) (s : S)
    : S * result thrown unit :=
  if isPublic then (s, Ok tt)
  else if isSignedGet then verifySignedGet f r now s
  else if negb enabled then (s, Ok tt)
  else (s, verifyPayloadSignature r).
End guard.
Arguments request number : clear implicits.

(** * Lemmas *)

Section facts.
  Context {number PublicKey : Type} `{JSNumber number} `{Buffers number}.
  Abbreviation json := (json number).
  Variables (getKey : jsstr -> option PublicKey) (JsonWebToken_verify : text -> PublicKey -> option json)
    (localeCompare : text -> text -> Z) (Date_parse : jsstr -> option Z).
  Abbreviation check := (checkSignedGet getKey JsonWebToken_verify Date_parse).

(** The token of a request, verified under a key. *)
Definition token_of (r : request number) (key : PublicKey) (token : Token) : Prop :=
  (let! a := requireAuthorization r in toToken a) = Ok token /\ jwt_verify JsonWebToken_verify key token = true.

(** What a part of a token decodes to. *)
Definition decodes (part : text) (m : list (text * json)) : Prop :=
  exists d, jwt_decode (number := number) part = Some d /\ JSON_parse d = Some (JObject m).

(** What a request that passes the checks is. *)
Record signed_get (r : request number) (now : Z) (source' : jsstr) (nonce : text) (date' : jsstr) (ts : Z) : Prop := {
  sg_source : requireHeader "fspiop-source" (source r) = Ok source';
  sg_date : requireHeader "date" (date r) = Ok date';
  sg_signed : exists k token h, getKey source' = Some k /\ token_of r k token /\ decodes (t_header token) h /\ t_body token = lit "e30" /\
    member_is h "alg" (lit "RS256") = true /\ member_is h "uri" (units (default (url r) (originalUrl r))) = true /\
    member_is h "method" (units (method r)) = true /\ member_is h "date" (units date') = true /\
    get_member (lit "nonce") h = Some (JString nonce);
  sg_fresh : Date_parse date' = Some ts /\ toUTCString ts = date' /\ Z.abs (now - ts) <= SIGNED_LOOKUP_FRESHNESS_MS;
}.

Lemma validateFreshDate_Ok d now u : validateFreshDate Date_parse d now = Ok u ->
  exists ts, Date_parse d = Some ts /\ toUTCString ts = d /\ Z.abs (now - ts) <= SIGNED_LOOKUP_FRESHNESS_MS.
Proof.
  unfold validateFreshDate. destruct (Date_parse d) as [ts|]; [|done].
  intros (u1 & H1%throw_if_Ok & H2%throw_if_Ok)%let_Ok. exists ts. apply negb_false_iff in H1.
  unfold str_eqb in H1. apply bool_decide_eq_true in H1. apply Z.ltb_ge in H2. done.
Qed.

Lemma decodeTokenObject_Ok part message m : decodeTokenObject part message = Ok m <-> decodes part m.
Proof.
  unfold decodeTokenObject, decodes. destruct (jwt_decode part) as [d|]; [|split; [done | by intros (? & ? & _)]].
  destruct (JSON_parse d) as [[| | | | |m']|] eqn:E; split; try done; try (intros (? & [= <-] & ?); congruence).
  intros <-%Ok_inj. by exists d.
Qed.

Lemma resolve_Ok (r : request number) x : resolveSourceAndKey getKey r = Ok x <->
  requireHeader "fspiop-source" (source r) = Ok (fst x) /\ getKey (fst x) = Some (snd x).
Proof.
  unfold resolveSourceAndKey. rewrite let_Ok. destruct x as [src k]. cbn [fst snd]. split.
  - intros (src' & Hs & Hk). destruct (getKey src') as [k'|] eqn:E; [|done]. by injection Hk as -> ->.
  - intros [Hs Hk]. exists src. by rewrite Hk.
Qed.

Lemma checkSignedGet_Ok (r : request number) now source' nonce :
  check r now = Ok (source', nonce) -> exists date' ts, signed_get r now source' nonce date' ts.
Proof.
  unfold checkSignedGet. intros ([src k] & [Hsrc Hkey]%resolve_Ok & Hc)%let_Ok. cbn [fst snd] in *.
  apply let_Ok in Hc as (d & Hd & Hc). apply let_Ok in Hc as (a & Ha & Hc).
  apply let_Ok in Hc as (t & Ht & Hc). apply let_Ok in Hc as (h & Hh%decodeTokenObject_Ok & Hc). apply let_Ok in Hc as (p & _ & Hc).
  apply let_Ok in Hc as (u1 & H1%throw_if_Ok%negb_false_iff & Hc). apply let_Ok in Hc as (u2 & _ & Hc).
  apply let_Ok in Hc as (u3 & H3%throw_if_Ok%negb_false_iff & Hc). apply let_Ok in Hc as (u4 & H4%throw_if_Ok & Hc).
  apply let_Ok in Hc as (u5 & H5%throw_if_Ok%negb_false_iff & Hc). apply let_Ok in Hc as (u6 & H6%throw_if_Ok%negb_false_iff & Hc).
  apply let_Ok in Hc as (u7 & H7%throw_if_Ok%negb_false_iff & Hc). apply let_Ok in Hc as (u8 & (ts & Hfresh)%validateFreshDate_Ok & Hc).
  apply let_Ok in Hc as (n & Hn & Hc). injection Hc as <- <-.
  apply orb_false_iff in H4 as [H4 _]. bool_hyps. exists d, ts. split; try done. exists k, t, h.
  split; [done|]. split; [by split; [rewrite Ha|]|]. repeat (split; [done|]).
  unfold toRequiredProtectedString in Hn. destruct (get_member (lit "nonce") h) as [[| | |v| |]|]; try done.
  destruct (_ || _); [done|]. by injection Hn as ->.
Qed.

(** The checks read the clock for the freshness of the date alone. *)
Lemma checkSignedGet_clock (r : request number) now now' x ts date' :
  check r now = Ok x -> requireHeader "date" (date r) = Ok date' -> Date_parse date' = Some ts ->
  Z.abs (now' - ts) <= SIGNED_LOOKUP_FRESHNESS_MS -> check r now' = Ok x.
Proof.
  intros Hc Hd Hp Hf. unfold checkSignedGet in *. rewrite Hd in *.
  destruct (resolveSourceAndKey getKey r) as [[src k]|]; [|done]. destruct (requireAuthorization r) as [a|]; [|done].
  destruct (toToken a) as [t|]; [|done]. destruct (decodeTokenObject (t_header t) _) as [h|]; [|done].
  destruct (decodeTokenObject (t_body t) _) as [b|]; [|done].
  repeat (match goal with |- context [throw_if ?b ?e] => destruct b; [discriminate Hc|]; cbn [throw_if] in * end).
  assert (validateFreshDate Date_parse date' now' = Ok tt) as ->.
  { apply let_Ok in Hc as (u & (ts' & Hp' & Hu & _)%validateFreshDate_Ok & _). rewrite Hp in Hp'. injection Hp' as <-.
    unfold validateFreshDate. rewrite Hp. unfold str_eqb. rewrite bool_decide_true by done. cbn [negb throw_if].
    by rewrite (proj2 (Z.ltb_ge _ _)). }
  by destruct (validateFreshDate Date_parse date' now).
Qed.

Lemma signed_get_fun r now now' src src' n n' d d' ts ts' :
  signed_get r now src n d ts -> signed_get r now' src' n' d' ts' -> src' = src /\ n' = n /\ ts' = ts.
Proof.
  intros [Hs Hd (k & t & h & _ & [Ht _] & (e & He & Hh) & _ & _ & _ & _ & _ & Hn) [Hp _]]
    [Hs' Hd' (k' & t' & h' & _ & [Ht' _] & (e' & He' & Hh') & _ & _ & _ & _ & _ & Hn') [Hp' _]].
  rewrite Hs in Hs'. injection Hs' as <-. rewrite Ht in Ht'. injection Ht' as <-. rewrite He in He'. injection He' as <-.
  rewrite Hh in Hh'. injection Hh' as <-. rewrite Hd in Hd'. injection Hd' as <-. rewrite Hp in Hp'. injection Hp' as <-.
  rewrite Hn in Hn'. by injection Hn' as <-.
Qed.

Lemma decodes_wf part m : decodes part m -> wf (JObject m).
Proof. intros (d & Hd%decode_units & Hp). by eapply parse_wf. Qed.

Lemma resolvePayload_wf (r : request number) : (forall v, body r = Some v -> wf v) -> wf (resolvePayload r).
Proof.
  intros Hb. assert (wf (JObject [(lit "date", JString (units (header_string (date r))))] : json)) as Hdate.
  { constructor; repeat constructor; apply units_unit16. }
  unfold resolvePayload. destruct (body r) as [[| | | | |[|e m]]|]; try done. by apply Hb.
Qed.

Lemma verifyPayload_Ok (r : request number) : verifyPayloadSignature getKey JsonWebToken_verify localeCompare r = Ok tt <->
  exists src key token p, requireHeader "fspiop-source" (source r) = Ok src /\ getKey src = Some key /\ token_of r key token /\
    decodes (t_body token) p /\ toCanonicalJson localeCompare (resolvePayload r) = toCanonicalJson localeCompare (JObject p).
Proof.
  unfold verifyPayloadSignature, token_of. split.
  - intros ([src k] & [Hsrc Hkey]%resolve_Ok & Hc)%let_Ok. cbn [fst snd] in *. apply let_Ok in Hc as (a & Ha & Hc).
    apply let_Ok in Hc as (t & Ht & Hc). apply let_Ok in Hc as (u & Hv%throw_if_Ok%negb_false_iff & Hc).
    apply let_Ok in Hc as (p & Hp%decodeTokenObject_Ok & He%throw_if_Ok%negb_false_iff). bool_hyps.
    exists src, k, t, p. by rewrite Ha.
  - intros (src & k & t & p & Hsrc & Hkey & [Ht Hv] & Hp & He). apply let_Ok in Ht as (a & Ha & Ht).
    rewrite (proj2 (resolve_Ok r (src, k))) by done. rewrite Ha, Ht, Hv. cbn [negb throw_if].
    rewrite (proj2 (decodeTokenObject_Ok _ _ _) Hp). by rewrite bool_decide_true.
Qed.
End facts.

(** A reservation, by what the server holds. *)
Lemma reserve_spec {S} {server : RedisServer S} key ttl (s : S) : 0 < ttl ->
  (view s !! key = None -> snd (reserve None key ttl s) = Ok true /\
     view (fst (reserve None key ttl s)) !! key = Some (js "1", Some ttl)) /\
  (is_Some (view s !! key) -> snd (reserve None key ttl s) = Ok false).
Proof.
  intros Ht. unfold reserve. rewrite call_None. cbn [fst snd]. pose proof (SET_spec key (js "1") true (Some ttl) s Ht) as H.
  cbn [andb] in H. split; intros Hk.
  - rewrite bool_decide_false in H by (rewrite Hk; by intros []). destruct H as [Hv ->]. split; [done|]. by rewrite Hv, lookup_insert_eq.
  - rewrite bool_decide_true in H by done. by destruct H as [_ ->].
Qed.

(** * Properties *)

(** A signed lookup is answered once: the guard lets pass only a request whose
    signature verifies under the key of its source, binding URI, method, date and
    nonce, with a date within five minutes of the clock; and once it let one pass, the
    same request is refused after any time but exactly ten minutes, when a date five
    minutes ahead is still fresh and the nonce has just expired. *)
Theorem signed_get_replay :
  forall (number PublicKey S : Type) (numbers : JSNumber number) (buffers : Buffers number) (server : RedisServer S)
    (getKey : jsstr -> option PublicKey) JsonWebToken_verify Date_parse utf8 r now (s s1 s2 : S) d,
  let guard := verifySignedGet getKey JsonWebToken_verify Date_parse utf8 None r in
  guard now s = (s1, Ok tt) -> 0 <= d ->
  exists source nonce date ts,
    signed_get getKey JsonWebToken_verify Date_parse r now source nonce date ts /\
    (view s2 !! nonceKey utf8 source nonce = view s1 !! nonceKey utf8 source nonce ≫= age d ->
     (snd (guard (now + d) s2) = Ok tt <-> d = NONCE_TTL_MS /\ ts = now + SIGNED_LOOKUP_FRESHNESS_MS)).
Proof.
  intros number PublicKey S numbers buffers server getKey JsonWebToken_verify Date_parse utf8 r now s s1 s2 d guard Hg Hd.
  subst guard. unfold verifySignedGet in *.
  destruct (checkSignedGet getKey JsonWebToken_verify Date_parse r now) as [[source nonce]|e] eqn:Hc; [|done].
  destruct (checkSignedGet_Ok _ _ _ _ _ _ _ Hc) as (date & ts & Hsg). exists source, nonce, date, ts. split; [done|]. intros Hv.
  destruct (reserve_spec (nonceKey utf8 source nonce) NONCE_TTL_MS s ltac:(done)) as [Hfree Htaken].
  destruct (reserve None (nonceKey utf8 source nonce) NONCE_TTL_MS s) as [s1' res]. cbn [fst snd] in *.
  assert (view s1 !! nonceKey utf8 source nonce = Some (js "1", Some NONCE_TTL_MS)) as H1.
  { destruct (view s !! nonceKey utf8 source nonce) as [x|] eqn:Ek.
    - rewrite Htaken in Hg by eauto. discriminate Hg.
    - destruct (Hfree eq_refl) as [-> Hn]. by injection Hg as <-. }
  rewrite H1 in Hv. cbn [mbind option_bind] in Hv. unfold age in Hv. cbn [snd fst] in Hv.
  destruct (reserve_spec (nonceKey utf8 source nonce) NONCE_TTL_MS s2 ltac:(done)) as [Hfree2 Htaken2].
  pose proof (sg_fresh _ _ _ _ _ _ _ _ _ Hsg) as (Hp & Hu & Hf).
  assert (NONCE_TTL_MS = 2 * SIGNED_LOOKUP_FRESHNESS_MS) as Httl by reflexivity.
  destruct (checkSignedGet getKey JsonWebToken_verify Date_parse r (now + d)) as [[source2 nonce2]|e] eqn:Hc2.
  - destruct (checkSignedGet_Ok _ _ _ _ _ _ _ Hc2) as (date2 & ts2 & Hsg2).
    destruct (signed_get_fun _ _ _ _ _ _ _ _ _ _ _ _ _ _ Hsg Hsg2) as (-> & -> & ->).
    pose proof (sg_fresh _ _ _ _ _ _ _ _ _ Hsg2) as (_ & _ & Hf2).
    destruct (Z.leb_spec NONCE_TTL_MS d).
    + destruct (reserve None _ _ s2) as [s3 res2]. cbn [fst snd] in *. destruct (Hfree2 Hv) as [-> _]. cbn [negb throw_if]. split; [lia | done].
    + destruct (reserve None _ _ s2) as [s3 res2]. cbn [fst snd] in *. rewrite Htaken2 by eauto. split; [done | lia].
  - split; [done|]. intros [-> Hts]. exfalso.
    rewrite (checkSignedGet_clock _ _ _ r now (now + NONCE_TTL_MS) (source, nonce) ts date) in Hc2; try done; [|lia].
    by destruct Hsg.
Qed.

(** A request that passes the check of its payload carries a token, verified under the
    key of its source, whose payload is the body but for the order of members; or, when
    the body is no object or has no members, the date header. Where the locale tells all
    names apart every such request passes. *)
Theorem payload_signature :
  forall (number PublicKey : Type) (numbers : JSNumber number) (buffers : Buffers number) (getKey : jsstr -> option PublicKey)
    JsonWebToken_verify localeCompare (r : request number),
  (forall v, body r = Some v -> wf v) ->
  let bound := exists src key token p, requireHeader "fspiop-source" (source r) = Ok src /\ getKey src = Some key /\
    token_of JsonWebToken_verify r key token /\ decodes (t_body token) p /\ same (resolvePayload r) (JObject p) in
  (verifyPayloadSignature getKey JsonWebToken_verify localeCompare r = Ok tt -> bound) /\
  (separating localeCompare -> bound -> verifyPayloadSignature getKey JsonWebToken_verify localeCompare r = Ok tt).
Proof.
  intros number PublicKey numbers buffers getKey JsonWebToken_verify localeCompare r Hb bound. subst bound.
  pose proof (resolvePayload_wf r Hb) as Hw. rewrite verifyPayload_Ok. split.
  - intros (src & key & t & p & Hs & Hk & Ht & Hp & He). exists src, key, t, p. do 4 (split; [done|]).
    by apply (canonical_to_same localeCompare); [|eapply decodes_wf|].
  - intros Hsep (src & key & t & p & Hs & Hk & Ht & Hp & He). exists src, key, t, p. do 4 (split; [done|]).
    apply same_canonical; [done..|by eapply decodes_wf|done].
Qed.

(** A text as the characters it has. *)
Definition chars (t : text) : jsstr := map ascii_of_N t.
Definition q (s : string) : text := [34%N] ++ lit s ++ [34%N].

(** A lookup dated five minutes ahead, sent again ten minutes later, passes again. *)
Lemma signed_get_replay_witness :
  let member k v := q k ++ lit ":" ++ q v in
  let protected := lit "{" ++ member "alg" "RS256" ++ lit "," ++ member "typ" "JWT" ++ lit "," ++ member "uri" "/transfers/1" ++ lit "," ++
    member "method" "GET" ++ lit "," ++ q "date" ++ lit ":" ++ [34%N] ++ units (toUTCString 300000) ++ [34%N] ++ lit "," ++
    member "nonce" "n" ++ lit "}" in
  let request := mkRequest (HValue (js "payer")) (HValue (toUTCString 300000))
    (HValue (js "Bearer " ++ chars (tally protected) ++ js ".e30.s")) (Some (js "/transfers/1")) (js "/transfers/1") (js "GET") None in
  let Date_parse (date : jsstr) := if str_eqb date (toUTCString 300000) then Some 300000 else None in
  let guard := verifySignedGet (number := text) (fun _ => Some tt) (fun _ _ => Some (JObject [])) Date_parse chars None request in
  let s1 := fst (guard 0 (∅ : keyspace)) in
  snd (guard 0 (∅ : keyspace)) = Ok tt /\
  snd (guard (0 + NONCE_TTL_MS) (elapse NONCE_TTL_MS s1)) = Ok tt.
Proof.
  intros member protected request Date_parse guard s1.
  assert (snd (guard 0 (∅ : keyspace)) = Ok tt) as Hok by (vm_compute; reflexivity). split; [exact Hok|].
  assert (guard 0 (∅ : keyspace) = (s1, Ok tt)) as Hg by (rewrite <- Hok; apply surjective_pairing).
  destruct (signed_get_replay text unit keyspace literal_numbers tally_buffers keyspace_server (fun _ => Some tt) (fun _ _ => Some (JObject []))
    Date_parse chars request 0 ∅ s1 (elapse NONCE_TTL_MS s1) NONCE_TTL_MS Hg ltac:(discriminate)) as (source & nonce & date & ts & Hsg & H).
  apply H; [exact (lookup_omap (age NONCE_TTL_MS) (s1 : keyspace) _)|]. split; [reflexivity|].
  destruct (sg_fresh _ _ _ _ _ _ _ _ _ Hsg) as [Hp _]. unfold Date_parse in Hp.
  destruct (str_eqb date _); [injection Hp as <-; reflexivity | discriminate].
Defined.

(** A payload signed with its members in another order, in a token printed differently. *)
Lemma payload_signature_witness :
  let payload := lit "{" ++ q "b" ++ lit " : null, " ++ q "a" ++ lit ":[1]}" in
  let request := mkRequest (HValue (js "payer")) HMissing
    (HValue (chars (tally (lit "{}")) ++ js "." ++ chars (tally payload) ++ js ".s")) None (js "/send") (js "POST")
    (Some (JObject [(lit "a", JArray [JNumber (lit "1")]); (lit "b", JNull)] : json text)) in
  verifyPayloadSignature (number := text) (fun _ => Some tt) (fun _ _ => Some (JObject [])) unit_compare request = Ok tt /\
  exists p, decodes (tally payload) p /\ same (resolvePayload request) (JObject p : json text).
Proof.
  intros payload request.
  assert (verifyPayloadSignature (fun _ => Some tt) (fun _ _ => Some (JObject [])) unit_compare request = Ok tt) as Hok
    by (vm_compute; reflexivity).
  split; [exact Hok|].
  destruct (payload_signature text unit literal_numbers tally_buffers (fun _ => Some tt) (fun _ _ => Some (JObject [])) unit_compare request)
    as [H _].
  - intros v [= <-]. repeat constructor; discriminate.
  - destruct (H Hok) as (src & key & t & p & _ & _ & [Ht _] & Hp & Hs). exists p. split; [|exact Hs].
    assert (t_body t = tally payload) as <-; [|exact Hp]. vm_compute in Ht. injection Ht as <-. vm_compute. reflexivity.
Defined.
