(* ===== verification/AuditTrail.v ===== *)
(** * The audited transaction

    core/audit: the row of the table [transactions] and the merge of
    [TransactionRepository.upsert], [dispute] and [resolveDispute]
    (domain/repository/transaction.repository.ts), and [AuditTransactionMapper]
    (domain/command/transaction/audit-transaction.mapper.ts), which turns the audit
    commands into inputs of the upsert.

    The columns are grouped by phase and participant; a column of the code is the member
    of the group that has its name. [undefined] and [null] are both [None], as the upsert
    stores them. Times are milliseconds. A decoded JSON document is a [doc]; what the code
    reads of it, by casting it, and its JSON text are the members of [Documents]. The ids
    of rows are the database's. The server takes the keys of the table as they are given:
    its collation is not modelled. *)

From S2P Require Import Prelude Errors Money Transfer SendMoney.

(** ** Documents *)

(** [response.party.partyIdInfo] as [toPartyIdInfo] types it. *)
Record PartyInfo : Set := mkPartyInfo {
  info_fspId : option jsstr; info_partyIdType : option jsstr; info_partyIdentifier : option jsstr;
  info_partySubIdOrType : option jsstr }.

Class Documents (doc num : Type) := {
  stringify : doc -> jsstr;                           (* JSON.stringify(value, JSON_REPLACER) *)
  as_quotes_request : doc -> QuotesPostRequest;
  as_quotes_response : doc -> QuotesIDPutResponse;
  as_transfers_request : doc -> TransfersPostRequest;
  as_transfers_response : doc -> TransfersIDPutResponse;
  partyIdInfo_of : doc -> option PartyInfo;           (* response.party?.partyIdInfo *)
  Number : jsstr -> num;
  isFinite : num -> bool }.

(** ** Columns *)

Record Participant : Set := mkParticipant { p_idType : option jsstr; p_id : option jsstr; p_subId : option jsstr }.

(** The columns outbound_*, inbound_* and connector_* of a phase. *)
Record Stamps : Set := mkStamps { outboundAt : option Z; inboundAt : option Z; connectorAt : option Z }.

Record Phase (D : Type) : Type := mkPhase {
  requestedAt : option Z; respondedAt : option Z; ph_request : option D; ph_response : option D;
  ph_error : option D; requestedBy : Stamps; respondedBy : Stamps }.
Arguments mkPhase {D}. Arguments requestedAt {D}. Arguments respondedAt {D}. Arguments ph_request {D}.
Arguments ph_response {D}. Arguments ph_error {D}. Arguments requestedBy {D}. Arguments respondedBy {D}.

(** The columns patch_*: the error is a text. *)
Record Patch (D : Type) : Type := mkPatch {
  patchRequestedAt : option Z; patchRespondedAt : option Z; patchRequest : option D; patchError : option jsstr }.
Arguments mkPatch {D}. Arguments patchRequestedAt {D}. Arguments patchRespondedAt {D}.
Arguments patchRequest {D}. Arguments patchError {D}.

Record Amounts (num : Type) : Type := mkAmounts {
  quotingCurrency : option jsstr; quotingAmount : option num; transferCurrency : option jsstr;
  transferAmount : option num; a_payeeReceiveAmount : option num; a_payeeFee : option num;
  a_payerFee : option num; a_schemeFee : option num }.
Arguments mkAmounts {num}. Arguments quotingCurrency {num}. Arguments quotingAmount {num}.
Arguments transferCurrency {num}. Arguments transferAmount {num}. Arguments a_payeeReceiveAmount {num}.
Arguments a_payeeFee {num}. Arguments a_payerFee {num}. Arguments a_schemeFee {num}.

Record Kind : Set := mkKind {
  k_initiatorType : option jsstr; k_transactionType : option jsstr; k_subScenario : option jsstr;
  k_transferState : option TransferState; k_amountType : option jsstr }.

Definition no_participant : Participant := mkParticipant None None None.
Definition no_stamps : Stamps := mkStamps None None None.
Definition no_phase {D} : Phase D := mkPhase None None None None None no_stamps no_stamps.
Definition no_patch {D} : Patch D := mkPatch None None None None.
Definition no_amounts {num} : Amounts num := mkAmounts None None None None None None None None.
Definition no_kind : Kind := mkKind None None None None None.

(** [TransactionRepository.UpsertInput] *)
Record UpsertInput (doc num : Type) : Type := mkUpsertInput {
  u_correlationId : jsstr; u_payerFsp : jsstr; u_payeeFsp : jsstr; u_payer : Participant; u_payee : Participant;
  u_kind : Kind; u_amounts : Amounts num; u_startedAt : Z; u_completedAt : option Z;
  u_possibleDispute : option bool; u_error : bool; u_flow : option Z; u_parties : Phase doc; u_quotes : Phase doc;
  u_transfers : Phase doc; u_patch : Patch doc; u_payerHomeTransactionId : option jsstr;
  u_payeeHomeTransactionId : option jsstr; u_createdAt : option Z }.
Arguments mkUpsertInput {doc num}. Arguments u_correlationId {doc num}. Arguments u_payerFsp {doc num}.
Arguments u_payeeFsp {doc num}. Arguments u_payer {doc num}. Arguments u_payee {doc num}. Arguments u_kind {doc num}.
Arguments u_amounts {doc num}. Arguments u_startedAt {doc num}. Arguments u_completedAt {doc num}.
Arguments u_possibleDispute {doc num}. Arguments u_error {doc num}. Arguments u_flow {doc num}.
Arguments u_parties {doc num}. Arguments u_quotes {doc num}. Arguments u_transfers {doc num}.
Arguments u_patch {doc num}. Arguments u_payerHomeTransactionId {doc num}.
Arguments u_payeeHomeTransactionId {doc num}. Arguments u_createdAt {doc num}.

(** A row of [transactions]; documents are JSON texts. *)
Record Row (num : Type) : Type := mkRow {
  payer_fsp : jsstr; payee_fsp : jsstr; row_payer : Participant; row_payee : Participant; row_kind : Kind;
  row_amounts : Amounts num; transaction_started_at : Z; transaction_completed_at : option Z;
  possible_dispute : bool; error : bool; flow : option Z; row_parties : Phase jsstr; row_quotes : Phase jsstr;
  row_transfers : Phase jsstr; row_patch : Patch jsstr; dispute_resolved_at : option Z;
  payer_home_transaction_id : option jsstr; payee_home_transaction_id : option jsstr; created_at : Z;
  updated_at : Z }.
Arguments mkRow {num}. Arguments payer_fsp {num}. Arguments payee_fsp {num}. Arguments row_payer {num}.
Arguments row_payee {num}. Arguments row_kind {num}. Arguments row_amounts {num}.
Arguments transaction_started_at {num}. Arguments transaction_completed_at {num}. Arguments possible_dispute {num}.
Arguments error {num}. Arguments flow {num}. Arguments row_parties {num}. Arguments row_quotes {num}.
Arguments row_transfers {num}. Arguments row_patch {num}. Arguments dispute_resolved_at {num}.
Arguments payer_home_transaction_id {num}. Arguments payee_home_transaction_id {num}. Arguments created_at {num}.
Arguments updated_at {num}.

(** ** SQL *)

(** [COALESCE(VALUES(c), transactions.c)] *)
Definition coalesce {A} (new old : option A) : option A := match new with Some _ => new | None => old end.

(** [CASE WHEN old IS NULL THEN new WHEN new IS NULL THEN old ELSE f(old, new) END] *)
Definition both (f : Z -> Z -> Z) (old new : option Z) : option Z :=
  match old, new with
  | None, _ => new
  | _, None => old
  | Some o, Some n => Some (f o n)
  end.
Definition least : option Z -> option Z -> option Z := both Z.min.
Definition greatest : option Z -> option Z -> option Z := both Z.max.

(** [CASE WHEN old.id IS NOT NULL AND new.id IS NULL THEN old.fsp ELSE new.fsp END]; the
    assignment is before that of the id, so it sees the old one. *)
Definition merge_fsp (old_id new_id : option jsstr) (old new : jsstr) : jsstr :=
  match old_id, new_id with Some _, None => old | _, _ => new end.

Definition merge_participant (old new : Participant) : Participant :=
  mkParticipant (coalesce (p_idType new) (p_idType old)) (coalesce (p_id new) (p_id old))
    (coalesce (p_subId new) (p_subId old)).

Definition merge_stamps (f : option Z -> option Z -> option Z) (old new : Stamps) : Stamps :=
  mkStamps (f (outboundAt old) (outboundAt new)) (f (inboundAt old) (inboundAt new))
    (f (connectorAt old) (connectorAt new)).

Definition merge_phase (old new : Phase jsstr) : Phase jsstr :=
  mkPhase (least (requestedAt old) (requestedAt new)) (greatest (respondedAt old) (respondedAt new))
    (coalesce (ph_request new) (ph_request old)) (coalesce (ph_response new) (ph_response old))
    (coalesce (ph_error new) (ph_error old)) (merge_stamps least (requestedBy old) (requestedBy new))
    (merge_stamps greatest (respondedBy old) (respondedBy new)).

Definition merge_patch (old new : Patch jsstr) : Patch jsstr :=
  mkPatch (least (patchRequestedAt old) (patchRequestedAt new))
    (greatest (patchRespondedAt old) (patchRespondedAt new))
    (coalesce (patchRequest new) (patchRequest old)) (coalesce (patchError new) (patchError old)).

Definition merge_kind (old new : Kind) : Kind :=
  mkKind (coalesce (k_initiatorType new) (k_initiatorType old))
    (coalesce (k_transactionType new) (k_transactionType old)) (coalesce (k_subScenario new) (k_subScenario old))
    (coalesce (k_transferState new) (k_transferState old)) (coalesce (k_amountType new) (k_amountType old)).

Definition merge_amounts {num} (old new : Amounts num) : Amounts num :=
  mkAmounts (coalesce (quotingCurrency new) (quotingCurrency old)) (coalesce (quotingAmount new) (quotingAmount old))
    (coalesce (transferCurrency new) (transferCurrency old)) (coalesce (transferAmount new) (transferAmount old))
    (coalesce (a_payeeReceiveAmount new) (a_payeeReceiveAmount old)) (coalesce (a_payeeFee new) (a_payeeFee old))
    (coalesce (a_payerFee new) (a_payerFee old)) (coalesce (a_schemeFee new) (a_schemeFee old)).

(** [ON DUPLICATE KEY UPDATE]: [old] is the row, [new] the [VALUES]. The column
    dispute_resolved_at is not assigned. *)
Definition merge {num} (old new : Row num) : Row num :=
  mkRow (merge_fsp (p_id (row_payer old)) (p_id (row_payer new)) (payer_fsp old) (payer_fsp new))
    (merge_fsp (p_id (row_payee old)) (p_id (row_payee new)) (payee_fsp old) (payee_fsp new))
    (merge_participant (row_payer old) (row_payer new)) (merge_participant (row_payee old) (row_payee new))
    (merge_kind (row_kind old) (row_kind new)) (merge_amounts (row_amounts old) (row_amounts new))
    (Z.min (transaction_started_at old) (transaction_started_at new))
    (coalesce (transaction_completed_at new) (transaction_completed_at old))
    (possible_dispute old || possible_dispute new) (error old || error new) (greatest (flow old) (flow new))
    (merge_phase (row_parties old) (row_parties new)) (merge_phase (row_quotes old) (row_quotes new))
    (merge_phase (row_transfers old) (row_transfers new)) (merge_patch (row_patch old) (row_patch new))
    (dispute_resolved_at old)
    (coalesce (payer_home_transaction_id new) (payer_home_transaction_id old))
    (coalesce (payee_home_transaction_id new) (payee_home_transaction_id old))
    (Z.min (created_at old) (created_at new)) (updated_at new).

Notation Table num := (gmap jsstr (Row num)).

Section repository.
  Context {doc num : Type} `{Documents doc num}.

(** [toJsonValue] *)
Definition toJsonValue (value : option doc) : option jsstr := stringify <$> value.

Definition phase_values (p : Phase doc) : Phase jsstr :=
  mkPhase (requestedAt p) (respondedAt p) (toJsonValue (ph_request p)) (toJsonValue (ph_response p))
    (toJsonValue (ph_error p)) (requestedBy p) (respondedBy p).

(** The [values] of the insert; dispute_resolved_at is left to its default, NULL. *)
Definition values (now : Z) (input : UpsertInput doc num) : Row num :=
  mkRow (u_payerFsp input) (u_payeeFsp input) (u_payer input) (u_payee input) (u_kind input) (u_amounts input)
    (u_startedAt input) (u_completedAt input) (default false (u_possibleDispute input)) (u_error input)
    (u_flow input) (phase_values (u_parties input)) (phase_values (u_quotes input))
    (phase_values (u_transfers input))
    (mkPatch (patchRequestedAt (u_patch input)) (patchRespondedAt (u_patch input))
       (toJsonValue (patchRequest (u_patch input))) (patchError (u_patch input)))
    None (u_payerHomeTransactionId input) (u_payeeHomeTransactionId input)
    (default (u_startedAt input) (u_createdAt input)) now.

(** [TransactionRepository.upsert]: one statement, the row is there afterwards. *)
Definition upsert (now : Z) (input : UpsertInput doc num) (t : Table num) : Table num :=
  let new := values now input in
  <[u_correlationId input := match t !! u_correlationId input with
                             | Some old => merge old new
                             | None => new
                             end]> t.
End repository.

(** The assignments of [dispute] and of the UPDATE of [resolveDispute]. *)
Definition disputed {num} (now : Z) (r : Row num) : Row num :=
  mkRow (payer_fsp r) (payee_fsp r) (row_payer r) (row_payee r) (row_kind r) (row_amounts r)
    (transaction_started_at r) (transaction_completed_at r) true (error r) (flow r) (row_parties r) (row_quotes r)
    (row_transfers r) (row_patch r) (dispute_resolved_at r) (payer_home_transaction_id r)
    (payee_home_transaction_id r) (created_at r) now.
Definition resolved {num} (now occurredAt : Z) (r : Row num) : Row num :=
  mkRow (payer_fsp r) (payee_fsp r) (row_payer r) (row_payee r) (row_kind r) (row_amounts r)
    (transaction_started_at r) (transaction_completed_at r) false (error r) (flow r) (row_parties r) (row_quotes r)
    (row_transfers r) (row_patch r) (Some occurredAt) (payer_home_transaction_id r)
    (payee_home_transaction_id r) (created_at r) now.

(** [TransactionRepository.dispute]; the handler throws NotFoundException on [false]. *)
Definition dispute {num} (now : Z) (correlationId : jsstr) (t : Table num) : Table num * bool :=
  match t !! correlationId with
  | Some r => (<[correlationId := disputed now r]> t, true)
  | None => (t, false)
  end.

(** [TransactionRepository.resolveDispute]: the result is [affectedRows > 0]. *)
Definition resolveDispute {num} (now : Z) (correlationId : jsstr) (occurredAt : Z) (t : Table num)
    : Table num * bool :=
  match t !! correlationId with
  | Some r => (<[correlationId := resolved now occurredAt r]> t, true)
  | None => (t, false)
  end.

(** ** AuditTransactionMapper *)

(** [TransactionMessage.InvocationGateway]; the gateway of a message that is none of
    these is [None]. *)
Inductive InvocationGateway : Set := Outbound | Inbound | Connector.

(** What the inputs of all audit commands have. *)
Record Audited : Set := mkAudited {
  a_correlationId : jsstr; a_payerFsp : jsstr; a_payeeFsp : jsstr; a_gateway : option InvocationGateway;
  a_occurredAt : option Z }.

(** The party members of the inputs of the parties commands. *)
Record AuditedParties : Set := mkAuditedParties { ap_payer : Participant; ap_payee : Participant }.

(** The other members of [AuditPartiesRequestCommand.Input]. *)
Record AuditedLookup : Set := mkAuditedLookup {
  al_initiatorType : option jsstr; al_transactionType : option jsstr; al_subScenario : option jsstr;
  al_payerHomeTransactionId : option jsstr; al_quotingCurrency : option jsstr; al_quotingAmount : option jsstr;
  al_amountType : option jsstr }.

Definition PARTIES_FLOW : Z := 1.
Definition QUOTES_FLOW : Z := 2.
Definition TRANSFERS_FLOW : Z := 3.

(** [resolveOccurredAt] *)
Definition resolveOccurredAt (now : Z) (value : option Z) : Z := default now value.

(** The six functions to...GatewayFields. *)
Definition toGatewayFields (gateway : option InvocationGateway) (occurredAt : Z) : Stamps :=
  match gateway with
  | Some Outbound => mkStamps (Some occurredAt) None None
  | Some Inbound => mkStamps None (Some occurredAt) None
  | Some Connector => mkStamps None None (Some occurredAt)
  | None => no_stamps
  end.

(** The phase columns of a request, a response and an error. *)
Definition requested {doc} (gateway : option InvocationGateway) (occurredAt : Z) (request : option doc) : Phase doc :=
  mkPhase (Some occurredAt) None request None None (toGatewayFields gateway occurredAt) no_stamps.
Definition responded {doc} (gateway : option InvocationGateway) (occurredAt : Z) (request response error : option doc)
    : Phase doc :=
  mkPhase None (Some occurredAt) request response error no_stamps (toGatewayFields gateway occurredAt).

(** [firstNonBlank] *)
Fixpoint firstNonBlank (values : list (option jsstr)) : jsstr :=
  match values with
  | [] => []
  | value :: values =>
      match trim <$> value with
      | Some normalized => if (0 <? length normalized)%nat then normalized else firstNonBlank values
      | None => firstNonBlank values
      end
  end.

(** [findExtensionValue], whose value is not trimmed. *)
Fixpoint extensionValue (extensionList : list Extension) (normalizedTargetKey : jsstr) : option jsstr :=
  match extensionList with
  | [] => None
  | x :: l => if bool_decide (ext_norm_key x = Some normalizedTargetKey) then ext_value x
              else extensionValue l normalizedTargetKey
  end.
Definition homeTransactionIdOf (extensionList : option ExtensionList) : option jsstr :=
  extensionValue (default [] extensionList) (toLowerCase (trim (js "homeTransactionId"))).

Section mapper.
  Context {doc num : Type} `{Documents doc num} (now : Z).
  Implicit Types input : Audited.

Definition toOptionalNumber (value : option jsstr) : option num :=
  match trim <$> value with
  | Some normalized =>
      if (length normalized =? 0)%nat then None
      else if isFinite (Number normalized) then Some (Number normalized) else None
  | None => None
  end.

Definition toFeeAmount (extensionList : option ExtensionList) (key : string) : option num :=
  toOptionalNumber (extensionValue (default [] extensionList) (toLowerCase (trim (js key)))).

(** [toQuoteExportAmounts]: payeeReceiveAmount, payeeFee, payerFee and schemeFee. *)
Definition toQuoteExportAmounts (response : option QuotesIDPutResponse)
    : option num * option num * option num * option num :=
  match response with
  | None => (None, None, None, None)
  | Some r => (toOptionalNumber (money_amount <$> payeeReceiveAmount r), toFeeAmount (q_extensionList r) "payeeFee",
               toFeeAmount (q_extensionList r) "payerFee", toFeeAmount (q_extensionList r) "schemeFee")
  end.

Definition toQuotesCorrelationId (fallback : jsstr) (request : option QuotesPostRequest) : jsstr :=
  firstNonBlank [transactionId <$> request; transactionRequestId <$> request; quoteId <$> request; Some fallback].
Definition toTransfersCorrelationId (fallback : jsstr) (request : option TransfersPostRequest) : jsstr :=
  firstNonBlank [tp_transferId <$> request; Some fallback].

(** [toTransfersRequest]: a request without an amount is none. *)
Definition toTransfersRequest (request : option doc) : option TransfersPostRequest :=
  match request with
  | Some d => match tp_amount (as_transfers_request d) with Some _ => Some (as_transfers_request d) | None => None end
  | None => None
  end.

(** [toPartiesRequestInput] *)
Definition toPartiesRequestInput (input : Audited) (p : AuditedParties) (l : AuditedLookup) (request : option doc)
    : UpsertInput doc num :=
  let occurredAt := resolveOccurredAt now (a_occurredAt input) in
  {| u_correlationId := a_correlationId input; u_payerFsp := a_payerFsp input; u_payeeFsp := a_payeeFsp input;
     u_payer := ap_payer p; u_payee := ap_payee p;
     u_kind := mkKind (al_initiatorType l) (al_transactionType l) (al_subScenario l) None (al_amountType l);
     u_amounts := mkAmounts (al_quotingCurrency l) (Number <$> al_quotingAmount l) None None None None None None;
     u_startedAt := occurredAt; u_completedAt := None; u_possibleDispute := None; u_error := false; u_flow := None;
     u_parties := requested (a_gateway input) occurredAt request; u_quotes := no_phase; u_transfers := no_phase;
     u_patch := no_patch; u_payerHomeTransactionId := al_payerHomeTransactionId l;
     u_payeeHomeTransactionId := None; u_createdAt := Some occurredAt |}.

(** [toPartiesResponseInput]: the party of the response before that of the message. *)
Definition toPartiesResponseInput (input : Audited) (p : AuditedParties) (response : option doc)
    : UpsertInput doc num :=
  let occurredAt := resolveOccurredAt now (a_occurredAt input) in
  let info := response ≫= partyIdInfo_of in
  {| u_correlationId := a_correlationId input; u_payerFsp := a_payerFsp input;
     u_payeeFsp := default (a_payeeFsp input) (info ≫= info_fspId); u_payer := ap_payer p;
     u_payee := mkParticipant (coalesce (info ≫= info_partyIdType) (p_idType (ap_payee p)))
                  (coalesce (info ≫= info_partyIdentifier) (p_id (ap_payee p)))
                  (coalesce (info ≫= info_partySubIdOrType) (p_subId (ap_payee p)));
     u_kind := no_kind; u_amounts := no_amounts; u_startedAt := occurredAt; u_completedAt := None;
     u_possibleDispute := None; u_error := false; u_flow := Some PARTIES_FLOW;
     u_parties := responded (a_gateway input) occurredAt None response None; u_quotes := no_phase;
     u_transfers := no_phase; u_patch := no_patch; u_payerHomeTransactionId := None;
     u_payeeHomeTransactionId := None; u_createdAt := Some occurredAt |}.

(** [toPartiesErrorInput] *)
Definition toPartiesErrorInput (input : Audited) (p : AuditedParties) (error : option doc) : UpsertInput doc num :=
  let occurredAt := resolveOccurredAt now (a_occurredAt input) in
  {| u_correlationId := a_correlationId input; u_payerFsp := a_payerFsp input; u_payeeFsp := a_payeeFsp input;
     u_payer := ap_payer p; u_payee := ap_payee p; u_kind := no_kind; u_amounts := no_amounts;
     u_startedAt := occurredAt; u_completedAt := Some occurredAt; u_possibleDispute := None; u_error := true;
     u_flow := Some PARTIES_FLOW; u_parties := responded (a_gateway input) occurredAt None None error;
     u_quotes := no_phase; u_transfers := no_phase; u_patch := no_patch; u_payerHomeTransactionId := None;
     u_payeeHomeTransactionId := None; u_createdAt := Some occurredAt |}.

(** What the quotes inputs take from the request. *)
Definition quoteParticipant (info : option PartyIdInfo) : Participant :=
  mkParticipant (partyIdType <$> info) (partyIdentifier <$> info) (info ≫= partySubIdOrType).
Definition quoteFsp (info : option PartyIdInfo) (fsp : jsstr) : jsstr := default fsp (info ≫= pii_fspId).
Definition quoteKind (request : option QuotesPostRequest) : Kind :=
  let type := qp_transactionType <$> request in
  mkKind (initiatorType <$> type) (scenario <$> type) (type ≫= tt_subScenario) None (qp_amountType <$> request).

(** [toQuotesRequestInput] *)
Definition toQuotesRequestInput (input : Audited) (body : option doc) : UpsertInput doc num :=
  let occurredAt := resolveOccurredAt now (a_occurredAt input) in
  let request := as_quotes_request <$> body in
  let payerParty := (fun r => partyIdInfo (qp_payer r)) <$> request in
  let payeeParty := (fun r => partyIdInfo (qp_payee r)) <$> request in
  let amount := qp_amount <$> request in
  {| u_correlationId := toQuotesCorrelationId (a_correlationId input) request;
     u_payerFsp := quoteFsp payerParty (a_payerFsp input); u_payeeFsp := quoteFsp payeeParty (a_payeeFsp input);
     u_payer := quoteParticipant payerParty; u_payee := quoteParticipant payeeParty; u_kind := quoteKind request;
     u_amounts := mkAmounts (money_currency <$> amount) ((fun m => Number (money_amount m)) <$> amount)
                    None None None None None None;
     u_startedAt := occurredAt; u_completedAt := None; u_possibleDispute := None; u_error := false; u_flow := None;
     u_parties := no_phase; u_quotes := requested (a_gateway input) occurredAt body; u_transfers := no_phase;
     u_patch := no_patch; u_payerHomeTransactionId := None; u_payeeHomeTransactionId := None;
     u_createdAt := Some occurredAt |}.

(** [toQuotesResponseInput] *)
Definition toQuotesResponseInput (input : Audited) (body answer : option doc) : UpsertInput doc num :=
  let occurredAt := resolveOccurredAt now (a_occurredAt input) in
  let request := as_quotes_request <$> body in
  let response := as_quotes_response <$> answer in
  let payerParty := (fun r => partyIdInfo (qp_payer r)) <$> request in
  let payeeParty := (fun r => partyIdInfo (qp_payee r)) <$> request in
  let amount := qp_amount <$> request in
  let transfer := response ≫= q_transferAmount in
  let '(payeeReceiveAmount, payeeFee, payerFee, schemeFee) := toQuoteExportAmounts response in
  {| u_correlationId := toQuotesCorrelationId (a_correlationId input) request;
     u_payerFsp := quoteFsp payerParty (a_payerFsp input); u_payeeFsp := quoteFsp payeeParty (a_payeeFsp input);
     u_payer := quoteParticipant payerParty; u_payee := quoteParticipant payeeParty; u_kind := quoteKind request;
     u_amounts := mkAmounts (money_currency <$> amount) ((fun m => Number (money_amount m)) <$> amount)
                    (money_currency <$> transfer) ((fun m => Number (money_amount m)) <$> transfer)
                    payeeReceiveAmount payeeFee payerFee schemeFee;
     u_startedAt := occurredAt; u_completedAt := None; u_possibleDispute := None; u_error := false;
     u_flow := Some QUOTES_FLOW; u_parties := no_phase;
     u_quotes := responded (a_gateway input) occurredAt body answer None; u_transfers := no_phase;
     u_patch := no_patch; u_payerHomeTransactionId := None; u_payeeHomeTransactionId := None;
     u_createdAt := Some occurredAt |}.

(** [toQuotesErrorInput] *)
Definition toQuotesErrorInput (input : Audited) (body error : option doc) : UpsertInput doc num :=
  let occurredAt := resolveOccurredAt now (a_occurredAt input) in
  let request := as_quotes_request <$> body in
  let payerParty := (fun r => partyIdInfo (qp_payer r)) <$> request in
  let payeeParty := (fun r => partyIdInfo (qp_payee r)) <$> request in
  let amount := qp_amount <$> request in
  {| u_correlationId := toQuotesCorrelationId (a_correlationId input) request;
     u_payerFsp := quoteFsp payerParty (a_payerFsp input); u_payeeFsp := quoteFsp payeeParty (a_payeeFsp input);
     u_payer := quoteParticipant payerParty; u_payee := quoteParticipant payeeParty; u_kind := quoteKind request;
     u_amounts := mkAmounts (money_currency <$> amount) ((fun m => Number (money_amount m)) <$> amount)
                    None None None None None None;
     u_startedAt := occurredAt; u_completedAt := Some occurredAt; u_possibleDispute := None; u_error := true;
     u_flow := Some QUOTES_FLOW; u_parties := no_phase;
     u_quotes := responded (a_gateway input) occurredAt body None error; u_transfers := no_phase;
     u_patch := no_patch; u_payerHomeTransactionId := None; u_payeeHomeTransactionId := None;
     u_createdAt := Some occurredAt |}.

(** What the transfers inputs take from the request. *)
Definition transferAmounts (request : option TransfersPostRequest) : Amounts num :=
  let amount := request ≫= tp_amount in
  mkAmounts None None (money_currency <$> amount) ((fun m => Number (money_amount m)) <$> amount)
    None None None None.

(** [toTransfersRequestInput] *)
Definition toTransfersRequestInput (input : Audited) (body : option doc) : UpsertInput doc num :=
  let occurredAt := resolveOccurredAt now (a_occurredAt input) in
  let request := toTransfersRequest body in
  {| u_correlationId := toTransfersCorrelationId (a_correlationId input) request;
     u_payerFsp := default (a_payerFsp input) (payerFsp <$> request);
     u_payeeFsp := default (a_payeeFsp input) (payeeFsp <$> request); u_payer := no_participant;
     u_payee := no_participant; u_kind := no_kind; u_amounts := transferAmounts request;
     u_startedAt := occurredAt; u_completedAt := None; u_possibleDispute := None; u_error := false; u_flow := None;
     u_parties := no_phase; u_quotes := no_phase; u_transfers := requested (a_gateway input) occurredAt body;
     u_patch := no_patch;
     u_payerHomeTransactionId := request ≫= (fun r => homeTransactionIdOf (tp_extensionList r));
     u_payeeHomeTransactionId := None; u_createdAt := Some occurredAt |}.

(** [toTransfersResponseInput] *)
Definition toTransfersResponseInput (input : Audited) (body answer : option doc) : UpsertInput doc num :=
  let occurredAt := resolveOccurredAt now (a_occurredAt input) in
  let request := toTransfersRequest body in
  let response := as_transfers_response <$> answer in
  {| u_correlationId := toTransfersCorrelationId (a_correlationId input) request;
     u_payerFsp := default (a_payerFsp input) (payerFsp <$> request);
     u_payeeFsp := default (a_payeeFsp input) (payeeFsp <$> request); u_payer := no_participant;
     u_payee := no_participant; u_kind := mkKind None None None (Transfer.transferState <$> response) None;
     u_amounts := transferAmounts request; u_startedAt := occurredAt; u_completedAt := Some occurredAt;
     u_possibleDispute := None; u_error := false; u_flow := Some TRANSFERS_FLOW; u_parties := no_phase;
     u_quotes := no_phase; u_transfers := responded (a_gateway input) occurredAt body answer None;
     u_patch := no_patch;
     u_payerHomeTransactionId := request ≫= (fun r => homeTransactionIdOf (tp_extensionList r));
     u_payeeHomeTransactionId := None; u_createdAt := Some occurredAt |}.

(** [toTransfersErrorInput] *)
Definition toTransfersErrorInput (input : Audited) (body error : option doc) : UpsertInput doc num :=
  let occurredAt := resolveOccurredAt now (a_occurredAt input) in
  let request := toTransfersRequest body in
  {| u_correlationId := toTransfersCorrelationId (a_correlationId input) request;
     u_payerFsp := default (a_payerFsp input) (payerFsp <$> request);
     u_payeeFsp := default (a_payeeFsp input) (payeeFsp <$> request); u_payer := no_participant;
     u_payee := no_participant; u_kind := no_kind; u_amounts := transferAmounts request;
     u_startedAt := occurredAt; u_completedAt := Some occurredAt; u_possibleDispute := None; u_error := true;
     u_flow := Some TRANSFERS_FLOW; u_parties := no_phase; u_quotes := no_phase;
     u_transfers := responded (a_gateway input) occurredAt body None error; u_patch := no_patch;
     u_payerHomeTransactionId := request ≫= (fun r => homeTransactionIdOf (tp_extensionList r));
     u_payeeHomeTransactionId := None; u_createdAt := Some occurredAt |}.

(** The patch inputs; [toPatchResponseInput] stores the body the listener passes, which is
    the response of the message, in the column of the request. *)
Definition patchInput (input : Audited) (occurredAt : Z) (failed : bool) (patch : Patch doc) (home : option jsstr)
    (dispute : option bool) : UpsertInput doc num :=
  {| u_correlationId := a_correlationId input; u_payerFsp := a_payerFsp input; u_payeeFsp := a_payeeFsp input;
     u_payer := no_participant; u_payee := no_participant; u_kind := no_kind; u_amounts := no_amounts;
     u_startedAt := occurredAt; u_completedAt := None; u_possibleDispute := dispute; u_error := failed;
     u_flow := None; u_parties := no_phase; u_quotes := no_phase; u_transfers := no_phase; u_patch := patch;
     u_payerHomeTransactionId := None; u_payeeHomeTransactionId := home; u_createdAt := Some occurredAt |}.

Definition toPatchRequestInput (input : Audited) (body : option doc) : UpsertInput doc num :=
  let occurredAt := resolveOccurredAt now (a_occurredAt input) in
  patchInput input occurredAt false (mkPatch (Some occurredAt) None body None) None None.
Definition toPatchResponseInput (input : Audited) (body : option doc) (payeeHomeTransactionId : option jsstr)
    : UpsertInput doc num :=
  let occurredAt := resolveOccurredAt now (a_occurredAt input) in
  patchInput input occurredAt false (mkPatch None (Some occurredAt) body None) payeeHomeTransactionId None.
Definition toPatchErrorInput (input : Audited) (error : option jsstr) : UpsertInput doc num :=
  let occurredAt := resolveOccurredAt now (a_occurredAt input) in
  let failed := match error with Some _ => true | None => false end in
  patchInput input occurredAt failed (mkPatch None (Some occurredAt) None error) None (Some failed).
End mapper.

(** ** Reference: a row as a summary of its events

    What the upserts of a transaction leave, read off the list of their values, first to
    last, without the row. *)

Definition least_of (l : list Z) : option Z :=
  match l with [] => None | x :: l => Some (fold_right Z.min x l) end.
Definition greatest_of (l : list Z) : option Z :=
  match l with [] => None | x :: l => Some (fold_right Z.max x l) end.

(** The columns of a group over the events: the last value given, the least, the greatest. *)
Definition last_given {A B} (column : A -> option B) (l : list A) : option B := last (omap column l).
Definition earliest {A} (column : A -> option Z) (l : list A) : option Z := least_of (omap column l).
Definition latest {A} (column : A -> option Z) (l : list A) : option Z := greatest_of (omap column l).

Definition sum_participant (l : list Participant) : Participant :=
  mkParticipant (last_given p_idType l) (last_given p_id l) (last_given p_subId l).
Definition sum_stamps (f : (Stamps -> option Z) -> list Stamps -> option Z) (l : list Stamps) : Stamps :=
  mkStamps (f outboundAt l) (f inboundAt l) (f connectorAt l).
Definition sum_phase (l : list (Phase jsstr)) : Phase jsstr :=
  mkPhase (earliest requestedAt l) (latest respondedAt l) (last_given ph_request l) (last_given ph_response l)
    (last_given ph_error l) (sum_stamps earliest (map requestedBy l)) (sum_stamps latest (map respondedBy l)).
Definition sum_patch (l : list (Patch jsstr)) : Patch jsstr :=
  mkPatch (earliest patchRequestedAt l) (latest patchRespondedAt l) (last_given patchRequest l)
    (last_given patchError l).
Definition sum_kind (l : list Kind) : Kind :=
  mkKind (last_given k_initiatorType l) (last_given k_transactionType l) (last_given k_subScenario l)
    (last_given k_transferState l) (last_given k_amountType l).
Definition sum_amounts {num} (l : list (Amounts num)) : Amounts num :=
  mkAmounts (last_given quotingCurrency l) (last_given quotingAmount l) (last_given transferCurrency l)
    (last_given transferAmount l) (last_given a_payeeReceiveAmount l) (last_given a_payeeFee l)
    (last_given a_payerFee l) (last_given a_schemeFee l).

(** The events that have a party's id. *)
Definition named {num} (id : Row num -> option jsstr) (l : list (Row num)) : list (Row num) :=
  List.filter (fun x => match id x with Some _ => true | None => false end) l.

(** The participant of the last event that has its party's id, else of the last event. *)
Definition fsp_named {num} (id : Row num -> option jsstr) (fsp : Row num -> jsstr) (e : Row num)
    (es : list (Row num)) : jsstr :=
  match last (named id (e :: es)) with
  | Some x => fsp x
  | None => fsp (List.last es e)
  end.

Definition summary {num} (e : Row num) (es : list (Row num)) : Row num :=
  let l := e :: es in
  mkRow (fsp_named (fun x => p_id (row_payer x)) payer_fsp e es)
    (fsp_named (fun x => p_id (row_payee x)) payee_fsp e es)
    (sum_participant (map row_payer l)) (sum_participant (map row_payee l)) (sum_kind (map row_kind l))
    (sum_amounts (map row_amounts l)) (fold_right Z.min (transaction_started_at e) (map transaction_started_at es))
    (last_given transaction_completed_at l) (existsb possible_dispute l) (existsb error l) (latest flow l)
    (sum_phase (map row_parties l)) (sum_phase (map row_quotes l)) (sum_phase (map row_transfers l))
    (sum_patch (map row_patch l)) (dispute_resolved_at e)
    (last_given payer_home_transaction_id l) (last_given payee_home_transaction_id l)
    (fold_right Z.min (created_at e) (map created_at es)) (updated_at (List.last es e)).

(** The columns no order of the events changes. *)
Record Facts : Set := mkFacts {
  f_startedAt : Z; f_createdAt : Z; f_dispute : bool; f_error : bool; f_flow : option Z;
  f_phases : list (option Z * option Z * Stamps * Stamps); f_patch : option Z * option Z }.
Definition phase_facts (p : Phase jsstr) : option Z * option Z * Stamps * Stamps :=
  (requestedAt p, respondedAt p, requestedBy p, respondedBy p).
Definition facts {num} (r : Row num) : Facts :=
  mkFacts (transaction_started_at r) (created_at r) (possible_dispute r) (error r) (flow r)
    [phase_facts (row_parties r); phase_facts (row_quotes r); phase_facts (row_transfers r)]
    (patchRequestedAt (row_patch r), patchRespondedAt (row_patch r)).

(** Applying the upserts of a list of inputs in order, at the times given. *)
Definition upserts {doc num} `{Documents doc num} (l : list (Z * UpsertInput doc num)) (t : Table num) : Table num :=
  fold_left (fun t '(now, input) => upsert now input t) l t.

(** ** Well-formed rows *)

(** [s <= t]: [s] is known where [t] is. *)
Definition le_opt (s t : option Z) : Prop := match t with None => True | Some t => exists s', s = Some s' /\ s' <= t end.
(** [t <= s]: [s] is known where [t] is. *)
Definition ge_opt (s t : option Z) : Prop := match t with None => True | Some t => exists s', s = Some s' /\ t <= s' end.
Definition stamps_list (st : Stamps) : list (option Z) := [outboundAt st; inboundAt st; connectorAt st].

(** The times of a phase: nothing before the start; the phase is requested no later and
    answered no earlier than at any gateway; an answer has its time. *)
Record wf_phase {D} (started : Z) (p : Phase D) : Prop := {
  wf_requested : le_opt (Some started) (requestedAt p);
  wf_responded : le_opt (Some started) (respondedAt p);
  wf_requestedBy : Forall (le_opt (requestedAt p)) (stamps_list (requestedBy p));
  wf_respondedBy : Forall (ge_opt (respondedAt p)) (stamps_list (respondedBy p));
  wf_answer : is_Some (ph_response p) \/ is_Some (ph_error p) -> is_Some (respondedAt p) }.

Definition flow_ok (f : option Z) : Prop := match f with Some f => 1 <= f <= 3 | None => True end.

(** A row: the phases, a completion that is not before the start and has its flow, an error
    that some phase or the patch reports, and the creation time, which is the start. *)
Record wf_row {num} (r : Row num) : Prop := {
  wf_parties : wf_phase (transaction_started_at r) (row_parties r);
  wf_quotes : wf_phase (transaction_started_at r) (row_quotes r);
  wf_transfers : wf_phase (transaction_started_at r) (row_transfers r);
  wf_patch : le_opt (Some (transaction_started_at r)) (patchRequestedAt (row_patch r)) /\
             le_opt (Some (transaction_started_at r)) (patchRespondedAt (row_patch r));
  wf_completed : le_opt (Some (transaction_started_at r)) (transaction_completed_at r);
  wf_flow : flow_ok (flow r) /\ (is_Some (transaction_completed_at r) -> is_Some (flow r));
  wf_error : error r = true -> is_Some (flow r) \/ is_Some (patchError (row_patch r));
  wf_created : created_at r = transaction_started_at r }.
Definition wf_table {num} (t : Table num) : Prop := map_Forall (fun _ => wf_row) t.

(** Lists with the same elements, in any order and number. *)
Definition same {A} (l l' : list A) : Prop := forall x, In x l <-> In x l'.

(** The values of an input but for the time of the write. *)
Definition untimed {num} (r : Row num) : Row num :=
  mkRow (payer_fsp r) (payee_fsp r) (row_payer r) (row_payee r) (row_kind r) (row_amounts r)
    (transaction_started_at r) (transaction_completed_at r) (possible_dispute r) (error r) (flow r) (row_parties r)
    (row_quotes r) (row_transfers r) (row_patch r) (dispute_resolved_at r) (payer_home_transaction_id r)
    (payee_home_transaction_id r) (created_at r) 0.

Section trail_of.
  Context {doc num : Type} `{Documents doc num}.
  Implicit Types (l : list (Z * UpsertInput doc num)) (k : jsstr) (t : Table num).

(** The upserts of a transaction, and their values. *)
Definition for_key k l : list (Z * UpsertInput doc num) :=
  List.filter (fun x => bool_decide (u_correlationId (snd x) = k)) l.
Definition values_of_key k l : list (Row num) := map (fun x => values (fst x) (snd x)) (for_key k l).

Definition facts_of k t : option Facts := facts <$> t !! k.

End trail_of.

(** ** Documents as the senders build them *)

Inductive body : Set :=
  | BQuotesRequest (q : QuotesPostRequest) | BQuotesResponse (q : QuotesIDPutResponse)
  | BTransfersRequest (q : TransfersPostRequest) | BTransfersResponse (q : TransfersIDPutResponse)
  | BParties (info : PartyInfo) | BText (text : jsstr).

(** Texts that tell the kinds apart, and amounts that are their digits: enough to run the
    model on examples. *)
#[global] Instance body_documents : Documents body jsstr := {|
  stringify b := match b with
                 | BQuotesRequest q => js "quotes:" ++ quoteId q
                 | BQuotesResponse q => js "quote:" ++ q_condition q
                 | BTransfersRequest q => js "transfers:" ++ tp_transferId q
                 | BTransfersResponse q => js "transfer:" ++ default [] (fulfilment q)
                 | BParties info => js "party:" ++ default [] (info_partyIdentifier info)
                 | BText t => t
                 end;
  as_quotes_request b := match b with
                         | BQuotesRequest q => q
                         | _ => let p := mkParty (mkPartyIdInfo [] [] None None None) None None None None in
                                mkQuotesPostRequest [] [] [] p p [] (mkMoney [] [])
                                  (mkTransactionType [] None [] []) None None
                         end;
  as_quotes_response b := match b with
                          | BQuotesResponse q => q
                          | _ => mkQuotesIDPutResponse None None None None [] [] [] None
                          end;
  as_transfers_request b := match b with
                            | BTransfersRequest q => q
                            | _ => mkTransfersPostRequest [] [] [] None [] [] [] None
                            end;
  as_transfers_response b := match b with
                             | BTransfersResponse q => q
                             | _ => mkTransfersIDPutResponse None None Received None
                             end;
  partyIdInfo_of b := match b with BParties info => Some info | _ => None end;
  Number s := s;
  isFinite s := forallb is_digit s |}.

(** A patch call that failed, as the connector reports it, and its lookup by the payer. *)
Definition patch_failed : UpsertInput body jsstr :=
  toPatchErrorInput 0 (mkAudited (js "T1") (js "payer") (js "payee") (Some Connector) (Some 900)) (Some (js "timeout")).
Definition lookup_answered : UpsertInput body jsstr :=
  toPartiesResponseInput 0 (mkAudited (js "T1") (js "payer") [] (Some Outbound) (Some 200))
    (mkAuditedParties (mkParticipant (Some (js "MSISDN")) (Some (js "1")) None)
       (mkParticipant (Some (js "MSISDN")) (Some (js "2")) None))
    (Some (BParties (mkPartyInfo (Some (js "payee")) None None None))).

(** ** Lemmas *)

Lemma omap_snoc {A B} (f : A -> option B) l x :
  omap f (l ++ [x]) = omap f l ++ match f x with Some y => [y] | None => [] end.
Proof. rewrite omap_app. cbn. by destruct (f x). Qed.

Lemma coalesce_last {A B} (f : A -> option B) l x : coalesce (f x) (last_given f l) = last_given f (l ++ [x]).
Proof.
  unfold last_given. rewrite omap_snoc. destruct (f x); [by rewrite last_snoc|by rewrite app_nil_r].
Qed.

Lemma fold_min_snoc a l x : fold_right Z.min a (l ++ [x]) = Z.min (fold_right Z.min a l) x.
Proof. induction l as [|y l IH]; cbn; [lia|rewrite IH; lia]. Qed.
Lemma fold_max_snoc a l x : fold_right Z.max a (l ++ [x]) = Z.max (fold_right Z.max a l) x.
Proof. induction l as [|y l IH]; cbn; [lia|rewrite IH; lia]. Qed.

Lemma least_last {A} (f : A -> option Z) l x : least (earliest f l) (f x) = earliest f (l ++ [x]).
Proof.
  unfold earliest. rewrite omap_snoc. destruct (f x) as [v|]; [|rewrite app_nil_r; by destruct (least_of _)].
  destruct (omap f l) as [|y m]; cbn; [done|by rewrite fold_min_snoc].
Qed.
Lemma greatest_last {A} (f : A -> option Z) l x : greatest (latest f l) (f x) = latest f (l ++ [x]).
Proof.
  unfold latest. rewrite omap_snoc. destruct (f x) as [v|]; [|rewrite app_nil_r; by destruct (greatest_of _)].
  destruct (omap f l) as [|y m]; cbn; [done|by rewrite fold_max_snoc].
Qed.

Lemma existsb_snoc {A} (f : A -> bool) l x : existsb f (l ++ [x]) = existsb f l || f x.
Proof. rewrite existsb_app. cbn. by rewrite orb_false_r. Qed.

Lemma merge_participant_last l x : merge_participant (sum_participant l) x = sum_participant (l ++ [x]).
Proof. unfold merge_participant, sum_participant. cbn [p_idType p_id p_subId]. by rewrite !coalesce_last. Qed.
Lemma merge_kind_last l x : merge_kind (sum_kind l) x = sum_kind (l ++ [x]).
Proof. unfold merge_kind, sum_kind. cbn -[coalesce last_given]. by rewrite !coalesce_last. Qed.
Lemma merge_amounts_last {num} (l : list (Amounts num)) x : merge_amounts (sum_amounts l) x = sum_amounts (l ++ [x]).
Proof. unfold merge_amounts, sum_amounts. cbn -[coalesce last_given]. by rewrite !coalesce_last. Qed.
Lemma merge_phase_last l x : merge_phase (sum_phase l) x = sum_phase (l ++ [x]).
Proof.
  unfold merge_phase, sum_phase, merge_stamps, sum_stamps. rewrite !map_app.
  cbn -[coalesce last_given least greatest earliest latest map].
  rewrite !coalesce_last, !least_last, !greatest_last. cbn [map]. by rewrite <- !least_last, <- !greatest_last.
Qed.
Lemma merge_patch_last l x : merge_patch (sum_patch l) x = sum_patch (l ++ [x]).
Proof.
  unfold merge_patch, sum_patch. cbn -[coalesce last_given least greatest earliest latest].
  by rewrite !coalesce_last, least_last, greatest_last.
Qed.

Lemma named_iff {num} (id : Row num -> option jsstr) (l : list (Row num)) : last_given id l = None <-> named id l = [].
Proof. unfold last_given, named. rewrite last_None. induction l as [|x l IH]; cbn; [done|]. by destruct (id x). Qed.

Lemma merge_fsp_last {num} id (fsp : Row num -> jsstr) e es x :
  merge_fsp (last_given id (e :: es)) (id x) (fsp_named id fsp e es) (fsp x) = fsp_named id fsp e (es ++ [x]).
Proof.
  unfold fsp_named. rewrite app_comm_cons. unfold named. rewrite List.filter_app, last_app.
  fold (named id (e :: es)). pose proof (named_iff id (e :: es)) as Hn. cbn [List.filter].
  rewrite List.last_last. destruct (id x) as [i|]; cbn [last merge_fsp]; destruct (last_given id (e :: es)); try done.
  - destruct (last (named id (e :: es))) eqn:Hl; [done|]. apply last_None in Hl. by destruct (proj2 Hn Hl).
  - by rewrite (proj1 Hn eq_refl).
Qed.

Lemma last_given_map {A B C} (g : A -> B) (f : B -> option C) l : last_given f (map g l) = last_given (fun x => f (g x)) l.
Proof. unfold last_given. f_equal. induction l as [|x l IH]; cbn; [done|]. by rewrite IH. Qed.

Lemma summary_snoc {num} (e : Row num) es x : merge (summary e es) x = summary e (es ++ [x]).
Proof.
  unfold merge, summary. cbv zeta. rewrite !app_comm_cons, !map_app. cbn [map].
  cbn [payer_fsp payee_fsp row_payer row_payee row_kind row_amounts transaction_started_at
       transaction_completed_at possible_dispute error flow row_parties row_quotes row_transfers row_patch
       dispute_resolved_at payer_home_transaction_id payee_home_transaction_id created_at updated_at].
  rewrite !merge_participant_last, merge_kind_last, merge_amounts_last, !merge_phase_last, merge_patch_last.
  rewrite !coalesce_last, !greatest_last, !fold_min_snoc, !existsb_snoc, List.last_last.
  f_equal; cbn [sum_participant p_id]; change (?f e :: map ?f es) with (map f (e :: es));
    rewrite ?last_given_map;
    [apply (merge_fsp_last (fun x => p_id (row_payer x)))|apply (merge_fsp_last (fun x => p_id (row_payee x)))].
Qed.


Lemma given_one {A B} (f : A -> option B) x : last_given f [x] = f x.
Proof. unfold last_given. cbn. by destruct (f x). Qed.
Lemma earliest_one {A} (f : A -> option Z) x : earliest f [x] = f x.
Proof. unfold earliest. cbn. by destruct (f x). Qed.
Lemma latest_one {A} (f : A -> option Z) x : latest f [x] = f x.
Proof. unfold latest. cbn. by destruct (f x). Qed.
Lemma sum_phase_one p : sum_phase [p] = p.
Proof.
  unfold sum_phase, sum_stamps. cbn [map]. rewrite !earliest_one, !latest_one, !given_one.
  by destruct p as [? ? ? ? ? [] []].
Qed.

Lemma summary_nil {num} (e : Row num) : dispute_resolved_at e = None -> summary e [] = e.
Proof.
  intros Hd. unfold summary, fsp_named, named, sum_participant, sum_kind, sum_amounts, sum_patch. cbv zeta.
  cbn [map List.filter fold_right existsb List.last].
  rewrite !sum_phase_one, !given_one, !earliest_one, !latest_one, !orb_false_r.
  destruct e as [? ? [? i ?] [? j ?] [] [] ? ? ? ? ? ? ? ? [] ? ? ? ? ?].
  cbn in Hd |- *. by destruct i, j.
Qed.

(** *** Extremes do not depend on order or repetition *)

Lemma same_map {A B} (f : A -> B) l l' : same l l' -> same (map f l) (map f l').
Proof. intros Hs x. rewrite !in_map_iff. split; intros (y & Hy & Hin); exists y; (split; [done|by apply Hs]). Qed.
Lemma same_omap {A B} (f : A -> option B) l l' : same l l' -> same (omap f l) (omap f l').
Proof.
  intros Hs x. rewrite <- !list_elem_of_In, !list_elem_of_omap.
  split; intros (y & Hy & Hf); exists y; split; try done; apply list_elem_of_In, Hs, list_elem_of_In, Hy.
Qed.
Lemma same_existsb {A} (f : A -> bool) l l' : same l l' -> existsb f l = existsb f l'.
Proof.
  intros Hs. apply eq_true_iff_eq. rewrite !existsb_exists. split; intros (x & Hin & Hf); exists x; split; firstorder.
Qed.

Lemma fold_min_spec a l : In (fold_right Z.min a l) (a :: l) /\ forall x, In x (a :: l) -> fold_right Z.min a l <= x.
Proof.
  induction l as [|y l [Hin Hle]]; cbn [fold_right].
  - split; [by left|]. intros x [<-|[]]. cbn. lia.
  - split.
    + destruct (Z.min_spec y (fold_right Z.min a l)) as [[_ ->]|[_ ->]]; [by right; left|].
      destruct Hin as [Ha|Hin]; [left; exact Ha|by right; right].
    + intros x [<-|[<-|Hx]]; [specialize (Hle a (or_introl eq_refl))|..|specialize (Hle x (or_intror Hx))]; lia.
Qed.
Lemma fold_max_min a l : fold_right Z.max a l = - fold_right Z.min (- a) (map Z.opp l).
Proof. induction l as [|y l IH]; cbn; [lia|]. rewrite IH. lia. Qed.

Lemma same_fold_min a l b l' : same (a :: l) (b :: l') -> fold_right Z.min a l = fold_right Z.min b l'.
Proof.
  intros Hs. destruct (fold_min_spec a l) as [Hi Hle], (fold_min_spec b l') as [Hi' Hle'].
  apply Hs in Hi. apply Hs in Hi'. apply Z.le_antisymm; auto.
Qed.

Lemma same_least l l' : same l l' -> least_of l = least_of l'.
Proof.
  intros Hs. destruct l as [|a l], l' as [|b l']; cbn; try done.
  - destruct (proj2 (Hs b) (or_introl eq_refl)).
  - destruct (proj1 (Hs a) (or_introl eq_refl)).
  - f_equal. by apply same_fold_min.
Qed.
Lemma same_greatest l l' : same l l' -> greatest_of l = greatest_of l'.
Proof.
  intros Hs. destruct l as [|a l], l' as [|b l']; cbn; try done.
  - destruct (proj2 (Hs b) (or_introl eq_refl)).
  - destruct (proj1 (Hs a) (or_introl eq_refl)).
  - rewrite !fold_max_min. do 2 f_equal.
    apply same_fold_min. apply (same_map Z.opp _ _ Hs).
Qed.
Lemma same_earliest {A} (f : A -> option Z) l l' : same l l' -> earliest f l = earliest f l'.
Proof. intros. by apply same_least, same_omap. Qed.
Lemma same_latest {A} (f : A -> option Z) l l' : same l l' -> latest f l = latest f l'.
Proof. intros. by apply same_greatest, same_omap. Qed.
#[local] Hint Resolve same_map : core.

Lemma phase_facts_same l l' : same l l' -> phase_facts (sum_phase l) = phase_facts (sum_phase l').
Proof.
  intros Hs. unfold phase_facts, sum_phase, sum_stamps.
  cbn [requestedAt respondedAt requestedBy respondedBy].
  rewrite (same_earliest requestedAt l l'), (same_latest respondedAt l l') by done.
  rewrite !(same_earliest _ (map requestedBy l) (map requestedBy l')) by auto.
  by rewrite !(same_latest _ (map respondedBy l) (map respondedBy l')) by auto.
Qed.

(** Rows that differ in the time of the write at most have the same facts. *)
Lemma facts_same {num} (e e' : Row num) es es' :
  same (e :: es) (e' :: es') -> facts (summary e es) = facts (summary e' es').
Proof.
  intros Hs. unfold facts, summary. cbv zeta.
  cbn [transaction_started_at created_at possible_dispute error flow row_parties row_quotes row_transfers row_patch].
  pose proof (same_map transaction_started_at _ _ Hs). pose proof (same_map created_at _ _ Hs).
  f_equal; auto using same_fold_min, same_existsb, same_latest.
  - by rewrite !(phase_facts_same _ _ (same_map _ _ _ Hs)).
  - unfold sum_patch. cbn [patchRequestedAt patchRespondedAt].
    f_equal; [apply same_earliest|apply same_latest]; auto.
Qed.

Lemma existsb_map {A B} (f : B -> bool) (g : A -> B) l : existsb f (map g l) = existsb (fun x => f (g x)) l.
Proof. induction l as [|x l IH]; cbn; [done|by rewrite IH]. Qed.

Lemma facts_untimed {num} (e : Row num) es : facts (summary (untimed e) (map untimed es)) = facts (summary e es).
Proof.
  unfold facts, summary, latest. cbv zeta. change (untimed e :: map untimed es) with (map untimed (e :: es)).
  rewrite !map_map, !existsb_map. cbn [transaction_started_at created_at possible_dispute error flow row_parties
    row_quotes row_transfers row_patch untimed].
  f_equal. f_equal. generalize (e :: es) as l. induction l as [|x l IH]; cbn; [done|]. by rewrite IH.
Qed.

(** ** Well-formed rows are kept *)

Lemma le_opt_min (s s' t : Z) (o : option Z) : le_opt (Some s) o -> le_opt (Some (Z.min s s')) o.
Proof. destruct o; cbn; [|done]. intros (? & [= <-] & ?). eexists. split; [done|lia]. Qed.
Lemma le_opt_min' (s s' : Z) (o : option Z) : le_opt (Some s') o -> le_opt (Some (Z.min s s')) o.
Proof. destruct o; cbn; [|done]. intros (? & [= <-] & ?). eexists. split; [done|lia]. Qed.
Lemma le_opt_both (f : Z -> Z -> Z) a b o o' :
  (forall x y, f x y = x \/ f x y = y) -> le_opt (Some a) o -> le_opt (Some b) o' -> le_opt (Some (Z.min a b)) (both f o o').
Proof.
  intros Hf. destruct o as [x|], o' as [y|]; cbn; try done.
  - intros (? & [= <-] & ?) (? & [= <-] & ?). eexists. split; [done|]. destruct (Hf x y) as [->| ->]; lia.
  - intros (? & [= <-] & ?) _. eexists. split; [done|lia].
  - intros _ (? & [= <-] & ?). eexists. split; [done|lia].
Qed.
Lemma le_opt_coalesce a b o o' :
  le_opt (Some a) o -> le_opt (Some b) o' -> le_opt (Some (Z.min a b)) (coalesce o' o).
Proof. destruct o'; cbn; [|intros; by apply le_opt_min]. intros _ (? & [= <-] & ?). eexists. split; [done|lia]. Qed.
Lemma le_opt_least a b o o' : le_opt a o -> le_opt b o' -> le_opt (least a b) (least o o').
Proof.
  destruct o as [x|], o' as [y|]; cbn; try done.
  - intros (p & -> & ?) (q & -> & ?). eexists. split; [done|]. lia.
  - intros (p & -> & ?) _. destruct b; eexists; (split; [done|lia]).
  - intros _ (q & -> & ?). destruct a; eexists; (split; [done|lia]).
Qed.
Lemma ge_opt_greatest a b o o' : ge_opt a o -> ge_opt b o' -> ge_opt (greatest a b) (greatest o o').
Proof.
  destruct o as [x|], o' as [y|]; cbn; try done.
  - intros (p & -> & ?) (q & -> & ?). eexists. split; [done|]. lia.
  - intros (p & -> & ?) _. destruct b; eexists; (split; [done|lia]).
  - intros _ (q & -> & ?). destruct a; eexists; (split; [done|lia]).
Qed.
Lemma is_Some_both f o o' : is_Some o \/ is_Some o' -> is_Some (both f o o').
Proof. destruct o, o'; cbn; intros [[? ?]|[? ?]]; done. Qed.
Lemma is_Some_coalesce {A} (o o' : option A) : is_Some (coalesce o' o) -> is_Some o \/ is_Some o'.
Proof. destruct o'; cbn; intros; [by right|by left]. Qed.

Lemma Forall_merge_stamps (P P' Q : option Z -> Prop) f (a b : Stamps) :
  (forall x y, P x -> P' y -> Q (f x y)) ->
  Forall P (stamps_list a) -> Forall P' (stamps_list b) -> Forall Q (stamps_list (merge_stamps f a b)).
Proof.
  intros Hf Ha Hb. unfold stamps_list in *. rewrite !Forall_cons in Ha, Hb |- *. cbn. naive_solver.
Qed.

Lemma wf_phase_merge a b (p q : Phase jsstr) :
  wf_phase a p -> wf_phase b q -> wf_phase (Z.min a b) (merge_phase p q).
Proof.
  intros [Hq Hr Hqs Hrs Ha] [Hq' Hr' Hqs' Hrs' Ha']. split; cbn.
  - apply le_opt_both; [lia|done..].
  - apply le_opt_both; [lia|done..].
  - apply (Forall_merge_stamps (le_opt (requestedAt p)) (le_opt (requestedAt q))); [|done..].
    intros. by apply le_opt_least.
  - apply (Forall_merge_stamps (ge_opt (respondedAt p)) (ge_opt (respondedAt q))); [|done..].
    intros. by apply ge_opt_greatest.
  - intros [H|H]; apply is_Some_coalesce in H; apply is_Some_both; tauto.
Qed.

Lemma wf_merge {num} (old new : Row num) : wf_row old -> wf_row new -> wf_row (merge old new).
Proof.
  intros [] []. split; cbn -[least greatest coalesce]; try by apply wf_phase_merge.
  - split; apply le_opt_both; try lia; tauto.
  - by apply le_opt_coalesce.
  - destruct wf_flow0 as [Hf Hc], wf_flow1 as [Hf' Hc']. split.
    + revert Hf Hf'. destruct (flow old), (flow new); cbn; lia.
    + intros H. apply is_Some_coalesce in H. apply is_Some_both. tauto.
  - intros H. apply orb_true_iff in H. destruct H as [H|H].
    + destruct (wf_error0 H) as [Hf|[x Hx]]; [left; apply is_Some_both; by left|right].
      rewrite Hx. by destruct (patchError (row_patch new)).
    + destruct (wf_error1 H) as [Hf|[x Hx]]; [left; apply is_Some_both; by right|right]. by rewrite Hx.
  - lia.
Qed.

Lemma wf_phase_map {D D'} (f : D -> D') s (p : Phase D) :
  wf_phase s p -> wf_phase s (mkPhase (requestedAt p) (respondedAt p) (f <$> ph_request p) (f <$> ph_response p)
                                (f <$> ph_error p) (requestedBy p) (respondedBy p)).
Proof. intros []. split; try done. cbn. rewrite !fmap_is_Some. done. Qed.

Lemma wf_no_phase {D} s : wf_phase s (@no_phase D).
Proof. split; cbn; try done; [by repeat constructor..|]. intros [[]|[]]; done. Qed.
Lemma wf_requested_phase {D} g t (request : option D) : wf_phase t (requested g t request).
Proof.
  unfold requested. split; cbn; try done; [by exists t| |by repeat constructor|by intros [[]|[]]].
  destruct g as [[]|]; unfold stamps_list; rewrite !Forall_cons; cbn; repeat split; try done; by exists t.
Qed.
Lemma wf_responded_phase {D} g t (request response error : option D) :
  wf_phase t (responded g t request response error).
Proof.
  unfold responded. split; cbn; try done; [by exists t|by repeat constructor|].
  destruct g as [[]|]; unfold stamps_list; rewrite !Forall_cons; cbn; repeat split; try done; by exists t.
Qed.

(** ** The upserts of a trail *)

Section trail.
  Context {doc num : Type} `{Documents doc num}.
  Implicit Types (l : list (Z * UpsertInput doc num)) (k : jsstr) (t : Table num).

Lemma upsert_lookup now input t k :
  upsert now input t !! k =
  if bool_decide (u_correlationId input = k)
  then Some (match t !! k with Some old => merge old (values now input) | None => values now input end)
  else t !! k.
Proof.
  unfold upsert. case_bool_decide as Hk; [subst k; by rewrite lookup_insert_eq|by rewrite lookup_insert_ne].
Qed.

Lemma upserts_snoc l now input t : upserts (l ++ [(now, input)]) t = upsert now input (upserts l t).
Proof. unfold upserts. by rewrite fold_left_app. Qed.

Lemma values_of_key_snoc k l now input :
  values_of_key k (l ++ [(now, input)]) =
  values_of_key k l ++ if bool_decide (u_correlationId input = k) then [values now input] else [].
Proof.
  unfold values_of_key, for_key. rewrite List.filter_app, map_app. cbn [List.filter snd]. by case_bool_decide.
Qed.

Lemma upserts_row l k :
  upserts l ∅ !! k = match values_of_key k l with [] => None | e :: es => Some (summary e es) end.
Proof.
  induction l as [|[now input] l IH] using rev_ind; [done|].
  rewrite upserts_snoc, upsert_lookup, IH, values_of_key_snoc. case_bool_decide; [|by rewrite app_nil_r].
  destruct (values_of_key k l) as [|e es]; cbn [app]; [by rewrite summary_nil|by rewrite summary_snoc].
Qed.

(** C17. The row of a transaction after any upserts of any transactions is read off its own
    events in their order: its participants are those of the last event that names a
    party, a document or amount is the last one given, a request time is the earliest and a
    response time the latest, the error and dispute flags are those of any event, the flow
    is the furthest; a transaction without events has no row. *)
Theorem upserts_summary (l : list (Z * UpsertInput doc num)) (k : jsstr) :
  upserts l ∅ !! k = match values_of_key k l with [] => None | e :: es => Some (summary e es) end.
Proof. apply upserts_row. Qed.

Lemma facts_of_upserts l k :
  facts_of k (upserts l ∅) = match map (values 0) (map snd (for_key k l)) with
                             | [] => None
                             | e :: es => Some (facts (summary e es))
                             end.
Proof.
  unfold facts_of. rewrite upserts_row. unfold values_of_key.
  destruct (for_key k l) as [|[n i] r]; cbn [map fst snd fmap option_fmap option_map]; [done|].
  by rewrite <- facts_untimed, !map_map.
Qed.

Lemma facts_of_same l l' k :
  same (map snd (for_key k l)) (map snd (for_key k l')) ->
  facts_of k (upserts l ∅) = facts_of k (upserts l' ∅).
Proof.
  intros Hs. rewrite !facts_of_upserts. apply (same_map (values 0)) in Hs.
  destruct (map (values 0) _) as [|e es], (map (values 0) (map snd (for_key k l'))) as [|e' es']; [done|..].
  - destruct (proj2 (Hs e') (or_introl eq_refl)).
  - destruct (proj1 (Hs e) (or_introl eq_refl)).
  - by rewrite (facts_same _ _ _ _ Hs).
Qed.

Lemma error_of_upserts l k :
  error <$> upserts l ∅ !! k = Some true <-> exists i, In i (map snd (for_key k l)) /\ u_error i = true.
Proof.
  rewrite upserts_row. unfold values_of_key.
  assert (Hx : existsb error (map (fun x => values (fst x) (snd x)) (for_key k l)) = existsb u_error (map snd (for_key k l))).
  { by rewrite !existsb_map. }
  rewrite <- existsb_exists, <- Hx. destruct (map _ (for_key k l)) as [|e es]; [done|].
  cbn [fmap option_fmap option_map]. unfold summary. cbv zeta. cbn [error]. cbn [existsb]. split; [by intros [= Hb]|by intros Hb; rewrite Hb].
Qed.

(** Delivery of the events of a transaction in another order, or some of them more than
    once, at whatever times, leaves the same start and creation times, request and response
    times of every phase and gateway, flow, error flag and dispute flag. *)
Theorem upserts_order (l l' : list (Z * UpsertInput doc num)) (k : jsstr) :
  same (map snd (for_key k l)) (map snd (for_key k l')) ->
  facts_of k (upserts l ∅) = facts_of k (upserts l' ∅).
Proof. apply facts_of_same. Qed.

(** A dispute that was resolved stays resolved exactly until an event that reports a
    dispute is stored, a redelivered patch error too; the time of its resolution is kept. *)
Theorem resolved_dispute (now occurredAt : Z) (k : jsstr) (t : Table num) (l : list (Z * UpsertInput doc num)) :
  is_Some (t !! k) ->
  (fun r => (possible_dispute r, dispute_resolved_at r)) <$> upserts l (fst (resolveDispute now k occurredAt t)) !! k =
  Some (existsb possible_dispute (values_of_key k l), Some occurredAt).
Proof.
  intros [r Hk]. unfold resolveDispute. rewrite Hk. cbn [fst].
  induction l as [|[n i] l IH] using rev_ind; [by cbn; rewrite lookup_insert_eq|].
  rewrite upserts_snoc, upsert_lookup, values_of_key_snoc, existsb_app.
  case_bool_decide; [|by rewrite IH; cbn; rewrite orb_false_r].
  destruct (upserts l _ !! k) as [old|]; [|done]. cbn in IH |- *. injection IH as -> ->. by rewrite orb_false_r.
Qed.
End trail.

(** ** Examples *)

Lemma upserts_order_witness :
  facts_of (js "T1") (upserts [(201, lookup_answered); (901, patch_failed)] ∅) =
  facts_of (js "T1") (upserts [(902, patch_failed); (950, lookup_answered); (951, patch_failed)] ∅).
Proof.
  apply (upserts_order _ _ (js "T1")).
  change (same [lookup_answered; patch_failed] [patch_failed; lookup_answered; patch_failed]).
  intros x. cbn [In]. tauto.
Defined.

Lemma resolved_dispute_witness :
  let t := upserts [(201, lookup_answered); (901, patch_failed)] ∅ in
  (fun r => (possible_dispute r, dispute_resolved_at r)) <$>
    upserts [(2000, patch_failed)] (fst (resolveDispute 1500 (js "T1") 1499 t)) !! js "T1" = Some (true, Some 1499).
Proof.
  cbv zeta. rewrite (resolved_dispute 1500 1499 (js "T1")); [reflexivity|].
  exists (merge (values 201 lookup_answered) (values 901 patch_failed)). vm_compute. reflexivity.
Defined.
