(* ===== verification/AuditConsumer.v ===== *)
(** * The audit consumer

    core/audit/consumer/listener/audit-transaction.consumer.ts: the messages of
    core/audit/common/pubsub/transaction-message.ts, their dispatch to the audit commands,
    whose handlers upsert what [AuditTransactionMapper] makes of them, and the fate of a
    delivery: acknowledged, sent again or terminated. Failures of the database are
    arguments. Set-up of the consumer and logging are not modelled. *)

From S2P Require Import Prelude Errors Transfer SendMoney AuditTrail.

(** ** Messages *)

(** The members of the contents of all phases. A time is a Date, which may be invalid
    ([Some None]); a correlation id that is no string is [None]. *)
Record MessageContent (doc : Type) : Type := mkMessageContent {
  mc_correlationId : option jsstr; mc_payerFsp : jsstr; mc_payeeFsp : jsstr; mc_occurredAt : option (option Z);
  mc_parties : AuditedParties; mc_lookup : AuditedLookup;
  mc_request : option doc; mc_response : option doc; mc_error : option doc;
  mc_patchError : option jsstr; mc_homeTransactionId : option jsstr }.
Arguments mkMessageContent {doc}. Arguments mc_correlationId {doc}. Arguments mc_payerFsp {doc}.
Arguments mc_payeeFsp {doc}. Arguments mc_occurredAt {doc}. Arguments mc_parties {doc}. Arguments mc_lookup {doc}.
Arguments mc_request {doc}. Arguments mc_response {doc}. Arguments mc_error {doc}. Arguments mc_patchError {doc}.
Arguments mc_homeTransactionId {doc}.

(** [TransactionMessage]; a phase, action or gateway the enumerations do not have is [None]. *)
Record TransactionMessage (doc : Type) : Type := mkTransactionMessage {
  m_phase : option InvocationPhase; m_action : option InvocationAction; m_gateway : option InvocationGateway;
  m_content : option (MessageContent doc) }.
Arguments mkTransactionMessage {doc}. Arguments m_phase {doc}. Arguments m_action {doc}.
Arguments m_gateway {doc}. Arguments m_content {doc}.

(** A thrown error, as far as [isPermanentDbError] looks at it. *)
Record Failure : Set := mkFailure { errno : option Z; driverErrno : option Z }.
(** [new Error(...)], and the TypeError of reading a member of [undefined]. *)
Definition plain_error : Failure := mkFailure None None.

Definition MAX_DELIVERY_ATTEMPTS : Z := 5.
Definition PERMANENT_DB_ERRNOS : list Z := [1048; 1264; 1265; 1366; 1406].

Definition isPermanentDbError (e : Failure) : bool :=
  match coalesce (driverErrno e) (errno e) with
  | Some n => existsb (Z.eqb n) PERMANENT_DB_ERRNOS
  | None => false
  end.

(** What the handler of a message tells JetStream. *)
Inductive Verdict : Set := Ack | Nak | Term.

Definition handleProcessingFailure (redeliveryCount : Z) (e : Failure) : Verdict :=
  if isPermanentDbError e || (MAX_DELIVERY_ATTEMPTS <=? redeliveryCount) then Term else Nak.

(** ** Commands *)

Inductive AuditCommand (doc : Type) : Type :=
  | AuditPartiesRequest (a : Audited) (p : AuditedParties) (l : AuditedLookup) (request : option doc)
  | AuditPartiesResponse (a : Audited) (p : AuditedParties) (response : option doc)
  | AuditPartiesError (a : Audited) (p : AuditedParties) (error : option doc)
  | AuditQuotesRequest (a : Audited) (request : option doc)
  | AuditQuotesResponse (a : Audited) (request response : option doc)
  | AuditQuotesError (a : Audited) (request error : option doc)
  | AuditTransfersRequest (a : Audited) (request : option doc)
  | AuditTransfersResponse (a : Audited) (request response : option doc)
  | AuditTransfersError (a : Audited) (request error : option doc)
  | AuditPatchRequest (a : Audited) (request : option doc)
  | AuditPatchResponse (a : Audited) (request : option doc) (payeeHomeTransactionId : option jsstr)
  | AuditPatchError (a : Audited) (error : option jsstr)
  | AuditPatchResolved (correlationId : jsstr) (occurredAt : Z).
Arguments AuditPartiesRequest {doc}. Arguments AuditPartiesResponse {doc}. Arguments AuditPartiesError {doc}.
Arguments AuditQuotesRequest {doc}. Arguments AuditQuotesResponse {doc}. Arguments AuditQuotesError {doc}.
Arguments AuditTransfersRequest {doc}. Arguments AuditTransfersResponse {doc}. Arguments AuditTransfersError {doc}.
Arguments AuditPatchRequest {doc}. Arguments AuditPatchResponse {doc}. Arguments AuditPatchError {doc}.
Arguments AuditPatchResolved {doc}.

Section consumer.
  Context {doc num : Type} `{Documents doc num}.
  (** What the database answers to a statement whose correlation id or dates are no values. *)
  Context (invalid : Failure).
  Implicit Types (msg : TransactionMessage doc) (c : MessageContent doc).

(** The common arguments of the command inputs, [toOccurredAt] included. *)
Definition audited (gateway : option InvocationGateway) c : result Failure Audited :=
  match mc_correlationId c, mc_occurredAt c with
  | Some id, None => Ok (mkAudited id (mc_payerFsp c) (mc_payeeFsp c) gateway None)
  | Some id, Some (Some time) => Ok (mkAudited id (mc_payerFsp c) (mc_payeeFsp c) gateway (Some time))
  | _, _ => Err invalid
  end.

Definition dispatchParties (action : option InvocationAction) (gateway : option InvocationGateway) c
    : result Failure (AuditCommand doc) :=
  match action with
  | Some ARequest => let! a := audited gateway c in
                     Ok (AuditPartiesRequest a (mc_parties c) (mc_lookup c) (mc_request c))
  | Some AResponse => let! a := audited gateway c in Ok (AuditPartiesResponse a (mc_parties c) (mc_response c))
  | Some AError => let! a := audited gateway c in Ok (AuditPartiesError a (mc_parties c) (mc_error c))
  | _ => Err plain_error
  end.

Definition dispatchQuotes (action : option InvocationAction) (gateway : option InvocationGateway) c
    : result Failure (AuditCommand doc) :=
  match action with
  | Some ARequest => let! a := audited gateway c in Ok (AuditQuotesRequest a (mc_request c))
  | Some AResponse => let! a := audited gateway c in Ok (AuditQuotesResponse a (mc_request c) (mc_response c))
  | Some AError => let! a := audited gateway c in Ok (AuditQuotesError a (mc_request c) (mc_error c))
  | _ => Err plain_error
  end.

Definition dispatchTransfers (action : option InvocationAction) (gateway : option InvocationGateway) c
    : result Failure (AuditCommand doc) :=
  match action with
  | Some ARequest => let! a := audited gateway c in Ok (AuditTransfersRequest a (mc_request c))
  | Some AResponse => let! a := audited gateway c in Ok (AuditTransfersResponse a (mc_request c) (mc_response c))
  | Some AError => let! a := audited gateway c in Ok (AuditTransfersError a (mc_request c) (mc_error c))
  | _ => Err plain_error
  end.

(** [dispatchPatchResolved]; [None] is a message that is ignored. *)
Definition dispatchPatchResolved c : option (AuditCommand doc) :=
  match mc_correlationId c with
  | Some id =>
      if (length (trim id) =? 0)%nat then None
      else match mc_occurredAt c with
           | Some (Some occurredAt) => Some (AuditPatchResolved (trim id) occurredAt)
           | _ => None
           end
  | None => None
  end.

(** The gateway of the content decides whether a resolution is taken; [content?.] also
    guards a missing content, which the caller treats. *)
Definition dispatchPatch (action : option InvocationAction) (gateway : option InvocationGateway) c
    : result Failure (option (AuditCommand doc)) :=
  match action with
  | Some ARequest => let! a := audited gateway c in Ok (Some (AuditPatchRequest a (mc_request c)))
  | Some AResponse => let! a := audited gateway c in
                      Ok (Some (AuditPatchResponse a (mc_response c) (mc_homeTransactionId c)))
  | Some AError => let! a := audited gateway c in Ok (Some (AuditPatchError a (mc_patchError c)))
  | Some AResolved => match gateway with
                      | Some Connector => Ok (dispatchPatchResolved c)
                      | _ => Ok None
                      end
  | None => Err plain_error
  end.

(** [dispatch]: the command to execute. Without a content, reading its members throws,
    after the action was found to be one of the phase's; a resolution is ignored. *)
Definition dispatch msg : result Failure (option (AuditCommand doc)) :=
  match m_phase msg, m_content msg with
  | Some PParties, Some c => let! command := dispatchParties (m_action msg) (m_gateway msg) c in Ok (Some command)
  | Some PQuotes, Some c => let! command := dispatchQuotes (m_action msg) (m_gateway msg) c in Ok (Some command)
  | Some PTransfers, Some c => let! command := dispatchTransfers (m_action msg) (m_gateway msg) c in Ok (Some command)
  | Some PPatch, Some c => dispatchPatch (m_action msg) (m_gateway msg) c
  | Some PPatch, None => match m_action msg with Some AResolved => Ok None | _ => Err plain_error end
  | _, _ => Err plain_error
  end.

(** The input of the upsert a command's handler makes; the resolution has none. *)
Definition upsert_input (now : Z) (command : AuditCommand doc) : option (UpsertInput doc num) :=
  match command with
  | AuditPartiesRequest a p l request => Some (toPartiesRequestInput now a p l request)
  | AuditPartiesResponse a p response => Some (toPartiesResponseInput now a p response)
  | AuditPartiesError a p error => Some (toPartiesErrorInput now a p error)
  | AuditQuotesRequest a request => Some (toQuotesRequestInput now a request)
  | AuditQuotesResponse a request response => Some (toQuotesResponseInput now a request response)
  | AuditQuotesError a request error => Some (toQuotesErrorInput now a request error)
  | AuditTransfersRequest a request => Some (toTransfersRequestInput now a request)
  | AuditTransfersResponse a request response => Some (toTransfersResponseInput now a request response)
  | AuditTransfersError a request error => Some (toTransfersErrorInput now a request error)
  | AuditPatchRequest a request => Some (toPatchRequestInput now a request)
  | AuditPatchResponse a request home => Some (toPatchResponseInput now a request home)
  | AuditPatchError a error => Some (toPatchErrorInput now a error)
  | AuditPatchResolved _ _ => None
  end.

(** The handlers: all but that of the resolution upsert. *)
Definition execute (now : Z) (command : AuditCommand doc) (t : Table num) : Table num :=
  match command with
  | AuditPatchResolved correlationId occurredAt => fst (resolveDispute now correlationId occurredAt t)
  | _ => match upsert_input now command with Some input => upsert now input t | None => t end
  end.

(** *** A delivery *)

(** A failure of the database, before or after it wrote. *)
Definition DbFault : Set := option (Failure * bool).

Definition perform (now : Z) (fault : DbFault) (command : AuditCommand doc) (t : Table num)
    : Table num * option Failure :=
  match fault with
  | None => (execute now command t, None)
  | Some (e, written) => (if written then execute now command t else t, Some e)
  end.

(** The body of the loop of [consume]: the table, the verdict, and the correlation id
    handed to the live statistics. *)
Definition handle (now redeliveryCount : Z) (fault : DbFault) msg (t : Table num)
    : Table num * Verdict * option jsstr :=
  match m_phase msg with
  | None => (t, Term, None)
  | Some _ =>
      match dispatch msg with
      | Err e => (t, handleProcessingFailure redeliveryCount e, None)
      | Ok None => (t, Ack, m_content msg ≫= mc_correlationId)
      | Ok (Some command) =>
          let '(t, failed) := perform now fault command t in
          match failed with
          | Some e => (t, handleProcessingFailure redeliveryCount e, None)
          | None => (t, Ack, m_content msg ≫= mc_correlationId)
          end
      end
  end.

(** The deliveries of one message: [count n] is the redelivery count of the n-th, from 0;
    [meanwhile n] what other messages do to the table before it. It ends at the first
    verdict other than [Nak]; [None] is one that did not end. *)
Fixpoint deliveries (count : nat -> Z) (clock : nat -> Z) (meanwhile : nat -> Table num -> Table num)
    (fault : nat -> DbFault) msg (fuel n : nat) (t : Table num) : option (nat * Table num * Verdict) :=
  match fuel with
  | O => None
  | S fuel =>
      let '(t, verdict, _) := handle (clock n) (count n) (fault n) msg (meanwhile n t) in
      match verdict with
      | Nak => deliveries count clock meanwhile fault msg fuel (S n) t
      | _ => Some (n, t, verdict)
      end
  end.

(** [consume] over the deliveries of a stream: [decode] fails on bytes that are no JSON,
    and reading the phase of what decodes to [null] throws; both are [None] and leave the
    loop, which is the end of the consumer. *)
Fixpoint consume {bytes} (decode : bytes -> option (TransactionMessage doc))
    (messages : list (bytes * Z * Z * DbFault)) (t : Table num) : Table num * list Verdict :=
  match messages with
  | [] => (t, [])
  | (data, now, redeliveryCount, fault) :: messages =>
      match decode data with
      | None => (t, [])
      | Some msg =>
          let '(t, verdict, _) := handle now redeliveryCount fault msg t in
          let '(t, verdicts) := consume decode messages t in
          (t, verdict :: verdicts)
      end
  end.

(** *** Reference: what a trail of deliveries stores *)

(** A delivery: its message, the clock, the redelivery count, and the database. *)
Record Delivery : Type := mkDelivery {
  d_message : TransactionMessage doc; d_now : Z; d_count : Z; d_fault : DbFault }.

Definition delivered (l : list Delivery) (t : Table num) : Table num :=
  fold_left (fun t d => fst (fst (handle (d_now d) (d_count d) (d_fault d) (d_message d) t))) l t.

(** The verdict does not depend on the table. *)
Definition acknowledged (d : Delivery) : bool :=
  match m_phase (d_message d), dispatch (d_message d) with
  | Some _, Ok None => true
  | Some _, Ok (Some _) => match d_fault d with None => true | Some _ => false end
  | _, _ => false
  end.

(** The upsert a message asks for. *)
Definition message_input (now : Z) msg : option (UpsertInput doc num) :=
  match m_phase msg, dispatch msg with
  | Some _, Ok (Some command) => upsert_input now command
  | _, _ => None
  end.

(** A message that reports a failure: an error of a phase, for a patch one with a text. *)
Definition reports_failure msg : bool :=
  match m_action msg, m_phase msg with
  | Some AError, Some PPatch => match m_content msg ≫= mc_patchError with Some _ => true | None => false end
  | Some AError, Some _ => true
  | _, _ => false
  end.

Definition resolution msg : bool := match m_action msg with Some AResolved => true | _ => false end.
Definition timed msg : bool := match m_content msg with Some c => match mc_occurredAt c with Some _ => true | _ => false end | None => true end.

(** The common input of a command. *)
Definition command_audited (command : AuditCommand doc) : option Audited :=
  match command with
  | AuditPartiesRequest a _ _ _ | AuditPartiesResponse a _ _ | AuditPartiesError a _ _ | AuditQuotesRequest a _
  | AuditQuotesResponse a _ _ | AuditQuotesError a _ _ | AuditTransfersRequest a _ | AuditTransfersResponse a _ _
  | AuditTransfersError a _ _ | AuditPatchRequest a _ | AuditPatchResponse a _ _ | AuditPatchError a _ => Some a
  | AuditPatchResolved _ _ => None
  end.

(** The upserts that reached the database, with their times. *)
Definition written (d : Delivery) : option (Z * UpsertInput doc num) :=
  match d_fault d with
  | Some (_, false) => None
  | _ => (fun i => (d_now d, i)) <$> message_input (d_now d) (d_message d)
  end.

(** Everything that changes the table: deliveries, and disputes of operators. *)
Inductive audit_step : Table num -> Table num -> Prop :=
  | message_handled now redeliveryCount fault msg t :
      audit_step t (fst (fst (handle now redeliveryCount fault msg t)))
  | transaction_disputed now correlationId t : audit_step t (fst (dispute now correlationId t)).

(** A message whose upsert was written is acknowledged at some delivery. *)
Definition settled (l : list Delivery) : Prop :=
  forall d, In d l -> is_Some (written d) ->
  exists d', In d' l /\ d_message d' = d_message d /\ acknowledged d' = true.
Definition acknowledged_messages (l : list Delivery) : list (TransactionMessage doc) :=
  map d_message (List.filter acknowledged l).
Definition ordinary (l : list Delivery) : Prop :=
  Forall (fun d => resolution (d_message d) = false /\ timed (d_message d) = true) l.
End consumer.

(** ** Example trails *)

Definition refused : Failure := mkFailure (Some 1048) None.
Definition db_down : Failure := mkFailure None (Some 1205).

Definition example_content (occurredAt : option (option Z)) (error : option body) (patchError : option jsstr)
    : MessageContent body :=
  mkMessageContent (Some (js "T1")) (js "payer") (js "payee") occurredAt
    (mkAuditedParties (mkParticipant (Some (js "MSISDN")) (Some (js "1")) None)
       (mkParticipant (Some (js "MSISDN")) (Some (js "2")) None))
    (mkAuditedLookup None None None None None None None) (Some (BText (js "request"))) None error patchError None.
Definition lookup_message : TransactionMessage body :=
  mkTransactionMessage (Some PParties) (Some ARequest) (Some Outbound)
    (Some (example_content (Some (Some 100)) None None)).
Definition patch_message : TransactionMessage body :=
  mkTransactionMessage (Some PPatch) (Some AError) (Some Connector)
    (Some (example_content (Some (Some 900)) None (Some (js "timeout")))).

(** In order, and out of order with the patch written, failed and sent again. *)
Definition trail_in_order : list (@Delivery body) :=
  [mkDelivery lookup_message 101 1 None; mkDelivery patch_message 901 1 None].
Definition trail_out_of_order : list (@Delivery body) :=
  [mkDelivery patch_message 901 1 (Some (db_down, true)); mkDelivery lookup_message 902 1 None;
   mkDelivery patch_message 931 2 None].

(** ** Verdicts *)

Section verdicts.
  Context {doc num : Type} `{Documents doc num} (invalid : Failure).
  Notation handle := (handle invalid).
  Notation dispatch := (dispatch invalid).
  Implicit Types (m : TransactionMessage doc) (live : option jsstr).

Lemma failure_verdict c e :
  handleProcessingFailure c e = Term \/ handleProcessingFailure c e = Nak /\ isPermanentDbError e = false /\ c < 5.
Proof.
  unfold handleProcessingFailure, MAX_DELIVERY_ATTEMPTS. destruct (isPermanentDbError e); [by left|].
  destruct (5 <=? c) eqn:Hc; [by left|]. right. apply Z.leb_gt in Hc. done.
Qed.

Lemma handle_nak (now c : Z) (fault : DbFault) (msg : TransactionMessage doc) (t t' : Table num) (live : option jsstr) :
  handle now c fault msg t = (t', Nak, live) -> c < 5.
Proof.
  unfold AuditConsumer.handle. destruct (m_phase msg); [|done]. destruct (dispatch msg) as [[command|]|e]; [|done|].
  - destruct (perform now fault command t) as [t1 [e|]]; [|done]. destruct (failure_verdict c e) as [->|(-> & _ & ?)]; [done|done].
  - destruct (failure_verdict c e) as [->|(-> & _ & ?)]; done.
Qed.

(** C37. A message leaves the queue: whatever fails, and whatever other messages do in
    between, one of its first six deliveries is acknowledged or terminated, given that
    JetStream counts redeliveries. *)
Theorem deliveries_end (count clock : nat -> Z) (meanwhile : nat -> Table num -> Table num)
    (fault : nat -> DbFault) (msg : TransactionMessage doc) (t : Table num) :
  (forall n, Z.of_nat n <= count n) ->
  exists n t' v, deliveries invalid count clock meanwhile fault msg 6 0 t = Some (n, t', v) /\ (n <= 5)%nat /\ v <> Nak.
Proof.
  intros Hc.
  assert (Hgen : forall fuel n t, (n + fuel = 6)%nat -> (fuel <> 0)%nat ->
    exists n' t' v, deliveries invalid count clock meanwhile fault msg fuel n t = Some (n', t', v) /\ (n' <= 5)%nat /\ v <> Nak).
  { induction fuel as [|fuel IH]; intros n t0 Hn Hf; [done|]. cbn [deliveries].
    destruct (handle (clock n) (count n) (fault n) msg (meanwhile n t0)) as [[t1 v] live] eqn:Hh.
    destruct v; [|apply handle_nak in Hh; specialize (Hc n); apply IH; lia|].
    - exists n, t1, Ack. split; [done|]. split; [lia|done].
    - exists n, t1, Term. split; [done|]. split; [lia|done]. }
  by apply Hgen.
Qed.

(** What a delivery does: it is acknowledged exactly when its message is to be ignored
    or its command was executed without a failure; it is sent again exactly on a failure
    that is not permanent, before the fifth redelivery; a message of no known phase is
    terminated; and the table changes only by the command of the message. *)
Theorem handle_verdict (now c : Z) (fault : DbFault) (msg : TransactionMessage doc) (t : Table num) :
  let '(t', verdict, _) := handle now c fault msg t in
  (verdict = Ack <-> m_phase msg <> None /\
     (dispatch msg = Ok None \/ exists command, dispatch msg = Ok (Some command) /\ fault = None)) /\
  (verdict = Nak <-> m_phase msg <> None /\ c < 5 /\
     exists e, isPermanentDbError e = false /\
       (dispatch msg = Err e \/ exists command w, dispatch msg = Ok (Some command) /\ fault = Some (e, w))) /\
  (t' = t \/ exists command, dispatch msg = Ok (Some command) /\ t' = execute now command t) /\
  (verdict = Ack -> forall command, dispatch msg = Ok (Some command) -> t' = execute now command t).
Proof.
  unfold AuditConsumer.handle. destruct (m_phase msg) as [ph|]; [|by repeat split; try done; naive_solver].
  destruct (dispatch msg) as [[command|]|e] eqn:Hd.
  - unfold perform. destruct fault as [[e w]|]; [|naive_solver].
    destruct (failure_verdict c e) as [Hv|(Hv & Hp & Hlt)]; rewrite Hv.
    + assert (Hn : ~ (isPermanentDbError e = false /\ c < 5)).
      { intros [He Hc]. revert Hv. unfold handleProcessingFailure, MAX_DELIVERY_ATTEMPTS. rewrite He.
        destruct (5 <=? c) eqn:Hb; [apply Z.leb_le in Hb; lia|done]. }
      destruct w; naive_solver.
    + destruct w; naive_solver.
  - naive_solver.
  - destruct (failure_verdict c e) as [Hv|(Hv & Hp & Hlt)]; rewrite Hv; [|naive_solver].
    assert (Hn : ~ (isPermanentDbError e = false /\ c < 5)).
    { intros [He Hc]. revert Hv. unfold handleProcessingFailure, MAX_DELIVERY_ATTEMPTS. rewrite He.
      destruct (5 <=? c) eqn:Hb; [apply Z.leb_le in Hb; lia|done]. }
    naive_solver.
Qed.

(** A message that cannot be decoded ends the consumer: no message after it is handled,
    and it is neither acknowledged nor terminated. *)
Theorem undecodable_ends_consumer {bytes} (decode : bytes -> option (TransactionMessage doc))
    (ms : list (bytes * Z * Z * DbFault)) (data : bytes) (now c : Z) (fault : DbFault) (rest : list (bytes * Z * Z * DbFault))
    (t : Table num) :
  decode data = None ->
  consume invalid decode (ms ++ (data, now, c, fault) :: rest) t = consume invalid decode ms t.
Proof.
  intros Hd. revert t. induction ms as [|[[[d n] k] f] ms IH]; intros t; cbn [app consume]; [by rewrite Hd|].
  destruct (decode d) as [m|]; [|done]. destruct (handle n k f m t) as [[t1 v] live]. by rewrite IH.
Qed.
End verdicts.

(** ** Trails *)

Section trails.
  Context {doc num : Type} `{Documents doc num} (invalid : Failure).
  Implicit Types (d : @Delivery doc) (l : list (@Delivery doc)).
  Notation written := (written (num := num) invalid).
  Notation message_input := (message_input (num := num) invalid).

Lemma audited_ok (g : option InvocationGateway) (c : MessageContent doc) a :
  audited invalid g c = Ok a ->
  mc_correlationId c = Some (a_correlationId a) /\
  match mc_occurredAt c with None => a_occurredAt a = None | Some t => a_occurredAt a = t /\ is_Some t end.
Proof.
  unfold audited. destruct (mc_correlationId c), (mc_occurredAt c) as [[t|]|]; try done; intros [= <-]; done.
Qed.

Lemma dispatch_audited (msg : TransactionMessage doc) command a :
  dispatch invalid msg = Ok (Some command) -> command_audited command = Some a ->
  exists c, m_content msg = Some c /\ audited invalid (m_gateway msg) c = Ok a.
Proof.
  destruct msg as [ph act g [c|]]; unfold dispatch, dispatchParties, dispatchQuotes, dispatchTransfers, dispatchPatch;
    cbn [m_phase m_action m_gateway m_content]; [|by destruct ph as [[]|]; [..|destruct act as [[]|]|]].
  intros Hd Ha. exists c. split; [done|]. revert Hd Ha.
  destruct ph as [[]|], act as [[]|]; try done; try (by destruct (audited invalid g c); [intros [= <-] [= <-]|]).
  destruct g as [[]|]; try done. unfold dispatchPatchResolved.
  destruct (mc_correlationId c); [|done]. destruct (_ =? _)%nat; [done|].
  destruct (mc_occurredAt c) as [[t|]|]; try done. by intros [= <-].
Qed.

Lemma upsert_input_timed (command : AuditCommand doc) a t (n n' : Z) :
  command_audited command = Some a -> a_occurredAt a = Some t ->
  upsert_input (num := num) n command = upsert_input n' command.
Proof.
  intros Ha Ht. destruct command; try done; cbn in Ha; injection Ha as ->; cbn [upsert_input];
    f_equal; unfold toPartiesRequestInput, toPartiesResponseInput, toPartiesErrorInput, toQuotesRequestInput,
    toQuotesResponseInput, toQuotesErrorInput, toTransfersRequestInput, toTransfersResponseInput,
    toTransfersErrorInput, toPatchRequestInput, toPatchResponseInput, toPatchErrorInput, resolveOccurredAt;
    by rewrite Ht.
Qed.

Lemma upsert_input_audited (command : AuditCommand doc) n i :
  upsert_input (num := num) n command = Some i -> exists a, command_audited command = Some a.
Proof. destruct command; try done; intros _; by eexists. Qed.

Lemma message_input_timed (msg : TransactionMessage doc) n n' :
  timed msg = true -> message_input n msg = message_input n' msg.
Proof.
  unfold message_input, timed. intros Ht. destruct (m_phase msg); [|done].
  destruct (dispatch invalid msg) as [[command|]|] eqn:Hd; try done.
  destruct (command_audited command) as [a|] eqn:Ha; [|by destruct command].
  destruct (dispatch_audited _ _ _ Hd Ha) as (c & Hc & Hau). rewrite Hc in Ht.
  apply audited_ok in Hau as [_ Hau]. destruct (mc_occurredAt c) as [t|]; [|done].
  destruct Hau as [Hau [t' ->]]. by apply (upsert_input_timed _ a t').
Qed.

Lemma resolved_message (msg : TransactionMessage doc) id at_ :
  dispatch invalid msg = Ok (Some (AuditPatchResolved id at_)) -> resolution msg = true.
Proof.
  destruct msg as [ph act g [c|]]; unfold dispatch, dispatchParties, dispatchQuotes, dispatchTransfers, dispatchPatch;
    cbn [m_phase m_action m_gateway m_content]; [|by destruct ph as [[]|]; [..|destruct act as [[]|]|]].
  destruct ph as [[]|], act as [[]|]; try done; by destruct (audited invalid g c).
Qed.

Lemma handle_written d (t : Table num) :
  resolution (d_message d) = false ->
  fst (fst (handle invalid (d_now d) (d_count d) (d_fault d) (d_message d) t)) =
  match written d with Some (n, i) => upsert n i t | None => t end.
Proof.
  intros Hr. unfold handle, AuditConsumer.written, AuditConsumer.message_input.
  destruct (m_phase (d_message d)); [|by destruct (d_fault d) as [[? []]|]].
  destruct (dispatch invalid (d_message d)) as [[command|]|e] eqn:Hd; [|by destruct (d_fault d) as [[? []]|]..].
  assert (He : execute (d_now d) command t = match upsert_input (d_now d) command with Some i => upsert (d_now d) i t | None => t end).
  { destruct command; try done. by rewrite (resolved_message _ _ _ Hd) in Hr. }
  unfold perform. destruct (d_fault d) as [[e []]|]; cbn [fst]; rewrite ?He; by destruct (upsert_input _ _).
Qed.

Lemma delivered_upserts l :
  ordinary l -> delivered invalid l (∅ : Table num) = upserts (omap written l) ∅.
Proof.
  unfold delivered, upserts. generalize (∅ : Table num) as t.
  induction l as [|d l IH]; intros t Ho; [done|]. inversion Ho as [|? ? [Hr _] Hl]; subst.
  cbn [fold_left]. rewrite (handle_written _ _ Hr), (IH _ Hl). cbn [omap list_omap].
  by destruct (written d) as [[n i]|].
Qed.

(** The inputs of a transaction that a settled trail stores are those of its acknowledged
    messages. *)
Lemma stored_inputs l k i :
  ordinary l -> settled (num := num) invalid l ->
  In i (map snd (for_key k (omap written l))) <->
  (exists m, In m (acknowledged_messages invalid l) /\ message_input 0 m = Some i) /\ u_correlationId i = k.
Proof.
  unfold ordinary, for_key, acknowledged_messages. rewrite Forall_forall. intros Ho Hs.
  rewrite in_map_iff. setoid_rewrite filter_In. setoid_rewrite bool_decide_eq_true. split.
  - intros ([n j] & Hj & Hin & Hk). cbn in Hj, Hk. subst j. split; [|done].
    apply list_elem_of_In, list_elem_of_omap in Hin as (d & Hd & Hw). apply list_elem_of_In in Hd.
    destruct (Hs d Hd) as (d' & Hd' & Hm & Hack); [by exists (n, i)|].
    exists (d_message d). split.
    + rewrite <- Hm. apply in_map, filter_In. done.
    + destruct (Ho d ltac:(by apply list_elem_of_In)) as [_ Ht]. rewrite (message_input_timed _ 0 (d_now d) Ht).
      unfold AuditConsumer.written in Hw. destruct (d_fault d) as [[e []]|]; try done;
        destruct (message_input (d_now d) (d_message d)); cbn in Hw; congruence.
  - intros [(m & Hm & Hi) Hk]. apply in_map_iff in Hm as (d & <- & Hd). apply filter_In in Hd as [Hd Hack].
    exists (d_now d, i). split; [done|]. split; [|done].
    apply list_elem_of_In, list_elem_of_omap. exists d. split; [by apply list_elem_of_In|].
    destruct (Ho d ltac:(by apply list_elem_of_In)) as [_ Ht]. rewrite (message_input_timed _ 0 (d_now d) Ht) in Hi.
    unfold AuditConsumer.written, acknowledged, AuditConsumer.message_input in *.
    destruct (m_phase (d_message d)); [|done]. destruct (dispatch invalid (d_message d)) as [[command|]|]; try done.
    destruct (d_fault d); [done|]. by rewrite Hi.
Qed.

Lemma input_error (msg : TransactionMessage doc) n i : message_input n msg = Some i -> u_error i = reports_failure msg.
Proof.
  unfold AuditConsumer.message_input, reports_failure. destruct msg as [ph act g [c|]]; cbn [m_phase m_action m_content].
  - destruct ph as [ph|]; [|done]. unfold dispatch, dispatchParties, dispatchQuotes, dispatchTransfers, dispatchPatch.
    cbn [m_phase m_action m_gateway m_content].
    destruct ph, act as [[]|]; try done; try (destruct (audited invalid g c); [|done]); cbn [upsert_input];
      try (intros [= <-]; done).
    + intros [= <-]. unfold toQuotesResponseInput. by destruct (toQuoteExportAmounts _) as [[[? ?] ?] ?].
    + destruct g as [[]|]; try done. unfold dispatchPatchResolved.
      destruct (mc_correlationId c); [|done]. destruct (_ =? _)%nat; [done|].
      by destruct (mc_occurredAt c) as [[t|]|].
  - unfold dispatch. cbn. by destruct ph as [[]|]; [..|destruct act as [[]|]|].
Qed.

(** C16. Two trails that acknowledge the same messages, in whatever order they are delivered,
    however often they are sent again and whatever failures the database has, leave the same
    facts of every transaction. The trails are ordinary: every message says when it happened
    and none resolves a dispute, since [RESOLVED] and a later failure are taken in the order of
    delivery (see [resolved_dispute]); and settled: every delivery that was written is at some
    time acknowledged, which the same message sent again brings about. *)
Theorem trail_order_free (l l' : list (@Delivery doc)) (k : jsstr) :
  ordinary l -> ordinary l' -> settled (num := num) invalid l -> settled (num := num) invalid l' ->
  same (acknowledged_messages invalid l) (acknowledged_messages invalid l') ->
  facts_of k (delivered invalid l (∅ : Table num)) = facts_of k (delivered invalid l' ∅).
Proof.
  intros Ho Ho' Hs Hs' Hm. rewrite !delivered_upserts by done. apply facts_of_same. intros i.
  rewrite !stored_inputs by done. split; intros [(m & Hin & Hi) Hk]; (split; [|done]); exists m;
    (split; [by apply Hm|done]).
Qed.

(** The error flag of a transaction is set exactly when one of its acknowledged messages
    reports a failure: an error of a phase, or a patch error with a text. *)
Theorem trail_error (l : list (@Delivery doc)) (k : jsstr) :
  ordinary l -> settled (num := num) invalid l ->
  error <$> delivered invalid l (∅ : Table num) !! k = Some true <->
  exists m i, In m (acknowledged_messages invalid l) /\ message_input 0 m = Some i /\ u_correlationId i = k /\
              reports_failure m = true.
Proof.
  intros Ho Hs. rewrite delivered_upserts by done. rewrite error_of_upserts.
  setoid_rewrite stored_inputs; [|done..]. split.
  - intros (i & [(m & Hm & Hi) Hk] & He). exists m, i. by rewrite <- (input_error _ _ _ Hi).
  - intros (m & i & Hm & Hi & Hk & Hr). exists i. rewrite (input_error _ _ _ Hi). split; [|done]. split; [|done]. by exists m.
Qed.
End trails.

(** ** Well-formed rows *)

Section wellformed.
  Context {doc num : Type} `{Documents doc num} (invalid : Failure).

Lemma wf_values (n : Z) (i : UpsertInput doc num) :
  wf_phase (u_startedAt i) (u_parties i) -> wf_phase (u_startedAt i) (u_quotes i) ->
  wf_phase (u_startedAt i) (u_transfers i) ->
  le_opt (Some (u_startedAt i)) (patchRequestedAt (u_patch i)) ->
  le_opt (Some (u_startedAt i)) (patchRespondedAt (u_patch i)) ->
  u_completedAt i = None \/ u_completedAt i = Some (u_startedAt i) /\ is_Some (u_flow i) ->
  flow_ok (u_flow i) -> (u_error i = true -> is_Some (u_flow i) \/ is_Some (patchError (u_patch i))) ->
  u_createdAt i = Some (u_startedAt i) -> wf_row (values n i).
Proof.
  intros Hp Hq Ht Hr1 Hr2 Hc Hf He Hcr. split; cbn; try (by apply wf_phase_map); try done.
  - by destruct Hc as [-> |[-> ?]]; [|by exists (u_startedAt i)].
  - split; [done|]. destruct Hc as [-> |[-> ?]]; [by intros []|done].
  - by rewrite Hcr.
Qed.

Lemma wf_input (now n : Z) (command : AuditCommand doc) (i : UpsertInput doc num) :
  upsert_input now command = Some i -> wf_row (values n i).
Proof.
  destruct command; cbn [upsert_input]; intros [= <-];
    try (apply wf_values; cbn -[Z.le flow_ok le_opt];
         first [apply wf_no_phase|apply wf_requested_phase|apply wf_responded_phase|done
               |by left|by right|by eexists|by cbn; lia|by intros; left; eexists|by intros; right; destruct error]).
  unfold toQuotesResponseInput. destruct (toQuoteExportAmounts _) as [[[? ?] ?] ?].
  apply wf_values; cbn; first [apply wf_no_phase|apply wf_responded_phase|done|by left|lia].
Qed.

Lemma wf_insert (k : jsstr) (r : Row num) (t : Table num) : wf_row r -> wf_table t -> wf_table (<[k := r]> t).
Proof. intros. by apply map_Forall_insert_2. Qed.

Lemma wf_upsert (now n : Z) (command : AuditCommand doc) (i : UpsertInput doc num) (t : Table num) :
  upsert_input now command = Some i -> wf_table t -> wf_table (upsert n i t).
Proof.
  intros Hi Ht. apply (wf_input now n) in Hi. apply wf_insert; [|done].
  destruct (t !! _) as [old|] eqn:Ho; [|done]. apply wf_merge; [by apply (Ht _ _ Ho)|done].
Qed.

Lemma wf_flag (now : Z) (r : Row num) : wf_row r -> wf_row (disputed now r).
Proof. by intros []. Qed.
Lemma wf_resolved (now occurredAt : Z) (r : Row num) : wf_row r -> wf_row (resolved now occurredAt r).
Proof. by intros []. Qed.

Lemma wf_execute (now : Z) (command : AuditCommand doc) (t : Table num) : wf_table t -> wf_table (execute now command t).
Proof.
  intros Ht. destruct (upsert_input (num := num) now command) as [i|] eqn:Hi.
  - assert (execute now command t = upsert now i t) as ->.
    { destruct command; try done; cbn [execute]; by rewrite Hi. }
    by apply (wf_upsert now now command).
  - destruct command as [| | | | | | | | | | | |k occurredAt]; try done. cbn [execute]. unfold resolveDispute.
    destruct (t !! k) as [r|] eqn:Hr; [|done]. apply wf_insert; [apply wf_resolved, (Ht _ _ Hr)|done].
Qed.

Lemma wf_step (t t' : Table num) : audit_step (doc := doc) invalid t t' -> wf_table t -> wf_table t'.
Proof.
  intros [now c fault msg|now k] Ht.
  - unfold handle. destruct (m_phase msg); [|done]. destruct (dispatch invalid msg) as [[command|]|]; try done.
    unfold perform. destruct fault as [[e []]|]; cbn; try done; by apply wf_execute.
  - unfold dispute. destruct (t0 !! k) as [r|] eqn:Hr; [|done]. apply wf_insert; [apply wf_flag, (Ht _ _ Hr)|done].
Qed.

(** Every row the consumer and the operators can produce is well formed: no phase has a
    time before the start of the transaction, a phase is requested no later and answered no
    earlier than at any of its gateways, a completed transaction has its flow and its
    latency is not negative, an error is reported by some phase, and the row was created at
    the start. *)
Theorem rows_wellformed (t : Table num) : rtc (audit_step (doc := doc) invalid) ∅ t -> wf_table t.
Proof.
  assert (Hgen : forall t0 t1, rtc (audit_step (doc := doc) invalid) t0 t1 -> wf_table t0 -> wf_table t1).
  { intros t0 t1 Hr. induction Hr as [|a b c Hs _ IH]; [done|]. intros Hw. by apply IH, (wf_step a). }
  intros Hr. apply (Hgen _ _ Hr). apply map_Forall_empty.
Qed.
End wellformed.

(** ** Witnesses *)

Ltac settle := intros d Hd Hw; repeat (destruct Hd as [<-|Hd]); [..|destruct Hd];
  first [eexists; split; [by left|split; reflexivity]
        |eexists; split; [by right; left|split; reflexivity]
        |eexists; split; [by right; right; left|split; reflexivity]].

Lemma deliveries_end_witness :
  exists n t' v, deliveries refused (fun n => Z.of_nat n + 1) (fun n => 900 + Z.of_nat n) (fun _ t => t)
    (fun n => Some (db_down, false)) patch_message 6 0 (∅ : Table jsstr) = Some (n, t', v) /\ (n <= 5)%nat /\ v <> Nak.
Proof. apply (deliveries_end refused). intros n. lia. Defined.

Lemma undecodable_ends_consumer_witness :
  consume refused (fun b : bool => if b then Some patch_message else None)
    ([(true, 901, 1, None)] ++ (false, 902, 1, None) :: [(true, 903, 1, None)]) (∅ : Table jsstr) =
  consume refused (fun b : bool => if b then Some patch_message else None) [(true, 901, 1, None)] ∅.
Proof. apply (undecodable_ends_consumer refused). reflexivity. Defined.

Lemma trail_order_free_witness :
  facts_of (js "T1") (delivered refused trail_in_order (∅ : Table jsstr)) =
  facts_of (js "T1") (delivered refused trail_out_of_order ∅).
Proof.
  apply (trail_order_free refused trail_in_order trail_out_of_order (js "T1")).
  - repeat constructor.
  - repeat constructor.
  - settle.
  - settle.
  - change (same [lookup_message; patch_message] [lookup_message; patch_message]). intros x. tauto.
Defined.

Lemma trail_error_witness :
  error <$> delivered refused trail_out_of_order (∅ : Table jsstr) !! js "T1" = Some true.
Proof.
  apply (trail_error (num := jsstr) refused trail_out_of_order (js "T1")).
  - repeat constructor.
  - settle.
  - exists patch_message, patch_failed. repeat split; [right; left; reflexivity|reflexivity..].
Defined.

Lemma rows_wellformed_witness : wf_table (delivered refused trail_out_of_order (∅ : Table jsstr)).
Proof.
  apply (rows_wellformed (doc := body) refused).
  eapply rtc_l; [apply (message_handled refused 901 1 (Some (db_down, true)) patch_message)|].
  eapply rtc_l; [apply (message_handled refused 902 1 None lookup_message)|].
  apply rtc_once. apply (message_handled refused 931 2 None patch_message).
Defined.
