(* ===== verification/Perform.v ===== *)
(** * The callbacks of a connector

    core/connector/domain/command (perform-*.handler.ts), audit-error-converter.ts, and
    core/connector/consumer/listener: a request that reached the payee's side of the hub is
    given to the back office, the answer is put to the hub, and every step is audited. A
    handler is its list of attempted effects and its result; an [Env] says which of the calls
    fail. The JetStream consumer delivers a message again until it has its acknowledgement. *)

From S2P Require Import Prelude Errors Dates Currencies Money Wire Transfer SendMoney Connector AuditTrail AuditConsumer.

(** ** Errors *)

(** What [FspiopException.normalize] sees of a failure. *)
Definition to_thrown (e : failure) : thrown :=
  match e with
  | Raised t => t
  | FspClientException _ description => TError description
  | ForeignObject true _ _ message _ => TError message
  | ForeignObject false _ _ _ _ => TOther
  end.
(** [FspiopException.rethrow] *)
Definition rethrow (e : failure) : failure := Raised (TFspiop (normalize (to_thrown e))).

(** [AuditErrorConverter.toAuditError] *)
Definition toAuditError (e : failure) : ErrorInformation :=
  let x := normalize (to_thrown e) in toErrorObject (errorDefinition x) (extensionList x).

(** [toFspClientException]: code and description of what is or looks like one. The errors of
    this code and its libraries have no description, and other names and codes. *)
Definition toFspClientException (e : failure) : option (jsstr * jsstr) :=
  match e with
  | FspClientException code description => Some (code, description)
  | Raised _ => None
  | ForeignObject _ name code message description =>
      let message := trim message in
      let description := trim description in
      if str_eqb name (js "FspClientException") || str_eqb code (js "FSP_CLIENT_ERROR") || (0 <? length description)%nat
      then Some (if (0 <? length code)%nat then code else js "FSP_CLIENT_ERROR",
                 if (0 <? length message)%nat then message else description)
      else None
  end.
(** [toFspError]: the message of such an exception is its description. *)
Definition toFspError (e : failure) : option jsstr := snd <$> toFspClientException e.

(** ** FspiopAxios *)

(** The addresses of the calls to the hub; an empty sub-id is none. *)
Definition axios_parties (baseUrl idType id : jsstr) (subId : option jsstr) : jsstr :=
  let tail := match subId with Some ((_ :: _) as s) => slash :: s | _ => [] end in
  baseUrl ++ js "/parties/" ++ path2 idType id ++ tail.
Definition axios_quotes (baseUrl id : jsstr) : jsstr := baseUrl ++ js "/quotes/" ++ id.
Definition axios_transfers (baseUrl id : jsstr) : jsstr := baseUrl ++ js "/transfers/" ++ id.
Definition axios_error (url : jsstr) : jsstr := url ++ js "/error".

(** ** Effects *)

(** Bodies of audit messages and of calls to the hub. *)
Inductive body : Set :=
  | BParty (p : Party)
  | BQuoteRequest (r : QuoteRequest) | BQuoteResponse (r : QuotesIDPutResponse)
  | BTransferRequest (r : TransfersPostRequest) | BTransferResponse (r : TransfersIDPutResponse)
  | BPatch (state : TransferState)
  | BError (audit : ErrorInformation) (fspError : option jsstr).

Inductive action : Set :=
  | PAudit (m : TransactionMessage body)
  | PFsp (call : FspCall)
  | PPut (url : jsstr) (headers : FspiopHeadersMap) (b : body)
  | PPutError (url : jsstr) (headers : FspiopHeadersMap) (e : ErrorInformation).

(** The calls of a handler that may fail. *)
Record PerformEnv : Type := mkPerformEnv {
  request_fault : option failure; put_fault : option failure; response_fault : option failure;
  put_error_fault : option failure; error_fault : option failure }.

(** The times of the messages, and what the date header says. *)
Record Times : Set := mkTimes { createdAt : Z; respondedAt : Z; failedAt : Z; header_date : jsstr }.

(** [firstNonBlank], whose values are trimmed. *)
Fixpoint first_nonblank (values : list (option jsstr)) : option jsstr :=
  match values with
  | [] => None
  | v :: values => match v with
                   | Some v => if blank_text v then first_nonblank values else Some (trim v)
                   | None => first_nonblank values
                   end
  end.
(** The handlers' [resolveCorrelationId] and the inbound [resolveGatewayCorrelationId]. *)
Definition resolveCorrelationId (correlationId : option jsstr) (ids : list (option jsstr)) : result thrown jsstr :=
  match first_nonblank ids with
  | Some id => Ok id
  | None => match first_nonblank [correlationId] with
            | Some id => Ok id
            | None => Err (required "traceparent correlationId or transaction identifier")
            end
  end.
(** That of the parties handler. *)
Definition resolvePartiesCorrelationId (correlationId : option jsstr) : result thrown jsstr :=
  match correlationId with
  | Some c => if blank_text c then Err (required "traceparent correlationId") else Ok c
  | None => Err (required "traceparent correlationId")
  end.
(** [correlationId?.trim() || auditCorrelationId] *)
Definition traceparent_of (correlationId : option jsstr) (auditCorrelationId : jsstr) : jsstr :=
  match trim <$> correlationId with Some ((_ :: _) as c) => c | _ => auditCorrelationId end.

(** ** The flow the three handlers share *)

Section flow.
  Context {R : Type} (env : PerformEnv).

(** What a handler does: its first message, the back office and its answer, the call that puts
    it to the hub, the last message, the error callback and its message. *)
Record Flow : Type := mkFlow {
  f_request : TransactionMessage body; f_work : list FspCall * result failure R; f_put : R -> action;
  f_response : R -> TransactionMessage body; f_put_error : ErrorInformation -> action;
  f_error : ErrorInformation -> option jsstr -> TransactionMessage body }.

(** The [try] block after the back office. *)
Definition deliver (f : Flow) : list action * result failure unit :=
  match snd (f_work f) with
  | Err e => ([], Err e)
  | Ok response =>
      match put_fault env with
      | Some e => ([f_put f response], Err e)
      | None => ([f_put f response; PAudit (f_response f response)],
                 match response_fault env with Some e => Err e | None => Ok tt end)
      end
  end.

(** The [catch] block: the callback, and the message about what failed last; a failure of the
    message is dropped. *)
Definition recover_flow (f : Flow) (error : failure) : list action * result failure unit :=
  let auditError := toAuditError error in
  let fspError := toFspError error in
  let '(callbackError, callbackAuditError, callbackFspError) :=
    match put_error_fault env with
    | None => (error, auditError, fspError)
    | Some putError => (putError, toAuditError putError, match fspError with Some _ => fspError | None => toFspError putError end)
    end in
  ([f_put_error f auditError; PAudit (f_error f callbackAuditError callbackFspError)], Err (rethrow callbackError)).

Definition run_flow (f : Flow) : list action * result failure unit :=
  match request_fault env with
  | Some e => ([PAudit (f_request f)], Err e)
  | None =>
      let '(sent, outcome) := deliver f in
      let '(recovered, outcome) := match outcome with Ok _ => ([], Ok tt) | Err e => recover_flow f e end in
      (PAudit (f_request f) :: map PFsp (fst (f_work f)) ++ sent ++ recovered, outcome)
  end.
End flow.
Arguments Flow : clear implicits.

(** ** The handlers *)

Section handlers.
  Context {lib : IlpLibrary} {dates : JsDates} (agreement_JSON : FspiopAgreement -> jsstr).
  Context (cfg : ConnectorSettings) (client : FspClient) (baseUrl : jsstr) (t : Times).

Definition no_parties : AuditedParties := mkAuditedParties no_participant no_participant.
Definition no_lookup : AuditedLookup := mkAuditedLookup None None None None None None None.
(** A message of the connector's gateway. *)
Definition message (phase : InvocationPhase) (act : InvocationAction) (id payerFsp payeeFsp : jsstr) (parties : AuditedParties)
    (at_ : Z) (request response error : option body) (patchError : option jsstr) : TransactionMessage body :=
  mkTransactionMessage (Some phase) (Some act) (Some AuditTrail.Connector)
    (Some (mkMessageContent (Some id) payerFsp payeeFsp (Some (Some at_)) parties no_lookup request response error patchError None)).

(** [PerformGetPartiesHandler.execute] *)
Definition perform_get_parties (env : PerformEnv) (correlationId : option jsstr) (payerFsp payeeFsp idType id : jsstr)
    (subId : option jsstr) : list action * result failure unit :=
  match resolvePartiesCorrelationId correlationId with
  | Err e => ([], Err (Raised e))
  | Ok auditCorrelationId =>
      let headers := forResult RParties (header_date t) (Some auditCorrelationId) payerFsp (connectorId cfg) in
      let url := axios_parties baseUrl idType id subId in
      let parties := mkAuditedParties no_participant (mkParticipant (Some idType) (Some id) subId) in
      let msg act at_ := message PParties act auditCorrelationId payerFsp payeeFsp parties at_ None in
      run_flow env {|
        f_request := msg ARequest (createdAt t) None None None; f_work := getParties client idType id subId;
        f_put r := PPut url headers (BParty r); f_response r := msg AResponse (respondedAt t) (Some (BParty r)) None None;
        f_put_error := PPutError (axios_error url) headers;
        f_error e fspError := msg AError (failedAt t) None (Some (BError e fspError)) None |}
  end.

(** [PerformPostQuotesHandler.execute]; the messages after the first have the request as the
    validation left it. *)
Definition perform_post_quotes (env : PerformEnv) (now : Z) (correlationId : option jsstr) (payerFsp payeeFsp : jsstr)
    (request : QuoteRequest) : list action * result failure unit :=
  match resolveCorrelationId correlationId
          [qr_transactionId request; qr_transactionRequestId request; Some (qr_quoteId request)] with
  | Err e => ([], Err (Raised e))
  | Ok auditCorrelationId =>
      let headers := forResult RQuotes (header_date t) (Some (traceparent_of correlationId auditCorrelationId)) payerFsp
                       (connectorId cfg) in
      let url := axios_quotes baseUrl (qr_quoteId request) in
      let '(request', calls, answer) := postQuotes agreement_JSON cfg client now request in
      let msg act at_ r := message PQuotes act auditCorrelationId payerFsp payeeFsp no_parties at_ (Some (BQuoteRequest r)) in
      run_flow env {|
        f_request := msg ARequest (createdAt t) request None None None; f_work := (calls, answer);
        f_put r := PPut url headers (BQuoteResponse r);
        f_response r := msg AResponse (respondedAt t) request' (Some (BQuoteResponse r)) None None;
        f_put_error := PPutError (axios_error url) headers;
        f_error e fspError := msg AError (failedAt t) request' None (Some (BError e fspError)) None |}
  end.

(** [PerformPostTransfersHandler.execute] *)
Definition perform_post_transfers (env : PerformEnv) (now later : Z) (correlationId : option jsstr) (payerFsp payeeFsp : jsstr)
    (request : TransfersPostRequest) : list action * result failure unit :=
  match resolveCorrelationId correlationId [Some (tp_transferId request)] with
  | Err e => ([], Err (Raised e))
  | Ok auditCorrelationId =>
      let headers := forResult RTransfers (header_date t) (Some (traceparent_of correlationId auditCorrelationId)) payerFsp
                       (connectorId cfg) in
      let url := axios_transfers baseUrl (tp_transferId request) in
      let '(request', calls, answer) := postTransfers cfg client now later request in
      let msg act at_ r := message PTransfers act auditCorrelationId payerFsp payeeFsp no_parties at_ (Some (BTransferRequest r)) in
      run_flow env {|
        f_request := msg ARequest (createdAt t) request None None None; f_work := (calls, answer);
        f_put r := PPut url headers (BTransferResponse r);
        f_response r := msg AResponse (respondedAt t) request' (Some (BTransferResponse r)) None None;
        f_put_error := PPutError (axios_error url) headers;
        f_error e fspError := msg AError (failedAt t) request' None (Some (BError e fspError)) None |}
  end.

(** [PerformPatchTransfersHandler.execute]: nothing is put to the hub, only a failure of the back
    office is audited, and the error is thrown as it is, or that of its message instead. *)
Definition perform_patch_transfers (env : PerformEnv) (correlationId : option jsstr) (payerFsp payeeFsp transferId : jsstr)
    (state : TransferState) : list action * result failure unit :=
  match resolveCorrelationId correlationId [Some transferId] with
  | Err e => ([], Err (Raised e))
  | Ok auditCorrelationId =>
      let msg act at_ := message PPatch act auditCorrelationId payerFsp payeeFsp no_parties at_ in
      let request := PAudit (msg ARequest (createdAt t) (Some (BPatch state)) None None None) in
      match request_fault env with
      | Some e => ([request], Err e)
      | None =>
          let '(calls, answer) := patchTransfers client payerFsp payeeFsp transferId state in
          let '(sent, outcome) :=
            match answer with
            | Err e => ([], Err e)
            | Ok _ => ([PAudit (msg AResponse (respondedAt t) None (Some (BPatch state)) None None)],
                       match response_fault env with Some e => Err e | None => Ok tt end)
            end in
          let '(recovered, outcome) :=
            match outcome with
            | Ok _ => ([], Ok tt)
            | Err e => match toFspError e with
                       | None => ([], Err e)
                       | Some patchError => ([PAudit (msg AError (failedAt t) None None None (Some patchError))],
                                             Err (default e (error_fault env)))
                       end
            end in
          (request :: map PFsp calls ++ sent ++ recovered, outcome)
      end
  end.
End handlers.

(** ** The listeners *)

(** What a listener answers JetStream: a message that does not decode throws like one whose
    command does. *)
Definition listener_verdict (outcome : result failure unit) : Verdict :=
  match outcome with
  | Ok _ => Ack
  | Err (Raised (TFspiop _)) => Ack
  | Err _ => Nak
  end.

(** What becomes of a delivery. JetStream delivers a message again after a Nak, when no answer
    came within ack_wait (the handler was slow, or its answer was lost), and when the process
    ended first, here after [n] effects. *)
Inductive fate : Set := Settled | Unanswered | Crashed (n : nat).
Definition is_settled (f : fate) : bool := match f with Settled => true | _ => false end.

(** The deliveries of a message, one handler run each. A slow run goes on next to the delivery
    that follows it: what is counted below does not depend on how their effects interleave. *)
Fixpoint redelivered (runs : list (list action * result failure unit * fate)) : list action :=
  match runs with
  | [] => []
  | (sent, outcome, Settled) :: runs => sent ++ match listener_verdict outcome with Nak => redelivered runs | _ => [] end
  | (sent, _, Unanswered) :: runs => sent ++ redelivered runs
  | (sent, _, Crashed n) :: runs => take n sent ++ redelivered runs
  end.

(** The four listeners. *)
Inductive operation : Set := OGetParties | OPostQuotes | OPostTransfers | OPatchTransfers.
Definition operation_name (o : operation) : jsstr :=
  match o with OGetParties => js "get-parties" | OPostQuotes => js "post-quotes" | OPostTransfers => js "post-transfers"
             | OPatchTransfers => js "patch-transfers" end.
Definition DURABLE_PREFIX (o : operation) : jsstr := js "connector-consumer-" ++ operation_name o.
(** [normalizeDurableSegment] *)
Definition durable_char (c : ascii) : ascii :=
  let n := code c in
  if ((97 <=? n)%N && (n <=? 122)%N) || ((48 <=? n)%N && (n <=? 57)%N) || bool_decide (c = "_"%char) || bool_decide (c = "-"%char)
  then c else "-"%char.
Definition normalizeDurableSegment (value : jsstr) : jsstr :=
  let normalized := map durable_char (toLowerCase (trim value)) in
  match normalized with [] => js "default" | _ => normalized end.
Definition durableFor (o : operation) (connectorId : jsstr) : jsstr :=
  DURABLE_PREFIX o ++ js "-" ++ normalizeDurableSegment connectorId.
(** [subjectFor] of the publishers, which the listeners use. *)
Definition subjectFor (o : operation) (payeeFsp : jsstr) : jsstr :=
  js "fspiop." ++ payeeFsp ++
  match o with OGetParties => js ".get.parties" | OPostQuotes => js ".post.quotes" | OPostTransfers => js ".post.transfers"
             | OPatchTransfers => js ".patch.transfers" end.

(** [ensureConsumer] on the durable consumers of a stream, each with its filter. *)
Definition ensureConsumer (durable subject : jsstr) (consumers : gmap jsstr jsstr) : gmap jsstr jsstr :=
  match consumers !! durable with Some _ => consumers | None => <[durable := subject]> consumers end.
(** [onModuleInit]: the consumers then, and the subject the listener reads. *)
Definition listen (o : operation) (connectorId : jsstr) (consumers : gmap jsstr jsstr) : gmap jsstr jsstr * option jsstr :=
  let connectorId := trim connectorId in
  let durable := durableFor o connectorId in
  let consumers := ensureConsumer durable (subjectFor o connectorId) consumers in
  (consumers, consumers !! durable).

(** Requests of the hub to the payee's side other than PATCH, and an attempt to perform one:
    what fails, the clock and what the back office answers this time. *)
Inductive request : Set :=
  | GetParties (correlationId : option jsstr) (payerFsp payeeFsp idType id : jsstr) (subId : option jsstr)
  | PostQuotes (correlationId : option jsstr) (payerFsp payeeFsp : jsstr) (r : QuoteRequest)
  | PostTransfers (correlationId : option jsstr) (payerFsp payeeFsp : jsstr) (r : TransfersPostRequest).
Record attempt_env : Type := mkAttempt {
  at_env : PerformEnv; at_client : FspClient; at_times : Times; at_now : Z; at_later : Z; at_fate : fate }.

Section perform.
  Context {lib : IlpLibrary} {dates : JsDates} (agreement_JSON : FspiopAgreement -> jsstr).
  Context (cfg : ConnectorSettings) (baseUrl : jsstr).

Definition perform (m : request) (x : attempt_env) : list action * result failure unit :=
  match m with
  | GetParties c payer payee idType id subId =>
      perform_get_parties cfg (at_client x) baseUrl (at_times x) (at_env x) c payer payee idType id subId
  | PostQuotes c payer payee r =>
      perform_post_quotes agreement_JSON cfg (at_client x) baseUrl (at_times x) (at_env x) (at_now x) c payer payee r
  | PostTransfers c payer payee r =>
      perform_post_transfers cfg (at_client x) baseUrl (at_times x) (at_env x) (at_now x) (at_later x) c payer payee r
  end.
End perform.

Definition is_fsp (a : action) : bool := match a with PFsp _ => true | _ => false end.
Definition is_callback (a : action) : bool := match a with PPut _ _ _ | PPutError _ _ _ => true | _ => false end.
Definition is_audit (a : action) : bool := match a with PAudit _ => true | _ => false end.

(** * Lemmas *)

(** The callbacks a flow may put, in order. *)
Inductive callbacks {R} (f : Flow R) : list action -> Prop :=
  | cb_none : callbacks f []
  | cb_put r : callbacks f [f_put f r]
  | cb_error e : callbacks f [f_put_error f e]
  | cb_both r e : callbacks f [f_put f r; f_put_error f e].

Record well_formed {R} (f : Flow R) : Prop := {
  wf_put : forall r, is_callback (f_put f r) = true /\ is_fsp (f_put f r) = false;
  wf_put_error : forall e, is_callback (f_put_error f e) = true /\ is_fsp (f_put_error f e) = false;
  wf_work : (length (fst (f_work f)) <= 1)%nat }.

Lemma filter_fsp_calls calls : List.filter is_fsp (map PFsp calls) = map PFsp calls.
Proof. induction calls as [|c l IH]; [done|]. cbn. by rewrite IH. Qed.
Lemma filter_callback_calls calls : List.filter is_callback (map PFsp calls) = [].
Proof. by induction calls. Qed.

(** What a flow does: nothing but its first message if that fails; otherwise the back office
    is called once at most, the callbacks are of one of the four shapes, and what is thrown is
    an [FspiopException]. *)
Lemma run_flow_spec {R} env (f : Flow R) : well_formed f ->
  let '(sent, outcome) := run_flow env f in
  match request_fault env with
  | Some e => sent = [PAudit (f_request f)] /\ outcome = Err e
  | None =>
      List.filter is_fsp sent = map PFsp (fst (f_work f)) /\ callbacks f (List.filter is_callback sent) /\
      match outcome with
      | Ok _ => exists r, snd (f_work f) = Ok r /\ List.filter is_callback sent = [f_put f r]
      | Err e => exists x e0, e = Raised (TFspiop x) /\ List.filter is_callback sent <> [] /\
                   last (List.filter is_callback sent) = Some (f_put_error f (toAuditError e0))
      end
  end.
Proof.
  intros [Hp He _]. unfold run_flow. destruct (request_fault env) as [e|]; [done|].
  assert (Hrec : forall e, exists a m x, recover_flow env f e = ([f_put_error f (toAuditError e); PAudit m], Err (Raised (TFspiop x))) /\ a = e).
  { intros e. unfold recover_flow, rethrow. destruct (put_error_fault env); by eexists _, _, _. }
  unfold deliver. destruct (snd (f_work f)) as [r|e] eqn:Hw.
  - destruct (Hp r) as [Hp1 Hp2]. destruct (put_fault env) as [e|].
    + destruct (Hrec e) as (a & m & x & -> & _). destruct (He (toAuditError e)) as [He1 He2]. cbn [List.filter app is_fsp is_callback].
      rewrite !List.filter_app, filter_fsp_calls, filter_callback_calls. cbn. rewrite Hp1, Hp2, He1, He2, app_nil_r.
      split; [done|]. split; [constructor|]. by eexists _, _.
    + destruct (response_fault env) as [e|].
      * destruct (Hrec e) as (a & m & x & -> & _). destruct (He (toAuditError e)) as [He1 He2]. cbn [List.filter app is_fsp is_callback].
        rewrite !List.filter_app, filter_fsp_calls, filter_callback_calls. cbn. rewrite Hp1, Hp2, He1, He2, app_nil_r.
        split; [done|]. split; [constructor|]. by eexists _, _.
      * cbn [List.filter app is_fsp is_callback].
        rewrite !List.filter_app, filter_fsp_calls, filter_callback_calls. cbn. rewrite Hp1, Hp2, app_nil_r.
        split; [done|]. split; [constructor|]. by eexists.
  - destruct (Hrec e) as (a & m & x & -> & _). destruct (He (toAuditError e)) as [He1 He2]. cbn [List.filter app is_fsp is_callback].
    rewrite !List.filter_app, filter_fsp_calls, filter_callback_calls. cbn. rewrite He1, He2, app_nil_r.
    split; [done|]. split; [constructor|]. by eexists _, _.
Qed.

Section delivery.
  Context {lib : IlpLibrary} {dates : JsDates} (agreement_JSON : FspiopAgreement -> jsstr).
  Context (cfg : ConnectorSettings) (baseUrl : jsstr).
  Notation perform := (perform agreement_JSON cfg baseUrl).

(** The request can be correlated. *)
Definition correlated (m : request) : bool :=
  is_ok (match m with
         | GetParties c _ _ _ _ _ => resolvePartiesCorrelationId c
         | PostQuotes c _ _ r => resolveCorrelationId c [qr_transactionId r; qr_transactionRequestId r; Some (qr_quoteId r)]
         | PostTransfers c _ _ r => resolveCorrelationId c [Some (tp_transferId r)]
         end).

Lemma resolve_fspiop c ids e : resolveCorrelationId c ids = Err e -> exists x, e = TFspiop x.
Proof. unfold resolveCorrelationId. destruct (first_nonblank ids); [done|]. destruct (first_nonblank [c]); [done|]. intros [= <-]. by eexists. Qed.
Lemma resolve_parties_fspiop c e : resolvePartiesCorrelationId c = Err e -> exists x, e = TFspiop x.
Proof. unfold resolvePartiesCorrelationId. destruct c as [c|]; [destruct (blank_text c); [|done]|]; intros [= <-]; by eexists. Qed.

(** An attempt is refused, or a flow. *)
Lemma perform_flow m x :
  if correlated m then exists R (f : Flow R), well_formed f /\ perform m x = run_flow (at_env x) f
  else exists e, perform m x = ([], Err (Raised (TFspiop e))).
Proof.
  destruct m as [c payer payee idType id subId|c payer payee r|c payer payee r]; unfold correlated, Perform.perform.
  - unfold perform_get_parties. destruct (resolvePartiesCorrelationId c) as [k|e] eqn:Hk; cbn [is_ok].
    + eexists _, _. split; [|reflexivity]. by constructor.
    + apply resolve_parties_fspiop in Hk as [y ->]. by eexists.
  - unfold perform_post_quotes. destruct (resolveCorrelationId c _) as [k|e] eqn:Hk; cbn [is_ok].
    + destruct (postQuotes _ _ _ _ _) as [[r' calls] answer] eqn:Hq. eexists _, _. split; [|reflexivity]. constructor; [done..|].
      cbn. unfold postQuotes in Hq. destruct (validatePostQuotesRequest cfg r) as [r1 [u|e]]; [|injection Hq as _ <- _; cbn; lia].
      destruct (qr_scenario r1); injection Hq as _ <- _; cbn; lia.
    + apply resolve_fspiop in Hk as [y ->]. by eexists.
  - unfold perform_post_transfers. destruct (resolveCorrelationId c _) as [k|e] eqn:Hk; cbn [is_ok].
    + destruct (postTransfers _ _ _ _ _) as [[r' calls] answer] eqn:Hq. eexists _, _. split; [|reflexivity]. constructor; [done..|].
      cbn. apply transfer_checked in Hq as [[-> _]|(? & ? & ? & ? & ? & _ & _ & _ & _ & -> & _)]; cbn; lia.
    + apply resolve_fspiop in Hk as [y ->]. by eexists.
Qed.

Lemma callbacks_length {R} (f : Flow R) l : callbacks f l -> (length l <= 2)%nat.
Proof. destruct 1; cbn; lia. Qed.

(** An attempt that is not acknowledged has done nothing but try to publish its first message. *)
Lemma nacked m x sent outcome : perform m x = (sent, outcome) -> listener_verdict outcome = Nak ->
  List.filter is_fsp sent = [] /\ List.filter is_callback sent = [] /\ is_Some (request_fault (at_env x)).
Proof.
  intros Hp Hv. pose proof (perform_flow m x) as Hf. destruct (correlated m).
  - destruct Hf as (R & f & Hwf & Hf). rewrite Hp in Hf. pose proof (run_flow_spec (at_env x) f Hwf) as Hs. rewrite <- Hf in Hs.
    destruct (request_fault (at_env x)) as [e|].
    + destruct Hs as [-> _]. done.
    + destruct Hs as (_ & _ & Hs). destruct outcome as [u|e]; [done|]. destruct Hs as (y & e0 & -> & _). done.
  - destruct Hf as [e Hf]. rewrite Hp in Hf. injection Hf as -> ->. done.
Qed.

Lemma attempt_bounds m x : (length (List.filter is_fsp (fst (perform m x))) <= 1)%nat.
Proof.
  pose proof (perform_flow m x) as Hf. destruct (correlated m).
  - destruct Hf as (R & f & Hwf & ->). pose proof (run_flow_spec (at_env x) f Hwf) as Hs. destruct (run_flow (at_env x) f) as [sent o]. cbn [fst].
    destruct (request_fault (at_env x)); [by destruct Hs as [-> _]; cbn; lia|]. destruct Hs as (-> & _). rewrite length_map. by apply wf_work.
  - destruct Hf as [e ->]. cbn. lia.
Qed.

(** The deliveries of a request. *)
Definition deliveries (m : request) (xs : list attempt_env) : list action :=
  redelivered (map (fun x => (perform m x, at_fate x)) xs).
Definition unsettled (xs : list attempt_env) : nat := length (List.filter (fun x => negb (is_settled (at_fate x))) xs).

Lemma filter_take_length {A} (p : A -> bool) n l : (length (List.filter p (take n l)) <= length (List.filter p l))%nat.
Proof. rewrite <- (take_drop n l) at 2. rewrite List.filter_app, length_app. lia. Qed.

(** An attempt that ran to its end without the fault of its first message, or that is
    acknowledged, has sent a callback. *)
Lemma attempt_called_back m x : correlated m = true ->
  (forall e, request_fault (at_env x) = Some e -> listener_verdict (Err e) = Nak) ->
  request_fault (at_env x) = None \/ listener_verdict (snd (perform m x)) <> Nak ->
  List.filter is_callback (fst (perform m x)) <> [].
Proof.
  intros Hc Hplain Hcase. pose proof (perform_flow m x) as Hf. rewrite Hc in Hf. destruct Hf as (R & f & Hwf & Hf). rewrite Hf in *.
  pose proof (run_flow_spec (at_env x) f Hwf) as Hs. destruct (run_flow (at_env x) f) as [sent outcome]. cbn [fst snd] in *.
  destruct (request_fault (at_env x)) as [e|].
  - destruct Hcase as [Hn|Hn]; [done|]. destruct Hs as [_ ->]. by destruct (Hn (Hplain e eq_refl)).
  - destruct Hs as (_ & _ & Hs). destruct outcome as [u|e]; [destruct Hs as (r & _ & ->); done|]. by destruct Hs as (y & e0 & _ & Hs & _).
Qed.

(** C7. The back office is called for a lookup, a quote or a transfer at most once more than there
    are deliveries whose answer JetStream did not get in time or whose process ended: no failure
    of the handler's own calls makes it called again. And where the request can be correlated,
    a delivery that is not cut by a crash and publishes its first audit message makes the hub
    get a callback, if a failure to publish is no [FspiopException]. *)
Theorem backoffice_once (m : request) (xs : list attempt_env) :
  (length (List.filter is_fsp (deliveries m xs)) <= 1 + unsettled xs)%nat /\
  (correlated m = true ->
   (exists x, In x xs /\ request_fault (at_env x) = None /\ forall n, at_fate x <> Crashed n) ->
   (forall x e, In x xs -> request_fault (at_env x) = Some e -> listener_verdict (Err e) = Nak) ->
   List.filter is_callback (deliveries m xs) <> []).
Proof.
  unfold deliveries, unsettled. induction xs as [|x xs [IH1 IH2]]; [by split; [cbn; lia|intros _ (? & [] & _)]|]. cbn [map List.filter].
  pose proof (attempt_bounds m x) as Hb. destruct (perform m x) as [sent outcome] eqn:Hp. cbn [fst] in Hb.
  assert (Hback : correlated m = true -> (forall e, request_fault (at_env x) = Some e -> listener_verdict (Err e) = Nak) ->
    request_fault (at_env x) = None \/ listener_verdict outcome <> Nak -> List.filter is_callback sent <> []).
  { pose proof (attempt_called_back m x) as H. by rewrite Hp in H. }
  assert (Hrest : forall before, correlated m = true ->
    (exists y, In y xs /\ request_fault (at_env y) = None /\ forall n, at_fate y <> Crashed n) ->
    (forall y e, In y (x :: xs) -> request_fault (at_env y) = Some e -> listener_verdict (Err e) = Nak) ->
    List.filter is_callback (before ++ redelivered (map (fun x => (perform m x, at_fate x)) xs)) <> []).
  { intros before Hc Hy Hplain. rewrite List.filter_app. intros [_ H]%app_eq_nil. apply IH2 in H; [done..|]. intros y e Hin. apply Hplain. by right. }
  destruct (at_fate x) as [| |n] eqn:Hx; cbn [redelivered is_settled negb length].
  - destruct (listener_verdict outcome) eqn:Hv; [|destruct (nacked m x sent outcome Hp Hv) as (Hf1 & _ & Hfault)|].
    + rewrite app_nil_r. split; [lia|]. intros Hc _ Hplain. apply Hback; [done| |by right]. intros e. apply (Hplain x e). by left.
    + split; [rewrite List.filter_app, length_app, Hf1; cbn; lia|]. intros Hc (y & [<-|Hy] & Hn & Hcr) Hplain; [rewrite Hn in Hfault; by destruct Hfault|].
      apply Hrest; [done|by exists y|done].
    + rewrite app_nil_r. split; [lia|]. intros Hc _ Hplain. apply Hback; [done| |by right]. intros e. apply (Hplain x e). by left.
  - split; [rewrite List.filter_app, length_app; lia|]. intros Hc (y & [<-|Hy] & Hn & Hcr) Hplain.
    + rewrite List.filter_app. intros [H _]%app_eq_nil. revert H. apply Hback; [done| |by left]. intros e. apply (Hplain x e). by left.
    + apply Hrest; [done|by exists y|done].
  - pose proof (filter_take_length is_fsp n sent) as Ht. split; [rewrite List.filter_app, length_app; lia|].
    intros Hc (y & [<-|Hy] & Hn & Hcr) Hplain; [by destruct (Hcr n)|]. apply Hrest; [done|by exists y|done].
Qed.

(** Nothing tells a delivery from a repeated one: where the answer to the first is lost, the back
    office is asked for the same transfer twice. *)
Theorem transfer_asked_again (m : request) (x y : attempt_env) call : at_fate x = Unanswered -> at_fate y = Settled ->
  List.filter is_fsp (fst (perform m x)) = [call] -> List.filter is_fsp (fst (perform m y)) = [call] ->
  List.filter is_fsp (deliveries m [x; y]) = [call; call].
Proof.
  unfold deliveries. cbn [map redelivered]. intros -> ->. destruct (perform m x) as [sent o], (perform m y) as [sent' o']. cbn [fst].
  intros H1 H2. by destruct (listener_verdict o'); rewrite !List.filter_app, H1, H2.
Qed.

(** When the answer of a transfer has been put to the hub but its audit message cannot be
    published, the hub is sent an error callback for the same transfer after the fulfilment,
    and the message is acknowledged. *)
Theorem error_after_fulfilment (x : attempt_env) c payer payee r r' calls answer e :
  postTransfers cfg (at_client x) (at_now x) (at_later x) r = (r', calls, Ok answer) ->
  correlated (PostTransfers c payer payee r) = true ->
  request_fault (at_env x) = None -> put_fault (at_env x) = None -> response_fault (at_env x) = Some e ->
  let url := axios_transfers baseUrl (tp_transferId r) in
  exists headers sent outcome, perform (PostTransfers c payer payee r) x = (sent, outcome) /\
    List.filter is_callback sent = [PPut url headers (BTransferResponse answer); PPutError (axios_error url) headers (toAuditError e)] /\
    listener_verdict outcome = Ack.
Proof.
  intros Hr Hc Hq Hp He url. unfold correlated in Hc. unfold Perform.perform. unfold perform_post_transfers.
  destruct (resolveCorrelationId c _) as [k|]; [|done]. rewrite Hr. unfold run_flow. rewrite Hq. unfold deliver. cbn [f_work snd fst f_put].
  rewrite Hp, He. unfold recover_flow, rethrow. eexists (forResult _ _ _ _ _).
  destruct (put_error_fault (at_env x)) as [pe|]; eexists _, _; (split; [reflexivity|]); cbn [List.filter app is_callback];
    rewrite List.filter_app, filter_callback_calls; done.
Qed.
End delivery.

(** When a PATCH has been given to the back office but its audit message cannot be published,
    the message is not acknowledged: the next delivery gives it to the back office again. *)
Theorem patch_told_again (client : FspClient) (t t2 : Times) (env env2 : PerformEnv) c payer payee id state e :
  is_ok (resolveCorrelationId c [Some id]) = true -> client_patch client (CallPatch payer payee id state) = Ok tt ->
  request_fault env = None -> response_fault env = Some e -> listener_verdict (Err e) = Nak -> toFspError e = None ->
  request_fault env2 = None -> response_fault env2 = None ->
  let run t env := perform_patch_transfers client t env c payer payee id state in
  List.filter is_fsp (redelivered [(run t env, Settled); (run t2 env2, Settled)]) =
    [PFsp (CallPatch payer payee id state); PFsp (CallPatch payer payee id state)].
Proof.
  intros Hc Hcl Hq He Hn Hf Hq2 He2. cbv zeta. cbn [redelivered]. unfold perform_patch_transfers, patchTransfers.
  destruct (resolveCorrelationId c _) as [k|]; [|done]. rewrite Hq, Hq2, Hcl, He, He2, Hf, Hn. done.
Qed.

(** *** Durable consumers *)

Lemma listen_keeps o id consumers k s : consumers !! k = Some s -> fst (listen o id consumers) !! k = Some s.
Proof.
  intros Hk. unfold listen, ensureConsumer. cbn [fst]. destruct (consumers !! durableFor o (trim id)) eqn:E; [done|].
  rewrite lookup_insert_ne; congruence.
Qed.

Lemma durableFor_inj o a o' b : durableFor o a = durableFor o' b -> o = o' /\ normalizeDurableSegment a = normalizeDurableSegment b.
Proof.
  unfold durableFor, DURABLE_PREFIX. rewrite <- !app_assoc. intros H. apply app_inv_head in H.
  destruct o, o'; try discriminate H; apply app_inv_head, app_inv_head in H; done.
Qed.

(** The listeners of a deployment, started one after the other. *)
Definition start_all (starts : list (operation * jsstr)) (consumers : gmap jsstr jsstr) : gmap jsstr jsstr :=
  fold_left (fun consumers s => fst (listen (fst s) (snd s) consumers)) starts consumers.

(** Connectors whose names stay different as parts of a consumer's name read their own
    subjects, in whatever order and however often they start. *)
Theorem own_subject (starts : list (operation * jsstr)) (o : operation) (id : jsstr) :
  (forall a b, In a (map snd starts) -> In b (map snd starts) ->
     normalizeDurableSegment (trim a) = normalizeDurableSegment (trim b) -> trim a = trim b) ->
  In (o, id) starts -> snd (listen o id (start_all starts ∅)) = Some (subjectFor o (trim id)).
Proof.
  intros Hinj Hin. set (good := fun m : gmap jsstr jsstr => forall o a s, In a (map snd starts) ->
    m !! durableFor o (trim a) = Some s -> s = subjectFor o (trim a)).
  assert (Hstep : forall o a m, In a (map snd starts) -> good m ->
    good (fst (listen o a m)) /\ fst (listen o a m) !! durableFor o (trim a) = Some (subjectFor o (trim a))).
  { intros o' a m Ha Hm. unfold listen, ensureConsumer. cbn [fst].
    destruct (m !! durableFor o' (trim a)) as [s|] eqn:Hs; [split; [done|by rewrite Hs, (Hm o' a s Ha Hs)]|].
    split; [|by rewrite lookup_insert_eq]. intros o2 b s Hb. destruct (decide (durableFor o' (trim a) = durableFor o2 (trim b))) as [He|He].
    - rewrite <- He, lookup_insert_eq. intros [= <-]. apply durableFor_inj in He as [<- He]. by rewrite (Hinj a b Ha Hb He).
    - rewrite lookup_insert_ne by done. by apply Hm. }
  assert (Hall : forall l m, (forall s, In s l -> In (snd s) (map snd starts)) -> good m -> good (start_all l m)).
  { induction l as [|[o' a] l IH]; intros m Hl Hm; [done|]. cbn. apply IH; [intros s Hs; apply Hl; by right|].
    apply Hstep; [apply (Hl (o', a)); by left|done]. }
  assert (Hid : In id (map snd starts)) by (apply in_map_iff; by exists (o, id)).
  assert (Hg : good (start_all starts ∅)).
  { apply Hall; [intros s Hs; by apply in_map|]. intros o' a s _ Hs. by rewrite lookup_empty in Hs. }
  apply (Hstep o id _ Hid Hg).
Qed.

(** Of two connectors whose names become the same part of a consumer's name, the second
    reads the requests of the first and not its own. *)
Theorem shared_durable (o : operation) (a b : jsstr) (consumers : gmap jsstr jsstr) :
  normalizeDurableSegment (trim a) = normalizeDurableSegment (trim b) -> trim a <> trim b ->
  consumers !! durableFor o (trim a) = None ->
  snd (listen o b (fst (listen o a consumers))) = Some (subjectFor o (trim a)) /\ subjectFor o (trim a) <> subjectFor o (trim b).
Proof.
  intros Hn Hne Hfree. split.
  - assert (durableFor o (trim b) = durableFor o (trim a)) as He by (unfold durableFor; by rewrite Hn).
    unfold listen. cbn [fst snd]. rewrite He. unfold ensureConsumer. rewrite Hfree, lookup_insert_eq. by rewrite lookup_insert_eq.
  - unfold subjectFor. intros H. apply app_inv_head in H. by apply app_inv_tail in H.
Qed.

(** ** Witnesses *)

Definition example_env (request put response put_error error : option failure) : PerformEnv :=
  mkPerformEnv request put response put_error error.
Definition no_fault : PerformEnv := example_env None None None None None.
Definition nats_down : failure := ForeignObject true (js "NatsError") (js "TIMEOUT") (js "TIMEOUT") [].
Definition example_times : Times := mkTimes 1767225600000 1767225600001 1767225600002 (js "Thu, 01 Jan 2026 00:00:00 GMT").
Definition attempt_with (env : PerformEnv) : attempt_env := mkAttempt env example_fsp example_times 1767225600000 1767225600005 Settled.
Definition ended_as (f : fate) (x : attempt_env) : attempt_env :=
  mkAttempt (at_env x) (at_client x) (at_times x) (at_now x) (at_later x) f.
Definition example_message : request := PostTransfers (Some (js "trace")) (js "wallet1") (js "wallet2") example_transfer.

Lemma backoffice_once_witness :
  let xs := [attempt_with (example_env (Some nats_down) None None None None); ended_as (Crashed 2) (attempt_with no_fault); attempt_with no_fault] in
  let sent := deliveries example_agreement example_cfg (js "http://hub") example_message xs in
  (length (List.filter is_fsp sent) <= 2)%nat /\ length (List.filter is_fsp sent) = 2%nat /\ List.filter is_callback sent <> [].
Proof.
  cbv zeta. split; [|split; [vm_compute; reflexivity|]].
  - apply (proj1 (backoffice_once example_agreement example_cfg (js "http://hub") example_message
      [attempt_with (example_env (Some nats_down) None None None None); ended_as (Crashed 2) (attempt_with no_fault); attempt_with no_fault])).
  - apply backoffice_once.
    + vm_compute. reflexivity.
    + exists (attempt_with no_fault). split; [right; right; by left|]. split; [reflexivity|discriminate].
    + intros x e [<-|[<-|[<-|[]]]] [= <-]. reflexivity.
Defined.

Lemma transfer_asked_again_witness :
  let call := PFsp (CallTransfers (js "t") (mkMoney (js "USD") (js "10")) (transferPayee (js "wallet2"))) in
  List.filter is_fsp (deliveries example_agreement example_cfg (js "http://hub") example_message
    [ended_as Unanswered (attempt_with no_fault); attempt_with no_fault]) = [call; call].
Proof.
  apply (transfer_asked_again example_agreement example_cfg (js "http://hub") example_message (ended_as Unanswered (attempt_with no_fault)) (attempt_with no_fault));
    vm_compute; reflexivity.
Defined.

Lemma error_after_fulfilment_witness :
  let env := example_env None None (Some nats_down) None None in
  exists headers sent outcome,
    perform example_agreement example_cfg (js "http://hub") example_message (attempt_with env) = (sent, outcome) /\
    List.filter is_callback sent =
      [PPut (js "http://hub/transfers/t") headers (BTransferResponse example_answer);
       PPutError (js "http://hub/transfers/t/error") headers (toAuditError nats_down)] /\
    listener_verdict outcome = Ack.
Proof.
  cbv zeta. refine (error_after_fulfilment example_agreement example_cfg (js "http://hub") (attempt_with _) (Some (js "trace"))
    (js "wallet1") (js "wallet2") example_transfer _ _ example_answer nats_down _ _ _ _ _).
  - vm_compute. reflexivity.
  - vm_compute. reflexivity.
  - reflexivity.
  - reflexivity.
  - reflexivity.
Defined.

Lemma patch_told_again_witness :
  let run env := perform_patch_transfers example_fsp example_times env None (js "wallet1") (js "wallet2") (js "t") Committed in
  List.filter is_fsp (redelivered [(run (example_env None None (Some nats_down) None None), Settled); (run no_fault, Settled)]) =
    [PFsp (CallPatch (js "wallet1") (js "wallet2") (js "t") Committed); PFsp (CallPatch (js "wallet1") (js "wallet2") (js "t") Committed)].
Proof.
  apply (patch_told_again example_fsp example_times example_times (example_env None None (Some nats_down) None None) no_fault
    None (js "wallet1") (js "wallet2") (js "t") Committed nats_down); vm_compute; reflexivity.
Defined.

Lemma own_subject_witness :
  let starts := [(OPostQuotes, js "wallet1"); (OPostTransfers, js "wallet1"); (OPostTransfers, js "Wallet_2")] in
  snd (listen OPostTransfers (js "Wallet_2") (start_all starts ∅)) = Some (js "fspiop.Wallet_2.post.transfers").
Proof.
  apply (own_subject [(OPostQuotes, js "wallet1"); (OPostTransfers, js "wallet1"); (OPostTransfers, js "Wallet_2")]
    OPostTransfers (js "Wallet_2")).
  - intros a b [<-|[<-|[<-|[]]]] [<-|[<-|[<-|[]]]]; vm_compute; congruence.
  - right. right. by left.
Defined.

Lemma shared_durable_witness :
  snd (listen OPostTransfers (js "wallet-1") (fst (listen OPostTransfers (js "Wallet.1") ∅))) = Some (js "fspiop.Wallet.1.post.transfers") /\
  js "fspiop.Wallet.1.post.transfers" <> js "fspiop.wallet-1.post.transfers".
Proof.
  apply (shared_durable OPostTransfers (js "Wallet.1") (js "wallet-1") ∅).
  - vm_compute. reflexivity.
  - vm_compute. congruence.
  - reflexivity.
Defined.
