(* ===== verification/Callbacks.v ===== *)
(** * The requests and callbacks of the hub

    apps/web-inbound/controllers and core/inbound/domain/command: what the hub sends is
    answered at once, and handled after: a request to the payee is audited and published to
    its connector, a callback to the payer is audited and published on the subject its waiter
    listens on. The effects of a handler are those it attempted, in order. JSON bodies have the
    types of the controllers' parameters; the codec gives the subscriber what was published. *)

From S2P Require Import Prelude Errors Dates Subjects Transfer SendMoney Subscriber Connector AuditTrail AuditConsumer Perform.

(** ** Effects *)

(** What audit messages carry: the bodies of the connector's model, and decoded callbacks. *)
Inductive document : Set := DBody (b : Perform.body) | DCallback (p : payload).

(** Messages to a connector. *)
Inductive connector_message : Set :=
  | MRequest (m : request)
  | MPatch (correlationId : option jsstr) (payerFsp payeeFsp transferId : jsstr) (state : TransferState).

Inductive effect : Type :=
  | IAudit (m : TransactionMessage document)
  | IConnector (subject : jsstr) (m : connector_message)
  | IResponse (subject : jsstr) (p : payload).

(** The two calls of a handler that may fail, and its clock. *)
Record InboundEnv : Type := mkInboundEnv { audit_fault : option failure; publish_fault : option failure; created : Z }.

Definition inbound_message (phase : InvocationPhase) (act : InvocationAction) (id payerFsp payeeFsp : jsstr)
    (at_ : Z) (request response error : option document) : TransactionMessage document :=
  mkTransactionMessage (Some phase) (Some act) (Some Inbound)
    (Some (mkMessageContent (Some id) payerFsp payeeFsp (Some (Some at_)) no_parties no_lookup request response error None None)).

Section handlers.
  Context (env : InboundEnv).

(** [await this.auditPublisher.publish(m)], then the rest. *)
Definition audited_then (m : TransactionMessage document) (rest : list effect * result failure unit)
    : list effect * result failure unit :=
  match audit_fault env with
  | Some e => ([IAudit m], Err e)
  | None => (IAudit m :: fst rest, snd rest)
  end.
(** The publication that ends every handler. *)
Definition published (e : effect) : list effect * result failure unit :=
  ([e], match publish_fault env with Some e => Err e | None => Ok tt end).

(** ** To the payee *)

(** [HandleGetPartiesHandler.execute] *)
Definition HandleGetParties (correlationId : option jsstr) (payerFsp payeeFsp idType id : jsstr) (subId : option jsstr)
    : list effect * result failure unit :=
  match resolveCorrelationId correlationId [] with
  | Err e => ([], Err (Raised e))
  | Ok connectorCorrelationId =>
      published (IConnector (subjectFor OGetParties payeeFsp)
        (MRequest (GetParties (Some connectorCorrelationId) payerFsp payeeFsp idType id subId)))
  end.

(** [HandlePostQuotesHandler.execute] *)
Definition HandlePostQuotes (correlationId : option jsstr) (payerFsp payeeFsp : jsstr) (request : QuoteRequest)
    : list effect * result failure unit :=
  match resolveCorrelationId correlationId
          [qr_transactionId request; qr_transactionRequestId request; Some (qr_quoteId request)] with
  | Err e => ([], Err (Raised e))
  | Ok auditCorrelationId =>
      let connectorCorrelationId := traceparent_of correlationId auditCorrelationId in
      audited_then (inbound_message PQuotes ARequest auditCorrelationId payerFsp payeeFsp (created env)
                      (Some (DBody (BQuoteRequest request))) None None)
        (published (IConnector (subjectFor OPostQuotes payeeFsp)
          (MRequest (PostQuotes (Some connectorCorrelationId) payerFsp payeeFsp request))))
  end.

(** [HandlePostTransfersHandler.execute] *)
Definition HandlePostTransfers (correlationId : option jsstr) (payerFsp payeeFsp : jsstr) (request : TransfersPostRequest)
    : list effect * result failure unit :=
  match resolveCorrelationId correlationId [Some (tp_transferId request)] with
  | Err e => ([], Err (Raised e))
  | Ok auditCorrelationId =>
      let connectorCorrelationId := traceparent_of correlationId auditCorrelationId in
      audited_then (inbound_message PTransfers ARequest auditCorrelationId payerFsp payeeFsp (created env)
                      (Some (DBody (BTransferRequest request))) None None)
        (published (IConnector (subjectFor OPostTransfers payeeFsp)
          (MRequest (PostTransfers (Some connectorCorrelationId) payerFsp payeeFsp request))))
  end.

(** [HandlePatchTransfersHandler.execute]: the message to the connector has the id that is
    audited, and the audit message is one of the transfers phase. *)
Definition HandlePatchTransfers (correlationId : option jsstr) (payerFsp payeeFsp transferId : jsstr) (response : TransferState)
    : list effect * result failure unit :=
  match resolveCorrelationId correlationId [Some transferId] with
  | Err e => ([], Err (Raised e))
  | Ok auditCorrelationId =>
      audited_then (inbound_message PTransfers ARequest auditCorrelationId payerFsp payeeFsp (created env)
                      (Some (DBody (BPatch response))) None None)
        (published (IConnector (subjectFor OPatchTransfers payeeFsp)
          (MPatch (Some auditCorrelationId) payerFsp payeeFsp transferId response)))
  end.

(** ** To the payer *)

(** [if (response == null) return] *)
Definition present (response : option payload) : option payload :=
  match response with Some PNull => None | _ => response end.

(** [HandlePutPartiesHandler.execute] *)
Definition HandlePutParties (payerFsp payeeFsp idType id : jsstr) (subId : option jsstr) (response : option payload)
    : list effect * result failure unit :=
  match present response with
  | None => ([], Ok tt)
  | Some p => published (IResponse (Parties.forSuccess payerFsp (Some payeeFsp) idType id subId) p)
  end.
(** [HandlePutPartiesErrorHandler.execute]; the controller's error is not null. *)
Definition HandlePutPartiesError (payerFsp payeeFsp idType id : jsstr) (subId : option jsstr) (error : payload)
    : list effect * result failure unit :=
  match present (Some error) with
  | None => ([], Ok tt)
  | Some p => published (IResponse (Parties.forError payerFsp (Some payeeFsp) idType id subId) p)
  end.

(** [HandlePutQuotesHandler.execute] *)
Definition HandlePutQuotes (correlationId : option jsstr) (payerFsp payeeFsp quoteId : jsstr) (response : option payload)
    : list effect * result failure unit :=
  match present response with
  | None => ([], Ok tt)
  | Some p =>
      match resolveCorrelationId correlationId [Some quoteId] with
      | Err e => ([], Err (Raised e))
      | Ok auditCorrelationId =>
          audited_then (inbound_message PQuotes AResponse auditCorrelationId payerFsp payeeFsp (created env)
                          None (Some (DCallback p)) None)
            (published (IResponse (Quotes.forSuccess payerFsp quoteId) p))
      end
  end.
(** [HandlePutQuotesErrorHandler.execute] *)
Definition HandlePutQuotesError (correlationId : option jsstr) (payerFsp payeeFsp quoteId : jsstr) (error : payload)
    : list effect * result failure unit :=
  match present (Some error) with
  | None => ([], Ok tt)
  | Some p =>
      match resolveCorrelationId correlationId [Some quoteId] with
      | Err e => ([], Err (Raised e))
      | Ok auditCorrelationId =>
          audited_then (inbound_message PQuotes AError auditCorrelationId payerFsp payeeFsp (created env)
                          None None (Some (DCallback p)))
            (published (IResponse (Quotes.forError payerFsp quoteId) p))
      end
  end.

(** [HandlePutTransfersHandler.execute] *)
Definition HandlePutTransfers (correlationId : option jsstr) (payerFsp payeeFsp transferId : jsstr) (response : option payload)
    : list effect * result failure unit :=
  match present response with
  | None => ([], Ok tt)
  | Some p =>
      match resolveCorrelationId correlationId [Some transferId] with
      | Err e => ([], Err (Raised e))
      | Ok auditCorrelationId =>
          audited_then (inbound_message PTransfers AResponse auditCorrelationId payerFsp payeeFsp (created env)
                          None (Some (DCallback p)) None)
            (published (IResponse (Transfers.forSuccess payerFsp transferId) p))
      end
  end.
(** [HandlePutTransfersErrorHandler.execute] *)
Definition HandlePutTransfersError (correlationId : option jsstr) (payerFsp payeeFsp transferId : jsstr) (error : payload)
    : list effect * result failure unit :=
  match present (Some error) with
  | None => ([], Ok tt)
  | Some p =>
      match resolveCorrelationId correlationId [Some transferId] with
      | Err e => ([], Err (Raised e))
      | Ok auditCorrelationId =>
          audited_then (inbound_message PTransfers AError auditCorrelationId payerFsp payeeFsp (created env)
                          None None (Some (DCallback p)))
            (published (IResponse (Transfers.forError payerFsp transferId) p))
      end
  end.
End handlers.

(** ** The controllers *)

(** A header of the request: [undefined], a text or a list of texts. *)
Inductive HeaderValue : Set := HAbsent | HText (s : jsstr) | HList (l : list jsstr).
Definition headerValue (value : HeaderValue) : jsstr :=
  match value with HAbsent => [] | HText s => s | HList l => default [] (head l) end.
Definition optionalHeaderValue (value : HeaderValue) : option jsstr :=
  match trim (headerValue value) with [] => None | header => Some header end.

Record HubHeaders : Set := mkHubHeaders { h_traceparent : HeaderValue; h_source : HeaderValue; h_destination : HeaderValue }.

(** The routes with their parameters and bodies; a missing body is [None]. *)
Inductive hub_request : Set :=
  | GetPartiesRoute (idType id : jsstr) (subId : option jsstr)
  | PutPartiesRoute (idType id : jsstr) (subId : option jsstr) (body : option payload)
  | PutPartiesErrorRoute (idType id : jsstr) (subId : option jsstr) (body : option payload)
  | PostQuotesRoute (body : QuoteRequest)
  | PutQuotesRoute (quoteId : jsstr) (body : option payload)
  | PutQuotesErrorRoute (quoteId : jsstr) (body : option payload)
  | PostTransfersRoute (body : TransfersPostRequest)
  | PatchTransfersRoute (transferId : jsstr) (body : TransferState)
  | PutTransfersRoute (transferId : jsstr) (body : option payload)
  | PutTransfersErrorRoute (transferId : jsstr) (body : option payload).

Section controllers.
  (** The JSON text of an error object. *)
  Context (error_JSON : ErrorInformation -> jsstr).

(** [toErrorInformationObject]: other members of the body are dropped. *)
Definition toErrorInformationObject (response : option payload) : payload :=
  let given := match response with Some (PValue _ ei) => ei | _ => None end in
  let ei := default (toErrorObject (definition_of INTERNAL_SERVER_ERROR) None) given in
  PValue (error_JSON ei) (Some ei).

(** [@HttpCode]: what the hub is answered, before the command runs. *)
Definition accepted_status (m : hub_request) : Z :=
  match m with GetPartiesRoute _ _ _ | PostQuotesRoute _ | PostTransfersRoute _ => 202 | _ => 200 end.

(** The command of a request; a callback comes from the payee, whose side is its source. *)
Definition execute_route (env : InboundEnv) (h : HubHeaders) (m : hub_request) : list effect * result failure unit :=
  let correlationId := optionalHeaderValue (h_traceparent h) in
  let source := headerValue (h_source h) in
  let destination := headerValue (h_destination h) in
  match m with
  | GetPartiesRoute idType id subId => HandleGetParties env correlationId source destination idType id subId
  | PutPartiesRoute idType id subId body => HandlePutParties env destination source idType id subId body
  | PutPartiesErrorRoute idType id subId body =>
      HandlePutPartiesError env destination source idType id subId (toErrorInformationObject body)
  | PostQuotesRoute body => HandlePostQuotes env correlationId source destination body
  | PutQuotesRoute quoteId body => HandlePutQuotes env correlationId destination source quoteId body
  | PutQuotesErrorRoute quoteId body =>
      HandlePutQuotesError env correlationId destination source quoteId (toErrorInformationObject body)
  | PostTransfersRoute body => HandlePostTransfers env correlationId source destination body
  | PatchTransfersRoute transferId body => HandlePatchTransfers env correlationId source destination transferId body
  | PutTransfersRoute transferId body => HandlePutTransfers env correlationId destination source transferId body
  | PutTransfersErrorRoute transferId body =>
      HandlePutTransfersError env correlationId destination source transferId (toErrorInformationObject body)
  end.

(** [dispatch]: the status, and what happens after; an error of the command is logged. *)
Definition dispatch_route (env : InboundEnv) (h : HubHeaders) (m : hub_request) : Z * list effect :=
  (accepted_status m, fst (execute_route env h m)).
End controllers.

(** ** Reference: keys, and what a waiter expects *)

(** The correlation id a request to the payee is audited under, at the gateway and by its
    connector. *)
Definition route_key (h : HubHeaders) (m : hub_request) : option (result thrown jsstr) :=
  let correlationId := optionalHeaderValue (h_traceparent h) in
  match m with
  | GetPartiesRoute _ _ _ => Some (resolveCorrelationId correlationId [])
  | PostQuotesRoute r => Some (resolveCorrelationId correlationId [qr_transactionId r; qr_transactionRequestId r; Some (qr_quoteId r)])
  | PostTransfersRoute r => Some (resolveCorrelationId correlationId [Some (tp_transferId r)])
  | _ => None
  end.
Definition connector_key (m : request) : result thrown jsstr :=
  match m with
  | GetParties c _ _ _ _ _ => resolvePartiesCorrelationId c
  | PostQuotes c _ _ r => resolveCorrelationId c [qr_transactionId r; qr_transactionRequestId r; Some (qr_quoteId r)]
  | PostTransfers c _ _ r => resolveCorrelationId c [Some (tp_transferId r)]
  end.
Definition message_operation (m : request) : operation :=
  match m with GetParties _ _ _ _ _ _ => OGetParties | PostQuotes _ _ _ _ => OPostQuotes | PostTransfers _ _ _ _ => OPostTransfers end.
(** The request the hub sent, as the connector gets it. *)
Definition carries (h : HubHeaders) (m : hub_request) (r : request) : Prop :=
  let payer := headerValue (h_source h) in
  let payee := headerValue (h_destination h) in
  match m with
  | GetPartiesRoute idType id subId => exists c, r = GetParties c payer payee idType id subId
  | PostQuotesRoute q => exists c, r = PostQuotes c payer payee q
  | PostTransfersRoute q => exists c, r = PostTransfers c payer payee q
  | _ => False
  end.
Definition audit_id {D} (m : TransactionMessage D) : option jsstr := m_content m ≫= mc_correlationId.
Definition audited_as (k : jsstr) (e : effect) : Prop := match e with IAudit m => audit_id m = Some k | _ => True end.
Definition performed_as (k : jsstr) (a : action) : Prop := match a with PAudit m => audit_id m = Some k | _ => True end.

(** What the commands of SendMoney wait for: success, error, and the hub's error. *)
Inductive expectation : Set :=
  | XParties (payer : jsstr) (payee : option jsstr) (switchId idType id : jsstr) (subId : option jsstr)
  | XQuotes (payer quoteId : jsstr)
  | XTransfers (payer transferId : jsstr).
Definition expected_subjects (x : expectation) : jsstr * jsstr * option jsstr :=
  match x with
  | XParties payer payee switchId idType id subId =>
      (Parties.forSuccess payer payee idType id subId, Parties.forError payer payee idType id subId,
       Some (Parties.forError payer (Some switchId) idType id subId))
  | XQuotes payer id => (Quotes.forSuccess payer id, Quotes.forError payer id, None)
  | XTransfers payer id => (Transfers.forSuccess payer id, Transfers.forError payer id, None)
  end.

(** A callback that answers an expectation: from any participant when the payee is not known
    and nobody waits for that one by name; an error also from the hub. *)
Definition from_payee (payee : option jsstr) (payer source idType : jsstr) (concrete : jsstr) (st : state) : Prop :=
  match payee with
  | Some payee => source = payee
  | None => token payer /\ token source /\ token idType /\ pending st !! concrete = None
  end.
Definition answers (h : HubHeaders) (m : hub_request) (x : expectation) (st : state) : Prop :=
  let payer := headerValue (h_destination h) in
  let source := headerValue (h_source h) in
  match x, m with
  | XParties payer' payee _ idType id subId, PutPartiesRoute idType' id' subId' (Some p) =>
      payer = payer' /\ idType = idType' /\ id = id' /\ subId = subId' /\ p <> PNull /\
      from_payee payee payer source idType (Parties.forSuccess payer (Some source) idType id subId) st
  | XParties payer' payee switchId idType id subId, PutPartiesErrorRoute idType' id' subId' _ =>
      payer = payer' /\ idType = idType' /\ id = id' /\ subId = subId' /\
      (source = switchId \/ from_payee payee payer source idType (Parties.forError payer (Some source) idType id subId) st)
  | XQuotes payer' id, PutQuotesRoute id' (Some p) | XTransfers payer' id, PutTransfersRoute id' (Some p) =>
      payer = payer' /\ id = id' /\ p <> PNull
  | XQuotes payer' id, PutQuotesErrorRoute id' _ | XTransfers payer' id, PutTransfersErrorRoute id' _ =>
      payer = payer' /\ id = id'
  | _, _ => False
  end.

(** The subscriber after the responses of a command were published. *)
Definition subscribed (now : Z) (effects : list effect) (st : state) : state :=
  fold_left (fun st e => match e with IResponse subject p => Subscriber.step (EMessage now subject (Some p)) st | _ => st end) effects st.
(** What gets out of the attempted effects: no response where its publication failed. *)
Definition is_response (e : effect) : bool := match e with IResponse _ _ => true | _ => false end.
Definition got_out (env : InboundEnv) (effects : list effect) : list effect :=
  match publish_fault env with None => effects | Some _ => List.filter (fun e => negb (is_response e)) effects end.
Definition callback_outcome (error_JSON : ErrorInformation -> jsstr) (m : hub_request) (o : outcome) : Prop :=
  match m with
  | PutPartiesRoute _ _ _ (Some p) | PutQuotesRoute _ (Some p) | PutTransfersRoute _ (Some p) => o = Resolved p
  | PutPartiesErrorRoute _ _ _ body | PutQuotesErrorRoute _ body | PutTransfersErrorRoute _ body =>
      exists e, toFspiopException (toErrorInformationObject error_JSON body) = Ok e /\ o = Rejected e
  | _ => False
  end.

(** * Lemmas *)

Lemma first_nonblank_trimmed l k : first_nonblank l = Some k -> trim k = k /\ k <> [].
Proof.
  induction l as [|[v|] l IH]; cbn; [done| |done]. unfold blank_text.
  destruct (length (trim v) =? 0)%nat eqn:E; [done|]. intros [= <-]. split; [apply trim_idemp|]. intros Hn. by rewrite Hn in E.
Qed.

Lemma resolve_trimmed c ids k : resolveCorrelationId c ids = Ok k -> trim k = k /\ k <> [].
Proof.
  unfold resolveCorrelationId. destruct (first_nonblank ids) eqn:E; [intros [= <-]; by eapply first_nonblank_trimmed|].
  destruct (first_nonblank [c]) eqn:E2; [intros [= <-]; by eapply first_nonblank_trimmed|done].
Qed.

(** The connector resolves the id the gateway did from what it forwards. *)
Lemma resolve_forwarded c ids k :
  resolveCorrelationId c ids = Ok k -> resolveCorrelationId (Some (traceparent_of c k)) ids = Ok k.
Proof.
  intros Hr. destruct (resolve_trimmed c ids k Hr) as [Ht Hk]. unfold resolveCorrelationId in *.
  destruct (first_nonblank ids); [done|]. unfold traceparent_of. destruct c as [c|]; [|done].
  cbn [first_nonblank fmap option_fmap option_map] in *. unfold blank_text in *.
  destruct (trim c) as [|a s] eqn:E in *; [done|].
  injection Hr as <-. by rewrite Ht.
Qed.

Lemma resolve_parties_forwarded c k : resolveCorrelationId c [] = Ok k -> resolvePartiesCorrelationId (Some k) = Ok k.
Proof.
  intros Hr. destruct (resolve_trimmed c [] k Hr) as [Ht Hk]. unfold resolvePartiesCorrelationId, blank_text.
  rewrite Ht. by destruct k.
Qed.

Lemma run_flow_audits {R} env (f : Flow R) k :
  performed_as k (PAudit (f_request f)) -> (forall r, performed_as k (f_put f r) /\ performed_as k (PAudit (f_response f r))) ->
  (forall e s, performed_as k (f_put_error f e) /\ performed_as k (PAudit (f_error f e s))) ->
  Forall (performed_as k) (fst (run_flow env f)).
Proof.
  intros Hq Hp He. unfold run_flow. destruct (request_fault env); [by constructor|].
  assert (Hd : Forall (performed_as k) (fst (deliver env f))).
  { unfold deliver. destruct (snd (f_work f)) as [r|]; [|constructor]. destruct (Hp r), (put_fault env); by repeat constructor. }
  assert (Hr : forall e, Forall (performed_as k) (fst (recover_flow env f e))).
  { intros e. unfold recover_flow. destruct (put_error_fault env);
      (apply Forall_cons; split; [apply (He _ None)|apply Forall_cons; split; [apply He|constructor]]). }
  destruct (deliver env f) as [sent outcome]. cbn [fst] in Hd.
  destruct outcome as [u|e]; cbn [fst]; [|specialize (Hr e); destruct (recover_flow env f e); cbn [fst] in *];
    (constructor; [done|]); rewrite !Forall_app; (split; [|done]); by induction (fst (f_work f)); constructor.
Qed.

Lemma perform_audits {lib : IlpLibrary} {dates : JsDates} agreement_JSON cfg baseUrl r x k :
  connector_key r = Ok k -> Forall (performed_as k) (fst (Perform.perform agreement_JSON cfg baseUrl r x)).
Proof.
  destruct r as [c p q t id s|c p q r|c p q r]; cbn [connector_key]; intros Hk; unfold Perform.perform.
  - unfold perform_get_parties. rewrite Hk. by apply run_flow_audits.
  - unfold perform_post_quotes. rewrite Hk. destruct (postQuotes _ _ _ _ _) as [[r' calls] answer]. by apply run_flow_audits.
  - unfold perform_post_transfers. rewrite Hk. destruct (postTransfers _ _ _ _ _) as [[r' calls] answer]. by apply run_flow_audits.
Qed.

(** A message on a subject that reaches an unsettled waiter settles it. *)
Lemma message_settles C st id en now subj k p :
  reach C st -> (id < next st)%nat -> Subscriber.settled st !! id = None -> id ∉ C -> entries st !! id = Some en ->
  subject_of en k -> reaches_key subj k st -> p <> PNull ->
  exists o, Subscriber.settled (Subscriber.step (EMessage now subj (Some p)) st) !! id = Some o /\
    if str_eqb k (successSubject en) then o = Resolved p else exists e, toFspiopException p = Ok e /\ o = Rejected e.
Proof.
  intros Hr Hlt Hs HnC Hen Hk Hreach Hp. destruct (reach_inv C st Hr) as [HI _].
  pose proof (inv_live _ _ HI id Hlt Hs HnC) as Harm. destruct (inv_entry _ _ HI id en Hen) as (_ & _ & _ & Ha).
  destruct (Ha Harm) as (_ & _ & Hsub). pose proof (entry_success C st id en HI Hen Harm) as Hp'. cbn [Subscriber.step].
  rewrite (dispatch_pending C st now subj k id en p HI (Hsub k Hk) Hreach Hen). cbv zeta.
  destruct (toFspiopException_value p Hp) as [e He]. rewrite He.
  destruct (str_eqb k (successSubject en)); (eexists; split; [by apply (settle_cancel_inv C)|]); [done|by eexists].
Qed.

Lemma parties_subjects_differ payer payee t id sub payee' :
  Parties.forError payer payee' t id sub <> Parties.forSuccess payer payee t id sub.
Proof. rewrite forError_tail, forSuccess_tail. rewrite <- !app_assoc. intros H. by apply app_inv_head in H. Qed.

Lemma any_payee_subjects payer source t id sub : token payer -> token source -> token t ->
  Parties.toAnyPayeeSubject (Parties.forSuccess payer (Some source) t id sub) = Some (Parties.forSuccess payer None t id sub) /\
  Parties.toAnyPayeeSubject (Parties.forError payer (Some source) t id sub) = Some (Parties.forError payer None t id sub).
Proof. intros Hp Hs Ht. by destruct (toAnyPayeeSubject_correlates payer source t id sub Hp Hs Ht) as (? & ? & _). Qed.

Lemma audited_published env m e :
  audit_fault env = None -> fst (audited_then env m (published env e)) = [IAudit m; e].
Proof. intros Ha. unfold audited_then, published. by rewrite Ha. Qed.

Lemma present_value p : p <> PNull -> present (Some p) = Some p.
Proof. by destruct p. Qed.

Lemma resolve_id c id : trim id <> [] -> resolveCorrelationId c [Some id] = Ok (trim id).
Proof. intros H. unfold resolveCorrelationId. cbn [first_nonblank]. by rewrite (blank_text_false id H). Qed.

(** What a callback publishes, and the key under which it finds its waiter. *)
Definition publishes (error_JSON : ErrorInformation -> jsstr) (env : InboundEnv) (h : HubHeaders) (m : hub_request)
    (x : expectation) (st : state) : Prop :=
  exists audits subj k p, snd (dispatch_route error_JSON env h m) = map IAudit audits ++ [IResponse subj p] /\ p <> PNull /\
    reaches_key subj k st /\
    let '(s, e, h) := expected_subjects x in
    (k = s \/ k = e \/ h = Some k) /\
    forall o, (if str_eqb k s then o = Resolved p else exists e, toFspiopException p = Ok e /\ o = Rejected e) ->
      callback_outcome error_JSON m o.

Definition route_id (m : hub_request) : option jsstr :=
  match m with
  | PutQuotesRoute id _ | PutQuotesErrorRoute id _ | PutTransfersRoute id _ | PutTransfersErrorRoute id _ => Some id
  | _ => None
  end.

Lemma parties_published error_JSON env h m payer payee switchId t id sub st :
  answers h m (XParties payer payee switchId t id sub) st -> publishes error_JSON env h m (XParties payer payee switchId t id sub) st.
Proof.
  intros Hans. destruct m as [|t' id' sub' [p|]|t' id' sub' body| | | | | | |]; cbn [answers] in Hans; try contradiction.
  - destruct Hans as (<- & <- & <- & <- & Hn & Hf). exists [].
    eexists _, (Parties.forSuccess _ payee t id sub), p. split; [|split; [done|split; [|split; [by left|by rewrite str_eqb_refl]]]].
    + cbn. unfold HandlePutParties. rewrite present_value by done. unfold published. reflexivity.
    + destruct payee as [payee|]; [left; by rewrite Hf|]. destruct Hf as (Ht1 & Ht2 & Ht3 & Hfree). right.
      split; [done|]. by apply any_payee_subjects.
  - destruct Hans as (<- & <- & <- & <- & Hf). exists [].
    assert (Hout : forall k o s, k <> s -> (if str_eqb k s then o = Resolved (toErrorInformationObject error_JSON body)
      else exists e, toFspiopException (toErrorInformationObject error_JSON body) = Ok e /\ o = Rejected e) ->
      callback_outcome error_JSON (PutPartiesErrorRoute t id sub body) o) by (intros k o s Hk; by rewrite str_eqb_neq).
    destruct Hf as [Hs|Hf].
    + eexists _, _, _. split; [reflexivity|]. split; [done|]. split; [by left|]. rewrite Hs. split; [by right; right|].
      intros o. apply Hout, parties_subjects_differ.
    + eexists _, (Parties.forError _ payee t id sub), _. split; [reflexivity|]. split; [done|]. split.
      * destruct payee as [payee|]; [left; by rewrite Hf|]. destruct Hf as (Ht1 & Ht2 & Ht3 & Hfree). right.
        split; [done|]. by apply any_payee_subjects.
      * split; [by right; left|]. intros o. apply Hout, parties_subjects_differ.
Qed.

(** A callback of a quote or a transfer is audited under its id and published for it. *)
Lemma keyed_published error_JSON env h m x st :
  audit_fault env = None -> answers h m x st ->
  match x with XParties _ _ _ _ _ _ => False | _ => True end -> (forall id, route_id m = Some id -> trim id <> []) ->
  publishes error_JSON env h m x st.
Proof.
  intros Ha Hans Hx Hid. pose proof (fun id H => resolve_id (optionalHeaderValue (h_traceparent h)) id (Hid id H)) as Hkey.
  destruct x as [|payer id|payer id]; [done|..].
  - destruct m as [| | | |id' [p|]|id' body| | | |]; cbn [answers] in Hans; try contradiction.
    + destruct Hans as (<- & <- & Hn). eexists [_], _, _, p. split; [|split; [done|split; [by left|split; [by left|by rewrite str_eqb_refl]]]].
      cbn [dispatch_route execute_route snd]. unfold HandlePutQuotes. rewrite (present_value p Hn), (Hkey _ eq_refl).
      by rewrite audited_published.
    + destruct Hans as (<- & <-). eexists [_], _, _, _. split; [|split; [|split; [by left|split; [by right; left|]]]].
      * cbn [dispatch_route execute_route snd]. unfold HandlePutQuotesError. rewrite present_value, (Hkey _ eq_refl) by done.
        by rewrite audited_published.
      * done.
      * intros o. rewrite str_eqb_neq; [done|]. unfold Quotes.forError, Quotes.forSuccess. intros H. by apply app_inv_head in H.
  - destruct m as [| | | | | | | |id' [p|]|id' body]; cbn [answers] in Hans; try contradiction.
    + destruct Hans as (<- & <- & Hn). eexists [_], _, _, p. split; [|split; [done|split; [by left|split; [by left|by rewrite str_eqb_refl]]]].
      cbn [dispatch_route execute_route snd]. unfold HandlePutTransfers. rewrite (present_value p Hn), (Hkey _ eq_refl).
      by rewrite audited_published.
    + destruct Hans as (<- & <-). eexists [_], _, _, _. split; [|split; [|split; [by left|split; [by right; left|]]]].
      * cbn [dispatch_route execute_route snd]. unfold HandlePutTransfersError. rewrite present_value, (Hkey _ eq_refl) by done.
        by rewrite audited_published.
      * done.
      * intros o. rewrite str_eqb_neq; [done|]. unfold Transfers.forError, Transfers.forSuccess. intros H. by apply app_inv_head in H.
Qed.

Lemma subscribed_audits now audits e st : subscribed now (map IAudit audits ++ [e]) st = subscribed now [e] st.
Proof. induction audits; [done|]. done. Qed.

(** Promise [id] of a disciplined run waits for [x]: it is neither settled nor cancelled. *)
Definition waits_for (C : gset nat) (st : state) (id : nat) (x : expectation) : Prop :=
  reach C st /\ (id < next st)%nat /\ Subscriber.settled st !! id = None /\ id ∉ C /\
  exists en, entries st !! id = Some en /\ expected_subjects x = (successSubject en, errorSubject en, hubErrorSubject en).

(** * Properties *)

(** A quote or transfer whose audit message cannot be published: no response is attempted. *)
Lemma unaudited_unpublished error_JSON env h m i e : route_id m = Some i -> audit_fault env = Some e ->
  List.filter is_response (snd (dispatch_route error_JSON env h m)) = [].
Proof.
  intros Hi He. unfold dispatch_route, execute_route. cbn [snd].
  assert (Hlost : forall a rest, List.filter is_response (fst (audited_then env a rest)) = []) by (intros; unfold audited_then; by rewrite He).
  destruct m as [| | | |id' body|id' body| | |id' body|id' body]; try discriminate Hi.
  - unfold HandlePutQuotes. destruct (present body); [|done]. by destruct (resolveCorrelationId _ _); [apply Hlost|].
  - unfold HandlePutQuotesError. destruct (present _); [|done]. by destruct (resolveCorrelationId _ _); [apply Hlost|].
  - unfold HandlePutTransfers. destruct (present body); [|done]. by destruct (resolveCorrelationId _ _); [apply Hlost|].
  - unfold HandlePutTransfersError. destruct (present _); [|done]. by destruct (resolveCorrelationId _ _); [apply Hlost|].
Qed.
Lemma subscribed_silent now effects st : List.filter is_response effects = [] -> subscribed now effects st = st.
Proof. induction effects as [|[]]; cbn; auto. done. Qed.
Lemma filter_kept_none {A} (p : A -> bool) l : List.filter p (List.filter (fun x => negb (p x)) l) = [].
Proof. induction l as [|x l IH]; [done|]. cbn. destruct (p x) eqn:E; cbn; [done|by rewrite E]. Qed.

(** A callback that is heard: it is published, and where it is one of a quote or a transfer its
    audit message was published before. *)
Definition heard (env : InboundEnv) (m : hub_request) : Prop :=
  publish_fault env = None /\ (route_id m = None \/ audit_fault env = None).

(** C8. The hub is answered 200, and then: a callback that is published, for a quote or a transfer
    after its audit message, wakes the command that waits for it. A party, quote or transfer put
    by the participant the lookup named, by any participant if it named none, or an error put
    by it or by the hub, settles the promise with the body or with its error. Otherwise the
    subscriber stays as it was, and the command is left to its timer. This is among waiters with
    subjects of their own, and for an id that is not blank. *)
Theorem callback_settles_waiter error_JSON env h m now (C : gset nat) (st : state) (id : nat) (x : expectation) :
  waits_for C st id x -> answers h m x st -> (forall i, route_id m = Some i -> trim i <> []) ->
  let '(status, effects) := dispatch_route error_JSON env h m in
  let st' := subscribed now (got_out env effects) st in
  status = 200 /\
  (heard env m -> exists o, Subscriber.settled st' !! id = Some o /\ callback_outcome error_JSON m o) /\
  (~ heard env m -> st' = st).
Proof.
  intros (Hr & Hlt & Hs & HnC & en & Hen & Hx) Hans Hid. rewrite (surjective_pairing (dispatch_route error_JSON env h m)). cbv zeta.
  split; [by destruct x, m|]. unfold heard, got_out. split.
  - intros [-> Ha]. assert (Hpub : publishes error_JSON env h m x st).
    { destruct x; [by apply parties_published|apply keyed_published; try done..]; destruct Ha as [Ha|Ha]; try done; destruct m; done. }
    destruct Hpub as (audits & subj & k & p & -> & Hnull & Hreach & Hk). rewrite Hx in Hk. destruct Hk as [Hk Hout].
    rewrite subscribed_audits. cbn [subscribed fold_left].
    destruct (message_settles C st id en now subj k p Hr Hlt Hs HnC Hen Hk Hreach Hnull) as (o & Ho & Hcase).
    exists o. split; [done|]. by apply Hout.
  - intros Hno. apply subscribed_silent. destruct (publish_fault env); [apply filter_kept_none|].
    destruct (route_id m) as [i|] eqn:Hi; [|by destruct Hno; auto]. destruct (audit_fault env) as [e|] eqn:He; [|by destruct Hno; auto].
    by eapply unaudited_unpublished.
Qed.

(** C9. One request, one trail: a lookup, quote or transfer that can be correlated is published
    to its payee with what the hub sent, and the gateway's audit messages and those of every
    attempt of the connector have the same correlation id; one that cannot be correlated is
    accepted and dropped. *)
Theorem one_trail {lib : IlpLibrary} {dates : JsDates} agreement_JSON cfg baseUrl error_JSON env h m key :
  audit_fault env = None -> publish_fault env = None -> route_key h m = Some key ->
  let '(status, effects) := dispatch_route error_JSON env h m in
  status = 202 /\
  match key with
  | Err _ => effects = []
  | Ok k => exists r before, effects = before ++ [IConnector (subjectFor (message_operation r) (headerValue (h_destination h))) (MRequest r)] /\
      carries h m r /\ correlated r = true /\ Forall (audited_as k) effects /\
      forall x, Forall (performed_as k) (fst (Perform.perform agreement_JSON cfg baseUrl r x))
  end.
Proof.
  intros Ha _ Hk. unfold dispatch_route, execute_route. set (c := optionalHeaderValue (h_traceparent h)).
  assert (Hdone : forall r k before, connector_key r = Ok k -> carries h m r -> Forall (audited_as k) before ->
    exists r' before', before ++ [IConnector (subjectFor (message_operation r) (headerValue (h_destination h))) (MRequest r)] =
      before' ++ [IConnector (subjectFor (message_operation r') (headerValue (h_destination h))) (MRequest r')] /\
      carries h m r' /\ correlated r' = true /\
      Forall (audited_as k) (before ++ [IConnector (subjectFor (message_operation r) (headerValue (h_destination h))) (MRequest r)]) /\
      forall x, Forall (performed_as k) (fst (Perform.perform agreement_JSON cfg baseUrl r' x))).
  { intros r k before Hr Hc Hb. exists r, before. split; [done|]. split; [done|]. split; [by destruct r; cbn in Hr; unfold correlated; rewrite Hr|].
    split; [|intros x; by apply perform_audits]. apply Forall_app. split; [done|by repeat constructor]. }
  destruct m as [t id sub| | |q| | |q| | |]; try discriminate Hk; injection Hk as <-; (split; [done|]); cbn [fst].
  - unfold HandleGetParties. fold c. destruct (resolveCorrelationId c []) as [k|] eqn:Hr; [|done].
    apply (Hdone (GetParties (Some k) _ _ t id sub) k []); [by apply resolve_parties_forwarded with c|by eexists|constructor].
  - unfold HandlePostQuotes. fold c. destruct (resolveCorrelationId c _) as [k|] eqn:Hr; [|done].
    unfold audited_then, published. rewrite Ha. cbn [fst snd].
    apply (Hdone (PostQuotes (Some (traceparent_of c k)) _ _ q) k [_]); [by apply resolve_forwarded|by eexists|by repeat constructor].
  - unfold HandlePostTransfers. fold c. destruct (resolveCorrelationId c _) as [k|] eqn:Hr; [|done].
    unfold audited_then, published. rewrite Ha. cbn [fst snd].
    apply (Hdone (PostTransfers (Some (traceparent_of c k)) _ _ q) k [_]); [by apply resolve_forwarded|by eexists|by repeat constructor].
Qed.

(** A quote or transfer the hub answers is confirmed to it even when its audit message
    cannot be published, and then the answer is not published: the command that waits for it
    sees nothing but its timer. *)
Theorem unaudited_callback_lost error_JSON env h m now (st : state) i e :
  route_id m = Some i -> audit_fault env = Some e ->
  let '(status, effects) := dispatch_route error_JSON env h m in
  status = 200 /\ subscribed now effects st = st.
Proof.
  intros Hi He. pose proof (unaudited_unpublished error_JSON env h m i e Hi He) as H. unfold dispatch_route in *. cbn [snd] in H.
  split; [by destruct m|]. by apply subscribed_silent.
Qed.

(** The PATCH that tells a payee the outcome replaces the request of the transfer in the
    audit trail: its message is one of the transfers phase, so that the row keeps the PATCH's
    body instead. *)
Theorem patch_overwrites_request {num : Type} `{Documents document num} (invalid : Failure) (error_JSON : ErrorInformation -> jsstr)
    (env : InboundEnv) (h : HubHeaders) (id : jsstr) (told : TransferState) (t : Table num) (old : Row num) (count : Z) :
  trim id <> [] -> tp_amount (as_transfers_request (DBody (BPatch told))) = None -> t !! trim id = Some old ->
  exists m, head (snd (dispatch_route error_JSON env h (PatchTransfersRoute id told))) = Some (IAudit m) /\
    (ph_request ∘ row_transfers <$> fst (fst (handle invalid (created env) count None m t)) !! trim id) =
      Some (Some (stringify (DBody (BPatch told)))).
Proof.
  intros Hid Ham Hold. unfold dispatch_route, execute_route, HandlePatchTransfers. cbn [snd]. rewrite resolve_id by done.
  eexists. split; [unfold audited_then; by destruct (audit_fault env)|].
  unfold handle, AuditConsumer.dispatch, dispatchTransfers, audited. cbn [m_phase m_content m_action m_gateway inbound_message
    mc_correlationId mc_occurredAt mc_request]. cbn [AuditConsumer.perform execute upsert_input].
  cbn [fst mc_payerFsp mc_payeeFsp]. rewrite upsert_lookup. unfold toTransfersRequestInput, toTransfersRequest. rewrite Ham.
  cbn [u_correlationId a_correlationId]. unfold toTransfersCorrelationId. cbn [firstNonBlank fmap option_fmap option_map].
  rewrite trim_idemp. replace (0 <? length (trim id))%nat with true by (symmetry; apply Nat.ltb_lt; destruct (trim id); [done|cbn; lia]).
  rewrite bool_decide_true, Hold by done. reflexivity.
Qed.

(** ** Witnesses *)

(** Texts that tell documents apart. *)
Definition example_documents : Documents document jsstr := {|
  stringify d := match d with DBody (BPatch Committed) => js "{transferState:COMMITTED}" | _ => js "{}" end;
  as_quotes_request _ := as_quotes_request (AuditTrail.BText []);
  as_quotes_response _ := as_quotes_response (AuditTrail.BText []);
  as_transfers_request d := match d with DBody (BTransferRequest r) => r | _ => as_transfers_request (AuditTrail.BText []) end;
  as_transfers_response _ := as_transfers_response (AuditTrail.BText []);
  partyIdInfo_of _ := None;
  Number s := s;
  isFinite s := forallb is_digit s |}.

Definition example_inbound : InboundEnv := mkInboundEnv None None 1767225600000.
Definition example_headers (source destination : string) : HubHeaders :=
  mkHubHeaders (HText (js "00-trace-01")) (HText (js source)) (HText (js destination)).
Definition no_error_JSON : ErrorInformation -> jsstr := fun _ => [].

(** A lookup that names no payee. *)
Definition example_lookup : expectation := XParties (js "wallet1") None (js "hub") (js "MSISDN") (js "959") None.
Definition example_waiting : state :=
  let '(s, e, h) := expected_subjects example_lookup in Subscriber.step (EWait 0 s e h) initial.

Lemma callback_settles_waiter_witness :
  let m := PutPartiesRoute (js "MSISDN") (js "959") None (Some (PValue (js "{}") None)) in
  let '(status, effects) := dispatch_route no_error_JSON example_inbound (example_headers "wallet2" "wallet1") m in
  let st' := subscribed 5 (got_out example_inbound effects) example_waiting in
  status = 200 /\ exists o, Subscriber.settled st' !! 0%nat = Some o /\ o = Resolved (PValue (js "{}") None).
Proof.
  refine ((fun H => conj (proj1 H) (proj1 (proj2 H) (conj eq_refl (or_introl eq_refl)))) _).
  apply (callback_settles_waiter no_error_JSON example_inbound (example_headers "wallet2" "wallet1")
    (PutPartiesRoute (js "MSISDN") (js "959") None (Some (PValue (js "{}") None))) 5 ∅ example_waiting 0 example_lookup).
  - split; [|split; [vm_compute; lia|split; [reflexivity|split; [set_solver|]]]].
    + apply (reach_wait ∅ initial 0 (Parties.forSuccess (js "wallet1") None (js "MSISDN") (js "959") None)
        (Parties.forError (js "wallet1") None (js "MSISDN") (js "959") None)
        (Some (Parties.forError (js "wallet1") (Some (js "hub")) (js "MSISDN") (js "959") None)));
        [apply reach_init| |discriminate|discriminate].
      split; [reflexivity|]. split; [reflexivity|]. intros k [= <-]. reflexivity.
    + eexists. split; reflexivity.
  - repeat split; try reflexivity; try discriminate; unfold token; apply (bool_decide_unpack _); vm_compute; exact I.
  - discriminate.
Defined.

Lemma one_trail_witness :
  let '(status, effects) := dispatch_route no_error_JSON example_inbound (example_headers "wallet1" "wallet2") (PostTransfersRoute example_transfer) in
  status = 202 /\ exists r before, effects = before ++ [IConnector (subjectFor (message_operation r) (js "wallet2")) (MRequest r)] /\
    carries (example_headers "wallet1" "wallet2") (PostTransfersRoute example_transfer) r /\ correlated r = true /\
    Forall (audited_as (js "t")) effects /\
    forall x, Forall (performed_as (js "t")) (fst (Perform.perform example_agreement example_cfg (js "http://hub") r x)).
Proof.
  apply (one_trail example_agreement example_cfg (js "http://hub") no_error_JSON example_inbound (example_headers "wallet1" "wallet2")
    (PostTransfersRoute example_transfer) (Ok (js "t"))); vm_compute; reflexivity.
Defined.

Lemma unaudited_callback_lost_witness :
  let '(status, effects) := dispatch_route no_error_JSON (mkInboundEnv (Some nats_down) None 0) (example_headers "wallet2" "wallet1")
    (PutTransfersRoute (js "t") (Some (PValue (js "{}") None))) in
  status = 200 /\ subscribed 5 effects example_waiting = example_waiting.
Proof.
  apply (unaudited_callback_lost no_error_JSON (mkInboundEnv (Some nats_down) None 0) (example_headers "wallet2" "wallet1")
    (PutTransfersRoute (js "t") (Some (PValue (js "{}") None))) 5 example_waiting (js "t") nats_down); reflexivity.
Defined.

(** The request of a transfer, then the PATCH of its outcome. *)
Definition example_trail : Table jsstr :=
  upsert (H := example_documents) 0 (toTransfersRequestInput (H := example_documents) 0
    (mkAudited (js "t") (js "wallet1") (js "wallet2") (Some Inbound) (Some 0)) (Some (DBody (BTransferRequest example_transfer)))) ∅.
Lemma patch_overwrites_request_witness :
  exists m, head (snd (dispatch_route no_error_JSON example_inbound (example_headers "hub" "wallet2") (PatchTransfersRoute (js "t") Committed))) =
      Some (IAudit m) /\
    (ph_request ∘ row_transfers <$> fst (fst (handle (H := example_documents) refused 1767225600000 1 None m example_trail)) !! trim (js "t")) =
      Some (Some (js "{transferState:COMMITTED}")).
Proof.
  destruct (example_trail !! trim (js "t")) as [old|] eqn:Hold; [|vm_compute in Hold; discriminate Hold].
  refine (patch_overwrites_request (H := example_documents) refused no_error_JSON example_inbound (example_headers "hub" "wallet2") (js "t")
    Committed example_trail old 1 _ _ Hold); vm_compute; [discriminate|reflexivity].
Defined.
