(* ===== verification/LiveStats.v ===== *)
(** * The live dashboard counters

    core/audit/domain/component: live-stats.classifier.ts, the Lua script and the
    operations of live-stats.store.ts, live-stats.writer.ts, and
    [findLiveClassification] of domain/repository/transaction-rollup.repository.ts. The
    server is a store of counter hashes by UTC day and scope, and of markers by
    correlation id; the expiry of keys is not modelled. A day is its number since the
    epoch, which its ISO text names. Reconnection and logging are not modelled. *)

From S2P Require Import Prelude Errors Transfer SendMoney AuditTrail.

(** ** live-stats.classifier.ts *)

Record LiveVector : Set := mkLiveVector {
  txn : Z; success : Z; v_error : Z; v_dispute : Z; partiesError : Z; quotesError : Z; transfersError : Z;
  v_patchError : Z; latencyCount : Z; sumLatencyMs : Z }.

Record LiveClassificationRow : Set := mkLiveClassificationRow {
  l_error : bool; l_possibleDispute : bool; l_partiesError : bool; l_quotesError : bool; l_transfersError : bool;
  l_patchError : bool; l_latencyMs : option Z }.

Definition LIVE_VECTOR_ZERO : LiveVector := mkLiveVector 0 0 0 0 0 0 0 0 0 0.

Definition classify (row : LiveClassificationRow) : LiveVector :=
  mkLiveVector 1 (if l_error row then 0 else 1) (if l_error row then 1 else 0)
    (if l_possibleDispute row then 1 else 0) (if l_partiesError row then 1 else 0)
    (if l_quotesError row then 1 else 0) (if l_transfersError row then 1 else 0)
    (if l_patchError row then 1 else 0)
    (match l_latencyMs row with None => 0 | Some _ => 1 end) (default 0 (l_latencyMs row)).

(** A pointwise operation on the measures. *)
Definition zip (f : Z -> Z -> Z) (a b : LiveVector) : LiveVector :=
  mkLiveVector (f (txn a) (txn b)) (f (success a) (success b)) (f (v_error a) (v_error b))
    (f (v_dispute a) (v_dispute b)) (f (partiesError a) (partiesError b)) (f (quotesError a) (quotesError b))
    (f (transfersError a) (transfersError b)) (f (v_patchError a) (v_patchError b))
    (f (latencyCount a) (latencyCount b)) (f (sumLatencyMs a) (sumLatencyMs b)).

Definition diff (previous next : LiveVector) : LiveVector := zip (fun p n => n - p) previous next.

Definition measures (v : LiveVector) : list Z :=
  [txn v; success v; v_error v; v_dispute v; partiesError v; quotesError v; transfersError v; v_patchError v;
   latencyCount v; sumLatencyMs v].
Definition isZero (v : LiveVector) : bool := forallb (Z.eqb 0) (measures v).

(** A rate or an average is its numerator and denominator. *)
Record LiveKpi : Set := mkLiveKpi {
  today : Z; successRateToday : option (Z * Z); errorsToday : Z; disputesToday : Z;
  avgLatencyMsToday : option (Z * Z) }.

Definition toLiveKpi (v : LiveVector) : LiveKpi :=
  mkLiveKpi (txn v) (if 0 <? txn v then Some (success v, txn v) else None) (v_error v) (v_dispute v)
    (if 0 <? latencyCount v then Some (sumLatencyMs v, latencyCount v) else None).

(** ** live-stats.store.ts *)

Definition MS_PER_DAY : Z := 86400000.
(** [LiveStatsStore.dateKey] *)
Definition dateKey (date : Z) : Z := date / MS_PER_DAY.
Definition hubScope : jsstr := js "hub".
Definition fspScope (fspId : jsstr) : jsstr := js "fsp:" ++ fspId.

(** The keys of the server: counter hashes, and markers with their [_rank]. *)
Record Live : Set := mkLive {
  counters : gmap (Z * jsstr) LiveVector; markers : gmap jsstr (LiveVector * Z) }.
Definition no_stats : Live := mkLive ∅ ∅.

(** The hash at a key; fields that are missing read as 0. *)
Definition counter_at (key : Z * jsstr) (c : gmap (Z * jsstr) LiveVector) : LiveVector :=
  default LIVE_VECTOR_ZERO (c !! key).

(** [HINCRBY] of every field whose difference is not 0: a key without any is not made. *)
Definition hincr (d : LiveVector) (key : Z * jsstr) (c : gmap (Z * jsstr) LiveVector) : gmap (Z * jsstr) LiveVector :=
  if isZero d then c else <[key := zip Z.add (counter_at key c) d]> c.

(** The script: [rank] below that of the marker does nothing; otherwise the difference to
    the vector of the marker goes to every scope and the marker is rewritten. *)
Definition APPLY_EVENT_LUA (correlationId : jsstr) (keys : list (Z * jsstr)) (next : LiveVector) (rank : Z) (s : Live)
    : Live :=
  let prev := markers s !! correlationId in
  if match prev with Some (_, prevRank) => rank <? prevRank | None => false end then s
  else
    let d := diff (from_option fst LIVE_VECTOR_ZERO prev) next in
    mkLive (fold_left (fun c key => hincr d key c) keys (counters s)) (<[correlationId := (next, rank)]> (markers s)).

(** [applyEvent]; [ready] is [client.isReady], [failed] a call that throws before the
    script runs. *)
Definition applyEvent (ready failed : bool) (correlationId : jsstr) (date : Z) (scopes : list jsstr)
    (next : LiveVector) (rank : Z) (s : Live) : Live :=
  if negb ready || (length scopes =? 0)%nat || failed then s
  else APPLY_EVENT_LUA correlationId (map (pair date) scopes) next rank s.

(** [reseedScope]: the hash is replaced. *)
Definition reseedScope (ready failed : bool) (date : Z) (scope : jsstr) (totals : LiveVector) (s : Live) : Live :=
  if negb ready || failed then s else mkLive (<[(date, scope) := totals]> (counters s)) (markers s).

(** [readScope] *)
Definition readScope (ready failed : bool) (date : Z) (scope : jsstr) (s : Live) : LiveVector :=
  if negb ready || failed then LIVE_VECTOR_ZERO else counter_at (date, scope) (counters s).

(** ** live-stats.writer.ts *)

(** [TransactionRollupRepository.LiveClassificationRecord] *)
Record LiveRecord : Set := mkLiveRecord {
  lr_payerFsp : jsstr; lr_payeeFsp : jsstr; lr_startedAt : Z; lr_updatedAt : Z; lr_flags : LiveClassificationRow }.

Definition is_given {A} (o : option A) : bool := match o with Some _ => true | None => false end.

(** [findLiveClassification]: the flags and the latency of a row. *)
Definition live_record {num} (r : Row num) : LiveRecord :=
  mkLiveRecord (payer_fsp r) (payee_fsp r) (transaction_started_at r) (updated_at r)
    (mkLiveClassificationRow (error r) (possible_dispute r) (is_given (ph_error (row_parties r)))
       (is_given (ph_error (row_quotes r))) (is_given (ph_error (row_transfers r)))
       (is_given (patchError (row_patch r)))
       ((fun c => c - transaction_started_at r) <$> transaction_completed_at r)).
Definition findLiveClassification {num} (correlationId : jsstr) (t : Table num) : option LiveRecord :=
  live_record <$> t !! correlationId.

Definition scopesFor (payerFsp payeeFsp : jsstr) : list jsstr :=
  [hubScope; fspScope payerFsp] ++ if str_eqb payeeFsp payerFsp then [] else [fspScope payeeFsp].

(** [onTransactionEvent]: [replica] is the table the read connection sees. *)
Definition onTransactionEvent {num} (ready failed : bool) (correlationId : jsstr) (replica : Table num) (s : Live) : Live :=
  match findLiveClassification correlationId replica with
  | None => s
  | Some record =>
      applyEvent ready failed correlationId (dateKey (lr_startedAt record))
        (scopesFor (lr_payerFsp record) (lr_payeeFsp record)) (classify (lr_flags record)) (lr_updatedAt record) s
  end.

(** ** Reference: the sum over the transactions *)

(** An event: what one call of the writer sees of a transaction. *)
Record Event : Set := mkEvent { e_id : jsstr; e_record : LiveRecord }.
Definition event_keys (r : LiveRecord) : list (Z * jsstr) :=
  map (pair (dateKey (lr_startedAt r))) (scopesFor (lr_payerFsp r) (lr_payeeFsp r)).
Definition apply_event (s : Live) (e : Event) : Live :=
  APPLY_EVENT_LUA (e_id e) (event_keys (e_record e)) (classify (lr_flags (e_record e))) (lr_updatedAt (e_record e)) s.

Definition vector_add (a b : LiveVector) : LiveVector := zip Z.add a b.

(** One transaction's share of that sum. *)
Definition step_total (belongs : jsstr -> bool) (id : jsstr) (x : LiveVector * Z) (acc : LiveVector) : LiveVector :=
  if belongs id then vector_add (fst x) acc else acc.

(** The sum of the vectors last counted for the transactions that belong to a key. *)
Definition total (belongs : jsstr -> bool) (m : gmap jsstr (LiveVector * Z)) : LiveVector :=
  map_fold (step_total belongs) LIVE_VECTOR_ZERO m.

(** The last event of the highest rank: what should be counted of a transaction. *)
Definition newest (id : jsstr) (es : list Event) : option LiveRecord :=
  fold_left (fun best e =>
    if bool_decide (e_id e = id)
    then match best with
         | Some b => if lr_updatedAt (e_record e) <? lr_updatedAt b then best else Some (e_record e)
         | None => Some (e_record e)
         end
    else best) es None.

(** The marker of a transaction in a state. *)
Definition marker_of (r : LiveRecord) : LiveVector * Z := (classify (lr_flags r), lr_updatedAt r).

(** Vectors of transactions: each succeeds or fails, and is counted once. *)
Record wf_vector (v : LiveVector) : Prop := {
  wf_outcome : success v + v_error v = txn v;
  wf_nonneg : Forall (Z.le 0) (measures v);
  wf_stages : Forall (fun n => n <= txn v)
    [v_dispute v; partiesError v; quotesError v; transfersError v; v_patchError v; latencyCount v] }.
Definition latency_ok (r : LiveRecord) : Prop := 0 <= default 0 (l_latencyMs (lr_flags r)).

(** A transfer that committed, and the same after its patch call failed. *)
Definition committed_transfer : LiveRecord := mkLiveRecord (js "payer") (js "payee") 1000 2501
  (mkLiveClassificationRow false false false false false false (Some 1500)).
Definition settled_transfer : LiveRecord := mkLiveRecord (js "payer") (js "payee") 1000 3001
  (mkLiveClassificationRow true true false false false true (Some 1500)).
Definition example_events : list Event :=
  [mkEvent (js "T1") settled_transfer; mkEvent (js "T1") committed_transfer; mkEvent (js "T2") committed_transfer;
   mkEvent (js "T1") settled_transfer].

(** The outbound lookup of a payee whose participant is not known yet, as it is audited:
    the request names no payee participant, the failure that follows does. *)
Definition unrouted : LiveRecord := mkLiveRecord (js "payer") [] 1000 1001
  (mkLiveClassificationRow false false false false false false None).
Definition routed_failure : LiveRecord := mkLiveRecord (js "payer") (js "payee") 1000 2001
  (mkLiveClassificationRow true false false true false false (Some 1000)).

(** ** Vectors *)

Lemma vector_eq (a b : LiveVector) : measures a = measures b -> a = b.
Proof. destruct a, b. by intros [= -> -> -> -> -> -> -> -> -> ->]. Qed.

Ltac vector := apply vector_eq; unfold measures, vector_add, diff, zip; cbn;
  repeat (apply (f_equal2 (@cons Z)); [lia|]); reflexivity.

Lemma add_zero a : vector_add LIVE_VECTOR_ZERO a = a.
Proof. vector. Qed.
Lemma add_comm a b : vector_add a b = vector_add b a.
Proof. vector. Qed.
Lemma add_left_comm a b c : vector_add a (vector_add b c) = vector_add b (vector_add a c).
Proof. vector. Qed.
Lemma diff_same a : diff a a = LIVE_VECTOR_ZERO.
Proof. vector. Qed.

Lemma isZero_iff v : isZero v = true <-> v = LIVE_VECTOR_ZERO.
Proof.
  unfold isZero. rewrite forallb_forall. split.
  - intros Hv. apply vector_eq. unfold measures, LIVE_VECTOR_ZERO in *. cbn in Hv |- *.
    repeat (apply (f_equal2 (@cons Z)); [symmetry; apply Z.eqb_eq, Hv; tauto|]); reflexivity.
  - intros -> x Hx. cbn in Hx. decompose sum Hx; subst; done.
Qed.

(** ** Counters *)

Lemma counter_hincr d key k c :
  counter_at k (hincr d key c) = if bool_decide (k = key) then vector_add (counter_at k c) d else counter_at k c.
Proof.
  unfold hincr. destruct (isZero d) eqn:Hd.
  - apply isZero_iff in Hd as ->. case_bool_decide; [|done]. by rewrite add_comm, add_zero.
  - unfold counter_at. case_bool_decide as Hk; [subst k; by rewrite lookup_insert_eq|by rewrite lookup_insert_ne].
Qed.

Lemma counter_hincrs d keys k c :
  NoDup keys ->
  counter_at k (fold_left (fun c key => hincr d key c) keys c) =
  if bool_decide (k ∈ keys) then vector_add (counter_at k c) d else counter_at k c.
Proof.
  revert c. induction keys as [|key keys IH]; intros c Hn; [done|]. inversion Hn as [|? ? Hi Hn']; subst.
  cbn [fold_left]. rewrite (IH _ Hn'), counter_hincr.
  repeat case_bool_decide; try done; subst; set_solver.
Qed.

Lemma event_keys_nodup r : NoDup (event_keys r).
Proof.
  unfold event_keys. apply NoDup_fmap_2; [intros x y; by intros [= ->]|].
  unfold scopesFor. destruct (str_eqb (lr_payeeFsp r) (lr_payerFsp r)) eqn:He; cbn [app].
  - assert (forall f, hubScope <> fspScope f) by done. rewrite !NoDup_cons, NoDup_nil. set_solver.
  - apply bool_decide_eq_false in He.
    assert (fspScope (lr_payerFsp r) <> fspScope (lr_payeeFsp r)) by (intros Hq; apply app_inv_head in Hq; congruence).
    assert (forall f, hubScope <> fspScope f) by done.
    rewrite !NoDup_cons, NoDup_nil. set_solver.
Qed.

Lemma step_total_comm belongs i j x y acc :
  step_total belongs i x (step_total belongs j y acc) = step_total belongs j y (step_total belongs i x acc).
Proof. unfold step_total. destruct (belongs i), (belongs j); try done. apply add_left_comm. Qed.

Lemma total_insert belongs id x m :
  total belongs (<[id := x]> m) =
  if belongs id then vector_add (total belongs m) (diff (from_option fst LIVE_VECTOR_ZERO (m !! id)) (fst x))
  else total belongs m.
Proof.
  unfold total.
  assert (Hd : forall m', m' !! id = None ->
    map_fold (step_total belongs) LIVE_VECTOR_ZERO (<[id := x]> m') =
    step_total belongs id x (map_fold (step_total belongs) LIVE_VECTOR_ZERO m')).
  { intros m' Hm'. apply map_fold_insert_L; [|done]. intros. apply step_total_comm. }
  destruct (m !! id) as [y|] eqn:Hy; cbn [from_option].
  - pose proof (map_fold_delete_L (step_total belongs) LIVE_VECTOR_ZERO id y m) as Hm.
    rewrite Hm by (done || intros; apply step_total_comm).
    rewrite <- (insert_delete_eq m id x), Hd by apply lookup_delete_eq.
    generalize (map_fold (step_total belongs) LIVE_VECTOR_ZERO (delete id m)) as acc. intros acc.
    unfold step_total. destruct (belongs id); [vector|done].
  - rewrite Hd by done. unfold step_total at 1. destruct (belongs id); [|done]. vector.
Qed.

(** ** Events *)

Lemma apply_event_marker s e id :
  markers (apply_event s e) !! id =
  if bool_decide (e_id e = id)
  then match markers s !! id with
       | Some (v, rank) => if lr_updatedAt (e_record e) <? rank then Some (v, rank) else Some (marker_of (e_record e))
       | None => Some (marker_of (e_record e))
       end
  else markers s !! id.
Proof.
  unfold apply_event, APPLY_EVENT_LUA. case_bool_decide as Hid; [subst id|];
    destruct (markers s !! e_id e) as [[v rank]|] eqn:Hm; try destruct (_ <? _); cbn [markers];
    rewrite ?lookup_insert_eq, ?lookup_insert_ne by done; done.
Qed.

Lemma markers_newest es id : markers (fold_left apply_event es no_stats) !! id = marker_of <$> newest id es.
Proof.
  unfold newest. induction es as [|e es IH] using rev_ind; [done|].
  rewrite !fold_left_app. cbn [fold_left]. rewrite apply_event_marker, IH. case_bool_decide; [|done].
  destruct (fold_left _ es None) as [b|]; cbn [fmap option_fmap option_map marker_of]; [|done].
  by destruct (_ <? _).
Qed.

Lemma apply_event_counter s e (home : jsstr -> list (Z * jsstr)) key :
  event_keys (e_record e) = home (e_id e) ->
  counter_at key (counters s) = total (fun id => bool_decide (key ∈ home id)) (markers s) ->
  counter_at key (counters (apply_event s e)) = total (fun id => bool_decide (key ∈ home id)) (markers (apply_event s e)).
Proof.
  intros Hh Hc. unfold apply_event, APPLY_EVENT_LUA.
  destruct (match markers s !! e_id e with Some (_, r) => _ | None => _ end); [done|]. cbn [counters markers].
  rewrite counter_hincrs by apply event_keys_nodup. by rewrite total_insert, Hh, Hc.
Qed.

Lemma counters_total es (home : jsstr -> list (Z * jsstr)) key :
  Forall (fun e => event_keys (e_record e) = home (e_id e)) es ->
  counter_at key (counters (fold_left apply_event es no_stats)) =
  total (fun id => bool_decide (key ∈ home id)) (markers (fold_left apply_event es no_stats)).
Proof.
  intros Hh. induction es as [|e es IH] using rev_ind;
    [change (counter_at key ∅ = total (fun id => bool_decide (key ∈ home id)) ∅); unfold total; by rewrite map_fold_empty|].
  apply Forall_app in Hh as [Hh He]. inversion He; subst. rewrite fold_left_app. cbn [fold_left].
  apply apply_event_counter; auto.
Qed.

(** C23. Per-transaction counting: while every transaction keeps its day and its two
    participants, after any events in any order, stale and repeated ones included, the
    counter of a scope is the sum, over the transactions of the scope, of the
    classification of the newest state seen of each. The events are all that happens: no
    key expires and no scope is reseeded. *)
Theorem counters_are_totals (es : list Event) (home : jsstr -> list (Z * jsstr)) (key : Z * jsstr) :
  Forall (fun e => event_keys (e_record e) = home (e_id e)) es ->
  let s := fold_left apply_event es no_stats in
  counter_at key (counters s) = total (fun id => bool_decide (key ∈ home id)) (markers s) /\
  forall id, markers s !! id = marker_of <$> newest id es.
Proof.
  intros Hh. split; [by apply counters_total|]. intros id. apply markers_newest.
Qed.

Lemma wf_vector_zero : wf_vector LIVE_VECTOR_ZERO.
Proof. by split; [|repeat constructor..]. Qed.
Lemma wf_vector_add a b : wf_vector a -> wf_vector b -> wf_vector (vector_add a b).
Proof.
  intros [Ho Hn Hs] [Ho' Hn' Hs']. unfold measures in *. rewrite !Forall_cons in *.
  split; [cbn; lia|..]; unfold measures; rewrite !Forall_cons; cbn; repeat split; try lia; constructor.
Qed.
Lemma wf_classify r : 0 <= default 0 (l_latencyMs r) -> wf_vector (classify r).
Proof.
  intros Hl. destruct r as [[] [] [] [] [] [] [l|]]; (split; [done|..]); unfold measures; cbn in *;
    repeat constructor; lia.
Qed.

Lemma newest_in id es r : newest id es = Some r -> exists e, In e es /\ e_record e = r.
Proof.
  unfold newest. revert r. induction es as [|e es IH] using rev_ind; intros r; [done|].
  rewrite fold_left_app. cbn [fold_left]. setoid_rewrite in_app_iff. case_bool_decide.
  - destruct (fold_left _ es None) as [b|]; [destruct (_ <? _)|];
      try (intros [= <-]; exists e; split; [right; by left|done]).
    intros [= <-]. destruct (IH _ eq_refl) as (e' & Hin & <-). exists e'. split; [by left|done].
  - intros Hr. destruct (IH _ Hr) as (e' & Hin & <-). exists e'. split; [by left|done].
Qed.

Lemma wf_total belongs m : map_Forall (fun _ x => wf_vector (fst x)) m -> wf_vector (total belongs m).
Proof.
  unfold total. apply (map_fold_weak_ind (fun r m => map_Forall (fun _ x => wf_vector (fst x)) m -> wf_vector r)).
  - intros _. apply wf_vector_zero.
  - intros id x m' r Hm IH Hf. apply map_Forall_insert in Hf as [Hx Hf]; [|done].
    unfold step_total. destruct (belongs id); [apply wf_vector_add; auto|auto].
Qed.

(** The dashboard of a scope is consistent: while every transaction keeps its day and
    participants, successes and errors add up to the transactions of today, the success
    rate is between 0 and 1, disputes are at most the transactions, and the average latency
    is defined and not negative once a transaction completed. *)
Theorem live_kpi_bounds (es : list Event) (home : jsstr -> list (Z * jsstr)) (day : Z) (scope : jsstr) :
  Forall (fun e => event_keys (e_record e) = home (e_id e)) es -> Forall (fun e => latency_ok (e_record e)) es ->
  let v := readScope true false day scope (fold_left apply_event es no_stats) in
  let kpi := toLiveKpi v in
  0 <= today kpi /\ success v + errorsToday kpi = today kpi /\ 0 <= errorsToday kpi /\
  0 <= disputesToday kpi <= today kpi /\
  (successRateToday kpi = None <-> today kpi = 0) /\
  (forall n d, successRateToday kpi = Some (n, d) -> 0 <= n <= d) /\
  (forall n d, avgLatencyMsToday kpi = Some (n, d) -> 0 <= n /\ 0 < d <= today kpi).
Proof.
  intros Hh Hl. cbv zeta. unfold readScope. cbn [negb orb]. rewrite (counters_total es home (day, scope) Hh).
  set (v := total _ _). assert (Hv : wf_vector v).
  { apply wf_total. intros id x Hx. rewrite markers_newest in Hx.
    destruct (newest id es) as [r|] eqn:Hn; [|done]. injection Hx as <-. cbn [marker_of fst].
    apply newest_in in Hn as (e & Hin & <-). apply wf_classify. rewrite Forall_forall in Hl.
    apply Hl. by apply list_elem_of_In. }
  clearbody v. destruct Hv as [Ho Hn Hs]. unfold measures in Hn. repeat rewrite Forall_cons in Hn.
  repeat rewrite Forall_cons in Hs. cbn beta in Hn, Hs. destruct_and?. unfold toLiveKpi. cbn [today errorsToday disputesToday successRateToday avgLatencyMsToday].
  destruct (0 <? txn v) eqn:Ht, (0 <? latencyCount v) eqn:Hc;
    rewrite ?Z.ltb_lt, ?Z.ltb_ge in *; repeat split; try lia; try done;
    intros; simplify_eq; lia.
Qed.

(** Repeating an event changes nothing. *)
Theorem event_idempotent (s : Live) (e : Event) : apply_event (apply_event s e) e = apply_event s e.
Proof.
  unfold apply_event, APPLY_EVENT_LUA at 2 3. destruct (markers s !! e_id e) as [[v rank]|] eqn:Hm;
    [destruct (lr_updatedAt (e_record e) <? rank) eqn:Hr|].
  - unfold APPLY_EVENT_LUA. by rewrite Hm, Hr.
  - unfold APPLY_EVENT_LUA. cbn [markers counters]. rewrite lookup_insert_eq, Z.ltb_irrefl. cbn [from_option fst].
    rewrite diff_same, insert_insert_eq. f_equal. generalize (event_keys (e_record e)) as keys. intros keys.
    generalize (fold_left (fun c key => hincr (diff v (classify (lr_flags (e_record e)))) key c) keys (counters s)) as c.
    induction keys as [|key keys IH]; intros c; [done|]. apply IH.
  - unfold APPLY_EVENT_LUA. cbn [markers counters]. rewrite lookup_insert_eq, Z.ltb_irrefl. cbn [from_option fst].
    rewrite diff_same, insert_insert_eq. f_equal.
    generalize (fold_left (fun c key => hincr (diff LIVE_VECTOR_ZERO (classify (lr_flags (e_record e)))) key c)
                  (event_keys (e_record e)) (counters s)) as c.
    induction (event_keys (e_record e)) as [|key keys IH]; intros c; [done|]. apply IH.
Qed.

(** A participant that only a later event of a transaction names is not counted: its
    scope gets the change of the measures, and no transaction. *)
Theorem late_participant_uncounted (id : jsstr) (r r' : LiveRecord) (key : Z * jsstr) :
  lr_updatedAt r <= lr_updatedAt r' -> key ∉ event_keys r -> key ∈ event_keys r' ->
  let v := counter_at key (counters (fold_left apply_event [mkEvent id r; mkEvent id r'] no_stats)) in
  v = diff (classify (lr_flags r)) (classify (lr_flags r')) /\ txn v = 0.
Proof.
  intros Hr Hn Hi. cbv zeta. cbn [fold_left]. set (s := apply_event no_stats (mkEvent id r)).
  assert (Hm : markers s !! id = Some (classify (lr_flags r), lr_updatedAt r)).
  { unfold s. rewrite apply_event_marker. cbn [e_id e_record]. by rewrite bool_decide_eq_true_2. }
  assert (Hc : counter_at key (counters s) = LIVE_VECTOR_ZERO).
  { unfold s, apply_event, APPLY_EVENT_LUA. cbn [markers no_stats e_id e_record counters].
    rewrite lookup_empty. cbn [counters]. rewrite counter_hincrs by apply event_keys_nodup.
    by rewrite bool_decide_eq_false_2. }
  unfold apply_event, APPLY_EVENT_LUA. cbn [e_id e_record]. rewrite Hm. replace (lr_updatedAt r' <? lr_updatedAt r) with false by lia.
  cbn [counters from_option fst]. rewrite counter_hincrs by apply event_keys_nodup.
  rewrite bool_decide_eq_true_2, Hc, add_zero by done. done.
Qed.

(** A disputed transaction that committed counts as a dispute and as a success. *)
Example disputed_success {num} (now : Z) (r : Row num) :
  error r = false -> let v := classify (lr_flags (live_record (disputed now r))) in
  (success v, v_error v, v_dispute v) = (1, 0, 1).
Proof. intros Hr. cbn. by rewrite Hr. Qed.

(** ** Witnesses *)


Lemma counters_are_totals_witness :
  let s := fold_left apply_event example_events no_stats in
  counter_at (0, hubScope) (counters s) =
    total (fun id => bool_decide ((0, hubScope) ∈ event_keys committed_transfer)) (markers s) /\
  forall id, markers s !! id = marker_of <$> newest id example_events.
Proof.
  apply (counters_are_totals example_events (fun _ => event_keys committed_transfer) (0, hubScope)).
  repeat constructor.
Defined.

Lemma live_kpi_bounds_witness :
  let v := readScope true false 0 (fspScope (js "payee")) (fold_left apply_event example_events no_stats) in
  v = mkLiveVector 2 1 1 1 0 0 0 1 2 3000 /\ success v + errorsToday (toLiveKpi v) = today (toLiveKpi v).
Proof.
  cbv zeta. split; [vm_compute; reflexivity|].
  apply (live_kpi_bounds example_events (fun _ => event_keys committed_transfer) 0 (fspScope (js "payee"))).
  - repeat constructor.
  - repeat constructor; vm_compute; discriminate.
Defined.

Lemma late_participant_uncounted_witness :
  let v := counter_at (0, fspScope (js "payee"))
    (counters (fold_left apply_event [mkEvent (js "T1") unrouted; mkEvent (js "T1") routed_failure] no_stats)) in
  v = diff (classify (lr_flags unrouted)) (classify (lr_flags routed_failure)) /\ txn v = 0.
Proof.
  apply (late_participant_uncounted (js "T1") unrouted routed_failure (0, fspScope (js "payee"))).
  - vm_compute. discriminate.
  - apply (bool_decide_unpack _). vm_compute. exact I.
  - apply (bool_decide_unpack _). vm_compute. exact I.
Defined.
