(* ===== verification/Sorting.v ===== *)
(** * Lists in the order of a comparator

    [Array.prototype.sort] and [ORDER BY] as a stable insertion sort by a comparator, for
    the pages of transactions: sorted lists without ties are determined by their elements,
    and sorting commutes with filters, with reversal, and with cutting the front of a
    union. *)

From S2P Require Import Prelude.
From Stdlib Require Import Sorting.Sorted.

Section sort.
  Context {A : Type} (cmp : A -> A -> comparison).

Fixpoint insert_by (x : A) (l : list A) : list A :=
  match l with
  | [] => [x]
  | y :: l => match cmp x y with Gt => y :: insert_by x l | _ => x :: y :: l end
  end.
Definition sort (l : list A) : list A := fold_right insert_by [] l.

(** What the code and the server rely on: a total preorder. *)
Class Ordering : Prop := {
  cmp_opp : forall x y, cmp y x = CompOpp (cmp x y);
  cmp_lt_trans : forall x y z, cmp x y = Lt -> cmp y z = Lt -> cmp x z = Lt;
  cmp_eq_subst : forall x y z, cmp x y = Eq -> cmp x z = cmp y z }.

Definition ltb (x y : A) : bool := match cmp x y with Lt => true | _ => false end.
Definition precedes (x y : A) : Prop := cmp x y = Lt.
Notation increasing := (StronglySorted precedes).

(** No two elements that the comparator does not tell apart. *)
Definition no_ties (l : list A) : Prop := List.NoDup l /\ forall x y, In x l -> In y l -> cmp x y = Eq -> x = y.

Lemma filter_none {B} (p : B -> bool) l : (forall a, In a l -> p a = false) -> List.filter p l = [].
Proof. induction l as [|a l IH]; intros Hp; cbn; [done|]. rewrite Hp by (by left). apply IH. intros; apply Hp; by right. Qed.
Lemma filter_all {B} (p : B -> bool) l : (forall a, In a l -> p a = true) -> List.filter p l = l.
Proof.
  induction l as [|a l IH]; intros Hp; cbn; [done|]. rewrite Hp by (by left). f_equal. apply IH. intros; apply Hp; by right.
Qed.

Lemma ltb_precedes x y : ltb x y = true <-> precedes x y.
Proof. unfold ltb, precedes. by destruct (cmp x y). Qed.

Lemma insert_in x y l : In y (insert_by x l) <-> y = x \/ In y l.
Proof.
  induction l as [|z l IH]; cbn; [naive_solver|]. destruct (cmp x z); cbn; rewrite ?IH; naive_solver.
Qed.
Lemma insert_length x l : length (insert_by x l) = Datatypes.S (length l).
Proof. induction l as [|y l IH]; [done|]. cbn. destruct (cmp x y); cbn; by rewrite ?IH. Qed.
Lemma sort_length l : length (sort l) = length l.
Proof. induction l as [|x l IH]; [done|]. unfold sort in *. cbn. by rewrite insert_length, IH. Qed.

Lemma sort_in x l : In x (sort l) <-> In x l.
Proof. induction l as [|y l IH]; cbn; [done|]. rewrite insert_in, IH. naive_solver. Qed.

Context `{Ordering}.

Lemma precedes_irrefl x : ~ precedes x x.
Proof. intros Hx. pose proof (cmp_opp x x) as Ho. unfold precedes in Hx. by rewrite Hx in Ho. Qed.
Lemma precedes_asym x y : precedes x y -> ~ precedes y x.
Proof. intros Hxy Hyx. apply (precedes_irrefl x). by apply (cmp_lt_trans x y). Qed.

Lemma increasing_insert x l :
  increasing l -> (forall y, In y l -> cmp x y <> Eq) -> increasing (insert_by x l).
Proof.
  induction l as [|y l IH]; intros Hs He; cbn; [repeat constructor|].
  inversion Hs as [|? ? Hs' Hy]; subst. destruct (cmp x y) eqn:Hc.
  - by destruct (He y (or_introl eq_refl)).
  - constructor; [done|]. constructor; [done|]. rewrite Forall_forall in *. intros z Hz.
    apply (cmp_lt_trans x y); [done|]. by apply Hy.
  - constructor.
    + apply IH; [done|]. intros z Hz. by apply He; right.
    + apply Forall_forall. intros z Hz. apply list_elem_of_In, insert_in in Hz as [->|Hz].
      * unfold precedes. by rewrite cmp_opp, Hc.
      * rewrite Forall_forall in Hy. apply Hy. by apply list_elem_of_In.
Qed.

Lemma sort_increasing l : no_ties l -> increasing (sort l).
Proof.
  intros [Hn Ht]. induction l as [|x l IH]; [constructor|]. change (sort (x :: l)) with (insert_by x (sort l)). inversion Hn as [|? ? Hi Hn']; subst.
  apply increasing_insert.
  - apply IH; [done|]. intros; apply Ht; by try right.
  - intros y Hy He. apply (proj1 (sort_in _ _)) in Hy. apply Hi. by rewrite (Ht x y (or_introl eq_refl) (or_intror Hy) He).
Qed.

(** A sorted list without ties is determined by its elements. *)
Lemma increasing_unique l l' : increasing l -> increasing l' -> (forall x, In x l <-> In x l') -> l = l'.
Proof.
  intros Hs. revert l'. induction Hs as [|x l Hs IH Hx]; intros l' Hs' He.
  - destruct l' as [|y l']; [done|]. by destruct (proj2 (He y) (or_introl eq_refl)).
  - destruct Hs' as [|y l' Hs' Hy]; [by destruct (proj1 (He x) (or_introl eq_refl))|].
    rewrite Forall_forall in Hx, Hy. setoid_rewrite list_elem_of_In in Hx. setoid_rewrite list_elem_of_In in Hy.
    assert (x = y) as ->.
    { destruct (proj1 (He x) (or_introl eq_refl)) as [|Hi]; [done|].
      destruct (proj2 (He y) (or_introl eq_refl)) as [|Hi']; [done|].
      by destruct (precedes_asym x y (Hx _ Hi') (Hy _ Hi)). }
    f_equal. apply IH; [done|]. intros z. split; intros Hz.
    + destruct (proj1 (He z) (or_intror Hz)) as [<-|]; [|done]. by destruct (precedes_irrefl _ (Hx _ Hz)).
    + destruct (proj2 (He z) (or_intror Hz)) as [<-|]; [|done]. by destruct (precedes_irrefl _ (Hy _ Hz)).
Qed.

Lemma increasing_nodup l : increasing l -> List.NoDup l.
Proof.
  induction 1 as [|x l Hs IH Hx]; constructor; [|done]. intros Hi. rewrite Forall_forall in Hx.
  apply list_elem_of_In in Hi. by destruct (precedes_irrefl x (Hx _ Hi)).
Qed.
Lemma increasing_no_ties l : increasing l -> no_ties l.
Proof.
  intros Hs. split; [by apply increasing_nodup|]. induction Hs as [|x l Hs IH Hx]; [done|].
  rewrite Forall_forall in Hx. setoid_rewrite list_elem_of_In in Hx. intros y z [<-|Hy] [<-|Hz] He; try done.
  - specialize (Hx _ Hz). unfold precedes in Hx. congruence.
  - specialize (Hx _ Hy). unfold precedes in Hx. rewrite cmp_opp, Hx in He. done.
  - by apply IH.
Qed.

Lemma no_ties_sub l l' : (forall x, In x l' -> In x l) -> List.NoDup l' -> no_ties l -> no_ties l'.
Proof. intros Hi Hn [_ Ht]. split; [done|]. intros x y Hx Hy. apply Ht; auto. Qed.

Lemma increasing_filter p l : increasing l -> increasing (List.filter p l).
Proof.
  induction 1 as [|x l Hs IH Hx]; cbn; [constructor|]. destruct (p x); [|done]. constructor; [done|].
  rewrite Forall_forall in *. intros y Hy. apply list_elem_of_In, filter_In in Hy as [Hy _].
  apply Hx. by apply list_elem_of_In.
Qed.

Lemma increasing_app l l' : increasing (l ++ l') <->
  increasing l /\ increasing l' /\ forall x y, In x l -> In y l' -> precedes x y.
Proof.
  induction l as [|z l IH]; cbn; [split; [intros; by repeat constructor|by intros (_ & ? & _)]|].
  split.
  - intros Hs. inversion Hs as [|? ? Hs' Hz]; subst. apply IH in Hs' as (Hl & Hl' & Hb).
    apply Forall_app in Hz as [Hz Hz']. rewrite Forall_forall in Hz'. setoid_rewrite list_elem_of_In in Hz'.
    split; [by constructor|]. split; [done|]. intros x y [<-|Hx] Hy; auto.
  - intros (Hs & Hl' & Hb). inversion Hs as [|? ? Hs' Hz]; subst. constructor.
    + apply IH. auto.
    + apply Forall_app. split; [done|]. apply Forall_forall. intros y Hy. apply Hb; [by left|by apply list_elem_of_In].
Qed.

Lemma sort_id l : increasing l -> sort l = l.
Proof.
  intros Hs. apply increasing_unique; [by apply sort_increasing, increasing_no_ties|done|]. intros. apply sort_in.
Qed.
Lemma sort_filter p l : no_ties l -> sort (List.filter p l) = List.filter p (sort l).
Proof.
  intros Ht. apply increasing_unique.
  - apply sort_increasing, (no_ties_sub l); [intros x; rewrite filter_In; tauto|apply List.NoDup_filter, Ht|done].
  - by apply increasing_filter, sort_increasing.
  - intros x. by rewrite sort_in, !filter_In, sort_in.
Qed.

(** The front of a filtered list has the front of the list that passes. *)
Lemma take_in_cons n (x y : A) l : In x (take n l) -> In x (take (Datatypes.S n) (y :: l)).
Proof. cbn. by right. Qed.
Lemma take_in_S n (x : A) l : In x (take n l) -> In x (take (Datatypes.S n) l).
Proof.
  revert n. induction l as [|y l IH]; intros [|n]; cbn; try done. intros [<-|Hx]; [by left|right]. by apply IH.
Qed.
Lemma take_filter p n (l : list A) x : In x (take n l) -> p x = true -> In x (take n (List.filter p l)).
Proof.
  revert n. induction l as [|y l IH]; intros [|n]; cbn; try done. intros [<-|Hx] Hp; [rewrite Hp; by left|].
  destruct (p y); [apply take_in_cons|apply take_in_S]; by apply IH.
Qed.

(** The front of a union is in the fronts of its parts. *)
Lemma take_sort_sub n s x :
  increasing s -> List.NoDup x -> (forall a, In a x -> In a s) -> (forall a, In a (take n s) -> In a x) ->
  take n (sort x) = take n s.
Proof.
  intros Hs Hn Hsub Hsup.
  pose proof Hs as Hs'. rewrite <- (take_drop n s) in Hs'. apply increasing_app in Hs' as (Ht & Hd & Hb).
  set (rest := List.filter (fun a => bool_decide (Exists (fun b => cmp a b = Eq) (drop n s))) (sort x)).
  assert (Hx : no_ties x) by (apply (no_ties_sub s); [done..|by apply increasing_no_ties]).
  assert (Heq : sort x = take n s ++ rest).
  { apply increasing_unique.
    - by apply sort_increasing.
    - apply increasing_app. split; [done|]. split; [by apply increasing_filter, sort_increasing|].
      intros a b Ha Hb'. apply filter_In in Hb' as [Hbx Hbd]. apply bool_decide_eq_true, Exists_exists in Hbd as (c & Hc & He).
      apply list_elem_of_In in Hc. specialize (Hb _ _ Ha Hc). unfold precedes in *.
      rewrite (cmp_opp b a), (cmp_eq_subst _ _ _ He), (cmp_opp a c), Hb. done.
    - intros a. rewrite in_app_iff. unfold rest. rewrite filter_In, !sort_in. split.
      + intros Ha. specialize (Hsub _ Ha) as Has. rewrite <- (take_drop n s), in_app_iff in Has.
        destruct Has as [|Had]; [by left|]. right. split; [done|]. apply bool_decide_eq_true, Exists_exists.
        exists a. split; [by apply list_elem_of_In|]. pose proof (cmp_opp a a). by destruct (cmp a a).
      + intros [Ha|[Ha _]]; auto. }
  rewrite Heq. destruct (decide (n <= length s)%nat) as [Hle|Hgt].
  - rewrite take_app_le by (rewrite length_take; lia). by rewrite take_take, Nat.min_id.
  - assert (rest = []) as ->.
    { destruct rest as [|a r] eqn:Hr; [done|]. assert (Ha : In a rest) by (rewrite Hr; by left).
      unfold rest in Ha. apply filter_In in Ha as [_ Ha]. apply bool_decide_eq_true, Exists_exists in Ha as (c & Hc & _).
      rewrite drop_ge in Hc by lia. by apply not_elem_of_nil in Hc. }
    by rewrite app_nil_r, take_take, Nat.min_id.
Qed.

(** What comes after an element. *)
Lemma filter_after l i r : increasing l -> l !! i = Some r -> List.filter (ltb r) l = drop (Datatypes.S i) l.
Proof.
  intros Hs Hi. rewrite <- (take_drop_middle l i r Hi) in Hs |- *.
  apply increasing_app in Hs as (Ht & Hd & Hb). inversion Hd as [|? ? Hd' Hr]; subst.
  rewrite List.filter_app. cbn [List.filter].
  assert (ltb r r = false) as ->.
  { destruct (ltb r r) eqn:Hl; [|done]. apply ltb_precedes in Hl. by destruct (precedes_irrefl r). }
  assert (Hno : forall a, In a (take i l) -> ltb r a = false).
  { intros a Ha. destruct (ltb r a) eqn:Hl; [|done]. apply ltb_precedes in Hl.
    by destruct (precedes_asym r a Hl (Hb a r Ha (or_introl eq_refl))). }
  assert (Hyes : forall a, In a (drop (Datatypes.S i) l) -> ltb r a = true).
  { intros a Ha. apply ltb_precedes. rewrite Forall_forall in Hr. apply Hr. by apply list_elem_of_In. }
  rewrite (filter_none _ _ Hno), (filter_all _ _ Hyes). cbn [app].
  rewrite drop_app_ge by (rewrite length_take; lia).
  rewrite length_take_le by (apply lookup_lt_Some in Hi; lia).
  by replace (Datatypes.S i - i)%nat with 1%nat by lia.
Qed.
End sort.
Arguments Ordering {A}.

(** The reverse order gives the reverse list. *)
Section reverse.
  Context {A : Type} (cmp rcmp : A -> A -> comparison) `{!Ordering cmp}.
  Hypothesis rcmp_flip : forall x y, rcmp x y = cmp y x.

Lemma reverse_ordering : Ordering rcmp.
Proof.
  split; setoid_rewrite rcmp_flip.
  - intros. apply (cmp_opp cmp _).
  - intros x y z Hxy Hyz. by apply (cmp_lt_trans cmp _ y).
  - intros x y z He. rewrite (cmp_opp cmp x z), (cmp_opp cmp y z). f_equal. apply (cmp_eq_subst cmp).
    by rewrite (cmp_opp cmp y x), He.
Qed.

Lemma increasing_rev l : StronglySorted (precedes cmp) l -> StronglySorted (precedes rcmp) (rev l).
Proof.
  induction 1 as [|x l Hs IH Hx]; cbn; [constructor|]. apply (increasing_app rcmp). split; [done|].
  split; [by repeat constructor|]. intros a b Ha [<-|[]]. unfold precedes. rewrite rcmp_flip.
  rewrite Forall_forall in Hx. apply Hx. by apply list_elem_of_In, in_rev.
Qed.

Lemma sort_reverse l : no_ties cmp l -> sort rcmp l = rev (sort cmp l).
Proof.
  intros [Hn Ht]. pose proof reverse_ordering. apply (increasing_unique rcmp).
  - apply sort_increasing; [done|]. split; [done|]. intros x y Hx Hy. rewrite rcmp_flip. intros He. symmetry. auto.
  - by apply increasing_rev, sort_increasing.
  - intros x. by rewrite <- in_rev, !sort_in.
Qed.
End reverse.
