(* ===== verification/Pages.v ===== *)
(** * Pages of transactions

    core/audit/domain/repository/transaction.repository.ts: keyset pagination ([find],
    [findForReport]), the two legs of a participant's transactions ([fetchLeg],
    [mergeLegs]), the cursor predicate ([keysetWhere]), [count], the criteria, and the loops
    over pages of domain/reporting/transaction-report-generator.ts. The table is read as it
    stands: it does not change between pages. The collation of texts is the server's, an
    argument; the token of a cursor is the codec of its boundary row, an argument. *)

From Stdlib Require Import QArith.QArith Sorting.Sorted.
From S2P Require Import Prelude Errors Transfer SendMoney AuditTrail Sorting.
#[local] Open Scope Z_scope.

(** ** Rows, columns and criteria *)

Record Item (num : Type) : Type := mkItem { item_id : Z; item_correlationId : jsstr; item_row : Row num }.
Arguments mkItem {num}. Arguments item_id {num}. Arguments item_correlationId {num}. Arguments item_row {num}.

(** [FindTransactionsQuery.Order.Column], [Direction] and [Cursor.Position] *)
Inductive Column : Set := CorrelationId | TransactionStartAt | TransactionCompletedAt.
Inductive Direction : Set := Asc | Desc.
Inductive Position : Set := First | Last | Next | Prev.

(** A value of a sort column, by its [kind]. *)
Inductive Key : Set := KDate (t : Z) | KText (s : jsstr).

(** [sortMeta]: the column and whether it is nullable. *)
Definition sort_value {num} (column : Column) (x : Item num) : option Key :=
  match column with
  | CorrelationId => Some (KText (item_correlationId x))
  | TransactionStartAt => Some (KDate (transaction_started_at (item_row x)))
  | TransactionCompletedAt => KDate <$> transaction_completed_at (item_row x)
  end.
Definition nullable (column : Column) : bool := match column with TransactionCompletedAt => true | _ => false end.

(** [FindTransactionsQuery.Criteria]; of a sub-id, [Some None] asks for none. *)
Record Criteria : Set := mkCriteria {
  c_payerFspIs : option jsstr; c_payeeFspIs : option jsstr; c_payerIdType : option jsstr; c_payerId : option jsstr;
  c_payerSubId : option (option jsstr); c_payeeIdType : option jsstr; c_payeeId : option jsstr;
  c_payeeSubId : option (option jsstr); c_transferId : option jsstr; c_payerHome : option jsstr;
  c_payeeHome : option jsstr; c_flow : option Z; c_transferType : option jsstr; c_subScenario : option jsstr;
  c_startInclusive : option Z; c_endExclusive : option Z; c_isError : option bool; c_isDispute : option bool }.

Section criteria.
  Context {num : Type} (collate : jsstr -> jsstr -> comparison).
  Implicit Types (x y : Item num) (c : Criteria).

Definition same_text (a b : jsstr) : bool := match collate a b with Eq => true | _ => false end.
(** [column = :value] of a column that may be NULL, and [column IS NULL]. *)
Definition text_is (column : option jsstr) (value : jsstr) : bool :=
  match column with Some t => same_text t value | None => false end.
Definition when {A} (criterion : option A) (holds : A -> bool) : bool :=
  match criterion with Some v => holds v | None => true end.
Definition sub_is (column : option jsstr) (value : option jsstr) : bool :=
  match value with Some v => text_is column v | None => match column with None => true | Some _ => false end end.

(** [applyCriteria] and [applyDateRange]: the conjunction of the criteria given. *)
Definition applyCriteria c x : bool :=
  let r := item_row x in
  when (c_payerFspIs c) (same_text (payer_fsp r)) && when (c_payeeFspIs c) (same_text (payee_fsp r)) &&
  when (c_payerIdType c) (text_is (p_idType (row_payer r))) && when (c_payerId c) (text_is (p_id (row_payer r))) &&
  when (c_payerSubId c) (sub_is (p_subId (row_payer r))) &&
  when (c_payeeIdType c) (text_is (p_idType (row_payee r))) && when (c_payeeId c) (text_is (p_id (row_payee r))) &&
  when (c_payeeSubId c) (sub_is (p_subId (row_payee r))) &&
  when (c_transferId c) (same_text (item_correlationId x)) &&
  when (c_payerHome c) (text_is (payer_home_transaction_id r)) &&
  when (c_payeeHome c) (text_is (payee_home_transaction_id r)) &&
  when (c_flow c) (fun f => bool_decide (flow r = Some f)) &&
  when (c_transferType c) (text_is (k_transactionType (row_kind r))) &&
  when (c_subScenario c) (text_is (k_subScenario (row_kind r))) &&
  when (c_startInclusive c) (fun t => t <=? transaction_started_at r) &&
  when (c_endExclusive c) (fun t => transaction_started_at r <? t) &&
  when (c_isError c) (Bool.eqb (error r)) && when (c_isDispute c) (Bool.eqb (possible_dispute r)).
End criteria.

(** ** Orders *)

(** [<] of texts: by their code units. *)
Fixpoint compare_units (a b : jsstr) : comparison :=
  match a, b with
  | [], [] => Eq
  | [], _ => Lt
  | _, [] => Gt
  | x :: a, y :: b => match N.compare (code x) (code y) with Eq => compare_units a b | c => c end
  end.

(** Values of one column are of one kind. *)
Definition compare_key (texts : jsstr -> jsstr -> comparison) (a b : Key) : comparison :=
  match a, b with
  | KDate s, KDate t => Z.compare s t
  | KText s, KText t => texts s t
  | KDate _, KText _ => Lt
  | KText _, KDate _ => Gt
  end.

Definition directed (d : Direction) (c : comparison) : comparison := match d with Asc => c | Desc => CompOpp c end.

(** [compareValues]: NULLs first when ascending, last when descending. *)
Definition compareValues (texts : jsstr -> jsstr -> comparison) (d : Direction) (left right : option Key) : comparison :=
  match left, right with
  | None, None => Eq
  | None, Some _ => directed d Lt
  | Some _, None => directed d Gt
  | Some l, Some r => directed d (compare_key texts l r)
  end.

(** [compareId] *)
Definition compareId (d : Direction) (left right : Z) : comparison := directed d (Z.compare left right).

(** [compareForMerge]; with the server's collation, its [ORDER BY column, id]. *)
Definition compareForMerge {num} (texts : jsstr -> jsstr -> comparison) (column : Column) (d : Direction)
    (left right : Item num) : comparison :=
  match compareValues texts d (sort_value column left) (sort_value column right) with
  | Eq => compareId d (item_id left) (item_id right)
  | c => c
  end.

(** ** Cursors *)

(** [DecodedCursor] of a row *)
Record DecodedCursor : Set := mkDecodedCursor { v : option Key; cursor_id : Z }.
Definition cursor_of {num} (column : Column) (x : Item num) : DecodedCursor :=
  mkDecodedCursor (sort_value column x) (item_id x).

Section queries.
  Context {num : Type} (collate : jsstr -> jsstr -> comparison) (column : Column).
  Implicit Types (x y : Item num) (table l : list (Item num)) (c : Criteria).

(** The comparison [col < value] of the server, false on NULL. *)
Definition col_cmp x (value : Key) (wanted : comparison) : bool :=
  match sort_value column x with
  | Some k => bool_decide (compare_key collate k value = wanted)
  | None => false
  end.
Definition col_null x : bool := match sort_value column x with None => true | Some _ => false end.

(** [keysetWhere] *)
Definition keysetWhere (effectiveDir : Direction) (cursor : DecodedCursor) x : bool :=
  match effectiveDir, v cursor with
  | Desc, None => col_null x && (item_id x <? cursor_id cursor)
  | Desc, Some cv =>
      let core := col_cmp x cv Lt || (col_cmp x cv Eq && (item_id x <? cursor_id cursor)) in
      if nullable column then core || col_null x else core
  | Asc, None => negb (col_null x) || (col_null x && (cursor_id cursor <? item_id x))
  | Asc, Some cv => col_cmp x cv Gt || (col_cmp x cv Eq && (cursor_id cursor <? item_id x))
  end.

(** A leg: the participant column a query is scoped to, and the participant. *)
Inductive Leg : Set := PayerLeg | PayeeLeg.
Definition in_leg (leg : Leg) (fspId : jsstr) x : bool :=
  same_text collate (match leg with PayerLeg => payer_fsp (item_row x) | PayeeLeg => payee_fsp (item_row x) end) fspId.

(** [fetchLeg] and [fetchReportLeg], which select other columns. *)
Definition fetchLeg table c (effectiveDir : Direction) (decoded : option DecodedCursor) (fetchLimit : nat)
    (leg : option (Leg * jsstr)) : list (Item num) :=
  take fetchLimit (sort (compareForMerge collate column effectiveDir)
    (List.filter (fun x => applyCriteria collate c x &&
                           match leg with Some (which, fspId) => in_leg which fspId x | None => true end &&
                           match decoded with Some cursor => keysetWhere effectiveDir cursor x | None => true end)
       table)).

(** [mergeLegs]: the Map keeps the first of each id, in order of insertion. *)
Definition byId (payerLeg payeeLeg : list (Item num)) : list (Item num) :=
  payerLeg ++ List.filter (fun x => negb (existsb (fun y => item_id y =? item_id x) payerLeg)) payeeLeg.
Definition mergeLegs (payerLeg payeeLeg : list (Item num)) (effectiveDir : Direction) (limit : nat) : list (Item num) :=
  take limit (sort (compareForMerge compare_units column effectiveDir) (byId payerLeg payeeLeg)).

(** The rows of a page and the one after it, of the whole table or of a participant. *)
Definition fetch table c (effectiveDir : Direction) (decoded : option DecodedCursor) (fetchLimit : nat)
    (accessScope : option jsstr) : list (Item num) :=
  match accessScope with
  | Some fspId => mergeLegs (fetchLeg table c effectiveDir decoded fetchLimit (Some (PayerLeg, fspId)))
                    (fetchLeg table c effectiveDir decoded fetchLimit (Some (PayeeLeg, fspId))) effectiveDir fetchLimit
  | None => fetchLeg table c effectiveDir decoded fetchLimit None
  end.

(** A page size is a number: [None] is NaN or an infinity. *)
Definition DEFAULT_SIZE : Z := 20.
Definition MAX_SIZE : Z := 200.
Definition trunc (q : Q) : Z := Z.quot (Qnum q) (Zpos (Qden q)).
Definition clampSize (size : option Q) : Z :=
  match size with
  | Some q => if Qle_bool q 0 then DEFAULT_SIZE else Z.min (trunc q) MAX_SIZE
  | None => DEFAULT_SIZE
  end.

Record PageInfo : Set := mkPageInfo {
  hasNext : bool; hasPrev : bool; startCursor : option DecodedCursor; endCursor : option DecodedCursor }.

Definition buildPageInfo (position : Position) (hasMore : bool) (page : list (Item num)) : PageInfo :=
  let '(hasNext, hasPrev) := match position with
                             | Next => (hasMore, true)
                             | Prev => (true, hasMore)
                             | Last => (false, hasMore)
                             | First => (hasMore, false)
                             end in
  mkPageInfo hasNext hasPrev (cursor_of column <$> head page) (cursor_of column <$> last page).

(** [find]; [token] is the decoded token of a Next or Prev, which the others ignore. *)
Definition find table c (position : Position) (token : option DecodedCursor) (size : option Q) (direction : Direction)
    (accessScope : option jsstr) : list (Item num) * PageInfo :=
  let size := Z.to_nat (clampSize size) in
  let reverse := match position with Prev | Last => true | _ => false end in
  let effectiveDir := if reverse then match direction with Desc => Asc | Asc => Desc end else direction in
  let decoded := match position with Next | Prev => token | _ => None end in
  let rows := fetch table c effectiveDir decoded (Datatypes.S size) accessScope in
  let hasMore := (size <? length rows)%nat in
  let page := if hasMore then take size rows else rows in
  let page := if reverse then rev page else page in
  (page, buildPageInfo position hasMore page).

(** [findForReport]: the page and the cursor of the next. *)
Definition findForReport table c (direction : Direction) (cursor : option DecodedCursor) (limit : Z)
    (accessScope : option jsstr) : list (Item num) * option DecodedCursor :=
  let fetchLimit := Datatypes.S (Z.to_nat (Z.max 1 limit)) in
  let rows := fetch table c direction cursor fetchLimit accessScope in
  let hasMore := (fetchLimit <=? length rows)%nat in
  let page := if hasMore then take (fetchLimit - 1) rows else rows in
  (page, if hasMore then cursor_of column <$> last page else None).

(** [count] and [countForReport]: the probe reads one row past the limit of each leg, and a
    UNION drops duplicates. *)
Definition count table c (maxLimit : nat) (accessScope : option jsstr) : nat * bool :=
  let probe leg := take (Datatypes.S maxLimit)
    (List.filter (fun x => applyCriteria collate c x &&
       match leg with Some (which, fspId) => in_leg which fspId x | None => true end) table) in
  let matched := match accessScope with
                 | Some fspId => length (byId (probe (Some (PayerLeg, fspId))) (probe (Some (PayeeLeg, fspId))))
                 | None => length (probe None)
                 end in
  (Nat.min matched maxLimit, (maxLimit <? matched)%nat).

(** ** Reading all pages *)

(** A client that asks for the first page and follows [endCursor] while [hasNext]; [None]
    is one that has not ended within the fuel. *)
Fixpoint follow table c (size : option Q) (direction : Direction) (accessScope : option jsstr) (fuel : nat)
    (position : Position) (token : option DecodedCursor) : option (list (list (Item num))) :=
  match fuel with
  | O => None
  | Datatypes.S fuel =>
      let '(page, info) := find table c position token size direction accessScope in
      if hasNext info
      then cons page <$> follow table c size direction accessScope fuel Next (endCursor info)
      else Some [page]
  end.

(** The same backwards, from the last page. *)
Fixpoint follow_back table c (size : option Q) (direction : Direction) (accessScope : option jsstr) (fuel : nat)
    (position : Position) (token : option DecodedCursor) : option (list (list (Item num))) :=
  match fuel with
  | O => None
  | Datatypes.S fuel =>
      let '(page, info) := find table c position token size direction accessScope in
      if hasPrev info
      then (fun pages => pages ++ [page]) <$> follow_back table c size direction accessScope fuel Prev (startCursor info)
      else Some [page]
  end.
End queries.

(** ** Reference: the listing *)

(** What the collation of a server is: a total preorder of texts. *)
Class Collation (collate : jsstr -> jsstr -> comparison) : Prop := {
  collate_opp : forall a b, collate b a = CompOpp (collate a b);
  collate_lt_trans : forall a b c, collate a b = Lt -> collate b c = Lt -> collate a c = Lt;
  collate_eq_subst : forall a b c, collate a b = Eq -> collate a c = collate b c }.

Section reference.
  Context {num : Type} (collate : jsstr -> jsstr -> comparison) (column : Column).
  Implicit Types (x y r : Item num) (table l s : list (Item num)) (c : Criteria).

Definition in_scope (accessScope : option jsstr) x : bool :=
  match accessScope with
  | Some fspId => in_leg collate PayerLeg fspId x || in_leg collate PayeeLeg fspId x
  | None => true
  end.

(** The transactions a query is about, and those in its order. *)
Definition matching table c (accessScope : option jsstr) : list (Item num) :=
  List.filter (fun x => applyCriteria collate c x && in_scope accessScope x) table.
Definition listing table c (direction : Direction) (accessScope : option jsstr) : list (Item num) :=
  sort (compareForMerge collate column direction) (matching table c accessScope).

Definition unique_ids table : Prop := List.NoDup (map item_id table).

(** The rows after a cursor; all without one. *)
Definition beyond (d : Direction) (r : option (Item num)) l : list (Item num) :=
  match r with Some r => List.filter (ltb (compareForMerge collate column d) r) l | None => l end.

(** A cursor into a list: none is its front, the cursor of a row is what follows the row. *)
Definition at_ (l : list (Item num)) (k : nat) (token : option DecodedCursor) : Prop :=
  k = 0%nat /\ token = None \/
  exists r i, k = Datatypes.S i /\ l !! i = Some r /\ token = Some (cursor_of column r).

(** The comparison of the merge is that of the server on the sort column. *)
Definition merge_agrees : Prop := column = CorrelationId -> forall a b, collate a b = compare_units a b.
End reference.

Definition flip_direction (d : Direction) : Direction := match d with Asc => Desc | Desc => Asc end.

(** ** Examples *)

(** The collation of the schema ignores case. *)
Definition ignore_case (a b : jsstr) : comparison := compare_units (toLowerCase a) (toLowerCase b).

Definition example_item (id : Z) (correlation payer payee : string) (started : Z) (completed : option Z) : Item jsstr :=
  mkItem id (js correlation)
    (mkRow (js payer) (js payee) no_participant no_participant no_kind no_amounts started completed false false None
       no_phase no_phase no_phase no_patch None None None started started).
Definition no_criteria : Criteria :=
  mkCriteria None None None None None None None None None None None None None None None None None None.
Definition mixed_case_table : list (Item jsstr) :=
  [example_item 1 "a1" "dfsp" "other" 10 None; example_item 2 "B1" "other" "dfsp" 20 (Some 25);
   example_item 3 "c1" "dfsp" "dfsp" 30 None].

(** ** Orders are orders *)

Lemma compare_units_collation : Collation compare_units.
Proof.
  split.
  - intros a. induction a as [|x a IH]; intros [|y b]; cbn; try done. rewrite N.compare_antisym.
    by destruct (N.compare (code x) (code y)) eqn:Hc; cbn.
  - intros a. induction a as [|x a IH]; intros [|y b] [|z c]; cbn; try done.
    destruct (N.compare (code x) (code y)) eqn:H1; try done; destruct (N.compare (code y) (code z)) eqn:H2; try done;
      rewrite ?N.compare_eq_iff, ?N.compare_lt_iff in *.
    + rewrite H1, H2, N.compare_refl. apply IH.
    + rewrite H1. by apply N.compare_lt_iff in H2 as ->.
    + rewrite <- H2. by apply N.compare_lt_iff in H1 as ->.
    + assert (Hlt : (code x < code z)%N) by lia. by apply N.compare_lt_iff in Hlt as ->.
  - intros a. induction a as [|x a IH]; intros [|y b] c; cbn; try done.
    destruct (N.compare (code x) (code y)) eqn:H1; try done. apply N.compare_eq_iff in H1. intros He.
    destruct c as [|z c]; [done|]. rewrite H1. destruct (N.compare (code y) (code z)); try done. by apply IH.
Qed.

Section orders.
  Context (texts : jsstr -> jsstr -> comparison) `{!Collation texts}.

Lemma compare_key_opp a b : compare_key texts b a = CompOpp (compare_key texts a b).
Proof. destruct a, b; cbn; try done; [apply Z.compare_antisym|apply collate_opp]. Qed.
Lemma compare_key_eq a b k : compare_key texts a b = Eq -> compare_key texts a k = compare_key texts b k.
Proof.
  destruct a, b; cbn; try done; [intros ->%Z.compare_eq; done|]. destruct k; [done|]. apply collate_eq_subst.
Qed.
Lemma compare_key_trans a b k : compare_key texts a b = Lt -> compare_key texts b k = Lt -> compare_key texts a k = Lt.
Proof.
  destruct a, b, k; cbn; try done; [rewrite !Z.compare_lt_iff; lia|apply collate_lt_trans].
Qed.

Lemma directed_opp d c : directed d (CompOpp c) = CompOpp (directed d c).
Proof. by destruct d, c. Qed.

Lemma compareValues_opp d a b : compareValues texts d b a = CompOpp (compareValues texts d a b).
Proof. destruct a as [a|], b as [b|]; cbn; [by rewrite (compare_key_opp a b), directed_opp|by destruct d..|done]. Qed.
Lemma compareValues_eq d a b k :
  compareValues texts d a b = Eq -> compareValues texts d a k = compareValues texts d b k.
Proof.
  destruct a as [a|], b as [b|]; cbn; try done; try by destruct d.
  intros He. assert (compare_key texts a b = Eq) as Hk by (destruct d, (compare_key texts a b); done).
  destruct k; [|done]. by rewrite (compare_key_eq _ _ _ Hk).
Qed.
Lemma compareValues_trans d a b k :
  compareValues texts d a b = Lt -> compareValues texts d b k = Lt -> compareValues texts d a k = Lt.
Proof.
  destruct a as [a|], b as [b|], k as [k|]; cbn; try done; try by destruct d.
  destruct d; cbn; [apply compare_key_trans|].
  rewrite <- (compare_key_opp a b), <- (compare_key_opp b k), <- (compare_key_opp a k). intros.
  by apply (compare_key_trans k b a).
Qed.

#[export] Instance merge_ordering {num} column d : Ordering (compareForMerge (num := num) texts column d).
Proof.
  unfold compareForMerge, compareId. split.
  - intros x y. rewrite compareValues_opp. destruct (compareValues _ _ _ _); cbn; try done.
    by rewrite Z.compare_antisym, directed_opp.
  - intros x y z. destruct (compareValues texts d (sort_value column x) (sort_value column y)) eqn:H1; try done;
      destruct (compareValues texts d (sort_value column y) (sort_value column z)) eqn:H2; try done.
    + rewrite (compareValues_eq _ _ _ _ H1), H2.
      destruct d; cbn; rewrite <- ?Z.compare_antisym, !Z.compare_lt_iff; lia.
    + by rewrite (compareValues_eq _ _ _ _ H1), H2.
    + intros _ _. rewrite compareValues_opp in H2. apply (f_equal CompOpp) in H2.
      rewrite CompOpp_involutive in H2. cbn in H2.
      rewrite (compareValues_opp d (sort_value column z)), (compareValues_eq _ _ _ _ H2), <- compareValues_opp, H1. done.
    + by rewrite (compareValues_trans _ _ _ _ H1 H2).
  - intros x y z. destruct (compareValues texts d (sort_value column x) (sort_value column y)) eqn:H1; try done.
    intros He. assert (Hid : item_id x = item_id y).
    { destruct (Z.compare (item_id x) (item_id y)) eqn:Hc; [by apply Z.compare_eq|by destruct d..]. }
    by rewrite (compareValues_eq _ _ _ _ H1), Hid.
Qed.

Lemma merge_flip {num} column d (x y : Item num) :
  compareForMerge texts column (flip_direction d) x y = compareForMerge texts column d y x.
Proof.
  unfold compareForMerge, compareId.
  assert (Hv : forall a b, compareValues texts (flip_direction d) a b = compareValues texts d b a).
  { intros [a|] [b|]; cbn; try by destruct d. rewrite (compare_key_opp b a). by destruct d, (compare_key texts b a). }
  rewrite Hv, (Z.compare_antisym (item_id y)). by destruct (compareValues _ _ _ _), d, (Z.compare (item_id y) (item_id x)).
Qed.
End orders.

(** ** A query is the front of the listing *)

Lemma filter_and {A} (p q : A -> bool) l : List.filter p (List.filter q l) = List.filter (fun x => q x && p x) l.
Proof. induction l as [|x l IH]; cbn; [done|]. destruct (q x); cbn; [destruct (p x)|]; by rewrite ?IH. Qed.
Lemma filter_ext_all {A} (p q : A -> bool) l : (forall x, p x = q x) -> List.filter p l = List.filter q l.
Proof. intros He. apply List.filter_ext. done. Qed.
Lemma sort_ext {A} (cmp cmp' : A -> A -> comparison) l : (forall x y, cmp x y = cmp' x y) -> sort cmp l = sort cmp' l.
Proof.
  intros He. induction l as [|x l IH]; [done|]. change (insert_by cmp x (sort cmp l) = insert_by cmp' x (sort cmp' l)).
  rewrite IH. generalize (sort cmp' l) as m. induction m as [|y m IHm]; cbn; [done|]. by rewrite He, IHm.
Qed.

Section fronts.
  Context {num : Type} (collate : jsstr -> jsstr -> comparison) `{!Collation collate} (column : Column).
  Implicit Types (x y r : Item num) (table l s : list (Item num)) (c : Criteria).
  Notation order := (compareForMerge (num := num) collate column).
  Notation beyond := (beyond collate column).
  Notation at_ := (at_ column).

(** The cursor predicate selects what the order puts after the row of the cursor. *)
Lemma keyset_after d r x : keysetWhere collate column d (cursor_of column r) x = ltb (order d) r x.
Proof.
  unfold keysetWhere, ltb, compareForMerge, compareId, cursor_of, col_cmp, col_null, compareValues. cbn [v cursor_id].
  destruct (sort_value column r) as [kr|] eqn:Hr, (sort_value column x) as [kx|] eqn:Hx.
  - rewrite (compare_key_opp collate kr kx).
    assert (Hn : (if nullable column then false else false) = false) by (by destruct (nullable column)).
    destruct d; cbn [directed]; destruct (compare_key collate kr kx); cbn; rewrite ?orb_false_r, ?Hn;
      try (by destruct (nullable column)); rewrite ?Z.ltb_compare, ?(Z.compare_antisym (item_id r) (item_id x));
      destruct (nullable column); by destruct (Z.compare (item_id r) (item_id x)).
  - destruct column; cbn in Hx; try done. by destruct d.
  - destruct column; cbn in Hr; try done. by destruct d.
  - destruct d; cbn; rewrite ?Z.ltb_compare, ?(Z.compare_antisym (item_id r) (item_id x));
      by destruct (Z.compare (item_id r) (item_id x)).
Qed.

Lemma matching_no_ties d table p : unique_ids table -> no_ties (order d) (List.filter p table).
Proof.
  intros Hu. split; [apply List.NoDup_filter; by apply (List.NoDup_map_inv item_id)|].
  intros x y Hx Hy He. apply filter_In in Hx as [Hx _], Hy as [Hy _].
  assert (Hid : item_id x = item_id y).
  { unfold compareForMerge, compareId in He. destruct (compareValues _ _ _ _); try done.
    destruct (Z.compare (item_id x) (item_id y)) eqn:Hc; [by apply Z.compare_eq|by destruct d..]. }
  clear He. induction table as [|z table IH]; [done|]. inversion Hu as [|? ? Hi Hu']; subst.
  destruct Hx as [->|Hx], Hy as [->|Hy]; [done|..|by apply IH].
  - destruct Hi. rewrite Hid. by apply in_map.
  - destruct Hi. rewrite <- Hid. by apply in_map.
Qed.

Ltac no_ties := first [apply _|rewrite ?filter_and; by apply matching_no_ties].

Lemma fetchLeg_front table c d (r : option (Item num)) n leg :
  unique_ids table ->
  fetchLeg collate column table c d (cursor_of column <$> r) n leg =
  take n (List.filter (fun x => match leg with Some (which, fspId) => in_leg collate which fspId x | None => true end)
    (beyond d r (sort (order d) (List.filter (applyCriteria collate c) table)))).
Proof.
  intros Hu. unfold fetchLeg. f_equal. destruct r as [r|]; cbn [beyond fmap option_fmap option_map].
  - rewrite <- !sort_filter by no_ties. f_equal. rewrite !filter_and.
    apply filter_ext_all. intros x. rewrite keyset_after. rewrite <- !andb_assoc. f_equal. apply andb_comm.
  - rewrite <- sort_filter by no_ties. f_equal. rewrite filter_and. apply filter_ext_all. intros x.
    by rewrite andb_true_r.
Qed.

Lemma beyond_filter d (r : option (Item num)) p l : beyond d r (List.filter p l) = List.filter p (beyond d r l).
Proof. destruct r as [r|]; [|done]. cbn. rewrite !filter_and. apply filter_ext_all. intros. apply andb_comm. Qed.

Lemma byId_spec table s s' a :
  unique_ids table -> (forall x, In x s -> In x table) -> (forall x, In x s' -> In x table) ->
  In a (byId s s') <-> In a s \/ In a s'.
Proof.
  intros Hu Hs Hs'. unfold byId. rewrite in_app_iff, filter_In. split; [tauto|]. intros [Ha|Ha]; [by left|].
  destruct (existsb (fun y => item_id y =? item_id a) s) eqn:He; [|by right].
  apply existsb_exists in He as (y & Hy & Hid). apply Z.eqb_eq in Hid. left.
  assert (y = a) as ->; [|done].
  pose proof (Hs _ Hy) as Hyt. pose proof (Hs' _ Ha) as Hat. clear Hs Hs'.
  induction table as [|z table IH]; [done|]. inversion Hu as [|? ? Hi Hu']; subst.
  destruct Hyt as [->|Hyt], Hat as [->|Hat]; [done|..|by apply IH].
  - destruct Hi. rewrite Hid. by apply in_map.
  - destruct Hi. rewrite <- Hid. by apply in_map.
Qed.

Lemma byId_nodup s s' : List.NoDup s -> List.NoDup s' -> List.NoDup (byId s s').
Proof.
  intros Hs Hs'. unfold byId. apply List.NoDup_app; [done|by apply List.NoDup_filter|].
  intros a Ha Hf. apply filter_In in Hf as [_ Hf]. apply negb_true_iff in Hf.
  assert (existsb (fun y => item_id y =? item_id a) s = true); [|congruence].
  apply existsb_exists. exists a. split; [done|apply Z.eqb_refl].
Qed.

Lemma merge_agrees_eq d x y :
  merge_agrees collate column -> compareForMerge compare_units column d x y = order d x y.
Proof.
  intros Ha. unfold compareForMerge, merge_agrees in *. destruct column; cbn [sort_value compareValues compare_key].
  - by rewrite Ha.
  - done.
  - by destruct (transaction_completed_at (item_row x)), (transaction_completed_at (item_row y)).
Qed.

(** Of the whole table or of a participant, a query returns the front of the listing after
    its cursor. *)
Lemma fetch_front table c d (r : option (Item num)) n accessScope :
  unique_ids table -> (accessScope <> None -> merge_agrees collate column) ->
  fetch collate column table c d (cursor_of column <$> r) n accessScope =
  take n (beyond d r (listing collate column table c d accessScope)).
Proof.
  intros Hu Ha. unfold fetch, listing, matching.
  set (all := List.filter (applyCriteria collate c) table).
  assert (Hl : forall scope, sort (order d) (List.filter (fun x => applyCriteria collate c x && in_scope collate scope x) table) =
                        List.filter (in_scope collate scope) (sort (order d) all)).
  { intros scope. unfold all. rewrite <- sort_filter by no_ties. by rewrite filter_and. }
  rewrite Hl, beyond_filter. set (s := beyond d r (sort (order d) all)).
  assert (Hs : StronglySorted (precedes (order d)) s).
  { unfold s, beyond. destruct r; [apply increasing_filter|]; apply sort_increasing; no_ties. }
  destruct accessScope as [fspId|].
  - unfold mergeLegs. rewrite !fetchLeg_front by done. fold all. fold s.
    rewrite (sort_ext _ (order d)).
    2:{ intros x y. apply merge_agrees_eq. by apply Ha. }
    assert (Hin : forall x, In x s -> In x table).
    { intros x. unfold s, beyond. destruct r; rewrite ?filter_In, sort_in; unfold all; rewrite filter_In; tauto. }
    pose proof (increasing_nodup _ _ Hs) as Hnd.
    assert (Hleg : forall leg x, In x (take n (List.filter (in_leg collate leg fspId) s)) -> In x s /\ in_leg collate leg fspId x = true).
    { intros leg x Hx. apply filter_In. rewrite <- (take_drop n (List.filter _ s)), in_app_iff. by left. }
    apply take_sort_sub.
    + apply _.
    + by apply increasing_filter.
    + apply byId_nodup; eapply List.NoDup_app_remove_r; rewrite take_drop; by apply List.NoDup_filter.
    + intros a Hb. apply (byId_spec table) in Hb; [|done|intros x [? _]%Hleg; auto..]. apply filter_In.
      cbn [in_scope]. rewrite orb_true_iff. destruct Hb as [[? ?]%Hleg|[? ?]%Hleg]; auto.
    + intros a Hb. apply (byId_spec table); [done|intros x [? _]%Hleg; auto..|].
      assert (Hp : in_scope collate (Some fspId) a = true).
      { apply (filter_In _ _ s). rewrite <- (take_drop n (List.filter _ s)), in_app_iff. by left. }
      assert (Hsub : forall leg, in_leg collate leg fspId a = true -> In a (take n (List.filter (in_leg collate leg fspId) s))).
      { intros leg Hla.
        assert (Hf : List.filter (in_leg collate leg fspId) s =
                     List.filter (in_leg collate leg fspId) (List.filter (in_scope collate (Some fspId)) s)).
        { rewrite filter_and. apply filter_ext_all. intros x. cbn [in_scope].
          by destruct leg, (in_leg collate PayerLeg fspId x), (in_leg collate PayeeLeg fspId x). }
        rewrite Hf. by apply take_filter. }
      cbn [in_scope] in Hp. apply orb_true_iff in Hp.
      destruct Hp as [Hp|Hp]; [left; by apply Hsub|right; by apply Hsub].
  - by rewrite fetchLeg_front by done.
Qed.

Lemma beyond_at d s i r :
  StronglySorted (precedes (order d)) s -> s !! i = Some r -> beyond d (Some r) s = drop (Datatypes.S i) s.
Proof. intros Hs Hi. cbn. apply filter_after; [apply _|done..]. Qed.

Lemma listing_sorted table c d accessScope :
  unique_ids table -> StronglySorted (precedes (order d)) (listing collate column table c d accessScope).
Proof. intros Hu. apply sort_increasing; no_ties. Qed.

Lemma listing_flip table c d accessScope :
  unique_ids table ->
  listing collate column table c (flip_direction d) accessScope = rev (listing collate column table c d accessScope).
Proof.
  intros Hu. unfold listing. apply sort_reverse; [apply _|intros; by apply merge_flip|no_ties].
Qed.

Lemma fetch_at table c d k token n accessScope :
  unique_ids table -> (accessScope <> None -> merge_agrees collate column) ->
  at_ (listing collate column table c d accessScope) k token ->
  fetch collate column table c d token n accessScope =
  take n (drop k (listing collate column table c d accessScope)).
Proof.
  intros Hu Ha [[-> ->]|(r & i & -> & Hi & ->)].
  - apply (fetch_front table c d None n accessScope Hu Ha).
  - etransitivity; [apply (fetch_front table c d (Some r) n accessScope Hu Ha)|].
    by rewrite (beyond_at _ _ _ _ (listing_sorted table c d accessScope Hu) Hi).
Qed.

Lemma cut_page {A} n (t : list A) :
  (if (n <? length (take (Datatypes.S n) t))%nat then take n (take (Datatypes.S n) t) else take (Datatypes.S n) t) = take n t.
Proof.
  rewrite length_take, take_take. destruct (Nat.ltb_spec n (Nat.min (Datatypes.S n) (length t))).
  - by rewrite Nat.min_l by lia.
  - rewrite !take_ge by lia. done.
Qed.
Lemma more_rows {A} n (t : list A) : (n <? length (take (Datatypes.S n) t))%nat = (n <? length t)%nat.
Proof. rewrite length_take. destruct (Nat.ltb_spec n (length t)), (Nat.ltb_spec n (Nat.min (Datatypes.S n) (length t))); lia || done. Qed.

(** The row a full page ends with leads to the next page. *)
Lemma at_next l k n :
  (0 < n)%nat -> (n < length (drop k l))%nat ->
  at_ l (k + n) (cursor_of column <$> last (take n (drop k l))).
Proof.
  intros Hn Hl. rewrite length_drop in Hl. right.
  destruct (lookup_lt_is_Some_2 l (k + (n - 1))) as [r Hr]; [lia|].
  exists r, (k + (n - 1))%nat. split; [lia|]. split; [done|].
  rewrite last_lookup, length_take, length_drop, Nat.min_l by lia.
  replace (Init.Nat.pred n) with (n - 1)%nat by lia.
  rewrite lookup_take_lt by lia. rewrite lookup_drop. by rewrite Hr.
Qed.
End fronts.

(** ** Pages *)

Section walks.
  Context {num : Type} (collate : jsstr -> jsstr -> comparison) `{!Collation collate} (column : Column).
  Context (table : list (Item num)) (c : Criteria) (size : option Q) (direction : Direction) (accessScope : option jsstr).
  Hypothesis ids : unique_ids table.
  Hypothesis agrees : accessScope <> None -> merge_agrees collate column.
  Notation find := (find collate column table c).
  Notation all := (listing collate column table c direction accessScope).
  Notation n := (Z.to_nat (clampSize size)).

Lemma find_forward position k token :
  position = First /\ k = 0%nat \/ position = Next /\ at_ column all k token ->
  find position token size direction accessScope =
  (take n (drop k all), mkPageInfo (n <? length (drop k all))%nat (match position with First => false | _ => true end)
     (cursor_of column <$> head (take n (drop k all))) (cursor_of column <$> last (take n (drop k all)))).
Proof.
  intros Hp. unfold Pages.find.
  assert (Hf : fetch collate column table c direction (match position with Next | Prev => token | _ => None end)
                 (Datatypes.S n) accessScope = take (Datatypes.S n) (drop k all)).
  { apply fetch_at; [done..|]. destruct Hp as [[-> ->]|[-> Hp]]; [by left|done]. }
  destruct Hp as [[-> ->]|[-> Hp]]; rewrite Hf, cut_page, more_rows; done.
Qed.

Lemma find_backward position k token :
  position = Last /\ k = 0%nat \/ position = Prev /\ at_ column (rev all) k token ->
  find position token size direction accessScope =
  (rev (take n (drop k (rev all))),
   mkPageInfo (match position with Last => false | _ => true end) (n <? length (drop k (rev all)))%nat
     (cursor_of column <$> head (rev (take n (drop k (rev all)))))
     (cursor_of column <$> last (rev (take n (drop k (rev all)))))).
Proof.
  intros Hp. unfold Pages.find. rewrite <- (listing_flip _ _ _ _ direction) in * by done.
  assert (Hf : fetch collate column table c (flip_direction direction) (match position with Next | Prev => token | _ => None end)
                 (Datatypes.S n) accessScope =
               take (Datatypes.S n) (drop k (listing collate column table c (flip_direction direction) accessScope))).
  { apply fetch_at; [done..|]. destruct Hp as [[-> ->]|[-> Hp]]; [by left|done]. }
  unfold flip_direction in *. destruct Hp as [[-> ->]|[-> Hp]]; rewrite Hf, cut_page, more_rows; done.
Qed.

Lemma follow_all fuel position k token :
  (1 <= n)%nat -> position = First /\ k = 0%nat \/ position = Next /\ at_ column all k token ->
  (length (drop k all) < fuel)%nat ->
  exists pages, follow collate column table c size direction accessScope fuel position token = Some pages /\
    concat pages = drop k all /\ Forall (fun p => (length p <= n)%nat) pages /\
    Forall (fun p => length p = n) (removelast pages).
Proof.
  intros Hn. revert position k token. induction fuel as [|fuel IH]; intros position k token Hp Hf; [lia|].
  cbn [follow]. rewrite (find_forward _ k _ Hp). cbn [hasNext endCursor].
  destruct (Nat.ltb_spec n (length (drop k all))) as [Hlt|Hge].
  - destruct (IH Next (k + n)%nat (cursor_of column <$> last (take n (drop k all)))) as (pages & Hw & Hc & Hl & Hr).
    + right. split; [done|]. by apply at_next.
    + rewrite !length_drop in *. lia.
    + rewrite Hw. cbn [fmap option_fmap option_map]. eexists. split; [done|]. cbn [concat].
      split; [rewrite Hc, <- drop_drop; apply take_drop|].
      split; [constructor; [rewrite length_take; lia|done]|].
      destruct pages as [|p pages]; [by constructor|]. cbn [removelast]. constructor; [|done].
      rewrite length_take. lia.
  - eexists. split; [done|]. cbn. rewrite app_nil_r, take_ge by lia. repeat constructor. lia.
Qed.

Lemma follow_back_all fuel position k token :
  (1 <= n)%nat -> position = Last /\ k = 0%nat \/ position = Prev /\ at_ column (rev all) k token ->
  (length (drop k (rev all)) < fuel)%nat ->
  exists pages, follow_back collate column table c size direction accessScope fuel position token = Some pages /\
    concat pages = rev (drop k (rev all)) /\ Forall (fun p => (length p <= n)%nat) pages.
Proof.
  intros Hn. revert position k token. induction fuel as [|fuel IH]; intros position k token Hp Hf; [lia|].
  cbn [follow_back]. rewrite (find_backward _ k _ Hp). cbn [hasPrev startCursor].
  destruct (Nat.ltb_spec n (length (drop k (rev all)))) as [Hlt|Hge].
  - destruct (IH Prev (k + n)%nat (cursor_of column <$> last (take n (drop k (rev all))))) as (pages & Hw & Hc & Hl).
    + right. split; [done|]. by apply at_next.
    + rewrite !length_drop in *. lia.
    + assert (Hh : forall l : list (Item num), head (rev l) = last l).
      { intros l. destruct l as [|x l _] using rev_ind; [done|]. rewrite rev_app_distr. cbn. by rewrite last_snoc. }
      rewrite Hh, Hw. cbn [fmap option_fmap option_map]. eexists. split; [done|].
      split; [|apply Forall_app; split; [done|]; repeat constructor; rewrite length_rev, length_take; lia].
      rewrite concat_app, Hc. cbn [concat]. rewrite app_nil_r, <- rev_app_distr, <- drop_drop. f_equal. apply take_drop.
  - eexists. split; [done|]. cbn. rewrite app_nil_r, take_ge by lia. split; [done|]. repeat constructor.
    rewrite length_rev. lia.
Qed.
End walks.

(** ** The queries *)

Section results.
  Context {num : Type} (collate : jsstr -> jsstr -> comparison) `{!Collation collate} (column : Column).
  Implicit Types (table : list (Item num)).

(** C20. Following the next page from the first ends within one request more than there are
    transactions, and the pages are the listing: every matching transaction once, in
    order, on full pages but the last. The table must not change meanwhile, and where a
    participant's transactions are sorted by id, the collation must be that of the code. *)
Theorem pages_forward table (c : Criteria) (size : option Q) (direction : Direction) (accessScope : option jsstr) :
  unique_ids table -> (accessScope <> None -> merge_agrees collate column) -> 1 <= clampSize size ->
  let all := listing collate column table c direction accessScope in
  exists pages, follow collate column table c size direction accessScope (Datatypes.S (length all)) First None = Some pages /\
    concat pages = all /\
    Forall (fun page => (length page <= Z.to_nat (clampSize size))%nat) pages /\
    Forall (fun page => length page = Z.to_nat (clampSize size)) (removelast pages).
Proof.
  intros Hu Ha Hs. cbv zeta.
  apply (follow_all collate column table c size direction accessScope Hu Ha _ First 0 None); [lia|by left|].
  rewrite drop_0. lia.
Qed.

(** Following the previous page from the last ends as well and gives the same listing. *)
Theorem pages_backward table (c : Criteria) (size : option Q) (direction : Direction) (accessScope : option jsstr) :
  unique_ids table -> (accessScope <> None -> merge_agrees collate column) -> 1 <= clampSize size ->
  let all := listing collate column table c direction accessScope in
  exists pages, follow_back collate column table c size direction accessScope (Datatypes.S (length all)) Last None = Some pages /\
    concat pages = all /\ Forall (fun page => (length page <= Z.to_nat (clampSize size))%nat) pages.
Proof.
  intros Hu Ha Hs. cbv zeta.
  destruct (follow_back_all collate column table c size direction accessScope Hu Ha
              (Datatypes.S (length (listing collate column table c direction accessScope))) Last 0 None)
    as (pages & Hw & Hc & Hl); [lia|by left|rewrite drop_0, length_rev; lia|].
  exists pages. split; [done|]. split; [|done]. by rewrite Hc, drop_0, rev_involutive.
Qed.

(** The two legs of a participant, merged, are the front of the one ordered query for
    its transactions: a transaction between two accounts of the participant counts once. *)
Theorem merged_legs table (c : Criteria) (d : Direction) (r : option (Item num)) (n : nat) (fspId : jsstr) :
  unique_ids table -> merge_agrees collate column ->
  let cursor := cursor_of column <$> r in
  mergeLegs column (fetchLeg collate column table c d cursor n (Some (PayerLeg, fspId)))
    (fetchLeg collate column table c d cursor n (Some (PayeeLeg, fspId))) d n =
  take n (beyond collate column d r (listing collate column table c d (Some fspId))).
Proof. intros Hu Ha. exact (fetch_front collate column table c d r n (Some fspId) Hu (fun _ => Ha)). Qed.

(** Bounds of a page: a size that is no positive number is 20, another is cut to an
    integer of at most 200; only a fraction below 1 gives an empty page. *)
Theorem clampSize_bounds (size : option Q) :
  0 <= clampSize size <= 200 /\
  (clampSize size = 0 <-> exists q, size = Some q /\ (0 < q /\ q < 1)%Q) /\
  (forall z, 1 <= z -> clampSize (Some (inject_Z z)) = Z.min z 200).
Proof.
  unfold clampSize, DEFAULT_SIZE, MAX_SIZE, trunc. split; [|split].
  - destruct size as [[a b]|]; [|lia]. destruct (Qle_bool _ _) eqn:Hq; [lia|].
    assert (Ha : 0 < a).
    { destruct (Z.lt_ge_cases 0 a); [done|]. assert (Qle_bool (a # b) 0 = true); [|congruence].
      apply Qle_bool_iff. unfold Qle. cbn. lia. }
    cbn [Qnum Qden]. pose proof (Z.quot_pos a (Z.pos b)). lia.
  - destruct size as [[a b]|]; [|split; [lia|by intros (q & ? & _)]]. destruct (Qle_bool _ _) eqn:Hq.
    + split; [lia|]. intros (q & [= <-] & H0 & _). apply Qle_bool_iff in Hq. by apply Qle_not_lt in Hq.
    + assert (Ha : 0 < a).
      { destruct (Z.lt_ge_cases 0 a); [done|]. assert (Qle_bool (a # b) 0 = true); [|congruence].
        apply Qle_bool_iff. unfold Qle. cbn. lia. }
      cbn [Qnum Qden]. split.
      * intros Hz. exists (a # b)%Q. split; [done|]. unfold Qlt. cbn.
        assert (Z.quot a (Z.pos b) = 0) as Hquot by lia. apply Z.quot_small_iff in Hquot; [|done]. lia.
      * intros (q & [= <-] & _ & H1). unfold Qlt in H1. cbn in H1. rewrite Z.quot_small by lia. done.
  - intros z Hz. cbn [inject_Z Qnum Qden]. rewrite Z.quot_1_r.
    destruct (Qle_bool (inject_Z z) 0) eqn:Hq; [|done]. apply Qle_bool_iff in Hq. unfold Qle in Hq. cbn in Hq. lia.
Qed.

Lemma byId_length table (s s' : list (Item num)) :
  unique_ids table -> List.NoDup s -> List.NoDup s' -> (forall x, In x s -> In x table) -> (forall x, In x s' -> In x table) ->
  (length s <= length (byId s s'))%nat /\ (length s' <= length (byId s s'))%nat.
Proof.
  intros Hu Hs Hs' Hi Hi'. split; apply List.NoDup_incl_length; try done; intros x Hx;
    apply (byId_spec table); auto.
Qed.

Lemma matching_scope table c fspId x :
  In x (matching collate table c (Some fspId)) <->
  In x (List.filter (fun y => applyCriteria collate c y && in_leg collate PayerLeg fspId y) table) \/
  In x (List.filter (fun y => applyCriteria collate c y && in_leg collate PayeeLeg fspId y) table).
Proof.
  unfold matching. cbn [in_scope]. rewrite !filter_In, !andb_true_iff, orb_true_iff. tauto.
Qed.

Lemma in_take {A} k (l : list A) x : In x (take k l) -> In x l.
Proof. intros Hx. rewrite <- (take_drop k l), in_app_iff. by left. Qed.
Lemma nodup_take {A} k (l : list A) : List.NoDup l -> List.NoDup (take k l).
Proof. intros Hl. apply (List.NoDup_app_remove_r _ (drop k l)). by rewrite take_drop. Qed.

(** Probing both legs up to a limit measures their union up to the limit. *)
Lemma probe_union table (a b m : list (Item num)) (k : nat) :
  unique_ids table -> List.NoDup a -> List.NoDup b -> List.NoDup m -> (forall x, In x m -> In x table) ->
  (forall x, In x a \/ In x b <-> In x m) ->
  Nat.min (length (byId (take k a) (take k b))) k = Nat.min (length m) k.
Proof.
  intros Hu Ha Hb Hm Ht Hab.
  assert (Hta : forall x, In x (take k a) -> In x table) by (intros x Hx%in_take; apply Ht, Hab; by left).
  assert (Htb : forall x, In x (take k b) -> In x table) by (intros x Hx%in_take; apply Ht, Hab; by right).
  assert (Hin : forall x, In x (byId (take k a) (take k b)) <-> In x (take k a) \/ In x (take k b)) by (intros; by apply (byId_spec table)).
  destruct (byId_length table (take k a) (take k b)) as [Hla Hlb]; auto using nodup_take.
  rewrite length_take in Hla, Hlb.
  assert (Hle : (length (byId (take k a) (take k b)) <= length m)%nat).
  { apply List.NoDup_incl_length; [by apply byId_nodup; apply nodup_take|]. intros x Hx. apply Hab.
    apply Hin in Hx as [Hx%in_take|Hx%in_take]; auto. }
  destruct (decide (length a <= k /\ length b <= k)%nat) as [[HlA HlB]|Hbig]; [|lia].
  assert ((length m <= length (byId (take k a) (take k b)))%nat); [|lia].
  apply List.NoDup_incl_length; [done|]. intros x Hx. apply Hin. rewrite !take_ge by lia. by apply Hab.
Qed.

(** The capped count is the number of matching transactions, cut at the limit, with
    whether it was cut; the transactions of a participant on both sides count once. *)
Theorem count_capped table (c : Criteria) (maxLimit : nat) (accessScope : option jsstr) :
  unique_ids table ->
  count collate table c maxLimit accessScope =
  (Nat.min (length (matching collate table c accessScope)) maxLimit,
   (maxLimit <? length (matching collate table c accessScope))%nat).
Proof.
  intros Hu. unfold count. set (m := length (matching collate table c accessScope)).
  assert (Hgen : forall k, Nat.min k (Datatypes.S maxLimit) = Nat.min m (Datatypes.S maxLimit) ->
    (Nat.min k maxLimit, (maxLimit <? k)%nat) = (Nat.min m maxLimit, (maxLimit <? m)%nat)).
  { intros k Hk. f_equal; [lia|]. destruct (Nat.ltb_spec maxLimit k), (Nat.ltb_spec maxLimit m); lia || done. }
  apply Hgen. destruct accessScope as [fspId|].
  - assert (Hnd : List.NoDup table) by (by apply (List.NoDup_map_inv item_id)).
    apply (probe_union table); try (by apply List.NoDup_filter); [done| |].
    + intros x Hx. by apply filter_In in Hx as [? _].
    + intros x. symmetry. apply matching_scope.
  - rewrite length_take. fold (matching collate table c None). unfold m, matching. cbn [in_scope]. lia.
Qed.
End results.

(** ** Examples and witnesses *)

Lemma ignore_case_collation : Collation ignore_case.
Proof.
  pose proof compare_units_collation. unfold ignore_case. split; intros.
  - apply (collate_opp (collate := compare_units)).
  - by apply (collate_lt_trans (collate := compare_units) _ (toLowerCase b)).
  - by apply (collate_eq_subst (collate := compare_units)).
Qed.

(** The merge of a participant's legs compares ids by code units where the server's
    collation ignores case: paging through them by id can skip a transaction. *)
Theorem mixed_case_id_skipped :
  let scope := Some (js "dfsp") in
  Collation ignore_case /\
  map item_id (listing ignore_case CorrelationId mixed_case_table no_criteria Asc scope) = [1; 2; 3] /\
  map item_id <$> (@concat _ <$> follow ignore_case CorrelationId mixed_case_table no_criteria (Some (inject_Z 1)) Asc scope 4 First None)
  = Some [2; 3].
Proof. split; [apply ignore_case_collation|]. split; vm_compute; reflexivity. Qed.

Lemma pages_forward_witness :
  let scope := Some (js "dfsp") in
  let all := listing ignore_case TransactionCompletedAt mixed_case_table no_criteria Desc scope in
  map item_id all = [2; 3; 1] /\
  exists pages, follow ignore_case TransactionCompletedAt mixed_case_table no_criteria (Some (inject_Z 2)) Desc scope
      (Datatypes.S (length all)) First None = Some pages /\ concat pages = all /\
    Forall (fun page => (length page <= Z.to_nat (clampSize (Some (inject_Z 2))))%nat) pages /\
    Forall (fun page => length page = Z.to_nat (clampSize (Some (inject_Z 2)))) (removelast pages).
Proof.
  cbv zeta. split; [vm_compute; reflexivity|].
  apply (pages_forward (num := jsstr) ignore_case (Collation0 := ignore_case_collation)).
  - unfold unique_ids. repeat constructor; cbn; intuition discriminate.
  - intros _. discriminate.
  - vm_compute. discriminate.
Defined.

Lemma pages_backward_witness :
  let all := listing ignore_case TransactionCompletedAt mixed_case_table no_criteria Asc None in
  exists pages, follow_back ignore_case TransactionCompletedAt mixed_case_table no_criteria (Some (inject_Z 2)) Asc None
      (Datatypes.S (length all)) Last None = Some pages /\ concat pages = all /\
    Forall (fun page => (length page <= Z.to_nat (clampSize (Some (inject_Z 2))))%nat) pages.
Proof.
  apply (pages_backward (num := jsstr) ignore_case (Collation0 := ignore_case_collation)).
  - unfold unique_ids. repeat constructor; cbn; intuition discriminate.
  - intros []. done.
  - vm_compute. discriminate.
Defined.

Lemma merged_legs_witness :
  let cursor := cursor_of TransactionStartAt <$> head mixed_case_table in
  mergeLegs TransactionStartAt
    (fetchLeg ignore_case TransactionStartAt mixed_case_table no_criteria Asc cursor 2 (Some (PayerLeg, js "dfsp")))
    (fetchLeg ignore_case TransactionStartAt mixed_case_table no_criteria Asc cursor 2 (Some (PayeeLeg, js "dfsp"))) Asc 2 =
  take 2 (beyond ignore_case TransactionStartAt Asc (head mixed_case_table)
            (listing ignore_case TransactionStartAt mixed_case_table no_criteria Asc (Some (js "dfsp")))).
Proof.
  apply (merged_legs (num := jsstr) ignore_case (Collation0 := ignore_case_collation) TransactionStartAt).
  - unfold unique_ids. repeat constructor; cbn; intuition discriminate.
  - discriminate.
Defined.

Lemma count_capped_witness :
  count ignore_case mixed_case_table no_criteria 2 (Some (js "dfsp")) = (2%nat, true).
Proof.
  rewrite (count_capped (num := jsstr) ignore_case); [vm_compute; reflexivity|].
  unfold unique_ids. repeat constructor; cbn; intuition discriminate.
Defined.
