(* ===== verification/ReportQueue.v ===== *)
(** * The queue of report downloads

    core/audit: the requests of [ReportDownloadRepository]
    (domain/repository/report-download.repository.ts) and the worker of
    [ReportDownloadProcessor] (domain/reporting/report-download-processor.ts). Every
    statement of the database is one atomic step; what other processes do between the
    statements of a worker is an argument. The generator, the storage and their failures
    are arguments. Signatures of parameters, timers and logging are not modelled. *)

From S2P Require Import Prelude.

(** ** Requests *)

Inductive ReportDownloadStatus : Set := Pending | Running | Ready | Failed.
#[global] Instance status_eq_dec : EqDecision ReportDownloadStatus.
Proof. solve_decision. Defined.

Record ReportDownloadRequest : Set := mkRequest {
  status : ReportDownloadStatus; fileType : jsstr; fileKey : option jsstr; errorMessage : option jsstr;
  requestedByUserId : option jsstr; requestedByFspId : option jsstr; finishedAt : option Z; createdAt : Z;
  updatedAt : Z }.

(** The table, by id. *)
Notation Requests := (gmap Z ReportDownloadRequest).

(** ** ReportDownloadRepository *)

Definition MAX_CLAIM_ATTEMPTS : nat := 10.
Definition MAX_ERROR_LENGTH : nat := 1000.
Definition trimError (message : jsstr) : jsstr :=
  if (MAX_ERROR_LENGTH <? length message)%nat then take MAX_ERROR_LENGTH message else message.

(** [createPending]; the id is the generator's. *)
Definition createPending (now id : Z) (fileType : jsstr) (userId fspId : option jsstr) (t : Requests) : Requests :=
  <[id := mkRequest Pending fileType None None userId fspId None now now]> t.

(** [UPDATE ... WHERE id = ? AND status = ?]: whether a row was affected. *)
Definition update_if (id : Z) (expected : ReportDownloadStatus)
    (set : ReportDownloadRequest -> ReportDownloadRequest) (t : Requests) : Requests * bool :=
  match t !! id with
  | Some r => if decide (status r = expected) then (<[id := set r]> t, true) else (t, false)
  | None => (t, false)
  end.

Definition set_running (now : Z) (r : ReportDownloadRequest) : ReportDownloadRequest :=
  mkRequest Running (fileType r) (fileKey r) (errorMessage r) (requestedByUserId r) (requestedByFspId r)
    (finishedAt r) (createdAt r) now.
Definition set_updated (now : Z) (r : ReportDownloadRequest) : ReportDownloadRequest :=
  mkRequest (status r) (fileType r) (fileKey r) (errorMessage r) (requestedByUserId r) (requestedByFspId r)
    (finishedAt r) (createdAt r) now.
Definition set_ready (now : Z) (key : jsstr) (r : ReportDownloadRequest) : ReportDownloadRequest :=
  mkRequest Ready (fileType r) (Some key) None (requestedByUserId r) (requestedByFspId r) (Some now) (createdAt r) now.
Definition set_failed (now : Z) (message : jsstr) (r : ReportDownloadRequest) : ReportDownloadRequest :=
  mkRequest Failed (fileType r) (fileKey r) (Some message) (requestedByUserId r) (requestedByFspId r) (Some now)
    (createdAt r) now.

Definition claim (now id : Z) (t : Requests) : Requests * bool := update_if id Pending (set_running now) t.
Definition touchRunning (now id : Z) (t : Requests) : Requests * bool := update_if id Running (set_updated now) t.
Definition markReady (now id : Z) (key : jsstr) (t : Requests) : Requests * bool := update_if id Running (set_ready now key) t.
Definition markFailed (now id : Z) (message : jsstr) (t : Requests) : Requests * bool :=
  update_if id Running (set_failed now (trimError message)) t.

Definition STALE_MESSAGE : jsstr := js "Auto-recovered stale RUNNING request after restart/error".
Definition is_stale (staleBefore : Z) (r : ReportDownloadRequest) : bool :=
  bool_decide (status r = Running) && (updatedAt r <? staleBefore).
(** [failStaleRunning]: one statement over all stale rows, and their number. *)
Definition failStaleRunning (now staleBefore : Z) (t : Requests) : Requests * nat :=
  ((fun r => if is_stale staleBefore r then set_failed now STALE_MESSAGE r else r) <$> t,
   size (filter (fun x : Z * ReportDownloadRequest => is_stale staleBefore (snd x) = true) t)).
(** [countFreshRunning] *)
Definition countFreshRunning (staleBefore : Z) (t : Requests) : nat :=
  size (filter (fun x : Z * ReportDownloadRequest =>
                  bool_decide (status (snd x) = Running) && negb (updatedAt (snd x) <? staleBefore) = true) t).

(** [findOne({status: Pending}, createdAt ASC)]: of requests made at one time the smallest id. *)
Definition oldest_pending (t : Requests) : option Z :=
  map_fold (fun id r best =>
    if decide (status r = Pending) then
      match best with
      | Some (at_, i) => if (createdAt r <? at_) || ((createdAt r =? at_) && (id <? i)) then Some (createdAt r, id) else best
      | None => Some (createdAt r, id)
      end
    else best) None t ≫= fun x => Some (snd x).

(** [claimNextPending]: [meanwhile k] is what others do between the read and the update of
    the attempt with [k] attempts left. *)
Fixpoint claimLoop (attempts : nat) (now : Z) (meanwhile : nat -> Requests -> Requests) (t : Requests)
    : Requests * option Z :=
  match attempts with
  | O => (t, None)
  | S attempts =>
      match oldest_pending t with
      | None => (t, None)
      | Some id =>
          let '(t, affected) := claim now id (meanwhile attempts t) in
          if affected then (t, Some id) else claimLoop attempts now meanwhile t
      end
  end.
Definition claimNextPending := claimLoop MAX_CLAIM_ATTEMPTS.

(** ** ReportDownloadProcessor *)

Definition HEARTBEAT_INTERVAL_MS : Z := 60000.
(** The interval of [startHeartbeat]. *)
Definition heartbeatInterval (staleRunningTtlMs : Z) : Z :=
  Z.min HEARTBEAT_INTERVAL_MS (Z.max 1000 (staleRunningTtlMs / 3)).

(** How a statement of [processRequest] can fail: it throws, having run or not. *)
Definition fails : Set := option (jsstr * bool).
Definition attempt {A} (f : fails) (op : Requests -> Requests * A) (t : Requests) : Requests * (A + jsstr) :=
  match f with
  | None => let '(t, a) := op t in (t, inl a)
  | Some (message, ran) => (if ran then fst (op t) else t, inr message)
  end.

(** [processRequest]: [generated] is the key of the uploaded report, or what reading the
    parameters, generating or uploading threw; [before] what happened to the table until
    then. The result is whether it ended without throwing. *)
Definition processRequest (now id : Z) (before : Requests -> Requests) (generated : jsstr + jsstr)
    (readyFails failedFails : fails) (t : Requests) : Requests * bool :=
  let t := before t in
  let '(t, caught) := match generated with
                      | inl key => let '(t, r) := attempt readyFails (markReady now id key) t in
                                   (t, match r with inl _ => None | inr message => Some message end)
                      | inr message => (t, Some message)
                      end in
  match caught with
  | None => (t, true)
  | Some message => let '(t, r) := attempt failedFails (markFailed now id message) t in
                    (t, match r with inl _ => true | inr _ => false end)
  end.

(** *** Workers of one process *)

(** [availableSlots] of [dispatch] *)
Definition availableSlots (maxConcurrent runningCount activeWorkers : Z) : Z :=
  Z.max 0 (maxConcurrent - runningCount - activeWorkers).

(** [activeWorkers] over the life of a process: dispatches, whose count of running
    requests is whatever the replica says, and workers that end. *)
Inductive worker_event : Set := Dispatch (runningCount : Z) | WorkerDone.
Definition worker_step (maxConcurrent : Z) (activeWorkers : Z) (e : worker_event) : Z :=
  match e with
  | Dispatch runningCount => activeWorkers + availableSlots maxConcurrent runningCount activeWorkers
  | WorkerDone => if 0 <? activeWorkers then activeWorkers - 1 else activeWorkers
  end.

(** ** The state machine *)

Inductive label : Set :=
  | LCreate (id : Z) | LClaim (id : Z) | LTouch (id : Z) | LReady (id : Z) | LFailed (id : Z) | LStale.

(** Every statement that changes the table, by any process at any time. Ids are new. *)
Inductive queue_step : label -> Requests -> Requests -> Prop :=
  | step_create now id file user fsp t : t !! id = None -> queue_step (LCreate id) t (createPending now id file user fsp t)
  | step_claim now id t t' : claim now id t = (t', true) -> queue_step (LClaim id) t t'
  | step_touch now id t t' : touchRunning now id t = (t', true) -> queue_step (LTouch id) t t'
  | step_ready now id key t t' : markReady now id key t = (t', true) -> queue_step (LReady id) t t'
  | step_failed now id message t t' : markFailed now id message t = (t', true) -> queue_step (LFailed id) t t'
  | step_stale now staleBefore t : queue_step LStale t (fst (failStaleRunning now staleBefore t)).

Inductive queue_run : list label -> Requests -> Requests -> Prop :=
  | run_nil t : queue_run [] t t
  | run_step l ls t t1 t2 : queue_step l t t1 -> queue_run ls t1 t2 -> queue_run (l :: ls) t t2.

(** Statuses in the order they are passed through. *)
Definition rank (s : ReportDownloadStatus) : nat :=
  match s with Pending => 0 | Running => 1 | Ready | Failed => 2 end.

(** What a request has in each status. *)
Definition wf_request (r : ReportDownloadRequest) : Prop :=
  match status r with
  | Pending | Running => fileKey r = None /\ errorMessage r = None /\ finishedAt r = None
  | Ready => is_Some (fileKey r) /\ errorMessage r = None /\ finishedAt r = Some (updatedAt r)
  | Failed => fileKey r = None /\ finishedAt r = Some (updatedAt r) /\
              exists m, errorMessage r = Some m /\ (length m <= MAX_ERROR_LENGTH)%nat
  end.

(** The labels of a request. *)
Definition claims (id : Z) (ls : list label) : nat :=
  length (List.filter (fun l => match l with LClaim i => i =? id | _ => false end) ls).
Definition readies (id : Z) (ls : list label) : nat :=
  length (List.filter (fun l => match l with LReady i => i =? id | _ => false end) ls).

(** Whether a request got as far as a status, as a number. *)
Definition reached (k : nat) (t : Requests) (id : Z) : nat :=
  match t !! id with Some r => if (k <=? rank (status r))%nat then 1 else 0 | None => 0 end.

(** ** Example *)

Definition example_queue : Requests := createPending 20 2 (js "csv") None None (createPending 10 1 (js "xlsx") None None ∅).

(** ** Statements *)

Lemma update_if_true id s f t t' :
  update_if id s f t = (t', true) -> exists r, t !! id = Some r /\ status r = s /\ t' = <[id := f r]> t.
Proof. unfold update_if. destruct (t !! id) as [r|]; [|done]. case_decide; [|done]. intros [= <-]. by exists r. Qed.

Lemma stale_lookup now b t id :
  fst (failStaleRunning now b t) !! id =
  (fun r => if is_stale b r then set_failed now STALE_MESSAGE r else r) <$> t !! id.
Proof. apply lookup_fmap. Qed.

Lemma is_stale_running b r : is_stale b r = true -> status r = Running.
Proof. unfold is_stale. rewrite andb_true_iff, bool_decide_eq_true. tauto. Qed.

Lemma trimError_length m : (length (trimError m) <= MAX_ERROR_LENGTH)%nat.
Proof.
  unfold trimError. destruct (Nat.ltb_spec MAX_ERROR_LENGTH (length m)); [|done]. rewrite length_take. lia.
Qed.

(** What a step does to one request. *)
Lemma step_request l t t' id :
  queue_step l t t' ->
  t' !! id = t !! id \/
  (t !! id = None /\ l = LCreate id /\ exists now f u p, t' !! id = Some (mkRequest Pending f None None u p None now now)) \/
  exists r r', t !! id = Some r /\ t' !! id = Some r' /\
    ((status r = Pending /\ l = LClaim id /\ exists now, r' = set_running now r) \/
     (status r = Running /\ (forall i, l <> LClaim i) /\
      ((exists now, l = LTouch id /\ r' = set_updated now r) \/ (exists now key, l = LReady id /\ r' = set_ready now key r) \/
       (l <> LReady id /\ exists now m, (length m <= MAX_ERROR_LENGTH)%nat /\ r' = set_failed now m r)))).
Proof.
  intros [now i f u p t0 Hn|now i t0 t1 Hc|now i t0 t1 Hc|now i key t0 t1 Hc|now i m t0 t1 Hc|now b t0].
  - unfold createPending. destruct (decide (i = id)) as [->|]; [|left; by rewrite lookup_insert_ne].
    right; left. rewrite lookup_insert_eq. eauto 10.
  - apply update_if_true in Hc as (r & Hr & Hs & ->). destruct (decide (i = id)) as [->|]; [|left; by rewrite lookup_insert_ne].
    right; right. exists r, (set_running now r). rewrite lookup_insert_eq. eauto 10.
  - apply update_if_true in Hc as (r & Hr & Hs & ->). destruct (decide (i = id)) as [->|]; [|left; by rewrite lookup_insert_ne].
    right; right. exists r, (set_updated now r). rewrite lookup_insert_eq. eauto 12.
  - apply update_if_true in Hc as (r & Hr & Hs & ->). destruct (decide (i = id)) as [->|]; [|left; by rewrite lookup_insert_ne].
    right; right. exists r, (set_ready now key r). rewrite lookup_insert_eq.
    split; [done|]. split; [done|]. right. split; [done|]. split; [done|]. eauto 10.
  - apply update_if_true in Hc as (r & Hr & Hs & ->). destruct (decide (i = id)) as [->|]; [|left; by rewrite lookup_insert_ne].
    right; right. exists r, (set_failed now (trimError m) r). rewrite lookup_insert_eq.
    split; [done|]. split; [done|]. right. split; [done|]. split; [done|]. right; right. split; [done|].
    exists now, (trimError m). split; [apply trimError_length|done].
  - rewrite stale_lookup. destruct (t0 !! id) as [r|] eqn:Hr; [|by left]. cbn [fmap option_fmap option_map].
    destruct (is_stale b r) eqn:Hst; [|by left]. right; right. eexists _, _. split; [done|]. split; [done|].
    right. split; [by eapply is_stale_running|]. split; [done|]. right; right. split; [done|].
    exists now, STALE_MESSAGE. split; [vm_compute; lia|done].
Qed.

Lemma step_wf l t t' : queue_step l t t' -> map_Forall (fun _ => wf_request) t -> map_Forall (fun _ => wf_request) t'.
Proof.
  intros Hs Hw id r' Hr'.
  destruct (step_request _ _ _ id Hs) as [He|[(_ & _ & now & f & u & p & He)|(r & r2 & Hr & Hr2 & Hc)]].
  - rewrite He in Hr'. by apply (Hw id).
  - rewrite He in Hr'. injection Hr' as <-. done.
  - rewrite Hr2 in Hr'. injection Hr' as ->. specialize (Hw _ _ Hr). unfold wf_request in *.
    destruct Hc as [(Hp & _ & now & ->)|(Hp & _ & [(now & _ & ->)|[(now & key & _ & ->)|(_ & now & m & Hm & ->)]])];
      rewrite Hp in Hw; destruct Hw as (Hf & He & Hfin); cbn; rewrite ?Hp; eauto 10.
Qed.

(** In every state any number of processes can reach, a request has what its status
    says: no result while it waits or runs, a file and no error once ready, an error of at
    most 1000 characters and no file once failed. *)
Theorem requests_wellformed (ls : list label) (t : Requests) :
  queue_run ls ∅ t -> map_Forall (fun _ => wf_request) t.
Proof.
  assert (Hgen : forall t0, queue_run ls t0 t -> map_Forall (fun _ => wf_request) t0 -> map_Forall (fun _ => wf_request) t).
  { intros t0 Hr. induction Hr as [|l ls t0 t1 t2 Hs _ IH]; [done|]. intros Hw. by eapply IH, step_wf. }
  intros Hr. by eapply Hgen, map_Forall_empty.
Qed.


Ltac count_label id :=
  unfold reached, claims, readies; cbn [List.filter];
  match goal with
  | |- context [(?i =? id)%Z] => destruct (Z.eqb_spec i id) as [->|]
  | _ => idtac
  end; rewrite ?lookup_insert_eq, ?lookup_insert_ne by done.

Lemma step_counts l t t' id :
  queue_step l t t' ->
  (reached 1 t id + claims id [l] <= reached 1 t' id)%nat /\ (reached 2 t id + readies id [l] <= reached 2 t' id)%nat.
Proof.
  intros Hs. pose proof (step_request _ _ _ id Hs) as Hr.
  destruct Hs as [now i f u p t0 Hn|now i t0 t1 Hc|now i t0 t1 Hc|now i key t0 t1 Hc|now i m t0 t1 Hc|now b t0];
    try (apply update_if_true in Hc as (r & Hi & Hst & ->)).
  - unfold createPending. count_label id. destruct (decide (i = id)) as [->|]; rewrite ?lookup_insert_eq, ?lookup_insert_ne by done;
      [rewrite Hn; cbn; lia|cbn; lia].
  - count_label id; [rewrite Hi, Hst; cbn; lia|cbn; lia].
  - count_label id. destruct (decide (i = id)) as [->|]; rewrite ?lookup_insert_eq, ?lookup_insert_ne by done;
      [rewrite Hi; cbn; rewrite Hst; cbn; lia|cbn; lia].
  - count_label id; [rewrite Hi, Hst; cbn; lia|cbn; lia].
  - count_label id. destruct (decide (i = id)) as [->|]; rewrite ?lookup_insert_eq, ?lookup_insert_ne by done;
      [rewrite Hi, Hst; cbn; lia|cbn; lia].
  - count_label id. rewrite stale_lookup. destruct (t0 !! id) as [r|]; [|cbn; lia]. cbn [fmap option_fmap option_map].
    destruct (is_stale b r) eqn:Hst; [|cbn; lia]. apply is_stale_running in Hst. cbn. rewrite Hst. cbn. lia.
Qed.

Lemma claims_cons id l ls : claims id (l :: ls) = (claims id [l] + claims id ls)%nat.
Proof. unfold claims. cbn [List.filter]. destruct l; cbn; try done. by destruct (_ =? _). Qed.
Lemma readies_cons id l ls : readies id (l :: ls) = (readies id [l] + readies id ls)%nat.
Proof. unfold readies. cbn [List.filter]. destruct l; cbn; try done. by destruct (_ =? _). Qed.

Lemma reached_bound k t id : (reached k t id <= 1)%nat.
Proof. unfold reached. destruct (t !! id); [|lia]. destruct (_ <=? _)%nat; lia. Qed.

(** C24. Whatever the processes do and in whatever order, a request is claimed by one worker
    at most, and made ready at most once. *)
Theorem claimed_once (ls : list label) (t t' : Requests) (id : Z) :
  queue_run ls t t' -> (claims id ls <= 1 /\ readies id ls <= 1)%nat.
Proof.
  intros Hr.
  assert (Hgen : (reached 1 t id + claims id ls <= reached 1 t' id)%nat /\ (reached 2 t id + readies id ls <= reached 2 t' id)%nat).
  { induction Hr as [t|l ls t t1 t2 Hs _ IH]; [unfold claims, readies; cbn; lia|].
    rewrite claims_cons, readies_cons. pose proof (step_counts _ _ _ id Hs). lia. }
  pose proof (reached_bound 1 t' id). pose proof (reached_bound 2 t' id). lia.
Qed.

Lemma step_final l t t' id r :
  queue_step l t t' -> t !! id = Some r -> rank (status r) = 2%nat -> t' !! id = Some r.
Proof.
  intros Hs Hr Hk. destruct (step_request _ _ _ id Hs) as [->|[(Hn & _)|(r1 & r2 & Hr1 & _ & Hc)]]; [done|congruence|].
  rewrite Hr in Hr1. injection Hr1 as <-. destruct Hc as [(Hp & _)|(Hp & _)]; by rewrite Hp in Hk.
Qed.

(** A request that is ready or failed stays as it is: a worker that comes late, a stale
    recovery or another claim cannot change it. *)
Theorem finished_final (ls : list label) (t t' : Requests) (id : Z) (r : ReportDownloadRequest) :
  queue_run ls t t' -> t !! id = Some r -> status r = Ready \/ status r = Failed -> t' !! id = Some r.
Proof.
  intros Hr. induction Hr as [t|l ls t t1 t2 Hs _ IH]; [done|]. intros Hi Hk. apply IH; [|done].
  apply (step_final l t); [done..|]. by destruct Hk as [->| ->].
Qed.

(** ** Claims *)

Lemma oldest_pending_spec t :
  match oldest_pending t with
  | Some id => exists r, t !! id = Some r /\ status r = Pending /\
                 forall i x, t !! i = Some x -> status x = Pending -> createdAt r <= createdAt x
  | None => forall i x, t !! i = Some x -> status x <> Pending
  end.
Proof.
  unfold oldest_pending.
  set (f := fun id r best => _).
  assert (Hgen : forall m, match map_fold f None m with
    | Some (at_, id) => exists r, m !! id = Some r /\ status r = Pending /\ createdAt r = at_ /\
                 forall i x, m !! i = Some x -> status x = Pending -> at_ <= createdAt x
    | None => forall i x, m !! i = Some x -> status x <> Pending
    end).
  { intros m. apply (map_fold_weak_ind (fun best m => match best with
      | Some (at_, id) => exists r, m !! id = Some r /\ status r = Pending /\ createdAt r = at_ /\
                   forall i x, m !! i = Some x -> status x = Pending -> at_ <= createdAt x
      | None => forall i x, m !! i = Some x -> status x <> Pending
      end)); [done|].
    intros i x m' best Hi IH. unfold f. clear m t f.
    assert (Hold : forall j y, <[i:=x]> m' !! j = Some y -> j = i /\ y = x \/ m' !! j = Some y).
    { intros j y. destruct (decide (i = j)) as [->|]; [rewrite lookup_insert_eq; intros [= ->]; by left|].
      rewrite lookup_insert_ne by done. by right. }
    destruct (decide (status x = Pending)) as [Hp|Hp].
    - destruct best as [[a b]|]; [destruct IH as (r & Hr & Hst & Ha & Hmin); destruct (_ || _) eqn:Hc|].
      + exists x. rewrite lookup_insert_eq. split; [done|]. split; [done|]. split; [done|].
        intros j y [[-> ->]|Hj]%Hold Hy; [lia|]. specialize (Hmin _ _ Hj Hy).
        apply orb_true_iff in Hc. rewrite andb_true_iff in Hc. lia.
      + exists r. rewrite lookup_insert_ne by congruence. split; [done|]. split; [done|]. split; [done|].
        intros j y [[-> ->]|Hj]%Hold Hy; [apply orb_false_iff in Hc as [Hc _]; lia|by apply (Hmin j)].
      + exists x. rewrite lookup_insert_eq. split; [done|]. split; [done|]. split; [done|].
        intros j y [[-> ->]|Hj]%Hold Hy; [lia|by destruct (IH _ _ Hj)].
    - destruct best as [[a b]|].
      + destruct IH as (r & Hr & Hst & Ha & Hmin). exists r. rewrite lookup_insert_ne by congruence.
        split; [done|]. split; [done|]. split; [done|]. intros j y [[-> ->]|Hj]%Hold Hy; [done|by apply (Hmin j)].
      + intros j y [[-> ->]|Hj]%Hold; [done|by apply (IH j)]. }
  specialize (Hgen t). destruct (map_fold f None t) as [[a id]|]; cbn; [|done].
  destruct Hgen as (r & Hr & Hs & <- & Hm). eauto.
Qed.

(** Alone, a worker claims the oldest pending request, and none only where none is
    pending. *)
Theorem claim_oldest (now : Z) (t : Requests) :
  match claimNextPending now (fun _ t => t) t with
  | (t', Some id) => exists r, t !! id = Some r /\ status r = Pending /\ t' = <[id := set_running now r]> t /\
                       forall i x, t !! i = Some x -> status x = Pending -> createdAt r <= createdAt x
  | (t', None) => t' = t /\ forall i x, t !! i = Some x -> status x <> Pending
  end.
Proof.
  unfold claimNextPending, MAX_CLAIM_ATTEMPTS. cbn [claimLoop]. pose proof (oldest_pending_spec t) as Ho.
  destruct (oldest_pending t) as [id|]; [|done]. destruct Ho as (r & Hr & Hs & Hm).
  unfold claim at 1, update_if. rewrite Hr. destruct (decide _); [|done]. eauto 10.
Qed.

(** Among others, whatever they do between its read and its update, a worker that is
    given a request took it from pending to running itself, as a step of the queue. *)
Theorem claim_exclusive (now : Z) (meanwhile : nat -> Requests -> Requests) (t t' : Requests) (id : Z) :
  claimNextPending now meanwhile t = (t', Some id) ->
  exists k t0, (k < MAX_CLAIM_ATTEMPTS)%nat /\ queue_step (LClaim id) (meanwhile k t0) t'.
Proof.
  unfold claimNextPending. generalize MAX_CLAIM_ATTEMPTS as n. intros n. revert t.
  induction n as [|n IH]; intros t; cbn [claimLoop]; [done|]. destruct (oldest_pending t) as [i|]; [|done].
  destruct (claim now i (meanwhile n t)) as [t1 []] eqn:Hc.
  - intros [= -> ->]. exists n, t. split; [lia|]. by apply (step_claim now).
  - intros Hl. destruct (IH _ Hl) as (k & t0 & Hk & Hs). exists k, t0. split; [lia|done].
Qed.

(** ** Workers *)

(** The outcome of a worker, where the database answers: the request it runs becomes
    ready with the key of its report, or failed with the error, cut to 1000 characters; one
    that was taken from it meanwhile is left as it is. *)
Theorem processRequest_outcome (now id : Z) (before : Requests -> Requests) (generated : jsstr + jsstr) (t : Requests) :
  processRequest now id before generated None None t =
  (match before t !! id with
   | Some r => if decide (status r = Running)
               then <[id := match generated with
                            | inl key => set_ready now key r
                            | inr message => set_failed now (trimError message) r
                            end]> (before t)
               else before t
   | None => before t
   end, true).
Proof.
  unfold processRequest, attempt, markReady, markFailed, update_if.
  destruct generated as [key|message]; destruct (before t !! id) as [r|]; try done; by destruct (decide _).
Qed.

(** A process never has more than [maxConcurrent] workers, however its dispatches
    overlap and whatever the replica counts. *)
Theorem workers_bounded (maxConcurrent : Z) (es : list worker_event) :
  0 <= maxConcurrent -> Forall (fun e => match e with Dispatch n => 0 <= n | WorkerDone => True end) es ->
  0 <= fold_left (worker_step maxConcurrent) es 0 <= maxConcurrent.
Proof.
  intros Hm. induction es as [|e es IH] using rev_ind; intros Hf; [cbn; lia|].
  apply Forall_app in Hf as [Hf He]. inversion He as [|? ? Hn _]; subst. specialize (IH Hf).
  rewrite fold_left_app. cbn [fold_left]. revert IH. generalize (fold_left (worker_step maxConcurrent) es 0) as a.
  intros a Ha. destruct e as [n|]; cbn; [unfold availableSlots; lia|]. destruct (0 <? a) eqn:Hz; lia.
Qed.

(** The requests of a process's own workers are counted twice, as running and as
    active: with half of [maxConcurrent] busy a dispatch starts no worker. *)
Theorem own_workers_counted_twice (maxConcurrent runningCount activeWorkers : Z) :
  activeWorkers <= runningCount -> maxConcurrent <= 2 * activeWorkers ->
  worker_step maxConcurrent activeWorkers (Dispatch runningCount) = activeWorkers.
Proof. intros Hr Hm. cbn. unfold availableSlots. lia. Qed.

(** A worker beats at least three times within the time after which it is taken for
    dead, and not more often than once a second. *)
Theorem heartbeat_bounds (staleRunningTtlMs : Z) :
  3000 <= staleRunningTtlMs ->
  1000 <= heartbeatInterval staleRunningTtlMs <= 60000 /\ 3 * heartbeatInterval staleRunningTtlMs <= staleRunningTtlMs.
Proof.
  intros Ht. unfold heartbeatInterval, HEARTBEAT_INTERVAL_MS.
  pose proof (Z.mul_div_le staleRunningTtlMs 3). pose proof (Z.div_le_lower_bound staleRunningTtlMs 3 1000). lia.
Qed.

(** ** Witnesses *)


Lemma requests_wellformed_witness :
  let t := fst (failStaleRunning 99 50 (fst (claim 30 1 example_queue))) in
  map_Forall (fun _ => wf_request) t /\ (status <$> t !! 1) = Some Failed.
Proof.
  cbv zeta. split; [|reflexivity]. apply (requests_wellformed [LCreate 1; LCreate 2; LClaim 1; LStale]).
  eapply run_step; [apply (step_create 10 1); reflexivity|]. eapply run_step; [apply (step_create 20 2); reflexivity|].
  eapply run_step; [apply (step_claim 30 1); reflexivity|]. eapply run_step; [apply (step_stale 99 50)|]. apply run_nil.
Defined.

Lemma claimed_once_witness : (claims 1 [LClaim 1; LReady 1; LClaim 2] <= 1 /\ readies 1 [LClaim 1; LReady 1; LClaim 2] <= 1)%nat.
Proof.
  eapply (claimed_once _ example_queue).
  eapply run_step; [apply (step_claim 30 1); reflexivity|].
  eapply run_step; [apply (step_ready 40 1 (js "key")); reflexivity|].
  eapply run_step; [apply (step_claim 50 2); reflexivity|]. apply run_nil.
Defined.

Lemma finished_final_witness :
  let t := fst (markReady 40 1 (js "key") (fst (claim 30 1 example_queue))) in
  let r := mkRequest Ready (js "xlsx") (Some (js "key")) None None None (Some 40) 10 40 in
  fst (failStaleRunning 99 50 t) !! 1 = Some r.
Proof.
  cbv zeta.
  apply (finished_final [LStale] (fst (markReady 40 1 (js "key") (fst (claim 30 1 example_queue))))); [|reflexivity|by left].
  eapply run_step; [apply (step_stale 99 50)|]. apply run_nil.
Defined.

Lemma claim_exclusive_witness :
  exists k t0, (k < MAX_CLAIM_ATTEMPTS)%nat /\
    queue_step (LClaim 2) ((fun k t => if (k =? 9)%nat then fst (claim 29 1 t) else t) k t0)
      (fst (claim 30 2 (fst (claim 29 1 example_queue)))).
Proof.
  apply (claim_exclusive 30 (fun k t => if (k =? 9)%nat then fst (claim 29 1 t) else t) example_queue). reflexivity.
Defined.

Lemma workers_bounded_witness : 0 <= fold_left (worker_step 3) [Dispatch 0; WorkerDone; Dispatch 2] 0 <= 3.
Proof. apply workers_bounded; [lia|repeat constructor; lia]. Defined.

Lemma own_workers_counted_twice_witness : worker_step 3 2 (Dispatch 2) = 2.
Proof. apply own_workers_counted_twice; lia. Defined.

Lemma heartbeat_bounds_witness :
  1000 <= heartbeatInterval 1200000 <= 60000 /\ 3 * heartbeatInterval 1200000 <= 1200000.
Proof. apply heartbeat_bounds. lia. Defined.
