(* ===== verification/Reports.v ===== *)
(** * Transaction reports

    core/audit/domain/reporting: the rows, the parts and the CSV text of
    [TransactionReportGenerator] (transaction-report-generator.ts), with the record of
    [toReportRecord] (domain/repository/transaction.repository.ts), and the parameters a
    request stores ([TransactionReportParams], transaction-report-params.ts). Texts of
    numbers and dates, and the driver's reading of JSON columns, are arguments. The
    packaging into XLSX sheets and ZIP archives is not modelled, but which rows each part
    has. *)

From Stdlib Require Import QArith.QArith Sorting.Sorted.
From S2P Require Import Prelude Errors Transfer SendMoney AuditTrail Sorting Pages Json.
#[local] Open Scope Z_scope.

(** ** The rows of a report *)

(** [ReportDownloadSettings], the members used here. *)
Record ReportSettings : Set := mkReportSettings { pageSize : Z; maxRowsPerFile : Z; maxZipFiles : Z }.
Definition DEFAULTS : ReportSettings := mkReportSettings 50000 50000 1.
Definition MAX_DOWNLOAD_ROWS : Z := 50000.
Definition XLSX_MAX_DATA_ROWS_PER_SHEET : Z := 1048575.

Inductive ReportFileType : Set := Csv | Xlsx.
Definition reportFileType (fileType : jsstr) : ReportFileType :=
  if bool_decide (toLowerCase (trim fileType) = js "csv") then Csv else Xlsx.

Definition maxRowsPerGeneratedFile (s : ReportSettings) (f : ReportFileType) : Z :=
  match f with Xlsx => Z.min (maxRowsPerFile s) XLSX_MAX_DATA_ROWS_PER_SHEET | Csv => maxRowsPerFile s end.
Definition maxDownloadRows (s : ReportSettings) (f : ReportFileType) : Z :=
  Z.min (maxRowsPerGeneratedFile s f * maxZipFiles s) MAX_DOWNLOAD_ROWS.

Section generator.
  Context {num : Type} (collate : jsstr -> jsstr -> comparison) (settings : ReportSettings).
  Context (table : list (Item num)) (c : Criteria) (column : Column) (direction : Direction) (accessScope : option jsstr).

(** [readRows]; [None] is a loop that has not ended within the fuel. *)
Fixpoint readRows (fuel : nat) (cursor : option DecodedCursor) (rows : list (Item num)) (rowCount : Z)
    : option (list (Item num) * option DecodedCursor) :=
  match fuel with
  | O => None
  | Datatypes.S fuel =>
      if Z.of_nat (length rows) <? rowCount then
        let limit := Z.min (pageSize settings) (rowCount - Z.of_nat (length rows)) in
        let '(records, nextCursor) := findForReport collate column table c direction cursor limit accessScope in
        let rows := rows ++ records in
        if (length records =? 0)%nat || match nextCursor with None => true | Some _ => false end
        then Some (rows, nextCursor)
        else readRows fuel nextCursor rows rowCount
      else Some (rows, cursor)
  end.

(** [generateCsvReport]: the rows of each part. A single file is not zipped. *)
Fixpoint csvParts (fuel : nat) (cursor : option DecodedCursor) (writtenRows totalRows maxRows : Z)
    : option (list (list (Item num))) :=
  match fuel with
  | O => None
  | Datatypes.S fuel' =>
      if writtenRows <? totalRows then
        let rowsInPart := Z.min maxRows (totalRows - writtenRows) in
        part ← readRows fuel cursor [] rowsInPart;
        let '(rows, nextCursor) := part in
        if (length rows =? 0)%nat || match nextCursor with None => true | Some _ => false end
        then Some [rows]
        else cons rows <$> csvParts fuel' nextCursor (writtenRows + Z.of_nat (length rows)) totalRows maxRows
      else Some []
  end.
Definition generateCsvReport (fuel : nat) (totalRows maxRows : Z) : option (list (list (Item num))) :=
  if totalRows <=? maxRows then (fun part => [fst part]) <$> readRows fuel None [] totalRows
  else csvParts fuel None 0 totalRows maxRows.

(** [generateXlsxZip]: the loop runs once at least. *)
Fixpoint generateXlsxZip (fuel : nat) (cursor : option DecodedCursor) (writtenRows totalRows maxRows : Z)
    : option (list (list (Item num))) :=
  match fuel with
  | O => None
  | Datatypes.S fuel' =>
      let rowsInPart := Z.min maxRows (Z.max (totalRows - writtenRows) 0) in
      part ← readRows fuel cursor [] rowsInPart;
      let '(rows, nextCursor) := part in
      let writtenRows := writtenRows + Z.of_nat (length rows) in
      if (writtenRows <? totalRows) && match nextCursor with None => false | Some _ => true end
      then cons rows <$> generateXlsxZip fuel' nextCursor writtenRows totalRows maxRows
      else Some [rows]
  end.

(** [generate]: the rows of each part, or the error of a report that is too large. *)
Definition generate (fuel : nat) (fileType : jsstr) : result jsstr (option (list (list (Item num)))) :=
  let f := reportFileType fileType in
  let maxRows := maxDownloadRows settings f in
  let '(totalRows, capped) := count collate table c (Z.to_nat maxRows) accessScope in
  if capped
  then Err (js "Report exceeds maximum downloadable rows (" ++ bigint_text maxRows ++ js "). Narrow the search filters.")
  else Ok (match f with
           | Xlsx => generateXlsxZip fuel None 0 (Z.of_nat totalRows) (maxRowsPerGeneratedFile settings f)
           | Csv => generateCsvReport fuel (Z.of_nat totalRows) (maxRowsPerGeneratedFile settings f)
           end).
End generator.

(** Reference: the parts of a list: all of it, in order, at most [m] in a part, and no part
    more than it takes. *)
Definition parts_of {A} (m : nat) (l : list A) (parts : list (list A)) : Prop :=
  concat parts = l /\ Forall (fun p => (length p <= m)%nat) parts /\
  (1 <= length parts)%nat /\ ((length parts - 1) * m <= length l - 1)%nat.

(** ** Cells *)

(** The value of a cell, as its type decides its text. *)
Inductive Cell (num : Type) : Type := CNull | CText (s : text) | CNumber (n : num) | CBool (b : bool) | CDate (t : Z).
Arguments CNull {num}. Arguments CText {num}. Arguments CNumber {num}. Arguments CBool {num}. Arguments CDate {num}.

Section cells.
  Context {num number : Type} `{JSNumber number}.
  (** The texts of numbers and dates, and [toRawJson] of a JSON column as it is read back. *)
  Context (number_text : num -> text) (toISOString : Z -> text) (toRawJson : jsstr -> jsstr).

Definition opt_text (s : option jsstr) : Cell num := match s with Some s => CText (units s) | None => CNull end.
Definition opt_number (n : option num) : Cell num := match n with Some n => CNumber n | None => CNull end.
(** The columns whose missing values are a dash ([NULL_TEXT_COLUMN_KEYS]). *)
Definition or_dash (x : Cell num) : Cell num := match x with CNull => CText (lit "-") | _ => x end.

(** [omitResponseBody] and [withoutPatchResponseBody] on the text of a patch error. *)
Definition omitResponseBody (v : json number) : option (json number) :=
  match v with
  | JObject m => match List.filter (fun e => negb (bool_decide (fst e = lit "responseBody"))) m with
                 | [] => None
                 | rest => Some (JObject rest)
                 end
  | JNull => None
  | v => Some v
  end.
Definition withoutPatchResponseBody (value : jsstr) : Cell num :=
  match trim value with
  | b :: _ => if (code b =? 123)%N then
                match JSON_parse (units (trim value)) with
                | Some v => match omitResponseBody v with Some v => CText (JSON_stringify v) | None => CNull end
                | None => CText (units value)
                end
              else CText (units value)
  | [] => CText (units value)
  end.
Definition patchCallErrorValue (dispute : bool) (value : option jsstr) : Cell num :=
  match value with
  | None => CNull
  | Some e => if dispute then CText (units e) else withoutPatchResponseBody e
  end.

Definition state_text (s : TransferState) : jsstr :=
  match s with Received => js "RECEIVED" | Reserved => js "RESERVED" | Committed => js "COMMITTED" | Aborted => js "ABORTED" end.

(** [COLUMNS]: the headers. *)
Definition COLUMNS : list string :=
  ["Transfer ID"; "Initiated Timestamp"; "Payer FSP ID"; "Payee FSP ID"; "Payer ID Type"; "Payer ID"; "Payer
  Sub ID"; "Payer Home Transaction ID"; "Payee ID Type"; "Payee ID"; "Payee Sub ID"; "Payee Home Transaction
  ID"; "Currency"; "Amount"; "Payee Fee"; "Payer Fee"; "Scheme Fee"; "Payee Receive Amount"; "Transfer
  Amount"; "Transfer State in Hub"; "Use Case"; "Amount Type"; "Disputed"; "Account Lookup Error"; "Quote Call
  Error"; "Transfer Call Error"; "Patch Call Error"]%string.

(** The cells of a transaction in the order of the columns: the values of [toReportRecord]
    through [reportCellValue]. *)
Definition report_cells (x : Item num) : list (Cell num) :=
  let r := item_row x in
  let raw e := match e with Some e => CText (units (toRawJson e)) | None => CNull end in
  [CText (units (item_correlationId x)); CDate (transaction_started_at r);
   CText (units (payer_fsp r)); CText (units (payee_fsp r));
   opt_text (p_idType (row_payer r)); opt_text (p_id (row_payer r));
   opt_text (p_subId (row_payer r));
   opt_text (payer_home_transaction_id r);
   opt_text (p_idType (row_payee r)); opt_text (p_id (row_payee r));
   opt_text (p_subId (row_payee r));
   opt_text (payee_home_transaction_id r);
   opt_text (quotingCurrency (row_amounts r)); opt_number (quotingAmount (row_amounts r));
   or_dash (opt_number (a_payeeFee (row_amounts r)));
   or_dash (opt_number (a_payerFee (row_amounts r)));
   or_dash (opt_number (a_schemeFee (row_amounts r)));
   or_dash (opt_number (a_payeeReceiveAmount (row_amounts r)));
   or_dash (opt_number (transferAmount (row_amounts r)));
   opt_text (state_text <$> k_transferState (row_kind r));
   opt_text (k_subScenario (row_kind r)); opt_text (k_amountType (row_kind r));
   CBool (possible_dispute r); raw (ph_error (row_parties r));
   raw (ph_error (row_quotes r)); raw (ph_error (row_transfers r));
   patchCallErrorValue (possible_dispute r) (toRawJson <$> patchError (row_patch r))].

(** [safeTextValue] of a value that is not null: a quote before what a spreadsheet would
    take for a formula. *)
Definition starts_formula (s : text) : bool :=
  match s with c :: _ => existsb (N.eqb c) (lit "=+-@") | [] => false end.
Definition safe_text (normalized : text) : text :=
  if bool_decide (normalized = lit "-") then normalized
  else if starts_formula normalized then 39%N :: normalized else normalized.
Definition safeTextValue (x : Cell num) : text :=
  match x with
  | CNull => []
  | CText s => safe_text s
  | CNumber n => safe_text (number_text n)
  | CBool b => safe_text (lit (if b then "true" else "false"))
  | CDate t => safe_text (toISOString t)
  end.
End cells.

(** ** CSV *)

Definition QUOTE : N := 34.
Definition COMMA : N := 44.
Definition LF : N := 10.
Definition CR : N := 13.

(** Each quotation mark twice, as [csvValue] replaces it. *)
Fixpoint double_quotes (s : text) : text :=
  match s with [] => [] | c :: s => if (c =? QUOTE)%N then QUOTE :: QUOTE :: double_quotes s else c :: double_quotes s end.
Definition special (c : N) : bool := (c =? QUOTE)%N || (c =? COMMA)%N || (c =? LF)%N || (c =? CR)%N.
(** [csvValue] of the text of a cell. *)
Definition csvValue (normalized : text) : text :=
  let escaped := double_quotes normalized in
  if existsb special escaped then QUOTE :: escaped ++ [QUOTE] else escaped.
Definition csvRow (cells : list text) : text := commas (map csvValue cells).

(** The content of a part: [lines.join('\n')] and a final line feed. *)
Definition csvContent (rows : list (list text)) : text := concat (map (fun r => csvRow r ++ [LF]) rows).

Section csv.
  Context {num number : Type} `{JSNumber number}.
  Context (number_text : num -> text) (toISOString : Z -> text) (toRawJson : jsstr -> jsstr).

Definition csv_cells (x : Item num) : list text :=
  map (safeTextValue number_text toISOString) (report_cells (number := number) toRawJson x).

(** [generateCsvPart]: the header and the rows. *)
Definition csvPart (rows : list (Item num)) : text := csvContent (map lit COLUMNS :: map csv_cells rows).
End csv.

(** ** XLSX cells *)

(** The code points of a text, as [for ... of] reads them: a pair of surrogates is one. *)
Definition high_surrogate (u : N) : bool := (0xD800 <=? u)%N && (u <=? 0xDBFF)%N.
Definition low_surrogate (u : N) : bool := (0xDC00 <=? u)%N && (u <=? 0xDFFF)%N.
Fixpoint characters (s : text) : list text :=
  match s with
  | [] => []
  | u :: ((w :: r) as s') => if high_surrogate u && low_surrogate w then [u; w] :: characters r else [u] :: characters s'
  | [u] => [[u]]
  end.
Definition codePointAt0 (character : text) : N :=
  match character with
  | [u; w] => (0x10000 + (u - 0xD800) * 0x400 + (w - 0xDC00))%N
  | u :: _ => u
  | [] => 0%N
  end.

Definition XLSX_MAX_CELL_TEXT_LENGTH : Z := 32767.
Definition isValidXmlCharacter (c : N) : bool :=
  ((c =? 0x9) || (c =? 0xA) || (c =? 0xD) || ((0x20 <=? c) && (c <=? 0xD7FF)) || ((0xE000 <=? c) && (c <=? 0xFFFD)) ||
   ((0x10000 <=? c) && (c <=? 0x10FFFF)))%N.
Definition safeCharacter (character : text) : text :=
  if isValidXmlCharacter (codePointAt0 character) then character else [0xFFFD%N].

(** The loop of [xlsxTextValue] over the characters of the safe text. *)
Fixpoint xlsx_fit (result : text) (cs : list text) : text :=
  match cs with
  | [] => result
  | c :: cs =>
      if XLSX_MAX_CELL_TEXT_LENGTH <? Z.of_nat (length result + length (safeCharacter c)) then result
      else xlsx_fit (result ++ safeCharacter c) cs
  end.
Definition xlsxTextValue (normalized : text) : text := xlsx_fit [] (characters (safe_text normalized)).

(** [xmlValue]: the five replacements, one after the other. *)
Definition replace_all (u : N) (by_ : text) (s : text) : text := concat (map (fun c => if (c =? u)%N then by_ else [c]) s).
Definition xmlValue (value : text) : text :=
  replace_all 39 (lit "&apos;") (replace_all 34 (lit "&quot;") (replace_all 62 (lit "&gt;")
    (replace_all 60 (lit "&lt;") (replace_all 38 (lit "&amp;") value)))).

(** [xlsxColumnName]; the number of a column is at least halved in each round. *)
Fixpoint xlsxColumnName_fuel (fuel : nat) (current : N) (name : text) : text :=
  match fuel with
  | O => name
  | Datatypes.S fuel =>
      if (0 <? current)%N
      then xlsxColumnName_fuel fuel ((current - 1) / 26) ((65 + (current - 1) mod 26)%N :: name)
      else name
  end.
Definition xlsxColumnName (columnNumber : N) : text := xlsxColumnName_fuel (N.to_nat (N.size columnNumber)) columnNumber [].

(** *** Reference: a reader of CSV (RFC 4180, line feeds) *)

Inductive reader : Set := AtStart | InPlain | InQuotes | AfterQuote.
Fixpoint read_csv (st : reader) (cell : text) (row : list text) (s : text) : list (list text) :=
  match s with
  | [] => []
  | c :: s =>
      match st with
      | InQuotes => if (c =? QUOTE)%N then read_csv AfterQuote cell row s else read_csv InQuotes (cell ++ [c]) row s
      | _ =>
          if (c =? COMMA)%N then read_csv AtStart [] (row ++ [cell]) s
          else if (c =? LF)%N then (row ++ [cell]) :: read_csv AtStart [] [] s
          else if (c =? QUOTE)%N then
            match st with AtStart => read_csv InQuotes [] row s | _ => read_csv InQuotes (cell ++ [QUOTE]) row s end
          else read_csv InPlain (cell ++ [c]) row s
      end
  end.

(** *** Reference: what a reader of XML makes of a text *)

(** The entity references a text can start with, and what they stand for. *)
Definition entities : list (text * N) :=
  [(lit "&amp;", 38); (lit "&lt;", 60); (lit "&gt;", 62); (lit "&quot;", 34); (lit "&apos;", 39)]%N.
Fixpoint strip (name s : text) : option text :=
  match name, s with
  | [], _ => Some s
  | u :: name, w :: s => if (u =? w)%N then strip name s else None
  | _ :: _, [] => None
  end.
Definition entity_at (s : text) : option (N * text) :=
  fold_right (fun e next => match strip (fst e) s with Some r => Some (snd e, r) | None => next end) None entities.
Fixpoint read_xml (fuel : nat) (s : text) : option text :=
  match fuel, s with
  | _, [] => Some []
  | O, _ => None
  | Datatypes.S fuel, c :: r =>
      if (c =? 38)%N then match entity_at s with Some (u, r) => cons u <$> read_xml fuel r | None => None end
      else if (c =? 60)%N then None
      else cons c <$> read_xml fuel r
  end.

(** The number a column's letters write, in base 26 without a zero. *)
Definition column_number (name : text) : N := fold_left (fun n c => (n * 26 + (c - 64))%N) name 0%N.

(** ** The parameters of a request *)

Section params.
  (** [toISOString], [new Date(text)], and the text of a number and its value. *)
  Context (iso : Z -> jsstr) (date : jsstr -> Z) (int_text : Z -> jsstr) (int_value : jsstr -> Z).

Definition emptyToUndefined (value : option jsstr) : option jsstr :=
  match value with Some [] | None => None | Some v => Some v end.
Definition nullableToParam (value : option (option jsstr)) : jsstr :=
  match value with Some None => js "null" | Some (Some v) => v | None => [] end.
Definition paramToNullable (value : option jsstr) : option (option jsstr) :=
  (fun v => if bool_decide (toLowerCase v = js "null") then None else Some v) <$> emptyToUndefined value.
Definition bool_text (b : bool) : jsstr := if b then js "true" else js "false".

Definition column_text (x : Column) : jsstr :=
  match x with
  | CorrelationId => js "correlationId"
  | TransactionStartAt => js "transactionStartAt"
  | TransactionCompletedAt => js "transactionCompletedAt"
  end.
Definition direction_text (d : Direction) : jsstr := match d with Asc => js "ASC" | Desc => js "DESC" end.

(** [fromInput]: the parameters stored with a request. *)
Definition fromInput (c : Criteria) (column : Column) (d : Direction) (accessScope : option jsstr) : list (string * jsstr) :=
  [("payerFsp", default [] (c_payerFspIs c)); ("payeeFsp", default [] (c_payeeFspIs c));
   ("payerIdType", default [] (c_payerIdType c)); ("payerId", default [] (c_payerId c));
   ("payerSubId", nullableToParam (c_payerSubId c)); ("payeeIdType", default [] (c_payeeIdType c));
   ("payeeId", default [] (c_payeeId c)); ("payeeSubId", nullableToParam (c_payeeSubId c));
   ("transferId", default [] (c_transferId c)); ("payerHomeTransactionId", default [] (c_payerHome c));
   ("payeeHomeTransactionId", default [] (c_payeeHome c)); ("flow", default [] (int_text <$> c_flow c));
   ("transferType", default [] (c_transferType c)); ("subScenario", default [] (c_subScenario c));
   ("transactionStartAtStart", default [] (iso <$> c_startInclusive c));
   ("transactionStartAtEnd", default [] (iso <$> c_endExclusive c));
   ("error", default [] (bool_text <$> c_isError c)); ("dispute", default [] (bool_text <$> c_isDispute c));
   ("orderColumn", column_text column); ("orderDirection", direction_text d);
   ("accessFspId", default [] accessScope)]%string.

(** The stored parameters, by name. *)
Notation Params := (gmap string jsstr).
Definition param (params : Params) (name : string) : option jsstr := emptyToUndefined (params !! name).

Definition toCriteria (params : Params) : Criteria :=
  let p := param params in
  mkCriteria (p "payerFsp") (p "payeeFsp") (p "payerIdType") (p "payerId")
    (paramToNullable (params !! "payerSubId")) (p "payeeIdType") (p "payeeId")
    (paramToNullable (params !! "payeeSubId")) (p "transferId") (p "payerHomeTransactionId")
    (p "payeeHomeTransactionId") (int_value <$> p "flow") (p "transferType") (p "subScenario")
    (date <$> p "transactionStartAtStart") (date <$> p "transactionStartAtEnd")
    ((fun t => bool_decide (t = js "true")) <$> p "error") ((fun t => bool_decide (t = js "true")) <$> p "dispute").

(** [toOrder]; of a text that is no column or direction the query takes its default. *)
Definition toColumn (params : Params) : Column :=
  match param params "orderColumn" with
  | Some t => if bool_decide (t = js "correlationId") then CorrelationId
              else if bool_decide (t = js "transactionCompletedAt") then TransactionCompletedAt else TransactionStartAt
  | None => TransactionStartAt
  end.
Definition toDirection (params : Params) : Direction :=
  match param params "orderDirection" with
  | Some t => if bool_decide (t = js "ASC") then Asc else Desc
  | None => Desc
  end.
Definition toAccessScope (params : Params) : option jsstr := param params "accessFspId".

(** Criteria the parameters can carry: no empty text, and no sub-id that reads as null. *)
Definition nonempty (s : option jsstr) : Prop := match s with Some [] => False | _ => True end.
Definition plain_sub (s : option (option jsstr)) : Prop :=
  match s with Some (Some v) => v <> [] /\ toLowerCase v <> js "null" | _ => True end.
Definition carried (c : Criteria) (accessScope : option jsstr) : Prop :=
  Forall nonempty [c_payerFspIs c; c_payeeFspIs c; c_payerIdType c; c_payerId c; c_payeeIdType c; c_payeeId c;
                   c_transferId c; c_payerHome c; c_payeeHome c; c_transferType c; c_subScenario c; accessScope] /\
  plain_sub (c_payerSubId c) /\ plain_sub (c_payeeSubId c).
End params.

(** ** For the proofs *)

(** Where reading [m] rows from the [k]-th on leaves the cursor. *)
Definition left_at {num} (column : Column) (all : list (Item num)) (k m : nat) (cursor : option DecodedCursor) : Prop :=
  ((k + m < length all)%nat -> at_ column all (k + m) cursor) /\
  ((0 < m)%nat -> (length all <= k + m)%nat -> cursor = None).

(** What ends a cell: a comma within the row, a line feed after it. *)
Definition read_next (row : list text) (sep : N) (s : text) : list (list text) :=
  if (sep =? COMMA)%N then read_csv AtStart [] row s else row :: read_csv AtStart [] [] s.

(** The five replacements escape each unit by itself. *)
Definition escape_unit (c : N) : text := xmlValue [c].
(** A parameter by its name. *)
Fixpoint assoc (k : string) (l : list (string * jsstr)) : option jsstr :=
  match l with [] => None | (k', v) :: l => if String.eqb k k' then Some v else assoc k l end.

(** Number texts in unary, for the witness: any texts that determine the number do. *)
Definition unary (z : Z) : jsstr := (if z <? 0 then "-"%char else "+"%char) :: replicate (Z.to_nat (Z.abs z)) "1"%char.
Definition from_unary (s : jsstr) : Z :=
  match s with c :: r => if Ascii.eqb c "-"%char then - Z.of_nat (length r) else Z.of_nat (length r) | [] => 0 end.
(** ** The rows of the parts *)

Section parts.
  Context {num : Type} (collate : jsstr -> jsstr -> comparison) `{!Collation collate} (settings : ReportSettings).
  Context (table : list (Item num)) (c : Criteria) (column : Column) (direction : Direction) (accessScope : option jsstr).
  Hypothesis ids : unique_ids table.
  Hypothesis agrees : accessScope <> None -> merge_agrees collate column.
  Hypothesis page_size : 1 <= pageSize settings.
  Notation all := (listing collate column table c direction accessScope).
  Notation readRows := (readRows collate settings table c column direction accessScope).
  Notation csvParts := (csvParts collate settings table c column direction accessScope).
  Notation generateXlsxZip := (generateXlsxZip collate settings table c column direction accessScope).

Lemma findForReport_at k cursor (limit : Z) :
  1 <= limit -> at_ column all k cursor ->
  let n := Z.to_nat limit in
  findForReport collate column table c direction cursor limit accessScope =
  (take n (drop k all), if (n <? length (drop k all))%nat then cursor_of column <$> last (take n (drop k all)) else None).
Proof.
  intros Hl Hat n. unfold findForReport. rewrite Z.max_r by done. fold n.
  rewrite (fetch_at collate column table c direction k cursor (Datatypes.S n) accessScope ids agrees Hat).
  pose proof (cut_page n (drop k all)) as Hc. pose proof (more_rows n (drop k all)) as Hm.
  assert (Hb : (Datatypes.S n <=? length (take (Datatypes.S n) (drop k all)))%nat =
               (n <? length (take (Datatypes.S n) (drop k all)))%nat) by done.
  rewrite Hb, Hm. rewrite Hm in Hc. replace (Datatypes.S n - 1)%nat with n by lia. by rewrite Hc.
Qed.

Lemma readRows_at fuel k cursor rows (rowCount : Z) :
  at_ column all k cursor -> (Z.to_nat rowCount - length rows < fuel)%nat -> (k <= length all)%nat ->
  let m := (Z.to_nat rowCount - length rows)%nat in
  exists next, readRows fuel cursor rows rowCount = Some (rows ++ take m (drop k all), next) /\ left_at column all k m next.
Proof.
  revert k cursor rows. induction fuel as [|fuel IH]; intros k cursor rows Hat Hf Hk m; [lia|].
  cbn [Reports.readRows]. destruct (Z.ltb_spec (Z.of_nat (length rows)) rowCount) as [Hlt|Hge].
  2:{ exists cursor. assert (m = 0)%nat as -> by lia. rewrite app_nil_r. split; [done|]. split; [|lia].
      by rewrite Nat.add_0_r. }
  rewrite (findForReport_at k) by (done || lia). cbv zeta.
  set (n := Z.to_nat _). assert (Hn : (1 <= n <= m)%nat) by lia.
  destruct (Nat.ltb_spec n (length (drop k all))) as [Hmore|Hend].
  - pose proof (at_next column all k n ltac:(lia) Hmore) as Hnext.
    assert (Hlen : length (take n (drop k all)) = n) by (rewrite length_take; lia).
    destruct (last (take n (drop k all))) as [r|] eqn:Hlast;
      [|apply last_None in Hlast; rewrite Hlast in Hlen; cbn in Hlen; lia].
    rewrite Hlen. destruct (Nat.eqb_spec n 0); [lia|]. cbn [orb fmap option_fmap option_map] in *.
    rewrite length_drop in Hmore.
    destruct (IH (k + n)%nat _ (rows ++ take n (drop k all)) Hnext) as (next & Hr & Hl); [rewrite length_app; lia|lia|].
    rewrite length_app, Hlen in Hr, Hl.
    exists next. rewrite Hr. replace (Z.to_nat rowCount - (length rows + n))%nat with (m - n)%nat in * by lia.
    split.
    2:{ unfold left_at in *. replace (k + m)%nat with (k + n + (m - n))%nat by lia. split; [apply Hl|].
        intros _ Hle. apply Hl; lia. }
    do 2 f_equal. rewrite <- app_assoc. f_equal. rewrite <- drop_drop.
    rewrite take_take_drop. f_equal. lia.
  - rewrite orb_true_r. exists None. rewrite length_drop in Hend. split.
    + do 3 f_equal. rewrite !take_ge by (rewrite length_drop; lia). done.
    + split; [lia|done].
Qed.


Lemma parts_cons m k parts :
  (m < length (drop k all))%nat -> parts_of m (drop (k + m) all) parts -> parts_of m (drop k all) (take m (drop k all) :: parts).
Proof.
  intros Hm (Hc & Hl & H1 & Hr). unfold parts_of. rewrite length_drop in *. split; [|split; [|split]].
  - cbn. rewrite Hc, <- drop_drop. apply take_drop.
  - constructor; [rewrite length_take; lia|done].
  - cbn. lia.
  - cbn [length]. destruct (length parts); [lia|]. cbn in *. lia.
Qed.

Lemma parts_single {A} m (l : list A) : (length l <= m)%nat -> parts_of m l [l].
Proof. intros Hl. split; [by cbn; rewrite app_nil_r|]. split; [by repeat constructor|]. cbn. lia. Qed.

Lemma csvParts_at fuel k cursor (maxRows : Z) :
  at_ column all k cursor -> (length all - k < fuel)%nat -> (k < length all)%nat -> 1 <= maxRows ->
  exists parts, csvParts fuel cursor (Z.of_nat k) (Z.of_nat (length all)) maxRows = Some parts /\
    parts_of (Z.to_nat maxRows) (drop k all) parts.
Proof.
  intros Hat Hf Hk Hm. revert k cursor Hat Hf Hk. induction fuel as [|fuel IH]; intros; [lia|].
  cbn [Reports.csvParts]. rewrite (proj2 (Z.ltb_lt _ _)) by lia. cbv zeta.
  set (m := Z.min maxRows _). assert (Hmm : 1 <= m) by lia.
  destruct (readRows_at (Datatypes.S fuel) k cursor [] m Hat) as (next & -> & Hl); [cbn; lia|lia|].
  cbn [mbind option_bind app length] in *. rewrite Nat.sub_0_r in *.
  assert (Hlen : length (take (Z.to_nat m) (drop k all)) = Z.to_nat m) by (rewrite length_take, length_drop; lia).
  rewrite Hlen. destruct (Nat.eqb_spec (Z.to_nat m) 0); [lia|]. cbn [orb].
  destruct (Nat.lt_ge_cases (k + Z.to_nat m) (length all)) as [Hmore|Hend].
  - destruct Hl as [Hl _]. specialize (Hl Hmore). assert (m = maxRows) as Heq by lia. rewrite Heq in *.
    destruct next as [next|]; [|by destruct Hl as [[? _]|(? & ? & _ & _ & ?)]; [lia|]].
    destruct (IH _ _ Hl) as (parts & Hp & Hparts); [lia|done|].
    rewrite Nat2Z.inj_add in Hp. rewrite Hp. eexists. split; [done|]. apply parts_cons; [rewrite length_drop; lia|done].
  - destruct Hl as [_ Hl]. rewrite Hl by lia. eexists. split; [done|]. rewrite take_ge by (rewrite length_drop; lia).
    apply parts_single. rewrite length_drop. lia.
Qed.

Lemma generateXlsxZip_at fuel k cursor (maxRows : Z) :
  at_ column all k cursor -> (length all - k < fuel)%nat -> (k <= length all)%nat -> 1 <= maxRows ->
  exists parts, generateXlsxZip fuel cursor (Z.of_nat k) (Z.of_nat (length all)) maxRows = Some parts /\
    parts_of (Z.to_nat maxRows) (drop k all) parts.
Proof.
  intros Hat Hf Hk Hm. revert k cursor Hat Hf Hk. induction fuel as [|fuel IH]; intros; [lia|].
  cbn [Reports.generateXlsxZip]. cbv zeta.
  set (m := Z.min maxRows _).
  destruct (readRows_at (Datatypes.S fuel) k cursor [] m Hat) as (next & -> & Hl); [cbn; lia|lia|].
  cbn [mbind option_bind app length] in *. rewrite Nat.sub_0_r in *.
  assert (Hlen : length (take (Z.to_nat m) (drop k all)) = Z.to_nat m) by (rewrite length_take, length_drop; lia).
  rewrite Hlen.
  destruct (Nat.lt_ge_cases (k + Z.to_nat m) (length all)) as [Hmore|Hend].
  - destruct Hl as [Hl _]. specialize (Hl Hmore). assert (m = maxRows) as Heq by lia. rewrite Heq in *.
    rewrite (proj2 (Z.ltb_lt _ _)) by lia.
    destruct next as [next|]; [|by destruct Hl as [[? _]|(? & ? & _ & _ & ?)]; [lia|]].
    destruct (IH _ _ Hl) as (parts & Hp & Hparts); [lia|lia|].
    rewrite Nat2Z.inj_add in Hp. cbn [andb]. rewrite Hp. eexists. split; [done|]. apply parts_cons; [rewrite length_drop; lia|done].
  - rewrite (proj2 (Z.ltb_ge _ _)) by lia. eexists. split; [done|]. rewrite take_ge by (rewrite length_drop; lia).
    apply parts_single. rewrite length_drop. lia.
Qed.

Lemma generateCsvReport_parts (maxRows : Z) :
  1 <= maxRows ->
  exists parts, generateCsvReport collate settings table c column direction accessScope (Datatypes.S (length all))
      (Z.of_nat (length all)) maxRows = Some parts /\ parts_of (Z.to_nat maxRows) all parts.
Proof.
  intros Hm. unfold generateCsvReport. destruct (Z.leb_spec (Z.of_nat (length all)) maxRows).
  - destruct (readRows_at (Datatypes.S (length all)) 0 None [] (Z.of_nat (length all))) as (next & -> & _);
      [by left|cbn; lia|lia|].
    eexists. split; [done|]. cbn [app fst length]. rewrite drop_0, Nat.sub_0_r, take_ge by lia. apply parts_single. lia.
  - destruct (csvParts_at (Datatypes.S (length all)) 0 None maxRows) as (parts & Hp & Hparts); [by left|lia..|].
    by exists parts.
Qed.

(** As many parts as full ones hold the rows. *)
Lemma parts_count {A} m n (l : list A) parts :
  parts_of m l parts -> (1 <= m)%nat -> (1 <= n)%nat -> (length l <= m * n)%nat -> (length parts <= n)%nat.
Proof.
  intros (_ & _ & H1 & Hr) Hm Hn Hlen. destruct (Nat.le_gt_cases (length parts) n); [done|].
  assert (n * m <= (length parts - 1) * m)%nat by (apply Nat.mul_le_mono_r; lia). lia.
Qed.

Lemma listing_length : length all = length (matching collate table c accessScope).
Proof. apply sort_length. Qed.

(** C36. A report has the listing of its criteria, every matching transaction once and in
    order, in parts of at most the configured rows and in no more parts than configured; it
    is refused exactly when more rows match than may be downloaded. The loops end within
    one round more than there are rows. The table must not change meanwhile. *)
Theorem generated_rows (fileType : jsstr) :
  1 <= maxRowsPerFile settings -> 1 <= maxZipFiles settings ->
  let f := reportFileType fileType in
  let report := generate collate settings table c column direction accessScope (Datatypes.S (length all)) fileType in
  if decide (maxDownloadRows settings f < Z.of_nat (length all)) then exists message, report = Err message
  else exists parts, report = Ok (Some parts) /\
    parts_of (Z.to_nat (maxRowsPerGeneratedFile settings f)) all parts /\
    Z.of_nat (length parts) <= maxZipFiles settings.
Proof.
  intros Hr Hz f report. subst report. unfold generate. fold f.
  rewrite (count_capped collate table c _ accessScope ids), <- listing_length.
  assert (Hmr : 1 <= maxRowsPerGeneratedFile settings f).
  { unfold maxRowsPerGeneratedFile, XLSX_MAX_DATA_ROWS_PER_SHEET. destruct f; lia. }
  assert (Hmd : 0 <= maxDownloadRows settings f <= maxRowsPerGeneratedFile settings f * maxZipFiles settings).
  { unfold maxDownloadRows, MAX_DOWNLOAD_ROWS. nia. }
  destruct (decide _) as [Hbig|Hsmall].
  - rewrite (proj2 (Nat.ltb_lt _ _)) by lia. by eexists.
  - rewrite (proj2 (Nat.ltb_ge _ _)) by lia. rewrite Nat.min_l by lia.
    assert (Hparts : exists parts,
      match f with
      | Csv => generateCsvReport collate settings table c column direction accessScope (Datatypes.S (length all))
                 (Z.of_nat (length all)) (maxRowsPerGeneratedFile settings f)
      | Xlsx => generateXlsxZip (Datatypes.S (length all)) None 0 (Z.of_nat (length all)) (maxRowsPerGeneratedFile settings f)
      end = Some parts /\ parts_of (Z.to_nat (maxRowsPerGeneratedFile settings f)) all parts).
    { destruct f; [by apply generateCsvReport_parts|].
      apply (generateXlsxZip_at (Datatypes.S (length all)) 0 None); [by left|lia..|done]. }
    destruct Hparts as (parts & Hp & Hparts). exists parts. split; [by destruct f; f_equal|]. split; [done|].
    pose proof (parts_count _ (Z.to_nat (maxZipFiles settings)) _ _ Hparts). nia.
Qed.
End parts.

(** ** CSV *)

Lemma double_quotes_plain v : existsb special v = false -> double_quotes v = v.
Proof.
  induction v as [|c v IH]; [done|]. cbn. unfold special at 1. destruct (c =? QUOTE)%N; [done|].
  intros [_ Hv]%orb_false_iff. by rewrite IH.
Qed.
Lemma double_quotes_special v : existsb special (double_quotes v) = existsb special v.
Proof. induction v as [|c v IH]; [done|]. cbn. destruct (c =? QUOTE)%N eqn:Hc; cbn; rewrite ?IH; unfold special; by rewrite ?Hc. Qed.

Lemma read_end st cell row sep s :
  sep = COMMA \/ sep = LF -> st <> InQuotes -> read_csv st cell row (sep :: s) = read_next (row ++ [cell]) sep s.
Proof. by intros [-> | ->]; destruct st. Qed.

Lemma read_plain v st cell row sep s :
  sep = COMMA \/ sep = LF -> st <> InQuotes -> existsb special v = false ->
  read_csv st cell row (v ++ sep :: s) = read_next (row ++ [cell ++ v]) sep s.
Proof.
  intros Hsep. revert st cell. induction v as [|c v IH]; intros st cell Hst Hv.
  - rewrite app_nil_r. by apply read_end.
  - cbn in Hv. apply orb_false_iff in Hv as [Hc Hv]. unfold special in Hc.
    destruct (c =? QUOTE)%N eqn:Hq, (c =? COMMA)%N eqn:Hm, (c =? LF)%N eqn:Hl; try done.
    assert (Hstep : read_csv st cell row ((c :: v) ++ sep :: s) = read_csv InPlain (cell ++ [c]) row (v ++ sep :: s)).
    { cbn. rewrite Hq, Hm, Hl. by destruct st. }
    rewrite Hstep, IH by done. by rewrite <- app_assoc.
Qed.

Lemma read_quoted v cell row sep s :
  sep = COMMA \/ sep = LF ->
  read_csv InQuotes cell row (double_quotes v ++ QUOTE :: sep :: s) = read_next (row ++ [cell ++ v]) sep s.
Proof.
  intros Hsep. revert cell. induction v as [|c v IH]; intros cell.
  - rewrite app_nil_r. transitivity (read_csv AfterQuote cell row (sep :: s)); [done|]. by apply read_end.
  - cbn [double_quotes]. destruct (c =? QUOTE)%N eqn:Hc.
    + apply N.eqb_eq in Hc as ->.
      transitivity (read_csv InQuotes (cell ++ [QUOTE]) row (double_quotes v ++ QUOTE :: sep :: s)); [done|].
      rewrite IH. by rewrite <- app_assoc.
    + cbn. rewrite Hc, IH. by rewrite <- app_assoc.
Qed.

Lemma read_cell v row sep s :
  sep = COMMA \/ sep = LF -> read_csv AtStart [] row (csvValue v ++ sep :: s) = read_next (row ++ [v]) sep s.
Proof.
  intros Hsep. unfold csvValue. cbv zeta. rewrite double_quotes_special. destruct (existsb special v) eqn:Hv.
  - rewrite <- app_comm_cons, <- app_assoc.
    transitivity (read_csv InQuotes [] row (double_quotes v ++ QUOTE :: sep :: s)); [done|]. by apply read_quoted.
  - rewrite double_quotes_plain by done. by apply read_plain.
Qed.

Lemma read_row cells row s : cells <> [] ->
  read_csv AtStart [] row (csvRow cells ++ LF :: s) = (row ++ cells) :: read_csv AtStart [] [] s.
Proof.
  intros Hne. destruct cells as [|x cells]; [done|]. clear Hne. unfold csvRow. revert row x.
  induction cells as [|y cells IH]; intros row x.
  - apply read_cell. by right.
  - change (commas (map csvValue (x :: y :: cells))) with (csvValue x ++ COMMA :: commas (map csvValue (y :: cells))).
    rewrite <- app_assoc, <- app_comm_cons, read_cell by (by left). unfold read_next. rewrite N.eqb_refl, IH.
    by rewrite <- app_assoc.
Qed.

Lemma read_csv_content rows : Forall (fun row => row <> []) rows -> read_csv AtStart [] [] (csvContent rows) = rows.
Proof.
  induction 1 as [|row rows Hr _ IH]; [done|]. unfold csvContent in *. cbn [map concat].
  rewrite <- app_assoc. cbn [app]. rewrite read_row by done. by rewrite IH.
Qed.

Lemma safe_text_formula s : starts_formula (safe_text s) = false \/ safe_text s = lit "-".
Proof.
  unfold safe_text. case_bool_decide as Hd; [by right|]. left. by destruct (starts_formula s) eqn:Hs.
Qed.

(** Whatever the texts of a transaction, a reader of the CSV text of a part gets the
    header and the cells back, and no cell starts like a formula of a spreadsheet but the
    lone dash. *)
Theorem csv_part_read {num number} `{JSNumber number} (number_text : num -> text) (toISOString : Z -> text)
    (toRawJson : jsstr -> jsstr) (rows : list (Item num)) :
  let cells := csv_cells (number := number) number_text toISOString toRawJson in
  read_csv AtStart [] [] (csvPart (number := number) number_text toISOString toRawJson rows) = map lit COLUMNS :: map cells rows /\
  forall x, length (cells x) = length COLUMNS /\
    Forall (fun cell => starts_formula cell = false \/ cell = lit "-") (cells x).
Proof.
  intros cells. split.
  - apply read_csv_content. constructor; [done|]. apply Forall_map. by apply Forall_true.
  - intros x. split; [done|]. apply Forall_map, Forall_true. intros [|s|n|b|t]; [by left|apply safe_text_formula..].
Qed.

(** ** XLSX cells *)

Lemma replace_all_concat u b ps : replace_all u b (concat ps) = concat (map (replace_all u b) ps).
Proof. induction ps as [|p ps IH]; [done|]. cbn. unfold replace_all in *. by rewrite map_app, concat_app, IH. Qed.
Lemma xmlValue_app s s' : xmlValue (s ++ s') = xmlValue s ++ xmlValue s'.
Proof. unfold xmlValue, replace_all. by rewrite !map_app, !concat_app, !map_app, !concat_app, !map_app, !concat_app, !map_app, !concat_app, !map_app, !concat_app. Qed.
Lemma read_escaped fuel c s :
  read_xml (Datatypes.S fuel) (escape_unit c ++ s) = cons c <$> read_xml fuel s.
Proof.
  unfold escape_unit, xmlValue, replace_all.
  destruct (N.eqb_spec c 38) as [->|H1]; [done|]. destruct (N.eqb_spec c 60) as [->|H2]; [done|].
  destruct (N.eqb_spec c 62) as [->|H3]; [done|]. destruct (N.eqb_spec c 34) as [->|H4]; [done|].
  destruct (N.eqb_spec c 39) as [->|H5]; [done|]. apply N.eqb_neq in H1, H2, H3, H4, H5.
  cbn [map concat app]. rewrite H1. cbn [map concat app]. rewrite H2. cbn [map concat app].
  rewrite H3. cbn [map concat app]. rewrite H4. cbn [map concat app]. rewrite H5. cbn [map concat app read_xml].
  by rewrite H1, H2.
Qed.
Lemma read_xmlValue fuel s : (length s <= fuel)%nat -> read_xml fuel (xmlValue s) = Some s.
Proof.
  revert fuel. induction s as [|c s IH]; intros fuel Hf; [by destruct fuel|].
  destruct fuel as [|fuel]; [cbn in Hf; lia|]. change (c :: s) with ([c] ++ s) at 1. rewrite xmlValue_app.
  fold (escape_unit c). rewrite read_escaped, IH by (cbn in Hf; lia). done.
Qed.

Lemma escaped_no_tag s : ~ In 60%N (xmlValue s).
Proof.
  induction s as [|c s IH]; [by intros []|]. change (c :: s) with ([c] ++ s). rewrite xmlValue_app, in_app_iff. intros [Hc|Hs]; [|done].
  unfold xmlValue, replace_all in Hc.
  destruct (N.eqb_spec c 38) as [->|H1]; [by repeat destruct Hc as [Hc|Hc]|].
  destruct (N.eqb_spec c 60) as [->|H2]; [by repeat destruct Hc as [Hc|Hc]|].
  destruct (N.eqb_spec c 62) as [->|H3]; [by repeat destruct Hc as [Hc|Hc]|].
  destruct (N.eqb_spec c 34) as [->|H4]; [by repeat destruct Hc as [Hc|Hc]|].
  destruct (N.eqb_spec c 39) as [->|H5]; [by repeat destruct Hc as [Hc|Hc]|].
  apply N.eqb_neq in H1 as E1, H2 as E2, H3 as E3, H4 as E4, H5 as E5.
  cbn [map concat app] in Hc. rewrite E1 in Hc. cbn [map concat app] in Hc. rewrite E2 in Hc. cbn [map concat app] in Hc.
  rewrite E3 in Hc. cbn [map concat app] in Hc. rewrite E4 in Hc. cbn [map concat app] in Hc. rewrite E5 in Hc.
  cbn in Hc. by destruct Hc as [Hc|[]].
Qed.

Lemma concat_characters s : concat (characters s) = s.
Proof.
  induction s as [s IH] using (induction_ltof1 _ (@length N)). unfold ltof in IH.
  destruct s as [|u [|w s]]; [done..|]. pose proof (IH s ltac:(cbn; lia)) as H2. pose proof (IH (w :: s) ltac:(cbn; lia)) as H1.
  change (characters (u :: w :: s)) with
    (if high_surrogate u && low_surrogate w then [u; w] :: characters s else [u] :: characters (w :: s)).
  destruct (high_surrogate u && low_surrogate w); cbn [concat app]; by rewrite ?H1, ?H2.
Qed.

Notation valid_character := (fun character => isValidXmlCharacter (codePointAt0 character) = true).
Lemma safeCharacter_valid character : isValidXmlCharacter (codePointAt0 (safeCharacter character)) = true.
Proof. unfold safeCharacter. by destruct (isValidXmlCharacter (codePointAt0 character)) eqn:Hv. Qed.

Lemma xlsx_fit_spec cs result :
  Z.of_nat (length result) <= XLSX_MAX_CELL_TEXT_LENGTH ->
  exists kept, xlsx_fit result cs = result ++ concat (map safeCharacter kept) /\ kept `prefix_of` cs /\
    Z.of_nat (length (xlsx_fit result cs)) <= XLSX_MAX_CELL_TEXT_LENGTH /\
    (Z.of_nat (length (result ++ concat (map safeCharacter cs))) <= XLSX_MAX_CELL_TEXT_LENGTH -> kept = cs).
Proof.
  revert result. induction cs as [|c cs IH]; intros result Hr; cbn [xlsx_fit].
  - exists []. rewrite app_nil_r. split; [done|]. split; [apply prefix_nil|]. done.
  - destruct (Z.ltb_spec XLSX_MAX_CELL_TEXT_LENGTH (Z.of_nat (length result + length (safeCharacter c)))) as [Hlt|Hge].
    + exists []. rewrite app_nil_r. split; [done|]. split; [apply prefix_nil|]. split; [done|].
      cbn [map concat]. rewrite !length_app. lia.
    + destruct (IH (result ++ safeCharacter c)) as (kept & He & Hp & Hl & Hall); [rewrite length_app; lia|].
      exists (c :: kept). cbn [map concat]. rewrite app_assoc. split; [done|]. split; [by apply prefix_cons|]. split; [done|].
      intros Hlen. f_equal. apply Hall. by rewrite <- app_assoc.
Qed.

(** The text of an XLSX cell is at most 32767 units of characters XML allows, the safe
    text of the value itself when it is that; as it is written it has no tag and a reader
    of XML gets it back. *)
Theorem xlsx_text_cell (s : text) :
  let t := xlsxTextValue s in
  Z.of_nat (length t) <= XLSX_MAX_CELL_TEXT_LENGTH /\
  (exists cs, t = concat cs /\ Forall valid_character cs) /\
  (Forall valid_character (characters (safe_text s)) ->
     Z.of_nat (length (safe_text s)) <= XLSX_MAX_CELL_TEXT_LENGTH -> t = safe_text s) /\
  read_xml (length t) (xmlValue t) = Some t /\ ~ In 60%N (xmlValue t).
Proof.
  intros t. destruct (xlsx_fit_spec (characters (safe_text s)) []) as (kept & He & _ & Hl & Hall); [done|].
  fold (xlsxTextValue s) in He, Hl. fold t in He, Hl. cbn [app] in He, Hall.
  split; [done|]. split; [|split; [|split]].
  - exists (map safeCharacter kept). split; [done|]. apply Forall_map, Forall_true. intros. apply safeCharacter_valid.
  - intros Hv Hlen.
    assert (Hid : map safeCharacter (characters (safe_text s)) = characters (safe_text s)).
    { clear -Hv. induction Hv as [|x xs Hx _ IH]; [done|]. cbn. rewrite IH. unfold safeCharacter. by rewrite Hx. }
    rewrite Hid, concat_characters in Hall. rewrite He, Hall by done. by rewrite Hid, concat_characters.
  - by apply read_xmlValue.
  - apply escaped_no_tag.
Qed.

Lemma column_name_fuel fuel current name :
  (current < 2 ^ N.of_nat fuel)%N ->
  exists letters, xlsxColumnName_fuel fuel current name = letters ++ name /\ column_number letters = current /\
    Forall (fun c => (65 <= c <= 90)%N) letters.
Proof.
  revert current name. induction fuel as [|fuel IH]; intros current name Hf.
  - exists []. cbn in *. by assert (current = 0)%N as -> by lia.
  - cbn [xlsxColumnName_fuel]. destruct (N.ltb_spec 0 current) as [Hpos|Hz].
    + pose proof (N.div_mod (current - 1) 26 ltac:(done)) as Hdm. pose proof (N.mod_lt (current - 1) 26 ltac:(done)) as Hm.
      set (q := ((current - 1) / 26)%N) in *. set (r := ((current - 1) mod 26)%N) in *.
      destruct (IH q ((65 + r)%N :: name)) as (letters & -> & Hn & Hl).
      { rewrite Nat2N.inj_succ, N.pow_succ_r' in Hf. lia. }
      exists (letters ++ [(65 + r)%N]). rewrite <- app_assoc. split; [done|]. split.
      * unfold column_number in *. rewrite fold_left_app, Hn. cbn. lia.
      * apply Forall_app. split; [done|]. repeat constructor; lia.
    + exists []. assert (current = 0)%N as -> by lia. done.
Qed.

(** The letters of a column are capital letters that write its number. *)
Theorem xlsxColumnName_number (n : N) :
  column_number (xlsxColumnName n) = n /\ Forall (fun c => (65 <= c <= 90)%N) (xlsxColumnName n).
Proof.
  unfold xlsxColumnName. destruct (column_name_fuel (N.to_nat (N.size n)) n []) as (letters & -> & Hn & Hl).
  - rewrite N2Nat.id. apply N.size_gt.
  - by rewrite app_nil_r.
Qed.

(** ** The parameters of a request *)

Lemma lookup_assoc (l : list (string * jsstr)) (k : string) : (list_to_map l : gmap string jsstr) !! k = assoc k l.
Proof.
  induction l as [|[k' v] l IH]; [apply lookup_empty|]. cbn [assoc list_to_map fst snd foldr].
  destruct (String.eqb_spec k k') as [->|Hk]; [apply lookup_insert_eq|]. by rewrite lookup_insert_ne.
Qed.

Lemma default_carried o : nonempty o -> emptyToUndefined (Some (default [] o)) = o.
Proof. by destruct o as [[|a s]|]. Qed.
Lemma sub_carried o : plain_sub o -> paramToNullable (Some (nullableToParam o)) = o.
Proof.
  destruct o as [[s|]|]; [|done..]. cbn [plain_sub]. intros [Hne Hnull].
  destruct s as [|a s]; [done|]. unfold paramToNullable. cbn [nullableToParam emptyToUndefined fmap option_fmap option_map].
  by rewrite bool_decide_eq_false_2.
Qed.
Lemma mapped_carried {A} (f : A -> jsstr) (g : jsstr -> A) (o : option A) :
  (forall a, f a <> [] /\ g (f a) = a) -> g <$> emptyToUndefined (Some (default [] (f <$> o))) = o.
Proof.
  intros Hfg. destruct o as [a|]; [|done]. destruct (Hfg a) as [Hne He]. cbn in *.
  destruct (f a) as [|b s] eqn:Hf; [done|]. cbn. by rewrite He.
Qed.

(** The parameters a report request stores give back the criteria, the order and the
    participant it was made with, unless a text is empty or a sub-id reads as null. *)
Theorem params_roundtrip (iso : Z -> jsstr) (date : jsstr -> Z) (int_text : Z -> jsstr) (int_value : jsstr -> Z)
    (c : Criteria) (column : Column) (d : Direction) (accessScope : option jsstr) :
  (forall t, iso t <> [] /\ date (iso t) = t) -> (forall n, int_text n <> [] /\ int_value (int_text n) = n) ->
  carried c accessScope ->
  let params := list_to_map (fromInput iso int_text c column d accessScope) in
  toCriteria date int_value params = c /\ toColumn params = column /\ toDirection params = d /\
  toAccessScope params = accessScope.
Proof.
  intros Hiso Hint (Hall & Hpayer & Hpayee). unfold toCriteria, toColumn, toDirection, toAccessScope, param.
  cbv zeta. rewrite !lookup_assoc. cbn [fromInput assoc String.eqb Ascii.eqb Bool.eqb].
  repeat rewrite Forall_cons in Hall. destruct_and! Hall.
  rewrite !mapped_carried by (done || by intros []). rewrite !sub_carried by done. rewrite !default_carried by done.
  split; [by destruct c|]. split; [by destruct column|]. split; [by destruct d|done].
Qed.

(** ** Examples and witnesses *)

Example column_28 : xlsxColumnName 28 = lit "AB".
Proof. reflexivity. Qed.
Example csv_cell_example : csvValue (lit "1,5") = QUOTE :: lit "1,5" ++ [QUOTE].
Proof. reflexivity. Qed.
Example formula_example : safe_text (lit "=SUM(A1)") = lit "'=SUM(A1)".
Proof. reflexivity. Qed.

Lemma generated_rows_witness :
  let settings := mkReportSettings 2 2 2 in
  let all := listing ignore_case TransactionStartAt mixed_case_table no_criteria Asc (Some (js "dfsp")) in
  map item_id all = [1; 2; 3] /\
  let report := generate ignore_case settings mixed_case_table no_criteria TransactionStartAt Asc (Some (js "dfsp"))
                  (Datatypes.S (length all)) (js " CSV") in
  if decide (maxDownloadRows settings (reportFileType (js " CSV")) < Z.of_nat (length all))
  then exists message, report = Err message
  else exists parts, report = Ok (Some parts) /\
    parts_of (Z.to_nat (maxRowsPerGeneratedFile settings (reportFileType (js " CSV")))) all parts /\
    Z.of_nat (length parts) <= maxZipFiles settings.
Proof.
  cbv zeta. split; [vm_compute; reflexivity|].
  apply (generated_rows (num := jsstr) ignore_case (Collation0 := ignore_case_collation)
           (mkReportSettings 2 2 2) mixed_case_table no_criteria TransactionStartAt Asc (Some (js "dfsp"))).
  - unfold unique_ids. repeat constructor; cbn; intuition discriminate.
  - intros _. discriminate.
  - vm_compute. discriminate.
  - vm_compute. discriminate.
  - vm_compute. discriminate.
Defined.

Lemma unary_carried z : unary z <> [] /\ from_unary (unary z) = z.
Proof.
  split; [done|]. unfold unary, from_unary. destruct (Z.ltb_spec z 0); cbn; rewrite length_replicate; lia.
Qed.

Lemma params_roundtrip_witness :
  let c := mkCriteria (Some (js "payer")) None None None (Some None) None None (Some (Some (js "7"))) None None None
             (Some 3) None None (Some 100) (Some (-2)) (Some true) (Some false) in
  let params := list_to_map (fromInput unary unary c CorrelationId Asc (Some (js "dfsp"))) in
  toCriteria from_unary from_unary params = c /\ toColumn params = CorrelationId /\ toDirection params = Asc /\
  toAccessScope params = Some (js "dfsp").
Proof.
  apply params_roundtrip; [apply unary_carried..|]. unfold carried. repeat constructor; vm_compute; discriminate.
Defined.

(** What the parameters do not carry: the participant of an empty id is none, which is a
    report of all transactions, and the sub-id [Null] is the missing one. *)
Example lossy_params (c : Criteria) :
  toAccessScope (list_to_map (fromInput unary unary c CorrelationId Asc (Some []))) = None /\
  c_payerSubId (toCriteria from_unary from_unary (list_to_map (fromInput unary unary
    (mkCriteria None None None None (Some (Some (js "Null"))) None None None None None None None None None None None None None)
    CorrelationId Asc None))) = Some None.
Proof. unfold toAccessScope, param. rewrite lookup_assoc. split; [reflexivity|vm_compute; reflexivity]. Qed.
