(* ===== verification/Rollup.v ===== *)
(** * The hourly roll-up

    core/audit/domain: the aggregation and the replacement of a window
    ([TransactionRollupRepository], repository/transaction-rollup.repository.ts), the lock of
    the job ([RollupLock], component/rollup-lock.ts) over the server of Redis.v, and the
    scheduler ([TransactionRollupScheduler], component/transaction-rollup.scheduler.ts) with
    the backfill and the reconciliation of the live counters of LiveStats.v. Times are
    milliseconds, amounts what a DECIMAL column holds, and the collation of the server is an
    argument. The session time zone of the server is UTC. *)

From S2P Require Import Prelude Errors Transfer SendMoney Redis AuditTrail LiveStats Pages.
#[local] Open Scope Z_scope.

(** ** Measures *)

(** The measures of a bucket: counts, the amount that moved, and the sum of latencies, which
    is NULL when nothing has completed. *)
Record Measures : Set := mkMeasures {
  txn_count : Z; error_count : Z; dispute_count : Z; parties_error_count : Z; quotes_error_count : Z;
  transfers_error_count : Z; patch_error_count : Z; committed_amount : Z; committed_count : Z; latency_count : Z;
  sum_latency_ms : option Z }.
Definition no_measures : Measures := mkMeasures 0 0 0 0 0 0 0 0 0 0 None.

(** [SUM] skips NULL. *)
Definition sum_null (a b : option Z) : option Z :=
  match a, b with Some x, Some y => Some (x + y) | None, _ => b | _, None => a end.
Definition add (a b : Measures) : Measures :=
  mkMeasures (txn_count a + txn_count b) (error_count a + error_count b) (dispute_count a + dispute_count b)
    (parties_error_count a + parties_error_count b) (quotes_error_count a + quotes_error_count b)
    (transfers_error_count a + transfers_error_count b) (patch_error_count a + patch_error_count b)
    (committed_amount a + committed_amount b) (committed_count a + committed_count b)
    (latency_count a + latency_count b) (sum_null (sum_latency_ms a) (sum_latency_ms b)).

(** The sum over the elements of a list that satisfy a condition. *)
Definition total {A} (p : A -> bool) (f : A -> Measures) (l : list A) : Measures :=
  foldr (fun x acc => if p x then add (f x) acc else acc) no_measures l.

(** [GROUP BY]: the measures of a key go to the first group of the same key. *)
Fixpoint group_add {K} (same : K -> K -> bool) (g : K) (m : Measures) (groups : list (K * Measures)) : list (K * Measures) :=
  match groups with
  | [] => [(g, m)]
  | (h, n) :: groups => if same h g then (h, add n m) :: groups else (h, n) :: group_add same g m groups
  end.
Definition group_by {K A} (same : K -> K -> bool) (key : A -> K) (f : A -> Measures) (l : list A) : list (K * Measures) :=
  fold_left (fun groups x => group_add same (key x) (f x) groups) l [].

Definition MS_PER_HOUR : Z := 3600000.
(** [DATE_FORMAT(t, '%Y-%m-%d %H:00:00')] *)
Definition hour_of (t : Z) : Z := t / MS_PER_HOUR * MS_PER_HOUR.
Definition within (a b t : Z) : bool := (a <=? t) && (t <? b).

(** What [GROUP BY bucket_hour, payer_fsp, payee_fsp, currency, sub_scenario] groups by: a
    name of a column there is the column, so that of [sub_scenario] is the raw one. *)
Record Group : Set := mkGroup {
  g_hour : Z; g_payer : jsstr; g_payee : jsstr; g_currency : jsstr; g_useCase : option jsstr }.
(** The primary key of a row of [transaction_hourly_rollup]. *)
Record Bucket : Set := mkBucket {
  bucket_hour : Z; b_payer_fsp : jsstr; b_payee_fsp : jsstr; b_currency : jsstr; b_sub_scenario : jsstr }.
(** [TransactionRollupRepository.RollupRow] with the stamp it is written with. *)
Record RollupRow : Set := mkRollupRow { rr_key : Bucket; rr_measures : Measures; rr_updatedAt : Z }.
Notation Rollup := (list RollupRow).

Definition XXX : jsstr := js "XXX".
Definition UNSPECIFIED : jsstr := js "UNSPECIFIED".

Section repository.
  Context {num : Type} (amount : num -> Z) (collate : jsstr -> jsstr -> comparison).
  Notation same_text := (same_text collate).
  Implicit Types (r : Row num) (rows : list (Row num)) (t : Rollup) (a b now : Z).

Definition one (x : bool) : Z := if x then 1 else 0.
(** [transfer_state = 'COMMITTED' OR possible_dispute = 1] *)
Definition moved r : bool :=
  match k_transferState (row_kind r) with Some Committed => true | _ => false end || possible_dispute r.
(** A transaction as the aggregation and the exact intervals measure it. *)
Definition measure r : Measures :=
  mkMeasures 1 (one (error r)) (one (possible_dispute r)) (one (is_given (ph_error (row_parties r))))
    (one (is_given (ph_error (row_quotes r)))) (one (is_given (ph_error (row_transfers r))))
    (one (is_given (patchError (row_patch r))))
    (if moved r then default 0 (amount <$> transferAmount (row_amounts r)) else 0) (one (moved r))
    (one (is_given (transaction_completed_at r)))
    ((fun c => c - transaction_started_at r) <$> transaction_completed_at r).

(** [COALESCE(transfer_currency, quoting_currency, 'XXX')] *)
Definition currency_of r : jsstr :=
  default XXX (coalesce (transferCurrency (row_amounts r)) (quotingCurrency (row_amounts r))).
(** [COALESCE(NULLIF(sub_scenario, ''), 'UNSPECIFIED')] *)
Definition use_case (o : option jsstr) : jsstr :=
  match o with Some s => if same_text s [] then UNSPECIFIED else s | None => UNSPECIFIED end.

Definition group_of r : Group :=
  mkGroup (hour_of (transaction_started_at r)) (payer_fsp r) (payee_fsp r) (currency_of r) (k_subScenario (row_kind r)).
Definition bucket_of_group (g : Group) : Bucket :=
  mkBucket (g_hour g) (g_payer g) (g_payee g) (g_currency g) (use_case (g_useCase g)).
Definition bucket_of r : Bucket := bucket_of_group (group_of r).

(** Texts are the same under the collation; NULL is a group of its own. *)
Definition same_null (a b : option jsstr) : bool :=
  match a, b with Some x, Some y => same_text x y | None, None => true | _, _ => false end.
Definition same_group (g h : Group) : bool :=
  (g_hour g =? g_hour h) && same_text (g_payer g) (g_payer h) && same_text (g_payee g) (g_payee h) &&
  same_text (g_currency g) (g_currency h) && same_null (g_useCase g) (g_useCase h).
Definition same_bucket (g h : Bucket) : bool :=
  (bucket_hour g =? bucket_hour h) && same_text (b_payer_fsp g) (b_payer_fsp h) &&
  same_text (b_payee_fsp g) (b_payee_fsp h) && same_text (b_currency g) (b_currency h) &&
  same_text (b_sub_scenario g) (b_sub_scenario h).

(** ** Aggregation *)

Definition groups_of rows : list (Group * Measures) := group_by same_group group_of measure rows.

(** [aggregateWindow] *)
Definition aggregateWindow a b rows : list (Bucket * Measures) :=
  map (fun x => (bucket_of_group (fst x), snd x))
    (groups_of (List.filter (fun r => within a b (transaction_started_at r)) rows)).

Fixpoint has_duplicate (keys : list Bucket) : bool :=
  match keys with [] => false | k :: keys => existsb (same_bucket k) keys || has_duplicate keys end.

(** [replaceWindow]: one transaction, so an error leaves the table as it was. The primary
    key refuses a row whose key is there already. *)
Definition replaceWindow (fault : option jsstr) now a b (rows : list (Bucket * Measures)) t : result jsstr Rollup :=
  match fault with
  | Some e => Err e
  | None =>
      let kept := List.filter (fun x => negb (within a b (bucket_hour (rr_key x)))) t in
      if existsb (fun k => existsb (same_bucket k) (map rr_key kept)) (map fst rows) || has_duplicate (map fst rows)
      then Err (js "ER_DUP_ENTRY")
      else Ok (kept ++ map (fun x => mkRollupRow (fst x) (snd x) now) rows)
  end.

(** [reaggregateWindow]: [replica] is what the read connection answers. *)
Definition reaggregateWindow (replica : result jsstr (list (Row num))) (fault : option jsstr) now a b t
    : result jsstr Rollup :=
  let! rows := replica in replaceWindow fault now a b (aggregateWindow a b rows) t.

(** [getLastUpdatedAt]: whether and when the table was written. *)
Definition getLastUpdatedAt t : option Z :=
  fold_right (fun x m => match m with Some u => Some (Z.max u (rr_updatedAt x)) | None => Some (rr_updatedAt x) end) None t.

(** ** Live totals *)

(** [scopeClause] *)
Definition scopeClause (scopeFspId : option jsstr) (payer payee : jsstr) : bool :=
  match scopeFspId with Some f => same_text payer f || same_text payee f | None => true end.
Definition in_scope_bucket (scopeFspId : option jsstr) (k : Bucket) : bool :=
  scopeClause scopeFspId (b_payer_fsp k) (b_payee_fsp k).

Definition live_vector (m : Measures) : LiveVector :=
  mkLiveVector (txn_count m) (txn_count m - error_count m) (error_count m) (dispute_count m) (parties_error_count m)
    (quotes_error_count m) (transfers_error_count m) (patch_error_count m) (latency_count m)
    (default 0 (sum_latency_ms m)).

(** [getLiveTotals] *)
Definition getLiveTotals (scopeFspId : option jsstr) from to t : LiveVector :=
  live_vector (total (fun x => within from to (bucket_hour (rr_key x)) && in_scope_bucket scopeFspId (rr_key x))
                 rr_measures t).

(** [UNION]: the first of texts that are the same. *)
Fixpoint distinct (l : list jsstr) : list jsstr :=
  match l with [] => [] | s :: l => s :: List.filter (fun x => negb (same_text s x)) (distinct l) end.
(** [getActiveFsps] *)
Definition getActiveFsps from to t : list jsstr :=
  let keys := map rr_key (List.filter (fun x => within from to (bucket_hour (rr_key x))) t) in
  distinct (map b_payer_fsp keys ++ map b_payee_fsp keys).
End repository.

(** ** The lock *)

Definition DEFAULT_MAX_ATTEMPTS : nat := 3.
Definition DEFAULT_BACKOFF_MS : Z := 200.

(** The constructor's arguments, and what happens at each attempt to acquire: the fault of
    the call, the token drawn, and what others do to the server while it waits. *)
Record LockEnv (S : Type) : Type := mkLockEnv {
  lockKey_ : jsstr; maxAttempts : nat; backoffMs : Z; set_fault : nat -> fault; set_token : nat -> jsstr;
  while_waiting : nat -> S -> S; while_working : S -> S; release_fault : fault }.
Arguments lockKey_ {S}. Arguments maxAttempts {S}. Arguments backoffMs {S}. Arguments set_fault {S}.
Arguments set_token {S}. Arguments while_waiting {S}. Arguments while_working {S}. Arguments release_fault {S}.

Section lock.
  Context {S : Type} {server : RedisServer S} (env : LockEnv S).

(** The loop of [acquire], with [left] attempts to go: a held lock ends it, only an error is
    tried again, after a wait. *)
Fixpoint acquire_attempts (left : nat) (ttlMs : Z) (s : S) : S * option jsstr :=
  match left with
  | O => (s, None)
  | Datatypes.S left' =>
      let attempt := (maxAttempts env - left + 1)%nat in
      let '(s, result) := call (set_fault env attempt) (SET (lockKey_ env) (set_token env attempt) true (Some ttlMs)) s in
      match result with
      | Ok result => (s, if result : bool then Some (set_token env attempt) else None)
      | Err _ =>
          if (attempt =? maxAttempts env)%nat then (s, None)
          else acquire_attempts left' ttlMs
                 (elapse (backoffMs env * Z.of_nat attempt) (while_waiting env attempt s))
      end
  end.
Definition acquire (ttlMs : Z) (s : S) : S * option jsstr := acquire_attempts (maxAttempts env) ttlMs s.

(** [RollupLock.release], with the script of the Redis client. *)
Definition release (token : jsstr) (s : S) : S :=
  fst (call (release_fault env) (RELEASE_LOCK_SCRIPT (lockKey_ env) token) s).
End lock.

(** ** The scheduler *)

Definition DEFAULT_INTERVAL_MS : Z := 300000.
Definition LOCK_TTL_BUFFER_MS : Z := 10000.
Definition BACKFILL_DAYS : nat := 30.
Definition BACKFILL_LOCK_TTL_MS : Z := 300000.
Definition WINDOW_MS : Z := 3 * MS_PER_HOUR.

(** The check of the constructor. *)
Definition interval_allowed (intervalMs : Z) : bool := negb (WINDOW_MS - MS_PER_HOUR <? intervalMs).

(** [computeWindow] *)
Definition computeWindow (now : Z) : Z * Z :=
  let windowEnd := hour_of now + MS_PER_HOUR in (windowEnd - WINDOW_MS, windowEnd).

Definition day_of (t : Z) : Z := t / MS_PER_DAY * MS_PER_DAY.

(** The databases a job reaches: the roll-up, its state row, and the live counters. *)
Record Store : Type := mkStore { rollup : Rollup; backfill_required : bool; live : Live }.

Section scheduler.
  Context {num : Type} (amount : num -> Z) (collate : jsstr -> jsstr -> comparison).
  (** What the read connection answers to the aggregation of a window, and the faults of the
      write connection and of the counters. *)
  Context (replica : Z -> result jsstr (list (Row num))) (write_fault : Z -> option jsstr).
  Context (live_ready live_failed : bool).
  Notation reaggregate now a b t := (reaggregateWindow amount collate (replica a) (write_fault a) now a b t).

(** The scopes of a reconciliation: the hub, then every participant active today. *)
Definition live_scopes (now : Z) (t : Rollup) : list (option jsstr) :=
  None :: map Some (getActiveFsps collate (day_of now) (hour_of now + MS_PER_HOUR) t).
Definition scope_name (scope : option jsstr) : jsstr := match scope with Some f => fspScope f | None => hubScope end.
(** [reconcileLive]; [reached] is how many scopes it gets to when a query fails. *)
Definition reconcileLive (reached : option nat) (now : Z) (d : Store) : Store :=
  let scopes := live_scopes now (rollup d) in
  let scopes := match reached with Some n => take n scopes | None => scopes end in
  mkStore (rollup d) (backfill_required d)
    (fold_left (fun s scope =>
       reseedScope live_ready live_failed (dateKey (day_of now)) (scope_name scope)
         (getLiveTotals collate scope (day_of now) (hour_of now + MS_PER_HOUR) (rollup d)) s) scopes (live d)).

(** The windows of the backfill, a day each, the oldest first. *)
Definition backfill_windows (now : Z) : list (Z * Z) :=
  map (fun i => let day := Z.of_nat BACKFILL_DAYS - 1 - Z.of_nat i in
                (day_of now - day * MS_PER_DAY, day_of now - (day - 1) * MS_PER_DAY)) (seq 0 BACKFILL_DAYS).
(** The loop over the days: it ends with the first that fails. *)
Fixpoint backfill_loop (now : Z) (windows : list (Z * Z)) (t : Rollup) : Rollup * bool :=
  match windows with
  | [] => (t, true)
  | (dayStart, dayEnd) :: windows =>
      match reaggregate now dayStart dayEnd t with
      | Ok t => backfill_loop now windows t
      | Err _ => (t, false)
      end
  end.
(** What [backfillIfRequired] does while it holds the lock. *)
Definition backfill (reached : option nat) (now later : Z) (d : Store) : Store :=
  if negb (backfill_required d) && match getLastUpdatedAt (rollup d) with Some _ => true | None => false end then d
  else
    let '(t, complete) := backfill_loop now (backfill_windows now) (rollup d) in
    if complete
    then let d := reconcileLive reached later (mkStore t (backfill_required d) (live d)) in mkStore (rollup d) false (live d)
    else mkStore t (backfill_required d) (live d).

(** What [tick] does while it holds the lock, with the time it reconciles at; an error is
    logged. *)
Definition refresh (reached : option nat) (now later : Z) (d : Store) : Store :=
  let '(windowStart, windowEnd) := computeWindow now in
  match reaggregate now windowStart windowEnd (rollup d) with
  | Ok t => reconcileLive reached later (mkStore t (backfill_required d) (live d))
  | Err _ => d
  end.

Section jobs.
  Context {S : Type} {server : RedisServer S} (env : LockEnv S).

(** A job under the lock, which is released whatever the job does. *)
Definition locked_job (ttlMs : Z) (job : Store -> Store) (w : S * Store) : S * Store :=
  let '(s, token) := acquire env ttlMs (fst w) in
  match token with
  | None => (s, snd w)
  | Some token => let d := job (snd w) in (release env token (while_working env s), d)
  end.

Definition backfillIfRequired (reached : option nat) (now later : Z) : S * Store -> S * Store :=
  locked_job BACKFILL_LOCK_TTL_MS (backfill reached now later).

(** [tick]; [running] is a tick of this replica that has not ended. *)
Definition tick (running : bool) (reached : option nat) (intervalMs now later : Z) (w : S * Store) : S * Store :=
  if running then w else locked_job (Z.max (intervalMs - LOCK_TTL_BUFFER_MS) 1000) (refresh reached now later) w.
End jobs.
End scheduler.

(** ** Reference: what the roll-up stands for *)

(** The days of the backfill. *)
Definition backfill_days (now h : Z) : bool := within (day_of now - 29 * MS_PER_DAY) (day_of now + MS_PER_DAY) h.

Section reference.
  Context {num : Type} (amount : num -> Z) (collate : jsstr -> jsstr -> comparison).

(** A condition on buckets that the collation cannot tell apart. *)
Definition proper (p : Bucket -> bool) : Prop := forall k l, same_bucket collate k l = true -> p k = p l.

(** The roll-up of some hours is that of the transactions started in them: it gives the
    same sums under every condition. *)
Definition fresh (hours : Z -> bool) (rows : list (Row num)) (t : Rollup) : Prop :=
  forall p, proper p ->
    total (fun x => hours (bucket_hour (rr_key x)) && p (rr_key x)) rr_measures t =
    total (fun r => hours (hour_of (transaction_started_at r)) && p (bucket_of collate r)) (measure amount) rows.

Definition aligned (a : Z) : Prop := hour_of a = a.

(** Use cases that do not read as the placeholder of the missing one. *)
Definition plain_use_case (r : Row num) : Prop :=
  match k_subScenario (row_kind r) with
  | Some s => same_text collate s [] = false /\ same_text collate s UNSPECIFIED = false
  | None => True
  end.

(** Two transactions the aggregation keeps apart and the primary key does not. *)
Definition clash (r r' : Row num) : Prop :=
  same_bucket collate (bucket_of collate r) (bucket_of collate r') = true /\ same_group collate (group_of r) (group_of r') = false.
(** Each transaction is in a group, each group is that of one, and no two are the same. *)
Definition keys_of (rows : list (Row num)) (keys : list Group) : Prop :=
  (forall r, In r rows -> exists g, In g keys /\ same_group collate g (group_of r) = true) /\
  (forall g, In g keys -> exists r, In r rows /\ g = group_of r) /\
  ForallOrdPairs (fun g h => same_group collate g h = false) keys.

(** The classifications of the transactions of a scope started in a range, added up. *)
Definition classified (scope : option jsstr) (from to : Z) (rows : list (Row num)) : LiveVector :=
  foldr (fun r acc =>
    if within from to (transaction_started_at r) && scopeClause collate scope (payer_fsp r) (payee_fsp r)
    then vector_add (classify (lr_flags (live_record r))) acc else acc) LIVE_VECTOR_ZERO rows.
End reference.

(** Times of ticks, each at most [interval] after the one before. *)
Inductive cadence (interval : Z) : list Z -> Prop :=
| cadence_one t : cadence interval [t]
| cadence_cons t t' l : t <= t' <= t + interval -> cadence interval (t' :: l) -> cadence interval (t :: t' :: l).

(** ** Examples *)

Definition example_row (payer payee : string) (useCase : option jsstr) (amount : option Z) (started : Z) (completed : option Z)
    (failed : bool) : Row Z :=
  mkRow (js payer) (js payee) no_participant no_participant (mkKind None None useCase (Some Committed) None)
    (mkAmounts None None (Some (js "USD")) amount None None None None) started completed false failed None
    no_phase no_phase no_phase no_patch None None None started started.
Definition example_rows : list (Row Z) :=
  [example_row "alpha" "beta" (Some (js "P2P")) (Some 1000) 10000000 (Some 10002000) false;
   example_row "ALPHA" "beta" (Some (js "p2p")) (Some 500) 10700000 None true;
   example_row "beta" "alpha" None None 10800000 None false].
Definition blank_row : Row Z := example_row "beta" "alpha" (Some []) None 10900000 None false.
Definition example_rollup : Rollup :=
  match reaggregateWindow (fun x => x) ignore_case (Ok example_rows) None 11000000 0 14400000 [] with Ok t => t | Err _ => [] end.
Definition example_lock : LockEnv keyspace :=
  mkLockEnv _ (js "rollup") DEFAULT_MAX_ATTEMPTS DEFAULT_BACKOFF_MS
    (fun k => if (k =? 1)%nat then Some (TError (js "ECONNRESET"), false) else None)
    (fun k => if (k =? 2)%nat then js "second" else js "other") (fun _ s => s) (fun s => s) None.

(** * Lemmas *)

Lemma measures_comm a b : add a b = add b a.
Proof. destruct a as [? ? ? ? ? ? ? ? ? ? []], b as [? ? ? ? ? ? ? ? ? ? []]; unfold add; cbn; f_equal; try lia; f_equal; lia. Qed.
Lemma add_assoc a b c : add a (add b c) = add (add a b) c.
Proof.
  destruct a as [? ? ? ? ? ? ? ? ? ? []], b as [? ? ? ? ? ? ? ? ? ? []], c as [? ? ? ? ? ? ? ? ? ? []];
    unfold add; cbn; f_equal; try lia; f_equal; lia.
Qed.
Lemma add_0_l a : add no_measures a = a.
Proof. by destruct a as [? ? ? ? ? ? ? ? ? ? []]. Qed.
Lemma add_0_r a : add a no_measures = a.
Proof. by rewrite measures_comm, add_0_l. Qed.
Lemma add_swap a b c d : add (add a b) (add c d) = add (add a c) (add b d).
Proof. rewrite <- !add_assoc. f_equal. rewrite !add_assoc. f_equal. apply measures_comm. Qed.

Section totals.
  Context {A : Type} (f : A -> Measures).
  Implicit Types (p q : A -> bool) (l : list A).

Lemma total_cons p x l : total p f (x :: l) = if p x then add (f x) (total p f l) else total p f l.
Proof. done. Qed.
Lemma total_app p l l' : total p f (l ++ l') = add (total p f l) (total p f l').
Proof.
  induction l as [|x l IH]; [by rewrite add_0_l|]. rewrite <- app_comm_cons, !total_cons, IH.
  destruct (p x); [apply add_assoc|done].
Qed.
Lemma total_ext p q l : (forall x, In x l -> p x = q x) -> total p f l = total q f l.
Proof.
  intros H. induction l as [|x l IH]; [done|]. rewrite !total_cons, (H x) by (by left). rewrite IH; [done|].
  intros. apply H. by right.
Qed.
Lemma total_none p l : (forall x, In x l -> p x = false) -> total p f l = no_measures.
Proof.
  intros H. induction l as [|x l IH]; [done|]. rewrite total_cons, (H x) by (by left). apply IH. intros. apply H. by right.
Qed.
Lemma total_filter p q l : total p f (List.filter q l) = total (fun x => q x && p x) f l.
Proof. induction l as [|x l IH]; [done|]. cbn [List.filter]. rewrite total_cons. destruct (q x); [by rewrite total_cons, IH|done]. Qed.
(** A total splits over conditions that exclude each other. *)
Lemma total_split p q r l :
  (forall x, In x l -> p x = q x || r x) -> (forall x, In x l -> q x && r x = false) ->
  total p f l = add (total q f l) (total r f l).
Proof.
  intros Hp Hx. induction l as [|x l IH]; [done|]. rewrite !total_cons.
  rewrite IH by (intros; first [apply Hp|apply Hx]; by right). rewrite (Hp x) by (by left). pose proof (Hx x (or_introl eq_refl)).
  destruct (q x), (r x); cbn [orb andb] in *; try done.
  - apply add_assoc.
  - rewrite !add_assoc. f_equal. apply measures_comm.
Qed.
End totals.
Lemma total_map {A B} (g : A -> B) p (f : B -> Measures) l : total p f (map g l) = total (fun x => p (g x)) (fun x => f (g x)) l.
Proof. induction l as [|x l IH]; [done|]. cbn [map]. by rewrite !total_cons, IH. Qed.

Section groups.
  Context {K A : Type} (same : K -> K -> bool) (key : A -> K) (f : A -> Measures).

Lemma group_add_total (q : K -> bool) g m groups :
  (forall h k, same h k = true -> q h = q k) ->
  total (fun x => q (fst x)) snd (group_add same g m groups) =
  add (if q g then m else no_measures) (total (fun x => q (fst x)) snd groups).
Proof.
  intros Hq. induction groups as [|[h n] groups IH]; cbn [group_add].
  - rewrite total_cons. cbn [fst snd]. destruct (q g); [by rewrite add_0_r|done].
  - destruct (same h g) eqn:Hs; rewrite !total_cons; cbn [fst snd].
    + rewrite (Hq h g Hs). destruct (q g); [|by rewrite add_0_l]. rewrite add_assoc. f_equal. apply measures_comm.
    + rewrite IH. destruct (q h); [|done]. rewrite !add_assoc. f_equal. apply measures_comm.
Qed.

(** Grouping keeps the totals of conditions that a key's group decides. *)
Lemma group_by_total (q : K -> bool) l :
  (forall h k, same h k = true -> q h = q k) ->
  total (fun x => q (fst x)) snd (group_by same key f l) = total (fun x => q (key x)) f l.
Proof.
  intros Hq. unfold group_by.
  assert (H : forall acc, total (fun x => q (fst x)) snd (fold_left (fun groups x => group_add same (key x) (f x) groups) l acc) =
      add (total (fun x => q (fst x)) snd acc) (total (fun x => q (key x)) f l)).
  { induction l as [|x l IH]; intros acc; cbn [fold_left]; [by rewrite add_0_r|].
    rewrite IH, group_add_total, total_cons by done. destruct (q (key x)); [|by rewrite add_0_l].
    rewrite add_assoc. f_equal. apply measures_comm. }
  rewrite H. apply add_0_l.
Qed.

(** The groups: a new one is appended when none is the same. *)
Lemma group_add_keys g m groups :
  map fst (group_add same g m groups) =
  if existsb (fun h => same h g) (map fst groups) then map fst groups else map fst groups ++ [g].
Proof.
  induction groups as [|[h n] groups IH]; [done|]. cbn [group_add map existsb fst].
  destruct (same h g); cbn [orb map fst]; [done|]. rewrite IH. by destruct (existsb _ _).
Qed.
End groups.

(** ** Hours *)

Lemma hour_bounds t : hour_of t <= t < hour_of t + MS_PER_HOUR.
Proof. unfold hour_of, MS_PER_HOUR. pose proof (Z.div_mod t 3600000). pose proof (Z.mod_pos_bound t 3600000). lia. Qed.
Lemma hour_aligned t : aligned (hour_of t).
Proof. unfold aligned, hour_of, MS_PER_HOUR. rewrite Z.div_mul by done. done. Qed.
Lemma hour_mul k : aligned (k * MS_PER_HOUR).
Proof. unfold aligned, hour_of, MS_PER_HOUR. by rewrite Z.div_mul. Qed.
Lemma aligned_le a t : aligned a -> (a <=? hour_of t) = (a <=? t).
Proof.
  intros Ha. unfold aligned, hour_of, MS_PER_HOUR in *. pose proof (Z.div_mod t 3600000). pose proof (Z.mod_pos_bound t 3600000).
  apply eq_true_iff_eq. rewrite !Z.leb_le. split; [lia|]. intros. assert (a / 3600000 <= t / 3600000) by (apply Z.div_le_mono; lia). lia.
Qed.
Lemma within_aligned a b t : aligned a -> aligned b -> within a b (hour_of t) = within a b t.
Proof. intros Ha Hb. unfold within. rewrite aligned_le by done. by rewrite !Z.ltb_antisym, aligned_le by done. Qed.

(** ** Groups and buckets *)

Section aggregation.
  Context {num : Type} (amount : num -> Z) (collate : jsstr -> jsstr -> comparison) `{!Collation collate}.
  Notation same := (Pages.same_text collate).
  Notation measure := (measure amount).

Lemma same_refl s : same s s = true.
Proof. unfold same_text. pose proof (collate_opp s s) as H. by destruct (collate s s). Qed.
Lemma same_sym s s' : same s s' = same s' s.
Proof. unfold same_text. rewrite (collate_opp s' s). by destruct (collate s' s). Qed.
Lemma same_subst s s' u : same s s' = true -> same s u = same s' u.
Proof.
  unfold same_text. intros H. destruct (collate s s') eqn:He; try done. by rewrite (collate_eq_subst s s' u He).
Qed.
Lemma same_subst_r s s' u : same s s' = true -> same u s = same u s'.
Proof. intros H. rewrite !(same_sym u). by apply same_subst. Qed.
Lemma same_null_refl o : same_null collate o o = true.
Proof. destruct o; [apply same_refl|done]. Qed.
Lemma same_null_subst o o' u : same_null collate o o' = true -> same_null collate o u = same_null collate o' u.
Proof. destruct o, o'; try done. destruct u; [apply same_subst|done]. Qed.

Lemma same_group_refl g : same_group collate g g = true.
Proof. unfold same_group. by rewrite Z.eqb_refl, !same_refl, same_null_refl. Qed.
Lemma same_group_subst g h k : same_group collate g h = true -> same_group collate g k = same_group collate h k.
Proof.
  unfold same_group. rewrite !andb_true_iff, Z.eqb_eq. intros [[[[-> H1] H2] H3] H4].
  by rewrite (same_subst _ _ _ H1), (same_subst _ _ _ H2), (same_subst _ _ _ H3), (same_null_subst _ _ _ H4).
Qed.
Lemma same_bucket_refl k : same_bucket collate k k = true.
Proof. unfold same_bucket. by rewrite Z.eqb_refl, !same_refl. Qed.
Lemma same_bucket_subst g h k : same_bucket collate g h = true -> same_bucket collate g k = same_bucket collate h k.
Proof.
  unfold same_bucket. rewrite !andb_true_iff, Z.eqb_eq. intros [[[[-> H1] H2] H3] H4].
  by rewrite (same_subst _ _ _ H1), (same_subst _ _ _ H2), (same_subst _ _ _ H3), (same_subst _ _ _ H4).
Qed.
Lemma same_bucket_hour k l : same_bucket collate k l = true -> bucket_hour k = bucket_hour l.
Proof. unfold same_bucket. rewrite !andb_true_iff, Z.eqb_eq. tauto. Qed.

(** What is one group is one bucket. *)
Lemma group_bucket g h : same_group collate g h = true ->
  same_bucket collate (bucket_of_group collate g) (bucket_of_group collate h) = true.
Proof.
  unfold same_group, same_bucket. cbn. rewrite !andb_true_iff. intros [[[[H0 H1] H2] H3] H4]. repeat split; try done.
  unfold use_case. destruct (g_useCase g) as [x|], (g_useCase h) as [y|]; try done; [|apply same_refl].
  cbn in H4. rewrite (same_subst _ _ _ H4). destruct (same y []); [apply same_refl|done].
Qed.

Lemma proper_group p : proper collate p -> forall g h, same_group collate g h = true ->
  p (bucket_of_group collate g) = p (bucket_of_group collate h).
Proof. intros Hp g h Hg. by apply Hp, group_bucket. Qed.

Lemma groups_total (q : Group -> bool) rows :
  (forall h k, same_group collate h k = true -> q h = q k) ->
  total (fun x => q (fst x)) snd (groups_of amount collate rows) = total (fun r => q (group_of r)) measure rows.
Proof. apply group_by_total. Qed.

(** The aggregation of a window has the sums of its transactions. *)
Lemma aggregate_total p a b rows : proper collate p ->
  total (fun x => p (fst x)) snd (aggregateWindow amount collate a b rows) =
  total (fun r => within a b (transaction_started_at r) && p (bucket_of collate r)) measure rows.
Proof.
  intros Hp. unfold aggregateWindow. rewrite total_map.
  rewrite (groups_total (fun g => p (bucket_of_group collate g))) by (by apply proper_group).
  by rewrite total_filter.
Qed.

Lemma same_group_sym g h : same_group collate g h = same_group collate h g.
Proof.
  destruct (same_group collate g h) eqn:H1, (same_group collate h g) eqn:H2; try done.
  - rewrite <- (same_group_subst _ _ g H1), same_group_refl in H2. done.
  - rewrite <- (same_group_subst _ _ h H2), same_group_refl in H1. done.
Qed.
Lemma same_bucket_sym g h : same_bucket collate g h = same_bucket collate h g.
Proof.
  destruct (same_bucket collate g h) eqn:H1, (same_bucket collate h g) eqn:H2; try done.
  - rewrite <- (same_bucket_subst _ _ g H1), same_bucket_refl in H2. done.
  - rewrite <- (same_bucket_subst _ _ h H2), same_bucket_refl in H1. done.
Qed.

Lemma pairs_snoc {A} (R : A -> A -> Prop) l x :
  ForallOrdPairs R l -> (forall y, In y l -> R y x) -> ForallOrdPairs R (l ++ [x]).
Proof.
  induction 1 as [|y l Hy _ IH]; intros Hx; [by repeat constructor|]. cbn. constructor.
  - apply List.Forall_app. split; [done|]. constructor; [apply Hx; by left|done].
  - apply IH. intros. apply Hx. by right.
Qed.

Lemma groups_keys rows : keys_of collate rows (map fst (groups_of amount collate rows)).
Proof.
  induction rows as [|r rows IH] using rev_ind; [repeat split; try done; constructor|].
  unfold groups_of, group_by in *. rewrite fold_left_app. cbn [fold_left]. rewrite group_add_keys.
  set (keys := map fst _) in *. destruct IH as (H1 & H2 & H3).
  destruct (existsb _ keys) eqn:He.
  - apply existsb_exists in He as (g & Hg & Hs). split; [|split; [|done]].
    + intros x Hx. apply in_app_iff in Hx as [Hx|[<-|[]]]; [by apply H1|]. by exists g.
    + intros h Hh. destruct (H2 h Hh) as (x & Hx & ->). exists x. split; [|done]. apply in_app_iff. by left.
  - split; [|split].
    + intros x Hx. apply in_app_iff in Hx as [Hx|[<-|[]]].
      * destruct (H1 x Hx) as (g & Hg & Hs). exists g. split; [|done]. apply in_app_iff. by left.
      * exists (group_of r). split; [apply in_app_iff; right; by left|]. apply same_group_refl.
    + intros h Hh. apply in_app_iff in Hh as [Hh|[<-|[]]].
      * destruct (H2 h Hh) as (x & Hx & ->). exists x. split; [|done]. apply in_app_iff. by left.
      * exists r. split; [|done]. apply in_app_iff. right. by left.
    + apply pairs_snoc; [done|]. intros g Hg. apply not_true_iff_false. intros Hs.
      assert (existsb (fun h => same_group collate h (group_of r)) keys = true); [|congruence].
      apply existsb_exists. by exists g.
Qed.

(** The primary key is hit twice exactly when two transactions clash. *)
Lemma duplicate_clash rows :
  has_duplicate collate (map (bucket_of_group collate) (map fst (groups_of amount collate rows))) = true <->
  exists r r', In r rows /\ In r' rows /\ clash collate r r'.
Proof.
  destruct (groups_keys rows) as (H1 & H2 & H3). set (keys := map fst _) in *. split.
  - clear H1. intros Hd. induction H3 as [|g keys Hg _ IH]; [done|]. cbn [map has_duplicate] in Hd.
    apply orb_true_iff in Hd as [Hd|Hd]; [|apply IH; [|done]; intros h Hh; apply H2; by right].
    apply existsb_exists in Hd as (k & Hk & Hs). apply in_map_iff in Hk as (h & <- & Hh).
    destruct (H2 g (or_introl eq_refl)) as (r & Hr & ->), (H2 h (or_intror Hh)) as (r' & Hr' & ->).
    exists r, r'. split; [done|]. split; [done|]. split; [done|]. by apply (proj1 (List.Forall_forall _ _) Hg).
  - intros (r & r' & Hr & Hr' & Hb & Hn). destruct (H1 r Hr) as (g & Hg & Hs), (H1 r' Hr') as (h & Hh & Hs').
    assert (Hgh : same_bucket collate (bucket_of_group collate g) (bucket_of_group collate h) = true).
    { rewrite (same_bucket_subst _ _ _ (group_bucket _ _ Hs)), same_bucket_sym.
      by rewrite (same_bucket_subst _ _ _ (group_bucket _ _ Hs')), same_bucket_sym. }
    assert (Hne : g <> h).
    { intros ->. rewrite (same_group_subst _ _ _ Hs) in Hs'. congruence. }
    clear -Hg Hh Hgh Hne Collation0. induction keys as [|k keys IH]; [done|]. cbn [map has_duplicate]. apply orb_true_iff.
    destruct Hg as [->|Hg], Hh as [->|Hh]; [done|left|left|right; by apply IH]; apply existsb_exists.
    + exists (bucket_of_group collate h). split; [by apply in_map|done].
    + exists (bucket_of_group collate g). split; [by apply in_map|]. by rewrite same_bucket_sym.
Qed.

(** Plain use cases do not clash. *)
Lemma plain_no_clash (r r' : Row num) : plain_use_case collate r -> plain_use_case collate r' -> ~ clash collate r r'.
Proof.
  unfold plain_use_case, clash, same_bucket, same_group, bucket_of, bucket_of_group, use_case. cbn.
  intros Hr Hr' [Hb Hg]. rewrite !andb_true_iff in Hb. destruct Hb as [[[[H0 H1] H2] H3] H4].
  rewrite H0, H1, H2, H3 in Hg. cbn [andb] in Hg.
  destruct (k_subScenario (row_kind r)) as [x|], (k_subScenario (row_kind r')) as [y|]; cbn in *; try done.
  - destruct Hr as [Hx _], Hr' as [Hy _]. rewrite Hx, Hy in H4. congruence.
  - destruct Hr as [Hx Hu]. rewrite Hx in H4. congruence.
  - destruct Hr' as [Hy Hu]. rewrite Hy, same_sym in H4. congruence.
Qed.
End aggregation.

(** ** Windows *)

Section windows.
  Context {num : Type} (amount : num -> Z) (collate : jsstr -> jsstr -> comparison) `{!Collation collate}.
  Implicit Types (rows : list (Row num)) (t : Rollup).
  Notation fresh := (fresh amount collate).
  Notation reaggregate := (reaggregateWindow amount collate).

Lemma proper_hours (hours : Z -> bool) p : proper collate p -> proper collate (fun k => hours (bucket_hour k) && p k).
Proof. intros Hp k l Hkl. by rewrite (same_bucket_hour collate _ _ Hkl), (Hp _ _ Hkl). Qed.

Lemma fresh_sub hours hours' rows t :
  fresh hours rows t -> (forall h, hours' h = true -> hours h = true) -> fresh hours' rows t.
Proof.
  intros Hf Hsub p Hp. pose proof (Hf _ (proper_hours hours' p Hp)) as H. cbn beta in H.
  rewrite (total_ext _ _ (fun x => hours (bucket_hour (rr_key x)) && (hours' (bucket_hour (rr_key x)) && p (rr_key x)))).
  2:{ intros x _. destruct (hours' (bucket_hour (rr_key x))) eqn:Hh; [by rewrite (Hsub _ Hh)|by rewrite andb_false_r]. }
  rewrite H. apply total_ext. intros r _. cbn [bucket_of bucket_of_group bucket_hour group_of g_hour].
  destruct (hours' (hour_of (transaction_started_at r))) eqn:Hh; [by rewrite (Hsub _ Hh)|by rewrite andb_false_r].
Qed.

Lemma fresh_union hours hours' rows t :
  fresh hours rows t -> fresh hours' rows t -> (forall h, hours h && hours' h = false) ->
  fresh (fun h => hours h || hours' h) rows t.
Proof.
  intros Hf Hf' Hd p Hp.
  rewrite (total_split _ _ (fun x => hours (bucket_hour (rr_key x)) && p (rr_key x))
             (fun x => hours' (bucket_hour (rr_key x)) && p (rr_key x))).
  - rewrite (Hf p Hp), (Hf' p Hp). symmetry. apply total_split; intros r _; [by destruct (hours _), (hours' _), (p _)|].
    pose proof (Hd (hour_of (transaction_started_at r))). by destruct (hours _), (hours' _), (p _).
  - intros x _. by destruct (hours _), (hours' _), (p _).
  - intros x _. pose proof (Hd (bucket_hour (rr_key x))). by destruct (hours _), (hours' _), (p _).
Qed.

(** Freshness depends on the rows of its hours alone. *)
Lemma fresh_other hours rows t t' :
  (forall p, total (fun x => hours (bucket_hour (rr_key x)) && p x) rr_measures t' =
             total (fun x => hours (bucket_hour (rr_key x)) && p x) rr_measures t) ->
  fresh hours rows t -> fresh hours rows t'.
Proof. intros H Hf p Hp. rewrite (H (fun x => p (rr_key x))). by apply Hf. Qed.

Lemma aggregate_hours a b rows x : aligned a -> aligned b ->
  In x (aggregateWindow amount collate a b rows) -> within a b (bucket_hour (fst x)) = true.
Proof.
  intros Ha Hb Hx. unfold aggregateWindow in Hx. apply in_map_iff in Hx as ([g m] & <- & Hg).
  destruct (groups_keys amount collate (List.filter (fun r => within a b (transaction_started_at r)) rows)) as (_ & H2 & _).
  destruct (H2 g) as (r & Hr & ->); [apply in_map_iff; by exists (g, m)|]. apply filter_In in Hr as [_ Hr].
  cbn. by rewrite within_aligned.
Qed.

Lemma replace_window now a b rows t :
  aligned a -> aligned b ->
  reaggregate (Ok rows) None now a b t =
  if has_duplicate collate (map fst (aggregateWindow amount collate a b rows)) then Err (js "ER_DUP_ENTRY")
  else Ok (List.filter (fun x => negb (within a b (bucket_hour (rr_key x)))) t ++
           map (fun x => mkRollupRow (fst x) (snd x) now) (aggregateWindow amount collate a b rows)).
Proof.
  intros Ha Hb. unfold reaggregateWindow, replaceWindow. set (kept := List.filter _ t).
  assert (existsb (fun k => existsb (same_bucket collate k) (map rr_key kept))
            (map fst (aggregateWindow amount collate a b rows)) = false) as ->; [|done].
  apply not_true_iff_false. intros He. apply existsb_exists in He as (k & Hk & He). apply in_map_iff in Hk as (x & <- & Hx).
  apply existsb_exists in He as (l & Hl & Hs). apply in_map_iff in Hl as (y & <- & Hy).
  apply (aggregate_hours a b rows) in Hx; [|done..]. apply filter_In in Hy as [_ Hy].
  rewrite (same_bucket_hour collate _ _ Hs) in Hx. by rewrite Hx in Hy.
Qed.

(** What replacing a window leaves: it is that of the transactions, the rest is as it was. *)
Lemma replaced now a b rows t t' :
  aligned a -> aligned b -> reaggregate (Ok rows) None now a b t = Ok t' ->
  fresh (within a b) rows t' /\
  forall hours, (forall h, hours h && within a b h = false) ->
    forall p, total (fun x => hours (bucket_hour (rr_key x)) && p x) rr_measures t' =
              total (fun x => hours (bucket_hour (rr_key x)) && p x) rr_measures t.
Proof.
  intros Ha Hb. rewrite replace_window by done. destruct (has_duplicate _ _); [done|]. intros Ht%Ok_inj. subst t'. split.
  - intros p Hp. rewrite total_app, total_none, add_0_l.
    + rewrite total_map. cbn [rr_key rr_measures].
      rewrite (aggregate_total amount collate (fun k => within a b (bucket_hour k) && p k)) by (by apply proper_hours).
      apply total_ext. intros r _. cbn. rewrite within_aligned by done. by destruct (within a b _).
    + intros x Hx. apply filter_In in Hx as [_ Hx]. by destruct (within a b _).
  - intros hours Hd p. rewrite total_app, (total_none _ _ (map _ _)), add_0_r.
    + rewrite total_filter. apply total_ext. intros x _. pose proof (Hd (bucket_hour (rr_key x))).
      by destruct (hours _), (within a b _).
    + intros x Hx. apply in_map_iff in Hx as (y & <- & Hy). cbn. apply (aggregate_hours a b rows) in Hy; [|done..].
      pose proof (Hd (bucket_hour (fst y))). rewrite Hy, andb_true_r in *. by destruct (hours _).
Qed.

Lemma no_duplicate a b rows :
  has_duplicate collate (map fst (aggregateWindow amount collate a b rows)) = true <->
  exists r r', In r rows /\ In r' rows /\ within a b (transaction_started_at r) = true /\
    within a b (transaction_started_at r') = true /\ clash collate r r'.
Proof.
  unfold aggregateWindow. rewrite map_map. cbn [fst].
  rewrite <- (map_map fst (bucket_of_group collate)), duplicate_clash by done.
  split; intros (r & r' & H); exists r, r'; rewrite ?filter_In in *; tauto.
Qed.

(** The sums of a participant or the hub, from the roll-up or from the transactions. *)
Lemma live_vector_add a b : live_vector (add a b) = vector_add (live_vector a) (live_vector b).
Proof.
  destruct a as [? ? ? ? ? ? ? ? ? ? []], b as [? ? ? ? ? ? ? ? ? ? []]; unfold live_vector, vector_add, zip, add; cbn;
    f_equal; lia.
Qed.
Lemma live_vector_measure (r : Row num) : live_vector (measure amount r) = classify (lr_flags (live_record r)).
Proof.
  unfold live_vector, classify, measure, live_record. cbn. f_equal; try by destruct (error r).
  all: unfold one, is_given; by destruct (transaction_completed_at r).
Qed.
Lemma live_total p rows :
  live_vector (total p (measure amount) rows) =
  foldr (fun r acc => if p r then vector_add (classify (lr_flags (live_record r))) acc else acc) LIVE_VECTOR_ZERO rows.
Proof.
  induction rows as [|r rows IH]; [done|]. rewrite total_cons. cbn [foldr]. destruct (p r); [|done].
  by rewrite live_vector_add, live_vector_measure, IH.
Qed.

Lemma scope_proper scope : proper collate (in_scope_bucket collate scope).
Proof.
  intros k l Hkl. unfold same_bucket in Hkl. rewrite !andb_true_iff in Hkl. destruct Hkl as [[[[_ H1] H2] _] _].
  unfold in_scope_bucket, scopeClause. destruct scope as [f|]; [|done].
  by rewrite (same_subst collate _ _ _ H1), (same_subst collate _ _ _ H2).
Qed.

Lemma live_totals_classified scope from to rows t :
  aligned from -> aligned to -> fresh (within from to) rows t ->
  getLiveTotals collate scope from to t = classified collate scope from to rows.
Proof.
  intros Hfrom Hto Hf. unfold getLiveTotals, classified. rewrite (Hf _ (scope_proper scope)), live_total.
  assert (Hext : forall r : Row num, within from to (hour_of (transaction_started_at r)) && in_scope_bucket collate scope (bucket_of collate r) =
            within from to (transaction_started_at r) && scopeClause collate scope (payer_fsp r) (payee_fsp r)).
  { intros r. by rewrite within_aligned. }
  clear Hf. induction rows as [|r rows IH]; [done|]. cbn [foldr]. by rewrite Hext, IH.
Qed.
End windows.

(** ** The schedule *)

Lemma window_aligned now : aligned (fst (computeWindow now)) /\ aligned (snd (computeWindow now)).
Proof.
  unfold computeWindow, WINDOW_MS, hour_of. cbn [fst snd]. split.
  - replace (now / MS_PER_HOUR * MS_PER_HOUR + MS_PER_HOUR - 3 * MS_PER_HOUR) with ((now / MS_PER_HOUR - 2) * MS_PER_HOUR) by lia.
    apply hour_mul.
  - replace (now / MS_PER_HOUR * MS_PER_HOUR + MS_PER_HOUR) with ((now / MS_PER_HOUR + 1) * MS_PER_HOUR) by lia. apply hour_mul.
Qed.
Lemma day_aligned now k : aligned (day_of now + k * MS_PER_DAY).
Proof.
  assert (day_of now + k * MS_PER_DAY = (now / MS_PER_DAY * 24 + k * 24) * MS_PER_HOUR) as ->
    by (unfold day_of, MS_PER_DAY, MS_PER_HOUR; lia).
  apply hour_mul.
Qed.

(** The window of a time within two hours of the end of an hour has the hour. *)
Lemma window_has hour now : aligned hour -> hour + MS_PER_HOUR <= now < hour + 3 * MS_PER_HOUR ->
  within (fst (computeWindow now)) (snd (computeWindow now)) hour = true.
Proof.
  intros Ha Hn. unfold within, computeWindow, WINDOW_MS. cbn [fst snd].
  pose proof (hour_bounds now). pose proof (hour_aligned now). unfold aligned, hour_of, MS_PER_HOUR in *.
  apply andb_true_iff. rewrite Z.leb_le, Z.ltb_lt. lia.
Qed.

(** With an interval the constructor accepts, every hour that ends between two ticks is
    aggregated once more after it has ended, whatever the phase of the ticks. *)
Theorem hours_settled (intervalMs : Z) (ticks : list Z) (hour : Z) :
  interval_allowed intervalMs = true -> cadence intervalMs ticks -> aligned hour ->
  (exists t, head ticks = Some t /\ t < hour + MS_PER_HOUR) -> (exists t, last ticks = Some t /\ hour + MS_PER_HOUR <= t) ->
  exists t, In t ticks /\ hour + MS_PER_HOUR <= t /\ within (fst (computeWindow t)) (snd (computeWindow t)) hour = true.
Proof.
  intros Hi Hc Ha (x & Hx & Hlt) Hl. unfold interval_allowed, WINDOW_MS, MS_PER_HOUR in Hi.
  apply negb_true_iff, Z.ltb_ge in Hi.
  assert (H : exists t, In t ticks /\ hour + MS_PER_HOUR <= t < hour + 3 * MS_PER_HOUR).
  { clear -Hi Hc Hx Hlt Hl. revert x Hx Hlt. induction Hc as [t|t t' l Hit Hc IH]; intros x [= <-] Hlt; destruct Hl as (y & Hl & Hy).
    - cbn in Hl. injection Hl as <-. lia.
    - destruct (Z.lt_ge_cases t' (hour + MS_PER_HOUR)) as [Hd|Hd].
      + destruct (IH (ex_intro _ y (conj Hl Hy)) t' eq_refl Hd) as (z & Hz & Hb). exists z. split; [by right|done].
      + exists t'. split; [right; by left|]. unfold MS_PER_HOUR in *. lia. }
  destruct H as (t & Ht & Hb). exists t. split; [done|]. split; [lia|]. by apply window_has.
Qed.

(** With a longer interval an hour can be missed. *)
Example interval_too_long :
  interval_allowed 7200001 = false /\ cadence 7200001 [MS_PER_HOUR - 1; 3 * MS_PER_HOUR] /\
  within (fst (computeWindow (3 * MS_PER_HOUR))) (snd (computeWindow (3 * MS_PER_HOUR))) 0 = false.
Proof. split; [reflexivity|]. split; [repeat constructor; vm_compute; discriminate|reflexivity]. Qed.

(** ** The jobs *)

Section job_results.
  Context {num : Type} (amount : num -> Z) (collate : jsstr -> jsstr -> comparison) `{!Collation collate}.
  Context (replica : Z -> result jsstr (list (Row num))) (write_fault : Z -> option jsstr).
  Notation fresh := (fresh amount collate).
  Notation reaggregate := (reaggregateWindow amount collate).

Lemma fresh_step hours now a b rows t t' :
  aligned a -> aligned b -> reaggregate (Ok rows) None now a b t = Ok t' ->
  fresh hours rows t -> fresh (fun h => hours h || within a b h) rows t'.
Proof.
  intros Ha Hb Hr Hf. destruct (replaced amount collate now a b rows t t' Ha Hb Hr) as [Hw Ho].
  apply (fresh_sub amount collate (fun h => (hours h && negb (within a b h)) || within a b h)).
  - apply fresh_union; [|done|intros h; by destruct (hours h), (within a b h)].
    apply (fresh_other amount collate _ _ t).
    + intros p. apply (Ho (fun h => hours h && negb (within a b h))). intros h. by destruct (hours h), (within a b h).
    + apply (fresh_sub amount collate hours); [done|]. intros h. by destruct (hours h).
  - intros h. by destruct (hours h), (within a b h).
Qed.

Lemma fresh_nowhere rows t : fresh (fun _ => false) rows t.
Proof. intros p Hp. by rewrite !total_none. Qed.

Lemma backfill_loop_fresh rows now windows hours t t' :
  (forall a, replica a = Ok rows \/ exists e, replica a = Err e) -> Forall (fun w => aligned (fst w) /\ aligned (snd w)) windows ->
  fresh hours rows t -> backfill_loop amount collate replica write_fault now windows t = (t', true) ->
  fresh (fun h => hours h || existsb (fun w => within (fst w) (snd w) h) windows) rows t'.
Proof.
  intros Hrep Hw. revert hours t. induction Hw as [|[a b] windows [Ha Hb] _ IH]; intros hours t Hf Hl; cbn [backfill_loop] in Hl.
  - injection Hl as <-. apply (fresh_sub amount collate hours); [done|]. intros h. cbn. by rewrite orb_false_r.
  - destruct (Hrep a) as [Hr|[e Hr]]; rewrite Hr in Hl; [|done].
    destruct (write_fault a) as [e|] eqn:Hwf; [done|].
    destruct (reaggregate (Ok rows) None now a b t) as [t1|e] eqn:Hre; [|done].
    pose proof (IH _ _ (fresh_step _ _ _ _ _ _ _ Ha Hb Hre Hf) Hl) as H.
    apply (fresh_sub amount collate _ _ _ _ H). intros h. cbn. by rewrite orb_assoc.
Qed.

Lemma backfill_loop_completes rows now windows t :
  (forall a, replica a = Ok rows) -> (forall a, write_fault a = None) ->
  (forall r r', In r rows -> In r' rows -> ~ clash collate r r') ->
  Forall (fun w => aligned (fst w) /\ aligned (snd w)) windows ->
  snd (backfill_loop amount collate replica write_fault now windows t) = true.
Proof.
  intros Hrep Hwf Hc Hw. revert t. induction Hw as [|[a b] windows [Ha Hb] _ IH]; intros t; [done|]. cbn [backfill_loop].
  rewrite Hrep, Hwf, replace_window by done.
  destruct (has_duplicate collate (map fst (aggregateWindow amount collate a b rows))) eqn:Hd; [|apply IH].
  apply no_duplicate in Hd as (r & r' & Hr & Hr' & _ & _ & Hcl); [|done]. by destruct (Hc r r').
Qed.

Lemma backfill_windows_aligned now : Forall (fun w => aligned (fst w) /\ aligned (snd w)) (backfill_windows now).
Proof.
  unfold backfill_windows. apply Forall_map, Forall_true. intros i. cbn [fst snd].
  set (day := Z.of_nat BACKFILL_DAYS - 1 - Z.of_nat i).
  replace (day_of now - day * MS_PER_DAY) with (day_of now + - day * MS_PER_DAY) by lia.
  replace (day_of now - (day - 1) * MS_PER_DAY) with (day_of now + - (day - 1) * MS_PER_DAY) by lia.
  split; apply day_aligned.
Qed.
Lemma backfill_windows_cover now h :
  backfill_days now h = true -> existsb (fun w => within (fst w) (snd w) h) (backfill_windows now) = true.
Proof.
  unfold backfill_days, within. rewrite andb_true_iff, Z.leb_le, Z.ltb_lt. intros Hh. apply existsb_exists.
  set (o := day_of now - 29 * MS_PER_DAY) in *. set (i := (h - o) / MS_PER_DAY).
  assert (Hi : 0 <= i < 30 /\ o + i * MS_PER_DAY <= h < o + (i + 1) * MS_PER_DAY).
  { pose proof (Z.div_mod (h - o) MS_PER_DAY). pose proof (Z.mod_pos_bound (h - o) MS_PER_DAY).
    assert (h - o < 30 * MS_PER_DAY) by (unfold o, MS_PER_DAY in *; lia). unfold i, MS_PER_DAY in *. lia. }
  eexists. split; [apply in_map_iff; exists (Z.to_nat i); split; [reflexivity|apply in_seq; unfold BACKFILL_DAYS; lia]|].
  cbn [fst snd]. rewrite andb_true_iff, Z.leb_le, Z.ltb_lt. rewrite Z2Nat.id by lia.
  unfold o, BACKFILL_DAYS in *. change (Z.of_nat 30) with 30. lia.
Qed.

(** A backfill that is required rolls up the last thirty days, today included, from the
    transactions and clears the mark, or it fails and leaves the mark for the next start;
    without faults and clashing use cases it does not fail. *)
Theorem backfill_outcome (live_ready live_failed : bool) (reached : option nat) (now later : Z) (d : Store)
    (rows : list (Row num)) :
  (forall a, replica a = Ok rows \/ exists e, replica a = Err e) -> backfill_required d = true ->
  let d' := backfill amount collate replica write_fault live_ready live_failed reached now later d in
  (backfill_required d' = true /\ live d' = live d \/
   backfill_required d' = false /\ fresh (backfill_days now) rows (rollup d')) /\
  ((forall a, replica a = Ok rows) -> (forall a, write_fault a = None) ->
   (forall r r', In r rows -> In r' rows -> ~ clash collate r r') -> backfill_required d' = false).
Proof.
  intros Hrep Hreq. cbv zeta. unfold backfill. rewrite Hreq. cbn [negb andb].
  destruct (backfill_loop _ _ _ _ _ _ _) as [t complete] eqn:Hl. split.
  - destruct complete; [right|left; done]. split; [done|]. cbn [rollup reconcileLive].
    pose proof (backfill_loop_fresh rows now _ _ _ _ Hrep (backfill_windows_aligned now) (fresh_nowhere rows _) Hl) as H.
    apply (fresh_sub amount collate _ _ _ _ H). intros h Hh. cbn [orb]. by apply backfill_windows_cover.
  - intros Hr Hw Hc.
    pose proof (backfill_loop_completes rows now (backfill_windows now) (rollup d) Hr Hw Hc (backfill_windows_aligned now)) as H.
    rewrite Hl in H. cbn [snd] in H. by rewrite H.
Qed.
End job_results.

Section refreshes.
  Context {num : Type} (amount : num -> Z) (collate : jsstr -> jsstr -> comparison) `{!Collation collate}.
  Notation fresh := (fresh amount collate).

(** C21. A refresh of a window replaces it by the sums of its transactions under every
    condition on hour, participants, currency and use case, and leaves the other hours as
    they were; or it changes nothing, which without faults happens only when two
    transactions of the window have use cases that are different columns but the same key. *)
Theorem window_refreshed (rows : list (Row num)) (now a b : Z) (t : Rollup) :
  aligned a -> aligned b ->
  match reaggregateWindow amount collate (Ok rows) None now a b t with
  | Ok t' => fresh (within a b) rows t' /\
             forall hours old, (forall h, hours h && within a b h = false) -> fresh hours old t -> fresh hours old t'
  | Err _ => exists r r', In r rows /\ In r' rows /\ within a b (transaction_started_at r) = true /\
               within a b (transaction_started_at r') = true /\ clash collate r r'
  end.
Proof.
  intros Ha Hb. destruct (reaggregateWindow _ _ _ _ _ _ _ _) as [t'|e] eqn:Hr.
  - destruct (replaced amount collate now a b rows t t' Ha Hb Hr) as [Hw Ho]. split; [done|].
    intros hours old Hd. apply fresh_other. by apply Ho.
  - rewrite replace_window in Hr by done. destruct (has_duplicate _ _) eqn:Hd; [|done]. by apply no_duplicate in Hd.
Qed.

(** Two transactions of the same hour, participants and currency, one without a use case
    and one whose use case is blank, stop the roll-up: every refresh of a window with both
    fails on the primary key, whatever the roll-up has. *)
Theorem blank_use_case_stops_rollup (r r' : Row num) (rows : list (Row num)) (now a b : Z) (t : Rollup) :
  In r rows -> In r' rows -> k_subScenario (row_kind r) = None -> k_subScenario (row_kind r') = Some [] ->
  bucket_of collate r = bucket_of collate r' -> within a b (transaction_started_at r) = true ->
  within a b (transaction_started_at r') = true -> aligned a -> aligned b ->
  reaggregateWindow amount collate (Ok rows) None now a b t = Err (js "ER_DUP_ENTRY").
Proof.
  intros Hr Hr' Hu Hu' Hb Hw Hw' Ha Hb'. rewrite replace_window by done.
  destruct (has_duplicate _ _) eqn:Hd; [done|]. exfalso. apply not_true_iff_false in Hd. apply Hd. apply no_duplicate; [done|].
  exists r, r'. repeat split; try done.
  - rewrite Hb. by apply same_bucket_refl.
  - unfold same_group, group_of. cbn. rewrite Hu, Hu'. cbn. apply andb_false_r.
Qed.

Lemma reseeds_lookup (f : option jsstr -> LiveVector) (day : Z) (scopes : list (option jsstr)) (s : Live) scope :
  In scope scopes ->
  counter_at (day, scope_name scope)
    (counters (fold_left (fun s x => reseedScope true false day (scope_name x) (f x) s) scopes s)) = f scope.
Proof.
  intros Hin. induction scopes as [|x scopes IH] using rev_ind; [done|]. rewrite fold_left_app. cbn [fold_left reseedScope negb orb].
  unfold counter_at. cbn [counters]. destruct (decide (scope_name scope = scope_name x)) as [He|Hne].
  - rewrite He, lookup_insert_eq. cbn. f_equal. destruct scope, x; try done. cbn in He. by injection He as ->.
  - rewrite lookup_insert_ne by congruence. apply IH. apply in_app_iff in Hin as [Hin|[<-|[]]]; [done|congruence].
Qed.

(** A reconciliation over a fresh roll-up gives the hub and every participant active
    today the counters that counting the transactions of the day one by one would. *)
Theorem reconciled_counters (rows : list (Row num)) (now : Z) (d : Store) (scope : option jsstr) :
  fresh (within (day_of now) (hour_of now + MS_PER_HOUR)) rows (rollup d) ->
  In scope (live_scopes collate now (rollup d)) ->
  counter_at (dateKey now, scope_name scope) (counters (live (reconcileLive collate true false None now d))) =
  classified collate scope (day_of now) (hour_of now + MS_PER_HOUR) rows.
Proof.
  intros Hf Hin. unfold reconcileLive. cbn [live].
  assert (dateKey (day_of now) = dateKey now) as ->.
  { unfold dateKey, day_of, MS_PER_DAY. by rewrite Z.div_mul. }
  rewrite (reseeds_lookup (fun scope => getLiveTotals collate scope (day_of now) (hour_of now + MS_PER_HOUR) (rollup d))) by done.
  apply (live_totals_classified amount collate); [| |done].
  - replace (day_of now) with (day_of now + 0 * MS_PER_DAY) by lia. apply day_aligned.
  - unfold hour_of. replace (now / MS_PER_HOUR * MS_PER_HOUR + MS_PER_HOUR) with ((now / MS_PER_HOUR + 1) * MS_PER_HOUR) by lia.
    apply hour_mul.
Qed.
End refreshes.

Section locks.
  Context {S : Type} {server : RedisServer S} (env : LockEnv S).

Lemma acquire_attempts_spec left ttl s s' token : 0 < ttl -> acquire_attempts env left ttl s = (s', Some token) ->
  view s' !! lockKey_ env = Some (token, Some ttl) /\ exists k, token = set_token env k.
Proof.
  intros Httl. revert s. induction left as [|left IH]; intros s; [done|]. cbn [acquire_attempts].
  set (k := (maxAttempts env - Datatypes.S left + 1)%nat). destruct (set_fault env k) as [[e applied]|].
  - cbn [call]. destruct (k =? maxAttempts env)%nat; [done|]. apply IH.
  - rewrite call_None. pose proof (SET_spec (lockKey_ env) (set_token env k) true (Some ttl) s Httl) as H. cbn [andb] in H.
    case_bool_decide as Hk; destruct H as [H1 H2]; rewrite H2; [done|]. intros [= <- <-].
    rewrite H1, lookup_insert_eq. split; [done|by exists k].
Qed.

(** Under the lock a job runs once, with the lock held when it starts and given up
    afterwards, unless another holds it by then; without the lock nothing of it runs. *)
Theorem job_locked (ttlMs : Z) (job : Store -> Store) (s : S) (d : Store) :
  0 < ttlMs ->
  match acquire env ttlMs s with
  | (s1, None) => locked_job env ttlMs job (s, d) = (s1, d)
  | (s1, Some token) =>
      view s1 !! lockKey_ env = Some (token, Some ttlMs) /\ (exists k, token = set_token env k) /\
      snd (locked_job env ttlMs job (s, d)) = job d /\
      view (fst (locked_job env ttlMs job (s, d))) =
        let s2 := while_working env s1 in
        if bool_decide (fst <$> view s2 !! lockKey_ env = Some token) && reaches (release_fault env)
        then delete (lockKey_ env) (view s2) else view s2
  end.
Proof.
  intros Httl. unfold locked_job. cbn [fst snd]. destruct (acquire env ttlMs s) as [s1 [token|]] eqn:Ha; [|done].
  destruct (acquire_attempts_spec _ _ _ _ _ Httl Ha) as [Hv Hk]. split; [done|]. split; [done|]. split; [done|].
  cbn [fst]. unfold release, call. set (s2 := while_working env s1). pose proof (RELEASE_spec (lockKey_ env) token s2) as H.
  destruct (release_fault env) as [[e applied]|]; cbn [fst reaches].
  - destruct applied; rewrite ?andb_true_r, ?andb_false_r; done.
  - destruct (RELEASE_LOCK_SCRIPT _ _ _) as [s3 v]. cbn [fst] in *. by rewrite andb_true_r.
Qed.
End locks.

(** ** Witnesses *)

Lemma hours_settled_witness :
  exists t, In t [3500000; 10600000; 17700000] /\ 3600000 + MS_PER_HOUR <= t /\
    within (fst (computeWindow t)) (snd (computeWindow t)) 3600000 = true.
Proof.
  apply (hours_settled 7200000).
  - reflexivity.
  - repeat constructor; vm_compute; discriminate.
  - reflexivity.
  - exists 3500000. split; [reflexivity|vm_compute; reflexivity].
  - exists 17700000. split; [reflexivity|vm_compute; discriminate].
Defined.

Lemma window_refreshed_witness :
  map (fun x => (bucket_hour (rr_key x), txn_count (rr_measures x), committed_amount (rr_measures x))) example_rollup =
    [(7200000, 2, 1500); (10800000, 1, 0)] /\
  match reaggregateWindow (fun x => x) ignore_case (Ok example_rows) None 11000000 0 14400000 [] with
  | Ok t' => fresh (fun x => x) ignore_case (within 0 14400000) example_rows t' /\
             forall hours old, (forall h, hours h && within 0 14400000 h = false) ->
               fresh (fun x => x) ignore_case hours old [] -> fresh (fun x => x) ignore_case hours old t'
  | Err _ => exists r r', In r example_rows /\ In r' example_rows /\ within 0 14400000 (transaction_started_at r) = true /\
               within 0 14400000 (transaction_started_at r') = true /\ clash ignore_case r r'
  end.
Proof.
  split; [vm_compute; reflexivity|].
  apply (window_refreshed (fun x => x) ignore_case (Collation0 := ignore_case_collation)); reflexivity.
Defined.

Lemma blank_use_case_stops_rollup_witness :
  reaggregateWindow (fun x => x) ignore_case (Ok (blank_row :: example_rows)) None 11000000 0 14400000 example_rollup =
  Err (js "ER_DUP_ENTRY").
Proof.
  apply (blank_use_case_stops_rollup (fun x => x) ignore_case (Collation0 := ignore_case_collation)
           (example_row "beta" "alpha" None None 10800000 None false) blank_row); try reflexivity.
  - right. right. right. left. reflexivity.
  - left. reflexivity.
Defined.

Lemma example_plain : forall r r', In r example_rows -> In r' example_rows -> ~ clash ignore_case r r'.
Proof.
  intros r r' Hr Hr'. apply plain_no_clash; [apply ignore_case_collation|..].
  - destruct Hr as [<-|[<-|[<-|[]]]]; vm_compute; repeat split; reflexivity.
  - destruct Hr' as [<-|[<-|[<-|[]]]]; vm_compute; repeat split; reflexivity.
Qed.

Lemma backfill_outcome_witness :
  let d := mkStore [] true no_stats in
  let d' := backfill (fun x => x) ignore_case (fun _ => Ok example_rows) (fun _ => None) true false None 11000000 11000000 d in
  (backfill_required d' = true /\ live d' = live d \/
   backfill_required d' = false /\ fresh (fun x => x) ignore_case (backfill_days 11000000) example_rows (rollup d')) /\
  ((forall a : Z, @Ok jsstr _ example_rows = Ok example_rows) -> (forall a : Z, @None jsstr = None) ->
   (forall r r', In r example_rows -> In r' example_rows -> ~ clash ignore_case r r') -> backfill_required d' = false).
Proof.
  apply (backfill_outcome (fun x => x) ignore_case (Collation0 := ignore_case_collation) (fun _ => Ok example_rows) (fun _ => None)).
  - intros. left. reflexivity.
  - reflexivity.
Defined.

Lemma example_rollup_fresh :
  fresh (fun x => x) ignore_case (within (day_of 11000000) (hour_of 11000000 + MS_PER_HOUR)) example_rows example_rollup.
Proof.
  assert (H : reaggregateWindow (fun x => x) ignore_case (Ok example_rows) None 11000000 0 14400000 [] = Ok example_rollup)
    by (vm_compute; reflexivity).
  apply (replaced (fun x => x) ignore_case (Collation0 := ignore_case_collation) _ _ _ _ _ _ eq_refl eq_refl H).
Qed.

Lemma reconciled_counters_witness :
  let d := mkStore example_rollup false no_stats in
  live_scopes ignore_case 11000000 (rollup d) = [None; Some (js "alpha"); Some (js "beta")] /\
  counter_at (dateKey 11000000, scope_name (Some (js "beta"))) (counters (live (reconcileLive ignore_case true false None 11000000 d))) =
  classified ignore_case (Some (js "beta")) (day_of 11000000) (hour_of 11000000 + MS_PER_HOUR) example_rows.
Proof.
  cbv zeta. split; [vm_compute; reflexivity|].
  apply (reconciled_counters (fun x => x) ignore_case (Collation0 := ignore_case_collation)).
  - apply example_rollup_fresh.
  - vm_compute. right. right. left. reflexivity.
Defined.

Lemma job_locked_witness :
  exists s1, acquire example_lock 1000 ∅ = (s1, Some (js "second")) /\
  match acquire example_lock 1000 ∅ with
  | (s1, None) => locked_job example_lock 1000 (fun d => d) (∅, mkStore [] true no_stats) = (s1, mkStore [] true no_stats)
  | (s1, Some token) =>
      view s1 !! lockKey_ example_lock = Some (token, Some 1000) /\ (exists k, token = set_token example_lock k) /\
      snd (locked_job example_lock 1000 (fun d => d) (∅, mkStore [] true no_stats)) = mkStore [] true no_stats /\
      view (fst (locked_job example_lock 1000 (fun d => d) (∅, mkStore [] true no_stats))) =
        let s2 := while_working example_lock s1 in
        if bool_decide (fst <$> view s2 !! lockKey_ example_lock = Some token) && reaches (release_fault example_lock)
        then delete (lockKey_ example_lock) (view s2) else view s2
  end.
Proof.
  eexists. split; [vm_compute; reflexivity|].
  apply (job_locked example_lock 1000 (fun d => d) ∅ (mkStore [] true no_stats)). reflexivity.
Defined.
