(* ===== verification/Dashboard.v ===== *)
(** * The dashboard

    core/audit/domain: the reads of the roll-up ([TransactionRollupRepository],
    repository/transaction-rollup.repository.ts), which take the full hours of a range from
    Rollup.v and its edges from the transactions, the split of a range into local days, and
    [GetDashboardHandler] (query/get-dashboard.handler.ts). The date and the hour that
    [Intl.DateTimeFormat] gives for an instant, and [localeCompare], are arguments. *)

From Stdlib Require Import Sorting.Sorted.
From S2P Require Import Prelude Errors Transfer SendMoney AuditTrail LiveStats Sorting Pages Rollup.
#[local] Open Scope Z_scope.

(** ** Ranges *)

Definition hour_ceil (t : Z) : Z := - (- t / MS_PER_HOUR) * MS_PER_HOUR.

Section ranges.
  Context {num : Type} (amount : num -> Z) (collate : jsstr -> jsstr -> comparison).
  Notation same_text := (Pages.same_text collate).

(** [participantFilterClause] *)
Definition participantFilterClause (payerFsp payeeFsp : option jsstr) (payer payee : jsstr) : bool :=
  when payerFsp (same_text payer) && when payeeFsp (same_text payee).
(** The conditions of a read: the scope of the user and the filters. *)
Record Filter : Set := mkFilter { f_scope : option jsstr; f_payer : option jsstr; f_payee : option jsstr }.
Definition clause (f : Filter) (payer payee : jsstr) : bool :=
  scopeClause collate (f_scope f) payer payee && participantFilterClause (f_payer f) (f_payee f) payer payee.
Definition bucket_clause (f : Filter) (k : Bucket) : bool := clause f (b_payer_fsp k) (b_payee_fsp k).

(** The bucket of a transaction read exactly: [GREATEST] of its hour and the start. *)
Definition edge_bucket (start : Z) (r : Row num) : Bucket :=
  let k := bucket_of collate r in
  mkBucket (Z.max (bucket_hour k) start) (b_payer_fsp k) (b_payee_fsp k) (b_currency k) (b_sub_scenario k).
Definition edge_rows (f : Filter) (rows : list (Row num)) (edge : Z * Z) : list (Bucket * Measures) :=
  let '(start, stop) := edge in
  if stop <=? start then []
  else map (fun r => (edge_bucket start r, measure amount r))
         (List.filter (fun r => within start stop (transaction_started_at r) && clause f (payer_fsp r) (payee_fsp r)) rows).

(** [rangeSource]: the rows of the selects it joins with UNION ALL. *)
Definition rangeSource (f : Filter) (from to : Z) (t : Rollup) (rows : list (Row num)) : list (Bucket * Measures) :=
  let fullStart := hour_ceil from in
  let fullEnd := hour_of to in
  let full := if fullStart <? fullEnd
              then map (fun x => (rr_key x, rr_measures x))
                     (List.filter (fun x => within fullStart fullEnd (bucket_hour (rr_key x)) && bucket_clause f (rr_key x)) t)
              else [] in
  let edges := if fullStart <? fullEnd then [(from, fullStart); (fullEnd, to)] else [(from, to)] in
  full ++ concat (map (edge_rows f rows) edges).

(** [getErrorStageBreakdown] *)
Definition getErrorStageBreakdown (f : Filter) (from to : Z) (t : Rollup) (rows : list (Row num)) : list (string * Z) :=
  let m := total (fun _ => true) snd (rangeSource f from to t rows) in
  [("Parties", parties_error_count m); ("Quotes", quotes_error_count m); ("Transfers", transfers_error_count m);
   ("Patch", patch_error_count m)]%string.

(** [getValueByCurrency]: currency, use case, amount and count, the largest amount first. *)
Definition same_value (k l : Bucket) : bool :=
  same_text (b_currency k) (b_currency l) && same_text (b_sub_scenario k) (b_sub_scenario l).
Definition getValueByCurrency (f : Filter) (from to : Z) (t : Rollup) (rows : list (Row num))
    : list (jsstr * jsstr * Z * Z) :=
  let selected := List.filter (fun x => negb (same_text (b_currency (fst x)) XXX)) (rangeSource f from to t rows) in
  let groups := List.filter (fun x => 0 <? committed_count (snd x)) (group_by same_value fst snd selected) in
  map (fun x => (b_currency (fst x), b_sub_scenario (fst x), committed_amount (snd x), committed_count (snd x)))
    (sort (fun x y => Z.compare (committed_amount (snd y)) (committed_amount (snd x))) groups).

(** [getTopFsps]: the leg, and the merge of its currencies by the name of the participant. *)
Record FspCount : Set := mkFspCount { fspId : jsstr; f_count : Z; amounts : list (jsstr * Z) }.
Definition leg_of (leg : Leg) (k : Bucket) : jsstr := match leg with PayerLeg => b_payer_fsp k | PayeeLeg => b_payee_fsp k end.
Definition same_leg (leg : Leg) (k l : Bucket) : bool :=
  same_text (leg_of leg k) (leg_of leg l) && same_text (b_currency k) (b_currency l).
Fixpoint merge_fsp_count (fsp : jsstr) (n : Z) (value : option (jsstr * Z)) (entries : list FspCount) : list FspCount :=
  let entry e := mkFspCount fsp (f_count e + n) (amounts e ++ match value with Some v => [v] | None => [] end) in
  match entries with
  | [] => [entry (mkFspCount fsp 0 [])]
  | e :: entries => if bool_decide (fspId e = fsp) then entry e :: entries else e :: merge_fsp_count fsp n value entries
  end.
Definition byFsp (leg : Leg) (groups : list (Bucket * Measures)) : list FspCount :=
  fold_left (fun entries x =>
    merge_fsp_count (leg_of leg (fst x)) (committed_count (snd x))
      (if bool_decide (b_currency (fst x) = XXX) then None else Some (b_currency (fst x), committed_amount (snd x))) entries)
    groups [].
Definition compare_fsps (localeCompare : jsstr -> jsstr -> comparison) (l r : FspCount) : comparison :=
  match Z.compare (f_count r) (f_count l) with Eq => localeCompare (fspId l) (fspId r) | c => c end.
Definition getTopFsps (localeCompare : jsstr -> jsstr -> comparison) (f : Filter) (leg : Leg) (from to : Z) (limit : nat)
    (t : Rollup) (rows : list (Row num)) : list FspCount :=
  let groups := List.filter (fun x => 0 <? committed_count (snd x))
                  (group_by (same_leg leg) fst snd (rangeSource f from to t rows)) in
  take limit (sort (compare_fsps localeCompare) (byFsp leg groups)).
End ranges.

(** ** Local days *)

Section days.
  Context {date : Type} `{EqDecision date} (formatter : Z -> date).

(** The search between two instants of different dates for the first of the later. *)
Fixpoint boundary (fuel : nat) (d : date) (lower upper : Z) : Z :=
  match fuel with
  | O => upper
  | Datatypes.S fuel =>
      if 1 <? upper - lower then
        let middle := (lower + upper) / 2 in
        if decide (formatter middle = d) then boundary fuel d middle upper else boundary fuel d lower middle
      else upper
  end.
Definition search (d : date) (lower upper : Z) : Z := boundary (Z.to_nat (Z.log2_up (upper - lower))) d lower upper.

(** The loop over the hours of a range; [None] is one that has not ended within the fuel. *)
Fixpoint day_starts (fuel : nat) (lastMs cursor : Z) (d : date) : option (list Z) :=
  match fuel with
  | O => None
  | Datatypes.S fuel =>
      if cursor <? lastMs then
        let next := Z.min (cursor + MS_PER_HOUR) lastMs in
        let nextDate := formatter next in
        rest ← day_starts fuel lastMs next nextDate;
        Some (if decide (d = nextDate) then rest
              else let upper := search d cursor next in
                   if upper mod MS_PER_HOUR =? 0 then rest else upper :: rest)
      else Some []
  end.

Fixpoint between (from to : Z) (starts : list Z) : list (Z * Z) :=
  match starts with [] => [(from, to)] | s :: starts => (from, s) :: between s to starts end.
(** [localDayRanges] *)
Definition localDayRanges (fuel : nat) (from to : Z) : option (list (Z * Z)) :=
  between from to <$> day_starts fuel (to - 1) from (formatter from).
End days.
Definition range_hours (from to : Z) : nat := Z.to_nat ((to - 1 - from) / MS_PER_HOUR + 2).

(** [getTimeBuckets]: the hours in order with their measures. *)
Definition getTimeBuckets {num date} `{EqDecision date} (amount : num -> Z) (collate : jsstr -> jsstr -> comparison)
    (formatter : Z -> date) (f : Filter) (fuel : nat) (from to : Z) (t : Rollup) (rows : list (Row num))
    : option (list (Z * Measures)) :=
  ranges ← localDayRanges formatter fuel from to;
  let selected := concat (map (fun r => rangeSource amount collate f (fst r) (snd r) t rows) ranges) in
  Some (sort (fun x y => Z.compare (fst x) (fst y)) (group_by Z.eqb (fun x => bucket_hour (fst x)) snd selected)).

(** ** The handler *)

Section handler.
  Context {date : Type} `{EqDecision date} (local_date : Z -> date) (local_hour : Z -> nat).
  Notation TimeBucket := (Z * Measures)%type.

(** [summarize] *)
Definition summarize (buckets : list TimeBucket) : Measures := fold_left (fun acc b => add acc (snd b)) buckets no_measures.

(** The Map by date: the keys given first, then those the buckets bring. *)
Definition by_date (d : date) (m : Measures) (entries : list (date * Measures)) : list (date * Measures) :=
  group_add (fun e d => bool_decide (e = d)) d m entries.
Definition days_of (buckets : list TimeBucket) (dayKeys : list date) : list (date * Measures) :=
  fold_left (fun entries b => by_date (local_date (fst b)) (snd b) entries) buckets (map (fun d => (d, no_measures)) dayKeys).

(** [dailyTrend] and [latencyTrend]; an average is its sum and its count. *)
Definition dailyTrend (buckets : list TimeBucket) (dayKeys : list date) : list (date * (Z * Z * Z)) :=
  map (fun x => (fst x, (txn_count (snd x), error_count (snd x), dispute_count (snd x)))) (days_of buckets dayKeys).
Definition latencyTrend (buckets : list TimeBucket) (dayKeys : list date) : list (date * option (Z * Z)) :=
  map (fun x => (fst x, if latency_count (snd x) =? 0 then None
                        else Some (default 0 (sum_latency_ms (snd x)), latency_count (snd x)))) (days_of buckets dayKeys).

(** [hourlyProfile] *)
Definition hourlyProfile (buckets : list TimeBucket) : list (nat * Z * Z) :=
  map (fun h => let m := total (fun b => (local_hour (fst b) =? h)%nat) snd buckets in (h, txn_count m, error_count m)) (seq 0 24).

(** [dayKeys]: the dates of every hour from the start and of the last instant. *)
Fixpoint add_key (d : date) (keys : list date) : list date :=
  match keys with [] => [d] | k :: ks => if decide (k = d) then keys else k :: add_key d ks end.
Fixpoint hourly_keys (fuel : nat) (cursor to : Z) (keys : list date) : list date :=
  match fuel with
  | O => keys
  | Datatypes.S fuel =>
      if cursor <? to then hourly_keys fuel (cursor + MS_PER_HOUR) to (add_key (local_date cursor) keys) else keys
  end.
Definition dayKeys (from to : Z) : list date :=
  add_key (local_date (to - 1)) (hourly_keys (range_hours from to) from to []).

(** [currentUtcDay] *)
Definition currentUtcDay (now : Z) : Z * Z := (day_of now, day_of now + MS_PER_DAY).

(** [outcomeBreakdown] *)
Definition outcomeBreakdown (committed errors : Z) : list (string * Z) :=
  (if 0 <? committed then [("COMMITTED", committed)]%string else []) ++ (if 0 <? errors then [("ERROR", errors)]%string else []).

(** [GetDashboardQuery.Output], the members computed from the buckets. *)
Record Output : Type := mkOutput {
  o_range : Z * Z; o_total : Z; o_errors : Z; o_disputes : Z; successRate : option (Z * Z);
  outcomes : list (string * Z); stages : list (string * Z); avgLatencyMs : option (Z * Z);
  valueByCurrency : list (jsstr * jsstr * Z * Z); topPayerFsps : list FspCount; topPayeeFsps : list FspCount;
  daily : list (date * (Z * Z * Z)); hourly : list (nat * Z * Z); latency : list (date * option (Z * Z)) }.

Definition TOP_FSP_LIMIT : nat := 5.
(** [execute]: the range asked for, or the current day. *)
Definition execute {num} (amount : num -> Z) (collate localeCompare : jsstr -> jsstr -> comparison) (f : Filter) (now : Z)
    (range : option (Z * Z)) (t : Rollup) (rows : list (Row num)) : option Output :=
  let range := default (currentUtcDay now) range in
  let '(from, to) := range in
  buckets ← getTimeBuckets amount collate local_date f (range_hours from to) from to t rows;
  let summary := summarize buckets in
  let committed := Z.max (txn_count summary - error_count summary) 0 in
  let keys := dayKeys from to in
  Some (mkOutput range (txn_count summary) (error_count summary) (dispute_count summary)
          (if txn_count summary =? 0 then None else Some (committed, txn_count summary))
          (outcomeBreakdown committed (error_count summary)) (getErrorStageBreakdown amount collate f from to t rows)
          (if latency_count summary =? 0 then None
           else Some (default 0 (sum_latency_ms summary), latency_count summary))
          (getValueByCurrency amount collate f from to t rows)
          (getTopFsps amount collate localeCompare f PayerLeg from to TOP_FSP_LIMIT t rows)
          (getTopFsps amount collate localeCompare f PayeeLeg from to TOP_FSP_LIMIT t rows)
          (dailyTrend buckets keys) (hourlyProfile buckets) (latencyTrend buckets keys)).
End handler.

(** ** Reference *)

(** What the calendar of a time zone is like: within an hour the date changes once at most. *)
Definition calendar {date} (formatter : Z -> date) : Prop :=
  forall a b c, a <= b <= c -> c - a <= MS_PER_HOUR -> formatter b = formatter a \/ formatter b = formatter c.

(** The full hours of a range. *)
Definition full_hours (from to h : Z) : bool := within (hour_ceil from) (hour_of to) h.

(** The transactions a read is about. *)
Definition selected {num} (collate : jsstr -> jsstr -> comparison) (f : Filter) (from to : Z) (r : Row num) : bool :=
  within from to (transaction_started_at r) && clause collate f (payer_fsp r) (payee_fsp r).

(** ** Examples *)

(** The clock of a zone six and a half hours ahead, as of Yangon. *)
Definition yangon (t : Z) : Z := t + 23400000.
Definition yangon_date (t : Z) : Z := yangon t / MS_PER_DAY.
Definition yangon_hour (t : Z) : nat := Z.to_nat (yangon t / MS_PER_HOUR mod 24).
Definition no_filter : Filter := mkFilter None None None.
(** A transaction at ten past nine there, twenty to three in UTC. *)
Definition morning_row : Row Z := example_row "alpha" "beta" None None 9600000 None false.
Definition morning_rollup : Rollup :=
  match reaggregateWindow (fun x => x) ignore_case (Ok [morning_row]) None 11000000 0 86400000 [] with Ok t => t | Err _ => [] end.

(** * Lemmas *)

(** ** Days *)

Section day_lemmas.
  Context {date : Type} `{EqDecision date} (formatter : Z -> date).

Lemma boundary_spec fuel d lower upper :
  lower < upper -> upper - lower <= 2 ^ Z.of_nat fuel -> formatter lower = d -> formatter upper <> d ->
  let u := boundary formatter fuel d lower upper in
  lower < u <= upper /\ formatter (u - 1) = d /\ formatter u <> d.
Proof.
  revert lower upper. induction fuel as [|fuel IH]; intros lower upper Hlt Hf Hl Hu; cbn [boundary].
  - change (2 ^ Z.of_nat 0) with 1 in Hf. replace (upper - 1) with lower by lia. split; [lia|done].
  - destruct (Z.ltb_spec 1 (upper - lower)) as [Hbig|Hsmall].
    2:{ replace (upper - 1) with lower by lia. split; [lia|done]. }
    rewrite Nat2Z.inj_succ, Z.pow_succ_r in Hf by lia. set (m := (lower + upper) / 2).
    assert (Hm : lower < m < upper /\ m - lower <= 2 ^ Z.of_nat fuel /\ upper - m <= 2 ^ Z.of_nat fuel).
    { pose proof (Z.div_mod (lower + upper) 2). pose proof (Z.mod_pos_bound (lower + upper) 2). unfold m. lia. }
    destruct (decide (formatter m = d)) as [He|He].
    + destruct (IH m upper) as (H1 & H2); [lia..|done|done|]. split; [lia|done].
    + destruct (IH lower m) as (H1 & H2); [lia..|done|done|]. split; [lia|done].
Qed.

Lemma search_spec d lower upper :
  lower < upper -> formatter lower = d -> formatter upper <> d ->
  let u := search formatter d lower upper in lower < u <= upper /\ formatter (u - 1) = d /\ formatter u <> d.
Proof.
  intros Hlt. apply boundary_spec; [done|]. rewrite Z2Nat.id by apply Z.log2_up_nonneg.
  destruct (Z.eq_dec (upper - lower) 1) as [->|]; [done|]. apply Z.log2_up_spec. lia.
Qed.

Hypothesis one_change : calendar formatter.

(** An instant whose date is not that of the one before. *)
Definition change (u : Z) : Prop := formatter (u - 1) <> formatter u.

Lemma change_found lower upper u :
  lower < upper <= lower + MS_PER_HOUR -> lower < u <= upper -> change u ->
  formatter lower <> formatter upper /\ search formatter (formatter lower) lower upper = u.
Proof.
  intros Hl Hu Hc. assert (Hne : formatter lower <> formatter upper).
  { intros He. apply Hc. destruct (one_change lower (u - 1) upper), (one_change lower u upper); try lia; congruence. }
  split; [done|]. destruct (search_spec (formatter lower) lower upper) as (Hs & H1 & H2); [lia|done|congruence|].
  set (v := search _ _ _ _) in *. destruct (Z.lt_total v u) as [Hlt|[He|Hgt]]; [|done|].
  - exfalso. apply Hc. assert (Hv : formatter v = formatter upper) by (destruct (one_change lower v upper); [lia..|congruence|done]).
    destruct (one_change v (u - 1) upper), (one_change v u upper); try lia; congruence.
  - exfalso. apply Hc. destruct (one_change lower (u - 1) (v - 1)), (one_change lower u (v - 1)); try lia; congruence.
Qed.

Lemma day_starts_spec fuel lastMs cursor :
  (1 <= fuel)%nat -> lastMs - cursor <= MS_PER_HOUR * (Z.of_nat fuel - 1) ->
  exists starts, day_starts formatter fuel lastMs cursor (formatter cursor) = Some starts /\
    StronglySorted Z.lt starts /\ Forall (fun s => cursor < s <= lastMs) starts /\
    forall u, cursor < u <= lastMs -> change u -> u mod MS_PER_HOUR = 0 \/ In u starts.
Proof.
  revert cursor. induction fuel as [|fuel IH]; intros cursor Hf Hlen; [lia|]. cbn [day_starts].
  destruct (Z.ltb_spec cursor lastMs) as [Hlt|Hge].
  2:{ exists []. split; [done|]. split; [constructor|]. split; [constructor|]. lia. }
  set (next := Z.min (cursor + MS_PER_HOUR) lastMs).
  assert (Hn : cursor < next <= cursor + MS_PER_HOUR /\ next <= lastMs) by (unfold next, MS_PER_HOUR; lia).
  destruct (IH next) as (rest & -> & Hs & Hb & Hall).
  { unfold MS_PER_HOUR in *. lia. }
  { unfold next, MS_PER_HOUR in *. lia. }
  cbn [mbind option_bind]. eexists. split; [reflexivity|].
  assert (Hb' : Forall (fun s => cursor < s <= lastMs) rest).
  { eapply List.Forall_impl; [|exact Hb]. cbn. lia. }
  destruct (decide (formatter cursor = formatter next)) as [He|Hne].
  - split; [done|]. split; [done|]. intros u Hu Hc. destruct (Z.le_gt_cases u next) as [Hle|Hgt].
    + destruct (change_found cursor next u) as [Hd _]; [lia..|done|]. done.
    + apply Hall; [lia|done].
  - destruct (search_spec (formatter cursor) cursor next) as (Hsr & _); [lia|done|congruence|].
    set (v := search _ _ _ _) in *.
    assert (Hall' : forall u, cursor < u <= lastMs -> change u -> u mod MS_PER_HOUR = 0 \/ u = v \/ In u rest).
    { intros u Hu Hc. destruct (Z.le_gt_cases u next) as [Hle|Hgt].
      - destruct (change_found cursor next u) as [_ Hd]; [lia..|done|]. right. left. by rewrite <- Hd.
      - destruct (Hall u); [lia|done|by left|]. right. by right. }
    destruct (Z.eqb_spec (v mod MS_PER_HOUR) 0) as [Hz|Hnz].
    + split; [done|]. split; [done|]. intros u Hu Hc. destruct (Hall' u Hu Hc) as [?|[->|?]]; auto.
    + split; [|split].
      * constructor; [done|]. eapply List.Forall_impl; [|exact Hb]. cbn. lia.
      * constructor; [lia|done].
      * intros u Hu Hc. destruct (Hall' u Hu Hc) as [?|[->|?]]; [by left|right; by left|right; by right].
Qed.
End day_lemmas.

Section ranges_lemmas.
  Context {date : Type} `{EqDecision date} (formatter : Z -> date).
  Hypothesis one_change : calendar formatter.

(** Consecutive ranges: each ends where the next starts. *)
Lemma between_spec from to starts :
  StronglySorted Z.lt starts -> Forall (fun s => from < s < to) starts -> from < to ->
  Forall (fun r => from <= fst r /\ fst r < snd r /\ snd r <= to /\
                   forall s, In s starts -> ~ fst r < s < snd r) (between from to starts).
Proof.
  intros Hs. revert from. induction Hs as [|x starts Hs IH Hx]; intros from Hb Hft; cbn [between].
  - repeat constructor; cbn; (lia || by intros s []).
  - inversion Hb as [|? ? Hxb Hb']; subst. constructor.
    + cbn. split; [lia|]. split; [lia|]. split; [lia|]. intros s [<-|Hin]; [lia|].
      apply (proj1 (List.Forall_forall _ _) Hx) in Hin. lia.
    + assert (H : Forall (fun s => x < s < to) starts).
      { rewrite List.Forall_forall in *. intros s Hin. pose proof (Hx s Hin). pose proof (Hb' s Hin). lia. }
      eapply List.Forall_impl; [|exact (IH x H ltac:(lia))]. cbn. intros r (H1 & H2 & H3 & H4).
      split; [lia|]. split; [done|]. split; [done|]. intros s [<-|Hin]; [lia|by apply H4].
Qed.

Lemma range_fuel from to : from < to ->
  (1 <= range_hours from to)%nat /\ to - 1 - from <= MS_PER_HOUR * (Z.of_nat (range_hours from to) - 1).
Proof.
  intros Hft. unfold range_hours, MS_PER_HOUR.
  pose proof (Z.div_mod (to - 1 - from) 3600000). pose proof (Z.mod_pos_bound (to - 1 - from) 3600000).
  assert (0 <= (to - 1 - from) / 3600000) by (apply Z.div_pos; lia). lia.
Qed.

(** The ranges of local days exist, and within one the hour of an instant, cut to the start
    of the range, has the date of the instant. *)
Lemma localDayRanges_spec from to : from < to ->
  exists starts, localDayRanges formatter (range_hours from to) from to = Some (between from to starts) /\
    StronglySorted Z.lt starts /\ Forall (fun s => from < s < to) starts /\
    Forall (fun r => forall t, within (fst r) (snd r) t = true -> formatter (Z.max (hour_of t) (fst r)) = formatter t)
      (between from to starts).
Proof.
  intros Hft. destruct (range_fuel from to Hft) as [H1 H2].
  destruct (day_starts_spec formatter one_change (range_hours from to) (to - 1) from H1 H2) as (starts & Hd & Hs & Hb & Hall).
  assert (Hb' : Forall (fun s => from < s < to) starts) by (eapply List.Forall_impl; [|exact Hb]; cbn; lia).
  exists starts. unfold localDayRanges. rewrite Hd. split; [done|]. split; [done|]. split; [done|].
  eapply List.Forall_impl; [|exact (between_spec from to starts Hs Hb' Hft)]. cbn. intros [a b] (Ha & Hab & Hbt & Hno) t Ht.
  cbn [fst snd] in *. unfold within in Ht. rewrite andb_true_iff, Z.leb_le, Z.ltb_lt in Ht.
  pose proof (hour_bounds t) as Hh. set (x := Z.max (hour_of t) a).
  destruct (decide (formatter x = formatter t)) as [|Hne]; [done|]. exfalso.
  assert (Hxt : x < t) by (destruct (Z.eq_dec x t) as [He|]; [by rewrite He in Hne|lia]).
  destruct (search_spec formatter (formatter x) x t Hxt eq_refl) as (Hu & Hc1 & Hc2); [congruence|].
  set (u := search _ _ _ _) in *. destruct (Hall u) as [Hz|Hin]; [lia|unfold change; congruence| |].
  - assert (Hau : aligned u).
    { unfold aligned, hour_of. pose proof (Z.div_mod u MS_PER_HOUR ltac:(done)) as Hdm. rewrite Hz in Hdm. lia. }
    pose proof (aligned_le u t Hau) as Hle. rewrite (proj2 (Z.leb_le u t)) in Hle by lia. apply Z.leb_le in Hle. lia.
  - apply (Hno u Hin). lia.
Qed.
End ranges_lemmas.

(** ** Sums of a range *)

Section sums.
  Context {num : Type} (amount : num -> Z) (collate : jsstr -> jsstr -> comparison) `{!Collation collate}.
  Context (t : Rollup) (rows : list (Row num)) (f : Filter).
  Notation fresh hours := (fresh amount collate hours rows t).

Lemma clause_proper : proper collate (bucket_clause collate f).
Proof.
  intros k l Hkl. unfold same_bucket in Hkl. rewrite !andb_true_iff in Hkl. destruct Hkl as [[[[_ H1] H2] _] _].
  unfold bucket_clause, clause, participantFilterClause, scopeClause, when.
  destruct (f_scope f), (f_payer f), (f_payee f);
    by rewrite ?(same_subst collate _ _ _ H1), ?(same_subst collate _ _ _ H2).
Qed.

Lemma ceil_bounds x : x <= hour_ceil x < x + MS_PER_HOUR.
Proof.
  unfold hour_ceil, MS_PER_HOUR. pose proof (Z.div_mod (- x) 3600000). pose proof (Z.mod_pos_bound (- x) 3600000). lia.
Qed.
Lemma ceil_aligned x : aligned (hour_ceil x).
Proof. unfold hour_ceil. apply hour_mul. Qed.

Lemma edge_total p start stop :
  total (fun x => p (fst x)) snd (edge_rows amount collate f rows (start, stop)) =
  total (fun r => selected collate f start stop r && p (edge_bucket collate start r)) (measure amount) rows.
Proof.
  unfold edge_rows. destruct (Z.leb_spec stop start) as [Hle|Hlt].
  - symmetry. apply total_none. intros r _. unfold selected, within.
    destruct (Z.leb_spec start (transaction_started_at r)), (Z.ltb_spec (transaction_started_at r) stop); cbn; try done. lia.
  - by rewrite total_map, total_filter.
Qed.

(** A range read from the roll-up and the transactions has the sums of its transactions. *)
Lemma range_total p from to :
  proper collate p -> fresh (full_hours from to) ->
  total (fun x => p (fst x)) snd (rangeSource amount collate f from to t rows) =
  total (fun r => selected collate f from to r && p (edge_bucket collate from r)) (measure amount) rows.
Proof.
  intros Hp Hf. unfold rangeSource. set (s := hour_ceil from). set (e := hour_of to).
  pose proof (ceil_bounds from) as Hs. pose proof (hour_bounds to) as He. fold s in Hs. fold e in He.
  destruct (Z.ltb_spec s e) as [Hse|Hse]; cbn [map concat]; rewrite total_app.
  2:{ rewrite total_app, edge_total. cbn [total foldr]. by rewrite add_0_l, add_0_r. }
  rewrite !total_app, !edge_total. change (total (fun x => p (fst x)) snd []) with no_measures. rewrite add_0_r.
  rewrite total_map, total_filter. cbn [fst snd]. change (fun x : RollupRow => rr_measures x) with rr_measures.
  rewrite (total_ext _ _ (fun x => within s e (bucket_hour (rr_key x)) && (bucket_clause collate f (rr_key x) && p (rr_key x))))
    by (intros; by rewrite andb_assoc).
  assert (Hpc : proper collate (fun k => bucket_clause collate f k && p k))
    by (intros k l Hkl; by rewrite (clause_proper _ _ Hkl), (Hp _ _ Hkl)).
  pose proof (Hf _ Hpc) as Hff. unfold full_hours in Hff. fold s e in Hff. cbn beta in Hff. rewrite Hff. clear Hff.
  pose proof (ceil_aligned from) as Has. pose proof (hour_aligned to) as Hae. fold s in Has. fold e in Hae.
  assert (Hmax : forall a r, a <= hour_of (transaction_started_at r) -> from <= a ->
            edge_bucket collate a r = edge_bucket (num := num) collate from r).
  { intros a r H1 H2. unfold edge_bucket. cbn. by rewrite !Z.max_l by lia. }
  rewrite (total_split _ (fun r => selected collate f from to r && p (edge_bucket collate from r))
    (fun r => selected collate f s e r && p (edge_bucket collate from r))
    (fun r => (selected collate f from s r || selected collate f e to r) && p (edge_bucket collate from r))).
  2:{ intros r _. unfold selected, within. set (x := transaction_started_at r).
      destruct (Z.leb_spec from x), (Z.leb_spec s x), (Z.leb_spec e x), (Z.ltb_spec x to), (Z.ltb_spec x e), (Z.ltb_spec x s);
        cbn; try lia; rewrite ?andb_false_r, ?orb_false_r; done. }
  2:{ intros r _. unfold selected, within. set (x := transaction_started_at r).
      destruct (Z.leb_spec from x), (Z.leb_spec s x), (Z.leb_spec e x), (Z.ltb_spec x to), (Z.ltb_spec x e), (Z.ltb_spec x s);
        cbn; try lia; rewrite ?andb_false_r, ?orb_false_r; done. }
  f_equal.
  - apply total_ext. intros r _. unfold selected. cbn. rewrite within_aligned by done.
    destruct (within s e (transaction_started_at r)) eqn:Hw; [|done]. cbn. unfold within in Hw.
    rewrite andb_true_iff, Z.leb_le in Hw. pose proof (aligned_le s (transaction_started_at r) Has) as Hal.
    destruct Hw as [Hw _]. apply Z.leb_le in Hw. rewrite Hw in Hal. apply Z.leb_le in Hal.
    unfold bucket_clause. cbn. f_equal. unfold edge_bucket. cbn. by rewrite Z.max_l by lia.
  - rewrite (total_split _ (fun r => (selected collate f from s r || selected collate f e to r) && p (edge_bucket collate from r))
      (fun r => selected collate f from s r && p (edge_bucket collate from r))
      (fun r => selected collate f e to r && p (edge_bucket collate from r))).
    + f_equal. apply total_ext. intros r _. unfold selected.
      destruct (within e to (transaction_started_at r)) eqn:Hw; [|done]. cbn. f_equal. f_equal. apply Hmax; [|lia].
      unfold within in Hw. rewrite andb_true_iff in Hw. destruct Hw as [Hw _].
      rewrite <- (aligned_le e (transaction_started_at r) Hae) in Hw. by apply Z.leb_le in Hw.
    + intros r _. apply andb_orb_distrib_l.
    + intros r _. unfold selected, within. set (x := transaction_started_at r).
      destruct (Z.ltb_spec x s), (Z.leb_spec e x); cbn; try lia; by rewrite ?andb_false_r.
Qed.
End sums.

Lemma total_concat {A} (p : A -> bool) (f : A -> Measures) ls :
  total p f (concat ls) = foldr (fun l acc => add (total p f l) acc) no_measures ls.
Proof. induction ls as [|l ls IH]; [done|]. cbn [concat foldr]. by rewrite total_app, IH. Qed.
Lemma total_sort {A} (cmp : A -> A -> comparison) (p : A -> bool) (f : A -> Measures) l : total p f (sort cmp l) = total p f l.
Proof.
  assert (Hi : forall x l, total p f (insert_by cmp x l) = total p f (x :: l)).
  { intros x s. induction s as [|y s IH]; [done|]. cbn [insert_by]. destruct (cmp x y); try done.
    rewrite total_cons, IH, !total_cons. destruct (p y), (p x); try done. rewrite !add_assoc. f_equal. apply measures_comm. }
  induction l as [|x l IH]; [done|]. unfold sort in *. cbn [fold_right]. by rewrite Hi, !total_cons, IH.
Qed.

Section trends.
  Context {num : Type} (amount : num -> Z) (collate : jsstr -> jsstr -> comparison) `{!Collation collate}.
  Context {date : Type} `{EqDecision date} (formatter : Z -> date).
  Context (t : Rollup) (rows : list (Row num)) (f : Filter).
  Hypothesis one_change : calendar formatter.

Lemma full_hours_mono from to a b h : from <= a -> b <= to -> full_hours a b h = true -> full_hours from to h = true.
Proof.
  intros Ha Hb. unfold full_hours, within. rewrite !andb_true_iff, !Z.leb_le, !Z.ltb_lt. intros [H1 H2].
  assert (hour_ceil from <= hour_ceil a).
  { unfold hour_ceil, MS_PER_HOUR. assert (- a / 3600000 <= - from / 3600000) by (apply Z.div_le_mono; lia). lia. }
  assert (hour_of b <= hour_of to).
  { unfold hour_of, MS_PER_HOUR. assert (b / 3600000 <= to / 3600000) by (apply Z.div_le_mono; lia). lia. }
  lia.
Qed.

(** A condition that the date decides. *)
Definition dated (g : Z -> bool) : Prop := forall x y, formatter x = formatter y -> g x = g y.

Lemma range_dated g from to a b :
  dated g -> fresh amount collate (full_hours from to) rows t -> from <= a -> b <= to ->
  (forall x, within a b x = true -> formatter (Z.max (hour_of x) a) = formatter x) ->
  total (fun x => g (bucket_hour (fst x))) snd (rangeSource amount collate f a b t rows) =
  total (fun r => selected collate f a b r && g (transaction_started_at r)) (measure amount) rows.
Proof.
  intros Hg Hf Ha Hb Hd. rewrite (range_total amount collate t rows f (fun k => g (bucket_hour k))).
  - apply total_ext. intros r _. unfold selected. destruct (within a b (transaction_started_at r)) eqn:Hw; [|done].
    cbn. f_equal. apply Hg. by apply Hd.
  - intros k l Hkl. by rewrite (same_bucket_hour collate _ _ Hkl).
  - apply (fresh_sub amount collate _ _ _ _ Hf). intros h. by apply full_hours_mono.
Qed.

Lemma ranges_dated g from0 to from starts :
  dated g -> fresh amount collate (full_hours from0 to) rows t -> from0 <= from -> from < to ->
  StronglySorted Z.lt starts -> Forall (fun s => from < s < to) starts ->
  Forall (fun r => forall x, within (fst r) (snd r) x = true -> formatter (Z.max (hour_of x) (fst r)) = formatter x)
    (between from to starts) ->
  total (fun x => g (bucket_hour (fst x))) snd
    (concat (map (fun r => rangeSource amount collate f (fst r) (snd r) t rows) (between from to starts))) =
  total (fun r => selected collate f from to r && g (transaction_started_at r)) (measure amount) rows.
Proof.
  intros Hg Hf. revert from. induction starts as [|s starts IH]; intros from Hfrom Hft Hs Hb Hd; cbn [between map concat fst snd] in *.
  - rewrite app_nil_r. inversion Hd; subst. apply (range_dated g from0 to); (done || lia).
  - inversion Hs as [|? ? Hs' Hx]; subst. inversion Hb as [|? ? Hsb Hb']; subst. inversion Hd as [|? ? Hd1 Hd2]; subst.
    rewrite total_app, (range_dated g from0 to), IH; try done; try lia.
    + symmetry. apply total_split; intros r _; unfold selected, within; set (x := transaction_started_at r);
        destruct (Z.leb_spec from x), (Z.leb_spec s x), (Z.ltb_spec x to), (Z.ltb_spec x s); cbn; try lia;
        rewrite ?orb_false_r, ?andb_false_r; done.
    + rewrite List.Forall_forall in *. intros y Hy. pose proof (Hx y Hy). pose proof (Hb' y Hy). lia.
Qed.

(** The buckets exist, and have the sums of the transactions by date. *)
Lemma buckets_dated from to :
  from < to -> fresh amount collate (full_hours from to) rows t ->
  exists buckets, getTimeBuckets amount collate formatter f (range_hours from to) from to t rows = Some buckets /\
    forall g, dated g -> total (fun b => g (fst b)) snd buckets =
      total (fun r => selected collate f from to r && g (transaction_started_at r)) (measure amount) rows.
Proof.
  intros Hft Hf. destruct (localDayRanges_spec formatter one_change from to Hft) as (starts & Hr & Hs & Hb & Hd).
  unfold getTimeBuckets. rewrite Hr. cbn [mbind option_bind]. eexists. split; [reflexivity|]. intros g Hg.
  rewrite total_sort, (group_by_total Z.eqb (fun x => bucket_hour (fst x)) snd g) by (by intros h k ->%Z.eqb_eq).
  by apply (ranges_dated g from to).
Qed.
End trends.

(** ** Entries by date *)

Section entries.
  Context {date : Type} `{EqDecision date} (local_date : Z -> date).

Lemma days_total d buckets keys :
  total (fun e => bool_decide (fst e = d)) snd (days_of local_date buckets keys) =
  total (fun b => bool_decide (local_date (fst b) = d)) snd buckets.
Proof.
  unfold days_of.
  assert (H : forall acc, total (fun e => bool_decide (fst e = d)) snd
      (fold_left (fun entries (b : Z * Measures) => by_date (local_date (fst b)) (snd b) entries) buckets acc) =
    add (total (fun e => bool_decide (fst e = d)) snd acc) (total (fun b => bool_decide (local_date (fst b) = d)) snd buckets)).
  { induction buckets as [|b buckets IH]; intros acc; cbn [fold_left]; [by rewrite add_0_r|].
    rewrite IH, total_cons. unfold by_date.
    pose proof (group_add_total (fun e d => bool_decide (e = d)) (fun e : date => bool_decide (e = d))
                  (local_date (fst b)) (snd b) acc) as Hg. cbn beta in Hg.
    rewrite Hg by (by intros h k ->%bool_decide_eq_true).
    case_bool_decide; [|by rewrite add_0_l]. rewrite add_assoc. f_equal. apply measures_comm. }
  rewrite H. rewrite total_map. cbn [snd]. etransitivity; [|apply add_0_l]. f_equal.
  induction keys as [|k keys IH]; [done|]. rewrite total_cons, IH. by case_bool_decide.
Qed.

Lemma days_keys buckets keys : List.NoDup keys ->
  List.NoDup (map fst (days_of local_date buckets keys)) /\
  (forall d, In d keys -> In d (map fst (days_of local_date buckets keys))) /\
  (forall b, In b buckets -> In (local_date (fst b)) (map fst (days_of local_date buckets keys))).
Proof.
  intros Hk. unfold days_of. set (init := map _ keys).
  assert (Hinit : map fst init = keys) by (unfold init; by rewrite map_map, map_id).
  assert (H : forall acc, List.NoDup (map fst acc) ->
    let out := fold_left (fun entries (b : Z * Measures) => by_date (local_date (fst b)) (snd b) entries) buckets acc in
    List.NoDup (map fst out) /\ (forall d, In d (map fst acc) -> In d (map fst out)) /\
    (forall b, In b buckets -> In (local_date (fst b)) (map fst out))).
  { induction buckets as [|b buckets IH]; intros acc Hacc; cbn [fold_left]; [done|].
    set (acc' := by_date (local_date (fst b)) (snd b) acc).
    assert (Hacc' : List.NoDup (map fst acc') /\ (forall d, In d (map fst acc) -> In d (map fst acc')) /\
                    In (local_date (fst b)) (map fst acc')).
    { unfold acc', by_date. rewrite group_add_keys. destruct (existsb _ _) eqn:He.
      - apply existsb_exists in He as (e & Hin & <-%bool_decide_eq_true). done.
      - split; [|split].
        + apply List.NoDup_app; [done|repeat constructor; by intros []|]. intros e Hin [<-|[]].
          assert (existsb (fun h => bool_decide (h = local_date (fst b))) (map fst acc) = true); [|congruence].
          apply existsb_exists. eexists. split; [done|]. by apply bool_decide_eq_true.
        + intros d Hin. apply in_app_iff. by left.
        + apply in_app_iff. right. by left. }
    destruct Hacc' as (H1 & H2 & H3). destruct (IH acc' H1) as (H4 & H5 & H6). split; [done|]. split; [auto|].
    intros x [<-|Hx]; auto. }
  destruct (H init) as (H1 & H2 & H3); [by rewrite Hinit|]. rewrite Hinit in H2. done.
Qed.

Lemma entry_total {K} `{EqDecision K} (entries : list (K * Measures)) d m :
  List.NoDup (map fst entries) -> In (d, m) entries -> total (fun e => bool_decide (fst e = d)) snd entries = m.
Proof.
  induction entries as [|[e n] entries IH]; intros Hnd Hin; [done|]. rewrite total_cons. cbn [fst snd map] in *.
  inversion Hnd as [|? ? Hni Hnd']; subst. destruct Hin as [[= -> ->]|Hin].
  - rewrite bool_decide_eq_true_2 by done. rewrite total_none; [apply add_0_r|].
    intros x Hx. apply bool_decide_eq_false. intros <-. apply Hni. by apply in_map.
  - rewrite bool_decide_eq_false_2; [by apply IH|]. intros ->. apply Hni. apply in_map_iff. by exists (d, m).
Qed.

Lemma add_key_nodup (d : date) keys : List.NoDup keys -> List.NoDup (add_key d keys).
Proof.
  assert (Hin : forall x (l : list date), In x (add_key d l) -> x = d \/ In x l).
  { intros x l. induction l as [|k l IH]; cbn; [intros [->|[]]; by left|]. destruct (decide (k = d)); cbn; [tauto|].
    intros [->|Hx]; [by right; left|]. apply IH in Hx. tauto. }
  induction 1 as [|k keys Hk Hnd IH]; cbn [add_key]; [repeat constructor; by intros []|].
  destruct (decide (k = d)) as [->|Hne]; [by constructor|]. constructor; [|done]. intros Hx. apply Hin in Hx as [->|Hx]; done.
Qed.
Lemma dayKeys_nodup from to : List.NoDup (dayKeys local_date from to).
Proof.
  unfold dayKeys. apply add_key_nodup.
  assert (H : forall fuel cursor keys, List.NoDup keys -> List.NoDup (hourly_keys local_date fuel cursor to keys)).
  { induction fuel as [|fuel IH]; intros cursor keys Hk; [done|]. cbn. destruct (cursor <? to); [|done]. apply IH. by apply add_key_nodup. }
  apply H. constructor.
Qed.
End entries.

(** ** What the dashboard shows *)

Lemma summarize_total buckets : summarize buckets = total (fun _ => true) snd buckets.
Proof.
  unfold summarize. assert (H : forall acc, fold_left (fun acc (b : Z * Measures) => add acc (snd b)) buckets acc =
    add acc (total (fun _ => true) snd buckets)).
  { induction buckets as [|b buckets IH]; intros acc; cbn [fold_left]; [by rewrite add_0_r|].
    by rewrite IH, total_cons, add_assoc. }
  rewrite H. apply add_0_l.
Qed.

Lemma counted {num} (amount : num -> Z) (p : Row num -> bool) rows r : In r rows -> p r = true ->
  1 <= txn_count (total p (measure amount) rows).
Proof.
  assert (H0 : forall l, 0 <= txn_count (total p (measure amount) l)).
  { intros l. induction l as [|x l IH]; [done|]. rewrite total_cons. destruct (p x); [cbn; lia|done]. }
  intros Hin Hp. induction rows as [|x rows IH]; [done|]. rewrite total_cons. destruct Hin as [->|Hin].
  - rewrite Hp. pose proof (H0 rows). cbn. lia.
  - specialize (IH Hin). destruct (p x); [cbn; lia|done].
Qed.

Section dashboard.
  Context {num : Type} (amount : num -> Z) (collate localeCompare : jsstr -> jsstr -> comparison) `{!Collation collate}.
  Context {date : Type} `{EqDecision date} (local_date : Z -> date) (local_hour : Z -> nat).
  Context (t : Rollup) (rows : list (Row num)) (f : Filter).
  Notation direct from to p := (total (fun r => selected collate f from to r && p r) (measure amount) rows).

Lemma execute_buckets now from to : from < to -> calendar local_date -> fresh amount collate (full_hours from to) rows t ->
  exists buckets out, execute local_date local_hour amount collate localeCompare f now (Some (from, to)) t rows = Some out /\
    o_total out = txn_count (summarize buckets) /\ o_errors out = error_count (summarize buckets) /\
    o_disputes out = dispute_count (summarize buckets) /\
    stages out = getErrorStageBreakdown amount collate f from to t rows /\
    daily out = dailyTrend local_date buckets (dayKeys local_date from to) /\
    forall g, dated local_date g -> total (fun b => g (fst b)) snd buckets =
      total (fun r => selected collate f from to r && g (transaction_started_at r)) (measure amount) rows.
Proof.
  intros Hft Hc Hf. destruct (buckets_dated amount collate local_date t rows f Hc from to Hft Hf) as (buckets & Hb & Hg).
  exists buckets. unfold execute. cbn [default from_option Datatypes.id]. rewrite Hb. eexists. split; [reflexivity|]. done.
Qed.

(** C22. Over a roll-up that is fresh for its full hours, the dashboard of any range counts
    exactly the transactions of the range, to the millisecond, in the scope and the filters:
    the totals, the stages of the errors, and each local day, which is there for every transaction, by
    the date each started on. *)
Theorem dashboard_exact (now from to : Z) :
  from < to -> calendar local_date -> fresh amount collate (full_hours from to) rows t ->
  exists out, execute local_date local_hour amount collate localeCompare f now (Some (from, to)) t rows = Some out /\
    (let m := direct from to (fun _ => true) in
     (o_total out, o_errors out, o_disputes out) = (txn_count m, error_count m, dispute_count m) /\
     map snd (stages out) = [parties_error_count m; quotes_error_count m; transfers_error_count m; patch_error_count m]) /\
    List.NoDup (map fst (daily out)) /\
    (forall d x, In (d, x) (daily out) ->
       let m := direct from to (fun r => bool_decide (local_date (transaction_started_at r) = d)) in
       x = (txn_count m, error_count m, dispute_count m)) /\
    (forall r, In r rows -> selected collate f from to r = true ->
       In (local_date (transaction_started_at r)) (map fst (daily out))).
Proof.
  intros Hft Hc Hf. destruct (execute_buckets now from to Hft Hc Hf) as (buckets & out & He & H1 & H2 & H3 & H4 & H5 & Hg).
  exists out. split; [done|]. cbv zeta. split; [split|].
  - rewrite H1, H2, H3, summarize_total, (Hg (fun _ => true)) by done. done.
  - rewrite H4. unfold getErrorStageBreakdown. cbn [map snd].
    rewrite (range_total amount collate t rows f (fun _ => true)) by done. done.
  - rewrite H5. unfold dailyTrend. rewrite map_map. cbn [fst].
    destruct (days_keys local_date buckets (dayKeys local_date from to) (dayKeys_nodup local_date from to)) as (Hnd & _ & _).
    assert (Hday : forall d : date, total (fun e : date * Measures => bool_decide (fst e = d)) snd (days_of local_date buckets (dayKeys local_date from to)) =
              direct from to (fun r => bool_decide (local_date (transaction_started_at r) = d))).
    { intros d. rewrite days_total.
      pose proof (Hg (fun x => bool_decide (local_date x = d))) as Hgd. cbn beta in Hgd. rewrite Hgd; [done|].
      intros x y Hxy. by rewrite Hxy. }
    split; [done|]. split.
    + intros d x Hx. apply in_map_iff in Hx as ([e m] & [= -> <-] & Hin).
      by rewrite <- Hday, (entry_total _ _ _ Hnd Hin).
    + intros r Hr Hsel.
      destruct (in_dec (fun x y : date => decide (x = y)) (local_date (transaction_started_at r))
        (map fst (days_of local_date buckets (dayKeys local_date from to)))) as [|Hni]; [done|]. exfalso. pose proof (Hday (local_date (transaction_started_at r))) as Hz.
      rewrite total_none in Hz.
      * pose proof (counted amount (fun x => selected collate f from to x && bool_decide (local_date (transaction_started_at x) =
          local_date (transaction_started_at r))) rows r Hr) as H6. rewrite <- Hz in H6. rewrite Hsel, bool_decide_eq_true_2 in H6 by done.
        specialize (H6 eq_refl). cbn in H6. lia.
      * intros x Hx. apply bool_decide_eq_false. intros He2. apply Hni. rewrite <- He2. by apply in_map.
Qed.

(** Over a window of positive length, a fresh roll-up and a calendar: the errors and the
    disputes are between 0 and the transactions, and the success rate is the share of the
    transactions that are not in error, between 0 and 1, and given where there is one. *)
Theorem dashboard_bounds (now from to : Z) :
  from < to -> calendar local_date -> fresh amount collate (full_hours from to) rows t ->
  exists out, execute local_date local_hour amount collate localeCompare f now (Some (from, to)) t rows = Some out /\
    0 <= o_errors out <= o_total out /\ 0 <= o_disputes out <= o_total out /\
    match successRate out with Some (c, n) => 0 <= c <= n /\ 0 < n /\ c = o_total out - o_errors out | None => o_total out = 0 end.
Proof.
  intros Hft Hc Hf. destruct (buckets_dated amount collate local_date t rows f Hc from to Hft Hf) as (buckets & Hb & Hg).
  unfold execute. cbn [default from_option Datatypes.id]. rewrite Hb. cbn [mbind option_bind]. eexists. split; [reflexivity|].
  cbn [o_total o_errors o_disputes successRate]. rewrite summarize_total, (Hg (fun _ => true)) by done.
  set (m := total _ _ rows).
  assert (Hm : 0 <= error_count m <= txn_count m /\ 0 <= dispute_count m <= txn_count m).
  { unfold m. clear. induction rows as [|r rs IH]; [cbn; lia|]. rewrite total_cons.
    destruct (selected collate f from to r && true); [|done].
    cbn. unfold one. destruct (error r), (possible_dispute r); lia. }
  split; [lia|]. split; [lia|]. destruct (Z.eqb_spec (txn_count m) 0); [done|]. lia.
Qed.
End dashboard.

(** ** Examples and witnesses *)

Lemma yangon_calendar : calendar yangon_date.
Proof.
  intros a b c Hab Hc. unfold yangon_date, yangon, MS_PER_HOUR, MS_PER_DAY in *.
  pose proof (Z.div_mod (a + 23400000) 86400000). pose proof (Z.mod_pos_bound (a + 23400000) 86400000).
  pose proof (Z.div_mod (b + 23400000) 86400000). pose proof (Z.mod_pos_bound (b + 23400000) 86400000).
  pose proof (Z.div_mod (c + 23400000) 86400000). pose proof (Z.mod_pos_bound (c + 23400000) 86400000).
  lia.
Qed.

Lemma morning_fresh : fresh (fun x => x) ignore_case (full_hours 0 86400000) [morning_row] morning_rollup.
Proof.
  assert (H : reaggregateWindow (fun x => x) ignore_case (Ok [morning_row]) None 11000000 0 86400000 [] = Ok morning_rollup)
    by (vm_compute; reflexivity).
  apply (replaced (fun x => x) ignore_case (Collation0 := ignore_case_collation) _ _ _ _ _ _ eq_refl eq_refl H).
Qed.

(** Where local time is half an hour off, the hourly profile is not that of local hours:
    a transaction at ten past nine counts at eight, the local hour its UTC hour starts in. *)
Theorem half_hour_profile :
  calendar yangon_date /\ fresh (fun x => x) ignore_case (full_hours 0 86400000) [morning_row] morning_rollup /\
  yangon_hour (transaction_started_at morning_row) = 9%nat /\
  exists out, execute yangon_date yangon_hour (fun x => x) ignore_case compare_units no_filter 0 (Some (0, 86400000))
      morning_rollup [morning_row] = Some out /\ In (8%nat, 1, 0) (hourly out) /\ In (9%nat, 0, 0) (hourly out).
Proof.
  split; [apply yangon_calendar|]. split; [apply morning_fresh|]. split; [reflexivity|].
  eexists. split; [vm_compute; reflexivity|]. cbn [hourly]. split; repeat (first [left; reflexivity|right]).
Qed.

Lemma dashboard_exact_witness :
  let t := morning_rollup in let rows := [morning_row] in
  exists out, execute yangon_date yangon_hour (fun x => x) ignore_case compare_units no_filter 0 (Some (0, 86400000)) t rows = Some out /\
    (let m := total (fun r => selected ignore_case no_filter 0 86400000 r && true) (measure (fun x => x)) rows in
     (o_total out, o_errors out, o_disputes out) = (txn_count m, error_count m, dispute_count m) /\
     map snd (stages out) = [parties_error_count m; quotes_error_count m; transfers_error_count m; patch_error_count m]) /\
    List.NoDup (map fst (daily out)) /\
    (forall d x, In (d, x) (daily out) ->
       let m := total (fun r => selected ignore_case no_filter 0 86400000 r && bool_decide (yangon_date (transaction_started_at r) = d))
                  (measure (fun x => x)) rows in
       x = (txn_count m, error_count m, dispute_count m)) /\
    (forall r, In r rows -> selected ignore_case no_filter 0 86400000 r = true ->
       In (yangon_date (transaction_started_at r)) (map fst (daily out))).
Proof.
  apply (dashboard_exact (fun x => x) ignore_case compare_units (Collation0 := ignore_case_collation) yangon_date yangon_hour
           morning_rollup [morning_row] no_filter 0 0 86400000).
  - reflexivity.
  - apply yangon_calendar.
  - apply morning_fresh.
Defined.

Lemma dashboard_bounds_witness :
  exists out, execute yangon_date yangon_hour (fun x => x) ignore_case compare_units no_filter 0 (Some (0, 86400000))
      morning_rollup [morning_row] = Some out /\
    0 <= o_errors out <= o_total out /\ 0 <= o_disputes out <= o_total out /\
    match successRate out with Some (c, n) => 0 <= c <= n /\ 0 < n /\ c = o_total out - o_errors out | None => o_total out = 0 end.
Proof.
  apply (dashboard_bounds (fun x => x) ignore_case compare_units (Collation0 := ignore_case_collation) yangon_date yangon_hour
           morning_rollup [morning_row] no_filter 0 0 86400000).
  - reflexivity.
  - apply yangon_calendar.
  - apply morning_fresh.
Defined.
