(* ===== verification/Interleave.v ===== *)
(** * Commands that share a database

    A command awaits one call to the database after another, and between two of them other
    commands run. [Prog] is a command as the tree of its calls, [run] its run alone,
    [pool_step] the interleavings of a pool of commands, with failing calls and a world that
    moves. [safe] is a rely-guarantee judgement, [pool_safe] and [run_safe] its soundness. *)

From S2P Require Import Prelude.

(** The DATETIME of a moment: whole seconds, rounded. *)
Definition db_second (t : Z) : Z := (t + 500) / 1000 * 1000.

(** ** Programs *)

(** [Call f k]: one atomic statement [f]; [k] goes on with what the statement found. *)
Inductive Prog (S E A : Type) : Type :=
  | Done (r : result E A)
  | Call (f : S -> S) (k : S -> Prog S E A).
Arguments Done {S E A}. Arguments Call {S E A}.

Section programs.
  Context {S E : Type}.

Fixpoint bind {A B} (p : Prog S E A) (q : A -> Prog S E B) : Prog S E B :=
  match p with
  | Done (Ok a) => q a
  | Done (Err e) => Done (Err e)
  | Call f k => Call f (fun s => bind (k s) q)
  end.
(** [try { p } catch (e) { h(e) }] *)
Fixpoint catch {A} (p : Prog S E A) (h : E -> Prog S E A) : Prog S E A :=
  match p with
  | Done (Ok a) => Done (Ok a)
  | Done (Err e) => h e
  | Call f k => Call f (fun s => catch (k s) h)
  end.
Definition ret {A} (a : A) : Prog S E A := Done (Ok a).
Definition throw {A} (e : E) : Prog S E A := Done (Err e).
Definition throw_when (c : bool) (e : E) : Prog S E unit := if c then throw e else ret tt.
(** A query, and a statement without an answer. *)
Definition read {A} (f : S -> A) : Prog S E A := Call id (fun s => ret (f s)).
Definition write (f : S -> S) : Prog S E unit := Call f (fun _ => ret tt).
(** A statement that may be refused, and then changes nothing. *)
Definition attempt (f : S -> result E S) : Prog S E unit :=
  Call (fun s => match f s with Ok s' => s' | Err _ => s end) (fun s => match f s with Ok _ => ret tt | Err e => throw e end).

(** The command alone. *)
Fixpoint run {A} (p : Prog S E A) (s : S) : S * result E A :=
  match p with
  | Done r => (s, r)
  | Call f k => run (k s) (f s)
  end.

(** The command up to its [n]-th call, and what is left of it. *)
Fixpoint advance {A} (n : nat) (p : Prog S E A) (s : S) : S * Prog S E A :=
  match n, p with
  | Datatypes.S n, Call f k => advance n (k s) (f s)
  | _, _ => (s, p)
  end.

Lemma run_bind {A B} (p : Prog S E A) (q : A -> Prog S E B) s :
  run (bind p q) s = match run p s with (s', Ok a) => run (q a) s' | (s', Err e) => (s', Err e) end.
Proof. revert s. induction p as [[a|e]|f k IH]; intros s; [done..|]. cbn. apply IH. Qed.

Lemma run_advance {A} n (p : Prog S E A) s : run (snd (advance n p s)) (fst (advance n p s)) = run p s.
Proof. revert p s. induction n as [|n IH]; intros p s; [done|]. destruct p as [r|f k]; [done|exact (IH (k s) (f s))]. Qed.

(** ** Pools *)

Section pools.
  Context {A : Type} (starts : Prog S E A -> Prop) (world : S -> S -> Prop).

(** A command starts, the next call of one is made, or fails after or before it had its
    effect, or the world moves. *)
Inductive pool_step : S * list (Prog S E A) -> S * list (Prog S E A) -> Prop :=
  | step_start s pool p : starts p -> pool_step (s, pool) (s, pool ++ [p])
  | step_call s pool i f k : pool !! i = Some (Call f k) -> pool_step (s, pool) (f s, <[i := k s]> pool)
  | step_fail s pool i f k e : pool !! i = Some (Call f k) -> pool_step (s, pool) (s, <[i := throw e]> pool)
  | step_lost s pool i f k e : pool !! i = Some (Call f k) -> pool_step (s, pool) (f s, <[i := throw e]> pool)
  | step_world s s' pool : world s s' -> pool_step (s, pool) (s', pool).

(** A command run alone next to a pool. *)
Lemma pool_call s pool (p : Prog S E A) :
  rtc pool_step (s, pool ++ [p]) (fst (run p s), pool ++ [Done (snd (run p s))]).
Proof.
  revert s. induction p as [r|f k IH]; intros s; cbn; [done|]. eapply rtc_l; [|exact (IH s (f s))].
  replace (pool ++ [k s]) with (<[length pool := k s]> (pool ++ [Call f k])).
  - apply step_call. by rewrite lookup_app_r, Nat.sub_diag.
  - by rewrite insert_app_r_alt, Nat.sub_diag.
Qed.

Lemma pool_run s pool (p : Prog S E A) : starts p ->
  rtc pool_step (s, pool) (fst (run p s), pool ++ [Done (snd (run p s))]).
Proof. intros Hp. eapply rtc_l; [by apply step_start|apply pool_call]. Qed.
End pools.

(** ** Rely and guarantee *)

Section safety.
  Context {A : Type} (I : S -> Prop) (G : S -> S -> Prop).

(** Whatever moves along [G] happens between its calls, every call of the program keeps [I]
    and is a move of [G], and its answer satisfies [Q]; [Q] also holds of a failed call. *)
Fixpoint safe (Q : S -> result E A -> Prop) (p : Prog S E A) (s : S) : Prop :=
  match p with
  | Done r => Q s r
  | Call f k => forall s', G s s' -> I s' -> I (f s') /\ G s' (f s') /\ safe Q (k s') (f s')
  end.

Context `{!PreOrder G}.

Lemma safe_later Q p s s' : (forall s s' r, G s s' -> Q s r -> Q s' r) -> G s s' -> safe Q p s -> safe Q p s'.
Proof.
  intros HQ Hg. destruct p as [r|f k]; cbn; [by apply HQ|]. intros Hs s2 Hg2. apply Hs. by etransitivity.
Qed.

Lemma safe_weaken (Q Q' : S -> result E A -> Prop) p s : (forall s r, Q s r -> Q' s r) -> safe Q p s -> safe Q' p s.
Proof.
  intros HQ. revert s. induction p as [r|f k IH]; intros s; cbn; [apply HQ|]. intros Hs s' Hg HI.
  destruct (Hs s' Hg HI) as (H1 & H2 & H3). auto.
Qed.

Lemma run_safe Q p s : I s -> safe Q p s -> I (fst (run p s)) /\ G s (fst (run p s)) /\ Q (fst (run p s)) (snd (run p s)).
Proof.
  revert s. induction p as [r|f k IH]; intros s HI Hs; cbn in *; [done|].
  destruct (Hs s ltac:(done) HI) as (H1 & H2 & H3). destruct (IH s (f s) H1 H3) as (H4 & H5 & H6).
  split; [done|]. split; [by etransitivity|done].
Qed.

(** Interleavings keep [I], move along [G], and leave every command safe. *)
Theorem pool_safe (starts : Prog S E A -> Prop) (world : S -> S -> Prop) Q c c' :
  (forall p s, starts p -> I s -> safe Q p s) -> (forall s s', world s s' -> I s -> I s' /\ G s s') ->
  (forall s s' r, G s s' -> Q s r -> Q s' r) -> (forall s e, Q s (Err e)) ->
  rtc (pool_step starts world) c c' -> I (fst c) -> Forall (fun p => safe Q p (fst c)) (snd c) ->
  I (fst c') /\ G (fst c) (fst c') /\ Forall (fun p => safe Q p (fst c')) (snd c').
Proof.
  intros Hstart Hworld HQ Herr. induction 1 as [c|c c1 c2 Hstep _ IH]; [done|]. intros HI Hall.
  assert (Hnext : I (fst c1) /\ G (fst c) (fst c1) /\ Forall (fun p => safe Q p (fst c1)) (snd c1)).
  { assert (Hcall : forall s pool i f k, pool !! i = Some (Call f k) -> I s -> Forall (fun p => safe Q p s) pool ->
      I (f s) /\ G s (f s) /\ safe Q (k s) (f s) /\ Forall (fun p => safe Q p (f s)) pool).
    { intros s pool i f k Hi HIs Hp. pose proof (proj1 (Forall_lookup _ _) Hp i _ Hi) as Hs. cbn in Hs.
      destruct (Hs s ltac:(done) HIs) as (H1 & H2 & H3). split; [done|]. split; [done|]. split; [done|].
      eapply Forall_impl; [exact Hp|]. intros p. by apply safe_later. }
    destruct Hstep as [s pool p Hp|s pool i f k Hi|s pool i f k e Hi|s pool i f k e Hi|s s' pool Hw]; cbn [fst snd] in *.
    - split; [done|]. split; [done|]. apply Forall_app. split; [done|]. constructor; [by apply Hstart|constructor].
    - destruct (Hcall s pool i f k Hi HI Hall) as (H1 & H2 & H3 & H4). split; [done|]. split; [done|]. by apply Forall_insert.
    - split; [done|]. split; [done|]. apply Forall_insert; [done|]. apply Herr.
    - destruct (Hcall s pool i f k Hi HI Hall) as (H1 & H2 & H3 & H4). split; [done|]. split; [done|]. apply Forall_insert; [done|]. apply Herr.
    - destruct (Hworld s s' Hw HI) as [H1 H2]. split; [done|]. split; [done|]. eapply Forall_impl; [exact Hall|].
      intros p. by apply safe_later. }
  destruct Hnext as (HI1 & HG1 & Hall1). destruct (IH HI1 Hall1) as (H1 & H2 & H3). split; [done|]. split; [by etransitivity|done].
Qed.

End safety.

(** *** Rules *)

Section rules.
  Context (I : S -> Prop) (G : S -> S -> Prop).

Lemma safe_bind_intro {A B} (R : S -> result E A -> Prop) (Q : S -> result E B -> Prop) (p : Prog S E A) (q : A -> Prog S E B) s :
  (forall s r, R s r -> match r with Ok a => safe I G Q (q a) s | Err e => Q s (Err e) end) ->
  safe I G R p s -> safe I G Q (bind p q) s.
Proof.
  intros HR. revert s. induction p as [r|f k IH]; intros s; cbn.
  - intros Hr. apply HR in Hr. by destruct r.
  - intros Hs s' Hg HI. destruct (Hs s' Hg HI) as (H1 & H2 & H3). split; [done|]. split; [done|]. by apply IH.
Qed.

(** An answer comes later than the start. *)
Lemma safe_from `{!PreOrder G} {A} (Q : S -> result E A -> Prop) p s0 s :
  G s0 s -> safe I G Q p s -> safe I G (fun s' r => G s0 s' /\ Q s' r) p s.
Proof.
  revert s. induction p as [r|f k IH]; intros s H0; cbn; [done|]. intros Hs s' Hg HI. destruct (Hs s' Hg HI) as (H1 & H2 & H3).
  split; [done|]. split; [done|]. apply IH; [|done]. etransitivity; [exact H0|]. by etransitivity.
Qed.
Lemma safe_bind_from `{!PreOrder G} {A B} (R : S -> result E A -> Prop) (Q : S -> result E B -> Prop) (p : Prog S E A) (q : A -> Prog S E B) s :
  (forall s' r, G s s' -> R s' r -> match r with Ok a => safe I G Q (q a) s' | Err e => Q s' (Err e) end) ->
  safe I G R p s -> safe I G Q (bind p q) s.
Proof.
  intros HR Hp. eapply safe_bind_intro; [|apply (safe_from R p s s); [done|exact Hp]]. intros s' r [Hg Hr]. by apply HR.
Qed.

Lemma safe_ret {A} (Q : S -> result E A -> Prop) a s : Q s (Ok a) -> safe I G Q (ret a) s.
Proof. done. Qed.
Lemma safe_throw {A} (Q : S -> result E A -> Prop) e s : Q s (Err e) -> safe I G Q (throw e) s.
Proof. done. Qed.
(** The calls before a continuation. *)
Lemma safe_call {A B} (Q : S -> result E B -> Prop) f (k : S -> Prog S E A) (q : A -> Prog S E B) s :
  (forall s', G s s' -> I s' -> I (f s') /\ G s' (f s') /\ safe I G Q (bind (k s') q) (f s')) -> safe I G Q (bind (Call f k) q) s.
Proof. done. Qed.
Lemma safe_write {B} (Q : S -> result E B -> Prop) f (q : unit -> Prog S E B) s :
  (forall s', I s' -> I (f s') /\ G s' (f s')) -> (forall s', G s s' -> I s' -> safe I G Q (q tt) (f s')) ->
  safe I G Q (bind (write f) q) s.
Proof. intros Hf Hq s' Hg HI. destruct (Hf s' HI). split; [done|]. split; [done|]. by apply Hq. Qed.
Lemma safe_attempt {B} (Q : S -> result E B -> Prop) f (q : unit -> Prog S E B) s :
  (forall s' s2, G s s' -> I s' -> f s' = Ok s2 -> I s2 /\ G s' s2 /\ safe I G Q (q tt) s2) ->
  (forall s' e, Q s' (Err e)) -> Reflexive G -> safe I G Q (bind (attempt f) q) s.
Proof.
  intros Hf HQ Hrefl s' Hg HI. cbn. destruct (f s') as [s2|e] eqn:Hs; cbn; [by apply Hf|]. split; [done|]. split; [apply Hrefl|]. apply HQ.
Qed.
Lemma safe_throw_when {B} (Q : S -> result E B -> Prop) c e (q : unit -> Prog S E B) s :
  (c = true -> Q s (Err e)) -> (c = false -> safe I G Q (q tt) s) -> safe I G Q (bind (throw_when c e) q) s.
Proof. destruct c; cbn; auto. Qed.
Lemma safe_read `{!Reflexive G} {A B} (Q : S -> result E B -> Prop) (f : S -> A) (q : A -> Prog S E B) s :
  (forall s', G s s' -> I s' -> safe I G Q (q (f s')) s') -> safe I G Q (bind (read f) q) s.
Proof. intros Hq s' Hg HI. split; [done|]. split; [done|]. by apply Hq. Qed.
End rules.

(** A handler gets what was thrown, in the state the throw left. *)
Lemma safe_catch {A} (Q : S -> result E A -> Prop) (p : Prog S E A) h s I G :
  safe I G (fun s r => match r with Ok _ => Q s r | Err e => safe I G Q (h e) s end) p s -> safe I G Q (catch p h) s.
Proof.
  revert s. induction p as [[a|e]|f k IH]; intros s; cbn; [done..|]. intros Hs s' Hg HI. destruct (Hs s' Hg HI) as (H1 & H2 & H3). auto.
Qed.

(** Running the calls before a continuation. *)
Lemma run_catch {A} (p : Prog S E A) h s :
  run (catch p h) s = match run p s with (s', Ok a) => (s', Ok a) | (s', Err e) => run (h e) s' end.
Proof. revert s. induction p as [[a|e]|f k IH]; intros s; [done..|]. apply IH. Qed.
Lemma run_read {A B} (f : S -> A) (q : A -> Prog S E B) s : run (bind (read f) q) s = run (q (f s)) s.
Proof. done. Qed.
Lemma run_write {B} f (q : unit -> Prog S E B) s : run (bind (write f) q) s = run (q tt) (f s).
Proof. done. Qed.
Lemma run_attempt {B} f (q : unit -> Prog S E B) s :
  run (bind (attempt f) q) s = match f s with Ok s' => run (q tt) s' | Err e => (s, Err e) end.
Proof. cbn. by destruct (f s). Qed.
Lemma run_throw_when {B} c e (q : unit -> Prog S E B) s :
  run (bind (throw_when c e) q) s = if c then (s, Err e) else run (q tt) s.
Proof. by destruct c. Qed.

(** ** Programs that keep an invariant

    [keeps I P p]: whatever happens between its calls, as long as [I] holds there, every call
    of [p] keeps [I], and what [p] returns satisfies [P]. *)
Definition keeps (I : S -> Prop) {A} (P : A -> Prop) (p : Prog S E A) : Prop :=
  forall s, safe I (fun _ _ => True) (fun _ r => match r with Ok a => P a | Err _ => True end) p s.

#[local] Instance anything : PreOrder (fun _ _ : S => True).
Proof. by split. Qed.
Section keeping.
  Context (I : S -> Prop).

Lemma keeps_bind {A B} (P : A -> Prop) (Q : B -> Prop) (p : Prog S E A) (q : A -> Prog S E B) :
  keeps I P p -> (forall a, P a -> keeps I Q (q a)) -> keeps I Q (bind p q).
Proof. intros Hp Hq s. eapply safe_bind_intro; [|exact (Hp s)]. intros s' [a|e]; [by intros Ha; apply Hq|done]. Qed.
Lemma keeps_catch {A} (P : A -> Prop) (p : Prog S E A) h : keeps I P p -> (forall e, keeps I P (h e)) -> keeps I P (catch p h).
Proof. intros Hp Hh s. apply safe_catch. eapply safe_weaken; [|exact (Hp s)]. intros s' [a|e]; [done|]. intros _. apply Hh. Qed.
Lemma keeps_weaken {A} (P Q : A -> Prop) (p : Prog S E A) : (forall a, P a -> Q a) -> keeps I P p -> keeps I Q p.
Proof. intros H Hp s. eapply safe_weaken; [|exact (Hp s)]. intros s' [a|e]; [apply H|done]. Qed.
Lemma keeps_ret {A} (P : A -> Prop) a : P a -> keeps I P (ret a).
Proof. by intros H s. Qed.
Lemma keeps_nothing {A} (p : Prog S E A) : keeps (fun _ => True) (fun _ => True) p.
Proof. induction p as [r|f k IH]; intros s; [by destruct r|]. intros s' _ _. split; [done|]. split; [done|]. apply IH. Qed.
Lemma keeps_throw {A} (P : A -> Prop) e : keeps I P (throw e).
Proof. by intros s. Qed.
Lemma keeps_done {A} (r : result E A) : keeps I (fun _ => True) (Done r).
Proof. intros s. by destruct r. Qed.
Lemma keeps_throw_when c e : keeps I (fun _ => c = false) (throw_when c e).
Proof. destruct c; by intros s. Qed.
Lemma keeps_call {A} (P : A -> Prop) f (k : S -> Prog S E A) :
  (forall s, I s -> I (f s) /\ keeps I P (k s)) -> keeps I P (Call f k).
Proof. intros H s s' _ HI. destruct (H s' HI) as [H1 H2]. split; [done|]. split; [done|]. apply H2. Qed.
Lemma keeps_write f : (forall s, I s -> I (f s)) -> keeps I (fun _ => True) (write f).
Proof. intros H. apply keeps_call. intros s HI. split; [by apply H|by intros s']. Qed.
Lemma keeps_read {A} (f : S -> A) (P : A -> Prop) : (forall s, I s -> P (f s)) -> keeps I P (read f).
Proof. intros H. apply keeps_call. intros s HI. split; [done|]. apply keeps_ret. by apply H. Qed.

(** Pools of such programs, in a world that keeps the invariant. *)
Lemma pool_keeps {A} (starts : Prog S E A -> Prop) (world : S -> S -> Prop) s c :
  (forall p, starts p -> keeps I (fun _ => True) p) -> (forall s s', world s s' -> I s -> I s') ->
  rtc (pool_step starts world) (s, []) c -> I s -> I (fst c).
Proof.
  intros Hstart Hworld Hrun HI.
  refine (proj1 (pool_safe I (fun _ _ => True) starts world (fun _ _ => True) (s, []) c _ _ _ _ Hrun HI _)).
  - intros p s' Hp _. eapply safe_weaken; [|exact (Hstart p Hp s')]. done.
  - intros s1 s2 Hw H1. split; [by eapply Hworld|done].
  - done.
  - done.
  - constructor.
Qed.
Lemma run_keeps {A} (P : A -> Prop) (p : Prog S E A) s : keeps I P p -> I s -> I (fst (run p s)).
Proof.
  intros Hp HI. refine (proj1 (run_safe I (fun _ _ => True) _ p s HI (Hp s))).
Qed.
Lemma run_keeps_answer {A} (P : A -> Prop) (p : Prog S E A) s a : keeps I P p -> I s -> snd (run p s) = Ok a -> P a.
Proof.
  intros Hp HI Ha. destruct (run_safe I (fun _ _ => True) _ p s HI (Hp s)) as (_ & _ & H). by rewrite Ha in H.
Qed.
End keeping.

(** ** Programs cut short

    [always I p s]: [I] holds of what [p], run alone, leaves behind if it ends after any of
    its calls. *)
Definition always (I : S -> Prop) {A} (p : Prog S E A) (s : S) : Prop := forall n, I (fst (advance n p s)).

Lemma always_start I {A} (p : Prog S E A) s : always I p s -> I s.
Proof. intros H. exact (H O). Qed.
Lemma always_weaken (I J : S -> Prop) {A} (p : Prog S E A) s : (forall s, I s -> J s) -> always I p s -> always J p s.
Proof. intros HIJ H n. apply HIJ, H. Qed.
Lemma always_call (I : S -> Prop) {A} f (k : S -> Prog S E A) s : I s -> always I (k s) (f s) -> always I (Call f k) s.
Proof. intros Hs H [|n]; [exact Hs|exact (H n)]. Qed.
Lemma always_done (I : S -> Prop) {A} (r : result E A) s : I s -> always I (Done r) s.
Proof. by intros Hs [|n]. Qed.
Lemma always_bind (I : S -> Prop) {A B} (p : Prog S E A) (q : A -> Prog S E B) s :
  always I p s -> (forall a, snd (run p s) = Ok a -> always I (q a) (fst (run p s))) -> always I (bind p q) s.
Proof.
  revert s. induction p as [[a|e]|f k IH]; intros s Hp Hq; cbn [bind].
  - by apply Hq.
  - apply always_done. by apply always_start in Hp.
  - apply always_call; [by apply always_start in Hp|]. apply IH; [intros n; exact (Hp (Datatypes.S n))|exact Hq].
Qed.
Lemma always_keeps (I : S -> Prop) {A} (P : A -> Prop) (p : Prog S E A) s : keeps I P p -> I s -> always I p s.
Proof.
  intros Hp HI n. specialize (Hp s). revert n s Hp HI. induction p as [r|f k IH]; intros [|n] s Hp HI; [exact HI..|]. cbn [advance].
  destruct (Hp s Logic.I HI) as (H1 & _ & H2). by apply IH.
Qed.

Lemma always_catch (I : S -> Prop) {A} (p : Prog S E A) h s :
  always I p s -> (forall e, snd (run p s) = Err e -> always I (h e) (fst (run p s))) -> always I (catch p h) s.
Proof.
  revert s. induction p as [[a|e]|f k IH]; intros s Hp Hh; cbn [catch].
  - apply always_done. by apply always_start in Hp.
  - by apply Hh.
  - apply always_call; [by apply always_start in Hp|]. apply IH; [intros n; exact (Hp (Datatypes.S n))|exact Hh].
Qed.
Lemma always_run (I : S -> Prop) {A} (p : Prog S E A) s : always I p s -> I (fst (run p s)).
Proof. revert s. induction p as [r|f k IH]; intros s H; [exact (H O)|]. cbn [run]. apply IH. intros n. exact (H (Datatypes.S n)). Qed.

(** ** What a command does alone *)

Section alone.
  Context {A B : Type} (Q : S -> result E B -> Prop).

(** The state and the answer of the run satisfy [Q]. *)
Definition wp {C} (R : S -> result E C -> Prop) (p : Prog S E C) (s : S) : Prop := R (fst (run p s)) (snd (run p s)).

Lemma wp_bind (p : Prog S E A) (q : A -> Prog S E B) s :
  wp (fun s' r => match r with Ok a => wp Q (q a) s' | Err e => Q s' (Err e) end) p s -> wp Q (bind p q) s.
Proof. unfold wp. rewrite run_bind. by destruct (run p s) as [s' [a|e]]. Qed.
Lemma wp_catch (p : Prog S E B) h s :
  wp (fun s' r => match r with Ok a => Q s' (Ok a) | Err e => wp Q (h e) s' end) p s -> wp Q (catch p h) s.
Proof. unfold wp. rewrite run_catch. by destruct (run p s) as [s' [a|e]]. Qed.
Lemma wp_read (f : S -> A) (q : A -> Prog S E B) s : wp Q (q (f s)) s -> wp Q (bind (read f) q) s.
Proof. done. Qed.
Lemma wp_write f (q : unit -> Prog S E B) s : wp Q (q tt) (f s) -> wp Q (bind (write f) q) s.
Proof. done. Qed.
Lemma wp_attempt f (q : unit -> Prog S E B) s :
  (forall s', f s = Ok s' -> wp Q (q tt) s') -> (forall e, f s = Err e -> Q s (Err e)) -> wp Q (bind (attempt f) q) s.
Proof. intros H1 H2. unfold wp. rewrite run_attempt. destruct (f s); [by apply H1|by apply H2]. Qed.
Lemma wp_throw_when c e (q : unit -> Prog S E B) s :
  (c = true -> Q s (Err e)) -> (c = false -> wp Q (q tt) s) -> wp Q (bind (throw_when c e) q) s.
Proof. intros H1 H2. destruct c; [by apply H1|by apply H2]. Qed.
End alone.

Lemma wp_weaken {A} (Q Q' : S -> result E A -> Prop) p s : (forall s r, Q s r -> Q' s r) -> wp Q p s -> wp Q' p s.
Proof. intros H. apply H. Qed.

(** Commands whose every call is a move of [G]; those that change nothing. *)
Fixpoint moves (G : S -> S -> Prop) {A} (p : Prog S E A) : Prop :=
  match p with Done _ => True | Call f k => (forall s, G s (f s)) /\ forall s, moves G (k s) end.
Definition quiet {A} (p : Prog S E A) : Prop := moves eq p.

Section moving.
  Context (G : S -> S -> Prop) `{!PreOrder G}.

Lemma moves_run {A} (p : Prog S E A) s : moves G p -> G s (fst (run p s)).
Proof. revert s. induction p as [r|f k IH]; intros s; cbn; [done|]. intros [Hf Hk]. etransitivity; [apply Hf|by apply IH]. Qed.
Lemma moves_bind {A B} (p : Prog S E A) (q : A -> Prog S E B) : moves G p -> (forall a, moves G (q a)) -> moves G (bind p q).
Proof. induction p as [[a|e]|f k IH]; cbn; [auto|auto|]. intros [Hf Hk] Hq. split; [done|]. intros s. by apply IH. Qed.
Lemma moves_catch {A} (p : Prog S E A) h : moves G p -> (forall e, moves G (h e)) -> moves G (catch p h).
Proof. induction p as [[a|e]|f k IH]; cbn; [auto|auto|]. intros [Hf Hk] Hh. split; [done|]. intros s. by apply IH. Qed.
Lemma moves_read {A} (f : S -> A) : moves G (read f).
Proof. by split. Qed.
Lemma moves_done {A} (r : result E A) : moves G (Done r).
Proof. done. Qed.
Lemma moves_throw_when c e : moves G (throw_when c e).
Proof. by destruct c. Qed.
Lemma moves_write f : (forall s, G s (f s)) -> moves G (write f).
Proof. by split. Qed.
Lemma moves_attempt f : (forall s s', f s = Ok s' -> G s s') -> moves G (attempt f).
Proof. intros H. split; [intros s; destruct (f s) eqn:Hf; [by apply H|done]|]. intros s. cbn. by destruct (f s). Qed.
End moving.

Lemma quiet_run {A} (p : Prog S E A) s : quiet p -> fst (run p s) = s.
Proof. intros H. symmetry. exact (moves_run eq p s H). Qed.
Lemma quiet_bind {A B} (p : Prog S E A) (q : A -> Prog S E B) : quiet p -> (forall a, quiet (q a)) -> quiet (bind p q).
Proof. exact (moves_bind eq p q). Qed.
Lemma quiet_read {A} (f : S -> A) : quiet (read f).
Proof. exact (moves_read eq f). Qed.
Lemma quiet_done {A} (r : result E A) : quiet (Done r).
Proof. done. Qed.
Lemma quiet_throw_when c e : quiet (throw_when c e).
Proof. exact (moves_throw_when eq c e). Qed.
Lemma wp_quiet {A B} (Q : S -> result E B -> Prop) (p : Prog S E A) (q : A -> Prog S E B) s :
  quiet p -> (forall a, snd (run p s) = Ok a -> wp Q (q a) s) -> (forall e, snd (run p s) = Err e -> Q s (Err e)) -> wp Q (bind p q) s.
Proof.
  intros Hp Ha He. apply wp_bind. unfold wp at 1. pose proof (quiet_run p s Hp) as Hs. destruct (run p s) as [s' [a|e]]; cbn in *; subst s'; auto.
Qed.
End programs.

Create HintDb quiet.
#[export] Hint Resolve quiet_read quiet_done quiet_throw_when : quiet.
(** A command built of queries and checks. *)
Ltac quietly :=
  repeat match goal with
         | |- quiet (match ?x with _ => _ end) => destruct x
         | |- quiet (bind _ _) => apply quiet_bind; [|intros ?]
         | |- quiet _ => solve [auto with quiet nocore]
         end.

Create HintDb keeping.
#[export] Hint Resolve keeps_done keeps_throw keeps_throw_when : keeping.
#[export] Hint Extern 5 (keeps _ _ (ret _)) => apply keeps_ret : keeping.
(** A command, call by call; what a call answers is in the hypotheses. *)
Ltac keeping :=
  repeat match goal with
         | |- keeps _ _ (match ?x with _ => _ end) => destruct x eqn:?
         | |- keeps _ _ (bind _ _) => eapply keeps_bind; [solve [eauto with keeping nocore]|cbn beta; intros ? ?]
         | |- keeps _ _ (catch _ _) => apply keeps_catch; [|intros ?]
         | |- keeps _ _ _ => solve [eauto with keeping nocore]
         | |- keeps _ _ (ret _) => apply keeps_ret
         end.

Create HintDb moving.
#[export] Hint Resolve moves_done moves_throw_when : moving.
#[export] Hint Extern 1 (moves _ (read _)) => apply moves_read; apply _ : moving.
Ltac movingly :=
  repeat match goal with
         | |- moves _ (match ?x with _ => _ end) => destruct x
         | |- moves _ (bind _ _) => apply moves_bind; [|intros ?]
         | |- moves _ (catch _ _) => apply moves_catch; [|intros ?]
         | |- moves _ _ => solve [auto with moving nocore]
         end.

(** ** Moments in the database *)

Lemma db_second_mono a b : a <= b -> db_second a <= db_second b.
Proof. intros H. unfold db_second. apply Z.mul_le_mono_nonneg_r; [lia|]. apply Z.div_le_mono; lia. Qed.
Lemma db_second_near t : t - 500 < db_second t <= t + 500.
Proof. unfold db_second. pose proof (Z.div_mod (t + 500) 1000). pose proof (Z.mod_pos_bound (t + 500) 1000). lia. Qed.
Lemma db_second_floor t : t / 1000 * 1000 <= db_second t.
Proof. unfold db_second. apply Z.mul_le_mono_nonneg_r; [lia|]. apply Z.div_le_mono; lia. Qed.

Declare Scope prog_scope.
Delimit Scope prog_scope with prog.
Notation "'let*' x ':=' p 'in' q" := (bind p (fun x => q)) (at level 200, x pattern, p at level 100, q at level 200) : prog_scope.
