(* ===== verification/Accounts.v ===== *)
(** * Accounts of the portal

    core/auth/domain/model, repository, error and service: the tables of users, roles,
    permissions and refresh tokens with the statements of their repositories, tokens and
    temporary passwords. A statement runs at once; what awaits between statements is in
    Interleave.v. DATETIME columns hold whole seconds, rounded, as MySQL stores them. bcrypt,
    SHA-256, the signing of JWTs and the collation of the server are arguments. *)

From S2P Require Import Prelude Interleave.
#[global] Open Scope prog_scope.

(** ** Errors *)

(** [AuthErrorCode] *)
Inductive AuthErrorCode : Set :=
  | INVALID_CREDENTIALS | ACCOUNT_LOCKED | INVALID_REFRESH_TOKEN | SESSION_EXPIRED | REFRESH_TOKEN_REUSE
  | PASSWORD_SAME_AS_CURRENT | UNKNOWN_ROLE | TOKEN_REVOKED | USER_INACTIVE.
(** [AdminErrorCode], the codes these commands throw. *)
Inductive AdminErrorCode : Set :=
  | USER_EMAIL_TAKEN | USER_DFSP_REQUIRES_FSP_ID | USER_ADMIN_FORBIDS_FSP_ID | USER_SELF_LOCK | USER_LAST_ADMIN
  | USER_LAST_DFSP_ADMIN | USER_MANAGEMENT_SCOPE_DENIED | USER_ROLE_NOT_ASSIGNABLE | USER_NOT_FOUND | USER_ROLE_NOT_FOUND
  | ROLE_NOT_FOUND | ROLE_CODE_REQUIRED | ROLE_CODE_TAKEN | ROLE_NAME_REQUIRED | ROLE_NAME_TAKEN | ROLE_IS_SYSTEM | ROLE_IN_USE
  | ROLE_CANNOT_REMOVE_ADMIN_KEY | ROLE_PERMISSION_SCOPE_MISMATCH | PERMISSION_NOT_FOUND.

(** The exceptions of @nestjs/common, with the code of their body; minutes left of a lockout;
    the reason of an expired session; what the driver throws. *)
Inductive exception : Set :=
  | Unauthorized (code : AuthErrorCode) | Locked (minutes : Z) | Expired (reason : jsstr) | MissingToken | InvalidToken
  | Forbidden (code : AdminErrorCode) | BadRequest (code : AdminErrorCode) | SamePassword | NotFound (code : AdminErrorCode)
  | Conflict (code : AdminErrorCode) | PermissionDenied | DriverError | TypeError.

(** ** Tables *)

Inductive RoleScope : Set := HUB | DFSP.
Inductive PermissionScope : Set := OfScope (s : RoleScope) | BOTH.
#[global] Instance RoleScope_eq : EqDecision RoleScope.
Proof. solve_decision. Defined.

Record User : Set := mkUser {
  email : jsstr; passwordHash : jsstr; fspId : option jsstr; roleId : Z; mustChangePassword : bool; isActive : bool;
  failedLoginAttempts : Z; lockedUntil : option Z; tokensInvalidatedAt : option Z; lastLoginAt : option Z }.
Record Role : Set := mkRole { code : jsstr; name : jsstr; description : option jsstr; scope : RoleScope; isSystem : bool }.
Record Permission : Set := mkPermission { keyName : jsstr; p_scope : PermissionScope }.
Record RefreshToken : Set := mkRefreshToken {
  userId : Z; familyId : Z; tokenHash : jsstr; expiresAt : Z; sessionExpiresAt : option Z; revokedAt : option Z;
  replacedBy : option Z }.

(** The database, by ids, which the code holds as decimal texts; the clock in milliseconds; and
    the Snowflake id that is next. *)
Record Db : Set := mkDb {
  clock : Z; serial : Z; users : gmap Z User; roles : gmap Z Role; permissions : gmap Z Permission;
  role_permissions : gmap Z (list Z); tokens : gmap Z RefreshToken }.

(** [new User(...)] *)
Definition newUser (mail hash : jsstr) (role : Z) (fsp : option jsstr) (must : bool) : User :=
  mkUser mail hash fsp role must true 0 None None None.
Definition newRefreshToken (user family : Z) (hash : jsstr) (expires : Z) (session : option Z) : RefreshToken :=
  mkRefreshToken user family hash expires session None None.

Definition with_users (f : gmap Z User -> gmap Z User) (s : Db) : Db :=
  mkDb (clock s) (serial s) (f (users s)) (roles s) (permissions s) (role_permissions s) (tokens s).
Definition with_roles (f : gmap Z Role -> gmap Z Role) (s : Db) : Db :=
  mkDb (clock s) (serial s) (users s) (f (roles s)) (permissions s) (role_permissions s) (tokens s).
Definition with_grants (f : gmap Z (list Z) -> gmap Z (list Z)) (s : Db) : Db :=
  mkDb (clock s) (serial s) (users s) (roles s) (permissions s) (f (role_permissions s)) (tokens s).
Definition with_tokens (f : gmap Z RefreshToken -> gmap Z RefreshToken) (s : Db) : Db :=
  mkDb (clock s) (serial s) (users s) (roles s) (permissions s) (role_permissions s) (f (tokens s)).

(** ** Repositories *)

Section repositories.
  (** [=] of the server on texts. *)
  Context (same_text : jsstr -> jsstr -> bool).

(** A row that [p] holds of. *)
Definition find_row {A} (p : A -> bool) (m : gmap Z A) : option (Z * A) :=
  List.find (fun e => p (snd e)) (map_to_list m).
Definition count_rows {A} (p : Z -> A -> bool) (m : gmap Z A) : nat :=
  length (List.filter (fun e => p (fst e) (snd e)) (map_to_list m)).

(** UserRepository. *)
Definition findByEmail (mail : jsstr) (s : Db) : option (Z * User) := find_row (fun u => same_text (email u) mail) (users s).
Definition countByRoleId (role : Z) (s : Db) : nat := count_rows (fun _ u => roleId u =? role) (users s).
Definition set_user (id : Z) (f : User -> User) : Db -> Db := with_users (alter f id).
Definition save_user (id : Z) (u : User) (s : Db) : result exception Db :=
  match users s !! id, findByEmail (email u) s, roles s !! roleId u with
  | None, None, Some _ => Ok (with_users <[id := u]> s)
  | _, _, _ => Err DriverError
  end.
Definition incremented (u : User) : User :=
  mkUser (email u) (passwordHash u) (fspId u) (roleId u) (mustChangePassword u) (isActive u) (failedLoginAttempts u + 1)
    (lockedUntil u) (tokensInvalidatedAt u) (lastLoginAt u).
Definition locked_at (until : Z) (u : User) : User :=
  mkUser (email u) (passwordHash u) (fspId u) (roleId u) (mustChangePassword u) (isActive u) (failedLoginAttempts u)
    (Some (db_second until)) (tokensInvalidatedAt u) (lastLoginAt u).
Definition logged_in (now : Z) (u : User) : User :=
  mkUser (email u) (passwordHash u) (fspId u) (roleId u) (mustChangePassword u) (isActive u) 0 None
    (tokensInvalidatedAt u) (Some (db_second now)).
Definition with_password (hash : jsstr) (must : bool) (u : User) : User :=
  mkUser (email u) hash (fspId u) (roleId u) must (isActive u) (failedLoginAttempts u) (lockedUntil u)
    (tokensInvalidatedAt u) (lastLoginAt u).
Definition invalidated (now : Z) (u : User) : User :=
  mkUser (email u) (passwordHash u) (fspId u) (roleId u) (mustChangePassword u) (isActive u) (failedLoginAttempts u)
    (lockedUntil u) (Some (db_second now)) (lastLoginAt u).
Definition deactivated (u : User) : User :=
  mkUser (email u) (passwordHash u) (fspId u) (roleId u) (mustChangePassword u) false (failedLoginAttempts u)
    (lockedUntil u) (tokensInvalidatedAt u) (lastLoginAt u).
(** [UserUpdate]; a member that is not set is [None]. *)
Record UserUpdate : Set := mkUserUpdate { up_roleId : option Z; up_fspId : option (option jsstr); up_isActive : option bool }.
Definition updated (p : UserUpdate) (u : User) : User :=
  mkUser (email u) (passwordHash u) (default (fspId u) (up_fspId p)) (default (roleId u) (up_roleId p)) (mustChangePassword u)
    (default (isActive u) (up_isActive p)) (failedLoginAttempts u) (lockedUntil u) (tokensInvalidatedAt u) (lastLoginAt u).
(** [invalidateTokensForRole] *)
Definition invalidateTokensForRole (role now : Z) : Db -> Db :=
  with_users (fmap (fun u => if roleId u =? role then invalidated now u else u)).

(** RolePermissionRepository, joined with the permissions. *)
Definition permission_keys (s : Db) (role : Z) : list jsstr :=
  omap (fun p => keyName <$> permissions s !! p) (default [] (role_permissions s !! role)).
Definition grants (s : Db) (key : jsstr) (role : Z) : bool := bool_decide (key ∈ permission_keys s role).
Definition replaceForRole (role : Z) (ids : list Z) : Db -> Db := with_grants <[role := ids]>.

(** Queries of UserRepository over roles; the joined key is compared by the server. *)
Definition countActiveUsersGrantingPermission (key : jsstr) (exclude : Z) (s : Db) : nat :=
  count_rows (fun id u => isActive u && existsb (fun k => same_text k key) (permission_keys s (roleId u)) && negb (id =? exclude))
    (users s).
Definition countActiveUsersByRoleIdForFsp (role : Z) (fsp : jsstr) (exclude : Z) (s : Db) : nat :=
  count_rows (fun id u => isActive u && (roleId u =? role) && negb (id =? exclude) &&
    match fspId u with Some f => same_text f fsp | None => false end) (users s).

(** RoleRepository; a role that users have cannot be deleted, its permissions go with it. *)
Definition findByCode (c : jsstr) (s : Db) : option (Z * Role) := find_row (fun r => same_text (code r) c) (roles s).
Definition findByName (n : jsstr) (s : Db) : option (Z * Role) := find_row (fun r => same_text (name r) n) (roles s).
Definition save_role (id : Z) (r : Role) (s : Db) : result exception Db :=
  match roles s !! id, findByCode (code r) s with
  | None, None => Ok (with_roles <[id := r]> s)
  | _, _ => Err DriverError
  end.
Record RoleUpdate : Set := mkRoleUpdate { up_name : option jsstr; up_description : option (option jsstr) }.
Definition updated_role (p : RoleUpdate) (r : Role) : Role :=
  mkRole (code r) (default (name r) (up_name p)) (default (description r) (up_description p)) (scope r) (isSystem r).
Definition delete_role (id : Z) (s : Db) : result exception Db :=
  if (0 <? countByRoleId id s)%nat then Err DriverError
  else Ok (with_grants (delete id) (with_roles (delete id) s)).

(** PermissionRepository. *)
Definition findByKeyNames (keys : list jsstr) (s : Db) : list (Z * Permission) :=
  List.filter (fun e => existsb (same_text (keyName (snd e))) keys) (map_to_list (permissions s)).

(** RefreshTokenRepository. *)
Definition findByTokenHash (hash : jsstr) (s : Db) : option (Z * RefreshToken) :=
  find_row (fun t => str_eqb (tokenHash t) hash) (tokens s).
Definition save_token (id : Z) (t : RefreshToken) (s : Db) : result exception Db :=
  let t := mkRefreshToken (userId t) (familyId t) (tokenHash t) (db_second (expiresAt t)) (sessionExpiresAt t) None None in
  match tokens s !! id, findByTokenHash (tokenHash t) s, users s !! userId t with
  | None, None, Some _ => Ok (with_tokens <[id := t]> s)
  | _, _, _ => Err DriverError
  end.
Definition revoke (now : Z) (by_ : option Z) (t : RefreshToken) : RefreshToken :=
  mkRefreshToken (userId t) (familyId t) (tokenHash t) (expiresAt t) (sessionExpiresAt t) (Some (db_second now)) by_.
Definition revoke_open (p : RefreshToken -> bool) (now : Z) (t : RefreshToken) : RefreshToken :=
  match revokedAt t with None => if p t then revoke now (replacedBy t) t else t | Some _ => t end.
Definition markRevoked (id : Z) (by_ : option Z) (now : Z) : Db -> Db := with_tokens (alter (revoke now by_) id).
Definition revokeFamily (family now : Z) : Db -> Db :=
  with_tokens (fmap (revoke_open (fun t => familyId t =? family) now)).
Definition revokeAllForUser (user now : Z) : Db -> Db :=
  with_tokens (fmap (revoke_open (fun t => userId t =? user) now)).
End repositories.

(** ** Settings and services *)

Record AuthDomainSettings : Set := mkAuthDomainSettings {
  jwtIssuer : jsstr; accessTokenTtlSeconds : Z; sessionIdleTimeoutMinutes : Z; sessionAbsoluteTimeoutHours : Z;
  loginLockoutThreshold : Z; loginLockoutDurationMinutes : Z }.

(** [AccessTokenClaims] *)
Record AccessTokenClaims : Set := mkAccessTokenClaims {
  sub : Z; role : jsstr; c_fspId : option jsstr; c_permissions : list jsstr; c_mustChangePassword : bool;
  iss : jsstr; iat : Z; exp : Z; jti : Z }.

(** bcrypt, and @nestjs/jwt with the module's secret and issuer: a token verifies, from its
    text, as the claims that were signed, until the second it expires. *)
Class Credentials : Type := {
  bcrypt_hash : jsstr -> jsstr -> jsstr;             (* salt, password *)
  bcrypt_compare : jsstr -> jsstr -> bool;           (* password, hash *)
  bcrypt_own : forall salt p, bcrypt_compare p (bcrypt_hash salt p) = true;
  signAsync : AccessTokenClaims -> jsstr;
  verifyAsync : Z -> jsstr -> jsstr -> option AccessTokenClaims;   (* now, issuer, token *)
  verify_signed : forall now issuer c, verifyAsync now issuer (signAsync c) =
    if str_eqb (iss c) issuer && (now / 1000 <? exp c) then Some c else None }.

(** What a command draws: the bytes of a refresh token, a temporary password, and the salt of a
    hash. *)
Record Draw : Set := mkDraw { d_plaintext : jsstr; d_password : jsstr; d_salt : jsstr }.

(** [SNOWFLAKE.nextId()]: every id is given once. *)
Definition bump (s : Db) : Db :=
  mkDb (clock s) (serial s + 1) (users s) (roles s) (permissions s) (role_permissions s) (tokens s).
Definition nextId : Prog Db exception Z := Call bump (fun s => ret (serial s)).

Section tokens.
  Context {credentials : Credentials} (hashRefreshToken : jsstr -> jsstr) (settings : AuthDomainSettings).
  Notation Cmd := (Prog Db exception).

(** [new Date()] *)
Definition new_Date : Cmd Z := read clock.

(** [IssuedRefreshToken] *)
Record IssuedRefreshToken : Set := mkIssued { plaintext : jsstr; i_hash : jsstr; i_expiresAt : Z; i_sessionExpiresAt : Z }.

(** [TokenService.issueRefreshToken] *)
Definition issueRefreshToken (d : Draw) (session : option Z) : Cmd IssuedRefreshToken :=
  let* now := new_Date in
  let deadline := default (now + sessionAbsoluteTimeoutHours settings * 3600000) session in
  let expires := Z.min (now + sessionIdleTimeoutMinutes settings * 60000) deadline in
  ret (mkIssued (d_plaintext d) (hashRefreshToken (d_plaintext d)) expires deadline).

(** [TokenService.signAccessToken]; both callers give the deadline. *)
Definition signAccessToken (user : Z) (roleCode : jsstr) (fsp : option jsstr) (must : bool) (keys : list jsstr) (deadline : Z)
    : Cmd jsstr :=
  let* now := new_Date in
  let now := now / 1000 in
  let* id := nextId in
  ret (signAsync (mkAccessTokenClaims user roleCode fsp keys must (jwtIssuer settings) now
    (Z.min (now + accessTokenTtlSeconds settings) (deadline / 1000)) id)).

(** [TokenService.verifyAccessToken] *)
Definition verifyAccessToken (now : Z) (token : jsstr) : option AccessTokenClaims := verifyAsync now (jwtIssuer settings) token.
End tokens.

(** ** Temporary passwords *)

Module TempPassword.
Definition LOWER : jsstr := js "abcdefghijkmnopqrstuvwxyz".
Definition UPPER : jsstr := js "ABCDEFGHJKLMNPQRSTUVWXYZ".
Definition DIGITS : jsstr := js "23456789".
Definition SYMBOL : jsstr := js "!@#$%^&*?_-+=".
Definition DEFAULT_LENGTH : nat := 16.

Section generate.
  (** [randomInt(0, n)] of the [k]-th draw. *)
  Context (randomInt : nat -> nat -> nat).

(** [pick]; an index out of range, which [randomInt] does not give, is the first character. *)
Definition pick (k : nat) (charset : jsstr) : ascii :=
  default (default "a"%char (head charset)) (charset !! randomInt k (length charset)).

(** The while loop: [n] more characters. *)
Fixpoint fill (k n : nat) (chars all : jsstr) : jsstr :=
  match n with O => chars | Datatypes.S n => fill (Datatypes.S k) n (chars ++ [pick k all]) all end.

Definition swap (i j : nat) (chars : jsstr) : jsstr :=
  match chars !! i, chars !! j with
  | Some a, Some b => <[j := a]> (<[i := b]> chars)
  | _, _ => chars
  end.
(** The for loop, from [i] down to 1. *)
Fixpoint shuffle (k i : nat) (chars : jsstr) : jsstr :=
  match i with O => chars | Datatypes.S i' => shuffle (Datatypes.S k) i' (swap i (randomInt k (Datatypes.S i)) chars) end.

Definition generate (len : nat) : option jsstr :=
  if (len <? 12)%nat then None
  else
    let all := LOWER ++ UPPER ++ DIGITS ++ SYMBOL in
    let chars := [pick 0 LOWER; pick 1 UPPER; pick 2 DIGITS; pick 3 SYMBOL] in
    let chars := fill 4 (len - 4) chars all in
    Some (shuffle len (length chars - 1) chars).
End generate.
End TempPassword.

(** * Lemmas *)

Lemma find_row_Some {A} (p : A -> bool) (m : gmap Z A) i x : find_row p m = Some (i, x) -> m !! i = Some x /\ p x = true.
Proof. unfold find_row. intros [Hin Hp]%find_some. split; [|done]. by apply elem_of_map_to_list, list_elem_of_In. Qed.

Lemma find_row_None {A} (p : A -> bool) (m : gmap Z A) i x : find_row p m = None -> m !! i = Some x -> p x = false.
Proof. unfold find_row. intros Hn Hi. apply (find_none _ _ Hn (i, x)), list_elem_of_In. by apply elem_of_map_to_list. Qed.

Lemma find_row_is_Some {A} (p : A -> bool) (m : gmap Z A) i x : m !! i = Some x -> p x = true -> is_Some (find_row p m).
Proof. intros Hi Hp. destruct (find_row p m) eqn:E; [by eexists|]. by rewrite (find_row_None p m i x E Hi) in Hp. Qed.

Lemma find_row_unique {A} (p : A -> bool) (m : gmap Z A) i x :
  m !! i = Some x -> p x = true -> (forall j y, m !! j = Some y -> p y = true -> j = i) -> find_row p m = Some (i, x).
Proof.
  intros Hi Hp Hu. destruct (find_row_is_Some p m i x Hi Hp) as [[j y] Hf]. rewrite Hf. apply find_row_Some in Hf as [Hj Hy].
  assert (j = i) as -> by eauto. congruence.
Qed.

Lemma count_rows_0 {A} (p : Z -> A -> bool) (m : gmap Z A) : count_rows p m = 0%nat <-> forall i x, m !! i = Some x -> p i x = false.
Proof.
  unfold count_rows. split.
  - intros Hl i x Hi. apply length_zero_iff_nil in Hl. destruct (p i x) eqn:Hp; [|done].
    assert (Hin : In (i, x) (List.filter (fun e => p (fst e) (snd e)) (map_to_list m))).
    { apply filter_In. split; [|done]. apply list_elem_of_In. by apply elem_of_map_to_list. }
    by rewrite Hl in Hin.
  - intros H. apply length_zero_iff_nil. destruct (List.filter _ _) as [|[i x] l] eqn:E; [done|].
    assert (Hin : In (i, x) (List.filter (fun e => p (fst e) (snd e)) (map_to_list m))) by (rewrite E; by left).
    apply filter_In in Hin as [Hin Hp]. apply list_elem_of_In, elem_of_map_to_list in Hin. cbn in Hp. by rewrite (H i x Hin) in Hp.
Qed.


(** ** Refresh tokens over time *)

(** A record is never given another user, hash or deadline, and stays revoked. *)
Definition kept (t t' : RefreshToken) : Prop :=
  userId t' = userId t /\ familyId t' = familyId t /\ tokenHash t' = tokenHash t /\ expiresAt t' = expiresAt t /\
  sessionExpiresAt t' = sessionExpiresAt t /\ (is_Some (revokedAt t) -> is_Some (revokedAt t')).
Definition later (s s' : Db) : Prop :=
  clock s <= clock s' /\ serial s <= serial s' /\
  forall i t, tokens s !! i = Some t -> exists t', tokens s' !! i = Some t' /\ kept t t'.

#[global] Instance kept_refl : Reflexive kept.
Proof. by intros t. Qed.
#[global] Instance kept_trans : Transitive kept.
Proof. intros a b c (H1 & H2 & H3 & H4 & H5 & H6) (G1 & G2 & G3 & G4 & G5 & G6). repeat split; try congruence. auto. Qed.
#[global] Instance later_preorder : PreOrder later.
Proof.
  split; [intros s; split; [done|]; split; [done|]; intros i t Ht; by exists t|].
  intros a b c (H1 & H2 & H3) (G1 & G2 & G3). split; [lia|]. split; [lia|]. intros i t Ht.
  destruct (H3 i t Ht) as (t' & Ht' & Hk). destruct (G3 i t' Ht') as (t2 & Ht2 & Hk2). exists t2. split; [done|]. by etransitivity.
Qed.

Lemma kept_revoke now by_ t : kept t (revoke now by_ t).
Proof. repeat split. by eexists. Qed.
Lemma kept_revoke_open p now t : kept t (revoke_open p now t).
Proof. unfold revoke_open. destruct (revokedAt t); [done|]. destruct (p t); [apply kept_revoke|done]. Qed.

(** ** Credentials for the examples *)

(** A hash is the password, a token its claims in binary digits. *)
Module Plain.
Definition tuple (c : AccessTokenClaims) :=
  (sub c, role c, c_fspId c, c_permissions c, c_mustChangePassword c, iss c, iat c, exp c, jti c).
Definition untuple (t : Z * jsstr * option jsstr * list jsstr * bool * jsstr * Z * Z * Z) : AccessTokenClaims :=
  let '(a, b, c, d, e, f, g, h, i) := t in mkAccessTokenClaims a b c d e f g h i.
Fixpoint digits (p : positive) : jsstr :=
  match p with xH => [] | xO p => "0"%char :: digits p | xI p => "1"%char :: digits p end.
Fixpoint undigits (t : jsstr) : positive :=
  match t with [] => xH | c :: t => if (c =? "0")%char then xO (undigits t) else xI (undigits t) end.
Definition verify (now : Z) (issuer token : jsstr) : option AccessTokenClaims :=
  match decode (undigits token) with
  | Some t => let c := untuple t in if str_eqb (iss c) issuer && (now / 1000 <? exp c) then Some c else None
  | None => None
  end.

Lemma undigits_digits p : undigits (digits p) = p.
Proof. induction p as [p IH|p IH|]; cbn; congruence. Qed.
Lemma verify_own now issuer c : verify now issuer (digits (encode (tuple c))) =
  if str_eqb (iss c) issuer && (now / 1000 <? exp c) then Some c else None.
Proof. unfold verify. rewrite undigits_digits, decode_encode. by destruct c. Qed.
Lemma compare_own (salt p : jsstr) : str_eqb p p = true.
Proof. unfold str_eqb. by apply bool_decide_eq_true. Qed.
End Plain.
Definition plain_credentials : Credentials := {|
  bcrypt_hash _ p := p; bcrypt_compare := str_eqb; bcrypt_own := Plain.compare_own;
  signAsync c := Plain.digits (encode (Plain.tuple c)); verifyAsync := Plain.verify; verify_signed := Plain.verify_own |}.
