(* ===== verification/Sessions.v ===== *)
(** * Sessions of the portal

    core/auth/domain/command (login, refresh-tokens, logout, change-password) and the guards of
    apps/web-pivotal. A command is the tree of its database calls (Interleave.v); commands run
    interleaved, and a call may fail. Logging and the cookie of auth.controller.ts are not
    modelled. *)

From S2P Require Import Prelude Interleave Accounts.

Section sessions.
  Context {credentials : Credentials} (same_text : jsstr -> jsstr -> bool) (hashRefreshToken : jsstr -> jsstr).
  Context (settings : AuthDomainSettings).
  Notation Cmd := (Prog Db exception).

(** ** Commands *)

(** The output of login and refresh, without what it repeats of the user. *)
Record Session : Set := mkSession {
  accessToken : jsstr; refreshToken : jsstr; refreshTokenExpiresAt : Z; o_permissions : list jsstr;
  o_mustChangePassword : bool; o_sessionExpiresAt : Z; sessionId : Z }.

(** [remainingLockoutMinutes] *)
Definition remainingLockoutMinutes (until now : Z) : Z := Z.max 1 ((until - now + 59999) / 60000).

(** [handleFailedAttempt] *)
Definition handleFailedAttempt (id attemptCount : Z) : Cmd bool :=
  let* _ := write (set_user id incremented) in
  if loginLockoutThreshold settings <=? attemptCount
  then let* now := new_Date in
       let* _ := write (set_user id (locked_at (now + loginLockoutDurationMinutes settings * 60 * 1000))) in
       ret true
  else ret false.

(** [LoginHandler.execute] *)
Definition login (d : Draw) (mail password : jsstr) : Cmd Session :=
  let* found := read (findByEmail same_text mail) in
  match found with
  | None => throw (Unauthorized INVALID_CREDENTIALS)
  | Some (id, user) =>
      let* _ := throw_when (negb (isActive user)) (Unauthorized USER_INACTIVE) in
      let* now := new_Date in
      let* _ := match lockedUntil user with
                | Some until => throw_when (now <? until) (Locked (remainingLockoutMinutes until now))
                | None => ret tt
                end in
      if negb (bcrypt_compare password (passwordHash user))
      then let* locked := handleFailedAttempt id (failedLoginAttempts user + 1) in
           throw (if (locked : bool) then Locked (loginLockoutDurationMinutes settings) else Unauthorized INVALID_CREDENTIALS)
      else
        let* role := read (fun s => roles s !! roleId user) in
        match role with
        | None => throw (Unauthorized UNKNOWN_ROLE)
        | Some role =>
            let* now := new_Date in
            let* _ := write (set_user id (logged_in now)) in
            let* keys := read (fun s => permission_keys s (roleId user)) in
            let* family := nextId in
            let* issued := issueRefreshToken hashRefreshToken settings d None in
            let* access := signAccessToken settings id (code role) (fspId user) (mustChangePassword user) keys
                             (i_sessionExpiresAt issued) in
            let* token := nextId in
            let* _ := attempt (save_token token
                        (newRefreshToken id family (i_hash issued) (i_expiresAt issued) (Some (i_sessionExpiresAt issued)))) in
            ret (mkSession access (plaintext issued) (i_expiresAt issued) keys (mustChangePassword user)
                   (i_sessionExpiresAt issued) family)
        end
  end.

(** The deadlines of a refresh token at [now]. *)
Definition session_over (t : RefreshToken) (now : Z) : bool :=
  match sessionExpiresAt t with None => true | Some deadline => deadline <=? now end.

(** The new tokens of a refresh, in the same family; then the old one is revoked. *)
Definition rotate (d : Draw) (id : Z) (existing : RefreshToken) (user : User) (role : Role) : Cmd Session :=
  let* issued := issueRefreshToken hashRefreshToken settings d (sessionExpiresAt existing) in
  let* next := nextId in
  let* _ := attempt (save_token next
              (newRefreshToken (userId existing) (familyId existing) (i_hash issued) (i_expiresAt issued)
                 (Some (i_sessionExpiresAt issued)))) in
  let* at_ := new_Date in
  let* _ := write (markRevoked id (Some next) at_) in
  let* keys := read (fun s => permission_keys s (roleId user)) in
  let* access := signAccessToken settings (userId existing) (code role) (fspId user) (mustChangePassword user)
                   keys (i_sessionExpiresAt issued) in
  ret (mkSession access (plaintext issued) (i_expiresAt issued) keys (mustChangePassword user)
         (i_sessionExpiresAt issued) (familyId existing)).

(** [RefreshTokensHandler.execute] *)
Definition refresh (d : Draw) (token : jsstr) : Cmd Session :=
  let* found := read (findByTokenHash (hashRefreshToken token)) in
  match found with
  | None => throw (Unauthorized INVALID_REFRESH_TOKEN)
  | Some (id, existing) =>
      let* now := new_Date in
      if session_over existing now || (expiresAt existing <=? now)
      then let* at_ := new_Date in
           let* _ := write (revokeFamily (familyId existing) at_) in
           throw (Expired (if session_over existing now then js "absolute" else js "idle"))
      else match revokedAt existing with
      | Some _ =>
          let* at_ := new_Date in
          let* _ := write (revokeFamily (familyId existing) at_) in
          throw (Unauthorized REFRESH_TOKEN_REUSE)
      | None =>
          let* found := read (fun s => users s !! userId existing) in
          match found with
          | Some user =>
              if negb (isActive user)
              then let* at_ := new_Date in
                   let* _ := write (revokeFamily (familyId existing) at_) in
                   throw (Unauthorized INVALID_REFRESH_TOKEN)
              else
                let* role := read (fun s => roles s !! roleId user) in
                match role with
                | None => throw (Unauthorized UNKNOWN_ROLE)
                | Some role =>
                    rotate d id existing user role
                end
          | None =>
              let* at_ := new_Date in
              let* _ := write (revokeFamily (familyId existing) at_) in
              throw (Unauthorized INVALID_REFRESH_TOKEN)
          end
      end
  end.

(** [LogoutHandler.execute] *)
Definition logout (token : jsstr) (allDevices : bool) : Cmd bool :=
  let* found := read (findByTokenHash (hashRefreshToken token)) in
  match found with
  | None => ret false
  | Some (id, existing) =>
      let* _ := if allDevices
                then let* now := new_Date in write (revokeAllForUser (userId existing) now)
                else match revokedAt existing with
                     | None => let* now := new_Date in write (markRevoked id None now)
                     | Some _ => ret tt
                     end in
      ret true
  end.

(** What follows a new password: revoke all sessions, invalidate the access tokens. *)
Definition endSessions (id : Z) : Cmd unit :=
  let* now := new_Date in
  let* _ := write (revokeAllForUser id now) in
  let* now := new_Date in
  write (set_user id (invalidated now)).

(** [ChangePasswordHandler.execute] *)
Definition changePassword (d : Draw) (id : Z) (currentPassword newPassword : jsstr) : Cmd bool :=
  let* found := read (fun s => users s !! id) in
  match found with
  | None => throw (Unauthorized INVALID_CREDENTIALS)
  | Some user =>
      let* _ := throw_when (negb (isActive user)) (Unauthorized INVALID_CREDENTIALS) in
      let* _ := throw_when (negb (bcrypt_compare currentPassword (passwordHash user))) (Unauthorized INVALID_CREDENTIALS) in
      let* _ := throw_when (bcrypt_compare newPassword (passwordHash user)) SamePassword in
      let* _ := write (set_user id (with_password (bcrypt_hash (d_salt d) newPassword) false)) in
      let* _ := endSessions id in
      ret true
  end.

(** ** Guards *)

Definition BEARER_PREFIX : jsstr := js "Bearer ".

(** [JwtAuthGuard.canActivate]: [isPublic] is the route's, [header] the authorization header if
    it is one text; the claims that go on the request. The user is that of the read
    connection. *)
Definition jwt_guard (isPublic : bool) (header : option jsstr) : Cmd (option AccessTokenClaims) :=
  if isPublic then ret None
  else
    let token := match header with
                 | Some h => if startsWith h BEARER_PREFIX then Some (trim (drop (length BEARER_PREFIX) h)) else None
                 | None => None
                 end in
    match token with
    | None => throw MissingToken
    | Some token =>
        let* now := new_Date in
        match verifyAccessToken settings now token with
        | None => throw InvalidToken
        | Some claims =>
            let* found := read (fun s => users s !! sub claims) in
            match found with
            | None => throw (Unauthorized USER_INACTIVE)
            | Some user =>
                let* _ := throw_when (negb (isActive user)) (Unauthorized USER_INACTIVE) in
                let* _ := match tokensInvalidatedAt user with
                          | Some t => throw_when (iat claims <=? t / 1000) (Unauthorized TOKEN_REVOKED)
                          | None => ret tt
                          end in
                ret (Some claims)
            end
        end
    end.

(** [PermissionsGuard.canActivate] *)
Definition permissions_guard (isPublic : bool) (required : option (list jsstr)) (claims : option AccessTokenClaims)
    : result exception unit :=
  if isPublic then Ok tt
  else match required with
       | None => Ok tt
       | Some keys =>
           match claims with
           | None => Err PermissionDenied
           | Some claims => if existsb (fun k => bool_decide (k ∈ c_permissions claims)) keys then Ok tt else Err PermissionDenied
           end
       end.
End sessions.

(** ** Interleavings *)

Section interleaved.
  Context {credentials : Credentials} (same_text : jsstr -> jsstr -> bool) (hashRefreshToken : jsstr -> jsstr).
  Context (settings : AuthDomainSettings).

(** The answers of the commands; that of a refresh with the hash of the token it was given. *)
Inductive answer : Set := ALogin (o : Session) | ARefresh (hash : jsstr) (o : Session) | ADone (b : bool).
Notation Cmd := (Prog Db exception answer).

Inductive session_command : Cmd -> Prop :=
  | c_login d mail password :
      session_command (let* o := login same_text hashRefreshToken settings d mail password in ret (ALogin o))
  | c_refresh d token :
      session_command (let* o := refresh hashRefreshToken settings d token in ret (ARefresh (hashRefreshToken token) o))
  | c_logout token all : session_command (let* b := logout hashRefreshToken token all in ret (ADone b))
  | c_password d id current new : session_command (let* b := changePassword d id current new in ret (ADone b)).

(** Everything else: time goes on, users, roles and permissions change, and an administrator's
    command ends the sessions of a user. *)
Definition world (s s' : Db) : Prop :=
  clock s <= clock s' /\ serial s <= serial s' /\ (tokens s' = tokens s \/ exists u now, tokens s' = tokens (revokeAllForUser u now s)).

(** Deadlines of the stored tokens, and their hashes are different. *)
Record sane (s : Db) : Prop := {
  sane_deadline : forall i t, tokens s !! i = Some t -> exists d, sessionExpiresAt t = Some d /\
    expiresAt t <= db_second d /\ d <= clock s + sessionAbsoluteTimeoutHours settings * 3600000;
  sane_hash : forall i j t t', tokens s !! i = Some t -> tokens s !! j = Some t' -> tokenHash t = tokenHash t' -> i = j }.

(** A token of that hash is stored, with its family and deadline; it is revoked. *)
Definition stored (hash : jsstr) (family deadline : Z) (s : Db) : Prop :=
  exists i t, tokens s !! i = Some t /\ tokenHash t = hash /\ familyId t = family /\ sessionExpiresAt t = Some deadline.
Definition retired (hash : jsstr) (s : Db) : Prop :=
  exists i t, tokens s !! i = Some t /\ tokenHash t = hash /\ is_Some (revokedAt t).

Lemma stored_later hash f d s s' : later s s' -> stored hash f d s -> stored hash f d s'.
Proof.
  intros (_ & _ & Hk) (i & t & Hi & H1 & H2 & H3). destruct (Hk i t Hi) as (t' & Hi' & E1 & E2 & E3 & E4 & E5 & _).
  exists i, t'. split; [done|]. repeat split; congruence.
Qed.
Lemma retired_later hash s s' : later s s' -> retired hash s -> retired hash s'.
Proof.
  intros (_ & _ & Hk) (i & t & Hi & H1 & H2). destruct (Hk i t Hi) as (t' & Hi' & E1 & E2 & E3 & E4 & E5 & E6).
  exists i, t'. split; [done|]. split; [congruence|auto].
Qed.

(** *** Statements *)

Lemma retouch s s2 :
  clock s <= clock s2 -> serial s <= serial s2 ->
  (forall i, match tokens s !! i, tokens s2 !! i with Some t, Some t' => kept t t' | None, None => True | _, _ => False end) ->
  sane s -> sane s2 /\ later s s2.
Proof.
  intros Hc Hser Hk [Sd Sh].
  assert (Hback : forall i t', tokens s2 !! i = Some t' -> exists t, tokens s !! i = Some t /\ kept t t').
  { intros i t' Hi. specialize (Hk i). rewrite Hi in Hk. destruct (tokens s !! i) as [t|]; [by exists t|done]. }
  split; [split|split; [done|split; [done|]]].
  - intros i t' Hi. destruct (Hback i t' Hi) as (t & Ht & _ & _ & _ & E1 & E2 & _). destruct (Sd i t Ht) as (d & H1 & H2 & H3).
    exists d. rewrite E1, E2. split; [done|]. split; [done|lia].
  - intros i j t t' Hi Hj Hh. destruct (Hback i t Hi) as (u & Hu & _ & _ & E & _). destruct (Hback j t' Hj) as (u' & Hu' & _ & _ & E' & _).
    apply (Sh i j u u' Hu Hu'). congruence.
  - intros i t Ht. specialize (Hk i). rewrite Ht in Hk. destruct (tokens s2 !! i) as [t'|]; [by exists t'|done].
Qed.

Lemma same_tokens s s2 : clock s <= clock s2 -> serial s <= serial s2 -> tokens s2 = tokens s -> sane s -> sane s2 /\ later s s2.
Proof. intros Hc Hser Ht. apply retouch; [done|done|]. intros i. rewrite Ht. by destruct (tokens s !! i). Qed.

Lemma fmap_tokens f s : (forall t, kept t (f t)) -> sane s -> sane (with_tokens (fmap f) s) /\ later s (with_tokens (fmap f) s).
Proof. intros Hf. apply retouch; [done|done|]. intros i. cbn. rewrite lookup_fmap. destruct (tokens s !! i); cbn; [apply Hf|done]. Qed.

Lemma mark_tokens id by_ now s : sane s -> sane (markRevoked id by_ now s) /\ later s (markRevoked id by_ now s).
Proof.
  apply retouch; [done|done|]. intros i. cbn. destruct (decide (i = id)) as [->|Hne].
  - rewrite lookup_alter_eq. destruct (tokens s !! id); cbn; [apply kept_revoke|done].
  - rewrite lookup_alter_ne by done. by destruct (tokens s !! i).
Qed.

Lemma revoke_family_sane family now s : sane s -> sane (revokeFamily family now s) /\ later s (revokeFamily family now s).
Proof. apply fmap_tokens, kept_revoke_open. Qed.
Lemma revoke_user_sane user now s : sane s -> sane (revokeAllForUser user now s) /\ later s (revokeAllForUser user now s).
Proof. apply fmap_tokens, kept_revoke_open. Qed.
Lemma set_user_sane id f s : sane s -> sane (set_user id f s) /\ later s (set_user id f s).
Proof. by apply same_tokens. Qed.
Lemma bump_sane s : sane s -> sane (bump s) /\ later s (bump s).
Proof. apply same_tokens; cbn; [lia|lia|done]. Qed.

Lemma save_token_sane j u f hash e d s s2 :
  save_token j (newRefreshToken u f hash e (Some d)) s = Ok s2 -> e <= d -> d <= clock s + sessionAbsoluteTimeoutHours settings * 3600000 ->
  sane s -> sane s2 /\ later s s2 /\ stored hash f d s2.
Proof.
  unfold save_token, newRefreshToken. cbn. intros Hs He Hd [Sd Sh].
  destruct (tokens s !! j) eqn:Hj; [done|]. destruct (findByTokenHash hash s) eqn:Hf; [done|]. destruct (users s !! u); [|done].
  injection Hs as <-. unfold findByTokenHash in Hf.
  assert (Hno : forall i t, tokens s !! i = Some t -> tokenHash t <> hash).
  { intros i t Hi Heq. pose proof (find_row_None _ _ i t Hf Hi) as Hn. cbn in Hn. rewrite Heq in Hn. unfold str_eqb in Hn.
    by apply bool_decide_eq_false in Hn. }
  split; [split|split].
  - intros i t. cbn. intros [[<- <-]|[Hne Hi]]%lookup_insert_Some; [|by apply Sd with i].
    exists d. cbn. split; [done|]. split; [by apply db_second_mono|done].
  - intros i i' t t'. cbn. intros [[<- <-]|[Hne Hi]]%lookup_insert_Some [[<- <-]|[Hne' Hi']]%lookup_insert_Some; cbn; intros Heq; [done|..].
    + by destruct (Hno i' t' Hi').
    + by destruct (Hno i t Hi).
    + by apply (Sh i i' t t').
  - split; [done|]. split; [done|]. intros i t Hi. exists t. split; [|done]. cbn. rewrite lookup_insert_ne by congruence. done.
  - exists j. eexists. split; [apply lookup_insert_eq|]. done.
Qed.

Lemma world_sane s s' : world s s' -> sane s -> sane s' /\ later s s'.
Proof.
  intros (Hc & Hser & [Ht|(u & now & Ht)]); [by apply same_tokens|]. apply retouch; [done|done|]. intros i. rewrite Ht. cbn.
  rewrite lookup_fmap. destruct (tokens s !! i); cbn; [apply kept_revoke_open|done].
Qed.

(** *** Commands *)

(** What a session promises: its refresh token is stored, its deadline is at most the absolute
    timeout away, and its access token verifies only before. *)
Definition session_ok (o : Session) (s : Db) : Prop :=
  stored (hashRefreshToken (refreshToken o)) (sessionId o) (o_sessionExpiresAt o) s /\
  o_sessionExpiresAt o <= clock s + sessionAbsoluteTimeoutHours settings * 3600000 /\
  forall now c, verifyAccessToken settings now (accessToken o) = Some c -> now < o_sessionExpiresAt o.

Section commands.
  (** Hashes of tokens that are retired. *)
  Context (H : jsstr -> Prop).

Definition sound (s : Db) : Prop := sane s /\ forall h, H h -> retired h s.
Definition refreshed (h : jsstr) (o : Session) (s : Db) : Prop :=
  ~ H h /\ retired h s /\ stored h (sessionId o) (o_sessionExpiresAt o) s /\ session_ok o s.
Definition answered (s : Db) (r : result exception answer) : Prop :=
  match r with Ok (ALogin o) => session_ok o s | Ok (ARefresh h o) => refreshed h o s | _ => True end.
Notation safe := (safe sound later).

Lemma session_ok_later o s s' : later s s' -> session_ok o s -> session_ok o s'.
Proof.
  intros Hl (H1 & H2 & H3). split; [by eapply stored_later|]. split; [|done]. destruct Hl as (Hc & _). lia.
Qed.
Lemma answered_later s s' r : later s s' -> answered s r -> answered s' r.
Proof.
  intros Hl. destruct r as [[o|h o|b]|e]; cbn; [by apply session_ok_later| |done..].
  intros (H1 & H2 & H3 & H4). split; [done|]. split; [by eapply retired_later|]. split; [by eapply stored_later|by eapply session_ok_later].
Qed.
Lemma sound_step (f : Db -> Db) : (forall s, sane s -> sane (f s) /\ later s (f s)) -> forall s, sound s -> sound (f s) /\ later s (f s).
Proof.
  intros Hf s [Hs Hr]. destruct (Hf s Hs) as [H1 H2]. split; [split; [done|]|done]. intros h Hh. eapply retired_later; [done|auto].
Qed.

Lemma safe_statement {B} (Q : Db -> result exception B -> Prop) f (q : unit -> Prog Db exception B) s :
  (forall s, sane s -> sane (f s) /\ later s (f s)) -> (forall s', later s s' -> sound s' -> safe Q (q tt) (f s')) ->
  safe Q (bind (write f) q) s.
Proof. intros Hf. apply safe_write, sound_step, Hf. Qed.

Lemma safe_nextId {B} (Q : Db -> result exception B -> Prop) (q : Z -> Prog Db exception B) s :
  (forall i s', later s s' -> sound s' -> safe Q (q i) s') -> safe Q (bind nextId q) s.
Proof.
  intros Hq s' Hg HI. destruct (sound_step bump bump_sane s' HI) as [H1 H2]. split; [done|]. split; [done|].
  apply Hq; [by etransitivity|done].
Qed.

(** A command that ends in nothing. *)
Definition anything {B} (s : Db) (r : result exception B) : Prop := True.

Lemma failed_attempt_safe id n s : safe anything (handleFailedAttempt settings id n) s.
Proof.
  unfold handleFailedAttempt. apply safe_statement; [apply set_user_sane|]. intros s1 _ _.
  destruct (_ <=? n); [|done]. unfold new_Date. apply safe_read; [apply _|]. intros s2 _ _.
  apply safe_statement; [apply set_user_sane|]. done.
Qed.

Lemma issue_safe d session s :
  safe (fun s r => match r with
                   | Ok i => i_hash i = hashRefreshToken (plaintext i) /\ i_expiresAt i <= i_sessionExpiresAt i /\
                       match session with
                       | Some deadline => i_sessionExpiresAt i = deadline
                       | None => i_sessionExpiresAt i <= clock s + sessionAbsoluteTimeoutHours settings * 3600000
                       end
                   | Err _ => True
                   end) (issueRefreshToken hashRefreshToken settings d session) s.
Proof.
  unfold issueRefreshToken, new_Date. apply safe_read; [apply _|]. intros s1 _ _. apply safe_ret. cbn.
  split; [done|]. split; [lia|]. by destruct session.
Qed.

Lemma sign_safe id roleCode fsp must keys deadline s :
  safe (fun _ r => match r with
                   | Ok token => forall now c, verifyAccessToken settings now token = Some c -> now < deadline
                   | Err _ => True
                   end) (signAccessToken settings id roleCode fsp must keys deadline) s.
Proof.
  unfold signAccessToken, new_Date. apply safe_read; [apply _|]. intros s1 _ _. cbv zeta. apply safe_nextId. intros i s2 _ _.
  apply safe_ret. intros now c. unfold verifyAccessToken. rewrite verify_signed. cbn [iss exp].
  destruct (_ && _) eqn:Hv; [|done]. intros _. apply andb_true_iff in Hv as [_ Hv%Z.ltb_lt].
  assert (now / 1000 < deadline / 1000) as Hlt by lia. destruct (Z.lt_ge_cases now deadline) as [|Hge]; [done|].
  pose proof (Z.div_le_mono deadline now 1000 ltac:(lia) Hge). lia.
Qed.

Lemma revoke_then_safe {B} (Q : Db -> result exception B -> Prop) family e s : (forall s, Q s (Err e)) ->
  safe Q (let* at_ := new_Date in let* _ := write (revokeFamily family at_) in throw e) s.
Proof.
  intros HQ. unfold new_Date. apply safe_read; [apply _|]. intros s1 _ _.
  apply safe_statement; [intros; by apply revoke_family_sane|]. intros s2 _ _. apply safe_throw, HQ.
Qed.

(** The token a session is stored with. *)
Lemma safe_save {B} (Q : Db -> result exception B -> Prop) j u f hash e d (q : unit -> Prog Db exception B) s :
  e <= d -> d <= clock s + sessionAbsoluteTimeoutHours settings * 3600000 -> (forall s e, Q s (Err e)) ->
  (forall s', later s s' -> sound s' -> stored hash f d s' -> safe Q (q tt) s') ->
  safe Q (bind (attempt (save_token j (newRefreshToken u f hash e (Some d)))) q) s.
Proof.
  intros He Hd HQ Hq. apply safe_attempt; [|done|apply _]. intros s1 s2 Hl [Hs Hr] Hsave.
  destruct (save_token_sane j u f hash e d s1 s2 Hsave He) as (H1 & H2 & H3); [|done|].
  { destruct Hl as (Hc & _). lia. }
  assert (Hs2 : sound s2) by (split; [done|]; intros h Hh; eapply retired_later; [done|auto]).
  split; [done|]. split; [done|]. apply Hq; [by etransitivity|done|done].
Qed.

Lemma login_safe d mail password s :
  safe (fun s r => match r with Ok o => session_ok o s | Err _ => True end) (login same_text hashRefreshToken settings d mail password) s.
Proof.
  unfold login. apply safe_read; [apply _|]. intros s1 _ _. destruct (findByEmail same_text mail s1) as [[id user]|]; [|done].
  apply safe_throw_when; [done|]. intros _. unfold new_Date at 1. apply safe_read; [apply _|]. intros s2 _ _.
  assert (Hrest : forall until : option Z, forall q s3, safe (fun s r => match r with Ok o => session_ok o s | Err _ => True end) q s3 ->
    safe (fun s r => match r with Ok o => session_ok o s | Err _ => True end)
      (let* _ := match until with Some until => throw_when (clock s2 <? until) (Locked (remainingLockoutMinutes until (clock s2))) | None => ret tt end in q) s3).
  { intros [until|] q s3 Hq; [|done]. by apply safe_throw_when. }
  apply Hrest. destruct (negb _).
  { eapply safe_bind_intro; [|apply failed_attempt_safe]. by intros s3 [b|e]. }
  apply safe_read; [apply _|]. intros s3 _ _. destruct (roles s3 !! roleId user) as [role|]; [|done].
  unfold new_Date. apply safe_read; [apply _|]. intros s4 _ _. apply safe_statement; [apply set_user_sane|]. intros s5 _ _.
  apply safe_read; [apply _|]. intros s6 _ _. apply safe_nextId. intros family s7 _ _.
  eapply safe_bind_from; [apply _| |apply issue_safe]. intros s8 [i|e] _; [|done]. intros (Hh & He & Hd).
  eapply safe_bind_from; [apply _| |apply sign_safe]. intros s9 [token|e] (Hc9 & _); [|done]. intros Hv.
  apply safe_nextId. intros j s10 (Hc10 & _) _. rewrite Hh. apply safe_save; [done|lia|done|]. intros s11 (Hc11 & _) _ Hst.
  apply safe_ret. split; [done|]. split; [cbn; lia|done].
Qed.

Lemma refresh_safe d token s :
  safe (fun s r => match r with Ok o => refreshed (hashRefreshToken token) o s | Err _ => True end)
    (refresh hashRefreshToken settings d token) s.
Proof.
  unfold refresh. set (h := hashRefreshToken token). apply safe_read; [apply _|]. intros s1 _ [Hs1 Hr1].
  destruct (findByTokenHash h s1) as [[id existing]|] eqn:Hf; [|done]. apply find_row_Some in Hf as [Hid Hh].
  unfold str_eqb in Hh. apply bool_decide_eq_true in Hh. unfold new_Date at 1. apply safe_read; [apply _|]. intros s2 Hl2 _.
  destruct (session_over existing (clock s2) || _) eqn:Hover; [by apply revoke_then_safe|]. apply orb_false_iff in Hover as [Hover _].
  destruct (revokedAt existing) eqn:Hrev; [by apply revoke_then_safe|].
  assert (HnH : ~ H h).
  { intros Hh'. destruct (Hr1 h Hh') as (i & t & Hi & Hth & [x Hx]). assert (i = id) as -> by (apply (sane_hash _ Hs1 i id t existing); congruence).
    congruence. }
  apply safe_read; [apply _|]. intros s3 Hl3 _. destruct (users s3 !! userId existing) as [user|]; [|by apply revoke_then_safe].
  destruct (negb (isActive user)); [by apply revoke_then_safe|].
  apply safe_read; [apply _|]. intros s4 Hl4 _. destruct (roles s4 !! roleId user) as [role|]; [|done]. unfold rotate.
  destruct (sane_deadline _ Hs1 id existing Hid) as (dl & Hdl & _ & Habs). rewrite Hdl.
  eapply safe_bind_from; [apply _| |apply issue_safe]. intros s5 [i|e] Hl5; [|done]. intros (Hhash & He & Hd).
  assert (Hl15 : later s1 s5) by (do 3 (etransitivity; [eassumption|]); done).
  apply safe_nextId. intros j s6 Hl6 _. rewrite Hhash, Hd.
  apply safe_save; [by rewrite Hd in He|destruct Hl15 as (? & _); destruct Hl6 as (? & _); lia|done|].
  intros s7 Hl7 _ Hst. unfold new_Date at 1. apply safe_read; [apply _|]. intros s8 Hl8 Hs8.
  apply safe_statement; [apply mark_tokens|]. intros s9 Hl9 Hs9.
  assert (Hl19 : later s1 s9) by (do 3 (etransitivity; [eassumption|]); etransitivity; [exact Hl8|exact Hl9]).
  destruct (proj2 (proj2 Hl19) id existing Hid) as (t9 & Hid9 & E1 & E2 & E3 & E4 & E5 & _).
  set (s10 := markRevoked id (Some j) (clock s8) s9).
  assert (H10 : retired h s10 /\ stored h (familyId existing) dl s10).
  { split; exists id, (revoke (clock s8) (Some j) t9); (split; [by cbn; rewrite lookup_alter_eq, Hid9|]); cbn;
      repeat split; try congruence. by eexists. }
  assert (Hst10 : stored (hashRefreshToken (plaintext i)) (familyId existing) dl s10).
  { apply (stored_later _ _ _ s9); [by apply mark_tokens, Hs9|]. apply (stored_later _ _ _ s7); [by etransitivity|done]. }
  assert (Hc10 : clock s1 <= clock s10) by (destruct Hl19 as (Hc & _); done).
  destruct H10 as [Hret Hold]. apply safe_read; [apply _|]. intros s11 Hl11 _.
  eapply safe_bind_from; [apply _| |apply sign_safe]. intros s12 [access|e] Hl12; [|done]. intros Hv.
  assert (Hl : later s10 s12) by (by etransitivity). apply safe_ret. cbn. split; [done|].
  split; [by eapply retired_later|]. split; [by eapply stored_later|]. split; [by eapply stored_later|].
  destruct Hl as (Hc & _). cbn [o_sessionExpiresAt accessToken]. split; [lia|]. done.
Qed.

Lemma logout_safe token all s : safe anything (logout hashRefreshToken token all) s.
Proof.
  unfold logout. apply safe_read; [apply _|]. intros s1 _ _. destruct (findByTokenHash _ s1) as [[id t]|]; [|done].
  eapply safe_bind_intro with (R := anything); [by intros ? [[]|]|]. destruct all; [|destruct (revokedAt t); [done|]];
    unfold new_Date; (apply safe_read; [apply _|]); intros s2 _ _ s3 _ Hs3.
  - destruct (sound_step (revokeAllForUser (userId t) (clock s2)) (revoke_user_sane _ _) s3 Hs3). done.
  - destruct (sound_step (markRevoked id None (clock s2)) (mark_tokens _ _ _) s3 Hs3). done.
Qed.

Lemma password_safe d id current new s : safe anything (changePassword d id current new) s.
Proof.
  unfold changePassword. apply safe_read; [apply _|]. intros s1 _ _. destruct (users s1 !! id) as [u|]; [|done].
  do 3 (apply safe_throw_when; [done|]; intros _). apply safe_statement; [apply set_user_sane|]. intros s2 _ _.
  eapply safe_bind_intro with (R := anything); [by intros ? [[]|]|]. unfold endSessions, new_Date.
  apply safe_read; [apply _|]. intros s3 _ _. apply safe_statement; [apply revoke_user_sane|]. intros s4 _ _.
  apply safe_read; [apply _|]. intros s5 _ _ s6 _ Hs6.
  destruct (sound_step (set_user id (invalidated (clock s5))) (set_user_sane _ _) s6 Hs6). done.
Qed.

Lemma command_safe p s : session_command p -> safe answered p s.
Proof.
  destruct 1 as [d mail password|d token|token all|d id current new].
  - eapply safe_bind_intro; [|apply login_safe]. by intros s' [o|e].
  - eapply safe_bind_intro; [|apply refresh_safe]. by intros s' [o|e].
  - eapply safe_bind_intro; [|apply logout_safe]. by intros s' [o|e].
  - eapply safe_bind_intro; [|apply password_safe]. by intros s' [o|e].
Qed.
End commands.

Lemma interleaved_sound (H : jsstr -> Prop) s0 s pool :
  sound H s0 -> rtc (pool_step session_command world) (s0, []) (s, pool) -> sound H s /\ Forall (fun p => safe (sound H) later (answered H) p s) pool.
Proof.
  intros H0 Hrun. destruct (pool_safe (sound H) later session_command world (answered H) (s0, []) (s, pool)) as (H1 & _ & H2).
  - intros p s' Hp _. by apply command_safe.
  - intros s1 s2 Hw [Hs Hr]. destruct (world_sane s1 s2 Hw Hs) as [H1 H2]. split; [split; [done|]|done].
    intros h Hh. eapply retired_later; [done|auto].
  - intros s1 s2 r. apply answered_later.
  - done.
  - done.
  - done.
  - constructor.
  - done.
Qed.

(** C18. However logins, refreshes, logouts and password changes interleave, and whatever calls
    fail: every session ends within the absolute timeout, its access tokens verify only before
    that end, its refresh token is stored with it, and a refresh keeps the family and the end
    of the token it was given, which is revoked by then. *)
Theorem sessions_bounded (s0 s : Db) (pool : list Cmd) :
  sane s0 -> rtc (pool_step session_command world) (s0, []) (s, pool) ->
  sane s /\ forall r, In (Done r) pool -> answered (fun _ => False) s r.
Proof.
  intros H0 Hrun. destruct (interleaved_sound (fun _ => False) s0 s pool) as [[Hs _] Hall]; [by split|done|].
  split; [done|]. intros r Hr%list_elem_of_In. by apply (proj1 (Forall_forall _ _) Hall _ Hr).
Qed.

(** A refresh token that is revoked is never refreshed again: no refresh that starts later
    succeeds, whatever it is interleaved with. *)
Theorem retired_token_refused (s0 s : Db) (pool : list Cmd) (hash : jsstr) (o : Session) :
  sane s0 -> retired hash s0 -> rtc (pool_step session_command world) (s0, []) (s, pool) -> ~ In (Done (Ok (ARefresh hash o))) pool.
Proof.
  intros H0 Hr Hrun Hin%list_elem_of_In. destruct (interleaved_sound (fun h => h = hash) s0 s pool) as [_ Hall]; [|done|].
  - split; [done|]. by intros h ->.
  - destruct (proj1 (Forall_forall _ _) Hall _ Hin) as [Hn _]. by apply Hn.
Qed.

(** *** Commands alone, and two at once *)

(** The token a refresh stores. *)
Definition rotated (d : Draw) (t : RefreshToken) (deadline now : Z) : RefreshToken :=
  mkRefreshToken (userId t) (familyId t) (hashRefreshToken (d_plaintext d))
    (db_second (Z.min (now + sessionIdleTimeoutMinutes settings * 60000) deadline)) (Some deadline) None None.

Lemma rotate_run d id t u r s deadline :
  sessionExpiresAt t = Some deadline -> tokens s !! serial s = None -> findByTokenHash (hashRefreshToken (d_plaintext d)) s = None ->
  is_Some (users s !! userId t) ->
  exists s' o, run (rotate hashRefreshToken settings d id t u r) s = (s', Ok o) /\ refreshToken o = d_plaintext d /\
    users s' = users s /\ clock s' = clock s /\ serial s' = serial s + 1 + 1 /\
    tokens s' = alter (revoke (clock s) (Some (serial s))) id (<[serial s := rotated d t deadline (clock s)]> (tokens s)).
Proof.
  intros Hd Hfree Hhash [v Hv]. unfold rotate, issueRefreshToken, new_Date, nextId. rewrite Hd. cbn [bind read ret run default].
  change (findByTokenHash (hashRefreshToken (d_plaintext d)) (bump s) = None) in Hhash.
  rewrite run_attempt. unfold save_token, newRefreshToken. cbn [tokenHash userId i_hash tokens bump users plaintext Datatypes.id].
  rewrite Hfree, Hhash, Hv. cbn. eexists _, _. split; [reflexivity|]. done.
Qed.

(** A refresh token that is open: stored, not revoked, within its deadlines, its user active
    with a role; ids that are not given yet are free. *)
Record open_token (token : jsstr) (s : Db) (id : Z) (t : RefreshToken) (u : User) (r : Role) : Prop := {
  ot_found : findByTokenHash (hashRefreshToken token) s = Some (id, t); ot_open : revokedAt t = None;
  ot_deadline : session_over t (clock s) = false; ot_idle : clock s < expiresAt t;
  ot_user : users s !! userId t = Some u; ot_active : isActive u = true; ot_role : roles s !! roleId u = Some r;
  ot_free : forall i, serial s <= i -> tokens s !! i = None }.

(** The four calls a refresh makes before it changes anything. *)
Lemma refresh_checks d token s id t u r : open_token token s id t u r ->
  advance 4 (refresh hashRefreshToken settings d token) s = (s, rotate hashRefreshToken settings d id t u r).
Proof.
  intros [Hf Ho Hd Hi Hu Ha Hr _]. unfold refresh, new_Date. cbn [bind read ret advance Datatypes.id]. rewrite Hf.
  cbn [bind read ret advance Datatypes.id]. rewrite Hd. replace (expiresAt t <=? clock s) with false by (symmetry; apply Z.leb_gt; lia).
  cbn [orb]. rewrite Ho. cbn [bind read ret advance Datatypes.id]. rewrite Hu, Ha.
  cbn [negb bind read ret advance Datatypes.id]. by rewrite Hr.
Qed.

(** A token whose hash is not the new one is found as before. *)
Lemma unused_hash h s : findByTokenHash h s = None <-> forall i t, tokens s !! i = Some t -> tokenHash t <> h.
Proof.
  unfold findByTokenHash. split.
  - intros Hn i t Hi Heq. pose proof (find_row_None _ _ i t Hn Hi) as Hx. cbn in Hx. unfold str_eqb in Hx. by apply bool_decide_eq_false in Hx.
  - intros Hno. destruct (find_row _ (tokens s)) as [[i t]|] eqn:E; [|done]. apply find_row_Some in E as [Hi Hx]. unfold str_eqb in Hx.
    apply bool_decide_eq_true in Hx. by destruct (Hno i t Hi).
Qed.

Lemma rotated_tokens id now j (m : gmap Z RefreshToken) t d deadline i :
  m !! j = None -> is_Some (m !! id) ->
  alter (revoke now (Some j)) id (<[j := rotated d t deadline now]> m) !! i =
  if decide (i = j) then Some (rotated d t deadline now)
  else if decide (i = id) then revoke now (Some j) <$> m !! id else m !! i.
Proof.
  intros Hj [x Hx]. assert (id <> j) by congruence. destruct (decide (i = j)) as [->|Hne].
  - rewrite lookup_alter_ne by done. apply lookup_insert_eq.
  - destruct (decide (i = id)) as [->|Hne2]; [by rewrite lookup_alter_eq, lookup_insert_ne|].
    by rewrite lookup_alter_ne, lookup_insert_ne.
Qed.

(** Two refreshes with one token, the second made while the first has read it and not yet
    revoked it, both succeed: one token has become two open ones, and no reuse is seen. *)
Theorem concurrent_refreshes d1 d2 token s id t u r :
  open_token token s id t u r ->
  findByTokenHash (hashRefreshToken (d_plaintext d1)) s = None -> findByTokenHash (hashRefreshToken (d_plaintext d2)) s = None ->
  hashRefreshToken (d_plaintext d1) <> hashRefreshToken (d_plaintext d2) ->
  let '(s1, first) := advance 4 (refresh hashRefreshToken settings d1 token) s in
  let '(s2, r2) := run (refresh hashRefreshToken settings d2 token) s1 in
  let '(s3, r1) := run first s2 in
  exists o1 o2 i1 i2 t1 t2, r1 = Ok o1 /\ r2 = Ok o2 /\ i1 <> i2 /\
    tokens s3 !! i1 = Some t1 /\ tokenHash t1 = hashRefreshToken (refreshToken o1) /\ revokedAt t1 = None /\
    tokens s3 !! i2 = Some t2 /\ tokenHash t2 = hashRefreshToken (refreshToken o2) /\ revokedAt t2 = None.
Proof.
  intros Hopen H1 H2 Hne. rewrite (refresh_checks d1 token s id t u r Hopen).
  rewrite <- (run_advance 4 (refresh _ _ d2 token)), (refresh_checks d2 token s id t u r Hopen). cbn [fst snd].
  pose proof Hopen as [Hf _ Hd _ Hu _ _ Hfree]. apply find_row_Some in Hf as [Hid Hh]. unfold str_eqb in Hh. apply bool_decide_eq_true in Hh.
  unfold session_over in Hd. destruct (sessionExpiresAt t) as [deadline|] eqn:Hdl; [|done].
  destruct (rotate_run d2 id t u r s deadline Hdl (Hfree _ (Z.le_refl _)) H2 ltac:(by eexists)) as (s2 & o2 & -> & Ho2 & Hu2 & Hc2 & Hs2 & Ht2).
  assert (Hlook : forall i, tokens s2 !! i = if decide (i = serial s) then Some (rotated d2 t deadline (clock s))
    else if decide (i = id) then revoke (clock s) (Some (serial s)) <$> tokens s !! id else tokens s !! i).
  { intros i. rewrite Ht2. apply rotated_tokens; [apply Hfree; lia|by eexists]. }
  assert (Hids : id < serial s). { destruct (Z.lt_ge_cases id (serial s)) as [|Hge]; [done|]. by rewrite (Hfree id Hge) in Hid. }
  assert (Hnew : findByTokenHash (hashRefreshToken (d_plaintext d1)) s2 = None).
  { apply unused_hash. intros i x. rewrite Hlook. destruct (decide _) as [->|]; [by intros [= <-]; cbn|].
    destruct (decide _) as [->|]; [rewrite Hid; intros [= <-]; cbn|]; intros; by eapply (proj1 (unused_hash _ s) H1). }
  destruct (rotate_run d1 id t u r s2 deadline Hdl) as (s3 & o1 & -> & Ho1 & _ & _ & _ & Ht3).
  { rewrite Hs2, Hlook. rewrite !decide_False by lia. apply Hfree. lia. }
  { done. }
  { rewrite Hu2. by eexists. }
  assert (Hlook3 : forall i, tokens s3 !! i = if decide (i = serial s2) then Some (rotated d1 t deadline (clock s2))
    else if decide (i = id) then revoke (clock s2) (Some (serial s2)) <$> tokens s2 !! id else tokens s2 !! i).
  { intros i. rewrite Ht3. apply rotated_tokens.
    - rewrite Hs2, Hlook, !decide_False by lia. apply Hfree. lia.
    - rewrite Hlook, decide_False, decide_True, Hid by lia. by eexists. }
  assert (Ht1' : tokens s3 !! serial s2 = Some (rotated d1 t deadline (clock s2))) by (by rewrite Hlook3, decide_True).
  assert (Ht2' : tokens s3 !! serial s = Some (rotated d2 t deadline (clock s))).
  { rewrite Hlook3, (Hlook (serial s)). rewrite (decide_False (P := serial s = serial s2)) by lia.
    rewrite (decide_False (P := serial s = id)) by lia. by rewrite decide_True. }
  exists o1, o2, (serial s2), (serial s), (rotated d1 t deadline (clock s2)), (rotated d2 t deadline (clock s)).
  rewrite Ho1, Ho2. repeat split; [lia|done|done].
Qed.
End interleaved.

(** ** Examples *)

Module SessionExamples.
Definition hash (t : jsstr) : jsstr := js "#" ++ t.
Definition conf : AuthDomainSettings := mkAuthDomainSettings (js "pivotal") 900 30 8 3 15.
Definition ada : User := newUser (js "ada@hub") (js "secret") 7 None false.
Definition admin : Role := mkRole (js "HUB_ADMIN") (js "Administrator") None HUB true.
Definition db (toks : gmap Z RefreshToken) : Db :=
  mkDb 1000000 100 {[1 := ada]} {[7 := admin]} {[3 := mkPermission (js "admin.users.manage") (OfScope HUB)]} {[7 := [3]]} toks.
Definition draw (t : jsstr) : Draw := mkDraw t (js "Temporary1!") (js "salt").
Definition token (revoked : option Z) : RefreshToken :=
  mkRefreshToken 1 50 (hash (js "old")) 2000000 (Some 9000000) revoked None.
Definition a_login : Prog Db exception answer :=
  let* o := @login plain_credentials str_eqb hash conf (draw (js "t1")) (js "ada@hub") (js "secret") in ret (ALogin o).
Definition a_refresh : Prog Db exception answer :=
  let* o := @refresh plain_credentials hash conf (draw (js "t2")) (js "old") in ret (ARefresh (hash (js "old")) o).

Lemma db_one_sane r : sane conf (db {[60 := token r]}).
Proof.
  split.
  - intros i t Hi. cbn [tokens db] in Hi. apply lookup_singleton_Some in Hi as [<- <-]. exists 9000000. split; [done|]. split; [done|]. by cbv.
  - intros i j t t' Hi Hj _. cbn [tokens db] in Hi, Hj. apply lookup_singleton_Some in Hi as [<- _], Hj as [<- _]. done.
Qed.
Lemma db_none_sane : sane conf (db ∅).
Proof. split; [by intros i t|by intros i j t t']. Qed.
End SessionExamples.

Import SessionExamples.

Lemma sessions_bounded_witness :
  let s := fst (run a_login (db ∅)) in sane conf s /\
  exists o, snd (run a_login (db ∅)) = Ok (ALogin o) /\ @session_ok plain_credentials hash conf o s.
Proof.
  intros s. destruct (@sessions_bounded plain_credentials str_eqb hash conf (db ∅) s [Done (snd (run a_login (db ∅)))]) as [Hs Ha].
  - apply db_none_sane.
  - refine (pool_run _ _ (db ∅) [] a_login _). apply c_login.
  - split; [exact Hs|]. specialize (Ha _ (or_introl eq_refl)).
    assert (Hok : match snd (run a_login (db ∅)) with Ok (ALogin _) => true | _ => false end = true) by (vm_compute; reflexivity).
    destruct (snd (run a_login (db ∅))) as [[o|h o|b]|e]; [|discriminate Hok..]. exists o. split; [reflexivity|exact Ha].
Defined.

Lemma retired_token_refused_witness :
  ~ exists o, snd (run a_refresh (db {[60 := token (Some 500000)]})) = Ok (ARefresh (hash (js "old")) o).
Proof.
  intros [o Ho]. set (s0 := db {[60 := token (Some 500000)]}) in *.
  apply (@retired_token_refused plain_credentials str_eqb hash conf s0 (fst (run a_refresh s0)) [Done (snd (run a_refresh s0))] (hash (js "old")) o).
  - apply db_one_sane.
  - exists 60, (token (Some 500000)). split; [reflexivity|]. split; [reflexivity|]. exists 500000. reflexivity.
  - refine (pool_run _ _ s0 [] a_refresh _). apply c_refresh.
  - left. by rewrite Ho.
Defined.

Lemma old_open : open_token hash (js "old") (db {[60 := token None]}) 60 (token None) ada admin.
Proof.
  split; try (vm_compute; reflexivity). intros i Hi. cbn in Hi. apply lookup_singleton_None. lia.
Qed.

Lemma concurrent_refreshes_witness :
  exists s3 i1 i2 t1 t2, i1 <> i2 /\ tokens s3 !! i1 = Some t1 /\ revokedAt t1 = None /\ tokens s3 !! i2 = Some t2 /\ revokedAt t2 = None.
Proof.
  pose proof (@concurrent_refreshes plain_credentials hash conf (draw (js "n1")) (draw (js "n2")) (js "old")
    (db {[60 := token None]}) 60 (token None) ada admin old_open ltac:(vm_compute; reflexivity) ltac:(vm_compute; reflexivity)
    ltac:(by apply (bool_decide_unpack _); vm_compute)) as H.
  destruct (advance 4 _ _) as [s1 first]. destruct (run _ s1) as [s2 r2]. destruct (run first s2) as [s3 r1].
  destruct H as (o1 & o2 & i1 & i2 & t1 & t2 & _ & _ & H & H1 & _ & H2 & H3 & _ & H4). exists s3, i1, i2, t1, t2. done.
Defined.
