(* ===== verification/Passwords.v ===== *)
(** * Passwords of the portal

    What the commands of Sessions.v do with passwords: the lockout of core/auth/domain/command/
    login.handler.ts, a change of password next to a refresh, and the temporary passwords of
    temp-password.service.ts. *)

From S2P Require Import Prelude Interleave Accounts Sessions.

Section passwords.
  Context {credentials : Credentials} (same_text : jsstr -> jsstr -> bool) (hashRefreshToken : jsstr -> jsstr).
  Context (settings : AuthDomainSettings).
  Notation login := (login same_text hashRefreshToken settings).
  Notation refresh := (refresh hashRefreshToken settings).

(** ** Lockout *)

(** The one user of a mail address. *)
Record account (mail : jsstr) (s : Db) (id : Z) (u : User) : Prop := {
  ac_row : users s !! id = Some u; ac_mail : same_text (email u) mail = true;
  ac_only : forall j v, users s !! j = Some v -> same_text (email v) mail = true -> j = id }.

Lemma account_found mail s id u : account mail s id u -> findByEmail same_text mail s = Some (id, u).
Proof. intros [Hr Hm Ho]. by apply find_row_unique. Qed.

Lemma account_set mail s id u f :
  (forall v, email (f v) = email v) -> account mail s id u -> account mail (set_user id f s) id (f u).
Proof.
  intros Hf [Hr Hm Ho]. split.
  - cbn. by rewrite lookup_alter_eq, Hr.
  - by rewrite Hf.
  - intros j v. cbn. destruct (decide (j = id)) as [->|Hne]; [done|]. rewrite lookup_alter_ne by done. apply Ho.
Qed.

(** What a wrong password leaves of the user, and its answer. *)
Definition tried (now : Z) (u : User) : User :=
  let u' := incremented u in
  if loginLockoutThreshold settings <=? failedLoginAttempts u'
  then locked_at (now + loginLockoutDurationMinutes settings * 60 * 1000) u' else u'.
Definition refusal (u : User) : exception :=
  if loginLockoutThreshold settings <=? failedLoginAttempts u + 1 then Locked (loginLockoutDurationMinutes settings)
  else Unauthorized INVALID_CREDENTIALS.
Definition unlocked (u : User) (now : Z) : Prop := match lockedUntil u with Some t => t <= now | None => True end.

Lemma login_checks d mail pw s id u : account mail s id u -> isActive u = true -> unlocked u (clock s) ->
  advance 2 (login d mail pw) s =
  (s, if negb (bcrypt_compare pw (passwordHash u))
      then let* locked := handleFailedAttempt settings id (failedLoginAttempts u + 1) in
           throw (if (locked : bool) then Locked (loginLockoutDurationMinutes settings) else Unauthorized INVALID_CREDENTIALS)
      else snd (advance 2 (login d mail pw) s)).
Proof.
  intros Hac Ha Hu. unfold Sessions.login, new_Date. cbn [bind read ret advance Datatypes.id]. rewrite (account_found _ _ _ _ Hac), Ha.
  cbn [negb throw_when bind read ret advance Datatypes.id fst snd]. unfold unlocked in Hu. destruct (lockedUntil u) as [t|].
  - replace (clock s <? t) with false by (symmetry; apply Z.ltb_ge; lia). cbn [throw_when bind ret].
    by destruct (bcrypt_compare pw (passwordHash u)).
  - cbn [throw_when bind ret]. by destruct (bcrypt_compare pw (passwordHash u)).
Qed.

Lemma failed_attempt_run id n s :
  run (let* locked := handleFailedAttempt settings id n in
       throw (if (locked : bool) then Locked (loginLockoutDurationMinutes settings) else Unauthorized INVALID_CREDENTIALS) : Prog Db exception Session) s =
  (if loginLockoutThreshold settings <=? n
   then set_user id (locked_at (clock s + loginLockoutDurationMinutes settings * 60 * 1000)) (set_user id incremented s)
   else set_user id incremented s,
   Err (if loginLockoutThreshold settings <=? n then Locked (loginLockoutDurationMinutes settings) else Unauthorized INVALID_CREDENTIALS)).
Proof. unfold handleFailedAttempt, new_Date. cbn. by destruct (_ <=? n). Qed.

Lemma wrong_password d mail pw s id u :
  account mail s id u -> isActive u = true -> unlocked u (clock s) -> bcrypt_compare pw (passwordHash u) = false ->
  exists s', run (login d mail pw) s = (s', Err (refusal u)) /\ account mail s' id (tried (clock s) u) /\ clock s' = clock s /\
    tokens s' = tokens s /\ roles s' = roles s.
Proof.
  intros Hac Ha Hu Hpw. rewrite <- (run_advance 2), (login_checks d mail pw s id u Hac Ha Hu), Hpw. cbn [fst snd negb].
  rewrite failed_attempt_run. eexists. split; [reflexivity|]. unfold tried. cbn [failedLoginAttempts incremented].
  destruct (_ <=? _); (split; [repeat apply account_set; try done; by intros|done]).
Qed.

(** A locked account: whatever the password, nothing changes. *)
Lemma locked_out d mail pw s id u t :
  account mail s id u -> isActive u = true -> lockedUntil u = Some t -> clock s < t ->
  run (login d mail pw) s = (s, Err (Locked (remainingLockoutMinutes t (clock s)))).
Proof.
  intros Hac Ha Hl Ht. unfold Sessions.login, new_Date. cbn [bind read ret run Datatypes.id]. rewrite (account_found _ _ _ _ Hac), Ha.
  cbn [negb throw_when bind read ret run Datatypes.id fst snd]. rewrite Hl. by replace (clock s <? t) with true by (symmetry; by apply Z.ltb_lt).
Qed.

(** [n] more failed attempts counted. *)
Definition after_attempts (n : Z) (u : User) : User :=
  mkUser (email u) (passwordHash u) (fspId u) (roleId u) (mustChangePassword u) (isActive u) (failedLoginAttempts u + n)
    (lockedUntil u) (tokensInvalidatedAt u) (lastLoginAt u).
Lemma after_none u : after_attempts 0 u = u.
Proof. destruct u. unfold after_attempts. cbn. by rewrite Z.add_0_r. Qed.
Lemma after_next (n : nat) u : after_attempts (Z.of_nat n) (incremented u) = after_attempts (Z.of_nat (Datatypes.S n)) u.
Proof. unfold after_attempts. cbn [email passwordHash fspId roleId mustChangePassword isActive failedLoginAttempts lockedUntil tokensInvalidatedAt lastLoginAt incremented]. f_equal. lia. Qed.

(** Logins one after the other. *)
Fixpoint logins (l : list (Draw * jsstr)) (mail : jsstr) (s : Db) : Db * list (result exception Session) :=
  match l with
  | [] => (s, [])
  | (d, pw) :: l => let '(s, r) := run (login d mail pw) s in let '(s, rs) := logins l mail s in (s, r :: rs)
  end.

Lemma wrong_passwords l mail s id u :
  account mail s id u -> isActive u = true -> unlocked u (clock s) -> Forall (fun a => bcrypt_compare (snd a) (passwordHash u) = false) l ->
  failedLoginAttempts u + Z.of_nat (length l) < loginLockoutThreshold settings ->
  exists s', logins l mail s = (s', repeat (Err (Unauthorized INVALID_CREDENTIALS)) (length l)) /\ clock s' = clock s /\
    account mail s' id (after_attempts (Z.of_nat (length l)) u).
Proof.
  revert s u. induction l as [|[d pw] l IH]; intros s u Hac Ha Hu Hl Hn.
  { exists s. split; [done|]. split; [done|]. cbn. by rewrite after_none. }
  apply Forall_cons in Hl as [Hpw Hl]. cbn [length] in Hn. cbn [logins].
  destruct (wrong_password d mail pw s id u Hac Ha Hu Hpw) as (s1 & -> & Hac1 & Hc1 & _ & _).
  unfold tried, refusal in *. cbn [failedLoginAttempts incremented] in Hac1.
  replace (loginLockoutThreshold settings <=? failedLoginAttempts u + 1) with false in * by (symmetry; apply Z.leb_gt; lia).
  destruct (IH s1 (incremented u)) as (s2 & -> & Hc2 & Hac2); [done|done| |done|cbn; lia|].
  { unfold unlocked in *. by rewrite Hc1. }
  exists s2. split; [done|]. split; [congruence|]. by rewrite after_next in Hac2.
Qed.


(** Wrong passwords one after the other: each before the threshold is told of its credentials,
    the one at the threshold locks the account, and until the lockout ends no login is
    admitted, also with the right password; afterwards one more wrong password locks again. *)
Theorem lockout (l : list (Draw * jsstr)) (d d2 : Draw) (mail pw pw2 : jsstr) (s : Db) (id : Z) (u : User) :
  account mail s id u -> isActive u = true -> unlocked u (clock s) ->
  Forall (fun a => bcrypt_compare (snd a) (passwordHash u) = false) ((d, pw) :: l) ->
  failedLoginAttempts u + Z.of_nat (length l) + 1 = loginLockoutThreshold settings ->
  let until := db_second (clock s + loginLockoutDurationMinutes settings * 60 * 1000) in
  exists s1 s2, logins l mail s = (s1, repeat (Err (Unauthorized INVALID_CREDENTIALS)) (length l)) /\
    run (login d mail pw) s1 = (s2, Err (Locked (loginLockoutDurationMinutes settings))) /\
    (forall s3, users s3 = users s2 -> clock s3 < until ->
       run (login d2 mail pw2) s3 = (s3, Err (Locked (remainingLockoutMinutes until (clock s3))))) /\
    (forall s3, users s3 = users s2 -> until <= clock s3 ->
       snd (run (login d mail pw) s3) = Err (Locked (loginLockoutDurationMinutes settings))).
Proof.
  intros Hac Ha Hu Hl Hn until. apply Forall_cons in Hl as [Hpw Hl].
  destruct (wrong_passwords l mail s id u Hac Ha Hu Hl ltac:(lia)) as (s1 & H1 & Hc1 & Hac1).
  set (u1 := after_attempts (Z.of_nat (length l)) u) in *.
  destruct (wrong_password d mail pw s1 id u1 Hac1 Ha) as (s2 & H2 & Hac2 & Hc2 & _); [unfold unlocked; by rewrite Hc1|done|].
  assert (Hth : (loginLockoutThreshold settings <=? failedLoginAttempts u1 + 1) = true) by (apply Z.leb_le; cbn; lia).
  unfold refusal, tried in *. cbn [failedLoginAttempts incremented] in Hac2. rewrite Hth in *. exists s1, s2.
  split; [done|]. split; [done|]. rewrite Hc1 in Hac2. fold until in Hac2.
  assert (Hsame : forall s3, users s3 = users s2 -> account mail s3 id (locked_at (clock s + loginLockoutDurationMinutes settings * 60 * 1000) (incremented u1))).
  { intros s3 Hs3. destruct Hac2 as [G1 G2 G3]. split; rewrite ?Hs3; done. }
  split; intros s3 Hs3 Ht.
  - by eapply locked_out; [apply Hsame| | |].
  - destruct (wrong_password d mail pw s3 id _ (Hsame s3 Hs3) Ha) as (s4 & -> & _); [done|done|]. cbn [snd]. unfold refusal.
    cbn [failedLoginAttempts locked_at incremented u1 after_attempts].
    replace (loginLockoutThreshold settings <=? _) with true by (symmetry; apply Z.leb_le; lia). done.
Qed.

(** ** Guesses at once *)

(** Commands that each have made their first two calls, run to their end. *)
Fixpoint finish (l : list (Prog Db exception Session)) (s : Db) : Db * list (result exception Session) :=
  match l with
  | [] => (s, [])
  | p :: l => let '(s, r) := run p s in let '(s, rs) := finish l s in (s, r :: rs)
  end.

(** Guesses made at once, each before another is counted, are all told of their credentials
    and never lock the account, however many they are: the handler compares the threshold with
    the count it read. *)
Theorem parallel_guesses (l : list (Draw * jsstr)) (mail : jsstr) (s : Db) (id : Z) (u : User) :
  account mail s id u -> isActive u = true -> unlocked u (clock s) ->
  Forall (fun a => bcrypt_compare (snd a) (passwordHash u) = false) l ->
  failedLoginAttempts u + 1 < loginLockoutThreshold settings ->
  let waiting := map (fun a => snd (advance 2 (login (fst a) mail (snd a)) s)) l in
  let '(s', rs) := finish waiting s in
  rs = repeat (Err (Unauthorized INVALID_CREDENTIALS)) (length l) /\
  users s' !! id = Some (after_attempts (Z.of_nat (length l)) u).
Proof.
  intros Hac Ha Hu Hl Hn. cbv zeta.
  set (guess := (let* locked := handleFailedAttempt settings id (failedLoginAttempts u + 1) in
    throw (if (locked : bool) then Locked (loginLockoutDurationMinutes settings) else Unauthorized INVALID_CREDENTIALS)) : Prog Db exception Session).
  assert (Hw : map (fun a => snd (advance 2 (login (fst a) mail (snd a)) s)) l = repeat guess (length l)).
  { induction Hl as [|[d pw] l Hpw Hl IH]; [done|]. cbn [map length repeat fst snd]. rewrite IH. f_equal.
    cbn in Hpw. by rewrite (login_checks d mail pw s id u Hac Ha Hu), Hpw. }
  rewrite Hw. clear Hw Hl. pose proof (ac_row _ _ _ _ Hac) as Hrow. clear Hac Hu.
  assert (Hgen : forall n s u, users s !! id = Some u -> let '(s', rs) := finish (repeat guess n) s in
    rs = repeat (Err (Unauthorized INVALID_CREDENTIALS)) n /\ users s' !! id = Some (after_attempts (Z.of_nat n) u)).
  { clear -Hn. induction n as [|n IH]; intros s v Hv; [cbn; by rewrite after_none|]. cbn [repeat finish]. unfold guess at 1. rewrite failed_attempt_run.
    replace (loginLockoutThreshold settings <=? failedLoginAttempts u + 1) with false by (symmetry; apply Z.leb_gt; lia).
    specialize (IH (set_user id incremented s) (incremented v)). destruct (finish _ _) as [s' rs].
    destruct IH as [-> ->]; [cbn; by rewrite lookup_alter_eq, Hv|]. split; [done|]. by rewrite after_next. }
  apply Hgen, Hrow.
Qed.

(** ** A change of password *)

Lemma password_changed d id cur new s u :
  users s !! id = Some u -> isActive u = true -> bcrypt_compare cur (passwordHash u) = true -> bcrypt_compare new (passwordHash u) = false ->
  exists s', run (changePassword d id cur new) s = (s', Ok true) /\ clock s' = clock s /\ serial s' = serial s /\ roles s' = roles s /\
    tokens s' = tokens (revokeAllForUser id (clock s) s) /\
    users s' = alter (fun u => invalidated (clock s) (with_password (bcrypt_hash (d_salt d) new) false u)) id (users s).
Proof.
  intros Hu Ha Hc Hn. unfold changePassword, endSessions, new_Date. cbn. rewrite Hu, Ha. cbn. rewrite Hc. cbn. rewrite Hn. cbn.
  eexists. split; [reflexivity|]. cbn. do 4 (split; [done|]). by rewrite alter_alter_eq.
Qed.

(** The refresh tokens of a user after [revokeAllForUser]. *)
Lemma revoked_all id now s j t : tokens (revokeAllForUser id now s) !! j = Some t ->
  (userId t = id /\ is_Some (revokedAt t)) \/ (userId t <> id /\ tokens s !! j = Some t).
Proof.
  cbn. rewrite lookup_fmap. destruct (tokens s !! j) as [x|]; cbn; [|done]. unfold revoke_open. intros [= <-].
  destruct (revokedAt x) eqn:Hr; [|destruct (userId x =? id) eqn:He].
  - destruct (decide (userId x = id)); [left|right]; rewrite ?Hr; by eauto.
  - apply Z.eqb_eq in He. left. split; [done|]. by eexists.
  - apply Z.eqb_neq in He. by right.
Qed.

(** The token of an authorization header. *)
Definition bearer_token (header : jsstr) : jsstr := trim (drop (length BEARER_PREFIX) header).

(** The refusals of the guard. *)
Lemma guard_invalidated now claims header s u t :
  verifyAccessToken settings (clock s) (bearer_token header) = Some claims ->
  users s !! sub claims = Some u -> tokensInvalidatedAt u = Some (db_second t) -> now <= t -> iat claims <= now / 1000 ->
  exists e, run (jwt_guard settings false (Some header)) s = (s, Err e).
Proof.
  intros Hv Hu Ht Hn Hi. unfold jwt_guard, new_Date. destruct (startsWith header BEARER_PREFIX); [|by eexists]. fold (bearer_token header).
  cbn [bind read ret run Datatypes.id]. rewrite Hv. cbn [bind read ret run Datatypes.id]. rewrite Hu. destruct (isActive u); [|by eexists]. cbn. rewrite Ht.
  replace (iat claims <=? db_second t / 1000) with true; [by eexists|]. symmetry. apply Z.leb_le.
  pose proof (db_second_floor t). pose proof (Z.div_le_mono now t 1000). pose proof (Z.div_le_mono (t / 1000 * 1000) (db_second t) 1000).
  rewrite Z.div_mul in * by done. lia.
Qed.

(** A change of password: refused, nothing changes; done, the new password is the user's,
    every refresh token of the user is revoked, other users' are as before, and the guard of
    the routes refuses every access token issued to the user by then. *)
Theorem password_change_course (d : Draw) (id : Z) (cur new : jsstr) (s : Db) :
  let '(s', r) := run (changePassword d id cur new) s in
  match r with
  | Ok b => exists u u', b = true /\ users s !! id = Some u /\ bcrypt_compare cur (passwordHash u) = true /\
      users s' !! id = Some u' /\ bcrypt_compare new (passwordHash u') = true /\ mustChangePassword u' = false /\
      (forall j t, tokens s' !! j = Some t -> userId t = id -> is_Some (revokedAt t)) /\
      (forall j t, tokens s !! j = Some t -> userId t <> id -> tokens s' !! j = Some t) /\
      (forall s2 header claims, users s2 = users s' ->
         verifyAccessToken settings (clock s2) (bearer_token header) = Some claims ->
         sub claims = id -> iat claims <= clock s / 1000 ->
         exists e, run (jwt_guard settings false (Some header)) s2 = (s2, Err e))
  | Err e => s' = s /\ (e = Unauthorized INVALID_CREDENTIALS \/ e = SamePassword)
  end.
Proof.
  destruct (users s !! id) as [u|] eqn:Hu; [|unfold changePassword; cbn; rewrite Hu; cbn; by auto].
  destruct (isActive u) eqn:Ha; [|unfold changePassword; cbn; rewrite Hu, Ha; cbn; by auto].
  destruct (bcrypt_compare cur (passwordHash u)) eqn:Hc; [|unfold changePassword; cbn; rewrite Hu, Ha; cbn; rewrite Hc; cbn; by auto].
  destruct (bcrypt_compare new (passwordHash u)) eqn:Hn; [unfold changePassword; cbn; rewrite Hu, Ha; cbn; rewrite Hc; cbn; rewrite Hn; cbn; by auto|].
  destruct (password_changed d id cur new s u Hu Ha Hc Hn) as (s' & -> & Hcl & _ & _ & Ht & Hus).
  exists u, (invalidated (clock s) (with_password (bcrypt_hash (d_salt d) new) false u)).
  assert (Hu' : users s' !! id = Some (invalidated (clock s) (with_password (bcrypt_hash (d_salt d) new) false u))).
  { by rewrite Hus, lookup_alter_eq, Hu. }
  split; [done|]. split; [done|]. split; [done|]. split; [done|]. split; [apply bcrypt_own|]. split; [done|]. split.
  { intros j t. rewrite Ht. intros [[_ Hr]|[Hne _]]%revoked_all; [done|]. by intros. }
  split.
  { intros j t Hj Hne. rewrite Ht. cbn. rewrite lookup_fmap, Hj. cbn. unfold revoke_open. destruct (revokedAt t); [done|].
    by rewrite (proj2 (Z.eqb_neq _ _) Hne). }
  intros s2 header claims Hs2 Hv Hsub Hi. eapply guard_invalidated; [done|rewrite Hs2, Hsub; exact Hu'|done|apply Z.le_refl|done].
Qed.

(** A refresh that has read its token before a change of password and writes after it: the
    user who changed the password has every session revoked but the one of the refresh, whose
    new token is open. *)
Theorem refresh_survives_password_change d d2 token s id t u r cur new :
  open_token hashRefreshToken token s id t u r -> findByTokenHash (hashRefreshToken (d_plaintext d)) s = None ->
  bcrypt_compare cur (passwordHash u) = true -> bcrypt_compare new (passwordHash u) = false ->
  let '(s1, first) := advance 4 (refresh d token) s in
  let '(s2, changed) := run (changePassword d2 (userId t) cur new) s1 in
  let '(s3, answer) := run first s2 in
  changed = Ok true /\ exists o i t', answer = Ok o /\ tokens s3 !! i = Some t' /\ tokenHash t' = hashRefreshToken (refreshToken o) /\
    userId t' = userId t /\ revokedAt t' = None /\
    (forall j x, tokens s3 !! j = Some x -> userId x = userId t -> j <> i -> is_Some (revokedAt x)).
Proof.
  intros Hopen Hnew Hc Hn. rewrite (refresh_checks _ _ d token s id t u r Hopen).
  pose proof Hopen as [Hf _ Hd _ Hu Ha _ Hfree]. apply find_row_Some in Hf as [Hid _].
  unfold session_over in Hd. destruct (sessionExpiresAt t) as [deadline|] eqn:Hdl; [|done].
  destruct (password_changed d2 (userId t) cur new s u Hu Ha Hc Hn) as (s2 & -> & Hcl & Hser & _ & Ht & Hus).
  destruct (rotate_run hashRefreshToken settings d id t u r s2 deadline Hdl) as (s3 & o & -> & Ho & _ & _ & _ & Ht3).
  { rewrite Hser, Ht. cbn. by rewrite lookup_fmap, (Hfree _ (Z.le_refl _)). }
  { apply unused_hash. intros j x. rewrite Ht. cbn. rewrite lookup_fmap. destruct (tokens s !! j) as [y|] eqn:Hj; [|done]. cbn.
    intros [= <-]. destruct (kept_revoke_open (fun t0 => userId t0 =? userId t) (clock s) y) as (_ & _ & -> & _). by eapply (proj1 (unused_hash _ s) Hnew). }
  { rewrite Hus, lookup_alter_eq, Hu. by eexists. }
  split; [done|]. exists o, (serial s2), (rotated hashRefreshToken settings d t deadline (clock s2)).
  assert (Hlook : forall i, tokens s3 !! i = if decide (i = serial s2) then Some (rotated hashRefreshToken settings d t deadline (clock s2))
    else if decide (i = id) then revoke (clock s2) (Some (serial s2)) <$> tokens s2 !! id else tokens s2 !! i).
  { intros i. rewrite Ht3. apply rotated_tokens; rewrite Ht; cbn; rewrite lookup_fmap.
    - by rewrite Hser, (Hfree _ (Z.le_refl _)).
    - rewrite Hid. by eexists. }
  split; [done|]. split; [by rewrite Hlook, decide_True|]. split; [by rewrite Ho|]. split; [done|]. split; [done|].
  intros j x. rewrite Hlook. intros Hx Hux Hj. rewrite decide_False in Hx by done. case_decide as E.
  - destruct (tokens s2 !! id); [|done]. injection Hx as <-. by eexists.
  - rewrite Ht in Hx. apply revoked_all in Hx as [[_ ?]|[? _]]; done.
Qed.
End passwords.

(** ** Temporary passwords *)

Module Temporary.
Import TempPassword.

Section generate.
  Context (randomInt : nat -> nat -> nat).

Definition everything : jsstr := LOWER ++ UPPER ++ DIGITS ++ SYMBOL.

Lemma pick_in k charset : charset <> [] -> pick randomInt k charset ∈ charset.
Proof.
  intros Hne. unfold pick. destruct (charset !! _) as [c|] eqn:E; cbn; [by eapply list_elem_of_lookup_2|].
  destruct charset; [done|]. by left.
Qed.

Lemma swap_same i j chars : swap i j chars ≡ₚ chars.
Proof. unfold swap. destruct (chars !! i) as [a|] eqn:Ei, (chars !! j) as [b|] eqn:Ej; [|done..]. by apply Permutation_insert_swap. Qed.

Lemma shuffle_same k i chars : shuffle randomInt k i chars ≡ₚ chars.
Proof. revert k chars. induction i as [|i IH]; intros k chars; cbn; [done|]. by rewrite IH, swap_same. Qed.

Lemma fill_course k n chars all : all <> [] ->
  exists l, fill randomInt k n chars all = chars ++ l /\ length l = n /\ Forall (fun c => c ∈ all) l.
Proof.
  intros Hne. revert k chars. induction n as [|n IH]; intros k chars; cbn; [exists []; by rewrite app_nil_r|].
  destruct (IH (Datatypes.S k) (chars ++ [pick randomInt k all])) as (l & -> & Hl & Hf). exists (pick randomInt k all :: l).
  rewrite <- app_assoc. cbn. split; [done|]. split; [by rewrite Hl|]. constructor; [by apply pick_in|done].
Qed.

Lemma one_of_each {A} (a1 a2 a3 a4 : list A) w x y z : w ∈ a1 -> x ∈ a2 -> y ∈ a3 -> z ∈ a4 ->
  Forall (fun c => c ∈ a1 ++ a2 ++ a3 ++ a4) [w; x; y; z] /\
  Forall (fun charset => exists c, c ∈ charset /\ c ∈ [w; x; y; z]) [a1; a2; a3; a4].
Proof.
  intros H1 H2 H3 H4. split; [repeat constructor; set_solver|].
  repeat constructor; [exists w|exists x|exists y|exists z]; (split; [done|]); set_solver.
Qed.

(** A temporary password has the length asked for, at least 12, characters of the four sets only,
    and one of each, whatever is drawn; a shorter one is refused. *)
Theorem temporary_password (len : nat) :
  match generate randomInt len with
  | Some pw => (12 <= len)%nat /\ length pw = len /\ Forall (fun c => c ∈ everything) pw /\
      Forall (fun charset => exists c, c ∈ charset /\ c ∈ pw) [LOWER; UPPER; DIGITS; SYMBOL]
  | None => (len < 12)%nat
  end.
Proof.
  unfold generate. destruct (Nat.ltb_spec len 12) as [|Hlen]; [done|].
  set (four := [pick randomInt 0 LOWER; pick randomInt 1 UPPER; pick randomInt 2 DIGITS; pick randomInt 3 SYMBOL]).
  destruct (fill_course 4 (len - 4) four everything ltac:(done)) as (l & E & Hl & Hf). fold everything. cbv zeta. rewrite E.
  set (n := (length (four ++ l) - 1)%nat). pose proof (shuffle_same len n (four ++ l)) as Hp.
  destruct (one_of_each LOWER UPPER DIGITS SYMBOL (pick randomInt 0 LOWER) (pick randomInt 1 UPPER) (pick randomInt 2 DIGITS)
    (pick randomInt 3 SYMBOL)) as [Hin Hone]; [by apply pick_in..|]. fold four in Hin, Hone. fold everything in Hin.
  split; [done|]. split; [rewrite Hp, length_app, Hl; cbn; lia|]. split.
  - rewrite Hp. by apply Forall_app.
  - eapply Forall_impl; [exact Hone|]. intros charset (c & H1 & H2). exists c. split; [done|]. rewrite Hp. apply elem_of_app. by left.
Qed.
End generate.
End Temporary.

(** ** Examples *)

Import SessionExamples.

Lemma ada_account toks : account str_eqb (js "ada@hub") (db toks) 1 ada.
Proof.
  split; [reflexivity|vm_compute; reflexivity|]. intros j v Hj _. cbn [users db] in Hj. by apply lookup_singleton_Some in Hj as [<- _].
Qed.

Lemma lockout_witness :
  exists s2, snd (run (@login plain_credentials str_eqb hash conf (draw (js "t")) (js "ada@hub") (js "secret")) s2) = Err (Locked 15).
Proof.
  destruct (@lockout plain_credentials str_eqb hash conf [(draw [], js "a"); (draw [], js "b")] (draw []) (draw (js "t")) (js "ada@hub")
    (js "c") (js "secret") (db ∅) 1 ada (ada_account ∅) eq_refl I ltac:(repeat constructor; vm_compute; reflexivity) eq_refl)
    as (s1 & s2 & _ & _ & H & _).
  exists (mkDb 1000000 (serial s2) (users s2) (roles s2) (permissions s2) (role_permissions s2) (tokens s2)).
  rewrite H; [vm_compute; reflexivity|reflexivity|vm_compute; reflexivity].
Defined.

Lemma parallel_guesses_witness :
  exists s' rs, rs = repeat (Err (Unauthorized INVALID_CREDENTIALS)) 5 /\ users s' !! 1 = Some (after_attempts 5 ada) /\
    loginLockoutThreshold conf < failedLoginAttempts (after_attempts 5 ada) /\
    finish (map (fun g => snd (advance 2 (@login plain_credentials str_eqb hash conf (draw []) (js "ada@hub") [g]) (db ∅)))
      (js "abcde")) (db ∅) = (s', rs).
Proof.
  pose proof (@parallel_guesses plain_credentials str_eqb hash conf (map (fun g => (draw [], [g])) (js "abcde")) (js "ada@hub")
    (db ∅) 1 ada (ada_account ∅) eq_refl I ltac:(repeat constructor; vm_compute; reflexivity) eq_refl) as H.
  cbv zeta in H. rewrite map_map in H. destruct (finish _ _) as [s' rs] eqn:E. destruct H as [H1 H2]. exists s', rs.
  split; [exact H1|]. split; [exact H2|]. split; reflexivity.
Defined.

Lemma refresh_survives_password_change_witness :
  exists s3 i t', tokens s3 !! i = Some t' /\ userId t' = 1 /\ revokedAt t' = None.
Proof.
  pose proof (@refresh_survives_password_change plain_credentials hash conf (draw (js "n1")) (draw (js "n2")) (js "old")
    (db {[60 := token None]}) 60 (token None) ada admin (js "secret") (js "fresh") old_open ltac:(vm_compute; reflexivity)
    ltac:(vm_compute; reflexivity) ltac:(vm_compute; reflexivity)) as H.
  destruct (advance 4 _ _) as [s1 first]. destruct (run _ s1) as [s2 changed]. destruct (run first s2) as [s3 r].
  destruct H as (_ & o & i & t' & _ & H1 & _ & H2 & H3 & _). exists s3, i, t'. done.
Defined.

Lemma password_change_course_witness :
  exists s', run (@changePassword plain_credentials (draw []) 1 (js "secret") (js "fresh")) (db {[60 := token None]}) = (s', Ok true) /\
    is_Some (tokens s' !! 60 ≫= revokedAt).
Proof.
  pose proof (@password_change_course plain_credentials conf (draw []) 1 (js "secret") (js "fresh") (db {[60 := token None]})) as H.
  destruct (run _ _) as [s' r] eqn:E. destruct r as [b|e].
  - destruct H as (u & u' & -> & _). exists s'. split; [reflexivity|]. apply (f_equal fst) in E. cbn [fst] in E. rewrite <- E.
    vm_compute. by eexists.
  - apply (f_equal snd) in E. vm_compute in E. discriminate E.
Defined.
