(* ===== verification/Users.v ===== *)
(** * User administration of the portal

    core/auth/domain: user-management-policy.service.ts and the commands that create, update,
    deactivate users, reset their passwords, and create, update, delete roles and replace their
    permissions. The ids a request names are texts the server reads as numbers ([number], an
    argument); the acting user's id is that of the access token. The participant check of
    users.controller.ts is not modelled. *)

From S2P Require Import Prelude Interleave Accounts.

(** ** Constants *)

Definition ADMIN_ROLE_CODE : jsstr := js "ADMIN".
Definition DFSP_ADMIN_ROLE_CODE : jsstr := js "DFSP_ADMIN".
Definition ADMIN_USERS_MANAGE : jsstr := js "admin.users.manage".
Definition ADMIN_DFSP_USERS_MANAGE : jsstr := js "admin.dfsp-users.manage".
Definition ADMIN_KEY_PREFIX : jsstr := js "admin.".
Arguments ADMIN_ROLE_CODE : simpl never.
Arguments DFSP_ADMIN_ROLE_CODE : simpl never.
Arguments ADMIN_USERS_MANAGE : simpl never.
Arguments ADMIN_DFSP_USERS_MANAGE : simpl never.
Arguments ADMIN_KEY_PREFIX : simpl never.

Notation text_in k l := (bool_decide (k ∈ l)).

Section administration.
  Context {credentials : Credentials} (same_text : jsstr -> jsstr -> bool) (number : jsstr -> option Z).
  Notation Cmd := (Prog Db exception).

(** [userRepository.findById], [roleRepository.findById] with an id of a row, and with one of a
    request. *)
Definition findUser (id : Z) : Cmd (option User) := read (fun s => users s !! id).
Definition findRole (id : Z) : Cmd (option Role) := read (fun s => roles s !! id).
Definition findUserById (id : jsstr) : Cmd (option (Z * User)) :=
  read (fun s => id ← number id; u ← users s !! id; Some (id, u)).
Definition findRoleById (id : jsstr) : Cmd (option (Z * Role)) :=
  read (fun s => id ← number id; r ← roles s !! id; Some (id, r)).
Definition findPermissionKeysByRoleId (role : Z) : Cmd (list jsstr) := read (fun s => permission_keys s role).

(** ** The policy *)

Record UserManagementContext : Set := mkContext {
  actor : User; actorRole : Role; actorPermissions : list jsstr; globalManager : bool; dfspManager : bool;
  managementFspId : option jsstr }.

Definition denied {A} : Cmd A := throw (Forbidden USER_MANAGEMENT_SCOPE_DENIED).

(** [resolveManagementContext] *)
Definition resolveManagementContext (actorId : Z) : Cmd UserManagementContext :=
  let* found := findUser actorId in
  match found with
  | None => denied
  | Some actor =>
      let* _ := throw_when (negb (isActive actor)) (Forbidden USER_MANAGEMENT_SCOPE_DENIED) in
      let* found := findRole (roleId actor) in
      match found with
      | None => denied
      | Some actorRole =>
          let* keys := findPermissionKeysByRoleId (roleId actor) in
          let globalManager := text_in ADMIN_USERS_MANAGE keys in
          let dfspManager := text_in ADMIN_DFSP_USERS_MANAGE keys in
          let* _ := throw_when (negb globalManager && negb dfspManager) (Forbidden USER_MANAGEMENT_SCOPE_DENIED) in
          let* _ := throw_when (negb globalManager && bool_decide (fspId actor = None)) (Forbidden USER_MANAGEMENT_SCOPE_DENIED) in
          ret (mkContext actor actorRole keys globalManager dfspManager (if globalManager then None else fspId actor))
      end
  end.

(** [canManageTargetRole]; [None] is the TypeError of a role that is not there. *)
Definition canManageTargetRole (c : UserManagementContext) (target : User) (targetRole : option Role) : option bool :=
  if globalManager c then
    match targetRole with
    | Some r => Some (negb (str_eqb (code r) ADMIN_ROLE_CODE) || str_eqb (code (actorRole c)) ADMIN_ROLE_CODE)
    | None => None
    end
  else if bool_decide (managementFspId c = None) || negb (bool_decide (fspId target = managementFspId c)) then Some false
  else match targetRole with
       | Some r =>
           if negb (bool_decide (scope r = DFSP)) then Some false
           else Some (negb (str_eqb (code r) DFSP_ADMIN_ROLE_CODE) || str_eqb (code (actorRole c)) DFSP_ADMIN_ROLE_CODE)
       | None => None
       end.
Definition assertCanManageTargetRole (c : UserManagementContext) (target : User) (targetRole : option Role) : Cmd unit :=
  match canManageTargetRole c target targetRole with
  | Some true => ret tt
  | Some false => denied
  | None => throw TypeError
  end.

(** [canAssignRole] *)
Definition canAssignRole (c : UserManagementContext) (r : Role) : bool :=
  if globalManager c then negb (str_eqb (code r) ADMIN_ROLE_CODE) || str_eqb (code (actorRole c)) ADMIN_ROLE_CODE
  else if negb (bool_decide (scope r = DFSP)) then false
  else negb (str_eqb (code r) DFSP_ADMIN_ROLE_CODE).
Definition assertCanAssignRole (c : UserManagementContext) (r : Role) : Cmd unit :=
  throw_when (negb (canAssignRole c r)) (Forbidden USER_ROLE_NOT_ASSIGNABLE).

(** [resolveCreateFspId] *)
Definition resolveCreateFspId (c : UserManagementContext) (requested : option jsstr) : option jsstr :=
  if globalManager c then requested else managementFspId c.

(** [assertNotLastDfspManager] *)
Definition assertNotLastDfspManager (id : Z) (target : User) (current next : Z) (nextFspId : option jsstr) (deactivating : bool) : Cmd unit :=
  match fspId target with
  | None => ret tt
  | Some fsp =>
      let* currentRole := findRole current in
      if negb (bool_decide (code <$> currentRole = Some DFSP_ADMIN_ROLE_CODE)) then ret tt
      else if negb deactivating && (current =? next) && bool_decide (Some fsp = nextFspId) then ret tt
      else
        let* stays :=
          if negb deactivating && bool_decide (Some fsp = nextFspId)
          then let* nextRole := findRole next in ret (bool_decide (code <$> nextRole = Some DFSP_ADMIN_ROLE_CODE))
          else ret false in
        if (stays : bool) then ret tt
        else
          let* admin := read (findByCode same_text DFSP_ADMIN_ROLE_CODE) in
          match admin with
          | None => throw (Conflict USER_LAST_DFSP_ADMIN)
          | Some (role, _) =>
              let* others := read (countActiveUsersByRoleIdForFsp same_text role fsp id) in
              throw_when (others =? 0)%nat (Conflict USER_LAST_DFSP_ADMIN)
          end
  end.

(** ** Commands on users *)

(** [fspId != null && fspId.trim().length > 0 ? fspId.trim() : null] *)
Definition requested_fsp (fsp : option jsstr) : option jsstr :=
  match fsp with Some f => if bool_decide (trim f = []) then None else Some (trim f) | None => None end.

(** The fsp id must fit the scope of the role. *)
Definition check_scope (r : Role) (fsp : option jsstr) : Cmd unit :=
  let* _ := throw_when (bool_decide (scope r = HUB) && negb (bool_decide (fsp = None))) (BadRequest USER_ADMIN_FORBIDS_FSP_ID) in
  throw_when (bool_decide (scope r = DFSP) && bool_decide (fsp = None)) (BadRequest USER_DFSP_REQUIRES_FSP_ID).

(** [CreateUserHandler.execute]; the saved user has the id that was next. *)
Definition createUser (d : Draw) (actingUserId : Z) (mail : jsstr) (role : jsstr) (fsp : option jsstr) : Cmd (Z * jsstr) :=
  let* context := resolveManagementContext actingUserId in
  let* found := findRoleById role in
  match found with
  | None => throw (BadRequest USER_ROLE_NOT_FOUND)
  | Some (roleId, role) =>
      let* _ := assertCanAssignRole context role in
      let effectiveFspId := resolveCreateFspId context (requested_fsp fsp) in
      let* _ := check_scope role effectiveFspId in
      let* existing := read (findByEmail same_text mail) in
      let* _ := throw_when (negb (bool_decide (fst <$> existing = None))) (Conflict USER_EMAIL_TAKEN) in
      let* id := nextId in
      let* _ := attempt (save_user same_text id (newUser mail (bcrypt_hash (d_salt d) (d_password d)) roleId effectiveFspId true)) in
      ret (id, d_password d)
  end.

(** [assertNotLastAdmin] of the update *)
Definition assertNotLastAdmin (id current next : Z) (deactivating : bool) : Cmd unit :=
  let* currentKeys := findPermissionKeysByRoleId current in
  if negb (text_in ADMIN_USERS_MANAGE currentKeys) then ret tt
  else
    let* stays :=
      if negb deactivating && negb (current =? next)
      then let* nextKeys := findPermissionKeysByRoleId next in ret (text_in ADMIN_USERS_MANAGE nextKeys)
      else ret false in
    if (stays : bool) then ret tt
    else
      let* others := read (countActiveUsersGrantingPermission same_text ADMIN_USERS_MANAGE id) in
      throw_when (others =? 0)%nat (Conflict USER_LAST_ADMIN).

(** [userRepository.update]: a role that is gone is refused by the foreign key. *)
Definition update_user (id : Z) (p : UserUpdate) (s : Db) : result exception Db :=
  match users s !! id, up_roleId p with
  | Some _, Some r => if bool_decide (is_Some (roles s !! r)) then Ok (set_user id (updated p) s) else Err DriverError
  | _, _ => Ok (set_user id (updated p) s)
  end.
Definition no_patch (p : UserUpdate) : bool :=
  match p with mkUserUpdate None None None => true | _ => false end.

(** [invalidateTokens], [revokeAllForUser] now. *)
Definition invalidateTokens (id : Z) : Cmd unit := let* now := new_Date in write (set_user id (invalidated now)).
Definition endTokens (id : Z) : Cmd unit := let* now := new_Date in write (revokeAllForUser id now).

(** [UpdateUserHandler.execute]: [role] and [active] may be absent, [fsp] absent or null. *)
Definition updateUser (targetUserId : jsstr) (actingUserId : Z) (role : option jsstr) (fsp : option (option jsstr)) (active : option bool)
    : Cmd (User * Role) :=
  let* context := resolveManagementContext actingUserId in
  let* found := findUserById targetUserId in
  match found with
  | None => throw (NotFound USER_NOT_FOUND)
  | Some (id, target) =>
      let* targetRole := findRole (roleId target) in
      match targetRole with
      | None => throw (BadRequest USER_ROLE_NOT_FOUND)
      | Some targetRole =>
          let* _ := assertCanManageTargetRole context target (Some targetRole) in
          let isSelf := str_eqb targetUserId (bigint_text actingUserId) in
          let change := match role with Some r => if str_eqb r (bigint_text (roleId target)) then None else Some r | None => None end in
          let roleChange := negb (bool_decide (change = None)) in
          let deactivation := bool_decide (active = Some false) && isActive target in
          let* _ := throw_when (isSelf && (roleChange || deactivation)) (BadRequest USER_SELF_LOCK) in
          let* newRole := match change with
                          | Some r => findRoleById r
                          | None => let* r := findRole (roleId target) in ret ((fun r => (roleId target, r)) <$> r)
                          end in
          match newRole with
          | None => throw (BadRequest USER_ROLE_NOT_FOUND)
          | Some (newRoleId, newRole) =>
              let* _ := assertCanAssignRole context newRole in
              let requestedFspId := match fsp with None => fspId target | Some f => requested_fsp f end in
              let effectiveFspId := if globalManager context then requestedFspId else managementFspId context in
              let* _ := check_scope newRole effectiveFspId in
              let* _ := if deactivation || roleChange
                        then assertNotLastAdmin id (roleId target) (if roleChange then newRoleId else roleId target) deactivation
                        else ret tt in
              let* _ := assertNotLastDfspManager id target (roleId target) newRoleId effectiveFspId deactivation in
              let patch := mkUserUpdate (if roleChange then Some newRoleId else None)
                             (if bool_decide (effectiveFspId = fspId target) then None else Some effectiveFspId)
                             (match active with Some a => if Bool.eqb a (isActive target) then None else Some a | None => None end) in
              let* _ := if no_patch patch then ret tt else attempt (update_user id patch) in
              let* _ := invalidateTokens id in
              let* _ := if deactivation then endTokens id else ret tt in
              let* updated := findUser id in
              match updated with
              | Some u => ret (u, newRole)
              | None => throw TypeError
              end
          end
      end
  end.

(** [DeactivateUserHandler.execute] *)
Definition deactivateUser (targetUserId : jsstr) (actingUserId : Z) : Cmd User :=
  let* context := resolveManagementContext actingUserId in
  let* _ := throw_when (str_eqb targetUserId (bigint_text actingUserId)) (BadRequest USER_SELF_LOCK) in
  let* found := findUserById targetUserId in
  match found with
  | None => throw (NotFound USER_NOT_FOUND)
  | Some (id, target) =>
      let* role := findRole (roleId target) in
      let* _ := assertCanManageTargetRole context target role in
      if negb (isActive target) then ret target
      else
        let* grants := findPermissionKeysByRoleId (roleId target) in
        let* _ := if text_in ADMIN_USERS_MANAGE grants
                  then let* others := read (countActiveUsersGrantingPermission same_text ADMIN_USERS_MANAGE id) in
                       throw_when (others =? 0)%nat (Conflict USER_LAST_ADMIN)
                  else ret tt in
        let* _ := assertNotLastDfspManager id target (roleId target) (roleId target) (fspId target) true in
        let* _ := write (set_user id deactivated) in
        let* _ := endTokens id in
        let* _ := invalidateTokens id in
        let* refreshed := findUser id in
        match refreshed with Some u => ret u | None => throw TypeError end
  end.

(** [ResetUserPasswordHandler.execute] *)
Definition resetUserPassword (d : Draw) (targetUserId : jsstr) (actingUserId : Z) : Cmd jsstr :=
  let* context := resolveManagementContext actingUserId in
  let* found := findUserById targetUserId in
  match found with
  | None => throw (NotFound USER_NOT_FOUND)
  | Some (id, user) =>
      let* role := findRole (roleId user) in
      let* _ := assertCanManageTargetRole context user role in
      let* _ := write (set_user id (with_password (bcrypt_hash (d_salt d) (d_password d)) true)) in
      let* _ := endTokens id in
      let* _ := invalidateTokens id in
      ret (d_password d)
  end.

(** ** Commands on roles *)

(** [toUpperCase] on Latin-1, but for the two letters whose capitals are beyond it. *)
Definition upper_letter (c : ascii) : jsstr :=
  let n := Prelude.code c in
  if ((97 <=? n)%N && (n <=? 122)%N) || ((224 <=? n)%N && (n <=? 254)%N && negb (n =? 247)%N) then [ascii_of_N (n - 32)]
  else if (n =? 223)%N then js "SS" else [c].
(** [replace(/\s+/g, ' ')] *)
Fixpoint single_spaces (s : jsstr) : jsstr :=
  match s with
  | c :: ((d :: _) as s') => if is_ws c then if is_ws d then single_spaces s' else " "%char :: single_spaces s' else c :: single_spaces s'
  | [c] => if is_ws c then js " " else [c]
  | [] => []
  end.
(** [normalizeCode] *)
Definition normalizeCode (code : jsstr) : jsstr := List.flat_map upper_letter (single_spaces (trim code)).

(** [CreateRoleHandler.execute] *)
Definition createRole (code name : jsstr) (scope : RoleScope) (description : option jsstr) : Cmd (Z * Role) :=
  let code := normalizeCode code in
  let name := trim name in
  let* _ := throw_when (bool_decide (code = [])) (BadRequest ROLE_CODE_REQUIRED) in
  let* _ := throw_when (bool_decide (name = [])) (BadRequest ROLE_NAME_REQUIRED) in
  let* existing := read (findByCode same_text code) in
  let* _ := throw_when (negb (bool_decide (fst <$> existing = None))) (Conflict ROLE_CODE_TAKEN) in
  let* existing := read (findByName same_text name) in
  let* _ := throw_when (negb (bool_decide (fst <$> existing = None))) (Conflict ROLE_NAME_TAKEN) in
  let* id := nextId in
  let r := mkRole code name description scope false in
  let* _ := attempt (save_role same_text id r) in
  ret (id, r).

(** [roleRepository.update] *)
Definition set_role (id : Z) (f : Role -> Role) : Db -> Db := with_roles (alter f id).

(** [UpdateRoleHandler.execute] *)
Definition updateRole (roleId : jsstr) (name : option jsstr) (description : option (option jsstr)) : Cmd (option Role) :=
  let* found := findRoleById roleId in
  match found with
  | None => throw (NotFound ROLE_NOT_FOUND)
  | Some (id, _) =>
      let* name := match name with
                   | None => ret None
                   | Some name =>
                       let name := trim name in
                       let* _ := throw_when (bool_decide (name = [])) (BadRequest ROLE_NAME_REQUIRED) in
                       let* existing := read (findByName same_text name) in
                       let* _ := throw_when (match existing with Some (other, _) => negb (other =? id) | None => false end) (Conflict ROLE_NAME_TAKEN) in
                       ret (Some name)
                   end in
      let* _ := match name, description with
                | None, None => ret tt
                | _, _ => write (set_role id (updated_role (mkRoleUpdate name description)))
                end in
      findRole id
  end.

(** [DeleteRoleHandler.execute] *)
Definition deleteRole (roleId : jsstr) : Cmd bool :=
  let* found := findRoleById roleId in
  match found with
  | None => throw (NotFound ROLE_NOT_FOUND)
  | Some (id, role) =>
      let* _ := throw_when (isSystem role) (Conflict ROLE_IS_SYSTEM) in
      let* inUse := read (countByRoleId id) in
      let* _ := throw_when (0 <? inUse)%nat (Conflict ROLE_IN_USE) in
      let* _ := attempt (delete_role id) in
      ret true
  end.

(** The role and the permissions of a replacement are still there, or the keys refuse it. *)
Definition replace_for_role (id : Z) (ids : list Z) (s : Db) : result exception Db :=
  if bool_decide (ids = []) || (bool_decide (is_Some (roles s !! id)) && forallb (fun p => bool_decide (is_Some (permissions s !! p))) ids)
  then Ok (replaceForRole id ids s) else Err DriverError.

(** [ReplaceRolePermissionsHandler.execute] *)
Definition replaceRolePermissions (roleId : jsstr) (permissionKeys : list jsstr) : Cmd (list jsstr) :=
  let* found := findRoleById roleId in
  match found with
  | None => throw (NotFound ROLE_NOT_FOUND)
  | Some (id, role) =>
      let dedupedKeys := remove_dups permissionKeys in
      let* resolved := read (findByKeyNames same_text dedupedKeys) in
      let* _ := throw_when (negb (length resolved =? length dedupedKeys)%nat) (BadRequest PERMISSION_NOT_FOUND) in
      let mismatched := List.filter (fun e => match p_scope (snd e) with BOTH => false | OfScope s => negb (bool_decide (s = scope role)) end) resolved in
      let* _ := throw_when (negb (bool_decide (fst <$> mismatched = []))) (BadRequest ROLE_PERMISSION_SCOPE_MISMATCH) in
      let* _ :=
        if isSystem role && text_in (code role) [ADMIN_ROLE_CODE; DFSP_ADMIN_ROLE_CODE]
        then let* currentKeys := findPermissionKeysByRoleId id in
             throw_when (existsb (fun k => startsWith k ADMIN_KEY_PREFIX && negb (text_in k dedupedKeys)) currentKeys)
               (Conflict ROLE_CANNOT_REMOVE_ADMIN_KEY)
        else ret tt in
      let* _ := attempt (replace_for_role id (map fst resolved)) in
      let* now := new_Date in
      let* _ := write (invalidateTokensForRole id now) in
      ret (map (fun e => keyName (snd e)) resolved)
  end.
End administration.

(** ** Rules *)

Section laws.
  Context {credentials : Credentials} (same_text : jsstr -> jsstr -> bool) (number : jsstr -> option Z).

Lemma resolve_quiet id : quiet (resolveManagementContext id).
Proof. unfold resolveManagementContext, findUser, findRole, findPermissionKeysByRoleId, denied, throw, ret. quietly. Qed.
Lemma can_manage_quiet c u r : quiet (assertCanManageTargetRole c u r).
Proof. unfold assertCanManageTargetRole, denied, throw, ret. quietly. Qed.
Lemma not_last_dfsp_quiet id u a b fsp d : quiet (assertNotLastDfspManager same_text id u a b fsp d).
Proof. unfold assertNotLastDfspManager, findRole, throw, ret. quietly. Qed.
Lemma not_last_admin_quiet id a b d : quiet (assertNotLastAdmin same_text id a b d).
Proof. unfold assertNotLastAdmin, findPermissionKeysByRoleId, throw, ret. quietly. Qed.
Lemma check_scope_quiet r fsp : quiet (check_scope r fsp).
Proof. unfold check_scope. quietly. Qed.

Hint Resolve resolve_quiet can_manage_quiet not_last_dfsp_quiet not_last_admin_quiet check_scope_quiet : quiet.

(** ** What the commands on users change *)

(** The context of an acting user. *)
Record context_of (acting : Z) (s : Db) (c : UserManagementContext) : Prop := {
  cx_actor : users s !! acting = Some (actor c); cx_active : isActive (actor c) = true;
  cx_role : roles s !! roleId (actor c) = Some (actorRole c);
  cx_global : globalManager c = text_in ADMIN_USERS_MANAGE (permission_keys s (roleId (actor c)));
  cx_fsp : managementFspId c = if globalManager c then None else fspId (actor c);
  cx_some : globalManager c = false -> fspId (actor c) <> None }.

Lemma resolve_context acting s c : snd (run (resolveManagementContext acting) s) = Ok c -> context_of acting s c.
Proof.
  unfold resolveManagementContext, findUser, findRole, findPermissionKeysByRoleId, denied. rewrite run_read.
  destruct (users s !! acting) as [a|] eqn:Ha; [|done]. rewrite run_throw_when. destruct (isActive a) eqn:Hact; [|done]. cbn [negb].
  rewrite run_read. destruct (roles s !! roleId a) as [r|] eqn:Hr; [|done]. rewrite run_read.
  rewrite run_throw_when. destruct (_ && _); [done|]. rewrite run_throw_when. destruct (negb _ && _) eqn:Hf; [done|].
  intros [= <-]. split; try done. cbn. intros Hg Hn. rewrite Hg in Hf. by rewrite bool_decide_true in Hf.
Qed.

Definition same_rest (s s' : Db) : Prop :=
  roles s' = roles s /\ permissions s' = permissions s /\ role_permissions s' = role_permissions s.
Definition scope_fits (r : Role) (fsp : option jsstr) : Prop :=
  match scope r with HUB => fsp = None | DFSP => fsp <> None end.
Definition may_manage (s : Db) (u : User) : Prop := isActive u = true /\ ADMIN_USERS_MANAGE ∈ permission_keys s (roleId u).
Definition others_manage (s : Db) (id : Z) : Prop := countActiveUsersGrantingPermission same_text ADMIN_USERS_MANAGE id s <> 0%nat.

(** A command on users, run alone: nothing, or one user changed, or one new user. *)
Inductive outcome (acting : Z) (target : jsstr) (s s' : Db) : Prop :=
  | o_same : users s' = users s -> same_rest s s' -> outcome acting target s s'
  | o_user c id u r u' r' :
      context_of acting s c -> number target = Some id -> users s !! id = Some u ->
      roles s !! roleId u = Some r -> roles s !! roleId u' = Some r' -> canManageTargetRole c u (Some r) = Some true ->
      (roleId u' = roleId u /\ fspId u' = fspId u \/ canAssignRole c r' = true /\ scope_fits r' (fspId u')) ->
      (globalManager c = false -> fspId u' = managementFspId c) ->
      (target <> bigint_text acting \/ roleId u' = roleId u /\ (isActive u = true -> isActive u' = true)) ->
      (may_manage s u -> may_manage s u' \/ others_manage s id) ->
      email u' = email u -> users s' = <[id := u']> (users s) -> same_rest s s' -> outcome acting target s s'
  | o_new c id u r :
      context_of acting s c -> users s !! id = None -> roles s !! roleId u = Some r -> canAssignRole c r = true ->
      scope_fits r (fspId u) -> (globalManager c = false -> fspId u = managementFspId c) ->
      findByEmail same_text (email u) s = None -> users s' = <[id := u]> (users s) -> same_rest s s' -> outcome acting target s s'.

Lemma o_nothing acting target s : outcome acting target s s.
Proof. by apply o_same. Qed.

Lemma alter_is_insert {A} (f : A -> A) i (m : gmap Z A) x : m !! i = Some x -> alter f i m = <[i := f x]> m.
Proof.
  intros Hx. apply map_eq. intros j. destruct (decide (j = i)) as [->|Hne].
  - by rewrite lookup_alter_eq, Hx, lookup_insert_eq.
  - by rewrite lookup_alter_ne, lookup_insert_ne by done.
Qed.

Lemma can_manage_ok c u r s : snd (run (assertCanManageTargetRole c u r) s) = Ok tt -> canManageTargetRole c u r = Some true.
Proof. unfold assertCanManageTargetRole, denied. by destruct (canManageTargetRole c u r) as [[]|]. Qed.
Lemma check_scope_ok r fsp s : snd (run (check_scope r fsp) s) = Ok tt -> scope_fits r fsp.
Proof. unfold check_scope, scope_fits. rewrite run_throw_when. destruct (scope r), fsp; cbn; done. Qed.
(** One who manages an fsp is told apart by it. *)
Lemma managed_fsp c u r : canManageTargetRole c u (Some r) = Some true -> globalManager c = false ->
  fspId u = managementFspId c /\ scope r = DFSP.
Proof.
  unfold canManageTargetRole. intros H Hg. rewrite Hg in H. destruct (bool_decide (managementFspId c = None) || _) eqn:E; [done|].
  apply orb_false_iff in E as [_ E%negb_false_iff%bool_decide_eq_true]. split; [done|]. by destruct (scope r).
Qed.
Lemma not_last_admin_ok id a b d s : snd (run (assertNotLastAdmin same_text id a b d) s) = Ok tt ->
  ADMIN_USERS_MANAGE ∈ permission_keys s a -> (d = false /\ ADMIN_USERS_MANAGE ∈ permission_keys s b) \/ others_manage s id.
Proof.
  unfold assertNotLastAdmin, findPermissionKeysByRoleId. rewrite run_read. intros H Hin. rewrite bool_decide_true in H by done. cbn [negb] in H.
  unfold others_manage. destruct (negb d && negb (a =? b)) eqn:E; rewrite run_bind in H.
  - apply andb_true_iff in E as [E _]. rewrite run_read in H. cbn [run ret] in H. case_bool_decide.
    + left. by destruct d.
    + rewrite run_read in H. cbn in H. by destruct (Nat.eqb_spec (countActiveUsersGrantingPermission same_text ADMIN_USERS_MANAGE id s) 0); [|right].
  - cbn [run ret] in H. rewrite run_read in H. cbn in H. by destruct (Nat.eqb_spec (countActiveUsersGrantingPermission same_text ADMIN_USERS_MANAGE id s) 0); [|right].
Qed.

(** Rules for the checks of a command: where one fails, nothing has changed. *)
Notation finding acting target s := (fun s' (_ : result exception _) => outcome acting target s s').

Lemma wp_check {A B} acting target (p : Prog Db exception A) (q : A -> Prog Db exception B) s :
  quiet p -> (forall a, snd (run p s) = Ok a -> wp (finding acting target s) (q a) s) -> wp (finding acting target s) (bind p q) s.
Proof. intros Hp Hq. apply wp_quiet; [done|done|]. intros e _. apply o_nothing. Qed.
Lemma wp_check_when {B} acting target c e (q : unit -> Prog Db exception B) s :
  (c = false -> wp (finding acting target s) (q tt) s) -> wp (finding acting target s) (bind (throw_when c e) q) s.
Proof. intros Hq. apply wp_throw_when; [|done]. intros _. apply o_nothing. Qed.
Lemma wp_nothing {B} acting target r s : wp (finding acting target s) (Done r : Prog Db exception B) s.
Proof. apply o_nothing. Qed.
Lemma wp_target {B} acting target (q : option (Z * User) -> Prog Db exception B) s :
  wp (finding acting target s) (q None) s ->
  (forall id u, number target = Some id -> users s !! id = Some u -> wp (finding acting target s) (q (Some (id, u))) s) ->
  wp (finding acting target s) (bind (findUserById number target) q) s.
Proof.
  intros Hn Hs. unfold findUserById. apply wp_read. destruct (number target) as [id|] eqn:Hid; [|done].
  cbn [mbind option_bind]. destruct (users s !! id) as [u|] eqn:Hu; [|done]. by apply Hs.
Qed.

Lemma same_rest_refl s : same_rest s s.
Proof. done. Qed.

(** Every user has a role. *)
Definition roles_known (s : Db) : Prop := forall id u, users s !! id = Some u -> is_Some (roles s !! roleId u).

Lemma deactivateUser_outcome target acting s : roles_known s ->
  wp (finding acting target s) (deactivateUser same_text number target acting) s.
Proof.
  intros Hk. unfold deactivateUser. apply wp_check; [auto with quiet|]. intros c Hc%resolve_context.
  apply wp_check_when. intros Hself. apply wp_target; [apply wp_nothing|]. intros id u Hid Hu. unfold findRole. apply wp_read.
  destruct (Hk id u Hu) as [r Hr]. rewrite Hr. apply wp_check; [auto with quiet|]. intros [] Hm%can_manage_ok.
  destruct (negb (isActive u)); [apply wp_nothing|]. unfold findPermissionKeysByRoleId. apply wp_read.
  apply wp_check; [unfold ret; quietly|]. intros [] Hlast. apply wp_check; [auto with quiet|]. intros [] _.
  apply wp_write. unfold endTokens, invalidateTokens, findUser, new_Date.
  set (u' := invalidated (clock s) (deactivated u)).
  assert (Hout : forall s', users s' = alter (fun u => invalidated (clock s) (deactivated u)) id (users s) -> same_rest s s' -> outcome acting target s s').
  { intros s' Hus Hrest. apply (o_user acting target s s' c id u r u' r); try done.
    - by left.
    - intros Hg. by apply (managed_fsp c u r).
    - left. unfold str_eqb in Hself. by apply bool_decide_eq_false in Hself.
    - intros [_ Hin]. right. unfold others_manage. rewrite (bool_decide_true (ADMIN_USERS_MANAGE ∈ _)) in Hlast by done. rewrite run_read in Hlast. cbn in Hlast.
      by destruct (Nat.eqb_spec (countActiveUsersGrantingPermission same_text ADMIN_USERS_MANAGE id s) 0).
    - rewrite Hus. by apply (alter_is_insert (fun u => invalidated (clock s) (deactivated u))). }
  unfold wp. cbn. rewrite lookup_alter_eq, lookup_alter_eq, Hu. cbn. apply Hout; [|done]. cbn. by rewrite alter_alter_eq.
Qed.

Lemma resetUserPassword_outcome d target acting s : roles_known s ->
  wp (finding acting target s) (resetUserPassword number d target acting) s.
Proof.
  intros Hk. unfold resetUserPassword. apply wp_check; [auto with quiet|]. intros c Hc%resolve_context.
  apply wp_target; [apply wp_nothing|]. intros id u Hid Hu. unfold findRole. apply wp_read.
  destruct (Hk id u Hu) as [r Hr]. rewrite Hr. apply wp_check; [auto with quiet|]. intros [] Hm%can_manage_ok.
  set (f := fun u => invalidated (clock s) (with_password (bcrypt_hash (d_salt d) (d_password d)) true u)).
  assert (Hout : forall s', users s' = alter f id (users s) -> same_rest s s' -> outcome acting target s s').
  { intros s' Hus Hrest. apply (o_user acting target s s' c id u r (f u) r); try done.
    - by left.
    - intros Hg. by apply (managed_fsp c u r).
    - by right.
    - intros Hg. by left.
    - rewrite Hus. by apply (alter_is_insert f). }
  unfold wp, endTokens, invalidateTokens, new_Date. cbn. apply Hout; [|done]. cbn. by rewrite alter_alter_eq.
Qed.

Lemma createUser_outcome d acting target mail role fsp s :
  wp (finding acting target s) (createUser same_text number d acting mail role fsp) s.
Proof.
  unfold createUser. apply wp_check; [auto with quiet|]. intros c Hc%resolve_context. unfold findRoleById. apply wp_read.
  destruct (number role) as [rid|]; [|apply wp_nothing]. cbn [mbind option_bind]. destruct (roles s !! rid) as [r|] eqn:Hr; [|apply wp_nothing].
  unfold assertCanAssignRole. apply wp_check_when. intros Ha%negb_false_iff. apply wp_check; [auto with quiet|].
  intros [] Hfit%check_scope_ok. apply wp_read. apply wp_check_when. intros _. unfold wp, nextId. cbn [bind run ret].
  rewrite run_attempt. unfold save_user. cbn [email roleId newUser users bump roles].
  destruct (users s !! serial s) eqn:Hfree; [by apply o_same|]. destruct (findByEmail same_text mail (bump s)) eqn:Hmail; [by apply o_same|].
  rewrite Hr. cbn [run ret fst]. 
  apply (o_new acting target s _ c (serial s) (newUser mail (bcrypt_hash (d_salt d) (d_password d)) rid (resolveCreateFspId c (requested_fsp fsp)) true) r); [done|done|exact Hr|done|exact Hfit| |exact Hmail|reflexivity|done].
  intros Hg. cbn. unfold resolveCreateFspId. by rewrite Hg.
Qed.

(** The end of an update: the patch, and the tokens. *)
Lemma update_tail acting target id u p (deactivation : bool) (newRole : Role) s :
  users s !! id = Some u -> (forall r, up_roleId p = Some r -> is_Some (roles s !! r)) ->
  (forall s', users s' = <[id := invalidated (clock s) (updated p u)]> (users s) -> same_rest s s' -> outcome acting target s s') ->
  wp (finding acting target s)
    (let* _ := if no_patch p then ret tt else attempt (update_user id p) in
     let* _ := invalidateTokens id in
     let* _ := if deactivation then endTokens id else ret tt in
     let* updated := findUser id in
     match updated with Some u => ret (u, newRole) | None => throw TypeError end) s.
Proof.
  intros Hu Hr Hout.
  assert (Hend : forall s1, users s1 = alter (updated p) id (users s) -> same_rest s s1 -> clock s1 = clock s ->
    wp (finding acting target s) (let* _ := invalidateTokens id in
     let* _ := if deactivation then endTokens id else ret tt in
     let* updated := findUser id in
     match updated with Some u => ret (u, newRole) | None => throw TypeError end) s1).
  { intros s1 Hus Hrest Hc. unfold wp, invalidateTokens, endTokens, findUser, new_Date.
    assert (Hin : outcome acting target s (set_user id (invalidated (clock s1)) s1)).
    { apply Hout; [|done]. cbn. rewrite Hus, alter_alter_eq, Hc. by apply (alter_is_insert (fun u => invalidated (clock s) (updated p u))). }
    destruct deactivation; cbn; destruct (alter _ _ _ !! _); cbn; try exact Hin;
      (apply Hout; [|done]; cbn; rewrite Hus, alter_alter_eq, Hc; by apply (alter_is_insert (fun u => invalidated (clock s) (updated p u)))). }
  destruct (no_patch p) eqn:Hp.
  - apply Hend; [|done|done]. destruct p as [[] [] []]; try done. symmetry. apply map_eq. intros j.
    destruct (decide (j = id)) as [->|Hne]; [rewrite lookup_alter_eq, Hu; by destruct u|by rewrite lookup_alter_ne].
  - apply wp_attempt; [|by intros; apply o_nothing]. intros s1. unfold update_user. rewrite Hu. destruct (up_roleId p) as [r|] eqn:Hr'.
    + rewrite bool_decide_true by (by apply Hr). intros [= <-]. by apply Hend.
    + intros [= <-]. by apply Hend.
Qed.

Lemma updateUser_outcome target acting role fsp active s :
  wp (finding acting target s) (updateUser same_text number target acting role fsp active) s.
Proof.
  unfold updateUser. apply wp_check; [auto with quiet|]. intros c Hc%resolve_context.
  apply wp_target; [apply wp_nothing|]. intros id u Hid Hu. unfold findRole at 1. apply wp_read.
  destruct (roles s !! roleId u) as [r|] eqn:Hr; [|apply wp_nothing]. apply wp_check; [auto with quiet|]. intros [] Hm%can_manage_ok.
  set (change := match role with Some r => _ | None => None end). set (deactivation := bool_decide (active = Some false) && isActive u).
  apply wp_check_when. intros Hself. apply wp_check; [unfold findRoleById, findRole, ret; quietly|]. intros [[nid nr]|] Hnew; [|apply wp_nothing].
  assert (Hnr : roles s !! nid = Some nr /\ (change = None -> nid = roleId u)).
  { unfold findRoleById, findRole in Hnew. destruct change as [t|].
    - cbn in Hnew. destruct (number t) as [z|]; [|done]. cbn in Hnew. destruct (roles s !! z) eqn:E; [|done]. by injection Hnew as <- <-.
    - rewrite run_read, Hr in Hnew. by injection Hnew as <- <-. }
  destruct Hnr as [Hnr Hsame]. unfold assertCanAssignRole. apply wp_check_when. intros Ha%negb_false_iff.
  set (eff := if globalManager c then _ else managementFspId c). apply wp_check; [auto with quiet|]. intros [] Hfit%check_scope_ok.
  apply wp_check; [unfold ret; quietly|]. intros [] Hlast. apply wp_check; [auto with quiet|]. intros [] _.
  apply (update_tail acting target id u); [done| |].
  - cbn. intros z. destruct (negb (bool_decide (change = None))); [|done]. intros [= <-]. by eexists.
  - assert (Heff : default (fspId u) (if bool_decide (eff = fspId u) then None else Some eff) = eff) by (clear; by case_bool_decide).
    intros s' Hus Hrest. eapply (o_user acting target s s' c id u r); [done|done|done|done| |done| | | | | |exact Hus|done]; cbn.
    + replace (default (roleId u) _) with nid; [exact Hnr|]. case_bool_decide as E; cbn; [by apply Hsame|done].
    + right. split; [done|]. by rewrite Heff.
    + intros Hg. rewrite Heff. unfold eff. by rewrite Hg.
    + destruct (decide (target = bigint_text acting)) as [->|]; [|by left]. right. unfold str_eqb in Hself at 1.
      rewrite bool_decide_true in Hself by done. cbn [andb] in Hself. apply orb_false_iff in Hself as [Hch Hd].
      rewrite Hch. split; [done|]. intros Hact. unfold deactivation in Hd. rewrite Hact in Hd.
      destruct active as [[]|]; cbn; rewrite ?Hact; done.
    + intros [Hact Hin].
      assert (Hactive : deactivation = false -> default (isActive u) (match active with Some a => if Bool.eqb a (isActive u) then None else Some a | None => None end) = true).
      { unfold deactivation. rewrite Hact. destruct active as [[]|]; done. }
      destruct (deactivation || _) eqn:Hcheck.
      * destruct (not_last_admin_ok _ _ _ _ _ Hlast Hin) as [[Hd Hn]|Ho]; [left|by right]. split; [by apply Hactive|].
        cbn [updated roleId invalidated]. by destruct (negb (bool_decide (change = None))).
      * apply orb_false_iff in Hcheck as [Hd Hch]. left. split; [by apply Hactive|]. cbn. rewrite Hch. done.
    + done.
Qed.

(** ** Commands alone, one after the other *)

(** A command on users of [acting], on [target]. *)
Inductive user_step (acting : Z) (target : jsstr) (s : Db) : Db -> Prop :=
  | us_create d mail role fsp : user_step acting target s (fst (run (createUser same_text number d acting mail role fsp) s))
  | us_update role fsp active : user_step acting target s (fst (run (updateUser same_text number target acting role fsp active) s))
  | us_deactivate : user_step acting target s (fst (run (deactivateUser same_text number target acting) s))
  | us_reset d : user_step acting target s (fst (run (resetUserPassword number d target acting) s)).
(** A command on roles. *)
Inductive role_step (s : Db) : Db -> Prop :=
  | rs_create code name scope description : role_step s (fst (run (createRole same_text code name scope description) s))
  | rs_update role name description : role_step s (fst (run (updateRole same_text number role name description) s))
  | rs_delete role : role_step s (fst (run (deleteRole number role) s))
  | rs_replace role keys : role_step s (fst (run (replaceRolePermissions same_text number role keys) s)).
(** The commands of Sessions.v, and time: no role and no standing of a user changes. *)
Definition sessions_step (s s' : Db) : Prop :=
  same_rest s s' /\ forall id, match users s !! id, users s' !! id with
    | Some u, Some u' => email u' = email u /\ fspId u' = fspId u /\ roleId u' = roleId u /\ isActive u' = isActive u
    | None, None => True
    | _, _ => False
    end.
(** What happens to accounts, where the texts that name users satisfy [P]. *)
Definition admin_step (P : jsstr -> Prop) (s s' : Db) : Prop :=
  (exists acting target, P target /\ user_step acting target s s') \/ role_step s s' \/ sessions_step s s'.

Lemma user_step_outcome acting target s s' : roles_known s -> user_step acting target s s' -> outcome acting target s s'.
Proof.
  intros Hk Hs. destruct Hs; [apply createUser_outcome|apply updateUser_outcome|by apply deactivateUser_outcome|by apply resetUserPassword_outcome].
Qed.

(** A command on roles: nothing, or one role is new, renamed or gone, or has other permissions. *)
Inductive role_outcome (s s' : Db) : Prop :=
  | ro_same : roles s' = roles s -> role_permissions s' = role_permissions s -> users s' = users s -> permissions s' = permissions s -> role_outcome s s'
  | ro_new id r : roles s !! id = None -> findByCode same_text (code r) s = None -> isSystem r = false ->
      roles s' = <[id := r]> (roles s) -> role_permissions s' = role_permissions s -> users s' = users s -> permissions s' = permissions s -> role_outcome s s'
  | ro_renamed id p : roles s' = alter (updated_role p) id (roles s) -> role_permissions s' = role_permissions s -> users s' = users s ->
      permissions s' = permissions s -> role_outcome s s'
  | ro_gone id r : roles s !! id = Some r -> isSystem r = false -> countByRoleId id s = 0%nat -> roles s' = delete id (roles s) ->
      role_permissions s' = delete id (role_permissions s) -> users s' = users s -> permissions s' = permissions s -> role_outcome s s'
  | ro_granted id r keys now : roles s !! id = Some r -> roles s' = roles s ->
      role_permissions s' = <[id := map fst (findByKeyNames same_text keys s)]> (role_permissions s) ->
      (isSystem r = true -> code r ∈ [ADMIN_ROLE_CODE; DFSP_ADMIN_ROLE_CODE] ->
         forall k, k ∈ permission_keys s id -> startsWith k ADMIN_KEY_PREFIX = true -> k ∈ keys) ->
      users s' = fmap (fun u => if roleId u =? id then invalidated now u else u) (users s) -> permissions s' = permissions s -> role_outcome s s'.

Notation ending s := (fun s' (_ : result exception _) => role_outcome s s').
Lemma ro_nothing s : role_outcome s s.
Proof. by apply ro_same. Qed.
Lemma wp_guard {B} c e (q : unit -> Prog Db exception B) s :
  (c = false -> wp (ending s) (q tt) s) -> wp (ending s) (bind (throw_when c e) q) s.
Proof. intros Hq. apply wp_throw_when; [|done]. intros _. apply ro_nothing. Qed.
Lemma wp_role {B} role (q : option (Z * Role) -> Prog Db exception B) s :
  wp (ending s) (q None) s -> (forall id r, roles s !! id = Some r -> wp (ending s) (q (Some (id, r))) s) ->
  wp (ending s) (bind (findRoleById number role) q) s.
Proof.
  intros Hn Hs. unfold findRoleById. apply wp_read. destruct (number role) as [id|]; [|done]. cbn [mbind option_bind].
  destruct (roles s !! id) as [r|] eqn:Hr; [|done]. by apply Hs.
Qed.

Lemma createRole_outcome code_ name_ scope_ description_ s : wp (ending s) (createRole same_text code_ name_ scope_ description_) s.
Proof.
  unfold createRole. do 2 (apply wp_guard; intros _). apply wp_read. apply wp_guard. intros _. apply wp_read. apply wp_guard. intros _.
  unfold wp, nextId. cbn [bind run ret]. rewrite run_attempt. unfold save_role. cbn [code roles bump].
  destruct (roles s !! serial s) eqn:Hfree; [by apply ro_same|].
  destruct (findByCode same_text (normalizeCode code_) (bump s)) eqn:Hcode; [by apply ro_same|]. cbn [run ret fst].
  apply (ro_new s _ (serial s) (mkRole (normalizeCode code_) (trim name_) description_ scope_ false)); done.
Qed.

Lemma updateRole_outcome role name_ description_ s : wp (ending s) (updateRole same_text number role name_ description_) s.
Proof.
  unfold updateRole. apply wp_role; [apply ro_nothing|]. intros id r Hr.
  assert (Hend : forall n, wp (ending s) (let* _ := match n, description_ with
                | None, None => ret tt
                | _, _ => write (set_role id (updated_role (mkRoleUpdate n description_)))
                end in findRole id) s).
  { intros n. destruct n, description_; [by eapply ro_renamed..|apply ro_nothing]. }
  destruct name_ as [n|]; [|apply Hend]. apply wp_quiet; [unfold ret; quietly| |intros; apply ro_nothing]. intros a _. apply Hend.
Qed.

Lemma deleteRole_outcome role s : wp (ending s) (deleteRole number role) s.
Proof.
  unfold deleteRole. apply wp_role; [apply ro_nothing|]. intros id r Hr. apply wp_guard. intros Hsys. apply wp_read. apply wp_guard.
  intros Huse. apply wp_attempt; [|intros; apply ro_nothing]. intros s'. unfold delete_role. rewrite Huse. intros [= <-].
  apply (ro_gone s _ id r); try done. apply Nat.ltb_ge in Huse. lia.
Qed.

Lemma replaceRolePermissions_outcome role keys s : wp (ending s) (replaceRolePermissions same_text number role keys) s.
Proof.
  unfold replaceRolePermissions. apply wp_role; [apply ro_nothing|]. intros id r Hr. apply wp_read. do 2 (apply wp_guard; intros _).
  apply wp_quiet; [unfold ret, findPermissionKeysByRoleId; quietly| |intros; apply ro_nothing]. intros [] Hkeys.
  apply wp_attempt; [|intros; apply ro_nothing]. intros s'. unfold replace_for_role. destruct (_ || _); [|done]. intros [= <-].
  unfold new_Date. apply (ro_granted s _ id r (remove_dups keys) (clock s)); try done. intros Hsys Hcode k Hk Hpre.
  rewrite Hsys, bool_decide_true in Hkeys by done. cbn [andb] in Hkeys. unfold findPermissionKeysByRoleId in Hkeys.
  rewrite run_read in Hkeys. destruct (existsb _ _) eqn:Hex; [done|]. apply not_true_iff_false in Hex.
  destruct (decide (k ∈ remove_dups keys)) as [|Hno]; [done|]. destruct Hex. apply existsb_exists. exists k.
  split; [by apply list_elem_of_In|]. by rewrite Hpre, bool_decide_false.
Qed.

Lemma role_step_outcome s s' : role_step s s' -> role_outcome s s'.
Proof.
  destruct 1; [apply createRole_outcome|apply updateRole_outcome|apply deleteRole_outcome|apply replaceRolePermissions_outcome].
Qed.
End laws.
#[export] Hint Resolve resolve_quiet can_manage_quiet not_last_dfsp_quiet not_last_admin_quiet check_scope_quiet : quiet.
