(* ===== verification/Governance.v ===== *)
(** * What the administration of users keeps

    The theorems on Users.v: every user fits the scope of a role, an administrator remains,
    managers of one fsp stay within it; and where that ends: ids in other digits, two commands
    at once, and roles without their permissions. *)

From S2P Require Import Prelude Interleave Accounts Sessions Users.

Section governance.
  Context {credentials : Credentials} (same_text : jsstr -> jsstr -> bool) (number : jsstr -> option Z).
  Context (same_refl : forall t, same_text t t = true) (same_sym : forall t u, same_text t u = same_text u t).
  Notation admin_step := (admin_step same_text number).
  Notation user_step := (user_step same_text number).

(** ** Every user fits a role *)

Record well_formed (s : Db) : Prop := {
  wf_role : forall id u, users s !! id = Some u -> exists r, roles s !! roleId u = Some r /\ scope_fits r (fspId u);
  wf_mail : forall i j u v, users s !! i = Some u -> users s !! j = Some v -> same_text (email u) (email v) = true -> i = j }.

Lemma wf_known s : well_formed s -> roles_known s.
Proof. intros [Hr _] id u Hu. destruct (Hr id u Hu) as (r & -> & _). by eexists. Qed.

(** Users change in ways their roles do not see. *)
Lemma wf_frame s s' : well_formed s ->
  (forall id u', users s' !! id = Some u' -> exists u, users s !! id = Some u /\ email u' = email u /\ fspId u' = fspId u /\ roleId u' = roleId u) ->
  (forall id u r, users s !! id = Some u -> roles s !! roleId u = Some r -> exists r', roles s' !! roleId u = Some r' /\ scope r' = scope r) ->
  well_formed s'.
Proof.
  intros [Hr Hm] Hu Hs. split.
  - intros id u' Hu'. destruct (Hu id u' Hu') as (u & Hid & _ & -> & ->). destruct (Hr id u Hid) as (r & Hro & Hf).
    destruct (Hs id u r Hid Hro) as (r' & Hr' & Hsc). exists r'. split; [done|]. unfold scope_fits in *. by rewrite Hsc.
  - intros i j u' v' Hi Hj. destruct (Hu i u' Hi) as (u & Hi' & -> & _), (Hu j v' Hj) as (v & Hj' & -> & _). by apply Hm.
Qed.

Lemma wf_user acting target s s' : well_formed s -> outcome same_text number acting target s s' -> well_formed s'.
Proof.
  intros Hw Ho. destruct Ho as [Hus (Hro & _)|c id u r u' r' Hc Hid Hu Hr Hr' Hm Hfit Hfsp Hself Hlast Hmail Hus (Hro & _)
    |c id u r Hc Hnone Hr Ha Hfit Hfsp Hfree Hus (Hro & _)].
  - apply (wf_frame s); [done| |]; [intros id u'; rewrite Hus; by eauto 6|intros id u r; rewrite Hro; by eauto].
  - destruct Hw as [Hwr Hwm]. split.
    + intros j v. rewrite Hus, Hro. intros [[<- <-]|[Hne Hj]]%lookup_insert_Some; [|by apply (Hwr j)].
      exists r'. split; [done|]. destruct Hfit as [[Hsame ->]|[_ Hfit]]; [|done]. destruct (Hwr id u Hu) as (r2 & Hr2 & Hf). congruence.
    + assert (Hback : forall j v, users s' !! j = Some v -> exists w, users s !! j = Some w /\ email v = email w).
      { intros j v. rewrite Hus. intros [[<- <-]|[Hne Hj]]%lookup_insert_Some; by eauto. }
      intros i j v w Hi Hj. destruct (Hback i v Hi) as (v0 & Hi0 & ->), (Hback j w Hj) as (w0 & Hj0 & ->). by apply Hwm.
  - destruct Hw as [Hwr Hwm].
    assert (Hno : forall j v, users s !! j = Some v -> same_text (email v) (email u) = false).
    { intros j v Hj. exact (find_row_None _ _ j v Hfree Hj). }
    split.
    + intros j v. rewrite Hus, Hro. intros [[<- <-]|[Hne Hj]]%lookup_insert_Some; [by exists r|by apply (Hwr j)].
    + intros i j v w. rewrite Hus.
      intros [[<- <-]|[Hne Hi]]%lookup_insert_Some [[<- <-]|[Hne' Hj]]%lookup_insert_Some; [done|..].
      * rewrite same_sym, (Hno j w Hj). done.
      * rewrite (Hno i v Hi). done.
      * by apply Hwm.
Qed.

Lemma wf_roles s s' : well_formed s -> role_outcome same_text s s' -> well_formed s'.
Proof.
  intros Hw Ho.
  assert (Hsame : users s' = users s -> forall id u', users s' !! id = Some u' -> exists u, users s !! id = Some u /\ email u' = email u /\ fspId u' = fspId u /\ roleId u' = roleId u).
  { intros Hus id u'. rewrite Hus. by eauto 6. }
  destruct Ho as [Hro _ Hus _|id r Hnone _ _ Hro _ Hus _|id p Hro _ Hus _|id r Hr _ Hcount Hro _ Hus _|id r keys now Hr Hro _ _ Hus _].
  - apply (wf_frame s); [done|by apply Hsame|]. intros j u r0 Hj Hr0. rewrite Hro. by eauto.
  - apply (wf_frame s); [done|by apply Hsame|]. intros j u r0 Hj Hr0. rewrite Hro, lookup_insert_ne by congruence. by eauto.
  - apply (wf_frame s); [done|by apply Hsame|]. intros j u r0 Hj Hr0. rewrite Hro.
    destruct (decide (roleId u = id)) as [E|Hne]; [|rewrite lookup_alter_ne by done; by eauto].
    rewrite E in Hr0 |- *. rewrite lookup_alter_eq, Hr0. by eexists.
  - apply (wf_frame s); [done|by apply Hsame|]. intros j u r0 Hj Hr0.
    assert (roleId u <> id).
    { intros E. pose proof (proj1 (count_rows_0 _ _) Hcount j u Hj) as Hf. cbn in Hf. by apply Z.eqb_neq in Hf. }
    rewrite Hro, lookup_delete_ne by done. by eauto.
  - apply (wf_frame s); [done| |intros j u r0 Hj Hr0; rewrite Hro; by eauto]. intros j u'. rewrite Hus, lookup_fmap.
    destruct (users s !! j) as [v|] eqn:E; [|done]. cbn. intros [= <-]. exists v. split; [done|]. by destruct (_ =? _).
Qed.

(** C31. Whatever commands are made one after the other: every user has a role that exists, a user of
    a hub role no fsp and of a DFSP role an fsp, and no two users one mail address. *)
Theorem users_well_formed (s s' : Db) : well_formed s -> rtc (admin_step (fun _ => True)) s s' -> well_formed s'.
Proof.
  intros Hw Hrun. induction Hrun as [s|s s1 s2 [(acting & target & _ & Hs)|[Hs|[(Hr & _) Hs]]] _ IH]; [done|apply IH..].
  - eapply wf_user; [done|]. eapply user_step_outcome; [by apply wf_known|done].
  - eapply wf_roles; [done|]. by eapply role_step_outcome.
  - apply (wf_frame s); [done| |intros id u r _; rewrite Hr; by eauto]. intros id u' Hu'. specialize (Hs id). rewrite Hu' in Hs.
    destruct (users s !! id) as [u|]; [|done]. destruct Hs as (H1 & H2 & H3 & _). by exists u.
Qed.

(** ** An administrator remains *)

(** An active user of the administrators' role, which may manage users. *)
Definition administrator (s : Db) (id : Z) (u : User) (r : Role) : Prop :=
  users s !! id = Some u /\ isActive u = true /\ roles s !! roleId u = Some r /\ code r = ADMIN_ROLE_CODE /\
  ADMIN_USERS_MANAGE ∈ permission_keys s (roleId u).
Record governed (s : Db) : Prop := {
  gv_known : roles_known s;
  gv_system : forall i r, roles s !! i = Some r -> code r = ADMIN_ROLE_CODE -> isSystem r = true /\ scope r = HUB;
  gv_admin : exists id u r, administrator s id u r }.

(** The id a request names in the digits the portal uses. *)
Definition canonical (target : jsstr) : Prop := forall id, number target = Some id -> target = bigint_text id.

Lemma permission_keys_frame s s' role : permissions s' = permissions s -> role_permissions s' !! role = role_permissions s !! role ->
  permission_keys s' role = permission_keys s role.
Proof. unfold permission_keys. by intros -> ->. Qed.

Lemma governed_frame s s' : governed s ->
  (forall id u', users s' !! id = Some u' -> (exists u, users s !! id = Some u /\ roleId u' = roleId u) \/ is_Some (roles s' !! roleId u')) ->
  (forall id u r, administrator s id u r -> exists id u r, administrator s' id u r) ->
  (forall i r', roles s' !! i = Some r' -> code r' = ADMIN_ROLE_CODE -> exists r, roles s !! i = Some r /\ code r = code r' /\ isSystem r = isSystem r' /\ scope r = scope r') ->
  (forall id u, users s !! id = Some u -> is_Some (roles s !! roleId u) -> is_Some (roles s' !! roleId u)) ->
  governed s'.
Proof.
  intros [Hk Hs (id & u & r & Ha)] Hu Hadm Hro Hkeep. split; [| |by eapply Hadm].
  - intros j u' Hj. destruct (Hu j u' Hj) as [(v & Hv & ->)|]; [|done]. apply (Hkeep j v Hv), (Hk j v Hv).
  - intros i r' Hi Hc. destruct (Hro i r' Hi Hc) as (r0 & Hi0 & Ec & <- & <-). apply (Hs i r0 Hi0). by rewrite Ec.
Qed.

(** The acting user of a command that changes an administrator is another one. *)
Lemma manager_of_admin s acting c u r :
  governed s -> context_of acting s c -> roles s !! roleId u = Some r -> code r = ADMIN_ROLE_CODE -> canManageTargetRole c u (Some r) = Some true ->
  administrator s acting (actor c) (actorRole c).
Proof.
  intros [_ Hs _] [Hact Hactive Hrole Hglobal _ _] Hr Hcode Hm. destruct (Hs _ r Hr Hcode) as [_ Hscope].
  destruct (globalManager c) eqn:Hg.
  - unfold canManageTargetRole in Hm. rewrite Hg in Hm. unfold str_eqb in Hm. rewrite (bool_decide_true (code r = ADMIN_ROLE_CODE)) in Hm by done.
    cbn in Hm. injection Hm as Hm%bool_decide_eq_true. symmetry in Hglobal. apply bool_decide_eq_true in Hglobal. done.
  - destruct (managed_fsp c u r Hm Hg) as [_ Hd]. congruence.
Qed.

Lemma governed_user acting target s s' : canonical target -> governed s -> outcome same_text number acting target s s' -> governed s'.
Proof.
  intros Hcan Hg Ho. pose proof Hg as [Hk Hsys _].
  destruct Ho as [Hus (Hro & Hp & Hrp)|c id u r u' r' Hc Hid Hu Hr Hr' Hm Hfit Hfsp Hself Hlast Hmail Hus (Hro & Hp & Hrp)
    |c id u r Hc Hnone Hr Ha Hfit Hfsp Hfree Hus (Hro & Hp & Hrp)];
    (assert (Hkeys : forall x, permission_keys s' x = permission_keys s x) by (intros x; apply permission_keys_frame; congruence));
    (apply (governed_frame s); [done| | |intros i r0; rewrite Hro; by eauto 6|intros j v _; by rewrite Hro]).
  - intros j v. rewrite Hus. by eauto.
  - intros j v r0 (H1 & H2 & H3 & H4 & H5). exists j, v, r0. unfold administrator. by rewrite Hus, Hro, Hkeys.
  - intros j v. rewrite Hus, Hro. intros [[<- <-]|[_ Hj]]%lookup_insert_Some; [right; by eexists|left; by eauto].
  - intros j v r0 (H1 & H2 & H3 & H4 & H5). destruct (decide (j = id)) as [->|Hne].
    + assert (v = u) as -> by congruence. assert (r0 = r) as -> by congruence.
      pose proof (manager_of_admin s acting c u r Hg Hc Hr H4 Hm) as (A1 & A2 & A3 & A4 & A5).
      destruct (decide (id = acting)) as [->|Hother].
      * destruct Hself as [Hno|[Hrole Hactive]]; [destruct Hno; by apply Hcan|]. exists acting, u', r. unfold administrator.
        rewrite Hus, Hro, Hkeys, lookup_insert_eq, Hrole. auto.
      * exists acting, (actor c), (actorRole c). unfold administrator. by rewrite Hus, Hro, Hkeys, lookup_insert_ne.
    + exists j, v, r0. unfold administrator. by rewrite Hus, Hro, Hkeys, lookup_insert_ne.
  - intros j v. rewrite Hus, Hro. intros [[<- <-]|[_ Hj]]%lookup_insert_Some; [right; by eexists|left; by eauto].
  - intros j v r0 (H1 & H2 & H3 & H4 & H5). exists j, v, r0. unfold administrator. rewrite Hus, Hro, Hkeys, lookup_insert_ne by congruence. done.
Qed.

(** The keys of a role after a replacement by [keys]. *)
Lemma granted_keys s s' id keys k :
  permissions s' = permissions s -> role_permissions s' = <[id := map fst (findByKeyNames same_text keys s)]> (role_permissions s) ->
  k ∈ permission_keys s id -> k ∈ keys -> k ∈ permission_keys s' id.
Proof.
  intros Hp Hrp Hold Hk. unfold permission_keys in *. rewrite Hrp, Hp, lookup_insert_eq. cbn [default].
  apply list_elem_of_omap in Hold as (p & _ & Hp'). destruct (permissions s !! p) as [perm|] eqn:Hperm; [|done]. injection Hp' as <-.
  apply list_elem_of_omap. exists p. rewrite Hperm. split; [|done]. apply list_elem_of_In, in_map_iff. exists (p, perm). split; [done|].
  apply filter_In. split; [apply list_elem_of_In; by apply elem_of_map_to_list|]. apply existsb_exists. exists (keyName perm).
  split; [by apply list_elem_of_In|apply same_refl].
Qed.

Lemma governed_roles s s' : governed s -> role_outcome same_text s s' -> governed s'.
Proof.
  intros Hg Ho. pose proof Hg as [Hk Hsys (a & ua & ra & Ha)].
  assert (Hadm : forall j v r0, administrator s j v r0 -> users s' = users s -> roles s' !! roleId v = Some r0 ->
    permission_keys s' (roleId v) = permission_keys s (roleId v) -> exists j v r0, administrator s' j v r0).
  { intros j v r0 (H1 & H2 & H3 & H4 & H5) Hus Hr Hkeys. exists j, v, r0. unfold administrator. by rewrite Hus, Hr, Hkeys. }
  destruct Ho as [Hro Hrp Hus Hp|id r Hnone Hcode Hns Hro Hrp Hus Hp|id p Hro Hrp Hus Hp|id r Hr Hns Hcount Hro Hrp Hus Hp
    |id r keys now Hr Hro Hrp Hkeys Hus Hp]; (apply (governed_frame s); [done|..]).
  - intros j v. rewrite Hus. by eauto.
  - intros j v r0 Hj. apply (Hadm j v r0 Hj Hus); [rewrite Hro; apply Hj|apply permission_keys_frame; congruence].
  - intros i r0. rewrite Hro. by eauto 6.
  - intros j v _. by rewrite Hro.
  - intros j v. rewrite Hus. by eauto.
  - intros j v r0 Hj. apply (Hadm j v r0 Hj Hus); [rewrite Hro, lookup_insert_ne; [apply Hj|]|apply permission_keys_frame; congruence].
    intros ->. destruct Hj as (_ & _ & Hj & _). congruence.
  - intros i r'. rewrite Hro. intros [[<- <-]|[_ Hi]]%lookup_insert_Some Hc; [|by eauto 6]. exfalso.
    destruct Ha as (_ & _ & Hra & Hca & _). pose proof (find_row_None _ _ _ ra Hcode Hra) as Hf. cbn in Hf. rewrite Hca, Hc, same_refl in Hf. done.
  - intros j v _ [r0 Hj]. rewrite Hro, lookup_insert_ne by congruence. by eexists.
  - intros j v. rewrite Hus. by eauto.
  - intros j v r0 (H1 & H2 & H3 & H4 & H5). destruct (decide (roleId v = id)) as [E|Hne].
    + exists j, v, (updated_role p r0). unfold administrator. rewrite Hus, Hro, E, lookup_alter_eq, <- E, H3.
      rewrite (permission_keys_frame s s') by congruence. done.
    + apply (Hadm j v r0); [done|done|by rewrite Hro, lookup_alter_ne|apply permission_keys_frame; congruence].
  - intros i r'. rewrite Hro. destruct (decide (i = id)) as [->|Hne].
    + rewrite lookup_alter_eq. destruct (roles s !! id) as [r0|]; [|done]. cbn. intros [= <-] _. by exists r0.
    + rewrite lookup_alter_ne by done. by eauto 6.
  - intros j v _ Hj. rewrite Hro. by apply lookup_alter_is_Some.
  - intros j v. rewrite Hus. by eauto.
  - intros j v r0 Hj. assert (Hne : roleId v <> id).
    { intros E. destruct Hj as (_ & _ & Hj & Hc & _). rewrite E in Hj. destruct (Hsys id r0 Hj Hc) as [Hs _]. congruence. }
    apply (Hadm j v r0); [done|done|rewrite Hro, lookup_delete_ne by done; apply Hj|].
    apply permission_keys_frame; [done|]. by rewrite Hrp, lookup_delete_ne.
  - intros i r'. rewrite Hro. intros [_ Hi]%lookup_delete_Some _. by eauto 6.
  - intros j v Hj [r0 Hr0]. rewrite Hro, lookup_delete_ne; [by eexists|]. intros E.
    pose proof (proj1 (count_rows_0 _ _) Hcount j v Hj) as Hf. cbn in Hf. rewrite E, Z.eqb_refl in Hf. done.
  - intros j u'. rewrite Hus, lookup_fmap. destruct (users s !! j) as [v|] eqn:E; [|done]. cbn. intros [= <-]. left. exists v.
    split; [done|]. by destruct (_ =? _).
  - intros j v r0 (H1 & H2 & H3 & H4 & H5). exists j, (if roleId v =? id then invalidated now v else v), r0. unfold administrator.
    rewrite Hus, Hro, lookup_fmap, H1. assert (Er : roleId (if roleId v =? id then invalidated now v else v) = roleId v) by (by destruct (_ =? _)).
    rewrite Er. split; [done|]. split; [by destruct (_ =? _)|]. split; [done|]. split; [done|].
    destruct (decide (roleId v = id)) as [E|Hne].
    + rewrite E in *. assert (r0 = r) as -> by congruence. apply (granted_keys s s' id keys); [done|done|done|].
      apply Hkeys; [by apply (Hsys id r)|rewrite H4; by left|done|by vm_compute].
    + rewrite (permission_keys_frame s s'); [done|done|]. by rewrite Hrp, lookup_insert_ne.
  - intros i r0. rewrite Hro. by eauto 6.
  - intros j v _. by rewrite Hro.
Qed.

(** C19. Whatever commands are made one after the other, naming users in the digits the portal uses:
    there is an active user of the administrators' role, which may manage users. *)
Theorem administrator_remains (s s' : Db) : governed s -> rtc (admin_step canonical) s s' -> governed s'.
Proof.
  intros Hg Hrun. induction Hrun as [s|s s1 s2 [(acting & target & Ht & Hs)|[Hs|[(Hr & Hp & Hrp) Hs]]] _ IH]; [done|apply IH..].
  - eapply governed_user; [exact Ht|done|]. eapply user_step_outcome; [apply Hg|done].
  - eapply governed_roles; [done|]. by eapply role_step_outcome.
  - apply (governed_frame s); [done| | |intros i r; rewrite Hr; by eauto 6|intros j v _; by rewrite Hr].
    + intros j u' Hj. specialize (Hs j). rewrite Hj in Hs. destruct (users s !! j) as [v|]; [|done]. left. exists v. by split; [|apply Hs].
    + intros j v r0 (H1 & H2 & H3 & H4 & H5). specialize (Hs j). rewrite H1 in Hs. destruct (users s1 !! j) as [v'|] eqn:Hv; [|done].
      destruct Hs as (_ & _ & E1 & E2). exists j, v', r0. unfold administrator. rewrite Hv, Hr, E1, E2.
      rewrite (permission_keys_frame s s1) by congruence. done.
Qed.

(** ** Managers of one fsp *)

(** One who may manage the users of an fsp only: whoever a command of theirs changes or creates has
    a DFSP role and is of that fsp, before and after; everybody else is as before. *)
Theorem fsp_manager_confined (acting : Z) (target : jsstr) (s s' : Db) (c : UserManagementContext) :
  well_formed s -> context_of acting s c -> globalManager c = false -> user_step acting target s s' ->
  forall id, users s' !! id = users s !! id \/
    exists u' r', users s' !! id = Some u' /\ roles s !! roleId u' = Some r' /\ scope r' = DFSP /\ fspId u' = fspId (actor c) /\
      match users s !! id with
      | Some u => exists r, roles s !! roleId u = Some r /\ scope r = DFSP /\ fspId u = fspId (actor c)
      | None => True
      end.
Proof.
  intros Hw Hc Hg Hs id. apply user_step_outcome in Hs; [|by apply wf_known].
  assert (Huniq : forall c', context_of acting s c' -> globalManager c' = false /\ fspId (actor c') = fspId (actor c)).
  { intros c' Hc'. pose proof (cx_actor _ _ _ Hc). pose proof (cx_actor _ _ _ Hc'). assert (E : actor c' = actor c) by congruence.
    rewrite (cx_global _ _ _ Hc'), E, <- (cx_global _ _ _ Hc). done. }
  destruct Hs as [Hus _|c' i u r u' r' Hc' Hid Hu Hr Hr' Hm Hfit Hfsp Hself Hlast Hmail Hus _|c' i u r Hc' Hnone Hr Ha Hfit Hfsp Hfree Hus _].
  - left. by rewrite Hus.
  - destruct (Huniq c' Hc') as [Hg' Ef]. rewrite Hus. destruct (decide (id = i)) as [->|Hne]; [|left; by rewrite lookup_insert_ne].
    right. exists u', r'. rewrite lookup_insert_eq, Hu. destruct (managed_fsp c' u r Hm Hg') as [Hfu Hsc].
    assert (Hman : managementFspId c' = fspId (actor c)) by (rewrite (cx_fsp _ _ _ Hc'), Hg'; done).
    split; [done|]. split; [done|]. split; [|split; [by rewrite (Hfsp Hg')|exists r; split; [done|]; split; [done|]; congruence]].
    destruct Hfit as [[E _]|[Ha _]]; [congruence|]. unfold canAssignRole in Ha. rewrite Hg' in Ha. by destruct (scope r').
  - destruct (Huniq c' Hc') as [Hg' Ef]. rewrite Hus. destruct (decide (id = i)) as [->|Hne]; [|left; by rewrite lookup_insert_ne].
    right. exists u, r. rewrite lookup_insert_eq, Hnone.
    assert (Hman : managementFspId c' = fspId (actor c)) by (rewrite (cx_fsp _ _ _ Hc'), Hg'; done).
    split; [done|]. split; [done|]. split; [|by rewrite (Hfsp Hg')]. unfold canAssignRole in Ha. rewrite Hg' in Ha. by destruct (scope r).
Qed.

(** ** The commands of sessions *)

#[local] Instance sessions_step_preorder : PreOrder sessions_step.
Proof.
  split.
  - intros s. split; [done|]. intros id. by destruct (users s !! id).
  - intros a b c [(H1 & H2 & H3) H4] [(G1 & G2 & G3) G4]. split; [split; [|split]; congruence|]. intros id. specialize (H4 id). specialize (G4 id).
    destruct (users a !! id), (users b !! id), (users c !! id); try done. destruct H4 as (E1 & E2 & E3 & E4), G4 as (F1 & F2 & F3 & F4).
    split; [congruence|]. split; [congruence|]. split; congruence.
Qed.

Lemma standing_set id f s : (forall u, email (f u) = email u /\ fspId (f u) = fspId u /\ roleId (f u) = roleId u /\ isActive (f u) = isActive u) ->
  sessions_step s (set_user id f s).
Proof.
  intros Hf. split; [done|]. intros j. cbn. destruct (decide (j = id)) as [->|Hne].
  - rewrite lookup_alter_eq. destruct (users s !! id); [apply Hf|done].
  - rewrite lookup_alter_ne by done. by destruct (users s !! j).
Qed.
Lemma standing_users s s' : users s' = users s -> same_rest s s' -> sessions_step s s'.
Proof. intros Hus Hr. split; [done|]. intros j. rewrite Hus. by destruct (users s !! j). Qed.

Lemma moves_set id f : (forall u, email (f u) = email u /\ fspId (f u) = fspId u /\ roleId (f u) = roleId u /\ isActive (f u) = isActive u) ->
  moves sessions_step (write (set_user id f) : Prog Db exception unit).
Proof. intros Hf. apply moves_write. intros s. by apply standing_set. Qed.
Lemma moves_tokens f : moves sessions_step (write (with_tokens f) : Prog Db exception unit).
Proof. apply moves_write. intros s. by apply standing_users. Qed.
Lemma moves_next : moves sessions_step nextId.
Proof. split; [|done]. intros s. by apply standing_users. Qed.
Lemma moves_save i t : moves sessions_step (attempt (save_token i t)).
Proof.
  apply moves_attempt; [apply _|]. intros s s'. unfold save_token. destruct (tokens s !! i); [done|]. destruct (findByTokenHash _ s); [done|].
  destruct (users s !! _); [|done]. intros [= <-]. by apply standing_users.
Qed.
Hint Resolve moves_tokens moves_next moves_save : moving.
Hint Extern 1 (moves _ (write (set_user _ _))) => apply moves_set; intros ?; repeat split : moving.

(** The commands of Sessions.v, alone, are steps of sessions. *)
Lemma session_command_step hashRefreshToken settings p s :
  session_command same_text hashRefreshToken settings p -> sessions_step s (fst (run p s)).
Proof.
  intros Hp. apply (moves_run sessions_step).
  destruct Hp; apply moves_bind; try (intros ?; apply moves_done);
    unfold login, refresh, rotate, logout, changePassword, endSessions, handleFailedAttempt, issueRefreshToken, signAccessToken, new_Date, ret, throw,
      markRevoked, revokeFamily, revokeAllForUser; movingly.
Qed.

(** ** The last manager *)

(** The server tells the key of the permission from every other key. *)
Definition catalogue (s : Db) : Prop :=
  forall p perm, permissions s !! p = Some perm -> same_text (keyName perm) ADMIN_USERS_MANAGE = true -> keyName perm = ADMIN_USERS_MANAGE.
Definition managed (s : Db) : Prop := exists id u, users s !! id = Some u /\ may_manage s u.

Lemma others_count s id j u : users s !! j = Some u -> may_manage s u -> j <> id -> others_manage same_text s id.
Proof.
  intros Hj [Ha Hin] Hne H0. pose proof (proj1 (count_rows_0 _ _) H0 j u Hj) as Hf. cbn in Hf. rewrite Ha in Hf.
  rewrite (proj2 (Z.eqb_neq j id) Hne) in Hf. apply list_elem_of_In in Hin.
  assert (Hex : existsb (fun k => same_text k ADMIN_USERS_MANAGE) (permission_keys s (roleId u)) = true) by (apply existsb_exists; by eexists).
  rewrite Hex in Hf. done.
Qed.

Lemma others_exist s id : catalogue s -> others_manage same_text s id -> exists j u, users s !! j = Some u /\ j <> id /\ may_manage s u.
Proof.
  intros Hcat Hc. unfold others_manage, countActiveUsersGrantingPermission, count_rows in Hc.
  destruct (List.filter _ (map_to_list (users s))) as [|[j u] l] eqn:E; [done|].
  assert (Hin : In (j, u) (List.filter (fun e => isActive (snd e) && existsb (fun k => same_text k ADMIN_USERS_MANAGE) (permission_keys s (roleId (snd e))) && negb (fst e =? id)) (map_to_list (users s)))) by (rewrite E; by left).
  apply filter_In in Hin as [Hin Hp]. apply list_elem_of_In, elem_of_map_to_list in Hin. cbn in Hp.
  apply andb_true_iff in Hp as [[Ha Hk]%andb_true_iff Hne%negb_true_iff%Z.eqb_neq]. exists j, u. split; [done|]. split; [done|]. split; [done|].
  apply existsb_exists in Hk as (k & Hk & Hs). assert (k = ADMIN_USERS_MANAGE) as <-; [|by apply list_elem_of_In].
  apply list_elem_of_In, list_elem_of_omap in Hk as (p & _ & Hp). destruct (permissions s !! p) as [perm|] eqn:Hperm; [|done].
  injection Hp as <-. by apply (Hcat p).
Qed.

(** A command on users, run alone, whatever text names the user, leaves an active user who may
    manage users if there was one. *)
Theorem manager_remains (acting : Z) (target : jsstr) (s s' : Db) :
  roles_known s -> catalogue s -> managed s -> user_step acting target s s' -> managed s'.
Proof.
  intros Hk Hcat (j & v & Hj & Hm) Hs. apply user_step_outcome in Hs; [|done].
  destruct Hs as [Hus (_ & Hp & Hrp)|c' i u r u' r' Hc' Hid Hu Hr Hr' Hcan Hfit Hfsp Hself Hlast Hmail Hus (_ & Hp & Hrp)
    |c' i u r Hc' Hnone Hr Ha Hfit Hfsp Hfree Hus (_ & Hp & Hrp)];
    (assert (Hmay : forall w, may_manage s w -> may_manage s' w)
      by (intros w [H1 H2]; split; [done|]; by rewrite (permission_keys_frame s s') by congruence)).
  - exists j, v. rewrite Hus. auto.
  - destruct (decide (j = i)) as [->|Hne]; [|exists j, v; rewrite Hus, lookup_insert_ne by done; auto].
    assert (v = u) as -> by congruence. destruct (Hlast Hm) as [Hm'|Ho]; [exists i, u'; rewrite Hus, lookup_insert_eq; auto|].
    destruct (others_exist s i Hcat Ho) as (k & w & Hk' & Hne & Hw). exists k, w. rewrite Hus, lookup_insert_ne by done. auto.
  - exists j, v. rewrite Hus, lookup_insert_ne by congruence. auto.
Qed.

(** ** Where it ends *)

(** The statements of a deactivation. *)
Definition deactivation (id : Z) : Prog Db exception User :=
  let* _ := write (set_user id deactivated) in
  let* _ := endTokens id in
  let* _ := invalidateTokens id in
  let* refreshed := findUser id in
  match refreshed with Some u => ret u | None => throw TypeError end.

Lemma deactivation_run id u s : users s !! id = Some u ->
  exists s' u', run (deactivation id) s = (s', Ok u') /\ users s' = <[id := invalidated (clock s) (deactivated u)]> (users s) /\ same_rest s s'.
Proof.
  intros Hu. unfold deactivation, endTokens, invalidateTokens, findUser, new_Date. cbn.
  rewrite lookup_alter_eq, lookup_alter_eq, Hu. cbn. eexists _, _. split; [reflexivity|]. cbn. rewrite alter_alter_eq. split; [|done].
  by apply (alter_is_insert (fun u => invalidated (clock s) (deactivated u))).
Qed.

(** A hub user who may manage users, of the administrators' role if [b]. *)
Definition hub_manager (s : Db) (id : Z) (u : User) (r : Role) : Prop :=
  users s !! id = Some u /\ may_manage s u /\ fspId u = None /\ roles s !! roleId u = Some r.

(** The seven calls a deactivation makes before it changes anything. *)
Lemma deactivate_checks a ua ra target b ub rb s :
  hub_manager s a ua ra -> hub_manager s b ub rb -> (code rb = ADMIN_ROLE_CODE -> code ra = ADMIN_ROLE_CODE) ->
  number target = Some b -> target <> bigint_text a -> others_manage same_text s b ->
  advance 7 (deactivateUser same_text number target a) s = (s, deactivation b).
Proof.
  intros (Ha & [Haa Hak] & Haf & Har) (Hb & [Hba Hbk] & Hbf & Hbr) Hcode Hn Hne Ho.
  unfold deactivateUser, resolveManagementContext, findUser, findRole, findPermissionKeysByRoleId, findUserById.
  cbn [bind read ret advance Datatypes.id]. rewrite Ha. cbn [bind read ret advance Datatypes.id]. rewrite Haa. cbn [negb throw_when bind read ret advance Datatypes.id].
  rewrite Har. cbn [bind read ret advance Datatypes.id]. rewrite (bool_decide_true (ADMIN_USERS_MANAGE ∈ permission_keys s (roleId ua))) by done.
  cbn [negb andb throw_when bind read ret advance Datatypes.id]. unfold str_eqb at 1. rewrite bool_decide_false by done.
  cbn [throw_when bind read ret advance Datatypes.id mbind option_bind]. rewrite Hn. cbn [mbind option_bind]. rewrite Hb. cbn [mbind option_bind bind read ret advance Datatypes.id].
  rewrite Hbr. unfold assertCanManageTargetRole, canManageTargetRole. cbn [globalManager actorRole].
  assert (Hok : negb (str_eqb (code rb) ADMIN_ROLE_CODE) || str_eqb (code ra) ADMIN_ROLE_CODE = true).
  { unfold str_eqb. case_bool_decide as E; [|done]. cbn. rewrite bool_decide_true; [done|by apply Hcode]. }
  rewrite Hok. cbn [bind ret]. rewrite Hba. cbn [negb bind read ret advance Datatypes.id].
  rewrite (bool_decide_true (ADMIN_USERS_MANAGE ∈ permission_keys s (roleId ub))) by done. cbn [bind read ret advance Datatypes.id].
  unfold others_manage in Ho. rewrite (proj2 (Nat.eqb_neq _ _) Ho). cbn [throw_when bind ret]. unfold assertNotLastDfspManager. rewrite Hbf. done.
Qed.

(** Two administrators who deactivate each other at once, each counted as the other's remaining
    manager, both succeed: nobody may manage users any more. *)
Theorem mutual_deactivation (a b : Z) ua ub ra rb s :
  hub_manager s a ua ra -> hub_manager s b ub rb -> a <> b -> (code ra = ADMIN_ROLE_CODE <-> code rb = ADMIN_ROLE_CODE) ->
  bigint_text a <> bigint_text b -> number (bigint_text a) = Some a -> number (bigint_text b) = Some b ->
  (forall j v, users s !! j = Some v -> may_manage s v -> j = a \/ j = b) ->
  let '(s1, first) := advance 7 (deactivateUser same_text number (bigint_text b) a) s in
  let '(s2, r2) := run (deactivateUser same_text number (bigint_text a) b) s1 in
  let '(s3, r1) := run first s2 in
  (exists u1 u2, r1 = Ok u1 /\ r2 = Ok u2) /\ ~ managed s3.
Proof.
  intros Ha Hb Hab Hcode Htext Hna Hnb Honly. pose proof Ha as (Hua & Hma & _). pose proof Hb as (Hub & Hmb & _).
  rewrite (deactivate_checks a ua ra (bigint_text b) b ub rb s Ha Hb); [|tauto|done|done|by apply (others_count s b a ua)].
  rewrite <- (run_advance 7 (deactivateUser _ _ _ b)).
  rewrite (deactivate_checks b ub rb (bigint_text a) a ua ra s Hb Ha); [|tauto|done|done|by apply (others_count s a b ub)]. cbn [fst snd].
  destruct (deactivation_run a ua s Hua) as (s2 & u2 & -> & Hus2 & (Hr2 & Hp2 & Hrp2)).
  destruct (deactivation_run b ub s2) as (s3 & u1 & -> & Hus3 & (Hr3 & Hp3 & Hrp3)); [by rewrite Hus2, lookup_insert_ne|].
  split; [by exists u1, u2|]. intros (j & v & Hj & [Hact Hin]). rewrite Hus3, Hus2 in Hj.
  destruct (decide (j = b)) as [->|Hjb]; [rewrite lookup_insert_eq in Hj; by injection Hj as <-|rewrite lookup_insert_ne in Hj by done].
  destruct (decide (j = a)) as [->|Hja]; [rewrite lookup_insert_eq in Hj; by injection Hj as <-|rewrite lookup_insert_ne in Hj by done].
  rewrite (permission_keys_frame s s3) in Hin by congruence. by destruct (Honly j v Hj).
Qed.

(** An administrator who names themselves in other digits passes the check against locking oneself
    out: with another manager, of another role, left, they are deactivated, and nobody of the
    administrators' role is active any more. *)
Theorem self_lock_bypassed (a j : Z) ua uj ra target s :
  hub_manager s a ua ra -> code ra = ADMIN_ROLE_CODE -> users s !! j = Some uj -> may_manage s uj -> j <> a ->
  number target = Some a -> target <> bigint_text a ->
  (forall i v r, administrator s i v r -> i = a) ->
  exists s' u', run (deactivateUser same_text number target a) s = (s', Ok u') /\ ~ exists i v r, administrator s' i v r.
Proof.
  intros Ha Hcode Hj Hm Hne Hn Ht Honly. rewrite <- (run_advance 7).
  rewrite (deactivate_checks a ua ra target a ua ra s Ha Ha); [|done|done|done|by apply (others_count s a j uj)]. cbn [fst snd].
  destruct (deactivation_run a ua s (proj1 Ha)) as (s' & u' & E & Hus & (Hr & Hp & Hrp)). exists s', u'. split; [exact E|].
  intros (i & v & r & H1 & H2 & H3 & H4 & H5). rewrite Hus in H1. destruct (decide (i = a)) as [->|Hia].
  - rewrite lookup_insert_eq in H1. by injection H1 as <-.
  - rewrite lookup_insert_ne in H1 by done. destruct Hia. apply (Honly i v r). unfold administrator.
    rewrite (permission_keys_frame s s') in H5 by congruence. rewrite Hr in H3. done.
Qed.

(** The permissions of a role that is not one of the system may be taken away although all who
    may manage users have it: nobody may any more, and no check refuses it. *)
Theorem managers_stripped (target : jsstr) (id : Z) (r : Role) (s : Db) :
  number target = Some id -> roles s !! id = Some r -> isSystem r = false ->
  (forall j v, users s !! j = Some v -> may_manage s v -> roleId v = id) ->
  exists s', run (replaceRolePermissions same_text number target []) s = (s', Ok []) /\ ~ managed s'.
Proof.
  intros Hn Hr Hsys Honly. unfold replaceRolePermissions, findRoleById. rewrite run_read, Hn. cbn [mbind option_bind]. rewrite Hr. cbn [mbind option_bind].
  rewrite run_read. assert (Hnone : findByKeyNames same_text (remove_dups []) s = []).
  { unfold findByKeyNames. cbn. induction (map_to_list (permissions s)) as [|p l IH]; [done|exact IH]. }
  rewrite Hnone, Hsys. cbn. eexists. split; [reflexivity|]. intros (j & v & Hj & [Hact Hin]). cbn in Hj. rewrite lookup_fmap in Hj.
  destruct (users s !! j) as [u|] eqn:Hu; [|done]. injection Hj as <-.
  assert (Er : roleId (if roleId u =? id then invalidated (clock s) u else u) = roleId u) by (by destruct (_ =? _)). rewrite Er in Hin.
  unfold permission_keys in Hin. cbn in Hin. destruct (decide (roleId u = id)) as [E|Hne]; [rewrite E, lookup_insert_eq in Hin; by apply not_elem_of_nil in Hin|].
  rewrite lookup_insert_ne in Hin by done. destruct Hne. apply (Honly j u Hu). split; [|exact Hin]. by destruct (_ =? _).
Qed.
End governance.

(** ** Examples *)

Module GovernanceExamples.
Definition number (t : jsstr) : option Z :=
  if forallb is_digit t && negb (bool_decide (t = [])) then Some (dec_value t) else None.
Definition person (mail : string) (role : Z) (fsp : option jsstr) : User := newUser (js mail) (js "secret") role fsp false.
Definition admin : Role := mkRole (js "ADMIN") (js "System Administrator") None HUB true.
Definition dfsp_admin : Role := mkRole (js "DFSP_ADMIN") (js "DFSP Administrator") None DFSP true.
Definition dfsp_user : Role := mkRole (js "DFSP_USER") (js "DFSP Operator") None DFSP true.
Definition helpdesk : Role := mkRole (js "HELPDESK") (js "Helpdesk") None HUB false.
Definition db (people : gmap Z User) : Db :=
  mkDb 1000000 100 people {[7 := admin; 8 := dfsp_admin; 9 := dfsp_user; 10 := helpdesk]}
    {[3 := mkPermission (js "admin.users.manage") (OfScope HUB); 4 := mkPermission (js "admin.dfsp-users.manage") (OfScope DFSP)]}
    {[7 := [3; 4]; 8 := [4]; 10 := [3]]} ∅.
Definition people : Db :=
  db {[1 := person "ada@hub" 7 None; 2 := person "bob@hub" 7 None; 5 := person "carl@a" 8 (Some (js "a")); 6 := person "dora@a" 9 (Some (js "a"))]}.
Definition two : Db := db {[1 := person "ada@hub" 7 None; 2 := person "hal@hub" 10 None]}.

Lemma text_refl t : str_eqb t t = true.
Proof. unfold str_eqb. by apply bool_decide_eq_true. Qed.
Lemma text_sym t u : str_eqb t u = str_eqb u t.
Proof. unfold str_eqb. by apply bool_decide_ext. Qed.

(** A property of the users, or of the roles, of an example holds of each. *)
Lemma each {A} (m : gmap Z A) (P : Z -> A -> Prop) : Forall (fun e => P (fst e) (snd e)) (map_to_list m) -> forall i x, m !! i = Some x -> P i x.
Proof. intros H i x Hi. rewrite Forall_forall in H. by apply (H (i, x)), elem_of_map_to_list. Qed.

Lemma people_well_formed : well_formed str_eqb people.
Proof.
  split.
  - apply (each (users people) (fun _ u => exists r, roles people !! roleId u = Some r /\ scope_fits r (fspId u))).
    vm_compute. repeat constructor; eexists; (split; [reflexivity|]); done.
  - intros i j u v Hi Hj. revert i u Hi v Hj.
    assert (H : forall i u, users people !! i = Some u -> forall j v, users people !! j = Some v -> str_eqb (email u) (email v) = true -> i = j).
    { apply (each (users people) (fun i u => forall j v, users people !! j = Some v -> str_eqb (email u) (email v) = true -> i = j)).
      vm_compute (map_to_list _). repeat constructor; cbn [fst snd];
        match goal with |- forall j v, _ -> str_eqb (email ?u) _ = true -> ?i = j =>
          apply (each (users people) (fun j v => str_eqb (email u) (email v) = true -> i = j)); vm_compute; repeat constructor; done end. }
    intros i u Hi v Hj. by apply (H i u Hi j v).
Qed.
Lemma people_governed : governed people.
Proof.
  split.
  - apply (wf_known str_eqb), people_well_formed.
  - apply (each (roles people) (fun _ r => code r = ADMIN_ROLE_CODE -> isSystem r = true /\ scope r = HUB)). vm_compute. repeat constructor; done.
  - exists 1, (person "ada@hub" 7 None), admin. repeat split; try (vm_compute; reflexivity). apply (bool_decide_unpack _). vm_compute. exact I.
Qed.
End GovernanceExamples.

Import GovernanceExamples.

Definition bob_leaves : Db := fst (run (@deactivateUser str_eqb number (js "2") 1) people).

Lemma users_well_formed_witness : well_formed str_eqb bob_leaves /\ (isActive <$> users bob_leaves !! 2) = Some false.
Proof.
  split; [|vm_compute; reflexivity].
  apply (@users_well_formed plain_credentials str_eqb number text_sym people bob_leaves people_well_formed).
  apply rtc_once. left. exists 1, (js "2"). split; [done|]. apply us_deactivate.
Defined.

Lemma administrator_remains_witness : governed bob_leaves /\ (isActive <$> users bob_leaves !! 2) = Some false.
Proof.
  split; [|vm_compute; reflexivity].
  apply (@administrator_remains plain_credentials str_eqb number text_refl people bob_leaves people_governed).
  apply rtc_once. left. exists 1, (js "2"). split; [|apply us_deactivate]. intros id Hid. vm_compute in Hid. injection Hid as <-. vm_compute. reflexivity.
Defined.

Lemma fsp_manager_confined_witness :
  let s' := fst (run (@deactivateUser str_eqb number (js "6") 5) people) in
  (isActive <$> users s' !! 6) = Some false /\ users s' !! 1 = users people !! 1.
Proof.
  intros s'. split; [vm_compute; reflexivity|].
  destruct (@fsp_manager_confined plain_credentials str_eqb number 5 (js "6") people s'
    (mkContext (person "carl@a" 8 (Some (js "a"))) dfsp_admin [js "admin.dfsp-users.manage"] false true (Some (js "a")))) with (id := 1) as [H|H].
  - exact people_well_formed.
  - split; try (vm_compute; reflexivity); done.
  - reflexivity.
  - apply us_deactivate.
  - exact H.
  - destruct H as (u' & r' & _ & _ & _ & _ & r & Hr & Hs & _). vm_compute in Hr. injection Hr as <-. discriminate Hs.
Defined.

Lemma people_catalogue x : catalogue str_eqb (db x).
Proof. intros p perm _ H. unfold str_eqb in H. by apply bool_decide_eq_true in H. Qed.

Lemma manager_remains_witness : managed bob_leaves.
Proof.
  apply (@manager_remains plain_credentials str_eqb number 1 (js "2") people bob_leaves).
  - apply people_governed.
  - apply people_catalogue.
  - exists 1, (person "ada@hub" 7 None). split; [vm_compute; reflexivity|]. split; [reflexivity|]. apply (bool_decide_unpack _). vm_compute. exact I.
  - apply us_deactivate.
Defined.

Lemma ada_manages x : hub_manager (db (<[1 := person "ada@hub" 7 None]> x)) 1 (person "ada@hub" 7 None) admin.
Proof.
  split; [apply lookup_insert_eq|]. split; [split; [reflexivity|]|split; reflexivity]. apply (bool_decide_unpack _). vm_compute. exact I.
Qed.

Definition both : Db := db {[1 := person "ada@hub" 7 None; 2 := person "bob@hub" 7 None]}.
Lemma only_two (P : Z -> User -> Prop) (x y : User) : P 1 x -> P 2 y -> forall j v, ({[1 := x; 2 := y]} : gmap Z User) !! j = Some v -> P j v.
Proof. intros H1 H2 j v. intros [[<- <-]|[_ [<- <-]%lookup_singleton_Some]]%lookup_insert_Some; done. Qed.

Lemma mutual_deactivation_witness :
  let '(s1, first) := advance 7 (@deactivateUser str_eqb number (js "2") 1) both in
  let '(s2, r2) := run (@deactivateUser str_eqb number (js "1") 2) s1 in
  let '(s3, r1) := run first s2 in
  (exists u1 u2, r1 = Ok u1 /\ r2 = Ok u2) /\ ~ managed s3.
Proof.
  apply (@mutual_deactivation str_eqb number text_refl 1 2 (person "ada@hub" 7 None) (person "bob@hub" 7 None) admin admin both).
  - apply ada_manages.
  - split; [reflexivity|]. split; [split; [reflexivity|]|split; reflexivity]. apply (bool_decide_unpack _). vm_compute. exact I.
  - done.
  - done.
  - by vm_compute.
  - by vm_compute.
  - by vm_compute.
  - intros j v Hj _. revert j v Hj. refine (only_two (fun j _ => j = 1 \/ j = 2) _ _ _ _); [by left|by right].
Defined.

Lemma self_lock_bypassed_witness :
  exists s' u', run (@deactivateUser str_eqb number (js "01") 1) two = (s', Ok u') /\ ~ exists i v r, administrator s' i v r.
Proof.
  apply (@self_lock_bypassed str_eqb number text_refl 1 2 (person "ada@hub" 7 None) (person "hal@hub" 10 None) admin (js "01") two).
  - apply ada_manages.
  - reflexivity.
  - reflexivity.
  - split; [reflexivity|]. apply (bool_decide_unpack _). vm_compute. exact I.
  - done.
  - by vm_compute.
  - by vm_compute.
  - intros i v r (Hi & _ & Hr & Hc & _). revert i v Hi Hr.
    refine (only_two (fun i v => roles two !! roleId v = Some r -> i = 1) _ _ _ _); [done|].
    intros Hr. vm_compute in Hr. injection Hr as <-. vm_compute in Hc. discriminate Hc.
Defined.

Lemma managers_stripped_witness :
  let s := db {[2 := person "hal@hub" 10 None]} in
  managed s /\ exists s', run (@replaceRolePermissions str_eqb number (js "10") []) s = (s', Ok []) /\ ~ managed s'.
Proof.
  intros s. split.
  - exists 2, (person "hal@hub" 10 None). split; [reflexivity|]. split; [reflexivity|]. apply (bool_decide_unpack _). vm_compute. exact I.
  - apply (@managers_stripped str_eqb number (js "10") 10 helpdesk s); [by vm_compute|reflexivity|reflexivity|].
    intros j v Hj _. cbn in Hj. apply lookup_singleton_Some in Hj as [_ <-]. reflexivity.
Defined.
