(* ===== verification/Outside.v ===== *)
(** * Calls to services that are machines of their own

    A world has a part, the outside, that is the state of the services it calls: a call may
    answer anything and change that part. The driver of a database answers each statement
    with its fate. *)

From S2P Require Import Prelude Interleave.
#[local] Open Scope prog_scope.

(** What becomes of a statement: it works, is refused, or its answer is lost. *)
Inductive fate : Set := Works | Refused | Lost.

Section outside.
  Context {S W E : Type} (get : S -> W) (put : W -> S -> S) (driver : W -> W * fate) (failure : E).
  Notation Cmd := (Prog S E).

(** A call to a machine outside. *)
Definition outer_of {A} (f : W -> W * result E A) : Cmd A :=
  Call (fun s => put (fst (f (get s))) s) (fun s => Done (snd (f (get s)))).
(** A query and a statement, with what the driver makes of them. *)
Definition query_of {A} (f : S -> A) : Cmd A :=
  Call (fun s => put (fst (driver (get s))) s)
    (fun s => match snd (driver (get s)) with Works => ret (f s) | _ => throw failure end).
Definition statement_of (f : S -> result E S) : Cmd unit :=
  Call (fun s => let s' := put (fst (driver (get s))) s in
          match snd (driver (get s)), f s' with Works, Ok s2 | Lost, Ok s2 => s2 | _, _ => s' end)
    (fun s => match snd (driver (get s)), f (put (fst (driver (get s))) s) with Works, Ok _ => ret tt | _, _ => throw failure end).

Lemma run_outer {A B} (f : W -> W * result E A) (q : A -> Cmd B) s :
  run (bind (outer_of f) q) s =
  match snd (f (get s)) with Ok a => run (q a) (put (fst (f (get s))) s) | Err e => (put (fst (f (get s))) s, Err e) end.
Proof. cbn. by destruct (snd (f (get s))). Qed.
Lemma run_query {A B} (f : S -> A) (q : A -> Cmd B) s :
  run (bind (query_of f) q) s =
  match snd (driver (get s)) with
  | Works => run (q (f s)) (put (fst (driver (get s))) s)
  | _ => (put (fst (driver (get s))) s, Err failure)
  end.
Proof. cbn. by destruct (snd (driver (get s))). Qed.

Section keeping.
  Context (I : S -> Prop) (HI : forall w s, I s -> I (put w s)).

Lemma keeps_outer_of {A} (f : W -> W * result E A) : keeps I (fun _ => True) (outer_of f).
Proof. apply keeps_call. intros s Hs. split; [by apply HI|apply keeps_done]. Qed.
Lemma keeps_query_of {A} (f : S -> A) (P : A -> Prop) : (forall s, I s -> P (f s)) -> keeps I P (query_of f).
Proof.
  intros Hf. apply keeps_call. intros s Hs. split; [by apply HI|].
  destruct (snd (driver (get s))); [apply keeps_ret; by apply Hf|apply keeps_throw..].
Qed.
Lemma keeps_statement_of f : (forall s s', I s -> f s = Ok s' -> I s') -> keeps I (fun _ => True) (statement_of f).
Proof.
  intros Hf. apply keeps_call. intros s Hs. set (s1 := put _ s). assert (H1 : I s1) by (by apply HI).
  cbn zeta. destruct (f s1) as [s2|e] eqn:E2.
  - apply Hf in E2; [|done]. split; destruct (snd _); done || by apply keeps_ret || apply keeps_throw.
  - split; destruct (snd _); done || apply keeps_throw.
Qed.
End keeping.
End outside.
