(* ===== verification/Tenants.v ===== *)
(** * Signing tenants

    core/participant/domain and core/trust/domain/component: the table participant_key with
    the commands that write it, the publication of keys to the Connection Manager (MCM), the
    sweep, the announcements, the sync of the peers' keys. MCM, the driver of the database,
    the message bus and the custody of private keys are machines of their own: [outside] is
    their state, and a call to one of them may answer anything. Ids of fsps are compared
    verbatim, by the collation of their column. Timers, the lock of the sweeps (Rollup.v) and
    logging are not modelled. *)

From S2P Require Import Prelude Interleave Outside Wire.
#[local] Open Scope prog_scope.

(** ** Rows *)

Inductive ParticipantKeyRole : Set := Self | Peer.
#[global] Instance ParticipantKeyRole_eq : EqDecision ParticipantKeyRole.
Proof. solve_decision. Defined.

Record ParticipantKey : Set := mkParticipantKey {
  role : ParticipantKeyRole; jwsPublicKey : option jsstr; jwsPrivateKey : option jsstr; jwsSignEnabled : bool;
  jwsSignActivatedAt : option Z; jwsVerifyMode : jsstr }.

(** The columns of [Participant] the commands write. *)
Record Participant : Set := mkParticipant { name : jsstr; accessPublicKey : jsstr }.

(** [PermanentPublishError]; [McmException] with the status MCM answered with, when it
    answered; the code of a [PivotalException]; what the driver and other clients throw. *)
Inductive exception : Set :=
  | PermanentPublishError | McmException (code : jsstr) (status : option Z) | PivotalException (code : jsstr) | Failure.

Definition has_text (t : option jsstr) : bool := match t with Some t => (0 <? length (trim t))%nat | None => false end.

(** ** The Connection Manager *)

Record McmDfsp : Set := mkMcmDfsp { listed_id : option jsstr; listed_dfspId : option jsstr }.
Record JwsCert : Set := mkJwsCert { dfspId : option jsstr; publicKey : option jsstr }.

Inductive request : Set :=
  | ListDfsps | CreateDfsp (dfsp : jsstr) | GetJwsKey (dfsp : jsstr) | PublishJwsKey (dfsp key : jsstr) | ListAllJwsKeys.
Definition answer (r : request) : Set :=
  match r with
  | ListDfsps => list McmDfsp | CreateDfsp _ | PublishJwsKey _ _ => unit | GetJwsKey _ => JwsCert | ListAllJwsKeys => list JwsCert
  end.
Definition exchange : Set := { r : request & result exception (answer r) }.

(** ** The world *)

(** The clock in milliseconds; participants by id; [participant_key] by fsp, as the write
    connection and as the replica see it; the registrar's [known]; the exchanges with MCM,
    newest first; the fsps announced. *)
Record World {W : Type} : Type := mkWorld {
  clock : Z; participants : gmap Z Participant; keys : gmap jsstr ParticipantKey; replica : gmap jsstr ParticipantKey;
  known : gset jsstr; exchanges : list exchange; announced : list jsstr; outside : W }.
Arguments World : clear implicits. Arguments mkWorld {W}.

(** A generated key: its public half, and the private one only where the database holds it. *)
Record Provisioned : Set := mkProvisioned { publicKeyPem : jsstr; legacyPrivateKeyPem : option jsstr }.
Class JwsKeyProvisioner (W : Type) : Type := {
  assertReady : jsstr -> W -> W * result exception unit;
  provision : jsstr -> W -> W * result exception (option Provisioned) }.

(** What surrounds the service: MCM, the driver, the message bus, the ledger's facade, the
    comparison of texts by the server; whether the registrar is enabled and whether an
    announcer is injected. *)
Class Surroundings (W : Type) : Type := {
  send : forall r : request, W -> W * result exception (answer r);
  driver : W -> W * fate;
  bus : jsstr -> W -> W * bool;
  ledger : jsstr -> list jsstr -> jsstr -> W -> W * result exception unit;
  same_text : jsstr -> jsstr -> bool;
  registration : bool;
  announcing : bool }.

Section tenants.
  Context {W : Type} {surroundings : Surroundings W} {provisioner : JwsKeyProvisioner W}.
  Notation World := (World W).
  Notation Cmd := (Prog World exception).

Definition with_outside (w : W) (s : World) : World :=
  mkWorld (clock s) (participants s) (keys s) (replica s) (known s) (exchanges s) (announced s) w.
Definition with_keys (f : gmap jsstr ParticipantKey -> gmap jsstr ParticipantKey) (s : World) : World :=
  mkWorld (clock s) (participants s) (f (keys s)) (replica s) (known s) (exchanges s) (announced s) (outside s).
Definition with_participants (f : gmap Z Participant -> gmap Z Participant) (s : World) : World :=
  mkWorld (clock s) (f (participants s)) (keys s) (replica s) (known s) (exchanges s) (announced s) (outside s).
Definition remember (ids : list jsstr) (s : World) : World :=
  mkWorld (clock s) (participants s) (keys s) (replica s) (list_to_set ids ∪ known s) (exchanges s) (announced s) (outside s).
Definition logged (x : exchange) (s : World) : World :=
  mkWorld (clock s) (participants s) (keys s) (replica s) (known s) (x :: exchanges s) (announced s) (outside s).
Definition announce (fsp : jsstr) (s : World) : World :=
  mkWorld (clock s) (participants s) (keys s) (replica s) (known s) (exchanges s) (announced s ++ [fsp]) (outside s).

Notation query := (query_of outside with_outside driver Failure).
Notation statement := (statement_of outside with_outside driver Failure).
Notation outer := (outer_of outside with_outside).

(** A request to MCM. *)
Definition mcm (r : request) : Cmd (answer r) :=
  Call (fun s => logged (existT r (snd (send r (outside s)))) (with_outside (fst (send r (outside s))) s))
    (fun s => Done (snd (send r (outside s)))).

(** ** ParticipantKeyRepository *)

Definition findByFspId (fsp : jsstr) : Cmd (option ParticipantKey) := query (fun s => keys s !! fsp).
Definition findByFspIdRead (fsp : jsstr) : Cmd (option ParticipantKey) := query (fun s => replica s !! fsp).
Definition findAll : Cmd (list (jsstr * ParticipantKey)) := query (fun s => map_to_list (keys s)).
(** [save], as one step: of a row that was read, every column is what the object holds; a new one
    is inserted. TypeORM reads the row again and updates the columns that differ, which leaves
    the same row unless another writer comes between the two. *)
Definition save (fsp : jsstr) (row : ParticipantKey) : Cmd unit := statement (fun s => Ok (with_keys <[fsp := row]> s)).
Definition insertKey (fsp : jsstr) (row : ParticipantKey) : Cmd unit :=
  statement (fun s => match keys s !! fsp with Some _ => Err Failure | None => Ok (with_keys <[fsp := row]> s) end).
Definition saveEntity (fsp : jsstr) (existing : option ParticipantKey) (row : ParticipantKey) : Cmd unit :=
  match existing with Some _ => save fsp row | None => insertKey fsp row end.

(** ** McmDfspRegistrar *)

Inductive Outcome : Set := Disabled | Present | Created.

(** [exists] *)
Definition listed (dfsps : list McmDfsp) : list jsstr :=
  List.filter (fun d => (0 <? length d)%nat)
    (omap (fun d => match listed_id d with Some i => Some i | None => listed_dfspId d end) dfsps).
Definition registered (fsp : jsstr) : Cmd bool :=
  let* dfsps := mcm ListDfsps in
  let* _ := write (remember (listed dfsps)) in
  read (fun s => bool_decide (fsp ∈ known s)).

Definition ensureRegistered (fsp : jsstr) : Cmd Outcome :=
  if negb registration then ret Disabled
  else
    let* confirmed := read (fun s => bool_decide (fsp ∈ known s)) in
    if confirmed : bool then ret Present
    else
      let* there := registered fsp in
      if there : bool then ret Present
      else
        let* created := catch (let* _ := mcm (CreateDfsp fsp) in ret true)
          (fun error => let* there := registered fsp in if there : bool then ret false else throw error) in
        if created : bool then let* _ := write (remember [fsp]) in ret Created else ret Present.

(** ** JwsKeyPublishScheduler *)

Definition samePem (left right : jsstr) : bool :=
  str_eqb (List.filter (fun c => negb (is_ws c)) left) (List.filter (fun c => negb (is_ws c)) right).

Definition publishAndVerifyJwsKey (fsp key : jsstr) : Cmd unit :=
  let* _ := mcm (PublishJwsKey fsp key) in
  let* stored := mcm (GetJwsKey fsp) in
  if bool_decide (publicKey stored = Some key) then ret tt else throw (McmException (js "MCM_JWS_KEY_MISMATCH") None).

(** The key of a row Pivotal signs with. *)
Definition own_key (row : ParticipantKey) : option jsstr := match role row with Self => jwsPublicKey row | Peer => None end.

Definition publish (fsp : jsstr) : Cmd unit :=
  let* found := findByFspId fsp in
  match found ≫= own_key with
  | None => throw PermanentPublishError
  | Some key => publishAndVerifyJwsKey fsp key
  end.

(** What MCM is found to hold: another key, this one, or none and is given it. *)
Inductive Confirmation : Set := Diverged | AlreadyCorrect | Published.
#[global] Instance Confirmation_eq : EqDecision Confirmation.
Proof. solve_decision. Defined.
Definition confirm (fsp key : jsstr) : Cmd Confirmation :=
  let* _ := ensureRegistered fsp in
  let* stored := catch (let* cert := mcm (GetJwsKey fsp) in ret (publicKey cert)) (fun _ => ret None) in
  match stored with
  | Some storedKey =>
      if has_text (Some storedKey)
      then ret (if samePem storedKey key then AlreadyCorrect else Diverged)
      else let* _ := publishAndVerifyJwsKey fsp key in ret Published
  | None => let* _ := publishAndVerifyJwsKey fsp key in ret Published
  end.

Definition activated (now : Z) (row : ParticipantKey) : ParticipantKey :=
  mkParticipantKey (role row) (jwsPublicKey row) (jwsPrivateKey row) true (Some (db_second now)) (jwsVerifyMode row).
Definition activate (fsp : jsstr) (row : ParticipantKey) : Cmd bool :=
  match jwsSignActivatedAt row with
  | Some _ => ret false
  | None =>
      let* now := read clock in
      let* _ := save fsp (activated now row) in
      ret (negb (jwsSignEnabled row))
  end.

Definition publishAndEnable (fsp : jsstr) : Cmd bool :=
  let* found := findByFspId fsp in
  match found, found ≫= own_key with
  | Some row, Some key =>
      let* confirmation := confirm fsp key in
      match confirmation with Diverged => throw PermanentPublishError | _ => activate fsp row end
  | _, _ => throw PermanentPublishError
  end.

(** [Result] *)
Record Result : Set := mkResult { tenants : Z; published : Z; alreadyCorrect : Z; switched_on : Z; diverged : Z; failed : Z }.
Definition confirmed_as (c : Confirmation) (r : Result) : Result :=
  match c with
  | Diverged => mkResult (tenants r) (published r) (alreadyCorrect r) (switched_on r) (diverged r + 1) (failed r)
  | AlreadyCorrect => mkResult (tenants r) (published r) (alreadyCorrect r + 1) (switched_on r) (diverged r) (failed r)
  | Published => mkResult (tenants r) (published r + 1) (alreadyCorrect r) (switched_on r) (diverged r) (failed r)
  end.
Definition plus_activated (on : bool) (r : Result) : Result :=
  mkResult (tenants r) (published r) (alreadyCorrect r) (switched_on r + Z.b2z on) (diverged r) (failed r).
Definition plus_failed (r : Result) : Result :=
  mkResult (tenants r) (published r) (alreadyCorrect r) (switched_on r) (diverged r) (failed r + 1).

(** The [try] of one tenant. *)
Definition reconcile_tenant (fsp : jsstr) (row : ParticipantKey) (key : jsstr) (r : Result) : Cmd Result :=
  let* confirmation := catch (let* c := confirm fsp key in ret (Some c)) (fun _ => ret None) in
  match confirmation with
  | None => ret (plus_failed r)
  | Some Diverged => ret (confirmed_as Diverged r)
  | Some c =>
      catch (let* on := activate fsp row in ret (plus_activated on (confirmed_as c r)))
        (fun _ => ret (plus_failed (confirmed_as c r)))
  end.
Fixpoint reconcile_all (rows : list (jsstr * ParticipantKey)) (r : Result) : Cmd Result :=
  match rows with
  | [] => ret r
  | (fsp, row) :: rows =>
      let* r := match own_key row with Some key => reconcile_tenant fsp row key r | None => ret r end in
      reconcile_all rows r
  end.
Definition signs (e : jsstr * ParticipantKey) : bool := match own_key (snd e) with Some _ => true | None => false end.
Definition reconcile : Cmd Result :=
  let* rows := findAll in
  let rows := List.filter signs rows in
  reconcile_all rows (mkResult (Z.of_nat (length rows)) 0 0 0 0 0).

(** ** Commands on keys *)

Definition off_mode : jsstr := mode_value Off.
Definition fresh_key (r : ParticipantKeyRole) (public private : option jsstr) : ParticipantKey :=
  mkParticipantKey r public private false None off_mode.

(** [AddSigningKeysHandler]; an object that was read keeps the column it does not assign. *)
Record AddSigningKeysInput : Set := mkAddSigningKeysInput { fsp_name : jsstr; public_key : jsstr; private_key : option jsstr }.
Definition signing_keys_row (input : AddSigningKeysInput) (existing : option ParticipantKey) : ParticipantKey :=
  match existing with
  | Some row =>
      mkParticipantKey (role row) (Some (public_key input)) (private_key input) (jwsSignEnabled row) (jwsSignActivatedAt row) (jwsVerifyMode row)
  | None => fresh_key (if has_text (private_key input) then Self else Peer) (Some (public_key input)) (private_key input)
  end.
Definition addSigningKeys (input : AddSigningKeysInput) : Cmd unit :=
  let* existing := findByFspId (fsp_name input) in
  saveEntity (fsp_name input) existing (signing_keys_row input existing).

(** [UpdateJwsPolicyHandler] *)
Record UpdateJwsPolicyInput : Set := mkUpdateJwsPolicyInput { policy_fsp : jsstr; sign : option bool; verify : option FspiopVerifyMode }.
Definition policy_row (now : Z) (input : UpdateJwsPolicyInput) (row : ParticipantKey) : ParticipantKey :=
  let enabled := default (jwsSignEnabled row) (sign input) in
  let mode := match verify input with Some m => mode_value m | None => jwsVerifyMode row end in
  let activatedAt := match jwsSignActivatedAt row with
                     | Some t => Some t
                     | None => if enabled then Some (db_second now) else None
                     end in
  mkParticipantKey (role row) (jwsPublicKey row) (jwsPrivateKey row) enabled activatedAt mode.
Definition updateJwsPolicy (input : UpdateJwsPolicyInput) : Cmd (jsstr * bool * FspiopVerifyMode) :=
  let fsp := trim (policy_fsp input) in
  let* found := findByFspId fsp in
  match found with
  | None => throw (PivotalException (js "PARTICIPANT_KEY_NOT_FOUND"))
  | Some row =>
      let enabling := bool_decide (sign input = Some true) in
      let* _ := throw_when (enabling && bool_decide (role row <> Self)) (PivotalException (js "PARTICIPANT_NOT_SIGNING_TENANT")) in
      let* _ := throw_when (enabling && negb (has_text (jwsPublicKey row))) (PivotalException (js "PARTICIPANT_KEY_MISSING")) in
      let* now := read clock in
      let saved := policy_row now input row in
      let* _ := save fsp saved in
      ret (fsp, jwsSignEnabled saved, parse (Some (jwsVerifyMode saved)) Off)
  end.

(** [GetJwsPolicyHandler] *)
Definition getJwsPolicy (fsp : jsstr) : Cmd (ParticipantKeyRole * bool * bool * jsstr) :=
  let* found := if (length (trim fsp) =? 0)%nat then ret None else findByFspId (trim fsp) in
  match found with
  | None => throw (PivotalException (js "PARTICIPANT_KEY_NOT_FOUND"))
  | Some row => ret (role row, has_text (jwsPublicKey row), jwsSignEnabled row, jwsVerifyMode row)
  end.

(** ** Onboarding *)

(** [SigningTenantPublisher.publish] never throws; the bus may not take the message. *)
Definition announceTenant (fsp : jsstr) : Cmd unit :=
  Call (fun s => let s' := with_outside (fst (bus fsp (outside s))) s in if snd (bus fsp (outside s)) then announce fsp s' else s') (fun _ => ret tt).

Definition provisioned_row (p : Provisioned) (existing : option ParticipantKey) : ParticipantKey :=
  mkParticipantKey Self (Some (publicKeyPem p)) (legacyPrivateKeyPem p) false None
    (match existing with Some row => jwsVerifyMode row | None => off_mode end).
Definition holds_key (existing : option ParticipantKey) : bool :=
  match existing with Some row => has_text (jwsPublicKey row) | None => false end.
Definition provisionSigningKey (fsp : jsstr) : Cmd unit :=
  let* existing := findByFspId fsp in
  if holds_key existing then ret tt
  else
    let* provisioned := outer (provision fsp) in
    match provisioned with
    | None => ret tt
    | Some p =>
        let* _ := saveEntity fsp existing (provisioned_row p existing) in
        if announcing then announceTenant fsp else ret tt
    end.

(** ParticipantRepository; the server compares names. *)
Definition findByName (n : jsstr) : Cmd (option (Z * Participant)) :=
  query (fun s => List.find (fun e => same_text (name (snd e)) n) (map_to_list (participants s))).
Definition saveParticipant (at_ : option Z) (p : Participant) : Cmd unit :=
  statement (fun s =>
    match at_ with
    | Some i => Ok (with_participants <[i := p]> s)
    | None =>
        if existsb (fun e => same_text (name (snd e)) (name p)) (map_to_list (participants s)) then Err Failure
        else Ok (with_participants <[fresh (dom (participants s)) := p]> s)
    end).

(** [OnboardFspHandler] *)
Record OnboardFspInput : Set := mkOnboardFspInput {
  onboard_name : jsstr; currencies : list jsstr; endpoint : jsstr; access_key : jsstr }.
Definition onboardFsp (input : OnboardFspInput) : Cmd unit :=
  let fsp := onboard_name input in
  let* existingKey := findByFspId fsp in
  let* _ := if holds_key existingKey then ret tt else outer (assertReady fsp) in
  let* _ := outer (ledger fsp (currencies input) (endpoint input)) in
  let* existing := findByName fsp in
  let* _ := saveParticipant (fst <$> existing) (mkParticipant fsp (access_key input)) in
  provisionSigningKey fsp.

(** [UpdateAccessKeyHandler]; [readable] tells whether a text is a PEM public key. *)
Definition updateAccessKey (readable : jsstr -> bool) (n key : jsstr) : Cmd unit :=
  let n := trim n in
  let key := trim key in
  let* _ := throw_when (str_eqb (toLowerCase n) (js "hub")) (PivotalException (js "PARTICIPANT_ACCESS_KEY_UPDATE_FORBIDDEN")) in
  let* _ := throw_when (length key =? 0)%nat (PivotalException (js "INVALID_ACCESS_PUBLIC_KEY")) in
  let* _ := throw_when (negb (readable key)) (PivotalException (js "INVALID_ACCESS_PUBLIC_KEY")) in
  let* found := findByName n in
  match found with
  | None => throw (PivotalException (js "PARTICIPANT_NOT_FOUND"))
  | Some (i, p) => saveParticipant (Some i) (mkParticipant (name p) key)
  end.

(** ** PeerJwsSyncScheduler *)

Record SyncResult : Set := mkSyncResult { total : Z; created : Z; updated : Z; unchanged : Z; skippedSelf : Z }.
Definition plus_created (r : SyncResult) := mkSyncResult (total r) (created r + 1) (updated r) (unchanged r) (skippedSelf r).
Definition plus_updated (r : SyncResult) := mkSyncResult (total r) (created r) (updated r + 1) (unchanged r) (skippedSelf r).
Definition plus_unchanged (r : SyncResult) := mkSyncResult (total r) (created r) (updated r) (unchanged r + 1) (skippedSelf r).
Definition plus_skipped (r : SyncResult) := mkSyncResult (total r) (created r) (updated r) (unchanged r) (skippedSelf r + 1).

Definition with_public (key : jsstr) (row : ParticipantKey) : ParticipantKey :=
  mkParticipantKey (role row) (Some key) (jwsPrivateKey row) (jwsSignEnabled row) (jwsSignActivatedAt row) (jwsVerifyMode row).
Definition sync_entry (fsp key : jsstr) (r : SyncResult) : Cmd SyncResult :=
  let* existing := findByFspIdRead fsp in
  match existing with
  | None => let* _ := insertKey fsp (fresh_key Peer (Some key) None) in ret (plus_created r)
  | Some row =>
      if bool_decide (role row = Self) then ret (plus_skipped r)
      else if bool_decide (jwsPublicKey row = Some key) then ret (plus_unchanged r)
      else let* _ := save fsp (with_public key row) in ret (plus_updated r)
  end.
(** The fsp and the key of an entry that has both. *)
Definition usable (entry : JwsCert) : option (jsstr * jsstr) :=
  fsp ← dfspId entry; key ← publicKey entry; if has_text (Some fsp) then Some (fsp, key) else None.
Fixpoint sync_all (entries : list JwsCert) (r : SyncResult) : Cmd SyncResult :=
  match entries with
  | [] => ret r
  | entry :: entries =>
      let* r := match usable entry with Some (fsp, key) => sync_entry fsp key r | None => ret r end in
      sync_all entries r
  end.
Definition sync : Cmd SyncResult :=
  let* entries := mcm ListAllJwsKeys in
  sync_all entries (mkSyncResult (Z.of_nat (length entries)) 0 0 0 0).

(** ** SigningTenantConsumer *)

Definition BASE_BACKOFF_MS : Z := 5000.
Definition MAX_BACKOFF_MS : Z := 5 * 60000.
Definition backoffMs (redeliveryCount : Z) : Z :=
  let exponent := Z.max 0 (redeliveryCount - 1) in
  Z.min (BASE_BACKOFF_MS * 2 ^ Z.min exponent 20) MAX_BACKOFF_MS.
Definition isPermanent (e : exception) : bool :=
  match e with
  | PermanentPublishError => true
  | McmException _ (Some status) => (400 <=? status) && (status <? 500) && negb (status =? 408) && negb (status =? 429)
  | _ => false
  end.

(** What a delivery is answered with. *)
Inductive verdict : Set := Ack | Term | Nak (delayMs : Z).
(** The body of the loop of [consume], on the [fspId] of the message, if it has one. *)
Definition consume (message : option jsstr) (redeliveryCount : Z) : Cmd verdict :=
  match trim <$> message with
  | None | Some [] => ret Term
  | Some fsp =>
      catch (let* _ := publishAndEnable fsp in ret Ack)
        (fun e => ret (if isPermanent e then Term else Nak (backoffMs redeliveryCount)))
  end.
End tenants.

(** ** Two Connection Managers *)

(** One that keeps a key per fsp, lists those that are not blank and answers every request. *)
Definition Registry : Type := gmap jsstr jsstr.
Definition registry_send (r : request) : Registry -> Registry * result exception (answer r) :=
  match r with
  | ListDfsps => fun w => (w, Ok [])
  | CreateDfsp _ => fun w => (w, Ok tt)
  | GetJwsKey fsp => fun w => (w, Ok (mkJwsCert (Some fsp) (w !! fsp)))
  | PublishJwsKey fsp key => fun w => (<[fsp := key]> w, Ok tt)
  | ListAllJwsKeys => fun w =>
      (w, Ok (List.filter (fun c => has_text (publicKey c)) ((fun e => mkJwsCert (Some (fst e)) (Some (snd e))) <$> map_to_list w)))
  end.
#[global] Instance registry : Surroundings Registry := {|
  send := registry_send; driver := fun w => (w, Works); bus := fun _ w => (w, true); ledger := fun _ _ _ w => (w, Ok tt);
  same_text := str_eqb; registration := true; announcing := true |}.
#[global] Instance registry_keys : JwsKeyProvisioner Registry := {|
  assertReady := fun _ w => (w, Ok tt); provision := fun fsp w => (w, Ok (Some (mkProvisioned (js "key of " ++ fsp) None))) |}.
(** The same one behind a connection: as many requests fail as there are outages left. *)
Record Link : Type := mkLink { held : Registry; outages : nat }.
Definition link_send (r : request) (w : Link) : Link * result exception (answer r) :=
  match outages w with
  | O => let '(m, a) := registry_send r (held w) in (mkLink m 0, a)
  | S n => (mkLink (held w) n, Err (McmException (js "MCM_REQUEST_FAILED") None))
  end.
#[global] Instance link : Surroundings Link := {|
  send := link_send; driver := fun w => (w, Works); bus := fun _ w => (w, true); ledger := fun _ _ _ w => (w, Ok tt);
  same_text := str_eqb; registration := false; announcing := true |}.

(** A table with a tenant that waits for its key, a peer, and a tenant that is suspended. *)
Definition acme : jsstr := js "acme".
Definition waiting : ParticipantKey := mkParticipantKey Self (Some (js "PEM A")) None false None (js "off").
Definition verified : ParticipantKey := mkParticipantKey Peer (Some (js "PEM B")) None false None (js "require").
Definition suspended : ParticipantKey := mkParticipantKey Self (Some (js "PEM C")) None false (Some 1000) (js "off").
Definition start {W} (w : W) : World W :=
  let rows := <[acme := waiting]> (<[js "bank" := verified]> {[js "cash" := suspended]}) in
  mkWorld 1700000000000 ∅ rows rows ∅ [] [] w.
