(* ===== verification/Rows.v ===== *)
(** * What commands do to the rows of signing tenants

    The commands of Tenants.v but for onboarding and the registration of keys, once for every
    property of rows: [RowInvariant] says what the property has to bear, and each command then
    keeps it, however it is interleaved. *)

From S2P Require Import Prelude Interleave Outside Wire Tenants.
#[local] Open Scope prog_scope.

Section rows.
  Context {W : Type} {surroundings : Surroundings W}.
  Notation World := (World W).
  Notation Cmd := (Prog World exception).

(** An invariant of the world: what a lookup of the table finds, what the replica shows, which
    rows may be saved, which keys of peers are listed. *)
Class RowInvariant (I : World -> Prop) (found : jsstr -> option ParticipantKey -> Prop) (seen good : jsstr -> ParticipantKey -> Prop)
    (brought : jsstr -> jsstr -> Prop) : Prop := {
  ri_rest : forall s s', keys s' = keys s -> replica s' = replica s -> outside s' = outside s -> I s -> I s';
  ri_driver : forall s, I s -> I (with_outside (fst (driver (outside s))) s);
  ri_send : forall r s, I s -> I (with_outside (fst (send r (outside s))) s);
  ri_bus : forall fsp s, I s -> I (with_outside (fst (bus fsp (outside s))) s);
  ri_found : forall s fsp, I s -> found fsp (keys s !! fsp);
  ri_good : forall fsp row, found fsp (Some row) -> good fsp row;
  ri_seen : forall s fsp row, I s -> replica s !! fsp = Some row -> seen fsp row;
  ri_save : forall s fsp row, good fsp row -> I s -> I (with_keys <[fsp := row]> s);
  ri_fresh : forall s fsp key, keys s !! fsp = None -> I s -> I (with_keys <[fsp := fresh_key Peer (Some key) None]> s);
  ri_activated : forall fsp now row key, own_key row = Some key -> good fsp row -> good fsp (activated now row);
  ri_policy : forall fsp now input row, (sign input = Some true -> role row = Self /\ has_text (jwsPublicKey row) = true) ->
    good fsp row -> good fsp (policy_row now input row);
  ri_synced : forall fsp key row, brought fsp key -> seen fsp row -> role row <> Self -> good fsp (with_public key row) }.

Section kept.
  Context (I : World -> Prop) (found : jsstr -> option ParticipantKey -> Prop) (seen good : jsstr -> ParticipantKey -> Prop)
    (brought : jsstr -> jsstr -> Prop) {invariant : RowInvariant I found seen good brought}.

(** *** Statements and queries *)

Lemma keeps_find_rows {A} (f : World -> A) (P : A -> Prop) : (forall s, I s -> P (f s)) -> keeps I P (query_of outside with_outside driver Failure f).
Proof.
  intros Hf. apply keeps_call. intros s HI. split; [by apply ri_driver|]. destruct (snd (driver (outside s))); [apply keeps_ret; by apply Hf|apply keeps_throw..].
Qed.
Lemma keeps_store (f : World -> result exception World) : (forall s s', I s -> f s = Ok s' -> I s') ->
  keeps I (fun _ => True) (statement_of outside with_outside driver Failure f).
Proof.
  intros Hf. apply keeps_call. intros s HI. set (s1 := with_outside _ s). assert (H1 : I s1) by (by apply ri_driver). cbn zeta.
  destruct (f s1) as [s2|e] eqn:E2; [apply Hf in E2; [|done]|]; (split; destruct (snd _); done || by apply keeps_ret || apply keeps_throw).
Qed.
Lemma keeps_findByFspId fsp : keeps I (found fsp) (findByFspId fsp).
Proof. apply keeps_find_rows. intros s HI. by apply ri_found. Qed.
Lemma keeps_findByFspIdRead fsp : keeps I (fun o => forall row, o = Some row -> seen fsp row) (findByFspIdRead fsp).
Proof. apply keeps_find_rows. intros s HI row. by apply ri_seen. Qed.
Lemma keeps_findAll : keeps I (Forall (fun e => good (fst e) (snd e))) findAll.
Proof.
  apply keeps_find_rows. intros s HI. apply Forall_forall. intros [fsp row] Hin%elem_of_map_to_list. cbn. apply ri_good. pose proof (ri_found s fsp HI) as H. by rewrite Hin in H.
Qed.
Lemma keeps_save fsp row : good fsp row -> keeps I (fun _ => True) (save fsp row).
Proof. intros Hg. apply keeps_store. intros s s' HI [= <-]. by apply ri_save. Qed.
Lemma keeps_fresh fsp key : keeps I (fun _ => True) (insertKey fsp (fresh_key Peer (Some key) None)).
Proof. apply keeps_store. intros s s' HI. destruct (keys s !! fsp) eqn:E; [done|]. intros [= <-]. by apply ri_fresh. Qed.
Lemma keeps_mcm r : keeps I (fun a => exists w, snd (send r w) = Ok a) (mcm r).
Proof.
  apply keeps_call. intros s HI. split; [by apply (ri_rest (with_outside (fst (send r (outside s))) s)); [..|apply ri_send]|].
  destruct (snd (send r (outside s))) eqn:E; [|apply keeps_throw]. apply keeps_ret. by exists (outside s).
Qed.
Lemma keeps_remember ids : keeps I (fun _ => True) (write (remember ids) : Cmd unit).
Proof. apply keeps_write. intros s. by apply ri_rest. Qed.
Lemma keeps_any {A} (f : World -> A) : keeps I (fun _ => True) (read f : Cmd A).
Proof. by apply keeps_read. Qed.
#[local] Hint Resolve keeps_mcm keeps_findByFspId keeps_findByFspIdRead keeps_findAll keeps_save keeps_fresh keeps_remember keeps_any : keeping.

(** *** Calls that reach no row *)

Lemma keeps_registered fsp : keeps I (fun _ => True) (registered fsp).
Proof. unfold registered. keeping. Qed.
#[local] Hint Resolve keeps_registered : keeping.
Lemma keeps_ensureRegistered fsp : keeps I (fun _ => True) (ensureRegistered fsp).
Proof.
  unfold ensureRegistered. destruct (negb registration); [keeping|].
  do 2 (eapply keeps_bind; [eauto with keeping|intros [] _; [by apply keeps_ret|]]).
  eapply keeps_bind; [|intros [] _; keeping; done]. apply keeps_catch; [keeping|intros e]; keeping; done.
Qed.
#[local] Hint Resolve keeps_ensureRegistered : keeping.
Lemma keeps_publishAndVerify fsp key : keeps I (fun _ => True) (publishAndVerifyJwsKey fsp key).
Proof. unfold publishAndVerifyJwsKey. keeping. Qed.
#[local] Hint Resolve keeps_publishAndVerify : keeping.
Lemma keeps_confirm fsp key : keeps I (fun _ => True) (confirm fsp key).
Proof.
  unfold confirm. eapply keeps_bind; [eauto with keeping|intros ? _]. eapply keeps_bind; [apply (keeps_catch _ (fun _ => True)); [keeping|intros e]; keeping; done|].
  intros stored _. keeping; done.
Qed.
#[local] Hint Resolve keeps_confirm : keeping.
Lemma keeps_publish fsp : keeps I (fun _ => True) (publish fsp).
Proof. unfold publish. keeping. Qed.
Lemma keeps_announce fsp : keeps I (fun _ => True) (announceTenant fsp).
Proof.
  apply keeps_call. intros s HI. split; [|by apply keeps_ret]. pose proof (ri_bus fsp s HI) as Hb. cbn zeta. destruct (snd (bus _ _)); [|done].
  by apply (ri_rest (with_outside (fst (bus fsp (outside s))) s)).
Qed.
Lemma keeps_findByName n : keeps I (fun _ => True) (findByName n).
Proof. by apply keeps_find_rows. Qed.
Lemma keeps_saveParticipant at_ q : keeps I (fun _ => True) (saveParticipant at_ q).
Proof.
  apply keeps_store. intros s s' HI. destruct at_ as [i|]; [intros [= <-]; by apply (ri_rest s)|].
  destruct (existsb _ _); [done|]. intros [= <-]. by apply (ri_rest s).
Qed.
#[local] Hint Resolve keeps_findByName keeps_saveParticipant : keeping.
Lemma keeps_updateAccessKey readable n key : keeps I (fun _ => True) (updateAccessKey readable n key).
Proof. unfold updateAccessKey. keeping. Qed.

(** *** Calls that save a row *)

Lemma keeps_activate fsp row key : own_key row = Some key -> good fsp row -> keeps I (fun _ => True) (activate fsp row).
Proof.
  intros Hk Hg. assert (Hs : forall now, good fsp (activated now row)) by (intros now; by eapply ri_activated). unfold activate. keeping.
Qed.
Lemma keeps_publishAndEnable fsp : keeps I (fun _ => True) (publishAndEnable fsp).
Proof.
  unfold publishAndEnable. eapply keeps_bind; [apply keeps_findByFspId|]. intros [row|] Hrow; [|apply keeps_throw]. cbn.
  destruct (own_key row) as [key|] eqn:Hk; [|apply keeps_throw]. keeping; (eapply keeps_activate; [done|by apply ri_good]).
Qed.
Lemma keeps_reconcile_tenant fsp row key r : own_key row = Some key -> good fsp row -> keeps I (fun _ => True) (reconcile_tenant fsp row key r).
Proof.
  intros Hk Hg. unfold reconcile_tenant. eapply keeps_bind; [apply (keeps_catch _ (fun _ => True)); [keeping; done|intros e; by apply keeps_ret]|].
  intros c _. destruct c as [[]|]; try (by apply keeps_ret); (apply keeps_catch; [|intros e; by apply keeps_ret]);
    (eapply keeps_bind; [by eapply keeps_activate|intros on _; by apply keeps_ret]).
Qed.
Lemma keeps_reconcile_all rows r : Forall (fun e => good (fst e) (snd e)) rows -> keeps I (fun _ => True) (reconcile_all rows r).
Proof.
  intros Hall. revert r. induction Hall as [|[fsp row] rows Hg _ IH]; intros r; [by apply keeps_ret|]. cbn.
  eapply (keeps_bind _ (fun _ => True)); [|by intros]. destruct (own_key row) eqn:Hk; [by eapply keeps_reconcile_tenant|by apply keeps_ret].
Qed.
Lemma keeps_reconcile : keeps I (fun _ => True) reconcile.
Proof.
  eapply keeps_bind; [apply keeps_findAll|]. intros rows Hall. apply keeps_reconcile_all. apply Forall_forall. intros e He.
  apply list_elem_of_In, List.filter_In in He as [He%list_elem_of_In _]. rewrite Forall_forall in Hall. by apply Hall.
Qed.
Lemma keeps_updateJwsPolicy input : keeps I (fun _ => True) (updateJwsPolicy input).
Proof.
  unfold updateJwsPolicy. eapply keeps_bind; [apply keeps_findByFspId|]. intros [row|] Hrow; [|apply keeps_throw].
  eapply keeps_bind; [apply keeps_throw_when|cbn beta; intros _ H1]. eapply keeps_bind; [apply keeps_throw_when|cbn beta; intros _ H2].
  assert (Hs : forall now, good (trim (policy_fsp input)) (policy_row now input row)); [|keeping]. intros now. apply ri_policy; [|by apply ri_good].
  intros Hs. rewrite bool_decide_true in H1, H2 by done. cbn in H1, H2. split; [|by apply negb_false_iff].
  apply bool_decide_eq_false, dec_stable in H1. done.
Qed.
Lemma keeps_sync_entry fsp key r : brought fsp key -> keeps I (fun _ => True) (sync_entry fsp key r).
Proof.
  intros Hf. unfold sync_entry. eapply keeps_bind; [apply keeps_findByFspIdRead|]. intros [row|] Hrow.
  - case_bool_decide; [by apply keeps_ret|]. case_bool_decide; [by apply keeps_ret|].
    assert (Hg : good fsp (with_public key row)) by (apply ri_synced; auto). keeping.
  - keeping.
Qed.
(** What MCM lists. *)
Definition mcm_brings : Prop := forall w certs, snd (send ListAllJwsKeys w) = Ok certs ->
  Forall (fun c => forall fsp key, usable c = Some (fsp, key) -> brought fsp key) certs.
Lemma keeps_sync : mcm_brings -> keeps I (fun _ => True) sync.
Proof.
  intros Hm. unfold sync. eapply keeps_bind; [apply keeps_mcm|]. intros certs [w Hw]. apply Hm in Hw. generalize (mkSyncResult (Z.of_nat (length certs)) 0 0 0 0).
  induction Hw as [|c certs Hc _ IH]; intros r; [by apply keeps_ret|]. cbn. eapply (keeps_bind _ (fun _ => True)); [|by intros].
  destruct (usable c) as [[fsp key]|] eqn:Hu; [apply keeps_sync_entry; by apply Hc|by apply keeps_ret].
Qed.
Lemma keeps_consume message n : keeps I (fun _ => True) (consume message n).
Proof.
  unfold consume. destruct (trim <$> message) as [[|c fsp]|]; try by apply keeps_ret. pose proof (keeps_publishAndEnable (c :: fsp)). keeping.
Qed.
End kept.
End rows.
