(* ===== verification/Trust.v ===== *)
(** * What the publication of keys keeps

    The theorems on Tenants.v: which rows may sign, under any interleaving of the commands;
    what one publication does; that the sweep brings every tenant to its key; and where that
    ends: a failed read, objects saved after they changed, rows without a key. *)

From S2P Require Import Prelude Interleave Outside Wire Tenants Rows.
#[local] Open Scope prog_scope.

Section trust.
  Context {W : Type} {surroundings : Surroundings W} {provisioner : JwsKeyProvisioner W}.
  Notation World := (World W).
  Notation Cmd := (Prog World exception).

(** ** Every command *)

Inductive command : Type :=
  | Onboard (input : OnboardFspInput) | AddKeys (input : AddSigningKeysInput) | SetPolicy (input : UpdateJwsPolicyInput)
  | SetAccessKey (readable : jsstr -> bool) (n key : jsstr) | Rotate (fsp : jsstr) | Sweep | SyncPeers
  | Announced (message : option jsstr) (redeliveryCount : Z).
Definition perform (c : command) : Cmd unit :=
  match c with
  | Onboard input => onboardFsp input
  | AddKeys input => addSigningKeys input
  | SetPolicy input => let* _ := updateJwsPolicy input in ret tt
  | SetAccessKey readable n key => updateAccessKey readable n key
  | Rotate fsp => publish fsp
  | Sweep => let* _ := reconcile in ret tt
  | SyncPeers => let* _ := sync in ret tt
  | Announced message n => let* _ := consume message n in ret tt
  end.
(** Between the calls time passes, the replica catches up or lags behind, MCM is used by
    others, processes restart. *)
Definition drift (s s' : World) : Prop := keys s' = keys s /\ (replica s' = replica s \/ replica s' = keys s).

(** ** Which rows may sign *)

(** A row that signs is a tenant's, was activated, and has a public key. *)
Definition sound (row : ParticipantKey) : Prop :=
  jwsSignEnabled row = true -> role row = Self /\ is_Some (jwsSignActivatedAt row) /\ is_Some (jwsPublicKey row).

Section rows.
  (** The roles of some fsps. *)
  Context (cast : jsstr -> option ParticipantKeyRole).

Definition good (fsp : jsstr) (row : ParticipantKey) : Prop :=
  sound row /\ forall r, cast fsp = Some r -> role row = r /\ has_text (jwsPublicKey row) = true.
Record steady (s : World) : Prop := {
  st_keys : forall fsp row, keys s !! fsp = Some row -> good fsp row;
  st_replica : forall fsp row, replica s !! fsp = Some row -> good fsp row;
  st_there : forall fsp, is_Some (cast fsp) -> is_Some (keys s !! fsp) }.

(** A row found in a table, and what no row means. *)
Definition good_row (fsp : jsstr) (o : option ParticipantKey) : Prop := forall row, o = Some row -> good fsp row.
Definition good_found (fsp : jsstr) (o : option ParticipantKey) : Prop := good_row fsp o /\ (o = None -> cast fsp = None).

Lemma steady_frame s s' : keys s' = keys s -> replica s' = replica s -> steady s -> steady s'.
Proof. intros Hk Hr [H1 H2 H3]. split; rewrite ?Hk, ?Hr; done. Qed.
Lemma steady_drift s s' : drift s s' -> steady s -> steady s'.
Proof. intros [Hk [Hr|Hr]] [H1 H2 H3]; split; rewrite ?Hk, ?Hr; done. Qed.
Lemma steady_save s fsp row : good fsp row -> steady s -> steady (with_keys <[fsp := row]> s).
Proof.
  intros Hg [H1 H2 H3]. split; cbn.
  - intros f r [[<- <-]|[_ H]]%lookup_insert_Some; [done|by apply H1].
  - done.
  - intros f Hf. apply lookup_insert_is_Some'. right. by apply H3.
Qed.

Lemma steady_outside w s : steady s -> steady (with_outside w s).
Proof. by apply steady_frame. Qed.
Definition keeps_outer {A} f := keeps_outer_of (E := exception) (A := A) outside with_outside steady steady_outside f.

(** A key that some fsp must not lose is not blank. *)
Definition full (fsp key : jsstr) : Prop := is_Some (cast fsp) -> has_text (Some key) = true.
Lemma good_signing_keys input row : full (fsp_name input) (public_key input) -> good (fsp_name input) row ->
  good (fsp_name input) (signing_keys_row input (Some row)).
Proof.
  intros Hf [Hs Hc]. split; [|intros r Hr; split; [by apply Hc|apply Hf; by eexists]]. intros He. destruct (Hs He) as (H1 & H2 & _). cbn. by eauto.
Qed.
Lemma good_policy fsp now input row :
  (sign input = Some true -> role row = Self /\ has_text (jwsPublicKey row) = true) -> good fsp row -> good fsp (policy_row now input row).
Proof.
  intros Hi [Hs Hc]. split; [|done]. intros He. cbn in He |- *. rewrite He. unfold has_text in Hi.
  assert (role row = Self /\ is_Some (jwsPublicKey row)) as [H1 H2].
  { destruct (sign input) as [[]|]; cbn in He; [|done|].
    - destruct (Hi eq_refl) as [H1 H2]. split; [done|]. by destruct (jwsPublicKey row).
    - destruct (Hs He) as (H1 & _ & H2). done. }
  split; [done|]. split; [|done]. by destruct (jwsSignActivatedAt row).
Qed.
Lemma own_key_role row key : own_key row = Some key -> role row = Self /\ jwsPublicKey row = Some key.
Proof. unfold own_key. by destruct (role row). Qed.

#[local] Instance steady_rows : RowInvariant steady good_found good good full.
Proof.
  split; intros.
  - by eapply steady_frame.
  - by apply steady_outside.
  - by apply steady_outside.
  - by apply steady_outside.
  - split; [intros row; by apply (st_keys s)|]. intros Hnone. destruct (cast fsp) as [r|] eqn:E; [|done].
    destruct (st_there s H fsp ltac:(by rewrite E)) as [row Hrow]. congruence.
  - by apply H.
  - by eapply (st_replica s).
  - by apply steady_save.
  - apply steady_save; [|done]. split; [done|]. intros r Hr. destruct (st_there s H0 fsp ltac:(by rewrite Hr)). congruence.
  - apply own_key_role in H as [Hr Hk]. destruct H0 as [_ Hc]. split; [|done]. intros _. cbn. rewrite Hr, Hk. by eauto.
  - by apply good_policy.
  - destruct H0 as [Hs Hc]. split.
    + intros He. destruct (Hs He) as (H2 & H3 & _). cbn. by eauto.
    + intros r0 Hr. split; [by apply Hc|apply H; by eexists].
Qed.
Definition keeps_find := keeps_findByFspId steady good_found good good full.
Lemma keeps_insert_row fsp row : sound row -> keeps steady (fun _ => True) (insertKey fsp row).
Proof.
  intros Hs. apply (keeps_store steady good_found good good full). intros s s' HI. destruct (keys s !! fsp) eqn:E; [done|]. intros [= <-]. apply steady_save; [|done].
  split; [done|]. intros r Hr. destruct (st_there s HI fsp ltac:(by rewrite Hr)). congruence.
Qed.
Lemma keeps_saveEntity fsp existing row : (is_Some existing -> good fsp row) -> sound row -> keeps steady (fun _ => True) (saveEntity fsp existing row).
Proof. intros Hg Hs. destruct existing; [apply (keeps_save steady good_found good good full), Hg; by eexists|by apply keeps_insert_row]. Qed.
Definition keeps_announced := keeps_announce steady good_found good good full.
Definition keeps_names := keeps_findByName steady good_found good good full.
Definition keeps_participants := keeps_saveParticipant steady good_found good good full.
#[local] Hint Resolve keeps_outer keeps_find keeps_saveEntity keeps_announced keeps_names keeps_participants : keeping.

Lemma keeps_addSigningKeys input : full (fsp_name input) (public_key input) -> keeps steady (fun _ => True) (addSigningKeys input).
Proof.
  intros Hf. unfold addSigningKeys. eapply keeps_bind; [apply keeps_find|]. intros [row|] [Hrow _]; cbn [saveEntity].
  - apply (keeps_save steady good_found good good full), good_signing_keys; [done|by apply Hrow].
  - apply keeps_insert_row. done.
Qed.
Lemma keeps_provisionSigningKey fsp : keeps steady (fun _ => True) (provisionSigningKey fsp).
Proof.
  unfold provisionSigningKey. eapply keeps_bind; [apply keeps_find|]. intros existing [Hrow Hnone]. destruct (holds_key existing) eqn:Hk; [by apply keeps_ret|].
  assert (Hs : forall q, keeps steady (fun _ => True) (saveEntity fsp existing (provisioned_row q existing))); [|keeping; done].
  intros q. apply keeps_saveEntity; [|done]. intros [row ->]. split; [done|]. intros r Hr. destruct (Hrow row eq_refl) as [_ Hc].
  destruct (Hc r Hr) as [_ Hkey]. cbn in Hk. congruence.
Qed.
Lemma keeps_onboardFsp input : keeps steady (fun _ => True) (onboardFsp input).
Proof.
  unfold onboardFsp. eapply keeps_bind; [apply keeps_find|]. intros existing _.
  eapply (keeps_bind _ (fun _ => True)); [destruct (holds_key existing); [by apply keeps_ret|apply keeps_outer]|intros _ _].
  keeping; apply keeps_provisionSigningKey.
Qed.
(** MCM holds no blank key of an fsp that must not lose its own. *)
Definition mcm_full : Prop := mcm_brings full.
(** What is asked of a command and of MCM. *)
Definition admissible (c : command) : Prop :=
  match c with AddKeys input => full (fsp_name input) (public_key input) | SyncPeers => mcm_full | _ => True end.
Lemma keeps_command c : admissible c -> keeps steady (fun _ => True) (perform c).
Proof.
  destruct c; cbn [admissible perform]; intros H.
  - apply keeps_onboardFsp.
  - by apply keeps_addSigningKeys.
  - pose proof (keeps_updateJwsPolicy steady good_found good good full input). keeping.
  - apply (keeps_updateAccessKey steady good_found good good full).
  - apply (keeps_publish steady good_found good good full).
  - pose proof (keeps_reconcile steady good_found good good full). keeping.
  - pose proof (keeps_sync steady good_found good good full H). keeping.
  - pose proof (keeps_consume steady good_found good good full message redeliveryCount). keeping.
Qed.
Lemma steady_pool (starts : Cmd unit -> Prop) s c : (forall p, starts p -> exists cmd, admissible cmd /\ p = perform cmd) ->
  rtc (pool_step starts drift) (s, []) c -> steady s -> steady (fst c).
Proof.
  intros Hstart Hrun HI. eapply pool_keeps; [|by eapply steady_drift|done|done]. intros p Hp. destruct (Hstart p Hp) as (cmd & Ha & ->).
  by apply keeps_command.
Qed.
End rows.

(** C10. Commands, sweeps, announcements and syncs interleave call by call, calls fail and processes
    die between them, the replica lags: a row that signs is a tenant's, was activated, and has
    a public key. *)
Theorem only_tenants_sign (s : World) c :
  (forall fsp row, keys s !! fsp = Some row \/ replica s !! fsp = Some row -> sound row) ->
  rtc (pool_step (fun p => exists cmd, p = perform cmd) drift) (s, []) c ->
  forall fsp row, keys (fst c) !! fsp = Some row -> sound row.
Proof.
  intros Hs Hrun fsp row Hrow. assert (Hst : steady (fun _ => None) s) by (split; [intros f r Hr; split; [by eapply Hs; left; exact Hr|done]|
    intros f r Hr; split; [by eapply Hs; right; exact Hr|done]|by intros f [? ?]]).
  assert (Hst' : steady (fun _ => None) (fst c)).
  { eapply steady_pool; [|exact Hrun|exact Hst]. intros p [cmd ->]. exists cmd. split; [|done]. assert (Hfull : forall f k, full (fun _ => None) f k) by (by intros f k [? ?]).
    destruct cmd; cbn; try done. intros w certs _. apply Forall_forall. intros cert _ f k _. apply Hfull. }
  exact (proj1 (st_keys _ _ Hst' fsp row Hrow)).
Qed.

(** A participant with a public key keeps a key and its role: no sync makes a tenant a peer, no
    onboarding a peer a tenant, as long as no command is given a blank key, MCM lists none, and
    the replica is not behind at the start. *)
Theorem roles_stay (s : World) c :
  (forall fsp row, keys s !! fsp = Some row \/ replica s !! fsp = Some row -> sound row) ->
  (forall fsp row row', keys s !! fsp = Some row -> has_text (jwsPublicKey row) = true -> replica s !! fsp = Some row' ->
    role row' = role row /\ has_text (jwsPublicKey row') = true) ->
  (forall w certs, snd (send ListAllJwsKeys w) = Ok certs -> Forall (fun x => forall fsp key, usable x = Some (fsp, key) -> has_text (Some key) = true) certs) ->
  rtc (pool_step (fun p => exists cmd, (forall input, cmd = AddKeys input -> has_text (Some (public_key input)) = true) /\ p = perform cmd) drift) (s, []) c ->
  forall fsp row, keys s !! fsp = Some row -> has_text (jwsPublicKey row) = true ->
    exists row', keys (fst c) !! fsp = Some row' /\ role row' = role row /\ has_text (jwsPublicKey row') = true.
Proof.
  intros Hs Hrep Hmcm Hrun fsp row Hrow Hkey.
  set (cast := fun f => row ← keys s !! f; if has_text (jwsPublicKey row) then Some (role row) else None).
  assert (Hcast : forall f r, cast f = Some r -> exists row, keys s !! f = Some row /\ role row = r /\ has_text (jwsPublicKey row) = true).
  { intros f r (row0 & Hr & Hif)%bind_Some. exists row0. destruct (has_text (jwsPublicKey row0)); by simplify_eq. }
  assert (Hst : steady cast s).
  { split.
    - intros f r Hr. split; [by eapply Hs; left; exact Hr|]. intros r0 H0. destruct (Hcast f r0 H0) as (row0 & H1 & H2 & H3). by simplify_eq.
    - intros f r Hr. split; [by eapply Hs; right; exact Hr|]. intros r0 H0. destruct (Hcast f r0 H0) as (row0 & H1 & <- & H3). by apply (Hrep f).
    - intros f [r Hr]. destruct (Hcast f r Hr) as (row0 & H1 & _). by eexists. }
  assert (Hst' : steady cast (fst c)).
  { eapply steady_pool; [|exact Hrun|exact Hst]. intros p (cmd & Ha & ->). exists cmd. split; [|done]. destruct cmd; cbn; try done.
    - intros _. by apply Ha.
    - intros w certs Hw. eapply Forall_impl; [by eapply Hmcm|]. intros x Hx f k Hu _. by eapply Hx. }
  assert (Hc : cast fsp = Some (role row)) by (apply bind_Some; exists row; by rewrite Hkey).
  destruct (st_there _ _ Hst' fsp ltac:(by eexists)) as [row' Hrow']. exists row'. split; [done|]. by apply (st_keys _ _ Hst' fsp row' Hrow').
Qed.
End trust.

(** ** A tenant is announced *)

Lemma announced_pool (starts : Prog (World Registry) exception unit -> Prop) : starts (perform (Announced (Some acme) 1)) ->
  rtc (pool_step starts drift) (start (W := Registry) ∅, [])
    (fst (run (perform (Announced (Some acme) 1)) (start (W := Registry) ∅)), [] ++ [Done (snd (run (perform (Announced (Some acme) 1)) (start (W := Registry) ∅)))]).
Proof. apply pool_run. Qed.
Lemma start_rows fsp row : keys (start (W := Registry) ∅) !! fsp = Some row -> row = waiting \/ row = verified \/ row = suspended.
Proof. unfold start. cbn [keys]. intros [[_ <-]|[_ [[_ <-]|[_ [_ <-]%lookup_singleton_Some]]%lookup_insert_Some]]%lookup_insert_Some; auto. Qed.
Lemma start_sound fsp row : keys (start (W := Registry) ∅) !! fsp = Some row \/ replica (start (W := Registry) ∅) !! fsp = Some row -> sound row.
Proof. intros [H|H]; apply start_rows in H as [->|[->| ->]]; done. Qed.
Lemma start_keyed fsp row : keys (start (W := Registry) ∅) !! fsp = Some row -> has_text (jwsPublicKey row) = true.
Proof. intros [->|[->| ->]]%start_rows; done. Qed.
Lemma listed_keyed (w : Registry) certs : snd (send ListAllJwsKeys w) = Ok certs ->
  Forall (fun x => forall fsp key, usable x = Some (fsp, key) -> has_text (Some key) = true) certs.
Proof.
  cbn. intros [= <-]. apply List.Forall_forall. intros c [_ Hc]%List.filter_In fsp key. unfold usable. destruct (dfspId c) as [f|]; [|done]. destruct (publicKey c) as [k|]; [|done].
  cbn [mbind option_bind]. destruct (has_text (Some f)); [by intros [= <- <-]|done].
Qed.

Lemma only_tenants_sign_witness :
  exists row, keys (fst (run (perform (Announced (Some acme) 1)) (start (W := Registry) ∅))) !! acme = Some row /\ jwsSignEnabled row = true /\ sound row.
Proof.
  exists (activated 1700000000000 waiting). split; [vm_compute; reflexivity|]. split; [reflexivity|].
  eapply (only_tenants_sign (start (W := Registry) ∅) _ start_sound (announced_pool (fun p => exists cmd, p = perform cmd) (ex_intro _ (Announced (Some acme) 1) eq_refl)) acme). vm_compute. reflexivity.
Defined.

Lemma announced_only input : Announced (Some acme) 1 = AddKeys input -> has_text (Some (public_key input)) = true.
Proof. discriminate. Qed.
Definition keyed_command (p : Prog (World Registry) exception unit) : Prop :=
  exists cmd, (forall input, cmd = AddKeys input -> has_text (Some (public_key input)) = true) /\ p = perform cmd.
Lemma announced_keyed : keyed_command (perform (Announced (Some acme) 1)).
Proof. exists (Announced (Some acme) 1). split; [exact announced_only|done]. Qed.
Lemma roles_stay_witness :
  exists c, rtc (pool_step keyed_command drift) (start (W := Registry) ∅, []) c /\
  exists row, keys (fst c) !! acme = Some row /\ role row = role waiting /\ has_text (jwsPublicKey row) = true.
Proof.
  eexists. split; [exact (announced_pool keyed_command announced_keyed)|].
  exact (roles_stay (start (W := Registry) ∅) _ start_sound
    (fun fsp row row' H1 H2 H3 => conj (f_equal role (Some_inj row' row (eq_trans (eq_sym H3) H1))) (start_keyed fsp row' H3)) listed_keyed
    (announced_pool keyed_command announced_keyed) acme waiting eq_refl eq_refl).
Defined.
