(* ===== verification/Publication.v ===== *)
(** * The course of a publication

    What the commands of Tenants.v that talk to MCM do when they run alone, whatever MCM and
    the driver answer; what they bring about when both work; and what is lost when a read of
    MCM fails or a row changed after it was read. *)

From S2P Require Import Prelude Interleave Outside Wire Tenants.
#[local] Open Scope prog_scope.

Section publication.
  Context {W : Type} {surroundings : Surroundings W} {provisioner : JwsKeyProvisioner W}.
  Notation World := (World W).
  Notation Cmd := (Prog World exception).

(** ** Courses *)

Definition asked (r : request) (a : result exception (answer r)) : exchange := existT r a.
(** The registrar asks nothing about keys. *)
Definition of_registrar (x : exchange) : Prop := match projT1 x with ListDfsps | CreateDfsp _ => True | _ => False end.
(** MCM answered that it has no key, or did not answer. *)
Definition no_key (a : result exception JwsCert) : Prop := match a with Ok cert => has_text (publicKey cert) = false | Err _ => True end.

(** What [confirm] asks about keys, newest first, and what comes of it. *)
Inductive course (fsp key : jsstr) : list exchange -> result exception Confirmation -> Prop :=
  | course_unregistered e : course fsp key [] (Err e)
  | course_found cert k : publicKey cert = Some k -> has_text (Some k) = true ->
      course fsp key [asked (GetJwsKey fsp) (Ok cert)] (Ok (if samePem k key then AlreadyCorrect else Diverged))
  | course_refused a e : no_key a ->
      course fsp key [asked (PublishJwsKey fsp key) (Err e); asked (GetJwsKey fsp) a] (Err e)
  | course_unread a e : no_key a ->
      course fsp key [asked (GetJwsKey fsp) (Err e); asked (PublishJwsKey fsp key) (Ok tt); asked (GetJwsKey fsp) a] (Err e)
  | course_mismatch a cert : no_key a -> publicKey cert <> Some key ->
      course fsp key [asked (GetJwsKey fsp) (Ok cert); asked (PublishJwsKey fsp key) (Ok tt); asked (GetJwsKey fsp) a]
        (Err (McmException (js "MCM_JWS_KEY_MISMATCH") None))
  | course_stored a cert : no_key a -> publicKey cert = Some key ->
      course fsp key [asked (GetJwsKey fsp) (Ok cert); asked (PublishJwsKey fsp key) (Ok tt); asked (GetJwsKey fsp) a] (Ok Published).

(** The tables and the clock stay, MCM is asked. *)
Definition asks (P : exchange -> Prop) (s s' : World) : Prop :=
  keys s' = keys s /\ replica s' = replica s /\ participants s' = participants s /\ clock s' = clock s /\
  exists l, exchanges s' = l ++ exchanges s /\ Forall P l.
#[local] Instance asks_preorder P : PreOrder (asks P).
Proof.
  split.
  - intros s. repeat split. by exists [].
  - intros s1 s2 s3 (H1 & H2 & H3 & H4 & l & H5 & H6) (E1 & E2 & E3 & E4 & l' & E5 & E6). repeat split; try congruence.
    exists (l' ++ l). split; [by rewrite E5, H5, app_assoc|by apply Forall_app].
Qed.
Lemma asks_still P s s' : keys s' = keys s -> replica s' = replica s -> participants s' = participants s -> clock s' = clock s ->
  exchanges s' = exchanges s -> asks P s s'.
Proof. intros. repeat split; try done. by exists []. Qed.

Lemma moves_mcm (P : exchange -> Prop) r : (forall a, P (asked r a)) -> moves (asks P) (mcm r).
Proof.
  intros HP. split; [|done]. intros s. repeat split. eexists [_]. split; [done|]. constructor; [apply HP|constructor].
Qed.
Lemma moves_remember P ids : moves (asks P) (write (remember ids) : Cmd unit).
Proof. split; [|done]. intros s. by apply asks_still. Qed.
#[local] Hint Resolve moves_remember : moving.
#[local] Hint Extern 1 (moves _ (mcm _)) => apply moves_mcm; done : moving.
Lemma moves_ensureRegistered fsp : moves (asks of_registrar) (ensureRegistered fsp).
Proof.
  assert (Hr : moves (asks of_registrar) (registered fsp)) by (unfold registered; movingly). unfold ensureRegistered. movingly; try done; try apply _.
Qed.

(** The world after a request. *)
Definition after (r : request) (s : World) : World :=
  logged (asked r (snd (send r (outside s)))) (with_outside (fst (send r (outside s))) s).
Lemma run_mcm {B} r (q : answer r -> Cmd B) s :
  run (bind (mcm r) q) s = match snd (send r (outside s)) with Ok a => run (q a) (after r s) | Err e => (after r s, Err e) end.
Proof. unfold after, asked. cbn. by destruct (snd (send r (outside s))). Qed.

(** From [s] the exchanges [l] were made, newest first; the tables stay. *)
Definition exchanged (l : list exchange) (s s' : World) : Prop :=
  keys s' = keys s /\ replica s' = replica s /\ participants s' = participants s /\ clock s' = clock s /\ exchanges s' = l ++ exchanges s.

Lemma exchanged_after r s a : snd (send r (outside s)) = a -> exchanged [asked r a] s (after r s).
Proof. by intros <-. Qed.
Lemma exchanged_then l l' s s1 s2 : exchanged l s s1 -> exchanged l' s1 s2 -> exchanged (l' ++ l) s s2.
Proof. intros (H1 & H2 & H3 & H4 & H5) (E1 & E2 & E3 & E4 & E5). repeat split; try congruence. by rewrite E5, H5, app_assoc. Qed.

Lemma run_publishAndVerify fsp key a s : no_key a ->
  exists l, exchanged l s (fst (run (publishAndVerifyJwsKey fsp key) s)) /\
    course fsp key (l ++ [asked (GetJwsKey fsp) a])
      match snd (run (publishAndVerifyJwsKey fsp key) s) with Ok _ => Ok Published | Err e => Err e end.
Proof.
  intros Ha. unfold publishAndVerifyJwsKey. rewrite run_mcm. destruct (snd (send _ _)) as [[]|e] eqn:E1; apply exchanged_after in E1.
  - set (s1 := after _ s) in *. rewrite run_mcm. destruct (snd (send _ _)) as [cert|e] eqn:E2; apply exchanged_after in E2; pose proof (exchanged_then _ _ _ _ _ E1 E2) as E.
    + exists [asked (GetJwsKey fsp) (Ok cert); asked (PublishJwsKey fsp key) (Ok tt)].
      case_bool_decide as Hk; (split; [exact E|]); [by apply course_stored|by apply course_mismatch].
    + eexists. split; [exact E|]. by apply course_unread.
  - eexists. split; [exact E1|]. by apply course_refused.
Qed.

Lemma confirm_course fsp key s :
  exists s1 l, asks of_registrar s s1 /\ exchanged l s1 (fst (run (confirm fsp key) s)) /\ course fsp key l (snd (run (confirm fsp key) s)).
Proof.
  unfold confirm. rewrite run_bind. pose proof (moves_run (asks of_registrar) _ s (moves_ensureRegistered fsp)) as H1.
  destruct (run (ensureRegistered fsp) s) as [s1 [o|e]]; cbn [fst] in H1; exists s1; [|exists []; split; [done|split; [done|by constructor]]].
  rewrite run_bind, run_catch, run_mcm. set (a := snd (send (GetJwsKey fsp) (outside s1))). set (s2 := after (GetJwsKey fsp) s1).
  assert (H2 : exchanged [asked (GetJwsKey fsp) a] s1 s2) by (by apply exchanged_after).
  assert (Hstore : no_key a -> exists l, exchanged l s1 (fst (run (let* _ := publishAndVerifyJwsKey fsp key in ret Published) s2)) /\
    course fsp key l (snd (run (let* _ := publishAndVerifyJwsKey fsp key in ret Published) s2))).
  { intros Ha. destruct (run_publishAndVerify fsp key a s2 Ha) as (l & He & Hc). exists (l ++ [asked (GetJwsKey fsp) a]). rewrite run_bind.
    destruct (run (publishAndVerifyJwsKey fsp key) s2) as [s3 [?|?]]; (split; [|exact Hc]); by eapply exchanged_then. }
  destruct a as [cert|e] eqn:Ha; cbn [run ret].
  - destruct (publicKey cert) as [k|] eqn:Hk.
    + destruct (has_text (Some k)) eqn:Ht.
      * eexists. split; [done|]. split; [exact H2|]. by apply course_found.
      * destruct Hstore as (l & Hl); [by cbn; rewrite Hk|]. by exists l.
    + destruct Hstore as (l & Hl); [by cbn; rewrite Hk|]. by exists l.
  - destruct Hstore as (l & Hl); [done|]. by exists l.
Qed.

(** What [activate] makes of the keys. *)
Definition activation (fsp : jsstr) (row : ParticipantKey) (s s' : World) (r : result exception bool) : Prop :=
  exchanges s' = exchanges s /\
  match jwsSignActivatedAt row with
  | Some _ => keys s' = keys s /\ r = Ok false
  | None =>
      keys s' = <[fsp := activated (clock s) row]> (keys s) /\ r = Ok (negb (jwsSignEnabled row)) \/
      (keys s' = keys s \/ keys s' = <[fsp := activated (clock s) row]> (keys s)) /\ r = Err Failure
  end.
Lemma activate_course fsp row s : activation fsp row s (fst (run (activate fsp row) s)) (snd (run (activate fsp row) s)).
Proof.
  unfold activate, activation. destruct (jwsSignActivatedAt row); [done|]. rewrite run_read.
  unfold save, statement_of. cbn [bind run]. set (s1 := with_outside _ s). destruct (snd (driver (outside s))); cbn; auto.
Qed.

(** ** One publication *)

(** What comes of [publishAndEnable]: the row could not be read; there is no key to publish; MCM
    was asked, and the key activated, unless MCM holds another one. *)
Inductive publication (fsp : jsstr) (s s' : World) : result exception bool -> Prop :=
  | publication_unread : keys s' = keys s -> exchanges s' = exchanges s -> publication fsp s s' (Err Failure)
  | publication_none : keys s !! fsp ≫= own_key = None -> keys s' = keys s -> exchanges s' = exchanges s ->
      publication fsp s s' (Err PermanentPublishError)
  | publication_failed row key s1 l e : keys s !! fsp = Some row -> own_key row = Some key -> asks of_registrar s s1 ->
      course fsp key l (Err e) -> exchanges s' = l ++ exchanges s1 -> keys s' = keys s -> publication fsp s s' (Err e)
  | publication_diverged row key s1 l : keys s !! fsp = Some row -> own_key row = Some key -> asks of_registrar s s1 ->
      course fsp key l (Ok Diverged) -> exchanges s' = l ++ exchanges s1 -> keys s' = keys s -> publication fsp s s' (Err PermanentPublishError)
  | publication_confirmed row key s1 s2 l c r : keys s !! fsp = Some row -> own_key row = Some key -> asks of_registrar s s1 ->
      course fsp key l (Ok c) -> c <> Diverged -> exchanged l s1 s2 -> activation fsp row s2 s' r -> publication fsp s s' r.

Lemma publishAndEnable_course (fsp : jsstr) (s : World) :
  publication fsp s (fst (run (publishAndEnable fsp) s)) (snd (run (publishAndEnable fsp) s)).
Proof.
  unfold publishAndEnable, findByFspId. rewrite run_query. set (s0 := with_outside _ s). assert (H0 : asks of_registrar s s0) by (by apply asks_still).
  destruct (snd (driver (outside s))); [|by apply publication_unread..]. destruct (keys s !! fsp) as [row|] eqn:Hrow; [|apply publication_none; [by rewrite Hrow|done..]].
  cbn [mbind option_bind]. destruct (own_key row) as [key|] eqn:Hkey; [|apply publication_none; [by rewrite Hrow|done..]]. rewrite run_bind.
  destruct (confirm_course fsp key s0) as (s1 & l & H1 & H2 & Hc). destruct (run (confirm fsp key) s0) as [s2 [c|e]]; cbn [fst snd] in *.
  - assert (H : asks of_registrar s s1) by (by etransitivity). destruct (decide (c = Diverged)) as [->|Hne].
    + destruct H2 as (E1 & _ & _ & _ & E5), H as (F1 & _). eapply publication_diverged; try done. by cbn; congruence.
    + replace (match c with Diverged => throw PermanentPublishError | _ => activate fsp row end) with (activate fsp row) by (by destruct c).
      eapply publication_confirmed; try done. apply activate_course.
  - assert (H : asks of_registrar s s1) by (by etransitivity). destruct H2 as (E1 & _ & _ & _ & E5), H as (F1 & _).
    eapply publication_failed; try done. by cbn; congruence.
Qed.

(** One publication follows the protocol with MCM: a key is published only after MCM answered that
    it has none or did not answer, only the key of the row, at most once, and is read back; the
    row changes only to be activated, and only when MCM's last answer was its key. *)
Theorem publication_course (fsp : jsstr) (s : World) :
  publication fsp s (fst (run (publishAndEnable fsp) s)) (snd (run (publishAndEnable fsp) s)).
Proof. apply publishAndEnable_course. Qed.

(** ** Announcements *)

Lemma backoff_bounds n : BASE_BACKOFF_MS <= backoffMs n <= MAX_BACKOFF_MS.
Proof.
  unfold backoffMs, BASE_BACKOFF_MS, MAX_BACKOFF_MS. set (e := Z.min (Z.max 0 (n - 1)) 20). assert (0 <= e) by lia.
  pose proof (Z.pow_pos_nonneg 2 e ltac:(lia) H). lia.
Qed.
Lemma backoff_mono n m : n <= m -> backoffMs n <= backoffMs m.
Proof.
  intros H. unfold backoffMs, BASE_BACKOFF_MS, MAX_BACKOFF_MS. set (a := Z.min (Z.max 0 (n - 1)) 20). set (b := Z.min (Z.max 0 (m - 1)) 20).
  pose proof (Z.pow_le_mono_r 2 a b ltac:(lia) ltac:(lia)). lia.
Qed.

(** Every delivery of an announcement ends: it is acknowledged when the tenant's row has been
    activated, ended when it names no tenant or for a reason that will not pass, and otherwise
    delivered again after five seconds to five minutes, never sooner than the time before. *)
Theorem announcement_ends (message : option jsstr) (n : Z) (s : World) :
  let s' := fst (run (consume message n) s) in
  exists v, snd (run (consume message n) s) = Ok v /\
    match v with
    | Ack => exists fsp row, trim <$> message = Some fsp /\ keys s' !! fsp = Some row /\ is_Some (jwsSignActivatedAt row)
    | Term => match trim <$> message with
              | Some ((_ :: _) as fsp) => exists e, publication fsp s s' (Err e) /\ isPermanent e = true
              | _ => keys s' = keys s
              end
    | Nak delay => 5000 <= delay <= 300000 /\ (forall m, m <= n -> backoffMs m <= delay) /\
        exists fsp e, trim <$> message = Some fsp /\ publication fsp s s' (Err e) /\ isPermanent e = false
    end.
Proof.
  cbn zeta. unfold consume. destruct (trim <$> message) as [[|c fsp]|]; [by exists Term..| |by exists Term]. rewrite run_catch, run_bind.
  pose proof (publishAndEnable_course (c :: fsp) s) as H. destruct (run (publishAndEnable (c :: fsp)) s) as [s' [on|e]]; cbn in *.
  - exists Ack. split; [done|]. exists (c :: fsp). inversion H as [| | | |row key s1 s2 l x r Hrow _ H1 _ _ H2 [_ Ha]]; subst.
    destruct (jwsSignActivatedAt row) as [t|] eqn:Ht.
    + exists row. destruct Ha as [-> _]. destruct H2 as (-> & _), H1 as (-> & _). by rewrite Hrow, Ht.
    + destruct Ha as [[-> _]|[_ ?]]; [|done]. eexists. rewrite lookup_insert_eq. by eauto.
  - destruct (isPermanent e) eqn:He.
    + exists Term. split; [done|]. by exists e.
    + exists (Nak (backoffMs n)). split; [done|]. split; [apply backoff_bounds|]. split; [intros m; apply backoff_mono|]. by exists (c :: fsp), e.
Qed.

(** ** The sweep *)

(** The key an exchange publishes. *)
Definition publishes (x : exchange) : option (jsstr * jsstr) := match projT1 x with PublishJwsKey fsp key => Some (fsp, key) | _ => None end.
Lemma registrar_publishes x : of_registrar x -> publishes x = None.
Proof. unfold of_registrar, publishes. by destruct (projT1 x). Qed.
Lemma course_publishes fsp key l c x f k : course fsp key l c -> x ∈ l -> publishes x = Some (f, k) -> f = fsp /\ k = key.
Proof.
  destruct 1; intros Hx; repeat (apply elem_of_cons in Hx as [->|Hx]); try (by apply elem_of_nil in Hx); by intros [= <- <-].
Qed.

(** MCM was seen to hold the key. *)
Definition seen (fsp key : jsstr) (l : list exchange) : Prop :=
  exists cert k, asked (GetJwsKey fsp) (Ok cert) ∈ l /\ publicKey cert = Some k /\ samePem k key = true.
Lemma samePem_refl key : samePem key key = true.
Proof. by apply bool_decide_eq_true. Qed.
Lemma course_seen fsp key l c : course fsp key l (Ok c) -> c <> Diverged -> seen fsp key l.
Proof.
  inversion 1 as [|cert k Hk Ht E1 E2| | | |a cert Ha Hk E1 E2]; subst; intros Hne; exists cert.
  - exists k. split; [by left|]. split; [done|]. by destruct (samePem k key).
  - exists key. split; [by left|]. split; [done|apply samePem_refl].
Qed.

(** What the pass over one tenant does. *)
Definition passed (fsp : jsstr) (row : ParticipantKey) (key : jsstr) (s s' : World) : Prop :=
  clock s' = clock s /\ exists l, exchanges s' = l ++ exchanges s /\ (forall x f k, x ∈ l -> publishes x = Some (f, k) -> f = fsp /\ k = key) /\
  (keys s' = keys s \/ jwsSignActivatedAt row = None /\ keys s' = <[fsp := activated (clock s) row]> (keys s) /\ seen fsp key l).
Lemma activate_clock fsp row s : clock (fst (run (activate fsp row) s)) = clock s.
Proof. unfold activate. destruct (jwsSignActivatedAt row); [done|]. cbn. by destruct (snd (driver (outside s))). Qed.
Lemma activate_passes {A} fsp row key l s s1 s2 c (g : bool -> A) h : asks of_registrar s s1 -> exchanged l s1 s2 -> course fsp key l (Ok c) -> c <> Diverged ->
  passed fsp row key s (fst (run (catch (let* on := activate fsp row in ret (g on)) (fun _ : exception => ret h)) s2)).
Proof.
  intros (H1 & _ & _ & H4 & reg & H5 & Hreg) (E1 & _ & _ & E4 & E5) Hc Hne. rewrite run_catch, run_bind.
  pose proof (activate_course fsp row s2) as Ha. pose proof (activate_clock fsp row s2) as Hclock.
  destruct (run (activate fsp row) s2) as [s3 [on|e]]; cbn in *; destruct Ha as [Hx Ha];
    (split; [congruence|]; exists (l ++ reg); split; [by rewrite Hx, E5, H5, app_assoc|]; split;
     [intros x f k [Hin|Hin]%elem_of_app Hp; [by eapply course_publishes|rewrite Forall_forall in Hreg; rewrite registrar_publishes in Hp by auto; done]|]);
    (assert (Hseen : seen fsp key (l ++ reg)) by (destruct (course_seen _ _ _ _ Hc Hne) as (cert & k & Hin & Hk); exists cert, k; split; [apply elem_of_app; by left|done]));
    destruct (jwsSignActivatedAt row); destruct_and?; destruct_or?; destruct_and?; destruct_or?; rewrite <- ?H1, <- ?E1, <- ?H4, <- ?E4; auto.
Qed.

Lemma asked_passes fsp row key l s s1 s' c : asks of_registrar s s1 -> exchanged l s1 s' -> course fsp key l c -> passed fsp row key s s'.
Proof.
  intros (H1 & _ & _ & H4 & reg & H5 & Hreg) (E1 & _ & _ & E4 & E5) Hc. split; [congruence|]. exists (l ++ reg). split; [by rewrite E5, H5, app_assoc|].
  split; [|left; congruence]. intros x f k [Hin|Hin]%elem_of_app Hp; [by eapply course_publishes|]. rewrite Forall_forall in Hreg. by rewrite registrar_publishes in Hp by auto.
Qed.
Lemma tenant_passes fsp row key r s : passed fsp row key s (fst (run (reconcile_tenant fsp row key r) s)).
Proof.
  unfold reconcile_tenant. rewrite run_bind, run_catch, run_bind. destruct (confirm_course fsp key s) as (s1 & l & H1 & H2 & Hc).
  destruct (run (confirm fsp key) s) as [s2 [c|e]]; cbn [fst snd run ret] in *; [|by eapply asked_passes].
  destruct c; [by eapply asked_passes|by eapply (activate_passes _ _ _ _ _ _ _ AlreadyCorrect)|by eapply (activate_passes _ _ _ _ _ _ _ Published)].
Qed.

(** What a sweep over [rows] does. *)
Definition swept (rows : list (jsstr * ParticipantKey)) (s s' : World) : Prop :=
  clock s' = clock s /\ exists l, exchanges s' = l ++ exchanges s /\
  (forall x f k, x ∈ l -> publishes x = Some (f, k) -> exists row, (f, row) ∈ rows /\ own_key row = Some k) /\
  forall f, keys s' !! f = keys s !! f \/
    exists row key, (f, row) ∈ rows /\ own_key row = Some key /\ jwsSignActivatedAt row = None /\
      keys s' !! f = Some (activated (clock s) row) /\ seen f key l.
Lemma seen_more fsp key l l' : seen fsp key l \/ seen fsp key l' -> seen fsp key (l ++ l').
Proof. intros [(cert & k & Hin & Hk)|(cert & k & Hin & Hk)]; exists cert, k; (split; [apply elem_of_app; auto|done]). Qed.
Lemma all_swept rows r s : swept rows s (fst (run (reconcile_all rows r) s)).
Proof.
  revert r s. induction rows as [|[fsp row] rows IH]; intros r s.
  - split; [done|]. exists []. split; [done|]. split; [by intros x f k Hx%elem_of_nil|by intros f; left].
  - cbn [reconcile_all]. rewrite run_bind. destruct (own_key row) as [key|] eqn:Hkey.
    + pose proof (tenant_passes fsp row key r s) as (Hc1 & l1 & Hx1 & Hp1 & Hk1).
      destruct (run (reconcile_tenant fsp row key r) s) as [s1 [r1|e]]; cbn [fst] in *.
      * destruct (IH r1 s1) as (Hc2 & l2 & Hx2 & Hp2 & Hk2). split; [congruence|]. exists (l2 ++ l1). split; [by rewrite Hx2, Hx1, app_assoc|]. split.
        -- intros x f k [Hin|Hin]%elem_of_app Hp; [destruct (Hp2 x f k Hin Hp) as (row' & Hin' & Ho); exists row'; split; [by right|done]|].
           destruct (Hp1 x f k Hin Hp) as [-> ->]. exists row. split; [by left|done].
        -- intros f. destruct (Hk2 f) as [E|(row' & key' & H1 & H2 & H3 & H4 & H5)].
           ++ rewrite E. destruct Hk1 as [->|(Ha & -> & Hs)]; [by left|]. destruct (decide (f = fsp)) as [->|Hne]; [|left; by rewrite lookup_insert_ne].
              right. exists row, key. rewrite lookup_insert_eq. split; [by left|]. do 3 (split; [done|]). apply seen_more. auto.
           ++ right. exists row', key'. rewrite <- Hc1. split; [by right|]. do 3 (split; [done|]). apply seen_more. auto.
      * split; [done|]. exists l1. split; [done|]. split; [intros x f k Hin Hp; destruct (Hp1 x f k Hin Hp) as [-> ->]; exists row; split; [by left|done]|].
        intros f. destruct Hk1 as [->|(Ha & -> & Hs)]; [by left|]. destruct (decide (f = fsp)) as [->|Hne]; [|left; by rewrite lookup_insert_ne].
        right. exists row, key. rewrite lookup_insert_eq. split; [by left|done].
    + cbn [run ret]. destruct (IH r s) as (Hc & l & Hx & Hp & Hk). split; [done|]. exists l. split; [done|]. split.
      * intros x f k Hin Hpub. destruct (Hp x f k Hin Hpub) as (row' & Hin' & Ho). exists row'. split; [by right|done].
      * intros f. destruct (Hk f) as [E|(row' & key' & H1 & H2)]; [by left|]. right. exists row', key'. split; [by right|done].
Qed.

(** A sweep alone, whatever MCM and the driver answer: it changes a row only to activate a tenant
    that never was, whose key it saw MCM hold, so suspended tenants stay suspended; and it sends
    MCM no key but the public keys of tenants. *)
Theorem sweep_only_activates (s : World) : swept (map_to_list (keys s)) s (fst (run reconcile s)).
Proof.
  unfold reconcile, findAll. rewrite run_query. set (s0 := with_outside _ s).
  assert (Hnone : swept (map_to_list (keys s)) s s0) by (split; [done|]; exists []; split; [done|]; split; [by intros x f k Hx%elem_of_nil|by intros f; left]).
  destruct (snd (driver (outside s))); [|done..].
  destruct (all_swept (List.filter signs (map_to_list (keys s))) (mkResult (Z.of_nat (length (List.filter signs (map_to_list (keys s))))) 0 0 0 0 0) s0)
    as (H1 & l & H2 & H3 & H4).
  assert (Hsub : forall e, e ∈ List.filter signs (map_to_list (keys s)) -> e ∈ map_to_list (keys s)) by (by intros e [He%list_elem_of_In _]%list_elem_of_In%List.filter_In).
  split; [done|]. exists l. split; [done|]. split.
  - intros x f k Hin Hp. destruct (H3 x f k Hin Hp) as (row & Hrow & Ho). exists row. by auto.
  - intros f. destruct (H4 f) as [E|(row & key & Hrow & Ho)]; [by left|]. right. exists row, key. by auto.
Qed.

(** ** When MCM and the driver work *)

Section healthy.
  (** The key MCM stores for an fsp. *)
  Context (stored : W -> gmap jsstr jsstr).

(** MCM answers, gives back what it was given, and knows no key of a DFSP it just created. *)
Record healthy : Prop := {
  h_driver w : snd (driver w) = Works /\ stored (fst (driver w)) = stored w;
  h_get f w : snd (send (GetJwsKey f) w) = Ok (mkJwsCert (Some f) (stored w !! f)) /\ stored (fst (send (GetJwsKey f) w)) = stored w;
  h_publish f k w : snd (send (PublishJwsKey f k) w) = Ok tt /\ stored (fst (send (PublishJwsKey f k) w)) = <[f := k]> (stored w);
  h_list w : (exists l, snd (send ListDfsps w) = Ok l) /\ stored (fst (send ListDfsps w)) = stored w;
  h_create f w : snd (send (CreateDfsp f) w) = Ok tt /\ stored (fst (send (CreateDfsp f) w)) = stored w }.
Context (h : healthy).

(** What [confirm] finds. *)
Definition found (key : jsstr) (there : option jsstr) : Confirmation :=
  match there with
  | Some k => if has_text (Some k) then if samePem k key then AlreadyCorrect else Diverged else Published
  | None => Published
  end.
Definition still (s s' : World) : Prop := keys s' = keys s /\ clock s' = clock s.

Lemma healthy_registered fsp s :
  exists b, snd (run (registered fsp) s) = Ok b /\ stored (outside (fst (run (registered fsp) s))) = stored (outside s) /\ still s (fst (run (registered fsp) s)).
Proof.
  unfold registered. rewrite run_mcm. destruct (h_list h (outside s)) as [[l ->] Hst]. rewrite run_write. cbn. eexists. split; [done|]. done.
Qed.
Lemma healthy_ensure fsp s :
  exists o, snd (run (ensureRegistered fsp) s) = Ok o /\ stored (outside (fst (run (ensureRegistered fsp) s))) = stored (outside s) /\
    still s (fst (run (ensureRegistered fsp) s)).
Proof.
  unfold ensureRegistered. destruct (negb registration); [by eexists|]. rewrite run_read. destruct (bool_decide (fsp ∈ known s)); [by eexists|].
  rewrite run_bind. destruct (healthy_registered fsp s) as (b & Hb & Hst & Hk). destruct (run (registered fsp) s) as [s1 r]. cbn in Hb, Hst, Hk. subst r.
  destruct b; [by eexists|]. rewrite run_bind, run_catch, run_mcm. destruct (h_create h fsp (outside s1)) as [-> Hc]. cbn.
  eexists. split; [done|]. split; [by etransitivity; [exact Hc|]|done].
Qed.
Lemma healthy_confirm fsp key s :
  let s' := fst (run (confirm fsp key) s) in let c := found key (stored (outside s) !! fsp) in
  snd (run (confirm fsp key) s) = Ok c /\ still s s' /\
  stored (outside s') = if decide (c = Published) then <[fsp := key]> (stored (outside s)) else stored (outside s).
Proof.
  unfold confirm. rewrite run_bind. destruct (healthy_ensure fsp s) as (o & Ho & Hst & Hk). destruct (run (ensureRegistered fsp) s) as [s1 r].
  cbn [fst snd] in Ho, Hst, Hk. subst r. rewrite run_bind, run_catch, run_mcm. destruct (h_get h fsp (outside s1)) as [-> Hg]. cbn [run ret publicKey].
  set (s2 := after _ s1). assert (H2 : stored (outside s2) = stored (outside s)) by (by rewrite <- Hst, <- Hg). rewrite <- Hst.
  assert (Hk2 : still s s2) by done.
  assert (Hpub : let s' := fst (run (let* _ := publishAndVerifyJwsKey fsp key in ret Published) s2) in
    snd (run (let* _ := publishAndVerifyJwsKey fsp key in ret Published) s2) = Ok Published /\ still s s' /\
    stored (outside s') = <[fsp := key]> (stored (outside s))).
  { rewrite run_bind. unfold publishAndVerifyJwsKey. rewrite run_mcm. destruct (h_publish h fsp key (outside s2)) as [-> Hp].
    rewrite run_mcm. set (s3 := after _ s2). assert (H3 : stored (outside s3) = <[fsp := key]> (stored (outside s))) by (by rewrite <- H2, <- Hp).
    destruct (h_get h fsp (outside s3)) as [-> Hg3]. cbn [publicKey]. rewrite H3, lookup_insert_eq, bool_decide_true by done. cbn.
    split; [done|]. split; [done|]. etransitivity; [exact Hg3|exact H3]. }
  unfold found. destruct (stored (outside s1) !! fsp) as [k|]; [|by rewrite decide_True; rewrite ?Hst].
  destruct (has_text (Some k)); [|by rewrite decide_True; rewrite ?Hst]. cbn [run ret fst snd].
  destruct (samePem k key); (rewrite decide_False by done); split; try done; by rewrite H2, Hst.
Qed.

Definition target (now : Z) (row : ParticipantKey) : ParticipantKey := match jwsSignActivatedAt row with Some _ => row | None => activated now row end.
Lemma healthy_activate fsp row s :
  let s' := fst (run (activate fsp row) s) in
  (exists on, snd (run (activate fsp row) s) = Ok on) /\ stored (outside s') = stored (outside s) /\ clock s' = clock s /\
  keys s' = match jwsSignActivatedAt row with Some _ => keys s | None => <[fsp := activated (clock s) row]> (keys s) end.
Proof.
  unfold activate. destruct (jwsSignActivatedAt row); [by split; [eexists|]|]. rewrite run_read. unfold save, statement_of. cbn.
  destruct (h_driver h (outside s)) as [-> Hd]. cbn. split; [by eexists|]. by rewrite Hd.
Qed.

Definition settled (now : Z) (c : Confirmation) (row : ParticipantKey) : ParticipantKey := if decide (c = Diverged) then row else target now row.
Definition handled (r : Result) : Z := published r + alreadyCorrect r + diverged r.
Lemma healthy_tenant fsp row key r s : keys s !! fsp = Some row ->
  let c := found key (stored (outside s) !! fsp) in let s' := fst (run (reconcile_tenant fsp row key r) s) in
  (exists r', snd (run (reconcile_tenant fsp row key r) s) = Ok r' /\ failed r' = failed r /\ tenants r' = tenants r /\ handled r' = handled r + 1) /\
  clock s' = clock s /\ stored (outside s') = (if decide (c = Published) then <[fsp := key]> (stored (outside s)) else stored (outside s)) /\
  forall f, keys s' !! f = if decide (f = fsp) then Some (settled (clock s) c row) else keys s !! f.
Proof.
  intros Hrow c s'. subst s'. unfold reconcile_tenant. rewrite run_bind, run_catch, run_bind.
  destruct (healthy_confirm fsp key s) as (Hc & [Hk Hcl] & Hst). fold c in Hc, Hst. destruct (run (confirm fsp key) s) as [s1 r1]. cbn [fst snd] in Hc, Hk, Hcl, Hst. subst r1.
  cbn [run ret]. unfold settled. destruct (healthy_activate fsp row s1) as ([on Hon] & Hst' & Hcl' & Hk').
  assert (Hkeys : forall f, keys (fst (run (activate fsp row) s1)) !! f = if decide (f = fsp) then Some (target (clock s) row) else keys s !! f).
  { intros f. rewrite Hk'. unfold target. destruct (jwsSignActivatedAt row); rewrite ?Hk, ?Hcl; destruct (decide (f = fsp)) as [->|Hne]; try done; [by rewrite lookup_insert_eq|by rewrite lookup_insert_ne]. }
  destruct c; cbn [decide] in *.
  - split; [eexists; split; [done|]; unfold handled; cbn; lia|]. split; [done|]. split; [done|]. intros f. cbn. rewrite Hk. by destruct (decide (f = fsp)) as [->|].
  - rewrite run_catch, run_bind. destruct (run (activate fsp row) s1) as [s2 r2]. cbn [fst snd] in *. subst r2. cbn.
    split; [eexists; split; [done|]; unfold handled; cbn; lia|]. split; [congruence|]. split; [congruence|done].
  - rewrite run_catch, run_bind. destruct (run (activate fsp row) s1) as [s2 r2]. cbn [fst snd] in *. subst r2. cbn.
    split; [eexists; split; [done|]; unfold handled; cbn; lia|]. split; [congruence|]. split; [congruence|done].
Qed.

(** A sweep over rows of the table, of fsps that differ. *)
Lemma healthy_all rows r s : NoDup rows.*1 -> (forall f row, (f, row) ∈ rows -> keys s !! f = Some row) ->
  let s' := fst (run (reconcile_all rows r) s) in
  (exists r', snd (run (reconcile_all rows r) s) = Ok r' /\ failed r' = failed r /\ tenants r' = tenants r /\
     handled r' = handled r + Z.of_nat (length (List.filter signs rows))) /\
  (forall f, (forall row key, (f, row) ∈ rows -> own_key row <> Some key) ->
     keys s' !! f = keys s !! f /\ stored (outside s') !! f = stored (outside s) !! f) /\
  (forall f row key, (f, row) ∈ rows -> own_key row = Some key ->
     let c := found key (stored (outside s) !! f) in
     keys s' !! f = Some (settled (clock s) c row) /\
     stored (outside s') !! f = if decide (c = Published) then Some key else stored (outside s) !! f).
Proof.
  revert r s. induction rows as [|[fsp row] rows IH]; intros r s Hnd Hin s'.
  - split; [eexists; split; [done|]; cbn; lia|]. split; [done|]. intros f row key []%elem_of_nil.
  - apply NoDup_cons in Hnd as [Hnew Hnd]. cbn in Hnew. subst s'. cbn [reconcile_all List.filter]. unfold signs at 1. cbn [snd]. rewrite run_bind.
    destruct (own_key row) as [key|] eqn:Hkey.
    + destruct (healthy_tenant fsp row key r s (Hin fsp row ltac:(by left))) as ((r1 & Hr1 & Hf & Ht & Hh) & Hcl & Hst & Hk).
      destruct (run (reconcile_tenant fsp row key r) s) as [s1 q]. cbn [fst snd] in *. subst q.
      assert (Hother : forall f row', (f, row') ∈ rows -> f <> fsp) by (by intros f row' Hf' ->; apply Hnew, (list_elem_of_fmap_2' fst rows (fsp, row') fsp)).
      assert (Hstored : forall f, f <> fsp -> stored (outside s1) !! f = stored (outside s) !! f).
      { intros f Hne. rewrite Hst. case_decide; [by rewrite lookup_insert_ne|done]. }
      destruct (IH r1 s1) as ((r' & Hr' & Hf' & Ht' & Hh') & Hun & Hall); [done| |].
      { intros f row' Hrow'. rewrite Hk, decide_False by (by eapply Hother). apply Hin. by right. }
      split; [exists r'; split; [done|]; cbn [length]; lia|]. split.
      * intros f Hno. assert (Hne : f <> fsp) by (intros ->; by eapply Hno; [left|]). destruct (Hun f) as [-> ->]; [intros row' k Hrow'; apply Hno; by right|].
        rewrite Hk, decide_False by done. by rewrite Hstored.
      * intros f row' key' [[= -> ->]|Hrow']%elem_of_cons Hkey'.
        -- assert (key' = key) as -> by congruence.
           destruct (Hun fsp) as [-> ->]; [by intros row' k Hrow'; destruct (Hother _ _ Hrow')|]. rewrite Hk, decide_True by done. split; [done|].
           rewrite Hst. case_decide; [by rewrite lookup_insert_eq|done].
        -- pose proof (Hother _ _ Hrow') as Hne. destruct (Hall f row' key' Hrow' Hkey') as [-> ->]. by rewrite Hcl, Hstored.
    + cbn [run ret]. destruct (IH r s) as (Hr & Hun & Hall); [done|by intros f row' Hr'; apply Hin; right|]. split; [done|]. split.
      * intros f Hno. apply Hun. intros row' k Hrow'. apply Hno. by right.
      * intros f row' key' [[= -> ->]|Hrow']%elem_of_cons Hkey'; [congruence|by apply Hall].
Qed.

(** One sweep, tenant by tenant. *)
Lemma sweep_course (s : World) :
  let s' := fst (run reconcile s) in
  (exists r, snd (run reconcile s) = Ok r /\ failed r = 0 /\ published r + alreadyCorrect r + diverged r = tenants r) /\
  forall fsp, match keys s !! fsp ≫= own_key with
    | Some key =>
        let c := found key (stored (outside s) !! fsp) in
        keys s' !! fsp = settled (clock s) c <$> keys s !! fsp /\
        stored (outside s') !! fsp = if decide (c = Published) then Some key else stored (outside s) !! fsp
    | None => keys s' !! fsp = keys s !! fsp /\ stored (outside s') !! fsp = stored (outside s) !! fsp
    end.
Proof.
  cbn zeta. unfold reconcile, findAll. rewrite run_query. destruct (h_driver h (outside s)) as [-> Hd]. set (s0 := with_outside _ s).
  set (rows := List.filter signs (map_to_list (keys s))). assert (Hst0 : stored (outside s0) = stored (outside s)) by done.
  assert (Hrows : forall f row, (f, row) ∈ rows <-> keys s !! f = Some row /\ is_Some (own_key row)).
  { intros f row. unfold rows. rewrite list_elem_of_In, List.filter_In, <- list_elem_of_In, elem_of_map_to_list. unfold signs. cbn.
    destruct (own_key row); split; intros [? Ho]; (split; [done|]); try done; by destruct Ho. }
  destruct (healthy_all rows (mkResult (Z.of_nat (length rows)) 0 0 0 0 0) s0) as ((r & Hr & Hf & Ht & Hh) & Hun & Hall).
  - unfold rows. generalize (NoDup_fst_map_to_list (keys s)). generalize (map_to_list (keys s)). clear. induction l as [|[f row] l IH]; [done|].
    intros [Hnew Hnd]%NoDup_cons. cbn. destruct (signs (f, row)); [|by apply IH]. cbn. constructor; [|by apply IH]. intros Hin. apply Hnew.
    apply list_elem_of_fmap in Hin as (e & -> & [He _]%list_elem_of_In%List.filter_In).
    apply (proj2 (list_elem_of_fmap fst l (fst e))). exists e. split; [done|by apply list_elem_of_In].
  - intros f row [Hrow _]%Hrows. done.
  - split.
    { exists r. split; [done|]. split; [done|]. assert (Hff : List.filter signs rows = rows).
      { unfold rows. clear. induction (map_to_list (keys s)) as [|e l IH]; [done|]. cbn. destruct (signs e) eqn:E; [|done]. cbn. by rewrite E, IH. }
      rewrite Hff in Hh. unfold handled in Hh. cbn in Ht, Hh. lia. }
    intros fsp. destruct (keys s !! fsp) as [row|] eqn:Hrow; cbn [mbind option_bind].
    2: { destruct (Hun fsp) as [-> ->]; [|by rewrite Hst0]. intros row k [Hrow' _]%Hrows. congruence. }
    destruct (own_key row) as [key|] eqn:Hkey.
    2: { destruct (Hun fsp) as [-> ->]; [|by rewrite Hst0]. intros row' k [Hrow' _]%Hrows. congruence. }
    assert (Hin : (fsp, row) ∈ rows) by (apply Hrows; by rewrite Hkey). destruct (Hall fsp row key Hin Hkey) as [Hk Hs]. rewrite Hst0 in Hk, Hs. by rewrite Hk, Hs.
Qed.

Lemma target_settled now now' c row : settled now' c (target now row) = target now row.
Proof. unfold settled, target. case_decide; [done|]. destruct (jwsSignActivatedAt row) as [t|] eqn:E; [by rewrite E|done]. Qed.
Lemma settled_own_key now c row : own_key (settled now c row) = own_key row.
Proof. unfold settled, target. case_decide; [done|]. by destruct (jwsSignActivatedAt row). Qed.

(** C12. Where MCM and the driver work, one sweep brings every tenant to its key: MCM holds the key of
    every tenant it held no other key of, each of these that was never activated signs, and the
    rest stay as they were. The next sweep changes nothing, in the table or at MCM. *)
Theorem sweep_converges (s : World) :
  let s' := fst (run reconcile s) in let s'' := fst (run reconcile s') in
  (exists r, snd (run reconcile s) = Ok r /\ failed r = 0 /\ published r + alreadyCorrect r + diverged r = tenants r) /\
  (forall fsp, match keys s !! fsp ≫= own_key with
    | Some key =>
        let held := stored (outside s) !! fsp in
        if decide (found key held = Diverged)
        then keys s' !! fsp = keys s !! fsp /\ stored (outside s') !! fsp = held
        else keys s' !! fsp = target (clock s) <$> keys s !! fsp /\ exists k, stored (outside s') !! fsp = Some k /\ samePem k key = true
    | None => keys s' !! fsp = keys s !! fsp /\ stored (outside s') !! fsp = stored (outside s) !! fsp
    end) /\
  keys s'' = keys s' /\ stored (outside s'') = stored (outside s').
Proof.
  cbn zeta. destruct (sweep_course s) as [Hr Hc]. destruct (sweep_course (fst (run reconcile s))) as [_ Hc'].
  set (s' := fst (run reconcile s)) in *. set (s'' := fst (run reconcile s')) in *. clearbody s''. split; [exact Hr|]. split.
  - intros fsp. specialize (Hc fsp). destruct (keys s !! fsp) as [row|]; [|done]. cbn [mbind option_bind] in *. destruct (own_key row) as [key|]; [|done].
    cbn zeta in Hc |- *. destruct Hc as [Hk Hs]. rewrite Hk, Hs. unfold settled. destruct (found key _) eqn:Hfound; cbn.
    + by rewrite !(decide_True (P := Diverged = Diverged)), (decide_False (P := Diverged = Published)) by done.
    + rewrite !(decide_False (P := AlreadyCorrect = Diverged)), (decide_False (P := AlreadyCorrect = Published)) by done. split; [done|]. unfold found in Hfound.
      destruct (stored (outside s) !! fsp) as [k|]; [|done]. exists k. split; [done|]. destruct (has_text (Some k)); [|done]. by destruct (samePem k key).
    + rewrite !(decide_False (P := Published = Diverged)), (decide_True (P := Published = Published)) by done. split; [done|]. exists key. split; [done|apply samePem_refl].
  - assert (Hall : forall fsp, keys s'' !! fsp = keys s' !! fsp /\ stored (outside s'') !! fsp = stored (outside s') !! fsp); [|by split; apply map_eq; intros f; apply Hall].
    intros fsp. specialize (Hc fsp). specialize (Hc' fsp). destruct (keys s !! fsp) as [row|]; cbn [mbind option_bind] in Hc.
    2: { destruct Hc as [Hk _]. by rewrite Hk in Hc' |- *. }
    destruct (own_key row) as [key|] eqn:Hkey; destruct Hc as [Hk Hs]; rewrite Hk in Hc' |- *; cbn [fmap option_fmap option_map mbind option_bind] in Hc' |- *.
    2: { by rewrite Hkey in Hc'. }
    rewrite settled_own_key, Hkey in Hc'. cbn zeta in Hc'. destruct Hc' as [Hk' Hs']. rewrite Hk', Hs', Hs.
    destruct (found key (stored (outside s) !! fsp)) eqn:Hf.
    + rewrite (decide_False (P := Diverged = Published)) by done. rewrite Hf, decide_False by done. split; [|done]. unfold settled. by rewrite !decide_True.
    + rewrite (decide_False (P := AlreadyCorrect = Published)) by done. rewrite Hf, decide_False by done. split; [|done]. cbn [fmap option_fmap option_map]. apply f_equal.
      change (settled (clock s) AlreadyCorrect row) with (target (clock s) row). apply target_settled.
    + rewrite (decide_True (P := Published = Published)) by done. split; [|by destruct (decide (found key (Some key) = Published))]. cbn [fmap option_fmap option_map]. apply f_equal.
      change (settled (clock s) Published row) with (target (clock s) row). apply target_settled.
Qed.

Lemma healthy_publishAndEnable fsp row key s : keys s !! fsp = Some row -> own_key row = Some key ->
  let c := found key (stored (outside s) !! fsp) in let s' := fst (run (publishAndEnable fsp) s) in
  if decide (c = Diverged) then snd (run (publishAndEnable fsp) s) = Err PermanentPublishError /\ keys s' = keys s
  else (exists on, snd (run (publishAndEnable fsp) s) = Ok on) /\ keys s' !! fsp = Some (target (clock s) row) /\
       exists k, stored (outside s') !! fsp = Some k /\ samePem k key = true.
Proof.
  intros Hrow Hkey c s'. subst s'. unfold publishAndEnable, findByFspId. rewrite run_query. destruct (h_driver h (outside s)) as [-> Hd]. set (s0 := with_outside _ s).
  rewrite Hrow. cbn [mbind option_bind]. rewrite Hkey, run_bind. destruct (healthy_confirm fsp key s0) as (Hc & [Hk Hcl] & Hst).
  change (stored (outside s0)) with (stored (fst (driver (outside s)))) in *. rewrite Hd in Hc, Hst. fold c in Hc, Hst.
  destruct (run (confirm fsp key) s0) as [s1 r]. cbn [fst snd] in Hc, Hk, Hcl, Hst. subst r. destruct (decide (c = Diverged)) as [->|Hne]; [done|].
  replace (match c with Diverged => throw PermanentPublishError | _ => activate fsp row end) with (activate fsp row) by (by destruct c).
  destruct (healthy_activate fsp row s1) as (Hon & Hst' & _ & Hk'). split; [done|]. split.
  - rewrite Hk', Hk, Hcl. unfold target. destruct (jwsSignActivatedAt row); [done|by rewrite lookup_insert_eq].
  - rewrite Hst', Hst. case_decide as Hp; [exists key; rewrite lookup_insert_eq; split; [done|apply samePem_refl]|].
    subst c. unfold found in Hp, Hne. destruct (stored (outside s) !! fsp) as [k|]; [|done]. exists k. split; [done|].
    destruct (has_text (Some k)); [|done]. by destruct (samePem k key).
Qed.

(** Where MCM and the driver work, the announcement of a tenant that has a key is acknowledged,
    MCM then holds the key and a tenant that was never activated signs; unless MCM held another
    key: then the message ends and nothing changes. *)
Theorem announced_tenant_signs (fsp : jsstr) (row : ParticipantKey) (key : jsstr) (n : Z) (s : World) :
  trim fsp = fsp -> fsp <> [] -> keys s !! fsp = Some row -> own_key row = Some key ->
  let s' := fst (run (consume (Some fsp) n) s) in
  if decide (found key (stored (outside s) !! fsp) = Diverged)
  then snd (run (consume (Some fsp) n) s) = Ok Term /\ keys s' = keys s
  else snd (run (consume (Some fsp) n) s) = Ok Ack /\ keys s' !! fsp = Some (target (clock s) row) /\
       exists k, stored (outside s') !! fsp = Some k /\ samePem k key = true.
Proof.
  intros Htrim Hne Hrow Hkey. cbn zeta. unfold consume. cbn [fmap option_fmap option_map]. rewrite Htrim. destruct fsp as [|a fsp]; [done|].
  rewrite run_catch, run_bind. pose proof (healthy_publishAndEnable (a :: fsp) row key s Hrow Hkey) as H. cbn zeta in H. case_decide.
  - destruct H as [Hr Hk]. destruct (run (publishAndEnable (a :: fsp)) s) as [s1 r]. cbn in Hr, Hk |- *. by subst r.
  - destruct H as ([on Hon] & Hk & Hs). destruct (run (publishAndEnable (a :: fsp)) s) as [s1 r]. cbn in Hon, Hk, Hs |- *. by subst r.
Qed.
End healthy.
End publication.

Lemma registry_healthy : healthy (W := Registry) id.
Proof. split; try done; intros; split; done || by eexists. Qed.

Lemma sweep_converges_witness :
  let s := start (W := Registry) {[js "cash" := js "PEM C "]} in
  let s' := fst (run reconcile s) in
  keys s' !! acme = Some (activated 1700000000000 waiting) /\ (exists k, outside s' !! acme = Some k /\ samePem k (js "PEM A") = true) /\
  keys s' !! js "cash" = Some suspended.
Proof.
  cbn zeta. pose proof (sweep_converges id registry_healthy (start (W := Registry) {[js "cash" := js "PEM C "]})) as (_ & H & _).
  pose proof (H acme) as Ha. pose proof (H (js "cash")) as Hc. destruct Ha as [Ha Hs]. destruct Hc as [Hc _]. repeat split; assumption.
Defined.

Lemma announced_tenant_signs_witness :
  let s := start (W := Registry) ∅ in let s' := fst (run (consume (Some acme) 1) s) in
  snd (run (consume (Some acme) 1) s) = Ok Ack /\ keys s' !! acme = Some (activated 1700000000000 waiting) /\
  exists k, outside s' !! acme = Some k /\ samePem k (js "PEM A") = true.
Proof.
  exact (announced_tenant_signs id registry_healthy acme waiting (js "PEM A") 1 (start (W := Registry) ∅)
    eq_refl (fun e => match e in _ = l return match l with [] => False | _ => True end with eq_refl => I end) eq_refl eq_refl).
Defined.
