(* ===== verification/Rotation.v ===== *)
(** * What a rotation, a suspension or a migration can lose

    Limits of Tenants.v: an object that is saved after its row changed, a read of MCM that
    fails, a replica that is behind, rows the migration left without a key. *)

From S2P Require Import Prelude Interleave Outside Wire Tenants Publication.
#[local] Open Scope prog_scope.

Section limits.
  Context {W : Type} {surroundings : Surroundings W} {provisioner : JwsKeyProvisioner W}.
  Context (stored : W -> gmap jsstr jsstr) (h : healthy stored).
  Notation World := (World W).

(** The publication of a key once its row has been read. *)
Definition read_then (fsp : jsstr) (s : World) : World * Prog World exception bool := advance 1 (publishAndEnable fsp) s.
Lemma read_then_spec fsp row key s : keys s !! fsp = Some row -> own_key row = Some key ->
  keys (fst (read_then fsp s)) = keys s /\ clock (fst (read_then fsp s)) = clock s /\
  snd (read_then fsp s) = (let* c := confirm fsp key in match c with Diverged => throw PermanentPublishError | _ => activate fsp row end)%prog.
Proof.
  intros Hrow Hkey. unfold read_then, publishAndEnable, findByFspId, query_of. cbn [bind advance fst snd]. destruct (h_driver stored h (outside s)) as [-> _].
  cbn [bind ret]. rewrite Hrow. cbn [mbind option_bind]. by rewrite Hkey.
Qed.

Lemma healthy_save fsp row s :
  keys (fst (run (save fsp row) s)) = <[fsp := row]> (keys s) /\ clock (fst (run (save fsp row) s)) = clock s /\
  stored (outside (fst (run (save fsp row) s))) = stored (outside s) /\ snd (run (save fsp row) s) = Ok tt.
Proof. unfold save, statement_of. cbn. destruct (h_driver stored h (outside s)) as [-> Hd]. by rewrite <- Hd. Qed.

(** An operator's change of the switch. *)
Lemma healthy_policy fsp row sign s : trim fsp = fsp -> keys s !! fsp = Some row -> role row = Self -> has_text (jwsPublicKey row) = true ->
  let s' := fst (run (updateJwsPolicy (mkUpdateJwsPolicyInput fsp (Some sign) None)) s) in
  let row' := policy_row (clock s) (mkUpdateJwsPolicyInput fsp (Some sign) None) row in
  is_ok (snd (run (updateJwsPolicy (mkUpdateJwsPolicyInput fsp (Some sign) None)) s)) = true /\
  keys s' = <[fsp := row']> (keys s) /\ clock s' = clock s /\ stored (outside s') = stored (outside s).
Proof.
  intros Htrim Hrow Hrole Hkey. cbn zeta. unfold updateJwsPolicy. cbn [policy_fsp Tenants.sign]. rewrite Htrim. unfold findByFspId. rewrite run_query.
  destruct (h_driver stored h (outside s)) as [-> Hd]. rewrite Hrow, Hrole, Hkey. set (s0 := with_outside _ s).
  assert (Hst : stored (outside s0) = stored (outside s)) by (by rewrite <- Hd). rewrite !run_throw_when.
  rewrite (bool_decide_false (Self <> Self)) by auto. rewrite !andb_false_r. rewrite run_read, run_bind.
  destruct (healthy_save fsp (policy_row (clock s0) (mkUpdateJwsPolicyInput fsp (Some sign) None) row) s0) as (H1 & H2 & H3 & H4).
  destruct (run (save _ _) s0) as [s1 r]. cbn [fst snd] in *. subst r. cbn. split; [done|]. by rewrite H1, H2, H3, Hst.
Qed.

(** An operator who enables and then suspends a tenant while its publication waits for MCM finds
    the tenant signing: the publication saves the row as it was when it was read. *)
Theorem suspension_undone (fsp : jsstr) (row : ParticipantKey) (key : jsstr) (s : World) :
  trim fsp = fsp -> keys s !! fsp = Some row -> own_key row = Some key -> has_text (Some key) = true -> jwsSignActivatedAt row = None ->
  found key (stored (outside s) !! fsp) <> Diverged ->
  let '(s1, rest) := read_then fsp s in
  let s2 := fst (run (updateJwsPolicy (mkUpdateJwsPolicyInput fsp (Some true) None)) s1) in
  let s3 := fst (run (updateJwsPolicy (mkUpdateJwsPolicyInput fsp (Some false) None)) s2) in
  (exists suspended, keys s3 !! fsp = Some suspended /\ jwsSignEnabled suspended = false /\ is_Some (jwsSignActivatedAt suspended)) /\
  exists signing, keys (fst (run rest s3)) !! fsp = Some signing /\ jwsSignEnabled signing = true.
Proof.
  intros Htrim Hrow Hkey Htext Hnever Hfound. destruct (read_then_spec fsp row key s Hrow Hkey) as (Hk1 & Hc1 & Hrest).
  assert (Hst1 : stored (outside (fst (read_then fsp s))) = stored (outside s)).
  { unfold read_then, publishAndEnable, findByFspId, query_of. cbn. apply (proj2 (h_driver stored h (outside s))). }
  destruct (read_then fsp s) as [s1 rest]. cbn [fst snd] in *. subst rest.
  assert (Hrole : role row = Self /\ jwsPublicKey row = Some key) by (revert Hkey; unfold own_key; by destruct (role row)). destruct Hrole as [Hrole Hpub].
  destruct (healthy_policy fsp row true s1) as (_ & Hk2 & Hc2 & Hst2); [done|by rewrite Hk1|done|by rewrite Hpub|].
  set (s2 := fst (run _ s1)) in *. set (row2 := policy_row (clock s1) _ row) in *.
  destruct (healthy_policy fsp row2 false s2) as (_ & Hk3 & Hc3 & Hst3); [done|by rewrite Hk2, lookup_insert_eq|done|by cbn; rewrite Hpub|].
  set (s3 := fst (run _ s2)) in *. split.
  - eexists. rewrite Hk3, lookup_insert_eq. split; [done|]. split; [done|]. cbn. rewrite Hnever. by eexists.
  - rewrite run_bind. destruct (healthy_confirm stored h fsp key s3) as (Hc & [Hk4 Hc4] & _). rewrite Hst3, Hst2, Hst1 in Hc.
    destruct (run (confirm fsp key) s3) as [s4 r]. cbn [fst snd] in *. subst r.
    replace (match found key (stored (outside s) !! fsp) with Diverged => throw PermanentPublishError | _ => activate fsp row end)
      with (activate (W := W) fsp row) by (by destruct (found key _)).
    destruct (healthy_activate stored h fsp row s4) as (_ & _ & _ & Hk5). rewrite Hnever in Hk5. eexists. rewrite Hk5, lookup_insert_eq. done.
Qed.

(** A row without a key that the migration made a peer stays a peer when the signing keys of a
    tenant are registered for it, so its signing cannot be enabled. *)
Theorem keyless_tenant_stays_peer (fsp public private : jsstr) (row : ParticipantKey) (s : World) :
  trim fsp = fsp -> keys s !! fsp = Some row -> role row = Peer ->
  let s' := fst (run (addSigningKeys (mkAddSigningKeysInput fsp public (Some private))) s) in
  (exists row', keys s' !! fsp = Some row' /\ jwsPrivateKey row' = Some private /\ role row' = Peer) /\
  snd (run (updateJwsPolicy (mkUpdateJwsPolicyInput fsp (Some true) None)) s') = Err (PivotalException (js "PARTICIPANT_NOT_SIGNING_TENANT")).
Proof.
  intros Htrim Hrow Hrole. unfold addSigningKeys, findByFspId. cbn [fsp_name public_key private_key]. rewrite run_query.
  destruct (h_driver stored h (outside s)) as [-> Hd]. rewrite Hrow. cbn [saveEntity signing_keys_row]. rewrite Hrole. set (s0 := with_outside _ s).
  set (row' := mkParticipantKey Peer _ _ _ _ _). destruct (healthy_save fsp row' s0) as (H1 & _). set (s' := fst (run (save fsp row') s0)) in *. cbn zeta.
  assert (Hr : keys s' !! fsp = Some row') by (by rewrite H1, lookup_insert_eq). split; [by exists row'|].
  unfold updateJwsPolicy. cbn [policy_fsp Tenants.sign]. rewrite Htrim. unfold findByFspId. rewrite run_query.
  destruct (h_driver stored h (outside s')) as [-> _]. rewrite Hr, run_throw_when. subst row'. cbn [role].
  rewrite !(bool_decide_true (_ <> _)), bool_decide_true by done. done.
Qed.

(** A sync that finds another key for a peer saves the row the replica holds: what was changed
    since the replica's copy, be it the mode of verification or the role, is put back. *)
Theorem sync_restores_replica (fsp key : jsstr) (old : ParticipantKey) (s : World) :
  has_text (Some fsp) = true -> snd (send ListAllJwsKeys (outside s)) = Ok [mkJwsCert (Some fsp) (Some key)] ->
  replica s !! fsp = Some old -> role old = Peer -> jwsPublicKey old <> Some key ->
  keys (fst (run sync s)) !! fsp = Some (with_public key old) /\
  snd (run sync s) = Ok (mkSyncResult 1 0 1 0 0).
Proof.
  intros Htext Hlist Hold Hrole Hkey. unfold sync. rewrite run_mcm, Hlist. set (s1 := after _ s). cbn [sync_all]. unfold usable. cbn [dfspId publicKey mbind option_bind].
  rewrite Htext. unfold sync_entry, findByFspIdRead. rewrite run_bind, run_query. destruct (h_driver stored h (outside s1)) as [-> _].
  assert (Hr : replica s1 !! fsp = Some old) by done. rewrite Hr, Hrole, (bool_decide_false (Peer = Self)), (bool_decide_false (jwsPublicKey old = Some key)) by done.
  set (s2 := with_outside _ s1). rewrite run_bind. destruct (healthy_save fsp (with_public key old) s2) as (H1 & _ & _ & H4).
  destruct (run (save _ _) s2) as [s3 r]. cbn [fst snd] in *. subst r. cbn. by rewrite H1, lookup_insert_eq.
Qed.
End limits.

(** MCM holds a key of the tenant, another one; the request for it fails once. The announcement
    publishes the row's key over it and the tenant signs with a key its peers do not have. *)
Theorem unread_key_replaced (fsp key other : jsstr) (row : ParticipantKey) (mcm_keys : Registry) (s : World Link) :
  keys s !! fsp = Some row -> own_key row = Some key -> jwsSignActivatedAt row = None ->
  outside s = mkLink mcm_keys 1 -> mcm_keys !! fsp = Some other -> has_text (Some other) = true -> samePem other key = false ->
  let s' := fst (run (publishAndEnable fsp) s) in
  held (outside s') !! fsp = Some key /\ snd (run (publishAndEnable fsp) s) = Ok (negb (jwsSignEnabled row)) /\
  exists row', keys s' !! fsp = Some row' /\ jwsSignEnabled row' = true.
Proof.
  intros Hrow Hkey Hnever Hout Hother Htext Hdiff. cbn zeta. unfold publishAndEnable, findByFspId. rewrite run_query. rewrite Hrow, Hout.
  cbn [driver link fst snd mbind option_bind]. rewrite Hkey. unfold confirm, ensureRegistered. cbn [registration link negb].
  unfold publishAndVerifyJwsKey, mcm. cbn. unfold Registry in *.
  rewrite lookup_insert_eq, bool_decide_true by done. unfold activate. rewrite Hnever. cbn. rewrite !lookup_insert_eq. eauto.
Qed.

(** ** Examples *)

Lemma suspension_undone_witness :
  exists signing, let s1 := fst (read_then acme (start (W := Registry) ∅)) in
    let s2 := fst (run (updateJwsPolicy (mkUpdateJwsPolicyInput acme (Some true) None)) s1) in
    let s3 := fst (run (updateJwsPolicy (mkUpdateJwsPolicyInput acme (Some false) None)) s2) in
    keys (fst (run (snd (read_then acme (start (W := Registry) ∅))) s3)) !! acme = Some signing /\ jwsSignEnabled signing = true.
Proof.
  pose proof (suspension_undone id registry_healthy acme waiting (js "PEM A") (start (W := Registry) ∅) eq_refl eq_refl eq_refl eq_refl eq_refl
    (fun e => match e in _ = c return match c with Published => True | _ => False end with eq_refl => I end)) as H.
  cbn zeta. destruct (read_then acme _) as [s1 rest]. exact (proj2 H).
Defined.

(** A row the migration made, without a key. *)
Definition keyless : ParticipantKey := mkParticipantKey Peer None None false None (js "off").
Lemma keyless_tenant_stays_peer_witness :
  exists row, keys (fst (run (addSigningKeys (mkAddSigningKeysInput acme (js "PEM A") (Some (js "KEY A"))))
    (with_keys <[acme := keyless]> (start (W := Registry) ∅)))) !! acme = Some row /\ role row = Peer.
Proof.
  destruct (keyless_tenant_stays_peer id registry_healthy acme (js "PEM A") (js "KEY A") keyless (with_keys <[acme := keyless]> (start (W := Registry) ∅))
    eq_refl (lookup_insert_eq _ _ _) eq_refl) as [(row & H & _ & Hr) _].
  exists row. split; [exact H|exact Hr].
Defined.

(** The operator moved the mode of a peer to [off] after the replica's copy was made. *)
Lemma sync_restores_replica_witness :
  let s := with_keys <[js "bank" := mkParticipantKey Peer (Some (js "PEM B")) None false None (js "off")]> (start (W := Registry) {[js "bank" := js "PEM N"]}) in
  keys (fst (run sync s)) !! js "bank" = Some (with_public (js "PEM N") verified).
Proof.
  cbn zeta. refine (proj1 (sync_restores_replica id registry_healthy (js "bank") (js "PEM N") verified _ _ _ _ _ _));
    [reflexivity|vm_compute; reflexivity|vm_compute; reflexivity|reflexivity|]. intros e. vm_compute in e. discriminate e.
Defined.

Lemma unread_key_replaced_witness :
  held (outside (fst (run (publishAndEnable acme) (start (mkLink {[acme := js "PEM of the HSM"]} 1))))) !! acme = Some (js "PEM A").
Proof.
  eapply (unread_key_replaced acme (js "PEM A") (js "PEM of the HSM") waiting {[acme := js "PEM of the HSM"]} (start (mkLink {[acme := js "PEM of the HSM"]} 1)));
    vm_compute; reflexivity.
Defined.
