(* ===== verification/Certificates.v ===== *)
(** * Client certificates of DFSPs

    core/participant/domain: dfsp-certificate-issuer.ts, the commands that enrol and revoke,
    participant-cert.repository.ts and its queries. Vault's signing of a request, the reading
    of requests and certificates by node-forge and the driver of the database are arguments.
    A saved object overwrites every column of its row. The guard that reads the table is in
    ClientCert.v. *)

From S2P Require Import Prelude Errors Interleave Outside ClientCert.
#[local] Open Scope prog_scope.

(** ** Rows *)

(** [ParticipantCertStatusCode] *)
Inductive CertStatus : Set := ACTIVE | RETIRING | REVOKED | EXPIRED.
#[global] Instance CertStatus_eq : EqDecision CertStatus.
Proof. solve_decision. Defined.
Definition status_code (c : CertStatus) : jsstr :=
  js match c with ACTIVE => "active" | RETIRING => "retiring" | REVOKED => "revoked" | EXPIRED => "expired" end.

Record ParticipantCert : Set := mkParticipantCert {
  fspId : jsstr; fingerprintSha256 : jsstr; serial : jsstr; subject : jsstr; certPem : jsstr; caChainPem : option jsstr;
  status : CertStatus; validFrom : Z; validTo : Z; issuedAt : Z; revokedAt : option Z; note : option jsstr }.

(** [participantError] codes and the other errors of these commands. *)
Inductive exception : Set :=
  | CSR_MALFORMED | CSR_KEY_TOO_SMALL | CERT_ISSUANCE_FAILED | WrongSubject | CERT_NOT_FOUND | CERT_ALREADY_REVOKED
  | CERT_STATUS_UNKNOWN | UNKNOWN_PARTICIPANT | ISSUER_NOT_CONFIGURED | Unreadable | Failure.

(** [VaultClient.SignedCertificate], [ParsedCertificate]. *)
Record SignedCertificate : Set := mkSigned { s_certificatePem : jsstr; s_caChainPem : option jsstr; s_serialNumber : jsstr; s_expiration : option Z }.
Record ParsedCertificate : Set := mkParsed {
  p_fingerprint : jsstr; p_commonName : jsstr; p_serial : jsstr; p_subject : jsstr; p_validFrom : Z; p_validTo : Z }.

(** The clock, the participants' names, the table as written and as the replica has it. *)
Record World {W : Type} : Type := mkWorld {
  clock : Z; participants : list jsstr; certs : gmap Z ParticipantCert; replica : gmap Z ParticipantCert; outside : W }.
Arguments World : clear implicits. Arguments mkWorld {W}.

(** What a signing request turns out to be: unreadable, without an RSA key, or with the bits of one. *)
Inductive Csr : Set := MalformedCsr | NoRsaKey | RsaKey (bits : Z).

Class Authority (W : Type) : Type := {
  driver : W -> W * fate;
  readCsr : jsstr -> Csr;
  signCertificate : jsstr -> jsstr -> W -> W * result exception SignedCertificate;
  certificateFromPem : jsstr -> result exception ParsedCertificate;
  same_name : jsstr -> jsstr -> bool }.

Section certificates.
  Context {W : Type} {authority : Authority W}.
  Notation World := (World W).
  Notation Cmd := (Prog World exception).

Definition with_outside (w : W) (s : World) : World := mkWorld (clock s) (participants s) (certs s) (replica s) w.
Definition with_certs (f : gmap Z ParticipantCert -> gmap Z ParticipantCert) (s : World) : World :=
  mkWorld (clock s) (participants s) (f (certs s)) (replica s) (outside s).

Notation query := (query_of outside with_outside driver Failure).
Notation statement := (statement_of outside with_outside driver Failure).
Notation vault := (outer_of outside with_outside).

(** ** ParticipantCertRepository *)

(** [save], as one step that writes the row. TypeORM reads the row again and updates the columns
    that differ, which leaves the same row unless another writer comes between the two. *)
Definition save (id : Z) (row : ParticipantCert) : Cmd unit := statement (fun s => Ok (with_certs <[id := row]> s)).
(** A new row: fingerprints and serials are unique. *)
Definition clashes (row : ParticipantCert) (e : Z * ParticipantCert) : bool :=
  str_eqb (fingerprintSha256 (snd e)) (fingerprintSha256 row) || str_eqb (serial (snd e)) (serial row).
Definition insertCert (row : ParticipantCert) : Cmd unit :=
  statement (fun s => if existsb (clashes row) (map_to_list (certs s)) then Err Failure
                      else Ok (with_certs <[fresh (dom (certs s)) := row]> s)).
Definition is_usable (fsp : jsstr) (row : ParticipantCert) : bool :=
  str_eqb (fspId row) fsp && match status row with ACTIVE | RETIRING => true | _ => false end.
(** [find], newest first, ties in some order. *)
Fixpoint insert_newest (e : Z * ParticipantCert) (l : list (Z * ParticipantCert)) : list (Z * ParticipantCert) :=
  match l with
  | [] => [e]
  | x :: l' => if issuedAt (snd x) <? issuedAt (snd e) then e :: l else x :: insert_newest e l'
  end.
Definition newest_first (l : list (Z * ParticipantCert)) : list (Z * ParticipantCert) := fold_right insert_newest [] l.
Definition findUsableByFspId (fsp : jsstr) : Cmd (list (Z * ParticipantCert)) :=
  query (fun s => newest_first (List.filter (fun e => is_usable fsp (snd e)) (map_to_list (replica s)))).
Definition findById (id : Z) : Cmd (option ParticipantCert) := query (fun s => certs s !! id).
(** The lookup of the guard. *)
Definition findByFingerprint (fingerprint : jsstr) (m : gmap Z ParticipantCert) : option ParticipantCert :=
  snd <$> List.find (fun e => str_eqb (fingerprintSha256 (snd e)) fingerprint) (map_to_list m).
(** [findLapsed] *)
Definition findLapsed (now : Z) (s : World) : list (Z * ParticipantCert) :=
  List.filter (fun e => (validTo (snd e) <? now) && match status (snd e) with EXPIRED | REVOKED => false | _ => true end)
    (map_to_list (replica s)).

(** ** DfspCertificateIssuer *)

Definition MINIMUM_RSA_KEY_BITS : Z := 2048.
Definition assertUsableCsr (csrPem : jsstr) : Cmd unit :=
  match readCsr csrPem with
  | MalformedCsr => throw CSR_MALFORMED
  | NoRsaKey => throw CSR_KEY_TOO_SMALL
  | RsaKey bits => throw_when (bits <? MINIMUM_RSA_KEY_BITS) CSR_KEY_TOO_SMALL
  end.

Record Request : Set := mkRequest { r_fspId : jsstr; r_csrPem : jsstr; r_note : option jsstr }.
Definition sign (request : Request) : Cmd SignedCertificate :=
  catch (vault (signCertificate (r_csrPem request) (r_fspId request))) (fun _ => throw CERT_ISSUANCE_FAILED).

Definition retiring (row : ParticipantCert) : ParticipantCert :=
  mkParticipantCert (fspId row) (fingerprintSha256 row) (serial row) (subject row) (certPem row) (caChainPem row) RETIRING
    (validFrom row) (validTo row) (issuedAt row) (revokedAt row) (note row).
Fixpoint retireAll (usable : list (Z * ParticipantCert)) : Cmd unit :=
  match usable with
  | [] => ret tt
  | (id, row) :: usable =>
      if bool_decide (status row = RETIRING) then retireAll usable
      else let* _ := save id (retiring row) in retireAll usable
  end.
Definition retireExisting (fsp : jsstr) : Cmd unit := let* usable := findUsableByFspId fsp in retireAll usable.

(** The row of a certificate that was signed. *)
Definition issued (request : Request) (signed : SignedCertificate) (parsed : ParsedCertificate) (now : Z) : ParticipantCert :=
  mkParticipantCert (r_fspId request) (p_fingerprint parsed)
    (match s_serialNumber signed with [] => p_serial parsed | s => s end)
    (p_subject parsed) (s_certificatePem signed) (s_caChainPem signed) ACTIVE
    (db_second (p_validFrom parsed)) (db_second (default (p_validTo parsed) (s_expiration signed))) (db_second now) None (r_note request).
Definition issue (request : Request) : Cmd ParticipantCert :=
  let* _ := assertUsableCsr (r_csrPem request) in
  let* signed := sign request in
  let* parsed := Done (certificateFromPem (s_certificatePem signed)) in
  let* _ := throw_when (negb (str_eqb (p_commonName parsed) (r_fspId request))) WrongSubject in
  let* _ := retireExisting (r_fspId request) in
  let* now := read clock in
  let row := issued request signed parsed now in
  let* _ := insertCert row in
  ret row.

(** ** Commands *)

(** [EnrollDfspCertificateHandler]; [configured] when an issuer is injected. *)
Definition enroll (configured : bool) (fsp csrPem : jsstr) (enrollment_note : option jsstr) : Cmd ParticipantCert :=
  let fsp := trim fsp in
  let* _ := throw_when (negb configured) ISSUER_NOT_CONFIGURED in
  let* known := query (fun s => existsb (fun n => same_name n fsp) (participants s)) in
  let* _ := throw_when (negb known) UNKNOWN_PARTICIPANT in
  issue (mkRequest fsp (trim csrPem) (trim <$> enrollment_note)).

(** [RevokeDfspCertificateHandler] *)
Definition revoked_note (reason old : option jsstr) : option jsstr :=
  match reason with
  | Some r =>
      if (0 <? length (trim r))%nat
      then let text := js "Revoked: " ++ trim r in
           match old with None | Some [] => Some text | Some old => Some (old ++ js " | " ++ text) end
      else old
  | None => old
  end.
Definition revoked (now : Z) (reason : option jsstr) (row : ParticipantCert) : ParticipantCert :=
  mkParticipantCert (fspId row) (fingerprintSha256 row) (serial row) (subject row) (certPem row) (caChainPem row) REVOKED
    (validFrom row) (validTo row) (issuedAt row) (Some (db_second now)) (revoked_note reason (note row)).
Definition revokeCertificate (id : Z) (reason : option jsstr) : Cmd ParticipantCert :=
  let* found := findById id in
  match found with
  | None => throw CERT_NOT_FOUND
  | Some row =>
      let* _ := throw_when (bool_decide (status row = REVOKED)) CERT_ALREADY_REVOKED in
      let* now := read clock in
      let row := revoked now reason row in
      let* _ := save id row in
      ret row
  end.
End certificates.

(** What the guard of web-outbound reads of a row. *)
Definition guarded (row : ParticipantCert) : DfspCertificate.certificate :=
  DfspCertificate.mkCertificate (fspId row) (status_code (status row)) (validFrom row) (validTo row).
(** [DfspCertificateGuard] over a table. *)
Definition admits (m : gmap Z ParticipantCert) (mandatory : bool) (xfcc source : option jsstr) (now : Z) : result thrown unit :=
  DfspCertificate.canActivate (fun f => Ok (guarded <$> findByFingerprint f m)) mandatory false xfcc source now.
