(* ===== verification/Issuance.v ===== *)
(** * What the issuance of certificates keeps

    The theorems on Certificates.v: what the guard admits is bound to its tenant, one issuance
    alone, its refusals, and the revocations an issuance undoes. *)

From S2P Require Import Prelude Errors Interleave Outside ClientCert Certificates.
#[local] Open Scope prog_scope.

Section issuance.
  Context {W : Type} {authority : Authority W}.
  Notation World := (World W).
  Notation Cmd := (Prog World exception).

Lemma newest_first_perm l : newest_first l ≡ₚ l.
Proof.
  assert (Hi : forall e l, insert_newest e l ≡ₚ e :: l).
  { intros e. induction l0 as [|x l0 IH]; cbn; [done|]. destruct (_ <? _); [done|]. rewrite IH. by constructor. }
  induction l as [|e l IH]; cbn; [done|]. by rewrite Hi, IH.
Qed.

(** ** Every recorded certificate names its tenant *)

Inductive command : Type :=
  | Enroll (configured : bool) (fsp csrPem : jsstr) (enrollment_note : option jsstr) | Revoke (id : Z) (reason : option jsstr).
Definition perform (c : command) : Cmd ParticipantCert :=
  match c with Enroll configured fsp csrPem n => enroll configured fsp csrPem n | Revoke id reason => revokeCertificate id reason end.
(** Between the calls time passes, the replica catches up, Vault is used by others. *)
Definition drift (s s' : World) : Prop := certs s' = certs s /\ (replica s' = replica s \/ replica s' = certs s).

(** The certificate of the row has its fingerprint and the fsp as its common name. *)
Definition names_tenant (row : ParticipantCert) : Prop :=
  exists parsed, certificateFromPem (certPem row) = Ok parsed /\ p_commonName parsed = fspId row /\ p_fingerprint parsed = fingerprintSha256 row.
Definition all_named (s : World) : Prop :=
  (forall id row, certs s !! id = Some row -> names_tenant row) /\ (forall id row, replica s !! id = Some row -> names_tenant row).

Lemma all_named_frame s s' : certs s' = certs s -> replica s' = replica s -> all_named s -> all_named s'.
Proof. unfold all_named. by intros -> ->. Qed.
Lemma all_named_save s id row : names_tenant row -> all_named s -> all_named (with_certs <[id := row]> s).
Proof. intros Hn [H1 H2]. split; [|done]. intros i r. cbn. intros [[_ <-]|[_ H]]%lookup_insert_Some; [done|by eapply H1]. Qed.

Lemma all_named_outside w s : all_named s -> all_named (with_outside w s).
Proof. by apply all_named_frame. Qed.
Definition keeps_vault {A} f := keeps_outer_of (E := exception) (A := A) outside with_outside all_named all_named_outside f.
Definition keeps_query {A} f P := keeps_query_of (A := A) outside with_outside driver Failure all_named all_named_outside f P.
Definition keeps_statement f := keeps_statement_of outside with_outside driver Failure all_named all_named_outside f.
Lemma keeps_saveCert id row : names_tenant row -> keeps all_named (fun _ => True) (save id row).
Proof. intros Hn. apply keeps_statement. intros s s' HI [= <-]. by apply all_named_save. Qed.
Lemma keeps_insertCert row : names_tenant row -> keeps all_named (fun _ => True) (insertCert row).
Proof. intros Hn. apply keeps_statement. intros s s' HI. destruct (existsb _ _); [done|]. intros [= <-]. by apply all_named_save. Qed.
Lemma keeps_retireAll l : Forall (fun e => names_tenant (snd e)) l -> keeps all_named (fun _ => True) (retireAll l).
Proof.
  induction 1 as [|[id row] l Hn _ IH]; [by apply keeps_ret|]. cbn [retireAll]. case_bool_decide; [done|]. eapply keeps_bind; [by apply keeps_saveCert|by intros].
Qed.
Lemma keeps_retireExisting fsp : keeps all_named (fun _ => True) (retireExisting fsp).
Proof.
  unfold retireExisting, findUsableByFspId. eapply keeps_bind; [|intros l Hl; by apply keeps_retireAll]. apply keeps_query. intros s [_ HI].
  rewrite newest_first_perm. apply Forall_forall. intros [id row] [Hin _]%list_elem_of_In%List.filter_In. apply list_elem_of_In, elem_of_map_to_list in Hin. by eapply HI.
Qed.
Lemma keeps_issue request : keeps all_named (fun _ => True) (issue request).
Proof.
  unfold issue, assertUsableCsr, sign. eapply (keeps_bind _ (fun _ => True)).
  { destruct (readCsr _); [apply keeps_throw..|]. eapply keeps_weaken; [|apply keeps_throw_when]. done. }
  intros _ _. eapply (keeps_bind _ (fun _ => True)); [apply keeps_catch; [apply keeps_vault|intros; apply keeps_throw]|]. intros signed _.
  eapply (keeps_bind _ (fun parsed => certificateFromPem (s_certificatePem signed) = Ok parsed)).
  { intros s. destruct (certificateFromPem _) eqn:E; done. }
  intros parsed Hp. eapply keeps_bind; [apply keeps_throw_when|cbn beta]. intros _ Hcn%negb_false_iff%bool_decide_eq_true.
  eapply keeps_bind; [apply keeps_retireExisting|intros _ _]. eapply (keeps_bind _ (fun _ => True)); [by apply keeps_read|intros now _].
  eapply keeps_bind; [apply keeps_insertCert|intros _ _; by apply keeps_ret]. exists parsed. by cbn.
Qed.
Lemma keeps_request c : keeps all_named (fun _ => True) (perform c).
Proof.
  destruct c; cbn [perform].
  - unfold enroll. eapply keeps_bind; [apply keeps_throw_when|cbn beta; intros _ _]. eapply (keeps_bind _ (fun _ => True)); [by apply keeps_query|intros k _].
    eapply keeps_bind; [apply keeps_throw_when|cbn beta; intros _ _]. apply keeps_issue.
  - unfold revokeCertificate. eapply (keeps_bind _ (fun o => forall row, o = Some row -> names_tenant row)).
    { apply keeps_query. intros s [HI _] row. apply HI. }
    intros [row|] Hrow; [|apply keeps_throw]. eapply keeps_bind; [apply keeps_throw_when|cbn beta; intros _ _].
    eapply (keeps_bind _ (fun _ => True)); [by apply keeps_read|intros now _]. eapply keeps_bind; [apply keeps_saveCert|intros _ _; by apply keeps_ret].
    exact (Hrow row eq_refl).
Qed.

Lemma findByFingerprint_spec f m row : findByFingerprint f m = Some row -> exists id, m !! id = Some row /\ fingerprintSha256 row = f.
Proof.
  unfold findByFingerprint. destruct (List.find _ _) as [[id r]|] eqn:E; [|done]. intros [= <-]. apply List.find_some in E as [Hin Hf].
  exists id. split; [by apply elem_of_map_to_list, list_elem_of_In|by apply bool_decide_eq_true in Hf].
Qed.

(** C13. Enrolments and revocations interleave call by call, calls fail, the replica lags: a request
    that presents a certificate passes the guard only when the table the guard reads, the written
    one or its replica, has a row with that fingerprint, of the participant that fspiop-source
    names, not revoked there and within its dates; and the certificate of this row has the
    fingerprint and the participant as its common name, as the issuer read it. *)
Theorem admitted_is_bound (s : World) c mandatory xfcc source now presented (from_replica : bool) :
  all_named s -> rtc (pool_step (fun p => exists cmd, p = perform cmd) drift) (s, []) c ->
  Xfcc.parse xfcc = Some presented ->
  let m := if from_replica then replica (fst c) else certs (fst c) in
  admits m mandatory xfcc source now = Ok tt ->
  exists name id row parsed, source = Some name /\ m !! id = Some row /\ findByFingerprint (Xfcc.hash presented) m = Some row /\
    fspId row = trim name /\ status row <> REVOKED /\ validFrom row <= now < validTo row /\
    certificateFromPem (certPem row) = Ok parsed /\ p_fingerprint parsed = Xfcc.hash presented /\ p_commonName parsed = trim name.
Proof.
  intros HI Hrun Hx m Ha. assert (HI' : all_named (fst c)).
  { eapply pool_keeps; [| |exact Hrun|exact HI]; [by intros p [cmd ->]; apply keeps_request|].
    intros s1 s2 [Hc [Hr|Hr]] [H1 H2]; split; rewrite ?Hc, ?Hr; done. }
  assert (Hm : forall id row, m !! id = Some row -> names_tenant row) by (subst m; destruct from_replica; apply HI'). clearbody m.
  unfold admits, DfspCertificate.canActivate in Ha. rewrite Hx in Ha. destruct source as [name|]; [|done]. cbn [DfspCertificate.readSource] in Ha.
  destruct (length (trim name) =? 0)%nat; [done|]. destruct (findByFingerprint (Xfcc.hash presented) m) as [row|] eqn:Hf; [|done]. cbn [fmap option_fmap option_map] in Ha.
  apply findByFingerprint_spec in Hf as (id & Hid & Hfp). destruct (Hm id row Hid) as (parsed & Hp & Hcn & Hpf). exists name, id, row, parsed.
  unfold DfspCertificate.assertUsable in Ha. cbn [DfspCertificate.status guarded DfspCertificate.fspId DfspCertificate.validFrom DfspCertificate.validTo] in Ha.
  destruct (str_eqb (status_code (status row)) DfspCertificate.REVOKED) eqn:Hst; [done|]. cbn [throw_if] in Ha.
  destruct (_ || _) eqn:Hv in Ha; [done|]. cbn [throw_if] in Ha. destruct (str_eqb (fspId row) (trim name)) eqn:Hs; [|done]. apply bool_decide_eq_true in Hs.
  bool_hyps. repeat split; try congruence; try lia. intros E. rewrite E in Hst. done.
Qed.

(** ** One issuance *)

(** The driver works. *)
Definition driven : Prop := forall w, snd (driver w) = Works.
Context (h : driven).

Lemma run_save id row s : exists w, run (save id row) s = (with_outside w (with_certs <[id := row]> s), Ok tt).
Proof. unfold save, statement_of. cbn. rewrite h. cbn. by eexists. Qed.

(** The rows of a list are written as they were read, but for the status. *)
Lemma run_retireAll l s : NoDup l.*1 ->
  let s' := fst (run (retireAll l) s) in
  snd (run (retireAll l) s) = Ok tt /\ clock s' = clock s /\ replica s' = replica s /\
  forall i, certs s' !! i = match (list_to_map l : gmap Z ParticipantCert) !! i with
                            | Some row => if decide (status row = RETIRING) then certs s !! i else Some (retiring row)
                            | None => certs s !! i
                            end.
Proof.
  revert s. induction l as [|[id row] l IH]; intros s Hnd; cbn zeta; [by repeat split|].
  apply NoDup_cons in Hnd as [Hnew Hnd]. cbn [retireAll fmap list_fmap fst] in *.
  assert (Hout : (list_to_map l : gmap Z ParticipantCert) !! id = None) by (by apply not_elem_of_list_to_map_1).
  rewrite list_to_map_cons. case_bool_decide as Hst.
  - destruct (IH s Hnd) as (H1 & H2 & H3 & H4). split; [done|]. split; [done|]. split; [done|]. intros i. rewrite H4.
    destruct (decide (i = id)) as [->|Hne]; [by rewrite Hout, lookup_insert_eq, decide_True|by rewrite lookup_insert_ne].
  - rewrite run_bind. destruct (run_save id (retiring row) s) as [w ->]. set (s1 := with_outside w _). destruct (IH s1 Hnd) as (H1 & H2 & H3 & H4).
    split; [done|]. split; [done|]. split; [done|]. intros i. rewrite H4. destruct (decide (i = id)) as [->|Hne].
    + rewrite Hout, lookup_insert_eq, decide_False by done. apply lookup_insert_eq.
    + rewrite lookup_insert_ne by done. cbn. by rewrite lookup_insert_ne.
Qed.

(** The list an issuance reads: the usable rows of the replica. *)
Lemma usable_list fsp (m : gmap Z ParticipantCert) :
  let l := newest_first (List.filter (fun e => is_usable fsp (snd e)) (map_to_list m)) in
  NoDup l.*1 /\ forall i, (list_to_map l : gmap Z ParticipantCert) !! i = (row ← m !! i; if is_usable fsp row then Some row else None).
Proof.
  cbn zeta. set (l := newest_first _). assert (Hl : forall id row, (id, row) ∈ l <-> m !! id = Some row /\ is_usable fsp row = true).
  { intros id row. unfold l. rewrite newest_first_perm, list_elem_of_In, List.filter_In, <- list_elem_of_In, elem_of_map_to_list. done. }
  assert (Hnd : NoDup l.*1).
  { unfold l. rewrite newest_first_perm. generalize (NoDup_fst_map_to_list m). generalize (map_to_list m). clear.
    induction l as [|[i row] l IH]; [done|]. intros [Hnew Hnd]%NoDup_cons. cbn. destruct (is_usable fsp row); [|by apply IH]. cbn.
    constructor; [|by apply IH]. intros Hin. apply Hnew. apply list_elem_of_fmap in Hin as (e & E & [He _]%list_elem_of_In%List.filter_In). cbn in E. subst i.
    apply (proj2 (list_elem_of_fmap fst l (fst e))). exists e. split; [done|by apply list_elem_of_In]. }
  split; [done|]. intros i. destruct (_ !! i) as [row|] eqn:E.
  - apply elem_of_list_to_map_2, Hl in E as [-> Hu]. cbn. by rewrite Hu.
  - destruct (m !! i) as [row|] eqn:Hi; [|done]. cbn. destruct (is_usable fsp row) eqn:Hu; [|done].
    apply not_elem_of_list_to_map_2 in E. destruct E. apply (list_elem_of_fmap_2' fst _ (i, row)); [by apply Hl|done].
Qed.
Lemma run_retireFrom fsp s :
  let s' := fst (run (retireExisting fsp) s) in
  snd (run (retireExisting fsp) s) = Ok tt /\ clock s' = clock s /\
  forall i, certs s' !! i = match replica s !! i with
                            | Some row => if is_usable fsp row && negb (bool_decide (status row = RETIRING)) then Some (retiring row) else certs s !! i
                            | None => certs s !! i
                            end.
Proof.
  cbn zeta. unfold retireExisting, findUsableByFspId. rewrite run_query, h. set (s0 := with_outside _ s).
  destruct (usable_list fsp (replica s)) as [Hnd Hl]. destruct (run_retireAll _ s0 Hnd) as (H1 & H2 & _ & H4). split; [done|]. split; [done|].
  intros i. rewrite H4, Hl. change (certs s0) with (certs s). destruct (replica s !! i) as [row|]; cbn; [|done]. destruct (is_usable fsp row); cbn; [|done].
  case_decide as E; [by rewrite bool_decide_true|by rewrite bool_decide_false].
Qed.

(** The rows an issuance retires. *)
Definition superseded (fsp : jsstr) (row : ParticipantCert) : ParticipantCert := if is_usable fsp row then retiring row else row.
Lemma run_retireExisting fsp s : replica s = certs s ->
  let s' := fst (run (retireExisting fsp) s) in
  snd (run (retireExisting fsp) s) = Ok tt /\ clock s' = clock s /\ certs s' = superseded fsp <$> certs s.
Proof.
  intros Hrep. destruct (run_retireFrom fsp s) as (H1 & H2 & H3). split; [done|]. split; [done|]. apply map_eq. intros i. rewrite H3, lookup_fmap, Hrep.
  destruct (certs s !! i) as [row|]; [|done]. cbn. unfold superseded. destruct (is_usable fsp row); [|done]. case_bool_decide as Hst; [|done].
  cbn. f_equal. destruct row; cbn in *. by subst.
Qed.

Definition active_of (fsp : jsstr) (m : gmap Z ParticipantCert) (id : Z) : Prop :=
  exists row, m !! id = Some row /\ fspId row = fsp /\ status row = ACTIVE.
(** What comes of an issuance: the table is as it was; or the new certificate could not be
    stored and only the old ones are retired; or it is the one active certificate. *)
Inductive issuance (request : Request) (s s' : World) : result exception ParticipantCert -> Prop :=
  | issuance_refused e : e ∈ [CSR_MALFORMED; CSR_KEY_TOO_SMALL; CERT_ISSUANCE_FAILED; WrongSubject] \/ (exists pem, certificateFromPem pem = Err e) ->
      certs s' = certs s -> issuance request s s' (Err e)
  | issuance_clashed : certs s' = superseded (r_fspId request) <$> certs s -> issuance request s s' (Err Failure)
  | issuance_done id row : certs s !! id = None -> certs s' = <[id := row]> (superseded (r_fspId request) <$> certs s) ->
      fspId row = r_fspId request -> status row = ACTIVE -> names_tenant row -> (forall i, active_of (r_fspId request) (certs s') i <-> i = id) ->
      issuance request s s' (Ok row).

(** The steps of an issuance: refused before the table is touched, or its certificates retired
    and the new one stored, unless it clashes with one that is there. *)
Lemma issue_steps request s :
  let s' := fst (run (issue request) s) in
  (exists e, snd (run (issue request) s) = Err e /\ certs s' = certs s /\
     (e ∈ [CSR_MALFORMED; CSR_KEY_TOO_SMALL; CERT_ISSUANCE_FAILED; WrongSubject] \/ exists pem, certificateFromPem pem = Err e)) \/
  (exists w signed parsed, certificateFromPem (s_certificatePem signed) = Ok parsed /\ p_commonName parsed = r_fspId request /\
     let s2 := fst (run (retireExisting (r_fspId request)) (with_outside w s)) in let row := issued request signed parsed (clock s) in
     snd (run (issue request) s) = Err Failure /\ certs s' = certs s2 \/
     snd (run (issue request) s) = Ok row /\ certs s' = <[fresh (dom (certs s2)) := row]> (certs s2)).
Proof.
  cbn zeta. unfold issue, assertUsableCsr. rewrite run_bind.
  assert (Hcsr : exists r, run (match readCsr (r_csrPem request) with MalformedCsr => throw CSR_MALFORMED | NoRsaKey => throw CSR_KEY_TOO_SMALL
      | RsaKey bits => throw_when (bits <? MINIMUM_RSA_KEY_BITS) CSR_KEY_TOO_SMALL end) s = (s, r) /\
    (r = Ok tt \/ r = Err CSR_MALFORMED \/ r = Err CSR_KEY_TOO_SMALL)).
  { destruct (readCsr _) as [| |bits]; [by eexists; split; auto..|]. destruct (bits <? _); eexists; split; auto. }
  destruct Hcsr as (r & -> & [->|[->| ->]]); [|left; eexists; split; [done|]; split; [done|]; left; set_solver..].
  rewrite run_bind. unfold sign. rewrite run_catch. unfold outer_of. cbn [run]. set (w := fst (signCertificate _ _ (outside s))).
  destruct (snd (signCertificate _ _ (outside s))) as [signed|e]; [|left; eexists; split; [done|]; split; [done|]; left; set_solver]. set (s1 := with_outside w s).
  rewrite run_bind. destruct (certificateFromPem (s_certificatePem signed)) as [parsed|e] eqn:Hp; cbn [run]; [|left; eexists; split; [done|]; split; [done|]; right; eauto].
  rewrite run_throw_when. destruct (str_eqb (p_commonName parsed) (r_fspId request)) eqn:Hcn; cbn [negb]; [|left; eexists; split; [done|]; split; [done|]; left; set_solver].
  apply bool_decide_eq_true in Hcn. right. exists w, signed, parsed. split; [done|]. split; [done|]. rewrite run_bind.
  destruct (run_retireFrom (r_fspId request) s1) as (H1 & H2 & _). fold s1. destruct (run (retireExisting (r_fspId request)) s1) as [s2 r]. cbn [fst snd] in H1, H2 |- *. subst r.
  rewrite run_read, run_bind, H2. change (clock s1) with (clock s). set (row := issued request signed parsed (clock s)). unfold insertCert, statement_of. cbn [run].
  set (s3 := with_outside _ s2). rewrite h. change (map_to_list (certs s3)) with (map_to_list (certs s2)). destruct (existsb (clashes row) _); [by left|by right].
Qed.

Lemma issue_outcome request s : replica s = certs s -> issuance request s (fst (run (issue request) s)) (snd (run (issue request) s)).
Proof.
  intros Hrep. destruct (issue_steps request s) as [(e & -> & Hc & He)|(w & signed & parsed & Hp & Hcn & H)]; [by apply issuance_refused|]. cbn zeta in H.
  destruct (run_retireExisting (r_fspId request) (with_outside w s) Hrep) as (_ & _ & H3). change (certs (with_outside w s)) with (certs s) in H3.
  set (s2 := fst (run (retireExisting _) _)) in *. set (row := issued request signed parsed (clock s)) in *. destruct H as [[-> Hc]|[-> Hc]]; [apply issuance_clashed; congruence|].
  assert (Hnone : certs s !! fresh (dom (certs s2)) = None).
  { apply not_elem_of_dom. rewrite <- (dom_fmap_L (superseded (r_fspId request)) (certs s)), <- H3. apply is_fresh. }
  apply (issuance_done _ _ _ (fresh (dom (certs s2)))); [done|by rewrite Hc, H3|done|done|by exists parsed|].
  intros i. unfold active_of. rewrite Hc. split.
  - intros (q & Hq & Hfsp & Hact). apply lookup_insert_Some in Hq as [[<- _]|[_ Hq]]; [done|]. rewrite H3, lookup_fmap in Hq.
    destruct (certs s !! i) as [q0|]; [|done]. injection Hq as <-. unfold superseded in Hfsp, Hact. destruct (is_usable _ q0) eqn:Hu; [done|].
    unfold is_usable in Hu. rewrite Hfsp, Hact in Hu. unfold str_eqb in Hu. by rewrite bool_decide_true in Hu.
  - intros ->. exists row. by rewrite lookup_insert_eq.
Qed.

(** An issuance alone, on a table the replica has caught up with: unless it is refused, and then
    the table is as it was, the tenant's usable certificates are retired, revoked and expired
    ones stay as they are, and the new certificate, which names the tenant, is its one active
    certificate; if it cannot be stored the old ones are retired all the same. *)
Theorem issuance_course (request : Request) (s : World) : replica s = certs s ->
  issuance request s (fst (run (issue request) s)) (snd (run (issue request) s)).
Proof. apply issue_outcome. Qed.

(** A certificate was revoked and the replica does not show it yet: issuing the tenant's next
    certificate saves the replica's row, the revocation is gone, and the guard admits requests
    with the revoked certificate again until it expires. *)
Theorem revocation_undone (request : Request) (id : Z) (before after row : ParticipantCert) (reason : option jsstr) (s : World)
    (mandatory : bool) (xfcc source : option jsstr) (now : Z) presented name :
  status before = ACTIVE -> fspId before = r_fspId request -> after = revoked (clock s) reason before ->
  certs s !! id = Some after -> replica s !! id = Some before ->
  (forall j r, certs s !! j = Some r -> fingerprintSha256 r = fingerprintSha256 before -> j = id) ->
  (forall j r, replica s !! j = Some r -> fingerprintSha256 r = fingerprintSha256 before -> j = id) ->
  snd (run (issue request) s) = Ok row -> fingerprintSha256 row <> fingerprintSha256 before ->
  Xfcc.parse xfcc = Some presented -> Xfcc.hash presented = fingerprintSha256 before ->
  source = Some name -> trim name = fspId before -> trim name <> [] -> validFrom before <= now < validTo before ->
  let s' := fst (run (issue request) s) in
  is_ok (admits (certs s) mandatory xfcc source now) = false /\
  certs s' !! id = Some (retiring before) /\ admits (certs s') mandatory xfcc source now = Ok tt.
Proof.
  intros Hact Hfsp Hafter Hcert Hrep Huniq Huniq' Hrun Hrow Hx Hhash -> Hname Hblank Hv. cbn zeta.
  destruct (issue_steps request s) as [(e & He & _)|(w & signed & parsed & _ & _ & H)]; [congruence|]. cbn zeta in H. destruct H as [[He _]|[Hok Hc]]; [congruence|].
  assert (row = issued request signed parsed (clock s)) as E by congruence. rewrite <- E in Hc.
  destruct (run_retireFrom (r_fspId request) (with_outside w s)) as (_ & _ & H3). set (s2 := fst (run (retireExisting _) _)) in *.
  change (replica (with_outside w s)) with (replica s) in H3. change (certs (with_outside w s)) with (certs s) in H3.
  assert (Hid : certs s2 !! id = Some (retiring before)).
  { rewrite H3, Hrep. unfold is_usable. rewrite Hfsp, Hact. unfold str_eqb. rewrite bool_decide_true by done. by rewrite bool_decide_false. }
  assert (Hne : fresh (dom (certs s2)) <> id).
  { intros Ef. pose proof (is_fresh (dom (certs s2))) as Hf. rewrite Ef in Hf. apply Hf, elem_of_dom. by rewrite Hid. }
  set (s' := fst (run (issue request) s)) in *.
  assert (Hid' : certs s' !! id = Some (retiring before)) by (by rewrite Hc, lookup_insert_ne).
  assert (Hfind : forall (m : gmap Z ParticipantCert) r, m !! id = Some r -> fingerprintSha256 r = fingerprintSha256 before ->
    (forall j q, m !! j = Some q -> fingerprintSha256 q = fingerprintSha256 before -> j = id) -> findByFingerprint (Xfcc.hash presented) m = Some r).
  { intros m r Hr Hfp Hu. unfold findByFingerprint. destruct (List.find _ _) as [[j q]|] eqn:Ef.
    - apply List.find_some in Ef as [Hin Hq%bool_decide_eq_true]. apply list_elem_of_In, elem_of_map_to_list in Hin. rewrite Hhash in Hq. cbn in Hq.
      rewrite (Hu j q Hin Hq) in Hin. cbn. congruence.
    - assert (Hin : In (id, r) (map_to_list m)) by (by apply list_elem_of_In, elem_of_map_to_list). apply (List.find_none _ _ Ef) in Hin. cbn in Hin.
      unfold str_eqb in Hin. by rewrite bool_decide_true in Hin by congruence. }
  assert (Hlen : (length (trim name) =? 0)%nat = false) by (by destruct (trim name)).
  split; [|split; [done|]].
  - unfold admits, DfspCertificate.canActivate. rewrite Hx. cbn [DfspCertificate.readSource]. rewrite Hlen.
    rewrite (Hfind (certs s) after Hcert); [|by rewrite Hafter|done]. rewrite Hafter. done.
  - unfold admits, DfspCertificate.canActivate. rewrite Hx. cbn [DfspCertificate.readSource]. rewrite Hlen.
    rewrite (Hfind (certs s') (retiring before) Hid'); [|done|].
    + cbn [fmap option_fmap option_map]. unfold DfspCertificate.assertUsable. cbn [guarded retiring DfspCertificate.status DfspCertificate.validTo DfspCertificate.validFrom DfspCertificate.fspId status validTo validFrom fspId].
      replace (str_eqb (status_code RETIRING) DfspCertificate.REVOKED) with false by done. cbn [throw_if].
      replace ((validTo before <=? now) || (now <? validFrom before)) with false by (symmetry; apply orb_false_iff; split; [apply Z.leb_gt|apply Z.ltb_ge]; lia). cbn [throw_if].
      rewrite Hname. unfold str_eqb. by rewrite bool_decide_true.
    + intros j q Hq Hfp. rewrite Hc in Hq. apply lookup_insert_Some in Hq as [[_ <-]|[_ Hq]]; [done|]. rewrite H3 in Hq.
      destruct (replica s !! j) as [q0|] eqn:Ej; [|by eapply Huniq]. destruct (is_usable _ q0 && _); [|by eapply Huniq].
      injection Hq as <-. by eapply Huniq'.
Qed.
End issuance.

(** ** An authority *)

(** It signs every request with the name it is given; a certificate is its name. *)
#[local] Instance office : Authority unit := {|
  driver := fun w => (w, Works); readCsr := fun csr => match csr with [] => MalformedCsr | _ => RsaKey 2048 end;
  signCertificate := fun _ name w => (w, Ok (mkSigned name None (js "02") None));
  certificateFromPem := fun pem => Ok (mkParsed (replicate 64 "b"%char) pem (js "02") (js "CN=" ++ pem) 1000 2000000);
  same_name := str_eqb |}.
Lemma office_driven : driven.
Proof. done. Qed.

Definition acme : jsstr := js "acme".
Definition acme_request : Request := mkRequest acme (js "CSR") None.
Definition empty_office : World unit := mkWorld 500000 [acme] ∅ ∅ tt.
Definition presented_xfcc (c : ascii) : jsstr := js "Hash=" ++ replicate 64 c.

Lemma empty_named : all_named empty_office.
Proof. by split; intros id row Hrow; apply (lookup_empty_Some (M := gmap Z) id row) in Hrow. Qed.
Definition enrolling (p : Prog (World unit) exception ParticipantCert) : Prop := exists cmd, p = perform cmd.
Lemma enrolled_pool : rtc (pool_step enrolling drift) (empty_office, [])
  (fst (run (perform (Enroll true acme (js "CSR") None)) empty_office), [] ++ [Done (snd (run (perform (Enroll true acme (js "CSR") None)) empty_office))]).
Proof. apply pool_run. by exists (Enroll true acme (js "CSR") None). Qed.

Definition enrolled_table : gmap Z ParticipantCert := certs (fst (run (perform (Enroll true acme (js "CSR") None)) empty_office)).
Lemma admitted_is_bound_witness :
  exists name id row parsed, Some acme = Some name /\ enrolled_table !! id = Some row /\
    findByFingerprint (replicate 64 "b"%char) enrolled_table = Some row /\
    fspId row = trim name /\ status row <> REVOKED /\ validFrom row <= 600000 < validTo row /\
    certificateFromPem (certPem row) = Ok parsed /\ p_fingerprint parsed = replicate 64 "b"%char /\ p_commonName parsed = trim name.
Proof.
  exact (admitted_is_bound empty_office _ true (Some (presented_xfcc "b")) (Some acme) 600000
    (Xfcc.mkXfcc (replicate 64 "b"%char) None None) false empty_named enrolled_pool
    ltac:(vm_compute; reflexivity) ltac:(vm_compute; reflexivity)).
Defined.

Lemma issuance_course_witness : issuance acme_request empty_office (fst (run (issue acme_request) empty_office)) (snd (run (issue acme_request) empty_office)).
Proof. exact (issuance_course office_driven acme_request empty_office eq_refl). Defined.

Definition old_cert : ParticipantCert :=
  mkParticipantCert acme (replicate 64 "a"%char) (js "01") (js "CN=acme") acme None ACTIVE 0 900000 0 None None.
Definition behind : World unit := mkWorld 500000 [acme] {[1 := revoked 500000 (Some (js "key leaked")) old_cert]} {[1 := old_cert]} tt.
Lemma one_row {A} (j : Z) (r q : A) : ({[1 := q]} : gmap Z A) !! j = Some r -> j = 1.
Proof. by intros [-> _]%lookup_singleton_Some. Qed.
Lemma revocation_undone_witness :
  is_ok (admits (certs behind) true (Some (presented_xfcc "a")) (Some acme) 600000) = false /\
  admits (certs (fst (run (issue acme_request) behind))) true (Some (presented_xfcc "a")) (Some acme) 600000 = Ok tt.
Proof.
  pose proof (revocation_undone office_driven acme_request 1 old_cert (revoked 500000 (Some (js "key leaked")) old_cert)
    (issued acme_request (mkSigned acme None (js "02") None) (mkParsed (replicate 64 "b"%char) acme (js "02") (js "CN=acme") 1000 2000000) 500000)
    (Some (js "key leaked")) behind true (Some (presented_xfcc "a")) (Some acme) 600000 (Xfcc.mkXfcc (replicate 64 "a"%char) None None) acme
    eq_refl eq_refl eq_refl eq_refl eq_refl (fun j r H _ => one_row j r _ H) (fun j r H _ => one_row j r _ H)) as H.
  destruct H as (H1 & _ & H2); [vm_compute; reflexivity|discriminate|vm_compute; reflexivity|reflexivity|reflexivity|vm_compute; reflexivity|discriminate|vm_compute; split; [discriminate|reflexivity]|].
  split; [exact H1|exact H2].
Defined.
