(* ===== verification/Vault.v ===== *)
(** * The Vault client

    shared/vault/component/vault-client.ts: the token and its renewal, the retry after a
    refusal, the version check, secrets of a KV v2 engine, signatures and chains of a PKI
    mount. Vault, the clock and the file of the service account are outside. The theorems:
    the course of an authenticated call, and secrets as a map from paths and fields to texts. *)

From S2P Require Import Prelude Interleave Outside Certificates.
#[local] Open Scope prog_scope.

Inductive failure : Set :=
  | NoServiceAccountToken | NoClientToken | Unreachable | PolicyRefused | WrongKvVersion | WriteFailed
  | NoPkiRole | NoCertificate | NoChain.

(** A secret: what is no string has no text. *)
Notation Secret := (gmap jsstr (option jsstr)).

(** The requests, and the part of an answer's body that is read; [None] where it is missing
    or of another type. *)
Record Signature : Set := mkSignature {
  certificate : option jsstr; ca_chain : option (list jsstr); issuing_ca : option jsstr; serial_number : option jsstr; expiration : option Z }.
Inductive request : Type :=
  | Login (jwt : jsstr) | MountVersion | ReadSecret (path : jsstr) | WriteSecret (path : jsstr) (data : Secret)
  | SignCsr (mount role csrPem commonName : jsstr) (ttl : option jsstr) | CaChain (mount : jsstr).
Definition answer (r : request) : Type :=
  match r with
  | Login _ => option jsstr * option Z
  | MountVersion => option jsstr
  | ReadSecret _ => option Secret
  | WriteSecret _ _ => unit
  | SignCsr _ _ _ _ _ => Signature
  | CaChain _ => option jsstr
  end.
(** A request with the token it was sent with, and the status and body it was answered with,
    if it was: the client lets 2xx, 401, 403 and 404 through. *)
Definition reply (r : request) : Type := option (Z * answer r).
Definition exchange : Type := { r : request & option jsstr * reply r }%type.

Class Server (V : Type) : Type := {
  now : V -> Z;
  send : forall r : request, option jsstr -> V -> V * reply r;
  serviceAccountToken : V -> V * result failure jsstr;
  suppliedToken : option jsstr }.

(** [VaultClient]; the exchanges are newest first. *)
Record World {V : Type} : Type := mkWorld {
  token : option jsstr; tokenExpiresAt : option Z; kvVersionAccepted : bool; exchanges : list exchange; server : V }.
Arguments World : clear implicits. Arguments mkWorld {V}.

Section client.
  Context {V : Type} {vault : Server V}.
  Notation World := (World V).
  Notation Cmd := (Prog World failure).

Definition with_server (v : V) (s : World) : World := mkWorld (token s) (tokenExpiresAt s) (kvVersionAccepted s) (exchanges s) v.
Definition with_token (t : option jsstr) (expires : option Z) (s : World) : World :=
  mkWorld t expires (kvVersionAccepted s) (exchanges s) (server s).
Definition accept_version (s : World) : World := mkWorld (token s) (tokenExpiresAt s) true (exchanges s) (server s).
Definition logged (x : exchange) (s : World) : World :=
  mkWorld (token s) (tokenExpiresAt s) (kvVersionAccepted s) (x :: exchanges s) (server s).

Definition http (r : request) (t : option jsstr) : Cmd (Z * answer r) :=
  Call (fun s => logged (existT r (t, snd (send r t (server s)))) (with_server (fst (send r t (server s))) s))
    (fun s => match snd (send r t (server s)) with Some a => ret a | None => throw Unreachable end).

Definition RENEWAL_MARGIN_MS : Z := 60000.
Definition isTokenRejection (status : Z) : bool := (status =? 401) || (status =? 403).
Definition is_success (status : Z) : bool := (200 <=? status) && (status <? 300).

Definition invalidateToken : Cmd unit := write (with_token None None).

Definition login : Cmd unit :=
  match suppliedToken with
  | Some t => write (with_token (Some t) None)
  | None =>
      let* jwt := outer_of server with_server serviceAccountToken in
      let* a := http (Login jwt) None in
      match fst (snd a) with
      | None | Some [] => throw NoClientToken
      | Some t =>
          let* at_ := read (fun s => now (server s)) in
          write (with_token (Some t) (Some (at_ + match snd (snd a) with
            | Some lease => if 0 <? lease then lease * 1000 else RENEWAL_MARGIN_MS
            | None => RENEWAL_MARGIN_MS
            end)))
      end
  end.

(** Whether the token is there, and further from its end than the margin. *)
Definition spent (s : World) : bool :=
  match token s with
  | None => true
  | Some _ => match tokenExpiresAt s with Some e => e - RENEWAL_MARGIN_MS <=? now (server s) | None => false end
  end.
Definition currentToken : Cmd (option jsstr) :=
  let* renew := read spent in
  let* _ := if renew : bool then login else ret tt in
  read token.

Definition authenticated (r : request) : Cmd (Z * answer r) :=
  let* t := currentToken in
  let* first := http r t in
  if negb (isTokenRejection (fst first)) then ret first
  else
    let* _ := invalidateToken in
    let* t := currentToken in
    let* second := http r t in
    let* _ := throw_when (isTokenRejection (fst second)) PolicyRefused in
    ret second.

Definition assertKvVersionTwo : Cmd unit :=
  let* accepted := read kvVersionAccepted in
  if accepted : bool then ret tt
  else
    let* version := catch (let* t := currentToken in
                           let* a := http MountVersion t in
                           ret (if is_success (fst a) then snd a else None)) (fun _ => ret None) in
    let* _ := throw_when (match version with Some v => negb (str_eqb v (js "2")) | None => false end) WrongKvVersion in
    write accept_version.

(** A field of a secret that is a text and not empty. *)
Definition text_of (secret : Secret) (field : jsstr) : option jsstr :=
  match secret !! field with Some (Some ((_ :: _) as t)) => Some t | _ => None end.

Definition readKvField (path field : jsstr) : Cmd (option jsstr) :=
  let* _ := assertKvVersionTwo in
  let* a := authenticated (ReadSecret path) in
  ret (if fst a =? 404 then None else secret ← snd a; text_of secret field).

Definition readKv (path : jsstr) : Cmd Secret :=
  let* a := authenticated (ReadSecret path) in
  ret (if fst a =? 404 then ∅ else default ∅ (snd a)).
Definition writeKvField (path field value : jsstr) : Cmd unit :=
  let* _ := assertKvVersionTwo in
  let* existing := readKv path in
  let* a := authenticated (WriteSecret path (<[field := Some value]> existing)) in
  throw_when (400 <=? fst a) WriteFailed.

Definition signCertificate (mount role csrPem commonName : jsstr) (ttl : option jsstr) : Cmd SignedCertificate :=
  let* a := authenticated (SignCsr mount role csrPem commonName ttl) in
  let* _ := throw_when (fst a =? 404) NoPkiRole in
  match certificate (snd a) with
  | None | Some [] => throw NoCertificate
  | Some pem =>
      let chain := match ca_chain (snd a) with
                   | Some c => c
                   | None => match issuing_ca (snd a) with Some ca => [ca] | None => [] end
                   end in
      ret (mkSigned pem (match chain with [] => None | _ => Some (join (js (String.String (Ascii.ascii_of_nat 10) String.EmptyString)) chain) end)
             (default [] (serial_number (snd a))) ((fun e => e * 1000) <$> expiration (snd a)))
  end.

(** Whether one text is part of another. *)
Fixpoint includes (s part : jsstr) : bool :=
  startsWith s part || match s with [] => false | _ :: s => includes s part end.
Definition readPkiCaChain (mount : jsstr) : Cmd (option jsstr) :=
  let* a := http (CaChain mount) None in
  if fst a =? 404 then ret None
  else
    let* _ := throw_when (negb (is_success (fst a))) NoChain in
    match trim (default [] (snd a)) with
    | [] => ret None
    | chain => let* _ := throw_when (negb (includes chain (js "-----BEGIN CERTIFICATE-----"))) NoChain in ret (Some chain)
    end.
End client.

(** ** A store of texts *)

(** What a client of Vault offers: the text at a field of a path. *)
Class KvStore (W E : Type) : Type := {
  kv_read : jsstr -> jsstr -> W -> W * result E (option jsstr);
  kv_write : jsstr -> jsstr -> jsstr -> W -> W * result E unit }.
(** Its laws: reads find what is held and change nothing of it; a write that returns holds the
    text, at its field only; one that throws may have been made all the same. *)
Class KvLaws (W E : Type) {store : KvStore W E} (held : W -> jsstr -> jsstr -> option jsstr) : Prop := {
  kv_read_held : forall path field w a, snd (kv_read path field w) = Ok a -> a = held w path field;
  kv_read_keeps : forall path field w p f, held (fst (kv_read path field w)) p f = held w p f;
  kv_write_held : forall path field value w, value <> [] -> snd (kv_write path field value w) = Ok tt ->
    forall p f, held (fst (kv_write path field value w)) p f = if decide ((p, f) = (path, field)) then Some value else held w p f;
  kv_write_lost : forall path field value w e, value <> [] -> snd (kv_write path field value w) = Err e ->
    (forall p f, held (fst (kv_write path field value w)) p f = held w p f) \/
    (forall p f, held (fst (kv_write path field value w)) p f = if decide ((p, f) = (path, field)) then Some value else held w p f) }.

#[global] Instance vault_store {V} {vault : Server V} : KvStore (World V) failure := {|
  kv_read := fun path field s => run (readKvField path field) s;
  kv_write := fun path field value s => run (writeKvField path field value) s |}.

(** ** Courses *)

Section courses.
  Context {V : Type} {vault : Server V}.
  Notation World := (World V).
  Notation Cmd := (Prog World failure).

Definition sent (r : request) (t : option jsstr) (a : reply r) : exchange := existT r (t, a).
(** The token that may still be sent. *)
Definition usable (s : World) : option jsstr := if spent s then None else token s.

(** How a call comes by its token, from the one that may still be sent. *)
Inductive obtained : option jsstr -> list exchange -> result failure (option jsstr) -> Prop :=
  | obtained_kept t : obtained (Some t) [] (Ok (Some t))
  | obtained_supplied t : suppliedToken = Some t -> obtained None [] (Ok (Some t))
  | obtained_no_account e : suppliedToken = None -> obtained None [] (Err e)
  | obtained_unreached jwt : suppliedToken = None -> obtained None [sent (Login jwt) None None] (Err Unreachable)
  | obtained_refused jwt a : suppliedToken = None -> match fst (snd a) with Some (_ :: _) => False | _ => True end ->
      obtained None [sent (Login jwt) None (Some a)] (Err NoClientToken)
  | obtained_issued jwt st t lease : suppliedToken = None -> t <> [] ->
      obtained None [sent (Login jwt) None (Some (st, (Some t, lease)))] (Ok (Some t)).

(** What an authenticated call sends, newest first, and what comes of it. *)
Inductive course (r : request) (kept : option jsstr) : list exchange -> result failure (Z * answer r) -> Prop :=
  | course_no_token l e : obtained kept l (Err e) -> course r kept l (Err e)
  | course_unreached l t : obtained kept l (Ok t) -> course r kept (sent r t None :: l) (Err Unreachable)
  | course_answered l t st a : obtained kept l (Ok t) -> isTokenRejection st = false ->
      course r kept (sent r t (Some (st, a)) :: l) (Ok (st, a))
  | course_no_second l t st a l' e : obtained kept l (Ok t) -> isTokenRejection st = true -> obtained None l' (Err e) ->
      course r kept (l' ++ sent r t (Some (st, a)) :: l) (Err e)
  | course_second_unreached l t st a l' t' : obtained kept l (Ok t) -> isTokenRejection st = true -> obtained None l' (Ok t') ->
      course r kept (sent r t' None :: l' ++ sent r t (Some (st, a)) :: l) (Err Unreachable)
  | course_second_refused l t st a l' t' st' a' : obtained kept l (Ok t) -> isTokenRejection st = true -> obtained None l' (Ok t') ->
      isTokenRejection st' = true -> course r kept (sent r t' (Some (st', a')) :: l' ++ sent r t (Some (st, a)) :: l) (Err PolicyRefused)
  | course_second l t st a l' t' st' a' : obtained kept l (Ok t) -> isTokenRejection st = true -> obtained None l' (Ok t') ->
      isTokenRejection st' = false -> course r kept (sent r t' (Some (st', a')) :: l' ++ sent r t (Some (st, a)) :: l) (Ok (st', a')).

Lemma run_http {B} r t (q : Z * answer r -> Cmd B) s :
  let s' := logged (sent r t (snd (send r t (server s)))) (with_server (fst (send r t (server s))) s) in
  run (bind (http r t) q) s = match snd (send r t (server s)) with Some a => run (q a) s' | None => (s', Err Unreachable) end.
Proof. unfold sent. cbn. by destruct (snd (send r t (server s))). Qed.

Lemma currentToken_obtained s :
  let '(s', t) := run currentToken s in
  exists l, exchanges s' = l ++ exchanges s /\ obtained (usable s) l t.
Proof.
  unfold currentToken, usable. rewrite run_read. destruct (spent s) eqn:Hspent.
  - unfold login. destruct suppliedToken as [t|] eqn:Hs.
    + exists []. split; [done|by apply obtained_supplied].
    + rewrite run_bind, run_outer. destruct (snd (serviceAccountToken (server s))) as [jwt|e]; [|by eexists []; split; [|apply obtained_no_account]].
      rewrite run_http. destruct (snd (send (Login jwt) None _)) as [[st [[[|c t]|] lease]]|]; eexists [_]; (split; [reflexivity|]).
      * by apply obtained_refused.
      * by apply (obtained_issued jwt st (c :: t) lease).
      * by apply obtained_refused.
      * by apply obtained_unreached.
  - exists []. split; [done|]. unfold spent in Hspent. cbn. destruct (token s) as [t|]; [apply obtained_kept|done].
Qed.

Lemma run_course r s :
  exists l, exchanges (fst (run (authenticated r) s)) = l ++ exchanges s /\ course r (usable s) l (snd (run (authenticated r) s)).
Proof.
  unfold authenticated. rewrite run_bind. pose proof (currentToken_obtained s) as H. destruct (run currentToken s) as [s1 [t|e]], H as (l & H1 & Ho).
  2: { exists l. split; [done|by apply course_no_token]. }
  rewrite run_http. destruct (snd (send r t (server s1))) as [[st a]|].
  2: { eexists (_ :: l). split; [by cbn; rewrite H1|by apply course_unreached]. }
  set (s2 := logged _ _). assert (H2 : exchanges s2 = sent r t (Some (st, a)) :: l ++ exchanges s) by (by unfold s2; cbn; rewrite H1).
  cbn [fst snd]. destruct (isTokenRejection st) eqn:Hst; cbn [negb].
  2: { eexists (_ :: l). split; [exact H2|by apply course_answered]. }
  unfold invalidateToken. rewrite run_write, run_bind. pose proof (currentToken_obtained (with_token None None s2)) as H.
  destruct (run currentToken (with_token None None s2)) as [s3 [t'|e]], H as (l' & H3 & Ho'); change (usable (with_token None None s2)) with (@None jsstr) in Ho';
    change (exchanges (with_token None None s2)) with (exchanges s2) in H3; rewrite H2 in H3.
  2: { eexists (l' ++ _ :: l). split; [|by apply (course_no_second r (usable s) l t st a)]. cbn. rewrite H3, <- !app_assoc. done. }
  rewrite run_http. destruct (snd (send r t' (server s3))) as [[st' a']|].
  2: { eexists (_ :: l' ++ _ :: l). split; [|by apply (course_second_unreached r (usable s) l t st a)]. cbn. rewrite H3, <- !app_assoc. done. }
  rewrite run_throw_when. cbn [fst]. destruct (isTokenRejection st') eqn:Hst'; eexists (_ :: l' ++ _ :: l);
    (split; [cbn; rewrite H3, <- !app_assoc; done|]); [by eapply course_second_refused|by eapply course_second].
Qed.

(** An authenticated call follows the protocol: it sends the token it has while more than a minute
    of its lease is left, and logs in first otherwise; only a 401 or 403 has it log in and send
    once more; whatever else is answered is returned, and a second refusal is the policy's. *)
Theorem authenticated_course (r : request) (s : World) :
  exists l, exchanges (fst (run (authenticated r) s)) = l ++ exchanges s /\ course r (usable s) l (snd (run (authenticated r) s)).
Proof. apply run_course. Qed.
End courses.

(** ** Secrets *)

(** What KV v2 is documented to do: reads and logins change no secret, a read that succeeds
    answers the secret of its path, a write that succeeds replaces it and one that is refused
    does not; a request that is not answered may have been served. *)
Class KvEngine (V : Type) {vault : Server V} (secrets : V -> gmap jsstr Secret) : Prop := {
  engine_account : forall v, secrets (fst (serviceAccountToken v)) = secrets v;
  engine_reads : forall r t v, match r with WriteSecret _ _ => True | _ => secrets (fst (send r t v)) = secrets v end;
  engine_status : forall r t v a, snd (send r t v) = Some a -> is_success (fst a) = true \/ isTokenRejection (fst a) = true \/ fst a = 404;
  engine_found : forall path t v a, snd (send (ReadSecret path) t v) = Some a ->
    if is_success (fst a) then snd a = secrets v !! path else fst a = 404 -> secrets v !! path = None;
  engine_written : forall path data t v,
    match snd (send (WriteSecret path data) t v) with
    | Some a => secrets (fst (send (WriteSecret path data) t v)) = if is_success (fst a) then <[path := data]> (secrets v) else secrets v
    | None => secrets (fst (send (WriteSecret path data) t v)) = secrets v \/ secrets (fst (send (WriteSecret path data) t v)) = <[path := data]> (secrets v)
    end }.

Section engine.
  Context {V : Type} {vault : Server V} (secrets : V -> gmap jsstr Secret) {engine : KvEngine V secrets}.
  Notation World := (World V).
  Notation Cmd := (Prog World failure).

Definition held (s : World) (path field : jsstr) : option jsstr := secrets (server s) !! path ≫= fun d => text_of d field.

Section reads.
  Context (m : gmap jsstr Secret).
Definition unwritten (s : World) : Prop := secrets (server s) = m.

(** What a read may be answered. *)
Definition read_answer (r : request) : Z * answer r -> Prop :=
  match r with
  | ReadSecret path => fun a => if is_success (fst a) then snd a = m !! path else fst a = 404 -> m !! path = None
  | _ => fun _ => True
  end.
Definition writes (r : request) : bool := match r with WriteSecret _ _ => true | _ => false end.
Definition answered (r : request) (a : Z * answer r) : Prop :=
  (is_success (fst a) = true \/ isTokenRejection (fst a) = true \/ fst a = 404) /\ read_answer r a.

Lemma keeps_http r t : writes r = false -> keeps unwritten (answered r) (http r t).
Proof.
  intros Hr. apply keeps_call. intros s HI. pose proof (engine_reads r t (server s)) as Hs. split.
  - unfold unwritten. cbn. destruct r; rewrite ?Hs; done.
  - destruct (snd (send r t (server s))) as [a|] eqn:Ha; [|apply keeps_throw]. apply keeps_ret. split; [by eapply engine_status|].
    destruct r; try done. apply engine_found in Ha. unfold read_answer. by rewrite <- HI.
Qed.
Lemma keeps_account : keeps unwritten (fun _ => True) (outer_of server with_server serviceAccountToken : Cmd jsstr).
Proof. apply keeps_call. intros s HI. split; [|apply keeps_done]. unfold unwritten. cbn. by rewrite engine_account. Qed.
Lemma keeps_client f : (forall s, server (f s) = server s) -> keeps unwritten (fun _ => True) (write f : Cmd unit).
Proof. intros Hf. apply keeps_write. intros s HI. unfold unwritten. by rewrite Hf. Qed.
Lemma keeps_reading {A} (f : World -> A) : keeps unwritten (fun _ => True) (read f : Cmd A).
Proof. by apply keeps_read. Qed.
#[local] Hint Resolve keeps_http keeps_account keeps_reading : keeping.
#[local] Hint Extern 1 (writes _ = false) => reflexivity : keeping.
#[local] Hint Extern 2 (keeps _ _ (write _)) => apply keeps_client; done : keeping.

Lemma keeps_login : keeps unwritten (fun _ => True) login.
Proof. unfold login. keeping; done. Qed.
#[local] Hint Resolve keeps_login : keeping.
Lemma keeps_currentToken : keeps unwritten (fun _ => True) currentToken.
Proof.
  unfold currentToken. eapply keeps_bind; [apply keeps_reading|]. intros renew _. eapply (keeps_bind _ (fun _ => True)); [|intros; apply keeps_reading].
  destruct renew; [apply keeps_login|by apply keeps_ret].
Qed.
#[local] Hint Resolve keeps_currentToken : keeping.
Lemma keeps_authenticated r : writes r = false -> keeps unwritten (fun a => isTokenRejection (fst a) = false /\ answered r a) (authenticated r).
Proof.
  intros Hr. unfold authenticated, invalidateToken. keeping; try done.
  split; [by destruct (isTokenRejection (fst _))|done].
Qed.
Lemma keeps_assertKvVersionTwo : keeps unwritten (fun _ => True) assertKvVersionTwo.
Proof.
  unfold assertKvVersionTwo. eapply keeps_bind; [apply keeps_reading|]. intros [] _; [by apply keeps_ret|].
  eapply (keeps_bind _ (fun _ => True)).
  - apply keeps_catch; [|intros; by apply keeps_ret]. keeping; done.
  - intros version _. keeping.
Qed.
#[local] Hint Resolve keeps_authenticated keeps_assertKvVersionTwo : keeping.
Lemma found_text path field (a : Z * answer (ReadSecret path)) : isTokenRejection (fst a) = false -> answered (ReadSecret path) a ->
  (if fst a =? 404 then None else secret ← snd a; text_of secret field) = m !! path ≫= (fun d => text_of d field).
Proof.
  intros Hrej [Hst Hf]. cbn [read_answer] in Hf. destruct (is_success (fst a)) eqn:Hs.
  - rewrite Hf. destruct (fst a =? 404) eqn:E; [|done]. apply Z.eqb_eq in E. by rewrite E in Hs.
  - destruct Hst as [?|[?|E]]; [congruence..|]. rewrite E. cbn. by rewrite Hf.
Qed.
Lemma keeps_readKvField path field : keeps unwritten (fun a => a = m !! path ≫= fun d => text_of d field) (readKvField path field).
Proof.
  unfold readKvField. eapply keeps_bind; [apply keeps_assertKvVersionTwo|]. intros [] _. eapply keeps_bind; [by apply keeps_authenticated|].
  intros a [H1 H2]. apply keeps_ret. by apply found_text.
Qed.
Lemma keeps_readKv path : keeps unwritten (fun d => d = default ∅ (m !! path)) (readKv path).
Proof.
  unfold readKv. eapply keeps_bind; [by apply keeps_authenticated|]. intros a [Hrej [Hst Hf]]. apply keeps_ret. cbn [read_answer] in Hf.
  destruct (is_success (fst a)) eqn:Hs.
  - rewrite Hf. destruct (fst a =? 404) eqn:E; [|done]. apply Z.eqb_eq in E. by rewrite E in Hs.
  - destruct Hst as [?|[?|E]]; [congruence..|]. rewrite E. cbn. by rewrite Hf.
Qed.
End reads.

(** A run that keeps what it reads. *)
Lemma run_keeping {A} (P : A -> Prop) (p : Cmd A) s : keeps (unwritten (secrets (server s))) P p ->
  secrets (server (fst (run p s))) = secrets (server s) /\ (forall a, snd (run p s) = Ok a -> P a).
Proof.
  intros Hp. split; [exact (run_keeps (unwritten _) P p s Hp eq_refl)|]. intros a. by apply (run_keeps_answer (unwritten (secrets (server s)))).
Qed.

(** The secrets after a write of [data]. *)
Definition written (path : jsstr) (data : Secret) (m : gmap jsstr Secret) (s : World) (r : result failure (Z * answer (WriteSecret path data))) : Prop :=
  match r with
  | Ok a => if is_success (fst a) then secrets (server s) = <[path := data]> m else fst a = 404 /\ secrets (server s) = m
  | Err _ => secrets (server s) = m \/ secrets (server s) = <[path := data]> m
  end.
Lemma authenticated_written path data s : wp (written path data (secrets (server s))) (authenticated (WriteSecret path data)) s.
Proof.
  set (m := secrets (server s)). assert (Hmain : forall s0 (q : Z * answer (WriteSecret path data) -> Cmd (Z * answer (WriteSecret path data))), secrets (server s0) = m ->
    (forall a s1, (is_success (fst a) = true \/ isTokenRejection (fst a) = true \/ fst a = 404) ->
       secrets (server s1) = (if is_success (fst a) then <[path := data]> m else m) -> wp (written path data m) (q a) s1) ->
    wp (written path data m) (let* t := currentToken in let* a := http (WriteSecret path data) t in q a) s0).
  { intros s0 q H0 Hq. apply wp_bind. destruct (run_keeping (fun _ => True) currentToken s0 (keeps_currentToken _)) as [H1 _]. unfold wp at 1.
    destruct (run currentToken s0) as [s1 [t|e]]; cbn [fst snd] in *; [|left; congruence]. rewrite H0 in H1. unfold wp. rewrite run_http.
    pose proof (engine_written path data t (server s1)) as Hw. pose proof (engine_status (WriteSecret path data) t (server s1)) as Hst.
    destruct (snd (send (WriteSecret path data) t (server s1))) as [a|]; rewrite H1 in Hw; [|exact Hw]. by apply Hq; [apply Hst|]. }
  unfold authenticated. apply Hmain; [done|]. intros a s1 Hst H1. destruct (isTokenRejection (fst a)) eqn:Hrej; cbn [negb].
  - assert (Hs : is_success (fst a) = false).
    { unfold isTokenRejection in Hrej. unfold is_success. apply orb_true_iff in Hrej as [->%Z.eqb_eq| ->%Z.eqb_eq]; done. }
    rewrite Hs in H1. apply wp_write. apply Hmain; [exact H1|]. intros a2 s2 Hst2 H2. apply wp_throw_when; intros Hrej2.
    + unfold written. destruct (is_success (fst a2)); auto.
    + unfold wp, written. cbn [run ret fst snd]. destruct (is_success (fst a2)); [done|]. split; [|done]. destruct Hst2 as [?|[?|?]]; congruence.
  - unfold wp, written. cbn [run ret fst snd]. destruct (is_success (fst a)); [done|]. split; [|done]. destruct Hst as [?|[?|?]]; congruence.
Qed.

Lemma text_of_insert data field value f : value <> [] ->
  text_of (<[field := Some value]> data) f = if decide (f = field) then Some value else text_of data f.
Proof.
  intros Hv. unfold text_of. case_decide as Hf; [subst f; rewrite lookup_insert_eq; by destruct value|]. by rewrite lookup_insert_ne.
Qed.
Lemma held_insert_kv (v : gmap jsstr Secret) path field value p f : value <> [] ->
  ((<[path := <[field := Some value]> (default ∅ (v !! path))]> v) !! p ≫= fun d => text_of d f) =
  if decide ((p, f) = (path, field)) then Some value else v !! p ≫= fun d => text_of d f.
Proof.
  intros Hv. destruct (decide (p = path)) as [->|Hp].
  - rewrite lookup_insert_eq. cbn [mbind option_bind]. rewrite text_of_insert by done. destruct (decide (f = field)) as [->|Hf].
    + by rewrite !decide_True by done.
    + rewrite !decide_False by congruence. destruct (v !! path) as [d|]; cbn; [done|]. unfold text_of. by rewrite lookup_empty.
  - rewrite lookup_insert_ne by done. by rewrite decide_False by congruence.
Qed.

Lemma writeKvField_written path field value s :
  wp (fun s' r => let m := secrets (server s) in
        match r with
        | Ok _ => secrets (server s') = <[path := <[field := Some value]> (default ∅ (m !! path))]> m
        | Err _ => secrets (server s') = m \/ secrets (server s') = <[path := <[field := Some value]> (default ∅ (m !! path))]> m
        end) (writeKvField path field value) s.
Proof.
  set (m := secrets (server s)). unfold writeKvField. apply wp_bind. unfold wp at 1.
  destruct (run_keeping (fun _ => True) assertKvVersionTwo s (keeps_assertKvVersionTwo _)) as [H1 _].
  destruct (run assertKvVersionTwo s) as [s1 [[]|?]]; cbn [fst snd] in *; [|by left]. apply wp_bind. unfold wp at 1.
  destruct (run_keeping _ (readKv path) s1 (keeps_readKv _ path)) as [H2 H3]. destruct (run (readKv path) s1) as [s2 [d|?]]; cbn [fst snd] in *; [|left; by rewrite H2, H1].
  rewrite (H3 d eq_refl), H1. rewrite H1 in H2. apply wp_bind. eapply wp_weaken; [|apply authenticated_written].
  intros s3 [a|e]; unfold written; rewrite H2; [|done]. cbn [fst]. destruct (is_success (fst a)) eqn:Hs; intros H.
  - unfold wp. replace (400 <=? fst a) with false; [exact H|]. symmetry. apply Z.leb_gt. unfold is_success in Hs. lia.
  - destruct H as [E H]. rewrite E. by left.
Qed.

Lemma kv_laws : KvLaws World failure held.
Proof.
  split.
  - intros path field s a Ha. by apply (run_keeping _ _ _ (keeps_readKvField _ path field)).
  - intros path field s p f. unfold held. cbn [kv_read vault_store]. by rewrite (proj1 (run_keeping _ _ s (keeps_readKvField _ path field))).
  - intros path field value s Hv Hr p f. pose proof (writeKvField_written path field value s) as H. unfold wp in H. cbn [kv_write vault_store] in *.
    rewrite Hr in H. unfold held. rewrite H. by apply held_insert_kv.
  - intros path field value s e Hv Hr. pose proof (writeKvField_written path field value s) as H. unfold wp in H. cbn [kv_write vault_store] in *.
    rewrite Hr in H. unfold held. destruct H as [H|H]; [left|right]; intros p f; rewrite H; [done|by apply held_insert_kv].
Qed.

(** Over a KV v2 engine the client is a store of texts: whatever its token and whatever is
    refused or lost, what a read returns is what the engine holds, a write that returns holds its
    text and leaves every other field and path as it was, and one that throws does so or nothing. *)
Theorem vault_is_store : KvLaws World failure held.
Proof. apply kv_laws. Qed.
End engine.

(** Vault can be reached and lets its own tokens through. *)
Class Available {V : Type} (vault : Server V) : Prop := {
  available_login : suppliedToken = None;
  available_account : forall v, exists jwt, snd (serviceAccountToken v) = Ok jwt;
  available_answers : forall r t v, exists a, snd (send r t v) = Some a;
  available_issues : forall jwt v, exists st c t lease, snd (send (Login jwt) None v) = Some (st, (Some (c :: t), lease)) /\
    forall r, exists a, snd (send r (Some (c :: t)) (fst (send (Login jwt) None v))) = Some a /\ isTokenRejection (fst a) = false }.

Lemma authenticated_served {V} {vault : Server V} {available : Available vault} (r : request) (s : World V) :
  exists a, snd (run (authenticated r) s) = Ok a /\ isTokenRejection (fst a) = false.
Proof.
  assert (Hlogin : forall s0 (q : option jsstr -> Prog (World V) failure (Z * answer r)), spent s0 = true ->
    (forall t s1, (exists a, snd (send r t (server s1)) = Some a /\ isTokenRejection (fst a) = false) ->
       exists a, snd (run (q t) s1) = Ok a /\ isTokenRejection (fst a) = false) ->
    exists a, snd (run (let* t := currentToken in q t) s0) = Ok a /\ isTokenRejection (fst a) = false).
  { intros s0 q Hs Hq. unfold currentToken, login. rewrite available_login, run_bind, run_read, Hs, run_bind, run_outer.
    destruct (available_account (server s0)) as [jwt ->]. rewrite run_http. cbn [server with_server].
    destruct (available_issues jwt (fst (serviceAccountToken (server s0)))) as (st & c & t & lease & -> & Ht). cbn [fst snd]. rewrite run_read. cbn.
    apply Hq. apply Ht. }
  assert (Hsecond : forall s0, exists a, snd (run (let* _ := invalidateToken in let* t := currentToken in let* second := http r t in
      let* _ := throw_when (isTokenRejection (fst second)) PolicyRefused in ret second) s0) = Ok a /\ isTokenRejection (fst a) = false).
  { intros s0. unfold invalidateToken. rewrite run_write. apply Hlogin; [done|]. intros t s1 (a & Ha & Hrej). rewrite run_http, Ha, run_throw_when, Hrej. by exists a. }
  assert (Hfirst : forall t s0, exists a, snd (run (let* first := http r t in if negb (isTokenRejection (fst first)) then ret first else
      let* _ := invalidateToken in let* t := currentToken in let* second := http r t in
      let* _ := throw_when (isTokenRejection (fst second)) PolicyRefused in ret second) s0) = Ok a /\ isTokenRejection (fst a) = false).
  { intros t s0. rewrite run_http. destruct (available_answers r t (server s0)) as [a ->]. destruct (isTokenRejection (fst a)) eqn:Hrej; cbn [negb].
    - apply Hsecond.
    - by exists a. }
  unfold authenticated. destruct (spent s) eqn:Hs.
  - apply Hlogin; [done|]. intros t s1 _. apply Hfirst.
  - unfold currentToken. rewrite run_bind, run_read, Hs. cbn. apply Hfirst.
Qed.

(** Whatever token the client holds, expired, revoked or of a Vault since restarted: where Vault
    can be reached and lets its own tokens through, an authenticated call is served. *)
Theorem refused_token_replaced {V} {vault : Server V} {available : Available vault} (r : request) (s : World V) :
  exists a, snd (run (authenticated r) s) = Ok a /\ isTokenRejection (fst a) = false.
Proof. apply authenticated_served. Qed.

(** ** A Vault *)

(** One that knows the last token it issued and keeps secrets. *)
Record Box : Type := mkBox { hours : Z; book : gmap jsstr Secret; live : option jsstr; issued_tokens : nat }.
Definition box_guard {A} (t : option jsstr) (b : Box) (refused : A) (serve : Box * option (Z * A)) : Box * option (Z * A) :=
  if bool_decide (t = live b /\ t <> None) then serve else (b, Some (403, refused)).
Definition box_send (r : request) (t : option jsstr) (b : Box) : Box * reply r :=
  match r with
  | Login _ =>
      let new := replicate (S (issued_tokens b)) "t"%char in
      (mkBox (hours b) (book b) (Some new) (S (issued_tokens b)), Some (200, (Some new, Some 3600)))
  | MountVersion => box_guard t b None (b, Some (200, Some (js "2")))
  | ReadSecret path => box_guard t b None (b, Some (match book b !! path with Some d => (200, Some d) | None => (404, None) end))
  | WriteSecret path data => box_guard t b tt (mkBox (hours b) (<[path := data]> (book b)) (live b) (issued_tokens b), Some (204, tt))
  | SignCsr _ _ _ _ _ => box_guard t b (mkSignature None None None None None) (b, Some (404, mkSignature None None None None None))
  | CaChain _ => (b, Some (404, None))
  end.
#[global] Instance box : Server Box := {|
  now := fun b => hours b * 3600000; send := box_send; serviceAccountToken := fun b => (b, Ok (js "jwt")); suppliedToken := None |}.

Lemma box_engine : KvEngine Box book.
Proof.
  split.
  - done.
  - intros [] t v; cbn; try done; unfold box_guard; by case_bool_decide.
  - intros [] t v a; cbn; unfold box_guard; repeat case_match; intros [= <-]; auto.
  - intros path t v a. cbn. unfold box_guard. case_bool_decide; [|by intros [= <-]]. by destruct (book v !! path); intros [= <-].
  - intros path data t v. cbn. unfold box_guard. by case_bool_decide.
Qed.
Lemma box_available : Available box.
Proof.
  split.
  - done.
  - intros v. by exists (js "jwt").
  - intros [] t v; cbn; unfold box_guard; try case_bool_decide; by eexists.
  - intros jwt v. exists 200, "t"%char, (replicate (issued_tokens v) "t"%char), (Some 3600). split; [done|].
    intros []; cbn; unfold box_guard; rewrite ?bool_decide_eq_true_2 by done; try (by eexists).
    eexists. split; [done|]. by destruct (book v !! path).
Qed.

(** Its reads always answer. *)
Lemma box_version (t : option jsstr) :
  keeps (fun _ => True) (fun a => snd a = None \/ snd a = Some (js "2")) (http MountVersion t : Prog (World Box) failure _).
Proof. apply keeps_call. intros s _. split; [done|]. cbn. unfold box_guard. case_bool_decide; apply keeps_ret; auto. Qed.
Lemma box_reads path field (s : World Box) : is_ok (snd (run (readKvField path field) s)) = true.
Proof.
  assert (Hv : snd (run assertKvVersionTwo s) = Ok tt).
  { unfold assertKvVersionTwo. rewrite run_read. destruct (kvVersionAccepted s); [done|]. rewrite run_bind, run_catch.
    set (p := bind currentToken _). assert (Hk : keeps (fun _ => True) (fun v => v = None \/ v = Some (js "2")) p).
    { eapply keeps_bind; [apply keeps_nothing|]. intros t _. eapply keeps_bind; [apply box_version|]. intros a Ha. apply keeps_ret. by destruct (is_success (fst a)); [|left]. }
    pose proof (fun v => run_keeps_answer _ _ p s v Hk Logic.I) as Ha. destruct (run p s) as [s1 [v|e]]; cbn [fst snd run ret] in *; [|done].
    by destruct (Ha v eq_refl) as [->| ->]. }
  unfold readKvField. rewrite run_bind. destruct (run assertKvVersionTwo s) as [s1 r]. cbn in Hv. subst r. rewrite run_bind.
  pose proof box_available as Hav. destruct (authenticated_served (ReadSecret path) s1) as (a & Ha & _). destruct (run _ s1) as [s2 r]. cbn [snd] in Ha. by subst r.
Qed.

(** A client with a token of before the restart of its Vault. *)
Definition stale : World Box :=
  mkWorld (Some (js "old")) None true [] (mkBox 10 {[js "pivotal/jwskey/acme" := {[js "privateKey" := Some (js "PEM")]}]} None 0).

Lemma vault_is_store_witness : KvLaws (World Box) failure (held book).
Proof. exact (@vault_is_store Box box book box_engine). Defined.
Lemma refused_token_replaced_witness :
  exists a, snd (run (authenticated (ReadSecret (js "pivotal/jwskey/acme"))) stale) = Ok a /\ isTokenRejection (fst a) = false.
Proof. exact (@refused_token_replaced Box box box_available (ReadSecret (js "pivotal/jwskey/acme")) stale). Defined.
Example stale_reads : snd (run (readKvField (js "pivotal/jwskey/acme") (js "privateKey")) stale) = Ok (Some (js "PEM")).
Proof. by vm_compute. Qed.
