(* ===== verification/Custody.v ===== *)
(** * The custody of signing keys

    core/participant/domain/component/store: where the private key of a tenant is made
    (jws-key-provisioner.ts), where it is found again (jws-private-key-source.ts,
    jws-key-ref-source.ts), and the cache of keys a gateway signs and verifies with
    (participant-signing-keys-cache.ts). Vault is a [KvStore], the generator of key pairs and
    the reading of PEMs are arguments, the tables are those of Tenants.v. *)

From S2P Require Import Prelude Interleave Outside Wire Tenants.
From S2P Require Vault.
#[local] Open Scope prog_scope.

(** ** KeyProvider *)

Inductive KeyProvider : Set := VaultKv | Pkcs11 | Database | NoProvider.
Definition provider_value (p : KeyProvider) : jsstr :=
  js match p with VaultKv => "vault-kv" | Pkcs11 => "pkcs11" | Database => "database" | NoProvider => "none" end.
Definition VALUES : list KeyProvider := [VaultKv; Pkcs11; Database; NoProvider].
(** [None] is the error. *)
Definition parseProvider (value : option jsstr) (fallback : KeyProvider) : option KeyProvider :=
  match value with
  | None => Some fallback
  | Some v =>
      if (length (trim v) =? 0)%nat then Some fallback
      else List.find (fun p => str_eqb (provider_value p) (toLowerCase (trim v))) VALUES
  end.

Definition KEY_FIELD : jsstr := js "privateKey".
Definition KEY_REF_FIELD : jsstr := js "keyRef".
Definition PUBLIC_KEY_FIELD : jsstr := js "publicKey".
Definition key_path (prefix fsp : jsstr) : jsstr := prefix ++ js "/" ++ fsp.

(** [normalizePem]: a backslash and an n become the end of a line. *)
Definition line_feed : ascii := ascii_of_nat 10.
Fixpoint unescape (pem : jsstr) : jsstr :=
  match pem with
  | "\"%char :: (("n"%char :: pem) as rest) => line_feed :: unescape pem
  | c :: pem => c :: unescape pem
  | [] => []
  end.
Definition normalizePem (pem : option jsstr) : option jsstr :=
  match pem with Some p => if has_text (Some p) then Some (unescape p) else None | None => None end.

(** A key pair: the public and the private PEM. *)
Class Custodian (W : Type) : Type := {
  kv :: Vault.KvStore W Vault.failure;
  generate : W -> W * (jsstr * jsstr);
  createPublicKey : jsstr -> bool }.

Section custody.
  Context {W : Type} {custodian : Custodian W}.

(** ** JwsKeyProvisioner *)

Definition ready (fsp : jsstr) (w : W) : W * result exception unit := (w, Ok tt).
Definition failed_read {A B} (r : W * result Vault.failure A) (q : A -> W -> W * result exception B) : W * result exception B :=
  match r with (w, Ok a) => q a w | (w, Err _) => (w, Err Failure) end.

Definition VaultJwsKeyProvisioner (prefix : jsstr) : JwsKeyProvisioner W := {|
  assertReady := ready;
  provision := fun fsp w =>
    let '(w, (public, private)) := generate w in
    failed_read (Vault.kv_write (key_path prefix fsp) KEY_FIELD private w) (fun _ w => (w, Ok (Some (mkProvisioned public None)))) |}.

(** The record of a custodian: the reference and the public key. *)
Definition read_record (prefix fsp : jsstr) (w : W) : W * result exception (jsstr * jsstr) :=
  let path := key_path prefix (trim fsp) in
  failed_read (Vault.kv_read path KEY_REF_FIELD w) (fun ref w =>
    failed_read (Vault.kv_read path PUBLIC_KEY_FIELD w) (fun public w =>
      match ref, public with
      | Some ref, Some public =>
          if createPublicKey public then (w, Ok (ref, public)) else (w, Err (PivotalException (js "HSM_KEY_RECORD_INVALID")))
      | _, _ => (w, Err (PivotalException (js "HSM_KEY_NOT_FOUND")))
      end)).
Definition Pkcs11JwsKeyProvisioner (prefix : jsstr) : JwsKeyProvisioner W := {|
  assertReady := fun fsp w => match read_record prefix fsp w with (w, Ok _) => (w, Ok tt) | (w, Err e) => (w, Err e) end;
  provision := fun fsp w =>
    match read_record prefix fsp w with (w, Ok record) => (w, Ok (Some (mkProvisioned (snd record) None))) | (w, Err e) => (w, Err e) end |}.
Definition NoJwsKeyProvisioner : JwsKeyProvisioner W := {| assertReady := ready; provision := fun fsp w => (w, Ok None) |}.
Definition DatabaseJwsKeyProvisioner : JwsKeyProvisioner W := {|
  assertReady := ready;
  provision := fun fsp w => let '(w, (public, private)) := generate w in (w, Ok (Some (mkProvisioned public (Some private)))) |}.
Definition createKeyProvisioner (provider : KeyProvider) (keyPrefix refPrefix : jsstr) : JwsKeyProvisioner W :=
  match provider with
  | VaultKv => VaultJwsKeyProvisioner keyPrefix
  | Pkcs11 => Pkcs11JwsKeyProvisioner refPrefix
  | Database => DatabaseJwsKeyProvisioner
  | NoProvider => NoJwsKeyProvisioner
  end.

(** ** JwsPrivateKeySource, JwsKeyRefSource *)

Definition Source : Type := list (jsstr * ParticipantKey) -> gmap jsstr jsstr -> W -> W * gmap jsstr jsstr.

Definition isSigningTenant (e : jsstr * ParticipantKey) : bool :=
  bool_decide (role (snd e) = Self) && jwsSignEnabled (snd e) && has_text (Some (fst e)).

(** One tenant after the other; [look] is the entry of a tenant. *)
Fixpoint resolve_all (look : jsstr -> ParticipantKey -> option jsstr -> W -> W * option jsstr)
    (rows : list (jsstr * ParticipantKey)) (previous found : gmap jsstr jsstr) (w : W) : W * gmap jsstr jsstr :=
  match rows with
  | [] => (w, found)
  | e :: rows =>
      if isSigningTenant e then
        let fsp := trim (fst e) in
        let '(w, key) := look fsp (snd e) (previous !! fsp) w in
        resolve_all look rows previous (match key with Some k => <[fsp := k]> found | None => found end) w
      else resolve_all look rows previous found w
  end.

Definition DatabaseJwsPrivateKeySource : Source := fun rows previous w =>
  resolve_all (fun fsp row carried w => (w, normalizePem (jwsPrivateKey row))) rows previous ∅ w.
Definition VaultJwsPrivateKeySource (prefix : jsstr) : Source := fun rows previous w =>
  resolve_all (fun fsp row carried w =>
    match Vault.kv_read (key_path prefix fsp) KEY_FIELD w with
    | (w, Ok pem) => (w, normalizePem pem)
    | (w, Err _) => (w, carried)
    end) rows previous ∅ w.
Definition DeviceHeldJwsPrivateKeySource : Source := fun rows previous w => (w, ∅).
Definition VaultJwsKeyRefSource (prefix : jsstr) : Source := fun rows previous w =>
  resolve_all (fun fsp row carried w =>
    match Vault.kv_read (key_path prefix fsp) KEY_REF_FIELD w with
    | (w, Ok (Some ref)) => (w, if has_text (Some ref) then Some (trim ref) else None)
    | (w, Ok None) => (w, None)
    | (w, Err _) => (w, carried)
    end) rows previous ∅ w.
Definition createPrivateKeySource (provider : KeyProvider) (keyPrefix : jsstr) : Source :=
  match provider with
  | NoProvider | Pkcs11 => DeviceHeldJwsPrivateKeySource
  | Database => DatabaseJwsPrivateKeySource
  | VaultKv => VaultJwsPrivateKeySource keyPrefix
  end.
Definition createKeyRefSource (provider : KeyProvider) (refPrefix : jsstr) : option Source :=
  match provider with Pkcs11 => Some (VaultJwsKeyRefSource refPrefix) | _ => None end.
End custody.

(** ** ParticipantSigningKeysCache *)

Record Cache : Type := mkCache {
  publicKeysByFspId : gmap jsstr jsstr; privateKeysByFspId : gmap jsstr jsstr; keyRefsByFspId : gmap jsstr jsstr;
  accessPublicKeysByFspId : gmap jsstr jsstr; signEnabledByFspId : gmap jsstr bool; verifyModeByFspId : gmap jsstr FspiopVerifyMode }.
Definition empty_cache : Cache := mkCache ∅ ∅ ∅ ∅ ∅ ∅.
Definition isSignEnabled (c : Cache) (fsp : jsstr) : bool := bool_decide (signEnabledByFspId c !! fsp = Some true).

Definition DEFAULT_REFRESH_INTERVAL_SECONDS : Z := 5.
(** [resolveRefreshIntervalMs], of what [Number] makes of the setting when it is an integer. *)
Definition resolveRefreshIntervalMs (value : option jsstr) (integer : jsstr -> option Z) : Z :=
  match value with
  | None => DEFAULT_REFRESH_INTERVAL_SECONDS * 1000
  | Some v =>
      if (length (trim v) =? 0)%nat then DEFAULT_REFRESH_INTERVAL_SECONDS * 1000
      else match integer v with
           | Some n => if n <=? 0 then DEFAULT_REFRESH_INTERVAL_SECONDS * 1000 else n * 1000
           | None => DEFAULT_REFRESH_INTERVAL_SECONDS * 1000
           end
  end.

(** The maps a loop over rows fills, by trimmed ids, the last row of an id winning. *)
Definition collect {R A} (id : R -> jsstr) (f : R -> option A) (rows : list R) : gmap jsstr A :=
  fold_left (fun m r =>
    match trim (id r), f r with
    | [], _ | _, None => m
    | fsp, Some a => <[fsp := a]> m
    end) rows ∅.

(** The process: the tables as its connection reads them, the cache, [isRefreshing]. *)
Record Gateway {W : Type} : Type := mkGateway { base : World W; cache : Cache; isRefreshing : bool }.
Arguments Gateway : clear implicits. Arguments mkGateway {W}.

Section refreshing.
  Context {W : Type} {surroundings : Surroundings W} (privateKeySource : @Source W) (keyRefSource : option (@Source W)).
  Notation Gateway := (Gateway W).
  Notation Cmd := (Prog Gateway exception).

Definition at_outside (s : Gateway) : W := outside (base s).
Definition with_outside_of (w : W) (s : Gateway) : Gateway := mkGateway (Tenants.with_outside w (base s)) (cache s) (isRefreshing s).
Definition with_cache (c : Cache) (s : Gateway) : Gateway := mkGateway (base s) c (isRefreshing s).
Definition refreshing (b : bool) (s : Gateway) : Gateway := mkGateway (base s) (cache s) b.
Notation query := (query_of at_outside with_outside_of driver Failure).

(** [resolve] over the keys of before. *)
Definition resolving (source : Source) (previous : Cache -> gmap jsstr jsstr) (rows : list (jsstr * ParticipantKey)) : Cmd (gmap jsstr jsstr) :=
  let resolved s := source rows (previous (cache s)) (at_outside s) in
  Call (fun s => with_outside_of (fst (resolved s)) s) (fun s => ret (snd (resolved s))).

Definition loaded (people : list Participant) (rows : list (jsstr * ParticipantKey)) (private refs : gmap jsstr jsstr) : Cache :=
  mkCache (collect fst (fun e => normalizePem (jwsPublicKey (snd e))) rows) private refs
    (collect name (fun p => normalizePem (Some (accessPublicKey p))) people)
    (collect fst (fun e => Some (jwsSignEnabled (snd e))) rows)
    (collect fst (fun e => Some (parse (Some (jwsVerifyMode (snd e))) Off)) rows).

Definition reload : Cmd unit :=
  let* people := query (fun s => (map_to_list (participants (base s))).*2) in
  let* rows := query (fun s => map_to_list (replica (base s))) in
  let* private := resolving privateKeySource privateKeysByFspId rows in
  let* refs := match keyRefSource with None => read (fun s => keyRefsByFspId (cache s)) | Some source => resolving source keyRefsByFspId rows end in
  write (with_cache (loaded people rows private refs)).
(** [refreshParticipantSigningKeys]: one at a time. *)
Definition refresh : Cmd unit :=
  Call (refreshing true) (fun s =>
    if isRefreshing s then ret tt
    else
      let* _ := catch reload (fun e => let* _ := write (refreshing false) in throw e) in
      write (refreshing false)).
Definition refreshSafely : Cmd unit := catch refresh (fun _ => ret tt).
End refreshing.
