(* ===== verification/Keys.v ===== *)
(** * Who holds which key

    The theorems on Custody.v: the private key in Vault belongs to the public key in the table,
    whatever fails and wherever a process dies; what a refresh of the cache loads; that a
    gateway signs with the key its tenants published; and where this ends: two onboardings of
    one tenant at once, a start that does not wait for its first load. *)

From S2P Require Import Prelude Interleave Outside Wire Tenants Rows Trust Custody.
From S2P Require Vault.
#[local] Open Scope prog_scope.

(** ** Pairs *)

Section pairs.
  Context {W : Type} {surroundings : Surroundings W} {custodian : Custodian W} (prefix : jsstr).
  Context (held : W -> jsstr -> jsstr -> option jsstr) (pair : jsstr -> jsstr -> Prop).
  Notation World := (World W).
#[local] Instance vault_kv : JwsKeyProvisioner W := VaultJwsKeyProvisioner prefix.

(** Vault is a store of texts that nothing else touches; generated keys are pairs. *)
Class Custody : Prop := {
  custody_kv :: Vault.KvLaws W Vault.failure held;
  custody_generate : forall w, let '(w', (public, private)) := generate w in
    pair public private /\ has_text (Some private) = true /\ forall p f, held w' p f = held w p f;
  custody_driver : forall w p f, held (fst (driver w)) p f = held w p f;
  custody_send : forall r w p f, held (fst (send r w)) p f = held w p f;
  custody_bus : forall fsp w p f, held (fst (bus fsp w)) p f = held w p f;
  custody_ledger : forall fsp c e w p f, held (fst (ledger fsp c e w)) p f = held w p f }.
Context {custody : Custody}.

(** The public key of a row Pivotal signs with has its private half in the store [m]. *)
Definition fits (m : jsstr -> jsstr -> option jsstr) (fsp : jsstr) (row : ParticipantKey) : Prop :=
  forall public, own_key row = Some public -> has_text (Some public) = true ->
    exists private, m (key_path prefix fsp) KEY_FIELD = Some private /\ has_text (Some private) = true /\ pair public private.
Definition holding (m : jsstr -> jsstr -> option jsstr) (s : World) : Prop :=
  (forall p f, held (outside s) p f = m p f) /\ forall fsp row, keys s !! fsp = Some row -> fits m fsp row.
Definition paired (s : World) : Prop := holding (held (outside s)) s.

Lemma holding_paired m s : holding m s -> paired s.
Proof.
  intros [Hm Hk]. split; [done|]. intros fsp row Hrow public Ho Ht. destruct (Hk fsp row Hrow public Ho Ht) as (private & H & Hp).
  exists private. by rewrite Hm.
Qed.
Lemma holding_outside m w s : (forall p f, held w p f = held (outside s) p f) -> holding m s -> holding m (with_outside w s).
Proof. intros Hw [Hm Hk]. split; [|exact Hk]. intros p f. cbn. by rewrite Hw. Qed.
Lemma holding_save m s fsp row : fits m fsp row -> holding m s -> holding m (with_keys <[fsp := row]> s).
Proof. intros Hf [Hm Hk]. split; [exact Hm|]. cbn. intros f r [[<- <-]|[_ H]]%lookup_insert_Some; [done|by apply Hk]. Qed.
Lemma fits_peer m fsp row : own_key row = None -> fits m fsp row.
Proof. intros H public Ho. congruence. Qed.

#[local] Instance holding_rows m : RowInvariant (holding m) (fun fsp o => forall row, o = Some row -> fits m fsp row) (fun _ _ => True) (fits m) (fun _ _ => True).
Proof.
  split; intros.
  - destruct H2 as [Hm Hk]. split; [by rewrite H1|by rewrite H].
  - apply holding_outside; [apply custody_driver|done].
  - apply holding_outside; [apply custody_send|done].
  - apply holding_outside; [apply custody_bus|done].
  - by apply (proj2 H).
  - by apply H.
  - done.
  - by apply holding_save.
  - apply holding_save; [by apply fits_peer|done].
  - exact H0.
  - exact H0.
  - apply fits_peer. unfold own_key. cbn. by destruct (role row).
Qed.
Notation keeping_rows m lemma := (lemma (holding m) (fun fsp o => forall row, o = Some row -> fits m fsp row) (fun _ _ => True) (fits m) (fun _ _ => True)).
Notation Cmd := (Prog World exception).

(** What [provision] leaves in the store. *)
Lemma provision_held fsp w :
  let r := provision fsp w in
  match snd r with
  | Ok p => exists public private, p = Some (mkProvisioned public None) /\ pair public private /\ has_text (Some private) = true /\
      forall q f, held (fst r) q f = if decide ((q, f) = (key_path prefix fsp, KEY_FIELD)) then Some private else held w q f
  | Err _ => exists private, forall q f, held (fst r) q f = held w q f \/
      held (fst r) q f = if decide ((q, f) = (key_path prefix fsp, KEY_FIELD)) then Some private else held w q f
  end.
Proof.
  cbn [provision vault_kv VaultJwsKeyProvisioner]. pose proof (custody_generate w) as Hg. destruct (generate w) as [w1 [public private]]. destruct Hg as (Hp & Ht & Hh).
  assert (Hne : private <> []) by (by intros ->). unfold failed_read.
  pose proof (Vault.kv_write_held (key_path prefix fsp) KEY_FIELD private w1 Hne) as Hw.
  pose proof (fun e => Vault.kv_write_lost (key_path prefix fsp) KEY_FIELD private w1 e Hne) as Hl.
  destruct (Vault.kv_write _ _ _ w1) as [w2 [[]|e]]; cbn in *.
  - exists public, private. split; [done|]. split; [done|]. split; [done|]. intros q f. by rewrite Hw, Hh.
  - exists private. intros q f. destruct (Hl e eq_refl) as [H|H]; rewrite H, Hh; [by left|by right].
Qed.

Lemma key_path_inj fsp fsp' : key_path prefix fsp = key_path prefix fsp' -> fsp = fsp'.
Proof. by intros H%app_inv_head%app_inv_head. Qed.

(** A store that changed at the key of one tenant only, whose row has no key. *)
Lemma paired_provisioned fsp w s : paired s -> holds_key (keys s !! fsp) = false ->
  (forall q f, (q, f) <> (key_path prefix fsp, KEY_FIELD) -> held w q f = held (outside s) q f) -> paired (with_outside w s).
Proof.
  intros [_ Hk] Hno Hw. split; [done|]. cbn. intros fsp' row Hrow public Ho Ht. destruct (decide (fsp' = fsp)) as [->|Hne].
  - rewrite Hrow in Hno. unfold own_key in Ho. destruct (role row); [|done]. cbn in Hno. by rewrite Ho, Ht in Hno.
  - rewrite Hw by (intros [= E]; apply Hne; by apply key_path_inj). by apply (Hk fsp' row).
Qed.

Lemma provision_always (fsp : jsstr) s : paired s -> always paired (provisionSigningKey fsp) s.
Proof.
  intros Hs. unfold provisionSigningKey. assert (Hf := keeping_rows (held (outside s)) keeps_findByFspId fsp). apply always_bind.
  { eapply always_weaken; [apply holding_paired|]. by eapply always_keeps. }
  intros existing He. assert (Hs1 : paired (fst (run (findByFspId fsp) s))) by (eapply holding_paired, run_keeps; [exact Hf|exact Hs]).
  assert (Hfound : keys (fst (run (findByFspId fsp) s)) !! fsp = existing).
  { unfold findByFspId, query_of in *. cbn in *. destruct (snd (driver (outside s))); [|done..]. by injection He. }
  revert Hs1 Hfound. generalize (fst (run (findByFspId fsp) s)). intros s1 Hs1 Hfound. destruct (holds_key existing) eqn:Hno; [by apply always_done|].
  pose proof (provision_held fsp (outside s1)) as Hp. cbn zeta in Hp. cbn [bind outer_of]. apply always_call; [done|].
  destruct (provision fsp (outside s1)) as [w [p|e]]; cbn [fst snd bind] in *.
  - destruct Hp as (public & private & -> & Hpair & Ht & Hw).
    assert (Hs2 : paired (with_outside w s1)).
    { apply (paired_provisioned fsp); [done|by rewrite Hfound|]. intros q f Hne. rewrite Hw. by rewrite decide_False. }
    set (m := held w) in *. change (holding m (with_outside w s1)) in Hs2. assert (Hfit : fits m fsp (provisioned_row (mkProvisioned public None) existing)).
    { intros public' [= <-] _. exists private. unfold m. rewrite Hw, decide_True by done. done. }
    eapply always_weaken; [apply (holding_paired m)|]. eapply always_keeps; [|exact Hs2].
    eapply (keeps_bind _ (fun _ => True)); [|intros _ _; destruct announcing; [apply (keeping_rows m keeps_announce)|by apply keeps_ret]].
    destruct existing as [row|]; cbn [saveEntity]; [by apply (keeping_rows m keeps_save)|].
    apply (keeping_rows m keeps_store). intros s' s2 HI. destruct (keys s' !! fsp); [done|]. intros [= <-]. by apply holding_save.
  - apply always_done. destruct Hp as [private Hw]. apply (paired_provisioned fsp); [done|by rewrite Hfound|]. intros q f Hne.
    destruct (Hw q f) as [H|H]; rewrite H; [done|]. by rewrite decide_False.
Qed.

Lemma onboard_always input s : paired s -> always paired (onboardFsp input) s.
Proof.
  intros Hs. unfold onboardFsp. set (m := held (outside s)).
  (* a call that keeps the store and the rows *)
  assert (Hstep : forall A (P : A -> Prop) B (p : Cmd A) (q : A -> Cmd B) s0, keeps (holding m) P p -> holding m s0 ->
    (forall a s1, holding m s1 -> always paired (q a) s1) -> always paired (bind p q) s0).
  { intros A P B p q s0 Hp H0 Hq. apply always_bind; [eapply always_weaken; [apply holding_paired|by eapply always_keeps]|].
    intros a _. apply Hq. by eapply run_keeps. }
  eapply Hstep; [apply (keeping_rows m keeps_findByFspId)|exact Hs|]. intros existingKey s1 H1.
  eapply (Hstep _ (fun _ => True)); [|exact H1|].
  { destruct (holds_key existingKey); [by apply keeps_ret|]. apply keeps_call. intros s0 H0. split; [|apply keeps_done]. by apply holding_outside. }
  intros _ s2 H2. eapply (Hstep _ (fun _ => True)); [|exact H2|].
  { apply keeps_call. intros s0 H0. split; [|apply keeps_done]. apply holding_outside; [apply custody_ledger|done]. }
  intros _ s3 H3. eapply Hstep; [apply (keeping_rows m keeps_findByName)|exact H3|]. intros existing s4 H4.
  eapply Hstep; [apply (keeping_rows m keeps_saveParticipant)|exact H4|]. intros _ s5 H5. apply provision_always. by eapply holding_paired.
Qed.

(** Commands one after the other, each ended by its last call or by a crash; between them time
    passes, MCM is used by others and the replica catches up. Keys are registered by onboarding
    only. *)
Inductive life : World -> World -> Prop :=
  | life_command c n s : (forall input, c <> AddKeys input) -> life s (fst (advance n (perform c) s))
  | life_drift s s' : drift s s' -> (forall p f, held (outside s') p f = held (outside s) p f) -> life s s'.

Lemma life_paired s s' : life s s' -> paired s -> paired s'.
Proof.
  intros Hl Hs. destruct Hl as [c n s Hc|s s' [Hk _] Hh].
  - set (m := held (outside s)). assert (Hkeeps : forall (p : Cmd unit), keeps (holding m) (fun _ => True) p -> always paired p s).
    { intros p Hp. eapply always_weaken; [apply (holding_paired m)|]. by eapply always_keeps. }
    assert (Hthen : forall A (p : Cmd A), keeps (holding m) (fun _ => True) p -> keeps (holding m) (fun _ => True) (let* _ := p in ret tt)) by
      (intros A p Hp; eapply keeps_bind; [exact Hp|intros _ _; by apply keeps_ret]).
    refine ((_ : always paired (perform c) s) n). destruct c; cbn [perform].
    + by apply onboard_always.
    + by destruct (Hc input).
    + apply Hkeeps, Hthen. apply (keeping_rows m keeps_updateJwsPolicy).
    + apply Hkeeps. apply (keeping_rows m keeps_updateAccessKey).
    + apply Hkeeps. apply (keeping_rows m keeps_publish).
    + apply Hkeeps, Hthen. apply (keeping_rows m keeps_reconcile).
    + apply Hkeeps, Hthen. apply (keeping_rows m keeps_sync). intros w certs _. by apply Forall_forall.
    + apply Hkeeps, Hthen. apply (keeping_rows m keeps_consume).
  - destruct Hs as [Hm Hr]. apply (holding_paired (held (outside s))). split; [done|]. by rewrite Hk.
Qed.
Lemma lives_paired s s' : rtc life s s' -> paired s -> paired s'.
Proof. induction 1 as [|s s1 s2 H1 _ IH]; [done|]. intros Hs. apply IH. by eapply life_paired. Qed.

(** C14. Onboardings, switches, sweeps and syncs follow each other, calls of any of them fail, are
    served without an answer, or are the last before a crash: whenever the row of a tenant has a
    public key, Vault holds the private key it belongs to. *)
Theorem pairs_kept (s s' : World) : rtc life s s' -> paired s -> paired s'.
Proof. apply lives_paired. Qed.
End pairs.

(** ** Maps by trimmed ids *)

Section collecting.
  Context {R A : Type} (id : R -> jsstr) (f : R -> option A).

Lemma collect_snoc rows r :
  collect id f (rows ++ [r]) = match trim (id r), f r with
    | [], _ | _, None => collect id f rows
    | fsp, Some a => <[fsp := a]> (collect id f rows)
    end.
Proof. unfold collect. by rewrite fold_left_app. Qed.
Lemma collect_absent rows fsp : (forall r, r ∈ rows -> trim (id r) <> fsp) -> collect id f rows !! fsp = None.
Proof.
  induction rows as [|r rows IH] using rev_ind; intros Hno; [apply lookup_empty|]. rewrite collect_snoc.
  assert (IH' : collect id f rows !! fsp = None) by (apply IH; intros r' Hr'; apply Hno; set_solver).
  assert (Hne : trim (id r) <> fsp) by (apply Hno; set_solver). destruct (trim (id r)) as [|c t]; [done|]. destruct (f r); [|done]. by rewrite lookup_insert_ne.
Qed.
Lemma collect_present rows r : NoDup ((fun r => trim (id r)) <$> rows) -> r ∈ rows -> trim (id r) <> [] -> collect id f rows !! trim (id r) = f r.
Proof.
  induction rows as [|r' rows IH] using rev_ind; intros Hnd Hin Hne; [by apply elem_of_nil in Hin|]. rewrite fmap_app in Hnd.
  apply NoDup_app in Hnd as (Hnd & Hdis & _). rewrite collect_snoc. apply elem_of_app in Hin as [Hin|Hin%list_elem_of_singleton].
  - assert (Hd : trim (id r') <> trim (id r)).
    { intros E. apply (Hdis (trim (id r))); [apply list_elem_of_fmap; by exists r|]. cbn. rewrite E. by left. }
    specialize (IH Hnd Hin Hne). destruct (trim (id r')) as [|c t]; [done|]. destruct (f r'); [|done]. by rewrite lookup_insert_ne.
  - subst r'. assert (Hno : collect id f rows !! trim (id r) = None).
    { apply collect_absent. intros r0 Hr0 E. apply (Hdis (trim (id r))); [apply list_elem_of_fmap; by exists r0|by left]. }
    destruct (trim (id r)) as [|c t]; [done|]. destruct (f r) as [a|]; [apply lookup_insert_eq|exact Hno].
Qed.
End collecting.

(** ** A refresh *)

Section refreshes.
  Context {W : Type} {surroundings : Surroundings W} {custodian : Custodian W} (prefix : jsstr) (held : W -> jsstr -> jsstr -> option jsstr).
  Context (pair : jsstr -> jsstr -> Prop) {custody : Custody held pair}.
  Notation Gateway := (Gateway W).
  Notation source := (VaultJwsPrivateKeySource prefix).

(** The key a tenant is given: Vault's, or the one of before when it cannot be read. *)
Definition key_of (fsp : jsstr) (carried : option jsstr) (w : W) : W * option jsstr :=
  match Vault.kv_read (key_path prefix fsp) KEY_FIELD w with (w, Ok pem) => (w, normalizePem pem) | (w, Err _) => (w, carried) end.
Lemma key_of_held fsp carried w :
  (forall p f, held (fst (key_of fsp carried w)) p f = held w p f) /\
  (snd (key_of fsp carried w) = normalizePem (held w (key_path prefix fsp) KEY_FIELD) \/
   snd (key_of fsp carried w) = carried /\ is_ok (snd (Vault.kv_read (key_path prefix fsp) KEY_FIELD w)) = false).
Proof.
  unfold key_of. pose proof (Vault.kv_read_held (key_path prefix fsp) KEY_FIELD w) as Hr. pose proof (Vault.kv_read_keeps (key_path prefix fsp) KEY_FIELD w) as Hk.
  destruct (Vault.kv_read _ _ w) as [w' [a|e]]; cbn in *; (split; [done|]); [left; by rewrite (Hr a eq_refl)|by right].
Qed.

(** What a tenant may be given, when the store holds [m]. *)
Definition given (m : jsstr -> jsstr -> option jsstr) (sure : bool) (fsp : jsstr) (carried key : option jsstr) : Prop :=
  key = normalizePem (m (key_path prefix fsp) KEY_FIELD) \/ sure = false /\ key = carried.

Lemma resolve_all_given m sure rows previous found w :
  (sure = true -> forall p f w, is_ok (snd (Vault.kv_read p f w)) = true) ->
  (forall p f, held w p f = m p f) -> NoDup ((fun e => trim (fst e)) <$> rows) ->
  let r := resolve_all (fun fsp row => key_of fsp) rows previous found w in
  (forall p f, held (fst r) p f = m p f) /\
  (forall e, e ∈ rows -> isSigningTenant e = true -> exists key, given m sure (trim (fst e)) (previous !! trim (fst e)) key /\
     snd r !! trim (fst e) = match key with Some k => Some k | None => found !! trim (fst e) end) /\
  (forall fsp, (forall e, e ∈ rows -> isSigningTenant e = true -> trim (fst e) <> fsp) -> snd r !! fsp = found !! fsp).
Proof.
  intros Hsure. revert found w. induction rows as [|e rows IH]; intros found w Hw Hnd; cbn zeta.
  - split; [done|]. split; [by intros e He%elem_of_nil|done].
  - cbn [fmap list_fmap] in Hnd. apply NoDup_cons in Hnd as [Hnew Hnd]. cbn [resolve_all]. destruct (isSigningTenant e) eqn:He.
    + destruct (key_of_held (trim (fst e)) (previous !! trim (fst e)) w) as [Hk Hg].
      destruct (key_of (trim (fst e)) (previous !! trim (fst e)) w) as [w1 key]. cbn [fst snd] in *.
      set (found' := match key with Some k => <[trim (fst e) := k]> found | None => found end).
      assert (Hne : forall fsp, fsp <> trim (fst e) -> found' !! fsp = found !! fsp) by
        (intros fsp Hne; unfold found'; destruct key; [by rewrite lookup_insert_ne|done]).
      destruct (IH found' w1) as (H1 & H2 & H3); [intros p f; by rewrite Hk|done|]. split; [done|]. split.
      * intros e' [->|He']%elem_of_cons Hs.
        -- exists key. split.
           { rewrite Hw in Hg. destruct Hg as [->|[-> Hbad]]; [by left|]. right. split; [|done]. destruct sure; [|done]. by rewrite Hsure in Hbad. }
           rewrite H3; [unfold found'; destruct key; [by rewrite lookup_insert_eq|done]|].
           intros e' He' _ E. apply Hnew. apply list_elem_of_fmap. by exists e'.
        -- destruct (H2 e' He' Hs) as (key' & Hg' & ->). exists key'. split; [done|]. destruct key'; [done|]. apply Hne.
           intros E. apply Hnew. rewrite <- E. apply list_elem_of_fmap. by exists e'.
      * intros fsp Hno. rewrite H3; [apply Hne; intros ->; eapply (Hno e); [by left|done|done]|]. intros e' He'. apply Hno. by right.
    + destruct (IH found w Hw Hnd) as (H1 & H2 & H3). split; [done|]. split.
      * intros e' [->|He']%elem_of_cons Hs; [congruence|by apply H2].
      * intros fsp Hno. apply H3. intros e' He'. apply Hno. by right.
Qed.

(** What the caches hold after a refresh that read the rows [m] while the store held [store]. *)
Record loads (rows : gmap jsstr ParticipantKey) (store : jsstr -> jsstr -> option jsstr) (sure : bool) (before after : Cache) : Prop := {
  loads_public : forall fsp row, rows !! fsp = Some row -> trim fsp <> [] -> publicKeysByFspId after !! trim fsp = normalizePem (jwsPublicKey row);
  loads_switch : forall fsp row, rows !! fsp = Some row -> trim fsp <> [] -> isSignEnabled after (trim fsp) = jwsSignEnabled row;
  loads_mode : forall fsp row, rows !! fsp = Some row -> trim fsp <> [] -> verifyModeByFspId after !! trim fsp = Some (parse (Some (jwsVerifyMode row)) Off);
  loads_private : forall fsp row, rows !! fsp = Some row -> isSigningTenant (fsp, row) = true ->
    given store sure (trim fsp) (privateKeysByFspId before !! trim fsp) (privateKeysByFspId after !! trim fsp);
  loads_others : forall id, (forall fsp row, rows !! fsp = Some row -> isSigningTenant (fsp, row) = true -> trim fsp <> id) -> privateKeysByFspId after !! id = None;
  loads_refs : keyRefsByFspId after = keyRefsByFspId before }.

(** No two ids are the same but for blanks around them. *)
Definition distinct (rows : gmap jsstr ParticipantKey) : Prop :=
  forall a b, is_Some (rows !! a) -> is_Some (rows !! b) -> trim a = trim b -> a = b.
Lemma distinct_rows rows : distinct rows -> NoDup ((fun e => trim (fst e)) <$> map_to_list rows).
Proof.
  intros Hd. assert (Hin : forall e, e ∈ map_to_list rows -> is_Some (rows !! fst e)) by (intros [k v] He%elem_of_map_to_list; by eexists).
  revert Hin. generalize (NoDup_fst_map_to_list rows). generalize (map_to_list rows). induction l as [|e l IH]; intros Hnd Hin; [constructor|].
  cbn in Hnd |- *. apply NoDup_cons in Hnd as [Hnew Hnd]. constructor; [|apply IH; [done|intros e' He'; apply Hin; by right]].
  intros (e' & E & He')%list_elem_of_fmap. apply Hnew. apply list_elem_of_fmap. exists e'. split; [|done].
  apply Hd; [apply Hin; by left|apply Hin; by right|done].
Qed.

Lemma loaded_loads rows people store sure before w :
  (sure = true -> forall p f w, is_ok (snd (Vault.kv_read p f w)) = true) -> (forall p f, held w p f = store p f) -> distinct rows ->
  loads rows store sure before
    (loaded people (map_to_list rows) (snd (source (map_to_list rows) (privateKeysByFspId before) w)) (keyRefsByFspId before)).
Proof.
  intros Hsure Hw Hd. pose proof (distinct_rows rows Hd) as Hnd.
  pose proof (resolve_all_given store sure (map_to_list rows) (privateKeysByFspId before) ∅ w Hsure Hw Hnd) as (_ & Hin & Hout).
  assert (Hrow : forall fsp row, rows !! fsp = Some row -> (fsp, row) ∈ map_to_list rows) by (intros; by apply elem_of_map_to_list).
  split.
  - intros fsp row Hr Hne. cbn. by rewrite (collect_present fst _ _ (fsp, row) Hnd (Hrow _ _ Hr) Hne).
  - intros fsp row Hr Hne. unfold isSignEnabled. cbn. rewrite (collect_present fst _ _ (fsp, row) Hnd (Hrow _ _ Hr) Hne). cbn. by destruct (jwsSignEnabled row).
  - intros fsp row Hr Hne. cbn. by rewrite (collect_present fst _ _ (fsp, row) Hnd (Hrow _ _ Hr) Hne).
  - intros fsp row Hr Hs. destruct (Hin _ (Hrow _ _ Hr) Hs) as (key & Hg & Hl). cbn [fst snd] in Hg, Hl. cbn [privateKeysByFspId loaded].
    change (snd (source (map_to_list rows) (privateKeysByFspId before) w)) with (snd (resolve_all (fun fsp row => key_of fsp) (map_to_list rows) (privateKeysByFspId before) ∅ w)).
    rewrite Hl. destruct key; [done|]. by rewrite lookup_empty.
  - intros id Hno. cbn [privateKeysByFspId loaded].
    change (snd (source (map_to_list rows) (privateKeysByFspId before) w)) with (snd (resolve_all (fun fsp row => key_of fsp) (map_to_list rows) (privateKeysByFspId before) ∅ w)).
    rewrite Hout; [apply lookup_empty|]. intros [fsp row] He%elem_of_map_to_list Hs. by apply (Hno fsp row).
  - done.
Qed.

Lemma run_reload sure g : (sure = true -> forall p f w, is_ok (snd (Vault.kv_read p f w)) = true) -> distinct (replica (base g)) ->
  let g' := fst (run (reload source None) g) in
  keys (base g') = keys (base g) /\ replica (base g') = replica (base g) /\ isRefreshing g' = isRefreshing g /\
  match snd (run (reload source None) g) with
  | Ok _ => loads (replica (base g)) (held (outside (base g))) sure (cache g) (cache g')
  | Err _ => cache g' = cache g
  end.
Proof.
  intros Hsure Hd. unfold reload. rewrite run_query. destruct (snd (driver (at_outside g))); [|done..]. rewrite run_query. set (g1 := with_outside_of _ g).
  destruct (snd (driver (at_outside g1))); [|done..]. set (g2 := with_outside_of _ g1). unfold resolving. cbn [bind run ret read write fst snd]. split; [done|]. split; [done|]. split; [done|]. change (cache (with_outside_of _ g2)) with (cache g).
  apply loaded_loads; [done| |done]. intros p f. unfold g2, g1, at_outside. cbn. by rewrite !(custody_driver held pair).
Qed.
Lemma run_refresh sure g : (sure = true -> forall p f w, is_ok (snd (Vault.kv_read p f w)) = true) -> distinct (replica (base g)) -> isRefreshing g = false ->
  let g' := fst (run (refresh source None) g) in
  keys (base g') = keys (base g) /\ replica (base g') = replica (base g) /\ isRefreshing g' = false /\
  match snd (run (refresh source None) g) with
  | Ok _ => loads (replica (base g)) (held (outside (base g))) sure (cache g) (cache g')
  | Err _ => cache g' = cache g
  end.
Proof.
  intros Hsure Hd Hno. unfold refresh. cbn [run]. rewrite Hno, run_bind, run_catch. pose proof (run_reload sure (refreshing true g) Hsure Hd) as H. cbn zeta in H.
  destruct (run (reload source None) (refreshing true g)) as [g1 [[]|e]], H as (H1 & H2 & _ & H4); cbn in *; done.
Qed.

(** A refresh loads all maps from one reading of the tables, or leaves all of them: the private key
    of a tenant that may sign is Vault's or, where Vault could not be read, the one of before, and
    nobody else has one; the next refresh may start. *)
Theorem refresh_course (g : Gateway) : distinct (replica (base g)) -> isRefreshing g = false ->
  let g' := fst (run (refresh source None) g) in
  isRefreshing g' = false /\
  match snd (run (refresh source None) g) with
  | Ok _ => loads (replica (base g)) (held (outside (base g))) false (cache g) (cache g')
  | Err _ => cache g' = cache g
  end.
Proof. intros Hd Hno. destruct (run_refresh false g ltac:(done) Hd Hno) as (_ & _ & H1 & H2). done. Qed.

(** C11. After any commands on keys that follow one another, each of them complete, failed at any
    call or cut off by a crash, a gateway that has caught up holds after a refresh, for each
    tenant that may sign with a published key, the private key this public key belongs to,
    under the names it is looked up by. The keys of tenants come from onboarding alone and
    nobody else writes to Vault; during the refresh the database and Vault answer and no other
    refresh is under way; the ids of the table stay different where blanks are trimmed, and the
    id of the tenant has none. That the commands do not overlap is needed: see
    [concurrent_onboarding]. *)
Theorem gateway_holds_own_keys (s0 : World W) (g : Gateway) (fsp : jsstr) (row : ParticipantKey) (public : jsstr) :
  paired prefix held pair s0 -> rtc (life prefix held) s0 (base g) -> replica (base g) = keys (base g) -> distinct (keys (base g)) ->
  (forall w, snd (driver w) = Works) -> (forall p f w, is_ok (snd (Vault.kv_read p f w)) = true) -> isRefreshing g = false ->
  keys (base g) !! fsp = Some row -> trim fsp = fsp -> isSigningTenant (fsp, row) = true -> jwsPublicKey row = Some public -> has_text (Some public) = true ->
  exists private, pair public private /\ let c := cache (fst (run (refresh source None) g)) in
    privateKeysByFspId c !! fsp = Some (unescape private) /\ publicKeysByFspId c !! fsp = Some (unescape public) /\ isSignEnabled c fsp = true.
Proof.
  intros H0 Hlife Hrep Hd Hdriver Hkv Hno Hrow Htrim Hs Hpub Htext.
  pose proof (lives_paired prefix held pair s0 (base g) Hlife H0) as [_ Hp]. rewrite <- Hrep in Hd.
  pose proof (run_refresh true g (fun _ => Hkv) Hd Hno) as (_ & _ & _ & H).
  assert (Hok : snd (run (refresh source None) g) = Ok tt).
  { unfold refresh, reload. cbn [run]. rewrite Hno, run_bind, run_catch, run_query, Hdriver, run_query, Hdriver. done. }
  rewrite Hok in H. destruct H as [H1 H2 _ H4 _ _]. rewrite Hrep in *. pose proof Hs as Hs'. unfold isSigningTenant in Hs'. cbn [fst snd] in Hs'.
  apply andb_true_iff in Hs' as [[Hrole%bool_decide_eq_true Hon]%andb_true_iff Hfsp]. assert (Hne : trim fsp <> []) by (intros E; unfold has_text in Hfsp; by rewrite E in Hfsp).
  destruct (Hp fsp row Hrow public) as (private & Hheld & Hpt & Hpair); [by unfold own_key; rewrite Hrole|done|]. exists private. split; [done|]. cbn zeta.
  specialize (H1 fsp row Hrow Hne). specialize (H2 fsp row Hrow Hne). specialize (H4 fsp row Hrow Hs). rewrite Htrim in H1, H2, H4.
  split; [|split; [|by rewrite H2]].
  - destruct H4 as [->|[? _]]; [|done]. rewrite Hheld. unfold normalizePem. by rewrite Hpt.
  - rewrite H1, Hpub. unfold normalizePem. by rewrite Htext.
Qed.
End refreshes.

(** The start of a gateway: [onModuleInit] starts a refresh that it does not await, and awaits a
    second one; this one returns at once, whatever the first has still to load. *)
Theorem first_load_not_awaited {W} {surroundings : Surroundings W} (source : Source) (refs : option Source) (g : Gateway W) :
  let started := fst (advance 1 (refreshSafely source refs) g) in
  snd (run (refresh source refs) started) = Ok tt /\ cache (fst (run (refresh source refs) started)) = cache g.
Proof. by destruct g as [b c r]. Qed.

(** ** A desk with a Vault *)

(** The client of Vault.v at its example server, numbered key pairs, and a Connection Manager. *)
Record Desk : Type := mkDesk { locker : Vault.World Vault.Box; made : nat; registered_keys : Registry }.
Definition at_locker {A} (r : Vault.World Vault.Box * A) (w : Desk) : Desk * A := (mkDesk (fst r) (made w) (registered_keys w), snd r).
#[global] Instance desk_kv : Vault.KvStore Desk Vault.failure := {|
  Vault.kv_read := fun p f w => at_locker (Vault.kv_read p f (locker w)) w;
  Vault.kv_write := fun p f v w => at_locker (Vault.kv_write p f v (locker w)) w |}.
Definition numbered (t : jsstr) (n : nat) : jsstr := t ++ replicate n "I"%char.
#[global] Instance desk : Custodian Desk := {|
  generate := fun w => (mkDesk (locker w) (S (made w)) (registered_keys w), (numbered (js "PUBLIC ") (made w), numbered (js "PRIVATE ") (made w)));
  createPublicKey := fun _ => true |}.
#[global] Instance desk_surroundings : Surroundings Desk := {|
  send := fun r w => let '(m, a) := registry_send r (registered_keys w) in (mkDesk (locker w) (made w) m, a);
  driver := fun w => (w, Works); bus := fun _ w => (w, true); ledger := fun _ _ _ w => (w, Ok tt);
  same_text := str_eqb; registration := false; announcing := true |}.
Definition desk_held (w : Desk) : jsstr -> jsstr -> option jsstr := Vault.held Vault.book (locker w).
Definition desk_pair (public private : jsstr) : Prop := exists n, public = numbered (js "PUBLIC ") n /\ private = numbered (js "PRIVATE ") n.

Lemma trimStart_kept c (l : jsstr) : c ∈ l -> is_ws c = false -> trimStart l <> [].
Proof.
  intros Hin Hc. induction l as [|d l IH]; [by apply elem_of_nil in Hin|]. cbn. destruct (is_ws d) eqn:Hd; [|done].
  apply elem_of_cons in Hin as [->|Hin]; [congruence|by apply IH].
Qed.
Lemma has_text_head c (s : jsstr) : is_ws c = false -> has_text (Some (c :: s)) = true.
Proof.
  intros Hc. unfold has_text, trim. cbn [trimStart]. rewrite Hc. unfold trimEnd.
  assert (H : trimStart (reverse (c :: s)) <> []) by (apply (trimStart_kept c); [apply elem_of_reverse; by left|done]).
  destruct (trimStart (reverse (c :: s))) as [|d t]; [done|]. by rewrite length_reverse.
Qed.
Lemma desk_custody : Custody desk_held desk_pair.
Proof.
  pose proof (@Vault.kv_laws _ _ _ Vault.box_engine) as Hl. split; try done.
  - split.
    + intros p f w a. apply (Vault.kv_read_held p f (locker w)).
    + intros p f w. apply (Vault.kv_read_keeps p f (locker w)).
    + intros p f v w. apply (Vault.kv_write_held p f v (locker w)).
    + intros p f v w e. apply (Vault.kv_write_lost p f v (locker w) e).
  - intros w. split; [by exists (made w)|]. split; [|done]. by apply has_text_head.
  - intros r w p f. unfold desk_held. cbn. by destruct (registry_send r (registered_keys w)).
Qed.
Lemma desk_reads p f (w : Desk) : is_ok (snd (Vault.kv_read p f w)) = true.
Proof. apply Vault.box_reads. Qed.

Definition prefix : jsstr := js "pivotal/jwskey".
(** Nobody yet; then a tenant onboarded and swept. *)
Definition opened : World Desk :=
  mkWorld 1700000000000 ∅ ∅ ∅ ∅ [] [] (mkDesk (Vault.mkWorld None None false [] (Vault.mkBox 10 ∅ None 0)) 0 ∅).
Definition onboarding : OnboardFspInput := mkOnboardFspInput acme [js "KES"] (js "https://acme") (js "ACCESS").
Definition after_command (c : command) (s : World Desk) : World Desk := fst (advance 100 (@perform Desk desk_surroundings (VaultJwsKeyProvisioner prefix) c) s).
Definition catch_up (s : World Desk) : World Desk :=
  mkWorld (clock s) (participants s) (keys s) (keys s) (known s) (exchanges s) (announced s) (outside s).
Definition caught_up : World Desk := catch_up (after_command Sweep (after_command (Onboard onboarding) opened)).
Lemma after_lives c s : (forall input, c <> AddKeys input) -> life prefix desk_held s (after_command c s).
Proof. exact (life_command prefix desk_held c 100 s). Qed.
Lemma catch_up_lives s : life prefix desk_held s (catch_up s).
Proof. by apply life_drift; [split; [|right]|]. Qed.
Lemma acme_lives : rtc (life prefix desk_held) opened caught_up.
Proof.
  apply (rtc_l _ _ (after_command (Onboard onboarding) opened)); [by apply after_lives|].
  apply (rtc_l _ _ (after_command Sweep (after_command (Onboard onboarding) opened))); [by apply after_lives|]. apply rtc_once, catch_up_lives.
Qed.
Lemma opened_paired : paired prefix desk_held desk_pair opened.
Proof. split; [done|]. intros fsp row. unfold opened. cbn. by rewrite lookup_empty. Qed.
Definition acme_row : ParticipantKey := mkParticipantKey Self (Some (js "PUBLIC ")) None true (Some 1700000000000) off_mode.
Lemma caught_up_rows : keys caught_up = {[acme := acme_row]}.
Proof. vm_compute. reflexivity. Qed.

Lemma pairs_kept_witness : paired prefix desk_held desk_pair caught_up /\ desk_held (outside caught_up) (key_path prefix acme) KEY_FIELD = Some (js "PRIVATE ").
Proof.
  split; [exact (@pairs_kept Desk desk_surroundings desk prefix desk_held desk_pair desk_custody opened caught_up acme_lives opened_paired)|vm_compute; reflexivity].
Defined.

Definition waiting_gateway : Gateway Desk := mkGateway caught_up empty_cache false.
Lemma caught_up_distinct : distinct (keys caught_up).
Proof.
  rewrite caught_up_rows. assert (H : forall a, is_Some (({[acme := acme_row]} : gmap jsstr ParticipantKey) !! a) -> a = acme) by
    (intros a [r Hr]; by apply lookup_singleton_Some in Hr as [<- _]). intros a b Ha Hb _. by rewrite (H a Ha), (H b Hb).
Qed.
Lemma caught_up_acme : keys caught_up !! acme = Some acme_row.
Proof. rewrite caught_up_rows. apply lookup_singleton_eq. Qed.
Lemma catch_up_replica s : replica (catch_up s) = keys (catch_up s).
Proof. reflexivity. Qed.
Lemma caught_up_replica : replica caught_up = keys caught_up.
Proof. apply catch_up_replica. Qed.

Lemma gateway_holds_own_keys_witness :
  exists private, desk_pair (js "PUBLIC ") private /\
    let c := cache (fst (run (refresh (VaultJwsPrivateKeySource prefix) None) waiting_gateway)) in
    privateKeysByFspId c !! acme = Some (unescape private) /\ publicKeysByFspId c !! acme = Some (unescape (js "PUBLIC ")) /\ isSignEnabled c acme = true.
Proof.
  exact (@gateway_holds_own_keys Desk desk_surroundings desk prefix desk_held desk_pair desk_custody opened waiting_gateway acme acme_row (js "PUBLIC ")
    opened_paired acme_lives caught_up_replica caught_up_distinct (fun _ => eq_refl) desk_reads eq_refl caught_up_acme eq_refl eq_refl eq_refl eq_refl).
Defined.
Lemma refresh_course_witness :
  let g' := fst (run (refresh (VaultJwsPrivateKeySource prefix) None) waiting_gateway) in
  isRefreshing g' = false /\
  match snd (run (refresh (VaultJwsPrivateKeySource prefix) None) waiting_gateway) with
  | Ok _ => loads prefix (replica caught_up) (desk_held (outside caught_up)) false empty_cache (cache g')
  | Err _ => cache g' = empty_cache
  end.
Proof.
  exact (@refresh_course Desk desk_surroundings desk prefix desk_held desk_pair desk_custody waiting_gateway
    (eq_ind_r distinct caught_up_distinct caught_up_replica) eq_refl).
Defined.

(** Two onboardings of a tenant that has a row and no key, the second between the first's
    provisioning and its saving of the row: both succeed, the table has the public key of the
    first and Vault the private key of the second, and a gateway signs with what no published
    key verifies. *)
Definition keyless : World Desk :=
  let rows := {[acme := mkParticipantKey Peer None None false None off_mode]} in
  mkWorld 1700000000000 {[0 := mkParticipant acme (js "ACCESS")]} rows rows ∅ [] [] (outside opened).
Definition both_onboarded : World Desk * result exception unit * result exception unit :=
  let onboard := @onboardFsp Desk desk_surroundings (VaultJwsKeyProvisioner prefix) onboarding in
  let '(s, first) := advance 7 onboard keyless in
  let '(s, second_result) := run onboard s in
  let '(s, first_result) := run first s in (s, first_result, second_result).
Theorem concurrent_onboarding :
  let '(s, first, second) := both_onboarded in
  first = Ok tt /\ second = Ok tt /\
  exists row private, keys s !! acme = Some row /\ own_key row = Some (js "PUBLIC ") /\
    desk_held (outside s) (key_path prefix acme) KEY_FIELD = Some private /\ ~ desk_pair (js "PUBLIC ") private.
Proof.
  assert (H : let '(s, first, second) := both_onboarded in first = Ok tt /\ second = Ok tt /\
    own_key <$> keys s !! acme = Some (Some (js "PUBLIC ")) /\ desk_held (outside s) (key_path prefix acme) KEY_FIELD = Some (js "PRIVATE I")) by
    (vm_compute; auto).
  destruct both_onboarded as [[s first] second]. destruct H as (H1 & H2 & H3 & H4). split; [done|]. split; [done|].
  destruct (keys s !! acme) as [row|]; [|done]. exists row, (js "PRIVATE I"). injection H3 as H3. split; [done|]. split; [done|]. split; [done|].
  intros ([|n] & Hpub & Hpriv); done.
Qed.
