(* ===== verification/UserMessages.v ===== *)
(** * What a payer is told of an error

    shared/fspiop/exception/fspiop-user-message.ts: the messages for customers, by error code
    and language; apps/web-outbound/component: outbound-validation-error.ts and
    outbound-exception.filter.ts, the body of an error answer of the outbound API. Messages
    are lists of UTF-16 units, as in Json. *)

From S2P Require Import Prelude Errors Json.

(** ** Texts *)

(** The units of a literal of a source file in UTF-8, of characters of one to three
    bytes. *)
Fixpoint utf8 (s : jsstr) : text :=
  match s with
  | a :: ((b :: ((c :: s) as rest2)) as rest1) =>
      if (code a <? 128)%N then code a :: utf8 rest1
      else if (code a <? 224)%N then (N.land (code a) 31 * 64 + N.land (code b) 63)%N :: utf8 rest2
      else (N.land (code a) 15 * 4096 + N.land (code b) 63 * 64 + N.land (code c) 63)%N :: utf8 s
  | [a; b] => if (code a <? 128)%N then [code a; code b] else [(N.land (code a) 31 * 64 + N.land (code b) 63)%N]
  | s => map code s
  end.

(** [String.prototype.trim] on units. *)
Definition is_space (c : N) : bool :=
  ((9 <=? c) && (c <=? 13) || (c =? 32) || (c =? 160) || (c =? 5760) || ((8192 <=? c) && (c <=? 8202)) ||
   (c =? 8232) || (c =? 8233) || (c =? 8239) || (c =? 8287) || (c =? 12288) || (c =? 65279))%N.
Fixpoint dropSpaces (s : text) : text :=
  match s with c :: s' => if is_space c then dropSpaces s' else s | [] => [] end.
Definition trim_text (s : text) : text := reverse (dropSpaces (reverse (dropSpaces s))).

(** ** FspiopUserMessages *)

Inductive ErrorMessageLanguage : Set := en_US | my.
Definition DEFAULT_LANGUAGE : ErrorMessageLanguage := en_US.

(** The blank U+00A0, as a source file has it. *)
Definition nbsp : string := String "194" (String "160" EmptyString).
Definition MESSAGES_en_US : list (string * string) :=
  [("1000", "Payment is not successful. Please try again later.");
   ("1001", "Payment is not successful. Please try again later.");
   ("2000", "Please try again later. If you still cannot do the payment, please contact your service provider.");
   ("2001", "Please try again later. If you still cannot do the payment, please contact your service provider.");
   ("2002", "Please try again later. If you still cannot do the payment, please contact your service provider.");
   ("2003", "Service is currently unavailable. Please try again later.");
   ("2004", "Time Out. Please try again later.");
   ("2005", "Service is currently unavailable. Please try again later.");
   ("3000", "Please try again later. If you still cannot do the payment, please contact your service provider.");
   ("3001", "Please try again later. If you still cannot do the payment, please contact your service provider.");
   ("3002", "Please try again later. If you still cannot do the payment, please contact your service provider.");
   ("3003", "Please fill out the complete and correct information.");
   ("3041", "Service error. Please contact your service provider.");
   ("3100", "Please try again later. If you still cannot do the payment, please contact your service provider.");
   ("3101", "Please fill out the complete and correct information");
   ("3102", "Please fill out the complete and correct information.");
   ("3103", "Service is currently unavailable. Please try again later.");
   ("3104", "Payment is not successful. Please contact your service provider.");
   ("3105", "Payment is not successful. Please contact your service provider.");
   ("3106", "Payment is not successful.Please try again later.");
   ("3107", "Please fill out the complete and correct information.");
   ("3200", "Account does not exist.");
   ("3201", "Please try again later. If you still cannot make the payment, please contact your service provider.");
   ("3202", "Please try again later. If you still cannot make the payment, please contact your service provider.");
   ("3203", "Please try again later. If you still cannot make the payment, please contact your service provider.");
   ("3204", "Payment is not successful. Please contact your service provider.");
   ("3205", "Payment is not successful.Please try again later.");
   ("3206", "Payment is not successful.Please try again later.");
   ("3207", "Payment is not successful.Please try again later.");
   ("3208", "Payment is not successful.Please try again later.");
   ("3209", "Payment is not successful.Please try again later.");
   ("3210", "Payment is not successful.Please try again later.");
   ("3241", "Account does not match with phone number. Please contact MFI for updating your information.");
   ("3242", "Account is not active.");
   ("3300", "Time Out. Please try again later.");
   ("3301", "Time Out. Please try again later.");
   ("3302", "Time Out. Please try again later.");
   ("3303", "Time Out. Please try again later.");
   ("4000", "Please try again later. If you still cannot make the payment, please contact your service provider.");
   ("4001", "Your service provider is not available for this service now. Please contact your service provider.");
   ("4100", "Please contact your service provider.");
   ("4101", "Please contact your service provider.");
   ("4102", "Invalid Service Request. Please contact your service provider.");
   ("4103", "Invalid Service Request. Please contact your service provider.");
   ("4200", "Your service provider is not available for this service now. Please contact your service provider.");
   ("4240", "This payment has been temporarily blocked due to suspicious activity. Please try again later or contact your service provider.");
   ("4300", "Please try again later. If you still cannot make the payment, please contact your service provider.");
   ("4400", "Please try again later. If you still cannot make the payment, please contact your service provider.");
   ("5000", "Please try again later. If you still cannot make the payment, please contact your service provider.");
   ("5001", "Your service provider is not available for this service now. Please contact your service provider.");
   ("5100", "Please contact your service provider.");
   ("5101", "Payment is not successful.");
   ("5102", "Payment Type is wrong. Please contact your service provider.");
   ("5103", "Payment is not successful.");
   ("5104", "Payment is not successful.");
   ("5105", "Payment is not successful.");
   ("5106", "Invalid Service Request. Please contact your service provider.");
   ("5200", "Payment is not successful. Your amount is either over or under the limit.");
   ("5241", "Amount is invalid. Please enter the format specified by the service provider.");
   ("5300", "Please try again later. If you still cannot make the payment, please contact your service provider.");
   ("5400", "Please try again later. If you still cannot make the payment, please contact your service provider.")].

Definition MESSAGES_my : list (string * string) :=
  [("1000", "ငွေပေးချေမှု မအောင်မြင်ပါ။ ကျေးဇူးပြု၍ နောက်တစ်ကြိမ် ထပ်မံကြိုးစားပါ။");
   ("1001", "ငွေပေးချေမှု မအောင်မြင်ပါ။ ကျေးဇူးပြု၍ နောက်တစ်ကြိမ် ထပ်မံကြိုးစားပါ။");
   ("2000", "ကျေးဇူးပြု၍ နောက်တစ်ကြိမ် ထပ်မံကြိုးစားပါ။ ငွေပေးချေမှုပြုလုပ်၍ မရသေးပါက သက်ဆိုင်ရာ ဝန်ဆောင်မှုဌာနသို့ ဆက်သွယ်ပါ။");
   ("2001", "ကျေးဇူးပြု၍ နောက်တစ်ကြိမ် ထပ်မံကြိုးစားပါ။ ငွေပေးချေမှုပြုလုပ်၍ မရသေးပါက သက်ဆိုင်ရာ ဝန်ဆောင်မှုဌာနသို့ ဆက်သွယ်ပါ။");
   ("2002", "ကျေးဇူးပြု၍ နောက်တစ်ကြိမ် ထပ်မံကြိုးစားပါ။ ငွေပေးချေမှုပြုလုပ်၍ မရသေးပါက သက်ဆိုင်ရာ ဝန်ဆောင်မှုဌာနသို့ ဆက်သွယ်ပါ။");
   ("2003", "လတ်တလော ဝန်ဆောင်မှု မရရှိနိုင်ပါ။ ကျေးဇူးပြု၍ နောက်တစ်ကြိမ် ထပ်မံကြိုးစားပါ။");
   ("2004", "အချိန်အကန့်အသတ် ကျော်လွန်သွားပါပြီ။ ကျေးဇူးပြု၍ နောက်တစ်ကြိမ်ထပ်မံကြိုးစားပါ။");
   ("2005", "လတ်တလော ဝန်ဆောင်မှု မရရှိနိုင်ပါ။ ကျေးဇူးပြု၍ နောက်တစ်ကြိမ် ထပ်မံကြိုးစားပါ။");
   ("3000", "ကျေးဇူးပြု၍ နောက်တစ်ကြိမ် ထပ်မံကြိုးစားပါ။ ငွေပေးချေမှုပြုလုပ်၍ မရသေးပါက သက်ဆိုင်ရာ ဝန်ဆောင်မှုဌာနသို့ ဆက်သွယ်ပါ။");
   ("3001", "ကျေးဇူးပြု၍ နောက်တစ်ကြိမ် ထပ်မံကြိုးစားပါ။ ငွေပေးချေမှုပြုလုပ်၍ မရသေးပါက သက်ဆိုင်ရာ ဝန်ဆောင်မှုဌာနသို့ ဆက်သွယ်ပါ။");
   ("3002", "ကျေးဇူးပြု၍ နောက်တစ်ကြိမ် ထပ်မံကြိုးစားပါ။ ငွေပေးချေမှုပြုလုပ်၍ မရသေးပါက သက်ဆိုင်ရာ ဝန်ဆောင်မှုဌာနသို့ ဆက်သွယ်ပါ။");
   ("3003", "ကျေးဇူးပြု၍ ပြည့်စုံမှန်ကန်သော  အချက်အလက်များကို ဖြည့်စွက်ပါ။");
   ("3041", "ဝန်ဆောင်မှု မရရှိနိုင်ပါ။ ကျေးဇူးပြု၍ သက်ဆိုင်ရာ ဝန်ဆောင်မှုဌာနသို့ ဆက်သွယ်ပါ။");
   ("3100", "ကျေးဇူးပြု၍ နောက်တစ်ကြိမ် ထပ်မံကြိုးစားပါ။ ငွေပေးချေမှုပြုလုပ်၍ မရသေးပါက သက်ဆိုင်ရာ ဝန်ဆောင်မှုဌာနသို့ ဆက်သွယ်ပါ။");
   ("3101", "ကျေးဇူးပြု၍ ပြည့်စုံမှန်ကန်သော  အချက်အလက်များကို ဖြည့်စွက်ပါ။");
   ("3102", "ကျေးဇူးပြု၍ ပြည့်စုံမှန်ကန်သော  အချက်အလက်များကို ဖြည့်စွက်ပါ။");
   ("3103", "လတ်တလော ဝန်ဆောင်မှု မရရှိနိုင်ပါ။ ကျေးဇူးပြု၍ နောက်တစ်ကြိမ် ထပ်မံကြိုးစားပါ။");
   ("3104", "ငွေပေးချေမှု မအောင်မြင်ပါ။ ကျေးဇူးပြု၍ သက်ဆိုင်ရာ ဝန်ဆောင်မှုဌာနသို့ဆက်သွယ်ပါ။");
   ("3105", "ငွေပေးချေမှု မအောင်မြင်ပါ။ ကျေးဇူးပြု၍ သက်ဆိုင်ရာ ဝန်ဆောင်မှုဌာနသို့ဆက်သွယ်ပါ။");
   ("3106", "ငွေပေးချေမှု မအောင်မြင်ပါ။ ကျေးဇူးပြု၍ နောက်တစ်ကြိမ် ထပ်မံကြိုးစားပါ။");
   ("3107", "ကျေးဇူးပြု၍ ပြည့်စုံမှန်ကန်သော အချက်အလက်များကို ဖြည့်စွက်ပါ။");
   ("3200", "သင် ပေးချေလိုသော စာရင်း မရှိပါ။");
   ("3201", "ကျေးဇူးပြု၍ နောက်တစ်ကြိမ် ထပ်မံကြိုးစားပါ။ ငွေပေးချေမှုပြုလုပ်၍ မရသေးပါက သက်ဆိုင်ရာ ဝန်ဆောင်မှုဌာနသို့ ဆက်သွယ်ပါ။");
   ("3202", "ကျေးဇူးပြု၍ နောက်တစ်ကြိမ် ထပ်မံကြိုးစားပါ။ ငွေပေးချေမှုပြုလုပ်၍ မရသေးပါက သက်ဆိုင်ရာ ဝန်ဆောင်မှုဌာနသို့ ဆက်သွယ်ပါ။");
   ("3203", "ကျေးဇူးပြု၍ နောက်တစ်ကြိမ် ထပ်မံကြိုးစားပါ။ ငွေပေးချေမှုပြုလုပ်၍ မရသေးပါက သက်ဆိုင်ရာ ဝန်ဆောင်မှုဌာနသို့ ဆက်သွယ်ပါ။");
   ("3204", "ငွေပေးချေမှု မအောင်မြင်ပါ။ ကျေးဇူးပြု၍ သက်ဆိုင်ရာ ဝန်ဆောင်မှုဌာနသို့ဆက်သွယ်ပါ။");
   ("3205", "ငွေပေးချေမှု မအောင်မြင်ပါ။ ကျေးဇူးပြု၍ နောက်တစ်ကြိမ် ထပ်မံကြိုးစားပါ။");
   ("3206", "ငွေပေးချေမှု မအောင်မြင်ပါ။ ကျေးဇူးပြု၍ နောက်တစ်ကြိမ် ထပ်မံကြိုးစားပါ။");
   ("3207", "ငွေပေးချေမှု မအောင်မြင်ပါ။ ကျေးဇူးပြု၍ နောက်တစ်ကြိမ် ထပ်မံကြိုးစားပါ။");
   ("3208", "ငွေပေးချေမှု မအောင်မြင်ပါ။ ကျေးဇူးပြု၍ နောက်တစ်ကြိမ် ထပ်မံကြိုးစားပါ။");
   ("3209", "ငွေပေးချေမှု မအောင်မြင်ပါ။ ကျေးဇူးပြု၍ နောက်တစ်ကြိမ် ထပ်မံကြိုးစားပါ။");
   ("3210", "ငွေပေးချေမှု မအောင်မြင်ပါ။ ကျေးဇူးပြု၍ နောက်တစ်ကြိမ် ထပ်မံကြိုးစားပါ။");
   ("3241", "စာရင်းနှင့် ဖုန်းနံပါတ်မှာ ကိုက်ညီမှု မရှိပါ။ ကျေးဇူးပြု၍ သင်၏ အချက်အလက်များကို ပြင်ဆင်ပေးရန်အတွက် သက်ဆိုင်ရာအသေးစား ချေးငွေလုပ်ငန်းသို့ ဆက်သွယ်ပါ။");
   ("3242", "သင် ပေးချေလိုသော စာရင်းမှာ အသုံးမပြုနိုင်တော့ပါ။");
   ("3300", "အချိန်အကန့်အသတ် ကျော်လွန်သွားပါပြီ။ ကျေးဇူးပြု၍ နောက်တစ်ကြိမ် ထပ်မံကြိုးစားပါ။");
   ("3301", "အချိန်အကန့်အသတ် ကျော်လွန်သွားပါပြီ။ ကျေးဇူးပြု၍ နောက်တစ်ကြိမ် ထပ်မံကြိုးစားပါ။");
   ("3302", "အချိန်အကန့်အသတ် ကျော်လွန်သွားပါပြီ။ ကျေးဇူးပြု၍ နောက်တစ်ကြိမ် ထပ်မံကြိုးစားပါ။");
   ("3303", "အချိန်အကန့်အသတ် ကျော်လွန်သွားပါပြီ။ ကျေးဇူးပြု၍ နောက်တစ်ကြိမ် ထပ်မံကြိုးစားပါ။");
   ("4000", "ကျေးဇူးပြု၍ နောက်တစ်ကြိမ် ထပ်မံကြိုးစားပါ။ ငွေပေးချေမှုပြုလုပ်၍ မရသေးပါက သက်ဆိုင်ရာ ဝန်ဆောင်မှုဌာနသို့ ဆက်သွယ်ပါ။");
   ("4001", "သက်ဆိုင်ရာ ဝန်ဆောင်မှုဌာန မှ ဤဝန်ဆောင်မှုအတွက် ယခုမရနိုင်သေးပါ။ ကျေးဇူးပြု၍ သက်ဆိုင်ရာ ဝန်ဆောင်မှုဌာနသို့ဆက်သွယ်ပါ။");
   ("4100", "သက်ဆိုင်ရာ ဝန်ဆောင်မှုဌာနသို့ ဆက်သွယ်ပါ။");
   ("4101", "သက်ဆိုင်ရာ ဝန်ဆောင်မှုဌာနသို့ ဆက်သွယ်ပါ။");
   ("4102", "ဝန်ဆောင်မှု တောင်းဆိုချက် မမှန်ကန်ပါ။ သက်ဆိုင်ရာ ဝန်ဆောင်မှုဌာနသို့ ဆက်သွယ်ပါ။");
   ("4103", "ဝန်ဆောင်မှု တောင်းဆိုချက် မမှန်ကန်ပါ။ သက်ဆိုင်ရာ ဝန်ဆောင်မှုဌာနသို့ ဆက်သွယ်ပါ။");
   ("4200", "သက်ဆိုင်ရာ ၀န်ဆောင်မှုဌာနမှ ဤ၀န်ဆောင်မှုအတွက် ယခု မရနိုင်သေးပါ။ ကျေးဇူးပြု၍ သက်ဆိုင်ရာ ၀န်ဆောင်မှုဌာနသို့ ဆက်သွယ်ပါ။");
   ("4240", "သံသယဖြစ်ဖွယ် လုပ်ဆောင်မှုကြောင့် ဤငွေပေးချေမှုကို ယာယီ ပိတ်ထားပါသည်။ ကျေးဇူးပြု၍ နောက်တစ်ကြိမ် ထပ်မံကြိုးစားပါ သို့မဟုတ် သက်ဆိုင်ရာ ဝန်ဆောင်မှုဌာနသို့ ဆက်သွယ်ပါ။");
   ("4300", "ကျေးဇူးပြု၍ နောက်တစ်ကြိမ် ထပ်မံကြိုးစားပါ။ ငွေပေးချေမှုပြုလုပ်၍ မရသေးပါက သက်ဆိုင်ရာ ဝန်ဆောင်မှုဌာနသို့ ဆက်သွယ်ပါ။");
   ("4400", "ကျေးဇူးပြု၍ နောက်တစ်ကြိမ် ထပ်မံကြိုးစားပါ။ ငွေပေးချေမှုပြုလုပ်၍ မရသေးပါက သက်ဆိုင်ရာ ဝန်ဆောင်မှုဌာနသို့ ဆက်သွယ်ပါ။");
   ("5000", "ကျေးဇူးပြု၍ နောက်တစ်ကြိမ် ထပ်မံကြိုးစားပါ။ ငွေပေးချေမှုပြုလုပ်၍ မရသေးပါက သက်ဆိုင်ရာ ဝန်ဆောင်မှုဌာနသို့ ဆက်သွယ်ပါ။");
   ("5001", "သက်ဆိုင်ရာ ဝန်ဆောင်မှုဌာန မှ ဤဝန်ဆောင်မှုအတွက် ယခုမရနိုင်သေးပါ။ ကျေးဇူးပြု၍ သက်ဆိုင်ရာ ဝန်ဆောင်မှုဌာနသို့ဆက်သွယ်ပါ။");
   ("5100", "သက်ဆိုင်ရာ ဝန်ဆောင်မှုဌာနသို့ ဆက်သွယ်ပါ။");
   ("5101", "ငွေပေးချေမှု မအောင်မြင်ပါ။");
   ("5102", "ငွေပေးချေမှုပုံစံ မှားယွင်းနေပါသည်။ ကျေးဇူးပြု၍ သက်ဆိုင်ရာအသေးစား ချေးငွေလုပ်ငန်းသို့ ဆက်သွယ်ပါ။");
   ("5103", "ငွေပေးချေမှု မအောင်မြင်ပါ။");
   ("5104", "ငွေပေးချေမှု မအောင်မြင်ပါ။");
   ("5105", "ငွေပေးချေမှု မအောင်မြင်ပါ။");
   ("5106", "ဝန်ဆောင်မှု တောင်းဆိုချက် မမှန်ကန်ပါ။သက်ဆိုင်ရာ ဝန်ဆောင်မှုဌာနသို့ ဆက်သွယ်ပါ။");
   ("5200", "ငွေပေးချေမှု မအောင်မြင်ပါ။ သင် ပေးချေသော ငွေပမာဏမှာ အကန့်အသတ်ထက် ကျော်လွန်နေခြင်း သို့မဟုတ် လျော့နည်းနေခြင်း ဖြစ်သည်။");
   ("5241", ("ထည့်သွင်းသော ငွေပမာဏ မမှန်ကန်ပါ။" ++ nbsp ++ "ကျေးဇူးပြု၍" ++ nbsp ++ "သက်ဆိုင်ရာ ဝန်ဆောင်မှုဌာနမှ သတ်မှတ်ထားသော ပုံစံအတိုင်း ထည့်သွင်းပါ။")%string);
   ("5300", "ကျေးဇူးပြု၍ နောက်တစ်ကြိမ် ထပ်မံကြိုးစားပါ။ ငွေပေးချေမှုပြုလုပ်၍ မရသေးပါက သက်ဆိုင်ရာ ဝန်ဆောင်မှုဌာနသို့ ဆက်သွယ်ပါ။");
   ("5400", "ကျေးဇူးပြု၍ နောက်တစ်ကြိမ် ထပ်မံကြိုးစားပါ။ ငွေပေးချေမှုပြုလုပ်၍ မရသေးပါက သက်ဆိုင်ရာ ဝန်ဆောင်မှုဌာနသို့ ဆက်သွယ်ပါ။")].

Definition MESSAGES (language : ErrorMessageLanguage) : list (string * string) :=
  match language with en_US => MESSAGES_en_US | my => MESSAGES_my end.

(** [isSupported], [resolveLanguage] *)
Definition resolveLanguage (value : option jsstr) : ErrorMessageLanguage :=
  let normalized := trim (default [] value) in
  if str_eqb normalized (js "en_US") then en_US else if str_eqb normalized (js "my") then my else DEFAULT_LANGUAGE.

(** A read of a table by a code. The tables are object literals: the names of
    Object.prototype are found in every table, as functions or objects. *)
Inductive copy : Set := Copy (s : text) | Inherited (name : text).
Definition Object_prototype : list text :=
  map lit ["constructor"; "__defineGetter__"; "__defineSetter__"; "hasOwnProperty"; "__lookupGetter__"; "__lookupSetter__";
           "isPrototypeOf"; "propertyIsEnumerable"; "toString"; "valueOf"; "__proto__"; "toLocaleString"]%string.
Definition own (table : list (string * string)) (c : text) : option text :=
  (fun e => utf8 (js (snd e))) <$> List.find (fun e => bool_decide (lit (fst e) = c)) table.
Definition read_table (table : list (string * string)) (c : text) : option copy :=
  match own table c with
  | Some s => Some (Copy s)
  | None => if bool_decide (c ∈ Object_prototype) then Some (Inherited c) else None
  end.

(** [FspiopErrors.find] on units. *)
Definition find_text (c : text) : option ErrorDefinition :=
  List.find (fun d => bool_decide (units (code_of_type (errorType d)) = c)) (map definition_of ERROR_MAP).
Definition describe (c : text) : text :=
  units (description (default (definition_of GENERIC_SERVER_ERROR) (find_text c))).

Definition messageFor (c : text) (language : ErrorMessageLanguage) : copy :=
  match read_table (MESSAGES language) c with
  | Some found => found
  | None => match read_table (MESSAGES DEFAULT_LANGUAGE) c with Some found => found | None => Copy (describe c) end
  end.

(** ** Validation errors *)

(** class-validator's [ValidationError]: the messages of its constraints in their order. *)
Inductive ValidationError : Set :=
  mkValidationError (property : jsstr) (constraints : list jsstr) (children : list ValidationError).

Definition buildValidationFieldPath (property : jsstr) (parentPath : option jsstr) : jsstr :=
  match parentPath with
  | None | Some [] => property
  | Some parent => parent ++ js "." ++ property
  end.

Fixpoint format_error (parentPath : option jsstr) (e : ValidationError) : list jsstr :=
  let '(mkValidationError property constraints children) := e in
  let fieldPath := buildValidationFieldPath property parentPath in
  map (fun m => js "[ " ++ m ++ js " ]") constraints ++ flat_map (format_error (Some fieldPath)) children.
Definition formatValidationErrors (errors : list ValidationError) (parentPath : option jsstr) : list jsstr :=
  flat_map (format_error parentPath) errors.

(** [OutboundErrorInformation], [OutboundValidationErrorResponse] *)
Record OutboundErrorInformation : Set := mkOutboundErrorInformation {
  statusCode : jsstr; out_message : copy; localeMessage : copy; detailedDescription : jsstr }.

(** [createOutboundValidationException]: the response of the BadRequestException. *)
Definition createOutboundValidationException (errors : list ValidationError) (language : ErrorMessageLanguage) : OutboundErrorInformation :=
  let c := type_code MISSING_MANDATORY_ELEMENT in
  mkOutboundErrorInformation c (messageFor (units c) DEFAULT_LANGUAGE) (messageFor (units c) language)
    (js "Input error : " ++ join (js ",") (formatValidationErrors errors None)).

(** ** OutboundExceptionFilter *)

(** What reaches the filter: a BadRequestException, with its response when the response is
    an [OutboundValidationErrorResponse], or anything else thrown. *)
Inductive caught : Set :=
  | BadRequestException (response : option OutboundErrorInformation) (m : jsstr)
  | Thrown (t : thrown).

Definition thrown_of (e : caught) : thrown :=
  match e with BadRequestException _ m => TError m | Thrown t => t end.

Definition describe_extension (x : Extension) : jsstr :=
  let key := default [] (trim <$> ext_key x) in
  let value := default [] (trim <$> ext_value x) in
  match key, value with
  | [], _ => value
  | _, [] => key
  | _, _ => key ++ js ": " ++ value
  end.
Definition toDetailedDescription (exts : option ExtensionList) : option jsstr :=
  match List.filter (fun d => (0 <? length d)%nat) (map describe_extension (default [] exts)) with
  | [] => None
  | descriptions => Some (join (js ", ") descriptions)
  end.

Definition toErrorInformation (language : ErrorMessageLanguage) (e : FspiopException) : OutboundErrorInformation :=
  let c := exn_code e in
  mkOutboundErrorInformation c (messageFor (units c) DEFAULT_LANGUAGE) (messageFor (units c) language)
    (default (message e) (toDetailedDescription (extensionList e))).

(** [catch]: the status and the body of the answer. *)
Definition catch_outbound (language : ErrorMessageLanguage) (e : caught) : Z * OutboundErrorInformation :=
  match e with
  | BadRequestException (Some response) _ => (400, response)
  | _ => let exception := normalize (thrown_of e) in (toHttpStatus exception, toErrorInformation language exception)
  end.

(** ** Reference definitions *)

(** The constraints of the errors, parents before children, whatever their properties. *)
Fixpoint constraints_of (e : ValidationError) : list jsstr :=
  let '(mkValidationError _ constraints children) := e in constraints ++ flat_map constraints_of children.

(** Exceptions whose definition is of the catalogue, as the constructor leaves it. *)
Definition catalogued (e : FspiopException) : Prop := exists n arg, e = new_FspiopException (definition_of n) arg.

(** The code an error stands for: that of a rejected request, of an exception, or of an error
    of the server. *)
Definition error_code (e : caught) : jsstr :=
  match e with
  | BadRequestException (Some _) _ => js "3102"
  | Thrown (TFspiop x) => exn_code x
  | _ => js "2001"
  end.
(** The message of a code in a language: the one of its table, for a code of the catalogue;
    otherwise that of a server error, or, for a name of Object.prototype, no text. *)
Definition tells (c : jsstr) (l : ErrorMessageLanguage) (m : copy) : Prop :=
  (forall n, c = type_code n -> exists s, own (MESSAGES l) (units c) = Some s /\ s <> [] /\ m = Copy s) /\
  ((forall n, c <> type_code n) ->
     m = if decide (units c ∈ Object_prototype) then Inherited (units c) else Copy (units (definition_description GENERIC_SERVER_ERROR))).
(** The status of a code: its row in the map, or 500. *)
Definition status_row (c : jsstr) (z : Z) : Prop :=
  (exists n, c = type_code n /\ In (n, z) STATUS_MAP) \/ z = 500 /\ forall n y, c = type_code n -> ~ In (n, y) STATUS_MAP.

Definition visible (s : jsstr) : Prop := s <> [].

(** * Properties *)

Lemma own_complete n l : exists s, own (MESSAGES l) (units (type_code n)) = Some s /\ s <> [].
Proof. destruct l, n; eexists; (split; [vm_compute; reflexivity|discriminate]). Qed.

Lemma own_visible l c s : own (MESSAGES l) c = Some s -> s <> [].
Proof.
  assert (H : forallb (fun e => negb (bool_decide (utf8 (js (snd e)) = []))) (MESSAGES l) = true) by (destruct l; vm_compute; reflexivity).
  unfold own. destruct (List.find _ _) as [e|] eqn:E; [|done]. intros Hs%(inj Some). rewrite <- Hs. apply List.find_some in E as [Hin _].
  rewrite forallb_forall in H. specialize (H e Hin). by apply negb_true_iff, bool_decide_eq_false in H.
Qed.

Lemma describe_visible c : describe c <> [].
Proof.
  unfold describe. assert (H : forall d, trim d <> [] -> units d <> []) by (intros [|x d]; done). apply H.
  destruct (find_text c) as [d|] eqn:E; cbn [from_option id]; [|apply definition_description_nonblank].
  unfold find_text in E. apply List.find_some in E as [Hin _]. apply in_map_iff in Hin as (n & <- & _). apply definition_description_nonblank.
Qed.

Lemma messageFor_visible c l s : messageFor c l = Copy s -> s <> [].
Proof.
  unfold messageFor, read_table. destruct (own (MESSAGES l) c) as [x|] eqn:E1; [intros [= <-]; by eapply own_visible|].
  case_bool_decide; [done|]. destruct (own (MESSAGES DEFAULT_LANGUAGE) c) as [x|] eqn:E2; [intros [= <-]; by eapply own_visible|].
  intros [= <-]. apply describe_visible.
Qed.

Lemma messageFor_catalogue n l : exists s, own (MESSAGES l) (units (type_code n)) = Some s /\ s <> [] /\ messageFor (units (type_code n)) l = Copy s.
Proof. destruct (own_complete n l) as (s & Hs & Hne). exists s. split; [done|]. split; [done|]. unfold messageFor, read_table. by rewrite Hs. Qed.

(** Every error of the catalogue has a message for customers in each language; a code that no
    table and no error has is described as a server error, and a name of Object.prototype,
    which a peer may send as a code, yields no text. *)
Theorem messages_complete :
  (forall n l, exists s, own (MESSAGES l) (units (type_code n)) = Some s /\ s <> [] /\ messageFor (units (type_code n)) l = Copy s) /\
  (forall c l, (forall l', own (MESSAGES l') c = None) -> find_text c = None ->
     messageFor c l = if decide (c ∈ Object_prototype) then Inherited c else Copy (units (definition_description GENERIC_SERVER_ERROR))).
Proof.
  split; [apply messageFor_catalogue|]. intros c l Hno Hf. unfold messageFor, read_table. rewrite !Hno, bool_decide_decide.
  case_decide; [done|]. unfold describe. by rewrite Hf.
Qed.

Lemma new_exception_code d arg : exn_code (new_FspiopException d arg) = code_of_type (errorType d).
Proof. unfold exn_code, new_FspiopException. by destruct arg. Qed.

Lemma firstNonBlank_visible v n : firstNonBlank v (definition_description n) <> [].
Proof. intros E. eapply (firstNonBlank_nonblank v (definition_description n)); [apply definition_description_nonblank|by rewrite E]. Qed.

Lemma normalize_catalogued t : (forall e, t = TFspiop e -> catalogued e) -> catalogued (normalize t).
Proof. intros H. destruct t; [by apply H|..]; unfold normalize, catalogued; eauto. Qed.

Lemma join_visible sep l : l <> [] -> Forall visible l -> join sep l <> [].
Proof. destruct l as [|x [|y l]]; [done|..]; intros _ Hl; inversion_clear Hl; cbn [join]; [done|]. destruct x; done. Qed.

Lemma detail_visible exts d : toDetailedDescription exts = Some d -> d <> [].
Proof.
  unfold toDetailedDescription. destruct (List.filter _ _) as [|x l] eqn:E; [done|]. intros H%(inj Some). rewrite <- H. apply join_visible; [done|].
  rewrite <- E. apply Forall_forall. intros y Hy. apply list_elem_of_In, filter_In in Hy as [_ Hy]. by destruct y.
Qed.

Lemma toHttpStatus_error e : 400 <= toHttpStatus e < 600.
Proof.
  unfold toHttpStatus. destruct (List.find _ _) as [p|] eqn:E; [|done]. apply List.find_some in E as [Hin _].
  assert (H : forallb (fun p => (400 <=? snd p) && (snd p <? 600)) STATUS_MAP = true) by reflexivity.
  rewrite forallb_forall in H. specialize (H _ Hin). lia.
Qed.

(** The tables have messages of codes of the catalogue only. *)
Lemma own_known l c s : own (MESSAGES l) (units c) = Some s -> exists n, c = type_code n.
Proof.
  assert (H : forallb (fun e => existsb (fun n => bool_decide (lit (fst e) = units (type_code n))) ERROR_MAP) (MESSAGES l) = true) by (destruct l; vm_compute; reflexivity).
  unfold own. destruct (List.find _ _) as [e|] eqn:E; [|done]. intros _. apply List.find_some in E as [Hin Hc%bool_decide_eq_true].
  rewrite forallb_forall in H. specialize (H e Hin). apply existsb_exists in H as (n & _ & Hn%bool_decide_eq_true). exists n. apply units_inj. congruence.
Qed.
Lemma find_text_known c d : find_text (units c) = Some d -> exists n, c = type_code n.
Proof.
  unfold find_text. intros [Hin Hc%bool_decide_eq_true]%List.find_some. apply in_map_iff in Hin as (n & <- & _). exists n. by apply units_inj.
Qed.
Lemma messageFor_tells c l : tells c l (messageFor (units c) l).
Proof.
  split; [intros n ->; apply messageFor_catalogue|]. intros Hno. apply (proj2 messages_complete).
  - intros l'. destruct (own (MESSAGES l') (units c)) eqn:E; [|done]. apply own_known in E as [n E]. by destruct (Hno n).
  - destruct (find_text (units c)) eqn:E; [|done]. apply find_text_known in E as [n E]. by destruct (Hno n).
Qed.
Lemma toHttpStatus_row e : status_row (exn_code e) (toHttpStatus e).
Proof.
  unfold toHttpStatus, status_row. fold (exn_code e). destruct (List.find _ _) as [[n z]|] eqn:E.
  - left. apply List.find_some in E as [Hin Hc]. exists n. split; [|done]. unfold str_eqb in Hc. by apply bool_decide_eq_true in Hc.
  - right. split; [done|]. intros n y Hc Hin. apply (List.find_none _ _ E) in Hin. cbn in Hin. rewrite Hc in Hin. unfold str_eqb in Hin.
    by rewrite bool_decide_true in Hin.
Qed.


Lemma format_error_constraints : forall e path, format_error path e = map (fun m => js "[ " ++ m ++ js " ]") (constraints_of e).
Proof.
  fix IH 1. intros [property constraints children] path. cbn [format_error constraints_of]. rewrite map_app. f_equal.
  generalize (Some (buildValidationFieldPath property path)). induction children as [|e children IHc]; intros p; [done|].
  cbn [flat_map]. by rewrite IH, IHc, map_app.
Qed.

(** The rejection of a request lists every failed constraint, parents first; the path of the
    property, which the code computes, is nowhere in it. *)
Theorem validation_paths_unused errors path :
  formatValidationErrors errors path = map (fun m => js "[ " ++ m ++ js " ]") (flat_map constraints_of errors).
Proof.
  unfold formatValidationErrors. induction errors as [|e errors IH]; [done|]. cbn [flat_map].
  by rewrite IH, format_error_constraints, map_app.
Qed.

(** A BadRequestException of the framework, as for a body that is not JSON, is answered as an
    internal server error. *)
Theorem foreign_bad_request language m :
  fst (catch_outbound language (BadRequestException None m)) = 500 /\
  statusCode (snd (catch_outbound language (BadRequestException None m))) = js "2001".
Proof. done. Qed.

(** ** Examples *)


Lemma messages_complete_witness :
  messageFor (lit "9999") my = Copy (lit "Used to avoid disclosing private details.") /\ messageFor (lit "constructor") my = Inherited (lit "constructor").
Proof.
  split; (etransitivity; [apply (proj2 messages_complete); [intros l'; destruct l'|]; vm_compute; reflexivity|vm_compute; reflexivity]).
Defined.
