(* ===== verification/TransferStatus.v ===== *)
(** * The status of a transfer

    core/outbound/domain: query/get-transfer-status.handler.ts over the table of
    transactions, component/transfer-status.repository.ts, and
    apps/web-outbound/controllers/transfer-status.controller.ts. The rows are those of
    AuditTrail, as the messages AuditConsumer was delivered left them. The driver's reading of
    JSON columns and of decimals is an argument. *)

From S2P Require Import Prelude Errors Dates Currencies Money Ulid Json UserMessages Transfer SendMoney AuditTrail AuditConsumer.

Definition given {A} (o : option A) : bool := match o with Some _ => true | None => false end.

(** ** Results *)

Record TransferStatusError : Set := mkTransferStatusError {
  te_statusCode : text; te_message : copy; te_localeMessage : copy; te_detailedDescription : text }.
Record Output : Set := mkOutput {
  o_transferId : jsstr; o_homeTransactionId : option jsstr; o_currentState : StateEnum; o_possibleDispute : bool;
  o_amount : option jsstr; o_currency : option jsstr; o_initiatedTimestamp : jsstr; o_errorInformation : option TransferStatusError }.

(** What mysql2 makes of a column: the text of a DECIMAL(34,4), the value of a JSON column. *)
Class Driver (num number : Type) : Type := {
  decimal_text : num -> jsstr;
  read_json : jsstr -> json number }.

Section handler.
  Context {num number : Type} {numbers : JSNumber number} {driver : Driver num number}.
  Abbreviation json := (json number).
  Implicit Types record : Row num.

(** ** GetTransferStatusHandler *)

Definition isVisibleTo record (requesterFspId : jsstr) : bool :=
  str_eqb (payer_fsp record) requesterFspId || str_eqb (payee_fsp record) requesterFspId.

Definition is_state (o : option Z) (n : Z) : bool := match o with Some f => f =? n | None => false end.
Definition openState record : StateEnum :=
  if error record then SAborted
  else if is_state (flow record) 2 && given (respondedAt (row_quotes record)) && negb (given (requestedAt (row_transfers record)))
  then WaitingForQuoteAcceptance
  else if is_state (flow record) 1 && given (respondedAt (row_parties record)) && negb (given (requestedAt (row_quotes record)))
  then WaitingForPartyAcceptance
  else Pending.
Definition toCurrentState record : StateEnum :=
  match k_transferState (row_kind record) with
  | Some Committed => SCompleted
  | _ => openState record
  end.

(** [DECIMAL_PATTERN], [toDecimalString] *)
Definition DECIMAL_PATTERN_test (s : jsstr) : bool :=
  match match_decimal s with
  | Some (sign, ip, _) => negb (bool_decide (sign = Some "+"%char)) && (str_eqb ip [zero] || negb (bool_decide (head ip = Some zero)))
  | None => false
  end.
Definition toDecimalString (value : option jsstr) : option jsstr :=
  let s := default [] (trim <$> value) in
  if DECIMAL_PATTERN_test s then Some (normalizeAmount s) else None.

Definition toCurrency (value : option jsstr) : option jsstr :=
  match value with Some c => if bool_decide (c ∈ Currency_values) then Some c else None | None => None end.

(** [toNullableString], on columns and on values of JSON. *)
Definition toNullableString (value : option jsstr) : option jsstr :=
  match trim <$> value with Some [] | None => None | s => s end.
Definition nullable_text (value : option json) : option text :=
  match value with Some (JString s) => match trim_text s with [] => None | t => Some t end | _ => None end.
Fixpoint firstString (values : list (option json)) : option text :=
  match values with
  | [] => None
  | v :: values => match nullable_text v with Some s => Some s | None => firstString values end
  end.

Definition parseJson (value : option json) : option json :=
  match value with
  | Some (JString s) =>
      match trim_text s with
      | [] => value
      | normalized => match Json.JSON_parse normalized with Some v => Some v | None => value end
      end
  | _ => value
  end.
Definition toRecord (value : option json) : option (list (text * json)) :=
  match value with Some (JObject m) => Some m | _ => None end.
Definition member (r : option (list (text * json))) (k : string) : option json := r ≫= get_member (lit k).

(** A JSON column; [null] is no value. *)
Definition stored (column : option jsstr) : option json :=
  match read_json <$> column with Some JNull => None | v => v end.
Definition first_error (values : list (option json)) : option json :=
  match omap Datatypes.id values with v :: _ => Some v | [] => None end.

Definition toError record (language : ErrorMessageLanguage) : TransferStatusError :=
  let rawError := first_error [stored (ph_error (row_transfers record)); stored (ph_error (row_quotes record));
                               stored (ph_error (row_parties record)); (fun s => JString (units s)) <$> patchError (row_patch record)] in
  let parsed := parseJson rawError in
  let root := toRecord parsed in
  let errorInformation := match toRecord (member root "errorInformation") with Some m => Some m | None => root end in
  let statusCode := default (units (type_code GENERIC_SERVER_ERROR))
    (firstString [member errorInformation "statusCode"; member errorInformation "errorCode"; member root "statusCode"; member root "errorCode"]) in
  let said := match parsed with Some (JString s) => parsed | _ => None end in
  mkTransferStatusError statusCode
    (match firstString [member root "message"] with Some s => Copy s | None => messageFor statusCode DEFAULT_LANGUAGE end)
    (match firstString [member root "localeMessage"] with Some s => Copy s | None => messageFor statusCode language end)
    (default (describe statusCode)
       (firstString [member root "detailedDescription"; member errorInformation "detailedDescription";
                     member errorInformation "errorDescription"; member root "errorDescription"; said])).

(** [execute] *)
Definition execute (transferId requesterFspId : jsstr) (language : ErrorMessageLanguage) (t : Table num) : result thrown Output :=
  match t !! transferId with
  | Some record =>
      if isVisibleTo record requesterFspId then
        let currentState := toCurrentState record in
        Ok (mkOutput transferId
              (toNullableString (if str_eqb requesterFspId (payee_fsp record) then payee_home_transaction_id record
                                 else payer_home_transaction_id record))
              currentState (possible_dispute record) (toDecimalString (decimal_text <$> quotingAmount (row_amounts record)))
              (toCurrency (quotingCurrency (row_amounts record))) (toISOString (transaction_started_at record))
              (match currentState with SAborted => Some (toError record language) | _ => None end))
      else Err (fspiop TRANSFER_ID_NOT_FOUND "Transfer ID not found.")
  | None => Err (fspiop TRANSFER_ID_NOT_FOUND "Transfer ID not found.")
  end.

(** ** TransferStatusController *)

Definition ulid_letter (c : ascii) : bool :=
  let n := code c in
  ((48 <=? n) && (n <=? 57) || (65 <=? n) && (n <=? 72) || (n =? 74) || (n =? 75) || (n =? 77) || (n =? 78) ||
   (80 <=? n) && (n <=? 84) || (86 <=? n) && (n <=? 90))%N.
(** [ULID.test] *)
Definition ULID_test (s : jsstr) : bool :=
  match s with
  | c :: rest => ((48 <=? code c) && (code c <=? 55))%N && (length rest =? 25)%nat && forallb ulid_letter rest
  | [] => false
  end.
Definition get_status (source : option jsstr) (rawTransferId : jsstr) (language : option jsstr) (t : Table num) : result thrown Output :=
  let! _ := throw_if (negb (ULID_test rawTransferId)) (fspiop MALFORMED_SYNTAX "transferId must be a valid 26-character ULID.") in
  match trim <$> source with
  | None | Some [] => Err (fspiop MISSING_MANDATORY_ELEMENT "Missing mandatory header: fspiop-source.")
  | Some requester => execute rawTransferId requester (resolveLanguage language) t
  end.
End handler.

(** ** Reference definitions *)

(** What the acknowledged messages of a trail tell of a transaction. *)
Section told.
  Context {doc num : Type} `{Documents doc num} (invalid : Failure) (l : list (@Delivery doc)) (k : jsstr).

Definition told (phase : InvocationPhase) (action : InvocationAction) : Prop :=
  exists m i, In m (acknowledged_messages invalid l) /\ message_input (num := num) invalid 0 m = Some i /\ u_correlationId i = k /\
    m_phase m = Some phase /\ m_action m = Some action.
Definition told_failure : Prop :=
  exists m i, In m (acknowledged_messages invalid l) /\ message_input (num := num) invalid 0 m = Some i /\
    u_correlationId i = k /\ reports_failure m = true.
Definition told_quote : Prop := told PQuotes AResponse /\ ~ told PTransfers ARequest /\ ~ told PTransfers AResponse.
Definition told_party : Prop :=
  told PParties AResponse /\ ~ told PQuotes ARequest /\ ~ told PQuotes AResponse /\ ~ told PTransfers AResponse.

(** What a message sets of the columns the state is read from: whether quotes and parties
    are answered, whether a quote and a transfer are asked for, and the flow. *)
Definition stage_columns (phase : InvocationPhase) (action : InvocationAction) : bool * bool * bool * bool * option Z :=
  match phase, action with
  | PParties, (AResponse | AError) => (false, true, false, false, Some 1)
  | PQuotes, ARequest => (false, false, true, false, None)
  | PQuotes, (AResponse | AError) => (true, false, false, false, Some 2)
  | PTransfers, ARequest => (false, false, false, true, None)
  | PTransfers, (AResponse | AError) => (false, false, false, false, Some 3)
  | _, _ => (false, false, false, false, None)
  end.
Definition input_columns (i : UpsertInput doc num) : bool * bool * bool * bool * option Z :=
  (given (respondedAt (u_quotes i)), given (respondedAt (u_parties i)), given (requestedAt (u_quotes i)),
   given (requestedAt (u_transfers i)), u_flow i).
End told.

(** * Properties *)

(** ** The trail *)

Section trail.
  Context {doc num number : Type} `{Documents doc num} {numbers : JSNumber number} {driver : Driver num number} (invalid : Failure).
  Notation told := (told (num := num) invalid).

Lemma input_stages m i phase action : message_input (num := num) invalid 0 m = Some i ->
  m_phase m = Some phase -> m_action m = Some action -> input_columns i = stage_columns phase action.
Proof.
  intros Hm Hp Ha. revert Hm. destruct m as [ph ac g c]. cbn in Hp, Ha. subst ph ac.
  unfold AuditConsumer.message_input. destruct c as [c|]; cbn [m_phase m_action m_content].
  - unfold dispatch, dispatchParties, dispatchQuotes, dispatchTransfers, dispatchPatch. cbn [m_phase m_action m_gateway m_content].
    destruct phase, action; try done; try (destruct (audited invalid g c); [|done]); cbn [upsert_input];
      try (intros [= <-]; done).
    + intros [= <-]. unfold toQuotesResponseInput. by destruct (toQuoteExportAmounts _) as [[[? ?] ?] ?].
    + destruct g as [[]|]; try done. unfold dispatchPatchResolved.
      destruct (mc_correlationId c); [|done]. destruct (_ =? _)%nat; [done|].
      by destruct (mc_occurredAt c) as [[t|]|].
  - unfold dispatch. cbn. by destruct phase, action.
Qed.

Lemma given_latest {A} (f : A -> option Z) l : given (latest f l) = existsb (fun y => given (f y)) l.
Proof.
  induction l as [|y l IH] using rev_ind; [done|]. rewrite <- greatest_last, existsb_app, <- IH. cbn [existsb].
  by destruct (latest f l), (f y).
Qed.
Lemma given_earliest {A} (f : A -> option Z) l : given (earliest f l) = existsb (fun y => given (f y)) l.
Proof.
  induction l as [|y l IH] using rev_ind; [done|]. rewrite <- least_last, existsb_app, <- IH. cbn [existsb].
  by destruct (earliest f l), (f y).
Qed.
Lemma latest_map {A B} (g : A -> B) (f : B -> option Z) l : latest f (map g l) = latest (fun x => f (g x)) l.
Proof. unfold latest. f_equal. induction l as [|x l IH]; [done|]. cbn. by rewrite IH. Qed.
Lemma fold_max_spec x l : In (fold_right Z.max x l) (x :: l) /\ forall v, In v (x :: l) -> v <= fold_right Z.max x l.
Proof.
  induction l as [|y l [Hin Hmax]]; [split; [by left|intros v [->|[]]; cbn; lia]|]. cbn [fold_right]. split.
  - destruct (Z.max_spec y (fold_right Z.max x l)) as [[_ ->]|[_ ->]]; [|by right; left]. destruct Hin as [E|Hin]; [by left|by right; right].
  - intros v [->|[->|Hv]]; [|lia|]; (etransitivity; [apply Hmax; first [by left|by right]|lia]).
Qed.
Lemma latest_max {A} (f : A -> option Z) l n :
  latest f l = Some n <-> (exists y, In y l /\ f y = Some n) /\ forall y v, In y l -> f y = Some v -> v <= n.
Proof.
  unfold latest. assert (Hin : forall v, In v (omap f l) <-> exists y, In y l /\ f y = Some v).
  { intros v. rewrite <- list_elem_of_In, list_elem_of_omap. by setoid_rewrite list_elem_of_In. }
  destruct (omap f l) as [|x vs]; cbn [greatest_of].
  - split; [done|]. intros [Hy _]. by apply Hin in Hy.
  - destruct (fold_max_spec x vs) as [Hm Hmax]. split.
    + intros [= <-]. split; [by apply Hin|]. intros y v Hy Hf. apply Hmax, Hin. by exists y.
    + intros [Hy Hle]. f_equal. apply Z.le_antisymm; [|by apply Hmax, Hin]. apply Hin in Hm as (y & Hy' & Hf). by eapply Hle.
Qed.

(** ** The state of a transaction *)

Section settled.
  Context (l : list (@Delivery doc)) (k : jsstr) (Ho : ordinary l) (Hs : AuditConsumer.settled (num := num) invalid l).

  Notation told_failure := (told_failure (num := num) invalid l k).
  Notation told_quote := (told_quote (num := num) invalid l k).
  Notation told_party := (told_party (num := num) invalid l k).

Lemma trail_inputs : forall i, In i (map snd (for_key k (omap (written (num := num) invalid) l))) <->
  exists m, In m (acknowledged_messages invalid l) /\ message_input (num := num) invalid 0 m = Some i /\ u_correlationId i = k.
Proof. intros i. rewrite stored_inputs by done. naive_solver. Qed.

Lemma input_named m i : message_input (num := num) invalid 0 m = Some i -> exists phase action, m_phase m = Some phase /\ m_action m = Some action.
Proof.
  unfold AuditConsumer.message_input, dispatch. destruct m as [[ph|] [act|] g [c|]]; cbn [m_phase m_action m_content]; try done; try (by eauto); by destruct ph.
Qed.

(** The columns the state is read from, as sums over the inputs of the trail. *)
Lemma trail_row r : delivered (num := num) invalid l ∅ !! k = Some r ->
  let inputs := map snd (for_key k (omap (written (num := num) invalid) l)) in
  error r = existsb u_error inputs /\ flow r = latest u_flow inputs /\
  given (respondedAt (row_quotes r)) = existsb (fun i => given (respondedAt (u_quotes i))) inputs /\
  given (respondedAt (row_parties r)) = existsb (fun i => given (respondedAt (u_parties i))) inputs /\
  given (requestedAt (row_quotes r)) = existsb (fun i => given (requestedAt (u_quotes i))) inputs /\
  given (requestedAt (row_transfers r)) = existsb (fun i => given (requestedAt (u_transfers i))) inputs.
Proof.
  rewrite delivered_upserts, upserts_row by done. unfold values_of_key. cbv zeta.
  destruct (for_key k _) as [|[n i] evs]; [done|]. cbn [map fst snd]. intros [= <-].
  assert (Hall : values n i :: map (fun x => values (fst x) (snd x)) evs = map (fun x => values (fst x) (snd x)) ((n, i) :: evs)) by done.
  assert (Hi : i :: map snd evs = map snd ((n, i) :: evs)) by done.
  unfold summary. cbv zeta. cbn [error flow row_quotes row_parties row_transfers sum_phase respondedAt requestedAt].
  rewrite Hi, Hall, !given_latest, !given_earliest, !latest_map, !existsb_map. done.
Qed.

Section no_failure.
Context (Hno : forall phase, phase <> PPatch -> ~ told l k phase AError).

(** A column that one stage sets is set when its message is told. *)
Lemma column_told (p : bool * bool * bool * bool * option Z -> bool) phase action : phase <> PPatch ->
  (forall ph ac, p (stage_columns ph ac) = true -> ph = phase /\ (ac = action \/ ac = AError)) -> p (stage_columns phase action) = true ->
  existsb (fun i => p (input_columns i)) (map snd (for_key k (omap (written (num := num) invalid) l))) = true <-> told l k phase action.
Proof.
  intros Hp Honly Hyes. rewrite existsb_exists. setoid_rewrite trail_inputs. split.
  - intros (i & (m & Hm & Hi & Hk) & Hpi). destruct (input_named _ _ Hi) as (ph & ac & Hph & Hac).
    rewrite (input_stages _ _ _ _ Hi Hph Hac) in Hpi. assert (Ht : told l k ph ac) by (by exists m, i).
    destruct (Honly ph ac Hpi) as [-> [->| ->]]; [done|]. by destruct (Hno phase).
  - intros (m & i & Hm & Hi & Hk & Hph & Hac). exists i. split; [by exists m|]. by rewrite (input_stages _ _ _ _ Hi Hph Hac).
Qed.

Lemma flow_told n phase : phase <> PPatch -> (forall ph ac, is_state (snd (stage_columns ph ac)) n = true -> ph = phase /\ (ac = AResponse \/ ac = AError)) ->
  is_state (snd (stage_columns phase AResponse)) n = true ->
  (exists i, In i (map snd (for_key k (omap (written (num := num) invalid) l))) /\ u_flow i = Some n) <-> told l k phase AResponse.
Proof.
  intros Hp Honly Hyes. rewrite <- (column_told (fun c => is_state (snd c) n) phase AResponse Hp Honly Hyes). rewrite existsb_exists.
  split; intros (i & Hi & Hf); exists i; (split; [done|]); cbn in *; [rewrite Hf; apply Z.eqb_refl|].
  destruct (u_flow i) as [v|]; [|done]. cbn in Hf. by apply Z.eqb_eq in Hf as ->.
Qed.
End no_failure.

Lemma flow_bound i v : In i (map snd (for_key k (omap (written (num := num) invalid) l))) -> u_flow i = Some v -> v = 1 \/ v = 2 \/ v = 3.
Proof.
  intros (m & Hm & Hi & Hk)%trail_inputs Hv. destruct (input_named _ _ Hi) as (ph & ac & Hph & Hac).
  pose proof (f_equal snd (input_stages _ _ _ _ Hi Hph Hac)) as Hst. cbn in Hst. rewrite Hv in Hst. destruct ph, ac; cbn in Hst; try done; injection Hst; lia.
Qed.

Lemma row_told r : delivered (num := num) invalid l ∅ !! k = Some r -> error r = false ->
  (given (respondedAt (row_quotes r)) = true <-> told l k PQuotes AResponse) /\
  (given (respondedAt (row_parties r)) = true <-> told l k PParties AResponse) /\
  (given (requestedAt (row_quotes r)) = true <-> told l k PQuotes ARequest) /\
  (given (requestedAt (row_transfers r)) = true <-> told l k PTransfers ARequest) /\
  (flow r = Some 2 <-> told l k PQuotes AResponse /\ ~ told l k PTransfers AResponse) /\
  (flow r = Some 1 <-> told l k PParties AResponse /\ ~ told l k PQuotes AResponse /\ ~ told l k PTransfers AResponse).
Proof.
  intros Hr He. destruct (trail_row r Hr) as (Herr & -> & -> & -> & -> & ->). rewrite He in Herr. clear Hr He.
  assert (Hno : forall phase, phase <> PPatch -> ~ told l k phase AError).
  { intros phase Hp (m & i & Hm & Hi & Hk & Hph & Hac). set (inputs := map snd _) in Herr. assert (existsb u_error inputs = true); [|congruence].
    apply existsb_exists. exists i. split; [apply trail_inputs; by exists m|]. rewrite (input_error _ _ _ _ Hi). unfold reports_failure. rewrite Hac, Hph. by destruct phase. }
  pose proof (flow_told Hno 1 PParties ltac:(done) ltac:(intros [] []; naive_solver) eq_refl) as H1.
  pose proof (flow_told Hno 2 PQuotes ltac:(done) ltac:(intros [] []; naive_solver) eq_refl) as H2.
  pose proof (flow_told Hno 3 PTransfers ltac:(done) ltac:(intros [] []; naive_solver) eq_refl) as H3.
  rewrite !latest_max.
  split; [apply (column_told Hno (fun c => fst (fst (fst (fst c)))) PQuotes AResponse); [done|intros [] []; naive_solver|done]|].
  split; [apply (column_told Hno (fun c => snd (fst (fst (fst c)))) PParties AResponse); [done|intros [] []; naive_solver|done]|].
  split; [apply (column_told Hno (fun c => snd (fst (fst c))) PQuotes ARequest); [done|intros [] []; naive_solver|done]|].
  split; [apply (column_told Hno (fun c => snd (fst c)) PTransfers ARequest); [done|intros [] []; naive_solver|done]|].
  rewrite <- H1, <- H2, <- H3. split; (split; [intros [Hex Hle]|]).
  - split; [done|]. intros (i & Hi & Hf). specialize (Hle i 3 Hi Hf). lia.
  - intros [Hex Hn]. split; [done|]. intros i v Hi Hv. destruct (flow_bound i v Hi Hv) as [->|[->| ->]]; [lia..|]. destruct Hn. by exists i.
  - split; [done|]. split; intros (i & Hi & Hf); specialize (Hle i _ Hi Hf); lia.
  - intros (Hex & Hn2 & Hn3). split; [done|]. intros i v Hi Hv. destruct (flow_bound i v Hi Hv) as [->|[->| ->]]; [lia|destruct Hn2; by exists i|destruct Hn3; by exists i].
Qed.

Lemma row_failure r : delivered (num := num) invalid l ∅ !! k = Some r -> error r = true <-> told_failure.
Proof.
  intros Hr. destruct (trail_row r Hr) as [-> _]. rewrite existsb_exists. setoid_rewrite trail_inputs. split.
  - intros (i & (m & Hm & Hi & Hk) & He). exists m, i. by rewrite <- (input_error _ _ _ _ Hi).
  - intros (m & i & Hm & Hi & Hk & He). exists i. split; [by exists m|]. by rewrite (input_error _ _ _ _ Hi).
Qed.

Lemma is_state_spec o n : is_state o n = true <-> o = Some n.
Proof. destruct o as [v|]; cbn; [|done]. rewrite Z.eqb_eq. naive_solver. Qed.

Lemma open_told r : delivered (num := num) invalid l ∅ !! k = Some r ->
  openState r <> SCompleted /\ (openState r = SAborted <-> told_failure) /\
  (openState r = WaitingForQuoteAcceptance <-> ~ told_failure /\ told_quote) /\
  (openState r = WaitingForPartyAcceptance <-> ~ told_failure /\ told_party).
Proof.
  intros Hr. pose proof (row_failure r Hr) as Hf. pose proof (row_told r Hr) as Ht. unfold openState.
  destruct (error r); [split; [done|]; split; [by rewrite <- Hf|]; rewrite <- Hf; naive_solver|].
  specialize (Ht eq_refl). destruct Ht as (Hqr & Hpr & Hqq & Htq & H2 & H1). rewrite <- Hf. unfold told_quote, told_party.
  rewrite <- is_state_spec in H1, H2.
  destruct (is_state (flow r) 2) eqn:E2, (is_state (flow r) 1) eqn:E1, (given (respondedAt (row_quotes r))),
    (given (requestedAt (row_transfers r))), (given (respondedAt (row_parties r))), (given (requestedAt (row_quotes r))); cbn [andb negb]; clear -Hqr Hpr Hqq Htq H2 H1; intuition congruence.
Qed.

(** C29. A transfer of a settled trail is told to wait for its quote to be accepted exactly while a
    quote is known and no message of a transfer is, to wait for its party while a party is
    known and nothing later, aborted when one of its messages reports a failure, completed
    when the hub committed it: whatever the order and repetition of the deliveries. *)
Theorem trail_status r : delivered (num := num) invalid l ∅ !! k = Some r ->
  let state := toCurrentState r in
  (state = SCompleted <-> k_transferState (row_kind r) = Some Committed) /\
  (state <> SCompleted ->
    (state = SAborted <-> told_failure) /\ (state = WaitingForQuoteAcceptance <-> ~ told_failure /\ told_quote) /\
    (state = WaitingForPartyAcceptance <-> ~ told_failure /\ told_party)).
Proof.
  intros Hr. pose proof (open_told r Hr) as [Hne Hopen]. unfold toCurrentState. cbv zeta.
  destruct (k_transferState (row_kind r)) as [[]|]; (split; [split; intros E; congruence|intros Hn; first [exact Hopen|by destruct Hn]]).
Qed.
End settled.
End trail.

(** ** Answers *)

(** What a double keeps exactly and a DECIMAL(34,4) prints: at most fifteen digits, four of
    them decimals, with four decimals. *)
Definition exact_decimal (a : jsstr) : bool :=
  match match_decimal a with
  | Some (None, ip, fp) =>
      let f := default [] fp in
      (length (ip ++ f) <=? 15)%nat && (length f <=? 4)%nat && (str_eqb ip [zero] || negb (bool_decide (head ip = Some zero)))
  | _ => false
  end.
Definition four_decimals (a : jsstr) : jsstr :=
  match match_decimal a with
  | Some (_, ip, fp) => let f := default [] fp in ip ++ dot :: f ++ replicate (4 - length f) zero
  | None => a
  end.
Class ExactDecimals {doc} (num : Type) {number} {documents : Documents doc num} (driver : Driver num number) : Prop :=
  decimal_exact : forall a, exact_decimal a = true -> decimal_text (Number (num := num) a) = four_decimals a.

Lemma strip_zeros s n : stripTrailingZeros (s ++ replicate n zero) = stripTrailingZeros s.
Proof.
  unfold stripTrailingZeros. rewrite reverse_app, reverse_replicate. f_equal. induction n as [|n IH]; [done|]. cbn. by rewrite bool_decide_true.
Qed.

Lemma four_decimals_told a : exact_decimal a = true -> toDecimalString (Some (four_decimals a)) = Some (normalizeAmount a).
Proof.
  unfold exact_decimal, four_decimals. destruct (match_decimal a) as [[[[sg|] ip] fp]|] eqn:E; [done| |done]. intros Hx.
  apply andb_true_iff in Hx as [Hx Hhead]. apply andb_true_iff in Hx as [_ Hlen%Nat.leb_le].
  destruct (match_decimal_sound _ _ _ _ E) as [Ha (Hsg & [Hne Hip] & Hfp)]. set (f := default [] fp) in *.
  assert (Hf : all_digits f) by (unfold f; destruct fp as [g|]; [by destruct (Hfp g eq_refl)|constructor]).
  set (f4 := f ++ replicate (4 - length f) zero).
  assert (Hf4 : digits1 f4).
  { split; [|by apply Forall_app; split; [done|apply Forall_replicate]]. unfold f4. intros Hnil.
    apply (f_equal length) in Hnil. rewrite length_app, length_replicate in Hnil. cbn in Hnil. lia. }
  assert (Hwf : well_formed None ip (Some f4)) by (split; [done|]; split; [done|by intros g [= <-]]).
  assert (Htrim : forall fp', well_formed None ip fp' -> trim (render None ip fp') = render None ip fp') by (intros; by apply trim_no_ws, render_no_ws).
  change (ip ++ dot :: f4) with (render None ip (Some f4)). unfold toDecimalString. cbv zeta. cbn [fmap option_fmap option_map from_option id].
  rewrite Htrim by done. unfold DECIMAL_PATTERN_test. rewrite match_decimal_render by done. rewrite bool_decide_false by done.
  cbn [negb andb]. rewrite Hhead. f_equal.
  rewrite (normalizeAmount_match _ None ip (Some f4)) by (rewrite Htrim by done; by apply match_decimal_render).
  rewrite (normalizeAmount_match a None ip fp) by (rewrite Ha, Htrim; [by apply match_decimal_render|done]).
  assert (Hstrip : stripTrailingZeros f4 = stripTrailingZeros f) by apply strip_zeros.
  f_equal. unfold norm_fraction. change (default [] (Some f4)) with f4. by rewrite Hstrip.
Qed.

Section answers.
  Context {num number : Type} {numbers : JSNumber number} {driver : Driver num number}.
  Implicit Types (t : Table num) (record : Row num).

(** The rows a requester takes part in. *)
Definition visible_rows (requester : jsstr) t : Table num := filter (fun e => isVisibleTo (snd e) requester = true) t.

(** C27. What a requester is told, errors included, depends only on the transfers it takes part in:
    a transfer of others is answered as one that is not there. *)
Theorem status_confined source requester rawTransferId language t t' :
  trim <$> source = Some requester -> visible_rows requester t = visible_rows requester t' ->
  get_status source rawTransferId language t = get_status source rawTransferId language t'.
Proof.
  intros Hs Hv. unfold get_status. destruct (throw_if _ _); [|done]. rewrite Hs. destruct requester as [|c requester]; [done|].
  set (q := c :: requester) in *. unfold execute.
  assert (H : forall t, match t !! rawTransferId with Some r => if isVisibleTo r q then Some r else None | None => None end = visible_rows q t !! rawTransferId).
  { intros u. unfold visible_rows. rewrite map_lookup_filter. destruct (u !! rawTransferId) as [r|]; [|done]. cbn. 
    destruct (isVisibleTo r q) eqn:E; [by rewrite option_guard_True|by rewrite option_guard_False by congruence]. }
  pose proof (H t) as H1. pose proof (H t') as H2. rewrite Hv, <- H2 in H1. clear H H2 Hv.
  destruct (t !! rawTransferId) as [r|], (t' !! rawTransferId) as [r'|]; try done; repeat case_match; congruence.
Qed.

(** ** Errors *)

Lemma nullable_visible (v : option (json number)) s : nullable_text v = Some s -> s <> [].
Proof. unfold nullable_text. repeat case_match; naive_solver. Qed.
Lemma firstString_visible (vs : list (option (json number))) s : firstString vs = Some s -> s <> [].
Proof.
  induction vs as [|v vs IH]; [done|]. cbn [firstString]. destruct (nullable_text v) eqn:E; [|done]. intros [= <-]. by eapply nullable_visible.
Qed.

(** The error of an aborted transfer always has a code, a description and, but for a code that
    is a name of Object.prototype, messages that are not empty. An errorInformation of the
    FSPIOP API is told with its own code and description. *)
Theorem status_error record language :
  let e := toError record language in
  te_statusCode e <> [] /\ te_detailedDescription e <> [] /\
  (forall s, te_message e = Copy s \/ te_localeMessage e = Copy s -> s <> []) /\
  forall c d (m : list (text * json number)),
    first_error [stored (ph_error (row_transfers record)); stored (ph_error (row_quotes record));
                 stored (ph_error (row_parties record)); (fun s => JString (units s)) <$> patchError (row_patch record)] =
      Some (JObject [(lit "errorInformation", JObject ((lit "errorCode", JString c) :: (lit "errorDescription", JString d) :: m))]) ->
    trim_text c <> [] -> trim_text d <> [] -> get_member (lit "statusCode") m = None -> get_member (lit "detailedDescription") m = None ->
    e = mkTransferStatusError (trim_text c) (messageFor (trim_text c) DEFAULT_LANGUAGE) (messageFor (trim_text c) language) (trim_text d).
Proof.
  cbv zeta. unfold toError. set (raw := first_error _). cbn [te_statusCode te_detailedDescription te_message te_localeMessage].
  set (code := default (units (type_code GENERIC_SERVER_ERROR)) _).
  split; [|split; [|split]].
  - unfold code. destruct (firstString _) eqn:E; [exact (firstString_visible _ _ E)|done].
  - clearbody code. destruct (firstString _) eqn:E; [exact (firstString_visible _ _ E)|apply describe_visible].
  - clearbody code. intros s [Hs|Hs]; (destruct (firstString _) as [x|] eqn:E; [injection Hs as <-; exact (firstString_visible _ _ E)|exact (messageFor_visible _ _ _ Hs)]).
  - intros c d m Hraw Hc Hd Hno1 Hno2. unfold code. clear code. rewrite Hraw. cbn [parseJson toRecord].
    set (info := (lit "errorCode", JString c) :: (lit "errorDescription", JString d) :: m).
    set (root := [(lit "errorInformation", JObject info)]).
    assert (Hinfo : member (Some root) "errorInformation" = Some (JObject info)) by done. rewrite Hinfo. cbn [toRecord].
    assert (Hm : forall k, k <> lit "errorInformation" -> get_member k root = None) by (intros k Hk; unfold root; cbn [get_member]; by rewrite bool_decide_false).
    assert (H1 : member (Some info) "statusCode" = None) by exact Hno1.
    assert (H2 : member (Some info) "detailedDescription" = None) by exact Hno2.
    assert (H3 : member (Some info) "errorCode" = Some (JString c)) by done.
    assert (H4 : member (Some info) "errorDescription" = Some (JString d)) by done.
    assert (H5 : forall k, lit k <> lit "errorInformation" -> member (Some root) k = None) by (intros k Hk; by apply Hm).
    rewrite H1, H2, H3, H4, !H5 by done. cbn [firstString nullable_text].
    destruct (trim_text c); [done|]. destruct (trim_text d); done.
Qed.

(** ** Amounts and states *)

(** The amount of an exact decimal is told as the canonical text of the amount sent, so the
    two compare as strings. *)
Theorem amount_told {doc} {documents : Documents doc num} (exact_driver : ExactDecimals num driver) t transferId requester language o record a :
  execute transferId requester language t = Ok o -> t !! transferId = Some record ->
  exact_decimal a = true -> quotingAmount (row_amounts record) = Some (Number a) -> o_amount o = Some (normalizeAmount a).
Proof.
  unfold execute. intros He Hr Ha Hq. rewrite Hr in He. destruct (isVisibleTo _ _); [|done]. injection He as <-. cbn [o_amount].
  rewrite Hq. cbn [fmap option_fmap option_map]. rewrite (exact_driver a Ha). by apply four_decimals_told.
Qed.

(** The answer of accept-quote and the status disagree on a transfer that was not committed:
    reserved, one says completed and the other pending; aborted without an error, one says
    aborted and the other pending. *)
Theorem states_disagree record cached state extensions :
  k_transferState (row_kind record) = Some state -> state <> Committed -> error record = false -> flow record = Some TRANSFERS_FLOW ->
  toCurrentState record = Pending /\
  currentState (toFinalState cached state extensions) = match state with Aborted => SAborted | _ => SCompleted end.
Proof. intros Hk Hne He Hf. unfold toCurrentState, openState. rewrite Hk, He, Hf. split; [by destruct state|done]. Qed.

(** ** Identifiers *)

Lemma letter_ulid d : 0 <= d < 32 -> ulid_letter (letter d) = true.
Proof. intros. apply (digits32_spec (fun d => ulid_letter (letter d) = true)); [|done]. by apply (bool_decide_unpack _); vm_compute. Qed.
Lemma toBase32_ulid n count : forallb ulid_letter (toBase32 n count) = true.
Proof.
  revert n. induction count as [|count IH]; intros n; [done|]. rewrite toBase32_S, forallb_app, IH. cbn [forallb andb].
  rewrite letter_ulid; [done|]. apply Z.mod_pos_bound. lia.
Qed.
Lemma toBase32_first n count : toBase32 n (S count) = letter (n / 32 ^ Z.of_nat count mod 32) :: toBase32 n count.
Proof.
  revert n. induction count as [|count IH]; intros n; [by rewrite toBase32_S, Z.pow_0_r, Z.div_1_r|].
  rewrite toBase32_S, IH, (toBase32_S n count). rewrite Z.div_div by lia. rewrite Nat2Z.inj_succ, Z.pow_succ_r by lia. done.
Qed.
Lemma low_digit d : 0 <= d < 8 -> ((48 <=? code (letter d)) && (code (letter d) <=? 55))%N = true.
Proof. intros. assert (H8 : d = 0 \/ d = 1 \/ d = 2 \/ d = 3 \/ d = 4 \/ d = 5 \/ d = 6 \/ d = 7) by lia. by repeat destruct H8 as [->|H8]; [..|subst]. Qed.

(** Every identifier that the payer's gateway gives a transfer is one the query accepts. *)
Theorem generated_accepted now random s source language t requester :
  0 <= now -> generate now random = Ok s -> trim <$> source = Some requester -> requester <> [] ->
  get_status source s language t = execute s requester (resolveLanguage language) t.
Proof.
  intros Hnow Hg Hs Hne. assert (Hmax : now <= MAX_TIMESTAMP).
  { unfold generate in Hg. destruct (MAX_TIMESTAMP <? now) eqn:E; [done|by apply Z.ltb_ge in E]. }
  rewrite generate_Ok in Hg by done. apply Ok_inj in Hg. rewrite <- Hg. clear Hg.
  assert (Ht : ULID_test (toBase32 now TIME_PART_LENGTH ++ toBase32 (randomValue random) RANDOM_PART_LENGTH) = true).
  { change TIME_PART_LENGTH with (S 9). rewrite toBase32_first. cbn [app ULID_test].
    change MAX_TIMESTAMP with 281474976710655 in Hmax. change (32 ^ Z.of_nat 9) with 35184372088832.
    assert (Hd : 0 <= now / 35184372088832 < 8) by (split; [by apply Z.div_pos|apply Z.div_lt_upper_bound; lia]).
    rewrite Z.mod_small by lia. rewrite low_digit by done.
    rewrite length_app, !toBase32_length, forallb_app, !toBase32_ulid. done. }
  unfold get_status. rewrite Ht. cbn [negb throw_if]. rewrite Hs. by destruct requester.
Qed.
End answers.

(** ** Examples *)

Definition quote_asked : TransactionMessage body :=
  mkTransactionMessage (Some PQuotes) (Some ARequest) (Some Outbound) (Some (example_content (Some (Some 300)) None None)).
Definition quote_answered : TransactionMessage body :=
  mkTransactionMessage (Some PQuotes) (Some AResponse) (Some Inbound) (Some (example_content (Some (Some 400)) None None)).
Definition quoted_trail : list (@Delivery body) :=
  [mkDelivery quote_answered 401 1 None; mkDelivery lookup_message 402 1 None; mkDelivery quote_asked 403 1 (Some (db_down, true));
   mkDelivery quote_asked 431 2 None].

#[local] Instance text_driver : Driver jsstr text := {|
  decimal_text := four_decimals;
  read_json s := default JNull (Json.JSON_parse (units s)) |}.
Lemma text_exact : ExactDecimals jsstr text_driver.
Proof. intros a Ha. done. Qed.

Ltac settle_quoted := intros d Hd Hw; repeat (destruct Hd as [<-|Hd]); [..|destruct Hd];
  first [eexists; split; [by left|done]|eexists; split; [by right; left|done]|eexists; split; [by right; right; right; left|done]].

Lemma trail_status_witness :
  exists r, delivered refused quoted_trail (∅ : Table jsstr) !! js "T1" = Some r /\ toCurrentState r = WaitingForQuoteAcceptance /\
    told_quote (num := jsstr) refused quoted_trail (js "T1").
Proof.
  eexists. split; [vm_compute; reflexivity|]. split; [vm_compute; reflexivity|].
  refine (proj2 (proj1 (proj1 (proj2 (proj2 (trail_status refused quoted_trail (js "T1") _ _ _ _) _))) _)); [repeat constructor|settle_quoted|vm_compute; reflexivity|discriminate|vm_compute; reflexivity].
Defined.

Definition told_row : Row jsstr :=
  default (values 0 lookup_answered) (delivered refused quoted_trail (∅ : Table jsstr) !! js "T1").
Definition two_transfers (other : jsstr) : Table jsstr :=
  <[js "T2" := values 0 (toPatchErrorInput 0 (mkAudited (js "T2") other (js "wallet3") (Some Connector) (Some 900)) (Some (js "timeout")))]>
    (<[js "T1" := told_row]> ∅).

Lemma status_confined_witness :
  get_status (Some (js " payer ")) (js "01ARZ3NDEKTSV4RRFFQ69G5FAV") None (two_transfers (js "wallet1")) =
  get_status (Some (js " payer ")) (js "01ARZ3NDEKTSV4RRFFQ69G5FAV") None (two_transfers (js "wallet2")).
Proof. apply (status_confined _ (js "payer")); [reflexivity|]. vm_compute. reflexivity. Defined.

Definition sent_row : Row jsstr :=
  values 0 (toPartiesRequestInput (doc := body) 0 (mkAudited (js "T1") (js "payer") (js "payee") (Some Outbound) (Some 100))
    (mkAuditedParties no_participant no_participant)
    (mkAuditedLookup None None None None (Some (js "USD")) (Some (js "1000.50")) None) None).
Definition sent_table : Table jsstr := {[js "T1" := sent_row]}.

Lemma amount_told_witness :
  match execute (js "T1") (js "payer") en_US sent_table with
  | Ok o => o_amount o = Some (normalizeAmount (js "1000.50"))
  | Err _ => False
  end.
Proof.
  destruct (execute (js "T1") (js "payer") en_US sent_table) as [o|e] eqn:E.
  - exact (amount_told text_exact sent_table (js "T1") (js "payer") en_US o sent_row (js "1000.50") E (lookup_singleton_eq _ _) eq_refl eq_refl).
  - exfalso. revert E. vm_compute. discriminate.
Defined.
