(* ===== verification/Tokens.v ===== *)
(** * Access tokens of the hub and of the Connection Manager

    shared/fspiop/component/security/fspiop-access-token-provider.ts, the token every request
    to the hub carries, as a state machine of callers and one request in flight;
    shared/mcm-client/component: mcm-token-provider.ts and the transport of mcm-axios.ts, which
    logs in again once after a 401. The identity provider and MCM are arguments. *)

From S2P Require Import Prelude Errors Outside Tenants.

(** What the identity provider answers: a body, or a failure with the status if there was one. *)
Record Grant : Set := mkGrant { access_token : option jsstr; expires_in : option Z }.
Inductive reply : Set := Granted (g : Grant) | Refused (status : option Z).

Definition quoted_client (clientId : jsstr) : jsstr := js "'" ++ clientId ++ js "'".

(** ** FspiopAccessTokenProvider *)

Module Hub.
Definition MAX_EXPIRY_SKEW_MS : Z := 30000.
Definition DEFAULT_EXPIRES_IN_SECONDS : Z := 60.

Definition lifetimeMs (g : Grant) : Z := default DEFAULT_EXPIRES_IN_SECONDS (expires_in g) * 1000.
Definition skewMs (g : Grant) : Z := Z.min MAX_EXPIRY_SKEW_MS (lifetimeMs g / 2).

(** The end of [fetch]: the token and the time it is kept until, or what is thrown. *)
Definition fetched (clientId : jsstr) (now : Z) (r : reply) : result thrown (jsstr * Z) :=
  match r with
  | Refused status =>
      Err (TError (js "Could not obtain a Hub access token for client " ++ quoted_client clientId ++
                   match status with Some s => js " (HTTP " ++ dec_print s ++ js ")." | None => js "." end))
  | Granted g =>
      match access_token g with
      | None | Some [] => Err (TError (js "No access_token returned for client " ++ quoted_client clientId ++ js "."))
      | Some token => Ok (token, now + lifetimeMs g - skewMs g)
      end
  end.

(** The fields of the provider, the requests in flight, and the promises given to callers:
    [awaiting] those that follow a request, [answered] those settled. *)
Record provider : Type := mkProvider {
  token : option jsstr; expiresAt : Z; pending : option nat;
  fetches : nat; inflight : gset nat;
  callers : nat; awaiting : gmap nat nat; answered : gmap nat (result thrown jsstr) }.
Definition initial : provider := mkProvider None 0 None 0 ∅ 0 ∅ ∅.

(** [accessToken] of the next caller. *)
Definition accessToken (now : Z) (st : provider) : provider :=
  match token st, now <? expiresAt st with
  | Some t, true =>
      mkProvider (token st) (expiresAt st) (pending st) (fetches st) (inflight st)
        (S (callers st)) (awaiting st) (<[callers st := Ok t]> (answered st))
  | _, _ =>
      match pending st with
      | Some f => mkProvider (token st) (expiresAt st) (pending st) (fetches st) (inflight st)
                    (S (callers st)) (<[callers st := f]> (awaiting st)) (answered st)
      | None => let f := fetches st in
                mkProvider (token st) (expiresAt st) (Some f) (S f) ({[f]} ∪ inflight st)
                  (S (callers st)) (<[callers st := f]> (awaiting st)) (answered st)
      end
  end.

(** The answer to request [f]: the rest of [fetch], [finally], and the callers that follow it. *)
Definition answer (clientId : jsstr) (now : Z) (f : nat) (r : reply) (st : provider) : provider :=
  if decide (f ∈ inflight st) then
    let outcome := fetched clientId now r in
    let told := (fun _ => match outcome with Ok (t, _) => Ok t | Err e => Err e end) <$> filter (fun e => snd e = f) (awaiting st) in
    mkProvider (match outcome with Ok (t, _) => Some t | Err _ => token st end)
      (match outcome with Ok (_, at_) => at_ | Err _ => expiresAt st end)
      None (fetches st) (inflight st ∖ {[f]}) (callers st) (filter (fun e => snd e <> f) (awaiting st)) (told ∪ answered st)
  else st.

Definition invalidate (st : provider) : provider :=
  mkProvider None 0 (pending st) (fetches st) (inflight st) (callers st) (awaiting st) (answered st).

Inductive event : Set := Call | Answer (f : nat) (r : reply) | Invalidate.
Definition step (clientId : jsstr) (now : Z) (ev : event) (st : provider) : provider :=
  match ev with Call => accessToken now st | Answer f r => answer clientId now f r st | Invalidate => invalidate st end.
(** Events with their times. *)
Definition run (clientId : jsstr) (evs : list (Z * event)) : provider :=
  fold_left (fun st e => step clientId (fst e) (snd e) st) evs initial.
End Hub.

(** ** McmTokenProvider, McmAxios *)

Module Mcm.
Definition EXPIRY_SKEW_MS : Z := 30000.
Definition DEFAULT_EXPIRES_IN : Z := 300.

(** What a caller can be thrown: the error of axios, with the status of the response if there
    was one, or an [McmException]. *)
Inductive error : Set := AxiosError (status : option Z) | Exception (e : exception).

Section client.
  Context {W A : Type} (time : W -> Z) (identity : W -> W * reply) (call : jsstr -> W -> W * (A + option Z)).

(** The token provider and what was exchanged: a login, with whether a token came of it, and
    a request with its token and the status it failed with. *)
Inductive exchange : Set := Login (ok : bool) | Sent (t : jsstr) (failure : option (option Z)).
Record client : Type := mkClient { world : W; token : option jsstr; expiresAt : Z; log : list exchange }.

(** [McmTokenProvider.fetch] *)
Definition fetch (c : client) : client * (jsstr + error) :=
  let '(w, r) := identity (world c) in
  match r with
  | Refused status => (mkClient w (token c) (expiresAt c) (log c ++ [Login false]), inr (AxiosError status))
  | Granted g =>
      match access_token g with
      | None | Some [] =>
          (mkClient w (token c) (expiresAt c) (log c ++ [Login false]), inr (Exception (McmException (js "MCM_TOKEN_UNAVAILABLE") None)))
      | Some t => (mkClient w (Some t) (time w + default DEFAULT_EXPIRES_IN (expires_in g) * 1000 - EXPIRY_SKEW_MS)
                     (log c ++ [Login true]), inl t)
      end
  end.
Definition accessToken (c : client) : client * (jsstr + error) :=
  match token c, time (world c) <? expiresAt c with
  | Some t, true => (c, inl t)
  | _, _ => fetch c
  end.
Definition invalidate (c : client) : client := mkClient (world c) None 0 (log c).

(** [call(await this.authHeaders())] *)
Definition request (t : jsstr) (c : client) : client * (A + error) :=
  match call t (world c) with
  | (w, inl a) => (mkClient w (token c) (expiresAt c) (log c ++ [Sent t None]), inl a)
  | (w, inr status) => (mkClient w (token c) (expiresAt c) (log c ++ [Sent t (Some status)]), inr (AxiosError status))
  end.
Definition attempt (c : client) : client * (A + error) :=
  match accessToken c with
  | (c, inr e) => (c, inr e)
  | (c, inl t) => request t c
  end.

Definition isUnauthorized (e : error) : bool := match e with AxiosError (Some status) => status =? 401 | _ => false end.
Definition toException (e : error) : exception :=
  match e with
  | Exception e => e
  | AxiosError status =>
      match status with
      | Some s => if s =? 401 then McmException (js "MCM_UNAUTHORIZED") status else McmException (js "MCM_REQUEST_FAILED") status
      | None => McmException (js "MCM_REQUEST_FAILED") status
      end
  end.

(** [send] *)
Definition send (c : client) : client * (A + exception) :=
  match attempt c with
  | (c, inl a) => (c, inl a)
  | (c, inr e) =>
      if isUnauthorized e then
        match attempt (invalidate c) with (c, inl a) => (c, inl a) | (c, inr e) => (c, inr (toException e)) end
      else (c, inr (toException e))
  end.
End client.
End Mcm.

(** ** Reference definitions *)

Import Hub.

(** One request at most is in flight, the pending one; every caller follows it or was answered. *)
Record sane (st : provider) : Prop := {
  s_inflight : inflight st = match pending st with Some f => {[f]} | None => ∅ end;
  s_await : forall c f, awaiting st !! c = Some f -> pending st = Some f;
  s_callers : forall c, (c < callers st)%nat <-> is_Some (awaiting st !! c) \/ is_Some (answered st !! c) }.

(** The times of a run do not decrease from [t0] to [now]. *)
Fixpoint timed (t0 : Z) (evs : list (Z * event)) (now : Z) : Prop :=
  match evs with [] => t0 <= now | (t, _) :: evs => t0 <= t /\ timed t evs now end.

(** Every request is granted a token for at least [L] seconds. *)
Definition generous (L : Z) (ev : event) : Prop :=
  match ev with
  | Call => True
  | Answer _ (Granted g) => (exists c t, access_token g = Some (c :: t)) /\ L * 1000 <= lifetimeMs g
  | _ => False
  end.

(** The pace of requests: [h] milliseconds between two. *)
Record paced (h t0 now : Z) (st : provider) : Prop := {
  p_started : (0 < fetches st)%nat -> (Z.of_nat (fetches st) - 1) * h <= now - t0;
  p_kept : pending st = None -> (0 < fetches st)%nat -> is_Some (token st) /\ Z.of_nat (fetches st) * h <= expiresAt st - t0 }.

(** * Properties *)

(** ** The provider of the hub *)

Lemma sane_initial : sane initial.
Proof. split; [done|done|]. intros c. cbn. rewrite !lookup_empty. split; [lia|by intros [[]|[]]]. Qed.

(** The three courses of a call. *)
Lemma accessToken_course now st :
  (exists t, token st = Some t /\ now < expiresAt st /\
     accessToken now st = mkProvider (token st) (expiresAt st) (pending st) (fetches st) (inflight st)
       (S (callers st)) (awaiting st) (<[callers st := Ok t]> (answered st))) \/
  (token st = None \/ expiresAt st <= now) /\
  exists f started inflight', match pending st with
      | Some p => f = p /\ started = fetches st /\ inflight' = inflight st
      | None => f = fetches st /\ started = S (fetches st) /\ inflight' = {[f]} ∪ inflight st
      end /\
    accessToken now st = mkProvider (token st) (expiresAt st) (Some f) started inflight'
      (S (callers st)) (<[callers st := f]> (awaiting st)) (answered st).
Proof.
  unfold accessToken. destruct (token st) as [t|]; [destruct (now <? expiresAt st) eqn:E|].
  - left. exists t. split; [done|]. split; [lia|done].
  - right. split; [right; lia|]. destruct (pending st); eauto 10.
  - right. split; [by left|]. destruct (pending st); eauto 10.
Qed.

Lemma sane_step clientId now ev st : sane st -> sane (step clientId now ev st).
Proof.
  intros [Hi Ha Hc]. assert (Hnew : forall c, (c < S (callers st))%nat <-> c = callers st \/ is_Some (awaiting st !! c) \/ is_Some (answered st !! c))
    by (intros c; rewrite <- Hc; lia).
  destruct ev as [|f r|]; cbn [step].
  - destruct (accessToken_course now st) as [(t & Ht & Hlt & ->)|(_ & f & started & flying & Hf & ->)].
    + split; cbn; [done|done|]. intros c. rewrite Hnew, lookup_insert_is_Some'. naive_solver.
    + split; cbn.
      * destruct (pending st) as [p|]; destruct Hf as (-> & _ & ->); [done|]. rewrite Hi. set_solver.
      * intros c g [[_ <-]|[_ Hg]]%lookup_insert_Some; [done|]. pose proof (Ha c g Hg) as Hp. rewrite Hp in Hf. by destruct Hf as (-> & _).
      * intros c. rewrite Hnew, lookup_insert_is_Some'. naive_solver.
  - unfold answer. case_decide as Hin; [|done]. destruct (pending st) as [p|] eqn:Ep; [|rewrite Hi in Hin; set_solver].
    assert (f = p) as -> by (rewrite Hi in Hin; set_solver). split; cbn.
    + rewrite Hi. set_solver.
    + intros c g [Hg Hne]%map_lookup_filter_Some. cbn in Hne. pose proof (Ha c g Hg). congruence.
    + intros c. rewrite Hc, lookup_union_is_Some, lookup_fmap, fmap_is_Some. split.
      * intros [[g Hg]|Hs]; [|by right; right]. right. left. exists g. apply map_lookup_filter_Some. split; [done|]. cbn. pose proof (Ha c g Hg). congruence.
      * intros [[g [Hg _]%map_lookup_filter_Some]|[[g [Hg _]%map_lookup_filter_Some]|Hs]]; [left..|by right]; by exists g.
  - split; cbn; done.
Qed.
Lemma sane_run clientId evs : sane (run clientId evs).
Proof.
  unfold run. assert (H : forall st, sane st -> sane (fold_left (fun st e => step clientId (fst e) (snd e) st) evs st)); [|by apply H, sane_initial].
  induction evs as [|e evs IH]; intros st Hst; [done|]. cbn. by apply IH, sane_step.
Qed.

(** However calls and answers interleave, one request at most is in flight; every caller was
    answered or follows that request, and its answer, whatever it is, answers all of them. *)
Theorem single_flight clientId evs :
  let st := run clientId evs in
  (size (inflight st) <= 1)%nat /\
  (forall c, (c < callers st)%nat -> is_Some (answered st !! c) \/ exists f, awaiting st !! c = Some f /\ f ∈ inflight st) /\
  forall now f r, f ∈ inflight st ->
    let st' := answer clientId now f r st in
    inflight st' = ∅ /\ forall c, (c < callers st')%nat -> is_Some (answered st' !! c).
Proof.
  cbv zeta. pose proof (sane_run clientId evs) as Hsane. set (st := run clientId evs) in *. destruct Hsane as [Hi Ha Hc]. split; [|split].
  - rewrite Hi. destruct (pending st); [by rewrite size_singleton|rewrite size_empty; lia].
  - intros c [[f Hf]|Hs]%Hc; [|by left]. right. exists f. split; [done|]. rewrite Hi, (Ha c f Hf). set_solver.
  - intros now f r Hf. pose proof (sane_step clientId now (Answer f r) st ltac:(by split)) as [Hi' Ha' Hc']. cbn [step] in *.
    assert (Hp : pending (answer clientId now f r st) = None) by (unfold answer; by rewrite decide_True).
    rewrite Hp in *. split; [done|]. intros c Hlt. apply Hc' in Hlt as [[g Hg]|Hs]; [|done]. by apply Ha' in Hg.
Qed.

Lemma run_snoc clientId evs e : run clientId (evs ++ [e]) = step clientId (fst e) (snd e) (run clientId evs).
Proof. unfold run. by rewrite fold_left_app. Qed.
Lemma timed_snoc t0 evs t ev now : timed t0 (evs ++ [(t, ev)]) now <-> timed t0 evs t /\ t <= now.
Proof. revert t0. induction evs as [|[u e] evs IH]; intros t0; cbn; [done|]. rewrite IH. tauto. Qed.
Lemma timed_elem t0 evs now e : timed t0 evs now -> e ∈ evs -> fst e <= now.
Proof.
  revert now. induction evs as [|[u d] evs IH] using rev_ind; intros now; [by intros _ ?%elem_of_nil|].
  rewrite timed_snoc, elem_of_app, list_elem_of_singleton. intros [Ht Hu] [He| ->]; [|done]. etransitivity; [by apply IH|done].
Qed.

Lemma kept_half g : 0 < lifetimeMs g -> lifetimeMs g / 2 <= lifetimeMs g - skewMs g.
Proof. unfold skewMs. intros H. pose proof (Z.mul_div_le (lifetimeMs g) 2 ltac:(lia)). lia. Qed.

Lemma paced_step clientId L t0 t now ev st : 0 < L -> t0 <= t -> t <= now -> sane st -> generous L ev ->
  paced (500 * L) t0 t st -> paced (500 * L) t0 now (step clientId now ev st).
Proof.
  intros HL H0 Hnow [Hi Ha Hc] Hg [Hs Hk]. destruct ev as [|f [g|]|]; cbn [step]; try done.
  - destruct (accessToken_course now st) as [(tok & Ht & Hlt & ->)|(Hold & f & started & flying & Hf & ->)].
    + split; cbn; [intros Hp; specialize (Hs Hp); lia|done].
    + split; cbn; [|done]. destruct (pending st) as [p|] eqn:Ep; destruct Hf as (-> & -> & ->); [intros Hp; specialize (Hs Hp); lia|].
      intros _. destruct (decide (0 < fetches st)%nat) as [Hp|Hp].
      * destruct (Hk eq_refl Hp) as [[tok Htok] Hle]. destruct Hold as [Hold|Hold]; [congruence|]. lia.
      * replace (fetches st) with 0%nat by lia. lia.
  - unfold answer. case_decide as Hin; [|split; [intros Hp; specialize (Hs Hp); lia|done]].
    destruct Hg as [(c & tok & Htok) Hlong]. destruct (pending st) as [p|] eqn:Ep; [|rewrite Hi in Hin; set_solver].
    unfold fetched. rewrite Htok. split; cbn [fetches token expiresAt pending]; [intros Hp; specialize (Hs Hp); lia|].
    intros _ Hp. split; [done|]. specialize (Hs Hp). pose proof (kept_half g ltac:(lia)).
    assert (500 * L <= lifetimeMs g / 2) by (apply Z.div_le_lower_bound; lia). lia.
Qed.

(** C40. Where every request is granted a token for [L] seconds, the identity provider is asked at
    most once, and once more for every half of that time that passed, however many calls are
    made and however they fall. *)
Theorem requests_bounded clientId L t0 evs now :
  0 < L -> timed t0 evs now -> Forall (fun e => generous L (snd e)) evs ->
  Z.of_nat (fetches (run clientId evs)) <= 1 + (now - t0) / (500 * L).
Proof.
  intros HL Ht Hg. assert (Hp : forall evs now, timed t0 evs now -> Forall (fun e => generous L (snd e)) evs -> t0 <= now /\ paced (500 * L) t0 now (run clientId evs)).
  { clear evs now Ht Hg. intros evs. induction evs as [|[t ev] evs IH] using rev_ind; intros now Ht Hg.
    - split; [exact Ht|]. split; cbn; lia.
    - apply timed_snoc in Ht as [Ht Hle]. apply Forall_app in Hg as [Hg Hev]. destruct (IH t Ht Hg) as [H0 Hpaced].
      split; [lia|]. rewrite run_snoc. cbn [fst snd]. inversion_clear Hev as [|? ? Hgen _].
      pose proof (paced_step clientId L t0 t t ev _ HL H0 ltac:(lia) (sane_run clientId evs) Hgen Hpaced) as [H1 H2].
      split; [intros Hpos; specialize (H1 Hpos); lia|exact H2]. }
  destruct (Hp evs now Ht Hg) as [H0 [Hs _]]. destruct (decide (0 < fetches (run clientId evs))%nat) as [Hpos|Hpos].
  - specialize (Hs Hpos). assert (Z.of_nat (fetches (run clientId evs)) - 1 <= (now - t0) / (500 * L)) by (apply Z.div_le_lower_bound; lia). lia.
  - pose proof (Z.div_pos (now - t0) (500 * L) ltac:(lia) ltac:(lia)). lia.
Qed.

(** The token the provider holds is the last one granted, with its time. *)
Lemma held_granted clientId evs tok : token (run clientId evs) = Some tok ->
  exists a f g, (a, Answer f (Granted g)) ∈ evs /\ access_token g = Some tok /\ expiresAt (run clientId evs) = a + lifetimeMs g - skewMs g.
Proof.
  induction evs as [|[t ev] evs IH] using rev_ind; [done|]. rewrite run_snoc. cbn [fst snd]. intros Htok.
  assert (Hold : token (run clientId evs) = Some tok -> expiresAt (step clientId t ev (run clientId evs)) = expiresAt (run clientId evs) ->
    exists a f g, (a, Answer f (Granted g)) ∈ evs ++ [(t, ev)] /\ access_token g = Some tok /\ expiresAt (step clientId t ev (run clientId evs)) = a + lifetimeMs g - skewMs g).
  { intros H1 H2. destruct (IH H1) as (a & f & g & Hin & Hg & He). exists a, f, g. split; [apply elem_of_app; by left|]. split; [done|]. by rewrite H2. }
  destruct ev as [|f r|]; cbn [step] in *; [|unfold answer in *; case_decide; [|by apply Hold]|done].
  - destruct (accessToken_course t (run clientId evs)) as [(u & Hu & Hlt & E)|(_ & f & started & flying & _ & E)]; rewrite E in *; by apply Hold.
  - destruct r as [g|]; unfold fetched in *; [|by apply Hold]. destruct (access_token g) as [[|c u]|] eqn:Eg; cbn in Htok |- *; [by apply Hold| |by apply Hold].
    injection Htok as <-. exists t, f, g. split; [apply elem_of_app; right; by apply list_elem_of_singleton|]. done.
Qed.

(** A caller that is answered at once is given a token that was granted before and that has
    not reached its end: half of its life may be left unused, at most thirty seconds. *)
Theorem fresh_token clientId t0 evs now tok :
  timed t0 evs now -> answered (accessToken now (run clientId evs)) !! callers (run clientId evs) = Some (Ok tok) ->
  exists a f g, (a, Answer f (Granted g)) ∈ evs /\ access_token g = Some tok /\ a <= now /\
    now < a + lifetimeMs g - skewMs g /\ (0 <= lifetimeMs g -> now < a + lifetimeMs g) /\ (60000 <= lifetimeMs g -> now < a + lifetimeMs g - 30000).
Proof.
  intros Ht Hans. destruct (accessToken_course now (run clientId evs)) as [(u & Hu & Hlt & E)|(_ & f & started & flying & _ & E)]; rewrite E in Hans; cbn in Hans.
  - rewrite lookup_insert_eq in Hans. injection Hans as ->. destruct (held_granted clientId evs tok Hu) as (a & f & g & Hin & Hg & He).
    exists a, f, g. split; [done|]. split; [done|]. split; [by apply (timed_elem t0 evs now (a, Answer f (Granted g)))|]. rewrite He in Hlt.
    split; [done|]. unfold skewMs, MAX_EXPIRY_SKEW_MS in *. split; intros Hl.
    + pose proof (Z.div_pos (lifetimeMs g) 2 Hl ltac:(lia)). lia.
    + assert (30000 <= lifetimeMs g / 2) by (apply Z.div_le_lower_bound; lia). lia.
  - destruct (sane_run clientId evs) as [_ _ Hc]. pose proof (proj2 (Hc (callers (run clientId evs))) (or_intror (ex_intro _ _ Hans))). lia.
Qed.

(** ** The transport to MCM *)

Section mcm.
  Context {W A : Type} (time : W -> Z) (identity : W -> W * reply) (call : jsstr -> W -> W * (A + option Z)).
  Notation client := (Mcm.client (W := W)).
  Notation attempt := (Mcm.attempt time identity call).
  Notation send := (Mcm.send time identity call).
  Notation fetch := (Mcm.fetch time identity).
  Notation accessToken := (Mcm.accessToken time identity).
  Implicit Types c : client.

Lemma request_course t c : exists f, Mcm.log (fst (Mcm.request call t c)) = Mcm.log c ++ [Mcm.Sent t f] /\
  match f with
  | None => exists a, snd (Mcm.request call t c) = inl a
  | Some status => snd (Mcm.request call t c) = inr (Mcm.AxiosError status)
  end.
Proof.
  unfold Mcm.request. destruct (call t (Mcm.world c)) as [w [a|status]]; [exists None|by exists (Some status)].
  split; [done|]. by exists a.
Qed.

Lemma fetch_course c :
  (exists t, snd (fetch c) = inl t /\ Mcm.log (fst (fetch c)) = Mcm.log c ++ [Mcm.Login true] /\ Mcm.token (fst (fetch c)) = Some t) \/
  (exists e, snd (fetch c) = inr e /\ Mcm.log (fst (fetch c)) = Mcm.log c ++ [Mcm.Login false]).
Proof.
  unfold Mcm.fetch. destruct (identity (Mcm.world c)) as [w [g|status]]; [|right; eauto].
  destruct (access_token g) as [[|x t]|]; [right; eauto|left; eauto|right; eauto].
Qed.

(** One attempt: a login unless the token held is kept, and a request unless the login failed. *)
Definition attempted c (l : list Mcm.exchange) (r : A + Mcm.error) : Prop :=
  (exists e, l = [Mcm.Login false] /\ r = inr e) \/
  exists login t failure, l = login ++ [Mcm.Sent t failure] /\
    (login = [] /\ Mcm.token c = Some t /\ time (Mcm.world c) < Mcm.expiresAt c \/ login = [Mcm.Login true]) /\
    match failure with None => exists a, r = inl a | Some status => r = inr (Mcm.AxiosError status) end.

Lemma attempt_course c : exists l, Mcm.log (fst (attempt c)) = Mcm.log c ++ l /\ attempted c l (snd (attempt c)).
Proof.
  assert (Hrequest : forall c' login t, Mcm.log c' = Mcm.log c ++ login ->
    (login = [] /\ Mcm.token c = Some t /\ time (Mcm.world c) < Mcm.expiresAt c \/ login = [Mcm.Login true]) ->
    exists l, Mcm.log (fst (Mcm.request call t c')) = Mcm.log c ++ l /\ attempted c l (snd (Mcm.request call t c'))).
  { intros c' login t Hlog Hlogin. destruct (request_course t c') as (f & Hl & Hf). exists (login ++ [Mcm.Sent t f]).
    split; [by rewrite Hl, Hlog, <- app_assoc|]. right. by exists login, t, f. }
  assert (Hlogin : exists l, Mcm.log (fst (match fetch c with (c, inr e) => (c, inr e) | (c, inl t) => Mcm.request call t c end)) = Mcm.log c ++ l /\
    attempted c l (snd (match fetch c with (c, inr e) => (c, inr e) | (c, inl t) => Mcm.request call t c end))).
  { destruct (fetch_course c) as [(t & Hr & Hl & _)|(e & Hr & Hl)]; destruct (fetch c) as [c' r]; cbn [fst snd] in *; subst r.
    - by apply (Hrequest c' [Mcm.Login true]); [|right].
    - exists [Mcm.Login false]. split; [done|]. left. by exists e. }
  unfold Mcm.attempt, Mcm.accessToken. destruct (Mcm.token c) as [t|] eqn:Et; [destruct (_ <? _) eqn:Elt|]; [|exact Hlogin..].
  apply (Hrequest c []); [by rewrite app_nil_r|]. left. split; [done|]. split; [done|]. by apply Z.ltb_lt.
Qed.

(** What [send] exchanges and answers: one attempt, and after a 401 of either service a second
    one, which logs in; every failure is an [McmException], with the status of the last
    exchange when there was one. *)
Theorem send_course c :
  exists l1 r1, attempted c l1 r1 /\
    match r1 with
    | inl a => Mcm.log (fst (send c)) = Mcm.log c ++ l1 /\ snd (send c) = inl a
    | inr e =>
        if Mcm.isUnauthorized e then
          exists l2 r2, attempted (Mcm.invalidate (fst (attempt c))) l2 r2 /\ (exists ok l, l2 = Mcm.Login ok :: l) /\
            Mcm.log (fst (send c)) = Mcm.log c ++ l1 ++ l2 /\
            snd (send c) = match r2 with inl a => inl a | inr e => inr (Mcm.toException e) end
        else Mcm.log (fst (send c)) = Mcm.log c ++ l1 /\ snd (send c) = inr (Mcm.toException e)
    end.
Proof.
  destruct (attempt_course c) as (l1 & Hl1 & Ha1). exists l1, (snd (attempt c)). split; [done|].
  unfold Mcm.send. destruct (attempt c) as [c1 [a|e]] eqn:E1; cbn [fst snd] in *; [done|].
  destruct (Mcm.isUnauthorized e); [|done].
  destruct (attempt_course (Mcm.invalidate c1)) as (l2 & Hl2 & Ha2). exists l2, (snd (attempt (Mcm.invalidate c1))). split; [done|]. split.
  - destruct Ha2 as [(e2 & -> & _)|(login & t & f & -> & [(_ & Ht & _)| ->] & _)]; [by eexists _, _|done|by eexists _, _].
  - cbn in Hl2. rewrite Hl1, <- app_assoc in Hl2. by destruct (attempt (Mcm.invalidate c1)) as [c2 [a|e2]].
Qed.

(** Where the identity provider grants tokens that MCM accepts, a request is served whatever
    token the client holds, and whether or not MCM refuses it. *)
Theorem refused_token_renewed c (good : jsstr -> Prop) :
  (forall w, exists g x t, snd (identity w) = Granted g /\ access_token g = Some (x :: t) /\ good (x :: t)) ->
  (forall t w, match snd (call t w) with inl _ => True | inr status => ~ good t /\ status = Some 401 end) ->
  exists a, snd (send c) = inl a.
Proof.
  intros Hid Hcall. assert (Hreq : forall t c', good t -> exists a, snd (Mcm.request call t c') = inl a).
  { intros t c' Ht. specialize (Hcall t (Mcm.world c')). unfold Mcm.request. destruct (call t (Mcm.world c')) as [w [a|status]]; [by exists a|].
    by destruct Hcall as [Hn _]. }
  assert (Hfetch : forall c', exists t c'', fetch c' = (c'', inl t) /\ good t).
  { intros c'. unfold Mcm.fetch. destruct (Hid (Mcm.world c')) as (g & x & t & Hg & Ht & Hgood). destruct (identity _) as [w r]. cbn in Hg. subst r.
    rewrite Ht. by eexists _, _. }
  assert (Hnew : forall c', Mcm.token c' = None -> exists a, snd (attempt c') = inl a).
  { intros c' Hnone. unfold Mcm.attempt, Mcm.accessToken. rewrite Hnone. destruct (Hfetch c') as (t & c'' & -> & Ht). by apply Hreq. }
  assert (Hfirst : (exists a, snd (attempt c) = inl a) \/ snd (attempt c) = inr (Mcm.AxiosError (Some 401))).
  { assert (Hany : forall t c', (exists a, snd (Mcm.request call t c') = inl a) \/ snd (Mcm.request call t c') = inr (Mcm.AxiosError (Some 401))).
    { intros t c'. specialize (Hcall t (Mcm.world c')). unfold Mcm.request. destruct (call t (Mcm.world c')) as [w [a|status]]; [left; by exists a|right].
      by destruct Hcall as [_ ->]. }
    unfold Mcm.attempt. destruct (accessToken c) as [c' [t|e]] eqn:E; [apply Hany|]. exfalso. revert E. unfold Mcm.accessToken.
    destruct (Hfetch c) as (t & c'' & -> & _). destruct (Mcm.token c) as [u|]; [destruct (_ <? _)|]; discriminate. }
  unfold Mcm.send. destruct (attempt c) as [c1 r1]. cbn [snd] in Hfirst. destruct Hfirst as [[a ->]| ->]; [by exists a|].
  cbn [Mcm.isUnauthorized]. rewrite Z.eqb_refl. destruct (Hnew (Mcm.invalidate c1) eq_refl) as [a Ha].
  destruct (attempt (Mcm.invalidate c1)) as [c2 r2]. cbn [snd] in Ha. subst r2. by exists a.
Qed.

(** A refusal of the identity provider is taken for one of MCM: an announcement that meets it is
    ended for good, though MCM was never asked. *)
Theorem identity_refusal_permanent c status :
  Mcm.token c = None -> (forall w, snd (identity w) = Refused (Some status)) -> 400 <= status < 500 -> status <> 408 -> status <> 429 ->
  exists e, snd (send c) = inr e /\ isPermanent e = true /\
    (forall t f, Mcm.Sent t f ∈ Mcm.log (fst (send c)) -> Mcm.Sent t f ∈ Mcm.log c).
Proof.
  intros Hnone Hid Hstatus H408 H429.
  assert (Hatt : forall c', Mcm.token c' = None -> exists c'', attempt c' = (c'', inr (Mcm.AxiosError (Some status))) /\ Mcm.log c'' = Mcm.log c' ++ [Mcm.Login false]).
  { intros c' Hn. unfold Mcm.attempt, Mcm.accessToken, Mcm.fetch. rewrite Hn. specialize (Hid (Mcm.world c')). destruct (identity _) as [w r]. cbn in Hid. subst r. by eexists. }
  assert (Hperm : isPermanent (Mcm.toException (Mcm.AxiosError (Some status))) = true).
  { cbn. destruct (status =? 401); cbn; lia. }
  unfold Mcm.send. destruct (Hatt c Hnone) as (c1 & -> & Hl1). destruct (Mcm.isUnauthorized _).
  - destruct (Hatt (Mcm.invalidate c1) eq_refl) as (c2 & -> & Hl2). eexists. split; [done|]. split; [done|]. intros t f. cbn [fst]. rewrite Hl2. cbn. rewrite Hl1.
    by intros [[?|[=]%list_elem_of_singleton]%elem_of_app|[=]%list_elem_of_singleton]%elem_of_app.
  - eexists. split; [done|]. split; [done|]. intros t f. cbn [fst]. rewrite Hl1. by intros [?|[=]%list_elem_of_singleton]%elem_of_app.
Qed.
End mcm.

(** ** Examples *)

Definition granted (t : string) (seconds : Z) : reply := Granted (mkGrant (Some (js t)) (Some seconds)).
(** Three calls, one request; it expires, and two calls wait for the next. *)
Definition busy : list (Z * event) :=
  [(0, Call); (5, Call); (10, Answer 0 (granted "T0" 100)); (20, Call); (70010, Call); (70020, Call); (70050, Answer 1 (granted "T1" 100)); (70060, Call)].

Lemma requests_bounded_witness : Z.of_nat (fetches (run (js "hub") busy)) <= 1 + (70060 - 0) / (500 * 100).
Proof.
  apply (requests_bounded (js "hub") 100 0 busy 70060); [lia|cbn; lia|].
  repeat constructor; cbn; try done; by eexists _, _.
Defined.

Lemma fresh_token_witness :
  exists a f g, (a, Answer f (Granted g)) ∈ busy /\ access_token g = Some (js "T1") /\ a <= 90000 /\
    90000 < a + lifetimeMs g - skewMs g /\ (0 <= lifetimeMs g -> 90000 < a + lifetimeMs g) /\ (60000 <= lifetimeMs g -> 90000 < a + lifetimeMs g - 30000).
Proof. apply (fresh_token (js "hub") 0 busy 90000 (js "T1")); [cbn; lia|vm_compute; reflexivity]. Defined.

(** An identity provider that numbers its tokens, and an MCM that takes numbered tokens only. *)
Definition numbered (w : nat) : nat * reply := (S w, Granted (mkGrant (Some ("T"%char :: dec_print (Z.of_nat w))) (Some 300))).
Definition takes_numbered (t : jsstr) (w : nat) : nat * (nat + option Z) :=
  match t with "T"%char :: _ => (w, inl w) | _ => (w, inr (Some 401)) end.
Definition old_client : Mcm.client (W := nat) := Mcm.mkClient 7%nat (Some (js "old")) 1000 [].

Lemma refused_token_renewed_witness : exists a, snd (Mcm.send Z.of_nat numbered takes_numbered old_client) = inl a.
Proof.
  apply (refused_token_renewed Z.of_nat numbered takes_numbered old_client (fun t => head t = Some "T"%char)).
  - intros w. by eexists _, _, _.
  - intros t w. unfold takes_numbered. destruct t as [|[[] [] [] [] [] [] [] []] t]; cbn; try done; split; congruence.
Defined.

Lemma identity_refusal_permanent_witness :
  exists e, snd (Mcm.send Z.of_nat (fun w => (w, Refused (Some 400))) takes_numbered (Mcm.mkClient 7%nat None 0 [])) = inr e /\ isPermanent e = true /\
    (forall t f, Mcm.Sent t f ∈ Mcm.log (fst (Mcm.send Z.of_nat (fun w => (w, Refused (Some 400))) takes_numbered (Mcm.mkClient 7%nat None 0 []))) ->
       Mcm.Sent t f ∈ Mcm.log (Mcm.mkClient 7%nat None 0 [])).
Proof. apply (identity_refusal_permanent Z.of_nat (fun w => (w, Refused (Some 400))) takes_numbered (Mcm.mkClient 7%nat None 0 []) 400); [done|done|lia|lia|lia]. Defined.
