(* ===== verification/Secrets.v ===== *)
(** * Certificates kept in Secrets of Kubernetes

    core/trust/domain/component: kubernetes-secret-writer.ts, and the jobs that publish with
    it: hub-server-cert.enroller.ts (the server certificate the hub validates),
    hub-ca-sync.scheduler.ts (the CA of the hub) and dfsp-ca-publish.scheduler.ts (the CA the
    gateway verifies participants against). The API server, MCM, Vault, X.509 and the
    generator of keys are arguments. *)

From S2P Require Import Prelude Interleave Outside.
#[local] Open Scope prog_scope.

Inductive failure : Set := Failure.

(** What the API server answers; a request may have no answer. *)
Record Reply : Type := mkReply { status : Z; data : gmap jsstr jsstr }.
Inductive api : Type :=
  | GetSecret (namespace name : jsstr)
  | PatchSecret (namespace name : jsstr) (d : gmap jsstr jsstr)
  | CreateSecret (namespace name : jsstr) (d : gmap jsstr jsstr).

(** [InboundEnrollment]: the id, whether the state is CERT_SIGNED, and the certificate. *)
Record InboundEnrollment : Set := mkInboundEnrollment { ie_id : Z; ie_signed : bool; ie_certificate : option jsstr }.

Class Publisher (W : Type) : Type := {
  api_server : api -> W -> W * option Reply;
  createInboundEnrollment : jsstr -> W -> W * result failure Z;
  signInboundEnrollment : Z -> W -> W * result failure InboundEnrollment;
  getHubCa : W -> W * result failure (option jsstr);
  readPkiCaChain : jsstr -> W -> W * result failure (option jsstr);
  generateCsr : W -> W * (jsstr * jsstr);                       (* privateKeyPem, csrPem *)
  now : W -> Z;
  notAfter : jsstr -> option Z;                                 (* certificateFromPem(...).validity.notAfter *)
  base64 : jsstr -> jsstr;
  utf8_of : jsstr -> jsstr }.                                   (* Buffer.from(value, 'base64').toString('utf8') *)

Section jobs.
  Context {W : Type} {publisher : Publisher W} (own_namespace : jsstr).
  Notation Cmd := (Prog W failure).

Definition outer {A} (f : W -> W * result failure A) : Cmd A := outer_of (fun w => w) (fun w _ => w) f.

(** ** KubernetesSecretWriter *)

(** [validateStatus]: a 404 is an answer, whatever was asked. *)
Definition validateStatus (s : Z) : bool := ((200 <=? s) && (s <? 300)) || (s =? 404).
Definition http (r : api) : Cmd Reply :=
  outer (fun w => match api_server r w with
                  | (w, Some reply) => (w, if validateStatus (status reply) then Ok reply else Err Failure)
                  | (w, None) => (w, Err Failure)
                  end).

Definition resolveNamespace (override : option jsstr) : jsstr :=
  match trim <$> override with None | Some [] => own_namespace | Some n => n end.

Definition putIfChanged (name : jsstr) (values : list (jsstr * jsstr)) (targetNamespace : option jsstr) : Cmd bool :=
  let namespace := resolveNamespace targetNamespace in
  let encoded := (fun e => (fst e, base64 (snd e))) <$> values in
  let* existing := http (GetSecret namespace name) in
  if status existing =? 200 then
    if forallb (fun e => bool_decide (data existing !! fst e = Some (snd e))) encoded then ret false
    else let* _ := http (PatchSecret namespace name (list_to_map encoded)) in ret true
  else let* _ := http (CreateSecret namespace name (list_to_map encoded)) in ret true.

Definition readSecret (name key : jsstr) (targetNamespace : option jsstr) : Cmd (option jsstr) :=
  let* response := http (GetSecret (resolveNamespace targetNamespace) name) in
  ret (if status response =? 404 then None else utf8_of <$> data response !! key).

(** ** HubServerCertEnroller *)

Definition CERT_KEY : jsstr := js "tls.crt".
Definition PRIVATE_KEY : jsstr := js "tls.key".

(** [includes('BEGIN CERTIFICATE')] *)
Fixpoint includes (s p : jsstr) : bool := startsWith s p || match s with _ :: s => includes s p | [] => false end.
Definition is_certificate (s : jsstr) : bool := includes s (js "BEGIN CERTIFICATE").

Definition daysUntilExpiry (certificatePem : option jsstr) (time : Z) : option Z :=
  match certificatePem with
  | Some pem => if is_certificate pem then (fun t => (t - time) / 86400000) <$> notAfter pem else None
  | None => None
  end.

Definition enrol (secretName : jsstr) : Cmd unit :=
  let* (privateKeyPem, csrPem) := outer (fun w => let '(w, k) := generateCsr w in (w, Ok k)) in
  let* submitted := outer (createInboundEnrollment csrPem) in
  let* signed := outer (signInboundEnrollment submitted) in
  match ie_signed signed, ie_certificate signed with
  | true, Some certificate =>
      let* _ := putIfChanged secretName [(CERT_KEY, certificate); (PRIVATE_KEY, privateKeyPem)] None in ret tt
  | _, _ => throw Failure
  end.
Definition enrolIfNeeded (secretName : jsstr) (renewBeforeDays : Z) : Cmd bool :=
  let* existing := readSecret secretName CERT_KEY None in
  let* time := read now in
  match daysUntilExpiry existing time with
  | Some daysLeft => if renewBeforeDays <? daysLeft then ret false else let* _ := enrol secretName in ret true
  | None => let* _ := enrol secretName in ret true
  end.

(** ** HubCaSyncScheduler, DfspCaPublishScheduler *)

Definition new_line : jsstr := [ascii_of_nat 10].
Definition syncHubCa (secretName : jsstr) : Cmd bool :=
  let* root := outer getHubCa in
  match root with
  | Some pem =>
      if is_certificate pem then
        putIfChanged secretName [(js "hub-ca.pem", if endsWith pem new_line then pem else pem ++ new_line)] None
      else throw Failure
  | None => throw Failure
  end.

Definition readBundle (issuingMount rootMount : jsstr) : Cmd (option jsstr) :=
  let* intermediate := outer (readPkiCaChain issuingMount) in
  match intermediate with
  | None => ret None
  | Some intermediate =>
      match rootMount with
      | [] => ret (Some (intermediate ++ new_line))
      | _ =>
          let* root := outer (readPkiCaChain rootMount) in
          ret (Some (match root with
                     | None => intermediate ++ new_line
                     | Some root => intermediate ++ new_line ++ root ++ new_line
                     end))
      end
  end.
Definition syncDfspCa (issuingMount rootMount gatewayNamespace secretName : jsstr) : Cmd bool :=
  let* bundle := readBundle issuingMount rootMount in
  match bundle with
  | None => ret false
  | Some bundle => putIfChanged secretName [(js "cacert", bundle)] (Some gatewayNamespace)
  end.
End jobs.

(** ** Reference definitions *)

Section laws.
  Context {W : Type} {publisher : Publisher W} (own_namespace : jsstr).
  (** The Secrets, the namespaces there are, and which certificate and key belong together. *)
  Context (secret : W -> jsstr -> jsstr -> option (gmap jsstr jsstr)) (exists_namespace : W -> jsstr -> bool) (fits : jsstr -> jsstr -> Prop).

Definition same_secrets (w w' : W) : Prop := (forall n k, secret w' n k = secret w n k) /\ (forall n, exists_namespace w' n = exists_namespace w n).
(** [w'] has what [w] has but for one Secret. *)
Definition wrote (n k : jsstr) (d : gmap jsstr jsstr) (w w' : W) : Prop :=
  (forall n' k', secret w' n' k' = if decide ((n', k') = (n, k)) then Some d else secret w n' k') /\
  (forall n, exists_namespace w' n = exists_namespace w n).

(** The documented answers of the API server: a GET reads; a merge patch adds its keys to a
    Secret that is there; a POST creates one that is not, in a namespace that is. A request
    without an answer, or answered with another status, may have been served or not. *)
Definition api_law (r : api) (w w' : W) (reply : option Reply) : Prop :=
  match r with
  | GetSecret n k =>
      same_secrets w w' /\
      match reply with
      | Some p => if status p =? 404 then secret w n k = None
                  else if validateStatus (status p) then status p = 200 /\ secret w n k = Some (data p) else True
      | None => True
      end
  | PatchSecret n k d =>
      match reply with
      | Some p => if status p =? 404 then secret w n k = None /\ same_secrets w w'
                  else if validateStatus (status p) then exists old, secret w n k = Some old /\ wrote n k (d ∪ old) w w'
                  else same_secrets w w' \/ exists old, secret w n k = Some old /\ wrote n k (d ∪ old) w w'
      | None => same_secrets w w' \/ exists old, secret w n k = Some old /\ wrote n k (d ∪ old) w w'
      end
  | CreateSecret n k d =>
      match reply with
      | Some p => if status p =? 404 then exists_namespace w n = false /\ same_secrets w w'
                  else if validateStatus (status p) then exists_namespace w n = true /\ secret w n k = None /\ wrote n k d w w'
                  else same_secrets w w' \/ exists_namespace w n = true /\ secret w n k = None /\ wrote n k d w w'
      | None => same_secrets w w' \/ exists_namespace w n = true /\ secret w n k = None /\ wrote n k d w w'
      end
  end.

Class PublisherLaws : Prop := {
  api_documented r w : api_law r w (fst (api_server r w)) (snd (api_server r w));
  create_secrets csr w : same_secrets w (fst (createInboundEnrollment csr w));
  sign_secrets id w : same_secrets w (fst (signInboundEnrollment id w));
  hub_secrets w : same_secrets w (fst (getHubCa w));
  chain_secrets mount w : same_secrets w (fst (readPkiCaChain mount w));
  generate_secrets w : same_secrets w (fst (generateCsr w));
  (* a certificate MCM signs for the CSR just generated and submitted fits its key *)
  signed_fits w w1 w2 w3 key csr id e certificate :
    generateCsr w = (w1, (key, csr)) -> createInboundEnrollment csr w1 = (w2, Ok id) -> signInboundEnrollment id w2 = (w3, Ok e) ->
    ie_signed e = true -> ie_certificate e = Some certificate -> fits certificate key;
  base64_utf8 s : utf8_of (base64 s) = s }.
End laws.

(** * Properties *)

Section properties.
  Context {W : Type} {publisher : Publisher W} (own_namespace : jsstr).
  Context (secret : W -> jsstr -> jsstr -> option (gmap jsstr jsstr)) (exists_namespace : W -> jsstr -> bool) (fits : jsstr -> jsstr -> Prop).
  Context {laws : PublisherLaws secret exists_namespace fits}.
  Notation same_secrets := (same_secrets secret exists_namespace).
  Notation wrote := (wrote secret exists_namespace).
  Notation put := (putIfChanged own_namespace).

Definition encode (values : list (jsstr * jsstr)) : list (jsstr * jsstr) := (fun e => (fst e, base64 (snd e))) <$> values.

Lemma run_api {A} r (q : Reply -> Prog W failure A) w :
  (exists p, snd (api_server r w) = Some p /\ validateStatus (status p) = true /\ run (bind (http r) q) w = run (q p) (fst (api_server r w))) \/
  (match snd (api_server r w) with Some p => validateStatus (status p) = false | None => True end /\
   run (bind (http r) q) w = (fst (api_server r w), Err Failure)).
Proof.
  unfold http, outer. rewrite run_outer. destruct (api_server r w) as [w' [p|]]; cbn; [|by right].
  destruct (validateStatus (status p)) eqn:E; [left; by exists p|by right].
Qed.

Ltac at_http p Hp Hv :=
  match goal with |- context [run (bind (http ?r) ?q) ?w] => destruct (run_api r q w) as [(p & Hp & Hv & ->)|[Hv ->]] end.

Lemma same_secrets_refl w : same_secrets w w.
Proof. done. Qed.
Lemma same_trans w w1 w2 : same_secrets w w1 -> same_secrets w1 w2 -> same_secrets w w2.
Proof. intros [H1 H2] [H3 H4]. split; intros; [by rewrite H3, H1|by rewrite H4, H2]. Qed.
Lemma same_wrote n k d w w1 w2 : same_secrets w w1 -> wrote n k d w1 w2 -> wrote n k d w w2.
Proof. intros [H1 H2] [H3 H4]. split; intros; [rewrite H3; by case_decide|by rewrite H4, H2]. Qed.

(** What a write to a Secret leaves: nothing, or the whole of the values over what was there. *)
Definition put_effect (n name : jsstr) (values : list (jsstr * jsstr)) (w w' : W) : Prop :=
  same_secrets w w' \/ wrote n name (list_to_map (encode values) ∪ default ∅ (secret w n name)) w w'.

Lemma put_course name values target w :
  let n := resolveNamespace own_namespace target in
  put_effect n name values w (fst (run (put name values target) w)) /\
  match snd (run (put name values target) w) with
  | Ok false => same_secrets w (fst (run (put name values target) w)) /\
      exists d, secret w n name = Some d /\ forall e, e ∈ encode values -> d !! fst e = Some (snd e)
  | Ok true => wrote n name (list_to_map (encode values) ∪ default ∅ (secret w n name)) w (fst (run (put name values target) w)) \/
      exists_namespace w n = false /\ secret w n name = None /\ same_secrets w (fst (run (put name values target) w))
  | Err _ => True
  end.
Proof.
  cbv zeta. set (n := resolveNamespace own_namespace target). unfold putIfChanged. fold n. fold (encode values).
  pose proof (api_documented _ _ _ (GetSecret n name) w) as [Hs Hget].
  at_http p Hp Hv; [|split; [by left|done]].
  rewrite Hp in Hget. set (w1 := fst (api_server (GetSecret n name) w)) in *.
  assert (Hread : if status p =? 200 then secret w n name = Some (data p) else secret w n name = None).
  { destruct (status p =? 404) eqn:E4; [apply Z.eqb_eq in E4; by rewrite E4|]. rewrite Hv in Hget. destruct Hget as [-> Hd]. exact Hd. }
  destruct (status p =? 200) eqn:E.
  - destruct (forallb _ _) eqn:Eall.
    + cbn [run ret fst snd]. split; [by left|]. split; [done|]. exists (data p). split; [done|]. intros e He.
      rewrite forallb_forall in Eall. specialize (Eall e ltac:(by apply list_elem_of_In)). by apply bool_decide_eq_true in Eall.
    + pose proof (api_documented _ _ _ (PatchSecret n name (list_to_map (encode values))) w1) as Hpatch. cbn [api_law] in Hpatch.
      assert (Hold : forall w2 old, secret w1 n name = Some old -> wrote n name (list_to_map (encode values) ∪ old) w1 w2 ->
        wrote n name (list_to_map (encode values) ∪ default ∅ (secret w n name)) w w2).
      { intros w2 old Ho Hw. eapply same_wrote; [exact Hs|]. rewrite (proj1 Hs) in Ho. by rewrite Ho. }
      at_http p2 Hp2 Hv2; rewrite ?Hp2 in Hpatch; cbn [run ret fst snd].
      * destruct (status p2 =? 404) eqn:E4; [destruct Hpatch as [Hn _]; rewrite (proj1 Hs), Hread in Hn; done|]. rewrite Hv2 in Hpatch.
        destruct Hpatch as (old & Ho & Hw). pose proof (Hold _ _ Ho Hw). split; [by right|by left].
      * split; [|done]. destruct (snd (api_server _ w1)) as [p2|].
        -- destruct (status p2 =? 404) eqn:E4; [destruct Hpatch as [Hn _]; rewrite (proj1 Hs), Hread in Hn; done|]. rewrite Hv2 in Hpatch.
           destruct Hpatch as [Hp2|(old & Ho & Hw)]; [left; by eapply same_trans|right; by eapply Hold].
        -- destruct Hpatch as [Hp2|(old & Ho & Hw)]; [left; by eapply same_trans|right; by eapply Hold].
  - pose proof (api_documented _ _ _ (CreateSecret n name (list_to_map (encode values))) w1) as Hpost. cbn [api_law] in Hpost.
    assert (Hnew : forall w2, wrote n name (list_to_map (encode values)) w1 w2 ->
      wrote n name (list_to_map (encode values) ∪ default ∅ (secret w n name)) w w2).
    { intros w2 Hw. eapply same_wrote; [exact Hs|]. rewrite Hread. cbn. by rewrite (right_id_L ∅ (∪)). }
    at_http p2 Hp2 Hv2; rewrite ?Hp2 in Hpost; cbn [run ret fst snd].
    + destruct (status p2 =? 404) eqn:E4.
      * destruct Hpost as [Hno Hsame]. split; [left; by eapply same_trans|]. right. rewrite (proj2 Hs) in Hno. split; [done|]. split; [done|by eapply same_trans].
      * rewrite Hv2 in Hpost. destruct Hpost as (_ & _ & Hw). pose proof (Hnew _ Hw). split; [by right|by left].
    + split; [|done]. destruct (snd (api_server _ w1)) as [p2|].
      * destruct (status p2 =? 404) eqn:E4; [left; eapply same_trans; [done|apply Hpost]|]. rewrite Hv2 in Hpost.
        destruct Hpost as [Hsame|(_ & _ & Hw)]; [left; by eapply same_trans|right; by apply Hnew].
      * destruct Hpost as [Hsame|(_ & _ & Hw)]; [left; by eapply same_trans|right; by apply Hnew].
Qed.

Lemma encoded_lookup values k v : NoDup (fst <$> values) -> (k, v) ∈ values -> (list_to_map (encode values) : gmap jsstr jsstr) !! k = Some (base64 v).
Proof.
  intros Hnd Hin. apply elem_of_list_to_map_1.
  - unfold encode. rewrite <- list_fmap_compose. exact Hnd.
  - unfold encode. apply list_elem_of_fmap. by exists (k, v).
Qed.
Lemma encoded_absent values k : k ∉ fst <$> values -> (list_to_map (encode values) : gmap jsstr jsstr) !! k = None.
Proof. intros Hk. apply not_elem_of_list_to_map_1. unfold encode. by rewrite <- list_fmap_compose. Qed.

(** Where the namespace is there, a write that returns has left every value in the Secret and its
    other keys as they were; it was skipped only where they were all there. Whatever fails, the
    Secret is as it was or has all the values, and no other Secret is touched. *)
Theorem put_written name values target w :
  let n := resolveNamespace own_namespace target in let w' := fst (run (put name values target) w) in
  exists_namespace w n = true -> NoDup (fst <$> values) ->
  (same_secrets w w' \/ forall k, k ∉ fst <$> values -> secret w' n name ≫= (.!! k) = secret w n name ≫= (.!! k)) /\
  (forall n' k', (n', k') <> (n, name) -> secret w' n' k' = secret w n' k') /\
  (same_secrets w w' \/ forall k v, (k, v) ∈ values -> secret w' n name ≫= (.!! k) = Some (base64 v)) /\
  match snd (run (put name values target) w) with
  | Ok written => (written = false -> same_secrets w w') /\ forall k v, (k, v) ∈ values -> secret w' n name ≫= (.!! k) = Some (base64 v)
  | Err _ => True
  end.
Proof.
  cbv zeta. intros Hns Hnd. destruct (put_course name values target w) as [Heff Hres]. set (n := resolveNamespace own_namespace target) in *.
  set (w' := fst (run _ w)) in *. set (d := list_to_map (encode values) ∪ default ∅ (secret w n name)) in *.
  assert (Hin : forall k v, (k, v) ∈ values -> d !! k = Some (base64 v)).
  { intros k v Hkv. unfold d. apply lookup_union_Some_l. by apply encoded_lookup. }
  assert (Hout : forall k, k ∉ fst <$> values -> d !! k = secret w n name ≫= (.!! k)).
  { intros k Hk. unfold d. rewrite lookup_union_r by (by apply encoded_absent). destruct (secret w n name); [done|apply lookup_empty]. }
  assert (Hwrote : wrote n name d w w' -> secret w' n name = Some d) by (intros [Hw _]; rewrite Hw; by rewrite decide_True).
  split; [|split; [|split]].
  - destruct Heff as [Hs|Hw]; [by left|right]. intros k Hk. rewrite (Hwrote Hw). cbn. by apply Hout.
  - intros n' k' Hne. destruct Heff as [Hs|Hw]; [by apply Hs|]. rewrite (proj1 Hw). by rewrite decide_False.
  - destruct Heff as [Hs|Hw]; [by left|right]. intros k v Hkv. rewrite (Hwrote Hw). by apply Hin.
  - destruct (snd (run _ w)) as [[]|]; [|destruct Hres as (Hs & old & Ho & Hall)|done].
    + destruct Hres as [Hw|(Hno & _)]; [|congruence]. split; [done|]. intros k v Hkv. rewrite (Hwrote Hw). by apply Hin.
    + split; [done|]. intros k v Hkv. rewrite (proj1 Hs), Ho. cbn. apply (Hall (k, base64 v)). apply list_elem_of_fmap. by exists (k, v).
Qed.

(** In a namespace that is not there, the 404 of the POST is taken for success: a write that
    wrote nothing is reported done, at every tick. *)
Theorem missing_namespace name values target w :
  let n := resolveNamespace own_namespace target in
  (forall r w', same_secrets w w' -> r = GetSecret n name \/ (exists d, r = CreateSecret n name d) ->
     exists p, snd (api_server r w') = Some p /\ validateStatus (status p) = true) ->
  exists_namespace w n = false -> secret w n name = None ->
  snd (run (put name values target) w) = Ok true /\ same_secrets w (fst (run (put name values target) w)).
Proof.
  cbv zeta. set (n := resolveNamespace own_namespace target). intros Hanswers Hno Hnone. unfold putIfChanged. fold n. fold (encode values).
  pose proof (api_documented _ _ _ (GetSecret n name) w) as [Hs Hget].
  at_http p Hp Hv; [|destruct (Hanswers (GetSecret n name) w ltac:(done) ltac:(by left)) as (p & Hp & Hv'); rewrite Hp in Hv; congruence].
  rewrite Hp in Hget. assert (Hp4 : status p = 404).
  { destruct (status p =? 404) eqn:E4; [by apply Z.eqb_eq|]. rewrite Hv in Hget. destruct Hget. congruence. }
  assert (H200 : (status p =? 200) = false) by (by rewrite Hp4). rewrite H200. set (w1 := fst (api_server _ w)) in *.
  pose proof (api_documented _ _ _ (CreateSecret n name (list_to_map (encode values))) w1) as Hpost. cbn [api_law] in Hpost.
  at_http p2 Hp2 Hv2; [|destruct (Hanswers (CreateSecret n name (list_to_map (encode values))) w1 Hs ltac:(right; by eexists)) as (p2 & Hp2 & Hv'); rewrite Hp2 in Hv2; congruence].
  rewrite Hp2 in Hpost. destruct (status p2 =? 404).
  - destruct Hpost as [_ Hsame]. split; [done|]. by eapply same_trans.
  - rewrite Hv2 in Hpost. destruct Hpost as [Hyes _]. rewrite (proj2 Hs) in Hyes. congruence.
Qed.

(** ** The server certificate *)

(** The certificate and the key of a Secret belong together. *)
Definition pair_fits (secretName : jsstr) (w : W) : Prop :=
  forall d c k, secret w own_namespace secretName = Some d ->
    d !! CERT_KEY = Some (base64 c) -> d !! PRIVATE_KEY = Some (base64 k) -> fits c k.

Lemma pair_same secretName w w' : same_secrets w w' -> pair_fits secretName w -> pair_fits secretName w'.
Proof. intros [Hs _] Hw d c k Hd. rewrite Hs in Hd. by apply Hw. Qed.
Lemma base64_inj s t : base64 s = base64 t -> s = t.
Proof. intros H. apply (f_equal utf8_of) in H. by rewrite !(base64_utf8 _ _ _) in H. Qed.

Lemma pair_wrote secretName certificate key w w' : fits certificate key ->
  wrote own_namespace secretName (list_to_map (encode [(CERT_KEY, certificate); (PRIVATE_KEY, key)]) ∪ default ∅ (secret w own_namespace secretName)) w w' ->
  pair_fits secretName w'.
Proof.
  intros Hf [Hw _] d c k Hd Hc Hk. rewrite Hw, decide_True in Hd by done. injection Hd as <-.
  assert (Hnd : NoDup (fst <$> [(CERT_KEY, certificate); (PRIVATE_KEY, key)])) by (apply (bool_decide_unpack _); vm_compute; exact I).
  assert (H1 : (list_to_map (encode [(CERT_KEY, certificate); (PRIVATE_KEY, key)]) : gmap jsstr jsstr) !! CERT_KEY = Some (base64 certificate))
    by (apply encoded_lookup; [exact Hnd|left]).
  assert (H2 : (list_to_map (encode [(CERT_KEY, certificate); (PRIVATE_KEY, key)]) : gmap jsstr jsstr) !! PRIVATE_KEY = Some (base64 key))
    by (apply encoded_lookup; [exact Hnd|right; left]).
  rewrite (lookup_union_Some_l _ _ _ _ H1) in Hc. rewrite (lookup_union_Some_l _ _ _ _ H2) in Hk.
  apply (inj Some), base64_inj in Hc as <-. apply (inj Some), base64_inj in Hk as <-. done.
Qed.

Lemma always_outer {A} (I : W -> Prop) (f : W -> W * result failure A) w : I w -> I (fst (f w)) -> always I (outer f) w.
Proof. intros H1 H2. apply always_call; [done|]. by apply always_done. Qed.
Lemma always_http (I : W -> Prop) r w : I w -> I (fst (api_server r w)) -> always I (http r) w.
Proof. intros H1 H2. apply always_outer; [done|]. destruct (api_server r w) as [w' [p|]]; exact H2. Qed.
Lemma fst_run_api r (b : bool) w : fst (run (let* _ := http r in ret b) w) = fst (api_server r w).
Proof. destruct (run_api r (fun _ => ret b) w) as [(p & _ & _ & ->)|[_ ->]]; done. Qed.
Lemma run_api_fst r w : fst (run (http r) w) = fst (api_server r w).
Proof. unfold http, outer, outer_of. cbn. by destruct (api_server r w) as [w' [p|]]. Qed.

Lemma put_always name values target w :
  always (put_effect (resolveNamespace own_namespace target) name values w) (put name values target) w.
Proof.
  pose proof (put_course name values target w) as [Heff _]. cbv zeta in Heff. revert Heff. set (n := resolveNamespace own_namespace target).
  unfold putIfChanged. fold n. fold (encode values). intros Heff.
  assert (Hs : same_secrets w (fst (api_server (GetSecret n name) w))) by apply (api_documented _ _ _ (GetSecret n name) w).
  apply always_bind; [apply always_http; [by left|by left]|]. rewrite run_api_fst. intros p Hp.
  rewrite run_bind in Heff. pose proof (run_api_fst (GetSecret n name) w) as Hfst. destruct (run (http (GetSecret n name)) w) as [w0 r0].
  cbn [fst snd] in *. subst r0 w0. revert Heff. set (w1 := fst (api_server _ w)).
  assert (Hw1 : put_effect n name values w w1) by (by left).
  assert (Hlast : forall r, put_effect n name values w (fst (run (let* _ := http r in ret true) w1)) ->
    always (put_effect n name values w) (let* _ := http r in ret true) w1).
  { intros r Hr. rewrite fst_run_api in Hr. apply always_bind; [by apply always_http|]. intros q _. rewrite run_api_fst. by apply always_done. }
  destruct (status p =? 200); [destruct (forallb _ _)|]; intros Heff; [by apply always_done|by apply Hlast..].
Qed.

Lemma enrol_always secretName w w1 :
  same_secrets w w1 -> pair_fits secretName w -> always (pair_fits secretName) (enrol own_namespace secretName) w1.
Proof.
  intros Hs Hfit. assert (H1 : pair_fits secretName w1) by (by eapply pair_same). unfold enrol.
  apply always_bind; [apply always_outer; [done|]; destruct (generateCsr w1) as [w2 k] eqn:E; pose proof (generate_secrets _ _ _ w1) as Hg; rewrite E in Hg; by eapply pair_same|].
  cbn [run outer outer_of fst snd]. destruct (generateCsr w1) as [w2 [key csr]] eqn:Eg. cbn [fst snd]. intros [key' csr'] [= <- <-].
  pose proof (generate_secrets _ _ _ w1) as Hg. rewrite Eg in Hg. cbn [fst] in Hg. assert (H2 : pair_fits secretName w2) by (by eapply pair_same).
  pose proof (create_secrets _ _ _ csr w2) as Hc. destruct (createInboundEnrollment csr w2) as [w3 id] eqn:Ec. cbn [fst] in Hc.
  assert (H3 : pair_fits secretName w3) by (by eapply pair_same).
  apply always_bind; [apply always_outer; [done|by rewrite Ec]|]. cbn [run outer outer_of fst snd]. rewrite Ec. cbn [fst snd]. intros i ->.
  pose proof (sign_secrets _ _ _ i w3) as Hi. destruct (signInboundEnrollment i w3) as [w4 e] eqn:Ei. cbn [fst] in Hi.
  assert (H4 : pair_fits secretName w4) by (by eapply pair_same).
  apply always_bind; [apply always_outer; [done|by rewrite Ei]|]. cbn [run outer outer_of fst snd]. rewrite Ei. cbn [fst snd]. intros signed ->.
  destruct (ie_signed signed) eqn:Es; [|by apply always_done]. destruct (ie_certificate signed) as [certificate|] eqn:Ecert; [|by apply always_done].
  assert (Hfits : fits certificate key) by (exact (signed_fits _ _ _ w1 w2 w3 w4 key csr i signed certificate Eg Ec Ei Es Ecert)).
  assert (Heff : forall w5, put_effect own_namespace secretName [(CERT_KEY, certificate); (PRIVATE_KEY, key)] w4 w5 -> pair_fits secretName w5).
  { intros w5 [Hsame|Hw]; [by eapply pair_same|by eapply pair_wrote]. }
  pose proof (put_always secretName [(CERT_KEY, certificate); (PRIVATE_KEY, key)] None w4) as Hput.
  apply always_bind; [by eapply always_weaken; [exact Heff|exact Hput]|]. intros b Hb. apply always_done, Heff.
  exact (proj1 (put_course secretName [(CERT_KEY, certificate); (PRIVATE_KEY, key)] None w4)).
Qed.

(** C35. Whatever calls of an enrolment fail, are served without an answer, or are the last before a
    crash, the certificate and the key of the Secret belong together. *)
Theorem server_pair_fits secretName renewBeforeDays w :
  pair_fits secretName w -> always (pair_fits secretName) (enrolIfNeeded own_namespace secretName renewBeforeDays) w.
Proof.
  intros Hfit. unfold enrolIfNeeded, readSecret. cbn [resolveNamespace fmap option_fmap option_map].
  pose proof (api_documented _ _ _ (GetSecret own_namespace secretName) w) as [Hs _]. set (w1 := fst (api_server _ w)) in *.
  assert (H1 : pair_fits secretName w1) by (by eapply pair_same).
  assert (Hread : fst (run (let* response := http (GetSecret own_namespace secretName) in
    ret (if status response =? 404 then None else utf8_of <$> data response !! CERT_KEY)) w) = w1).
  { destruct (run_api (GetSecret own_namespace secretName) (fun response => ret (if status response =? 404 then None else utf8_of <$> data response !! CERT_KEY)) w)
      as [(p & _ & _ & ->)|[_ ->]]; done. }
  apply always_bind; [apply always_bind; [by apply always_http|]; intros p _; rewrite run_api_fst; by apply always_done|].
  rewrite Hread. intros existing _. apply always_bind; [apply always_call; [done|by apply always_done]|]. intros time _. cbn [run read fst].
  assert (Henrol : always (pair_fits secretName) (let* _ := enrol own_namespace secretName in ret true) w1).
  { pose proof (enrol_always secretName w w1 Hs Hfit) as He. apply always_bind; [done|]. intros u _. apply always_done.
    by apply always_run. }
  destruct (daysUntilExpiry existing time) as [daysLeft|]; [destruct (renewBeforeDays <? daysLeft)|]; [by apply always_done|exact Henrol..].
Qed.

Lemma run_outer_bind {A B} (f : W -> W * result failure A) (q : A -> Prog W failure B) w :
  run (bind (outer f) q) w = match f w with (w', Ok a) => run (q a) w' | (w', Err e) => (w', Err e) end.
Proof. unfold outer. rewrite run_outer. by destruct (f w) as [w' [a|e]]. Qed.

(** An enrolment that returns has put a certificate of MCM and its key in the Secret. *)
Theorem enrolled_pair secretName w :
  exists_namespace w own_namespace = true -> snd (run (enrol own_namespace secretName) w) = Ok tt ->
  exists certificate key, fits certificate key /\
    secret (fst (run (enrol own_namespace secretName) w)) own_namespace secretName ≫= (.!! CERT_KEY) = Some (base64 certificate) /\
    secret (fst (run (enrol own_namespace secretName) w)) own_namespace secretName ≫= (.!! PRIVATE_KEY) = Some (base64 key).
Proof.
  intros Hns. unfold enrol. rewrite run_outer_bind. pose proof (generate_secrets _ _ _ w) as Hg.
  destruct (generateCsr w) as [w1 [key csr]] eqn:Eg. cbn [fst] in Hg. rewrite run_outer_bind. pose proof (create_secrets _ _ _ csr w1) as Hc.
  destruct (createInboundEnrollment csr w1) as [w2 [id|e]] eqn:Ec; [|done]. cbn [fst] in Hc. rewrite run_outer_bind. pose proof (sign_secrets _ _ _ id w2) as Hi.
  destruct (signInboundEnrollment id w2) as [w3 [signed|e]] eqn:Ei; [|done]. cbn [fst] in Hi.
  destruct (ie_signed signed) eqn:Es; [|done]. destruct (ie_certificate signed) as [certificate|] eqn:Ecert; [|done].
  assert (Hfits : fits certificate key) by (exact (signed_fits _ _ _ w w1 w2 w3 key csr id signed certificate Eg Ec Ei Es Ecert)).
  rewrite run_bind. set (values := [(CERT_KEY, certificate); (PRIVATE_KEY, key)]).
  pose proof (put_written secretName values None w3) as Hput. cbv zeta in Hput. cbn [resolveNamespace fmap option_fmap option_map] in Hput.
  destruct Hput as (_ & _ & _ & Hput).
  { by rewrite (proj2 Hi), (proj2 Hc), (proj2 Hg). }
  { apply (bool_decide_unpack _). vm_compute. exact I. }
  destruct (run (put secretName values None) w3) as [w4 [b|e]]; [|done]. cbn [fst snd run ret] in *. intros _.
  destruct Hput as [_ Hput]. exists certificate, key. split; [done|]. split; apply Hput; [left|right; left].
Qed.

(** A published bundle is the chain Vault gave, intermediate first; without one the anchor of the
    gateway stays as it is. *)
Theorem dfsp_bundle_published issuingMount rootMount gatewayNamespace secretName w :
  let n := resolveNamespace own_namespace (Some gatewayNamespace) in
  let '(w1, chain) := readPkiCaChain issuingMount w in
  let w' := fst (run (syncDfspCa own_namespace issuingMount rootMount gatewayNamespace secretName) w) in
  exists_namespace w n = true ->
  match snd (run (syncDfspCa own_namespace issuingMount rootMount gatewayNamespace secretName) w), chain with
  | Ok written, Ok (Some intermediate) =>
      exists rest, secret w' n secretName ≫= (.!! js "cacert") = Some (base64 (intermediate ++ new_line ++ rest)) /\
        (rest = [] \/ exists root, snd (readPkiCaChain rootMount w1) = Ok (Some root) /\ rest = root ++ new_line)
  | Ok written, _ => written = false /\ same_secrets w w'
  | Err _, _ => True
  end.
Proof.
  cbv zeta. pose proof (chain_secrets _ _ _ issuingMount w) as H1. destruct (readPkiCaChain issuingMount w) as [w1 chain] eqn:E. cbn [fst] in H1. intros Hns.
  unfold syncDfspCa, readBundle. rewrite run_bind, run_outer_bind, E. destruct chain as [[intermediate|]|e]; [|done|done].
  assert (Hput : forall w2 rest, same_secrets w w2 ->
    match snd (run (put secretName [(js "cacert", intermediate ++ new_line ++ rest)] (Some gatewayNamespace)) w2) with
    | Ok _ => secret (fst (run (put secretName [(js "cacert", intermediate ++ new_line ++ rest)] (Some gatewayNamespace)) w2))
        (resolveNamespace own_namespace (Some gatewayNamespace)) secretName ≫= (.!! js "cacert") = Some (base64 (intermediate ++ new_line ++ rest))
    | Err _ => True
    end).
  { intros w2 rest Hs. pose proof (put_written secretName [(js "cacert", intermediate ++ new_line ++ rest)] (Some gatewayNamespace) w2) as Hp. cbv zeta in Hp.
    destruct Hp as (_ & _ & _ & Hp); [by rewrite (proj2 Hs)|apply NoDup_singleton|].
    destruct (snd _); [|done]. destruct Hp as [_ Hp]. apply Hp. by left. }
  destruct rootMount as [|c rootMount].
  - cbn [run ret]. specialize (Hput w1 [] H1). rewrite app_nil_r in Hput. destruct (snd _) as [b|]; [|done]. exists []. rewrite app_nil_r. split; [exact Hput|by left].
  - set (mount := c :: rootMount). rewrite run_outer_bind. pose proof (chain_secrets _ _ _ mount w1) as H2.
    destruct (readPkiCaChain mount w1) as [w2 [[root|]|e]] eqn:E2; cbn [fst] in H2; [| |done]; cbn [run ret]; pose proof (same_trans _ _ _ H1 H2) as H3.
    + specialize (Hput w2 (root ++ new_line) H3). destruct (snd _) as [b|]; [|done]. exists (root ++ new_line). split; [exact Hput|right; by exists root].
    + specialize (Hput w2 [] H3). rewrite app_nil_r in Hput. destruct (snd _) as [b|]; [|done]. exists []. rewrite app_nil_r. split; [exact Hput|by left].
Qed.
End properties.

(** ** Examples *)

(** A cluster with its Secrets and namespaces, and an MCM that signs what is submitted. *)
Record Box : Type := mkBox { secrets : gmap (jsstr * jsstr) (gmap jsstr jsstr); spaces : list jsstr; serial : nat; submitted : gmap Z jsstr }.
Definition with_secrets (m : gmap (jsstr * jsstr) (gmap jsstr jsstr)) (w : Box) : Box := mkBox m (spaces w) (serial w) (submitted w).
Definition box_api (r : api) (w : Box) : Box * option Reply :=
  match r with
  | GetSecret n k => (w, Some match secrets w !! (n, k) with Some d => mkReply 200 d | None => mkReply 404 ∅ end)
  | PatchSecret n k d =>
      match secrets w !! (n, k) with
      | Some old => (with_secrets (<[(n, k) := d ∪ old]> (secrets w)) w, Some (mkReply 200 ∅))
      | None => (w, Some (mkReply 404 ∅))
      end
  | CreateSecret n k d =>
      if bool_decide (n ∈ spaces w) then
        match secrets w !! (n, k) with
        | Some old => (w, Some (mkReply 409 ∅))
        | None => (with_secrets (<[(n, k) := d]> (secrets w)) w, Some (mkReply 201 ∅))
        end
      else (w, Some (mkReply 404 ∅))
  end.
#[local] Instance box : Publisher Box := {|
  api_server := box_api;
  createInboundEnrollment csr w := (mkBox (secrets w) (spaces w) (S (serial w)) (<[Z.of_nat (serial w) := csr]> (submitted w)), Ok (Z.of_nat (serial w)));
  signInboundEnrollment id w := (w, Ok (mkInboundEnrollment id true ((fun csr => js "BEGIN CERTIFICATE " ++ csr) <$> submitted w !! id)));
  getHubCa w := (w, Ok None);
  readPkiCaChain mount w := (w, Ok (Some mount));
  generateCsr w := (mkBox (secrets w) (spaces w) (S (serial w)) (submitted w), (dec_print (Z.of_nat (serial w)), dec_print (Z.of_nat (serial w))));
  now w := 0;
  notAfter pem := None;
  base64 s := "b"%char :: s;
  utf8_of s := tail s |}.
Definition box_secret (w : Box) (n k : jsstr) : option (gmap jsstr jsstr) := secrets w !! (n, k).
Definition box_exists (w : Box) (n : jsstr) : bool := bool_decide (n ∈ spaces w).
Definition box_fits (certificate key : jsstr) : Prop := certificate = js "BEGIN CERTIFICATE " ++ key.

Lemma box_wrote w n k d : wrote box_secret box_exists n k d w (with_secrets (<[(n, k) := d]> (secrets w)) w).
Proof.
  split; [|done]. intros n' k'. unfold box_secret. cbn. case_decide as E; [by rewrite E, lookup_insert_eq|by rewrite lookup_insert_ne].
Qed.
Lemma box_laws : PublisherLaws box_secret box_exists box_fits.
Proof.
  split; try done.
  - intros r w. destruct r as [n k|n k d|n k d]; cbn [api_server box box_api api_law].
    + unfold box_secret. destruct (secrets w !! (n, k)) as [d|] eqn:E; cbn; by rewrite ?E.
    + destruct (secrets w !! (n, k)) as [old|] eqn:E; cbn; [|done]. exists old. split; [done|apply box_wrote].
    + unfold box_exists at 1 2 3. case_bool_decide as Hn; [|done]. destruct (secrets w !! (n, k)) as [old|] eqn:E; cbn; [by left|].
      split; [done|]. split; [done|apply box_wrote].
  - intros w w1 w2 w3 key csr id e certificate [= <- <- <-] [= <- <-] [= <- <-] _. cbn. rewrite lookup_insert_eq. cbn. by intros [= <-].
Qed.

Definition opened : Box := mkBox ∅ [js "trust"] 7 ∅.

Lemma server_pair_fits_witness :
  always (pair_fits (js "trust") box_secret box_fits (js "server")) (enrolIfNeeded (js "trust") (js "server") 30) opened.
Proof. apply (server_pair_fits (js "trust") box_secret box_exists box_fits (laws := box_laws)). intros d c k Hd. done. Defined.

Lemma missing_namespace_witness :
  snd (run (putIfChanged (js "trust") (js "ca") [(js "cacert", js "PEM")] (Some (js "gateway"))) opened) = Ok true /\
  same_secrets box_secret box_exists opened (fst (run (putIfChanged (js "trust") (js "ca") [(js "cacert", js "PEM")] (Some (js "gateway"))) opened)).
Proof.
  apply (missing_namespace (js "trust") box_secret box_exists box_fits (laws := box_laws) (js "ca") [(js "cacert", js "PEM")] (Some (js "gateway")) opened); [|reflexivity..].
  intros r w' [Hs Hx] Hr. specialize (Hs (js "gateway") (js "ca")). specialize (Hx (js "gateway")). unfold box_secret, box_exists in *.
  change (resolveNamespace (js "trust") (Some (js "gateway"))) with (js "gateway") in Hr. cbn [opened secrets spaces] in Hs, Hx. rewrite lookup_empty in Hs.
  destruct Hr as [->|[d ->]]; cbn [api_server box box_api]; [rewrite Hs; by eexists|].
  rewrite (bool_decide_eq_false_2 (js "gateway" ∈ [js "trust"])) in Hx by (apply (bool_decide_unpack _); vm_compute; exact I). rewrite Hx. by eexists.
Defined.

Lemma put_written_witness :
  let w' := fst (run (putIfChanged (js "trust") (js "ca") [(js "cacert", js "PEM")] None) opened) in
  forall k v, (k, v) ∈ [(js "cacert", js "PEM")] -> box_secret w' (js "trust") (js "ca") ≫= (.!! k) = Some (base64 v).
Proof.
  pose proof (put_written (js "trust") box_secret box_exists box_fits (laws := box_laws) (js "ca") [(js "cacert", js "PEM")] None opened) as H.
  cbv zeta in H |- *. destruct H as (_ & _ & _ & H); [reflexivity|apply NoDup_singleton|].
  destruct (snd (run (putIfChanged (js "trust") (js "ca") [(js "cacert", js "PEM")] None) opened)) eqn:E; [exact (proj2 H)|].
  exfalso. revert E. vm_compute. discriminate.
Defined.
