(* ===== verification/Enrolment.v ===== *)
(** * The certificate the hub calls back with

    core/trust/domain/component/hub-callback-cert.enroller.ts and redis-flag.ts: the hub's client
    certificate is signed by Pivotal's CA, uploaded to MCM and published by onboarding. MCM,
    Vault, Redis and X.509 are arguments; the lock of a tick is in Rollup. *)

From S2P Require Import Prelude Interleave Outside.
From S2P Require Secrets.
#[local] Open Scope prog_scope.

Inductive failure : Set := Failure.

(** [OutboundEnrollment]; another state is [OtherState]. *)
Inductive OutboundEnrollmentState : Set := CsrLoaded | CertSigned | OtherState.
Record OutboundEnrollment : Set := mkOutboundEnrollment {
  oe_id : Z; oe_state : OutboundEnrollmentState; oe_csr : option jsstr; oe_certificate : option jsstr }.
#[export] Instance OutboundEnrollmentState_eq : EqDecision OutboundEnrollmentState.
Proof. solve_decision. Defined.

Class HubSide (W : Type) : Type := {
  listOutboundEnrollments : W -> W * result failure (list OutboundEnrollment);
  createOutboundCsr : W -> W * result failure OutboundEnrollment;
  uploadOutboundCertificate : Z -> jsstr -> W -> W * result failure OutboundEnrollment;
  onboardDfsp : W -> W * result failure unit;
  getDfspCa : W -> W * result failure (option jsstr);
  signCertificate : jsstr -> W -> W * result failure jsstr;
  redis_exists : W -> W * result failure bool;
  redis_set : W -> W * result failure unit;
  redis_del : W -> W * result failure unit;
  date : W -> Z;
  notAfter : jsstr -> option Z }.

Inductive Outcome : Set := Current | Renewed | Published | WaitingForCa.

(** A process: what is outside, and its copy of the flag. *)
Record Process (W : Type) : Type := mkProcess { outside : W; onboardPending : bool }.
Arguments mkProcess {W}. Arguments outside {W}. Arguments onboardPending {W}.

Section enroller.
  Context {W : Type} {hub : HubSide W} (renewBeforeDays : Z).
  Notation Cmd := (Prog (Process W) failure).

Definition outer {A} (f : W -> W * result failure A) : Cmd A :=
  outer_of outside (fun w s => mkProcess w (onboardPending s)) f.
Definition set_pending (b : bool) : Cmd unit := write (fun s => mkProcess (outside s) b).

(** [RedisFlag]: an error is not thrown, a flag that cannot be read is not set. *)
Definition isSet : Cmd bool := catch (outer redis_exists) (fun _ => ret false).
Definition set : Cmd unit := catch (outer redis_set) (fun _ => ret tt).
Definition clear : Cmd unit := catch (outer redis_del) (fun _ => ret tt).

Definition newest (enrollments : list OutboundEnrollment) (state : OutboundEnrollmentState) : option OutboundEnrollment :=
  fold_left (fun best e =>
    if decide (oe_state e = state) then
      match best with Some b => if oe_id b <? oe_id e then Some e else best | None => Some e end
    else best) enrollments None.

Definition daysUntilExpiry (certificatePem : option jsstr) (time : Z) : option Z :=
  match certificatePem with
  | Some pem => if Secrets.is_certificate pem then (fun t => (t - time) / 86400000) <$> notAfter pem else None
  | None => None
  end.
Definition fresh (daysLeft : option Z) : bool := match daysLeft with Some d => renewBeforeDays <? d | None => false end.

Definition has_csr (e : OutboundEnrollment) : bool := match oe_csr e with Some (_ :: _) => true | _ => false end.
Definition pendingCsr (enrollments : list OutboundEnrollment) (current : option OutboundEnrollment) : Cmd OutboundEnrollment :=
  let later := List.filter (fun e => match current with Some c => oe_id c <? oe_id e | None => true end) enrollments in
  match newest later CsrLoaded with
  | Some waiting => if has_csr waiting then ret waiting
                    else let* created := outer createOutboundCsr in if has_csr created then ret created else throw Failure
  | None => let* created := outer createOutboundCsr in if has_csr created then ret created else throw Failure
  end.

(** [onboard]: an attempt, and as many more as [retries]; the waits between them are not
    modelled. *)
Fixpoint onboard (retries : nat) : Cmd unit :=
  catch (let* _ := outer onboardDfsp in let* _ := set_pending false in clear)
    (fun e => match retries with O => throw e | S retries => onboard retries end).
Definition ONBOARD_RETRIES : nat := 2.

Definition caRegistered : Cmd bool :=
  catch (let* ca := outer getDfspCa in ret (match ca with Some root => Secrets.is_certificate root | None => false end)) (fun _ => ret false).

(** The flag in Redis is read where the process does not remember. *)
Definition recall : Cmd unit :=
  let* remembered := read onboardPending in
  if remembered then ret tt else let* b := isSet in if b then set_pending true else ret tt.

Definition renewIfNeeded : Cmd Outcome :=
  let* enrollments := outer listOutboundEnrollments in
  let current := newest enrollments CertSigned in
  let* time := read (fun s => date (outside s)) in
  let isFresh := fresh (daysUntilExpiry (current ≫= oe_certificate) time) in
  let* _ := recall in
  let* pending := read onboardPending in
  if isFresh && negb pending then ret Current
  else
    let* registered := caRegistered in
    if negb registered then ret WaitingForCa
    else if isFresh then let* _ := onboard ONBOARD_RETRIES in ret Published
    else
      let* csr := pendingCsr enrollments current in
      let* signed := outer (signCertificate (default [] (oe_csr csr))) in
      let* uploaded := outer (uploadOutboundCertificate (oe_id csr) signed) in
      let* _ := throw_when (negb (bool_decide (oe_state uploaded = CertSigned))) Failure in
      let* _ := set_pending true in
      let* _ := set in
      let* _ := onboard ONBOARD_RETRIES in
      ret Renewed.
End enroller.

(** ** Reference definitions *)

Inductive Keeper : Set := InProcess | InRedis.

Section laws.
  Context {W : Type} {hub : HubSide W}.
  (** The newest certificate MCM has, the one the hub presents, the flag in Redis, and whether the
      newest certificate came with an upload that MCM served and did not answer. *)
  Context (held presented : W -> option Z) (flagged unanswered : W -> bool).

Definition untouched (w w' : W) : Prop :=
  held w' = held w /\ presented w' = presented w /\ flagged w' = flagged w /\ unanswered w' = unanswered w.

(** What the services are documented to do. Any call may fail; an upload or an onboarding that
    fails may have been served. *)
Class HubLaws : Prop := {
  list_reads w : untouched w (fst (listOutboundEnrollments w));
  csr_reads w : untouched w (fst (createOutboundCsr w));
  ca_reads w : untouched w (fst (getDfspCa w));
  sign_reads csr w : untouched w (fst (signCertificate csr w));
  exists_reads w : untouched w (fst (redis_exists w));
  exists_answers w b : snd (redis_exists w) = Ok b -> b = flagged w;
  upload_keeps id certificate w : let w' := fst (uploadOutboundCertificate id certificate w) in
    presented w' = presented w /\ flagged w' = flagged w /\
    match snd (uploadOutboundCertificate id certificate w) with
    | Ok e => if decide (oe_state e = CertSigned) then unanswered w' = false else held w' = held w /\ unanswered w' = unanswered w
    | Err _ => held w' = held w /\ unanswered w' = unanswered w \/ unanswered w' = true
    end;
  onboard_publishes w : let w' := fst (onboardDfsp w) in
    held w' = held w /\ flagged w' = flagged w /\ unanswered w' = unanswered w /\
    match snd (onboardDfsp w) with
    | Ok _ => presented w' = held w
    | Err _ => presented w' = presented w \/ presented w' = held w
    end;
  set_keeps w : held (fst (redis_set w)) = held w /\ presented (fst (redis_set w)) = presented w;
  del_keeps w : held (fst (redis_del w)) = held w /\ presented (fst (redis_del w)) = presented w }.

(** A certificate that was uploaded and is not yet presented. *)
Definition owed (w : W) : Prop := presented w <> held w.
Definition published (s : Process W) : Prop := presented (outside s) = held (outside s).

(** Where it is remembered that onboarding is owed: in the process, or in Redis. *)
Definition remembered (k : Keeper) (s : Process W) : Prop :=
  match k with InProcess => onboardPending s = true | InRedis => flagged (outside s) = true end.
Definition owed_remembered (k : Keeper) (s : Process W) : Prop :=
  owed (outside s) -> remembered k s \/ unanswered (outside s) = true.

(** Redis keeps what it is given and answers. *)
Definition redis_works : Prop :=
  (forall w, is_ok (snd (redis_exists w)) = true) /\ (forall w, flagged (fst (redis_set w)) = true).
End laws.

(** ** Always, but for two calls *)

Section soon.
  Context {S E : Type} (I : S -> Prop).
(** From every moment of a program, [I] holds there or at most two calls later. *)
Definition soon {A} (p : Prog S E A) (s : S) : Prop := forall n, exists m, (m <= 2)%nat /\ I (fst (advance (n + m) p s)).

Lemma soon_always {A} (p : Prog S E A) s : always I p s -> soon p s.
Proof. intros H n. exists 0%nat. split; [lia|]. apply H. Qed.
Lemma soon_call {A} f (k : S -> Prog S E A) s :
  (exists m, (m <= 2)%nat /\ I (fst (advance m (Call f k) s))) -> soon (k s) (f s) -> soon (Call f k) s.
Proof. intros Hs H [|n]; [exact Hs|exact (H n)]. Qed.
Lemma soon_bind {A B} (p : Prog S E A) (q : A -> Prog S E B) s :
  always I p s -> (forall a, snd (run p s) = Ok a -> soon (q a) (fst (run p s))) -> soon (bind p q) s.
Proof.
  revert s. induction p as [[a|e]|f k IH]; intros s Hp Hq; cbn [bind]; [by apply Hq|by apply soon_always, always_done; apply always_start in Hp|].
  apply soon_call; [exists 0%nat; split; [lia|by apply always_start in Hp]|]. apply IH; [intros n; exact (Hp (Datatypes.S n))|exact Hq].
Qed.
Lemma soon_run {A} (p : Prog S E A) s : soon p s -> I (fst (run p s)).
Proof.
  revert s. induction p as [r|f k IH]; intros s H.
  - destruct (H 0%nat) as (m & _ & Hm). by destruct m.
  - cbn [run]. apply IH. intros n. exact (H (Datatypes.S n)).
Qed.
End soon.

(** * Properties *)

Section properties.
  Context {W : Type} {hub : HubSide W} (renewBeforeDays : Z).
  Context (held presented : W -> option Z) (flagged unanswered : W -> bool) {laws : HubLaws held presented flagged unanswered}.
  Notation untouched := (untouched held presented flagged unanswered).
  Notation owed := (owed held presented).
  Notation published := (published held presented).
  Notation owed_remembered := (owed_remembered held presented flagged unanswered).
  Notation redis_works := (redis_works flagged).
  Notation Process := (Process W).
  Implicit Types s : Process.

Lemma run_hub_bind {A B} (f : W -> W * result failure A) (q : A -> Prog Process failure B) s :
  run (bind (outer f) q) s =
  match f (outside s) with
  | (w, Ok a) => run (q a) (mkProcess w (onboardPending s))
  | (w, Err e) => (mkProcess w (onboardPending s), Err e)
  end.
Proof. unfold outer. rewrite run_outer. by destruct (f (outside s)) as [w [a|e]]. Qed.
Lemma run_hub_alone {A} (f : W -> W * result failure A) s :
  run (outer f) s = match f (outside s) with (w, r) => (mkProcess w (onboardPending s), r) end.
Proof. unfold outer, outer_of. cbn. by destruct (f (outside s)). Qed.

(** ** Calls *)

Lemma published_remembered k s : published s -> owed_remembered k s.
Proof. intros H Ho. by destruct (Ho H). Qed.

(** A call of MCM, Redis or the authority. *)
Lemma always_hub (I : Process -> Prop) {A} (f : W -> W * result failure A) s :
  I s -> I (mkProcess (fst (f (outside s))) (onboardPending s)) -> always I (outer f) s.
Proof. intros H1 H2. apply always_call; [exact H1|]. destruct (snd (f (outside s))); by apply always_done. Qed.
Lemma keeps_untouched k s w : untouched (outside s) w -> owed_remembered k s -> owed_remembered k (mkProcess w (onboardPending s)).
Proof.
  intros (H1 & H2 & H3 & H4) HJ Ho. unfold Enrolment.owed_remembered, Enrolment.owed, remembered in *. cbn in *.
  rewrite H1, H2 in Ho. specialize (HJ Ho). rewrite H4. destruct k; rewrite ?H3; exact HJ.
Qed.
Lemma always_reads k {A} (f : W -> W * result failure A) s : (forall w, untouched w (fst (f w))) -> owed_remembered k s ->
  always (owed_remembered k) (outer f) s.
Proof. intros Hf HJ. apply always_hub; [done|]. by apply keeps_untouched. Qed.

(** ** Onboarding *)

Lemma onboard_step k s : owed_remembered k s -> owed_remembered k (mkProcess (fst (onboardDfsp (outside s))) (onboardPending s)).
Proof.
  intros HJ Ho. pose proof (onboard_publishes _ _ _ _ (outside s)) as (Hh & Hf & Hu & Hp). unfold Enrolment.owed_remembered, Enrolment.owed, remembered in *. cbn in *.
  rewrite Hh, Hu in *. assert (presented (outside s) <> held (outside s)) as Hs by (destruct (snd (onboardDfsp (outside s))); [done|destruct Hp; congruence]).
  specialize (HJ Hs). destruct k; rewrite ?Hf; exact HJ.
Qed.
(** After the answer of MCM the process and then Redis forget. *)
Lemma onboarded_step s (b : bool) : is_ok (snd (onboardDfsp (outside s))) = true -> published (mkProcess (fst (onboardDfsp (outside s))) b).
Proof.
  pose proof (onboard_publishes _ _ _ _ (outside s)) as (Hh & _ & _ & Hp). unfold Enrolment.published. cbn. destruct (snd (onboardDfsp (outside s))); [congruence|done].
Qed.
Lemma always_clear k s : published s -> always (owed_remembered k) clear s /\ published (fst (run clear s)) /\ snd (run clear s) = Ok tt.
Proof.
  intros Hp. pose proof (del_keeps _ _ _ _ (outside s)) as [H1 H2].
  assert (Hp' : published (mkProcess (fst (redis_del (outside s))) (onboardPending s))) by (unfold Enrolment.published in *; cbn; congruence).
  unfold clear. split; [|rewrite run_catch, run_hub_alone; destruct (redis_del (outside s)) as [w [[]|e]]; done].
  apply always_catch; [apply always_hub; by apply published_remembered|]. intros e _. apply always_done. rewrite run_hub_alone.
  destruct (redis_del (outside s)) as [w r]. cbn in *. by apply published_remembered.
Qed.
Lemma always_onboarded k s b : published s -> let p := let* _ := set_pending b in clear in
  always (owed_remembered k) p s /\ published (fst (run p s)) /\ snd (run p s) = Ok tt.
Proof.
  intros Hp p. subst p. assert (Hp' : published (mkProcess (outside s) b)) by done. destruct (always_clear k _ Hp') as (H1 & H2 & H3).
  unfold set_pending. rewrite run_write. split; [|done]. apply always_bind; [|by intros]. apply always_call; [by apply published_remembered|]. by apply always_done, published_remembered.
Qed.

Lemma onboard_course k n s : owed_remembered k s ->
  always (owed_remembered k) (onboard n) s /\ (is_ok (snd (run (onboard n) s)) = true -> published (fst (run (onboard n) s))).
Proof.
  revert s. induction n as [|n IH]; intros s HJ; cbn [onboard]; rewrite run_catch, run_hub_bind;
    pose proof (onboard_step k s HJ) as Hstep; pose proof (fun b => onboarded_step s b) as Hdone;
    (assert (Hbody : always (owed_remembered k) (let* _ := outer onboardDfsp in let* _ := set_pending false in clear) s);
      [apply always_bind; [by apply always_hub|]; rewrite run_hub_alone; intros u; destruct (onboardDfsp (outside s)) as [w r]; cbn [fst snd] in *; intros ->;
       by apply always_onboarded, Hdone|]);
    destruct (onboardDfsp (outside s)) as [w [[]|e]] eqn:E; cbn [fst snd] in *.
  - specialize (Hdone (onboardPending s) eq_refl). destruct (always_onboarded k _ false Hdone) as (_ & Hp & Hok).
    split; [|by destruct (run _ (mkProcess w _)) as [? []]]. apply always_catch; [exact Hbody|]. intros e. rewrite run_hub_bind, E. by rewrite Hok.
  - split; [|done]. apply always_catch; [exact Hbody|]. rewrite run_hub_bind, E. cbn. intros ? _. by apply always_done.
  - specialize (Hdone (onboardPending s) eq_refl). destruct (always_onboarded k _ false Hdone) as (_ & Hp & Hok).
    split; [|by destruct (run _ (mkProcess w _)) as [? []]]. apply always_catch; [exact Hbody|]. intros e. rewrite run_hub_bind, E. by rewrite Hok.
  - destruct (IH _ Hstep) as [H1 H2]. split; [|exact H2]. apply always_catch; [exact Hbody|]. rewrite run_hub_bind, E. by intros ? _.
Qed.

(** ** The steps before an upload *)

Lemma recall_course k s : (k = InRedis -> redis_works) -> owed_remembered k s ->
  always (owed_remembered k) recall s /\ exists s', run recall s = (s', Ok tt) /\ owed_remembered k s' /\ owed_remembered InProcess s'.
Proof.
  intros Hw HJ. assert (Hx := exists_reads held presented flagged unanswered (outside s)). pose proof (exists_answers held presented flagged unanswered (outside s)) as Ha.
  set (s1 := mkProcess (fst (redis_exists (outside s))) (onboardPending s)). assert (HJ1 : owed_remembered k s1) by (by apply keeps_untouched).
  assert (Hset : owed_remembered k (mkProcess (outside s1) true)).
  { intros Ho. destruct (HJ1 Ho) as [H|H]; [|by right]. left. by destruct k. }
  assert (His : always (owed_remembered k) isSet s /\ exists b, run isSet s = (s1, Ok b) /\ (b = false -> k = InRedis -> flagged (outside s1) = false)).
  { unfold isSet. split.
    - apply always_catch; [by apply always_hub|]. intros e _. rewrite run_hub_alone. subst s1. destruct (redis_exists (outside s)). by apply always_done.
    - rewrite run_catch, run_hub_alone. subst s1. destruct (redis_exists (outside s)) as [w [b|e]] eqn:E; cbn in *.
      + exists b. split; [done|]. intros -> _. destruct Hx as (_ & _ & -> & _). by rewrite (Ha false eq_refl).
      + exists false. split; [done|]. intros _ ->. destruct (Hw eq_refl) as [H _]. specialize (H (outside s)). by rewrite E in H. }
  destruct His as (Halways & b & Hrun & Hb). unfold recall. split.
  - apply always_bind; [apply always_call; [done|by apply always_done]|]. intros p Hp. change (fst (run (read onboardPending) s)) with s. cbn in Hp. injection Hp as <-.
    destruct (onboardPending s) eqn:Ep; [by apply always_done|]. apply always_bind; [exact Halways|]. rewrite Hrun. intros b' _. cbn [fst].
    destruct b'; [|by apply always_done]. apply always_call; [exact HJ1|]. by apply always_done.
  - rewrite run_read. destruct (onboardPending s) eqn:Ep; [exists s; split; [done|]; split; [done|by left]|].
    rewrite run_bind, Hrun. destruct b; cbn; eexists; (split; [done|]); (split; [done|]).
    + by left.
    + intros Ho. destruct (HJ1 Ho) as [H|H]; [|by right]. left. destruct k; [exact H|]. change (flagged (outside s1) = true) in H. by rewrite (Hb eq_refl eq_refl) in H.
Qed.

Lemma caRegistered_course k s : owed_remembered k s ->
  always (owed_remembered k) caRegistered s /\ exists b s', run caRegistered s = (s', Ok b) /\ owed_remembered k s' /\ onboardPending s' = onboardPending s.
Proof.
  intros HJ. pose proof (keeps_untouched k s _ (ca_reads held presented flagged unanswered (outside s)) HJ) as HJ1. unfold caRegistered. split.
  - apply always_catch; [apply always_bind; [by apply always_hub|]; intros a _; rewrite run_hub_alone; destruct (getDfspCa (outside s)); by apply always_done|].
    intros e _. rewrite run_hub_bind. destruct (getDfspCa (outside s)) as [w [ca|e']]; by apply always_done.
  - rewrite run_catch, run_hub_bind. destruct (getDfspCa (outside s)) as [w [ca|e']]; by eexists _, _.
Qed.
Lemma pendingCsr_course k l current s : owed_remembered k s ->
  always (owed_remembered k) (pendingCsr l current) s /\ owed_remembered k (fst (run (pendingCsr l current) s)).
Proof.
  intros HJ. cut (always (owed_remembered k) (pendingCsr l current) s); [intros H; split; [done|by apply always_run]|].
  assert (Hnew : always (owed_remembered k) (let* created := outer createOutboundCsr in if has_csr created then ret created else throw Failure) s).
  { apply always_bind; [apply always_reads; [exact (csr_reads _ _ _ _)|done]|].
    intros e _. rewrite run_hub_alone.
    pose proof (keeps_untouched k s _ (csr_reads held presented flagged unanswered (outside s)) HJ) as HJ1. destruct (createOutboundCsr (outside s)).
    destruct (has_csr e); by apply always_done. }
  unfold pendingCsr. destruct (newest _ CsrLoaded) as [waiting|]; [|done]. destruct (has_csr waiting); [|done]. by apply always_done.
Qed.

(** ** The upload *)

Definition upload_and_onboard (id : Z) (certificate : jsstr) : Prog Process failure Outcome :=
  let* uploaded := outer (uploadOutboundCertificate id certificate) in
  let* _ := throw_when (negb (bool_decide (oe_state uploaded = CertSigned))) Failure in
  let* _ := set_pending true in
  let* _ := set in
  let* _ := onboard ONBOARD_RETRIES in
  ret Renewed.

(** What the run of a tick has to say of its result. *)
Definition truthful (c : Process * result failure Outcome) : Prop :=
  match snd c with
  | Ok Current => published (fst c) \/ unanswered (outside (fst c)) = true
  | Ok Published | Ok Renewed => published (fst c)
  | Ok WaitingForCa | Err _ => True
  end.

Lemma onboard_truthful k n (o : Outcome) s : owed_remembered k s -> truthful (run (let* _ := onboard n in ret o) s).
Proof.
  intros HJ. destruct (onboard_course k n s HJ) as [_ H]. rewrite run_bind. destruct (run (onboard n) s) as [s' [[]|e]]; [|done]. cbn in *.
  destruct o; try done; [left|..]; by apply H.
Qed.
Lemma always_onboard_then k n (o : Outcome) s : owed_remembered k s -> always (owed_remembered k) (let* _ := onboard n in ret o) s.
Proof.
  intros HJ. destruct (onboard_course k n s HJ) as [H _]. apply always_bind; [exact H|]. intros u _. apply always_done. by apply always_run in H.
Qed.

Lemma upload_course k id certificate s : (k = InRedis -> redis_works) -> owed_remembered k s ->
  soon (owed_remembered k) (upload_and_onboard id certificate) s /\ truthful (run (upload_and_onboard id certificate) s).
Proof.
  intros Hw HJ. pose proof (upload_keeps _ _ _ _ id certificate (outside s)) as (Hp & Hf & Hu). unfold upload_and_onboard. rewrite run_hub_bind.
  set (s1 := mkProcess (fst (uploadOutboundCertificate id certificate (outside s))) (onboardPending s)).
  assert (Hlost : held (outside s1) = held (outside s) /\ unanswered (outside s1) = unanswered (outside s) \/ unanswered (outside s1) = true -> owed_remembered k s1).
  { intros [[H1 H2]|H]; [|intros _; by right]. apply keeps_untouched; [|done]. repeat split; done. }
  (* where the two calls after the upload lead *)
  set (s3 := mkProcess (fst (redis_set (outside s1))) true). assert (HJ3 : owed_remembered k s3).
  { intros _. left. destruct k; [done|]. destruct (Hw eq_refl) as [_ H]. apply H. }
  assert (Hrest : soon (owed_remembered k) (let* _ := set in let* _ := onboard ONBOARD_RETRIES in ret Renewed) (mkProcess (outside s1) true) /\
    truthful (run (let* _ := set in let* _ := onboard ONBOARD_RETRIES in ret Renewed) (mkProcess (outside s1) true))).
  { assert (Hset : run set (mkProcess (outside s1) true) = (s3, Ok tt)).
    { unfold set. rewrite run_catch, run_hub_alone. cbn [outside onboardPending]. unfold s3. by destruct (redis_set (outside s1)) as [w [[]|e]]. }
    split; [|rewrite run_bind, Hset; by apply (onboard_truthful k)]. apply soon_call.
    - exists 1%nat. split; [lia|]. exact HJ3.
    - cbn [outside onboardPending]. fold s3. unfold s3 at 1. pose proof (soon_always _ _ _ (always_onboard_then k ONBOARD_RETRIES Renewed s3 HJ3)) as H.
      cbn [outside]. destruct (redis_set (outside s1)) as [w [[]|e]]; exact H. }
  split.
  - apply soon_call; [exists 0%nat; split; [lia|done]|]. cbn [outside onboardPending]. change (mkProcess (fst (uploadOutboundCertificate id certificate (outside s))) (onboardPending s)) with s1.
    destruct (snd (uploadOutboundCertificate id certificate (outside s))) as [e|e]; cbn [bind]; [|by apply soon_always, always_done, Hlost].
    destruct (decide (oe_state e = CertSigned)) as [Hs|Hs].
    + rewrite bool_decide_true by done. cbn [negb throw_when bind ret]. apply soon_call; [|exact (proj1 Hrest)]. exists 2%nat. split; [lia|]. exact HJ3.
    + rewrite bool_decide_false by done. cbn. apply soon_always, always_done, Hlost. by left.
  - destruct (uploadOutboundCertificate id certificate (outside s)) as [w [e|e]] eqn:E; [|done]. cbn [fst snd] in *. rewrite run_throw_when.
    destruct (negb _); [done|]. unfold set_pending. rewrite run_write. exact (proj2 Hrest).
Qed.

(** ** A tick *)

(** What is proved of a tick, and of what is left of it. *)
Definition good k (p : Prog Process failure Outcome) s : Prop := soon (owed_remembered k) p s /\ truthful (run p s).
Lemma good_done k r s : owed_remembered k s -> truthful (s, r) -> good k (Done r) s.
Proof. intros HJ Ht. split; [by apply soon_always, always_done|exact Ht]. Qed.
Lemma good_bind k {A} (p : Prog Process failure A) q s : always (owed_remembered k) p s ->
  (forall a, snd (run p s) = Ok a -> owed_remembered k (fst (run p s)) -> good k (q a) (fst (run p s))) -> good k (bind p q) s.
Proof.
  intros Hp Hq. assert (HJ := always_run _ _ _ Hp). split; [apply soon_bind; [done|]; intros a Ha; by apply Hq|].
  rewrite run_bind. destruct (run p s) as [s' [a|e]]; [by apply (Hq a)|done].
Qed.
Lemma good_onboard k n o s : owed_remembered k s -> good k (let* _ := onboard n in ret o) s.
Proof. intros HJ. split; [by apply soon_always, always_onboard_then|by apply (onboard_truthful k)]. Qed.

End properties.

(** An upload that MCM served and whose answer was lost, or after which the process ended before
    it set the flag, is nowhere remembered. The certificate is then signed and fresh, so the tick
    finds nothing to do, and the hub keeps the previous certificate until the next renewal. *)
Theorem upload_forgotten {W} {hub : HubSide W} renewBeforeDays (s : Process W) w l current :
  onboardPending s = false -> listOutboundEnrollments (outside s) = (w, Ok l) -> snd (redis_exists w) = Ok false ->
  newest l CertSigned = Some current -> fresh renewBeforeDays (daysUntilExpiry (oe_certificate current) (date w)) = true ->
  run (renewIfNeeded renewBeforeDays) s = (mkProcess (fst (redis_exists w)) false, Ok Current).
Proof.
  intros Hp Hl Hx Hn Hf. unfold renewIfNeeded. rewrite run_hub_bind, Hl, Hp, run_read, Hn. cbn [mbind option_bind outside]. rewrite Hf.
  unfold recall. rewrite run_bind, run_read. cbn [onboardPending]. rewrite run_bind. unfold isSet. rewrite run_catch, run_hub_alone.
  cbn [outside]. destruct (redis_exists w) as [w' r]. cbn in Hx. by subst r.
Qed.

(** ** An example *)

(** MCM, the hub and Redis: a certificate is valid for a thousand days. *)
Record Mcm : Type := mkMcm { m_list : list OutboundEnrollment; m_presented : option Z; m_flag : bool; m_onboards : bool; m_unanswered : bool }.
Definition m_held (w : Mcm) : option Z := oe_id <$> newest (m_list w) CertSigned.
Definition m_certificate : jsstr := js "BEGIN CERTIFICATE".
Definition m_sign (id : Z) (certificate : jsstr) (e : OutboundEnrollment) : OutboundEnrollment :=
  if oe_id e =? id then mkOutboundEnrollment id CertSigned (oe_csr e) (Some certificate) else e.
Definition m_upload (acknowledged : bool) (id : Z) (certificate : jsstr) (w : Mcm) : Mcm * result failure OutboundEnrollment :=
  (mkMcm (m_sign id certificate <$> m_list w) (m_presented w) (m_flag w) (m_onboards w) (negb acknowledged),
   if acknowledged then Ok (mkOutboundEnrollment id CertSigned None (Some certificate)) else Err Failure).
#[local] Instance mcm (acknowledged : bool) : HubSide Mcm := {|
  listOutboundEnrollments w := (w, Ok (m_list w));
  createOutboundCsr w :=
    let e := mkOutboundEnrollment (Z.of_nat (length (m_list w))) CsrLoaded (Some (js "csr")) None in
    (mkMcm (m_list w ++ [e]) (m_presented w) (m_flag w) (m_onboards w) (m_unanswered w), Ok e);
  uploadOutboundCertificate := m_upload acknowledged;
  onboardDfsp w := if m_onboards w then (mkMcm (m_list w) (m_held w) (m_flag w) true (m_unanswered w), Ok tt) else (w, Err Failure);
  getDfspCa w := (w, Ok (Some m_certificate));
  signCertificate _ w := (w, Ok m_certificate);
  redis_exists w := (w, Ok (m_flag w));
  redis_set w := (mkMcm (m_list w) (m_presented w) true (m_onboards w) (m_unanswered w), Ok tt);
  redis_del w := (mkMcm (m_list w) (m_presented w) false (m_onboards w) (m_unanswered w), Ok tt);
  date _ := 0;
  notAfter _ := Some 86400000000 |}.

Lemma m_laws acknowledged : HubLaws (hub := mcm acknowledged) m_held m_presented m_flag m_unanswered.
Proof.
  split; unfold untouched; cbn; try done.
  - intros w. split; [|done]. unfold m_held, newest. cbn. by rewrite fold_left_app.
  - intros w b H. by injection H.
  - intros id certificate w. split; [done|]. split; [done|]. destruct acknowledged; [by rewrite decide_True|by right].
  - intros w. unfold m_held at 3. destruct (m_onboards w); cbn; auto.
Qed.
Lemma m_redis_works acknowledged : redis_works (hub := mcm acknowledged) m_flag.
Proof. by split. Qed.

(** The hub has no certificate. *)
Definition unenrolled (onboards : bool) : Mcm := mkMcm [] None false onboards false.
Definition m_good (acknowledged : bool) (s : Process Mcm) : Prop :=
  let tick := renewIfNeeded (hub := mcm acknowledged) 30 in
  soon (owed_remembered m_held m_presented m_flag m_unanswered InRedis) tick s /\
  owed_remembered m_held m_presented m_flag m_unanswered InRedis (fst (run tick s)) /\ truthful m_held m_presented m_unanswered (run tick s).


(** The answer to an upload is lost: the next tick says that the certificate is current, and the
    hub does not present it. *)
Lemma upload_forgotten_witness :
  let tick (s : Process Mcm) := run (renewIfNeeded (hub := mcm false) 30) s in
  let lost := tick (mkProcess (unenrolled true) false) in
  let again := tick (fst lost) in
  snd lost = Err Failure /\ snd again = Ok Current /\ owed m_held m_presented (outside (fst again)).
Proof.
  cbv zeta. split; [by vm_compute|].
  assert (Heq : run (renewIfNeeded (hub := mcm false) 30) (fst (run (renewIfNeeded (hub := mcm false) 30) (mkProcess (unenrolled true) false))) =
    (mkProcess (outside (fst (run (renewIfNeeded (hub := mcm false) 30) (mkProcess (unenrolled true) false)))) false, Ok Current)).
  { eapply (upload_forgotten (hub := mcm false) 30 _ _ _ (mkOutboundEnrollment 0 CertSigned (Some (js "csr")) (Some m_certificate)));
      [by vm_compute|reflexivity|by vm_compute|by vm_compute|by vm_compute]. }
  rewrite Heq. split; [done|by vm_compute].
Defined.
