(* ===== verification/Registration.v ===== *)
(** * The certificate authority registered with the Connection Manager

    core/trust/domain/component/mcm-ca-registration.scheduler.ts: Pivotal's root certificate and
    the intermediates under it are registered with MCM for every tenant. MCM's certificate
    authorities, the file of the root and the chain that Vault publishes are arguments; the
    tenants, the registrar and its registry are those of Tenants.v. *)

From S2P Require Import Prelude Interleave Outside Wire Tenants Publication.
From S2P Require Secrets.
#[local] Open Scope prog_scope.

(** ** PEM *)

Definition BEGIN_CERTIFICATE : jsstr := js "-----BEGIN CERTIFICATE-----".
Definition END_CERTIFICATE : jsstr := js "-----END CERTIFICATE-----".

(** The shortest start of [s] that ends with [p], and the rest. *)
Fixpoint until (p s : jsstr) : option (jsstr * jsstr) :=
  if startsWith s p then Some (p, drop (length p) s)
  else match s with
       | [] => None
       | c :: s => match until p s with Some (a, rest) => Some (c :: a, rest) | None => None end
       end.
(** The matches of [/-----BEGIN CERTIFICATE-----[\s\S]*?-----END CERTIFICATE-----/g]. *)
Fixpoint blocks_from (fuel : nat) (s : jsstr) : list jsstr :=
  match fuel, s with
  | S fuel, _ :: later =>
      match (if startsWith s BEGIN_CERTIFICATE then until END_CERTIFICATE (drop (length BEGIN_CERTIFICATE) s) else None) with
      | Some (body, rest) => (BEGIN_CERTIFICATE ++ body) :: blocks_from fuel rest
      | None => blocks_from fuel later
      end
  | _, _ => []
  end.
Definition blocks (s : jsstr) : list jsstr := blocks_from (length s) s.

Definition withoutCertificate (chain : option jsstr) (certificate : jsstr) : option jsstr :=
  match List.filter (fun block => negb (samePem block certificate)) (blocks (default [] chain)) with
  | [] => None
  | kept => Some (join Secrets.new_line kept)
  end.

(** ** The scheduler *)

(** [DfspCa], which is also the body of a registration. *)
Record DfspCa : Set := mkDfspCa { rootCertificate : option jsstr; intermediateChain : option jsstr }.

(** What MCM answers about authorities, the file at [caPath], and [readIntermediates]. *)
Class Authorities (W : Type) : Type := {
  getDfspCa : jsstr -> W -> W * result exception DfspCa;
  registerCa : jsstr -> DfspCa -> W -> W * result exception unit;
  readFile : W -> W * result exception jsstr;
  readIntermediates : W -> W * result exception (option jsstr) }.

Record CaResult : Set := mkCaResult { ca_tenants : Z; ca_registered : Z; ca_alreadyCorrect : Z; ca_failed : Z }.
Inductive CaOutcome : Set := CaRegistered | CaCorrect | CaFailed.
Definition counted (o : CaOutcome) (r : CaResult) : CaResult :=
  match o with
  | CaRegistered => mkCaResult (ca_tenants r) (ca_registered r + 1) (ca_alreadyCorrect r) (ca_failed r)
  | CaCorrect => mkCaResult (ca_tenants r) (ca_registered r) (ca_alreadyCorrect r + 1) (ca_failed r)
  | CaFailed => mkCaResult (ca_tenants r) (ca_registered r) (ca_alreadyCorrect r) (ca_failed r + 1)
  end.

(** [...new Set(l)] *)
Fixpoint to_set (l : list jsstr) : list jsstr :=
  match l with [] => [] | s :: l => s :: List.filter (fun x => negb (str_eqb s x)) (to_set l) end.
Definition is_self (e : jsstr * ParticipantKey) : bool := match role (snd e) with Self => true | Peer => false end.
Definition tenants_of (rows : list (jsstr * ParticipantKey)) (pivotalDfspId : option jsstr) : list jsstr :=
  to_set ((fst <$> List.filter is_self rows) ++ option_list pivotalDfspId).

(** MCM holds this registration already. *)
Definition fits (body current : DfspCa) : bool :=
  match rootCertificate current, rootCertificate body with
  | Some root, Some certificate => samePem root certificate && samePem (default [] (intermediateChain current)) (default [] (intermediateChain body))
  | _, _ => false
  end.

Section scheduler.
  Context {W : Type} {surroundings : Surroundings W} {authorities : Authorities W}.
  Notation Cmd := (Prog (World W) exception).
  Notation outer := (outer_of outside with_outside).

Definition readPivotalCa : Cmd jsstr :=
  let* pem := outer readFile in if Secrets.is_certificate pem then ret pem else throw Failure.

(** The [try] of one tenant. *)
Definition register_tenant (body : DfspCa) (fspId : jsstr) : Cmd CaOutcome :=
  catch (let* _ := ensureRegistered fspId in
         let* current := catch (let* ca := outer (getDfspCa fspId) in ret (Some ca)) (fun _ => ret None) in
         if match current with Some ca => fits body ca | None => false end then ret CaCorrect
         else let* _ := outer (registerCa fspId body) in ret CaRegistered)
    (fun _ => ret CaFailed).
Fixpoint register_all (body : DfspCa) (tenants : list jsstr) (r : CaResult) : Cmd CaResult :=
  match tenants with
  | [] => ret r
  | fspId :: tenants => let* o := register_tenant body fspId in register_all body tenants (counted o r)
  end.

Definition reconcileCa (pivotalDfspId : option jsstr) : Cmd CaResult :=
  let* certificate := readPivotalCa in
  let* chain := outer readIntermediates in
  let intermediateChain := withoutCertificate chain certificate in
  let* rows := findAll in
  let tenants := tenants_of rows pivotalDfspId in
  register_all (mkDfspCa (Some certificate) intermediateChain) tenants (mkCaResult (Z.of_nat (length tenants)) 0 0 0).
End scheduler.

(** ** Reference definitions *)

(** A text that is one block. *)
Definition is_block (b : jsstr) : Prop := exists body, b = BEGIN_CERTIFICATE ++ body /\ until END_CERTIFICATE body = Some (body, []).

Section laws.
  Context {W : Type} {surroundings : Surroundings W} {authorities : Authorities W}.
  (** What MCM holds for a DFSP. *)
  Context (held : W -> jsstr -> DfspCa).

Definition same_authorities (w w' : W) : Prop := forall f, held w' f = held w f.
Class CaLaws : Prop := {
  ca_send r w : same_authorities w (fst (send r w));
  ca_driver w : same_authorities w (fst (driver w));
  ca_file w : same_authorities w (fst (readFile w));
  ca_chain w : same_authorities w (fst (readIntermediates w));
  ca_get f w : same_authorities w (fst (getDfspCa f w)) /\ forall ca, snd (getDfspCa f w) = Ok ca -> ca = held w f;
  ca_register f body w : (forall g, g <> f -> held (fst (registerCa f body w)) g = held w g) /\
    match snd (registerCa f body w) with
    | Ok _ => held (fst (registerCa f body w)) f = body
    | Err _ => held (fst (registerCa f body w)) f = held w f \/ held (fst (registerCa f body w)) f = body
    end }.

(** MCM, the database, the file and Vault all answer. *)
Record all_serve (certificate : jsstr) (chain : option jsstr) : Prop := {
  s_driver w : snd (driver w) = Works;
  s_list w : is_ok (snd (send ListDfsps w)) = true;
  s_create f w : is_ok (snd (send (CreateDfsp f) w)) = true;
  s_file w : snd (readFile w) = Ok certificate;
  s_usable : Secrets.is_certificate certificate = true;
  s_chain w : snd (readIntermediates w) = Ok chain;
  s_get f w : is_Some (rootCertificate (held w f)) -> is_ok (snd (getDfspCa f w)) = true;
  s_register f body w : snd (registerCa f body w) = Ok tt }.
End laws.

(** * Properties *)

(** ** PEM *)

Lemma startsWith_far p s x : (length p <= length s)%nat -> startsWith (s ++ x) p = startsWith s p.
Proof.
  intros Hl. unfold startsWith. apply bool_decide_ext. split; [|intros H; by apply prefix_app_r].
  intros [k Hk]. exists (drop (length p) s). apply (f_equal (take (length s))) in Hk. rewrite take_app_length in Hk. rewrite Hk at 1.
  rewrite take_app_ge by done. f_equal. apply (f_equal (drop (length p))) in Hk. rewrite Hk, take_app_ge, drop_app_length by done. done.
Qed.
Lemma until_long p s a rest : until p s = Some (a, rest) -> (length p <= length a)%nat.
Proof.
  revert a. induction s as [|c s IH]; intros a; cbn; destruct (startsWith _ p); try by intros [= <- _].
  destruct (until p s) as [[b r]|]; [|done]. intros [= <- ->]. specialize (IH b eq_refl). cbn. lia.
Qed.
Lemma until_app p s a rest : until p s = Some (a, rest) -> s = a ++ rest /\ forall x, until p (a ++ x) = Some (a, x).
Proof.
  assert (Hp : forall x, until p (p ++ x) = Some (p, x)).
  { intros x. assert (H : startsWith (p ++ x) p = true) by apply startsWith_app. destruct (p ++ x) as [|c l] eqn:E; cbn; rewrite H, <- E, drop_app_length; done. }
  revert a. induction s as [|c s IH]; intros a; cbn.
  - destruct (startsWith [] p) eqn:Hs; [|done]. intros [= <- <-]. split; [|done].
    apply bool_decide_eq_true in Hs as [k Hk]. destruct p; [done|discriminate].
  - destruct (startsWith (c :: s) p) eqn:Hs.
    + intros [= <- <-]. split; [|done]. apply bool_decide_eq_true in Hs as [k Hk]. by rewrite Hk, drop_app_length.
    + destruct (until p s) as [[b r]|] eqn:Hu; [|done]. intros [= <- ->]. destruct (IH b eq_refl) as [Heq IH']. split; [by rewrite Heq|].
      intros x. cbn. pose proof (until_long _ _ _ _ Hu) as Hl.
      replace (startsWith (c :: b ++ x) p) with false; [by rewrite IH'|]. rewrite <- Hs, Heq.
      change (c :: b ++ x) with ((c :: b) ++ x). change (c :: b ++ rest) with ((c :: b) ++ rest).
      by rewrite !startsWith_far by (cbn; lia).
Qed.

Lemma blocks_fuel n m s : (length s <= n)%nat -> (length s <= m)%nat -> blocks_from n s = blocks_from m s.
Proof.
  revert m s. induction n as [|n IH]; intros m [|c s] Hn Hm; cbn in Hn; try lia; [by destruct m|by destruct m|].
  destruct m as [|m]; cbn in Hm; [lia|]. cbn -[startsWith BEGIN_CERTIFICATE END_CERTIFICATE drop until].
  destruct (startsWith _ _); [|apply IH; lia]. destruct (until _ _) as [[body rest]|] eqn:Hu; [|apply IH; lia].
  apply until_app in Hu as [Hu _]. apply (f_equal length) in Hu. rewrite length_app, length_drop in Hu. cbn in Hu. f_equal. apply IH; lia.
Qed.
Lemma blocks_are n s : Forall is_block (blocks_from n s).
Proof.
  revert s. induction n as [|n IH]; intros [|c s]; try done. cbn -[startsWith BEGIN_CERTIFICATE END_CERTIFICATE drop until].
  destruct (startsWith _ _); [|apply IH]. destruct (until _ _) as [[body rest]|] eqn:Hu; [|apply IH]. constructor; [|apply IH].
  exists body. split; [done|]. apply until_app in Hu as [_ Hu]. specialize (Hu []). by rewrite app_nil_r in Hu.
Qed.
Lemma blocks_head b x : is_block b -> blocks (b ++ x) = b :: blocks x.
Proof.
  intros (body & -> & Hu). apply until_app in Hu as [_ Hu]. rewrite <- app_assoc. unfold blocks at 1.
  set (s := BEGIN_CERTIFICATE ++ body ++ x). assert (Hs : startsWith s BEGIN_CERTIFICATE = true) by apply startsWith_app.
  assert (Hl : (length x < length s)%nat) by (unfold s; rewrite !length_app; cbn; lia).
  assert (Hd : drop (length BEGIN_CERTIFICATE) s = body ++ x) by (by unfold s; rewrite drop_app_length).
  destruct s as [|c l] eqn:E; [by cbn in Hl; lia|]. cbn [length blocks_from]. rewrite Hs, Hd, Hu. f_equal. apply blocks_fuel; cbn in Hl; lia.
Qed.
Lemma blocks_newline x : blocks (Secrets.new_line ++ x) = blocks x.
Proof. reflexivity. Qed.
Lemma blocks_join l : Forall is_block l -> blocks (join Secrets.new_line l) = l.
Proof.
  induction 1 as [|b l Hb Hl IH]; [done|]. destruct l as [|b' l].
  - change (join Secrets.new_line [b]) with b. transitivity (blocks (b ++ [])); [by rewrite app_nil_r|by rewrite blocks_head].
  - change (join Secrets.new_line (b :: b' :: l)) with (b ++ Secrets.new_line ++ join Secrets.new_line (b' :: l)).
    by rewrite blocks_head, blocks_newline, IH.
Qed.
Lemma filter_twice {A} (f : A -> bool) l : List.filter f (List.filter f l) = List.filter f l.
Proof. induction l as [|a l IH]; [done|]. cbn. destruct (f a) eqn:Hf; cbn; by rewrite ?Hf, IH. Qed.
Lemma withoutCertificate_blocks chain certificate :
  blocks (default [] (withoutCertificate chain certificate)) =
  List.filter (fun block => negb (samePem block certificate)) (blocks (default [] chain)).
Proof.
  unfold withoutCertificate. set (kept := List.filter _ _).
  assert (Hk : Forall is_block kept).
  { apply Forall_forall. intros b Hb. apply list_elem_of_In, filter_In in Hb as [Hb _].
    apply (Forall_forall is_block (blocks (default [] chain))); [apply blocks_are|by apply list_elem_of_In]. }
  destruct kept as [|b l] eqn:E; [done|]. rewrite <- E in *. cbn [default]. by apply blocks_join.
Qed.

(** The chain that is registered has the certificates of the one that was read, in order, without
    the root, however they were separated; taking the root out again changes nothing, so the
    registration stays the same as long as Vault's chain does. *)
Theorem chain_without_root chain certificate :
  let kept := withoutCertificate chain certificate in
  blocks (default [] kept) = List.filter (fun block => negb (samePem block certificate)) (blocks (default [] chain)) /\
  withoutCertificate kept certificate = kept.
Proof.
  cbv zeta. split; [apply withoutCertificate_blocks|]. unfold withoutCertificate at 1. rewrite withoutCertificate_blocks.
  unfold withoutCertificate. by rewrite filter_twice.
Qed.

(** ** The scheduler *)

Lemma to_set_elem l f : f ∈ to_set l <-> f ∈ l.
Proof.
  induction l as [|s l IH]; [done|]. cbn. rewrite !elem_of_cons, list_elem_of_In, filter_In, <- list_elem_of_In, IH.
  unfold str_eqb. case_bool_decide; [subst; tauto|]. cbn. tauto.
Qed.
Lemma to_set_NoDup l : NoDup (to_set l).
Proof.
  induction l as [|s l IH]; [constructor|]. cbn. constructor; [|by apply NoDup_ListNoDup, List.NoDup_filter, NoDup_ListNoDup].
  rewrite list_elem_of_In, filter_In. unfold str_eqb. rewrite bool_decide_true by done. by intros [_ ?].
Qed.

Section registration.
  Context {W : Type} {surroundings : Surroundings W} {authorities : Authorities W} (held : W -> jsstr -> DfspCa) {laws : CaLaws held}.
  Notation World := (World W).
  Implicit Types s : World.

Definition keeps_ca s s' : Prop := same_authorities held (outside s) (outside s').
#[local] Instance keeps_ca_preorder : PreOrder keeps_ca.
Proof. split; [by intros s f|]. intros s1 s2 s3 H1 H2 f. by rewrite H2. Qed.
Lemma moves_mcm_ca r : moves keeps_ca (mcm r).
Proof. split; [|done]. intros s. apply (ca_send held). Qed.
Lemma moves_remember_ca ids : moves keeps_ca (write (remember ids) : Prog World exception unit).
Proof. split; [|done]. by intros s f. Qed.
#[local] Hint Resolve moves_mcm_ca moves_remember_ca : moving.
Lemma ensure_keeps_ca f s : keeps_ca s (fst (run (ensureRegistered f) s)).
Proof.
  apply moves_run; [apply _|]. assert (Hr : moves keeps_ca (registered f)) by (unfold registered; movingly).
  unfold ensureRegistered. movingly; try done; try apply _.
Qed.

Lemma fits_itself certificate chain : fits (mkDfspCa (Some certificate) chain) (mkDfspCa (Some certificate) chain) = true.
Proof. unfold fits, samePem, str_eqb. cbn. by rewrite !bool_decide_true. Qed.

(** Of the authorities MCM holds, at most [f]'s changed, to [body]. *)
Definition only_to body (fs : list jsstr) s s' : Prop :=
  forall g, held (outside s') g = held (outside s) g \/ g ∈ fs /\ held (outside s') g = body.

Lemma read_ca_course f s : let s' := fst (run (catch (let* ca := outer_of outside with_outside (getDfspCa f) in ret (Some ca)) (fun _ => ret None)) s) in
  keeps_ca s s' /\ exists current, snd (run (catch (let* ca := outer_of outside with_outside (getDfspCa f) in ret (Some ca)) (fun _ => ret None)) s) = Ok current /\
    match current with Some ca => ca = held (outside s') f | None => is_ok (snd (getDfspCa f (outside s))) = false end.
Proof.
  cbv zeta. rewrite run_catch, run_outer. destruct (ca_get held f (outside s)) as [H1 H2].
  destruct (getDfspCa f (outside s)) as [w [ca|e]]; cbn in *; (split; [exact H1|]); (eexists; split; [done|]); [|done].
  rewrite H1. by apply H2.
Qed.

Lemma register_tenant_course certificate chain f s : let body := mkDfspCa (Some certificate) chain in
  let s' := fst (run (register_tenant body f) s) in
  only_to body [f] s s' /\ exists o, snd (run (register_tenant body f) s) = Ok o /\ (o <> CaFailed -> fits body (held (outside s') f) = true).
Proof.
  cbv zeta. set (body := mkDfspCa _ _). unfold register_tenant. rewrite run_catch, run_bind. pose proof (ensure_keeps_ca f s) as H1.
  destruct (run (ensureRegistered f) s) as [s1 [o|e]]; cbn [fst] in H1.
  2: { split; [intros g; by left|]. by exists CaFailed. }
  rewrite run_bind. destruct (read_ca_course f s1) as (H2 & current & Hc & Hcur). destruct (run (catch _ _) s1) as [s2 r2]. cbn [fst snd] in *. subst r2.
  assert (H3 : forall g, held (outside s2) g = held (outside s) g) by (intros g; by rewrite H2).
  destruct (match current with Some ca => fits body ca | None => false end) eqn:Hfits.
  - split; [intros g; left; apply H3|]. exists CaCorrect. split; [done|]. intros _. destruct current as [ca|]; [by subst ca|done].
  - rewrite run_outer. destruct (ca_register held f body (outside s2)) as [Hother Hf].
    destruct (registerCa f body (outside s2)) as [w [u|e]]; cbn in *.
    + split; [|exists CaRegistered; split; [done|]; intros _; rewrite Hf; apply fits_itself].
      intros g. destruct (decide (g = f)) as [->|Hne]; [right; split; [by left|done]|left; cbn; by rewrite Hother, H3].
    + split; [|by exists CaFailed].
      intros g. destruct (decide (g = f)) as [->|Hne]; [|left; cbn; by rewrite Hother, H3].
      destruct Hf as [Hf|Hf]; [left; cbn; by rewrite Hf, H3|right; split; [by left|done]].
Qed.

Lemma only_to_fits certificate chain fs g s s' : let body := mkDfspCa (Some certificate) chain in
  only_to body fs s s' -> fits body (held (outside s) g) = true -> fits body (held (outside s') g) = true.
Proof. intros body H Hf. destruct (H g) as [->|[_ ->]]; [done|apply fits_itself]. Qed.

Definition handled_ca (r : CaResult) : Z := ca_registered r + ca_alreadyCorrect r + ca_failed r.
Lemma register_all_course certificate chain fs r s : let body := mkDfspCa (Some certificate) chain in
  let s' := fst (run (register_all body fs r) s) in
  only_to body fs s s' /\ exists r', snd (run (register_all body fs r) s) = Ok r' /\ ca_tenants r' = ca_tenants r /\
    handled_ca r' = handled_ca r + Z.of_nat (length fs) /\ ca_failed r <= ca_failed r' /\
    (ca_failed r' = ca_failed r -> forall f, f ∈ fs -> fits body (held (outside s') f) = true).
Proof.
  cbv zeta. set (body := mkDfspCa _ _). revert r s. induction fs as [|f fs IH]; intros r s; cbn [register_all].
  - split; [intros g; by left|]. exists r. cbn. repeat split; [lia|lia|]. by intros _ f []%elem_of_nil.
  - rewrite run_bind. destruct (register_tenant_course certificate chain f s) as (H1 & o & Ho & Hfit). fold body in H1, Ho, Hfit.
    destruct (run (register_tenant body f) s) as [s1 r1]. cbn [fst snd] in *. subst r1.
    destruct (IH (counted o r) s1) as (H2 & r' & Hr & Ht & Hh & Hle & Hall). split.
    + intros g. destruct (H2 g) as [->|[Hin ->]]; [|right; split; [by right|done]]. destruct (H1 g) as [->|[Hin ->]]; [by left|].
      apply list_elem_of_singleton in Hin as ->. right. split; [by left|done].
    + exists r'. split; [done|]. split; [rewrite Ht; by destruct o|]. split; [rewrite Hh; unfold handled_ca; destruct o; cbn; lia|].
      split; [destruct o; cbn in Hle; lia|]. intros Hf g [->|Hin]%elem_of_cons.
      * eapply only_to_fits; [exact H2|]. apply Hfit. intros ->. cbn in Hle. lia.
      * apply Hall; [|done]. destruct o; cbn in Hle |- *; lia.
Qed.

Lemma readPivotalCa_course s : keeps_ca s (fst (run readPivotalCa s)) /\ keys (fst (run readPivotalCa s)) = keys s /\
  (forall pem, snd (run readPivotalCa s) = Ok pem -> Secrets.is_certificate pem = true).
Proof.
  unfold readPivotalCa. rewrite run_outer. pose proof (ca_file held (outside s)) as H.
  destruct (readFile (outside s)) as [w [pem|e]]; cbn in *; [|done]. destruct (Secrets.is_certificate pem) eqn:Hu; cbn; [|done].
  split; [exact H|]. split; [done|]. by intros ? [= <-].
Qed.

(** Whatever fails, a run of the scheduler registers one certificate that was read, and the chain
    that was read without it, for tenants and the DFSP of Pivotal only; no tenant is counted
    twice and none is left out; it registers nothing where the certificate, the chain or the
    table cannot be read; and where none failed MCM holds this registration for all of them. *)
Theorem registration_course pivotalDfspId s :
  let s' := fst (run (reconcileCa pivotalDfspId) s) in
  match snd (run (reconcileCa pivotalDfspId) s) with
  | Err _ => same_authorities held (outside s) (outside s')
  | Ok r =>
      let tenants := tenants_of (map_to_list (keys s)) pivotalDfspId in
      exists certificate chain,
        let body := mkDfspCa (Some certificate) (withoutCertificate chain certificate) in
        Secrets.is_certificate certificate = true /\ only_to body tenants s s' /\
        NoDup tenants /\ ca_tenants r = Z.of_nat (length tenants) /\ handled_ca r = ca_tenants r /\
        (ca_failed r = 0 -> forall f, f ∈ tenants -> fits body (held (outside s') f) = true)
  end.
Proof.
  cbv zeta. unfold reconcileCa. rewrite run_bind. destruct (readPivotalCa_course s) as (H1 & K1 & Hu).
  destruct (run readPivotalCa s) as [s1 [certificate|e]]; cbn [fst snd] in *; [|exact H1]. rewrite run_outer.
  pose proof (ca_chain held (outside s1)) as H2. destruct (readIntermediates (outside s1)) as [w2 [chain|e]]; cbn [fst snd] in *.
  2: { intros g. cbn. by rewrite H2, H1. }
  unfold findAll. rewrite run_query. cbn [outside with_outside keys]. pose proof (ca_driver held w2) as H3.
  assert (H4 : same_authorities held (outside s) (fst (driver w2))) by (intros g; by rewrite H3, H2, H1).
  destruct (snd (driver w2)); try exact H4. rewrite K1. set (tenants := tenants_of (map_to_list (keys s)) pivotalDfspId).
  set (s3 := with_outside _ _).
  destruct (register_all_course certificate (withoutCertificate chain certificate) tenants (mkCaResult (Z.of_nat (length tenants)) 0 0 0) s3)
    as (Ho & r & Hr & Ht & Hh & _ & Hall).
  destruct (run (register_all _ _ _) s3) as [s4 r4]. cbn [fst snd] in *. subst r4. exists certificate, chain.
  split; [by apply Hu|]. split; [intros g; destruct (Ho g) as [->|?]; [left; apply H4|by right]|]. split; [apply to_set_NoDup|].
  split; [done|]. split; [rewrite Hh, Ht; unfold handled_ca; cbn; lia|]. exact Hall.
Qed.

(** ** When everything answers *)

Section serving.
  Context (certificate : jsstr) (chain : option jsstr) (serve : all_serve held certificate chain).
  Notation body := (mkDfspCa (Some certificate) (withoutCertificate chain certificate)).

Lemma ensure_serves f s : exists s' o, run (ensureRegistered f) s = (s', Ok o) /\ keys s' = keys s /\ keeps_ca s s'.
Proof.
  pose proof (ensure_keeps_ca f s) as Hk.
  assert (Hreg : forall s, exists s' b, run (registered f) s = (s', Ok b) /\ keys s' = keys s).
  { intros s0. unfold registered. rewrite run_mcm. pose proof (s_list _ _ _ serve (outside s0)) as H. destruct (snd (send ListDfsps (outside s0))) as [l|]; [|done].
    rewrite run_write. cbn. by eexists _, _. }
  assert (H : exists s' o, run (ensureRegistered f) s = (s', Ok o) /\ keys s' = keys s).
  { unfold ensureRegistered. destruct (negb registration); [by exists s, Disabled|]. rewrite run_read. destruct (bool_decide (f ∈ known s)); [by exists s, Present|].
    rewrite run_bind. destruct (Hreg s) as (s1 & b & -> & H1). destruct b; [by exists s1, Present|]. rewrite run_bind, run_catch, run_mcm.
    pose proof (s_create _ _ _ serve f (outside s1)) as Hc. destruct (snd (send (CreateDfsp f) (outside s1))) as [[]|]; [|done]. cbn. by eexists _, _. }
  destruct H as (s' & o & Hrun & H). exists s', o. rewrite Hrun in Hk. done.
Qed.

(** A tenant is registered, or nothing is done where MCM has the registration. *)
Lemma register_serves f s :
  exists s' o, run (register_tenant body f) s = (s', Ok o) /\ keys s' = keys s /\ o <> CaFailed /\
    (fits body (held (outside s) f) = true -> o = CaCorrect).
Proof.
  unfold register_tenant. rewrite run_catch, run_bind. destruct (ensure_serves f s) as (s1 & o & -> & K1 & H1). rewrite run_bind.
  destruct (read_ca_course f s1) as (H2 & current & Hc & Hcur). rewrite run_catch, run_outer in *.
  destruct (getDfspCa f (outside s1)) as [w [ca|e]] eqn:Eg; cbn in Hc; injection Hc as <-; cbn [run ret fst snd] in *.
  - subst ca. destruct (fits body _) eqn:Hf.
    + eexists _, CaCorrect. repeat split; done.
    + rewrite run_outer. rewrite (s_register _ _ _ serve). cbn. eexists _, CaRegistered. repeat split; [done|done|].
      intros Hfit. assert (E : held (outside (with_outside w s1)) f = held (outside s) f) by (etransitivity; [apply (H2 f)|apply (H1 f)]).
      cbn [outside with_outside] in E, Hf. rewrite E in Hf. congruence.
  - rewrite run_outer. rewrite (s_register _ _ _ serve). cbn. eexists _, CaRegistered. repeat split; [done|done|].
    intros Hfit. exfalso. rewrite <- (H1 f) in Hfit. pose proof (s_get _ _ _ serve f (outside s1)) as Hg.
    assert (Hsome : is_Some (rootCertificate (held (outside s1) f))) by (unfold fits in Hfit; by destruct (rootCertificate (held (outside s1) f))).
    specialize (Hg Hsome). by rewrite Eg in Hg.
Qed.
Lemma register_all_serves fs r s :
  exists s' r', run (register_all body fs r) s = (s', Ok r') /\ keys s' = keys s /\ ca_failed r' = ca_failed r /\
    ((forall f, f ∈ fs -> fits body (held (outside s) f) = true) -> ca_registered r' = ca_registered r).
Proof.
  revert r s. induction fs as [|f fs IH]; intros r s; cbn [register_all]; [by exists s, r|]. rewrite run_bind.
  destruct (register_tenant_course certificate (withoutCertificate chain certificate) f s) as [Ho _].
  destruct (register_serves f s) as (s1 & o & Hrun & K1 & Hne & Hcorrect). rewrite Hrun in *. cbn [fst] in Ho.
  destruct (IH (counted o r) s1) as (s2 & r' & Hrun2 & K2 & Hf & Hreg). exists s2, r'. split; [done|]. split; [congruence|]. split; [by destruct o|].
  intros Hall. rewrite Hreg; [rewrite Hcorrect by (apply Hall; by left); done|].
  intros g Hg. eapply only_to_fits; [exact Ho|]. apply Hall. by right.
Qed.

Lemma reconcile_serves pivotalDfspId s :
  exists s0, keys s0 = keys s /\ same_authorities held (outside s) (outside s0) /\
  let tenants := tenants_of (map_to_list (keys s)) pivotalDfspId in
  run (reconcileCa pivotalDfspId) s = run (register_all body tenants (mkCaResult (Z.of_nat (length tenants)) 0 0 0)) s0.
Proof.
  unfold reconcileCa. rewrite run_bind. destruct (readPivotalCa_course s) as (H1 & K1 & Hu). unfold readPivotalCa in *. rewrite run_outer in *.
  rewrite (s_file _ _ _ serve) in *. rewrite (s_usable _ _ _ serve) in *. cbn [run ret fst snd] in *. rewrite run_outer. rewrite (s_chain _ _ _ serve).
  unfold findAll. rewrite run_query. rewrite (s_driver _ _ _ serve). eexists. split; [|split; [|reflexivity]]; [done|].
  intros g. cbn. rewrite (ca_driver held), (ca_chain held). apply H1.
Qed.

(** Where everything answers one run registers the authority for every tenant, and the next finds
    all of them registered and sends nothing. *)
Theorem registration_converges pivotalDfspId s :
  let tenants := tenants_of (map_to_list (keys s)) pivotalDfspId in
  let s1 := fst (run (reconcileCa pivotalDfspId) s) in
  (forall f, f ∈ tenants -> fits body (held (outside s1) f) = true) /\
  exists r, snd (run (reconcileCa pivotalDfspId) s1) = Ok r /\ ca_registered r = 0 /\ ca_failed r = 0 /\ ca_alreadyCorrect r = Z.of_nat (length tenants).
Proof.
  cbv zeta. destruct (reconcile_serves pivotalDfspId s) as (s0 & K0 & H0 & ->). set (tenants := tenants_of (map_to_list (keys s)) pivotalDfspId).
  destruct (register_all_serves tenants (mkCaResult (Z.of_nat (length tenants)) 0 0 0) s0) as (s1 & r1 & Hrun & K1 & Hf & _).
  destruct (register_all_course certificate (withoutCertificate chain certificate) tenants (mkCaResult (Z.of_nat (length tenants)) 0 0 0) s0)
    as (_ & r1' & Hr & _ & _ & _ & Hall).
  rewrite Hrun in *. cbn [fst snd] in *. injection Hr as <-. specialize (Hall Hf). split; [exact Hall|].
  destruct (reconcile_serves pivotalDfspId s1) as (s2 & K2 & H2 & ->). replace (keys s1) with (keys s) by congruence. fold tenants.
  destruct (register_all_serves tenants (mkCaResult (Z.of_nat (length tenants)) 0 0 0) s2) as (s3 & r3 & Hrun3 & _ & Hf3 & Hreg).
  destruct (register_all_course certificate (withoutCertificate chain certificate) tenants (mkCaResult (Z.of_nat (length tenants)) 0 0 0) s2)
    as (_ & r3' & Hr3 & _ & Hh & _ & _).
  rewrite Hrun3 in *. cbn [fst snd] in *. injection Hr3 as <-. exists r3. split; [done|].
  assert (Hz : ca_registered r3 = 0) by (apply Hreg; intros f Hin; rewrite H2; by apply Hall).
  split; [done|]. cbn in Hf3. split; [done|]. unfold handled_ca in Hh. cbn in Hh. lia.
Qed.
End serving.
End registration.

(** ** An example *)

Definition ca_root : jsstr := BEGIN_CERTIFICATE ++ js "root" ++ END_CERTIFICATE.
Definition ca_intermediate : jsstr := BEGIN_CERTIFICATE ++ js "intermediate" ++ END_CERTIFICATE.
(** A chain that repeats the root. *)
Definition ca_bundle : jsstr := ca_intermediate ++ Secrets.new_line ++ ca_root ++ Secrets.new_line.

(** MCM keeps what it is given. *)
#[local] Notation Shelf := (gmap jsstr DfspCa).
Definition on_shelf (w : Shelf) (f : jsstr) : DfspCa := default (mkDfspCa None None) (w !! f).
Definition shelf_send (r : request) : Shelf -> Shelf * result exception (answer r) :=
  match r with
  | ListDfsps => fun w => (w, Ok [])
  | CreateDfsp _ => fun w => (w, Ok tt)
  | GetJwsKey _ => fun w => (w, Err Failure)
  | PublishJwsKey _ _ => fun w => (w, Err Failure)
  | ListAllJwsKeys => fun w => (w, Ok [])
  end.
#[local] Instance shelf : Surroundings Shelf := {|
  send := shelf_send; driver := fun w => (w, Works); bus := fun _ w => (w, true); ledger := fun _ _ _ w => (w, Ok tt);
  same_text := str_eqb; registration := true; announcing := true |}.
#[local] Instance shelf_authorities : Authorities Shelf := {|
  getDfspCa f w := (w, match w !! f with Some ca => Ok ca | None => Err (McmException (js "MCM_REQUEST_FAILED") (Some 404)) end);
  registerCa f body w := (<[f := body]> w, Ok tt);
  readFile w := (w, Ok ca_root);
  readIntermediates w := (w, Ok (Some ca_bundle)) |}.
Lemma shelf_laws : CaLaws on_shelf.
Proof.
  split; try (by intros ?); try (by intros [] ?).
  - intros f w. split; [by intros g|]. intros ca. cbn. unfold on_shelf.
    destruct (w !! f); [|done]. intros H. by apply Ok_inj in H as ->.
  - intros f body w. split.
    + intros g Hne. change (on_shelf (<[f:=body]> w : Shelf) g = on_shelf w g). unfold on_shelf. by rewrite lookup_insert_ne.
    + change (on_shelf (<[f:=body]> w : Shelf) f = body). unfold on_shelf. by rewrite lookup_insert_eq.
Qed.
Lemma shelf_serves : all_serve on_shelf ca_root (Some ca_bundle).
Proof.
  split; try done. intros f w. unfold on_shelf. cbn. destruct (w !! f); [done|]. by intros [].
Qed.

Lemma registration_converges_witness :
  let s := start (W := Shelf) ∅ in
  let s1 := fst (run (reconcileCa (Some (js "pivotal"))) s) in
  on_shelf (outside s1) acme = mkDfspCa (Some ca_root) (Some ca_intermediate) /\
  (exists r, snd (run (reconcileCa (Some (js "pivotal"))) s1) = Ok r /\ ca_registered r = 0 /\ ca_failed r = 0 /\ ca_alreadyCorrect r = 3).
Proof.
  cbv zeta. split; [by vm_compute|].
  destruct (registration_converges on_shelf (laws := shelf_laws) ca_root (Some ca_bundle) shelf_serves (Some (js "pivotal")) (start (W := Shelf) ∅))
    as (_ & r & Hr & H1 & H2 & H3).
  exists r. split; [exact Hr|]. split; [exact H1|]. split; [exact H2|]. rewrite H3. by vm_compute.
Defined.
Lemma registration_course_witness :
  let s := start (W := Shelf) ∅ in
  let s1 := fst (run (reconcileCa None) s) in
  exists r, snd (run (reconcileCa None) s) = Ok r /\ ca_failed r = 0 /\ handled_ca r = 2 /\
    on_shelf (outside s1) (js "bank") = on_shelf (outside s) (js "bank").
Proof.
  cbv zeta. pose proof (registration_course on_shelf (laws := shelf_laws) None (start (W := Shelf) ∅)) as H. cbv zeta in H.
  assert (Hr : snd (run (reconcileCa None) (start (W := Shelf) ∅)) = Ok (mkCaResult 2 2 0 0)) by (by vm_compute).
  rewrite Hr in H. destruct H as (certificate & chain & _ & Honly & _ & Ht & Hh & _). exists (mkCaResult 2 2 0 0). split; [exact Hr|]. split; [done|]. split; [exact Hh|].
  destruct (Honly (js "bank")) as [H|[Hin _]]; [exact H|]. exfalso. apply list_elem_of_In in Hin. vm_compute in Hin. by intuition congruence.
Defined.
