(* ===== verification/Migrations.v ===== *)
(** * Migrations of the databases

    shared/dbmigration/component/db-migration.ts, which web-pivotal and app-auditor run when they
    start. The data of a database and what a script does to it are arguments; the history
    table, the transactions and what the driver makes of each statement are modelled. *)

From Stdlib Require Import Sorting.Sorted.
From S2P Require Import Prelude Interleave Outside Sorting.
#[local] Open Scope prog_scope.

Inductive failure : Set := Failure.

(** ** Files *)

Record MigrationFile : Set := mkMigrationFile {
  version : jsstr; versionTuple : list Z; description : jsstr; filename : jsstr; sql : jsstr; hash : jsstr }.

Definition underscore : ascii := "_".
(** The longest version a text that starts with a digit starts with: digits, and more after
    single underscores; and the rest. *)
Fixpoint take_version (s : jsstr) : jsstr * jsstr :=
  match s with
  | [] => ([], [])
  | c :: later =>
      if is_digit c || (bool_decide (c = underscore) && match later with d :: _ => is_digit d | [] => false end)
      then let '(v, rest) := take_version later in (c :: v, rest) else ([], s)
  end.
Definition line_end (c : ascii) : bool := (code c =? 10)%N || (code c =? 13)%N.
(** A V, a version, two underscores, a description in one line and .sql, in any case. *)
Definition MIGRATION_FILE_RE (file : jsstr) : option (jsstr * jsstr) :=
  match file with
  | v :: d :: rest =>
      if str_eqb (toLowerCase [v]) (js "v") && is_digit d then
        let '(versionRaw, rest) := take_version (d :: rest) in
        let body := drop 2 rest in let n := (length body - 4)%nat in
        if startsWith rest (js "__") && str_eqb (toLowerCase (drop n body)) (js ".sql") && (1 <=? n)%nat && negb (existsb line_end (take n body))
        then Some (versionRaw, take n body) else None
      else None
  | _ => None
  end.

Definition replace_all (c : ascii) (by_ : ascii) (s : jsstr) : jsstr := (fun x => if bool_decide (x = c) then by_ else x) <$> s.
Definition parseVersionTuple (raw : jsstr) : list Z := dec_value <$> split underscore (replace_all "." underscore raw).
(** The loop over [i]. *)
Fixpoint compare_from (len : nat) (a b : list Z) : comparison :=
  match len with
  | O => Eq
  | S len => match default 0 (head a) ?= default 0 (head b) with Eq => compare_from len (tail a) (tail b) | c => c end
  end.
Definition compareVersions (a b : list Z) : comparison := compare_from (Nat.max (length a) (length b)) a b.
Definition by_version (a b : MigrationFile) : comparison := compareVersions (versionTuple a) (versionTuple b).

(** ** The database *)

(** A row of the history table, and the table. *)
Record HistoryRow : Set := mkHistoryRow { h_version : jsstr; h_script : jsstr; h_hash : option jsstr; h_success : bool }.
Record History : Set := mkHistory { rows : list HistoryRow; hash_column : bool; hash_required : bool; hash_unique : bool; script_unique : bool }.

(** What a script does to the data: the data it leaves, whether a statement of it committed
    implicitly, and whether it ended without an error. *)
Record ran (D : Type) : Type := mkRan { left_ : D; commits : bool; fine : bool }.
Arguments mkRan {D}. Arguments left_ {D}. Arguments commits {D}. Arguments fine {D}.

(** The data, the history table, what an open transaction goes back to, and what is outside. *)
Record Db (D W : Type) : Type := mkDb { data : D; history : option History; txn : option (D * option History); outside : W }.
Arguments mkDb {D W}. Arguments data {D W}. Arguments history {D W}. Arguments txn {D W}. Arguments outside {D W}.

(** [AppliedMigration] *)
Record AppliedMigration : Set := mkApplied { a_version : jsstr; a_script : jsstr; a_hash : option jsstr }.
Definition has_hash (a : AppliedMigration) : option jsstr := match a_hash a with Some [] | None => None | h => h end.

Section migrate.
  Context {D W : Type} (script : jsstr -> D -> ran D) (driver : W -> W * fate).
  (** The files of the image, and SHA-256. *)
  Context (readdir : jsstr -> option (list jsstr)) (readFile : jsstr -> jsstr -> option jsstr) (sha256 : jsstr -> jsstr).
  Notation Db := (Db D W).
  Notation Cmd := (Prog Db failure).

Definition with_outside (w : W) (s : Db) : Db := mkDb (data s) (history s) (txn s) w.
Notation query := (query_of outside with_outside driver Failure).
Notation statement := (statement_of outside with_outside driver Failure).

(** [discoverMigrations] *)
Definition found (location file : jsstr) : result failure (option MigrationFile) :=
  match MIGRATION_FILE_RE file with
  | None => Ok None
  | Some (versionRaw, d) =>
      match readFile location file with
      | None => Err Failure
      | Some sql => Ok (Some (mkMigrationFile (replace_all underscore "." versionRaw) (parseVersionTuple versionRaw)
                                (replace_all underscore " " d) file sql (sha256 sql)))
      end
  end.
Fixpoint found_in (location : jsstr) (files : list jsstr) : result failure (list MigrationFile) :=
  match files with
  | [] => Ok []
  | file :: files =>
      match found location file with
      | Err e => Err e
      | Ok m => match found_in location files with Err e => Err e | Ok l => Ok (option_list m ++ l) end
      end
  end.
Fixpoint read_all (locations : list jsstr) : result failure (list MigrationFile) :=
  match locations with
  | [] => Ok []
  | location :: locations =>
      match readdir location with
      | None => Err Failure
      | Some files =>
          match found_in location files with
          | Err e => Err e
          | Ok l => match read_all locations with Err e => Err e | Ok l' => Ok (l ++ l') end
          end
      end
  end.
Definition discoverMigrations (locations : list jsstr) : result failure (list MigrationFile) :=
  match read_all locations with Ok l => Ok (sort by_version l) | Err e => Err e end.

(** *** The history table *)

Definition with_history (f : History -> result failure History) (s : Db) : result failure Db :=
  match history s with
  | None => Err Failure
  | Some h => match f h with Ok h => Ok (mkDb (data s) (Some h) (txn s) (outside s)) | Err e => Err e end
  end.
Definition table (s : Db) (f : History -> bool) : bool := match history s with Some h => f h | None => false end.

Definition hasHashColumn : Cmd bool := query (fun s => table s hash_column).
Definition hasHashIndex : Cmd bool := query (fun s => table s hash_unique).
Definition hasScriptIndex : Cmd bool := query (fun s => table s script_unique).
(** [CREATE TABLE IF NOT EXISTS] *)
Definition create_table (required : bool) (s : Db) : result failure Db :=
  match history s with
  | Some _ => Ok s
  | None => Ok (mkDb (data s) (Some (mkHistory [] true required true false)) (txn s) (outside s))
  end.
Definition succeeded (with_hash : bool) (h : History) : list AppliedMigration :=
  (fun r => mkApplied (h_version r) (h_script r) (if with_hash then h_hash r else None)) <$> List.filter h_success (rows h).
Definition getAppliedMigrations : Cmd (list AppliedMigration) :=
  let* has := hasHashColumn in
  let* _ := statement (create_table has) in
  query (fun s => match history s with Some h => succeeded has h | None => [] end).

Definition set_rows (h : History) (l : list HistoryRow) : History := mkHistory l (hash_column h) (hash_required h) (hash_unique h) (script_unique h).
Definition clashes (h : History) (v : option jsstr) (value : jsstr) : bool :=
  hash_unique h && existsb (fun r => bool_decide (h_hash r = Some value) && negb (bool_decide (Some (h_version r) = v))) (rows h).
(** [UPDATE ... SET hash = ? WHERE version = ?] *)
Definition set_hash (v value : jsstr) (h : History) : result failure History :=
  if clashes h (Some v) value then Err Failure
  else Ok (set_rows h ((fun r => if str_eqb (h_version r) v then mkHistoryRow v (h_script r) (Some value) (h_success r) else r) <$> rows h)).
Definition add_column (h : History) : result failure History :=
  if hash_column h then Err Failure
  else Ok (mkHistory ((fun r => mkHistoryRow (h_version r) (h_script r) None (h_success r)) <$> rows h) true false (hash_unique h) (script_unique h)).
Definition require_hash (h : History) : result failure History :=
  if forallb (fun r => match h_hash r with Some _ => true | None => false end) (rows h)
  then Ok (mkHistory (rows h) (hash_column h) true (hash_unique h) (script_unique h)) else Err Failure.
Definition add_index (h : History) : result failure History :=
  if bool_decide (NoDup (omap h_hash (rows h))) then Ok (mkHistory (rows h) (hash_column h) (hash_required h) true (script_unique h)) else Err Failure.
Definition drop_script_index (h : History) : result failure History :=
  Ok (mkHistory (rows h) (hash_column h) (hash_required h) (hash_unique h) false).

(** [new Map] of the files by version: the last one counts. *)
Definition of_version (migrations : list MigrationFile) (v : jsstr) : option MigrationFile :=
  last (List.filter (fun m => str_eqb (version m) v) migrations).
Fixpoint backfill (migrations : list MigrationFile) (applied : list AppliedMigration) : Cmd unit :=
  match applied with
  | [] => ret tt
  | a :: applied =>
      match has_hash a with
      | Some _ => backfill migrations applied
      | None =>
          match of_version migrations (a_version a) with
          | None => throw Failure
          | Some m => let* _ := statement (with_history (set_hash (a_version a) (hash m))) in backfill migrations applied
          end
      end
  end.
Definition ensureHistoryTable (migrations : list MigrationFile) : Cmd unit :=
  let* applied := getAppliedMigrations in
  let* has := hasHashColumn in
  let* applied := if has : bool then ret applied
                  else let* _ := statement (with_history add_column) in getAppliedMigrations in
  let* _ := backfill migrations applied in
  let* _ := statement (with_history require_hash) in
  let* indexed := hasHashIndex in
  let* _ := if indexed : bool then ret tt else statement (with_history add_index) in
  let* old := hasScriptIndex in
  if old : bool then statement (with_history drop_script_index) else ret tt.

(** [INSERT], under the unique keys. *)
Definition insert_row (r : HistoryRow) (h : History) : result failure History :=
  if existsb (fun x => str_eqb (h_version x) (h_version r)) (rows h)
     || match h_hash r with Some value => clashes h None value | None => hash_required h end
     || (script_unique h && existsb (fun x => str_eqb (h_script x) (h_script r)) (rows h))
  then Err Failure else Ok (set_rows h (rows h ++ [r])).
Definition row_of (m : MigrationFile) : HistoryRow := mkHistoryRow (version m) (filename m) (Some (hash m)) true.
Definition recordMigration (m : MigrationFile) : Cmd unit := statement (with_history (insert_row (row_of m))).

(** *** Transactions *)

Definition begin (s : Db) : result failure Db := Ok (mkDb (data s) (history s) (Some (data s, history s)) (outside s)).
Definition commit (s : Db) : result failure Db := Ok (mkDb (data s) (history s) None (outside s)).
Definition rollback (s : Db) : result failure Db :=
  Ok (match txn s with Some (d, h) => mkDb d h None (outside s) | None => s end).
(** A script; an implicit commit ends the transaction, what follows it commits by itself. *)
Definition scripted (text : jsstr) (s : Db) : Db :=
  let r := script text (data s) in mkDb (left_ r) (history s) (if commits r then None else txn s) (outside s).
Definition run_script (text : jsstr) : Cmd unit :=
  Call (fun s => let s' := with_outside (fst (driver (outside s))) s in
          match snd (driver (outside s)) with Refused => s' | _ => scripted text s' end)
    (fun s => match snd (driver (outside s)) with Works => if fine (script text (data s)) then ret tt else throw Failure | _ => throw Failure end).

(** *** [migrate] *)

Definition index_by (key : AppliedMigration -> option jsstr) (l : list AppliedMigration) : gmap jsstr AppliedMigration :=
  fold_left (fun m a => match key a with Some k => <[k := a]> m | None => m end) l ∅.
Definition applied_of (m : MigrationFile) : AppliedMigration := mkApplied (version m) (filename m) (Some (hash m)).

Definition execute (m : MigrationFile) : Cmd unit :=
  let* _ := statement begin in
  catch (let* _ := run_script (sql m) in
         let* _ := recordMigration m in
         statement commit)
    (fun _ => let* _ := statement rollback in throw Failure).
Fixpoint execute_all (all : list MigrationFile) (byVersion byHash : gmap jsstr AppliedMigration) (executed : Z) : Cmd Z :=
  match all with
  | [] => ret executed
  | m :: all =>
      match byVersion !! version m with
      | Some a => if bool_decide (a_hash a = Some (hash m)) then execute_all all byVersion byHash executed else throw Failure
      | None =>
          match byHash !! hash m with
          | Some _ => throw Failure
          | None =>
              let* _ := execute m in
              execute_all all (<[version m := applied_of m]> byVersion) (<[hash m := applied_of m]> byHash) (executed + 1)
          end
      end
  end.

(** [connection.end()]: the server rolls back what is open. *)
Definition end_ : Cmd unit :=
  Call (fun s => let s' := with_outside (fst (driver (outside s))) s in match rollback s' with Ok s => s | Err _ => s' end)
    (fun s => match snd (driver (outside s)) with Works => ret tt | _ => throw Failure end).
Definition migrate (locations : list jsstr) : Cmd Z :=
  let* _ := query (fun _ => tt) in
  let* r := catch
    (let* n := match discoverMigrations locations with
      | Err e => throw e
      | Ok all =>
          let* _ := ensureHistoryTable all in
          let* applied := getAppliedMigrations in
          execute_all all (index_by (fun a => Some (a_version a)) applied) (index_by has_hash applied) 0
      end in ret (Ok n)) (fun e => ret (Err e)) in
  let* _ := end_ in
  Done r.
End migrate.

(** ** Reference definitions *)

Section specification.
  Context {D W : Type} (script : jsstr -> D -> ran D).
  Notation Db := (Db D W).

(** What is left of a database whose connection ends. *)
Definition durable (s : Db) : D * option History := match txn s with Some kept => kept | None => (data s, history s) end.
Definition versions (h : option History) : list jsstr := match h with Some h => h_version <$> rows h | None => [] end.
(** The data after the scripts of some files. *)
Definition scripts_run (l : list MigrationFile) (d : D) : D := fold_left (fun d m => left_ (script (sql m) d)) l d.
Fixpoint all_fine (l : list MigrationFile) (d : D) : Prop :=
  match l with [] => True | m :: l => fine (script (sql m) d) = true /\ all_fine l (left_ (script (sql m) d)) end.

(** The files that are to be executed, up to the first conflict, and whether there is one. *)
Fixpoint plan (all : list MigrationFile) (byVersion byHash : gmap jsstr AppliedMigration) : list MigrationFile * bool :=
  match all with
  | [] => ([], false)
  | m :: all =>
      match byVersion !! version m with
      | Some a => if bool_decide (a_hash a = Some (hash m)) then plan all byVersion byHash else ([], true)
      | None =>
          match byHash !! hash m with
          | Some _ => ([], true)
          | None => let '(l, c) := plan all (<[version m := applied_of m]> byVersion) (<[hash m := applied_of m]> byHash) in (m :: l, c)
          end
      end
  end.

(** From [s] on, exactly the files of [l] were executed and recorded. *)
Definition migrated (s : Db) (l : list MigrationFile) (s' : Db) : Prop :=
  fst (durable s') = scripts_run l (fst (durable s)) /\ all_fine l (fst (durable s)) /\
  versions (snd (durable s')) = versions (snd (durable s)) ++ (version <$> l).
End specification.

(** * Properties *)

(** ** Versions *)

Lemma compare_padded n a b : (length a <= n)%nat -> (length b <= n)%nat -> compareVersions a b = compare_from n a b.
Proof.
  intros Ha Hb. unfold compareVersions. assert (Hm : (Nat.max (length a) (length b) <= n)%nat) by lia. clear Ha Hb.
  revert a b Hm. induction n as [|n IH]; intros a b Hm; [by destruct (Nat.max _ _); [|lia]|].
  destruct (Nat.max (length a) (length b)) as [|m] eqn:E.
  - destruct a, b; try done. cbn [compare_from head default tail]. cbn. by rewrite <- (IH [] []) by (cbn; lia).
  - cbn [compare_from]. destruct (_ ?= _); [|done..]. replace m with (Nat.max (length (tail a)) (length (tail b))) by (destruct a, b; cbn in *; lia).
    apply IH. destruct a, b; cbn in *; lia.
Qed.
Lemma compare_from_opp n a b : compare_from n b a = CompOpp (compare_from n a b).
Proof. revert a b. induction n as [|n IH]; intros a b; [done|]. cbn [compare_from]. rewrite (Z.compare_antisym (default 0 (head a))). destruct (default 0 (head a) ?= _); cbn; [apply IH|done|done]. Qed.
Lemma compare_from_eq n a b c : compare_from n a b = Eq -> compare_from n a c = compare_from n b c.
Proof.
  revert a b c. induction n as [|n IH]; intros a b c; [done|]. cbn [compare_from]. destruct (Z.compare_spec (default 0 (head a)) (default 0 (head b))) as [->| |]; try done.
  intros H. destruct (default 0 (head b) ?= _); [by apply IH|done|done].
Qed.
Lemma compare_from_lt n a b c : compare_from n a b = Lt -> compare_from n b c = Lt -> compare_from n a c = Lt.
Proof.
  revert a b c. induction n as [|n IH]; intros a b c; [done|]. cbn [compare_from].
  destruct (Z.compare_spec (default 0 (head a)) (default 0 (head b))), (Z.compare_spec (default 0 (head b)) (default 0 (head c))),
    (Z.compare_spec (default 0 (head a)) (default 0 (head c))); try lia; try done. apply IH.
Qed.
#[export] Instance versions_ordering : Ordering by_version.
Proof.
  assert (Hn : forall a b c : list Z, exists n, (length a <= n /\ length b <= n /\ length c <= n)%nat) by (intros a b c; exists (length a + length b + length c)%nat; lia).
  split; unfold by_version; intros [? a ? ? ? ?] [? b ? ? ? ?]; cbn [versionTuple].
  - destruct (Hn a b b) as (n & ? & ? & ?). rewrite !(compare_padded n) by done. apply compare_from_opp.
  - intros [? c ? ? ? ?]; cbn [versionTuple]. destruct (Hn a b c) as (n & ? & ? & ?). rewrite !(compare_padded n) by done. apply compare_from_lt.
  - intros [? c ? ? ? ?]; cbn [versionTuple]. destruct (Hn a b c) as (n & ? & ? & ?). rewrite !(compare_padded n) by done. apply compare_from_eq.
Qed.

(** ** The plan *)

Definition planned (m : MigrationFile) (byVersion : gmap jsstr AppliedMigration) : Prop :=
  exists a, byVersion !! version m = Some a /\ a_hash a = Some (hash m).
Definition after_plan (l : list MigrationFile) (byVersion : gmap jsstr AppliedMigration) : gmap jsstr AppliedMigration :=
  fold_left (fun v m => <[version m := applied_of m]> v) l byVersion.

Lemma plan_new all byVersion byHash l c : plan all byVersion byHash = (l, c) ->
  sublist l all /\ NoDup (version <$> l) /\ Forall (fun m => byVersion !! version m = None) l.
Proof.
  revert byVersion byHash l. induction all as [|m all IH]; intros byVersion byHash l; cbn [plan].
  - intros [= <- _]. repeat constructor.
  - assert (Hnil : sublist [] (m :: all) /\ NoDup (version <$> ([] : list MigrationFile)) /\ Forall (fun m => byVersion !! version m = None) []).
    { split; [apply sublist_nil_l|]. repeat constructor. }
    destruct (byVersion !! version m) as [a|] eqn:Hv.
    + case_bool_decide; [|by intros [= <- _]]. intros Hp. destruct (IH _ _ _ Hp) as (H1 & H2 & H3). split; [by constructor|done].
    + destruct (byHash !! hash m); [by intros [= <- _]|]. destruct (plan all _ _) as [l' c'] eqn:Hp. intros [= <- ->].
      destruct (IH _ _ _ Hp) as (H1 & H2 & H3). split; [by constructor|]. rewrite Forall_forall in H3. split.
      * cbn. constructor; [|done]. intros (m' & E & Hm')%list_elem_of_fmap. specialize (H3 m' Hm'). by rewrite <- E, lookup_insert_eq in H3.
      * constructor; [done|]. apply Forall_forall. intros m' Hm'. specialize (H3 m' Hm'). by apply lookup_insert_None in H3 as [H3 _].
Qed.
Lemma after_plan_keeps l byVersion v a : byVersion !! v = Some a -> Forall (fun m => byVersion !! version m = None) l -> after_plan l byVersion !! v = Some a.
Proof.
  revert byVersion. unfold after_plan. induction l as [|m l IH] using rev_ind; intros byVersion Hv Hl; [done|]. apply Forall_app in Hl as [Hl Hm].
  rewrite fold_left_app. cbn. rewrite lookup_insert_ne; [by apply IH|]. intros <-. inversion Hm. congruence.
Qed.
Lemma plan_covers all byVersion byHash l : plan all byVersion byHash = (l, false) -> Forall (fun m => planned m (after_plan l byVersion)) all.
Proof.
  revert byVersion byHash l. induction all as [|m all IH]; intros byVersion byHash l; cbn [plan]; [constructor|].
  destruct (byVersion !! version m) as [a|] eqn:Hv.
  - case_bool_decide; [|done]. intros Hp. constructor; [|by eapply IH]. exists a. split; [|done].
    destruct (plan_new _ _ _ _ _ Hp) as (_ & _ & Hn). by apply after_plan_keeps.
  - destruct (byHash !! hash m); [done|]. destruct (plan all _ _) as [l' c'] eqn:Hp. intros [= <- ->]. constructor; [|by apply (IH _ _ _ Hp)].
    exists (applied_of m). split; [|done]. destruct (plan_new _ _ _ _ _ Hp) as (_ & _ & Hn). cbn. apply after_plan_keeps; [by rewrite lookup_insert_eq|done].
Qed.
Lemma plan_settled all byVersion byHash : Forall (fun m => planned m byVersion) all -> plan all byVersion byHash = ([], false).
Proof. induction 1 as [|m all (a & Hv & Ha) _ IH]; [done|]. cbn [plan]. by rewrite Hv, bool_decide_true. Qed.

(** ** Statements *)

Section runs.
  Context {D W : Type} (script : jsstr -> D -> ran D) (driver : W -> W * fate).
  Notation Db := (Db D W).
  Notation Cmd := (Prog Db failure).
  Notation query := (query_of outside with_outside driver Failure).
  Notation statement := (statement_of outside with_outside driver Failure).
  Notation migrated := (migrated script).
  Implicit Types s : Db.

Definition asked s : Db := with_outside (fst (driver (outside s))) s.
Lemma run_statement f s :
  (exists s2, f (asked s) = Ok s2 /\ run (statement f) s = (s2, Ok tt)) \/
  (exists e s2, run (statement f) s = (s2, Err e) /\ (s2 = asked s \/ f (asked s) = Ok s2)).
Proof.
  unfold statement_of. cbn [run]. fold (asked s). destruct (snd (driver (outside s))), (f (asked s)) as [s2|e]; cbn; eauto 8.
Qed.
Lemma always_statement (I : Db -> Prop) f s : I s -> I (asked s) -> (forall s2, f (asked s) = Ok s2 -> I s2) -> always I (statement f) s.
Proof.
  intros H1 H2 H3. apply always_call; [done|]. cbn zeta. fold (asked s). 
  assert (I (match snd (driver (outside s)), f (asked s) with Works, Ok s2 | Lost, Ok s2 => s2 | _, _ => asked s end)).
  { destruct (snd (driver (outside s))), (f (asked s)) as [s2|e]; auto. }
  destruct (snd (driver (outside s))), (f (asked s)); by apply always_done.
Qed.
Lemma run_query_course {A} (f : Db -> A) s : (run (query f) s = (asked s, Ok (f s))) \/ exists e, run (query f) s = (asked s, Err e).
Proof. unfold query_of. cbn [run]. fold (asked s). destruct (snd (driver (outside s))); cbn; eauto. Qed.

Lemma always_moves (G : Db -> Db -> Prop) `{!PreOrder G} {A} (p : Cmd A) s : moves G p -> always (G s) p s.
Proof.
  intros Hp n. assert (H : forall n (p : Cmd A) s, moves G p -> G s (fst (advance n p s))); [|by apply H]. clear p s n Hp. intros n.
  induction n as [|n IH]; intros [r|f k] s; cbn [advance]; try (intros _; reflexivity). intros [Hf Hk]. cbn [advance]. etransitivity; [apply Hf|]. by apply IH.
Qed.

(** ** The history table *)

Definition recorded (h : option History) : list (jsstr * bool) := match h with Some h => (fun r => (h_version r, h_success r)) <$> rows h | None => [] end.
Lemma versions_recorded h : versions h = fst <$> recorded h.
Proof. destruct h as [h|]; [|done]. cbn. by rewrite <- list_fmap_compose. Qed.
(** Only hashes and indexes change. *)
Definition prepares s s' : Prop := data s' = data s /\ txn s' = txn s /\ recorded (history s') = recorded (history s).
#[local] Instance prepares_preorder : PreOrder prepares.
Proof. split; [by intros s|]. intros s1 s2 s3 (H1 & H2 & H3) (H4 & H5 & H6). repeat split; congruence. Qed.

Lemma moves_query {A} (f : Db -> A) : moves prepares (query f).
Proof. split; [by intros s|]. intros s. destruct (snd (driver (outside s))); done. Qed.
Lemma moves_statement f : (forall s s', f s = Ok s' -> prepares s s') -> moves prepares (statement f).
Proof.
  intros Hf. split.
  - intros s. cbn zeta. fold (asked s). assert (H : prepares s (asked s)) by done.
    destruct (snd (driver (outside s))), (f (asked s)) as [s2|e] eqn:E; try done; apply Hf in E; by etransitivity.
  - intros s. cbn zeta. fold (asked s). destruct (snd (driver (outside s))), (f (asked s)); done.
Qed.
Lemma moves_history f : (forall h h', f h = Ok h' -> recorded (Some h') = recorded (Some h)) -> moves prepares (statement (with_history f)).
Proof.
  intros Hf. apply moves_statement. intros s s'. unfold with_history. destruct (history s) as [h|] eqn:Eh; [|done].
  destruct (f h) as [h'|] eqn:E; [|done]. intros H. apply Ok_inj in H as <-. split; [done|]. split; [done|]. cbn [history]. rewrite Eh. by apply Hf.
Qed.
Lemma moves_create b : moves prepares (statement (create_table b)).
Proof. apply moves_statement. intros s s'. unfold create_table. destruct (history s) as [h|] eqn:E; intros H; apply Ok_inj in H as <-; [done|]. split; [done|]. split; [done|]. by rewrite E. Qed.
Lemma moves_set_hash v value : moves prepares (statement (with_history (set_hash v value))).
Proof.
  apply moves_history. intros h h'. unfold set_hash. destruct (clashes h (Some v) value); [done|]. intros H. apply Ok_inj in H as <-. cbn.
  rewrite <- list_fmap_compose. apply list_fmap_ext. intros _ r _. cbn. destruct (str_eqb (h_version r) v) eqn:E; [|done].
  apply bool_decide_eq_true in E. by rewrite <- E.
Qed.
Lemma moves_alter f : f = add_column \/ f = require_hash \/ f = add_index \/ f = drop_script_index -> moves prepares (statement (with_history f)).
Proof.
  intros Hf. apply moves_history. intros h h'. destruct Hf as [->|[->|[->| ->]]].
  - unfold add_column. destruct (hash_column h); [done|]. intros H. apply Ok_inj in H as <-. cbn. by rewrite <- list_fmap_compose.
  - unfold require_hash. destruct (forallb _ _); [|done]. intros H. by apply Ok_inj in H as <-.
  - unfold add_index. case_bool_decide; [|done]. intros Ha. by apply Ok_inj in Ha as <-.
  - intros H. by apply Ok_inj in H as <-.
Qed.
#[local] Hint Resolve moves_query moves_create moves_set_hash : moving.
#[local] Hint Extern 1 (moves _ (statement_of _ _ _ _ (with_history _))) => apply moves_alter; tauto : moving.
Lemma moves_applied : moves prepares (getAppliedMigrations driver).
Proof. unfold getAppliedMigrations, hasHashColumn. movingly; apply _. Qed.
#[local] Hint Resolve moves_applied : moving.
Lemma moves_backfill migrations applied : moves prepares (backfill driver migrations applied).
Proof. induction applied as [|a applied IH]; [done|]. cbn [backfill]. destruct (has_hash a); [done|]. destruct (of_version _ _); [|done]. by movingly; try apply _. Qed.
#[local] Hint Resolve moves_backfill : moving.
Lemma moves_ensure migrations : moves prepares (ensureHistoryTable driver migrations).
Proof. unfold ensureHistoryTable, hasHashColumn, hasHashIndex, hasScriptIndex. movingly; try apply _; try done. Qed.

(** The versions that are recorded as applied. *)
Definition successes (h : option History) : list jsstr := fst <$> List.filter snd (recorded h).
Lemma applied_successes s applied : snd (run (getAppliedMigrations driver) s) = Ok applied -> a_version <$> applied = successes (history s).
Proof.
  unfold getAppliedMigrations, hasHashColumn. rewrite run_query. set (b := table s hash_column). destruct (snd (driver (outside s))); try done.
  fold (asked s). rewrite run_bind. destruct (run_statement (create_table b) (asked s)) as [(s2 & Hf & ->)|(e & s2 & -> & _)]; [|done].
  destruct (run_query_course (fun s => match history s with Some h => succeeded b h | None => [] end) s2) as [->|[e ->]]; [|done].
  cbn [snd]. intros H. apply Ok_inj in H as <-. unfold successes, create_table in *. change (history (asked (asked s))) with (history s) in Hf.
  destruct (history s) as [h|] eqn:Eh; apply Ok_inj in Hf as <-; [|done].
  change (history (asked (asked s))) with (history s). rewrite Eh. unfold succeeded, recorded. cbn. clear.
  induction (rows h) as [|r l IH]; [done|]. cbn. destruct (h_success r); cbn; [f_equal|]; exact IH.
Qed.

(** ** Executions *)

Context (transactional : forall text d, commits (script text d) = false).

Lemma migrated_none s s' : durable s' = durable s -> migrated s [] s'.
Proof. intros H. unfold migrated, Migrations.migrated. rewrite H. cbn. by rewrite app_nil_r. Qed.
Lemma migrated_prepares s s' : txn s = None -> prepares s s' -> migrated s [] s'.
Proof.
  intros Ht (H1 & H2 & H3). unfold migrated, Migrations.migrated, durable. rewrite H2, Ht. cbn. rewrite H1, app_nil_r. split; [done|]. split; [done|].
  by rewrite !versions_recorded, H3.
Qed.
Lemma migrated_trans s l s1 l' s' : migrated s l s1 -> migrated s1 l' s' -> migrated s (l ++ l') s'.
Proof.
  intros (H1 & H2 & H3) (H4 & H5 & H6). unfold Migrations.migrated. rewrite H4, H1, H6, H3. unfold scripts_run. rewrite fold_left_app.
  split; [done|]. split; [|by rewrite fmap_app, app_assoc]. rewrite H1 in H5. clear -H2 H5. revert H2 H5. generalize (fst (durable s)).
  induction l as [|m l IH]; intros d; [done|]. cbn. intros [Hm Hl] Hl'. split; [done|]. by apply IH.
Qed.

(** The moments of one migration, from [s]. *)
Section execution.
  Context (m : MigrationFile) (s : Db) (Ht : txn s = None).
Definition one_or_none s' : Prop := migrated s [] s' \/ migrated s [m] s'.
Definition open_ s' : Prop := txn s' = Some (data s, history s).

Lemma open_none s' : open_ s' -> one_or_none s'.
Proof. intros H. left. apply migrated_none. unfold durable. by rewrite H, Ht. Qed.
Lemma back_none s' : one_or_none s' -> txn s' = None \/ open_ s' -> always one_or_none (let* _ := statement rollback in throw Failure : Cmd unit) s'.
Proof.
  intros HP Htx. assert (Hr : forall s2, rollback (asked s') = Ok s2 -> one_or_none s2).
  { intros s2. unfold rollback. change (txn (asked s')) with (txn s'). intros H. apply Ok_inj in H as <-. destruct Htx as [E|E]; rewrite E; [exact HP|].
    left. apply migrated_none. unfold durable. by rewrite Ht. }
  apply always_bind; [by apply always_statement|]. intros u _. apply always_done. destruct (run_statement rollback s') as [(s2 & Hf & ->)|(e & s2 & -> & [->|Hs])]; cbn; auto.
Qed.

Lemma script_open s1 : open_ s1 -> data s1 = data s -> history s1 = history s -> open_ (fst (run (run_script script driver (sql m)) s1)) /\
  history (fst (run (run_script script driver (sql m)) s1)) = history s /\
  forall u, snd (run (run_script script driver (sql m)) s1) = Ok u ->
    fine (script (sql m) (data s)) = true /\ data (fst (run (run_script script driver (sql m)) s1)) = left_ (script (sql m) (data s)).
Proof.
  intros Ho Hd Hh. unfold run_script, open_ in *. cbn [run]. rewrite Hd. destruct (snd (driver (outside s1))).
  - destruct (fine (script (sql m) (data s))); cbn; by rewrite Hd, transactional.
  - done.
  - cbn. by rewrite transactional.
Qed.
Lemma record_open s2 : open_ s2 -> history s2 = history s ->
  always open_ (recordMigration driver m) s2 /\
  forall u, snd (run (recordMigration driver m) s2) = Ok u -> data (fst (run (recordMigration driver m) s2)) = data s2 /\
    versions (history (fst (run (recordMigration driver m) s2))) = versions (history s) ++ [version m].
Proof.
  intros Ho Hh. assert (Hf : forall s3, with_history (insert_row (row_of m)) (asked s2) = Ok s3 ->
    open_ s3 /\ data s3 = data s2 /\ versions (history s3) = versions (history s) ++ [version m]).
  { intros s3. unfold with_history. change (history (asked s2)) with (history s2). rewrite Hh. destruct (history s) as [h|] eqn:E; [|done].
    unfold insert_row. destruct (_ || _ || _); [done|]. intros H. apply Ok_inj in H as <-. split; [exact Ho|]. split; [done|]. cbn. by rewrite fmap_app. }
  split; [by apply always_statement; [| |intros s3 H; apply Hf]|]. intros u. unfold recordMigration.
  destruct (run_statement (with_history (insert_row (row_of m))) s2) as [(s3 & H & ->)|(e & s3 & -> & _)]; [|done]. intros _. by apply Hf.
Qed.

(** A migration is executed and recorded, or neither. *)
Lemma execute_course : always one_or_none (execute script driver m) s /\
  (forall u, snd (run (execute script driver m) s) = Ok u ->
     txn (fst (run (execute script driver m) s)) = None /\ migrated s [m] (fst (run (execute script driver m) s))).
Proof.
  assert (Hnone : one_or_none s) by (left; by apply migrated_none).
  assert (Hbegin : forall s1, begin (asked s) = Ok s1 -> open_ s1 /\ data s1 = data s /\ history s1 = history s) by (intros s1 H; by apply Ok_inj in H as <-).
  set (body := let* _ := run_script script driver (sql m) in let* _ := recordMigration driver m in statement commit).
  assert (Hbody : forall s1, open_ s1 -> data s1 = data s -> history s1 = history s ->
    always (fun s' => one_or_none s' /\ (txn s' = None \/ open_ s')) body s1 /\
    forall u, snd (run body s1) = Ok u -> txn (fst (run body s1)) = None /\ migrated s [m] (fst (run body s1))).
  { intros s1 Ho Hd Hh. destruct (script_open s1 Ho Hd Hh) as (Ho2 & Hh2 & Hs2). assert (Hopen : forall s', open_ s' -> one_or_none s' /\ (txn s' = None \/ open_ s')).
    { intros s' H. split; [by apply open_none|by right]. }
    unfold body. split.
    - apply always_bind.
      { unfold run_script in *. apply always_call; [by apply Hopen|].  cbn [run fst] in Ho2.
        destruct (snd (driver (outside s1))); [destruct (fine _)|..]; apply always_done, Hopen, Ho2. }
      intros u Hu. destruct (Hs2 u Hu) as [Hfine Hdata]. set (s2 := fst (run (run_script script driver (sql m)) s1)) in *. destruct (record_open s2 Ho2 Hh2) as [Ha Hr].
      apply always_bind; [eapply always_weaken; [exact Hopen|exact Ha]|].
      intros u' Hu'. destruct (Hr u' Hu') as [Hdata3 Hversions]. pose proof (always_run _ _ _ Ha) as Ho3. set (s3 := fst (run (recordMigration driver m) s2)) in *.
      apply always_statement; [by apply Hopen|by apply Hopen|]. intros s4 H. apply Ok_inj in H as <-. split; [|by left]. right.
      unfold migrated, Migrations.migrated, durable. cbn. rewrite Ht. cbn. rewrite Hdata3, Hversions, Hdata. done.
    - intros u. rewrite !run_bind. destruct (run (run_script script driver (sql m)) s1) as [s2 [u2|e]] eqn:E2; [|done]. cbn [fst snd] in Ho2, Hh2, Hs2.
      destruct (Hs2 u2 eq_refl) as [Hfine Hdata]. rewrite run_bind. destruct (record_open s2 Ho2 Hh2) as [Ha Hr].
      destruct (run (recordMigration driver m) s2) as [s3 [u3|e]] eqn:E3; [|done]. cbn [fst snd] in Hr. destruct (Hr u3 eq_refl) as [Hdata3 Hversions].
      destruct (run_statement commit s3) as [(s4 & Hf & ->)|(e & s4 & -> & _)]; [|done]. intros _. apply Ok_inj in Hf as <-. cbn. split; [done|].
      unfold migrated, Migrations.migrated, durable. cbn. rewrite Ht. cbn. rewrite Hdata3, Hversions, Hdata. done. }
  unfold execute. fold body. split.
  - apply always_bind; [apply always_statement; [done|done|intros s1 H; by apply open_none, Hbegin]|].
    intros u Hu. destruct (run_statement begin s) as [(s1 & Hf & E)|(e & s1 & E & _)]; rewrite E in *; [|done]. cbn [fst].
    destruct (Hbegin s1 Hf) as (Ho & Hd & Hh). destruct (Hbody s1 Ho Hd Hh) as [Ha _]. apply always_catch.
    + eapply always_weaken; [|exact Ha]. by intros s' [H _].
    + intros e _. pose proof (always_run _ _ _ Ha) as [HP Htx]. by apply back_none.
  - intros u. rewrite run_bind. destruct (run_statement begin s) as [(s1 & Hf & ->)|(e & s1 & -> & _)]; [|done].
    destruct (Hbegin s1 Hf) as (Ho & Hd & Hh). destruct (Hbody s1 Ho Hd Hh) as [_ Hr]. rewrite run_catch.
    destruct (run body s1) as [s2 [u2|e]]; [by apply Hr|]. rewrite run_bind. destruct (run (statement rollback) s2) as [s3 [?|?]]; done.
Qed.
End execution.

Lemma execute_all_course all byVersion byHash n s : txn s = None ->
  let '(l, conflict) := plan all byVersion byHash in
  always (fun s' => exists l', l' `prefix_of` l /\ migrated s l' s') (execute_all script driver all byVersion byHash n) s /\
  (forall n', snd (run (execute_all script driver all byVersion byHash n) s) = Ok n' ->
     conflict = false /\ n' = n + Z.of_nat (length l) /\ migrated s l (fst (run (execute_all script driver all byVersion byHash n) s))).
Proof.
  revert byVersion byHash n s. induction all as [|m all IH]; intros byVersion byHash n s Ht; cbn [plan execute_all].
  - split; [apply always_done; exists []; split; [done|by apply migrated_none]|]. intros n' H. apply Ok_inj in H as <-. split; [done|]. split; [cbn; lia|]. by apply migrated_none.
  - assert (Hstop : always (fun s' => exists l', l' `prefix_of` [] /\ migrated s l' s') (throw Failure : Cmd Z) s).
    { apply always_done. exists []. split; [done|by apply migrated_none]. }
    destruct (byVersion !! version m) as [a|]; [case_bool_decide; [by apply IH|done]|]. destruct (byHash !! hash m) as [a|]; [done|].
    set (byV := <[version m := applied_of m]> byVersion). set (byH := <[hash m := applied_of m]> byHash).
    destruct (execute_course m s Ht) as [Ha Hr]. assert (Hrest : forall s1, txn s1 = None ->
      let '(l, conflict) := plan all byV byH in
      always (fun s' => exists l', l' `prefix_of` l /\ migrated s1 l' s') (execute_all script driver all byV byH (n + 1)) s1 /\
      (forall n', snd (run (execute_all script driver all byV byH (n + 1)) s1) = Ok n' ->
         conflict = false /\ n' = n + 1 + Z.of_nat (length l) /\ migrated s1 l (fst (run (execute_all script driver all byV byH (n + 1)) s1)))) by (intros s1; apply IH).
    destruct (plan all byV byH) as [l conflict]. split.
    + apply always_bind.
      * eapply always_weaken; [|exact Ha]. intros s' [H|H]; [exists []|exists [m]]; (split; [|exact H]); [apply prefix_nil|apply prefix_cons, prefix_nil].
      * intros u Hu. destruct (Hr u Hu) as [Ht1 Hm]. eapply always_weaken; [|apply Hrest, Ht1]. intros s' (l' & Hp & Hl').
        exists (m :: l'). split; [by apply prefix_cons|]. change (m :: l') with ([m] ++ l'). by eapply migrated_trans.
    + intros n'. rewrite run_bind. destruct (run (execute script driver m) s) as [s1 [u|e]]; [|done]. destruct (Hr u eq_refl) as [Ht1 Hm]. cbn [fst] in *.
      intros Hn. destruct (Hrest s1 Ht1) as [_ H]. destruct (H n' Hn) as (H1 & H2 & H3). split; [done|]. split; [cbn [length]; lia|].
      change (m :: l) with ([m] ++ l). by eapply migrated_trans.
Qed.

Definition ended s : Db := match rollback (asked s) with Ok s => s | Err _ => asked s end.
Lemma durable_ended s : durable (ended s) = durable s /\ txn (ended s) = None.
Proof. unfold ended, rollback, durable, asked, with_outside. cbn [txn data history outside]. by destruct (txn s) as [[d h]|] eqn:E; cbn; rewrite ?E. Qed.
Lemma run_end s : exists r, run (end_ driver) s = (ended s, r).
Proof. unfold end_. cbn [run]. change (match rollback _ with Ok s => s | Err _ => _ end) with (ended s). destruct (snd (driver (outside s))); by eexists. Qed.
Lemma always_end (I : Db -> Prop) s : (forall s1 s2, durable s1 = durable s2 -> I s1 -> I s2) -> I s -> always I (end_ driver) s.
Proof.
  intros HI Hs. apply always_call; [done|]. change (match rollback _ with Ok s => s | Err _ => _ end) with (ended s).
  destruct (snd (driver (outside s))); apply always_done; (eapply HI; [|exact Hs]); symmetry; apply durable_ended.
Qed.

(** The frame of [migrate]: a first query, the body with its error caught, the connection ended. *)
Lemma connection_course (I : Db -> Prop) (body : Cmd Z) s :
  let p := let* _ := query (fun _ => tt) in let* r := catch (let* n := body in ret (Ok n)) (fun e => ret (Err e)) in let* _ := end_ driver in Done r in
  (forall s1 s2, durable s1 = durable s2 -> I s1 -> I s2) -> txn s = None -> I s -> always I body (asked s) ->
  always I p s /\ txn (fst (run p s)) = None /\
  forall n, snd (run p s) = Ok n -> snd (run body (asked s)) = Ok n /\ durable (fst (run p s)) = durable (fst (run body (asked s))).
Proof.
  intros p Hdur Ht Hs Hbody. subst p.
  assert (Hb : always I (catch (let* n := body in ret (Ok n)) (fun e => ret (Err e))) (asked s)).
  { apply always_catch; [apply always_bind; [exact Hbody|]|]; intros ? _; apply always_done; [by apply always_run|].
    rewrite run_bind. pose proof (always_run _ _ _ Hbody) as H. by destruct (run body (asked s)) as [s2 [?|?]]. }
  split.
  - apply always_bind; [apply always_call; [done|]; destruct (snd (driver (outside s))); apply always_done; by apply (Hdur s)|].
    intros [] Hq. destruct (run_query_course (fun _ => tt) s) as [E|[e E]]; rewrite E in *; [|done]. apply always_bind; [exact Hb|].
    intros r Hr. apply always_run in Hb. apply always_bind; [apply always_end; [by apply Hdur|done]|]. intros u Hu. apply always_done.
    match goal with |- I (fst (run (end_ _) ?x)) => destruct (run_end x) as [r3 ->] end.
    eapply Hdur; [|exact Hb]. symmetry. apply durable_ended.
  - rewrite run_bind. destruct (run_query_course (fun _ => tt) s) as [E|[e E]]; rewrite E; [|done]. rewrite run_bind, run_catch, run_bind.
    destruct (run body (asked s)) as [s2 [n|e]] eqn:Eb; cbn [run ret]; rewrite run_bind; destruct (run_end s2) as [r3 ->]; destruct (durable_ended s2) as [Hd Ht3]; destruct r3 as [u|e']; cbn [fst snd];
      (split; [done|]); try done; by intros n' Hn; rewrite Hd.
Qed.

Context (readdir : jsstr -> option (list jsstr)) (readFile : jsstr -> jsstr -> option jsstr) (sha256 : jsstr -> jsstr).

(** C30. Where no script commits implicitly: at every moment of a run, and so after a crash, the data is
    what it was with some scripts run on it, and the history what it was with just these scripts
    recorded. They are the files in the order of their versions, without those recorded before,
    up to the first conflict, and where the run succeeds all of them, without a conflict: each
    script has its effect once, however many runs it takes. *)
Theorem migrated_once locations s : txn s = None ->
  let p := migrate script driver readdir readFile sha256 locations in
  exists all applied, (all = [] \/ discoverMigrations readdir readFile sha256 locations = Ok all) /\
    let '(l, conflict) := plan all (index_by (fun a => Some (a_version a)) applied) (index_by has_hash applied) in
    always (fun s' => exists l', l' `prefix_of` l /\ migrated s l' s') p s /\ txn (fst (run p s)) = None /\
    (forall n, snd (run p s) = Ok n -> discoverMigrations readdir readFile sha256 locations = Ok all /\
       (a_version <$> applied) = successes (history s) /\ conflict = false /\ n = Z.of_nat (length l) /\ migrated s l (fst (run p s))).
Proof.
  intros Ht p. set (I l s' := exists l', l' `prefix_of` l /\ migrated s l' s').
  assert (Hdur : forall l s1 s2, durable s1 = durable s2 -> I l s1 -> I l s2).
  { intros l s1 s2 Hd (l' & Hl & H). exists l'. split; [done|]. unfold migrated, Migrations.migrated in *. by rewrite <- Hd. }
  assert (Hstart : forall l s', txn s' = None -> prepares s s' -> I l s') by (intros l s' H1 H2; exists []; split; [apply prefix_nil|by apply migrated_prepares]).
  assert (Hmain : forall body, p = (let* _ := query (fun _ => tt) in let* r := catch (let* n := body in ret (Ok n)) (fun e => ret (Err e)) in let* _ := end_ driver in Done r) ->
    forall l, always (I l) body (asked s) -> always (I l) p s /\ txn (fst (run p s)) = None /\
      forall n, snd (run p s) = Ok n -> snd (run body (asked s)) = Ok n /\ durable (fst (run p s)) = durable (fst (run body (asked s))))
    by (intros body -> l; apply connection_course; [apply Hdur|done|by apply Hstart]).
  unfold migrate in p. destruct (discoverMigrations readdir readFile sha256 locations) as [all|e] eqn:Ed.
  2: { exists [], []. split; [by left|]. cbn [plan]. destruct (Hmain (throw e) eq_refl []) as (H1 & H2 & H3); [by apply always_done, Hstart; [exact Ht|]|].
       split; [exact H1|]. split; [exact H2|]. intros n Hn. by destruct (H3 n Hn) as [H _]. }
  set (body := let* _ := ensureHistoryTable driver all in let* applied := getAppliedMigrations driver in
    execute_all script driver all (index_by (fun a => Some (a_version a)) applied) (index_by has_hash applied) 0) in p.
  assert (Hprep : forall l {A} (q : Cmd A) s1, prepares s s1 -> moves prepares q -> always (I l) q s1 /\ prepares s (fst (run q s1))).
  { intros l A q s1 Hs1 Hq. assert (Ha : always (prepares s) q s1) by (eapply always_weaken; [|exact (always_moves prepares q s1 Hq)]; intros s2 H; by etransitivity).
    split; [|by apply always_run]. eapply always_weaken; [|exact Ha]. intros s2 H. apply Hstart; [|done]. destruct H as (_ & -> & _). done. }
  exists all.
  destruct (Hprep [] _ (ensureHistoryTable driver all) (asked s) ltac:(done) (moves_ensure all)) as [_ H1].
  destruct (run (ensureHistoryTable driver all) (asked s)) as [s1 [u1|e1]] eqn:E1; cbn [fst] in H1.
  2: { exists []. split; [by right|]. destruct (plan all _ _) as [l conflict]. destruct (Hmain body eq_refl l) as (Q1 & Q2 & Q3).
       - apply always_bind; [by apply Hprep, moves_ensure|]. by rewrite E1.
       - split; [exact Q1|]. split; [exact Q2|]. intros n Hn. destruct (Q3 n Hn) as [Hb _]. unfold body in Hb. by rewrite run_bind, E1 in Hb. }
  destruct (Hprep [] _ (getAppliedMigrations driver) s1 H1 moves_applied) as [_ H2]. pose proof (applied_successes s1) as Happ.
  destruct (run (getAppliedMigrations driver) s1) as [s2 [applied|e2]] eqn:E2; cbn [fst snd] in H2, Happ.
  2: { exists []. split; [by right|]. destruct (plan all _ _) as [l conflict]. destruct (Hmain body eq_refl l) as (Q1 & Q2 & Q3).
       - apply always_bind; [by apply Hprep, moves_ensure|]. rewrite E1. intros ? _. cbn [fst]. apply always_bind; [by apply Hprep, moves_applied|]. by rewrite E2.
       - split; [exact Q1|]. split; [exact Q2|]. intros n Hn. destruct (Q3 n Hn) as [Hb _]. unfold body in Hb. by rewrite run_bind, E1, run_bind, E2 in Hb. }
  exists applied. split; [by right|]. assert (Ht2 : txn s2 = None) by (destruct H2 as (_ & -> & _); done).
  pose proof (execute_all_course all (index_by (fun a => Some (a_version a)) applied) (index_by has_hash applied) 0 s2 Ht2) as Hx.
  destruct (plan all _ _) as [l conflict]. destruct Hx as [Hx1 Hx2]. pose proof (migrated_prepares s s2 Ht H2) as Hm2.
  destruct (Hmain body eq_refl l) as (Q1 & Q2 & Q3).
  - apply always_bind; [by apply Hprep, moves_ensure|]. rewrite E1. intros ? _. cbn [fst]. apply always_bind; [by apply Hprep, moves_applied|]. rewrite E2. intros x Hx.
    apply Ok_inj in Hx as <-. eapply always_weaken; [|exact Hx1]. intros s' (l' & Hl & Hm). exists l'. split; [done|]. by eapply (migrated_trans s [] s2).
  - split; [exact Q1|]. split; [exact Q2|]. intros n Hn. destruct (Q3 n Hn) as [Hb Hd]. unfold body in Hb, Hd. rewrite run_bind, E1, run_bind, E2 in Hb, Hd.
    destruct (Hx2 n Hb) as (X1 & X2 & X3). split; [done|]. split; [|split; [done|split; [lia|]]].
    + rewrite (Happ applied eq_refl). unfold successes. destruct H1 as (_ & _ & ->). done.
    + unfold migrated, Migrations.migrated. rewrite Hd. exact (migrated_trans s [] s2 l _ Hm2 X3).
Qed.

(** ** When the server works *)

(** A history table whose rows all succeeded and have hashes, or none. *)
Definition table_of (required : bool) (l : list HistoryRow) : History := mkHistory l true required true false.
Definition row_ok (r : HistoryRow) : Prop := h_success r = true /\ exists c t, h_hash r = Some (c :: t).
Definition orderly (h : option History) (l : list HistoryRow) : Prop :=
  Forall row_ok l /\ ((exists required, h = Some (table_of required l)) \/ h = None /\ l = []).
Definition applied_row (r : HistoryRow) : AppliedMigration := mkApplied (h_version r) (h_script r) (h_hash r).
Definition by_versions (l : list HistoryRow) := index_by (fun a => Some (a_version a)) (applied_row <$> l).
Definition by_hashes (l : list HistoryRow) := index_by has_hash (applied_row <$> l).

Section working.
  Context (works : forall w, snd (driver w) = Works).

Lemma work_statement f s s2 : f (asked s) = Ok s2 -> run (statement f) s = (s2, Ok tt).
Proof. intros Hf. unfold statement_of. cbn [run]. fold (asked s). by rewrite works, Hf. Qed.
Lemma work_query {A} (f : Db -> A) s : run (query f) s = (asked s, Ok (f s)).
Proof. unfold query_of. cbn [run]. fold (asked s). by rewrite works. Qed.

(** [s'] has the data of [s], no transaction and a table with the rows [l]. *)
Definition tabled l s s' : Prop := data s' = data s /\ txn s' = None /\ exists required, history s' = Some (table_of required l).

Lemma work_applied l s : txn s = None -> orderly (history s) l -> exists s', run (getAppliedMigrations driver) s = (s', Ok (applied_row <$> l)) /\ tabled l s s'.
Proof.
  intros Ht [Hl Hh]. unfold getAppliedMigrations, hasHashColumn. rewrite run_bind, work_query, run_bind.
  destruct Hh as [[b Hh]|[Hh ->]].
  - rewrite (work_statement _ _ (asked (asked s))) by (unfold create_table; cbn; by rewrite Hh). rewrite work_query. unfold table at 1.
    change (history (asked (asked s))) with (history s). rewrite Hh. exists (asked (asked (asked s))). split; [|split; [done|]; split; [exact Ht|]; exists b; exact Hh].
    assert (E : succeeded true (table_of b l) = applied_row <$> l); [|cbn [hash_column table_of]; by rewrite E].
    unfold succeeded. cbn [rows table_of]. clear -Hl. induction Hl as [|r l [Hr _] _ IH]; [done|]. cbn. rewrite Hr. cbn. f_equal. exact IH.
  - set (s2 := mkDb (data s) (Some (table_of false [])) (txn s) (outside (asked (asked s)))).
    rewrite (work_statement _ _ s2) by (unfold create_table, table; cbn; by rewrite Hh). rewrite work_query. eexists. split; [reflexivity|].
    split; [done|]. split; [exact Ht|]. by exists false.
Qed.
Lemma work_backfill migrations l s : Forall row_ok l -> run (backfill driver migrations (applied_row <$> l)) s = (s, Ok tt).
Proof. induction 1 as [|r l (_ & c & t & Hr) _ IH]; [done|]. cbn. unfold has_hash, applied_row. cbn. by rewrite Hr. Qed.

Lemma work_ensure migrations l s : txn s = None -> orderly (history s) l ->
  exists s', run (ensureHistoryTable driver migrations) s = (s', Ok tt) /\ tabled l s s'.
Proof.
  intros Ht Ho. unfold ensureHistoryTable. rewrite run_bind. destruct (work_applied l s Ht Ho) as (s1 & -> & Hd & Ht1 & b & Hh).
  unfold hasHashColumn. rewrite run_bind, work_query. unfold table at 1. rewrite Hh. cbn [hash_column table_of]. rewrite run_bind. cbn [run ret]. rewrite run_bind, work_backfill by apply Ho.
  set (s2 := mkDb (data s) (Some (table_of true l)) None (outside (asked (asked s1)))). rewrite run_bind, (work_statement _ _ s2).
  2: { unfold with_history. change (history (asked (asked s1))) with (history s1). rewrite Hh. unfold require_hash. cbn [rows table_of].
       assert (Hall : forallb (fun r => match h_hash r with Some _ => true | None => false end) l = true).
       { apply forallb_forall. intros r Hr. destruct Ho as [Hl _]. rewrite Forall_forall in Hl. destruct (Hl r) as (_ & c & t & ->); [by apply list_elem_of_In|done]. }
       rewrite Hall. unfold s2. rewrite <- Hd. f_equal. unfold asked, with_outside. cbn. by rewrite Ht1. }
  unfold hasHashIndex. rewrite run_bind, work_query. unfold table at 1. cbn [history s2 hash_unique table_of]. rewrite run_bind. cbn [run ret].
  unfold hasScriptIndex. rewrite run_bind, work_query. unfold table at 1. cbn. eexists. split; [done|]. split; [done|]. split; [done|]. by exists true.
Qed.

Lemma by_versions_snoc l m : by_versions (l ++ [row_of m]) = <[version m := applied_of m]> (by_versions l).
Proof. unfold by_versions, index_by. by rewrite fmap_app, fold_left_app. Qed.
Lemma by_hashes_snoc l m : hash m <> [] -> by_hashes (l ++ [row_of m]) = <[hash m := applied_of m]> (by_hashes l).
Proof. intros Hm. unfold by_hashes, index_by. rewrite fmap_app, fold_left_app. cbn. unfold has_hash. cbn. by destruct (hash m). Qed.
Lemma index_none key l k a : index_by key l !! k = None -> a ∈ l -> key a <> Some k.
Proof.
  induction l as [|b l IH] using rev_ind; [by intros _ ?%elem_of_nil|]. unfold index_by in *. rewrite fold_left_app. cbn. intros Hk Ha Hka.
  apply elem_of_app in Ha as [Ha|Ha%list_elem_of_singleton].
  - apply IH; [|done|done]. destruct (key b) as [k'|]; [|done]. destruct (decide (k' = k)) as [->|Hne]; [by rewrite lookup_insert_eq in Hk|by rewrite lookup_insert_ne in Hk].
  - subst b. by rewrite Hka, lookup_insert_eq in Hk.
Qed.

Lemma fresh_row m l b : Forall row_ok l -> by_versions l !! version m = None -> by_hashes l !! hash m = None -> hash m <> [] ->
  insert_row (row_of m) (table_of b l) = Ok (table_of b (l ++ [row_of m])).
Proof.
  intros Hl Hv Hh Hne. unfold insert_row. cbn [rows table_of h_hash row_of h_version hash_unique script_unique hash_required].
  assert (E1 : existsb (fun x => str_eqb (h_version x) (version m)) l = false).
  { apply not_true_iff_false. intros (r & Hr & E)%existsb_exists. apply bool_decide_eq_true in E.
    apply (index_none (fun a => Some (a_version a)) (applied_row <$> l) (version m) (applied_row r) Hv); [by apply list_elem_of_fmap_2, list_elem_of_In|by cbn; rewrite E]. }
  assert (E2 : clashes (table_of b l) None (hash m) = false).
  { unfold clashes. cbn. apply not_true_iff_false. intros (r & Hr & E)%existsb_exists. apply andb_true_iff in E as [E _]. apply bool_decide_eq_true in E.
    apply (index_none has_hash (applied_row <$> l) (hash m) (applied_row r) Hh); [by apply list_elem_of_fmap_2, list_elem_of_In|]. unfold has_hash. cbn. rewrite E. by destruct (hash m). }
  by rewrite E1, E2.
Qed.
Lemma work_execute m l s : txn s = None -> (exists b, history s = Some (table_of b l)) -> Forall row_ok l ->
  by_versions l !! version m = None -> by_hashes l !! hash m = None -> hash m <> [] -> fine (script (sql m) (data s)) = true ->
  exists s', run (execute script driver m) s = (s', Ok tt) /\ data s' = left_ (script (sql m) (data s)) /\ txn s' = None /\
    exists b, history s' = Some (table_of b (l ++ [row_of m])).
Proof.
  intros Ht [b Hb] Hl Hv Hh Hne Hf. unfold execute. set (s1 := mkDb (data s) (history s) (Some (data s, history s)) (outside (asked s))).
  rewrite run_bind, (work_statement begin s s1) by done. rewrite run_catch, run_bind. unfold run_script. cbn [run]. rewrite works. change (data s1) with (data s). rewrite Hf.
  cbn [run ret]. set (s2 := scripted _ _ _). assert (Hs2 : data s2 = left_ (script (sql m) (data s)) /\ history s2 = Some (table_of b l)).
  { unfold s2, scripted. cbn. by rewrite Hb. }
  destruct Hs2 as [Hd Hh2]. unfold recordMigration. set (s3 := mkDb (data s2) (Some (table_of b (l ++ [row_of m]))) (txn s2) (outside (asked s2))).
  rewrite run_bind, (work_statement _ s2 s3).
  2: { unfold with_history. change (history (asked s2)) with (history s2). rewrite Hh2. by rewrite fresh_row. }
  rewrite (work_statement commit s3 (mkDb (data s2) (Some (table_of b (l ++ [row_of m]))) None (outside (asked s3)))) by done.
  eexists. split; [done|]. split; [exact Hd|]. split; [done|]. by exists b.
Qed.
Lemma row_ok_of m : hash m <> [] -> row_ok (row_of m).
Proof. intros H. split; [done|]. cbn. destruct (hash m) as [|c t]; [done|by exists c, t]. Qed.

Lemma work_all all l ms n s : txn s = None -> (exists b, history s = Some (table_of b l)) -> Forall row_ok l -> Forall (fun m => hash m <> []) all ->
  plan all (by_versions l) (by_hashes l) = (ms, false) -> all_fine script ms (data s) ->
  exists s', run (execute_all script driver all (by_versions l) (by_hashes l) n) s = (s', Ok (n + Z.of_nat (length ms))) /\
    data s' = scripts_run script ms (data s) /\ txn s' = None /\ (exists b, history s' = Some (table_of b (l ++ (row_of <$> ms)))) /\ Forall row_ok (l ++ (row_of <$> ms)).
Proof.
  revert l ms n s. induction all as [|m all IH]; intros l ms n s Ht Hh Hl Hne Hp Hf; cbn [plan execute_all] in *.
  - injection Hp as <-. exists s. cbn. rewrite Z.add_0_r, app_nil_r. done.
  - inversion Hne as [|? ? Hm Hne']; subst. destruct (by_versions l !! version m) as [a|] eqn:Hv; [case_bool_decide; [by apply IH|done]|].
    destruct (by_hashes l !! hash m) as [a|] eqn:Hx; [done|]. rewrite <- by_versions_snoc, <- by_hashes_snoc in Hp |- * by done.
    destruct (plan all _ _) as [ms' c] eqn:Hp'. injection Hp as <- ->. destruct Hf as [Hfm Hf].
    destruct (work_execute m l s Ht Hh Hl Hv Hx Hm Hfm) as (s1 & Hrun & Hd & Ht1 & Hh1). rewrite run_bind, Hrun.
    assert (Hl1 : Forall row_ok (l ++ [row_of m])) by (apply Forall_app; split; [done|constructor; [by apply row_ok_of|constructor]]).
    rewrite <- Hd in Hf. destruct (IH _ ms' (n + 1) s1 Ht1 Hh1 Hl1 Hne' Hp' Hf) as (s2 & Hrun2 & Hd2 & Ht2 & Hh2 & Hl2). rewrite <- app_assoc in Hh2, Hl2.
    exists s2. split; [rewrite Hrun2; do 2 f_equal; cbn [length]; lia|]. split; [by rewrite Hd2, Hd|]. done.
Qed.

Lemma by_versions_after l ms : by_versions (l ++ (row_of <$> ms)) = after_plan ms (by_versions l).
Proof. unfold after_plan. induction ms as [|m ms IH] using rev_ind; [by rewrite app_nil_r|]. rewrite fmap_app. change (row_of <$> [m]) with [row_of m]. by rewrite app_assoc, by_versions_snoc, IH, fold_left_app. Qed.

Context (hashed : forall text, sha256 text <> []).
Lemma found_in_hashed location files all : found_in readFile sha256 location files = Ok all -> Forall (fun m => hash m <> []) all.
Proof.
  revert all. induction files as [|f files IH]; intros all; cbn; [intros H; by apply Ok_inj in H as <-|]. unfold found.
  destruct (MIGRATION_FILE_RE f) as [[v d]|].
  - destruct (readFile location f); [|done]. destruct (found_in _ _ _ _); [|done]. intros H. apply Ok_inj in H as <-. constructor; [apply hashed|by apply IH].
  - destruct (found_in _ _ _ _); [|done]. intros H. apply Ok_inj in H as <-. by apply IH.
Qed.
Lemma discovered_hashed locations all : discoverMigrations readdir readFile sha256 locations = Ok all -> Forall (fun m => hash m <> []) all.
Proof.
  unfold discoverMigrations. destruct (read_all _ _ _ locations) as [l|] eqn:El; [|done]. intros H. apply Ok_inj in H as <-.
  assert (Hl : Forall (fun m => hash m <> []) l).
  { revert l El. induction locations as [|location locations IH]; intros l; cbn; [intros H; by apply Ok_inj in H as <-|].
    destruct (readdir location); [|done]. destruct (found_in _ _ _ _) eqn:Ef; [|done]. destruct (read_all _ _ _ _); [|done]. intros H. apply Ok_inj in H as <-.
    apply Forall_app. split; [by eapply found_in_hashed|by apply IH]. }
  rewrite Forall_forall in *. intros m Hm. apply Hl. apply list_elem_of_In, (sort_in by_version), list_elem_of_In, Hm.
Qed.

(** A run on a table in order. *)
Lemma work_migrate locations all l ms s : discoverMigrations readdir readFile sha256 locations = Ok all -> txn s = None -> orderly (history s) l ->
  plan all (by_versions l) (by_hashes l) = (ms, false) -> all_fine script ms (data s) ->
  exists s', run (migrate script driver readdir readFile sha256 locations) s = (s', Ok (Z.of_nat (length ms))) /\
    data s' = scripts_run script ms (data s) /\ txn s' = None /\ orderly (history s') (l ++ (row_of <$> ms)).
Proof.
  intros Hd Ht Ho Hp Hf. unfold migrate. rewrite run_bind, work_query, run_bind, run_catch, Hd, run_bind, run_bind.
  destruct (work_ensure all l (asked s) Ht Ho) as (s1 & -> & Hd1 & Ht1 & Hh1). assert (Ho1 : orderly (history s1) l) by (split; [apply Ho|by left]).
  rewrite run_bind. destruct (work_applied l s1 Ht1 Ho1) as (s2 & -> & Hd2 & Ht2 & Hh2). assert (Hds : data s2 = data s) by (by rewrite Hd2, Hd1). rewrite <- Hds in Hf.
  destruct (work_all all l ms 0 s2 Ht2 Hh2 (proj1 Ho) (discovered_hashed _ _ Hd) Hp Hf) as (s3 & Hrun & Hd3 & Ht3 & Hh3 & Hl3). unfold by_versions, by_hashes in Hrun. rewrite Hrun. cbn [run ret].
  rewrite run_bind. unfold end_. cbn [run]. rewrite works. cbn [run ret]. eexists. split; [done|]. rewrite Hds in Hd3. cbn. rewrite Ht3. cbn.
  split; [done|]. split; [done|]. split; [done|by left].
Qed.

(** Where the server works, no script fails and nothing conflicts, one run executes the files that
    are not recorded, in the order of their versions, and the next run finds nothing to do. *)
Theorem migrations_converge locations all l ms s : discoverMigrations readdir readFile sha256 locations = Ok all -> txn s = None -> orderly (history s) l ->
  plan all (by_versions l) (by_hashes l) = (ms, false) -> all_fine script ms (data s) ->
  let s1 := fst (run (migrate script driver readdir readFile sha256 locations) s) in
  snd (run (migrate script driver readdir readFile sha256 locations) s) = Ok (Z.of_nat (length ms)) /\ data s1 = scripts_run script ms (data s) /\
  orderly (history s1) (l ++ (row_of <$> ms)) /\
  let s2 := fst (run (migrate script driver readdir readFile sha256 locations) s1) in
  snd (run (migrate script driver readdir readFile sha256 locations) s1) = Ok 0 /\ data s2 = data s1 /\ orderly (history s2) (l ++ (row_of <$> ms)).
Proof.
  intros Hd Ht Ho Hp Hf. destruct (work_migrate locations all l ms s Hd Ht Ho Hp Hf) as (s1 & -> & H1 & H2 & H3). cbn [fst snd].
  split; [done|]. split; [done|]. split; [done|].
  assert (Hagain : plan all (by_versions (l ++ (row_of <$> ms))) (by_hashes (l ++ (row_of <$> ms))) = ([], false)).
  { apply plan_settled. rewrite by_versions_after. by eapply plan_covers. }
  destruct (work_migrate locations all _ [] s1 Hd H2 H3 Hagain Logic.I) as (s2 & -> & H4 & _ & H5). rewrite app_nil_r in H5. done.
Qed.
End working.
End runs.

Lemma increasing_sublist (l l' : list MigrationFile) : sublist l' l -> StronglySorted (precedes by_version) l -> StronglySorted (precedes by_version) l'.
Proof.
  induction 1 as [|x l' l Hs IH|x l' l Hs IH]; [done| |]; inversion 1 as [|? ? Hl Hx]; subst; [|by apply IH]. constructor; [by apply IH|].
  rewrite Forall_forall in *. intros y Hy. apply Hx. by eapply elem_of_sublist.
Qed.

(** What a run plans: files that were found and whose versions are not recorded, each version once,
    in the order of the versions where they all differ; and where nothing conflicts every file is
    planned, or recorded with its very text. *)
Theorem plan_course readdir readFile sha256 locations all byVersion byHash l c :
  discoverMigrations readdir readFile sha256 locations = Ok all -> plan all byVersion byHash = (l, c) ->
  sublist l all /\ NoDup (version <$> l) /\ Forall (fun m => byVersion !! version m = None) l /\
  (forall found, read_all readdir readFile sha256 locations = Ok found -> no_ties by_version found -> StronglySorted (precedes by_version) l) /\
  (c = false -> Forall (fun m => planned m (after_plan l byVersion)) all).
Proof.
  intros Hd Hp. destruct (plan_new _ _ _ _ _ Hp) as (H1 & H2 & H3). split; [done|]. split; [done|]. split; [done|]. split.
  - intros found Hfound Hties. apply (increasing_sublist all); [done|]. revert Hd. unfold discoverMigrations. rewrite Hfound.
    intros H. apply Ok_inj in H as <-. by apply (sort_increasing by_version).
  - intros ->. by eapply plan_covers.
Qed.

(** A script that defines tables commits implicitly, and what it did before it failed stays though
    nothing is recorded: rolling back does not undo it. *)
Theorem half_migrated {D W} (script : jsstr -> D -> ran D) (driver : W -> W * fate) (m : MigrationFile) (s : Db D W) :
  (forall w, snd (driver w) = Works) -> txn s = None -> commits (script (sql m) (data s)) = true -> fine (script (sql m) (data s)) = false ->
  snd (run (execute script driver m) s) = Err Failure /\
  durable (fst (run (execute script driver m) s)) = (left_ (script (sql m) (data s)), history s).
Proof.
  intros works Ht Hc Hf. unfold execute. set (s1 := mkDb (data s) (history s) (Some (data s, history s)) (outside (asked driver s))).
  rewrite run_bind, (work_statement driver works begin s s1) by done. rewrite run_catch, run_bind. unfold run_script. cbn [run]. rewrite works. change (data s1) with (data s).
  rewrite Hf. cbn [run throw]. set (s2 := scripted _ _ _). assert (Hs2 : data s2 = left_ (script (sql m) (data s)) /\ history s2 = history s /\ txn s2 = None).
  { unfold s2, scripted. cbn. by rewrite Hc. }
  clearbody s2. destruct Hs2 as (H1 & H2 & H3). rewrite run_bind, (work_statement driver works rollback s2 (asked driver s2)).
  - split; [done|]. unfold durable. cbn. by rewrite H3, H1, H2.
  - unfold rollback, asked, with_outside. cbn [txn]. by rewrite H3.
Qed.

(** ** Examples *)

(** Two files and one that is none. A script adds its text to the data; statements fail as told. *)
Definition x_dir (location : jsstr) : option (list jsstr) :=
  if str_eqb location (js "sql") then Some [js "V1_1__add_b.sql"; js "README.md"; js "V1__create_a.SQL"] else None.
Definition x_file (location file : jsstr) : option jsstr := Some (js "text of " ++ file).
Definition x_hash (text : jsstr) : jsstr := js "hash of " ++ text.
Definition x_script (text : jsstr) (d : list jsstr) : ran (list jsstr) := mkRan (d ++ [text]) false true.
Definition x_driver (w : list fate) : list fate * fate := match w with f :: w => (w, f) | [] => ([], Works) end.
Definition x_empty {D} (d : D) (w : list fate) : Db D (list fate) := mkDb d None None w.
Definition x_migrate := migrate x_script x_driver x_dir x_file x_hash [js "sql"].
Definition x_all : list MigrationFile :=
  match discoverMigrations x_dir x_file x_hash [js "sql"] with Ok all => all | Err _ => [] end.

(** The commit of the first migration is served, its answer lost; the next run goes on with the
    second. *)
Lemma migrated_once_witness :
  let s := x_empty [] [Works; Works; Works; Works; Works; Works; Works; Works; Works; Works; Works; Works; Works; Works; Lost] in
  let s1 := fst (run x_migrate s) in
  data s1 = [js "text of V1__create_a.SQL"] /\ snd (run x_migrate s) = Err Failure /\
  snd (run x_migrate s1) = Ok 1 /\ data (fst (run x_migrate s1)) = [js "text of V1__create_a.SQL"; js "text of V1_1__add_b.sql"] /\
  txn s1 = None.
Proof.
  cbv zeta. split; [by vm_compute|]. split; [by vm_compute|]. split; [by vm_compute|]. split; [by vm_compute|].
  destruct (migrated_once x_script x_driver ltac:(done) x_dir x_file x_hash [js "sql"]
    (x_empty [] [Works; Works; Works; Works; Works; Works; Works; Works; Works; Works; Works; Works; Works; Works; Lost]) eq_refl) as (all & applied & _ & H).
  cbv zeta in H. destruct (plan all _ _). destruct H as (_ & H & _). exact H.
Defined.
Lemma migrations_converge_witness :
  let run_once s := run (migrate x_script (fun w : unit => (w, Works)) x_dir x_file x_hash [js "sql"]) s in
  let s := mkDb [] None None tt in
  snd (run_once s) = Ok 2 /\ snd (run_once (fst (run_once s))) = Ok 0.
Proof.
  cbv zeta. destruct (migrations_converge x_script (fun w : unit => (w, Works)) x_dir x_file x_hash ltac:(done) ltac:(done) [js "sql"] x_all [] x_all (mkDb [] None None tt))
    as (H1 & _ & _ & H2 & _); [by vm_compute|done|split; [constructor|by right]|by vm_compute|by vm_compute|].
  split; [rewrite H1; by vm_compute|exact H2].
Defined.
Lemma plan_course_witness : NoDup (version <$> x_all) /\ StronglySorted (precedes by_version) x_all.
Proof.
  destruct (plan_course x_dir x_file x_hash [js "sql"] x_all ∅ ∅ x_all false) as (_ & H1 & _ & H2 & _); [by vm_compute|by vm_compute|]. split; [exact H1|].
  eapply H2; [by vm_compute|]. split.
  - repeat constructor; cbn; intuition discriminate.
  - intros x y [<-|[<-|[]]] [<-|[<-|[]]]; try done; by intros H; vm_compute in H.
Defined.

(** A table is created, the second statement fails; when the file is mended the table is there
    already, and the migration never succeeds. *)
Definition x_create (text : jsstr) (d : list jsstr) : ran (list jsstr) :=
  if bool_decide (js "a" ∈ d) then mkRan d true false else mkRan (d ++ [js "a"]) true (negb (bool_decide (text = js "create a; bad"))).
Lemma half_migrated_witness :
  let once (text : string) s := run (execute x_create (fun w : unit => (w, Works)) (mkMigrationFile (js "1") [1] [] [] (js text) (js "h"))) s in
  let s := mkDb [] (Some (table_of true [])) None tt in
  durable (fst (once "create a; bad"%string s)) = ([js "a"], history s) /\
  snd (once "create a"%string (fst (once "create a; bad"%string s))) = Err Failure.
Proof.
  cbv zeta. split; [|by vm_compute].
  apply (half_migrated x_create (fun w : unit => (w, Works)) (mkMigrationFile (js "1") [1] [] [] (js "create a; bad") (js "h")) (mkDb [] (Some (table_of true [])) None tt));
    [done|done|by vm_compute|by vm_compute].
Defined.
