(* ===== verification/Oracle.v ===== *)
(** * Queries to the oracle of prefixes, the registry and the rate service

    core/outbound/domain: component/prefix-oracle-client.ts with its cache in Redis,
    component/oracle-central-registry-client.ts, query/get-dfsp-list.handler.ts,
    get-dfsp-list-by-usecase.handler.ts and get-current-fx-rate.handler.ts. The answers of the
    services, the calls to Redis that fail and the texts of JSON are arguments. *)

From S2P Require Import Prelude Errors Redis.

(** What a service answers: a body, or a failure with the status, if there was a response, and
    the message of the error. *)
Inductive Answer (T : Type) : Type := Answered (body : T) | Failed (status : option Z) (message : jsstr).
Arguments Answered {T}. Arguments Failed {T}.

Definition CACHE_KEY_ALL : jsstr := js "dfsp:prefixes:all".
Definition CACHE_KEY_USECASE_PREFIX : jsstr := js "dfsp:prefixes:usecase:".

Section oracle.
  Context {S T : Type} {server : RedisServer S} (JSON_parse : jsstr -> result thrown T) (JSON_stringify : T -> jsstr).
  (** The constructor's [cacheTtlMs], and the default of [RedisClient]. *)
  Context (cacheTtlMs defaultTtlMs : Z).

(** A query: the faults of its calls to Redis, the answer, and how long the oracle took. *)
Record Asking : Type := mkAsking { getFault : fault; oracle : Answer T; took : Z; setFault : fault }.

Definition readCache (f : fault) (cacheKey : jsstr) (s : S) : S * option T :=
  let '(s, r) := get JSON_parse f cacheKey s in (s, match r with Ok cached => cached | Err _ => None end).
Definition writeCache (f : fault) (cacheKey : jsstr) (value : T) (s : S) : S :=
  fst (set JSON_stringify defaultTtlMs f cacheKey value (Some cacheTtlMs) s).

(** The common course of [getDfspList] and [getDfspListByUsecase]; [translate] is their [catch]. *)
Definition ask (translate : option Z -> jsstr -> thrown) (cacheKey : jsstr) (a : Asking) (s : S) : S * result thrown T :=
  let '(s, cached) := readCache (getFault a) cacheKey s in
  match cached with
  | Some l => (s, Ok l)
  | None =>
      let s := elapse (took a) s in
      match oracle a with
      | Answered l => (writeCache (setFault a) cacheKey l s, Ok l)
      | Failed status message => (s, Err (translate status message))
      end
  end.
Definition getDfspList : Asking -> S -> S * result thrown T :=
  ask (fun _ message => fspiop_msg COMMUNICATION_ERROR message) CACHE_KEY_ALL.
Definition usecase_error (usecase : jsstr) (status : option Z) (message : jsstr) : thrown :=
  match status with
  | Some s => if s =? 404 then fspiop_msg GENERIC_ID_NOT_FOUND (js "DFSP list not found for usecase: " ++ usecase)
              else fspiop_msg COMMUNICATION_ERROR message
  | None => fspiop_msg COMMUNICATION_ERROR message
  end.
Definition usecaseKey (usecase : jsstr) : jsstr := CACHE_KEY_USECASE_PREFIX ++ trim usecase.
Definition getDfspListByUsecase (usecase : jsstr) : Asking -> S -> S * result thrown T :=
  ask (usecase_error usecase) (usecaseKey usecase).

(** The handlers; [None] is a use case that is not given. *)
Definition execute_by_usecase (usecase : option jsstr) (a : Asking) (s : S) : S * result thrown T :=
  match trim <$> usecase with
  | None | Some [] => (s, Err (fspiop MISSING_MANDATORY_ELEMENT "usecase is required."))
  | Some usecase => getDfspListByUsecase usecase a s
  end.
End oracle.
Arguments mkAsking {T}. Arguments getFault {T}. Arguments oracle {T}. Arguments took {T}. Arguments setFault {T}.

(** ** The central registry *)

Definition REGISTER_MSISDN_PATH : jsstr := js "/iips/v1/registry/msisdn".
Definition registry_endpoint (endpoint : option jsstr) : option jsstr :=
  match endpoint with
  | None => None
  | Some e => if str_eqb (trim e) [] then None else Some (if endsWith e (js "/") then take (length e - 1) e else e)
  end.
(** [post] answers with a status and a body, whatever the status; no response is an error. *)
Definition registerMsisdn {R B} (endpoint : option jsstr) (post : jsstr -> jsstr -> R -> result jsstr (Z * B)) (source : jsstr) (request : R)
    : result thrown (Z * B) :=
  match registry_endpoint endpoint with
  | None => Err (fspiop NOT_IMPLEMENTED "Central Registry integration is not configured on this deployment.")
  | Some endpoint =>
      match post (endpoint ++ REGISTER_MSISDN_PATH) source request with
      | Ok answer => Ok answer
      | Err m => Err (TFspiop (new_FspiopException (definition_of COMMUNICATION_ERROR) (AError m None)))
      end
  end.

(** ** The rate of exchange *)

Definition toPivotalError (c : jsstr) : error_name :=
  if str_eqb c (js "FX_RATE_NOT_FOUND") then GENERIC_VALIDATION_ERROR
  else if str_eqb c (js "ARGUMENT_TYPE_MISMATCH") then MALFORMED_SYNTAX
  else if str_eqb c (js "MISSING_PARAMETER") then MISSING_MANDATORY_ELEMENT
  else if str_eqb c (js "CATALYST_TIMEOUT") || str_eqb c (js "CATALYST_HTTP_408") || str_eqb c (js "CATALYST_HTTP_504") then SERVER_TIMED_OUT
  else if str_eqb c (js "CATALYST_HTTP_503") then SERVICE_CURRENTLY_UNAVAILABLE
  else COMMUNICATION_ERROR.
Definition getCurrentFxRate {R} (catalyst : result thrown R) : result thrown R :=
  match catalyst with
  | Err (TCatalyst c m) => Err (fspiop_msg (toPivotalError c) m)
  | r => r
  end.

(** ** Reference definitions *)

Section course.
  Context {S T : Type} {server : RedisServer S} (JSON_parse : jsstr -> result thrown T) (JSON_stringify : T -> jsstr) (cacheTtlMs defaultTtlMs : Z).

(** What happens: a use case is asked for, or with [None] all prefixes; time passes; others
    change Redis. *)
Inductive event : Type := Asked (usecase : option jsstr) (a : Asking (T := T)) | Passed (d : Z) | Other (f : S -> S).
(** Redis, the time, and what the oracle answered: the key, the list, and when it was to be
    written. *)
Record Course : Type := mkCourse { redis : S; now : Z; told : list (jsstr * T * Z) }.

Definition key_of (usecase : option jsstr) : jsstr := match usecase with Some u => usecaseKey u | None => CACHE_KEY_ALL end.
Definition asked (usecase : option jsstr) : Asking -> S -> S * result thrown T :=
  match usecase with
  | Some u => getDfspListByUsecase JSON_parse JSON_stringify cacheTtlMs defaultTtlMs u
  | None => getDfspList JSON_parse JSON_stringify cacheTtlMs defaultTtlMs
  end.
Definition served (usecase : option jsstr) (a : Asking (T := T)) (c : Course) : option T := snd (readCache JSON_parse (getFault a) (key_of usecase) (redis c)).
Definition happens (ev : event) (c : Course) : Course :=
  match ev with
  | Asked usecase a =>
      match served usecase a c with
      | Some _ => mkCourse (fst (asked usecase a (redis c))) (now c) (told c)
      | None => mkCourse (fst (asked usecase a (redis c))) (now c + took a)
                  (match oracle a with Answered l => (key_of usecase, l, now c + took a) :: told c | Failed _ _ => told c end)
      end
  | Passed d => mkCourse (elapse d (redis c)) (now c + d) (told c)
  | Other f => mkCourse (f (redis c)) (now c) (told c)
  end.

(** Time does not go back, and others leave the keys of the lists alone, or delete them. *)
Definition usual (ev : event) : Prop :=
  match ev with
  | Asked _ a => 0 <= took a
  | Passed d => 0 <= d
  | Other f => forall usecase s, view (f s) !! key_of usecase = view s !! key_of usecase \/ view (f s) !! key_of usecase = None
  end.
(** What the cache has was told, and has less than [cacheTtlMs] to live. *)
Definition coherent (c : Course) : Prop :=
  forall usecase v ttl, view (redis c) !! key_of usecase = Some (v, ttl) ->
    exists l at_, v = JSON_stringify l /\ (key_of usecase, l, at_) ∈ told c /\ ttl = Some (at_ + cacheTtlMs - now c) /\ now c < at_ + cacheTtlMs.
End course.
Arguments event : clear implicits. Arguments Course : clear implicits.

(** * Properties *)

Lemma Err_inj {E A} (a b : E) : @Err E A a = Err b -> a = b.
Proof. by intros [= ->]. Qed.

Section cache.
  Context {S T : Type} {server : RedisServer S} (JSON_parse : jsstr -> result thrown T) (JSON_stringify : T -> jsstr) (cacheTtlMs defaultTtlMs : Z).
  Context (parse_own : forall l, JSON_parse (JSON_stringify l) = Ok l) (positive : 0 < cacheTtlMs).
  Notation served := (served JSON_parse).
  Notation asked := (asked JSON_parse JSON_stringify cacheTtlMs defaultTtlMs).
  Notation happens := (happens JSON_parse JSON_stringify cacheTtlMs defaultTtlMs).
  Notation coherent := (coherent JSON_stringify cacheTtlMs).
  Implicit Types c : Course S T.

(** The keys of different use cases differ, and differ from that of all prefixes. *)
Lemma key_of_inj u v : key_of u = key_of v -> trim <$> u = trim <$> v.
Proof. destruct u as [u|], v as [v|]; cbn [key_of]; try done. unfold usecaseKey. intros H. apply (app_inv_head CACHE_KEY_USECASE_PREFIX) in H. cbn. by rewrite H. Qed.

Lemma readCache_course f k (s : S) : view (fst (readCache JSON_parse f k s)) = view s /\
  forall l, snd (readCache JSON_parse f k s) = Some l -> exists v ttl, view s !! k = Some (v, ttl) /\ JSON_parse v = Ok l.
Proof.
  unfold readCache, get. pose proof (GET_spec k s) as [Hv Hr]. destruct f as [[e applied]|]; cbn.
  - destruct applied; cbn; by rewrite ?Hv.
  - destruct (GET k s) as [s' r]. cbn in *. subst r. split; [done|]. intros l. destruct (view s !! k) as [[v ttl]|]; cbn; [|done].
    destruct (JSON_parse v) as [x|] eqn:E; [|done]. cbn. intros [= ->]. eauto.
Qed.
Lemma writeCache_course f k l (s : S) : let s' := writeCache JSON_stringify cacheTtlMs defaultTtlMs f k l s in
  view s' = view s \/ view s' = <[k := (JSON_stringify l, Some cacheTtlMs)]> (view s).
Proof.
  unfold writeCache, set. cbn [default from_option id]. replace (cacheTtlMs <=? 0) with false by (symmetry; apply Z.leb_gt; lia).
  pose proof (SET_spec k (JSON_stringify l) false (Some cacheTtlMs) s positive) as H. cbn [andb] in H. destruct H as [H _].
  destruct f as [[e [|]]|]; cbn; [by right|by left|]. destruct (SET _ _ _ _ s) as [s' r]. cbn in *. by right.
Qed.

(** A query is answered from the cache, or by the oracle. *)
Lemma asked_course usecase a s : 0 <= took a ->
  let c := readCache JSON_parse (getFault a) (key_of usecase) s in
  match snd c with
  | Some l => asked usecase a s = (fst c, Ok l)
  | None => exists e, asked usecase a s =
      (match oracle a with Answered l => writeCache JSON_stringify cacheTtlMs defaultTtlMs (setFault a) (key_of usecase) l (elapse (took a) (fst c)) | Failed _ _ => elapse (took a) (fst c) end,
       match oracle a with Answered l => Ok l | Failed _ _ => Err e end)
  end.
Proof.
  intros Ht. unfold Oracle.asked, getDfspListByUsecase, getDfspList, ask. destruct usecase as [u|]; cbn [key_of];
    destruct (readCache _ _ _ s) as [s' [l|]]; cbn; try done; (destruct (oracle a) as [l|status m]; [by exists TOther|by eexists]).
Qed.

Lemma coherent_age d c : 0 <= d -> coherent c -> coherent (mkCourse (elapse d (redis c)) (now c + d) (told c)).
Proof.
  intros Hd Hc usecase v ttl. cbn [redis now told]. rewrite (elapse_spec d (redis c) Hd), lookup_omap. destruct (view (redis c) !! key_of usecase) as [[v' t']|] eqn:E; [|done].
  cbn. destruct (Hc usecase v' t' E) as (l & at_ & -> & Hin & -> & Hlt). unfold age. cbn [fst snd]. destruct (Z.leb_spec (at_ + cacheTtlMs - now c) d); [done|].
  intros [= <- <-]. exists l, at_. split; [done|]. split; [done|]. split; [f_equal; lia|lia].
Qed.
Lemma coherent_happens ev c : usual ev -> coherent c -> coherent (happens ev c).
Proof.
  intros Hu Hc. destruct ev as [usecase a|d|f]; cbn [Oracle.happens].
  - unfold Oracle.served. pose proof (asked_course usecase a (redis c) Hu) as Ha. cbv zeta in Ha. destruct (readCache_course (getFault a) (key_of usecase) (redis c)) as [Hv _].
    destruct (snd (readCache JSON_parse (getFault a) (key_of usecase) (redis c))) as [l|].
    + rewrite Ha. cbn [fst]. intros u v ttl. cbn [redis now told]. rewrite Hv. apply Hc.
    + destruct Ha as [e ->]. cbn [fst]. set (s1 := fst (readCache JSON_parse (getFault a) (key_of usecase) (redis c))) in *.
      assert (H1 : coherent (mkCourse (elapse (took a) s1) (now c + took a) (told c))).
      { apply (coherent_age (took a) (mkCourse s1 (now c) (told c)) Hu). intros u v ttl. cbn [redis now told]. rewrite Hv. apply Hc. }
      destruct (oracle a) as [l|status m]; [|exact H1]. intros u v ttl. cbn [redis now told].
      destruct (writeCache_course (setFault a) (key_of usecase) l (elapse (took a) s1)) as [->| ->].
      * intros Hl. destruct (H1 u v ttl Hl) as (l' & at_ & H2 & H3 & H4). exists l', at_. split; [done|]. split; [by right|done].
      * destruct (decide (key_of u = key_of usecase)) as [Hk|Hne].
        -- rewrite Hk, lookup_insert_eq. intros [= <- <-]. exists l, (now c + took a). split; [done|]. split; [left|]. split; [f_equal; lia|lia].
        -- rewrite lookup_insert_ne by done. intros Hl. destruct (H1 u v ttl Hl) as (l' & at_ & H2 & H3 & H4). exists l', at_. split; [done|]. split; [by right|done].
  - by apply coherent_age.
  - intros u v ttl. cbn [redis now told]. destruct (Hu u (redis c)) as [->| ->]; [apply Hc|done].
Qed.

(** Whatever calls to Redis fail and whatever others do: a list that is answered is the oracle's
    answer to this very query, or one the oracle gave for the same use case less than
    [cacheTtlMs] before. *)
Theorem list_fresh (evs : list (event S T)) (s : S) (usecase : option jsstr) (a : Asking) (l : T) :
  (forall u, view s !! key_of u = None) -> Forall usual evs -> 0 <= took a ->
  let c := fold_left (fun c ev => happens ev c) evs (mkCourse s 0 []) in
  snd (asked usecase a (redis c)) = Ok l ->
  oracle a = Answered l \/ exists at_, (key_of usecase, l, at_) ∈ told c /\ now c < at_ + cacheTtlMs.
Proof.
  intros Hs Hevs Ht c. assert (Hc : coherent c).
  { subst c. assert (H0 : coherent (mkCourse s 0 [])) by (intros u v ttl; cbn [redis]; by rewrite Hs). revert H0. generalize (mkCourse s 0 ([] : list (jsstr * T * Z))).
    induction Hevs as [|ev evs Hev _ IH]; intros c0 H0; [done|]. cbn. apply IH. by apply coherent_happens. }
  pose proof (asked_course usecase a (redis c) Ht) as Ha. cbv zeta in Ha. destruct (readCache_course (getFault a) (key_of usecase) (redis c)) as [_ Hr].
  destruct (snd (readCache _ _ _ _)) as [l'|].
  - rewrite Ha. cbn [snd]. intros H. apply Ok_inj in H as ->. right. destruct (Hr l eq_refl) as (v & ttl & Hv & Hp).
    destruct (Hc usecase v ttl Hv) as (l2 & at_ & -> & Hin & _ & Hlt). rewrite parse_own in Hp. apply Ok_inj in Hp as ->. by exists at_.
  - destruct Ha as [e ->]. cbn [snd]. destruct (oracle a) as [l'|]; [|done]. intros H. left. by apply Ok_inj in H as ->.
Qed.

(** An outage of Redis, or a text in it that cannot be read, fails no query: where the oracle
    answers, the query is answered. *)
Theorem outage_invisible usecase a s l : oracle a = Answered l -> 0 <= took a -> exists l', snd (asked usecase a s) = Ok l' /\
  (l' = l \/ served usecase a (mkCourse s 0 []) = Some l').
Proof.
  intros Ho Ht. pose proof (asked_course usecase a s Ht) as Ha. cbv zeta in Ha. unfold Oracle.served. cbn [redis].
  destruct (snd (readCache _ _ _ _)) as [l'|]; [rewrite Ha; eauto|]. destruct Ha as [e ->]. rewrite Ho. eauto.
Qed.
End cache.

(** What a failure of the oracle is answered with: an unknown use case as an id that is not found,
    anything else as an error of communication; a use case that is blank never reaches it. *)
Theorem oracle_errors {S T} {server : RedisServer S} (parse : jsstr -> result thrown T) stringify ttl default_ttl usecase a s e :
  snd (execute_by_usecase parse stringify ttl default_ttl usecase a s) = Err e ->
  match trim <$> usecase with
  | None | Some [] => e = fspiop MISSING_MANDATORY_ELEMENT "usecase is required." /\ fst (execute_by_usecase parse stringify ttl default_ttl usecase a s) = s
  | Some u => exists status m, oracle a = Failed status m /\
      if decide (status = Some 404) then e = fspiop_msg GENERIC_ID_NOT_FOUND (js "DFSP list not found for usecase: " ++ u)
      else e = fspiop_msg COMMUNICATION_ERROR m
  end.
Proof.
  unfold execute_by_usecase. destruct (trim <$> usecase) as [[|ch u]|]; cbn [snd fst].
  - intros H. apply Err_inj in H as <-. done.
  - unfold getDfspListByUsecase, ask. destruct (readCache _ _ _ s) as [s' [l|]]; [done|]. destruct (oracle a) as [l|status m]; [done|]. cbn [snd].
    intros H. apply Err_inj in H as <-. exists status, m. split; [done|]. unfold usecase_error. destruct status as [st|]; [|done].
    destruct (Z.eqb_spec st 404) as [->|Hne]; [done|]. rewrite decide_False by congruence. done.
  - intros H. apply Err_inj in H as <-. done.
Qed.

(** A refusal of the rate service becomes an error of FSPIOP with its message: the caller's fault
    for a rate, an argument or a parameter, a timeout or an outage of the service where it had
    one, an error of communication otherwise. *)
Theorem rate_status {R} c m : exists e, getCurrentFxRate (R := R) (Err (TCatalyst c m)) = Err (TFspiop e) /\
  message e = firstNonBlank (Some m) (description (definition_of (toPivotalError c))) /\
  toHttpStatus e =
    if decide (c ∈ [js "FX_RATE_NOT_FOUND"; js "ARGUMENT_TYPE_MISMATCH"; js "MISSING_PARAMETER"]) then 417
    else if decide (c ∈ [js "CATALYST_TIMEOUT"; js "CATALYST_HTTP_408"; js "CATALYST_HTTP_504"]) then 504
    else if decide (c = js "CATALYST_HTTP_503") then 503 else 502.
Proof.
  eexists. split; [reflexivity|]. split; [done|]. assert (Hn : forall n, toHttpStatus (new_FspiopException (definition_of n) (AMessage m None)) = toHttpStatus (new_FspiopException (definition_of n) ANone)) by done.
  rewrite Hn. clear Hn. unfold toPivotalError, str_eqb.
  repeat match goal with |- context [bool_decide (c = ?x)] => destruct (bool_decide_reflect (c = x)) as [->|?]; cbn [orb]; [by vm_compute|] end.
  rewrite !decide_False; [by vm_compute|done|..]; rewrite !elem_of_cons, elem_of_nil; intuition congruence.
Qed.

(** ** Examples *)

Definition x_ask (answer : Answer jsstr) : Asking := mkAsking None answer 5 None.
Definition x_events : list (event keyspace jsstr) := [Asked (Some (js " p2p")) (x_ask (Answered (js "list"))); Passed 100].
Definition x_asked := asked (S := keyspace) (T := jsstr) (fun v => Ok v) (fun v => v) 180000 1000.
Definition x_course : Course keyspace jsstr :=
  fold_left (fun c ev => happens (fun v => Ok v) (fun v => v) 180000 1000 ev c) x_events (mkCourse ∅ 0 []).

Lemma list_fresh_witness :
  snd (x_asked (Some (js "p2p")) (x_ask (Failed None (js "timeout"))) (redis x_course)) = Ok (js "list") /\
  exists at_, (key_of (Some (js "p2p")), js "list", at_) ∈ told x_course /\ now x_course < at_ + 180000.
Proof.
  split; [by vm_compute|].
  destruct (list_fresh (fun v : jsstr => Ok v) (fun v => v) 180000 1000 ltac:(done) ltac:(done) x_events (∅ : keyspace) (Some (js "p2p")) (x_ask (Failed None (js "timeout"))) (js "list"))
    as [H|H]; [done|repeat constructor; cbn; lia|cbn; lia|by vm_compute|discriminate|exact H].
Defined.
Lemma outage_invisible_witness :
  exists l, snd (x_asked None (mkAsking (Some (TError (js "closed"), false)) (Answered (js "list")) 5 (Some (TError (js "closed"), false))) ∅) = Ok l.
Proof.
  destruct (outage_invisible (fun v : jsstr => Ok v) (fun v => v) 180000 1000 None
    (mkAsking (Some (TError (js "closed"), false)) (Answered (js "list")) 5 (Some (TError (js "closed"), false))) (∅ : keyspace) (js "list")) as (l & H & _); [done|cbn; lia|].
  by exists l.
Defined.
Lemma oracle_errors_witness :
  fspiop_msg GENERIC_ID_NOT_FOUND (js "DFSP list not found for usecase: p2p") = fspiop_msg GENERIC_ID_NOT_FOUND (js "DFSP list not found for usecase: " ++ js "p2p") /\
  exists status m, oracle (x_ask (Failed (Some 404) (js "gone"))) = Failed status m.
Proof.
  split; [done|].
  destruct (oracle_errors (S := keyspace) (fun v : jsstr => Ok v) (fun v => v) 180000 1000 (Some (js "p2p ")) (x_ask (Failed (Some 404) (js "gone"))) ∅
    (fspiop_msg GENERIC_ID_NOT_FOUND (js "DFSP list not found for usecase: p2p"))) as (status & m & H & _); [by vm_compute|]. by exists status, m.
Defined.
